(* ===== verification/_CoqProject ===== *)
-Q . S2P
Prelude.v
Field.v
Gf256.v
Matrix.v
Erasure.v
Fec.v
OMap.v
AvSlice.v
FecReceiver.v
FecDelivery.v
FrameQueue.v
AvPackets.v
Session.v
WireSpec.v
Text.v
Double.v
Json.v
H264.v
ZipRead.v
CameraUrl.v
Naming.v
TransCode.v
DtlsRecord.v
Iotc.v
DtlsHandshake.v
DtlsServer.v
DtlsAgree.v
DtlsAuth.v
IotcConn.v
IotcRdv.v
Tunnel.v
Tls.v
TunnelSession.v
TunnelUpload.v
Rtp.v
Rtsp.v
RtspClient.v
RtspSession.v
RtspPassthrough.v
Calendar.v
FtpsParse.v
Ftps.v
FtpsBridge.v
Config.v
ConfigFix.v
Ssdp.v
SsdpListener.v
ProjectFile.v
PrintJob.v
CoverCache.v
CoverServer.v
StatusPatch.v
JsonText.v
Firmware.v
ErrTable.v
Reports.v
Signing.v
