(* ===== verification/Prelude.v ===== *)
(** * Open Bamboo Networking: verified models of its core logic

    Open Bamboo Networking is a replacement for the network plugin and the
    media source library of Bambu Studio. This library models the parts of
    its C++ code that decide something by themselves (codecs, parsers, protocol
    state machines) and proves what makes them correct. File and function names
    below are those under [src/src], [src/stubs] and [src/include/obn].

    ** How the parts interact

    A camera URL ([CameraUrl]) names a printer and its credentials. The TUTK
    client finds it on the LAN or through the rendezvous servers ([IotcRdv]),
    runs a DTLS-PSK handshake ([DtlsHandshake]) over scrambled datagrams
    ([TransCode], [Iotc]), and exchanges encrypted application data
    ([DtlsRecord], [IotcConn]). Inside it the AV session ([Session]) logs in,
    answers probes and heartbeats, and turns video packets into frames:
    slice headers ([AvSlice]) go through the FEC receiver ([FecReceiver],
    recovering with the code of [Fec]) into the frame queue ([FrameQueue]). The
    frames are H.264 ([H264]). On the LAN a printer is also reached through a
    TLS tunnel: frames and JSON messages ([Tunnel]), the login and the receive
    loop ([TunnelSession]), and on them uploads, downloads and listings
    ([TunnelUpload]), and through RTSP over TLS ([RtspClient]), whose packets
    ([Rtp]) become NAL units and then the samples of the media source
    ([RtspPassthrough]). Files also go over FTP with TLS ([Ftps]), which the media
    source can serve the file browser from ([FtpsBridge]).

    The settings come from obn.conf ([Config]), which the plugin also repairs
    ([ConfigFix]). Printers announce themselves over SSDP ([Ssdp], [SsdpListener]).
    A print over the LAN ([PrintJob]) builds its command ([ProjectFile], with the
    names of [Naming]), uploads the archive ([Ftps] or [TunnelUpload]) and publishes
    the command; its picture is staged for the cover cache ([CoverCache]), from which
    the cover server ([CoverServer]) answers the slicer. The frames of the printers
    reach the agent over the LAN and the cloud ([Reports]): it notes what they tell
    of the printer, sends refused commands again, chooses between the two sources,
    patches the LAN frames and starts covers ([StatusPatch]), keeps a firmware table
    ([Firmware]) and words error codes ([ErrTable]). Commands to a printer are signed
    and their secrets encrypted ([Signing]). All of them use JSON ([Json]);
    archives are read by [ZipRead].

    ** Files

    - [Prelude]: bytes, machine widths, little-endian fields, buffers, lists; the
      hint databases [gf] and [bytes].
    - [Field], [Gf256], [Matrix], [Erasure], [Fec]: camera/tutk/Fec.cpp. A class
      of field operations with its laws; the tables of the Gf struct and the
      proof that they are GF(2^8); Gauss-Jordan over any such field; the
      interface the receiver uses of the code; the systematic Vandermonde code.
      [Fec.recover] and [Fec.encode] are fec::recover and fec::encode.
    - [OMap]: std::map as an association list in key order.
    - [AvSlice], [FecReceiver], [FecDelivery], [FrameQueue], [AvPackets],
      [Session], [WireSpec]: camera/tutk/TutkSession.cpp. Parsing a slice
      header; the FEC receiver; what it delivers of a sender's group; the frame
      queue and the legacy assembler; the login and IOCtrl packets; the worker
      (connect, login, receive, heartbeats) in a state and output monad; the
      wire contract the printer checks and the refinement.
    - [Text], [Double]: the std::string, strtol and stod/ostream functions the
      parsers call, bit-exact doubles on the Standard Library's SpecFloat.
    - [Json]: json_lite.cpp. [H264]: stubs/h264_avcc.cpp. [ZipRead]:
      zip_read.cpp. [CameraUrl]: camera_url.cpp with the URL parsers of
      TutkCameraSource.cpp, abi_ft.cpp and BambuSource.cpp. [Naming]:
      print_job_naming.cpp and cover_key.cpp.
    - [TransCode], [DtlsRecord], [Iotc], [DtlsHandshake], [IotcConn], [IotcRdv]:
      camera/tutk/IotcClient.cpp: scrambling, record protection and the PRF,
      datagrams and address records, the handshake, the connection, discovery
      and rendezvous. [DtlsServer] is not code of the program: it is a
      conforming server written from the RFCs, against which [DtlsAgree] proves
      the handshake; [DtlsAuth] proves what a completed handshake rests on.
    - [Tls]: the read and write loops of tls_dial.cpp and the tunnel, with
      SSL_read and SSL_write as a script of results; calls that succeed, reach
      the end or fail, as a monad.
    - [Tunnel]: the frames of tunnel_local.cpp, the builders and reply parsers
      of tunnel_upload.cpp. [TunnelSession]: tunnel_local.cpp's Session. [TunnelUpload]: the
      request and reply calls of tunnel_upload.cpp over a session.
    - [Rtp], [Rtsp], [RtspClient], [RtspSession]: stubs/rtsp_client.cpp:
      depacketisation, statistics and RTCP; base64, challenges, responses and
      session descriptions; the client's state with every operation; what a
      session sends and delivers. [RtspPassthrough]: stubs/rtsp_passthrough.cpp,
      its two threads as a schedule of events.
    - [Calendar]: timegm and gmtime. [FtpsParse]: ftps_parse.hpp. [Ftps]: ftps.cpp,
      the control connection as a script of what arrives, the data connections
      as a list of what they will meet. [FtpsBridge]: the part of BambuSource.cpp
      behind force_ftps: the session on demand and a handler per request.
    - [Config], [ConfigFix]: config.cpp: reading
      obn.conf line by line, what it ends as when it is loaded, and the rewriting of
      its lines. [Ssdp], [SsdpListener]: ssdp.cpp: datagrams to announcements and
      their JSON; the listener's thread and its callers as steps.
    - [ProjectFile], [PrintJob]: print_job.cpp, print_params_ftp_prefs.cpp, mqtt_seq.hpp:
      the command's text; the flow of a local print over uploads, publications and
      cancellations. [CoverCache]: cover_cache.cpp, a lock at a step. [CoverServer]: a
      request of cover_server.cpp.
    - [StatusPatch], [Firmware], [Reports]: agent.cpp: the patches of a frame's text
      and the table of print ids; the firmware table and its answer; the handlers
      of LAN and cloud frames, with the watchdog. [ErrTable]: err_table.cpp.
      [Signing]: the envelopes and encrypted fields of signing.cpp. [JsonText]:
      lemmas on JSON written by hand.

    State is a [Record] per component with the fields of the C++ object; an
    operation is a function from the state and its inputs to the new state, the
    return value and what it sends. Clocks, random bytes, sockets and callbacks
    are inputs (times, lists of datagrams with their arrival times) and outputs
    (lists of what is sent or delivered). Integers are [Z] with the wrap-around
    of their width written out ([u8] ... [u64], [s16], [s32]).

    ** What is proved

    - The code corrects erasures: any k of the blocks of a group restore it, and
      fewer are refused ([Fec]); the receiver delivers a group when k of its
      packets arrive ([FecDelivery]) and stays within its window
      ([FecReceiver]).
    - The frame queue emits only whole frames, accounts for every frame number
      once and in order, gates inter frames after a loss, is a plain player on a
      stream without loss, and its loop ends ([FrameQueue]).
    - All a session sends while receiving satisfies the wire contract
      ([WireSpec]).
    - The handshake completes with every conforming server and both sides agree
      on their keys ([DtlsAgree]); a session rests on the password ([DtlsAuth]);
      records open again, are accepted only when authentic, and no nonce is used
      twice ([DtlsRecord]); the PRF is the one of the RFC; scrambling is undone
      ([TransCode]); sessions stay well-formed and data crosses the connection
      both ways ([IotcConn]); a rendezvous ends only on the protocol's three ends,
      and the LAN search finds exactly who answers ([IotcRdv]); the address
      lists are bounded, distinct and complete ([Iotc]).
    - Messages come out of a tunnel the same however the reads cut them, and
      what is sent reads back ([Tunnel]); a tunnel becomes ready when the
      printer accepts, and only then ([TunnelSession]); an upload to an
      answering printer completes, one that reports success has sent the file
      from the offset the printer asked for, and a download is the bytes the
      chunks carried ([TunnelUpload]).
    - An RTSP session is established with the requests and credentials the RFCs
      ask for, and every picture a camera packetises is delivered
      ([RtspSession]); receiver reports state the loss ([Rtp]); under every
      schedule the caller of the passthrough gets pictures in order and the end,
      from a bounded queue, all of them if it polls often enough, and an error
      when the stream is dead ([RtspPassthrough]).
    - An FTPS transfer that reports success carried the file, and one with a
      server that accepts it succeeds, however replies are cut; nothing is said to
      an unverified server ([Ftps]); the file browser's replies put files and
      archives together again and list what ls printed ([FtpsBridge]).
    - JSON text is parsed totally, within its nesting bound, and dump and parse
      are inverse ([Json]); Annex-B streams are converted and parameter sets
      decoded as an encoder writes them, the frame rate to the nearest whole
      number by the rounding lemmas of [Double] ([H264]); archives read back what a
      writer wrote ([ZipRead]); URLs keep their credentials and addresses
      ([CameraUrl]); names are safe ([Naming]).
    - Blocking the cloud is taken out of obn.conf with every other setting kept,
      and a pass that fails leaves the file, but for the cases of a failing close
      and of Windows' removal, which are shown ([ConfigFix]). An announcement becomes one report with its fields, the socket of
      the listener has one owner at a time and stopping ends ([Ssdp], [SsdpListener]).
    - The command of a print is JSON with the fields of the job ([ProjectFile]); a
      local print follows its abstract flow, publishes a command only for the file
      it has put on the printer under the command's path, and one that meets no
      failure completes ([PrintJob]). Covers are fetched once at a time and a staged one is that of its
      print ([CoverCache]); their addresses lead back to them and no other file can
      be read ([CoverServer]).
    - What the agent makes of a printer depends on that printer's frames alone and
      follows an abstract machine; a refused print is sent again, once for a task
      ([Reports]). A LAN frame changes only in the ids of its print and in the health
      message it filters ([StatusPatch]); firmware replies are recorded and answered
      as JSON with the right order of versions ([Firmware]); the codes of a frame,
      and no others, are logged with their words ([ErrTable]).
    - A signed command is its header and the bytes that were signed, and says what it
      said; its secret reaches the printer encrypted ([Signing]).

    ** Bounds and fuel

    A loop whose end is not structural takes fuel, computed from its input by a
    named function: the length of the text or buffer still to be read, the number
    of queued datagrams plus the milliseconds left, or a measure. That it is
    enough is proved: [Json.parse_total], [Ftps.reply_ends], [FrameQueue.flush_terminates],
    [IotcConn.recv_app_returns], the last case of [IotcRdv.rendezvous_sound],
    [TunnelUpload.transfer_fuel_enough], and elsewhere by theorems whose result
    the fuel must reach ([DtlsAgree.handshake_completes],
    [ZipRead.read_entry_roundtrip], [TunnelUpload.upload_completes],
    [RtspSession.video_delivered], whose loops take at least a byte a pass). The length
    of a tunnel frame is added in 32 bits, as in the code; a length that wraps
    is an outcome of its own, [Overreads], and not a value.

    ** Assumptions

    OpenSSL (HMAC, SHA, AES-CBC, ChaCha20-Poly1305, X25519) and zlib (inflate,
    crc32) are parameters; what is used of them are the laws of the class
    [DtlsRecord.CryptoLaws] (lengths, decryption inverts encryption) and
    hypotheses of [ZipRead]. Each theorem with such a hypothesis has a witness
    with concrete functions. MD5 is a parameter of [TunnelUpload], [FtpsBridge] and the RTSP
    client, whose random nonces are an input. Name resolution, the interface list
    and [sendto] are functions that are passed in; RSA is an argument of [Signing] with what
    OpenSSL documents of a block ([Signing.opened_by]). The passthrough needs of its
    client only the class [RtspPassthrough.NaluSource], of which the RTSP client
    is an instance.

    The tables of err_table_data.cpp are arguments of [ErrTable] and [Reports] that
    are sorted. What a frame meets outside the agent (the clock, certificates on
    disk, whether threads start) is the record [Reports.Env]; what it sets off there is
    the list of acts.

    ** Not modelled

    Sockets, TLS dialling, HTTP and MQTT clients and the certificate stores
    are calls into the operating system, libcurl, libmosquitto and OpenSSL
    whose results the code passes on; cloud sessions, presets, accounts and cloud prints
    are sequences of such calls. The C ABI (abi_*.cpp) hands arguments to the agent.
    Threads and locks are modelled as steps where an order of theirs matters
    ([SsdpListener], [CoverCache], [RtspPassthrough], [Reports]) and left out elsewhere.
    DirectShow and the players need the platform's media libraries; tools,
    bindings and the generated err_table_data.cpp carry no logic of the plugin.
    In BambuSource.cpp the URL code and the FTPS file browser are modelled, in
    agent.cpp the URL code, the frames and the firmware table; of FTPS the TLS
    shutdown and the lengths of timeouts are left out. Of the tunnel files the
    progress parsers, poll_incoming_wire (no caller) and the functions around title
    matching and thumbnails are left out. *)

From stdpp Require Export base list numbers countable option decidable sets.
From Stdlib Require Export ZArith Lia.
From Stdlib Require Strings.Byte Strings.String.
Export Strings.String.StringSyntax Strings.Byte.ByteNotations.

#[global] Open Scope Z_scope.

(** [gf]: well-formedness of matrices and byte blocks; [bytes]: lengths and
    ranges of buffers. *)
Create HintDb gf.
Create HintDb bytes.
Create Rewrite HintDb bytes.

(** ** Bytes: [char] and [uint8_t] *)

Abbreviation byte := Byte.byte.
Abbreviation x00 := Byte.x00.
Abbreviation x01 := Byte.x01.

(** The value of a byte, and the conversion [(uint8_t)z] of an integer. *)
Definition bz (b : byte) : Z := Z.of_N (Byte.to_N b).
Definition zb (z : Z) : byte :=
  match Byte.of_N (Z.to_N (z mod 256)) with Some b => b | None => x00 end.

#[global] Instance byte_eq_dec : EqDecision byte := Byte.byte_eq_dec.
#[global] Instance byte_inhabited : Inhabited byte := populate x00.
#[global, program] Instance byte_countable : Countable byte :=
  inj_countable Byte.to_N Byte.of_N _.
Next Obligation. intros b. apply Byte.of_to_N. Qed.

Lemma bz_range b : 0 <= bz b < 256.
Proof.
  unfold bz. destruct (Byte.of_N_None_iff (Byte.to_N b)) as [_ H].
  destruct (decide (255 < Byte.to_N b)%N) as [Hb|Hb]; [|lia].
  rewrite Byte.of_to_N in H. specialize (H Hb). discriminate.
Qed.

Lemma zb_bz b : zb (bz b) = b.
Proof.
  unfold zb. pose proof (bz_range b). rewrite Z.mod_small by lia.
  unfold bz. rewrite N2Z.id, Byte.of_to_N. done.
Qed.

Lemma bz_zb z : bz (zb z) = z mod 256.
Proof.
  unfold zb. pose proof (Z.mod_pos_bound z 256 ltac:(lia)) as Hr.
  destruct (Byte.of_N (Z.to_N (z mod 256))) as [b|] eqn:E.
  - apply Byte.to_of_N in E. unfold bz. rewrite E. lia.
  - apply Byte.of_N_None_iff in E. lia.
Qed.

Lemma bz_zb_small z : 0 <= z < 256 -> bz (zb z) = z.
Proof. intros. rewrite bz_zb. apply Z.mod_small. lia. Qed.

#[global] Instance bz_inj : Inj (=) (=) bz.
Proof. intros a b H. rewrite <- (zb_bz a), <- (zb_bz b), H. done. Qed.

Lemma bz_eqb_0 a : (bz a =? 0) = bool_decide (a = x00).
Proof.
  case_bool_decide as H; [by subst|]. apply Z.eqb_neq. intros E. apply H, bz_inj, E.
Qed.

(** Every byte, and proofs by evaluating a test on all of them. *)
Definition all_bytes : list byte := zb <$> seqZ 0 256.

Lemma elem_of_all_bytes b : b ∈ all_bytes.
Proof.
  unfold all_bytes. apply list_elem_of_fmap. exists (bz b).
  rewrite zb_bz. split; [done|]. apply elem_of_seqZ.
  pose proof (bz_range b). lia.
Qed.

Lemma byte_forall (P : byte -> bool) :
  forallb P all_bytes = true -> forall b, P b = true.
Proof.
  intros H b. rewrite forallb_forall in H. apply H.
  apply list_elem_of_In, elem_of_all_bytes.
Qed.

Lemma byte_forall2 (P : byte -> byte -> bool) :
  forallb (fun a => forallb (P a) all_bytes) all_bytes = true ->
  forall a b, P a b = true.
Proof.
  intros H a. apply byte_forall. revert a.
  apply (byte_forall (fun a => forallb (P a) all_bytes)). exact H.
Qed.

(** A boolean fact about the numbers below a bound, by evaluation. *)
Lemma below_forall (P : Z -> bool) n : forallb P (seqZ 0 n) = true -> forall i, 0 <= i < n -> P i = true.
Proof.
  intros H i Hi. rewrite forallb_forall in H. apply H. apply list_elem_of_In, elem_of_seqZ. lia.
Qed.

(** Prove [bool_decide P = true]-style facts on one or two bytes. *)
Ltac byte_exhaust1 P b :=
  let H := fresh in
  assert (H : P b = true);
  [ revert b; apply (byte_forall P); vm_compute; reflexivity | ].

(** The instance at [b] of a boolean fact about all bytes. *)
Ltac byte_fact P b H :=
  pose proof (byte_forall P ltac:(vm_compute; reflexivity) b) as H; cbv beta in H.

(** Exclusive or on bytes. *)
Definition bxor (a b : byte) : byte := zb (Z.lxor (bz a) (bz b)).

(** ** [std::string]: a list of bytes *)

Abbreviation cstr := (list byte).
Definition str (s : String.string) : cstr := String.list_byte_of_string s.
Arguments str s%_string_scope.

(** Comparing a character with a character literal. *)
Definition beq (a b : byte) : bool := bz a =? bz b.
Definition in_range (lo c hi : byte) : bool := (bz lo <=? bz c) && (bz c <=? bz hi).

Lemma beq_eq a b : beq a b = true <-> a = b.
Proof. unfold beq. rewrite Z.eqb_eq. split; [apply bz_inj | congruence]. Qed.

Lemma beq_refl a : beq a a = true.
Proof. by apply beq_eq. Qed.

Lemma beq_neq a b : beq a b = false <-> a <> b.
Proof. rewrite <- beq_eq. destruct (beq a b); split; congruence. Qed.

Lemma beq_spec a b : reflect (a = b) (beq a b).
Proof. apply iff_reflect. symmetry. apply beq_eq. Qed.

(** ** Machine integers: the unsigned and two's-complement wrap-around *)

Definition u8 (z : Z) : Z := z mod 2 ^ 8.
Definition u16 (z : Z) : Z := z mod 2 ^ 16.
Definition u32 (z : Z) : Z := z mod 2 ^ 32.
Definition u64 (z : Z) : Z := z mod 2 ^ 64.

Lemma u8_small z : 0 <= z < 256 -> u8 z = z.
Proof. apply Z.mod_small. Qed.
Lemma u16_small z : 0 <= z < 2 ^ 16 -> u16 z = z.
Proof. apply Z.mod_small. Qed.
Lemma u32_small z : 0 <= z < 2 ^ 32 -> u32 z = z.
Proof. apply Z.mod_small. Qed.
Lemma u64_small z : 0 <= z < 2 ^ 64 -> u64 z = z.
Proof. apply Z.mod_small. Qed.

(** [v.size ()] as an integer. *)
Definition zlen {A} (l : list A) : Z := Z.of_nat (length l).

Lemma lxor_range a b n : 0 <= n -> 0 <= a < 2 ^ n -> 0 <= b < 2 ^ n -> 0 <= Z.lxor a b < 2 ^ n.
Proof.
  intros Hn Ha Hb. assert (H0 : 0 <= Z.lxor a b) by (apply Z.lxor_nonneg; lia). split; [done|].
  assert (Hmod : Z.lxor a b = Z.lxor a b mod 2 ^ n); [|rewrite Hmod; apply Z.mod_pos_bound; lia].
  apply Z.bits_inj'. intros i Hi. destruct (decide (i < n)).
  - by rewrite Z.mod_pow2_bits_low by lia.
  - rewrite Z.mod_pow2_bits_high by lia. rewrite Z.lxor_spec.
    rewrite <- (Z.mod_small a (2 ^ n)), <- (Z.mod_small b (2 ^ n)) by done.
    by rewrite !Z.mod_pow2_bits_high by lia.
Qed.

Lemma to_nat_zlen {A} (l : list A) : Z.to_nat (zlen l) = length l.
Proof. apply Nat2Z.id. Qed.
Lemma zlen_nonneg {A} (l : list A) : 0 <= zlen l.
Proof. apply Zle_0_nat. Qed.

Definition signed (w z : Z) : Z :=
  let r := z mod 2 ^ w in if r <? 2 ^ (w - 1) then r else r - 2 ^ w.
Definition s16 (z : Z) : Z := signed 16 z.
Definition s32 (z : Z) : Z := signed 32 z.

Lemma signed_small w z :
  0 < w -> - 2 ^ (w - 1) <= z < 2 ^ (w - 1) -> signed w z = z.
Proof.
  intros Hw Hz. unfold signed.
  assert (Hp : 2 ^ w = 2 * 2 ^ (w - 1)).
  { rewrite <- Z.pow_succ_r by lia. f_equal. lia. }
  destruct (decide (0 <= z)).
  - rewrite Z.mod_small by lia. destruct (Z.ltb_spec z (2 ^ (w - 1))); lia.
  - rewrite <- (Z.mod_unique z (2 ^ w) (-1) (z + 2 ^ w)) by lia.
    destruct (Z.ltb_spec (z + 2 ^ w) (2 ^ (w - 1))); lia.
Qed.

Lemma signed_range w z :
  0 < w -> - 2 ^ (w - 1) <= signed w z < 2 ^ (w - 1).
Proof.
  intros Hw. unfold signed.
  assert (Hp : 2 ^ w = 2 * 2 ^ (w - 1)).
  { rewrite <- Z.pow_succ_r by lia. f_equal. lia. }
  pose proof (Z.mod_pos_bound z (2 ^ w) ltac:(lia)).
  destruct (Z.ltb_spec (z mod 2 ^ w) (2 ^ (w - 1))); lia.
Qed.

(** ** Little- and big-endian fields of a buffer *)

(** The byte at an index; reads past the end are the model's [x00], and the
    bounds theorems show the code never performs one. *)
Definition at_ (p : list byte) (i : nat) : byte := p !!! i.
Definition zat (p : list byte) (i : nat) : Z := bz (at_ p i).

Definition le16 (p : list byte) (i : nat) : Z := zat p i + 2 ^ 8 * zat p (i + 1).
Definition le32 (p : list byte) (i : nat) : Z :=
  zat p i + 2 ^ 8 * zat p (i + 1) + 2 ^ 16 * zat p (i + 2) + 2 ^ 24 * zat p (i + 3).

Definition enc_le16 (v : Z) : list byte := [zb v; zb (v / 2 ^ 8)].
Definition enc_le32 (v : Z) : list byte :=
  [zb v; zb (v / 2 ^ 8); zb (v / 2 ^ 16); zb (v / 2 ^ 24)].

(** [memcpy (buf + off, src, length src)] into a buffer. *)
Definition splice (off : nat) (src buf : list byte) : list byte :=
  list_inserts off src buf.

(** [substr (off, len)] / the bytes [p + off .. p + off + len). *)
Definition sub {A} (off len : nat) (l : list A) : list A := take len (drop off l).

Lemma length_splice off src buf : length (splice off src buf) = length buf.
Proof. apply length_inserts. Qed.

Lemma sub_app_l {A} (off len : nat) (l l' : list A) :
  (off + len <= length l)%nat -> sub off len (l ++ l') = sub off len l.
Proof.
  intros H. unfold sub. rewrite drop_app_le by lia.
  rewrite take_app_le; [done|]. rewrite length_drop. lia.
Qed.

Lemma length_sub {A} (off len : nat) (l : list A) :
  (off + len <= length l)%nat -> length (sub off len l) = len.
Proof. intros H. unfold sub. rewrite length_take, length_drop. lia. Qed.

(** ** Generic list lemmas *)

Lemma list_lookup_total_fmap {A B} `{Inhabited A, Inhabited B} (f : A -> B) (l : list A) i :
  (i < length l)%nat -> (f <$> l) !!! i = f (l !!! i).
Proof.
  intros Hi. destruct (lookup_lt_is_Some_2 l i Hi) as [x Hx].
  rewrite !list_lookup_total_alt, list_lookup_fmap, Hx. done.
Qed.

Lemma list_lookup_total_ge {A} `{Inhabited A} (l : list A) i :
  (length l <= i)%nat -> l !!! i = inhabitant.
Proof. intros H'. rewrite list_lookup_total_alt, lookup_ge_None_2 by lia. done. Qed.

Lemma lookup_total_some {A} `{Inhabited A} (l : list A) i x :
  l !! i = Some x -> l !!! i = x.
Proof. apply list_lookup_total_correct. Qed.

Lemma lookup_some_total {A} `{Inhabited A} (l : list A) i :
  (i < length l)%nat -> l !! i = Some (l !!! i).
Proof.
  intros Hi. destruct (lookup_lt_is_Some_2 l i Hi) as [x Hx].
  rewrite Hx. f_equal. symmetry. by apply lookup_total_some.
Qed.

Lemma foldl_ext_in {A B} (f g : A -> B -> A) l a :
  (forall a b, b ∈ l -> f a b = g a b) -> foldl f a l = foldl g a l.
Proof.
  revert a. induction l as [|b l IH]; intros a H; simpl; [done|].
  rewrite (H a b) by left. apply IH. intros a' b' Hb. apply H. by right.
Qed.

Lemma filter_none {A} (P : A -> Prop) `{!forall x, Decision (P x)} (l : list A) :
  (forall x, x ∈ l -> ~ P x) -> filter P l = [].
Proof.
  induction l as [|x l IH]; intros HP; [done|]. rewrite filter_cons, decide_False.
  - apply IH. intros y Hy. apply HP. by right.
  - apply HP. left.
Qed.

Lemma filter_all {A} (P : A -> Prop) `{!forall x, Decision (P x)} (l : list A) :
  (forall x, x ∈ l -> P x) -> filter P l = l.
Proof.
  induction l as [|x l IH]; intros HP; [done|]. rewrite filter_cons, decide_True.
  - f_equal. apply IH. intros y Hy. apply HP. by right.
  - apply HP. left.
Qed.

(** ** Writing fields of a buffer *)

(** [p[i] = v], [put_le16(p + i, v)], [put_le32(p + i, v)]. *)
Definition put8 (i : nat) (v : Z) (p : list byte) : list byte := splice i [zb v] p.
Definition put_le16 (i : nat) (v : Z) (p : list byte) : list byte := splice i (enc_le16 v) p.
Definition put_le32 (i : nat) (v : Z) (p : list byte) : list byte := splice i (enc_le32 v) p.

Lemma length_put8 i v p : length (put8 i v p) = length p.
Proof. apply length_splice. Qed.
Lemma length_put_le16 i v p : length (put_le16 i v p) = length p.
Proof. apply length_splice. Qed.
Lemma length_put_le32 i v p : length (put_le32 i v p) = length p.
Proof. apply length_splice. Qed.
#[export] Hint Rewrite @length_replicate @length_app @length_take @length_drop length_splice
  length_put8 length_put_le16 length_put_le32 : bytes.

(** A write into the buffer replaces the bytes it covers and no others. *)
Lemma at_splice off src buf i :
  (off + length src <= length buf)%nat ->
  at_ (splice off src buf) i =
  if decide (off <= i < off + length src)%nat then at_ src (i - off) else at_ buf i.
Proof.
  intros Hl. unfold at_, splice. rewrite !list_lookup_total_alt. case_decide as Hi.
  - rewrite list_lookup_inserts by lia. done.
  - destruct (decide (i < off)%nat).
    + rewrite list_lookup_inserts_lt by lia. done.
    + rewrite list_lookup_inserts_ge by lia. done.
Qed.

Lemma sub_splice_same off src buf n :
  (off + length src <= length buf)%nat -> n = length src -> sub off n (splice off src buf) = src.
Proof.
  intros Hl ->. unfold sub. apply list_eq. intros i.
  destruct (decide (i < length src)%nat) as [Hi|Hi].
  - rewrite lookup_take_lt, lookup_drop by lia. unfold splice.
    rewrite list_lookup_inserts by lia. f_equal. lia.
  - rewrite (lookup_ge_None_2 src) by lia. apply lookup_ge_None_2.
    rewrite length_take. lia.
Qed.

Lemma sub_splice_other off src buf a n :
  (off + length src <= length buf)%nat ->
  (a + n <= off \/ off + length src <= a)%nat ->
  sub a n (splice off src buf) = sub a n buf.
Proof.
  intros Hl Hd. unfold sub. apply list_eq. intros i.
  destruct (decide (i < n)%nat) as [Hi|Hi].
  - rewrite !lookup_take_lt, !lookup_drop by lia. unfold splice. destruct Hd.
    + rewrite list_lookup_inserts_lt by lia. done.
    + rewrite list_lookup_inserts_ge by lia. done.
  - rewrite !lookup_take_ge by lia. done.
Qed.

(** Little-endian fields read back what was written. *)
Lemma sub_le16 p i : (i + 2 <= length p)%nat -> sub i 2 p = [at_ p i; at_ p (i + 1)].
Proof.
  intros Hl. unfold sub, at_. apply list_eq. intros [|[|j]].
  - rewrite lookup_take_lt, lookup_drop, Nat.add_0_r by lia. apply lookup_some_total. lia.
  - rewrite lookup_take_lt, lookup_drop by lia. apply lookup_some_total. lia.
  - rewrite lookup_take_ge by lia. done.
Qed.

Lemma sub_le32 p i :
  (i + 4 <= length p)%nat ->
  sub i 4 p = [at_ p i; at_ p (i + 1); at_ p (i + 2); at_ p (i + 3)].
Proof.
  intros Hl. unfold sub, at_. apply list_eq. intros [|[|[|[|j]]]].
  - rewrite lookup_take_lt, lookup_drop, Nat.add_0_r by lia. apply lookup_some_total. lia.
  - rewrite lookup_take_lt, lookup_drop by lia. apply lookup_some_total. lia.
  - rewrite lookup_take_lt, lookup_drop by lia. apply lookup_some_total. lia.
  - rewrite lookup_take_lt, lookup_drop by lia. apply lookup_some_total. lia.
  - rewrite lookup_take_ge by lia. done.
Qed.

Lemma le16_of_sub p i v :
  (i + 2 <= length p)%nat -> sub i 2 p = enc_le16 v -> le16 p i = u16 v.
Proof.
  intros Hl H. rewrite sub_le16 in H by done. injection H as H1 H2.
  unfold le16, zat. rewrite H1, H2, !bz_zb. unfold u16.
  change (2 ^ 16) with (256 * 256). change (2 ^ 8) with 256.
  rewrite (Z.rem_mul_r v 256 256) by lia. done.
Qed.

Lemma le32_of_sub p i v :
  (i + 4 <= length p)%nat -> sub i 4 p = enc_le32 v -> le32 p i = u32 v.
Proof.
  intros Hl H. rewrite sub_le32 in H by done. injection H as H1 H2 H3 H4.
  unfold le32, zat. rewrite H1, H2, H3, H4, !bz_zb. unfold u32.
  change (2 ^ 8) with 256. change (2 ^ 16) with (256 * 256).
  change (2 ^ 24) with (256 * (256 * 256)). change (2 ^ 32) with (256 * (256 * (256 * 256))).
  rewrite (Z.rem_mul_r v 256 (256 * (256 * 256))) by lia.
  rewrite (Z.rem_mul_r (v / 256) 256 (256 * 256)) by lia.
  rewrite (Z.rem_mul_r (v / 256 / 256) 256 256) by lia.
  rewrite !Z.div_div by lia. change (256 * 256 * 256) with (256 * (256 * 256)). lia.
Qed.

Lemma at_of_sub p i v : (i < length p)%nat -> sub i 1 p = [zb v] -> zat p i = u8 v.
Proof.
  intros Hl H. unfold zat, at_.
  assert (Hs : sub i 1 p !! 0%nat = Some (zb v)) by (by rewrite H).
  unfold sub in Hs. rewrite lookup_take_lt, lookup_drop, Nat.add_0_r in Hs by lia.
  rewrite (lookup_total_some _ _ _ Hs). apply bz_zb.
Qed.

(** A field at the head of concatenated chunks. *)
Lemma le16_enc v r : le16 (zb v :: zb (v / 2 ^ 8) :: r) 0 = u16 v.
Proof. apply (le16_of_sub _ 0); [simpl; lia | done]. Qed.

Lemma le32_enc v r :
  le32 (zb v :: zb (v / 2 ^ 8) :: zb (v / 2 ^ 16) :: zb (v / 2 ^ 24) :: r) 0 = u32 v.
Proof. apply (le32_of_sub _ 0); [simpl; lia | done]. Qed.

Lemma at_drop p i j : at_ (drop i p) j = at_ p (i + j).
Proof. unfold at_. by rewrite !list_lookup_total_alt, lookup_drop. Qed.

Lemma le16_drop p i j : le16 (drop i p) j = le16 p (i + j).
Proof. unfold le16, zat. by rewrite !at_drop, !Nat.add_assoc. Qed.

Lemma le32_drop p i j : le32 (drop i p) j = le32 p (i + j).
Proof. unfold le32, zat. by rewrite !at_drop, !Nat.add_assoc. Qed.

Lemma le16_at p i : le16 p i = le16 (drop i p) 0.
Proof. by rewrite le16_drop, Nat.add_0_r. Qed.

Lemma le32_at p i : le32 p i = le32 (drop i p) 0.
Proof. by rewrite le32_drop, Nat.add_0_r. Qed.

Lemma le16_nonneg p i : 0 <= le16 p i.
Proof.
  unfold le16, zat. pose proof (bz_range (at_ p i)). pose proof (bz_range (at_ p (i + 1))). lia.
Qed.

Lemma le32_nonneg p i : 0 <= le32 p i.
Proof.
  unfold le32, zat. pose proof (bz_range (at_ p i)). pose proof (bz_range (at_ p (i + 1))).
  pose proof (bz_range (at_ p (i + 2))). pose proof (bz_range (at_ p (i + 3))). lia.
Qed.

Lemma sub_app_r {A} (a r : list A) i n :
  (length a <= i)%nat -> sub i n (a ++ r) = sub (i - length a) n r.
Proof. intros H. unfold sub. by rewrite drop_app_ge. Qed.

Lemma sub_app_head {A} (a r : list A) n : n = length a -> sub 0 n (a ++ r) = a.
Proof. intros ->. unfold sub. simpl. apply take_app_length. Qed.

Ltac buf_len := rewrite ?length_splice, ?length_replicate; cbn [length enc_le16 enc_le32]; lia.

(** Reduce the field of a buffer built by writes to the write that set it. *)
Ltac field_read :=
  unfold put8, put_le16, put_le32;
  repeat first
    [ rewrite sub_splice_same by buf_len
    | rewrite sub_splice_other by buf_len ].

Lemma at_replicate n i : at_ (replicate n x00) i = x00.
Proof.
  unfold at_. rewrite list_lookup_total_alt. destruct (decide (i < n)%nat).
  - by rewrite lookup_replicate_2.
  - rewrite (lookup_ge_None_2 (replicate n x00)); [done|]. rewrite length_replicate. lia.
Qed.

(** The same for one byte. *)
Ltac byte_read :=
  unfold put8, put_le16, put_le32;
  repeat (rewrite at_splice by buf_len;
          first [ rewrite decide_False by buf_len
                | rewrite decide_True by buf_len ]);
  rewrite ?at_replicate.
