(* ===== verification/Field.v ===== *)
(** The interface between the GF(2^8) tables and the linear algebra over them:
    the operations of the [Gf] struct of [src/camera/tutk/Fec.cpp] ([^] for the
    sum, [mul], [inv], [pow]) and the laws its clients rely on. [Gf256.v]
    provides the instance; [Matrix.v] and [Fec.v] are proved against the
    interface. *)

From S2P Require Import Prelude.
From Stdlib Require Export Ring_theory Ring.

Class FieldOps := {
  fadd : byte -> byte -> byte;
  fmul : byte -> byte -> byte;
  finv : byte -> byte;
  fpow : byte -> Z -> byte
}.

Declare Scope gf_scope.
Delimit Scope gf_scope with gf.
Infix "⊕" := fadd (at level 50, left associativity) : gf_scope.
Infix "⊗" := fmul (at level 40, left associativity) : gf_scope.
#[local] Open Scope gf_scope.

(** A commutative ring of characteristic 2 in which every nonzero element has
    an inverse and no two have product zero. *)
Class FieldLaws (FO : FieldOps) : Prop := {
  f_ring : ring_theory x00 x01 fadd fmul fadd (fun a => a) (@eq byte);
  f_inv_l : forall a, a <> x00 -> finv a ⊗ a = x01;
  f_integral : forall a b, a ⊗ b = x00 -> a = x00 \/ b = x00;
  f_pow_0 : forall a, fpow a 0 = x01;
  f_pow_succ : forall a n, 0 <= n -> fpow a (n + 1) = a ⊗ fpow a n
}.

Section laws.
Context {FO : FieldOps} {L : FieldLaws FO}.

Lemma f_comm a b : a ⊕ b = b ⊕ a.
Proof. apply f_ring. Qed.
Lemma f_assoc a b c : a ⊕ (b ⊕ c) = a ⊕ b ⊕ c.
Proof. apply f_ring. Qed.
Lemma f_0_l a : x00 ⊕ a = a.
Proof. apply f_ring. Qed.
Lemma f_0_r a : a ⊕ x00 = a.
Proof. rewrite f_comm. apply f_0_l. Qed.
Lemma f_cancel a : a ⊕ a = x00.
Proof. apply f_ring. Qed.
Lemma f_mul_comm a b : a ⊗ b = b ⊗ a.
Proof. apply f_ring. Qed.
Lemma f_1_l a : x01 ⊗ a = a.
Proof. apply f_ring. Qed.
Lemma f_1_r a : a ⊗ x01 = a.
Proof. rewrite f_mul_comm. apply f_1_l. Qed.
Lemma f_mul_assoc a b c : a ⊗ (b ⊗ c) = a ⊗ b ⊗ c.
Proof. apply f_ring. Qed.
Lemma f_distr_l a b c : (a ⊕ b) ⊗ c = a ⊗ c ⊕ b ⊗ c.
Proof. apply f_ring. Qed.
Lemma f_distr_r a b c : c ⊗ (a ⊕ b) = c ⊗ a ⊕ c ⊗ b.
Proof. rewrite !(f_mul_comm c). apply f_distr_l. Qed.

Lemma f_mul_0_r a : a ⊗ x00 = x00.
Proof.
  transitivity (a ⊗ (x00 ⊕ x00)); [by rewrite f_0_l|]. rewrite f_distr_r. apply f_cancel.
Qed.
Lemma f_mul_0_l a : x00 ⊗ a = x00.
Proof. rewrite f_mul_comm. apply f_mul_0_r. Qed.

Lemma f_eq a b : a ⊕ b = x00 -> a = b.
Proof.
  intros H. rewrite <- (f_0_r a), <- (f_cancel b), f_assoc, H. apply f_0_l.
Qed.

Lemma f_inv_nonzero a : a <> x00 -> finv a <> x00.
Proof.
  intros Ha Hi. pose proof (f_inv_l a Ha) as H. rewrite Hi, f_mul_0_l in H. discriminate.
Qed.
End laws.
