(* ===== verification/Gf256.v ===== *)
(** GF(2^8), polynomial 0x11d: the log/antilog tables of the [Gf] struct of
    [src/camera/tutk/Fec.cpp] built by the loops of its constructor, the
    operations [mul], [inv] and [pow] on them, and the field laws.

    What the tables hold is checked by evaluating them on their 256 (or 512)
    entries; the laws follow: associativity from the addition of logarithms
    modulo 255, distributivity because multiplying by [x^n] is [n] doublings
    and a doubling is linear. *)

From S2P Require Import Prelude Field.

(** ** The tables *)

Record Gf := { exp : list byte; log : list Z }.

(** [x <<= 1; if (x & 0x100) x ^= 0x11d]. *)
Definition xtime (x : Z) : Z :=
  let x := Z.shiftl x 1 in
  if Z.land x 0x100 =? 0 then x else Z.lxor x 0x11d.

(** [for (i < 255) { exp[i] = x; log[x] = i; x = xtime(x) }], [n] iterations
    starting at [i]. *)
Fixpoint gf_fill (n i : nat) (x : Z) (e : list byte) (l : list Z) : list byte * list Z :=
  match n with
  | O => (e, l)
  | S n' =>
      gf_fill n' (S i) (xtime x) (<[i := zb x]> e) (<[Z.to_nat x := Z.of_nat i]> l)
  end.

(** [for (i = 255; i < 512) exp[i] = exp[i - 255]]. *)
Fixpoint gf_wrap (n i : nat) (e : list byte) : list byte :=
  match n with
  | O => e
  | S n' => gf_wrap n' (S i) (<[i := e !!! (i - 255)%nat]> e)
  end.

Definition gf_init : Gf :=
  let '(e, l) := gf_fill 255 0 1 (replicate 512 x00) (replicate 256 0) in
  {| exp := gf_wrap 257 255 e; log := l |}.

Definition gf : Gf := gf_init.

Definition gf_exp (i : Z) : byte := exp gf !!! Z.to_nat i.
Definition gf_log (a : byte) : Z := log gf !!! Z.to_nat (bz a).
#[global] Opaque gf.

(** ** The operations *)

Definition nonzero (a : byte) : bool := negb (bz a =? 0).

Definition mul (a b : byte) : byte :=
  if nonzero a && nonzero b then gf_exp (gf_log a + gf_log b) else x00.

Definition inv (a : byte) : byte := gf_exp (255 - gf_log a).

Definition pow (a : byte) (n : Z) : byte :=
  if n =? 0 then x01
  else if nonzero a then gf_exp (Z.rem (gf_log a * n) 255) else x00.

#[export] Instance gf256 : FieldOps :=
  {| fadd := bxor; fmul := mul; finv := inv; fpow := pow |}.

#[local] Infix "⊕" := bxor (at level 50, left associativity).
#[local] Infix "⊗" := mul (at level 40, left associativity).

(** ** Exclusive or *)

Lemma bz_bxor a b : bz (a ⊕ b) = Z.lxor (bz a) (bz b).
Proof.
  unfold bxor. apply bz_zb_small.
  apply (lxor_range _ _ 8); [lia| |]; apply bz_range.
Qed.

Lemma bxor_comm a b : a ⊕ b = b ⊕ a.
Proof. apply bz_inj. rewrite !bz_bxor. apply Z.lxor_comm. Qed.

Lemma bxor_assoc a b c : a ⊕ (b ⊕ c) = a ⊕ b ⊕ c.
Proof. apply bz_inj. rewrite !bz_bxor. symmetry. apply Z.lxor_assoc. Qed.

Lemma bxor_0_l a : x00 ⊕ a = a.
Proof. apply bz_inj. rewrite bz_bxor. apply Z.lxor_0_l. Qed.

Lemma bxor_0_r a : a ⊕ x00 = a.
Proof. rewrite bxor_comm. apply bxor_0_l. Qed.

Lemma bxor_nilpotent a : a ⊕ a = x00.
Proof. apply bz_inj. rewrite bz_bxor. apply Z.lxor_nilpotent. Qed.

Lemma bxor_eq_0 a b : a ⊕ b = x00 -> a = b.
Proof.
  intros H. rewrite <- (bxor_0_r a), <- (bxor_nilpotent b), bxor_assoc, H.
  apply bxor_0_l.
Qed.

(** ** What the tables hold *)

Lemma gf_exp_log a : a <> x00 -> gf_exp (gf_log a) = a.
Proof.
  intros Ha.
  assert (H : beq a x00 || beq (gf_exp (gf_log a)) a = true).
  { clear Ha. revert a. apply (byte_forall (fun a => beq a x00 || beq (gf_exp (gf_log a)) a)).
    vm_compute. reflexivity. }
  apply orb_true_iff in H as [H|H]; apply beq_eq in H; congruence.
Qed.

Lemma gf_log_range a : 0 <= gf_log a < 255.
Proof.
  assert (H : (0 <=? gf_log a) && (gf_log a <? 255) = true); [|lia].
  revert a. apply (byte_forall (fun a => (0 <=? gf_log a) && (gf_log a <? 255))).
  vm_compute. reflexivity.
Qed.

(** Checking a test of the first [n] exponents. *)
Lemma exponent_forall (n : Z) (P : Z -> bool) :
  forallb P (seqZ 0 n) = true -> forall i, 0 <= i < n -> P i = true.
Proof.
  intros H i Hi. rewrite forallb_forall in H. apply H.
  apply list_elem_of_In, elem_of_seqZ. lia.
Qed.

Lemma gf_log_exp i : 0 <= i < 255 -> gf_log (gf_exp i) = i.
Proof.
  intros Hi. apply Z.eqb_eq. revert i Hi.
  apply (exponent_forall 255 (fun i => gf_log (gf_exp i) =? i)). vm_compute. reflexivity.
Qed.

Lemma gf_exp_nonzero i : 0 <= i < 255 -> gf_exp i <> x00.
Proof.
  intros Hi E. assert (H : negb (beq (gf_exp i) x00) = true).
  { revert i Hi E. intros i Hi _. revert i Hi.
    apply (exponent_forall 255 (fun i => negb (beq (gf_exp i) x00))). vm_compute. reflexivity. }
  rewrite E in H. discriminate.
Qed.

Lemma gf_exp_wrap i : 0 <= i < 257 -> gf_exp (i + 255) = gf_exp i.
Proof.
  intros Hi. apply beq_eq. revert i Hi.
  apply (exponent_forall 257 (fun i => beq (gf_exp (i + 255)) (gf_exp i))).
  vm_compute. reflexivity.
Qed.

Lemma gf_exp_mod i : 0 <= i < 512 -> gf_exp i = gf_exp (i mod 255).
Proof.
  intros Hi. destruct (decide (i < 255)); [by rewrite Z.mod_small by lia|].
  replace i with (i - 255 + 255) at 1 by lia. rewrite gf_exp_wrap by lia.
  destruct (decide (i < 510)).
  - f_equal. apply Z.mod_unique with 1; lia.
  - replace (i - 255) with (i - 510 + 255) by lia. rewrite gf_exp_wrap by lia.
    f_equal. apply Z.mod_unique with 2; lia.
Qed.

(** Doubling, on bytes; the antilog table lists its iterates. *)
Definition xt (a : byte) : byte := zb (xtime (bz a)).

Lemma gf_exp_succ i : 0 <= i < 511 -> gf_exp (i + 1) = xt (gf_exp i).
Proof.
  intros Hi. apply beq_eq. revert i Hi.
  apply (exponent_forall 511 (fun i => beq (gf_exp (i + 1)) (xt (gf_exp i)))).
  vm_compute. reflexivity.
Qed.

(** ** Doubling is linear *)

Lemma xtime_testbit x :
  xtime x = Z.lxor (Z.shiftl x 1) (if Z.testbit x 7 then 0x11d else 0).
Proof.
  unfold xtime. replace (Z.testbit x 7) with (Z.testbit (Z.shiftl x 1) 8)
    by (rewrite Z.shiftl_spec by lia; done).
  set (y := Z.shiftl x 1).
  assert (H : Z.land y 0x100 = if Z.testbit y 8 then 0x100 else 0).
  { apply Z.bits_inj'. intros n Hn. rewrite Z.land_spec.
    change 0x100 with (2 ^ 8). rewrite Z.pow2_bits_eqb by lia.
    destruct (Z.eqb_spec 8 n) as [<-|Hne].
    - rewrite andb_true_r. by destruct (Z.testbit y 8).
    - rewrite andb_false_r. destruct (Z.testbit y 8); [|by rewrite Z.bits_0].
      rewrite Z.pow2_bits_eqb by lia. symmetry. by apply Z.eqb_neq. }
  rewrite H. destruct (Z.testbit y 8); simpl; [done|]. by rewrite Z.lxor_0_r.
Qed.

Lemma xtime_lxor x y : xtime (Z.lxor x y) = Z.lxor (xtime x) (xtime y).
Proof.
  rewrite !xtime_testbit, Z.lxor_spec, Z.shiftl_lxor.
  rewrite !Z.lxor_assoc. f_equal.
  rewrite <- (Z.lxor_assoc _ (Z.shiftl y 1)), (Z.lxor_comm _ (Z.shiftl y 1)), Z.lxor_assoc.
  f_equal. by destruct (Z.testbit x 7), (Z.testbit y 7).
Qed.

Lemma xtime_range x : 0 <= x < 256 -> 0 <= xtime x < 256.
Proof.
  intros Hx. assert (H : (0 <=? xtime x) && (xtime x <? 256) = true); [|lia].
  revert x Hx. apply (exponent_forall 256 (fun x => (0 <=? xtime x) && (xtime x <? 256))).
  vm_compute. reflexivity.
Qed.

Lemma bz_xt a : bz (xt a) = xtime (bz a).
Proof. apply bz_zb_small, xtime_range, bz_range. Qed.

Lemma xt_bxor a b : xt (a ⊕ b) = xt a ⊕ xt b.
Proof. apply bz_inj. rewrite bz_xt, !bz_bxor, xtime_lxor, !bz_xt. done. Qed.

Lemma xt_iter_bxor n a b :
  Nat.iter n xt (a ⊕ b) = Nat.iter n xt a ⊕ Nat.iter n xt b.
Proof. induction n as [|n IH]; simpl; [done|]. by rewrite IH, xt_bxor. Qed.

(** ** The field laws *)

Lemma nonzero_spec a : nonzero a = true <-> a <> x00.
Proof.
  unfold nonzero. rewrite negb_true_iff, Z.eqb_neq. split.
  - intros H ->. done.
  - intros H E. apply H, bz_inj. exact E.
Qed.

Lemma mul_nonzero a b :
  a <> x00 -> b <> x00 -> a ⊗ b = gf_exp (gf_log a + gf_log b).
Proof. intros Ha%nonzero_spec Hb%nonzero_spec. unfold mul. by rewrite Ha, Hb. Qed.

Lemma mul_comm a b : a ⊗ b = b ⊗ a.
Proof. unfold mul. by rewrite andb_comm, Z.add_comm. Qed.

Lemma mul_0_l a : x00 ⊗ a = x00.
Proof. reflexivity. Qed.

Lemma mul_0_r a : a ⊗ x00 = x00.
Proof. rewrite mul_comm. reflexivity. Qed.

Lemma mul_1_l a : x01 ⊗ a = a.
Proof.
  destruct (decide (a = x00)) as [->|Ha]; [done|].
  rewrite mul_nonzero by done. change (gf_log x01) with 0.
  by apply gf_exp_log.
Qed.

Lemma mul_mod a b : a <> x00 -> b <> x00 ->
  a ⊗ b = gf_exp ((gf_log a + gf_log b) mod 255).
Proof.
  intros. rewrite mul_nonzero by done. apply gf_exp_mod.
  pose proof (gf_log_range a). pose proof (gf_log_range b). lia.
Qed.

Lemma mul_not_0 a b : a <> x00 -> b <> x00 -> a ⊗ b <> x00.
Proof.
  intros. rewrite mul_mod by done. apply gf_exp_nonzero. apply Z.mod_pos_bound. lia.
Qed.

(** A field has no zero divisors. *)
Lemma mul_eq_0 a b : a ⊗ b = x00 -> a = x00 \/ b = x00.
Proof.
  intros H. destruct (decide (a = x00)), (decide (b = x00)); auto.
  exfalso. by apply (mul_not_0 a b).
Qed.

Lemma gf_log_mul a b : a <> x00 -> b <> x00 ->
  gf_log (a ⊗ b) = (gf_log a + gf_log b) mod 255.
Proof.
  intros. rewrite mul_mod by done. apply gf_log_exp. apply Z.mod_pos_bound. lia.
Qed.

Lemma mul_assoc a b c : a ⊗ (b ⊗ c) = a ⊗ b ⊗ c.
Proof.
  destruct (decide (a = x00)) as [->|Ha]; [done|].
  destruct (decide (b = x00)) as [->|Hb]; [by rewrite mul_0_l, mul_0_r|].
  destruct (decide (c = x00)) as [->|Hc]; [by rewrite !mul_0_r|].
  rewrite (mul_mod a), (mul_mod (a ⊗ b)), !gf_log_mul by auto using mul_not_0.
  f_equal. rewrite Zplus_mod_idemp_r, Zplus_mod_idemp_l. f_equal. lia.
Qed.

Lemma mul_inv_l a : a <> x00 -> inv a ⊗ a = x01.
Proof.
  intros Ha.
  assert (H : beq a x00 || beq (inv a ⊗ a) x01 = true).
  { clear Ha. revert a. apply (byte_forall (fun a => beq a x00 || beq (inv a ⊗ a) x01)).
    vm_compute. reflexivity. }
  apply orb_true_iff in H as [H|H]; apply beq_eq in H; congruence.
Qed.

Lemma inv_nonzero a : a <> x00 -> inv a <> x00.
Proof.
  intros Ha Hi. pose proof (mul_inv_l a Ha) as H. rewrite Hi in H. discriminate.
Qed.

(** Multiplying by [x^n] doubles [n] times. *)
Lemma gf_exp_iter i n :
  0 <= i -> i + Z.of_nat n < 512 -> gf_exp (i + Z.of_nat n) = Nat.iter n xt (gf_exp i).
Proof.
  intros Hi. induction n as [|n IH]; intros Hn; simpl.
  - by rewrite Z.add_0_r.
  - rewrite <- IH by lia. rewrite <- gf_exp_succ by lia. f_equal. lia.
Qed.

Lemma mul_iter a b :
  b <> x00 -> a ⊗ b = Nat.iter (Z.to_nat (gf_log b)) xt a.
Proof.
  intros Hb. pose proof (gf_log_range a). pose proof (gf_log_range b).
  destruct (decide (a = x00)) as [->|Ha].
  - rewrite mul_0_l. induction (Z.to_nat (gf_log b)) as [|n IH]; [done|].
    simpl. by rewrite <- IH.
  - transitivity (Nat.iter (Z.to_nat (gf_log b)) xt (gf_exp (gf_log a))).
    + rewrite mul_nonzero by done. rewrite <- gf_exp_iter by lia. apply (f_equal gf_exp). lia.
    + by rewrite gf_exp_log.
Qed.

Lemma mul_bxor_l a b c : (a ⊕ b) ⊗ c = a ⊗ c ⊕ b ⊗ c.
Proof.
  destruct (decide (c = x00)) as [->|Hc]; [by rewrite !mul_0_r|].
  rewrite !(mul_iter _ c) by done. apply xt_iter_bxor.
Qed.

(** [pow] is repeated multiplication. *)
Lemma pow_succ a (n : Z) : 0 <= n -> pow a (n + 1) = a ⊗ pow a n.
Proof.
  intros Hn. unfold pow. destruct (Z.eqb_spec (n + 1) 0) as [|_]; [lia|].
  destruct (nonzero a) eqn:Ea; cycle 1.
  { destruct (decide (a = x00)) as [->|Ha]; [done|].
    apply nonzero_spec in Ha. congruence. }
  apply nonzero_spec in Ea. pose proof (gf_log_range a).
  rewrite !Z.rem_mod_nonneg by nia.
  destruct (Z.eqb_spec n 0) as [->|Hn0].
  - rewrite mul_comm, mul_1_l. rewrite Z.mul_1_r, Z.mod_small by lia. by apply gf_exp_log.
  - pose proof (Z.mod_pos_bound (gf_log a * n) 255 ltac:(lia)).
    rewrite mul_mod by auto using gf_exp_nonzero.
    rewrite gf_log_exp by lia. rewrite Zplus_mod_idemp_r. apply (f_equal (fun z => gf_exp (z mod 255))). lia.
Qed.

Lemma gf_ring : ring_theory x00 x01 bxor mul bxor (fun a => a) (@eq byte).
Proof.
  split; intros.
  - apply bxor_0_l.
  - apply bxor_comm.
  - apply bxor_assoc.
  - apply mul_1_l.
  - apply mul_comm.
  - apply mul_assoc.
  - apply mul_bxor_l.
  - reflexivity.
  - apply bxor_nilpotent.
Qed.

(** The tables implement the field the linear algebra relies on. *)
#[export] Instance gf256_laws : FieldLaws gf256.
Proof.
  split.
  - exact gf_ring.
  - exact mul_inv_l.
  - exact mul_eq_0.
  - reflexivity.
  - exact pow_succ.
Qed.
