(* ===== verification/Matrix.v ===== *)
(** Matrices over GF(2^8) and the Gauss-Jordan [invert] of
    [src/camera/tutk/Fec.cpp]: the definitions follow its loops (pivot search,
    row swap, scaling, elimination, on the matrix and on the accumulated
    inverse in step), and the theorems show that it computes a left inverse
    exactly when the matrix is nonsingular. *)

From S2P Require Import Prelude Field Gf256.
#[local] Open Scope gf_scope.

(** ** The code *)

Abbreviation matrix := (list (list byte)).

Section linear_algebra.
Context {FO : FieldOps}.

Definition mat_at (m : matrix) (r c : nat) : byte := (m !!! r) !!! c.

(** [Matrix inv(n, vector(n, 0)); inv[i][i] = 1]. *)
Definition identity (n : nat) : matrix :=
  (fun i => <[i := x01]> (replicate n x00)) <$> seq 0 n.

(** [while (piv < n && m[piv][col] == 0) ++piv], [fuel = n - piv]. *)
Fixpoint find_pivot (fuel piv col : nat) (m : matrix) : nat :=
  match fuel with
  | O => piv
  | S fuel' =>
      if bz (mat_at m piv col) =? 0 then find_pivot fuel' (S piv) col m else piv
  end.

(** [std::swap(m[a], m[b])]. *)
Definition swap_rows (a b : nat) (m : matrix) : matrix :=
  <[a := m !!! b]> (<[b := m !!! a]> m).

(** [m[col][j] = g.mul(m[col][j], f)] for every [j]. *)
Definition scale_row (col : nat) (f : byte) (m : matrix) : matrix :=
  <[col := (fun x => x ⊗ f) <$> (m !!! col)]> m.

(** [m[r][j] ^= g.mul(c, m[col][j])] for every [j]. *)
Definition add_row (r col : nat) (c : byte) (m : matrix) : matrix :=
  <[r := zip_with (fun x y => x ⊕ c ⊗ y) (m !!! r) (m !!! col)]> m.

(** One iteration of the elimination loop over [r]. *)
Definition eliminate_step (col : nat) (s : matrix * matrix) (r : nat) : matrix * matrix :=
  let '(m, inv) := s in
  if (r =? col)%nat || (bz (mat_at m r col) =? 0) then (m, inv)
  else
    let c := mat_at m r col in
    (add_row r col c m, add_row r col c inv).

Definition eliminate (n col : nat) (s : matrix * matrix) : matrix * matrix :=
  foldl (eliminate_step col) s (seq 0 n).

(** The body of the loop over [col]; [None] is [return false]. *)
Definition invert_col (n col : nat) (s : matrix * matrix) : option (matrix * matrix) :=
  let '(m, inv) := s in
  let piv := find_pivot (n - col) col col m in
  if (piv =? n)%nat then None
  else
    let m := swap_rows piv col m in
    let inv := swap_rows piv col inv in
    let f := finv (mat_at m col col) in
    Some (eliminate n col (scale_row col f m, scale_row col f inv)).

(** The loop over the columns: [fuel] of them from [col] on. Singular input
    leaves the matrix as the loop had transformed it. *)
Fixpoint invert_cols (fuel n col : nat) (s : matrix * matrix) : bool * matrix :=
  match fuel with
  | O => (true, s.2)
  | S fuel' =>
      match invert_col n col s with
      | None => (false, s.1)
      | Some s' => invert_cols fuel' n (S col) s'
      end
  end.

(** The result and the matrix [m] holds afterwards. *)
Definition invert (m : matrix) : bool * matrix :=
  let n := length m in invert_cols n n 0 (m, identity n).

(** ** Sums *)

Context {L : FieldLaws FO}.
Add Ring field_ring : f_ring.


Fixpoint xsum (n : nat) (f : nat -> byte) : byte :=
  match n with O => x00 | S n' => xsum n' f ⊕ f n' end.

Lemma xsum_ext n f g : (forall i, (i < n)%nat -> f i = g i) -> xsum n f = xsum n g.
Proof. intros H. induction n as [|n IH]; simpl; [done|]. rewrite IH, H by auto. done. Qed.

Lemma xsum_0 n f : (forall i, (i < n)%nat -> f i = x00) -> xsum n f = x00.
Proof.
  intros H. rewrite (xsum_ext n f (fun _ => x00)) by done. clear H.
  induction n as [|n IH]; simpl; [done|]. rewrite IH. apply f_0_l.
Qed.

Lemma xsum_add n f g : xsum n (fun i => f i ⊕ g i) = xsum n f ⊕ xsum n g.
Proof. induction n as [|n IH]; simpl; [ring|]. rewrite IH. ring. Qed.

Lemma xsum_mul n c f : xsum n (fun i => c ⊗ f i) = c ⊗ xsum n f.
Proof. induction n as [|n IH]; simpl; [by rewrite f_mul_0_r|]. rewrite IH. ring. Qed.

Lemma xsum_delta n k f :
  (k < n)%nat -> xsum n (fun i => if decide (i = k) then f i else x00) = f k.
Proof.
  intros Hk. induction n as [|n IH]; simpl; [lia|].
  destruct (decide (n = k)) as [->|Hne].
  - rewrite xsum_0; [apply f_0_l|]. intros i Hi. by rewrite decide_False by lia.
  - rewrite IH by lia. apply f_0_r.
Qed.

Lemma xsum_exchange n m (f : nat -> nat -> byte) :
  xsum n (fun i => xsum m (f i)) = xsum m (fun j => xsum n (fun i => f i j)).
Proof.
  induction n as [|n IH]; simpl; [symmetry; by apply xsum_0|].
  by rewrite IH, <- xsum_add.
Qed.

(** ** Matrix-vector products; a vector is a function of the index *)

Definition mv (n : nat) (m : matrix) (x : nat -> byte) : nat -> byte :=
  fun i => xsum n (fun j => mat_at m i j ⊗ x j).

Definition nonsingular (n : nat) (m : matrix) : Prop :=
  forall x, (forall i, (i < n)%nat -> mv n m x i = x00) ->
  forall i, (i < n)%nat -> x i = x00.

(** [square n m]: an [n] by [n] matrix. *)
Definition square (n : nat) (m : matrix) : Prop :=
  length m = n /\ forall i, (i < n)%nat -> length (m !!! i) = n.

Lemma mv_xsum n m x i : mv n m x i = xsum n (fun j => mat_at m i j ⊗ x j).
Proof. reflexivity. Qed.

Lemma mv_ext n m x y i : (forall j, (j < n)%nat -> x j = y j) -> mv n m x i = mv n m y i.
Proof. intros H. apply xsum_ext. intros j Hj. by rewrite H. Qed.

Lemma mv_rows n m m' x i i' :
  (forall j, (j < n)%nat -> mat_at m i j = mat_at m' i' j) -> mv n m x i = mv n m' x i'.
Proof. intros H. apply xsum_ext. intros j Hj. by rewrite H. Qed.

Lemma mv_delta n m x i k :
  (k < n)%nat ->
  (forall j, (j < n)%nat -> mat_at m i j = if decide (j = k) then x01 else x00) ->
  mv n m x i = x k.
Proof.
  intros Hk H. rewrite <- (xsum_delta n k x) by done. apply xsum_ext.
  intros j Hj. rewrite H by done. case_decide; [apply f_1_l | apply f_mul_0_l].
Qed.

(** ** The identity *)

Lemma square_identity n : square n (identity n).
Proof.
  unfold square, identity. rewrite length_fmap, length_seq. split; [done|].
  intros i Hi. rewrite list_lookup_total_fmap by (rewrite length_seq; lia).
  by rewrite length_insert, length_replicate.
Qed.

Lemma mat_at_identity n i j :
  (i < n)%nat -> (j < n)%nat ->
  mat_at (identity n) i j = if decide (j = i) then x01 else x00.
Proof.
  intros Hi Hj. unfold mat_at, identity.
  rewrite list_lookup_total_fmap by (rewrite length_seq; lia).
  rewrite (lookup_total_some _ i i) by (apply lookup_seq; lia).
  apply lookup_total_some. case_decide as H.
  - subst. apply list_lookup_insert_eq. by rewrite length_replicate.
  - rewrite list_lookup_insert_ne by done. by apply lookup_replicate.
Qed.

Lemma mv_identity n x i : (i < n)%nat -> mv n (identity n) x i = x i.
Proof. intros Hi. apply mv_delta; [done|]. intros j Hj. by apply mat_at_identity. Qed.

(** ** Entries and products after a row operation *)

Definition sw (a b i : nat) : nat :=
  if decide (i = a) then b else if decide (i = b) then a else i.

Lemma sw_lt a b i n : (a < n)%nat -> (b < n)%nat -> (i < n)%nat -> (sw a b i < n)%nat.
Proof. unfold sw. repeat case_decide; lia. Qed.

Lemma sw_sw a b i : sw a b (sw a b i) = i.
Proof. unfold sw. repeat case_decide; subst; congruence. Qed.

Lemma list_insert_total (m : matrix) i k r :
  (k < length m)%nat -> (<[k := r]> m) !!! i = (if decide (i = k) then r else m !!! i).
Proof.
  intros Hk. rewrite !list_lookup_total_alt. case_decide as H.
  - subst. by rewrite list_lookup_insert_eq.
  - by rewrite list_lookup_insert_ne.
Qed.

Section row_operations.
Context (n : nat) (m : matrix) (Hm : square n m).

Lemma square_insert k r : length r = n -> square n (<[k := r]> m).
Proof using Hm.
  intros Hr. destruct Hm as [Hl Hrows]. split; [by rewrite length_insert|].
  intros i Hi. destruct (decide (k < n)%nat).
  - rewrite list_insert_total by lia. case_decide; auto.
  - rewrite list_insert_ge by lia. auto.
Qed.

Lemma swap_rows_at a b i :
  (a < n)%nat -> (b < n)%nat -> swap_rows a b m !!! i = m !!! sw a b i.
Proof using Hm.
  intros Ha Hb. destruct Hm as [Hl _]. unfold swap_rows, sw.
  rewrite list_insert_total by (rewrite length_insert; lia).
  rewrite list_insert_total by lia. repeat case_decide; subst; done.
Qed.

Lemma mat_at_swap a b i j :
  (a < n)%nat -> (b < n)%nat -> mat_at (swap_rows a b m) i j = mat_at m (sw a b i) j.
Proof using Hm. intros. unfold mat_at. by rewrite swap_rows_at. Qed.

Lemma mat_at_scale col f i j :
  (col < n)%nat -> (j < n)%nat ->
  mat_at (scale_row col f m) i j =
  if decide (i = col) then mat_at m i j ⊗ f else mat_at m i j.
Proof using Hm.
  intros Hc Hj. destruct Hm as [Hl Hrows]. unfold mat_at, scale_row.
  rewrite list_insert_total by lia. case_decide as H; [|done]. subst.
  rewrite list_lookup_total_fmap; [done|]. rewrite Hrows; lia.
Qed.

Lemma mat_at_add r col c i j :
  (r < n)%nat -> (col < n)%nat -> (j < n)%nat ->
  mat_at (add_row r col c m) i j =
  if decide (i = r) then mat_at m i j ⊕ c ⊗ mat_at m col j else mat_at m i j.
Proof using Hm.
  intros Hr Hc Hj. destruct Hm as [Hl Hrows]. unfold mat_at, add_row.
  rewrite list_insert_total by lia. case_decide as H; [|done]. subst.
  apply lookup_total_some. apply lookup_zip_with_Some.
  exists ((m !!! r) !!! j), ((m !!! col) !!! j).
  split; [done|]. split; apply lookup_some_total; rewrite Hrows; lia.
Qed.

Lemma square_swap a b : (a < n)%nat -> (b < n)%nat -> square n (swap_rows a b m).
Proof using Hm.
  intros Ha Hb. destruct Hm as [Hl Hrows]. split.
  - unfold swap_rows. by rewrite !length_insert.
  - intros i Hi. rewrite swap_rows_at by done. apply Hrows, sw_lt; lia.
Qed.

Lemma square_scale col f : (col < n)%nat -> square n (scale_row col f m).
Proof using Hm. intros Hc. apply square_insert. rewrite length_fmap. by apply Hm. Qed.

Lemma square_add r col c : (r < n)%nat -> (col < n)%nat -> square n (add_row r col c m).
Proof using Hm.
  intros Hr Hc. apply square_insert. destruct Hm as [_ Hrows].
  rewrite length_zip_with, !Hrows by lia. lia.
Qed.

Lemma mv_swap a b x i :
  (a < n)%nat -> (b < n)%nat -> mv n (swap_rows a b m) x i = mv n m x (sw a b i).
Proof using Hm. intros. apply mv_rows. intros j Hj. by apply mat_at_swap. Qed.

Lemma mv_scale col f x i :
  (col < n)%nat ->
  mv n (scale_row col f m) x i = if decide (i = col) then f ⊗ mv n m x i else mv n m x i.
Proof using Hm L.
  intros Hc. unfold mv. case_decide as H.
  - rewrite <- xsum_mul. apply xsum_ext. intros j Hj.
    rewrite mat_at_scale, decide_True by done. ring.
  - apply xsum_ext. intros j Hj. by rewrite mat_at_scale, decide_False by done.
Qed.

Lemma mv_add r col c x i :
  (r < n)%nat -> (col < n)%nat ->
  mv n (add_row r col c m) x i =
  if decide (i = r) then mv n m x i ⊕ c ⊗ mv n m x col else mv n m x i.
Proof using Hm L.
  intros Hr Hc. unfold mv. case_decide as H.
  - rewrite <- xsum_mul, <- xsum_add. apply xsum_ext. intros j Hj.
    rewrite mat_at_add, decide_True by done. ring.
  - apply xsum_ext. intros j Hj. by rewrite mat_at_add, decide_False by done.
Qed.
End row_operations.

#[local] Hint Resolve square_swap square_scale square_add square_identity : gf.

(** ** Gauss-Jordan elimination *)

Section gauss.
Context (n : nat) (M0 : matrix) (HM0 : square n M0).

(** The matrix and the accumulated inverse have undergone the same row
    operations, all of them invertible. *)
Definition good (s : matrix * matrix) : Prop :=
  square n s.1 /\ square n s.2 /\
  (forall x i, (i < n)%nat -> mv n s.1 x i = mv n s.2 (mv n M0 x) i) /\
  nonsingular n s.2.

(** The first [k] columns are those of the identity. *)
Definition unit_cols (k : nat) (m : matrix) : Prop :=
  forall i j, (i < n)%nat -> (j < k)%nat ->
  mat_at m i j = if decide (i = j) then x01 else x00.

Lemma good_init : good (M0, identity n).
Proof using HM0 L.
  split_and!; simpl; auto with gf.
  - intros x i Hi. by rewrite mv_identity.
  - intros x H i Hi. rewrite <- (H i Hi). by rewrite mv_identity.
Qed.

Lemma good_swap a b m inv :
  (a < n)%nat -> (b < n)%nat -> good (m, inv) -> good (swap_rows a b m, swap_rows a b inv).
Proof.
  intros Ha Hb (Hm & Hi & Hl & Hn). simpl in *. split_and!; simpl; auto with gf.
  - intros x i Hi'. rewrite !mv_swap by done. by apply Hl, sw_lt.
  - intros x H. apply Hn. intros i Hlt. rewrite <- (sw_sw a b i).
    rewrite <- mv_swap by done. by apply H, sw_lt.
Qed.

Lemma good_scale col f m inv :
  (col < n)%nat -> f <> x00 -> good (m, inv) -> good (scale_row col f m, scale_row col f inv).
Proof.
  intros Hc Hf (Hm & Hi & Hl & Hn). simpl in *. split_and!; simpl; auto with gf.
  - intros x i Hi'. rewrite !mv_scale by done. by rewrite Hl.
  - intros x H. apply Hn. intros i Hlt. specialize (H i Hlt).
    rewrite mv_scale in H by done. case_decide; [|done].
    by apply f_integral in H as [?|?].
Qed.

Lemma good_add r col c m inv :
  (r < n)%nat -> (col < n)%nat -> r <> col ->
  good (m, inv) -> good (add_row r col c m, add_row r col c inv).
Proof.
  intros Hr Hc Hne (Hm & Hi & Hl & Hn). simpl in *. split_and!; simpl; auto with gf.
  - intros x i Hi'. rewrite !mv_add by done. by rewrite !Hl.
  - intros x H. apply Hn. intros i Hlt. pose proof (H i Hlt) as Hx.
    rewrite mv_add in Hx by done. case_decide as E; [|done]. subst.
    pose proof (H col Hc) as Hcol. rewrite mv_add, decide_False in Hcol by auto.
    by rewrite Hcol, f_mul_0_r, f_0_r in Hx.
Qed.

Lemma find_pivot_spec fuel piv col m :
  (fuel + piv)%nat = n ->
  let p := find_pivot fuel piv col m in
  (piv <= p <= n)%nat /\
  (forall i, (piv <= i < p)%nat -> mat_at m i col = x00) /\
  ((p < n)%nat -> mat_at m p col <> x00).
Proof.
  revert piv. induction fuel as [|fuel IH]; intros piv Hn; simpl.
  - split_and!; [lia | lia | lia | intros; lia].
  - rewrite bz_eqb_0. case_bool_decide as H0.
    + destruct (IH (S piv) ltac:(lia)) as (Hp & Hz & Hnz).
      split_and!; [lia | lia | | done]. intros i Hi.
      destruct (decide (i = piv)) as [->|]; [done|]. apply Hz. lia.
    + split_and!; [lia | lia | intros; lia | done].
Qed.

(** One elimination pass clears column [col] outside row [col]. *)
Lemma eliminate_spec col l s :
  (col < n)%nat -> (forall r, r ∈ l -> (r < n)%nat) ->
  good s -> unit_cols col s.1 -> mat_at s.1 col col = x01 ->
  let s' := foldl (eliminate_step col) s l in
  good s' /\ unit_cols col s'.1 /\ mat_at s'.1 col col = x01 /\
  (forall r, (r < n)%nat -> r <> col ->
     r ∈ l \/ mat_at s.1 r col = x00 -> mat_at s'.1 r col = x00).
Proof.
  intros Hc. revert s. induction l as [|r l IH]; intros [m inv] Hl Hg Hu Hd; simpl.
  { split_and!; try done. intros r _ _ [H|H]; [by apply not_elem_of_nil in H | done]. }
  assert (Hr : (r < n)%nat) by (apply Hl; left).
  assert (Hrest : forall r, r ∈ l -> (r < n)%nat) by (intros; apply Hl; by right).
  pose proof Hg as (Hm & _). simpl in *. rewrite bz_eqb_0.
  destruct (Nat.eqb_spec r col) as [->|Hne]; simpl.
  { destruct (IH (m, inv) Hrest Hg Hu Hd) as (? & ? & ? & H).
    split_and!; try done. intros r' ? ? Hin. apply H; [done..|].
    destruct Hin as [Hin|?]; [|by right]. apply elem_of_cons in Hin as [?|?]; [done | by left]. }
  case_bool_decide as H0.
  { destruct (IH (m, inv) Hrest Hg Hu Hd) as (? & ? & ? & H).
    split_and!; try done. intros r' ? ? Hin. apply H; [done..|].
    destruct Hin as [Hin|?]; [|by right].
    apply elem_of_cons in Hin as [->|?]; [by right | by left]. }
  set (c := mat_at m r col) in *.
  destruct (IH (add_row r col c m, add_row r col c inv)) as (? & ? & ? & H); simpl.
  - done.
  - by apply good_add.
  - intros i j Hi Hj. rewrite (mat_at_add n) by (done || lia).
    rewrite (Hu col j), (decide_False (P := col = j)) by lia.
    rewrite f_mul_0_r, f_0_r. case_decide; apply Hu; lia.
  - rewrite (mat_at_add n), decide_False by auto. done.
  - split_and!; try done. intros r' Hr' Hne' Hin. apply H; [done..|].
    destruct (decide (r' = r)) as [->|Hrr].
    + right. simpl. rewrite (mat_at_add n), decide_True, Hd, f_1_r by done. apply f_cancel.
    + destruct Hin as [Hin|Hin].
        { apply elem_of_cons in Hin as [?|?]; [done | by left]. }
      right. simpl. by rewrite (mat_at_add n), decide_False by done.
Qed.

Lemma unit_cols_succ col m :
  (col < n)%nat -> unit_cols col m -> mat_at m col col = x01 ->
  (forall r, (r < n)%nat -> r <> col -> mat_at m r col = x00) -> unit_cols (S col) m.
Proof.
  intros Hc Hu Hd Hz i j Hi Hj. destruct (decide (j = col)) as [->|].
  - case_decide; subst; auto.
  - apply Hu; lia.
Qed.

(** A column step either succeeds and extends the unit columns, or stops on
    a column that is zero from the diagonal down. *)
Lemma invert_col_spec col s :
  (col < n)%nat -> good s -> unit_cols col s.1 ->
  match invert_col n col s with
  | Some s' => good s' /\ unit_cols (S col) s'.1
  | None => forall i, (col <= i < n)%nat -> mat_at s.1 i col = x00
  end.
Proof.
  intros Hc Hg Hu. destruct s as [m inv]. unfold invert_col. simpl in Hu |- *.
  destruct (find_pivot_spec (n - col) col col m ltac:(lia)) as (Hp & Hz & Hnz).
  set (p := find_pivot (n - col) col col m) in *. simpl in *. clearbody p.
  destruct (Nat.eqb_spec p n) as [Hpn|Hpn].
  { intros i Hi. apply Hz. lia. }
  assert (Hplt : (p < n)%nat) by lia. specialize (Hnz Hplt).
  pose proof Hg as (Hm & _). simpl in Hm.
  pose proof (good_swap p col m inv Hplt Hc Hg) as Hg1.
  pose proof Hg1 as (Hm1 & _). simpl in Hm1.
  set (m1 := swap_rows p col m) in *. set (inv1 := swap_rows p col inv) in *.
  assert (Hd1 : mat_at m1 col col <> x00).
  { unfold m1. rewrite (mat_at_swap n) by done. unfold sw.
    repeat case_decide; subst; congruence. }
  assert (Hu1 : unit_cols col m1).
  { intros i j Hi Hj. unfold m1. rewrite (mat_at_swap n) by done.
    rewrite Hu by (try apply sw_lt; lia). unfold sw. repeat case_decide; subst; lia || done. }
  set (f := finv (mat_at m1 col col)).
  assert (Hf : f <> x00) by (by apply f_inv_nonzero).
  pose proof (good_scale col f m1 inv1 Hc Hf Hg1) as Hg2.
  destruct (eliminate_spec col (seq 0 n) (scale_row col f m1, scale_row col f inv1))
    as (Hg3 & Hu3 & Hd3 & Hz3); auto; simpl.
  - intros r Hr%elem_of_seq. lia.
  - intros i j Hi Hj. rewrite (mat_at_scale n) by (done || lia).
    rewrite Hu1 by lia. repeat case_decide; subst; try lia; by rewrite ?f_mul_0_l.
  - rewrite (mat_at_scale n), decide_True by done. rewrite f_mul_comm.
    by apply f_inv_l.
  - split; [done|]. apply unit_cols_succ; auto.
    intros r Hr Hne. apply Hz3; [done..|]. left. apply elem_of_seq. lia.
Qed.

(** A column without a pivot gives a nonzero vector in the kernel. *)
Lemma no_pivot_singular col s :
  (col < n)%nat -> good s -> unit_cols col s.1 ->
  (forall i, (col <= i < n)%nat -> mat_at s.1 i col = x00) -> ~ nonsingular n M0.
Proof.
  intros Hc (Hm & _ & Hl & Hinv) Hu Hz Hns. destruct s as [m inv]. simpl in *.
  set (x := fun j => if decide (j = col) then x01
                     else if decide (j < col)%nat then mat_at m j col else x00).
  assert (Hx : x col = x00); [|unfold x in Hx; rewrite decide_True in Hx; done].
  apply Hns; [|done]. apply Hinv. intros i Hi. rewrite <- Hl, mv_xsum by done.
  transitivity (xsum n (fun j =>
    (if decide (j = i) then (if decide (i < col)%nat then mat_at m i col else x00) else x00)
    ⊕ (if decide (j = col) then mat_at m i col else x00))).
  - apply xsum_ext. intros j Hj. unfold x.
    destruct (decide (j = col)) as [->|Hne].
    + rewrite (f_mul_comm _ x01), f_1_l. repeat case_decide; subst; try lia; by rewrite ?f_0_l.
    + destruct (decide (j < col)%nat).
      * rewrite Hu by done. repeat case_decide; subst; try lia; try congruence;
          by rewrite ?f_1_l, ?f_mul_0_l, ?f_0_r.
      * rewrite f_mul_0_r. repeat case_decide; subst; try lia; by rewrite ?f_0_r.
  - rewrite xsum_add, (xsum_delta n i (fun _ => _)), (xsum_delta n col (fun _ => _)) by done.
    case_decide; [apply f_cancel|]. rewrite Hz by lia. apply f_0_l.
Qed.

Lemma invert_cols_spec fuel col s :
  (fuel + col)%nat = n -> good s -> unit_cols col s.1 ->
  let r := invert_cols fuel n col s in
  (r.1 = true /\ exists m, good (m, r.2) /\ unit_cols n m) \/
  (r.1 = false /\ ~ nonsingular n M0).
Proof.
  revert col s. induction fuel as [|fuel IH]; intros col s Hn Hg Hu; simpl.
  - left. split; [done|]. exists s.1. rewrite <- surjective_pairing.
    replace n with col by lia. done.
  - pose proof (invert_col_spec col s ltac:(lia) Hg Hu) as Hs.
    destruct (invert_col n col s) as [s'|]; simpl.
    + destruct Hs as [Hg' Hu']. apply IH; [lia | done..].
    + right. split; [done|]. apply (no_pivot_singular col s); auto. lia.
Qed.
End gauss.

(** What [invert] computes: on success the result is a left inverse and is
    itself nonsingular; it fails only on a singular matrix. *)
Lemma invert_spec n M0 :
  square n M0 ->
  (invert M0).1 = true /\ square n (invert M0).2 /\ nonsingular n (invert M0).2 /\
    (forall x i, (i < n)%nat -> mv n (invert M0).2 (mv n M0 x) i = x i)
  \/ (invert M0).1 = false /\ ~ nonsingular n M0.
Proof.
  intros HM0. unfold invert. destruct HM0 as [Hl Hr] eqn:E. rewrite Hl. clear E.
  destruct (invert_cols_spec n M0 n 0 (M0, identity n)) as [(H1 & m & Hg & Hu)|?].
  - lia.
  - by apply good_init.
  - intros i j Hi Hj. lia.
  - left. destruct Hg as (Hm & Hi & Hlock & Hn). split_and!; auto.
    intros x i Hlt. rewrite <- Hlock by done. apply mv_delta; [done|].
    intros j Hj. simpl. rewrite Hu by done. repeat case_decide; congruence.
  - by right.
Qed.

Lemma invert_nonsingular n M0 :
  square n M0 -> nonsingular n M0 ->
  exists inv, invert M0 = (true, inv) /\ square n inv /\ nonsingular n inv /\
    (forall x i, (i < n)%nat -> mv n inv (mv n M0 x) i = x i).
Proof.
  intros Hsq Hns. destruct (invert_spec n M0 Hsq) as [(H1 & H2 & H3 & H4)|[_ ?]]; [|done].
  exists (invert M0).2. split_and!; auto. rewrite <- H1. apply surjective_pairing.
Qed.

(** A nonsingular matrix with a nonsingular left inverse has it on the right. *)
Lemma right_inverse n M0 inv :
  nonsingular n inv ->
  (forall x i, (i < n)%nat -> mv n inv (mv n M0 x) i = x i) ->
  forall y i, (i < n)%nat -> mv n M0 (mv n inv y) i = y i.
Proof.
  intros Hn Hleft y i Hi.
  set (d := fun i => mv n M0 (mv n inv y) i ⊕ y i).
  assert (Hd : d i = x00); [|by apply f_eq].
  apply (Hn d); [|done]. clear i Hi. intros i Hi. unfold d, mv at 1.
  rewrite (xsum_ext n _ (fun j => mat_at inv i j ⊗ mv n M0 (mv n inv y) j ⊕ mat_at inv i j ⊗ y j))
    by (intros; ring).
  rewrite xsum_add, <- !mv_xsum.
  rewrite Hleft by done. apply f_cancel.
Qed.
End linear_algebra.

(** ** The matrices of the code, over GF(2^8) *)

(** [invert] returns true exactly on the nonsingular matrices, and then
    the matrix it leaves is the left inverse: applied after the original it is
    the identity on vectors. *)
Lemma invert_correct (n : nat) (m : matrix) :
  square n m ->
  ((invert m).1 = true <-> nonsingular n m) /\
  ((invert m).1 = true -> square n (invert m).2 /\
     forall x i, (i < n)%nat -> mv n (invert m).2 (mv n m x) i = x i).
Proof.
  intros Hm. destruct (invert_spec n m Hm) as [(H1 & H2 & H3 & H4)|[H1 H2]].
  - split; [|by auto]. split; [|done]. intros _ x Hx i Hi. rewrite <- (H4 x i Hi).
    rewrite mv_xsum. apply xsum_0. intros j Hj. rewrite Hx by done. apply f_mul_0_r.
  - rewrite H1. split; [split; [done | by intros ?%H2] | done].
Qed.

Lemma invert_correct_witness :
  square 2 [[x01; x01]; [x01; x00]] /\
  ((invert [[x01; x01]; [x01; x00]]).1 = true <-> nonsingular 2 [[x01; x01]; [x01; x00]]).
Proof.
  assert (H : square 2 [[x01; x01]; [x01; x00]]).
  { split; [done|]. intros [|[|i]] Hi; [done | done | lia]. }
  split; [done|]. apply (invert_correct 2 _ H).
Defined.
