(* ===== verification/Erasure.v ===== *)
(** What the receiver of the AV transport asks of the forward error
    correction: an interface with the law that any [k] blocks of a group
    determine its data. [Fec.v] provides the instance, [FecReceiver.v] is
    proved against the interface. *)

From S2P Require Import Prelude.

(** Every block has [len] bytes. *)
Definition equal_blocks (len : nat) (data : list (list byte)) : Prop :=
  Forall (fun b => length b = len) data.

(** The blocks of a group of [n] as received: block [r] is empty when lost. *)
Definition received_by (block : list (list byte) -> nat -> list byte)
    (data : list (list byte)) (n : nat) (lost : nat -> bool) : list (list byte) :=
  (fun r => if lost r then [] else block data r) <$> seq 0 n.

Class ErasureCode := {
  (** [fec::recover(blocks, k, len)]: the result and the blocks afterwards. *)
  ec_recover : list (list byte) -> Z -> nat -> bool * list (list byte);
  (** Block [r] of the group: the data blocks, then the parity rows. *)
  ec_block : list (list byte) -> nat -> list byte;
  ec_block_data : forall data r, (r < length data)%nat -> ec_block data r = data !!! r;
  ec_block_length : forall data len r,
    data <> [] -> equal_blocks len data -> length (ec_block data r) = len;
  ec_recover_correct : forall data len n lost,
    (0 < length data <= 255)%nat -> equal_blocks len data -> (0 < len)%nat ->
    (length data <= n <= 256)%nat ->
    (length data <= length (filter (fun r => lost r = false) (seq 0 n)))%nat ->
    exists out, ec_recover (received_by ec_block data n lost) (Z.of_nat (length data)) len = (true, out) /\
                take (length data) out = data
}.
