(* ===== verification/Fec.v ===== *)
(** Forward error correction of the AV transport
    ([src/camera/tutk/Fec.cpp]): the systematic Vandermonde code over GF(2^8),
    [generator_row], [encode] and [recover], over any field that satisfies the
    interface of [Field.v]; the section is closed over the tables of
    [Gf256.v].  The theorems show that any [k] of the blocks determine the
    data. *)

From S2P Require Import Prelude Field Gf256 Matrix Erasure.

(** ** The code *)

Section code.
Context {FO : FieldOps}.
#[local] Open Scope gf_scope.

(** [top[r][c] = g.pow((uint8_t)r, c)]. *)
Definition vandermonde_row (k : nat) (a : byte) : list byte :=
  (fun c => fpow a (Z.of_nat c)) <$> seq 0 k.

Definition vandermonde_top (k : nat) : matrix :=
  (fun r => vandermonde_row k (zb (Z.of_nat r))) <$> seq 0 k.

Definition unit_row (k row : nat) : list byte := <[row := x01]> (replicate k x00).

(** Row [row] of the systematic generator; [invert]'s result is ignored. *)
Definition generator_row (k row : nat) : list byte :=
  if (row <? k)%nat then unit_row k row
  else
    let top := (invert (vandermonde_top k)).2 in
    (fun c => foldl (fun v j => v ⊕ fpow (zb (Z.of_nat row)) (Z.of_nat j) ⊗ mat_at top j c)
                    x00 (seq 0 k)) <$> seq 0 k.

(** [for (i) out[i] ^= g.mul(c, src[i])]. *)
Definition add_scaled (c : byte) (src out : list byte) : list byte :=
  imap (fun i o => o ⊕ c ⊗ (src !!! i)) out.

(** Parity block for row [row] (>= k) over k equally sized data blocks. *)
Definition encode (data : list (list byte)) (row : nat) : list byte :=
  let k := length data in
  let coef := generator_row k row in
  foldl (fun out c => add_scaled (coef !!! c) (data !!! c) out)
        (replicate (if (k =? 0)%nat then 0%nat else length (data !!! 0%nat)) x00) (seq 0 k).

(** The indices of the first [k] blocks of size [len], from index [i] on. *)
Fixpoint present_rows (k len i : nat) (blocks : list (list byte)) : list nat :=
  match k, blocks with
  | O, _ | _, [] => []
  | S k', b :: blocks' =>
      if (length b =? len)%nat then i :: present_rows k' len (S i) blocks'
      else present_rows k len (S i) blocks'
  end.

(** The data block [d] computed from the present ones; zero coefficients are
    skipped. *)
Definition recover_block (m : matrix) (rows : list nat) (k len d : nat)
    (blocks : list (list byte)) : list byte :=
  foldl (fun out j =>
           let c := mat_at m d j in
           if bz c =? 0 then out else add_scaled c (blocks !!! (rows !!! j)) out)
        (replicate len x00) (seq 0 k).

(** One iteration of the loop that fills in the missing data blocks. *)
Definition recover_step (m : matrix) (rows : list nat) (k len : nat)
    (blocks : list (list byte)) (d : nat) : list (list byte) :=
  if (length (blocks !!! d) =? len)%nat then blocks
  else <[d := recover_block m rows k len d blocks]> blocks.

(** The returned flag and the blocks afterwards. *)
Definition recover (blocks : list (list byte)) (k : Z) (len : nat) : bool * list (list byte) :=
  if (k <=? 0) || (Z.of_nat (length blocks) <? k) || (255 <? k) then (false, blocks)
  else
    let k := Z.to_nat k in
    let rows := present_rows k len 0 blocks in
    if (length rows <? k)%nat then (false, blocks)
    else
      let '(ok, m) := invert (generator_row k <$> rows) in
      if negb ok then (false, blocks)
      else (true, foldl (recover_step m rows k len) blocks (seq 0 k)).

(** Block [r] of a group: the data, then the parity rows. *)
Definition code_block (data : list (list byte)) (r : nat) : list byte :=
  if (r <? length data)%nat then data !!! r else encode data r.
End code.

(** ** The Vandermonde system has only the zero solution *)

Section vandermonde.
Context {FO : FieldOps} {L : FieldLaws FO}.
#[local] Open Scope gf_scope.
Add Ring fec_ring : f_ring.

Fixpoint horner (p : list byte) (a : byte) : byte :=
  match p with [] => x00 | c :: p' => c ⊕ a ⊗ horner p' a end.

(** The quotient of [p] by [X - a]. *)
Fixpoint quotient (p : list byte) (a : byte) : list byte :=
  match p with
  | [] => []
  | _ :: p' => match p' with [] => [] | _ => horner p' a :: quotient p' a end
  end.

Lemma quotient_cons c d p a :
  quotient (c :: d :: p) a = horner (d :: p) a :: quotient (d :: p) a.
Proof. reflexivity. Qed.

Lemma length_quotient p a : length (quotient p a) = pred (length p).
Proof.
  induction p as [|c [|d p] IH]; [done..|]. rewrite quotient_cons. simpl in *. by rewrite IH.
Qed.

Lemma horner_quotient p a x :
  horner p x ⊕ horner p a = (x ⊕ a) ⊗ horner (quotient p a) x.
Proof.
  induction p as [|c [|d p] IH]; [simpl; ring | simpl |].
  - transitivity (c ⊕ c); [ring|]. rewrite f_cancel. ring.
  - rewrite quotient_cons.
    change (horner (c :: d :: p) x) with (c ⊕ x ⊗ horner (d :: p) x).
    change (horner (c :: d :: p) a) with (c ⊕ a ⊗ horner (d :: p) a).
    change (horner (horner (d :: p) a :: quotient (d :: p) a) x)
      with (horner (d :: p) a ⊕ x ⊗ horner (quotient (d :: p) a) x).
    set (px := horner (d :: p) x) in *. set (pa := horner (d :: p) a) in *.
    set (q := horner (quotient (d :: p) a) x) in *.
    transitivity ((c ⊕ c) ⊕ (x ⊗ px ⊕ a ⊗ pa)); [ring|]. rewrite f_cancel.
    transitivity ((x ⊕ a) ⊗ pa ⊕ x ⊗ ((x ⊕ a) ⊗ q)); [|ring]. rewrite <- IH.
    transitivity (x ⊗ px ⊕ a ⊗ pa ⊕ x ⊗ (pa ⊕ pa)); [rewrite f_cancel; ring | ring].
Qed.

Lemma quotient_zero p a :
  horner p a = x00 -> Forall (eq x00) (quotient p a) -> Forall (eq x00) p.
Proof.
  induction p as [|c [|d p] IH]; intros Hh Hq.
  - constructor.
  - simpl in Hh. constructor; [|constructor]. rewrite <- Hh. ring.
  - rewrite quotient_cons in Hq. apply Forall_cons in Hq as [Hp Hq].
    specialize (IH (eq_sym Hp) Hq). constructor; [|done].
    simpl in Hh, Hp. rewrite <- Hp in Hh. rewrite <- Hh. ring.
Qed.

(** A polynomial with as many distinct roots as coefficients is zero. *)
Lemma horner_zero p rs :
  length p = length rs -> NoDup rs -> (forall a, a ∈ rs -> horner p a = x00) ->
  Forall (eq x00) p.
Proof.
  revert p. induction rs as [|a rs IH]; intros p Hlen Hnd Hr.
  { apply nil_length_inv in Hlen. subst. constructor. }
  apply NoDup_cons in Hnd as [Ha Hnd].
  assert (Hpa : horner p a = x00) by (apply Hr; left).
  apply (quotient_zero p a Hpa), IH; [|done|].
  - rewrite length_quotient, Hlen. done.
  - intros b Hb. assert (Hpb : horner p b = x00) by (apply Hr; by right).
    pose proof (horner_quotient p a b) as H. rewrite Hpa, Hpb, f_0_l in H.
    symmetry in H. apply f_integral in H as [H|H]; [|done].
    apply f_eq in H as ->. contradiction.
Qed.

Lemma xsum_front n f : xsum (S n) f = f 0%nat ⊕ xsum n (fun i => f (S i)).
Proof.
  induction n as [|n IH]; [simpl; ring|].
  change (xsum (S (S n)) f) with (xsum (S n) f ⊕ f (S n)). rewrite IH. simpl. ring.
Qed.

Lemma xsum_horner n s x a :
  xsum n (fun j => fpow a (Z.of_nat j) ⊗ x (s + j)%nat) = horner (x <$> seq s n) a.
Proof.
  revert s. induction n as [|n IH]; intros s; [done|].
  rewrite xsum_front. change (Z.of_nat 0) with 0. rewrite f_pow_0, Nat.add_0_r. simpl.
  rewrite <- IH, <- xsum_mul, f_1_l. f_equal. apply xsum_ext. intros j _.
  replace (Z.of_nat (S j)) with (Z.of_nat j + 1) by lia. rewrite f_pow_succ by lia.
  rewrite Nat.add_succ_r. simpl. ring.
Qed.

Lemma vandermonde_nonsingular k (rs : list byte) x :
  length rs = k -> NoDup rs ->
  (forall a, a ∈ rs -> xsum k (fun j => fpow a (Z.of_nat j) ⊗ x j) = x00) ->
  forall j, (j < k)%nat -> x j = x00.
Proof.
  intros Hl Hnd H j Hj.
  assert (Hz : Forall (eq x00) (x <$> seq 0 k)).
  { apply (horner_zero _ rs); [by rewrite length_fmap, length_seq | done|].
    intros a Ha. rewrite <- xsum_horner. simpl. by apply H. }
  symmetry. apply (Forall_lookup_1 _ _ j _ Hz).
  rewrite list_lookup_fmap, lookup_seq_lt by lia. done.
Qed.
End vandermonde.

(** ** The generator *)

Section generator.
Context {FO : FieldOps} {L : FieldLaws FO}.
#[local] Open Scope gf_scope.
Add Ring fec_ring2 : f_ring.

Lemma zb_nat_inj r s : (r < 256)%nat -> (s < 256)%nat ->
  zb (Z.of_nat r) = zb (Z.of_nat s) -> r = s.
Proof.
  intros Hr Hs E. apply (f_equal bz) in E. rewrite !bz_zb_small in E by lia. lia.
Qed.

Lemma NoDup_zb_rows rows :
  NoDup rows -> (forall r, r ∈ rows -> (r < 256)%nat) ->
  NoDup ((fun r => zb (Z.of_nat r)) <$> rows).
Proof.
  intros Hnd Hr. apply NoDup_fmap_2_strong; [|done].
  intros r s Hrin Hsin. apply zb_nat_inj; auto.
Qed.

Lemma fmap_seq_total {A} `{Inhabited A} (f : nat -> A) n i :
  (i < n)%nat -> (f <$> seq 0 n) !!! i = f i.
Proof.
  intros Hi. apply lookup_total_some. by rewrite list_lookup_fmap, lookup_seq_lt by lia.
Qed.

Lemma foldl_xsum n f v : foldl (fun v j => v ⊕ f j) v (seq 0 n) = v ⊕ xsum n f.
Proof.
  induction n as [|n IH]; [simpl; ring|].
  rewrite seq_S, foldl_app, IH. simpl. ring.
Qed.

Lemma square_top k : square k (vandermonde_top k).
Proof.
  unfold vandermonde_top, vandermonde_row. split; [by rewrite length_fmap, length_seq|].
  intros i Hi. rewrite fmap_seq_total by done. by rewrite length_fmap, length_seq.
Qed.

Lemma top_at k i j : (i < k)%nat -> (j < k)%nat ->
  mat_at (vandermonde_top k) i j = fpow (zb (Z.of_nat i)) (Z.of_nat j).
Proof.
  intros Hi Hj. unfold mat_at, vandermonde_top, vandermonde_row.
  by rewrite !fmap_seq_total by done.
Qed.

Lemma top_nonsingular k : (k <= 256)%nat -> nonsingular k (vandermonde_top k).
Proof.
  intros Hk x Hx. apply (vandermonde_nonsingular k ((fun r => zb (Z.of_nat r)) <$> seq 0 k)).
  - by rewrite length_fmap, length_seq.
  - apply NoDup_zb_rows; [apply NoDup_seq|]. intros r Hr%elem_of_seq. lia.
  - intros a Ha. apply list_elem_of_fmap in Ha as (r & -> & Hr%elem_of_seq).
    rewrite <- (Hx r) by lia. rewrite mv_xsum. apply xsum_ext. intros j Hj.
    by rewrite top_at by lia.
Qed.

Definition top_inverse (k : nat) : matrix := (invert (vandermonde_top k)).2.

Lemma top_inverse_spec k : (k <= 256)%nat ->
  nonsingular k (top_inverse k) /\
  forall x i, (i < k)%nat -> mv k (vandermonde_top k) (mv k (top_inverse k) x) i = x i.
Proof.
  intros Hk. unfold top_inverse.
  destruct (invert_nonsingular k (vandermonde_top k)) as (T & -> & _ & Hn & Hl); simpl.
  - apply square_top.
  - by apply top_nonsingular.
  - split; [done|]. by apply right_inverse.
Qed.

Lemma length_generator_row k row : length (generator_row k row) = k.
Proof.
  unfold generator_row, unit_row. destruct (row <? k)%nat.
  - by rewrite length_insert, length_replicate.
  - by rewrite length_fmap, length_seq.
Qed.

Lemma unit_row_at k row c : (c < k)%nat -> (row < k)%nat ->
  unit_row k row !!! c = if decide (c = row) then x01 else x00.
Proof.
  intros Hc Hr. unfold unit_row. apply lookup_total_some. case_decide as H.
  - subst. apply list_lookup_insert_eq. by rewrite length_replicate.
  - rewrite list_lookup_insert_ne by done. by apply lookup_replicate.
Qed.

Lemma generator_unit_dot k row x : (row < k)%nat ->
  xsum k (fun c => generator_row k row !!! c ⊗ x c) = x row.
Proof.
  intros Hr. rewrite <- (xsum_delta k row x) by done. apply xsum_ext. intros c Hc.
  unfold generator_row. destruct (Nat.ltb_spec row k); [|lia].
  rewrite unit_row_at by done. case_decide; ring.
Qed.

(** A row of the generator is the row of the Vandermonde matrix times the
    inverse of its top square. *)
Lemma generator_dot k row x : (k <= 256)%nat ->
  xsum k (fun c => generator_row k row !!! c ⊗ x c) =
  xsum k (fun j => fpow (zb (Z.of_nat row)) (Z.of_nat j) ⊗ mv k (top_inverse k) x j).
Proof.
  intros Hk. destruct (decide (row < k)%nat) as [Hr|Hr].
  - rewrite generator_unit_dot by done.
    destruct (top_inverse_spec k Hk) as [_ Hi]. rewrite <- (Hi x row Hr), mv_xsum.
    apply xsum_ext. intros j Hj. by rewrite top_at.
  - transitivity (xsum k (fun c => xsum k (fun j =>
      fpow (zb (Z.of_nat row)) (Z.of_nat j) ⊗ mat_at (top_inverse k) j c ⊗ x c))).
    + apply xsum_ext. intros c Hc. unfold generator_row.
      destruct (Nat.ltb_spec row k); [lia|].
      rewrite fmap_seq_total, foldl_xsum, f_0_l by done.
      rewrite f_mul_comm, <- xsum_mul. apply xsum_ext. intros j _. fold (top_inverse k). ring.
    + rewrite xsum_exchange. apply xsum_ext. intros j Hj.
      rewrite mv_xsum, <- xsum_mul. apply xsum_ext. intros c Hc. ring.
Qed.

Lemma generator_matrix_at k rows i c : (i < length rows)%nat ->
  mat_at (generator_row k <$> rows) i c = generator_row k (rows !!! i) !!! c.
Proof. intros Hi. unfold mat_at. by rewrite list_lookup_total_fmap. Qed.

Lemma square_generator k rows : length rows = k -> square k (generator_row k <$> rows).
Proof.
  intros Hl. split; [by rewrite length_fmap|]. intros i Hi.
  rewrite list_lookup_total_fmap by lia. apply length_generator_row.
Qed.

(** Any [k] distinct rows of the generator are independent: the code is
    maximum-distance separable. *)
Lemma generator_nonsingular k rows :
  (k <= 256)%nat -> length rows = k -> NoDup rows -> (forall r, r ∈ rows -> (r < 256)%nat) ->
  nonsingular k (generator_row k <$> rows).
Proof.
  intros Hk Hl Hnd Hr x Hx. destruct (top_inverse_spec k Hk) as [Hn _]. apply Hn.
  apply (vandermonde_nonsingular k ((fun r => zb (Z.of_nat r)) <$> rows)).
  - by rewrite length_fmap.
  - by apply NoDup_zb_rows.
  - intros a Ha. apply list_elem_of_fmap in Ha as (r & -> & Hin).
    rewrite <- generator_dot by done.
    apply list_elem_of_lookup in Hin as [i Hi].
    assert (Hik : (i < k)%nat) by (apply lookup_lt_Some in Hi; lia).
    rewrite <- (Hx i Hik), mv_xsum. apply xsum_ext. intros c Hc.
    rewrite generator_matrix_at by lia. by rewrite (lookup_total_some _ _ _ Hi).
Qed.

(** ** Blocks *)

Lemma length_add_scaled c src out : length (add_scaled c src out) = length out.
Proof. apply length_imap. Qed.

Lemma add_scaled_at c src out p : (p < length out)%nat ->
  add_scaled c src out !!! p = out !!! p ⊕ c ⊗ (src !!! p).
Proof.
  intros Hp. apply lookup_total_some. unfold add_scaled.
  rewrite list_lookup_imap, (lookup_some_total out p) by done. done.
Qed.

(** Accumulating scaled blocks is a sum in every position. *)
Lemma foldl_add_scaled (coef : nat -> byte) (src : nat -> list byte) n out p :
  (p < length out)%nat ->
  foldl (fun out j => add_scaled (coef j) (src j) out) out (seq 0 n) !!! p =
  out !!! p ⊕ xsum n (fun j => coef j ⊗ (src j !!! p)).
Proof.
  intros Hp. induction n as [|n IH]; [simpl; ring|].
  rewrite seq_S, foldl_app. simpl. rewrite add_scaled_at, IH; [ring|].
  clear IH. generalize (seq 0 n). intros l. revert out Hp.
  induction l as [|j l IHl]; intros out Hp; [done|]. apply IHl. by rewrite length_add_scaled.
Qed.

Lemma length_foldl_blocks {A} (f : list byte -> A -> list byte) l out :
  (forall o a, length (f o a) = length o) -> length (foldl f out l) = length out.
Proof. intros H. revert out. induction l as [|a l IH]; intros out; [done|]. simpl. by rewrite IH. Qed.

Lemma replicate_at n p : (p < n)%nat -> replicate n x00 !!! p = x00.
Proof. intros. apply lookup_total_some. by apply lookup_replicate. Qed.

Lemma equal_blocks_at len data c :
  equal_blocks len data -> (c < length data)%nat -> length (data !!! c) = len.
Proof.
  intros H Hc. apply (Forall_lookup_1 _ data c (data !!! c) H). by apply lookup_some_total.
Qed.

Lemma length_encode len data row :
  data <> [] -> equal_blocks len data -> length (encode data row) = len.
Proof.
  intros Hne He. unfold encode. rewrite length_foldl_blocks by (intros; apply length_add_scaled).
  rewrite length_replicate. destruct data as [|b data]; [done|].
  simpl. apply (equal_blocks_at len (b :: data) 0 He). simpl. lia.
Qed.

Lemma length_code_block len data r :
  data <> [] -> equal_blocks len data -> length (code_block data r) = len.
Proof.
  intros Hne He. unfold code_block. destruct (Nat.ltb_spec r (length data)).
  - by apply equal_blocks_at.
  - by apply length_encode.
Qed.

(** Block [r] of the group is row [r] of the generator applied to the data. *)
Lemma code_block_at len data r p :
  data <> [] -> equal_blocks len data -> (p < len)%nat ->
  code_block data r !!! p =
  xsum (length data) (fun c => generator_row (length data) r !!! c ⊗ ((data !!! c) !!! p)).
Proof.
  intros Hne He Hp. unfold code_block. destruct (Nat.ltb_spec r (length data)).
  - by rewrite generator_unit_dot.
  - unfold encode.
    assert (Hl : (if (length data =? 0)%nat then 0%nat else length (data !!! 0%nat)) = len).
    { destruct data as [|b data']; [done|]. simpl.
      apply (equal_blocks_at len (b :: data') 0 He). simpl. lia. }
    rewrite Hl, (foldl_add_scaled (fun c => generator_row (length data) r !!! c)
                   (fun c => data !!! c)), replicate_at by (rewrite ?length_replicate; done).
    apply f_0_l.
Qed.
End generator.

(** ** The present rows *)

Definition present (len : nat) (blocks : list (list byte)) : nat :=
  length (filter (fun b => length b = len) blocks).

Lemma present_rows_spec k len i blocks r :
  r ∈ present_rows k len i blocks ->
  (i <= r < i + length blocks)%nat /\ length (blocks !!! (r - i)%nat) = len.
Proof.
  revert k i. induction blocks as [|b blocks IH]; intros [|k] i Hr; simpl in Hr;
    try by apply not_elem_of_nil in Hr.
  assert (Hshift : forall k', r ∈ present_rows k' len (S i) blocks ->
    (i <= r < i + S (length blocks))%nat /\ length ((b :: blocks) !!! (r - i)%nat) = len).
  { intros k' Hin. destruct (IH _ _ Hin) as [H1 H2]. split; [lia|].
    replace (r - i)%nat with (S (r - S i)) by lia. done. }
  destruct (Nat.eqb_spec (length b) len) as [Hb|]; [|by apply (Hshift (S k))].
  apply elem_of_cons in Hr as [->|Hr]; [|by apply (Hshift k)].
  split; [simpl; lia|]. by rewrite Nat.sub_diag.
Qed.

Lemma NoDup_present_rows k len i blocks : NoDup (present_rows k len i blocks).
Proof.
  revert k i. induction blocks as [|b blocks IH]; intros [|k] i; simpl; try constructor.
  destruct (length b =? len)%nat; [|apply IH]. apply NoDup_cons. split; [|apply IH].
  intros Hin. apply present_rows_spec in Hin. lia.
Qed.

Lemma present_cons len b blocks :
  present len (b :: blocks) =
  (if decide (length b = len) then S (present len blocks) else present len blocks).
Proof. unfold present. rewrite filter_cons. by case_decide. Qed.

Lemma length_present_rows k len i blocks :
  length (present_rows k len i blocks) = (k `min` present len blocks)%nat.
Proof.
  revert k i. induction blocks as [|b blocks IH]; intros [|k] i; try done.
  rewrite present_cons. simpl. destruct (Nat.eqb_spec (length b) len) as [H|H].
  - rewrite decide_True by done. simpl. rewrite IH. lia.
  - rewrite decide_False by done. by rewrite IH.
Qed.

(** ** Recovery *)

Section recovery.
Context {FO : FieldOps} {L : FieldLaws FO}.
#[local] Open Scope gf_scope.
Add Ring fec_ring3 : f_ring.

Context (data : list (list byte)) (len : nat) (blocks : list (list byte)).
Abbreviation k := (length data).
Context (Hk : (0 < k <= 255)%nat) (Hdata : equal_blocks len data).
Context (Hn : (k <= length blocks <= 256)%nat).
(** Every block of the right size is the one that was sent. *)
Context (Hblocks : forall r, (r < length blocks)%nat -> length (blocks !!! r) = len ->
                   blocks !!! r = code_block data r).

Lemma data_not_nil : data <> [].
Proof using Hk. clear -Hk. intros E. rewrite E in Hk. simpl in Hk. lia. Qed.

Lemma length_recover_block m rows j d bs :
  length (recover_block m rows j len d bs) = len.
Proof.
  unfold recover_block. rewrite length_foldl_blocks, length_replicate; [done|].
  intros out i. destruct (_ =? 0); [done | apply length_add_scaled].
Qed.

(** Skipping the zero coefficients does not change the sum. *)
Lemma recover_block_at m rows d p :
  (p < len)%nat ->
  recover_block m rows k len d blocks !!! p =
  xsum k (fun j => mat_at m d j ⊗ ((blocks !!! (rows !!! j)) !!! p)).
Proof using L.
  intros Hp.
  transitivity (foldl (fun out j => add_scaled (mat_at m d j) (blocks !!! (rows !!! j)) out)
                      (replicate len x00) (seq 0 k) !!! p); cycle 1.
  { rewrite (foldl_add_scaled (fun j => mat_at m d j) (fun j => blocks !!! (rows !!! j))),
      replicate_at by (rewrite ?length_replicate; done). apply f_0_l. }
  unfold recover_block. f_equal. apply foldl_ext_in. intros out j _. rewrite bz_eqb_0.
  case_bool_decide as H0; [|done]. unfold add_scaled. rewrite H0.
  apply list_eq. intros i. rewrite list_lookup_imap. destruct (out !! i); [|done].
  simpl. f_equal. ring.
Qed.

Context (Hpresent : (k <= present len blocks)%nat).
#[local] Abbreviation rows := (present_rows k len 0 blocks).

Lemma rows_length : length rows = k.
Proof using Hpresent. clear -Hpresent. rewrite length_present_rows. lia. Qed.

Lemma row_spec j : (j < k)%nat ->
  (rows !!! j < length blocks)%nat /\ length (blocks !!! (rows !!! j)) = len.
Proof using Hk Hn Hpresent.
  intros Hj. destruct (present_rows_spec k len 0 blocks (rows !!! j)) as [H1 H2].
  - apply list_elem_of_lookup. exists j. apply lookup_some_total. by rewrite rows_length.
  - rewrite Nat.sub_0_r in H2. split; [lia | done].
Qed.

(** Inverting the rows of the present blocks gives back the data. *)
Lemma recover_block_correct m d :
  invert (generator_row k <$> rows) = (true, m) -> (d < k)%nat ->
  recover_block m rows k len d blocks = data !!! d.
Proof using L Hk Hdata Hn Hblocks Hpresent.
  intros Hm Hd. destruct (invert_nonsingular k (generator_row k <$> rows)) as (m' & E & _ & _ & Hl).
  - apply square_generator, rows_length.
  - apply generator_nonsingular; [lia | apply rows_length | apply NoDup_present_rows |].
    intros r Hr. apply present_rows_spec in Hr. lia.
  - rewrite E in Hm. injection Hm as ->. apply list_eq_same_length with len.
    + by apply equal_blocks_at.
    + apply length_recover_block.
    + intros p x y Hp Hx Hy. apply lookup_total_some in Hx, Hy. subst.
      rewrite recover_block_at by done.
      rewrite <- (Hl (fun c => (data !!! c) !!! p) d Hd), mv_xsum.
      apply xsum_ext. intros j Hj. f_equal. destruct (row_spec j Hj) as [Hr1 Hr2].
      rewrite Hblocks by done.
      rewrite (code_block_at len), mv_xsum by auto using data_not_nil.
      apply xsum_ext. intros c Hc. by rewrite generator_matrix_at by (by rewrite rows_length).
Qed.

(** The loop over the missing data blocks never touches a present one. *)
Lemma recover_loop m l bs :
  invert (generator_row k <$> rows) = (true, m) ->
  (forall d, d ∈ l -> (d < k)%nat) ->
  length bs = length blocks ->
  (forall i, bs !!! i = blocks !!! i \/
     ((i < k)%nat /\ length (blocks !!! i) <> len /\ bs !!! i = data !!! i)) ->
  let bs' := foldl (recover_step m rows k len) bs l in
  length bs' = length blocks /\
  (forall i, bs' !!! i = blocks !!! i \/
     ((i < k)%nat /\ length (blocks !!! i) <> len /\ bs' !!! i = data !!! i)) /\
  (forall i, i ∈ l \/ bs !!! i = data !!! i -> bs' !!! i = data !!! i).
Proof using L Hk Hdata Hn Hblocks Hpresent.
  intros Hm. revert bs. induction l as [|d l IH]; intros bs Hl Hlen Hbs; simpl.
  { split_and!; try done. intros i [Hi|Hi]; [by apply not_elem_of_nil in Hi | done]. }
  assert (Hd : (d < k)%nat) by (apply Hl; left).
  assert (Hl' : forall d, d ∈ l -> (d < k)%nat) by (intros; apply Hl; by right).
  set (bs1 := recover_step m rows k len bs d).
  assert (Hsame : forall j, (j < k)%nat -> bs !!! (rows !!! j) = blocks !!! (rows !!! j)).
  { intros j Hj. destruct (row_spec j Hj) as [_ Hr].
    destruct (Hbs (rows !!! j)) as [?|(_ & ? & _)]; [done | congruence]. }
  assert (Hblock : recover_block m rows k len d bs = data !!! d).
  { rewrite <- (recover_block_correct m d Hm Hd). unfold recover_block.
    apply foldl_ext_in. intros out j Hj%elem_of_seq. by rewrite Hsame by lia. }
  assert (H1 : length bs1 = length blocks /\ bs1 !!! d = data !!! d /\
    forall i, i <> d -> bs1 !!! i = bs !!! i).
  { unfold bs1, recover_step. destruct (Nat.eqb_spec (length (bs !!! d)) len) as [E|E].
    - split_and!; try done. destruct (Hbs d) as [Hb|(_ & _ & ?)]; [|done].
      rewrite Hb in E |- *. rewrite Hblocks by (done || lia). unfold code_block.
      destruct (Nat.ltb_spec d k); [done | lia].
    - rewrite length_insert, Hblock. split_and!; [done | |].
      + apply lookup_total_some. apply list_lookup_insert_eq. lia.
      + intros i Hi. rewrite !list_lookup_total_alt. by rewrite list_lookup_insert_ne. }
  destruct H1 as (H1 & H2 & H3).
  destruct (IH bs1) as (Hr1 & Hr2 & Hr3); [done..| |].
  - intros i. destruct (decide (i = d)) as [->|Hne]; [|rewrite H3 by done; apply Hbs].
    destruct (decide (length (blocks !!! d) = len)) as [E|E]; [left | right; done].
    rewrite H2, Hblocks by (done || lia). unfold code_block.
    destruct (Nat.ltb_spec d k); [done | lia].
  - split_and!; try done. intros i [Hi|Hi]; apply Hr3.
    + apply elem_of_cons in Hi as [->|Hi]; [by right | by left].
    + right. destruct (decide (i = d)) as [->|Hne]; [done | by rewrite H3].
Qed.

Lemma recover_restores :
  exists out,
    recover blocks (Z.of_nat k) len = (true, out) /\
    length out = length blocks /\
    (forall i, (i < k)%nat -> out !!! i = data !!! i) /\
    (forall i, (k <= i)%nat -> out !!! i = blocks !!! i).
Proof using L Hk Hdata Hn Hblocks Hpresent.
  unfold recover.
  replace ((Z.of_nat k <=? 0) || (Z.of_nat (length blocks) <? Z.of_nat k) || (255 <? Z.of_nat k))
    with false by lia.
  rewrite Nat2Z.id. rewrite rows_length. destruct (Nat.ltb_spec k k); [lia|].
  destruct (invert_nonsingular k (generator_row k <$> rows)) as (m & E & _).
  { apply square_generator, rows_length. }
  { apply generator_nonsingular; [lia | apply rows_length | apply NoDup_present_rows |].
    intros r Hr. apply present_rows_spec in Hr. lia. }
  rewrite E. simpl. eexists. split; [done|].
  destruct (recover_loop m (seq 0 k) blocks E) as (H1 & H2 & H3).
  - intros d Hd%elem_of_seq. lia.
  - done.
  - by left.
  - split_and!; [done | |].
    + intros i Hi. apply H3. left. apply elem_of_seq. lia.
    + intros i Hi. destruct (H2 i) as [?|(? & _)]; [done | lia].
Qed.
End recovery.

Lemma recover_too_few {FO : FieldOps} blocks k len :
  0 < k -> (present len blocks < Z.to_nat k)%nat -> recover blocks k len = (false, blocks).
Proof.
  intros Hk Hp. unfold recover. destruct (_ || _); [done|].
  rewrite length_present_rows. destruct (Nat.ltb_spec (Z.to_nat k `min` present len blocks) (Z.to_nat k));
    [done | lia].
Qed.

(** ** The code over the tables *)

Definition received : list (list byte) -> nat -> (nat -> bool) -> list (list byte) :=
  received_by code_block.

Lemma present_received data n lost len :
  data <> [] -> equal_blocks len data -> (0 < len)%nat ->
  present len (received data n lost) = length (filter (fun r => lost r = false) (seq 0 n)).
Proof.
  intros Hne He Hlen. unfold received, received_by. generalize (seq 0 n). intros l.
  induction l as [|r l IH]; [done|].
  rewrite fmap_cons, present_cons, filter_cons, IH.
  destruct (lost r); simpl.
  - rewrite decide_False by lia. done.
  - rewrite decide_True by by apply length_code_block. done.
Qed.

Lemma received_recover (data : list (list byte)) (len n : nat) (lost : nat -> bool) :
  (0 < length data <= 255)%nat -> equal_blocks len data -> (0 < len)%nat ->
  (length data <= n <= 256)%nat ->
  (length data <= length (filter (fun r => lost r = false) (seq 0 n)))%nat ->
  exists out, recover (received data n lost) (Z.of_nat (length data)) len = (true, out) /\
              take (length data) out = data.
Proof.
  intros Hk He Hlen Hn Hp.
  assert (Hne : data <> []) by (intros ->; simpl in Hk; lia).
  assert (Hl : length (received data n lost) = n)
    by (unfold received, received_by; by rewrite length_fmap, length_seq).
  destruct (recover_restores data len (received data n lost) Hk He) as (out & H1 & H2 & H3 & _).
  - by rewrite Hl.
  - intros r Hr Hb. rewrite Hl in Hr. unfold received, received_by in *.
    rewrite fmap_seq_total in * by done. destruct (lost r); simpl in Hb; [lia | done].
  - by rewrite present_received.
  - exists out. split; [done|]. apply list_eq_same_length with (length data); [done | |].
    + rewrite length_take. lia.
    + intros i x y Hi Hx Hy. rewrite lookup_take in Hx by done. rewrite decide_True in Hx by done.
      apply lookup_total_some in Hx, Hy. rewrite H3 in Hx by done. congruence.
Qed.

(** The tables' code implements the erasure-code interface. *)
#[export, program] Instance fec_code : ErasureCode :=
  {| ec_recover := recover; ec_block := code_block |}.
Next Obligation.
  intros data r Hr. unfold code_block. destruct (Nat.ltb_spec r (length data)); [done | lia].
Qed.
Next Obligation. intros. by apply length_code_block. Qed.
Next Obligation. intros. by apply received_recover. Qed.

(** C2: erasure correction. Whatever [n - k] blocks of a group of [k] data
    blocks and [n - k] parity rows are lost, as long as at least [k] arrive
    [recover] reports success and the first [k] blocks afterwards are the data
    that was encoded. *)
Theorem fec_recover_correct (data : list (list byte)) (len n : nat) (lost : nat -> bool) :
  (0 < length data <= 255)%nat -> equal_blocks len data -> (0 < len)%nat ->
  (length data <= n <= 256)%nat ->
  (length data <= length (filter (fun r => lost r = false) (seq 0 n)))%nat ->
  exists out, recover (received data n lost) (Z.of_nat (length data)) len = (true, out) /\
              take (length data) out = data.
Proof. apply received_recover. Qed.

(** A group with fewer than [k] blocks of the coded length is left as it
    is and reported as unrecoverable. *)
Lemma fec_recover_too_few (blocks : list (list byte)) (k : Z) (len : nat) :
  0 < k -> (present len blocks < Z.to_nat k)%nat -> recover blocks k len = (false, blocks).
Proof. apply recover_too_few. Qed.

(** ** Concrete groups *)

Definition sample : list (list byte) :=
  [str "frame-a"; str "frame-b"; str "frame-c"].

Lemma fec_recover_correct_witness :
  exists out, recover (received sample 5 (fun r => (r =? 0)%nat || (r =? 2)%nat)) 3 7 = (true, out) /\
              take 3 out = sample.
Proof.
  apply (fec_recover_correct sample 7 5 (fun r => (r =? 0)%nat || (r =? 2)%nat)).
  - simpl. lia.
  - repeat constructor.
  - lia.
  - simpl. lia.
  - vm_compute. lia.
Defined.

Example fec_recover_evaluates :
  recover (received sample 5 (fun r => (r =? 0)%nat || (r =? 2)%nat)) 3 7
  = (true, sample ++ [encode sample 3; encode sample 4]).
Proof. vm_compute. reflexivity. Qed.

Lemma fec_recover_too_few_witness :
  recover [[]; str "abc"; []] 2 3 = (false, [[]; str "abc"; []]).
Proof. apply fec_recover_too_few; [lia | vm_compute; lia]. Defined.
