(* ===== verification/OMap.v ===== *)
(** [std::map]: an association list kept in strictly ascending key order.
    Iteration order is visible to the code that uses it (frames are
    concatenated and JSON objects printed in key order), so a map is the list
    of its entries. The order is a type class; its instances are the unsigned
    integers and the strings, compared as [std::less] does. *)

From S2P Require Import Prelude.

Class KeyOrder (K : Type) := {
  klt : K -> K -> bool;
  klt_irrefl k : klt k k = false;
  klt_trans a b c : klt a b = true -> klt b c = true -> klt a c = true;
  klt_total a b : klt a b = false -> klt b a = false -> a = b
}.

#[export, program] Instance Z_order : KeyOrder Z := {| klt := Z.ltb |}.
Next Obligation. intros. apply Z.ltb_irrefl. Qed.
Next Obligation. intros a b c. rewrite !Z.ltb_lt. lia. Qed.
Next Obligation. intros a b. rewrite !Z.ltb_ge. lia. Qed.

(** [std::string::operator<]: lexicographic on unsigned characters. *)
Fixpoint str_lt (a b : cstr) : bool :=
  match a, b with
  | _, [] => false
  | [], _ :: _ => true
  | x :: a', y :: b' =>
      if bz x <? bz y then true else if bz y <? bz x then false else str_lt a' b'
  end.

Lemma str_lt_trans a b c : str_lt a b = true -> str_lt b c = true -> str_lt a c = true.
Proof.
  revert b c. induction a as [|x a IH]; intros [|y b] [|z c]; simpl; try done.
  destruct (Z.ltb_spec (bz x) (bz y)), (Z.ltb_spec (bz y) (bz x)),
    (Z.ltb_spec (bz y) (bz z)), (Z.ltb_spec (bz z) (bz y)),
    (Z.ltb_spec (bz x) (bz z)), (Z.ltb_spec (bz z) (bz x)); try done; try lia.
  apply IH.
Qed.

Lemma str_lt_total a b : str_lt a b = false -> str_lt b a = false -> a = b.
Proof.
  revert b. induction a as [|x a IH]; intros [|y b]; simpl; try done.
  destruct (Z.ltb_spec (bz x) (bz y)), (Z.ltb_spec (bz y) (bz x)); try done.
  intros. f_equal; [apply bz_inj; lia | by apply IH].
Qed.

#[export, program] Instance cstr_order : KeyOrder cstr := {| klt := str_lt |}.
Next Obligation. induction k as [|x k IH]; simpl; [done|]. by rewrite Z.ltb_irrefl. Qed.
Next Obligation. intros. by eapply str_lt_trans. Qed.
Next Obligation. intros. by apply str_lt_total. Qed.

Section omap.
Context {K V : Type} `{KeyOrder K}.

Definition keq (a b : K) : bool := negb (klt a b) && negb (klt b a).

(** [find]. *)
Fixpoint om_find (k : K) (m : list (K * V)) : option V :=
  match m with
  | [] => None
  | (k', v) :: m' => if keq k k' then Some v else om_find k m'
  end.

(** [m[k] = v]: insert or assign. *)
Fixpoint om_set (k : K) (v : V) (m : list (K * V)) : list (K * V) :=
  match m with
  | [] => [(k, v)]
  | (k', v') :: m' =>
      if klt k k' then (k, v) :: m
      else if klt k' k then (k', v') :: om_set k v m'
      else (k', v) :: m'
  end.

(** [m.emplace(k, v)]: a key already there keeps its value. *)
Definition om_emplace (k : K) (v : V) (m : list (K * V)) : list (K * V) :=
  match om_find k m with Some _ => m | None => om_set k v m end.

Definition om_erase (k : K) (m : list (K * V)) : list (K * V) :=
  filter (fun kv => keq k kv.1 = false) m.

(** Strictly ascending keys. *)
Fixpoint ascending (m : list (K * V)) : Prop :=
  match m with
  | [] => True
  | (k, _) :: m' => Forall (fun kv => klt k kv.1 = true) m' /\ ascending m'
  end.

Lemma keq_eq a b : keq a b = true <-> a = b.
Proof.
  unfold keq. rewrite andb_true_iff, !negb_true_iff. split.
  - intros [? ?]. by apply klt_total.
  - intros ->. by rewrite klt_irrefl.
Qed.

Lemma keq_refl a : keq a a = true.
Proof. by apply keq_eq. Qed.

Lemma keq_neq a b : keq a b = false <-> a <> b.
Proof. rewrite <- keq_eq. destruct (keq a b); split; congruence. Qed.

Lemma klt_neq a b : klt a b = true -> a <> b.
Proof. intros Hlt ->. by rewrite klt_irrefl in Hlt. Qed.

Lemma klt_asym a b : klt a b = true -> klt b a = false.
Proof.
  intros Hab. destruct (klt b a) eqn:Hba; [|done].
  pose proof (klt_trans _ _ _ Hab Hba) as Haa. by rewrite klt_irrefl in Haa.
Qed.

Lemma om_find_set k v m : om_find k (om_set k v m) = Some v.
Proof.
  induction m as [|[k' v'] m IH]; simpl; [by rewrite keq_refl|].
  destruct (klt k k') eqn:E1; simpl; [by rewrite keq_refl|].
  destruct (klt k' k) eqn:E2; simpl.
  - replace (keq k k') with false; [done|]. symmetry. apply keq_neq.
    intros ->. by rewrite klt_irrefl in E2.
  - replace (keq k k') with true; [done|]. symmetry. apply keq_eq. by apply klt_total.
Qed.

Lemma om_find_set_ne k k' v m : k <> k' -> om_find k' (om_set k v m) = om_find k' m.
Proof.
  intros Hne. assert (Hf : keq k' k = false) by (apply keq_neq; congruence).
  induction m as [|[k1 v1] m IH]; simpl; [by rewrite Hf|].
  destruct (klt k k1) eqn:E1; simpl; [by rewrite Hf|].
  destruct (klt k1 k) eqn:E2; simpl; [by rewrite IH|].
  pose proof (klt_total _ _ E1 E2) as <-. by rewrite Hf.
Qed.

Lemma om_find_emplace k' v k m :
  om_find k (om_emplace k' v m) = match om_find k m with Some x => Some x | None => if keq k k' then Some v else None end.
Proof.
  unfold om_emplace. destruct (keq k k') eqn:E.
  - apply keq_eq in E as <-. destruct (om_find k m) eqn:F; [by rewrite F | apply om_find_set].
  - apply keq_neq in E. destruct (om_find k' m) eqn:F; [by destruct (om_find k m)|].
    rewrite om_find_set_ne by congruence. by destruct (om_find k m).
Qed.

Lemma Forall_om_set (P : K * V -> Prop) k v m :
  P (k, v) -> Forall P m -> Forall P (om_set k v m).
Proof.
  intros Hp. induction 1 as [|[k1 v1] m Hx Hm IH]; simpl; [by constructor|].
  destruct (klt k k1) eqn:E1; [by repeat constructor|].
  destruct (klt k1 k) eqn:E2; [by constructor|].
  pose proof (klt_total _ _ E1 E2) as <-. by constructor.
Qed.

Lemma ascending_set k v m : ascending m -> ascending (om_set k v m).
Proof.
  induction m as [|[k1 v1] m IH]; simpl; [done|]. intros [Hall Hm].
  destruct (klt k k1) eqn:E1; simpl.
  - split; [|done]. constructor; [done|]. eapply Forall_impl; [exact Hall|].
    intros [k2 v2] Hlt. eauto using klt_trans.
  - destruct (klt k1 k) eqn:E2; simpl; [|done]. split; [|by apply IH].
    by apply Forall_om_set.
Qed.

Lemma ascending_emplace k v m : ascending m -> ascending (om_emplace k v m).
Proof. unfold om_emplace. destruct (om_find k m); [done|]. apply ascending_set. Qed.

Lemma ascending_filter (P : K * V -> Prop) `{!forall x, Decision (P x)} m :
  ascending m -> ascending (filter P m).
Proof.
  induction m as [|[k v] m IH]; [done|]. intros [Hall Hm]. rewrite filter_cons.
  case_decide; [|by apply IH]. split; [|by apply IH].
  apply Forall_forall. intros x [_ Hx]%list_elem_of_filter.
  rewrite Forall_forall in Hall. by apply Hall.
Qed.

Lemma om_find_elem k v m : om_find k m = Some v -> (k, v) ∈ m.
Proof.
  induction m as [|[k1 v1] m IH]; simpl; [done|].
  destruct (keq k k1) eqn:E.
  - apply keq_eq in E as <-. injection 1 as ->. left.
  - intros Hf. right. by apply IH.
Qed.

Lemma om_find_above k m :
  Forall (fun kv => klt k kv.1 = true) m -> om_find k m = None.
Proof.
  induction 1 as [|[k1 v1] m Hlt Hm IH]; simpl; [done|].
  replace (keq k k1) with false; [done|]. symmetry. by apply keq_neq, klt_neq.
Qed.

Lemma om_elem_find k v m : ascending m -> (k, v) ∈ m -> om_find k m = Some v.
Proof.
  induction m as [|[k1 v1] m IH]; simpl; [by intros _ ?%not_elem_of_nil|].
  intros [Hall Hm] [[= <- <-]|Hin]%elem_of_cons; [by rewrite keq_refl|].
  rewrite Forall_forall in Hall. specialize (Hall _ Hin). simpl in Hall.
  replace (keq k k1) with false; [by apply IH|]. symmetry. apply keq_neq.
  intros ->. by rewrite klt_irrefl in Hall.
Qed.

(** Two maps with the same lookups are the same list of entries. *)
Lemma om_ext m m' :
  ascending m -> ascending m' -> (forall k, om_find k m = om_find k m') -> m = m'.
Proof.
  revert m'. induction m as [|[k v] m IH]; intros m' Ha Ha' He.
  { destruct m' as [|[k' v'] m']; [done|]. specialize (He k'). simpl in He.
    by rewrite keq_refl in He. }
  destruct m' as [|[k' v'] m'].
  { specialize (He k). simpl in He. by rewrite keq_refl in He. }
  destruct Ha as [Hall Ha], Ha' as [Hall' Ha'].
  assert (Hk : k = k').
  { apply klt_total.
    - destruct (klt k k') eqn:E; [|done]. specialize (He k). simpl in He.
      rewrite keq_refl in He. destruct (keq k k') eqn:E2.
      { apply keq_eq in E2 as ->. by rewrite klt_irrefl in E. }
      rewrite om_find_above in He; [done|]. eapply Forall_impl; [exact Hall'|].
      intros [k2 v2] H2. eauto using klt_trans.
    - destruct (klt k' k) eqn:E; [|done]. specialize (He k'). simpl in He.
      rewrite keq_refl in He. destruct (keq k' k) eqn:E2.
      { apply keq_eq in E2 as ->. by rewrite klt_irrefl in E. }
      rewrite om_find_above in He; [done|]. eapply Forall_impl; [exact Hall|].
      intros [k2 v2] H2. eauto using klt_trans. }
  subst k'. pose proof (He k) as Hv. simpl in Hv. rewrite keq_refl in Hv.
  injection Hv as <-. f_equal. apply IH; [done..|]. intros k2.
  specialize (He k2). simpl in He. destruct (keq k2 k) eqn:E; [|done].
  apply keq_eq in E as ->. by rewrite !om_find_above.
Qed.

Lemma om_find_erase k m : om_find k (om_erase k m) = None.
Proof.
  induction m as [|[k1 v1] m IH]; [done|]. unfold om_erase. rewrite filter_cons. simpl.
  destruct (keq k k1) eqn:E; [exact IH|]. simpl. rewrite E. exact IH.
Qed.

Lemma om_find_erase_ne k k' m : k <> k' -> om_find k' (om_erase k m) = om_find k' m.
Proof.
  intros Hne. induction m as [|[k1 v1] m IH]; [done|]. unfold om_erase.
  rewrite filter_cons. simpl. destruct (keq k k1) eqn:E; simpl.
  - apply keq_eq in E as <-. replace (keq k' k) with false; [exact IH|].
    symmetry. apply keq_neq. congruence.
  - destruct (keq k' k1); [done | exact IH].
Qed.

Lemma length_om_set_new k v m : om_find k m = None -> length (om_set k v m) = S (length m).
Proof.
  induction m as [|[k1 v1] m IH]; simpl; [done|]. destruct (keq k k1) eqn:E; [done|].
  intros Hf. destruct (klt k k1) eqn:E1; simpl; [done|].
  destruct (klt k1 k) eqn:E2; simpl; [by rewrite IH|].
  apply keq_neq in E. by destruct E; apply klt_total.
Qed.

Lemma length_om_set_old k v v0 m :
  ascending m -> om_find k m = Some v0 -> length (om_set k v m) = length m.
Proof.
  induction m as [|[k1 v1] m IH]; simpl; [done|]. intros [Hall Hm].
  destruct (klt k k1) eqn:E1; simpl.
  - rewrite om_find_above.
    + by replace (keq k k1) with false by (symmetry; by apply keq_neq, klt_neq).
    + eapply Forall_impl; [exact Hall|]. intros [k2 v2] H2. simpl in *. eauto using klt_trans.
  - destruct (klt k1 k) eqn:E2; simpl; [|done].
    replace (keq k k1) with false; [intros; f_equal; auto|].
    symmetry. apply keq_neq. intros ->. by rewrite klt_irrefl in E2.
Qed.

Lemma ascending_nodup m : ascending m -> NoDup (fst <$> m).
Proof.
  induction m as [|[k1 v1] m IH]; [constructor|]. intros [Hall Ha].
  rewrite fmap_cons. apply NoDup_cons. split; [|by apply IH].
  intros ([k2 v2] & E & Hin)%list_elem_of_fmap. rewrite Forall_forall in Hall.
  specialize (Hall _ Hin). simpl in *. subst. by rewrite klt_irrefl in Hall.
Qed.

Lemma om_set_last k v m :
  Forall (fun kv => klt kv.1 k = true) m -> om_set k v m = m ++ [(k, v)].
Proof.
  induction 1 as [|[k1 v1] m Hlt Hm IH]; simpl; [done|]. simpl in Hlt.
  by rewrite (klt_asym _ _ Hlt), Hlt, IH.
Qed.
End omap.

(** ** Maps with integer keys in a range *)

Lemma ascending_count {V} (m : list (Z * V)) a b :
  ascending m -> Forall (fun kv => a <= kv.1 < b) m -> Z.of_nat (length m) <= Z.max 0 (b - a).
Proof.
  intros Ha Hr.
  assert (Hs : fst <$> m ⊆+ seqZ a (b - a)).
  { apply NoDup_submseteq; [by apply ascending_nodup|].
    intros z ([k v] & -> & Hin)%list_elem_of_fmap. rewrite Forall_forall in Hr.
    specialize (Hr _ Hin). simpl in *. apply elem_of_seqZ. lia. }
  apply submseteq_length in Hs. rewrite length_fmap, length_seqZ in Hs. lia.
Qed.

(** As many keys as the range has: the keys are the range, in order. *)
Lemma ascending_full {V} (m : list (Z * V)) a n :
  ascending m -> Forall (fun kv => a <= kv.1 < a + n) m -> Z.of_nat (length m) = n ->
  fst <$> m = seqZ a n.
Proof.
  revert a n. induction m as [|[k v] m IH]; intros a n; simpl; [by intros _ _ <-|].
  intros [Hall Ha] [Hk Hb]%Forall_cons Hl. simpl in Hk.
  assert (Hm : Forall (fun kv => k + 1 <= kv.1 < a + n) m).
  { apply Forall_forall. intros x Hx. rewrite Forall_forall in Hall, Hb.
    specialize (Hall _ Hx). specialize (Hb _ Hx). apply Z.ltb_lt in Hall. lia. }
  pose proof (ascending_count m _ _ Ha Hm). assert (k = a) as -> by lia.
  rewrite seqZ_cons by lia. f_equal. replace (Z.succ a) with (a + 1) by lia.
  apply IH; [done| |lia]. eapply Forall_impl; [exact Hm|]. simpl. intros; lia.
Qed.
