(* ===== verification/AvSlice.v ===== *)
(** Slice headers and payload tests of the TUTK AV transport
    ([src/camera/tutk/TutkSession.cpp]). A pointer and a length [p, n] are the
    list of the [n] bytes at [p]; [len16] and [len32] read little-endian
    fields ([get_le16], [get_le32]). *)

From S2P Require Import Prelude.

Definition kSliceHeaderLen : nat := 20.

(** [get_le16(p + i)] and [get_le32(p + i)]. *)
Definition get_le16 (p : list byte) (i : nat) : Z := le16 p i.
Definition get_le32 (p : list byte) (i : nat) : Z := le32 p i.

Record SliceHeader := {
  kind : Z;       (* 5: keyframe, 7: inter frame, 4: audio *)
  count : Z;      (* slices in the frame *)
  index : Z;
  info_len : Z;   (* frame info trailer length (last slice only) *)
  len : Z;        (* payload bytes after the header *)
  frame_no : Z
}.

(** The header is filled in whatever the result; [None] is [false]. *)
Definition parse_slice_header (p : list byte) : option SliceHeader :=
  if (length p <? kSliceHeaderLen)%nat then None
  else
    let last := zat p 1 =? 1 in
    let cnt := get_le16 p 4 in
    let h := {| kind := zat p 0;
                count := cnt;
                index := if last then u16 (cnt - 1) else get_le16 p 6;
                info_len := if last then get_le16 p 6 else 0;
                len := get_le16 p 8;
                frame_no := get_le32 p 12 |} in
    if (0 <? count h) && (index h <? count h) &&
       (Z.of_nat kSliceHeaderLen + len h <=? Z.of_nat (length p))
    then Some h else None.

Definition starts_with_start_code (p : list byte) : bool :=
  ((3 <=? length p)%nat && (zat p 0 =? 0) && (zat p 1 =? 0) && (zat p 2 =? 1)) ||
  ((4 <=? length p)%nat && (zat p 0 =? 0) && (zat p 1 =? 0) && (zat p 2 =? 0) && (zat p 3 =? 1)).

Definition is_jpeg (p : list byte) : bool :=
  (2 <=? length p)%nat && (zat p 0 =? 0xff) && (zat p 1 =? 0xd8).

Definition h264_is_keyframe (p : list byte) : bool :=
  let off := if (4 <=? length p)%nat && (zat p 2 =? 0) then 4%nat else 3%nat in
  if (length p <=? off)%nat then false
  else
    let nal := Z.land (zat p off) 0x1f in
    (nal =? 5) || (nal =? 7).

(** ** Ranges *)

Lemma zat_range p i : 0 <= zat p i < 256.
Proof. apply bz_range. Qed.

Lemma get_le16_range p i : 0 <= get_le16 p i < 2 ^ 16.
Proof.
  unfold get_le16, le16. pose proof (zat_range p i). pose proof (zat_range p (i + 1)). lia.
Qed.

Lemma get_le32_range p i : 0 <= get_le32 p i < 2 ^ 32.
Proof.
  unfold get_le32, le32. pose proof (zat_range p i). pose proof (zat_range p (i + 1)).
  pose proof (zat_range p (i + 2)). pose proof (zat_range p (i + 3)). lia.
Qed.

Lemma get_le16_app p q i : (i + 1 < length p)%nat -> get_le16 (p ++ q) i = get_le16 p i.
Proof.
  intros Hi. unfold get_le16, le16, zat, at_.
  by rewrite !lookup_total_app_l by lia.
Qed.

Lemma parse_slice_header_ok p h :
  parse_slice_header p = Some h ->
  0 < count h < 2 ^ 16 /\ 0 <= index h < count h /\ 0 <= len h < 2 ^ 16 /\
  0 <= info_len h < 2 ^ 16 /\ 0 <= frame_no h < 2 ^ 32 /\
  (kSliceHeaderLen + Z.to_nat (len h) <= length p)%nat.
Proof.
  unfold parse_slice_header. destruct (Nat.ltb_spec (length p) kSliceHeaderLen) as [|Hp]; [done|].
  set (h' := {| kind := _ |}). destruct (_ && _) eqn:E; [|done]. intros [= <-].
  rewrite !andb_true_iff in E. destruct E as [[E1 E2] E3].
  pose proof (get_le16_range p 4). pose proof (get_le16_range p 6).
  pose proof (get_le16_range p 8). pose proof (get_le32_range p 12).
  subst h'. cbn [kind count index info_len len frame_no] in *.
  unfold u16 in *.
  generalize dependent (get_le16 p 4). generalize dependent (get_le16 p 6).
  generalize dependent (get_le16 p 8). generalize dependent (get_le32 p 12).
  intros f Hf l E3 Hl i Hi c Hc E1 E2.
  pose proof (Z.mod_pos_bound (c - 1) (2 ^ 16) ltac:(lia)).
  destruct (zat p 1 =? 1); lia.
Qed.

(** Parsing reads the header only: what follows the slice does not matter. *)
Lemma lookup_total_app_r_zero (p : list byte) n i :
  (p ++ replicate n x00) !!! i = p !!! i.
Proof.
  destruct (decide (i < length p)%nat); [by apply lookup_total_app_l|].
  rewrite lookup_total_app_r by lia. rewrite (list_lookup_total_ge p) by lia.
  destruct (decide (i - length p < n)%nat).
  - apply lookup_total_some. by apply lookup_replicate.
  - apply list_lookup_total_ge. rewrite length_replicate. lia.
Qed.

Lemma parse_slice_header_pad p n :
  (kSliceHeaderLen <= length p)%nat -> (* a whole header *)
  forall h, parse_slice_header p = Some h -> parse_slice_header (p ++ replicate n x00) = Some h.
Proof.
  intros Hp h. unfold parse_slice_header, get_le16, get_le32, le16, le32, zat, at_.
  rewrite !lookup_total_app_r_zero, !length_app.
  destruct (Nat.ltb_spec (length p) kSliceHeaderLen); [lia|].
  destruct (Nat.ltb_spec (length p + length (replicate n x00)) kSliceHeaderLen); [lia|].
  intros Hh. destruct (_ && _) eqn:E in Hh; [|done]. rewrite !andb_true_iff in E.
  destruct E as [[E1 E2] E3]. rewrite E1, E2. cbn [andb].
  cbn [kind count index info_len len frame_no] in *.
  rewrite <- Hh. apply Z.leb_le in E3. rewrite Nat2Z.inj_add.
  set (l := bz (p !!! 8%nat) + 2 ^ 8 * bz (p !!! (8 + 1)%nat)) in *.
  destruct (Z.leb_spec (Z.of_nat kSliceHeaderLen + l)
    (Z.of_nat (length p) + Z.of_nat (length (replicate n x00)))); [done | lia].
Qed.
