(* ===== verification/FecReceiver.v ===== *)
(** The framed transport's [FecReceiver] ([src/camera/tutk/TutkSession.cpp]):
    FEC groups of stream packets, the window of groups it keeps, and the
    recovery of a group from its parity packets, over an erasure code. The
    slices handed to the [on_slice] callback are returned as a list, in the
    order of the calls. *)

From S2P Require Import Prelude OMap Erasure Fec AvSlice.

(** ** The code *)

Record Group := {
  g_k : Z;
  g_m : Z;
  g_blocks : list (list byte);
  data_have : Z;
  parity_have : Z;
  max_data : Z;
  g_len : nat;
  closed : bool
}.

Definition new_group : Group :=
  {| g_k := 0; g_m := 0; g_blocks := []; data_have := 0; parity_have := 0;
     max_data := -1; g_len := 0; closed := false |}.

Record FecReceiver := {
  groups : list (Z * Group);
  newest : Z;
  have_newest : bool;
  recovered : Z;
  lost : Z
}.

Definition new_receiver : FecReceiver :=
  {| groups := []; newest := 0; have_newest := false; recovered := 0; lost := 0 |}.

Definition kKeepGroups : Z := 8.

Definition set_closed (g : Group) : Group :=
  {| g_k := g_k g; g_m := g_m g; g_blocks := g_blocks g; data_have := data_have g;
     parity_have := parity_have g; max_data := max_data g; g_len := g_len g; closed := true |}.

(** [g.k = k; g.m = m; g.blocks.resize(k + m)] of an empty group. *)
Definition init_group (g : Group) (k m : Z) : Group :=
  match g_blocks g with
  | [] => {| g_k := k; g_m := m; g_blocks := replicate (Z.to_nat (k + m)) [];
             data_have := data_have g; parity_have := parity_have g; max_data := max_data g;
             g_len := g_len g; closed := closed g |}
  | _ => g
  end.

(** [close_lost]: the group, and what it adds to [lost]. *)
Definition close_lost (g : Group) : Group * Z := (set_closed g, g_k g - data_have g).

(** A packet of a newer group means every older group is complete: the entries
    in key order, and the new value of [lost]. *)
Fixpoint advance_groups (newest : Z) (gs : list (Z * Group)) (lost : Z)
    : list (Z * Group) * Z :=
  match gs with
  | [] => ([], lost)
  | (key, g) :: gs' =>
      let age := s16 (newest - key) in
      let '(g, lost) := if (0 <? age) && negb (closed g)
                        then let '(g', n) := close_lost g in (g', lost + n)
                        else (g, lost) in
      let '(rest, lost) := advance_groups newest gs' lost in
      if (kKeepGroups <? age) || (age <? - kKeepGroups) then (rest, lost)
      else ((key, g) :: rest, lost)
  end.

Definition advance (st : FecReceiver) (group : Z) : FecReceiver :=
  let '(gs, l) := advance_groups group (groups st) (lost st) in
  {| groups := gs; newest := group; have_newest := have_newest st;
     recovered := recovered st; lost := l |}.

(** [v.resize(n, 0)]. *)
Definition resize (n : nat) (b : list byte) : list byte :=
  take n b ++ replicate (n - length b) x00.

Section code.
Context {EC : ErasureCode}.

Definition is_empty (b : list byte) : bool := match b with [] => true | _ => false end.

(** The slices of the recovered blocks, and how many parsed and did not. *)
Fixpoint emit_recovered (missing : list bool) (blocks : list (list byte))
    : list (list byte) * Z * Z :=
  match missing, blocks with
  | ms :: missing', b :: blocks' =>
      let '(out, r, l) := emit_recovered missing' blocks' in
      if ms then
        match parse_slice_header b with
        | None => (out, r, l + 1)
        | Some h => (take (kSliceHeaderLen + Z.to_nat (len h)) b :: out, r + 1, l)
        end
      else (out, r, l)
  | _, _ => ([], 0, 0)
  end.

(** [recover(g, on_slice)]: the group afterwards, what it adds to [recovered]
    and to [lost], and the slices. *)
Definition recover_group (g : Group) : Group * Z * Z * list (list byte) :=
  let k := Z.to_nat (g_k g) in
  let missing := is_empty <$> take k (g_blocks g) in
  let blocks := ((fun b => if is_empty b then b else resize (g_len g) b) <$> take k (g_blocks g))
                ++ drop k (g_blocks g) in
  let '(ok, blocks) := ec_recover blocks (g_k g) (g_len g) in
  if negb ok then (set_closed g, 0, g_k g - data_have g, [])
  else
    let '(out, r, l) := emit_recovered missing (take k blocks) in
    (set_closed g, r, l, out).

(** The data or parity packet stored into the group: [None] when the packet is
    rejected, otherwise the group and the slice a data packet emits. *)
Definition store_packet (g : Group) (idx k m : Z) (body : list byte)
    : option (Group * list (list byte)) :=
  if closed g || negb (g_k g =? k) || negb (g_m g =? m) ||
     negb (is_empty (g_blocks g !!! Z.to_nat idx)) || (length body =? 0)%nat
  then None
  else if idx <? k then
    Some ({| g_k := g_k g; g_m := g_m g; g_blocks := <[Z.to_nat idx := body]> (g_blocks g);
             data_have := data_have g + 1; parity_have := parity_have g;
             max_data := Z.max (max_data g) idx; g_len := g_len g; closed := closed g |},
          [body])
  else if (length body <? kSliceHeaderLen)%nat then None
  else
    let len := Z.to_nat (get_le16 body 8) in
    if (len =? 0)%nat || (length body <? kSliceHeaderLen + len)%nat ||
       (negb (g_len g =? 0)%nat && negb (g_len g =? len)%nat)
    then None
    else
      Some ({| g_k := g_k g; g_m := g_m g;
               g_blocks := <[Z.to_nat idx := sub kSliceHeaderLen len body]> (g_blocks g);
               data_have := data_have g; parity_have := parity_have g + 1;
               max_data := max_data g; g_len := len; closed := closed g |}, []).

(** What follows a stored packet: close, recover or give the group up. *)
Definition settle (g : Group) (idx k m : Z) : Group * Z * Z * list (list byte) :=
  if data_have g =? g_k g then (set_closed g, 0, 0, [])
  else if negb (g_len g =? 0)%nat && (g_k g <=? data_have g + parity_have g) then recover_group g
  else if idx =? k + m - 1 then let '(g, n) := close_lost g in (g, 0, n, [])
  else (g, 0, 0, []).

(** A packet for a group: the group afterwards, what is added to [recovered]
    and [lost], and the slices. *)
Definition group_packet (g : Group) (idx k m : Z) (body : list byte)
    : Group * Z * Z * list (list byte) :=
  match store_packet g idx k m body with
  | None => (g, 0, 0, [])
  | Some (g, out) =>
      let '(g, r, l, out') := settle g idx k m in (g, r, l, out ++ out')
  end.

Definition put_group (st : FecReceiver) (group : Z) (g : Group) (r l : Z) : FecReceiver :=
  {| groups := om_set group g (groups st); newest := newest st; have_newest := have_newest st;
     recovered := recovered st + r; lost := lost st + l |}.

(** The window check: [None] is the early return on an old group. *)
Definition enter_window (st : FecReceiver) (group : Z) : option FecReceiver :=
  if have_newest st then
    let d := s16 (group - newest st) in
    if d <? - kKeepGroups then None
    else if 0 <? d then Some (advance st group) else Some st
  else
    Some {| groups := groups st; newest := group; have_newest := true;
            recovered := recovered st; lost := lost st |}.

Definition group_of (st : FecReceiver) (group k m : Z) : Group :=
  init_group (default new_group (om_find group (groups st))) k m.

Definition add (st : FecReceiver) (group idx k m : Z) (body : list byte)
    : FecReceiver * list (list byte) :=
  if (k =? 0) || (k + m <=? idx) then (st, [])
  else
    match enter_window st group with
    | None => (st, [])
    | Some st =>
        let '(g, r, l, out) := group_packet (group_of st group k m) idx k m body in
        (put_group st group g r l, out)
    end.

(** True while some group may still recover a slice that has not arrived. *)
Definition has_holes (st : FecReceiver) : bool :=
  existsb (fun kv => negb (closed kv.2) && (data_have kv.2 <? max_data kv.2 + 1)) (groups st).

(** The packets of a group, one after the other. *)
Fixpoint add_all (st : FecReceiver) (group k m : Z) (ps : list (Z * list byte))
    : FecReceiver * list (list byte) :=
  match ps with
  | [] => (st, [])
  | (idx, body) :: ps' =>
      let '(st, out) := add st group idx k m body in
      let '(st, out') := add_all st group k m ps' in
      (st, out ++ out')
  end.
End code.

(** ** The window of groups *)

(** The groups kept are the newest and at most [kKeepGroups] before it. *)
Definition window_ok (st : FecReceiver) : Prop :=
  ascending (groups st) /\ 0 <= newest st < 2 ^ 16 /\
  (have_newest st = false -> groups st = []) /\
  Forall (fun kv => 0 <= kv.1 < 2 ^ 16 /\ 0 <= s16 (newest st - kv.1) <= kKeepGroups) (groups st).

Lemma s16_cases z : -2 ^ 16 < z < 2 ^ 16 ->
  s16 z = z \/ s16 z = z + 2 ^ 16 \/ s16 z = z - 2 ^ 16.
Proof.
  intros Hz. unfold s16, signed.
  pose proof (Z.div_mod z (2 ^ 16) ltac:(lia)). pose proof (Z.mod_pos_bound z (2 ^ 16) ltac:(lia)).
  assert (z / 2 ^ 16 = 0 \/ z / 2 ^ 16 = -1) as [E|E] by (change (2 ^ 16) with 65536 in *; lia);
    rewrite E in *; destruct (Z.ltb_spec (z mod 2 ^ 16) (2 ^ (16 - 1))); lia.
Qed.

Lemma s16_range z : - 2 ^ 15 <= s16 z < 2 ^ 15.
Proof. unfold s16. pose proof (signed_range 16 z ltac:(lia)). lia. Qed.

(** The entries [advance] keeps, whatever the counter. *)
Definition aged (nw : Z) (kv : Z * Group) : Z * Group :=
  (kv.1, if (0 <? s16 (nw - kv.1)) && negb (closed kv.2) then set_closed kv.2 else kv.2).

Definition in_window (nw : Z) (kv : Z * Group) : Prop :=
  - kKeepGroups <= s16 (nw - kv.1) <= kKeepGroups.

#[export] Instance in_window_dec nw kv : Decision (in_window nw kv).
Proof. unfold in_window. apply _. Defined.

Lemma advance_groups_kept nw gs l :
  (advance_groups nw gs l).1 = aged nw <$> filter (in_window nw) gs.
Proof.
  revert l. induction gs as [|[key g] gs IH]; intros l; [done|].
  assert (Hb : (kKeepGroups <? s16 (nw - key)) || (s16 (nw - key) <? - kKeepGroups) =
               negb (bool_decide (in_window nw (key, g)))).
  { unfold in_window. simpl. case_bool_decide; simpl; lia. }
  assert (Ha : aged nw (key, g) =
    (key, if (0 <? s16 (nw - key)) && negb (closed g) then set_closed g else g)) by done.
  rewrite filter_cons. simpl. destruct ((0 <? s16 (nw - key)) && negb (closed g)); simpl;
    match goal with |- context [advance_groups nw gs ?l0] => specialize (IH l0);
      destruct (advance_groups nw gs l0) as [rest l'] end; simpl in IH; subst rest;
    rewrite Hb; case_bool_decide; simpl;
    [rewrite decide_True by done | rewrite decide_False by done
    | rewrite decide_True by done | rewrite decide_False by done];
    rewrite ?fmap_cons, ?Ha; done.
Qed.

Lemma advance_groups_find nw gs l key :
  om_find key gs = None -> om_find key (advance_groups nw gs l).1 = None.
Proof.
  rewrite advance_groups_kept. induction gs as [|[k1 g1] gs IH]; [done|]. simpl.
  destruct (keq key k1) eqn:E; [done|]. intros Hn. rewrite filter_cons.
  case_decide; [simpl; rewrite E|]; by apply IH.
Qed.

Lemma ascending_aged nw gs : ascending gs -> ascending (aged nw <$> gs).
Proof.
  induction gs as [|[k1 g1] gs IH]; [done|]. intros [Hall Ha]. split; [|by apply IH].
  apply Forall_fmap. eapply Forall_impl; [exact Hall|]. by intros [??].
Qed.

Lemma window_put st group g r l :
  window_ok st -> 0 <= group < 2 ^ 16 -> have_newest st = true ->
  0 <= s16 (newest st - group) <= kKeepGroups -> window_ok (put_group st group g r l).
Proof.
  intros (Ha & Hn & Hh & Hw) Hg Ht Hage. split; [|split; [|split]]; cbn [put_group groups newest have_newest].
  - by apply ascending_set.
  - done.
  - congruence.
  - apply Forall_om_set; [done | exact Hw].
Qed.

(** Entering the window for a packet leaves its group at most [kKeepGroups]
    behind the newest. *)
Lemma window_enter st group st' :
  window_ok st -> 0 <= group < 2 ^ 16 -> enter_window st group = Some st' ->
  window_ok st' /\ have_newest st' = true /\ 0 <= s16 (newest st' - group) <= kKeepGroups.
Proof.
  intros Hwin Hg. pose proof Hwin as (Ha & Hn & Hh & Hw). unfold enter_window.
  assert (Hself : s16 (group - group) = 0) by (by rewrite Z.sub_diag).
  destruct (have_newest st) eqn:Eh; cycle 1.
  { intros [= <-]. unfold window_ok. cbn [groups newest have_newest]. rewrite Hh by done.
    rewrite Hself. split_and!; done || lia || constructor. }
  destruct (Z.ltb_spec (s16 (group - newest st)) (- kKeepGroups)) as [|Hlo]; [done|].
  destruct (Z.ltb_spec 0 (s16 (group - newest st))) as [Hpos|Hpos]; intros [= <-].
  - unfold advance. pose proof (advance_groups_kept group (groups st) (lost st)) as Hk.
    destruct (advance_groups group (groups st) (lost st)) as [gs l']. simpl in Hk. subst gs.
    unfold window_ok. cbn [groups newest have_newest]. rewrite Hself, Eh.
    split_and!; try done; try lia.
    + apply ascending_aged. by apply ascending_filter.
    + apply Forall_fmap, Forall_forall. intros [key g] [Hin He]%list_elem_of_filter. simpl.
      rewrite Forall_forall in Hw. destruct (Hw _ He) as [Hkey Hage]. simpl in *.
      split; [done|]. unfold in_window in Hin. simpl in Hin. split; [|lia].
      (* the group moved forward by less than half the ring *)
      pose proof (s16_range (group - newest st)). unfold kKeepGroups in *.
      pose proof (s16_cases (group - newest st) ltac:(lia)).
      pose proof (s16_cases (newest st - key) ltac:(lia)).
      pose proof (s16_cases (group - key) ltac:(lia)). lia.
  - split; [done|]. split; [done|].
    pose proof (s16_range (group - newest st)). pose proof (s16_range (newest st - group)).
    pose proof (s16_cases (group - newest st) ltac:(lia)).
    pose proof (s16_cases (newest st - group) ltac:(lia)). unfold kKeepGroups in *. lia.
Qed.

Section window.
Context {EC : ErasureCode}.

Lemma window_add st group idx k m body :
  window_ok st -> 0 <= group < 2 ^ 16 -> window_ok (add st group idx k m body).1.
Proof.
  intros Hw Hg. unfold add. destruct (_ || _); [done|].
  destruct (enter_window st group) as [st'|] eqn:E; [|done].
  destruct (window_enter st group st' Hw Hg E) as (Hw' & Hh & Hage).
  destruct (group_packet (group_of st' group k m) idx k m body) as [[[g r] l] out].
  by apply window_put.
Qed.
End window.

Lemma window_new : window_ok new_receiver.
Proof. unfold window_ok. simpl. split_and!; done || lia || constructor. Qed.

(** At most nine groups are in memory. *)
Lemma window_size st : window_ok st -> (length (groups st) <= 9)%nat.
Proof.
  intros (Ha & Hn & _ & Hw).
  assert (Hnd : NoDup ((fun kv => s16 (newest st - kv.1)) <$> groups st)).
  { clear - Ha Hn Hw. revert Ha Hw. induction (groups st) as [|[k1 g1] gs IH]; [constructor|].
    intros [Hall Ha] [[Hk _] Hw]%Forall_cons. rewrite fmap_cons. apply NoDup_cons.
    split; [|by apply IH]. intros ([k2 g2] & Heq & Hin)%list_elem_of_fmap. simpl in *.
    rewrite Forall_forall in Hall, Hw. specialize (Hall _ Hin). destruct (Hw _ Hin) as [Hk2 _].
    simpl in *. apply Z.ltb_lt in Hall.
    pose proof (s16_cases (newest st - k1) ltac:(lia)).
    pose proof (s16_cases (newest st - k2) ltac:(lia)). lia. }
  rewrite <- (length_fmap (fun kv => s16 (newest st - kv.1))).
  change 9%nat with (length (seqZ 0 9)).
  apply submseteq_length, NoDup_submseteq; [done|].
  intros z ([key g] & -> & Hin)%list_elem_of_fmap. rewrite Forall_forall in Hw.
  destruct (Hw _ Hin) as [_ Hage]. simpl in *. apply elem_of_seqZ. unfold kKeepGroups in *. lia.
Qed.

(** C40: whatever packets arrive, the receiver tracks at most nine groups, all
    within eight of the newest one. *)
Theorem fec_window_bounded (st : FecReceiver) (group idx k m : Z) (body : list byte) :
  window_ok st -> 0 <= group < 2 ^ 16 ->
  let st' := (add (EC := fec_code) st group idx k m body).1 in
  window_ok st' /\ (length (groups st') <= 9)%nat.
Proof.
  intros Hw Hg st'. assert (Hw' : window_ok st') by (by apply window_add).
  split; [done | by apply window_size].
Qed.

Lemma fec_window_bounded_witness :
  let st' := (add (EC := fec_code) new_receiver 65530 0 2 1 (str "hello")).1 in
  window_ok st' /\ (length (groups st') <= 9)%nat.
Proof. apply fec_window_bounded; [exact window_new | lia]. Defined.
