(* ===== verification/FecDelivery.v ===== *)
(** Delivery of a FEC group: a sender's group of [k] slices and [m] parity
    packets, any [k] of which arrive, is handed to the frame queue whole, each
    slice once ([FecReceiver] of [src/camera/tutk/TutkSession.cpp] over an
    erasure code). *)

From S2P Require Import Prelude OMap Erasure Fec AvSlice FecReceiver.

Section delivery.
Context {EC : ErasureCode}.

(** What the sender builds: slices with exact headers, padded to the coded
    length [L] for the parity, and a parity header announcing [L]. *)
Context (bodies : list (list byte)) (L m : nat) (hdr : nat -> list byte).
Abbreviation k := (length bodies).
Context (Hk : (0 < k)%nat) (Hkm : (k + m <= 255)%nat).
Context (Hbodies : forall r, (r < k)%nat -> (length (bodies !!! r) <= L)%nat /\
   exists h, parse_slice_header (bodies !!! r) = Some h /\
             length (bodies !!! r) = (kSliceHeaderLen + Z.to_nat (len h))%nat).
Context (Hhdr : forall r, length (hdr r) = kSliceHeaderLen /\ get_le16 (hdr r) 8 = Z.of_nat L).

#[local] Set Default Proof Using "All".

Definition padded : list (list byte) := resize L <$> bodies.

(** Block [r] of the group once padded, and the packet body that carries it. *)
Definition content (r : nat) : list byte :=
  if (r <? k)%nat then bodies !!! r else ec_block padded r.

Definition packet (r : nat) : list byte :=
  if (r <? k)%nat then bodies !!! r else hdr r ++ ec_block padded r.

Lemma length_resize n b : length (resize n b) = n.
Proof. unfold resize. rewrite length_app, length_take, length_replicate. lia. Qed.

Lemma resize_small n b : (length b <= n)%nat -> resize n b = b ++ replicate (n - length b) x00.
Proof. intros H. unfold resize. by rewrite take_ge. Qed.

Lemma resize_same n b : length b = n -> resize n b = b.
Proof. intros <-. rewrite resize_small by lia. rewrite Nat.sub_diag. apply app_nil_r. Qed.

Lemma equal_blocks_padded : equal_blocks L padded.
Proof. apply Forall_fmap, Forall_true. intros b. apply length_resize. Qed.

Lemma length_padded : length padded = k.
Proof. apply length_fmap. Qed.

Lemma padded_at r : (r < k)%nat -> padded !!! r = resize L (bodies !!! r).
Proof. intros Hr. unfold padded. by rewrite list_lookup_total_fmap. Qed.

Lemma padded_not_nil : padded <> [].
Proof. intros E. apply (f_equal length) in E. rewrite length_padded in E. simpl in E. lia. Qed.

Lemma L_bound : (kSliceHeaderLen <= L)%nat.
Proof. destruct (Hbodies 0%nat Hk) as (H1 & h & H2 & H3). lia. Qed.

Lemma L_pos : (0 < L)%nat.
Proof. pose proof L_bound. unfold kSliceHeaderLen in *. lia. Qed.

Lemma length_parity r : length (ec_block padded r) = L.
Proof. apply ec_block_length; [apply padded_not_nil | apply equal_blocks_padded]. Qed.

Lemma length_body r : (r < k)%nat -> (kSliceHeaderLen <= length (bodies !!! r) <= L)%nat.
Proof. intros Hr. destruct (Hbodies r Hr) as (H1 & h & H2 & H3). lia. Qed.

Lemma content_not_empty r : is_empty (content r) = false.
Proof.
  assert (H : (0 < length (content r))%nat).
  { unfold content. destruct (Nat.ltb_spec r k) as [Hr|Hr].
    - pose proof (length_body r Hr). unfold kSliceHeaderLen in *. lia.
    - rewrite length_parity. apply L_pos. }
  destruct (content r); [simpl in H; lia | done].
Qed.

Lemma resize_content r : resize L (content r) = ec_block padded r.
Proof.
  unfold content. destruct (Nat.ltb_spec r k) as [Hr|Hr].
  - rewrite ec_block_data by (by rewrite length_padded). by rewrite padded_at.
  - apply resize_same, length_parity.
Qed.

(** ** The state of the group after the packets [done] *)

Definition data_in (done : list nat) : nat := length (filter (fun r => (r < k)%nat) done).

Definition stored (done : list nat) : list (list byte) :=
  (fun r => if decide (r ∈ done) then content r else []) <$> seq 0 (k + m).

Record holds (g : Group) (done : list nat) : Prop := {
  h_k : g_k g = Z.of_nat k;
  h_m : g_m g = Z.of_nat m;
  h_blocks : g_blocks g = stored done;
  h_data : data_have g = Z.of_nat (data_in done);
  h_parity : parity_have g = Z.of_nat (length done - data_in done);
  h_len : g_len g = if (data_in done =? length done)%nat then 0%nat else L;
  h_open : closed g = false
}.

Lemma data_in_le done : (data_in done <= length done)%nat.
Proof. apply length_filter. Qed.

Lemma data_in_snoc done r :
  data_in (done ++ [r]) = (data_in done + if (r <? k)%nat then 1 else 0)%nat.
Proof.
  unfold data_in. rewrite filter_app, length_app, filter_cons, filter_nil.
  destruct (Nat.ltb_spec r k); [rewrite decide_True by done | rewrite decide_False by lia]; done.
Qed.

Lemma stored_at done r : (r < k + m)%nat ->
  stored done !! r = Some (if decide (r ∈ done) then content r else []).
Proof. intros Hr. unfold stored. by rewrite list_lookup_fmap, lookup_seq_lt. Qed.

Lemma stored_snoc done r : (r < k + m)%nat ->
  <[r := content r]> (stored done) = stored (done ++ [r]).
Proof.
  intros Hr. apply list_eq. intros i. destruct (decide (i < k + m)%nat) as [Hi|Hi].
  - rewrite stored_at by done. destruct (decide (i = r)) as [->|Hne].
    + rewrite list_lookup_insert_eq by (unfold stored; by rewrite length_fmap, length_seq).
      rewrite decide_True; [done|]. apply elem_of_app. right. by left.
    + rewrite list_lookup_insert_ne, stored_at by done. f_equal.
      destruct (decide (i ∈ done)) as [H|H]; [rewrite decide_True | rewrite decide_False]; try done.
      * apply elem_of_app. by left.
      * intros [?|?%list_elem_of_singleton]%elem_of_app; done.
  - rewrite !lookup_ge_None_2; [done | |];
      rewrite ?length_insert; unfold stored; rewrite length_fmap, length_seq; lia.
Qed.

(** Storing the next packet. *)
Lemma holds_store g done r :
  holds g done -> r ∉ done -> (r < k + m)%nat ->
  exists g', store_packet g (Z.of_nat r) (Z.of_nat k) (Z.of_nat m) (packet r) =
               Some (g', if (r <? k)%nat then [bodies !!! r] else []) /\
             holds g' (done ++ [r]).
Proof.
  intros [Gk Gm Gb Gd Gp Gl Go] Hnin Hr. unfold store_packet.
  rewrite Gk, Gm, Gb, Go, !Z.eqb_refl, Nat2Z.id.
  rewrite (lookup_total_some _ _ _ (stored_at done r Hr)), decide_False by done.
  assert (Hpl : (length (packet r) =? 0)%nat = false).
  { apply Nat.eqb_neq. unfold packet. destruct (Nat.ltb_spec r k).
    - pose proof (length_body r ltac:(lia)). unfold kSliceHeaderLen in *. lia.
    - rewrite length_app, length_parity. pose proof L_pos. lia. }
  rewrite Hpl. cbn [orb negb is_empty].
  pose proof (data_in_le done) as Hle. pose proof (data_in_snoc done r) as Hsn.
  assert (Hlt : (Z.of_nat r <? Z.of_nat k) = (r <? k)%nat).
  { destruct (Nat.ltb_spec r k); lia. }
  rewrite Hlt. destruct (Nat.ltb_spec r k) as [Hrk|Hrk].
  - assert (Hc : packet r = content r).
    { unfold packet, content. destruct (Nat.ltb_spec r k); [done | lia]. }
    assert (Hb : packet r = bodies !!! r).
    { unfold packet. destruct (Nat.ltb_spec r k); [done | lia]. }
    eexists. split; [by rewrite <- Hb|].
    split; cbn [g_k g_m g_blocks data_have parity_have g_len closed]; try done.
    + rewrite Hc. by apply stored_snoc.
    + lia.
    + rewrite length_app. simpl. lia.
    + rewrite Gl, length_app. simpl.
      destruct (Nat.eqb_spec (data_in done) (length done)),
        (Nat.eqb_spec (data_in (done ++ [r])) (length done + 1)); done || lia.
  - assert (Hp : packet r = hdr r ++ ec_block padded r).
    { unfold packet. destruct (Nat.ltb_spec r k); [lia | done]. }
    destruct (Hhdr r) as [Hh1 Hh2].
    assert (Hlen : get_le16 (packet r) 8 = Z.of_nat L).
    { rewrite Hp, get_le16_app; [done|]. rewrite Hh1. unfold kSliceHeaderLen. lia. }
    assert (Hpl2 : length (packet r) = (kSliceHeaderLen + L)%nat).
    { by rewrite Hp, length_app, Hh1, length_parity. }
    rewrite Hlen, Hpl2, Nat2Z.id. pose proof L_pos.
    destruct (Nat.ltb_spec (kSliceHeaderLen + L) kSliceHeaderLen); [lia|].
    replace (L =? 0)%nat with false by (symmetry; apply Nat.eqb_neq; lia).
    rewrite Nat.ltb_irrefl, Gl.
    replace (_ || _ || _) with false; cycle 1.
    { destruct (data_in done =? length done)%nat; [done|]. rewrite Nat.eqb_refl. simpl.
      by rewrite andb_false_r. }
    eexists. split; [done|].
    assert (Hc : sub kSliceHeaderLen L (packet r) = content r).
    { unfold content. destruct (Nat.ltb_spec r k); [lia|]. rewrite Hp. unfold sub.
      rewrite drop_app_length' by done. by rewrite take_ge by (by rewrite length_parity). }
    split; cbn [g_k g_m g_blocks data_have parity_have g_len closed]; try done.
    + rewrite Hc. by apply stored_snoc.
    + lia.
    + rewrite length_app. simpl. lia.
    + rewrite length_app. simpl.
      destruct (Nat.eqb_spec (data_in (done ++ [r])) (length done + 1)); [lia | done].
Qed.

(** ** Recovery *)

Definition lost_in (D : list nat) (r : nat) : bool := negb (bool_decide (r ∈ D)).

Definition missing_bodies (D : list nat) : list (list byte) :=
  (fun r => bodies !!! r) <$> filter (fun r => lost_in D r = true) (seq 0 k).

Lemma content_length_parity r : (k <= r)%nat -> length (content r) = L.
Proof. intros Hr. unfold content. destruct (Nat.ltb_spec r k); [lia | apply length_parity]. Qed.

Lemma drop_seq_fmap {A} (f : nat -> A) a n :
  drop a (f <$> seq 0 n) = f <$> seq a (n - a).
Proof. by rewrite <- fmap_drop, skipn_seq. Qed.

Lemma take_seq_fmap {A} (f : nat -> A) a n :
  (a <= n)%nat -> take a (f <$> seq 0 n) = f <$> seq 0 a.
Proof. intros H. rewrite <- fmap_take. f_equal.
  assert (Hn : n = (a + (n - a))%nat) by lia. rewrite Hn, seq_app.
  apply take_app_length'. by rewrite length_seq. Qed.

(** The blocks given to the erasure code are those the sender's group has,
    empty where nothing arrived. *)
Lemma recover_input D :
  ((fun b => if is_empty b then b else resize L b) <$> take k (stored D)) ++ drop k (stored D) =
  received_by ec_block padded (k + m) (lost_in D).
Proof.
  unfold stored, received_by. rewrite take_seq_fmap, drop_seq_fmap by lia.
  replace (k + m - k)%nat with m by lia. rewrite seq_app, fmap_app. f_equal.
  - rewrite <- list_fmap_compose. apply list_fmap_ext. intros i r Hr. unfold compose, lost_in.
    destruct (decide (r ∈ D)) as [H|H].
    + rewrite content_not_empty, resize_content, bool_decide_true by done. done.
    + by rewrite bool_decide_false by done.
  - apply list_fmap_ext. intros i r Hr. unfold lost_in.
    apply lookup_seq in Hr as [-> Hi]. case_decide as H.
    + rewrite bool_decide_true by done. simpl. rewrite <- resize_content.
      symmetry. apply resize_same. apply content_length_parity. lia.
    + by rewrite bool_decide_false by done.
Qed.

Lemma missing_input D :
  is_empty <$> take k (stored D) = lost_in D <$> seq 0 k.
Proof.
  unfold stored. rewrite take_seq_fmap, <- list_fmap_compose by lia.
  apply list_fmap_ext. intros i r Hr. unfold compose, lost_in. case_decide as H.
  - by rewrite content_not_empty, bool_decide_true.
  - by rewrite bool_decide_false.
Qed.

(** A padded slice parses as the slice, and is cut back to it. *)
Lemma emit_padded D l :
  (forall r, r ∈ l -> (r < k)%nat) ->
  emit_recovered (lost_in D <$> l) ((fun r => padded !!! r) <$> l) =
  ((fun r => bodies !!! r) <$> filter (fun r => lost_in D r = true) l,
   Z.of_nat (length (filter (fun r => lost_in D r = true) l)), 0).
Proof.
  induction l as [|r l IH]; intros Hl; [done|]. rewrite !fmap_cons. cbn [emit_recovered].
  rewrite IH by (intros; apply Hl; by right).
  rewrite filter_cons. destruct (lost_in D r) eqn:E; [rewrite decide_True by done | by rewrite decide_False].
  assert (Hr : (r < k)%nat) by (apply Hl; left).
  destruct (Hbodies r Hr) as (Hle & h & Hparse & Hlen).
  rewrite padded_at, resize_small by done.
  rewrite (parse_slice_header_pad _ _ (proj1 (length_body r Hr)) h Hparse).
  rewrite take_app_le by lia. rewrite take_ge by lia. rewrite fmap_cons. cbn [length].
  by rewrite Nat2Z.inj_succ.
Qed.

Lemma enough_present D :
  NoDup D -> (forall r, r ∈ D -> (r < k + m)%nat) ->
  (length D <= length (filter (fun r => lost_in D r = false) (seq 0 (k + m))))%nat.
Proof.
  intros Hnd Hr. apply submseteq_length, NoDup_submseteq; [done|]. intros r Hin.
  apply list_elem_of_filter. split.
  - unfold lost_in. by rewrite bool_decide_true.
  - apply elem_of_seq. specialize (Hr r Hin). lia.
Qed.

Lemma recover_group_full g D :
  holds g D -> NoDup D -> (forall r, r ∈ D -> (r < k + m)%nat) -> length D = k ->
  data_in D <> k ->
  recover_group g =
    (set_closed g, Z.of_nat (length (missing_bodies D)), 0, missing_bodies D).
Proof.
  intros [Gk Gm Gb Gd Gp Gl Go] Hnd Hr Hlen Hd. unfold recover_group.
  rewrite Gk, Gb, Gl, Nat2Z.id, Hlen.
  destruct (Nat.eqb_spec (data_in D) k) as [|_]; [done|].
  rewrite recover_input, missing_input.
  destruct (ec_recover_correct padded L (k + m) (lost_in D)) as (out & E & Hout).
  - rewrite length_padded. lia.
  - apply equal_blocks_padded.
  - apply L_pos.
  - rewrite length_padded. lia.
  - rewrite length_padded. pose proof (enough_present D Hnd Hr). lia.
  - rewrite length_padded in E, Hout. rewrite E, Hout. cbn [negb].
    assert (Hp : padded = (fun r => padded !!! r) <$> seq 0 k).
    { apply list_eq_same_length with k; [by rewrite length_fmap, length_seq | apply length_padded |].
      intros i x y Hi Hx Hy. rewrite list_lookup_fmap, lookup_seq_lt in Hy by done.
      apply lookup_total_some in Hx. simpl in Hy. congruence. }
    rewrite Hp at 1. rewrite emit_padded by (intros r ?%elem_of_seq; lia).
    unfold missing_bodies. by rewrite length_fmap.
Qed.

Lemma all_data_in D :
  NoDup D -> length D = k -> data_in D = k -> missing_bodies D = [].
Proof.
  intros Hnd Hlen Hd.
  assert (Hall : forall r, r ∈ D -> (r < k)%nat).
  { intros r Hr. destruct (decide (r < k)%nat) as [|Hn]; [done|].
    pose proof (length_filter_lt (fun r => (r < k)%nat) D r Hr Hn). unfold data_in in Hd. lia. }
  assert (Hperm : D ≡ₚ seq 0 k).
  { apply submseteq_length_Permutation.
    - apply NoDup_submseteq; [done|]. intros r Hr. apply elem_of_seq. specialize (Hall r Hr). lia.
    - rewrite length_seq. lia. }
  unfold missing_bodies. rewrite filter_none; [done|]. intros r Hr. unfold lost_in.
  rewrite bool_decide_true; [done|]. by rewrite Hperm.
Qed.

(** ** One packet *)

Lemma packet_early g done r :
  holds g done -> r ∉ done -> (r < k + m)%nat -> (S (length done) < k)%nat -> r <> (k + m - 1)%nat ->
  exists g', group_packet g (Z.of_nat r) (Z.of_nat k) (Z.of_nat m) (packet r) =
               (g', 0, 0, if (r <? k)%nat then [bodies !!! r] else []) /\
             holds g' (done ++ [r]).
Proof.
  intros Hg Hnin Hr Hlen Hlast. destruct (holds_store g done r Hg Hnin Hr) as (g' & E & Hg').
  exists g'. split; [|done]. unfold group_packet. rewrite E. unfold settle.
  destruct Hg' as [Gk Gm Gb Gd Gp Gl Go]. rewrite Gk, Gd, Gp.
  pose proof (data_in_le (done ++ [r])) as Hle.
  assert (Hl1 : length (done ++ [r]) = S (length done)) by (rewrite length_app; simpl; lia).
  rewrite Hl1 in *.
  destruct (Z.eqb_spec (Z.of_nat (data_in (done ++ [r]))) (Z.of_nat k)); [lia|].
  match goal with |- context [Z.of_nat k <=? ?n] => destruct (Z.leb_spec (Z.of_nat k) n) end; [lia|].
  rewrite andb_false_r.
  destruct (Z.eqb_spec (Z.of_nat r) (Z.of_nat k + Z.of_nat m - 1)); [lia|].
  by rewrite app_nil_r.
Qed.

Lemma packet_last g done r :
  holds g done -> r ∉ done -> NoDup done -> (forall r, r ∈ done -> (r < k + m)%nat) ->
  (r < k + m)%nat -> S (length done) = k ->
  exists g', group_packet g (Z.of_nat r) (Z.of_nat k) (Z.of_nat m) (packet r) =
               (g', Z.of_nat (length (missing_bodies (done ++ [r]))), 0,
                (if (r <? k)%nat then [bodies !!! r] else []) ++ missing_bodies (done ++ [r])) /\
             closed g' = true /\ g_blocks g' = stored (done ++ [r]).
Proof.
  intros Hg Hnin Hnd Hdone Hr Hlen.
  destruct (holds_store g done r Hg Hnin Hr) as (g' & E & Hg').
  assert (Hl1 : length (done ++ [r]) = k) by (rewrite length_app; simpl; lia).
  assert (Hnd1 : NoDup (done ++ [r])).
  { apply NoDup_app. split_and!; [done | | apply NoDup_singleton].
    intros x Hx ->%list_elem_of_singleton. done. }
  assert (Hin1 : forall x, x ∈ done ++ [r] -> (x < k + m)%nat).
  { intros x [Hx| ->%list_elem_of_singleton]%elem_of_app; [by apply Hdone | done]. }
  exists (set_closed g'). split; [|split; [done | apply Hg']].
  unfold group_packet. rewrite E. unfold settle. pose proof Hg' as [Gk Gm Gb Gd Gp Gl Go].
  rewrite Gk, Gd, Gp, Hl1.
  destruct (Z.eqb_spec (Z.of_nat (data_in (done ++ [r]))) (Z.of_nat k)) as [Hd|Hd].
  - rewrite all_data_in by (done || lia). done.
  - pose proof (data_in_le (done ++ [r])) as Hle. rewrite Gl, Hl1.
    destruct (Nat.eqb_spec (data_in (done ++ [r])) k) as [|_]; [lia|].
    replace (L =? 0)%nat with false by (symmetry; apply Nat.eqb_neq; pose proof L_pos; lia).
    match goal with |- context [Z.of_nat k <=? ?n] => destruct (Z.leb_spec (Z.of_nat k) n) end; [|lia].
    cbn [negb andb].
    rewrite (recover_group_full g' (done ++ [r])) by (done || lia). done.
Qed.

Lemma packet_closed g idx body :
  closed g = true -> group_packet g idx (Z.of_nat k) (Z.of_nat m) body = (g, 0, 0, []).
Proof. intros Hc. unfold group_packet, store_packet. by rewrite Hc. Qed.

(** ** The whole group *)

Definition packets (rs : list nat) : list (Z * list byte) :=
  (fun r => (Z.of_nat r, packet r)) <$> rs.

(** The slices still to come once the packets [done] have been handled. *)
Definition remaining (done : list nat) : list (list byte) :=
  (fun r => bodies !!! r) <$> filter (fun r => r ∉ done) (seq 0 k).

Lemma missing_remaining D : missing_bodies D = remaining D.
Proof.
  unfold missing_bodies, remaining. f_equal. apply list_filter_iff. intros r. unfold lost_in.
  case_bool_decide; simpl; split; done.
Qed.

Lemma remaining_step done r : r ∉ done ->
  remaining done ≡ₚ (if (r <? k)%nat then [bodies !!! r] else []) ++ remaining (done ++ [r]).
Proof.
  intros Hr. unfold remaining.
  assert (H : forall l, NoDup l -> filter (fun x => x ∉ done) l ≡ₚ
    (if decide (r ∈ l) then [r] else []) ++ filter (fun x => x ∉ done ++ [r]) l).
  { induction l as [|x l IH]; intros Hnd; [done|]. apply NoDup_cons in Hnd as [Hx Hnd].
    specialize (IH Hnd). rewrite !filter_cons. destruct (decide (x = r)) as [->|Hne].
    - rewrite (decide_True (P := r ∈ r :: l)) by left.
      rewrite (decide_True (P := r ∉ done)) by done.
      rewrite (decide_False (P := r ∉ done ++ [r])); cycle 1.
      { intros H. apply H, elem_of_app. right. by left. }
      rewrite IH, decide_False by done. done.
    - assert (E1 : r ∈ x :: l <-> r ∈ l).
      { rewrite elem_of_cons. split; [by intros [->|?] | by right]. }
      assert (E2 : x ∉ done ++ [r] <-> x ∉ done).
      { rewrite elem_of_app, list_elem_of_singleton. split; [tauto|]. by intros Hxd [?|?]. }
      rewrite (decide_ext (r ∈ x :: l) (r ∈ l) _ _ E1).
      rewrite (decide_ext (x ∉ done ++ [r]) (x ∉ done) _ _ E2).
      destruct (decide (x ∉ done)); [|done]. rewrite IH. destruct (decide (r ∈ l)); [|done].
      simpl. apply Permutation_swap. }
  rewrite (H (seq 0 k) (NoDup_seq 0 k)), fmap_app. apply Permutation_app_tail.
  destruct (Nat.ltb_spec r k).
  - rewrite decide_True by (apply elem_of_seq; lia). done.
  - rewrite decide_False by (rewrite elem_of_seq; lia). done.
Qed.

Section run.
Context (group : Z).

(** The receiver accepts packets of the group and finds [g] for it. *)
Definition tracks (st : FecReceiver) (g : Group) : Prop :=
  exists st1, enter_window st group = Some st1 /\ have_newest st1 = true /\
    - kKeepGroups <= s16 (group - newest st1) <= 0 /\
    group_of st1 group (Z.of_nat k) (Z.of_nat m) = g.

Lemma add_tracks st g r body g' nr nl out :
  tracks st g -> (r < k + m)%nat -> g_blocks g' <> [] ->
  group_packet g (Z.of_nat r) (Z.of_nat k) (Z.of_nat m) body = (g', nr, nl, out) ->
  exists st', add st group (Z.of_nat r) (Z.of_nat k) (Z.of_nat m) body = (st', out) /\
              tracks st' g'.
Proof.
  intros (st1 & Hen & Hh & Hage & Hg) Hr Hne Hgp. unfold add.
  replace ((Z.of_nat k =? 0) || (Z.of_nat k + Z.of_nat m <=? Z.of_nat r)) with false by lia.
  rewrite Hen, Hg, Hgp. eexists. split; [done|].
  exists (put_group st1 group g' nr nl). split_and!; cbn [put_group newest have_newest]; try done; try lia.
  - unfold enter_window. cbn [have_newest newest put_group]. rewrite Hh.
    destruct (Z.ltb_spec (s16 (group - newest st1)) (- kKeepGroups)); [lia|].
    destruct (Z.ltb_spec 0 (s16 (group - newest st1))); [lia | done].
  - unfold group_of, put_group. simpl. rewrite om_find_set. simpl.
    unfold init_group. by destruct (g_blocks g').
Qed.

Lemma add_all_closed rs st g :
  tracks st g -> closed g = true -> g_blocks g <> [] -> (forall r, r ∈ rs -> (r < k + m)%nat) ->
  (add_all st group (Z.of_nat k) (Z.of_nat m) (packets rs)).2 = [].
Proof.
  revert st. induction rs as [|r rs IH]; intros st Ht Hc Hb Hr; [done|].
  unfold packets. rewrite fmap_cons. cbn [add_all].
  destruct (add_tracks st g r (packet r) g 0 0 [] Ht ltac:(apply Hr; left) Hb
              (packet_closed g _ _ Hc)) as (st' & E & Ht').
  rewrite E. specialize (IH st' Ht' Hc Hb ltac:(intros; apply Hr; by right)).
  unfold packets in IH. destruct (add_all st' _ _ _ _). simpl in *. by rewrite IH.
Qed.

Lemma stored_not_nil D : stored D <> [].
Proof.
  intros E. apply (f_equal length) in E. unfold stored in E.
  rewrite length_fmap, length_seq in E. simpl in E. lia.
Qed.

Lemma add_all_delivers rs done st g :
  tracks st g -> holds g done -> NoDup (done ++ rs) ->
  (forall r, r ∈ done ++ rs -> (r < k + m)%nat) ->
  (length done < k <= length (done ++ rs))%nat ->
  (forall i, (done ++ rs) !! i = Some (k + m - 1)%nat -> (k <= S i)%nat) ->
  (add_all st group (Z.of_nat k) (Z.of_nat m) (packets rs)).2 ≡ₚ remaining done.
Proof.
  revert done st g. induction rs as [|r rs IH]; intros done st g Ht Hg Hnd Hin Hlen Hlast.
  { rewrite app_nil_r in Hlen. lia. }
  assert (Hsplit : done ++ r :: rs = (done ++ [r]) ++ rs) by (by rewrite <- app_assoc).
  assert (Hnin : r ∉ done).
  { intros H. apply NoDup_app in Hnd as (_ & Hd & _). apply (Hd r H). left. }
  assert (Hr : (r < k + m)%nat) by (apply Hin; rewrite elem_of_app; right; left).
  assert (Hdone : forall r, r ∈ done -> (r < k + m)%nat)
    by (intros x Hx; apply Hin; rewrite elem_of_app; by left).
  rewrite (remaining_step done r Hnin). unfold packets. rewrite fmap_cons. cbn [add_all].
  fold (packets rs). destruct (decide (S (length done) < k)%nat) as [Hlt|Hge].
  - destruct (packet_early g done r Hg Hnin Hr Hlt) as (g' & E & Hg').
    { intros ->. specialize (Hlast (length done)). rewrite lookup_app_r, Nat.sub_diag in Hlast by lia.
      specialize (Hlast eq_refl). lia. }
    destruct (add_tracks st g r (packet r) g' _ _ _ Ht Hr ltac:(rewrite (h_blocks _ _ Hg'); apply stored_not_nil) E)
      as (st' & Ea & Ht').
    rewrite Ea. specialize (IH (done ++ [r]) st' g' Ht' Hg'). rewrite <- Hsplit in IH.
    assert (Hl1 : length (done ++ [r]) = S (length done)) by (rewrite length_app; simpl; lia).
    specialize (IH Hnd Hin ltac:(lia) Hlast).
    destruct (add_all st' _ _ _ _) as [st'' out']. simpl in *. by rewrite IH.
  - assert (Hnd1 : NoDup done) by (by apply NoDup_app in Hnd as (? & _)).
    destruct (packet_last g done r Hg Hnin Hnd1 Hdone Hr ltac:(lia)) as (g' & E & Hc & Hb).
    assert (Hb' : g_blocks g' <> []) by (rewrite Hb; apply stored_not_nil).
    destruct (add_tracks st g r (packet r) g' _ _ _ Ht Hr Hb' E) as (st' & Ea & Ht').
    rewrite Ea. pose proof (add_all_closed rs st' g' Ht' Hc Hb') as Hcl.
    specialize (Hcl ltac:(intros x Hx; apply Hin; rewrite Hsplit, elem_of_app; by right)).
    destruct (add_all st' _ _ _ _) as [st'' out']. simpl in *. subst out'.
    by rewrite app_nil_r, missing_remaining.
Qed.

(** A receiver that does not know the group and still accepts it. *)
Lemma tracks_fresh st :
  om_find group (groups st) = None ->
  (have_newest st = true -> - kKeepGroups <= s16 (group - newest st)) ->
  exists g, tracks st g /\ holds g [].
Proof.
  intros Hf Hw. exists (init_group new_group (Z.of_nat k) (Z.of_nat m)). split; cycle 1.
  - split; simpl; try done. apply list_eq. intros i. unfold stored.
    rewrite list_lookup_fmap. destruct (decide (i < k + m)%nat).
    + rewrite lookup_seq_lt by done. simpl. apply lookup_replicate. split; [done | lia].
    + rewrite !lookup_ge_None_2; [done | rewrite length_seq; lia | rewrite length_replicate; lia].
  - unfold tracks, enter_window. destruct (have_newest st) eqn:Eh.
    + specialize (Hw eq_refl).
      destruct (Z.ltb_spec (s16 (group - newest st)) (- kKeepGroups)); [lia|].
      destruct (Z.ltb_spec 0 (s16 (group - newest st))).
      * eexists. split; [done|]. unfold advance, group_of.
        pose proof (advance_groups_find group (groups st) (lost st) group Hf) as Hf'.
        destruct (advance_groups group (groups st) (lost st)) as [gs l'].
        cbn [have_newest newest groups]. simpl in Hf'. rewrite Hf', Z.sub_diag.
        split_and!; done.
      * exists st. unfold group_of. rewrite Hf. split_and!; done || lia.
    + eexists. split; [done|]. unfold group_of. cbn [have_newest newest groups].
      rewrite Hf, Z.sub_diag. split_and!; done.
Qed.

Lemma group_delivers st rs :
  om_find group (groups st) = None ->
  (have_newest st = true -> - kKeepGroups <= s16 (group - newest st)) ->
  NoDup rs -> (forall r, r ∈ rs -> (r < k + m)%nat) -> (k <= length rs)%nat ->
  (forall i, rs !! i = Some (k + m - 1)%nat -> (k <= S i)%nat) ->
  (add_all st group (Z.of_nat k) (Z.of_nat m) (packets rs)).2 ≡ₚ bodies.
Proof.
  intros Hf Hw Hnd Hin Hlen Hlast. destruct (tracks_fresh st Hf Hw) as (g & Ht & Hg).
  rewrite (add_all_delivers rs [] st g Ht Hg) by done.
  unfold remaining. rewrite filter_all by (intros ? _; apply not_elem_of_nil).
  replace ((fun r => bodies !!! r) <$> seq 0 k) with bodies; [done|].
  apply list_eq_same_length with k; [by rewrite length_fmap, length_seq | done |].
  intros i x y Hi Hx Hy. rewrite list_lookup_fmap, lookup_seq_lt in Hy by done.
  apply lookup_total_some in Hx. simpl in Hy. congruence.
Qed.
End run.
End delivery.

(** ** The properties, over the code of [Fec.v] *)

(** A group as the printer sends it: [bodies] are slices whose header gives
    their exact length, none longer than the coded length [L]; parity packet
    [r] is a 20-byte header announcing [L] and parity row [r] of the padded
    slices. *)
Record sender_group (bodies : list (list byte)) (L m : nat) (hdr : nat -> list byte) : Prop := {
  sg_k : (0 < length bodies)%nat;
  sg_km : (length bodies + m <= 255)%nat;
  sg_bodies : forall r, (r < length bodies)%nat -> (length (bodies !!! r) <= L)%nat /\
    exists h, parse_slice_header (bodies !!! r) = Some h /\
              length (bodies !!! r) = (kSliceHeaderLen + Z.to_nat (len h))%nat;
  sg_hdr : forall r, length (hdr r) = kSliceHeaderLen /\ get_le16 (hdr r) 8 = Z.of_nat L
}.

(** C23: when at least [k] of the [k + m] packets of a group arrive, in any
    order in which the last parity packet is not among the first [k - 1], the
    receiver hands over every slice of the group exactly once, whatever groups
    it was already tracking. *)
Theorem fec_group_delivery (bodies : list (list byte)) (L m : nat) (hdr : nat -> list byte)
    (st : FecReceiver) (group : Z) (rs : list nat) :
  sender_group bodies L m hdr ->
  om_find group (groups st) = None ->
  (have_newest st = true -> - kKeepGroups <= s16 (group - newest st)) ->
  NoDup rs -> (forall r, r ∈ rs -> (r < length bodies + m)%nat) ->
  (length bodies <= length rs)%nat ->
  (forall i, rs !! i = Some (length bodies + m - 1)%nat -> (length bodies <= S i)%nat) ->
  (add_all (EC := fec_code) st group (Z.of_nat (length bodies)) (Z.of_nat m)
           (packets (EC := fec_code) bodies L hdr rs)).2 ≡ₚ bodies.
Proof. intros [Hk Hkm Hb Hh]. intros. by apply group_delivers. Qed.

(** ** A concrete group: two slices, one parity packet, the first one lost *)

Definition slice (n : nat) (text : list byte) : list byte :=
  [Byte.x07; x00; x00; x00] ++ enc_le16 2 ++ enc_le16 (Z.of_nat n) ++
  enc_le16 (Z.of_nat (length text)) ++ replicate 10 x00 ++ text.

Definition demo_bodies : list (list byte) := [slice 0 (str "hello"); slice 1 (str "ok")].
Definition demo_hdr (r : nat) : list byte := replicate 8 x00 ++ enc_le16 25 ++ replicate 10 x00.

Lemma demo_sender : sender_group demo_bodies 25 1 demo_hdr.
Proof.
  split; [simpl; lia | simpl; lia | | intros r; split; reflexivity].
  intros [|[|r]] Hr; [| | simpl in Hr; lia]; (split; [vm_compute; lia|]);
    eexists; split; [vm_compute; reflexivity | reflexivity | vm_compute; reflexivity | reflexivity].
Qed.

Lemma fec_group_delivery_witness :
  (add_all (EC := fec_code) new_receiver 7 2 1
           (packets (EC := fec_code) demo_bodies 25 demo_hdr [1; 2]%nat)).2 ≡ₚ demo_bodies.
Proof.
  apply (fec_group_delivery demo_bodies 25 1 demo_hdr new_receiver 7 [1; 2]%nat).
  - exact demo_sender.
  - reflexivity.
  - discriminate.
  - repeat constructor; rewrite ?list_elem_of_singleton; try discriminate; apply not_elem_of_nil.
  - intros r Hr. repeat (apply elem_of_cons in Hr as [->|Hr]; [simpl; lia|]).
    by apply not_elem_of_nil in Hr.
  - simpl. lia.
  - intros [|[|[|i]]] Hi; simpl in *; congruence || lia.
Defined.
