(* ===== verification/FrameQueue.v ===== *)
(** Reassembly of video frames ([src/camera/tutk/TutkSession.cpp]): the
    legacy transport's [LegacyAssembler] and the framed transport's
    [FrameQueue]. [Clock::now()] is an input of the operations that read it;
    [flush] reads it once per iteration of its loop, so it takes the sequence
    of readings. What [flush] hands to [emit] and what it counts in [dropped]
    is returned as the list of events it performs. *)

From S2P Require Import Prelude OMap AvSlice.

Abbreviation slice_map := (list (Z * list byte)).

(** [data.insert(data.end(), ...)] over the slices in index order. *)
Definition join_slices (m : slice_map) : list byte := concat (snd <$> m).

(** ** The legacy transport *)

Record LegacyAssembler := {
  la_frame_no : Z;
  la_total : Z;
  la_slices : slice_map
}.

Definition new_assembler : LegacyAssembler :=
  {| la_frame_no := 0xffffffff; la_total := 0; la_slices := [] |}.

Definition legacy_add (st : LegacyAssembler) (fno idx cnt : Z) (data : list byte)
    : bool * LegacyAssembler :=
  let st := if fno =? la_frame_no st then st
            else {| la_frame_no := fno; la_total := if cnt =? 0 then 1 else cnt;
                    la_slices := [] |} in
  let st := {| la_frame_no := la_frame_no st; la_total := la_total st;
               la_slices := om_set idx data (la_slices st) |} in
  (la_total st <=? Z.of_nat (length (la_slices st)), st).

Definition legacy_take (st : LegacyAssembler) : list byte * LegacyAssembler :=
  (join_slices (la_slices st), new_assembler).

(** The use of the two operations on a sequence of slices. *)
Fixpoint legacy_run (st : LegacyAssembler) (ps : list (Z * Z * Z * list byte))
    : LegacyAssembler * list (list byte) :=
  match ps with
  | [] => (st, [])
  | (fno, idx, cnt, data) :: ps' =>
      let '(done, st) := legacy_add st fno idx cnt data in
      if done then
        let '(frame, st) := legacy_take st in
        let '(st, out) := legacy_run st ps' in (st, frame :: out)
      else legacy_run st ps'
  end.

(** ** The framed transport *)

Record Frame := {
  f_count : Z;
  f_info_len : Z;
  f_kind : Z;
  f_first : Z;
  f_slices : slice_map
}.

Definition new_frame : Frame :=
  {| f_count := 0; f_info_len := 0; f_kind := 0; f_first := 0; f_slices := [] |}.

Record FrameQueue := {
  pending : list (Z * Frame);
  next : Z;
  have_next : bool;
  need_key : bool;
  dropped : Z;
  any_frame : bool
}.

Definition new_queue (any_frame : bool) : FrameQueue :=
  {| pending := []; next := 0; have_next := false; need_key := true; dropped := 0;
     any_frame := any_frame |}.

Definition set_pending (p : list (Z * Frame)) (st : FrameQueue) : FrameQueue :=
  {| pending := p; next := next st; have_next := have_next st; need_key := need_key st;
     dropped := dropped st; any_frame := any_frame st |}.

(** The first slice of a frame fixes its slice count. *)
Definition start_frame (f : Frame) (now count : Z) : Frame :=
  match f_slices f with
  | [] => {| f_count := count; f_info_len := f_info_len f; f_kind := f_kind f;
             f_first := now; f_slices := [] |}
  | _ => f
  end.

Definition put_slice (f : Frame) (h : SliceHeader) (payload : list byte) : Frame :=
  {| f_count := f_count f;
     f_info_len := if info_len h =? 0 then f_info_len f else info_len h;
     f_kind := kind h; f_first := f_first f;
     f_slices := om_set (index h) (take (Z.to_nat (len h)) payload) (f_slices f) |}.

Definition fq_add (st : FrameQueue) (now : Z) (h : SliceHeader) (payload : list byte)
    : FrameQueue :=
  if have_next st && (s32 (frame_no h - next st) <? 0) then st
  else
    let f := start_frame (default new_frame (om_find (frame_no h) (pending st))) now (count h) in
    let f := if count h =? f_count f then put_slice f h payload else f in
    set_pending (om_set (frame_no h) f (pending st)) st.

(** What a flush does with the frames: hand one to [emit], skip an audio
    frame, count a frame in [dropped] because it needs a keyframe it does not
    have, or count [n] frames from [first] on that did not arrive. *)
Inductive event :=
| Emit (frame : Z) (data : list byte) (key : bool)
| Audio (frame : Z)
| Gated (frame : Z)
| Lost (first n : Z).

(** The frame's data without its trailer, and the keyframe flag. The trailer
    flag is read at [len + 2]; see [flag_byte_inside] for when that is inside
    the data. *)
Definition frame_payload (f : Frame) : list byte * bool :=
  let data := join_slices (f_slices f) in
  let len := Z.of_nat (length data) in
  let key := (f_kind f =? 5) || is_jpeg data in
  let '(len, key) := if negb (f_info_len f =? 0) && (f_info_len f <? len)
                     then let len := len - f_info_len f in
                          (len, key || (zat data (Z.to_nat len + 2) =? 1))
                     else (len, key) in
  let payload := take (Z.to_nat len) data in
  let key := if negb key && starts_with_start_code payload
             then h264_is_keyframe payload else key in
  (payload, key).

Definition deliver (st : FrameQueue) (no : Z) (f : Frame) : FrameQueue * event :=
  if f_kind f =? 4 then (st, Audio no)
  else
    let '(data, key) := frame_payload f in
    if need_key st && negb key && negb (any_frame st) then
      ({| pending := pending st; next := next st; have_next := have_next st;
          need_key := need_key st; dropped := dropped st + 1; any_frame := any_frame st |},
       Gated no)
    else
      ({| pending := pending st; next := next st; have_next := have_next st;
          need_key := false; dropped := dropped st; any_frame := any_frame st |},
       Emit no data key).

(** [next_ = no + 1; have_next_ = true; pending_.erase(it)], [it] the first
    entry. *)
Definition pop_frame (st : FrameQueue) (no : Z) : FrameQueue :=
  {| pending := tail (pending st); next := u32 (no + 1); have_next := true;
     need_key := need_key st; dropped := dropped st; any_frame := any_frame st |}.

Definition kHoldNs : Z := 500 * 1000000.

(** One iteration of the loop of [flush]; [None] leaves it. *)
Definition flush_step (now : Z) (holes : bool) (st : FrameQueue) : option (FrameQueue * event) :=
  match pending st with
  | [] => None
  | (no, f) :: rest =>
      let gap := have_next st && negb (no =? next st) in
      let complete := Z.of_nat (length (f_slices f)) =? f_count f in
      if complete && negb gap then
        let '(st, e) := deliver st no f in Some (pop_frame st no, e)
      else
        let later_started := gap || (1 <? length (pending st))%nat in
        let expired := kHoldNs <? now - f_first f in
        if negb later_started || (holes && negb expired) then None
        else if gap then
          Some ({| pending := pending st; next := no; have_next := have_next st;
                   need_key := true; dropped := dropped st + s32 (no - next st);
                   any_frame := any_frame st |}, Lost (next st) (u32 (no - next st)))
        else
          Some (pop_frame {| pending := pending st; next := next st; have_next := have_next st;
                             need_key := true; dropped := dropped st + 1;
                             any_frame := any_frame st |} no, Lost no 1)
  end.

Fixpoint flush_loop (fuel : nat) (nows : nat -> Z) (holes : bool) (st : FrameQueue)
    : FrameQueue * list event :=
  match fuel with
  | O => (st, [])
  | S fuel =>
      match flush_step (nows O) holes st with
      | None => (st, [])
      | Some (st, e) =>
          let '(st, es) := flush_loop fuel (fun i => nows (S i)) holes st in (st, e :: es)
      end
  end.

(** An iteration erases the first frame or closes the gap before it, so two
    iterations per pending frame are enough. *)
Definition flush_fuel (st : FrameQueue) : nat := 2 * length (pending st) + 1.

Definition flush (nows : nat -> Z) (holes : bool) (st : FrameQueue) : FrameQueue * list event :=
  flush_loop (flush_fuel st) nows holes st.

(** ** Termination of [flush] *)

Definition gap_of (st : FrameQueue) : bool :=
  match pending st with [] => false | (no, _) :: _ => have_next st && negb (no =? next st) end.

(** Twice the pending frames, less one without a gap to close first. *)
Definition flush_measure (st : FrameQueue) : nat :=
  match pending st with
  | [] => 0
  | _ => 2 * length (pending st) - 1 + if gap_of st then 1 else 0
  end.

Lemma deliver_pending st no f : pending (deliver st no f).1 = pending st.
Proof.
  unfold deliver. destruct (f_kind f =? 4); [done|].
  destruct (frame_payload f) as [data key]. by destruct (_ && _).
Qed.

Lemma flush_measure_pop st no p rest :
  pending st = p :: rest -> (flush_measure (pop_frame st no) <= 2 * length rest)%nat.
Proof.
  intros Hp. unfold flush_measure, pop_frame, gap_of. simpl. rewrite Hp. simpl.
  destruct rest; simpl; [lia|]. case_match; lia.
Qed.

Lemma flush_step_measure now holes st st' e :
  flush_step now holes st = Some (st', e) -> (flush_measure st' < flush_measure st)%nat.
Proof.
  unfold flush_step. destruct (pending st) as [|[no f] rest] eqn:Ep; [done|]. cbv zeta.
  destruct (have_next st && negb (no =? next st)) eqn:Eg.
  - rewrite andb_false_r. destruct (_ || _); [done|]. intros [= <- <-].
    unfold flush_measure, gap_of. simpl. rewrite Ep, Eg, Z.eqb_refl, andb_false_r. simpl. lia.
  - assert (Hm : (2 * length rest < flush_measure st)%nat).
    { unfold flush_measure, gap_of. rewrite Ep, Eg. simpl. lia. }
    cbn [negb]. rewrite andb_true_r. destruct (_ =? f_count f).
    + destruct (deliver st no f) as [st1 e1] eqn:Ed. intros [= <- <-].
      eapply Nat.le_lt_trans; [|exact Hm]. apply (flush_measure_pop _ _ (no, f)).
      by rewrite <- Ep, <- (deliver_pending st no f), Ed.
    + destruct (_ || _); [done|]. intros [= <- <-].
      eapply Nat.le_lt_trans; [|exact Hm]. by apply (flush_measure_pop _ _ (no, f)).
Qed.

Lemma flush_loop_stops fuel nows holes st :
  (flush_measure st < fuel)%nat ->
  let '(st', es) := flush_loop fuel nows holes st in
  flush_step (nows (length es)) holes st' = None /\ (length es <= flush_measure st)%nat.
Proof.
  revert nows st. induction fuel as [|fuel IH]; intros nows st Hm; [lia|]. simpl.
  destruct (flush_step (nows 0%nat) holes st) as [[st1 e]|] eqn:E; [|split; [done | simpl; lia]].
  apply flush_step_measure in E. specialize (IH (fun i => nows (S i)) st1 ltac:(lia)).
  destruct (flush_loop fuel _ holes st1) as [st' es]. destruct IH as [H1 H2].
  split; [exact H1 | simpl; lia].
Qed.

Lemma flush_measure_fuel st : (flush_measure st < flush_fuel st)%nat.
Proof. unfold flush_measure, flush_fuel. destruct (pending st); simpl; [lia|]. case_match; lia. Qed.

(** An invariant of the steps holds after the loop. *)
Lemma flush_loop_ind (P : FrameQueue -> list event -> FrameQueue -> Prop) holes :
  (forall st, P st [] st) ->
  (forall now st st1 e es st', flush_step now holes st = Some (st1, e) ->
     P st1 es st' -> P st (e :: es) st') ->
  forall fuel nows st, P st (flush_loop fuel nows holes st).2 (flush_loop fuel nows holes st).1.
Proof.
  intros H0 HS fuel. induction fuel as [|fuel IH]; intros nows st; simpl; [apply H0|].
  destruct (flush_step (nows 0%nat) holes st) as [[st1 e]|] eqn:E; [|apply H0].
  specialize (IH (fun i => nows (S i)) st1).
  destruct (flush_loop fuel _ holes st1) as [st' es]. eapply HS; [exact E | exact IH].
Qed.

(** ** Runs of the queue *)

Inductive fq_op :=
| Add (now : Z) (h : SliceHeader) (payload : list byte)
| Flush (nows : nat -> Z) (holes : bool).

Definition fq_do (st : FrameQueue) (op : fq_op) : FrameQueue * list event :=
  match op with
  | Add now h payload => (fq_add st now h payload, [])
  | Flush nows holes => flush nows holes st
  end.

Fixpoint fq_run (st : FrameQueue) (ops : list fq_op) : FrameQueue * list event :=
  match ops with
  | [] => (st, [])
  | op :: ops' =>
      let '(st, es) := fq_do st op in
      let '(st, es') := fq_run st ops' in (st, es ++ es')
  end.

(** The frame numbers of the session stay below [kMaxFrame]: [2^31 - 1]
    frames are more than two years of video at 30 frames a second. Beyond
    that the comparison of serial numbers and the order of the map differ. *)
Definition kMaxFrame : Z := 2 ^ 31 - 1.

(** A header as [parse_slice_header] returns it, of a frame in that range. *)
Definition header_ok (h : SliceHeader) : Prop :=
  0 <= index h < count h /\ 0 <= info_len h /\ 0 <= len h /\ 0 <= frame_no h < kMaxFrame.

Definition op_ok (op : fq_op) : Prop :=
  match op with Add _ h _ => header_ok h | Flush _ _ => True end.

(** A pending slice was added by one of the operations. *)
Definition added (ops : list fq_op) (no cnt idx : Z) (s : list byte) : Prop :=
  exists now h payload, Add now h payload ∈ ops /\ frame_no h = no /\ count h = cnt /\
    index h = idx /\ s = take (Z.to_nat (len h)) payload.

Definition trailer_of (ops : list fq_op) (no il : Z) : Prop :=
  il = 0 \/ exists now h payload, Add now h payload ∈ ops /\ frame_no h = no /\ info_len h = il.

Definition frame_ok (ops : list fq_op) (no : Z) (f : Frame) : Prop :=
  ascending (f_slices f) /\ f_slices f <> [] /\ 0 <= f_info_len f /\
  trailer_of ops no (f_info_len f) /\
  Forall (fun kv => 0 <= kv.1 < 0 + f_count f /\ added ops no (f_count f) kv.1 kv.2) (f_slices f).

Definition queue_ok (ops : list fq_op) (st : FrameQueue) : Prop :=
  ascending (pending st) /\ 0 <= next st <= kMaxFrame /\
  Forall (fun kv => 0 <= kv.1 < kMaxFrame /\ (have_next st = true -> next st <= kv.1) /\
                    frame_ok ops kv.1 kv.2) (pending st).

Lemma added_mono ops ops' no cnt idx s :
  (forall op, op ∈ ops -> op ∈ ops') -> added ops no cnt idx s -> added ops' no cnt idx s.
Proof. intros Hs (now & h & p & Hin & ?). exists now, h, p. split; [by apply Hs | done]. Qed.

Lemma frame_ok_mono ops ops' no f :
  (forall op, op ∈ ops -> op ∈ ops') -> frame_ok ops no f -> frame_ok ops' no f.
Proof.
  intros Hs (H1 & H2 & H3 & H4 & H5). split_and!; [done..| |].
  - destruct H4 as [H4|(now & h & p & Hin & ?)]; [by left | right].
    exists now, h, p. split; [by apply Hs | done].
  - eapply Forall_impl; [exact H5|]. intros kv [Hk Ha]. split; [done|]. by eapply added_mono.
Qed.

Lemma queue_ok_mono ops ops' st :
  (forall op, op ∈ ops -> op ∈ ops') -> queue_ok ops st -> queue_ok ops' st.
Proof.
  intros Hs (H1 & H2 & H3). split_and!; [done | lia.. |].
  eapply Forall_impl; [exact H3|]. intros kv (Hk & Hn & Hf). split_and!; [lia | lia | done |].
  by eapply frame_ok_mono.
Qed.

(** ** The invariant *)

Lemma frame_ok_put ops no f now h payload :
  Add now h payload ∈ ops -> frame_no h = no -> header_ok h ->
  ascending (f_slices f) -> 0 <= f_info_len f -> trailer_of ops no (f_info_len f) ->
  Forall (fun kv => 0 <= kv.1 < 0 + f_count f /\ added ops no (f_count f) kv.1 kv.2) (f_slices f) ->
  count h = f_count f ->
  frame_ok ops no (put_slice f h payload).
Proof.
  intros Hin Hno (Hi & Hil & Hl & Hfn) Ha Hil0 Htr Hall Hc. unfold frame_ok, put_slice. simpl.
  split_and!.
  - by apply ascending_set.
  - intros He. pose proof (om_find_set (index h) (take (Z.to_nat (len h)) payload) (f_slices f)) as Hf.
    by rewrite He in Hf.
  - destruct (info_len h =? 0); lia.
  - destruct (Z.eqb_spec (info_len h) 0); [done|]. right. by exists now, h, payload.
  - apply Forall_om_set; [|done]. simpl. split; [lia|]. by exists now, h, payload.
Qed.

Lemma start_frame_ok ops no f now cnt :
  f = new_frame \/ frame_ok ops no f ->
  let f' := start_frame f now cnt in
  ascending (f_slices f') /\ 0 <= f_info_len f' /\ trailer_of ops no (f_info_len f') /\
  Forall (fun kv => 0 <= kv.1 < 0 + f_count f' /\ added ops no (f_count f') kv.1 kv.2) (f_slices f')
  /\ (f_slices f' = [] -> f_count f' = cnt).
Proof.
  intros [->|(H1 & H2 & H3 & H4 & H5)]; simpl.
  - split_and!; [done | lia | by left | constructor | done].
  - unfold start_frame. destruct (f_slices f) as [|s ss] eqn:E; [done|]. rewrite E. done.
Qed.

Lemma queue_ok_add ops st now h payload :
  queue_ok ops st -> header_ok h -> queue_ok (Add now h payload :: ops) (fq_add st now h payload).
Proof.
  intros Hq0 Hh. pose proof Hh as (Hi & Hil & Hl & Hfn).
  assert (Hq : queue_ok (Add now h payload :: ops) st).
  { apply (queue_ok_mono ops); [by right | exact Hq0]. }
  destruct Hq0 as (Ha & Hn & Hall).
  unfold fq_add. destruct (have_next st && (s32 (frame_no h - next st) <? 0)) eqn:E; [done|].
  set (f0 := default new_frame _). set (ops' := Add now h payload :: ops) in *.
  destruct Hq as (_ & _ & Hq).
  assert (Hf0 : f0 = new_frame \/ frame_ok ops' (frame_no h) f0).
  { subst f0. destruct (om_find (frame_no h) (pending st)) as [f|] eqn:Ef; [right | by left].
    apply om_find_elem in Ef. rewrite Forall_forall in Hq. by apply Hq in Ef as (_ & _ & ?). }
  pose proof (start_frame_ok ops' (frame_no h) f0 now (count h) Hf0) as (H1 & H3 & H4 & H5 & H6).
  set (f1 := start_frame f0 now (count h)) in *.
  split_and!; simpl; [by apply ascending_set | lia.. |].
  apply Forall_om_set; [|done]. simpl. split; [lia|]. split.
  - intros Hhn. rewrite Hhn in E. simpl in E. apply Z.ltb_ge in E. unfold s32 in E.
    rewrite signed_small in E by (unfold kMaxFrame in *; lia). lia.
  - destruct (Z.eqb_spec (count h) (f_count f1)) as [Hc|Hc].
    + apply frame_ok_put with now; [by left | done..].
    + split_and!; [done| |done..]. intros He. by apply H6 in He.
Qed.

(** ** What the events say *)

Definition ev_first (e : event) : Z :=
  match e with Emit n _ _ | Audio n | Gated n => n | Lost a _ => a end.
Definition ev_next (e : event) : Z :=
  match e with Emit n _ _ | Audio n | Gated n => n + 1 | Lost a n => a + n end.
Definition ev_dropped (e : event) : Z :=
  match e with Emit _ _ _ | Audio _ => 0 | Gated _ => 1 | Lost _ n => n end.

(** The events account for the frames [a, b), each number once, in order. *)
Fixpoint accounts (es : list event) (a b : Z) : Prop :=
  match es with
  | [] => a = b
  | e :: es' => ev_first e = a /\ a < ev_next e /\ accounts es' (ev_next e) b
  end.

(** The keyframe gate: [None] when an event breaks it, otherwise whether a
    keyframe is needed after the events. *)
Definition gate1 (need : bool) (e : event) : option bool :=
  match e with
  | Emit _ _ key => if need && negb key then None else Some false
  | Audio _ => Some need
  | Gated _ => if need then Some true else None
  | Lost _ _ => Some true
  end.

Fixpoint gate (need : bool) (es : list event) : option bool :=
  match es with
  | [] => Some need
  | e :: es' => match gate1 need e with Some need => gate need es' | None => None end
  end.

Definition without_trailer (il : Z) (data : list byte) : list byte :=
  if negb (il =? 0) && (il <? Z.of_nat (length data))
  then take (Z.to_nat (Z.of_nat (length data) - il)) data else data.

(** An emitted frame is the concatenation of all its slices, each one added
    by an operation under its index, less the trailer its headers announced. *)
Definition event_whole (ops : list fq_op) (e : event) : Prop :=
  match e with
  | Emit n data _ => exists pieces il,
      pieces <> [] /\ trailer_of ops n il /\ data = without_trailer il (concat pieces) /\
      forall i s, pieces !! i = Some s ->
        added ops n (Z.of_nat (length pieces)) (Z.of_nat i) s
  | _ => True
  end.

Lemma complete_pieces ops no f :
  frame_ok ops no f -> Z.of_nat (length (f_slices f)) = f_count f ->
  forall i s, (snd <$> f_slices f) !! i = Some s -> added ops no (f_count f) (Z.of_nat i) s.
Proof.
  intros (Ha & Hne & _ & _ & Hall) Hc i s Hi.
  rewrite list_lookup_fmap in Hi. destruct (f_slices f !! i) as [[k s']|] eqn:E; [|done].
  injection Hi as <-.
  assert (Hk : fst <$> f_slices f = seqZ 0 (f_count f)).
  { apply ascending_full; [done| |done]. eapply Forall_impl; [exact Hall|].
    intros kv [? _]; done. }
  assert (Hk' : (fst <$> f_slices f) !! i = Some k) by (by rewrite list_lookup_fmap, E).
  rewrite Hk in Hk'. apply lookup_seqZ in Hk' as [-> _].
  rewrite Forall_forall in Hall. apply list_elem_of_lookup_2 in E.
  apply Hall in E as [_ E]. simpl in E. exact E.
Qed.

Lemma frame_payload_whole ops no f key :
  frame_ok ops no f -> Z.of_nat (length (f_slices f)) = f_count f ->
  event_whole ops (Emit no (frame_payload f).1 key).
Proof.
  intros Hf Hc. pose proof Hf as (Ha & Hne & Hil & Htr & Hall).
  exists (snd <$> f_slices f), (f_info_len f). split_and!.
  - intros H. by apply fmap_nil_inv in H.
  - done.
  - unfold frame_payload, without_trailer, join_slices.
    destruct (negb _ && _); simpl; [done|]. by rewrite Nat2Z.id, take_ge.
  - rewrite length_fmap, Hc. by eapply complete_pieces.
Qed.

(** What one step of the loop guarantees. *)
Record step_spec (ops : list fq_op) (st : FrameQueue) (e : event) (st' : FrameQueue) : Prop := {
  ss_ok : queue_ok ops st';
  ss_have : have_next st' = true;
  ss_first : have_next st = true -> ev_first e = next st;
  ss_grow : ev_first e < ev_next e;
  ss_next : ev_next e = next st';
  ss_any : any_frame st' = any_frame st;
  ss_gate : any_frame st = false -> gate1 (need_key st) e = Some (need_key st');
  ss_dropped : dropped st' = dropped st + ev_dropped e;
  ss_whole : event_whole ops e
}.

Lemma queue_ok_pop ops st st1 no f rest :
  queue_ok ops st -> pending st = (no, f) :: rest -> pending st1 = pending st ->
  queue_ok ops (pop_frame st1 no) /\ next (pop_frame st1 no) = no + 1.
Proof.
  intros (Ha & Hn & Hall) Hp Hp1. unfold pop_frame, queue_ok. simpl. rewrite Hp1, Hp in *.
  destruct Ha as [Habove Ha]. apply Forall_cons in Hall as [(Hno & _ & _) Hall]. simpl in *.
  assert (Hu : u32 (no + 1) = no + 1).
  { unfold u32. apply Z.mod_small. unfold kMaxFrame in *. lia. }
  rewrite Hu. split_and!; [done | unfold kMaxFrame in *; lia.. | | done].
  apply Forall_forall. intros kv Hkv. rewrite Forall_forall in Habove, Hall.
  specialize (Habove _ Hkv). apply Z.ltb_lt in Habove.
  destruct (Hall _ Hkv) as (? & _ & ?). split_and!; [lia.. | lia | done].
Qed.

Lemma flush_step_spec ops now holes st st' e :
  queue_ok ops st -> flush_step now holes st = Some (st', e) -> step_spec ops st e st'.
Proof.
  intros Hq. unfold flush_step. destruct (pending st) as [|[no f] rest] eqn:Ep; [done|]. cbv zeta.
  pose proof Hq as (Ha & Hn & Hall). rewrite Ep in Hall.
  apply Forall_cons in Hall as [(Hno & Hge & Hf) Hall]. simpl in Hno, Hge, Hf.
  destruct (have_next st && negb (no =? next st)) eqn:Eg.
  - rewrite andb_false_r. destruct (_ || _); [done|]. intros [= <- <-].
    apply andb_prop in Eg as [Eh Eg]. apply negb_true_iff, Z.eqb_neq in Eg. specialize (Hge Eh).
    assert (Hu : u32 (no - next st) = no - next st).
    { unfold u32. apply Z.mod_small. unfold kMaxFrame in *. lia. }
    split; simpl; rewrite ?Hu; try done || lia.
    + rewrite Ep in Ha. split_and!; simpl; [exact Ha | lia..|].
      apply Forall_cons. split; [split_and!; simpl; lia || done|].
      destruct Ha as [Habove _]. apply Forall_forall. intros kv Hkv.
      rewrite Forall_forall in Habove, Hall. specialize (Habove _ Hkv). apply Z.ltb_lt in Habove.
      destruct (Hall _ Hkv) as (? & _ & ?). split_and!; [lia.. | simpl in *; lia | done].
    + unfold s32. rewrite signed_small by (unfold kMaxFrame in *; lia). lia.
  - assert (Hnext : have_next st = true -> no = next st).
    { intros Eh. rewrite Eh in Eg. by apply negb_false_iff, Z.eqb_eq in Eg. }
    cbn [negb]. rewrite andb_true_r. destruct (Z.eqb_spec (Z.of_nat (length (f_slices f))) (f_count f)) as [Hc|_].
    + pose proof (frame_payload_whole ops no f) as Hw.
      pose proof (deliver_pending st no f) as Hp. revert Hp Hw. unfold deliver.
      destruct (f_kind f =? 4); [|destruct (frame_payload f) as [data key];
        destruct (need_key st && negb key && negb (any_frame st)) eqn:Ek].
      all: simpl; intros Hp Hw; intros [= <- <-].
      all: eapply queue_ok_pop in Hp as [Hq' Hn']; [|exact Hq | exact Ep].
      all: split; simpl in *; try done || lia || auto.
      * intros _. by destruct (need_key st).
      * intros Hany. rewrite Hany, andb_true_r in Ek. by rewrite Ek.
    + destruct (_ || _); [done|]. intros [= <- <-].
      edestruct (queue_ok_pop ops st {| pending := (no, f) :: rest; next := next st;
        have_next := have_next st; need_key := true; dropped := dropped st + 1;
        any_frame := any_frame st |}) as [Hq' Hn']; [exact Hq | exact Ep | done |].
      split; simpl in *; try done || lia || auto.
Qed.

(** ** What a run guarantees *)

Definition run_start (st : FrameQueue) (es : list event) : Z :=
  if have_next st then next st else match es with e :: _ => ev_first e | [] => next st end.

Fixpoint sum_dropped (es : list event) : Z :=
  match es with [] => 0 | e :: es' => ev_dropped e + sum_dropped es' end.

Lemma sum_events_app es es' : sum_dropped (es ++ es') = sum_dropped es + sum_dropped es'.
Proof. induction es as [|e es IH]; cbn [app sum_dropped]; lia. Qed.

Record run_spec (ops : list fq_op) (st : FrameQueue) (es : list event) (st' : FrameQueue)
    : Prop := {
  rs_ok : queue_ok ops st';
  rs_accounts : accounts es (run_start st es) (next st');
  rs_have : have_next st = true \/ es <> [] -> have_next st' = true;
  rs_keep : es = [] -> have_next st' = have_next st /\ next st' = next st;
  rs_any : any_frame st' = any_frame st;
  rs_gate : any_frame st = false -> gate (need_key st) es = Some (need_key st');
  rs_dropped : dropped st' = dropped st + sum_dropped es;
  rs_whole : Forall (event_whole ops) es
}.

Lemma accounts_app es es' a b c : accounts es a b -> accounts es' b c -> accounts (es ++ es') a c.
Proof.
  revert a. induction es as [|e es IH]; intros a; simpl; [by intros ->|].
  intros (H1 & H2 & H3) H4. split_and!; [done..|]. by apply IH.
Qed.

Lemma gate_app need es es' need' :
  gate need es = Some need' -> gate need (es ++ es') = gate need' es'.
Proof.
  revert need. induction es as [|e es IH]; intros need; simpl; [by intros [= ->]|].
  destruct (gate1 need e); [apply IH | done].
Qed.

Lemma event_whole_mono ops ops' e :
  (forall op, op ∈ ops -> op ∈ ops') -> event_whole ops e -> event_whole ops' e.
Proof.
  intros Hs. destruct e as [n data key| | |]; simpl; [|done..].
  intros (ps & il & H1 & H2 & H3 & H4). exists ps, il. split_and!; [done| |done|].
  - destruct H2 as [H2|(now & h & p & Hin & ?)]; [by left | right].
    exists now, h, p. split; [by apply Hs | done].
  - intros i s Hi. eapply added_mono; [exact Hs | by apply H4].
Qed.

Lemma run_spec_nil ops st : queue_ok ops st -> run_spec ops st [] st.
Proof.
  intros Hq. split; simpl; try done.
  - by unfold run_start; destruct (have_next st).
  - by intros [H|H].
  - lia.
Qed.

Lemma run_spec_step ops st e st1 es st' :
  step_spec ops st e st1 -> run_spec ops st1 es st' -> run_spec ops st (e :: es) st'.
Proof.
  intros [] []. split; try done.
  - rename rs_accounts0 into H. unfold run_start in *. rewrite ss_have0 in H. simpl.
    split_and!; [|destruct (have_next st); [rewrite <- ss_first0 by done|]; done |].
    + destruct (have_next st); [by apply ss_first0 | done].
    + by rewrite ss_next0.
  - intros _. apply rs_have0. by left.
  - by rewrite rs_any0.
  - intros Hany. simpl. rewrite ss_gate0 by done. apply rs_gate0. by rewrite ss_any0.
  - rewrite rs_dropped0, ss_dropped0. cbn [sum_dropped]. lia.
  - by constructor.
Qed.

Lemma run_spec_mono ops ops' st es st' :
  (forall op, op ∈ ops -> op ∈ ops') -> run_spec ops st es st' -> run_spec ops' st es st'.
Proof.
  intros Hs []. split; try done; [by eapply queue_ok_mono|].
  eapply Forall_impl; [done|]. intros e. by apply event_whole_mono.
Qed.

Lemma run_spec_app ops st es st1 es' st' :
  run_spec ops st es st1 -> run_spec ops st1 es' st' -> run_spec ops st (es ++ es') st'.
Proof.
  intros [] []. split; try done.
  - assert (Hs : run_start st (es ++ es') = run_start st es \/ es = []).
    { unfold run_start. destruct (have_next st); [by left|]. destruct es; [by right | by left]. }
    assert (Hs1 : es = [] -> run_start st (es ++ es') = run_start st1 es').
    { intros ->. destruct (rs_keep0 eq_refl) as [H1 H2]. unfold run_start. simpl.
      rewrite H1, H2. done. }
    destruct (decide (es = [])) as [->|Hne]; [rewrite Hs1 by done; done|].
    destruct Hs as [->|]; [|done]. eapply accounts_app; [done|].
    unfold run_start in rs_accounts1. rewrite rs_have0 in rs_accounts1 by (by right). done.
  - intros [H|H]; apply rs_have1; [left; apply rs_have0; by left|].
    destruct es; [by right | left; apply rs_have0; by right].
  - intros [-> ->]%app_eq_nil. destruct (rs_keep0 eq_refl), (rs_keep1 eq_refl).
    split; congruence.
  - by rewrite rs_any1.
  - intros Hany. erewrite gate_app; [|by apply rs_gate0]. apply rs_gate1. by rewrite rs_any0.
  - rewrite rs_dropped1, rs_dropped0, sum_events_app. lia.
  - by apply Forall_app.
Qed.

Lemma run_spec_flush ops nows holes st :
  queue_ok ops st -> run_spec ops st (flush nows holes st).2 (flush nows holes st).1.
Proof.
  unfold flush. generalize (flush_fuel st). intros fuel. revert nows st.
  intros nows st. apply (flush_loop_ind (fun st es st' => queue_ok ops st -> run_spec ops st es st')).
  - intros st0. apply run_spec_nil.
  - intros now0 st0 st1 e es st' Hs IH Hq. eapply flush_step_spec in Hs; [|done].
    eapply run_spec_step; [exact Hs|]. apply IH. apply Hs.
Qed.

Lemma run_spec_run ops0 st ops :
  queue_ok ops0 st -> Forall op_ok ops ->
  run_spec (ops ++ ops0) st (fq_run st ops).2 (fq_run st ops).1.
Proof.
  revert ops0 st. induction ops as [|op ops IH]; intros ops0 st Hq Hok; simpl.
  { by apply run_spec_nil. }
  apply Forall_cons in Hok as [Hop Hok].
  assert (Hone : run_spec (op :: ops0) st (fq_do st op).2 (fq_do st op).1).
  { destruct op as [now h p|nows holes]; simpl.
    - eapply queue_ok_add in Hop; [|exact Hq].
      pose proof (run_spec_nil _ _ Hop) as Hn. revert Hop Hn.
      unfold fq_add. destruct (_ && _); [done|]. intros Hop [].
      split; simpl in *; done.
    - apply run_spec_flush. eapply queue_ok_mono; [|exact Hq]. by right. }
  destruct (fq_do st op) as [st1 es1]. simpl in Hone. simpl.
  specialize (IH (op :: ops0) st1 (rs_ok _ _ _ _ Hone) Hok).
  destruct (fq_run st1 ops) as [st' es']. simpl in *.
  assert (Hsub : forall o, o ∈ ops ++ op :: ops0 -> o ∈ op :: ops ++ ops0).
  { intros o. rewrite !elem_of_cons, !elem_of_app, elem_of_cons. tauto. }
  eapply run_spec_app; eapply run_spec_mono; [|exact Hone|exact Hsub|exact IH].
  intros o. rewrite !elem_of_cons, elem_of_app. tauto.
Qed.

Lemma queue_ok_new any : queue_ok [] (new_queue any).
Proof. unfold queue_ok, kMaxFrame. simpl. split_and!; [done | lia.. | constructor]. Qed.

(** ** A stream without loss *)

(** A frame as the printer sends it. *)
Record video_frame := { v_kind : Z; v_info_len : Z; v_slices : list (list byte) }.

Definition frame_sent (v : video_frame) : Prop :=
  v_slices v <> [] /\ Z.of_nat (length (v_slices v)) < 2 ^ 16 /\ 0 <= v_info_len v.

Fixpoint number (a : Z) (ss : list (list byte)) : slice_map :=
  match ss with [] => [] | s :: ss' => (a, s) :: number (a + 1) ss' end.

Definition slice_header (n : Z) (v : video_frame) (i : nat) (s : list byte) : SliceHeader :=
  {| kind := v_kind v; count := Z.of_nat (length (v_slices v)); index := Z.of_nat i;
     info_len := if (i =? length (v_slices v) - 1)%nat then v_info_len v else 0;
     len := Z.of_nat (length s); frame_no := n |}.

(** The frame the queue holds after the slices [pre]. *)
Definition held (v : video_frame) (t0 : Z) (pre : list (list byte)) : Frame :=
  {| f_count := Z.of_nat (length (v_slices v));
     f_info_len := if (length pre =? length (v_slices v))%nat then v_info_len v else 0;
     f_kind := v_kind v; f_first := t0; f_slices := number 0 pre |}.

Section stream.
(** The clock readings and what the FEC receiver says about holes, at each
    slice of each frame. *)
Context (now : Z -> nat -> Z) (nows : Z -> nat -> nat -> Z) (holes : Z -> nat -> bool).

(** Every slice is added and the queue flushed, as for a received packet. *)
Fixpoint slice_ops (n : Z) (v : video_frame) (i : nat) (ss : list (list byte)) : list fq_op :=
  match ss with
  | [] => []
  | s :: ss' => Add (now n i) (slice_header n v i s) s :: Flush (nows n i) (holes n i)
                :: slice_ops n v (S i) ss'
  end.

Fixpoint stream_ops (n : Z) (vs : list video_frame) : list fq_op :=
  match vs with
  | [] => []
  | v :: vs' => slice_ops n v 0 (v_slices v) ++ stream_ops (n + 1) vs'
  end.
End stream.

(** What a player that is told whole frames does with them. *)
Definition play1 (need any : bool) (n : Z) (v : video_frame) : event :=
  if v_kind v =? 4 then Audio n
  else let '(data, key) := frame_payload (held v 0 (v_slices v)) in
       if need && negb key && negb any then Gated n else Emit n data key.

Fixpoint play (need any : bool) (n : Z) (vs : list video_frame) : list event :=
  match vs with
  | [] => []
  | v :: vs' =>
      let e := play1 need any n v in
      e :: play (match e with Emit _ _ _ => false | _ => need end) any (n + 1) vs'
  end.

Lemma number_app a ss s : number a (ss ++ [s]) = number a ss ++ [(a + Z.of_nat (length ss), s)].
Proof.
  revert a. induction ss as [|s1 ss IH]; intros a; simpl; [by rewrite Z.add_0_r|].
  rewrite IH. do 4 f_equal. lia.
Qed.

Lemma number_below a ss : Forall (fun kv : Z * list byte => klt kv.1 (a + Z.of_nat (length ss)) = true) (number a ss).
Proof.
  revert a. induction ss as [|s ss IH]; intros a; constructor.
  - apply Z.ltb_lt. simpl. lia.
  - cbn [length]. replace (a + Z.of_nat (S (length ss))) with (a + 1 + Z.of_nat (length ss)) by lia.
    apply IH.
Qed.

Lemma om_set_number ss s : om_set (Z.of_nat (length ss)) s (number 0 ss) = number 0 (ss ++ [s]).
Proof.
  rewrite om_set_last; [by rewrite number_app|].
  eapply Forall_impl; [apply number_below|]. intros kv. by rewrite Z.add_0_l.
Qed.

Lemma length_number a ss : length (number a ss) = length ss.
Proof. revert a. induction ss as [|s ss IH]; intros a; simpl; [done|]. by rewrite IH. Qed.

(** Adding the next slice of the only frame held. *)
Lemma fq_add_next st n v t0 pre s t :
  pending st = match pre with [] => [] | _ => [(n, held v t0 pre)] end ->
  (have_next st = true -> next st = n) ->
  (length pre < length (v_slices v))%nat -> 0 <= v_info_len v ->
  fq_add st t (slice_header n v (length pre) s) s =
  set_pending [(n, held v (match pre with [] => t | _ => t0 end) (pre ++ [s]))] st.
Proof.
  intros Hp Hn Hlen Hil. unfold fq_add.
  assert (Hskip : have_next st && (s32 (frame_no (slice_header n v (length pre) s) - next st) <? 0) = false).
  { destruct (have_next st); [|done]. rewrite Hn by done. simpl. by rewrite Z.sub_diag. }
  rewrite Hskip, Hp. cbn [frame_no slice_header].
  set (f := start_frame _ _ _).
  assert (Hf : f_count f = Z.of_nat (length (v_slices v)) /\ f_slices f = number 0 pre /\
               f_info_len f = 0 /\ f_first f = match pre with [] => t | _ => t0 end).
  { subst f. destruct pre as [|p pre']; [done|]. simpl om_find. rewrite keq_refl. simpl default.
    unfold start_frame, held. cbn [f_slices number f_count f_info_len f_first].
    destruct (Nat.eqb_spec (length (p :: pre')) (length (v_slices v))); [lia|done]. }
  destruct Hf as (H1 & H2 & H3 & H4). cbn [count slice_header]. rewrite H1, Z.eqb_refl.
  unfold set_pending. f_equal.
  assert (Hf' : put_slice f (slice_header n v (length pre) s) s
                = held v (match pre with [] => t | _ => t0 end) (pre ++ [s])).
  { unfold put_slice, held, slice_header. cbn [info_len kind index len].
    rewrite H1, H2, H3, H4, Nat2Z.id, take_ge, om_set_number, length_app by done. f_equal.
    replace (length pre + length [s] =? length (v_slices v))%nat
      with (length pre =? length (v_slices v) - 1)%nat.
    - destruct (_ =? _)%nat; [|done]. by destruct (Z.eqb_spec (v_info_len v) 0).
    - simpl length. destruct (Nat.eqb_spec (length pre) (length (v_slices v) - 1)), 
        (Nat.eqb_spec (length pre + 1) (length (v_slices v))); done || lia. }
  rewrite Hf'. destruct pre as [|p pre']; [done|]. simpl. by rewrite Z.ltb_irrefl.
Qed.

(** A flush keeps the only frame while it is incomplete. *)
Lemma flush_waits st n f ts h :
  pending st = [(n, f)] -> (have_next st = true -> next st = n) ->
  Z.of_nat (length (f_slices f)) <> f_count f ->
  flush ts h st = (st, []).
Proof.
  intros Hp Hn Hc. unfold flush, flush_fuel. rewrite Hp. cbn [length Nat.mul Nat.add flush_loop].
  unfold flush_step. rewrite Hp. cbv zeta. apply Z.eqb_neq in Hc. rewrite Hc.
  assert (Hg : have_next st && negb (n =? next st) = false).
  { destruct (have_next st); [|done]. rewrite Hn by done. by rewrite Z.eqb_refl. }
  by rewrite Hg.
Qed.

(** A flush hands over the only frame when it is complete. *)
Lemma flush_delivers st n f ts h :
  pending st = [(n, f)] -> (have_next st = true -> next st = n) ->
  Z.of_nat (length (f_slices f)) = f_count f ->
  flush ts h st = (pop_frame (deliver st n f).1 n, [(deliver st n f).2]).
Proof.
  intros Hp Hn Hc. unfold flush, flush_fuel. rewrite Hp. cbn [length Nat.mul Nat.add flush_loop].
  unfold flush_step at 1. rewrite Hp. cbv zeta. apply Z.eqb_eq in Hc. rewrite Hc.
  assert (Hg : have_next st && negb (n =? next st) = false).
  { destruct (have_next st); [|done]. rewrite Hn by done. by rewrite Z.eqb_refl. }
  rewrite Hg. cbn [negb andb]. pose proof (deliver_pending st n f) as Hd.
  destruct (deliver st n f) as [st1 e]. simpl in Hd. cbn [flush_loop fst snd].
  unfold flush_step, pop_frame. simpl. rewrite Hd, Hp. done.
Qed.

(** The state between two frames. *)
Record between (st : FrameQueue) (n : Z) (need any : bool) : Prop := {
  bt_pending : pending st = [];
  bt_next : have_next st = true -> next st = n;
  bt_need : need_key st = need;
  bt_any : any_frame st = any
}.

Lemma deliver_play st n v t0 need any :
  need_key st = need -> any_frame st = any ->
  let e := play1 need any n v in
  (deliver st n (held v t0 (v_slices v))).2 = e /\
  need_key (deliver st n (held v t0 (v_slices v))).1 = match e with Emit _ _ _ => false | _ => need end /\
  any_frame (deliver st n (held v t0 (v_slices v))).1 = any.
Proof.
  intros <- <-. unfold play1, deliver.
  change (frame_payload (held v 0 (v_slices v))) with (frame_payload (held v t0 (v_slices v))).
  cbn [f_kind held]. destruct (v_kind v =? 4); [done|].
  destruct (frame_payload (held v t0 (v_slices v))) as [data key].
  by destruct (need_key st && negb key && negb (any_frame st)).
Qed.

Lemma slices_run now nows holes st n v t0 pre rest need any :
  v_slices v = pre ++ rest -> rest <> [] -> frame_sent v -> 0 <= n < kMaxFrame ->
  pending st = match pre with [] => [] | _ => [(n, held v t0 pre)] end ->
  (have_next st = true -> next st = n) -> need_key st = need -> any_frame st = any ->
  let e := play1 need any n v in
  let r := fq_run st (slice_ops now nows holes n v (length pre) rest) in
  r.2 = [e] /\ between r.1 (n + 1) (match e with Emit _ _ _ => false | _ => need end) any.
Proof.
  revert st t0 pre. induction rest as [|s rest IH]; intros st t0 pre Hv Hne Hs Hn Hp Hnext Hneed Hany;
    [done|].
  pose proof Hs as (_ & Hl & Hil).
  assert (Hlen : length (v_slices v) = (length pre + S (length rest))%nat)
    by (rewrite Hv, length_app; done).
  cbv zeta. cbn [slice_ops fq_run fq_do].
  rewrite (fq_add_next st n v t0 pre s _ Hp Hnext) by lia.
  set (t1 := match pre with [] => _ | _ => _ end).
  set (st1 := set_pending _ st).
  assert (Hp1 : pending st1 = [(n, held v t1 (pre ++ [s]))]) by done.
  destruct rest as [|s2 rest].
  - cbn [slice_ops fq_run].
    assert (Hfull : held v t1 (pre ++ [s]) = held v t1 (v_slices v)) by (by rewrite Hv).
    rewrite Hfull in Hp1.
    rewrite (flush_delivers st1 n _ _ _ Hp1); [|done | cbn [held f_slices f_count]; by rewrite length_number].
    destruct (deliver_play st1 n v t1 need any Hneed Hany) as (H1 & H2 & H3).
    split; simpl; [by rewrite H1|]. split; simpl; [| |done|done].
    + by rewrite deliver_pending, Hp1.
    + intros _. unfold u32. apply Z.mod_small. unfold kMaxFrame in Hn. lia.
  - assert (Hl1 : length (pre ++ [s]) = S (length pre)) by (rewrite length_app; simpl; lia).
    rewrite (flush_waits st1 n _ _ _ Hp1);
      [|done | cbn [held f_slices f_count]; rewrite length_number, Hl1; simpl in Hlen; lia].
    rewrite <- Hl1.
    specialize (IH st1 t1 (pre ++ [s])). cbv zeta in IH.
    destruct (fq_run st1 _) as [st' es]. apply IH; try done.
    + by rewrite Hv, <- app_assoc.
    + rewrite Hp1. by destruct pre.
Qed.

Lemma stream_run now nows holes st n vs need any :
  Forall frame_sent vs -> 0 <= n -> n + Z.of_nat (length vs) <= kMaxFrame ->
  between st n need any ->
  (fq_run st (stream_ops now nows holes n vs)).2 = play need any n vs.
Proof.
  revert st n need. induction vs as [|v vs IH]; intros st n need Hs H0 Hm Hb; [done|].
  apply Forall_cons in Hs as [Hv Hs]. cbn [stream_ops play]. destruct Hb as [B1 B2 B3 B4].
  cbn [length] in Hm.
  destruct (slices_run now nows holes st n v 0 [] (v_slices v) need any) as [H1 H2];
    try done; [apply Hv | lia |].
  cbn [length] in H1, H2.
  assert (Happ : forall ops ops', (fq_run st (ops ++ ops')).2 =
            (fq_run st ops).2 ++ (fq_run (fq_run st ops).1 ops').2).
  { clear. intros ops. revert st. induction ops as [|op ops IH]; intros st ops'; simpl; [done|].
    destruct (fq_do st op) as [st1 es1]. specialize (IH st1 ops').
    destruct (fq_run st1 ops) as [st2 es2]. destruct (fq_run st1 (ops ++ ops')) as [st3 es3].
    simpl in *. rewrite IH. by rewrite app_assoc. }
  rewrite Happ, H1. simpl. f_equal. apply IH; [done | lia | lia | exact H2].
Qed.

(** ** The legacy assembler *)

(** The slices of a frame, in the order they arrive. *)
Definition legacy_packets (fno : Z) (ss : list (list byte)) (order : list nat)
    : list (Z * Z * Z * list byte) :=
  (fun i => (fno, Z.of_nat i, Z.of_nat (length ss), ss !!! i)) <$> order.

Lemma om_find_number a ss i :
  (i < length ss)%nat -> om_find (a + Z.of_nat i) (number a ss) = Some (ss !!! i).
Proof.
  revert a i. induction ss as [|s ss IH]; intros a i Hi; simpl in *; [lia|].
  destruct i as [|i]; [by rewrite Z.add_0_r, keq_refl|].
  replace (keq (a + Z.of_nat (S i)) a) with false by (symmetry; apply keq_neq; lia).
  replace (a + Z.of_nat (S i)) with (a + 1 + Z.of_nat i) by lia. apply IH. lia.
Qed.

Lemma ascending_number a ss : ascending (number a ss).
Proof.
  revert a. induction ss as [|s ss IH]; intros a; simpl; [done|]. split; [|apply IH].
  assert (H : forall b, a < b -> Forall (fun kv : Z * list byte => klt a kv.1 = true) (number b ss)).
  { clear. induction ss as [|s ss IH]; intros b Hb; constructor; [by apply Z.ltb_lt|].
    apply IH. lia. }
  apply H. lia.
Qed.

Lemma join_number a ss : join_slices (number a ss) = concat ss.
Proof.
  unfold join_slices. revert a. induction ss as [|s ss IH]; intros a; simpl; [done|]. by rewrite IH.
Qed.

(** The slices received so far, and no others. *)
Definition received_slices (ss : list (list byte)) (got : list nat) (m : slice_map) : Prop :=
  ascending m /\ length m = length got /\
  forall i, om_find (Z.of_nat i) m = (if decide (i ∈ got) then Some (ss !!! i) else None) /\
            forall k, k < 0 -> om_find k m = None.

Lemma received_slices_set ss got m i :
  received_slices ss got m -> i ∉ got ->
  received_slices ss (got ++ [i]) (om_set (Z.of_nat i) (ss !!! i) m).
Proof.
  intros (Ha & Hl & Hf) Hi. split_and!.
  - by apply ascending_set.
  - rewrite length_om_set_new, length_app; [simpl; lia|].
    destruct (Hf i) as [-> _]. by rewrite decide_False.
  - intros j. split.
    + destruct (decide (i = j)) as [<-|Hne].
      * rewrite om_find_set, decide_True; [done|]. rewrite elem_of_app. right. by left.
      * rewrite om_find_set_ne by lia. destruct (Hf j) as [-> _].
        case_decide as H1; case_decide as H2; rewrite elem_of_app, list_elem_of_singleton in H2.
        -- done.
        -- destruct H2. by left.
        -- by destruct H2 as [?|<-].
        -- done.
    + intros k Hk. rewrite om_find_set_ne by lia. by apply (Hf i).
Qed.

Lemma received_all ss got m :
  received_slices ss got m -> got ≡ₚ seq 0 (length ss) -> m = number 0 ss.
Proof.
  intros (Ha & _ & Hf) Hp. apply om_ext; [done | apply ascending_number|]. intros k.
  destruct (decide (k < 0)).
  - rewrite (proj2 (Hf 0%nat)) by done. symmetry. apply om_find_above.
    eapply Forall_impl; [|intros kv Hk; exact Hk].
    assert (H : forall b, k < b -> Forall (fun kv : Z * list byte => klt k kv.1 = true) (number b ss)).
    { clear. induction ss as [|s ss IH]; intros b Hb; constructor; [by apply Z.ltb_lt|].
      apply IH. lia. }
    apply H. lia.
  - replace k with (0 + Z.of_nat (Z.to_nat k)) by lia. set (i := Z.to_nat k).
    rewrite Z.add_0_l. rewrite (proj1 (Hf i)). case_decide as Hi; rewrite Hp, elem_of_seq in Hi.
    + by rewrite <- (Z.add_0_l (Z.of_nat i)), om_find_number by lia.
    + symmetry. destruct (om_find (Z.of_nat i) (number 0 ss)) as [s|] eqn:E; [|done].
      apply om_find_elem in E. pose proof (number_below 0 ss) as Hb. rewrite Forall_forall in Hb.
      apply Hb, Z.ltb_lt in E. simpl in E. lia.
Qed.

Lemma legacy_collect fno ss got rest st :
  ss <> [] -> got ++ rest ≡ₚ seq 0 (length ss) -> rest <> [] ->
  (la_frame_no st = fno -> la_total st = Z.of_nat (length ss) /\ received_slices ss got (la_slices st)) ->
  (la_frame_no st <> fno -> got = []) ->
  legacy_run st (legacy_packets fno ss rest) = (new_assembler, [concat ss]).
Proof.
  intros Hss. revert st got. induction rest as [|i rest IH]; intros st got Hp Hne Hin Hout; [done|].
  assert (Hlen : length ss = (length got + S (length rest))%nat).
  { apply Permutation_length in Hp. rewrite length_app, length_seq in Hp. simpl in Hp. lia. }
  assert (Hnd : NoDup (got ++ i :: rest)) by (rewrite Hp; apply NoDup_seq).
  assert (Hi : i ∉ got).
  { intros Hi. apply NoDup_app in Hnd as (_ & Hd & _). apply (Hd i Hi). by left. }
  unfold legacy_packets. rewrite fmap_cons. cbn [legacy_run]. unfold legacy_add.
  set (st0 := if fno =? la_frame_no st then _ else _).
  assert (H0 : la_frame_no st0 = fno /\ la_total st0 = Z.of_nat (length ss) /\
               received_slices ss got (la_slices st0)).
  { subst st0. destruct (Z.eqb_spec fno (la_frame_no st)) as [E|E]; [by split; [|apply Hin]|].
    rewrite (Hout (not_eq_sym E)). simpl. split_and!; [done| |].
    - destruct (Z.eqb_spec (Z.of_nat (length ss)) 0); [|done]. destruct ss; done.
    - split_and!; [done..|]. intros j. rewrite decide_False by apply not_elem_of_nil. done. }
  destruct H0 as (E1 & E2 & E3). pose proof (received_slices_set ss got _ i E3 Hi) as E4.
  pose proof E4 as (_ & El & _). rewrite length_app in El. cbn [length] in El.
  cbn [la_total la_slices la_frame_no]. rewrite El, E2. cbn [length] in Hlen.
  destruct rest as [|i2 rest]; cbn [length] in Hlen;
    destruct (Z.leb_spec (Z.of_nat (length ss)) (Z.of_nat (length got + 1))); try lia.
  - cbn [fmap list_fmap legacy_run]. unfold legacy_take. cbn [la_slices].
    rewrite (received_all ss (got ++ [i]) _ E4) by done. by rewrite join_number.
  - apply (IH _ (got ++ [i])).
    + by rewrite <- app_assoc.
    + done.
    + done.
    + intros []. exact E1.
Qed.

Lemma legacy_run_app st ps ps' :
  legacy_run st (ps ++ ps') =
  let '(st, out) := legacy_run st ps in
  let '(st, out') := legacy_run st ps' in (st, out ++ out').
Proof.
  revert st. induction ps as [|[[[fno idx] cnt] data] ps IH]; intros st;
    cbn [app legacy_run].
  { by destruct (legacy_run st ps'). }
  destruct (legacy_add st fno idx cnt data) as [[] st1]; [|apply IH].
  destruct (legacy_take st1) as [frame st2]. rewrite IH. destruct (legacy_run st2 ps) as [st3 out]. by destruct (legacy_run st3 ps').
Qed.

(** A frame the legacy transport carries: its number, its slices and the order
    they arrive in. [0xffffffff] is the assembler's mark for no frame. *)
Definition legacy_sent (f : Z * list (list byte) * list nat) : Prop :=
  f.1.1 <> 0xffffffff /\ f.1.2 <> [] /\ f.2 ≡ₚ seq 0 (length f.1.2).

(** A frame numbered like the mark for no frame is never collected: each of
    its slices is handed over as if it were the frame. *)
Lemma legacy_mark_collides idx cnt data :
  legacy_add new_assembler 0xffffffff idx cnt data
  = (true, {| la_frame_no := 0xffffffff; la_total := 0; la_slices := [(idx, data)] |}).
Proof. done. Qed.

(** The trailer flag [frame_payload] reads, at [data[len + 2]]: there is such a
    byte exactly when the trailer has at least three bytes; a printer that
    announces one or two makes the code read past the end of the data. *)
Definition flag_byte (f : Frame) : option byte :=
  let data := join_slices (f_slices f) in
  data !! (length data - Z.to_nat (f_info_len f) + 2)%nat.

Lemma flag_byte_inside f :
  0 < f_info_len f < Z.of_nat (length (join_slices (f_slices f))) ->
  is_Some (flag_byte f) <-> 3 <= f_info_len f.
Proof. intros H. unfold flag_byte. rewrite lookup_lt_is_Some. lia. Qed.

(** ** The properties *)

(** The loop of [flush] ends, whatever the clock says: after as many
    iterations as events were produced, at most two per pending frame, its
    condition or its [break] leaves it. *)
Lemma flush_terminates (nows : nat -> Z) (holes : bool) (st : FrameQueue) :
  flush_step (nows (length (flush nows holes st).2)) holes (flush nows holes st).1 = None /\
  (length (flush nows holes st).2 <= 2 * length (pending st))%nat.
Proof.
  pose proof (flush_loop_stops (flush_fuel st) nows holes st (flush_measure_fuel st)) as H.
  unfold flush. destruct (flush_loop (flush_fuel st) nows holes st) as [st' es].
  destruct H as [H1 H2]. split; [exact H1|]. simpl. eapply Nat.le_trans; [exact H2|].
  pose proof (flush_measure_fuel st) as Hf. unfold flush_fuel in Hf. lia.
Qed.

(** The frames the queue emits, skips, gates or gives up are accounted for
    one after the other from the first one on: no number twice, none left out,
    none out of order; and [dropped] is the number of frames not handed over
    for want of slices or of a keyframe. *)
Lemma frames_accounted (any : bool) (ops : list fq_op) :
  Forall op_ok ops ->
  let '(st, es) := fq_run (new_queue any) ops in
  (es = [] \/ exists a, accounts es a (next st)) /\ dropped st = sum_dropped es.
Proof.
  intros Hok. pose proof (run_spec_run [] _ ops (queue_ok_new any) Hok) as H.
  destruct (fq_run (new_queue any) ops) as [st es]. destruct H. simpl in *.
  split; [|done]. destruct es as [|e es]; [by left|]. right. by eexists.
Qed.

(** A frame is emitted only whole: its data is the concatenation of its
    slices 0 .. count-1, each one received under its index in a slice of that
    frame with that count, less the trailer its last slice announced. *)
Lemma frames_whole (any : bool) (ops : list fq_op) (n : Z) (data : list byte) (key : bool) :
  Forall op_ok ops -> Emit n data key ∈ (fq_run (new_queue any) ops).2 ->
  exists pieces il,
    pieces <> [] /\ trailer_of ops n il /\ data = without_trailer il (concat pieces) /\
    forall i s, pieces !! i = Some s -> added ops n (Z.of_nat (length pieces)) (Z.of_nat i) s.
Proof.
  intros Hok Hin. pose proof (run_spec_run [] _ ops (queue_ok_new any) Hok) as [].
  rewrite app_nil_r in *. rewrite Forall_forall in rs_whole0. apply (rs_whole0 _ Hin).
Qed.

(** In a video session nothing is emitted before a keyframe, neither at the
    start nor after a lost frame, and a frame is held back for want of a
    keyframe only then. *)
Lemma keyframe_gate (ops : list fq_op) :
  Forall op_ok ops ->
  gate true (fq_run (new_queue false) ops).2 = Some (need_key (fq_run (new_queue false) ops).1).
Proof.
  intros Hok. pose proof (run_spec_run [] _ ops (queue_ok_new false) Hok) as []. by apply rs_gate0.
Qed.

(** C24: a stream of which no slice is lost is played as a player that gets
    whole frames would: each frame once, in order, as soon as its last slice
    is in, whatever the clock says and whether or not groups have holes. *)
Theorem lossless_stream now nows holes (any : bool) (n : Z) (vs : list video_frame) :
  Forall frame_sent vs -> 0 <= n -> n + Z.of_nat (length vs) <= kMaxFrame ->
  (fq_run (new_queue any) (stream_ops now nows holes n vs)).2 = play true any n vs.
Proof. intros. by apply stream_run. Qed.

(** The legacy transport reassembles every frame whose slices all arrive,
    in whatever order they do. *)
Lemma legacy_reassembles (fs : list (Z * list (list byte) * list nat)) :
  Forall legacy_sent fs ->
  legacy_run new_assembler (concat ((fun f => legacy_packets f.1.1 f.1.2 f.2) <$> fs))
  = (new_assembler, (fun f => concat f.1.2) <$> fs).
Proof.
  induction 1 as [|[[fno ss] order] fs (Hf & Hne & Hp) _ IH]; [done|].
  cbn [fst snd] in *. rewrite !fmap_cons. cbn [concat fst snd].
  rewrite legacy_run_app, (legacy_collect fno ss [] order); [by rewrite IH|done|done| | |done].
  - intros ->. apply Permutation_nil_l in Hp. destruct ss; done.
  - intros E. simpl in E. congruence.
Qed.

(** ** A concrete run: a keyframe, a frame that loses a slice, the next keyframe *)

Definition demo_header (no k cnt idx il l : Z) : SliceHeader :=
  {| kind := k; count := cnt; index := idx; info_len := il; len := l; frame_no := no |}.

Definition demo_ops : list fq_op :=
  [Add 0 (demo_header 7 5 2 1 3 5) (str "!!abc"); Flush (fun _ => 0) true;
   Add 1 (demo_header 7 5 2 0 0 3) (str "key"); Flush (fun _ => 1) true;
   Add 2 (demo_header 8 7 2 0 0 5) (str "inter"); Flush (fun _ => 2) false;
   Add 3 (demo_header 9 7 1 0 0 5) (str "inter"); Flush (fun _ => 3) false;
   Add 4 (demo_header 10 5 1 0 0 3) (str "new"); Flush (fun _ => 4) false].

Lemma demo_ops_ok : Forall op_ok demo_ops.
Proof.
  unfold demo_ops.
  repeat first [apply Forall_nil; exact I | apply Forall_cons; split]; try exact I;
    unfold op_ok, header_ok, kMaxFrame; simpl; lia.
Qed.

Example demo_events :
  (fq_run (new_queue false) demo_ops).2 =
  [Emit 7 (str "key!!") true; Lost 8 1; Gated 9; Emit 10 (str "new") true].
Proof. vm_compute. reflexivity. Qed.

Lemma frames_accounted_witness :
  let '(st, es) := fq_run (new_queue false) demo_ops in
  (es = [] \/ exists a, accounts es a (next st)) /\ dropped st = sum_dropped es.
Proof. apply frames_accounted. exact demo_ops_ok. Defined.

Lemma frames_whole_witness :
  exists pieces il,
    pieces <> [] /\ trailer_of demo_ops 7 il /\ str "key!!" = without_trailer il (concat pieces) /\
    forall i s, pieces !! i = Some s -> added demo_ops 7 (Z.of_nat (length pieces)) (Z.of_nat i) s.
Proof.
  apply (frames_whole false demo_ops 7 (str "key!!") true demo_ops_ok).
  rewrite demo_events. left.
Defined.

Lemma keyframe_gate_witness :
  gate true (fq_run (new_queue false) demo_ops).2
  = Some (need_key (fq_run (new_queue false) demo_ops).1).
Proof. apply keyframe_gate. exact demo_ops_ok. Defined.

Definition demo_stream : list video_frame :=
  [{| v_kind := 5; v_info_len := 3; v_slices := [str "key"; str "!!abc"] |};
   {| v_kind := 4; v_info_len := 0; v_slices := [str "audio"] |};
   {| v_kind := 7; v_info_len := 0; v_slices := [str "in"; str "ter"] |}].

Lemma lossless_stream_witness :
  (fq_run (new_queue false)
     (stream_ops (fun _ _ => 0) (fun _ _ _ => 0) (fun _ _ => true) 100 demo_stream)).2
  = play true false 100 demo_stream.
Proof.
  apply lossless_stream; [|lia | vm_compute; discriminate].
  repeat constructor; discriminate.
Defined.

Example demo_play :
  play true false 100 demo_stream
  = [Emit 100 (str "key!!") true; Audio 101; Emit 102 (str "inter") false].
Proof. vm_compute. reflexivity. Qed.

Lemma legacy_reassembles_witness :
  legacy_run new_assembler
    (legacy_packets 4 [str "ab"; str "c"; str "d"] [2; 0; 1]%nat ++
     legacy_packets 5 [str "xy"] [0]%nat ++ [])
  = (new_assembler, [str "abcd"; str "xy"]).
Proof.
  apply (legacy_reassembles [(4, [str "ab"; str "c"; str "d"], [2; 0; 1]%nat);
                             (5, [str "xy"], [0]%nat)]).
  repeat constructor; try discriminate. simpl.
  etransitivity; [apply (Permutation_app_comm [2]%nat [0; 1]%nat) | done].
Defined.
