(* ===== verification/AvPackets.v ===== *)
(** The fixed-layout packets the AV client builds
    ([src/camera/tutk/TutkSession.cpp]): the AV login and the IOCtrl body.
    [memcpy] and the [put_le*] helpers are writes into a list of bytes of
    fixed length. *)

From S2P Require Import Prelude AvSlice.

Definition kAccount : cstr := str "admin".
Definition kAvVersion : Z := 0x000b.
Definition kUidLen : nat := 20.

Definition kTypeFramed : Z := 0x0c.
Definition kTypeHeartbeat : Z := 0x09.
Definition kTypeProbe : Z := 0x0a.
Definition kTypeProbeAck : Z := 0x0b.

Definition kIoTypeIpcamStart : Z := 0x01ff.
Definition kIoTypeIpcamStop : Z := 0x02ff.
Definition kIoTypeCtrl : Z := 0x3001.

Definition build_av_login (step nonce : Z) (framed : bool) (passwd uid_upper : cstr) : list byte :=
  let pkt := replicate 570 x00 in
  let pkt := put_le16 2 kAvVersion pkt in
  let pkt := put_le16 16 546 pkt in
  let pkt := put_le32 20 nonce pkt in
  let pl := 24%nat in
  let pkt := splice pl kAccount pkt in
  let pkt := splice (pl + 257) (take 256 passwd) pkt in
  if framed then
    let pkt := put8 1 step pkt in
    let pkt := put8 18 (if step =? 0x00 then 1 else 0) pkt in
    let pkt := put_le32 (pl + 514) 1 pkt in
    let pkt := put_le32 (pl + 518) 4 pkt in
    let pkt := put_le32 (pl + 522) 0x001f07fb pkt in
    let pkt := put_le32 (pl + 536) 3 pkt in
    put_le32 (pl + 542) 1 pkt
  else
    let pkt := put8 0 step pkt in
    let pkt := splice (pl + 518) (take kUidLen uid_upper) pkt in
    put_le32 (pl + 542) 2 pkt.

Definition build_ioctrl_body (io_type : Z) (data : list byte) (idx : Z) : list byte :=
  let out := replicate (24 + length data) x00 in
  let out := put8 1 0x70 out in
  let out := put_le16 2 idx out in
  let out := put_le32 4 1 out in
  let out := put_le32 8 (u32 (4 + Z.of_nat (length data))) out in
  let out := put_le32 12 idx out in
  let out := put_le32 20 io_type out in
  splice 24 data out.

(** ** What the receiving side reads *)

Lemma length_build_av_login step nonce framed passwd uid :
  length (build_av_login step nonce framed passwd uid) = 570%nat.
Proof. unfold build_av_login. destruct framed; autorewrite with bytes; done. Qed.

Lemma length_build_ioctrl_body io data idx :
  length (build_ioctrl_body io data idx) = (24 + length data)%nat.
Proof. unfold build_ioctrl_body. by autorewrite with bytes. Qed.

(** The login the printer parses: 570 bytes with the protocol version, the
    payload length and the nonce in the header, then the account and the
    first 256 bytes of the password, each followed by a zero byte. *)
Lemma av_login_credentials (step nonce : Z) (framed : bool) (passwd uid : cstr) :
  let pkt := build_av_login step nonce framed passwd uid in
  length pkt = 570%nat /\ get_le16 pkt 2 = kAvVersion /\
  get_le16 pkt 16 = Z.of_nat (length pkt) - 24 /\ get_le32 pkt 20 = u32 nonce /\
  sub 24 5 pkt = kAccount /\ at_ pkt 29 = x00 /\
  sub (24 + 257) (length (take 256 passwd)) pkt = take 256 passwd /\
  at_ pkt (24 + 257 + length (take 256 passwd)) = x00.
Proof.
  intros pkt. assert (Hl : length pkt = 570%nat) by apply length_build_av_login.
  assert (Hp : (length (take 256 passwd) <= 256)%nat) by (rewrite length_take; lia).
  assert (Hu : (length (take kUidLen uid) <= 20)%nat) by (rewrite length_take; unfold kUidLen; lia).
  assert (Ha : length kAccount = 5%nat) by done.
  rewrite Hl. subst pkt. unfold build_av_login in *.
  set (pw := take 256 passwd) in *. set (u := take kUidLen uid) in *.
  split_and!; [done|..].
  - rewrite (le16_of_sub _ _ kAvVersion); [done | rewrite Hl; lia|]. destruct framed; by field_read.
  - rewrite (le16_of_sub _ _ 546); [done | rewrite Hl; lia|]. destruct framed; by field_read.
  - apply le32_of_sub; [rewrite Hl; lia|]. destruct framed; by field_read.
  - destruct framed; by field_read.
  - destruct framed; by byte_read.
  - destruct framed; by field_read.
  - destruct framed; by byte_read.
Qed.

(** What the two capability blocks say: a framed login carries its step in
    the flag byte, marks its first packet and announces channel 1 of the
    framed transport; a legacy login carries its step as the type and the
    UID. *)
Lemma av_login_capabilities (step nonce : Z) (passwd uid : cstr) :
  let f := build_av_login step nonce true passwd uid in
  let l := build_av_login step nonce false passwd uid in
  (zat f 0 = 0 /\ zat f 1 = u8 step /\ zat f 18 = (if step =? 0 then 1 else 0) /\
   get_le32 f (24 + 514) = 1 /\ get_le32 f (24 + 522) = 0x001f07fb /\ get_le32 f (24 + 542) = 1) /\
  (zat l 0 = u8 step /\ zat l 1 = 0 /\ get_le32 l (24 + 542) = 2 /\
   sub (24 + 518) (length (take kUidLen uid)) l = take kUidLen uid).
Proof.
  assert (Hp : (length (take 256 passwd) <= 256)%nat) by (rewrite length_take; lia).
  assert (Hu : (length (take kUidLen uid) <= 20)%nat) by (rewrite length_take; unfold kUidLen; lia).
  assert (Ha : length kAccount = 5%nat) by done.
  pose proof (length_build_av_login step nonce true passwd uid) as Hf.
  pose proof (length_build_av_login step nonce false passwd uid) as Hl.
  intros f l. subst f l. unfold build_av_login in *.
  set (pw := take 256 passwd) in *. set (u := take kUidLen uid) in *. split_and!.
  - unfold zat. by byte_read.
  - apply at_of_sub; [rewrite Hf; lia|]. by field_read.
  - rewrite (at_of_sub _ _ (if step =? 0 then 1 else 0)); [by destruct (step =? 0) | rewrite Hf; lia|].
    by field_read.
  - rewrite (le32_of_sub _ _ 1); [done | rewrite Hf; lia|]. by field_read.
  - rewrite (le32_of_sub _ _ 0x001f07fb); [done | rewrite Hf; lia|]. by field_read.
  - rewrite (le32_of_sub _ _ 1); [done | rewrite Hf; lia|]. by field_read.
  - apply at_of_sub; [rewrite Hl; lia|]. by field_read.
  - unfold zat. by byte_read.
  - rewrite (le32_of_sub _ _ 2); [done | rewrite Hl; lia|]. by field_read.
  - by field_read.
Qed.

Lemma ioctrl_body_fields (io_type : Z) (data : list byte) (idx : Z) :
  let out := build_ioctrl_body io_type data idx in
  length out = (24 + length data)%nat /\ zat out 1 = 0x70 /\ get_le16 out 2 = u16 idx /\
  get_le32 out 4 = 1 /\ get_le32 out 8 = u32 (4 + Z.of_nat (length data)) /\
  get_le32 out 12 = u32 idx /\ get_le32 out 20 = u32 io_type /\ drop 24 out = data.
Proof.
  intros out. pose proof (length_build_ioctrl_body io_type data idx) as Hl.
  subst out. unfold build_ioctrl_body in *. split_and!.
  - done.
  - rewrite (at_of_sub _ _ 0x70); [done | lia|]. by field_read.
  - apply le16_of_sub; [lia|]. by field_read.
  - rewrite (le32_of_sub _ _ 1); [done | lia|]. by field_read.
  - rewrite (le32_of_sub _ _ (u32 (4 + Z.of_nat (length data)))); [|lia|by field_read].
    unfold u32. by rewrite Z.mod_mod by lia.
  - apply le32_of_sub; [lia|]. by field_read.
  - apply le32_of_sub; [lia|]. by field_read.
  - set (b := put_le32 20 io_type _) in *.
    assert (Hb : length b = (24 + length data)%nat) by (rewrite <- Hl; by rewrite length_splice).
    pose proof (sub_splice_same 24 data b (length data) ltac:(lia) eq_refl) as Hs.
    unfold sub in Hs. rewrite take_ge in Hs; [done|]. rewrite length_drop, length_splice. lia.
Qed.

Lemma login_type step nonce passwd uid : zat (build_av_login step nonce true passwd uid) 0 = 0.
Proof.
  assert (Hp : (length (take 256 passwd) <= 256)%nat) by (rewrite length_take; lia).
  assert (Ha : length kAccount = 5%nat) by done.
  unfold build_av_login. set (pw := take 256 passwd) in *. unfold zat. by byte_read.
Qed.

(** An IOCtrl body is parsed back: one slice of the io type and the data,
    whose length field covers both. *)
Lemma ioctrl_body_parses (io_type : Z) (data : list byte) (idx : Z) :
  let out := build_ioctrl_body io_type data idx in
  length out = (24 + length data)%nat /\ zat out 1 = 0x70 /\ get_le16 out 2 = u16 idx /\
  get_le32 out 4 = 1 /\ get_le32 out 8 = u32 (4 + Z.of_nat (length data)) /\
  get_le32 out 12 = u32 idx /\ get_le32 out 20 = u32 io_type /\ drop 24 out = data.
Proof. apply ioctrl_body_fields. Qed.
