(* ===== verification/Session.v ===== *)
(** One camera session ([TutkSession::Impl] of
    [src/camera/tutk/TutkSession.cpp]): the packets it sends, the packets it
    answers and the frames it delivers.

    The worker's operations are computations over the session state [Impl]
    that also emit outputs: the application data handed to
    [iotc_send_app_data] and the frames handed to the callback, in order.
    [Clock::now()] reads the next value of a sequence of readings
    (nanoseconds). What other threads and the network contribute is an input
    of each step: the value of [joined], the requests queued by [send_ctrl]
    and the datagram received. *)

From S2P Require Import Prelude OMap Erasure Fec AvSlice FecReceiver FrameQueue AvPackets.

Inductive Mode := Video | Ctrl.
#[export] Instance Mode_eq_dec : EqDecision Mode.
Proof. solve_decision. Defined.

Record LinkState := {
  rx_newest : Z;
  rx_any : bool;
  hb_reported : Z;
  hb_count : Z;
  hb_first : bool;
  probe_first : bool;
  rx_since_ack : Z;
  rtt_ms : Z;
  last_hb : Z;
  last_probe : Z
}.

Definition new_link : LinkState :=
  {| rx_newest := 0xffff; rx_any := false; hb_reported := 0xffff; hb_count := 0;
     hb_first := true; probe_first := true; rx_since_ack := 0; rtt_ms := 50;
     last_hb := 0; last_probe := 0 |}.

Definition note_stream_packet (l : LinkState) (counter : Z) : LinkState :=
  {| rx_newest := if negb (rx_any l) || (0 <? s16 (counter - rx_newest l))
                  then counter else rx_newest l;
     rx_any := true; hb_reported := hb_reported l; hb_count := hb_count l;
     hb_first := hb_first l; probe_first := probe_first l; rx_since_ack := rx_since_ack l;
     rtt_ms := rtt_ms l; last_hb := last_hb l; last_probe := last_probe l |}.

Definition set_rx_since_ack (v : Z) (l : LinkState) : LinkState :=
  {| rx_newest := rx_newest l; rx_any := rx_any l; hb_reported := hb_reported l;
     hb_count := hb_count l; hb_first := hb_first l; probe_first := probe_first l;
     rx_since_ack := v; rtt_ms := rtt_ms l; last_hb := last_hb l; last_probe := last_probe l |}.

Definition set_rtt_ms (v : Z) (l : LinkState) : LinkState :=
  {| rx_newest := rx_newest l; rx_any := rx_any l; hb_reported := hb_reported l;
     hb_count := hb_count l; hb_first := hb_first l; probe_first := probe_first l;
     rx_since_ack := rx_since_ack l; rtt_ms := v; last_hb := last_hb l;
     last_probe := last_probe l |}.

Definition set_probed (l : LinkState) : LinkState :=
  {| rx_newest := rx_newest l; rx_any := rx_any l; hb_reported := hb_reported l;
     hb_count := hb_count l; hb_first := hb_first l; probe_first := false;
     rx_since_ack := rx_since_ack l; rtt_ms := rtt_ms l; last_hb := last_hb l;
     last_probe := last_probe l |}.

Definition set_last (hb probe : Z) (l : LinkState) : LinkState :=
  {| rx_newest := rx_newest l; rx_any := rx_any l; hb_reported := hb_reported l;
     hb_count := hb_count l; hb_first := hb_first l; probe_first := probe_first l;
     rx_since_ack := rx_since_ack l; rtt_ms := rtt_ms l; last_hb := hb; last_probe := probe |}.

(** The heartbeat counter moves on; [reported] is what the heartbeat said. *)
Definition set_heartbeat (reported : Z) (l : LinkState) : LinkState :=
  {| rx_newest := rx_newest l; rx_any := rx_any l; hb_reported := reported;
     hb_count := u16 (hb_count l + 1); hb_first := false; probe_first := probe_first l;
     rx_since_ack := rx_since_ack l; rtt_ms := rtt_ms l; last_hb := last_hb l;
     last_probe := last_probe l |}.

Record Impl := {
  mode : Mode;
  cb_set : bool;
  started : Z;
  clock : nat -> Z;
  reads : nat;
  ready : bool;
  ctrl_out : list cstr;
  out_seq : Z;
  ioctrl_index : Z;
  framed : bool;
  login_nonce : Z;
  link : LinkState
}.

Inductive output :=
| Sent (data : list byte)
| Delivered (data : list byte) (pts_us : Z) (keyframe : bool).

(** ** Computations on a session *)

Definition M (A : Type) : Type := Impl -> A * Impl * list output.

Definition ret {A} (a : A) : M A := fun s => (a, s, []).
Definition bind {A B} (m : M A) (f : A -> M B) : M B := fun s =>
  let '(a, s, o) := m s in let '(b, s, o') := f a s in (b, s, o ++ o').

Declare Scope session_scope.
Delimit Scope session_scope with session.
Notation "x <- m ; k" := (bind m (fun x => k))
  (at level 100, m at level 90, k at level 200, right associativity) : session_scope.
Notation "m ;; k" := (bind m (fun _ => k))
  (at level 100, k at level 200, right associativity) : session_scope.
#[local] Open Scope session_scope.

Definition get {A} (f : Impl -> A) : M A := fun s => (f s, s, []).
Definition modify (f : Impl -> Impl) : M unit := fun s => (tt, f s, []).
Definition emit (o : output) : M unit := fun s => (tt, s, [o]).
Definition skip : M unit := ret tt.
Definition when (b : bool) (m : M unit) : M unit := if b then m else skip.

Definition with_link (f : LinkState -> LinkState) (s : Impl) : Impl :=
  {| mode := mode s; cb_set := cb_set s; started := started s; clock := clock s; reads := reads s;
     ready := ready s; ctrl_out := ctrl_out s; out_seq := out_seq s;
     ioctrl_index := ioctrl_index s; framed := framed s; login_nonce := login_nonce s;
     link := f (link s) |}.

Definition with_seqs (seq idx : Z) (s : Impl) : Impl :=
  {| mode := mode s; cb_set := cb_set s; started := started s; clock := clock s; reads := reads s;
     ready := ready s; ctrl_out := ctrl_out s; out_seq := seq; ioctrl_index := idx;
     framed := framed s; login_nonce := login_nonce s; link := link s |}.

Definition with_ctrl (r : bool) (q : list cstr) (s : Impl) : Impl :=
  {| mode := mode s; cb_set := cb_set s; started := started s; clock := clock s; reads := reads s;
     ready := r; ctrl_out := q; out_seq := out_seq s; ioctrl_index := ioctrl_index s;
     framed := framed s; login_nonce := login_nonce s; link := link s |}.

Definition with_login (f : bool) (nonce : Z) (s : Impl) : Impl :=
  {| mode := mode s; cb_set := cb_set s; started := started s; clock := clock s; reads := reads s;
     ready := ready s; ctrl_out := ctrl_out s; out_seq := out_seq s;
     ioctrl_index := ioctrl_index s; framed := f; login_nonce := nonce; link := link s |}.

Definition with_reads (n : nat) (s : Impl) : Impl :=
  {| mode := mode s; cb_set := cb_set s; started := started s; clock := clock s;
     reads := (reads s + n)%nat;
     ready := ready s; ctrl_out := ctrl_out s; out_seq := out_seq s;
     ioctrl_index := ioctrl_index s; framed := framed s; login_nonce := login_nonce s;
     link := link s |}.

(** [Clock::now()], and the next [n] readings of it. *)
Definition clock_now : M Z := fun s => (clock s (reads s), with_reads 1 s, []).
Definition clock_readings (n : nat) : M (nat -> Z) :=
  fun s => (fun i => clock s (reads s + i), with_reads n s, [])%nat.

Definition ms : Z := 1000000.
Definition now_ms16 : M Z := t <- clock_now; ret (u16 (Z.quot t ms)).

(** ** Packets sent *)

Definition send (data : list byte) : M unit := emit (Sent data).

Definition put_header (type flag : Z) (pkt : list byte) : M (list byte) :=
  seq <- get out_seq;
  idx <- get ioctrl_index;
  modify (with_seqs (u16 (seq + 1)) idx);;
  ret (put_le16 4 seq (put_le16 2 kAvVersion (put8 1 flag (put8 0 type pkt)))).

(** [out_seq++] outside a header. *)
Definition take_seq : M Z :=
  seq <- get out_seq; idx <- get ioctrl_index; modify (with_seqs (u16 (seq + 1)) idx);; ret seq.

Record TutkSessionParams := {
  p_uid : cstr; p_passwd : cstr; p_authkey : cstr; p_region : cstr; p_relay_id : cstr
}.

Definition send_login (p : TutkSessionParams) : M unit :=
  fr <- get framed;
  nonce <- get login_nonce;
  na <- (if fr then ret nonce else take_seq);
  let a := build_av_login 0x00 na fr (p_passwd p) (p_uid p) in
  nb <- (if fr then ret (u32 (nonce + 1)) else take_seq);
  let b := build_av_login 0x20 nb fr (p_passwd p) (p_uid p) in
  send a;;
  send b.

Definition send_ioctrl (io_type : Z) (data : list byte) : M unit :=
  fr <- get framed;
  let hdr := if fr then 16%nat else 8%nat in
  seq <- get out_seq;
  idx <- get ioctrl_index;
  when fr (modify (with_seqs seq (u16 (idx + 1))));;
  let body := build_ioctrl_body io_type data (if fr then idx else 0) in
  let pkt := replicate (hdr + length body)%nat x00 in
  pkt <- put_header (if fr then kTypeFramed else 0x00) (if fr then 0 else 0x70) pkt;
  send (splice hdr body pkt).

Definition send_channel_ioctrl (io_type channel : Z) : M unit :=
  send_ioctrl io_type (put_le32 0 channel (replicate 8 x00)).

Definition drain_ctrl : M unit :=
  out <- get ctrl_out;
  r <- get ready;
  modify (with_ctrl r []);;
  foldr (fun json m => send_ioctrl kIoTypeCtrl json;; m) skip out.

Definition send_start : M unit :=
  md <- get mode;
  fr <- get framed;
  if bool_decide (md = Ctrl) then skip
  else
    send_channel_ioctrl kIoTypeIpcamStart 0;;
    when (negb fr) (send_channel_ioctrl kIoTypeIpcamStart 1).

Definition send_stop : M unit :=
  md <- get mode;
  fr <- get framed;
  if bool_decide (md = Ctrl) then skip
  else
    send_channel_ioctrl kIoTypeIpcamStop 0;;
    when (negb fr) (send_channel_ioctrl kIoTypeIpcamStop 1).

(** Returns the new [ack_count]. *)
Definition send_transport_ack (pkt_seq ack_count : Z) : M Z :=
  ack <- put_header kTypeProbeAck 0 (replicate 20 x00);
  send (put_le16 12 ack_count (put_le16 10 1 (put_le16 8 pkt_seq ack)));;
  ret (u16 (ack_count + 1)).

Definition send_heartbeat : M unit :=
  pkt <- put_header kTypeHeartbeat 0 (replicate 24 x00);
  l <- get link;
  let newest := if rx_any l then rx_newest l else 0xffff in
  let pkt := if hb_first l then splice 8 (replicate 6 Byte.xff) pkt
             else put_le32 12 1 (put_le16 10 newest (put_le16 8 (hb_reported l) pkt)) in
  modify (with_link (set_heartbeat (if hb_first l then hb_reported l else newest)));;
  let pkt := put_le16 18 (hb_count l) pkt in
  t <- now_ms16;
  send (put_le16 20 t pkt).

Definition send_probe : M unit :=
  pkt <- put_header kTypeProbe 0x08 (replicate 16 x00);
  t <- now_ms16;
  l <- get link;
  let pkt := put_le32 12 (if probe_first l then 0x30 else 1)
               (put_le16 10 (rtt_ms l) (put_le16 8 t pkt)) in
  modify (with_link set_probed);;
  send pkt.

Definition send_probe_ack (echo_ts : Z) : M unit :=
  l <- get link;
  let pkt := replicate 20 x00 in
  let pkt := put8 6 0x1f (put_le16 2 kAvVersion (put8 0 kTypeProbeAck pkt)) in
  let pkt := put_le16 12 (rx_since_ack l) (put_le16 10 (rx_since_ack l) (put_le16 8 echo_ts pkt)) in
  modify (with_link (set_rx_since_ack 0));;
  send pkt.

Definition tick_link : M unit :=
  now <- clock_now;
  l <- get link;
  when (100 * ms <=? now - last_hb l)
       (modify (with_link (fun l => set_last now (last_probe l) l));; send_heartbeat);;
  l <- get link;
  when (200 * ms <=? now - last_probe l)
       (modify (with_link (fun l => set_last (last_hb l) now l));; send_probe).

(** The callback gets the frame and the microseconds since the session
    started. *)
Definition deliver_frame (data : list byte) (keyframe : bool) : M unit :=
  cb <- get cb_set;
  if negb cb || (length data =? 0)%nat then skip
  else
    t <- clock_now;
    t0 <- get started;
    emit (Delivered data (Z.quot (t - t0) 1000) keyframe).

(** ** Packets received *)

(** The state [receive] keeps in its local variables. *)
Record Rx := {
  legacy : LegacyAssembler;
  fecs : FecReceiver;
  frames_q : FrameQueue;
  ack_count : Z;
  frames : Z;
  retries : Z;
  start_triggers : Z;
  last_retry : Z;
  last_data : Z;
  last_stats : Z
}.

Definition with_legacy (la : LegacyAssembler) (ack fr st : Z) (r : Rx) : Rx :=
  {| legacy := la; fecs := fecs r; frames_q := frames_q r; ack_count := ack; frames := fr;
     retries := retries r; start_triggers := st; last_retry := last_retry r;
     last_data := last_data r; last_stats := last_stats r |}.

Definition with_framed (fs : FecReceiver) (q : FrameQueue) (fr : Z) (r : Rx) : Rx :=
  {| legacy := legacy r; fecs := fs; frames_q := q; ack_count := ack_count r; frames := fr;
     retries := retries r; start_triggers := start_triggers r; last_retry := last_retry r;
     last_data := last_data r; last_stats := last_stats r |}.

Definition with_times (re lr ld ls : Z) (r : Rx) : Rx :=
  {| legacy := legacy r; fecs := fecs r; frames_q := frames_q r; ack_count := ack_count r;
     frames := frames r; retries := re; start_triggers := start_triggers r; last_retry := lr;
     last_data := ld; last_stats := ls |}.

(** The answer to a control packet: its 24-byte header with the fields the
    protocol changes. *)
Definition echo_header (pkt : list byte) : list byte := take 24 pkt.

Definition reply_ioctrl (pkt : list byte) : list byte :=
  put8 17 0 (put8 16 0 (put8 9 0x11 (put8 1 0x11 (echo_header pkt)))).
Definition reply_request (pkt : list byte) : list byte :=
  put8 17 0 (put8 16 0 (put8 1 0x71 (echo_header pkt))).
Definition reply_reset (pkt : list byte) : list byte :=
  let reply := splice 0 (echo_header pkt) (replicate 44 x00) in
  let reply := put8 16 20 (put8 1 0x13 reply) in
  if (44 <=? length pkt)%nat then splice 24 (sub 24 20 pkt) reply else reply.

(** The frame a legacy assembly delivers and whether it is a keyframe. *)
Definition legacy_payload (frame : list byte) : list byte * bool :=
  let '(payload, key) :=
    if is_jpeg frame then (frame, true)
    else if (16 <? length frame)%nat &&
            (starts_with_start_code (drop 16 frame) || is_jpeg (drop 16 frame))
    then (drop 16 frame, zat frame 2 =? 1)
    else (frame, false) in
  (payload, key || is_jpeg payload || (starts_with_start_code payload && h264_is_keyframe payload)).

Definition legacy_control (pkt : list byte) (r : Rx) : M Rx :=
  let flag := zat pkt 1 in
  if flag =? 0x21 then send_start;; ret r
  else if flag =? 0x10 then
    if (length pkt <? 24)%nat then ret r
    else
      send (reply_ioctrl pkt);;
      when (start_triggers r <? 3) send_start;;
      ret (with_legacy (legacy r) (ack_count r) (frames r) (start_triggers r + 1) r)
  else if flag =? 0x70 then
    if (length pkt <? 24)%nat then ret r else send (reply_request pkt);; ret r
  else if flag =? 0x12 then
    if (length pkt <? 24)%nat then ret r else send (reply_reset pkt);; ret r
  else ret r.

Definition legacy_stream (pkt : list byte) (r : Rx) : M Rx :=
  let type := zat pkt 0 in
  let flag := zat pkt 1 in
  let n := length pkt in
  let acked := negb (Z.land flag 0x08 =? 0) in
  ack <- (if acked then send_transport_ack (get_le16 pkt 4) (ack_count r) else ret (ack_count r));
  let r := with_legacy (legacy r) ack (frames r) (start_triggers r) r in
  let kind := if type =? 0x01 then flag else type in
  if kind =? 0x04 then ret r
  else
    let extra := if acked then 8%nat else 0%nat in
    let hdr := (8 + extra)%nat in
    let data := (28 + extra)%nat in
    if (n <=? data)%nat then ret r
    else
      let slice_idx := get_le16 pkt (hdr + 2) in
      let slice_cnt := get_le16 pkt (hdr + 4) in
      let slice_len := get_le16 pkt (hdr + 8) in
      let frame_no := get_le32 pkt (hdr + 12) in
      let slice_len := if (slice_len =? 0) || (Z.of_nat n <? Z.of_nat data + slice_len)
                       then (n - data)%nat else Z.to_nat slice_len in
      let '(complete, la) := legacy_add (legacy r) frame_no slice_idx slice_cnt
                               (sub data slice_len pkt) in
      if negb complete then ret (with_legacy la ack (frames r) (start_triggers r) r)
      else
        let '(frame, la) := legacy_take la in
        let '(payload, key) := legacy_payload frame in
        deliver_frame payload key;;
        ret (with_legacy la ack (frames r + 1) (start_triggers r) r).

Definition handle_legacy (pkt : list byte) (r : Rx) : M Rx :=
  let type := zat pkt 0 in
  if type =? 0x00 then legacy_control pkt r
  else if negb (type =? 0x01) && ((type <? 0x03) || (0x08 <? type)) then ret r
  else legacy_stream pkt r.

(** [on_slice]: a slice handed over by the FEC receiver goes to its frame. *)
Fixpoint queue_slices (q : FrameQueue) (slices : list (list byte)) : M FrameQueue :=
  match slices with
  | [] => ret q
  | s :: rest =>
      match parse_slice_header s with
      | None => queue_slices q rest
      | Some h =>
          now <- clock_now;
          queue_slices (fq_add q now h (drop kSliceHeaderLen s)) rest
      end
  end.

Definition handle_framed (pkt : list byte) (r : Rx) : M Rx :=
  let n := length pkt in
  let probe := negb (Z.land (zat pkt 1) 0x08 =? 0) in
  if probe && (n <? 16)%nat then ret r
  else
    when probe (send_probe_ack (get_le16 pkt 8));;
    let off := if probe then 16%nat else 8%nat in
    if (n <? off + 8)%nat then ret r
    else
      let group := get_le16 pkt off in
      let idx := zat pkt (off + 2) in
      let k := zat pkt (off + 3) in
      let m := get_le32 pkt (off + 4) in
      let body := drop (off + 8) pkt in
      if k =? 0 then ret r
      else if 255 - k <? m then ret r
      else
        modify (with_link (fun l => note_stream_packet l (get_le16 pkt 4)));;
        let '(fs, slices) := add (EC := fec_code) (fecs r) group idx k m body in
        q <- queue_slices (frames_q r) slices;
        ret (with_framed fs q (frames r) r).

(** The frames a flush emits reach [deliver] in order. *)
Fixpoint emit_frames (es : list event) (count : Z) : M Z :=
  match es with
  | [] => ret count
  | Emit _ data key :: rest => deliver_frame data key;; emit_frames rest (count + 1)
  | _ :: rest => emit_frames rest count
  end.

Definition flush_frames (r : Rx) : M Rx :=
  nows <- (fun s => clock_readings (flush_fuel (frames_q r)) s);
  let '(q, es) := flush nows (has_holes (fecs r)) (frames_q r) in
  count <- emit_frames es (frames r);
  ret (with_framed (fecs r) q count r).

(** ** The session *)

(** What one iteration of the loop of [receive] gets from outside: the value
    of [joined], the requests other threads queued since the previous one,
    and the result of [iotc_recv_app_data]: a negative code, or the datagram
    ([] on a timeout). *)
Record iteration := {
  it_joined : bool;
  it_requests : list cstr;
  it_recv : Z + list byte
}.

Definition kRetryNs : Z := 1500 * ms.
Definition kSilentNs : Z := 5000 * ms.

(** The result of an iteration: the code [receive] returns, or the locals to
    go on with. *)
Definition guard_ctrl (p : TutkSessionParams) (now : Z) (r : Rx) : M (Z + Rx) :=
  rd <- get ready;
  let retry := negb rd && (kRetryNs <=? now - last_retry r) in
  let r' := if retry then with_times (retries r + 1) (last_retry r) (last_data r) (last_stats r) r
            else r in
  if retry && (5 <? retries r') then ret (inl (-1))
  else
    let r' := if retry then with_times (retries r') now (last_data r') (last_stats r') r' else r' in
    when retry (send_login p);;
    when rd drain_ctrl;;
    if kSilentNs <=? now - last_data r' then ret (inl (-4)) else ret (inr r').

Definition guard_video (p : TutkSessionParams) (now : Z) (r : Rx) : M (Z + Rx) :=
  if frames r =? 0 then
    if kRetryNs <=? now - last_retry r then
      let re := retries r + 1 in
      if 5 <? re then ret (inl (-1))
      else send_login p;; send_start;; ret (inr (with_times re now (last_data r) (last_stats r) r))
    else ret (inr r)
  else if kSilentNs <=? now - last_data r then ret (inl (-4))
  else ret (inr r).

Definition handle_ack (pkt : list byte) : M unit :=
  if (length pkt <? 10)%nat then skip
  else
    t <- now_ms16;
    let rtt := u16 (t - get_le16 pkt 8) in
    when (rtt <? 5000)
         (modify (with_link (fun l => set_rtt_ms (u16 (Z.quot (rtt_ms l * 7 + rtt) 8)) l))).

Definition accept_login (pkt : list byte) : M unit :=
  md <- get mode;
  q <- get ctrl_out;
  when ((zat pkt 1 =? 0x21) && bool_decide (md = Ctrl)) (modify (with_ctrl true q)).

(** A datagram of the framed transport. *)
Definition handle_packet (pkt : list byte) (r : Rx) : M Rx :=
  modify (with_link (fun l => set_rx_since_ack (u16 (rx_since_ack l + 1)) l));;
  let type := zat pkt 0 in
  if type =? 0x00 then accept_login pkt;; ret r
  else if type =? kTypeFramed then r <- handle_framed pkt r; flush_frames r
  else if type =? kTypeProbe then
    when (16 <=? length pkt)%nat (send_probe_ack (get_le16 pkt 8));; ret r
  else if type =? kTypeProbeAck then handle_ack pkt;; ret r
  else ret r.

Definition receive_packet (pkt : list byte) (r : Rx) : M Rx :=
  if (length pkt <? 8)%nat then ret r
  else
    t <- clock_now;
    let r := with_times (retries r) (last_retry r) t (last_stats r) r in
    if negb (get_le16 pkt 2 =? kAvVersion) then ret r
    else
      fr <- get framed;
      if negb fr then handle_legacy pkt r else handle_packet pkt r.

Definition queue_requests (reqs : list cstr) : M unit :=
  rd <- get ready; q <- get ctrl_out; modify (with_ctrl rd (q ++ reqs)).

Definition receive_step (p : TutkSessionParams) (it : iteration) (r : Rx) : M (Z + Rx) :=
  queue_requests (it_requests it);;
  if negb (it_joined it) then send_stop;; ret (inl 0)
  else
    now <- clock_now;
    md <- get mode;
    g <- (if bool_decide (md = Ctrl) then guard_ctrl p now r else guard_video p now r);
    match g with
    | inl rc => ret (inl rc)
    | inr r =>
        fr <- get framed;
        when fr tick_link;;
        let r := if 10000 * ms <=? now - last_stats r
                 then with_times (retries r) (last_retry r) (last_data r) now r else r in
        match it_recv it with
        | inl n => ret (inl n)
        | inr pkt => r <- receive_packet pkt r; ret (inr r)
        end
    end.

Fixpoint receive_loop (p : TutkSessionParams) (its : list iteration) (r : Rx) : M (Z + Rx) :=
  match its with
  | [] => ret (inr r)
  | it :: its' =>
      o <- receive_step p it r;
      match o with inl rc => ret (inl rc) | inr r => receive_loop p its' r end
  end.

Definition new_rx (any : bool) (now : Z) : Rx :=
  {| legacy := new_assembler; fecs := new_receiver; frames_q := new_queue any; ack_count := 1;
     frames := 0; retries := 0; start_triggers := 0; last_retry := now; last_data := now;
     last_stats := now |}.

(** [receive]: what it returns on the iterations given, or the locals when it
    is still running after them. *)
Definition receive (p : TutkSessionParams) (its : list iteration) : M (Z + Rx) :=
  now <- clock_now;
  md <- get mode;
  receive_loop p its (new_rx (bool_decide (md = Ctrl)) now).

(** One attempt of [connect]: the value of [joined], what [open_path] and
    [iotc_dtls_handshake] return, the random nonce and the answer to the
    login. *)
Record attempt := {
  at_joined : bool;
  at_open : Z;
  at_handshake : Z;
  at_nonce : Z;
  at_resp : Z + list byte
}.

(** [connect] once the transport is up: the session is reset and logged in;
    [None] is the return of [-2]. *)
Definition login_session (p : TutkSessionParams) (nonce : Z) (resp : Z + list byte) : M (option unit) :=
  modify (with_seqs 1 0);;
  modify (with_link (fun _ => new_link));;
  fr <- get framed;
  modify (with_login fr nonce);;
  send_login p;;
  md <- get mode;
  let resp := match resp with inl _ => [] | inr pkt => pkt end in
  let answered := (40 <=? length resp)%nat && (zat resp 0 =? 0x00) && (zat resp 1 =? 0x21) in
  let no_framed := answered && fr && (get_le32 resp 36 =? 0) in
  if no_framed && bool_decide (md = Ctrl) then ret None
  else
    when no_framed (modify (with_login false nonce);; send_login p);;
    q <- get ctrl_out;
    when (answered && negb no_framed && bool_decide (md = Ctrl)) (modify (with_ctrl true q));;
    fr <- get framed;
    (if fr then
       send_probe;;
       send_start;;
       send_heartbeat;;
       t <- clock_now;
       modify (with_link (set_last t t))
     else send_start);;
    ret (Some tt).

Fixpoint connect_loop (p : TutkSessionParams) (ats : list attempt) : M Z :=
  match ats with
  | [] => ret (-1)
  | a :: ats' =>
      if negb (at_joined a) then ret (-1)
      else if negb (at_open a =? 0) then connect_loop p ats'
      else if negb (at_handshake a =? 0) then connect_loop p ats'
      else
        o <- login_session p (at_nonce a) (at_resp a);
        ret match o with Some _ => 0 | None => -2 end
  end.

(** [connect] makes at most three attempts. *)
Definition connect (p : TutkSessionParams) (ats : list attempt) : M Z :=
  q <- get ctrl_out;
  modify (with_ctrl false q);;
  connect_loop p (take 3 ats).

(** One round of [run]: the attempts of [connect], the iterations of [receive]
    and the value of [joined] after the connection is closed. *)
Record round := {
  rd_joined : bool;
  rd_attempts : list attempt;
  rd_iterations : list iteration;
  rd_after : bool
}.

Fixpoint run_rounds (p : TutkSessionParams) (rds : list round) : M unit :=
  match rds with
  | [] => skip
  | rd :: rds' =>
      if negb (rd_joined rd) then skip
      else
        rc <- connect p (rd_attempts rd);
        stop <- (if rc =? 0 then
                   o <- receive p (rd_iterations rd);
                   ret match o with inl rc => rc =? 0 | inr _ => true end
                 else ret (rc =? -2));
        if stop then skip
        else if negb (rd_after rd) then skip
        else run_rounds p rds'
  end.

(** [run]: at most five rounds, then the session is over. *)
Definition run (p : TutkSessionParams) (rds : list round) : M unit :=
  run_rounds p (take 5 rds);;
  q <- get ctrl_out;
  modify (with_ctrl false q).

(** [send_ctrl]: the requests it lets through. *)
Definition kMaxCtrlLen : nat := 1200.
Definition send_ctrl (joined : bool) (json : cstr) (queue : list cstr) : bool * list cstr :=
  if (length json =? 0)%nat || (kMaxCtrlLen <? length json)%nat || negb joined
  then (false, queue) else (true, queue ++ [json]).

(** [open_path]: the search on the LAN and the relay run at once; which of the
    two connections is kept. [lan_rc] is the result of the search and
    [early] says that it ended within the head start. *)
Inductive path := Lan | Relay.
Definition open_path (lan_rc : Z) (early : bool) (relay_rc : Z) : option path :=
  let relay_rc := if negb early || negb (lan_rc =? 0) then relay_rc else -1 in
  if lan_rc =? 0 then Some Lan
  else if relay_rc =? 0 then Some Relay
  else None.
