(* ===== verification/WireSpec.v ===== *)
(** What a session puts on the wire: an abstract specification of the packets
    the framed transport may send, as an automaton over the outputs, and the
    proof that [Session] implements it.

    The automaton knows the counters a printer can check: the packet counter,
    the IOCtrl index, the heartbeat number and what the previous heartbeat
    reported. It refuses a packet whose counter is not the next one, whose
    length does not fit its type or whose fields contradict its history. *)

From S2P Require Import Prelude OMap Erasure Fec AvSlice FecReceiver FrameQueue AvPackets Session.
#[local] Open Scope session_scope.

Record wire := {
  w_seq : Z;              (* counter of the next counted packet *)
  w_ioctrl : Z;           (* index of the next IOCtrl *)
  w_beat : Z;             (* number of the next heartbeat *)
  w_reported : Z;         (* newest packet the last heartbeat reported *)
  w_first_beat : bool;
  w_first_probe : bool;
  w_logins : nat          (* login packets so far *)
}.

Definition counted (w : wire) (pkt : list byte) : bool :=
  (get_le16 pkt 2 =? kAvVersion) && (get_le16 pkt 4 =? w_seq w).

Definition wire_ioctrl (w : wire) (pkt : list byte) : option wire :=
  if counted w pkt && (40 <=? length pkt)%nat && (zat pkt 17 =? 0x70) &&
     (get_le16 pkt 18 =? w_ioctrl w) &&
     (get_le32 pkt 24 =? u32 (4 + (Z.of_nat (length pkt) - 40)))
  then Some {| w_seq := u16 (w_seq w + 1); w_ioctrl := u16 (w_ioctrl w + 1); w_beat := w_beat w;
               w_reported := w_reported w; w_first_beat := w_first_beat w;
               w_first_probe := w_first_probe w; w_logins := w_logins w |}
  else None.

Definition wire_heartbeat (w : wire) (pkt : list byte) : option wire :=
  if counted w pkt && (length pkt =? 24)%nat && (get_le16 pkt 18 =? w_beat w) then
    if w_first_beat w then
      if (get_le16 pkt 8 =? 0xffff) && (get_le16 pkt 10 =? 0xffff) && (get_le16 pkt 12 =? 0xffff)
      then Some {| w_seq := u16 (w_seq w + 1); w_ioctrl := w_ioctrl w; w_beat := u16 (w_beat w + 1);
                   w_reported := w_reported w; w_first_beat := false;
                   w_first_probe := w_first_probe w; w_logins := w_logins w |}
      else None
    else
      if (get_le16 pkt 8 =? w_reported w) && (get_le32 pkt 12 =? 1)
      then Some {| w_seq := u16 (w_seq w + 1); w_ioctrl := w_ioctrl w; w_beat := u16 (w_beat w + 1);
                   w_reported := get_le16 pkt 10; w_first_beat := false;
                   w_first_probe := w_first_probe w; w_logins := w_logins w |}
      else None
  else None.

Definition wire_probe (w : wire) (pkt : list byte) : option wire :=
  if counted w pkt && (length pkt =? 16)%nat && (zat pkt 1 =? 0x08) &&
     (get_le32 pkt 12 =? if w_first_probe w then 0x30 else 1)
  then Some {| w_seq := u16 (w_seq w + 1); w_ioctrl := w_ioctrl w; w_beat := w_beat w;
               w_reported := w_reported w; w_first_beat := w_first_beat w;
               w_first_probe := false; w_logins := w_logins w |}
  else None.

Definition wire_probe_ack (w : wire) (pkt : list byte) : option wire :=
  if (length pkt =? 20)%nat && (zat pkt 6 =? 0x1f) && (get_le16 pkt 10 =? get_le16 pkt 12)
  then Some w else None.

Definition wire_login (w : wire) (pkt : list byte) : option wire :=
  if (length pkt =? 570)%nat
  then Some {| w_seq := w_seq w; w_ioctrl := w_ioctrl w; w_beat := w_beat w;
               w_reported := w_reported w; w_first_beat := w_first_beat w;
               w_first_probe := w_first_probe w; w_logins := S (w_logins w) |}
  else None.

Definition wire_step (w : wire) (o : output) : option wire :=
  match o with
  | Delivered data _ _ => if (length data =? 0)%nat then None else Some w
  | Sent pkt =>
      let type := zat pkt 0 in
      if type =? kTypeFramed then wire_ioctrl w pkt
      else if type =? kTypeHeartbeat then wire_heartbeat w pkt
      else if type =? kTypeProbe then wire_probe w pkt
      else if type =? kTypeProbeAck then wire_probe_ack w pkt
      else if type =? 0x00 then wire_login w pkt
      else None
  end.

Fixpoint wire_run (w : wire) (os : list output) : option wire :=
  match os with
  | [] => Some w
  | o :: os' => match wire_step w o with Some w => wire_run w os' | None => None end
  end.

(** ** Triples: a computation whose outputs the automaton accepts *)

Definition triple {A} (P : Impl -> wire -> Prop) (m : M A) (Q : A -> Impl -> wire -> Prop) : Prop :=
  forall s w, P s w ->
  exists w', wire_run w (m s).2 = Some w' /\ Q (m s).1.1 (m s).1.2 w'.

Lemma wire_run_app w os os' :
  wire_run w (os ++ os') =
  match wire_run w os with Some w => wire_run w os' | None => None end.
Proof.
  revert w. induction os as [|o os IH]; intros w; simpl; [done|].
  destruct (wire_step w o); [apply IH | done].
Qed.

Lemma triple_bind {A B} P (m : M A) Q (f : A -> M B) R :
  triple P m Q -> (forall a, triple (Q a) (f a) R) -> triple P (bind m f) R.
Proof.
  intros Hm Hf s w HP. destruct (Hm s w HP) as (w1 & H1 & HQ). unfold bind.
  destruct (m s) as [[a s1] o1]. simpl in *. destruct (Hf a s1 w1 HQ) as (w2 & H2 & HR).
  destruct (f a s1) as [[b s2] o2]. simpl in *. exists w2. by rewrite wire_run_app, H1.
Qed.

Lemma triple_ret {A} P (a : A) (Q : A -> Impl -> wire -> Prop) :
  (forall s w, P s w -> Q a s w) -> triple P (ret a) Q.
Proof. intros H s w HP. exists w. split; [done|]. by apply H. Qed.

Lemma triple_get {A} P (f : Impl -> A) (Q : A -> Impl -> wire -> Prop) :
  (forall s w, P s w -> Q (f s) s w) -> triple P (get f) Q.
Proof. intros H s w HP. exists w. split; [done|]. by apply H. Qed.

Lemma triple_modify P f (Q : unit -> Impl -> wire -> Prop) :
  (forall s w, P s w -> Q tt (f s) w) -> triple P (modify f) Q.
Proof. intros H s w HP. exists w. split; [done|]. by apply H. Qed.

Lemma triple_emit P o (Q : unit -> Impl -> wire -> Prop) :
  (forall s w, P s w -> exists w', wire_step w o = Some w' /\ Q tt s w') -> triple P (emit o) Q.
Proof.
  intros H s w HP. destruct (H s w HP) as (w' & H1 & H2). exists w'. simpl. by rewrite H1.
Qed.

Lemma triple_when P b m (Q : unit -> Impl -> wire -> Prop) :
  (b = true -> triple P m Q) -> (b = false -> forall s w, P s w -> Q tt s w) ->
  triple P (when b m) Q.
Proof. intros H1 H2. destruct b; [by apply H1 | by apply triple_ret, H2]. Qed.

Lemma triple_conseq {A} P P' (m : M A) Q Q' :
  triple P' m Q' -> (forall s w, P s w -> P' s w) ->
  (forall a s w, Q' a s w -> Q a s w) -> triple P m Q.
Proof.
  intros Hm HP HQ s w H. destruct (Hm s w (HP s w H)) as (w' & H1 & H2). exists w'. eauto.
Qed.

(** ** The link between a session and the automaton *)

Record linked (n : nat) (s : Impl) (w : wire) : Prop := {
  lk_framed : framed s = true;
  lk_seq : w_seq w = u16 (out_seq s);
  lk_ioctrl : w_ioctrl w = u16 (ioctrl_index s);
  lk_beat : w_beat w = u16 (hb_count (link s));
  lk_reported : w_reported w = u16 (hb_reported (link s));
  lk_first_beat : w_first_beat w = hb_first (link s);
  lk_first_probe : w_first_probe w = probe_first (link s);
  lk_logins : w_logins w = n
}.

(** ** The packets of the framed transport are accepted *)

(** Reading a field of a packet under construction. *)
Lemma read8 p i v : (i < length p)%nat -> 0 <= v < 256 -> sub i 1 p = [zb v] -> zat p i = v.
Proof. intros Hi Hv H. rewrite (at_of_sub p i v Hi H). unfold u8. by apply Z.mod_small. Qed.

Lemma read16 p i v : (i + 2 <= length p)%nat -> sub i 2 p = enc_le16 v -> get_le16 p i = u16 v.
Proof. apply le16_of_sub. Qed.

Lemma read32 p i v : (i + 4 <= length p)%nat -> sub i 4 p = enc_le32 v -> get_le32 p i = u32 v.
Proof. apply le32_of_sub. Qed.

Ltac read_len :=
  unfold put8, put_le16, put_le32;
  rewrite ?length_splice, ?length_replicate, ?length_build_ioctrl_body;
  cbn [length enc_le16 enc_le32]; lia.

Ltac rd8 i v := rewrite (read8 _ i v); [| read_len | unfold kTypeFramed, kTypeHeartbeat, kTypeProbe, kTypeProbeAck; lia | by field_read].
Ltac rd16 i v := rewrite (read16 _ i v); [| read_len | by field_read].
Ltac rd32 i v := rewrite (read32 _ i v); [| read_len | by field_read].

Definition header (type flag seq : Z) (pkt : list byte) : list byte :=
  put_le16 4 seq (put_le16 2 kAvVersion (put8 1 flag (put8 0 type pkt))).

Lemma length_header t f q p : length (header t f q p) = length p.
Proof. unfold header, put_le16, put8. by rewrite !length_splice. Qed.

Lemma put_header_run t f p s :
  put_header t f p s
  = (header t f (out_seq s) p, with_seqs (u16 (out_seq s + 1)) (ioctrl_index s) s, []).
Proof. reflexivity. Qed.

Lemma u16_u16 z : u16 (u16 z) = u16 z.
Proof. unfold u16. by rewrite Z.mod_mod. Qed.

Lemma u16_succ z : u16 (u16 z + 1) = u16 (z + 1).
Proof. unfold u16. by rewrite Z.add_mod_idemp_l. Qed.

Lemma u16_range z : 0 <= u16 z < 2 ^ 16.
Proof. apply Z.mod_pos_bound. lia. Qed.

Lemma probe_accepted n : triple (linked n) send_probe (fun _ => linked n).
Proof.
  intros s w []. set (seq := out_seq s). set (t := u16 (Z.quot (clock s (reads s)) ms)).
  set (pkt := put_le32 12 (if probe_first (link s) then 0x30 else 1)
    (put_le16 10 (rtt_ms (link s)) (put_le16 8 t (header kTypeProbe 0x08 seq (replicate 16 x00))))).
  assert (Hrun : (send_probe s).2 = [Sent pkt]) by reflexivity. rewrite Hrun.
  assert (Hs : wire_step w (Sent pkt) = wire_probe w pkt).
  { unfold wire_step. subst pkt. unfold header. rd8 0%nat kTypeProbe. done. }
  cbn [wire_run]. rewrite Hs. unfold wire_probe, counted.
  assert (Hl : length pkt = 16%nat) by (subst pkt; unfold header; read_len).
  rewrite Hl. subst pkt. unfold header.
  rd16 2%nat kAvVersion. rd16 4%nat seq. rd8 1%nat 0x08.
  rd32 12%nat (if probe_first (link s) then 0x30 else 1).
  rewrite lk_seq0, lk_first_probe0. subst seq.
  replace (u32 (if probe_first (link s) then 0x30 else 1)) with (if probe_first (link s) then 0x30 else 1)
    by by destruct (probe_first (link s)).
  rewrite !Z.eqb_refl. cbn [andb Nat.eqb].
  eexists. split; [reflexivity|]. split; simpl; try done. by rewrite u16_u16, u16_succ.
Qed.

Lemma heartbeat_accepted n : triple (linked n) send_heartbeat (fun _ => linked n).
Proof.
  intros s w []. set (seq := out_seq s). set (l := link s).
  set (newest := if rx_any l then rx_newest l else 0xffff).
  set (t := u16 (Z.quot (clock s (reads s)) ms)).
  set (body := if hb_first l then splice 8 (replicate 6 Byte.xff) (header kTypeHeartbeat 0 seq (replicate 24 x00))
    else put_le32 12 1 (put_le16 10 newest (put_le16 8 (hb_reported l)
           (header kTypeHeartbeat 0 seq (replicate 24 x00))))).
  set (pkt := put_le16 20 t (put_le16 18 (hb_count l) body)).
  assert (Hrun : (send_heartbeat s).2 = [Sent pkt]) by reflexivity. rewrite Hrun.
  assert (Hst : link (send_heartbeat s).1.2 =
                set_heartbeat (if hb_first l then hb_reported l else newest) l) by reflexivity.
  assert (Hs : wire_step w (Sent pkt) = wire_heartbeat w pkt).
  { unfold wire_step. subst pkt body. unfold header.
    destruct (hb_first l); rd8 0%nat kTypeHeartbeat; done. }
  cbn [wire_run]. rewrite Hs. unfold wire_heartbeat, counted.
  assert (Hl : length pkt = 24%nat) by (subst pkt body; unfold header; destruct (hb_first l); read_len).
  rewrite Hl, lk_seq0, lk_first_beat0, lk_beat0, lk_reported0. fold l seq.
  subst pkt body. unfold header. destruct (hb_first l) eqn:Ef.
  - rd16 2%nat kAvVersion. rd16 4%nat seq. rd16 18%nat (hb_count l).
    set (p := put_le16 20 t _).
    assert (Hff : forall i, (8 <= i < 14)%nat -> at_ p i = Byte.xff).
    { intros i Hi. subst p. unfold put8, put_le16, put_le32.
      do 3 (rewrite at_splice by buf_len). rewrite !decide_False by (cbn [length enc_le16]; lia).
      rewrite decide_True by (cbn; lia). unfold at_. apply lookup_total_some, lookup_replicate.
      split; [done | lia]. }
    assert (H16 : forall i, (8 <= i < 13)%nat -> get_le16 p i = 0xffff).
    { intros i Hi. unfold get_le16, le16, zat. by rewrite !Hff by lia. }
    rewrite !H16 by lia. rewrite !Z.eqb_refl. cbn [andb Nat.eqb].
    eexists. split; [reflexivity|]. split; simpl; rewrite ?u16_u16, ?u16_succ; try done.
    fold l. by rewrite Ef.
  - rd16 2%nat kAvVersion. rd16 4%nat seq. rd16 18%nat (hb_count l).
    rd16 8%nat (hb_reported l). rd32 12%nat 1. rd16 10%nat newest.
    rewrite !Z.eqb_refl. cbn [andb Nat.eqb].
    eexists. split; [reflexivity|]. split; simpl; try done; rewrite ?u16_u16, ?u16_succ; try done.
    fold l. by rewrite Ef.
Qed.

Lemma probe_ack_accepted n echo : triple (linked n) (send_probe_ack echo) (fun _ => linked n).
Proof.
  intros s w []. set (c := rx_since_ack (link s)).
  set (pkt := put_le16 12 c (put_le16 10 c (put_le16 8 echo
     (put8 6 0x1f (put_le16 2 kAvVersion (put8 0 kTypeProbeAck (replicate 20 x00))))))).
  assert (Hrun : (send_probe_ack echo s).2 = [Sent pkt]) by reflexivity. rewrite Hrun.
  assert (Hs : wire_step w (Sent pkt) = wire_probe_ack w pkt).
  { unfold wire_step. subst pkt. rd8 0%nat kTypeProbeAck. done. }
  cbn [wire_run]. rewrite Hs. unfold wire_probe_ack.
  assert (Hl : length pkt = 20%nat) by (subst pkt; read_len). rewrite Hl.
  subst pkt. rd8 6%nat 0x1f. rd16 10%nat c. rd16 12%nat c. rewrite !Z.eqb_refl. cbn [andb Nat.eqb].
  eexists. split; [reflexivity|]. by split.
Qed.

Lemma ioctrl_accepted n io data : triple (linked n) (send_ioctrl io data) (fun _ => linked n).
Proof.
  intros s w []. set (seq := out_seq s). set (idx := ioctrl_index s).
  set (body := build_ioctrl_body io data idx).
  set (pkt := splice 16 body (header kTypeFramed 0 seq (replicate (16 + length body) x00))).
  pose proof (length_build_ioctrl_body io data idx) as Hb. fold body in Hb.
  assert (Hrun : (send_ioctrl io data s).2 = [Sent pkt]).
  { unfold send_ioctrl, bind, get, when, modify, skip, ret. cbn [fst snd]. rewrite lk_framed0. reflexivity. }
  assert (Hst : (send_ioctrl io data s).1.2 = with_seqs (u16 (seq + 1)) (u16 (idx + 1)) s).
  { unfold send_ioctrl, bind, get, when, modify, skip, ret. cbn [fst snd]. rewrite lk_framed0. reflexivity. }
  rewrite Hrun, Hst.
  assert (Hlen : length pkt = (40 + length data)%nat).
  { subst pkt. rewrite length_splice, length_header, length_replicate, Hb. lia. }
  assert (Hpre : forall i, (i < 16)%nat -> at_ pkt i = at_ (header kTypeFramed 0 seq (replicate (16 + length body) x00)) i).
  { intros i Hi. subst pkt. rewrite at_splice, decide_False; [done | lia|].
    rewrite length_header, length_replicate. lia. }
  assert (Hz : forall i, (i < 16)%nat -> zat pkt i = zat (header kTypeFramed 0 seq (replicate (16 + length body) x00)) i).
  { intros i Hi. unfold zat. by rewrite Hpre. }
  assert (Hbody : forall i, (i < length body)%nat -> zat pkt (16 + i) = zat body i).
  { intros i Hi. subst pkt. unfold zat. rewrite at_splice, decide_True; [f_equal; f_equal; lia | lia|].
    rewrite length_header, length_replicate. lia. }
  destruct (ioctrl_body_fields io data idx) as (B1 & B2 & B3 & B4 & B5 & B6 & B7 & B8).
  fold body in B2, B3, B5.
  assert (Hs : wire_step w (Sent pkt) = wire_ioctrl w pkt).
  { unfold wire_step. rewrite Hz by lia. unfold header. rd8 0%nat kTypeFramed. done. }
  assert (H16 : forall i, (i < 15)%nat -> get_le16 pkt i
            = get_le16 (header kTypeFramed 0 seq (replicate (16 + length body) x00)) i).
  { intros i Hi. unfold get_le16, le16. by rewrite !Hz by lia. }
  assert (H17 : zat pkt 17 = 0x70) by (rewrite <- B2; apply (Hbody 1%nat); lia).
  assert (H18 : get_le16 pkt 18 = u16 idx).
  { rewrite <- B3. unfold get_le16, le16. rewrite <- !Hbody by lia. done. }
  assert (H24 : get_le32 pkt 24 = u32 (4 + Z.of_nat (length data))).
  { rewrite <- B5. unfold get_le32, le32. rewrite <- !Hbody by lia. done. }
  cbn [wire_run]. rewrite Hs. unfold wire_ioctrl, counted.
  rewrite Hlen, H17, H18, H24, !H16 by lia. unfold header.
  rd16 2%nat kAvVersion. rd16 4%nat seq. rewrite lk_seq0, lk_ioctrl0. fold seq idx.
  replace (Z.of_nat (40 + length data) - 40) with (Z.of_nat (length data)) by lia.
  rewrite !Z.eqb_refl. destruct (Nat.leb_spec 40 (40 + length data)); [|lia]. cbn [andb].
  eexists. split; [reflexivity|]. split; simpl; rewrite ?u16_u16, ?u16_succ; done.
Qed.

Lemma login_accepted n p : triple (linked n) (send_login p) (fun _ => linked (S (S n))).
Proof.
  intros s w []. set (nonce := login_nonce s).
  assert (Hrun : send_login p s =
    (tt, s, [Sent (build_av_login 0x00 nonce true (p_passwd p) (p_uid p));
             Sent (build_av_login 0x20 (u32 (nonce + 1)) true (p_passwd p) (p_uid p))])).
  { unfold send_login, bind, get, send, emit, ret. cbn [fst snd]. rewrite lk_framed0. reflexivity. }
  rewrite Hrun. cbn [fst snd wire_run].
  assert (Hstep : forall step nonce w, wire_step w
            (Sent (build_av_login step nonce true (p_passwd p) (p_uid p))) =
          wire_login w (build_av_login step nonce true (p_passwd p) (p_uid p))).
  { intros step nn w0. unfold wire_step. by rewrite login_type. }
  rewrite !Hstep. unfold wire_login. rewrite !length_build_av_login. cbn [Nat.eqb].
  rewrite Hstep. unfold wire_login. rewrite length_build_av_login. cbn [Nat.eqb].
  eexists. split; [reflexivity|]. split; simpl; try done. by rewrite lk_logins0.
Qed.

(** ** Composition *)

Create HintDb wire.
#[local] Hint Resolve probe_accepted heartbeat_accepted probe_ack_accepted ioctrl_accepted
  login_accepted : wire.

Lemma get_linked {A} n (f : Impl -> A) : triple (linked n) (get f) (fun _ => linked n).
Proof. by apply triple_get. Qed.

Lemma get_framed n :
  triple (linked n) (get framed) (fun fr s w => linked n s w /\ fr = true).
Proof. apply triple_get. intros s w H. split; [done | apply H]. Qed.

Lemma clock_linked n : triple (linked n) clock_now (fun _ => linked n).
Proof. intros s w []. eexists. split; [reflexivity|]. by split. Qed.

Lemma readings_linked n k : triple (linked n) (clock_readings k) (fun _ => linked n).
Proof. intros s w []. eexists. split; [reflexivity|]. by split. Qed.

(** The parts of the link state the printer does not check. *)
Lemma link_linked n f :
  (forall l, hb_count (f l) = hb_count l /\ hb_reported (f l) = hb_reported l /\
             hb_first (f l) = hb_first l /\ probe_first (f l) = probe_first l) ->
  triple (linked n) (modify (with_link f)) (fun _ => linked n).
Proof.
  intros Hf. apply triple_modify. intros s w []. destruct (Hf (link s)) as (H1 & H2 & H3 & H4).
  split; simpl; rewrite ?H1, ?H2, ?H3, ?H4; done.
Qed.

Lemma ctrl_linked n rd q : triple (linked n) (modify (with_ctrl rd q)) (fun _ => linked n).
Proof. apply triple_modify. intros s w []. by split. Qed.

Lemma skip_linked n : triple (linked n) skip (fun _ => linked n).
Proof. by apply triple_ret. Qed.

Lemma ret_linked {A} n (a : A) : triple (linked n) (ret a) (fun _ => linked n).
Proof. by apply triple_ret. Qed.

Lemma bind_linked {A B} n (m : M A) (f : A -> M B) n' n'' :
  triple (linked n) m (fun _ => linked n') ->
  (forall a, triple (linked n') (f a) (fun _ => linked n'')) ->
  triple (linked n) (bind m f) (fun _ => linked n'').
Proof. intros. by eapply triple_bind. Qed.

Lemma framed_linked {A} n n' (f : bool -> M A) :
  triple (linked n) (f true) (fun _ => linked n') ->
  triple (linked n) (bind (get framed) f) (fun _ => linked n').
Proof.
  intros Hf. eapply triple_bind; [apply get_framed|]. intros fr s w [HL ->]. by apply Hf.
Qed.

#[local] Hint Resolve get_linked clock_linked readings_linked ctrl_linked skip_linked ret_linked : wire.
#[local] Hint Extern 1 (triple _ (modify (with_link _)) _) => (apply link_linked; done) : wire.

Ltac wire :=
  repeat first
    [ solve [auto with wire]
    | progress cbv beta zeta
    | apply framed_linked
    | eapply bind_linked; [solve [auto with wire] | intros ?]
    | eapply bind_linked; [ | intros ?]
    | match goal with
      | |- triple _ (when ?b _) _ => unfold when; destruct b
      | |- triple _ (if ?b then _ else _) _ => destruct b
      | |- triple _ (match ?x with _ => _ end) _ => destruct x
      end ].

Lemma now16_linked n : triple (linked n) now_ms16 (fun _ => linked n).
Proof. unfold now_ms16. wire. Qed.
#[local] Hint Resolve now16_linked : wire.

Lemma start_linked n : triple (linked n) send_start (fun _ => linked n).
Proof. unfold send_start, send_channel_ioctrl. wire. Qed.

Lemma stop_linked n : triple (linked n) send_stop (fun _ => linked n).
Proof. unfold send_stop, send_channel_ioctrl. wire. Qed.

Lemma tick_linked n : triple (linked n) tick_link (fun _ => linked n).
Proof. unfold tick_link. wire. Qed.

Lemma drain_linked n : triple (linked n) drain_ctrl (fun _ => linked n).
Proof.
  unfold drain_ctrl. eapply bind_linked; [auto with wire|]. intros out.
  eapply bind_linked; [auto with wire|]. intros rd. eapply bind_linked; [auto with wire|]. intros _.
  induction out as [|json out IH]; simpl; [auto with wire|].
  eapply bind_linked; [auto with wire|]. by intros _.
Qed.

Lemma deliver_linked n data key : triple (linked n) (deliver_frame data key) (fun _ => linked n).
Proof.
  unfold deliver_frame. eapply bind_linked; [auto with wire|]. intros cb.
  destruct (negb cb || (length data =? 0)%nat) eqn:E; [auto with wire|].
  apply orb_false_iff in E as [_ E].
  eapply bind_linked; [auto with wire|]. intros t. eapply bind_linked; [auto with wire|]. intros t0.
  apply triple_emit. intros s w HL. exists w. simpl. by rewrite E.
Qed.
#[local] Hint Resolve start_linked stop_linked tick_linked drain_linked deliver_linked : wire.

Lemma slices_linked n slices q : triple (linked n) (queue_slices q slices) (fun _ => linked n).
Proof.
  revert q. induction slices as [|s slices IH]; intros q; simpl; [auto with wire|].
  destruct (parse_slice_header s); [|apply IH].
  eapply bind_linked; [auto with wire|]. intros now. apply IH.
Qed.

Lemma frames_linked n es count : triple (linked n) (emit_frames es count) (fun _ => linked n).
Proof.
  revert count. induction es as [|[] es IH]; intros c; simpl; auto with wire.
  eapply bind_linked; [auto with wire|]. intros _. apply IH.
Qed.
#[local] Hint Resolve slices_linked frames_linked : wire.

Lemma handle_framed_linked n pkt r : triple (linked n) (handle_framed pkt r) (fun _ => linked n).
Proof.
  unfold handle_framed. wire.
Qed.

Lemma flush_linked n r : triple (linked n) (flush_frames r) (fun _ => linked n).
Proof.
  unfold flush_frames. eapply bind_linked; [apply readings_linked|]. intros nows.
  destruct (flush nows (has_holes (fecs r)) (frames_q r)) as [q es]. wire.
Qed.
#[local] Hint Resolve handle_framed_linked flush_linked : wire.

Lemma packet_linked n pkt r : triple (linked n) (handle_packet pkt r) (fun _ => linked n).
Proof. unfold handle_packet, accept_login, handle_ack. wire. Qed.

Lemma receive_packet_linked n pkt r : triple (linked n) (receive_packet pkt r) (fun _ => linked n).
Proof.
  unfold receive_packet. destruct (_ <? _)%nat; [auto with wire|].
  eapply bind_linked; [auto with wire|]. intros t. cbv zeta.
  destruct (negb _); [auto with wire|]. apply framed_linked. cbn [negb]. apply packet_linked.
Qed.

(** What a computation returns, whatever it sends. *)
Definition yields {A} (m : M A) (P : A -> Prop) : Prop := forall s, P (m s).1.1.

Lemma yields_ret {A} (a : A) (P : A -> Prop) : P a -> yields (ret a) P.
Proof. intros H s. exact H. Qed.

Lemma yields_bind {A B} (m : M A) (f : A -> M B) P :
  (forall a, yields (f a) P) -> yields (bind m f) P.
Proof.
  intros Hf s. unfold bind. destruct (m s) as [[a s1] o]. specialize (Hf a s1).
  by destruct (f a s1) as [[b s2] o2].
Qed.

Lemma yields_bind_of {A B} (m : M A) (f : A -> M B) Q P :
  yields m Q -> (forall a, Q a -> yields (f a) P) -> yields (bind m f) P.
Proof.
  intros Hm Hf s. specialize (Hm s). unfold bind. destruct (m s) as [[a s1] o].
  specialize (Hf a Hm s1). by destruct (f a s1) as [[b s2] o2].
Qed.

Lemma triple_yields {A} P (m : M A) (Q : A -> Prop) R :
  triple P m R -> yields m Q -> triple P m (fun a s w => R a s w /\ Q a).
Proof.
  intros Hm Hy s w HP. destruct (Hm s w HP) as (w' & H1 & H2). exists w'. auto.
Qed.

Ltac yields :=
  repeat first
    [ progress cbv beta zeta
    | apply yields_ret; simpl; done
    | apply yields_bind; intros ?
    | match goal with
      | |- yields (if ?b then _ else _) _ => destruct b
      | |- yields (match ?x with _ => _ end) _ => destruct x
      end ].

Lemma framed_retries pkt r : yields (handle_framed pkt r) (fun r' => retries r' = retries r).
Proof. unfold handle_framed. yields. Qed.

Lemma flush_retries r : yields (flush_frames r) (fun r' => retries r' = retries r).
Proof.
  unfold flush_frames. apply yields_bind. intros nows. destruct (flush _ _ _). yields.
Qed.

Lemma packet_retries pkt r : yields (handle_packet pkt r) (fun r' => retries r' = retries r).
Proof.
  unfold handle_packet. apply yields_bind. intros _. cbv zeta.
  destruct (_ =? 0); [yields|]. destruct (_ =? kTypeFramed); [|yields].
  eapply yields_bind_of; [apply framed_retries|]. intros r1 <-. apply flush_retries.
Qed.

Lemma legacy_retries pkt r : yields (handle_legacy pkt r) (fun r' => retries r' = retries r).
Proof.
  unfold handle_legacy, legacy_control, legacy_stream. yields.
Qed.

Lemma receive_packet_retries pkt r : yields (receive_packet pkt r) (fun r' => retries r' = retries r).
Proof.
  unfold receive_packet. destruct (_ <? _)%nat; [by apply yields_ret|].
  apply yields_bind. intros t. cbv zeta.
  set (r' := with_times _ _ _ _ r). change (retries r) with (retries r').
  destruct (negb _); [by apply yields_ret|].
  apply yields_bind. intros []; [apply packet_retries | apply legacy_retries].
Qed.

(** ** The receive loop *)

(** Each retry of the login is two packets, and there are at most five. *)
Definition running (s : Impl) (w : wire) (r : Rx) : Prop :=
  exists n, linked n s w /\ Z.of_nat n = 2 * retries r /\ 0 <= retries r <= 5.

Definition loop_post (o : Z + Rx) (s : Impl) (w : wire) : Prop :=
  match o with
  | inl _ => (w_logins w <= 10)%nat
  | inr r => running s w r
  end.

Lemma guard_video_spec p now r n :
  Z.of_nat n = 2 * retries r -> 0 <= retries r <= 5 ->
  triple (linked n) (guard_video p now r) loop_post.
Proof.
  intros Hn Hr. unfold guard_video.
  assert (Hstop : forall rc, triple (linked n) (ret (inl rc)) loop_post).
  { intros rc. apply triple_ret. intros s w HL. simpl. rewrite (lk_logins _ _ _ HL). lia. }
  assert (Hgo : triple (linked n) (ret (inr r)) loop_post).
  { apply triple_ret. intros s w HL. exists n. done. }
  destruct (_ =? 0); [|destruct (_ <=? _); done].
  destruct (_ <=? _); [|done]. cbv zeta. destruct (Z.ltb_spec 5 (retries r + 1)); [done|].
  eapply triple_bind; [apply login_accepted|]. intros ?.
  eapply triple_bind; [apply start_linked|]. intros ?.
  apply triple_ret. intros s w HL. exists (S (S n)). simpl. split; [done|]. lia.
Qed.

Lemma guard_ctrl_spec p now r n :
  Z.of_nat n = 2 * retries r -> 0 <= retries r <= 5 ->
  triple (linked n) (guard_ctrl p now r) loop_post.
Proof.
  intros Hn Hr. unfold guard_ctrl. eapply triple_bind; [apply get_linked|]. intros rd. cbv zeta.
  assert (Hrest : forall n' r', Z.of_nat n' = 2 * retries r' -> 0 <= retries r' <= 5 ->
    triple (linked n') (bind (when rd drain_ctrl) (fun _ =>
      if kSilentNs <=? now - last_data r' then ret (inl (-4)) else ret (inr r'))) loop_post).
  { intros n' r' Hn' Hr'. eapply triple_bind; [unfold when; destruct rd; auto with wire|]. intros ?.
    destruct (_ <=? _); apply triple_ret; intros s w HL; simpl;
      [rewrite (lk_logins _ _ _ HL); lia | by exists n']. }
  destruct (negb rd && (kRetryNs <=? now - last_retry r)); cbn [andb].
  - cbn [retries with_times]. destruct (Z.ltb_spec 5 (retries r + 1)).
    + apply triple_ret. intros s w HL. simpl. rewrite (lk_logins _ _ _ HL). lia.
    + eapply triple_bind; [apply login_accepted|]. intros ?. apply Hrest; simpl; lia.
  - eapply triple_bind; [apply skip_linked|]. intros ?. by apply Hrest.
Qed.

Lemma step_spec_wire p it r :
  triple (fun s w => running s w r) (receive_step p it r) loop_post.
Proof.
  intros s w (n & HL & Hn & Hr). revert s w HL.
  change (triple (linked n) (receive_step p it r) loop_post). unfold receive_step.
  eapply triple_bind; [unfold queue_requests; wire|]. intros ?.
  destruct (negb (it_joined it)).
  { eapply triple_bind; [apply stop_linked|]. intros ?. apply triple_ret. intros s w HL. simpl.
    rewrite (lk_logins _ _ _ HL). lia. }
  eapply triple_bind; [apply clock_linked|]. intros now.
  eapply triple_bind; [apply get_linked|]. intros md.
  eapply triple_bind.
  { destruct (bool_decide (md = Ctrl)); [by apply guard_ctrl_spec | by apply guard_video_spec]. }
  intros [rc|r1]; [by apply triple_ret|].
  intros s w (n1 & HL & Hn1 & Hr1). revert s w HL.
  match goal with |- forall s w, _ -> exists w', wire_run w (?m s).2 = _ /\ _ =>
    change (triple (linked n1) m loop_post) end.
  eapply triple_bind; [apply get_framed|]. intros fr s w [HL ->]. revert s w HL.
  match goal with |- forall s w, _ -> exists w', wire_run w (?m s).2 = _ /\ _ =>
    change (triple (linked n1) m loop_post) end.
  eapply triple_bind; [apply tick_linked|]. intros ?. cbv zeta.
  destruct (it_recv it) as [rc|pkt].
  { apply triple_ret. intros s w HL. simpl. rewrite (lk_logins _ _ _ HL). lia. }
  eapply triple_bind; [apply triple_yields; [apply receive_packet_linked | apply receive_packet_retries]|].
  intros r2. apply triple_ret. intros s w [HL Hr2]. exists n1.
  destruct (_ <=? _); simpl in Hr2; rewrite Hr2; done.
Qed.

Lemma loop_spec p its r :
  triple (fun s w => running s w r) (receive_loop p its r) loop_post.
Proof.
  revert r. induction its as [|it its IH]; intros r; simpl; [by apply triple_ret|].
  eapply triple_bind; [apply step_spec_wire|]. intros [rc|r1]; [by apply triple_ret | apply IH].
Qed.

(** The counters a session starts [receive] with. *)
Definition wire_of (s : Impl) : wire :=
  {| w_seq := u16 (out_seq s); w_ioctrl := u16 (ioctrl_index s);
     w_beat := u16 (hb_count (link s)); w_reported := u16 (hb_reported (link s));
     w_first_beat := hb_first (link s); w_first_probe := probe_first (link s);
     w_logins := 0 |}.

(** C21: whatever the printer, the clock and other threads do, everything a
    framed session sends while it receives is what the wire automaton
    accepts: packet counters, IOCtrl indices and heartbeat numbers without a
    gap or a repetition, each heartbeat continuing the report of the previous
    one, every packet of the length its type has, no empty frame delivered;
    and the login is repeated at most five times. *)
Theorem receive_refines_wire (p : TutkSessionParams) (its : list iteration) (s : Impl) :
  framed s = true ->
  exists w, wire_run (wire_of s) (receive p its s).2 = Some w /\ (w_logins w <= 10)%nat.
Proof.
  intros Hf. assert (HL : linked 0 s (wire_of s)) by (by split).
  assert (Ht : triple (linked 0) (receive p its) loop_post).
  { unfold receive. eapply triple_bind; [apply clock_linked|]. intros now.
    eapply triple_bind; [apply get_linked|]. intros md. eapply triple_conseq; [apply loop_spec| |done].
    intros s0 w0 H0. by exists 0%nat. }
  destruct (Ht s _ HL) as (w & H1 & H2). exists w. split; [done|].
  destruct (receive p its s).1.1 as [rc|r]; [done|]. destruct H2 as (n & [] & Hn & Hr). lia.
Qed.

(** ** A concrete session: a probe is answered, then the session is left *)

Definition demo_session : Impl :=
  {| mode := Video; cb_set := true; started := 0; clock := fun n => Z.of_nat n * 20 * ms;
     reads := 0; ready := false; ctrl_out := []; out_seq := 65534; ioctrl_index := 1;
     framed := true; login_nonce := 7; link := new_link |}.

Definition demo_params : TutkSessionParams :=
  {| p_uid := str "ABCDEFGHIJKLMNOPQRST"; p_passwd := str "secret"; p_authkey := str "00000000";
     p_region := str "eu"; p_relay_id := [] |}.

Definition demo_probe : list byte :=
  [zb kTypeProbe; x00; Byte.x0b; x00; x00; x00; x00; x00; Byte.x2a; x00; x00; x00; x00; x00; x00; x00].

Definition demo_its : list iteration :=
  [{| it_joined := true; it_requests := []; it_recv := inr demo_probe |};
   {| it_joined := false; it_requests := []; it_recv := inr [] |}].

Lemma receive_refines_wire_witness :
  exists w, wire_run (wire_of demo_session) (receive demo_params demo_its demo_session).2 = Some w
            /\ (w_logins w <= 10)%nat.
Proof. apply receive_refines_wire. reflexivity. Defined.

(** The types of the packets it sends. *)
Example demo_types :
  (fun o => match o with Sent pkt => zat pkt 0 | Delivered _ _ _ => -1 end) <$>
    (receive demo_params demo_its demo_session).2
  = [kTypeProbeAck; kTypeFramed].
Proof. vm_compute. reflexivity. Qed.
