(* ===== verification/Text.v ===== *)
(** Text as the program handles it: the character classes of the C locale,
    decimal numbers ([std::to_string], [std::stoul] and the digits of
    [std::stod]), hexadecimal digits and searching in a [std::string]. *)

From S2P Require Import Prelude.

(** ** Characters *)

Definition is_digit (c : byte) : bool := (48 <=? bz c) && (bz c <=? 57).
(** [isspace] in the C locale. *)
Definition is_space (c : byte) : bool := (bz c =? 32) || ((9 <=? bz c) && (bz c <=? 13)).
Definition is_upper (c : byte) : bool := (65 <=? bz c) && (bz c <=? 90).
Definition is_lower (c : byte) : bool := (97 <=? bz c) && (bz c <=? 122).
Definition is_alpha (c : byte) : bool := is_upper c || is_lower c.
Definition is_alnum (c : byte) : bool := is_alpha c || is_digit c.
Definition to_lower (c : byte) : byte := if is_upper c then zb (bz c + 32) else c.
Definition to_upper (c : byte) : byte := if is_lower c then zb (bz c - 32) else c.

Definition digit_val (c : byte) : Z := bz c - 48.
Definition digit_char (d : Z) : byte := zb (48 + d).

(** The value of a hexadecimal digit, either case. *)
Definition hex_val (c : byte) : option Z :=
  if is_digit c then Some (bz c - 48)
  else if (97 <=? bz c) && (bz c <=? 102) then Some (bz c - 97 + 10)
  else if (65 <=? bz c) && (bz c <=? 70) then Some (bz c - 65 + 10)
  else None.

(** The lower- and upper-case digit of a value below 16. *)
Definition hex_lower (d : Z) : byte := if d <? 10 then zb (48 + d) else zb (87 + d).
Definition hex_upper (d : Z) : byte := if d <? 10 then zb (48 + d) else zb (55 + d).

Lemma digit_char_spec d :
  0 <= d < 10 -> is_digit (digit_char d) = true /\ digit_val (digit_char d) = d.
Proof.
  intros Hd. unfold is_digit, digit_val, digit_char. rewrite bz_zb_small by lia.
  split; [|lia]. apply andb_true_intro. lia.
Qed.

Lemma is_digit_range c : is_digit c = true -> 0 <= digit_val c < 10.
Proof. unfold is_digit, digit_val. rewrite andb_true_iff. lia. Qed.

Lemma hex_val_lower d : 0 <= d < 16 -> hex_val (hex_lower d) = Some d.
Proof.
  intros Hd. assert (H : forallb (fun d => bool_decide (hex_val (hex_lower d) = Some d)) (seqZ 0 16) = true)
    by (vm_compute; reflexivity).
  rewrite forallb_forall in H. specialize (H d). rewrite bool_decide_eq_true in H. apply H.
  apply list_elem_of_In, elem_of_seqZ. lia.
Qed.

Lemma hex_val_upper d : 0 <= d < 16 -> hex_val (hex_upper d) = Some d.
Proof.
  intros Hd. assert (H : forallb (fun d => bool_decide (hex_val (hex_upper d) = Some d)) (seqZ 0 16) = true)
    by (vm_compute; reflexivity).
  rewrite forallb_forall in H. specialize (H d). rewrite bool_decide_eq_true in H. apply H.
  apply list_elem_of_In, elem_of_seqZ. lia.
Qed.

Lemma hex_val_range c d : hex_val c = Some d -> 0 <= d < 16.
Proof.
  unfold hex_val. pose proof (bz_range c). destruct (is_digit c) eqn:E.
  - apply is_digit_range in E. unfold digit_val in E. intros [= <-]. lia.
  - destruct (_ && _) eqn:E1; [apply andb_prop in E1; intros [= <-]; lia|].
    destruct ((65 <=? bz c) && _) eqn:E2; [apply andb_prop in E2; intros [= <-]; lia | done].
Qed.

(** [printf] of ["%08x"]. *)
Definition hex8 (v : Z) : cstr :=
  map (fun i => hex_lower (Z.land (Z.shiftr v (4 * (7 - Z.of_nat i))) 15)) (List.seq 0 8).

(** ** Decimal numbers *)

Fixpoint dec_fuel (fuel : nat) (n : Z) : cstr :=
  match fuel with
  | O => []
  | S fuel => if n <? 10 then [digit_char n] else dec_fuel fuel (n / 10) ++ [digit_char (n mod 10)]
  end.

(** [std::to_string] of an unsigned and of a signed integer. *)
Definition dec_nonneg (n : Z) : cstr := dec_fuel (S (Z.to_nat (Z.log2 n))) n.
Definition dec (z : Z) : cstr := if z <? 0 then str "-" ++ dec_nonneg (- z) else dec_nonneg z.

(** The value of a run of digits. *)
Definition undec (ds : cstr) : Z := foldl (fun acc c => acc * 10 + digit_val c) 0 ds.

Fixpoint span (f : byte -> bool) (l : cstr) : cstr * cstr :=
  match l with
  | [] => ([], [])
  | c :: l' => if f c then let '(a, b) := span f l' in (c :: a, b) else ([], l)
  end.

Lemma span_app f l : (span f l).1 ++ (span f l).2 = l.
Proof.
  induction l as [|c l IH]; simpl; [done|]. destruct (f c); [|done].
  destruct (span f l) as [a b]. simpl in *. by rewrite IH.
Qed.

Lemma span_all f a b :
  Forall (fun c => f c = true) a -> match b with [] => True | c :: _ => f c = false end ->
  span f (a ++ b) = (a, b).
Proof.
  induction 1 as [|c a Hc Ha IH]; intros Hb; simpl.
  - destruct b as [|c b]; [done|]. simpl. by rewrite Hb.
  - rewrite Hc, IH by done. done.
Qed.

Lemma span_forall f l : Forall (fun c => f c = true) (span f l).1.
Proof.
  induction l as [|c l IH]; simpl; [constructor|]. destruct (f c) eqn:E; [|constructor].
  destruct (span f l) as [a b]. by constructor.
Qed.

Lemma undec_snoc ds c : undec (ds ++ [c]) = undec ds * 10 + digit_val c.
Proof. unfold undec. by rewrite foldl_app. Qed.

Lemma log2_div10 n : 10 <= n -> Z.log2 (n / 10) < Z.log2 n.
Proof.
  intros Hn. apply Z.log2_lt_pow2; [apply Z.div_str_pos; lia|].
  pose proof (Z.log2_spec n ltac:(lia)) as [_ H]. rewrite Z.pow_succ_r in H by apply Z.log2_nonneg.
  apply Z.div_lt_upper_bound; lia.
Qed.

Lemma dec_fuel_spec fuel n :
  0 <= n -> Z.log2 n < Z.of_nat fuel ->
  undec (dec_fuel fuel n) = n /\ Forall (fun c => is_digit c = true) (dec_fuel fuel n) /\
  dec_fuel fuel n <> [] /\ (0 < n -> match dec_fuel fuel n with c :: _ => 0 < digit_val c | [] => False end).
Proof.
  revert n. induction fuel as [|fuel IH]; intros n Hn Hf.
  { pose proof (Z.log2_nonneg n). lia. }
  simpl. destruct (Z.ltb_spec n 10) as [H10|H10].
  - destruct (digit_char_spec n) as [H1 H2]; [lia|]. split_and!; [|by repeat constructor|done|].
    + unfold undec. simpl. lia.
    + intros. lia.
  - pose proof (log2_div10 n H10). pose proof (Z.div_pos n 10 ltac:(lia) ltac:(lia)).
    destruct (IH (n / 10)) as (H1 & H2 & H3 & H4); [done | lia|].
    destruct (digit_char_spec (n mod 10)) as [D1 D2]; [apply Z.mod_pos_bound; lia|].
    rewrite undec_snoc, H1, D2. pose proof (Z.div_mod n 10 ltac:(lia)). split_and!; [lia| | |].
    + apply Forall_app. split; [done | by repeat constructor].
    + by destruct (dec_fuel fuel (n / 10)).
    + intros _. assert (0 < n / 10) by (apply Z.div_str_pos; lia).
      destruct (dec_fuel fuel (n / 10)); [done|]. simpl. by apply H4.
Qed.

Lemma dec_nonneg_spec n :
  0 <= n ->
  undec (dec_nonneg n) = n /\ Forall (fun c => is_digit c = true) (dec_nonneg n) /\
  dec_nonneg n <> [] /\
  (0 < n -> match dec_nonneg n with c :: _ => 0 < digit_val c | [] => False end).
Proof.
  intros Hn. apply dec_fuel_spec; [done|]. pose proof (Z.log2_nonneg n). lia.
Qed.

Lemma undec_dec n : 0 <= n -> undec (dec_nonneg n) = n.
Proof. intros Hn. by apply dec_nonneg_spec. Qed.

(** [std::stoul (s)] in base 10: leading white space, an optional sign (a
    negative number wraps around), then digits; what follows is ignored.
    [None] is an exception: no digits, or a value that does not fit. *)
Definition stoul (s : cstr) : option Z :=
  let '(_, s) := span is_space s in
  let '(neg, s) := match s with
                   | c :: s' => if beq c (zb 45) then (true, s')
                                else if beq c (zb 43) then (false, s') else (false, s)
                   | [] => (false, s)
                   end in
  let '(ds, _) := span is_digit s in
  match ds with
  | [] => None
  | _ => let v := undec ds in
         if 2 ^ 64 <=? v then None else Some (if neg then u64 (- v) else v)
  end.

Lemma digit_not_space c : is_digit c = true -> is_space c = false.
Proof.
  intros H. apply is_digit_range in H. unfold digit_val in H. unfold is_space.
  apply orb_false_iff. split; [apply Z.eqb_neq | apply andb_false_iff; right; apply Z.leb_gt]; lia.
Qed.

Lemma stoul_dec n : 0 <= n < 2 ^ 64 -> stoul (dec_nonneg n) = Some n.
Proof.
  intros Hn. destruct (dec_nonneg_spec n) as (H1 & H2 & H3 & _); [lia|]. unfold stoul.
  assert (Hs : span is_space (dec_nonneg n) = ([], dec_nonneg n)).
  { destruct (dec_nonneg n) as [|c ds]; [done|]. apply Forall_cons in H2 as [Hc _].
    simpl. by rewrite digit_not_space. }
  rewrite Hs. assert (Hsign : forall A (x y z : A) c, is_digit c = true ->
    (if beq c (zb 45) then x else if beq c (zb 43) then y else z) = z).
  { intros A x y z c Hc. apply is_digit_range in Hc. unfold digit_val in Hc. unfold beq.
    change (bz (zb 45)) with 45. change (bz (zb 43)) with 43.
    destruct (Z.eqb_spec (bz c) 45); [lia|]. destruct (Z.eqb_spec (bz c) 43); [lia|done]. }
  assert (Hd : span is_digit (dec_nonneg n) = (dec_nonneg n, [])).
  { rewrite <- (app_nil_r (dec_nonneg n)) at 1. by apply span_all. }
  destruct (dec_nonneg n) as [|c ds] eqn:E; [done|].
  apply Forall_cons in H2 as [Hc _]. rewrite Hsign by done. rewrite Hd.
  rewrite H1. destruct (Z.leb_spec (2 ^ 64) n); [lia | done].
Qed.

(** ** Searching *)

(** [s.find (c)] and [s.find_first_of (set)] from the start: [None] is
    [npos]. *)
Fixpoint find_if (f : byte -> bool) (s : cstr) : option nat :=
  match s with
  | [] => None
  | c :: s' => if f c then Some O else option_map S (find_if f s')
  end.

Definition find_char (c : byte) (s : cstr) : option nat := find_if (beq c) s.

(** [s.compare (0, n, prefix) == 0]. *)
Fixpoint starts_with (prefix s : cstr) : bool :=
  match prefix, s with
  | [], _ => true
  | c :: p', d :: s' => beq c d && starts_with p' s'
  | _ :: _, [] => false
  end.

(** [s.find (needle)]: the position of its first occurrence. *)
Fixpoint find_str (needle s : cstr) : option nat :=
  if starts_with needle s then Some O
  else match s with [] => None | _ :: s' => option_map S (find_str needle s') end.

Lemma find_if_app f a b :
  Forall (fun c => f c = false) a ->
  find_if f (a ++ b) = option_map (fun n => length a + n)%nat (find_if f b).
Proof.
  induction 1 as [|c a Hc Ha IH]; simpl; [by destruct (find_if f b)|].
  rewrite Hc, IH. by destruct (find_if f b).
Qed.

Lemma find_if_none f s : find_if f s = None <-> Forall (fun c => f c = false) s.
Proof.
  induction s as [|c s IH]; simpl; [split; [constructor | done]|].
  rewrite Forall_cons, <- IH. destruct (f c); [by split; [|intros [? _]]|].
  by destruct (find_if f s); split; [|intros [_ ?]| |].
Qed.

Lemma find_if_some f s n :
  find_if f s = Some n ->
  (n < length s)%nat /\ Forall (fun c => f c = false) (take n s) /\
  exists c, s !! n = Some c /\ f c = true.
Proof.
  revert n. induction s as [|c s IH]; intros n; simpl; [done|].
  destruct (f c) eqn:E; [intros [= <-]; simpl; split_and!; [lia | constructor | by exists c]|].
  destruct (find_if f s) as [m|]; [|done]. intros [= <-].
  destruct (IH m eq_refl) as (H1 & H2 & H3). simpl. split_and!; [lia | by constructor | done].
Qed.

Lemma starts_with_app prefix s : starts_with prefix (prefix ++ s) = true.
Proof. induction prefix as [|c p IH]; simpl; [done|]. by rewrite beq_refl. Qed.

Lemma starts_with_spec prefix s : starts_with prefix s = true <-> exists rest, s = prefix ++ rest.
Proof.
  split; [|intros [rest ->]; apply starts_with_app].
  revert s. induction prefix as [|c p IH]; intros s; simpl; [by exists s|].
  destruct s as [|d s]; [done|]. intros [E H]%andb_prop. apply beq_eq in E as <-.
  destruct (IH s H) as [rest ->]. by exists rest.
Qed.

(** [s.find (c, pos)], [s.find (needle, pos)]. *)
Definition find_if_from (f : byte -> bool) (s : cstr) (pos : nat) : option nat :=
  option_map (Nat.add pos) (find_if f (drop pos s)).
Definition find_char_from (c : byte) := find_if_from (beq c).
Definition find_str_from (needle s : cstr) (pos : nat) : option nat :=
  if (length s <? pos)%nat then None else option_map (Nat.add pos) (find_str needle (drop pos s)).

(** [s.substr (pos, n)] with [n] up to a found position, or to the end. *)
Definition substr_to (pos : nat) (stop : option nat) (s : cstr) : cstr :=
  match stop with Some e => sub pos (e - pos) s | None => drop pos s end.

(** The pieces of [s] between the separators [c], the way a [getline] loop or
    a [find]-and-advance loop visits them: an empty piece at the end is not
    visited. [cur] is the piece being read. *)
Fixpoint getlines (c : byte) (s cur : cstr) : list cstr :=
  match s with
  | [] => match cur with [] => [] | _ => [cur] end
  | x :: s => if beq x c then cur :: getlines c s [] else getlines c s (cur ++ [x])
  end.

(** Erasing characters at the front and at the back while a test holds. *)
Definition trim_front (f : byte -> bool) (s : cstr) : cstr := (span f s).2.
Definition trim_back (f : byte -> bool) (s : cstr) : cstr := reverse (trim_front f (reverse s)).

Definition ends_with (s suffix : cstr) : bool :=
  (length suffix <=? length s)%nat && bool_decide (drop (length s - length suffix) s = suffix).

(** [s.rfind (c)], [s.find_last_of (set)]. *)
Definition rfind_if (f : byte -> bool) (s : cstr) : option nat :=
  option_map (fun i => length s - 1 - i)%nat (find_if f (reverse s)).

(** [strtol (s)] in base 10 without the range check: [None] when there are no
    digits. *)
Definition strtol (s : cstr) : option Z :=
  let s := trim_front is_space s in
  let '(neg, s) := match s with
                   | c :: s' => if beq c (zb 45) then (true, s')
                                else if beq c (zb 43) then (false, s') else (false, s)
                   | [] => (false, s)
                   end in
  match (span is_digit s).1 with
  | [] => None
  | ds => Some (if neg then - undec ds else undec ds)
  end.

(** [std::stoi (s)]: [None] is an exception. *)
Definition stoi (s : cstr) : option Z :=
  match strtol s with
  | Some v => if (- 2 ^ 31 <=? v) && (v <? 2 ^ 31) then Some v else None
  | None => None
  end.

(** [std::atoi (s)]: the [long] result of [strtol], saturated, cut to [int]. *)
Definition atoi (s : cstr) : Z :=
  match strtol s with
  | Some v => s32 (Z.max (- 2 ^ 63) (Z.min v (2 ^ 63 - 1)))
  | None => 0
  end.

Lemma getlines_plain c s cur :
  Forall (fun x => beq x c = false) s -> getlines c s cur = match cur ++ s with [] => [] | l => [l] end.
Proof.
  revert cur. induction s as [|x s IH]; intros cur; cbn [getlines];
    [rewrite app_nil_r; by destruct cur|].
  intros [-> Hs]%Forall_cons. rewrite IH, <- app_assoc by done. done.
Qed.

Lemma getlines_sep c s rest cur :
  Forall (fun x => beq x c = false) s ->
  getlines c (s ++ c :: rest) cur = (cur ++ s) :: getlines c rest [].
Proof.
  revert cur. induction s as [|x s IH]; intros cur; simpl.
  - rewrite beq_refl, app_nil_r. done.
  - intros [-> Hs]%Forall_cons. rewrite IH, <- app_assoc by done. done.
Qed.

Lemma trim_front_id f s :
  match s with [] => True | c :: _ => f c = false end -> trim_front f s = s.
Proof. destruct s as [|c s]; [done|]. unfold trim_front. simpl. by intros ->. Qed.

Lemma trim_back_id f s :
  match last s with None => True | Some c => f c = false end -> trim_back f s = s.
Proof.
  intros H. unfold trim_back. rewrite trim_front_id; [apply reverse_involutive|].
  rewrite <- head_reverse in H. by destruct (reverse s).
Qed.

Lemma beq_sym a b : beq a b = beq b a.
Proof. unfold beq. apply Z.eqb_sym. Qed.

Lemma find_char_app c a b :
  Forall (fun x => beq x c = false) a -> find_char c (a ++ c :: b) = Some (length a).
Proof.
  intros H. unfold find_char. rewrite find_if_app.
  - simpl. rewrite beq_refl. simpl. f_equal. lia.
  - eapply Forall_impl; [exact H|]. intros x Hx. by rewrite beq_sym.
Qed.

Lemma find_char_none c a : Forall (fun x => beq x c = false) a -> find_char c a = None.
Proof.
  intros H. apply find_if_none. eapply Forall_impl; [exact H|]. intros x Hx. by rewrite beq_sym.
Qed.

Lemma strtol_dec n : 0 <= n -> strtol (dec_nonneg n) = Some n.
Proof.
  intros Hn. destruct (dec_nonneg_spec n) as (H1 & H2 & H3 & _); [lia|]. unfold strtol.
  assert (Hd : span is_digit (dec_nonneg n) = (dec_nonneg n, [])).
  { rewrite <- (app_nil_r (dec_nonneg n)) at 1. by apply span_all. }
  rewrite trim_front_id.
  - destruct (dec_nonneg n) as [|c ds] eqn:E; [done|]. apply Forall_cons in H2 as [Hc _].
    apply is_digit_range in Hc. unfold digit_val in Hc. unfold beq.
    change (bz (zb 45)) with 45. change (bz (zb 43)) with 43.
    destruct (Z.eqb_spec (bz c) 45); [lia|]. destruct (Z.eqb_spec (bz c) 43); [lia|].
    rewrite Hd. cbn [fst]. by rewrite H1.
  - destruct (dec_nonneg n) as [|c ds]; [done|]. apply Forall_cons in H2 as [Hc _].
    by apply digit_not_space.
Qed.

(** The first occurrence of a string. *)
Lemma find_str_some needle s i :
  find_str needle s = Some i ->
  starts_with needle (drop i s) = true /\ forall j, (j < i)%nat -> starts_with needle (drop j s) = false.
Proof.
  revert i. induction s as [|c s IH]; intros i; cbn [find_str].
  - destruct (starts_with needle []) eqn:E; [|done]. intros [= <-]. split; [done|]. intros. lia.
  - destruct (starts_with needle (c :: s)) eqn:E.
    + intros [= <-]. split; [done|]. intros. lia.
    + destruct (find_str needle s) as [i'|]; [|done]. intros [= <-].
      destruct (IH i' eq_refl) as [H1 H2]. split; [done|]. intros [|j] Hj; [done|]. apply H2. lia.
Qed.

Lemma find_str_none needle s :
  find_str needle s = None -> forall j, (j <= length s)%nat -> starts_with needle (drop j s) = false.
Proof.
  induction s as [|c s IH]; cbn [find_str].
  - destruct (starts_with needle []) eqn:E; [done|]. intros _ [|j] Hj; [done | simpl in Hj; lia].
  - destruct (starts_with needle (c :: s)) eqn:E; [done|].
    destruct (find_str needle s); [done|]. intros _ [|j] Hj; [done|]. apply IH; [done|]. simpl in Hj. lia.
Qed.

Lemma find_str_from_spec needle s pos :
  (pos <= length s)%nat ->
  match find_str_from needle s pos with
  | Some i => (pos <= i)%nat /\ starts_with needle (drop i s) = true /\
              forall j, (pos <= j < i)%nat -> starts_with needle (drop j s) = false
  | None => forall j, (pos <= j <= length s)%nat -> starts_with needle (drop j s) = false
  end.
Proof.
  intros Hp. unfold find_str_from. rewrite (proj2 (Nat.ltb_ge _ _)) by done.
  destruct (find_str needle (drop pos s)) as [i|] eqn:E; simpl.
  - apply find_str_some in E as [H1 H2]. rewrite drop_drop in H1. split; [lia|]. split; [done|].
    intros j Hj. specialize (H2 (j - pos)%nat). rewrite drop_drop in H2.
    replace (pos + (j - pos))%nat with j in H2 by lia. apply H2. lia.
  - intros j Hj. pose proof (find_str_none _ _ E (j - pos)) as H. rewrite drop_drop in H.
    replace (pos + (j - pos))%nat with j in H by lia. apply H. rewrite length_drop. lia.
Qed.

Lemma starts_with_length p s : starts_with p s = true -> (length p <= length s)%nat.
Proof. intros [r ->]%starts_with_spec. rewrite length_app. lia. Qed.

(** Two texts that agree up to a separator neither part contains. *)
Lemma app_sep_inj (c : byte) a b x y :
  Forall (fun d => beq d c = false) a -> Forall (fun d => beq d c = false) b ->
  a ++ c :: x = b ++ c :: y -> a = b /\ x = y.
Proof.
  revert b. induction a as [|d a IH]; intros [|e b] Ha Hb H; simpl in H.
  - by injection H.
  - injection H as -> _. apply Forall_cons in Hb as [Hb _]. by rewrite beq_refl in Hb.
  - injection H as <- _. apply Forall_cons in Ha as [Ha _]. by rewrite beq_refl in Ha.
  - injection H as <- H. apply Forall_cons in Ha as [_ Ha]. apply Forall_cons in Hb as [_ Hb].
    by destruct (IH b Ha Hb H) as [-> ->].
Qed.
