(* ===== verification/Double.v ===== *)
(** [double]: IEEE-754 binary64 numbers as the Standard Library's
    [spec_float]s at precision 53 and exponent bound 1024, with the two
    conversions the program uses: [strtod], which rounds a decimal number to
    the nearest double, and printing with [precision(17)] ([%.17g]). *)

From S2P Require Import Prelude Text.
From Stdlib Require Export SpecFloat.

Definition prec : Z := 53.
Definition emax : Z := 1024.

Definition double : Type := spec_float.

#[export] Instance double_eq_dec : EqDecision double.
Proof. unfold EqDecision, Decision. decide equality; apply Bool.bool_dec || apply Z.eq_dec || apply Pos.eq_dec. Defined.

(** The double nearest to [m * 2 ^ e]. *)
Definition round (neg : bool) (m e : Z) : double :=
  binary_normalize prec emax (if neg then - m else m) e neg.

(** The double nearest to [m / d], for [0 <= m] and [0 < d]: the quotient is
    taken to at least 55 bits, and a last bit records whether it is exact. *)
Definition round_quot (neg : bool) (m d : Z) : double :=
  let s := Z.max 0 (Z.log2 d - Z.log2 m + 56) in
  let q := (m * 2 ^ s) / d in
  let sticky := if (m * 2 ^ s) mod d =? 0 then 0 else 1 in
  round neg (2 * q + sticky) (- s - 1).

(** Whether a number is too small to be normalized: below [2 ^ -1022]. *)
Definition subnormal (x : double) : bool :=
  match x with
  | S754_zero _ => true
  | S754_finite _ m e => Z.log2 (Zpos m) + e <? -1022
  | _ => false
  end.

(** The decimal number [mant * 10 ^ ex], with the exceptions of [std::stod]:
    a result out of range (too large, or inexact and too small). *)
Definition decimal (neg : bool) (mant ex : Z) : option double :=
  if mant =? 0 then Some (S754_zero neg)
  else
    let x := if 0 <=? ex then round neg (mant * 10 ^ ex) 0 else round_quot neg mant (10 ^ (- ex)) in
    let exact := match x with
                 | S754_finite _ m e =>
                     let num := mant * 10 ^ Z.max 0 ex * 2 ^ Z.max 0 (- e) in
                     let den := 10 ^ Z.max 0 (- ex) * 2 ^ Z.max 0 e in
                     num =? Zpos m * den
                 | _ => false
                 end in
    match x with
    | S754_infinity _ => None
    | _ => if subnormal x && negb exact then None else Some x
    end.

(** [std::stod] on a token that starts with a digit, a sign or a point: the
    longest prefix of the form [-]digits[.digits][e[+-]digits]; [None] is an
    exception. *)
Definition stod (s : cstr) : option double :=
  let '(neg, s) := match s with
                   | c :: s' => if beq c (zb 45) then (true, s') else (false, s)
                   | [] => (false, s)
                   end in
  let '(ip, s) := span is_digit s in
  let '(fp, s) := match s with
                  | c :: s' => if beq c (zb 46) then span is_digit s' else ([], s)
                  | [] => ([], s)
                  end in
  match ip ++ fp with
  | [] => None
  | ds =>
      let ex := match s with
                | c :: s' =>
                    if beq c (zb 101) || beq c (zb 69) then
                      let '(eneg, s') := match s' with
                                         | c :: s'' => if beq c (zb 45) then (true, s'')
                                                       else if beq c (zb 43) then (false, s'')
                                                       else (false, s')
                                         | [] => (false, s')
                                         end in
                      let v := undec (span is_digit s').1 in
                      if eneg then - v else v
                    else 0
                | [] => 0
                end in
      decimal neg (undec ds) (ex - Z.of_nat (length fp))
  end.

(** ** Integral values *)

(** The value truncated towards zero; [None] for infinities and NaN. *)
Definition trunc (x : double) : option Z :=
  match x with
  | S754_zero _ => Some 0
  | S754_finite neg m e =>
      let a := if 0 <=? e then Zpos m * 2 ^ e else Zpos m / 2 ^ (- e) in
      Some (if neg then - a else a)
  | _ => None
  end.

Definition is_integral (x : double) : bool :=
  match x with
  | S754_zero _ => true
  | S754_finite _ m e => if 0 <=? e then true else Zpos m mod 2 ^ (- e) =? 0
  | _ => false
  end.

(** ** Printing with 17 significant digits *)

Definition strip_zeros (ds : cstr) : cstr :=
  reverse ((fix go l := match l with
                        | c :: l' => if beq c (zb 48) then go l' else l
                        | [] => []
                        end) (reverse ds)).

(** Decimal digits of [num / den], rounded half to even. *)
Definition div_round (num den : Z) : Z :=
  let q := num / den in
  let r := 2 * (num mod den) in
  if (r <? den) || ((r =? den) && Z.even q) then q else q + 1.

(** The least [x] with [num / den < 10 ^ (x + 1)], that is the decimal
    exponent, by search from an estimate below it. *)
Fixpoint dec_exponent (fuel : nat) (num den x : Z) : Z :=
  match fuel with
  | O => x
  | S fuel =>
      if num * 10 ^ Z.max 0 (- (x + 1)) <? den * 10 ^ Z.max 0 (x + 1) then x
      else dec_exponent fuel num den (x + 1)
  end.

Definition kDigits : Z := 17.

(** The 17 digits as an integer and the decimal exponent of the first. *)
Definition digits17 (m : positive) (e : Z) : Z * Z :=
  let num := Zpos m * 2 ^ Z.max 0 e in
  let den := 2 ^ Z.max 0 (- e) in
  let est := (Z.log2 (Zpos m) + e) * 30103 / 100000 - 1 in
  let x := dec_exponent 4 num den est in
  let d := div_round (num * 10 ^ Z.max 0 (kDigits - 1 - x)) (den * 10 ^ Z.max 0 (x - (kDigits - 1))) in
  if d =? 10 ^ kDigits then (10 ^ (kDigits - 1), x + 1) else (d, x).

Definition point : byte := zb 46.

Definition print17 (x : double) : cstr :=
  match x with
  | S754_nan => str "nan"
  | S754_infinity neg => if neg then str "-inf" else str "inf"
  | S754_zero neg => if neg then str "-0" else str "0"
  | S754_finite neg m e =>
      let '(d, x) := digits17 m e in
      let ds := dec_nonneg d in
      let body :=
        if (x <? -4) || (kDigits <=? x) then
          let frac := strip_zeros (tail ds) in
          let ex := dec_nonneg (Z.abs x) in
          take 1 ds ++ (match frac with [] => [] | _ => point :: frac end) ++ str "e" ++
          (if x <? 0 then str "-" else str "+") ++ (if (length ex =? 1)%nat then str "0" else []) ++ ex
        else if x <? 0 then
          str "0." ++ replicate (Z.to_nat (- x - 1)) (zb 48) ++ strip_zeros ds
        else
          let frac := strip_zeros (drop (Z.to_nat x + 1) ds) in
          take (Z.to_nat x + 1) ds ++ (match frac with [] => [] | _ => point :: frac end) in
      (if neg then str "-" else []) ++ body
  end.

(** ** Integers are represented exactly *)

(** The double of an integer: [static_cast<double>]. *)
Definition of_int (z : Z) : double := round (z <? 0) (Z.abs z) 0.

Lemma digits2_log2 m : Zpos (digits2_pos m) = Z.log2 (Zpos m) + 1.
Proof.
  induction m as [m IH|m IH|]; cbn [digits2_pos]; [| |done].
  - rewrite Pos2Z.inj_succ, IH. change (Zpos m~1) with (2 * Zpos m + 1).
    rewrite Z.log2_succ_double by lia. lia.
  - rewrite Pos2Z.inj_succ, IH. change (Zpos m~0) with (2 * Zpos m).
    rewrite Z.log2_double by lia. lia.
Qed.

Lemma iter_xO m k : Zpos (Pos.iter xO m k) = Zpos m * 2 ^ Zpos k.
Proof.
  induction k as [|k IH] using Pos.peano_ind; [simpl; lia|].
  rewrite Pos.iter_succ. change (Zpos (Pos.iter xO m k)~0) with (2 * Zpos (Pos.iter xO m k)).
  rewrite IH, Pos2Z.inj_succ, Z.pow_succ_r by lia. lia.
Qed.

Lemma digits2_iter m k : Zpos (digits2_pos (Pos.iter xO m k)) = Zpos (digits2_pos m) + Zpos k.
Proof.
  induction k as [|k IH] using Pos.peano_ind; [simpl; lia|].
  rewrite Pos.iter_succ. cbn [digits2_pos]. rewrite Pos2Z.inj_succ, IH. lia.
Qed.

(** A mantissa of 53 digits is left alone by the rounding. *)
Lemma round_aux_exact s m e :
  Zpos (digits2_pos m) = 53 -> -1074 <= e <= 971 ->
  binary_round_aux prec emax s (Zpos m) e loc_Exact = S754_finite s m e.
Proof.
  intros Hd He. unfold binary_round_aux, shr_fexp.
  assert (Hf : fexp prec emax (Zdigits2 (Zpos m) + e) - e = 0).
  { unfold fexp, emin, prec, emax, Zdigits2. rewrite Hd. lia. }
  rewrite Hf. cbn [shr shr_record_of_loc shr_m loc_of_shr_record round_nearest_even].
  rewrite Hf. cbn [shr shr_record_of_loc shr_m]. unfold prec, emax.
  destruct (Z.leb_spec e (1024 - 53)); [done | lia].
Qed.

Lemma round_int neg m :
  Zpos m < 2 ^ 53 ->
  exists m' k, 0 <= k <= 52 /\ Zpos m' = Zpos m * 2 ^ k /\ Z.log2 (Zpos m') = 52 /\
               round neg (Zpos m) 0 = S754_finite neg m' (- k).
Proof.
  intros Hm. pose proof (digits2_log2 m) as Hd.
  pose proof (Z.log2_nonneg (Zpos m)).
  assert (Hl : Z.log2 (Zpos m) < 53) by (apply Z.log2_lt_pow2; lia).
  assert (Hr : round neg (Zpos m) 0 = binary_round prec emax neg m 0)
    by (unfold round; by destruct neg).
  rewrite Hr. unfold binary_round.
  assert (Hf : fexp prec emax (Zpos (digits2_pos m) + 0) = Zpos (digits2_pos m) - 53).
  { unfold fexp, emin, prec, emax. lia. }
  rewrite Hf. unfold shl_align. rewrite Z.sub_0_r.
  destruct (Zpos (digits2_pos m) - 53) as [|k|k] eqn:Ek; [|lia|].
  - exists m, 0. split_and!; [lia | lia | lia | lia |]. apply round_aux_exact; lia.
  - exists (Pos.iter xO m k), (Zpos k). pose proof (digits2_iter m k) as Hi.
    pose proof (digits2_log2 (Pos.iter xO m k)). split_and!; [lia | lia | apply iter_xO | lia |].
    apply round_aux_exact; lia.
Qed.

(** The integer [z] and its double: the double truncates to [z], is integral,
    and is what [std::stod] reads from the digits of [z]. *)
Lemma of_int_exact z :
  Z.abs z < 2 ^ 53 ->
  trunc (of_int z) = Some z /\ is_integral (of_int z) = true /\
  decimal (z <? 0) (Z.abs z) 0 = Some (of_int z).
Proof.
  intros Hz. unfold decimal. destruct (Z.eqb_spec (Z.abs z) 0) as [H0|H0].
  { assert (z = 0) as -> by lia. done. }
  unfold of_int. cbn [Z.leb Z.compare]. rewrite Z.pow_0_r, Z.mul_1_r.
  assert (Hp : Z.abs z = Zpos (Z.to_pos (Z.abs z))) by (rewrite Z2Pos.id by lia; done).
  destruct (round_int (z <? 0) (Z.to_pos (Z.abs z))) as (m & k & Hk & Hm & Hlog & Hr); [lia|].
  rewrite <- Hp in Hm, Hr. rewrite Hr. cbn [trunc is_integral subnormal].
  assert (Hdiv : Zpos m / 2 ^ k = Z.abs z) by (rewrite Hm; apply Z.div_mul; lia).
  assert (Hmod : Zpos m mod 2 ^ k = 0) by (rewrite Hm; apply Z.mod_mul; lia).
  rewrite Hlog. destruct (Z.ltb_spec (52 + - k) (-1022)); [lia|]. cbn [andb].
  rewrite Z.opp_involutive, Hdiv, Hmod. split_and!; [| |done].
  - destruct (Z.leb_spec 0 (- k)).
    + replace (- k) with 0 by lia. rewrite Z.pow_0_r, Z.mul_1_r, Hm.
      replace k with 0 by lia. rewrite Z.pow_0_r, Z.mul_1_r. destruct (Z.ltb_spec z 0); f_equal; lia.
    + destruct (Z.ltb_spec z 0); f_equal; lia.
  - by destruct (0 <=? - k).
Qed.

(** ** Rounding to a neighbour *)

Lemma iter_pos_iter {A} (f : A -> A) n x : iter_pos f n x = Pos.iter f x n.
Proof.
  revert x. induction n as [n IH|n IH|]; intros x; cbn [iter_pos Pos.iter]; [|by rewrite !IH|done].
  by rewrite !IH, <- !Pos.iter_swap.
Qed.

Lemma shr_1_half r : 0 <= shr_m r -> shr_m (shr_1 r) = shr_m r / 2.
Proof.
  destruct r as [[|[m|m|]|m] b c]; intros H; cbn [shr_1 shr_m] in *; [done | | | done | lia].
  - change (Zpos m~1) with (2 * Zpos m + 1). apply (Z.div_unique _ _ _ 1); lia.
  - change (Zpos m~0) with (2 * Zpos m). by rewrite Z.mul_comm, Z.div_mul by lia.
Qed.

Lemma shr_div r e n : 0 <= shr_m r -> 0 <= n -> shr_m (shr r e n).1 = shr_m r / 2 ^ n /\ (shr r e n).2 = e + n.
Proof.
  intros Hr Hn. destruct n as [|p|p]; cbn [shr fst snd]; [split; [by rewrite Z.div_1_r | lia] | split; [|done] | lia].
  rewrite iter_pos_iter. induction p as [|p IH] using Pos.peano_ind; [by apply shr_1_half|].
  rewrite Pos.iter_succ, Pos2Z.inj_succ, Z.pow_succ_r by lia. rewrite shr_1_half; rewrite IH by lia; [|apply Z.div_pos; lia].
  rewrite Z.div_div by lia. f_equal. lia.
Qed.

Lemma shr_exact m e n : 0 <= m -> 0 <= n -> shr {| shr_m := m * 2 ^ n; shr_r := false; shr_s := false |} e n = ({| shr_m := m; shr_r := false; shr_s := false |}, e + n).
Proof.
  intros Hm Hn. destruct n as [|p|p]; cbn [shr]; [f_equal; [f_equal; lia | lia] | f_equal | lia].
  rewrite iter_pos_iter. revert m Hm. induction p as [|p IH] using Pos.peano_ind; intros m Hm.
  - cbn [Pos.iter]. destruct m as [|m|m]; [done | | lia]. change (Zpos m * 2 ^ 1) with (Zpos m * 2). by rewrite Z.mul_comm.
  - rewrite Pos.iter_succ, Pos2Z.inj_succ, Z.pow_succ_r, Z.mul_assoc by lia. rewrite IH by lia.
    destruct m as [|m|m]; [done | | lia]. by rewrite Z.mul_comm.
Qed.

Lemma fexp_normal d e : -1074 <= d - 53 -> fexp prec emax d - e = d - 53 - e.
Proof. unfold fexp, emin, prec, emax. lia. Qed.

Lemma digits_log2 m : 0 < m -> Zdigits2 m = Z.log2 m + 1.
Proof. destruct m as [|p|p]; [lia | intros _; apply digits2_log2 | lia]. Qed.

(** The last step of a rounding. *)
Definition round_end (neg : bool) (mr e : Z) : double :=
  let '(r, e) := shr_fexp prec emax mr e loc_Exact in
  match shr_m r with
  | Z0 => S754_zero neg
  | Zpos m => if e <=? emax - prec then S754_finite neg m e else S754_infinity neg
  | _ => S754_nan
  end.

Lemma round_end_normal neg m e : Z.log2 (Zpos m) = 52 -> -1074 <= e <= 971 -> round_end neg (Zpos m) e = S754_finite neg m e.
Proof.
  intros Hm He. unfold round_end, shr_fexp. rewrite digits_log2, fexp_normal by lia. rewrite Hm.
  replace (52 + 1 + e - 53 - e) with 0 by lia. cbn. unfold prec, emax. by destruct (Z.leb_spec e (1024 - 53)); [|lia].
Qed.

Lemma round_end_power neg e : -1075 <= e <= 970 -> round_end neg (2 ^ 53) e = S754_finite neg (2 ^ 52) (e + 1).
Proof.
  intros He. unfold round_end, shr_fexp. change (Zdigits2 (2 ^ 53)) with 54. rewrite fexp_normal by lia.
  replace (54 + e - 53 - e) with 1 by lia. cbn. unfold prec, emax.
  by destruct (Z.leb_spec (e + 1) (1024 - 53)); [|lia].
Qed.

(** The rounding of a number between [M * 2 ^ e] and its successor is one of the
    two neighbours that a mantissa of 53 digits has. *)
Lemma round_aux_near neg M e l :
  let s := Z.log2 (Zpos M) - 52 in
  0 <= s -> -1074 <= e + s <= 970 ->
  exists m e', binary_round_aux prec emax neg (Zpos M) e l = S754_finite neg m e' /\ Z.log2 (Zpos m) = 52 /\
    e + s <= e' <= e + s + 1 /\ exists d, (d = 0 \/ d = 1) /\ Zpos m * 2 ^ (e' - e) = 2 ^ s * (Zpos M / 2 ^ s + d).
Proof.
  intros s Hs He. unfold binary_round_aux, shr_fexp. rewrite digits_log2, fexp_normal by lia.
  replace (Z.log2 (Zpos M) + 1 + e - 53 - e) with s by lia.
  destruct (shr_div (shr_record_of_loc (Zpos M) l) e s) as [H1 H2]; [by destruct l as [|[]] | done|].
  destruct (shr (shr_record_of_loc (Zpos M) l) e s) as [r e1]. cbn [fst snd] in H1, H2. subst e1.
  assert (H0 : shr_m (shr_record_of_loc (Zpos M) l) = Zpos M) by by destruct l as [|[]]. rewrite H0 in H1. clear H0.
  assert (Hm1 : 2 ^ 52 <= Zpos M / 2 ^ s < 2 ^ 53).
  { destruct (Z.log2_spec (Zpos M)) as [L1 L2]; [lia|]. replace (Z.log2 (Zpos M)) with (52 + s) in * by lia.
    split; [apply Z.div_le_lower_bound | apply Z.div_lt_upper_bound]; rewrite <- ?Z.pow_add_r by lia; [lia | | lia |].
    - by replace (s + 52) with (52 + s) by lia.
    - by replace (s + 53) with (Z.succ (52 + s)) by lia. }
  set (mr := round_nearest_even (shr_m r) (loc_of_shr_record r)).
  assert (Hd : exists d, (d = 0 \/ d = 1) /\ mr = Zpos M / 2 ^ s + d).
  { subst mr. rewrite <- H1. unfold round_nearest_even. destruct (loc_of_shr_record r) as [|[]]; [| destruct (Z.even _) | |];
      (exists 0; split; [by left | lia]) || (exists 1; split; [by right | lia]). }
  destruct Hd as (d & Hd & Hmr). change (exists m e', round_end neg mr (e + s) = S754_finite neg m e' /\ Z.log2 (Zpos m) = 52 /\
    e + s <= e' <= e + s + 1 /\ exists d, (d = 0 \/ d = 1) /\ Zpos m * 2 ^ (e' - e) = 2 ^ s * (Zpos M / 2 ^ s + d)).
  clearbody mr. destruct (Z.eq_dec mr (2 ^ 53)) as [E|E].
  - subst mr. rewrite E. rewrite round_end_power by lia. exists (2 ^ 52)%positive, (e + s + 1). split_and!; [done | done | lia | lia |].
    exists d. split; [done|]. rewrite E. replace (e + s + 1 - e) with (s + 1) by lia. rewrite Z.pow_add_r by lia. change (Zpos (2 ^ 52)) with (2 ^ 52). lia.
  - assert (Hr : 2 ^ 52 <= mr < 2 ^ 53) by lia. destruct mr as [|m|m]; [lia | | lia].
    assert (Hl : Z.log2 (Zpos m) = 52) by (apply Z.log2_unique; lia). rewrite round_end_normal by (done || lia).
    exists m, (e + s). split_and!; [done | done | lia | lia |]. exists d. split; [done|]. replace (e + s - e) with s by lia. rewrite <- Hmr. lia.
Qed.

Lemma round_aux_fits neg m e n :
  Z.log2 (Zpos m) = 52 -> 0 <= n -> -1074 <= e + n <= 971 ->
  binary_round_aux prec emax neg (Zpos m * 2 ^ n) e loc_Exact = S754_finite neg m (e + n).
Proof.
  intros Hm Hn He. assert (Hp : 0 < Zpos m * 2 ^ n) by lia. unfold binary_round_aux, shr_fexp.
  assert (Hl : Z.log2 (Zpos m * 2 ^ n) = 52 + n) by (rewrite Z.log2_mul_pow2 by lia; lia).
  rewrite digits_log2, fexp_normal by lia. rewrite Hl. replace (52 + n + 1 + e - 53 - e) with n by lia.
  cbn [shr_record_of_loc]. rewrite shr_exact by lia. cbn [shr_m loc_of_shr_record round_nearest_even].
  exact (round_end_normal neg m (e + n) Hm ltac:(lia)).
Qed.

Lemma floor_keeps z q s c : 0 <= s <= c -> z * 2 ^ c <= q -> z * 2 ^ c <= 2 ^ s * (q / 2 ^ s).
Proof.
  intros Hs Hz. replace c with (s + (c - s)) in * by lia. rewrite Z.pow_add_r in * by lia.
  assert (z * 2 ^ (c - s) <= q / 2 ^ s); [apply Z.div_le_lower_bound; lia | nia].
Qed.

Lemma floor_near q s d : 0 <= s -> d = 0 \/ d = 1 -> 2 ^ s * (q / 2 ^ s + d) <= q + 2 ^ s.
Proof. intros Hs Hd. pose proof (Z.mul_div_le q (2 ^ s) ltac:(lia)). nia. Qed.

(** Positive numbers with a mantissa of 53 digits are compared as they should be. *)
Lemma ltb_normal m1 e1 m2 e2 z :
  Z.log2 (Zpos m1) = 52 -> Z.log2 (Zpos m2) = 52 -> z <= e1 -> z <= e2 ->
  SFltb (S754_finite false m1 e1) (S754_finite false m2 e2) = (Zpos m1 * 2 ^ (e1 - z) <? Zpos m2 * 2 ^ (e2 - z)).
Proof.
  intros H1 H2 L1 L2. unfold SFltb, SFcompare. destruct (Z.log2_spec (Zpos m1)) as [A1 A2]; [lia|]. destruct (Z.log2_spec (Zpos m2)) as [B1 B2]; [lia|].
  rewrite H1 in *. rewrite H2 in *. change (Z.succ 52) with 53 in *. change (2 ^ 53) with (2 * 2 ^ 52) in *.
  assert (Hlt : forall ea eb (a b : positive), 2 ^ 52 <= Zpos a < 2 * 2 ^ 52 -> 2 ^ 52 <= Zpos b < 2 * 2 ^ 52 -> z <= ea -> ea < eb ->
    Zpos a * 2 ^ (ea - z) < Zpos b * 2 ^ (eb - z)).
  { intros ea eb a b Ha Hb Hz Hlt. replace (eb - z) with ((ea - z) + 1 + (eb - ea - 1)) by lia. rewrite !Z.pow_add_r by lia.
    pose proof (Z.pow_pos_nonneg 2 (ea - z) ltac:(lia) ltac:(lia)). pose proof (Z.pow_pos_nonneg 2 (eb - ea - 1) ltac:(lia) ltac:(lia)).
    set (x := 2 ^ (ea - z)) in *. set (y := 2 ^ (eb - ea - 1)) in *. change (2 ^ 1) with 2.
    assert (Zpos a * x < 2 * Zpos b * x) by (apply Z.mul_lt_mono_pos_r; lia).
    assert (2 * Zpos b * x * 1 <= 2 * Zpos b * x * y) by (apply Z.mul_le_mono_nonneg_l; lia). lia. }
  destruct (Z.compare_spec e1 e2) as [E|E|E].
  - subst e2. change (Pos.compare_cont Eq m1 m2) with (m1 ?= m2)%positive. pose proof (Z.pow_pos_nonneg 2 (e1 - z) ltac:(lia) ltac:(lia)).
    destruct (Pos.compare_spec m1 m2); symmetry; [apply Z.ltb_ge; subst; lia | apply Z.ltb_lt; nia | apply Z.ltb_ge; nia].
  - symmetry. apply Z.ltb_lt. by apply Hlt.
  - symmetry. apply Z.ltb_ge. apply Z.lt_le_incl. by apply Hlt.
Qed.

(** A positive integer below 2^53, normalized. *)
Lemma of_int_normal z : 0 < z < 2 ^ 53 ->
  exists m k, 0 <= k <= 52 /\ Zpos m = z * 2 ^ k /\ Z.log2 (Zpos m) = 52 /\ of_int z = S754_finite false m (- k).
Proof.
  intros Hz. destruct z as [|z|z]; [lia | | lia]. unfold of_int. cbn [Z.ltb Z.compare Z.abs].
  destruct (round_int false z) as (m & k & Hk & Hm & Hl & Hr); [lia|]. by exists m, k.
Qed.

(** The quotient of two such: an integer number of units 2^e, next to the
    quotient in units. *)
Lemma div_normal mt mn et en :
  Z.log2 (Zpos mt) = 52 -> Z.log2 (Zpos mn) = 52 -> -900 <= et - en <= 900 ->
  let e := et - en - 53 in
  let q := Zpos mt * 2 ^ 53 / Zpos mn in
  exists m e' s d, SFdiv prec emax (S754_finite false mt et) (S754_finite false mn en) = S754_finite false m e' /\
    Z.log2 (Zpos m) = 52 /\ e <= e' <= e + 2 /\ 0 <= s <= 1 /\ 2 ^ 52 <= q /\ (d = 0 \/ d = 1) /\
    Zpos m * 2 ^ (e' - e) = 2 ^ s * (q / 2 ^ s + d).
Proof.
  intros Ht Hn He e q. unfold SFdiv, SFdiv_core_binary. rewrite !digits_log2, Ht, Hn by lia.
  assert (Hf : Z.min (fexp prec emax (52 + 1 + et - (52 + 1 + en))) (et - en) = e) by (unfold fexp, emin, prec, emax, e; lia).
  rewrite Hf. replace (et - en - e) with 53 by lia. rewrite Z.shiftl_mul_pow2 by lia.
  pose proof (Z_div_mod_eq_full (Zpos mt * 2 ^ 53) (Zpos mn)) as Hq. fold q in Hq.
  unfold q, Z.div. destruct (Z.div_eucl (Zpos mt * 2 ^ 53) (Zpos mn)) as [q' r] eqn:Eq.
  assert (Hq' : q = q') by (unfold q, Z.div; by rewrite Eq). clear Eq Hq. subst q'. fold q.
  destruct (Z.log2_spec (Zpos mt)) as [A1 A2]; [lia|]. destruct (Z.log2_spec (Zpos mn)) as [B1 B2]; [lia|].
  rewrite Ht in *. rewrite Hn in *. change (Z.succ 52) with 53 in *.
  assert (Hq : 2 ^ 52 <= q < 2 ^ 54).
  { unfold q. split; [apply Z.div_le_lower_bound; [lia|] | apply Z.div_lt_upper_bound; [lia|]].
    - change (2 ^ 53) with (2 * 2 ^ 52) in *. generalize dependent (2 ^ 52). intros; nia.
    - change (2 ^ 53) with (2 * 2 ^ 52) in *. change (2 ^ 54) with (4 * 2 ^ 52). generalize dependent (2 ^ 52). intros; nia. }
  clearbody q. destruct q as [|M|M]; [lia | | lia].
  assert (Hs : 0 <= Z.log2 (Zpos M) - 52 <= 1).
  { assert (52 <= Z.log2 (Zpos M)) by (apply Z.log2_le_pow2; lia). assert (Z.log2 (Zpos M) < 54) by (apply Z.log2_lt_pow2; lia). lia. }
  destruct (round_aux_near (xorb false false) M e (new_location (Zpos mn) r)) as (m & e' & E & Hl & He' & d & Hd & Hv); [lia | lia|].
  exists m, e', (Z.log2 (Zpos M) - 52), d. rewrite E. split_and!; try done; lia.
Qed.

(** Twice a number. *)
Lemma double_normal m k : Z.log2 (Zpos m) = 52 -> 0 <= k <= 52 ->
  SFmul prec emax (of_int 2) (S754_finite false m (- k)) = S754_finite false m (1 - k).
Proof.
  intros Hm Hk. change (of_int 2) with (S754_finite false (2 ^ 52) (-51)). unfold SFmul. cbn [xorb].
  change (Zpos (2 ^ 52 * m)) with (2 ^ 52 * Zpos m). rewrite Z.mul_comm.
  rewrite (round_aux_fits false m _ 52) by (done || lia). f_equal. lia.
Qed.

(** A half more, rounded and truncated, for a number below 1000. *)
Lemma shl_align_spec m e e' : e' <= e -> Zpos (shl_align m e e').1 = Zpos m * 2 ^ (e - e').
Proof.
  intros H. unfold shl_align. destruct (e' - e) as [|d|d] eqn:E; [|lia|]; cbn [fst].
  - replace (e - e') with 0 by lia. lia.
  - rewrite iter_xO. by replace (e - e') with (Zpos d) by lia.
Qed.

Lemma shl_align_none m e e' : e <= e' -> shl_align m e e' = (m, e).
Proof. intros H. unfold shl_align. destruct (e' - e) as [|d|d] eqn:E; [done | done | lia]. Qed.

Lemma add_half m e :
  let a := Z.max (- e) 53 in
  let M := Zpos m * 2 ^ (a + e) + 2 ^ (a - 1) in
  -900 <= e <= 900 -> Zpos m * 2 ^ (a + e) < 1000 * 2 ^ a ->
  exists s W, trunc (SFadd prec emax (S754_finite false m e) (round_quot false 1 2)) = Some (W / 2 ^ a) /\
    0 <= s <= a - 43 /\ 2 ^ s * (M / 2 ^ s) <= W <= M + 2 ^ s.
Proof.
  intros a M He Hlt. change (round_quot false 1 2) with (S754_finite false (2 ^ 52) (-53)). unfold SFadd.
  assert (Ha : Z.min e (-53) = - a) by lia. rewrite Ha. cbn [cond_Zopp].
  pose proof (shl_align_spec m e (- a) ltac:(lia)) as H1. pose proof (shl_align_spec (2 ^ 52) (-53) (- a) ltac:(lia)) as H2.
  change (Zpos (2 ^ 52)) with (2 ^ 52) in H2. rewrite <- Z.pow_add_r in H2 by lia.
  replace (52 + (-53 - - a)) with (a - 1) in H2 by lia. replace (e - - a) with (a + e) in H1 by lia.
  destruct (shl_align m e (- a)) as [p1 x1]. destruct (shl_align (2 ^ 52) (-53) (- a)) as [p2 x2]. cbn [fst] in *.
  change (Zpos p1 + Zpos p2) with (Zpos (p1 + p2)). cbn [binary_normalize].
  assert (HM : Zpos (p1 + p2) = M) by (rewrite Pos2Z.inj_add, H1, H2; done).
  assert (Hb : 2 ^ 52 <= M < 2 ^ (a + 10)).
  { split; [unfold M; pose proof (Z.pow_le_mono_r 2 52 (a - 1)); lia|]. rewrite Z.pow_add_r by lia. unfold M.
    pose proof (Z.pow_lt_mono_r 2 (a - 1) a ltac:(lia) ltac:(lia) ltac:(lia)). change (2 ^ 10) with 1024. lia. }
  assert (Hl : 52 <= Z.log2 M < a + 10) by (split; [apply Z.log2_le_pow2; lia | apply Z.log2_lt_pow2; lia]).
  unfold binary_round. rewrite digits2_log2, HM. assert (Hf := fexp_normal (Z.log2 M + 1 + - a) (- a) ltac:(lia)).
  rewrite shl_align_none by lia. rewrite <- HM in Hl.
  destruct (round_aux_near false (p1 + p2) (- a) loc_Exact) as (m2 & e2 & -> & Hm2 & He2 & d & Hd & Hv); [lia | lia|].
  rewrite HM in *. set (s := Z.log2 M - 52) in *.
  exists s, (Zpos m2 * 2 ^ (e2 - - a)). split_and!; [| lia | lia | rewrite Hv | rewrite Hv; by apply floor_near; lia].
  - cbn [trunc]. destruct (Z.leb_spec 0 e2); [lia|]. f_equal. replace a with ((e2 - - a) + - e2) at 2 by lia.
    rewrite Z.pow_add_r by lia. symmetry. rewrite (Z.mul_comm (2 ^ (e2 - - a))). apply Z.div_mul_cancel_r; lia.
  - apply Z.mul_le_mono_nonneg_l; lia.
Qed.

(** ** Examples *)

Example print17_tenth : (fun d => print17 d) <$> stod (str "0.1") = Some (str "0.10000000000000001").
Proof. vm_compute. reflexivity. Qed.

Example print17_small : (fun d => print17 d) <$> stod (str "-1.5e-7") = Some (str "-1.4999999999999999e-07").
Proof. vm_compute. reflexivity. Qed.

Example print17_large : (fun d => print17 d) <$> stod (str "1e300") = Some (str "1.0000000000000001e+300").
Proof. vm_compute. reflexivity. Qed.

Example stod_ranges :
  stod (str "1e400") = None /\ stod (str "1e-320") = None /\ stod (str "-") = None /\
  stod (str "01.") = stod (str "1e0").
Proof. vm_compute. done. Qed.
