(* ===== verification/Json.v ===== *)
(** The JSON library ([src/json_lite.cpp], [include/obn/json_lite.hpp]): the
    value type, the recursive-descent parser with its nesting bound, path
    lookup, and serialisation. The parser's position is the list of
    characters left; its results are a value with what is left, or the error
    text. *)

From S2P Require Import Prelude OMap Text Double.

Definition kMaxNestingDepth : nat := 128.

#[local] Set Warnings "-register-all".
Inductive Value :=
| Null
| Bool (b : bool)
| Number (d : double)
| String (s : cstr)
| Array (a : list Value)
| Object (o : list (cstr * Value)).

(** The results of the parser's operations. [Fuel] is no result of the code:
    [parse_total] shows that it does not occur. *)
Inductive res (A : Type) :=
| Ok (a : A) (rest : cstr)
| Err (e : cstr)
| Fuel.
Arguments Ok {A}. Arguments Err {A}. Arguments Fuel {A}.

(** ** The parser *)

Definition is_ws (c : byte) : bool :=
  beq c (zb 32) || beq c (zb 9) || beq c (zb 10) || beq c (zb 13).

Fixpoint skip_ws (l : cstr) : cstr :=
  match l with
  | c :: l' => if is_ws c then skip_ws l' else l
  | [] => []
  end.

(** [literal]: what follows the literal. *)
Fixpoint literal (lit l : cstr) : option cstr :=
  match lit, l with
  | [], _ => Some l
  | c :: lit', d :: l' => if beq d c then literal lit' l' else None
  | _ :: _, [] => None
  end.

Definition hex4 (a b c d : byte) : option Z :=
  match hex_val a, hex_val b, hex_val c, hex_val d with
  | Some a, Some b, Some c, Some d => Some (Z.lor (Z.shiftl (Z.lor (Z.shiftl (Z.lor (Z.shiftl a 4) b) 4) c) 4) d)
  | _, _, _, _ => None
  end.

(** The UTF-8 encoding of a code point. *)
Definition utf8 (cp : Z) : cstr :=
  if cp <? 0x80 then [zb cp]
  else if cp <? 0x800 then
    [zb (Z.lor 0xC0 (Z.shiftr cp 6)); zb (Z.lor 0x80 (Z.land cp 0x3F))]
  else if cp <? 0x10000 then
    [zb (Z.lor 0xE0 (Z.shiftr cp 12)); zb (Z.lor 0x80 (Z.land (Z.shiftr cp 6) 0x3F));
     zb (Z.lor 0x80 (Z.land cp 0x3F))]
  else
    [zb (Z.lor 0xF0 (Z.shiftr cp 18)); zb (Z.lor 0x80 (Z.land (Z.shiftr cp 12) 0x3F));
     zb (Z.lor 0x80 (Z.land (Z.shiftr cp 6) 0x3F)); zb (Z.lor 0x80 (Z.land cp 0x3F))].

Definition quote : byte := zb 34.
Definition backslash : byte := zb 92.

(** The character of a one-letter escape. *)
Definition simple_escape (e : byte) : option byte :=
  if beq e quote then Some quote
  else if beq e backslash then Some backslash
  else if beq e (zb 47) then Some (zb 47)
  else if beq e (zb 98) then Some (zb 8)
  else if beq e (zb 102) then Some (zb 12)
  else if beq e (zb 110) then Some (zb 10)
  else if beq e (zb 114) then Some (zb 13)
  else if beq e (zb 116) then Some (zb 9)
  else None.

(** The loop of [parse_string], after the opening quote. *)
Fixpoint parse_chars (l : cstr) (out : cstr) : res cstr :=
  match l with
  | [] => Err (str "unterminated string")
  | c :: l1 =>
      if beq c quote then Ok out l1
      else if beq c backslash then
        match l1 with
        | [] => Err (str "bad escape")
        | e :: l2 =>
            match simple_escape e with
            | Some ch => parse_chars l2 (out ++ [ch])
            | None =>
                if beq e (zb 117) then
                  match l2 with
                  | a :: b :: c :: d :: l3 =>
                      match hex4 a b c d with
                      | None => Err (str "bad hex in \u")
                      | Some cp =>
                          if (0xD800 <=? cp) && (cp <=? 0xDBFF) then
                            match l3 with
                            | s :: u :: a :: b :: c :: d :: l4 =>
                                if beq s backslash && beq u (zb 117) then
                                  match hex4 a b c d with
                                  | None => Err (str "bad low surrogate")
                                  | Some lo =>
                                      if (0xDC00 <=? lo) && (lo <=? 0xDFFF)
                                      then parse_chars l4 (out ++ utf8 (0x10000 + Z.shiftl (cp - 0xD800) 10
                                                                        + (lo - 0xDC00)))
                                      else parse_chars l3 (out ++ utf8 cp)
                                  end
                                else parse_chars l3 (out ++ utf8 cp)
                            | _ => parse_chars l3 (out ++ utf8 cp)
                            end
                          else parse_chars l3 (out ++ utf8 cp)
                      end
                  | _ => Err (str "bad \u escape")
                  end
                else Err (str "bad escape char")
            end
        end
      else parse_chars l1 (out ++ [c])
  end.

Definition parse_string (l : cstr) : res cstr :=
  match l with
  | c :: l' => if beq c quote then parse_chars l' [] else Err (str "expected string")
  | [] => Err (str "expected string")
  end.

(** The characters [parse_number] moves over, and what is left. *)
Definition number_token (l : cstr) : cstr * cstr :=
  let '(sign, l) := match l with
                    | c :: l' => if beq c (zb 45) then ([c], l') else ([], l)
                    | [] => ([], l)
                    end in
  let '(ip, l) := span is_digit l in
  let '(fp, l) := match l with
                  | c :: l' => if beq c point then let '(ds, l'') := span is_digit l' in (c :: ds, l'')
                               else ([], l)
                  | [] => ([], l)
                  end in
  let '(ep, l) := match l with
                  | c :: l' =>
                      if beq c (zb 101) || beq c (zb 69) then
                        let '(es, l') := match l' with
                                         | d :: l'' => if beq d (zb 43) || beq d (zb 45)
                                                       then ([d], l'') else ([], l')
                                         | [] => ([], l')
                                         end in
                        let '(ds, l') := span is_digit l' in (c :: es ++ ds, l')
                      else ([], l)
                  | [] => ([], l)
                  end in
  (sign ++ ip ++ fp ++ ep, l).

Definition parse_number (l : cstr) : res double :=
  let '(token, rest) := number_token l in
  match token with
  | [] => Err (str "bad number")
  | _ => match stod token with
         | None => Err (str "number range")
         | Some d => Ok d rest
         end
  end.

Definition comma : byte := zb 44.
Definition colon : byte := zb 58.

(** [parse_value] and its two loops: the elements of an array and the members
    of an object. [depth] is the number of arrays and objects around. *)
Fixpoint parse_value (fuel depth : nat) (l : cstr) : res Value :=
  match fuel with
  | O => Fuel
  | S fuel =>
      let l := skip_ws l in
      match l with
      | [] => Err (str "unexpected EOF")
      | c :: l' =>
          if beq c quote then
            match parse_string l with
            | Ok s rest => Ok (String s) rest
            | Err e => Err e
            | Fuel => Fuel
            end
          else if beq c (zb 123) || beq c (zb 91) then
            if (kMaxNestingDepth <=? depth)%nat then Err (str "max nesting depth exceeded")
            else if beq c (zb 123) then
              match skip_ws l' with
              | d :: rest => if beq d (zb 125) then Ok (Object []) rest
                             else parse_members fuel (S depth) (d :: rest) []
              | [] => parse_members fuel (S depth) [] []
              end
            else
              match skip_ws l' with
              | d :: rest => if beq d (zb 93) then Ok (Array []) rest
                             else parse_elements fuel (S depth) (d :: rest) []
              | [] => parse_elements fuel (S depth) [] []
              end
          else if beq c (zb 116) then
            match literal (str "true") l with
            | Some rest => Ok (Bool true) rest | None => Err (str "bad literal") end
          else if beq c (zb 102) then
            match literal (str "false") l with
            | Some rest => Ok (Bool false) rest | None => Err (str "bad literal") end
          else if beq c (zb 110) then
            match literal (str "null") l with
            | Some rest => Ok Null rest | None => Err (str "bad literal") end
          else if beq c (zb 45) || is_digit c then
            match parse_number l with
            | Ok d rest => Ok (Number d) rest
            | Err e => Err e
            | Fuel => Fuel
            end
          else Err (str "unexpected character")
      end
  end
with parse_elements (fuel depth : nat) (l : cstr) (arr : list Value) : res Value :=
  match fuel with
  | O => Fuel
  | S fuel =>
      match parse_value fuel depth l with
      | Ok v rest =>
          let arr := arr ++ [v] in
          match skip_ws rest with
          | c :: rest' => if beq c comma then parse_elements fuel depth rest' arr
                          else if beq c (zb 93) then Ok (Array arr) rest'
                          else Err (str "expected ',' or ']'")
          | [] => Err (str "expected ',' or ']'")
          end
      | Err e => Err e
      | Fuel => Fuel
      end
  end
with parse_members (fuel depth : nat) (l : cstr) (obj : list (cstr * Value)) : res Value :=
  match fuel with
  | O => Fuel
  | S fuel =>
      match parse_string (skip_ws l) with
      | Ok key rest =>
          match skip_ws rest with
          | c :: rest' =>
              if beq c colon then
                match parse_value fuel depth rest' with
                | Ok v rest =>
                    let obj := om_emplace key v obj in
                    match skip_ws rest with
                    | c :: rest' => if beq c comma then parse_members fuel depth rest' obj
                                    else if beq c (zb 125) then Ok (Object obj) rest'
                                    else Err (str "expected ',' or '}'")
                    | [] => Err (str "expected ',' or '}'")
                    end
                | Err e => Err e
                | Fuel => Fuel
                end
              else Err (str "expected ':'")
          | [] => Err (str "expected ':'")
          end
      | Err e => Err e
      | Fuel => Fuel
      end
  end.

(** Fuel for a text: two calls for each character. *)
Definition text_fuel (l : cstr) : nat := 2 * length l + 2.

(** [parse]: the value, or the error text. *)
Definition parse_with (fuel : nat) (text : cstr) : res Value :=
  match parse_value fuel 0 (skip_ws text) with
  | Ok v rest => match skip_ws rest with
                 | [] => Ok v []
                 | _ => Err (str "trailing characters")
                 end
  | r => r
  end.

Definition parse (text : cstr) : res Value := parse_with (text_fuel text) text.

(** ** Serialisation *)

Definition escape_char (c : byte) : cstr :=
  if beq c quote then [backslash; quote]
  else if beq c backslash then [backslash; backslash]
  else if beq c (zb 8) then [backslash; zb 98]
  else if beq c (zb 12) then [backslash; zb 102]
  else if beq c (zb 10) then [backslash; zb 110]
  else if beq c (zb 13) then [backslash; zb 114]
  else if beq c (zb 9) then [backslash; zb 116]
  else if bz c <? 0x20 then
    [backslash; zb 117; hex_lower 0; hex_lower 0; hex_lower (bz c / 16); hex_lower (bz c mod 16)]
  else [c].

Definition escape (s : cstr) : cstr := [quote] ++ concat (escape_char <$> s) ++ [quote].

(** The literals [-9.2233720368547748e18] and [9.2233720368547748e18] are the
    doubles [-2^63] and [2^63]; the cast of [2^63] itself to [long long] is out
    of range, and gives [-2^63] on x86-64. *)
Definition dump_bound : Z := 2 ^ 63.

Definition dump_number (d : double) : cstr :=
  match trunc d with
  | Some z => if is_integral d && (- dump_bound <=? z) && (z <=? dump_bound) then dec (signed 64 z) else print17 d
  | None => print17 d
  end.

Fixpoint join (l : list cstr) : cstr :=
  match l with
  | [] => []
  | [x] => x
  | x :: l' => x ++ [comma] ++ join l'
  end.

Fixpoint dump (v : Value) : cstr :=
  match v with
  | Null => str "null"
  | Bool b => if b then str "true" else str "false"
  | Number d => dump_number d
  | String s => escape s
  | Array a => [zb 91] ++ join (map dump a) ++ [zb 93]
  | Object o => [zb 123] ++ join (map (fun kv => escape kv.1 ++ [colon] ++ dump kv.2) o) ++ [zb 125]
  end.

(** ** Access *)

Definition as_string (v : Value) : cstr := match v with String s => s | _ => [] end.
Definition as_bool (def : bool) (v : Value) : bool := match v with Bool b => b | _ => def end.
Definition as_array (v : Value) : list Value := match v with Array a => a | _ => [] end.
Definition as_object (v : Value) : list (cstr * Value) := match v with Object o => o | _ => [] end.
Definition is_object (v : Value) : bool := match v with Object _ => true | _ => false end.
Definition is_array (v : Value) : bool := match v with Array _ => true | _ => false end.
Definition is_string (v : Value) : bool := match v with String _ => true | _ => false end.
Definition is_number (v : Value) : bool := match v with Number _ => true | _ => false end.

(** [as_int]: clamped to the 64-bit range, [d] for what is no number. *)
Definition as_int (d : Z) (v : Value) : Z :=
  match v with
  | Number x =>
      match x with
      | S754_nan => d
      | S754_infinity neg => if neg then - 2 ^ 63 else 2 ^ 63 - 1
      | _ => match trunc x with
             | Some z => if 2 ^ 63 <=? z then 2 ^ 63 - 1
                         else if z <=? - 2 ^ 63 then - 2 ^ 63 else z
             | None => d
             end
      end
  | _ => d
  end.

(** One element of a path, at [path[pos]]: the value it leads to and the path
    left; [None] is the null value returned. *)
Definition find_step (cur : Value) (path : cstr) : option (Value * cstr) :=
  match path with
  | [] => None
  | c :: path' =>
      match cur with
      | Null => None
      | _ =>
          if beq c (zb 91) then
            match find_char (zb 93) path with
            | None => None
            | Some close =>
                let idx := sub 1 (close - 1) path in
                match cur with
                | Array arr =>
                    match stoul idx with
                    | None => None
                    | Some i =>
                        match arr !! Z.to_nat i with
                        | None => None
                        | Some v =>
                            let rest := drop (close + 1) path in
                            Some (v, match rest with
                                     | d :: rest' => if beq d point then rest' else rest
                                     | [] => rest
                                     end)
                        end
                    end
                | _ => None
                end
            end
          else
            let next := find_if (fun c => beq c point || beq c (zb 91)) path in
            let key := match next with None => path | Some n => take n path end in
            match cur with
            | Object obj =>
                match om_find key obj with
                | None => None
                | Some v =>
                    Some (v, match next with
                             | None => []
                             | Some n => match drop n path with
                                         | d :: rest' => if beq d point then rest' else d :: rest'
                                         | [] => []
                                         end
                             end)
                end
            | _ => None
            end
      end
  end.

Fixpoint find_fuel (fuel : nat) (cur : Value) (path : cstr) : Value :=
  match path, fuel with
  | [], _ => cur
  | _, O => Null
  | _, S fuel => match find_step cur path with
                 | None => Null
                 | Some (v, rest) => find_fuel fuel v rest
                 end
  end.

(** [Value::find]: every step shortens the path. *)
Definition find (v : Value) (path : cstr) : Value := find_fuel (length path) v path.

(** ** Induction on values *)

Lemma Value_rect' (P : Value -> Prop) :
  P Null -> (forall b, P (Bool b)) -> (forall d, P (Number d)) -> (forall s, P (String s)) ->
  (forall a, Forall P a -> P (Array a)) ->
  (forall o, Forall (fun kv => P kv.2) o -> P (Object o)) ->
  forall v, P v.
Proof.
  intros H1 H2 H3 H4 H5 H6. fix IH 1. intros [| | | |a|o]; [done|done|done|done| |].
  - apply H5. induction a as [|v a IHa]; constructor; [apply IH | exact IHa].
  - apply H6. induction o as [|[k v] o IHo]; constructor; [apply IH | exact IHo].
Qed.

(** ** The parser consumes its input *)

Lemma skip_ws_length l : (length (skip_ws l) <= length l)%nat.
Proof. induction l as [|c l IH]; simpl; [lia|]. destruct (is_ws c); simpl; lia. Qed.

Lemma literal_length lit l rest :
  literal lit l = Some rest -> length l = (length lit + length rest)%nat.
Proof.
  revert l. induction lit as [|c lit IH]; intros l; simpl; [by intros [= ->]|].
  destruct l as [|d l]; [done|]. destruct (beq d c); [|done]. intros H%IH. simpl. lia.
Qed.

Lemma parse_chars_length l out s rest :
  parse_chars l out = Ok s rest -> (length rest < length l)%nat.
Proof.
  revert out s rest. induction l as [l IH] using (induction_ltof1 _ (@length byte)).
  unfold ltof in IH. intros out s rest. destruct l as [|c l1]; simpl; [done|].
  destruct (beq c quote); [intros [= <- <-]; lia|].
  assert (Hrec : forall l' out', (length l' < length (c :: l1))%nat ->
            parse_chars l' out' = Ok s rest -> (length rest < S (length l1))%nat).
  { intros l' out' Hl H. specialize (IH l' Hl _ _ _ H). simpl in Hl. lia. }
  destruct (beq c backslash); [|apply Hrec; simpl; lia].
  destruct l1 as [|e l2]; [done|]. destruct (simple_escape e); [apply Hrec; simpl; lia|].
  destruct (beq e (zb 117)); [|done].
  destruct l2 as [|a [|b [|c1 [|d l3]]]]; try done. destruct (hex4 a b c1 d) as [cp|]; [|done].
  destruct (_ && _); [|apply Hrec; simpl; lia].
  destruct l3 as [|s1 [|u [|a2 [|b2 [|c2 [|d2 l4]]]]]]; try (apply Hrec; simpl; lia).
  destruct (_ && _); [|apply Hrec; simpl; lia].
  destruct (hex4 a2 b2 c2 d2) as [lo|]; [|done]. destruct (_ && _); apply Hrec; simpl; lia.
Qed.

Lemma parse_chars_fuel l out : parse_chars l out <> Fuel.
Proof.
  revert out. induction l as [l IH] using (induction_ltof1 _ (@length byte)).
  unfold ltof in IH. intros out. destruct l as [|c l1]; simpl; [done|].
  destruct (beq c quote); [done|].
  destruct (beq c backslash); [|apply IH; simpl; lia].
  destruct l1 as [|e l2]; [done|]. destruct (simple_escape e); [apply IH; simpl; lia|].
  destruct (beq e (zb 117)); [|done].
  destruct l2 as [|a [|b [|c1 [|d l3]]]]; try done. destruct (hex4 a b c1 d) as [cp|]; [|done].
  destruct (_ && _); [|apply IH; simpl; lia].
  destruct l3 as [|s1 [|u [|a2 [|b2 [|c2 [|d2 l4]]]]]]; try (apply IH; simpl; lia).
  destruct (_ && _); [|apply IH; simpl; lia].
  destruct (hex4 a2 b2 c2 d2) as [lo|]; [|done]. destruct (_ && _); apply IH; simpl; lia.
Qed.

Lemma parse_string_length l s rest : parse_string l = Ok s rest -> (length rest < length l)%nat.
Proof.
  unfold parse_string. destruct l as [|c l]; [done|]. destruct (beq c quote); [|done].
  intros H%parse_chars_length. simpl. lia.
Qed.

Lemma parse_string_fuel l : parse_string l <> Fuel.
Proof.
  unfold parse_string. destruct l as [|c l]; [done|]. destruct (beq c quote); [|done].
  apply parse_chars_fuel.
Qed.

Lemma number_token_app l : (number_token l).1 ++ (number_token l).2 = l.
Proof.
  unfold number_token.
  assert (Hs : forall f l, (span f l).1 ++ (span f l).2 = l) by apply span_app.
  destruct l as [|c l]; [done|].
  set (x := if beq c (zb 45) then ([c], l) else ([], c :: l)).
  assert (Hx : x.1 ++ x.2 = c :: l) by (subst x; by destruct (beq c (zb 45))).
  destruct x as [sign l1]. simpl in Hx. rewrite <- Hx. clear Hx c l.
  specialize (Hs is_digit l1) as H1. destruct (span is_digit l1) as [ip l2]. simpl in H1. subst l1.
  assert (H2 : forall y : cstr * cstr, y = match l2 with
      | c :: l' => if beq c point then let '(ds, l'') := span is_digit l' in (c :: ds, l'') else ([], l2)
      | [] => ([], l2) end -> y.1 ++ y.2 = l2).
  { intros y ->. destruct l2 as [|c l2]; [done|]. destruct (beq c point); [|done].
    specialize (Hs is_digit l2). destruct (span is_digit l2). simpl in *. by rewrite Hs. }
  destruct (match l2 with [] => _ | _ => _ end) as [fp l3]. specialize (H2 _ eq_refl). simpl in H2.
  subst l2.
  assert (H3 : forall y : cstr * cstr, y = match l3 with
      | c :: l' => if beq c (zb 101) || beq c (zb 69) then
           let '(es, l') := match l' with
             | d :: l'' => if beq d (zb 43) || beq d (zb 45) then ([d], l'') else ([], l')
             | [] => ([], l') end in
           let '(ds, l') := span is_digit l' in (c :: es ++ ds, l') else ([], l3)
      | [] => ([], l3) end -> y.1 ++ y.2 = l3).
  { intros y ->. destruct l3 as [|c l3]; [done|]. destruct (_ || _); [|done].
    destruct l3 as [|d l3]; [done|]. destruct (beq d (zb 43) || beq d (zb 45)).
    - specialize (Hs is_digit l3). destruct (span is_digit l3). simpl in *. by rewrite Hs.
    - specialize (Hs is_digit (d :: l3)). destruct (span is_digit (d :: l3)). simpl in *. by rewrite Hs. }
  destruct (match l3 with [] => _ | _ => _ end) as [ep l4]. specialize (H3 _ eq_refl). simpl in H3.
  subst l3. simpl. by rewrite <- !app_assoc.
Qed.

Lemma parse_number_length l d rest : parse_number l = Ok d rest -> (length rest < length l)%nat.
Proof.
  unfold parse_number. pose proof (number_token_app l) as H.
  destruct (number_token l) as [token r]. simpl in H. rewrite <- H, length_app.
  destruct token as [|c token]; [done|]. destruct (stod _); [|done]. intros [= <- <-]. simpl. lia.
Qed.

Lemma parse_number_fuel l : parse_number l <> Fuel.
Proof. unfold parse_number. destruct (number_token l) as [[|]]; [done|]. by destruct (stod _). Qed.

(** The parts of the state an induction on the parser's fuel speaks about:
    one statement for each of its three functions. *)
Lemma parse_ind (PV : nat -> nat -> cstr -> res Value -> Prop)
    (PE : nat -> nat -> cstr -> list Value -> res Value -> Prop)
    (PM : nat -> nat -> cstr -> list (cstr * Value) -> res Value -> Prop) :
  (forall fuel,
    (forall depth l, PV fuel depth l (parse_value fuel depth l)) ->
    (forall depth l arr, PE fuel depth l arr (parse_elements fuel depth l arr)) ->
    (forall depth l obj, PM fuel depth l obj (parse_members fuel depth l obj)) ->
    (forall depth l, PV (S fuel) depth l (parse_value (S fuel) depth l)) /\
    (forall depth l arr, PE (S fuel) depth l arr (parse_elements (S fuel) depth l arr)) /\
    (forall depth l obj, PM (S fuel) depth l obj (parse_members (S fuel) depth l obj))) ->
  (forall depth l, PV O depth l Fuel) -> (forall depth l arr, PE O depth l arr Fuel) ->
  (forall depth l obj, PM O depth l obj Fuel) ->
  forall fuel,
    (forall depth l, PV fuel depth l (parse_value fuel depth l)) /\
    (forall depth l arr, PE fuel depth l arr (parse_elements fuel depth l arr)) /\
    (forall depth l obj, PM fuel depth l obj (parse_members fuel depth l obj)).
Proof.
  intros HS H1 H2 H3. induction fuel as [|fuel (IH1 & IH2 & IH3)]; [by split_and!|].
  by apply HS.
Qed.

(** What a result leaves is shorter than [l]. *)
Definition shorter (l : cstr) (r : res Value) : Prop :=
  match r with Ok _ rest => (length rest < length l)%nat | _ => True end.

Lemma shorter_le l l' r : shorter l' r -> (length l' <= length l)%nat -> shorter l r.
Proof. destruct r; simpl; [lia | done..]. Qed.

Lemma parse_shorter fuel :
  (forall depth l, shorter l (parse_value fuel depth l)) /\
  (forall depth l arr, shorter l (parse_elements fuel depth l arr)) /\
  (forall depth l obj, shorter l (parse_members fuel depth l obj)).
Proof.
  apply (parse_ind (fun _ _ l r => shorter l r) (fun _ _ l _ r => shorter l r)
           (fun _ _ l _ r => shorter l r)); [|done..].
  clear fuel. intros fuel IHV IHE IHM. split_and!.
  - intros depth l. cbn [parse_value]. apply (shorter_le _ (skip_ws l)); [|apply skip_ws_length].
    destruct (skip_ws l) as [|c l']; [done|].
    destruct (beq c quote).
    { destruct (parse_string (c :: l')) eqn:E; [|done..]. by apply parse_string_length in E. }
    destruct (beq c (zb 123) || beq c (zb 91)).
    { destruct (_ <=? _)%nat; [done|]. pose proof (skip_ws_length l') as Hs.
      destruct (beq c (zb 123)); destruct (skip_ws l') as [|d rest];
        try (by apply (shorter_le _ []); [|simpl; lia]);
        (destruct (beq d _); [simpl in *; lia|]);
        (eapply shorter_le; [first [apply IHE | apply IHM] | simpl in *; lia]). }
    assert (Hlit : forall lit v, shorter (c :: l')
      match literal lit (c :: l') with Some rest => Ok v rest | None => Err (str "bad literal") end
      \/ lit = []).
    { intros lit v. destruct (literal lit (c :: l')) as [rest|] eqn:E; [|by left].
      apply literal_length in E. destruct lit; [by right|]. left. simpl in *. lia. }
    destruct (beq c (zb 116)); [by destruct (Hlit (str "true") (Bool true))|].
    destruct (beq c (zb 102)); [by destruct (Hlit (str "false") (Bool false))|].
    destruct (beq c (zb 110)); [by destruct (Hlit (str "null") Null)|].
    destruct (_ || _); [|done]. destruct (parse_number (c :: l')) eqn:E; [|done..].
    by apply parse_number_length in E.
  - intros depth l arr. cbn [parse_elements]. specialize (IHV depth l).
    destruct (parse_value fuel depth l) as [v rest| |]; [|done..]. simpl in IHV.
    pose proof (skip_ws_length rest). destruct (skip_ws rest) as [|c rest']; [done|].
    destruct (beq c comma); [eapply shorter_le; [apply IHE | simpl in *; lia]|].
    destruct (beq c (zb 93)); [simpl in *; lia | done].
  - intros depth l obj. cbn [parse_members]. pose proof (skip_ws_length l).
    destruct (parse_string (skip_ws l)) as [key rest| |] eqn:E; [|done..].
    apply parse_string_length in E. pose proof (skip_ws_length rest).
    destruct (skip_ws rest) as [|c rest']; [done|]. destruct (beq c colon); [|done].
    specialize (IHV depth rest'). destruct (parse_value fuel depth rest') as [v rest2| |]; [|done..].
    simpl in IHV. pose proof (skip_ws_length rest2). destruct (skip_ws rest2) as [|c2 rest2']; [done|].
    destruct (beq c2 comma); [eapply shorter_le; [apply IHM | simpl in *; lia]|].
    destruct (beq c2 (zb 125)); [simpl in *; lia | done].
Qed.

(** With two calls for each character left, the fuel is never the limit. *)
Lemma parse_enough fuel :
  (forall depth l, (2 * length l + 1 <= fuel)%nat -> parse_value fuel depth l <> Fuel) /\
  (forall depth l arr, (2 * length l + 2 <= fuel)%nat -> parse_elements fuel depth l arr <> Fuel) /\
  (forall depth l obj, (2 * length l + 2 <= fuel)%nat -> parse_members fuel depth l obj <> Fuel).
Proof.
  apply (parse_ind (fun fuel _ l r => (2 * length l + 1 <= fuel)%nat -> r <> Fuel)
           (fun fuel _ l _ r => (2 * length l + 2 <= fuel)%nat -> r <> Fuel)
           (fun fuel _ l _ r => (2 * length l + 2 <= fuel)%nat -> r <> Fuel)); [|intros; lia..].
  clear fuel. intros fuel IHV IHE IHM. split_and!.
  - intros depth l Hl. cbn [parse_value]. pose proof (skip_ws_length l) as H0.
    destruct (skip_ws l) as [|c l']; [done|]. simpl in H0.
    destruct (beq c quote).
    { pose proof (parse_string_fuel (c :: l')). by destruct (parse_string (c :: l')). }
    destruct (beq c (zb 123) || beq c (zb 91)).
    { destruct (_ <=? _)%nat; [done|]. pose proof (skip_ws_length l') as Hs.
      destruct (beq c (zb 123)); destruct (skip_ws l') as [|d rest];
        try (destruct (beq d _); [done|]); first [apply IHE | apply IHM]; simpl in *; lia. }
    destruct (beq c (zb 116)); [by destruct (literal _ _)|].
    destruct (beq c (zb 102)); [by destruct (literal _ _)|].
    destruct (beq c (zb 110)); [by destruct (literal _ _)|].
    destruct (_ || _); [|done]. pose proof (parse_number_fuel (c :: l')).
    by destruct (parse_number (c :: l')).
  - intros depth l arr Hl. cbn [parse_elements]. pose proof (proj1 (parse_shorter fuel) depth l) as Hsh.
    specialize (IHV depth l ltac:(lia)).
    destruct (parse_value fuel depth l) as [v rest| |]; [|done..]. simpl in Hsh.
    pose proof (skip_ws_length rest). destruct (skip_ws rest) as [|c rest']; [done|].
    destruct (beq c comma); [apply IHE; simpl in *; lia|]. by destruct (beq c (zb 93)).
  - intros depth l obj Hl. cbn [parse_members]. pose proof (skip_ws_length l). pose proof (parse_string_fuel (skip_ws l)).
    destruct (parse_string (skip_ws l)) as [key rest| |] eqn:E; [|done..].
    apply parse_string_length in E. pose proof (skip_ws_length rest).
    destruct (skip_ws rest) as [|c rest']; [done|]. destruct (beq c colon); [|done].
    pose proof (proj1 (parse_shorter fuel) depth rest') as Hsh.
    specialize (IHV depth rest'). destruct (parse_value fuel depth rest') as [v rest2| |].
    2: done. 2: apply IHV; simpl in *; lia.
    simpl in Hsh. pose proof (skip_ws_length rest2). destruct (skip_ws rest2) as [|c2 rest2']; [done|].
    destruct (beq c2 comma); [apply IHM; simpl in *; lia|]. by destruct (beq c2 (zb 125)).
Qed.

(** ** Depth and order of what is parsed *)

Fixpoint vdepth (v : Value) : nat :=
  match v with
  | Array a => S (list_max (map vdepth a))
  | Object o => S (list_max (map (fun kv => vdepth kv.2) o))
  | _ => 0
  end.

(** Every object is a map: its keys are in order. *)
Fixpoint sorted (v : Value) : Prop :=
  match v with
  | Array a => fold_right (fun v p => sorted v /\ p) True a
  | Object o => ascending o /\ fold_right (fun kv p => sorted kv.2 /\ p) True o
  | _ => True
  end.

Definition fits (depth : nat) (v : Value) : Prop := sorted v /\ (depth + vdepth v <= 128)%nat.

Definition members_fit (depth : nat) (o : list (cstr * Value)) : Prop :=
  ascending o /\ Forall (fun kv => fits depth kv.2) o.

Definition result_fits (depth : nat) (r : res Value) : Prop :=
  match r with Ok v _ => fits depth v | _ => True end.

Lemma fits_array depth a :
  (S depth <= 128)%nat -> Forall (fits (S depth)) a -> fits depth (Array a).
Proof.
  intros Hd Ha. split; simpl.
  - induction Ha as [|v a [Hs _] _ IH]; simpl; done.
  - assert (H : (list_max (map vdepth a) <= 128 - S depth)%nat).
    { apply list_max_le, List.Forall_map. eapply Forall_impl; [exact Ha|]. intros v [_ Hv]. lia. }
    lia.
Qed.

Lemma fits_object depth o :
  (S depth <= 128)%nat -> members_fit (S depth) o -> fits depth (Object o).
Proof.
  intros Hd [Has Ho]. split; simpl.
  - split; [done|]. clear Has. induction Ho as [|kv o [Hs _] _ IH]; simpl; done.
  - assert (H : (list_max (map (fun kv => vdepth kv.2) o) <= 128 - S depth)%nat).
    { apply list_max_le, List.Forall_map. eapply Forall_impl; [exact Ho|]. intros v [_ Hv]. lia. }
    lia.
Qed.

Lemma members_fit_emplace depth key v o :
  members_fit depth o -> fits depth v -> members_fit depth (om_emplace key v o).
Proof.
  intros [Ha Ho] Hv. split; [by apply ascending_emplace|]. unfold om_emplace.
  destruct (om_find key o); [done|]. by apply Forall_om_set.
Qed.

Lemma parse_fits fuel :
  (forall depth l, (depth <= 128)%nat -> result_fits depth (parse_value fuel depth l)) /\
  (forall depth l arr, (0 < depth <= 128)%nat -> Forall (fits depth) arr ->
     result_fits (depth - 1) (parse_elements fuel depth l arr)) /\
  (forall depth l obj, (0 < depth <= 128)%nat -> members_fit depth obj ->
     result_fits (depth - 1) (parse_members fuel depth l obj)).
Proof.
  apply (parse_ind (fun _ depth _ r => (depth <= 128)%nat -> result_fits depth r)
    (fun _ depth _ arr r => (0 < depth <= 128)%nat -> Forall (fits depth) arr -> result_fits (depth - 1) r)
    (fun _ depth _ obj r => (0 < depth <= 128)%nat -> members_fit depth obj -> result_fits (depth - 1) r));
    [|done..].
  clear fuel. intros fuel IHV IHE IHM.
  assert (Hflat : forall depth v, (depth <= 128)%nat -> vdepth v = 0%nat -> sorted v -> fits depth v).
  { intros depth v Hd H0 Hs. split; [done|]. lia. }
  split_and!.
  - intros depth l Hd. cbn [parse_value]. destruct (skip_ws l) as [|c l']; [done|].
    destruct (beq c quote); [destruct (parse_string (c :: l')); [by apply Hflat|done..]|].
    destruct (beq c (zb 123) || beq c (zb 91)).
    { destruct (Nat.leb_spec kMaxNestingDepth depth) as [|Hlt]; [done|]. unfold kMaxNestingDepth in Hlt.
      assert (HM : forall l, result_fits depth (parse_members fuel (S depth) l [])).
      { intros l1. specialize (IHM (S depth) l1 [] ltac:(lia)). simpl in IHM.
        rewrite Nat.sub_0_r in IHM. apply IHM. split; constructor. }
      assert (HE : forall l, result_fits depth (parse_elements fuel (S depth) l [])).
      { intros l1. specialize (IHE (S depth) l1 [] ltac:(lia)). simpl in IHE.
        rewrite Nat.sub_0_r in IHE. apply IHE. constructor. }
      assert (HM0 : fits depth (Object [])) by (apply fits_object; [lia | split; constructor]).
      assert (HE0 : fits depth (Array [])) by (apply fits_array; [lia | constructor]).
      destruct (beq c (zb 123)); destruct (skip_ws l') as [|d rest]; [apply HM| |apply HE|];
        (destruct (beq d _); [done|]); [apply HM | apply HE]. }
    destruct (beq c (zb 116)); [destruct (literal _ _); [by apply Hflat|done]|].
    destruct (beq c (zb 102)); [destruct (literal _ _); [by apply Hflat|done]|].
    destruct (beq c (zb 110)); [destruct (literal _ _); [by apply Hflat|done]|].
    destruct (_ || _); [|done]. destruct (parse_number (c :: l')); [by apply Hflat|done..].
  - intros depth l arr Hd Harr. cbn [parse_elements]. specialize (IHV depth l ltac:(lia)).
    destruct (parse_value fuel depth l) as [v rest| |]; [|done..]. simpl in IHV.
    assert (Harr' : Forall (fits depth) (arr ++ [v])) by (apply Forall_app; split; [done | by apply Forall_singleton]).
    destruct (skip_ws rest) as [|c rest']; [done|].
    destruct (beq c comma); [by apply IHE|]. destruct (beq c (zb 93)); [|done].
    apply fits_array; [lia|]. by replace (S (depth - 1)) with depth by lia.
  - intros depth l obj Hd Hobj. cbn [parse_members]. destruct (parse_string (skip_ws l)) as [key rest| |]; [|done..].
    destruct (skip_ws rest) as [|c rest']; [done|]. destruct (beq c colon); [|done].
    specialize (IHV depth rest' ltac:(lia)).
    destruct (parse_value fuel depth rest') as [v rest2| |]; [|done..]. simpl in IHV.
    pose proof (members_fit_emplace depth key v obj Hobj IHV) as Hobj'.
    destruct (skip_ws rest2) as [|c2 rest2']; [done|].
    destruct (beq c2 comma); [by apply IHM|]. destruct (beq c2 (zb 125)); [|done].
    apply fits_object; [lia|]. by replace (S (depth - 1)) with depth by lia.
Qed.

(** ** Strings read back *)

(** An escaped control character: the four digits and the UTF-8 encoding of
    its value. *)
Definition control_ok (c : byte) : bool :=
  (32 <=? bz c) ||
  (bool_decide (hex4 (hex_lower 0) (hex_lower 0) (hex_lower (bz c / 16)) (hex_lower (bz c mod 16))
                = Some (bz c)) &&
   bool_decide (utf8 (bz c) = [c])).

Lemma control_spec c : control_ok c = true.
Proof. byte_exhaust1 control_ok c. done. Qed.

Lemma parse_escape_char c l out :
  parse_chars (escape_char c ++ l) out = parse_chars l (out ++ [c]).
Proof.
  unfold escape_char.
  destruct (beq_spec c quote) as [->|Hq]; [reflexivity|].
  destruct (beq_spec c backslash) as [->|Hb]; [reflexivity|].
  destruct (beq_spec c (zb 8)) as [->|_]; [reflexivity|].
  destruct (beq_spec c (zb 12)) as [->|_]; [reflexivity|].
  destruct (beq_spec c (zb 10)) as [->|_]; [reflexivity|].
  destruct (beq_spec c (zb 13)) as [->|_]; [reflexivity|].
  destruct (beq_spec c (zb 9)) as [->|_]; [reflexivity|].
  destruct (Z.ltb_spec (bz c) 0x20) as [Hc|Hc].
  - pose proof (control_spec c) as H. unfold control_ok in H.
    destruct (Z.leb_spec 32 (bz c)); [lia|]. simpl in H. apply andb_prop in H as [H1 H2].
    apply bool_decide_eq_true in H1, H2.
    cbn [app parse_chars].
    change (beq backslash quote) with false. change (beq backslash backslash) with true.
    change (simple_escape (zb 117)) with (@None byte). change (beq (zb 117) (zb 117)) with true.
    cbn iota. rewrite H1.
    destruct (Z.leb_spec 0xD800 (bz c)); [lia|]. cbn [andb]. by rewrite H2.
  - cbn [app parse_chars]. apply beq_neq in Hq, Hb. by rewrite Hq, Hb.
Qed.

Lemma parse_escape s rest out :
  parse_chars (concat (escape_char <$> s) ++ quote :: rest) out = Ok (out ++ s) rest.
Proof.
  revert out. induction s as [|c s IH]; intros out.
  - simpl. by rewrite app_nil_r.
  - rewrite fmap_cons. cbn [concat]. rewrite <- app_assoc, parse_escape_char, IH.
    by rewrite <- app_assoc.
Qed.

Lemma parse_string_escape s rest : parse_string (escape s ++ rest) = Ok s rest.
Proof.
  unfold escape. cbn [app parse_string]. change (beq quote quote) with true. cbn iota.
  rewrite <- app_assoc. apply (parse_escape s rest []).
Qed.

(** ** Numbers read back *)

(** What may follow a value: nothing, or what closes or continues an array or
    an object. *)
Definition stops (rest : cstr) : Prop :=
  match rest with
  | [] => True
  | c :: _ => c = comma \/ c = zb 93 \/ c = zb 125
  end.

(** The text of a number is one token and reads back as the number. *)
Definition number_ok (d : double) : bool :=
  let t := dump_number d in
  bool_decide (number_token t = (t, [])) && bool_decide (stod t = Some d) &&
  match t with c :: _ => beq c (zb 45) || is_digit c | [] => false end.

(** The characters of a number. *)
Definition number_char (c : byte) : bool :=
  is_digit c || beq c (zb 45) || beq c (zb 43) || beq c point || beq c (zb 101) || beq c (zb 69).

Lemma span_digit_chars l : Forall (fun c => number_char c = true) (span is_digit l).1.
Proof. eapply Forall_impl; [apply span_forall|]. intros c Hc. unfold number_char. by rewrite Hc. Qed.

Lemma number_token_chars l : Forall (fun c => number_char c = true) (number_token l).1.
Proof.
  unfold number_token.
  assert (Hc : forall c d, number_char d = true -> beq c d = true -> number_char c = true) by (by intros c d H ->%beq_eq).
  destruct (match l with c :: l' => if beq c (zb 45) then ([c], l') else ([], l) | [] => ([], l) end) as [sg l1] eqn:E1.
  assert (H1 : Forall (fun c => number_char c = true) sg).
  { destruct l as [|c l]; [by injection E1 as <- <-|]. destruct (beq c (zb 45)) eqn:E; injection E1 as <- <-; [|done].
    repeat constructor. by apply (Hc _ (zb 45)). }
  pose proof (span_digit_chars l1) as H2. destruct (span is_digit l1) as [ip l2].
  destruct (match l2 with c :: l' => if beq c point then let '(ds, l'') := span is_digit l' in (c :: ds, l'') else ([], l2) | [] => ([], l2) end) as [fp l3] eqn:E3.
  assert (H3 : Forall (fun c => number_char c = true) fp).
  { destruct l2 as [|c l2]; [by injection E3 as <- <-|]. destruct (beq c point) eqn:E; [|by injection E3 as <- <-].
    pose proof (span_digit_chars l2) as H. destruct (span is_digit l2). injection E3 as <- <-. constructor; [by apply (Hc _ point) | done]. }
  set (xp := match l3 with c :: _ => _ | [] => _ end).
  assert (H4 : Forall (fun c => number_char c = true) xp.1).
  { subst xp. destruct l3 as [|c l3]; [constructor|]. destruct (beq c (zb 101) || beq c (zb 69)) eqn:E; [|constructor].
    assert (H : number_char c = true) by (apply orb_prop in E as [E|E]; [by apply (Hc _ (zb 101)) | by apply (Hc _ (zb 69))]).
    destruct l3 as [|e l3]; [by repeat constructor|].
    destruct (beq e (zb 43) || beq e (zb 45)) eqn:E'.
    - pose proof (span_digit_chars l3) as H'. destruct (span is_digit l3). constructor; [done|]. constructor; [|done].
      apply orb_prop in E' as [E'|E']; [by apply (Hc _ (zb 43)) | by apply (Hc _ (zb 45))].
    - pose proof (span_digit_chars (e :: l3)) as H'. destruct (span is_digit (e :: l3)). by constructor. }
  destruct xp as [ep l4]. cbn [fst] in *. by rewrite !Forall_app.
Qed.

Lemma number_ok_chars d : number_ok d = true -> Forall (fun c => number_char c = true) (dump_number d).
Proof.
  unfold number_ok. rewrite !andb_true_iff, bool_decide_eq_true. intros [[Ht _] _].
  replace (dump_number d) with (number_token (dump_number d)).1 by (by rewrite Ht). apply number_token_chars.
Qed.

Lemma span_stops l rest :
  stops rest -> span is_digit (l ++ rest) = ((span is_digit l).1, (span is_digit l).2 ++ rest).
Proof.
  intros Hs. induction l as [|c l IH]; simpl.
  - destruct rest as [|c rest]; [done|]. simpl. by destruct Hs as [-> | [-> | ->]].
  - destruct (is_digit c); [|done]. rewrite IH. by destruct (span is_digit l).
Qed.

Lemma stops_head rest :
  stops rest -> match rest with
                | c :: _ => beq c (zb 45) = false /\ beq c point = false /\ beq c (zb 101) = false /\
                            beq c (zb 69) = false /\ beq c (zb 43) = false /\
                            is_digit c = false
                | [] => True
                end.
Proof. destruct rest as [|c rest]; [done|]. by intros [-> | [-> | ->]]. Qed.

Lemma number_token_stops l rest :
  stops rest -> number_token (l ++ rest) = ((number_token l).1, (number_token l).2 ++ rest).
Proof.
  intros Hs. pose proof (stops_head rest Hs) as Hh. unfold number_token.
  set (sg := fun l : cstr => match l with c :: l' => if beq c (zb 45) then ([c], l') else ([], l) | [] => ([], l) end).
  set (fr := fun l : cstr => match l with
                  | c :: l' => if beq c point then let '(ds, l'') := span is_digit l' in (c :: ds, l'') else ([], l)
                  | [] => ([], l) end).
  set (xp := fun l : cstr => match l with
                  | c :: l' =>
                      if beq c (zb 101) || beq c (zb 69) then
                        let '(es, l') := match l' with
                                         | d :: l'' => if beq d (zb 43) || beq d (zb 45)
                                                       then ([d], l'') else ([], l')
                                         | [] => ([], l')
                                         end in
                        let '(ds, l') := span is_digit l' in (c :: es ++ ds, l')
                      else ([], l)
                  | [] => ([], l) end).
  assert (H1 : forall l, sg (l ++ rest) = ((sg l).1, (sg l).2 ++ rest)).
  { intros [|c l']; simpl; [|by destruct (beq c (zb 45))].
    destruct rest as [|c rest]; [done|]. simpl. by destruct Hh as [-> _]. }
  assert (H2 : forall l, fr (l ++ rest) = ((fr l).1, (fr l).2 ++ rest)).
  { intros [|c l']; simpl.
    - destruct rest as [|c rest]; [done|]. simpl. by destruct Hh as (_ & -> & _).
    - destruct (beq c point); [|done]. rewrite span_stops by done. by destruct (span is_digit l'). }
  assert (H3 : forall l, xp (l ++ rest) = ((xp l).1, (xp l).2 ++ rest)).
  { intros [|c l']; simpl.
    - destruct rest as [|c rest]; [done|]. simpl. by destruct Hh as (_ & _ & -> & -> & _).
    - destruct (_ || _); [|done]. destruct l' as [|d l']; simpl.
      + destruct rest as [|d rest]; [done|]. destruct Hh as (H45 & _ & _ & _ & H43 & Hd).
        rewrite H43, H45. simpl. by rewrite Hd.
      + destruct (_ || _).
        * rewrite span_stops by done. by destruct (span is_digit l').
        * pose proof (span_stops (d :: l') rest Hs) as E. cbn [app] in E. rewrite E.
          by destruct (span is_digit (d :: l')). }
  change (let '(sign, l) := sg (l ++ rest) in let '(ip, l) := span is_digit l in
          let '(fp, l) := fr l in let '(ep, l) := xp l in (sign ++ ip ++ fp ++ ep, l)) with
         (let '(sign, l) := sg (l ++ rest) in let '(ip, l) := span is_digit l in
          let '(fp, l) := fr l in let '(ep, l) := xp l in (sign ++ ip ++ fp ++ ep, l)).
  cut (forall l0 : cstr,
    (let '(sign, l) := sg (l0 ++ rest) in let '(ip, l) := span is_digit l in
     let '(fp, l) := fr l in let '(ep, l) := xp l in (sign ++ ip ++ fp ++ ep, l)) =
    let r := (let '(sign, l) := sg l0 in let '(ip, l) := span is_digit l in
     let '(fp, l) := fr l in let '(ep, l) := xp l in (sign ++ ip ++ fp ++ ep, l)) in
    (r.1, r.2 ++ rest)); [intros H; exact (H l)|].
  intros l0. rewrite H1. destruct (sg l0) as [sign l1]. cbn [fst snd].
  rewrite span_stops by done. destruct (span is_digit l1) as [ip l2]. cbn [fst snd].
  rewrite H2. destruct (fr l2) as [fp l3]. cbn [fst snd].
  rewrite H3. destruct (xp l3) as [ep l4]. done.
Qed.

Lemma parse_number_dump d rest :
  number_ok d = true -> stops rest -> parse_number (dump_number d ++ rest) = Ok d rest.
Proof.
  unfold number_ok. rewrite !andb_true_iff. intros [[H1 H2] H3] Hs.
  apply bool_decide_eq_true in H1, H2. unfold parse_number.
  rewrite number_token_stops, H1 by done. cbn [fst snd app].
  destruct (dump_number d) as [|c t]; [done|]. by rewrite H2.
Qed.

(** An integer of at most 53 bits is a number that reads back. *)
Lemma head_digit n :
  0 <= n -> exists c ds, dec_nonneg n = c :: ds /\ is_digit c = true /\
    Forall (fun c => is_digit c = true) (dec_nonneg n) /\ undec (dec_nonneg n) = n.
Proof.
  intros Hn. destruct (dec_nonneg_spec n Hn) as (H1 & H2 & H3 & _).
  destruct (dec_nonneg n) as [|c ds]; [done|]. exists c, ds. apply Forall_cons in H2 as H2'.
  split_and!; [done | apply H2' | done | done].
Qed.

Lemma digit_not c d : is_digit c = true -> is_digit d = false -> beq c d = false.
Proof. intros Hc Hd. apply beq_neq. intros ->. congruence. Qed.

Lemma span_digits n : 0 <= n -> span is_digit (dec_nonneg n) = (dec_nonneg n, []).
Proof.
  intros Hn. destruct (head_digit n Hn) as (c & ds & _ & _ & H & _).
  rewrite <- (app_nil_r (dec_nonneg n)) at 1. by apply span_all.
Qed.

Lemma dump_int z : Z.abs z < 2 ^ 53 -> dump_number (of_int z) = dec z.
Proof.
  intros Hz. destruct (of_int_exact z Hz) as (H1 & H2 & H3). unfold dump_number. rewrite H1, H2. unfold dump_bound.
  destruct (Z.leb_spec (- 2 ^ 63) z), (Z.leb_spec z (2 ^ 63)); try lia. cbn [andb]. by rewrite signed_small by lia.
Qed.

Lemma number_ok_int z : Z.abs z < 2 ^ 53 -> number_ok (of_int z) = true.
Proof.
  intros Hz. destruct (of_int_exact z Hz) as (_ & _ & H3). unfold number_ok. rewrite dump_int by done. unfold dec.
  destruct (head_digit (Z.abs z)) as (c & ds & Hc & Hcd & Hall & Hun); [lia|].
  pose proof (span_digits (Z.abs z) ltac:(lia)) as Hsp.
  assert (H45 : beq c (zb 45) = false) by (by apply digit_not).
  destruct (Z.ltb_spec z 0) as [Hneg|Hpos].
  - replace (- z) with (Z.abs z) by lia. cbn [str app].
    assert (Ht : number_token (zb 45 :: dec_nonneg (Z.abs z)) = (zb 45 :: dec_nonneg (Z.abs z), [])).
    { unfold number_token. change (beq (zb 45) (zb 45)) with true. cbn iota. rewrite Hsp.
      simpl. by rewrite app_nil_r. }
    assert (Hst : stod (zb 45 :: dec_nonneg (Z.abs z)) = Some (of_int z)).
    { unfold stod. change (beq (zb 45) (zb 45)) with true. cbn iota. rewrite Hsp.
      rewrite app_nil_r, Hc, <- Hc, Hun. change (0 - Z.of_nat (length [])) with 0. done. }
    change (str "-") with [zb 45]. cbn [app]. rewrite Ht, Hst, !bool_decide_eq_true_2 by done. done.
  - assert (Ez : dec_nonneg z = dec_nonneg (Z.abs z)) by (f_equal; lia). rewrite Ez.
    assert (Ht : number_token (dec_nonneg (Z.abs z)) = (dec_nonneg (Z.abs z), [])).
    { unfold number_token. rewrite Hc, H45, <- Hc, Hsp. simpl. by rewrite app_nil_r. }
    assert (Hst : stod (dec_nonneg (Z.abs z)) = Some (of_int z)).
    { unfold stod. rewrite Hc, H45, <- Hc, Hsp.
      rewrite app_nil_r, Hc, <- Hc, Hun. change (0 - Z.of_nat (length [])) with 0. done. }
    rewrite Ht, Hst, !bool_decide_eq_true_2 by done.
    rewrite Hc. by rewrite Hcd, orb_true_r.
Qed.

(** ** Values read back *)

Fixpoint numbers_ok (v : Value) : bool :=
  match v with
  | Number d => number_ok d
  | Array a => forallb numbers_ok a
  | Object o => forallb (fun kv => numbers_ok kv.2) o
  | _ => true
  end.

Lemma dump_head v :
  numbers_ok v = true ->
  exists c t, dump v = c :: t /\ is_ws c = false /\ beq c (zb 93) = false.
Proof.
  intros Hn. destruct v as [|[]|d|s|a|o]; simpl; try (do 2 eexists; split; [reflexivity|done]).
  simpl in Hn. unfold number_ok in Hn. apply andb_prop in Hn as [_ Hn].
  destruct (dump_number d) as [|c t]; [done|]. exists c, t. split; [done|].
  apply orb_prop in Hn as [H|H]; [by apply beq_eq in H as ->|].
  apply is_digit_range in H. unfold digit_val in H. unfold is_ws, beq.
  change (bz (zb 32)) with 32. change (bz (zb 9)) with 9. change (bz (zb 10)) with 10.
  change (bz (zb 13)) with 13. change (bz (zb 93)) with 93.
  split; [|apply Z.eqb_neq; lia].
  rewrite !orb_false_iff. split_and!; apply Z.eqb_neq; lia.
Qed.

Lemma skip_ws_dump v rest : numbers_ok v = true -> skip_ws (dump v ++ rest) = dump v ++ rest.
Proof. intros H. destruct (dump_head v H) as (c & t & -> & Hw & _). simpl. by rewrite Hw. Qed.

Definition reads_back (v : Value) : Prop :=
  forall fuel depth rest,
    sorted v -> numbers_ok v = true -> (depth + vdepth v <= 128)%nat -> stops rest ->
    (2 * length (dump v ++ rest) + 1 <= fuel)%nat ->
    parse_value fuel depth (dump v ++ rest) = Ok v rest.

Ltac len_lia := do 3 (rewrite ?length_app in *; cbn [length] in *); lia.

Lemma join_cons2 x y l : join (x :: y :: l) = x ++ [comma] ++ join (y :: l).
Proof. done. Qed.

Lemma elements_read_back a : Forall reads_back a -> a <> [] ->
  forall fuel depth rest acc,
    Forall sorted a -> forallb numbers_ok a = true ->
    Forall (fun v => depth + vdepth v <= 128)%nat a ->
    (2 * length (join (map dump a) ++ zb 93 :: rest) + 2 <= fuel)%nat ->
    parse_elements fuel depth (join (map dump a) ++ zb 93 :: rest) acc = Ok (Array (acc ++ a)) rest.
Proof.
  induction 1 as [|v a Hv Ha IH]; [done|]. intros _ fuel depth rest acc Hs Hn Hd Hf.
  apply Forall_cons in Hs as [Hsv Hs]. apply Forall_cons in Hd as [Hdv Hd].
  cbn [forallb] in Hn. apply andb_prop in Hn as [Hnv Hn].
  destruct fuel as [|fuel]; [lia|]. cbn [parse_elements].
  destruct a as [|v2 a].
  - cbn [map join] in *. rewrite Hv by (done || lia || (simpl; auto)).
    cbn [skip_ws]. change (is_ws (zb 93)) with false. cbn iota.
    change (beq (zb 93) comma) with false. change (beq (zb 93) (zb 93)) with true. done.
  - cbn [map] in *. rewrite join_cons2 in *.
    set (tl := join (dump v2 :: map dump a)) in *.
    assert (El : (dump v ++ [comma] ++ tl) ++ zb 93 :: rest = dump v ++ comma :: (tl ++ zb 93 :: rest))
      by (by rewrite <- !app_assoc).
    rewrite El in *.
    rewrite Hv by (done || lia || (simpl; auto)).
    cbn [skip_ws]. change (is_ws comma) with false. cbn iota.
    change (beq comma comma) with true. cbn iota.
    rewrite IH; try done.
    + by rewrite <- app_assoc.
    + change (join (map dump (v2 :: a))) with tl.
      len_lia.
Qed.

(** What the members loop makes of the members it reads, any keys. *)
Definition emplace_all (acc o : list (cstr * Value)) : list (cstr * Value) :=
  foldl (fun m kv => om_emplace kv.1 kv.2 m) acc o.

Definition member_text (kv : cstr * Value) : cstr := escape kv.1 ++ [colon] ++ dump kv.2.

Lemma members_read o : Forall (fun kv => reads_back kv.2) o -> o <> [] ->
  forall fuel depth rest acc,
    Forall (fun kv => sorted kv.2) o -> forallb (fun kv => numbers_ok kv.2) o = true ->
    Forall (fun kv => depth + vdepth kv.2 <= 128)%nat o ->
    (2 * length (join (map member_text o) ++ zb 125 :: rest) + 2 <= fuel)%nat ->
    parse_members fuel depth (join (map member_text o) ++ zb 125 :: rest) acc
    = Ok (Object (emplace_all acc o)) rest.
Proof.
  induction 1 as [|[k v] o Hv Ho IH]; [done|]. intros _ fuel depth rest acc Hs Hn Hd Hf.
  apply Forall_cons in Hs as [Hsv Hs]. apply Forall_cons in Hd as [Hdv Hd].
  cbn [forallb] in Hn. apply andb_prop in Hn as [Hnv Hn]. cbn [snd] in Hv, Hsv, Hnv, Hdv.
  destruct fuel as [|fuel]; [lia|]. cbn [parse_members emplace_all foldl fst snd].
  assert (Hkey : forall x, skip_ws (escape k ++ x) = escape k ++ x) by done.
  destruct o as [|kv2 o].
  - cbn [map join] in *. unfold member_text in *. cbn [fst snd] in *.
    assert (El : (escape k ++ [colon] ++ dump v) ++ zb 125 :: rest
                 = escape k ++ colon :: (dump v ++ zb 125 :: rest)) by (by rewrite <- !app_assoc).
    rewrite El in *. rewrite Hkey, parse_string_escape. cbn [skip_ws].
    change (is_ws colon) with false. cbn iota. change (beq colon colon) with true. cbn iota.
    rewrite Hv; [|done|done|done|simpl; auto|len_lia].
    cbn [skip_ws]. change (is_ws (zb 125)) with false. cbn iota.
    change (beq (zb 125) comma) with false. change (beq (zb 125) (zb 125)) with true. done.
  - cbn [map] in *. rewrite join_cons2 in *.
    set (tl := join (member_text kv2 :: map member_text o)) in *.
    assert (El : (member_text (k, v) ++ [comma] ++ tl) ++ zb 125 :: rest
                 = escape k ++ colon :: (dump v ++ comma :: (tl ++ zb 125 :: rest)))
      by (unfold member_text; cbn [fst snd]; by rewrite <- !app_assoc).
    rewrite El in *. rewrite Hkey, parse_string_escape. cbn [skip_ws].
    change (is_ws colon) with false. cbn iota. change (beq colon colon) with true. cbn iota.
    rewrite Hv; [|done|done|done|simpl; auto|len_lia].
    cbn [skip_ws]. change (is_ws comma) with false. cbn iota.
    change (beq comma comma) with true. cbn iota.
    rewrite IH; try done. len_lia.
Qed.

(** Keys in order are added at the end. *)
Lemma emplace_all_ascending acc o : ascending (acc ++ o) -> emplace_all acc o = acc ++ o.
Proof.
  revert acc. induction o as [|[k v] o IH]; intros acc Has; [by rewrite app_nil_r|].
  cbn [emplace_all foldl fst snd].
  assert (Hlt : Forall (fun kv => klt kv.1 k = true) acc).
  { clear - Has. induction acc as [|[k1 v1] acc IH]; [constructor|]. destruct Has as [Hall Has].
    constructor; [|by apply IH]. rewrite Forall_app, Forall_cons in Hall. apply Hall. }
  assert (Hemp : om_emplace k v acc = acc ++ [(k, v)]).
  { unfold om_emplace. replace (om_find k acc) with (@None Value); [by apply om_set_last|].
    clear - Hlt. symmetry. induction Hlt as [|[k1 v1] acc Hk _ IH]; [done|].
    cbn [om_find fst] in *. rewrite IH. replace (keq k k1) with false; [done|]. symmetry.
    by apply keq_neq, not_eq_sym, klt_neq. }
  rewrite Hemp. change (emplace_all (acc ++ [(k, v)]) o = acc ++ (k, v) :: o).
  rewrite IH; by rewrite <- app_assoc.
Qed.

Lemma sorted_array a : sorted (Array a) -> Forall sorted a.
Proof. induction a as [|v a IH]; [constructor|]. intros [Hv Ha]. constructor; [done | by apply IH]. Qed.

Lemma sorted_members (o : list (cstr * Value)) :
  fold_right (fun kv p => sorted kv.2 /\ p) True o -> Forall (fun kv => sorted kv.2) o.
Proof. induction o as [|v a IH]; [constructor|]. intros [Hv Ha]. constructor; [done | by apply IH]. Qed.

Lemma list_max_in (l : list nat) x : x ∈ l -> (x <= list_max l)%nat.
Proof.
  intros H. pose proof (proj1 (list_max_le l (list_max l)) ltac:(lia)) as Ha.
  rewrite List.Forall_forall in Ha. apply Ha. by apply list_elem_of_In.
Qed.

Lemma dump_reads_back v : reads_back v.
Proof.
  induction v as [|b|d|s|a Ha|o Ho] using Value_rect'; intros fuel depth rest Hs Hn Hd Hst Hf.
  all: destruct fuel as [|fuel]; [lia|]; cbn [parse_value]; rewrite skip_ws_dump by done.
  - done.
  - by destruct b.
  - cbn [dump] in *. pose proof (parse_number_dump d rest Hn Hst) as Hp.
    cbn [numbers_ok] in Hn. unfold number_ok in Hn. apply andb_prop in Hn as [_ Hn].
    destruct (dump_number d) as [|c t]; [done|]. cbn [app] in *.
    assert (Hc : beq c quote = false /\ beq c (zb 123) = false /\ beq c (zb 91) = false /\
                 beq c (zb 116) = false /\ beq c (zb 102) = false /\ beq c (zb 110) = false).
    { apply orb_prop in Hn as [H|H]; [by apply beq_eq in H as ->|].
      apply is_digit_range in H. unfold digit_val in H. unfold beq, quote.
      split_and!; apply Z.eqb_neq; rewrite bz_zb_small by lia; lia. }
    destruct Hc as (-> & -> & -> & -> & -> & ->). cbn [orb]. rewrite Hn. by rewrite Hp.
  - pose proof (parse_string_escape s rest) as Hp. cbn [dump] in *. unfold escape in *.
    cbn [app] in *. change (beq quote quote) with true. cbn iota. by rewrite Hp.
  - cbn [dump] in *. cbn [app] in *. change (beq (zb 91) quote) with false.
    change (beq (zb 91) (zb 123) || beq (zb 91) (zb 91)) with true. cbn iota.
    change (beq (zb 91) (zb 123)) with false. cbn iota. rewrite <- app_assoc in *. cbn [app] in *.
    cbn [vdepth] in Hd. destruct (Nat.leb_spec kMaxNestingDepth depth) as [H|_];
      [unfold kMaxNestingDepth in H; lia|].
    destruct a as [|v a].
    { cbn [map join app skip_ws]. change (is_ws (zb 93)) with false. cbn iota.
      change (beq (zb 93) (zb 93)) with true. done. }
    assert (Hn' := Hn). cbn [numbers_ok forallb] in Hn'. apply andb_prop in Hn' as [Hnv _].
    assert (Hsk : exists t, skip_ws (join (map dump (v :: a)) ++ zb 93 :: rest)
                  = join (map dump (v :: a)) ++ zb 93 :: rest /\
                  exists c, join (map dump (v :: a)) ++ zb 93 :: rest = c :: t /\ beq c (zb 93) = false).
    { destruct (dump_head v Hnv) as (c & t & Hc & Hw & H93). cbn [map join].
      destruct (map dump a); rewrite Hc; cbn [app skip_ws]; rewrite Hw; eexists; (split; [reflexivity|]);
        exists c; (split; [reflexivity | done]). }
    destruct Hsk as (t & -> & c & Ec & H93). rewrite Ec, H93, <- Ec.
    rewrite elements_read_back; try done.
    + by apply sorted_array.
    + apply Forall_forall. intros x Hx.
      pose proof (list_max_in (map vdepth (v :: a)) (vdepth x)) as Hm.
      specialize (Hm ltac:(apply list_elem_of_In, in_map, list_elem_of_In, Hx)). lia.
    + cbn [length] in Hf. lia.
  - cbn [dump] in *. cbn [app] in *. change (beq (zb 123) quote) with false.
    change (beq (zb 123) (zb 123) || beq (zb 123) (zb 91)) with true. cbn iota.
    change (beq (zb 123) (zb 123)) with true. cbn iota. rewrite <- app_assoc in *. cbn [app] in *.
    cbn [vdepth] in Hd. destruct (Nat.leb_spec kMaxNestingDepth depth) as [H|_];
      [unfold kMaxNestingDepth in H; lia|].
    destruct Hs as [Has Hs]. destruct o as [|kv o].
    { cbn [map join app skip_ws]. change (is_ws (zb 125)) with false. cbn iota.
      change (beq (zb 125) (zb 125)) with true. done. }
    set (body := join (map _ (kv :: o)) ++ zb 125 :: rest) in *.
    assert (Hsk : exists t, skip_ws body = body /\ body = quote :: t).
    { subst body. cbn [map join]. destruct (map _ o); eexists; split; reflexivity. }
    destruct Hsk as (t & -> & Et). rewrite Et. change (beq quote (zb 125)) with false. cbn iota.
    rewrite <- Et. subst body.
    change (fun kv => escape kv.1 ++ [colon] ++ dump kv.2) with member_text in *.
    rewrite members_read; try done; [by rewrite emplace_all_ascending | | |].
    + by apply sorted_members.
    + apply Forall_forall. intros x Hx.
      pose proof (list_max_in (map (fun kv => vdepth kv.2) (kv :: o)) (vdepth x.2)) as Hm.
      specialize (Hm ltac:(apply list_elem_of_In, (in_map (fun kv => vdepth kv.2)), list_elem_of_In, Hx)). lia.
    + unfold member_text. cbn [length app] in Hf |- *. lia.
Qed.

Lemma parse_of_dump v :
  sorted v -> (vdepth v <= 128)%nat -> numbers_ok v = true -> parse (dump v) = Ok v [].
Proof.
  intros Hs Hd Hn. unfold parse, parse_with. pose proof (skip_ws_dump v [] Hn) as Hw.
  pose proof (dump_reads_back v (text_fuel (dump v)) 0%nat []) as H. rewrite app_nil_r in *.
  rewrite Hw, H; [done | done | done | simpl; lia | done |]. unfold text_fuel. lia.
Qed.

(** The text of an object as code writes it, its members in any order, also
    with a key twice: the first one counts. *)
Definition object_text (ms : list (cstr * Value)) : cstr := [zb 123] ++ join (map member_text ms) ++ [zb 125].

Definition members_ok (depth : nat) (ms : list (cstr * Value)) : Prop :=
  ms <> [] /\ Forall (fun kv => sorted kv.2) ms /\ forallb (fun kv => numbers_ok kv.2) ms = true /\
  Forall (fun kv => depth + vdepth kv.2 <= 127)%nat ms.

Lemma object_text_read ms fuel depth rest :
  members_ok depth ms -> (depth < 128)%nat -> (2 * length (object_text ms ++ rest) + 2 <= fuel)%nat ->
  parse_value fuel depth (object_text ms ++ rest) = Ok (Object (emplace_all [] ms)) rest.
Proof.
  intros (Hne & Hs & Hn & Hd) Hdep Hf. unfold object_text in *. rewrite <- !app_assoc in *. cbn [app] in *.
  set (body := join (map member_text ms) ++ zb 125 :: rest) in *.
  assert (Hb : exists t, body = quote :: t).
  { subst body. destruct ms as [|kv ms]; [done|]. cbn [map join]. destruct (map _ ms); eexists; reflexivity. }
  destruct Hb as [t Hb]. destruct fuel as [|fuel]; [lia|]. cbn [parse_value skip_ws]. change (is_ws (zb 123)) with false. cbn iota.
  change (beq (zb 123) quote) with false. change (beq (zb 123) (zb 123)) with true. cbn [orb].
  rewrite (proj2 (Nat.leb_gt _ _)) by (unfold kMaxNestingDepth; lia). cbn iota.
  assert (Hsk : skip_ws body = quote :: t) by (by rewrite Hb). rewrite Hsk.
  change (beq quote (zb 125)) with false. cbn iota. rewrite <- Hb. unfold body. apply members_read; try done.
  - apply Forall_forall. intros kv _. apply dump_reads_back.
  - eapply Forall_impl; [exact Hd|]. simpl. lia.
  - fold body. cbn [length] in Hf. lia.
Qed.

Lemma parse_member_list ms :
  ms <> [] -> Forall (fun kv => sorted kv.2) ms -> forallb (fun kv => numbers_ok kv.2) ms = true ->
  Forall (fun kv => vdepth kv.2 <= 127)%nat ms ->
  parse ([zb 123] ++ join (map member_text ms) ++ [zb 125]) = Ok (Object (emplace_all [] ms)) [].
Proof.
  intros Hne Hs Hn Hd. fold (object_text ms). unfold parse, parse_with.
  change (skip_ws (object_text ms)) with (object_text ms).
  pose proof (object_text_read ms (text_fuel (object_text ms)) 0 []) as H. rewrite app_nil_r in H.
  rewrite H; [reflexivity | by split | lia | unfold text_fuel; lia].
Qed.

(** An object of one member, an object too. *)
Lemma wrapped_member_read key ms n depth :
  members_ok depth ms -> (depth < 128)%nat -> (2 * length (object_text ms ++ [zb 125]) + 2 <= n)%nat ->
  parse_members (S n) depth (escape key ++ colon :: object_text ms ++ [zb 125]) [] = Ok (Object [(key, Object (emplace_all [] ms))]) [].
Proof.
  intros Hms Hd Hn. cbn [parse_members].
  change (skip_ws (escape key ++ ?r)) with (escape key ++ r). rewrite parse_string_escape. cbn [skip_ws].
  change (is_ws colon) with false. cbn iota. change (beq colon colon) with true. cbn iota.
  rewrite object_text_read by done. reflexivity.
Qed.

Lemma parse_wrapped_object key ms :
  members_ok 1 ms ->
  parse ([zb 123] ++ escape key ++ [colon] ++ object_text ms ++ [zb 125]) = Ok (Object [(key, Object (emplace_all [] ms))]) [].
Proof.
  intros Hms. set (body := escape key ++ colon :: object_text ms ++ [zb 125]).
  change ([zb 123] ++ escape key ++ [colon] ++ object_text ms ++ [zb 125]) with (zb 123 :: body).
  assert (Hl : exists n, text_fuel (zb 123 :: body) = S (S n) /\ (2 * length (object_text ms ++ [zb 125]) + 2 <= n)%nat).
  { exists (2 * length body + 2)%nat. pose proof (length_app (escape key) (colon :: object_text ms ++ [zb 125])) as H. fold body in H.
    change (length (colon :: ?t)) with (S (length t)) in H. unfold text_fuel. change (length (zb 123 :: body)) with (S (length body)). lia. }
  destruct Hl as (n & Hfuel & Hn). unfold parse, parse_with. rewrite Hfuel.
  do 2 (change (skip_ws (zb 123 :: body)) with (zb 123 :: body); cbn [parse_value]; cbn iota).
  change (beq (zb 123) quote) with false. change (beq (zb 123) (zb 123)) with true. cbn [orb].
  change (kMaxNestingDepth <=? 0)%nat with false. cbn iota.
  assert (Hb : exists t, body = quote :: t) by (eexists; reflexivity). destruct Hb as [t Hb].
  assert (Hsk : skip_ws body = quote :: t) by (by rewrite Hb). rewrite Hsk.
  change (beq quote (zb 125)) with false. cbn iota. rewrite <- Hb. unfold body.
  rewrite wrapped_member_read by (done || lia). reflexivity.
Qed.

(** Looking a key up among members that were read: the first one counts. *)
Fixpoint first_member (key : cstr) (ms : list (cstr * Value)) : option Value :=
  match ms with [] => None | (k, v) :: ms => if keq key k then Some v else first_member key ms end.

Lemma find_emplace_all key ms : forall acc,
  om_find key (emplace_all acc ms) = match om_find key acc with Some v => Some v | None => first_member key ms end.
Proof.
  induction ms as [|[k v] ms IH]; intros acc; cbn [emplace_all foldl first_member fst snd]; [by destruct (om_find key acc)|].
  change (foldl _ ?a ms) with (emplace_all a ms). rewrite IH, om_find_emplace. destruct (om_find key acc); [done|].
  by destruct (keq key k).
Qed.

(** An integer of at most 53 bits comes back from its double. *)
Lemma as_int_of_int d z : Z.abs z < 2 ^ 53 -> as_int d (Number (of_int z)) = z.
Proof.
  intros Hz. destruct (of_int_exact z Hz) as (Ht & _ & _). cbn [as_int].
  assert (Hx : trunc (of_int z) = Some z -> match of_int z with S754_nan | S754_infinity _ => False | _ => True end)
    by (by destruct (of_int z)).
  specialize (Hx Ht). destruct (of_int z) eqn:E; try done; rewrite <- E in Ht |- *; clear E; rewrite Ht;
    destruct (Z.leb_spec (2 ^ 63) z), (Z.leb_spec z (- 2 ^ 63)); lia.
Qed.

(** ** The properties *)

(** A text is always parsed to a value or to an error: the recursion ends
    for every input, however deeply it nests. *)
Lemma parse_total (text : cstr) : parse text <> Fuel.
Proof.
  unfold parse, parse_with. pose proof (skip_ws_length text).
  pose proof (proj1 (parse_enough (text_fuel text)) 0%nat (skip_ws text)) as H0.
  destruct (parse_value (text_fuel text) 0 (skip_ws text)) as [v rest| |]; [|done|].
  - by destruct (skip_ws rest).
  - exfalso. apply H0; [unfold text_fuel; lia | done].
Qed.

(** What is parsed nests at most 128 deep and its objects are maps with
    their keys in order. *)
Lemma parse_bounded (text : cstr) (v : Value) (rest : cstr) :
  parse text = Ok v rest -> sorted v /\ (vdepth v <= 128)%nat.
Proof.
  unfold parse, parse_with.
  pose proof (proj1 (parse_fits (text_fuel text)) 0%nat (skip_ws text) ltac:(lia)) as H0.
  destruct (parse_value (text_fuel text) 0 (skip_ws text)) as [v' rest'| |]; [|done..].
  destruct (skip_ws rest'); [|done]. intros [= <- <-]. destruct H0 as [Hs Hd]. simpl in Hd. done.
Qed.

(** C35: serialising a value and parsing the text gives the value back, for any
    strings and keys and any numbers that read back from their own text. *)
Theorem parse_dump (v : Value) :
  sorted v -> (vdepth v <= 128)%nat -> numbers_ok v = true -> parse (dump v) = Ok v [].
Proof. apply parse_of_dump. Qed.

(** ** Paths *)

(** A path as a list of steps, and its text: ["hits[0].id"]. *)
Inductive step := Key (k : cstr) | Index (i : Z).

Definition step_text (s : step) : cstr :=
  match s with Key k => k | Index i => [zb 91] ++ dec_nonneg i ++ [zb 93] end.

Fixpoint render (ss : list step) : cstr :=
  match ss with
  | [] => []
  | s :: rest => step_text s ++ (match rest with Key _ :: _ => [point] | _ => [] end) ++ render rest
  end.

(** Looking the steps up one after the other. *)
Definition walk1 (v : Value) (s : step) : Value :=
  match s, v with
  | Key k, Object o => default Null (om_find k o)
  | Index i, Array a => default Null (a !! Z.to_nat i)
  | _, _ => Null
  end.

Definition is_sep (c : byte) : bool := beq c point || beq c (zb 91).

(** A key the path syntax can name; an index the library reads. *)
Definition step_ok (s : step) : Prop :=
  match s with
  | Key k => k <> [] /\ Forall (fun c => is_sep c = false) k
  | Index i => 0 <= i < 2 ^ 64
  end.

(** What may follow a step: nothing, a point, or an index. *)
Definition follows (tl : cstr) : Prop :=
  match tl with [] => True | c :: _ => c = point \/ c = zb 91 end.

Definition after (tl : cstr) : cstr :=
  match tl with c :: tl' => if beq c point then tl' else tl | [] => [] end.

Lemma find_step_key v k tl :
  k <> [] -> Forall (fun c => is_sep c = false) k -> follows tl ->
  default (Null, []) (find_step v (k ++ tl)) =
  match v with
  | Object o => match om_find k o with Some v => (v, after tl) | None => (Null, []) end
  | _ => (Null, [])
  end.
Proof.
  intros Hk Hs Ht. destruct k as [|c k]; [done|]. cbn [app]. unfold find_step.
  assert (H91 : beq c (zb 91) = false).
  { apply Forall_cons in Hs as [Hc _]. unfold is_sep in Hc. by apply orb_false_iff in Hc as [_ ?]. }
  rewrite H91. change (c :: k ++ tl) with ((c :: k) ++ tl).
  change (fun c => beq c point || beq c (zb 91)) with is_sep. rewrite find_if_app by done.
  destruct v as [| | | | |o]; try done.
  destruct tl as [|d tl].
  - simpl find_if. cbn [option_map]. rewrite app_nil_r. by destruct (om_find (c :: k) o).
  - assert (Hd : is_sep d = true) by (by destruct Ht as [-> | ->]).
    assert (Hf : find_if is_sep (d :: tl) = Some 0%nat) by (simpl; by rewrite Hd).
    rewrite Hf. cbn [option_map]. rewrite Nat.add_0_r, take_app_length, drop_app_length.
    destruct (om_find (c :: k) o); [|done]. simpl. by destruct (beq d point).
Qed.

Lemma find_step_index v i tl :
  0 <= i < 2 ^ 64 -> 
  default (Null, []) (find_step v (([zb 91] ++ dec_nonneg i ++ [zb 93]) ++ tl)) =
  match v with
  | Array a => match a !! Z.to_nat i with Some v => (v, after tl) | None => (Null, []) end
  | _ => (Null, [])
  end.
Proof.
  intros Hi. destruct (dec_nonneg_spec i) as (_ & Hd & _); [lia|].
  rewrite <- !app_assoc. cbn [app]. unfold find_step.
  change (beq (zb 91) (zb 91)) with true. cbn iota.
  set (ds := dec_nonneg i) in *.
  assert (Hf : find_char (zb 93) (zb 91 :: ds ++ zb 93 :: tl) = Some (S (length ds))).
  { unfold find_char. change (zb 91 :: ds ++ zb 93 :: tl) with ((zb 91 :: ds) ++ zb 93 :: tl).
    rewrite find_if_app.
    - simpl. by rewrite Nat.add_0_r.
    - constructor; [done|]. eapply Forall_impl; [exact Hd|]. intros c Hc. apply beq_neq. intros <-. done. }
  rewrite Hf. destruct v as [| | | |a|]; try done.
  assert (Hsub : sub 1 (S (length ds) - 1) (zb 91 :: ds ++ zb 93 :: tl) = ds).
  { unfold sub. cbn [drop]. replace (S (length ds) - 1)%nat with (length ds) by lia. apply take_app_length. }
  rewrite Hsub. unfold ds. rewrite stoul_dec by done. fold ds.
  assert (Hdrop : drop (S (length ds) + 1) (zb 91 :: ds ++ zb 93 :: tl) = tl).
  { change (zb 91 :: ds ++ zb 93 :: tl) with ((zb 91 :: ds) ++ [zb 93] ++ tl).
    rewrite app_assoc. apply drop_app_length'. rewrite length_app. simpl. lia. }
  rewrite Hdrop. destruct (a !! Z.to_nat i); [|done]. cbn [default]. by destruct tl.
Qed.

Lemma render_after s rest :
  Forall step_ok (s :: rest) ->
  let tl := (match rest with Key _ :: _ => [point] | _ => [] end) ++ render rest in
  follows tl /\ after tl = render rest.
Proof.
  intros Hok tl. subst tl. apply Forall_cons in Hok as [_ Hok].
  destruct rest as [|[k|i] rest]; [done| |].
  - split; [by left|]. cbn [app after]. by change (beq point point) with true.
  - split; [by right | done].
Qed.

Lemma find_step_nonempty v path fuel :
  path <> [] ->
  find_fuel (S fuel) v path =
  let '(v', rest) := default (Null, []) (find_step v path) in find_fuel fuel v' rest.
Proof.
  intros Hp. destruct path as [|c path]; [done|]. cbn [find_fuel].
  destruct (find_step v (c :: path)) as [[v' rest]|]; [done|]. cbn [default].
  by destruct fuel.
Qed.

Lemma find_null fuel path : find_fuel fuel Null path = Null.
Proof. destruct fuel, path as [|c path]; done. Qed.

Lemma step_text_nonempty s : step_ok s -> (0 < length (step_text s))%nat.
Proof. destruct s as [k|i]; simpl; [|lia]. intros [Hk _]. destruct k; [done | simpl; lia]. Qed.

Lemma foldl_null ss : foldl walk1 Null ss = Null.
Proof. induction ss as [|[k|i] ss IH]; done. Qed.

Lemma find_render ss : forall v fuel,
  Forall step_ok ss -> (length (render ss) <= fuel)%nat ->
  find_fuel fuel v (render ss) = foldl walk1 v ss.
Proof.
  induction ss as [|s rest IH]; intros v fuel Hok Hf; [by destruct fuel|].
  destruct (render_after s rest Hok) as [Hfol Haft].
  apply Forall_cons in Hok as [Hs Hok]. pose proof (step_text_nonempty s Hs) as Hne.
  cbn [render] in *. set (tl := _ ++ render rest) in *.
  rewrite length_app in Hf.
  assert (Hlt : (length (render rest) <= length tl)%nat) by (subst tl; rewrite length_app; lia).
  destruct fuel as [|fuel]; [lia|].
  rewrite find_step_nonempty by (intros E%(f_equal length); rewrite length_app in E; simpl in E; lia).
  assert (Hstep : exists v' r, default (Null, []) (find_step v (step_text s ++ tl)) = (v', r) /\
                  v' = walk1 v s /\ (v' = Null \/ r = after tl)).
  { destruct s as [k|i]; cbn [step_text walk1].
    - destruct Hs as [Hk Hsep]. rewrite find_step_key by done.
      destruct v as [| | | | |o]; try (do 2 eexists; by split_and!; [|..|left]).
      destruct (om_find k o); do 2 eexists; split_and!; [done|done|by right|done|done|by left].
    - rewrite find_step_index by done.
      destruct v as [| | | |a|]; try (do 2 eexists; by split_and!; [|..|left]).
      destruct (a !! Z.to_nat i); do 2 eexists; split_and!; [done|done|by right|done|done|by left]. }
  destruct Hstep as (v' & r & -> & Hv' & Hr). cbn [foldl]. rewrite <- Hv'.
  destruct Hr as [-> | ->]; [by rewrite find_null, foldl_null|].
  rewrite Haft. apply IH; [done | lia].
Qed.

(** A dotted path looks its steps up one after the other: a key in an
    object, an index in an array, and null at the first miss. *)
Lemma find_walk (v : Value) (ss : list step) :
  Forall step_ok ss -> find v (render ss) = foldl walk1 v ss.
Proof. intros Hok. by apply find_render. Qed.

(** Reading a number as a 64-bit integer never leaves the range of the
    type, whatever the document holds. *)
Lemma as_int_range (d : Z) (v : Value) :
  - 2 ^ 63 <= d < 2 ^ 63 -> - 2 ^ 63 <= as_int d v < 2 ^ 63.
Proof.
  intros Hd. destruct v as [| |x| | |]; try exact Hd. cbn [as_int].
  destruct x as [s|s| |s m e]; [done| |exact Hd|].
  - destruct s; done.
  - destruct (trunc _) as [z|]; [|exact Hd].
    destruct (Z.leb_spec (2 ^ 63) z); [lia|]. destruct (Z.leb_spec z (- 2 ^ 63)); lia.
Qed.

(** The upper bound of [dump] is one too large: [2^63] passes the test for
    what fits [long long] and is cast to it. *)
Lemma dump_bound_too_large : dump (Number (round false (2 ^ 63) 0)) = str "-9223372036854775808".
Proof. vm_compute. reflexivity. Qed.

(** ** Concrete documents *)

Definition demo_value : Value :=
  Object [(str "hits", Array [Object [(str "id", Number (of_int 7))]; Null]);
          (str "name", String (str "a\b")); (str "on", Bool true);
          (str "temp", Number (default S754_nan (stod (str "0.1"))))].

Example demo_text :
  dump demo_value = str "{" ++ [quote] ++ str "hits" ++ [quote] ++ str ":[{" ++ [quote] ++ str "id"
    ++ [quote] ++ str ":7},null]," ++ [quote] ++ str "name" ++ [quote] ++ str ":" ++ [quote]
    ++ str "a\\b" ++ [quote] ++ str "," ++ [quote] ++ str "on" ++ [quote] ++ str ":true,"
    ++ [quote] ++ str "temp" ++ [quote] ++ str ":0.10000000000000001}".
Proof. vm_compute. reflexivity. Qed.

Lemma parse_dump_witness : parse (dump demo_value) = Ok demo_value [].
Proof. apply parse_dump; [cbn; repeat split; repeat constructor | cbn; lia | vm_compute; reflexivity]. Defined.

Lemma parse_bounded_witness :
  sorted (Array [Number (of_int 1); Array []]) /\ (vdepth (Array [Number (of_int 1); Array []]) <= 128)%nat.
Proof. apply (parse_bounded (str " [1, [ ] ] ") _ []). vm_compute. reflexivity. Defined.

Lemma find_walk_witness :
  find demo_value (render [Key (str "hits"); Index 0; Key (str "id")])
  = foldl walk1 demo_value [Key (str "hits"); Index 0; Key (str "id")].
Proof. apply find_walk. repeat constructor; done. Defined.

Example find_path : render [Key (str "hits"); Index 0; Key (str "id")] = str "hits[0].id".
Proof. vm_compute. reflexivity. Qed.

Lemma as_int_range_witness : - 2 ^ 63 <= as_int (-1) (Number (S754_infinity false)) < 2 ^ 63.
Proof. apply as_int_range. lia. Defined.
