(* ===== verification/H264.v ===== *)
(** H.264 Annex-B helpers ([stubs/h264_avcc.cpp]): the start-code scanner, the
    conversion to length-prefixed NAL units, the bit reader with its
    exponential Golomb codes, and the geometry of a sequence parameter set.

    The null-pointer checks of the entry points have no counterpart: a buffer
    is the list of its bytes. *)

From S2P Require Import Prelude Double.

(** ** NAL units *)

(** Whether a start code begins here, and its length. *)
Definition start_code (l : list byte) : option nat :=
  match l with
  | a :: b :: c :: l' =>
      if (bz a =? 0) && (bz b =? 0) then
        if bz c =? 1 then Some 3%nat
        else match l' with
             | d :: _ => if (bz c =? 0) && (bz d =? 1) then Some 4%nat else None
             | [] => None
             end
      else None
  | _ => None
  end.

(** [find_start_code] from the head of the list: the bytes before the next
    start code, its length and what is left with it; [None] is [size]. *)
Fixpoint find_start_code (l : list byte) : option (nat * nat) :=
  match start_code l with
  | Some n => Some (O, n)
  | None => match l with
            | [] => None
            | _ :: l' => option_map (fun p => (S p.1, p.2)) (find_start_code l')
            end
  end.

Definition nal_type (nal : list byte) : Z := Z.land (zat nal 0) 0x1f.

(** The loop of [for_each_nal], on what follows a start code. *)
Fixpoint nal_loop (fuel : nat) (l : list byte) : list (list byte) :=
  match fuel with
  | O => []
  | S fuel =>
      match find_start_code l with
      | None => match l with [] => [] | _ => [l] end
      | Some (next, sc_len) =>
          let nal := take next l in
          let rest := nal_loop fuel (drop (next + sc_len) l) in
          match nal with [] => rest | _ => nal :: rest end
      end
  end.

(** The NAL units [for_each_nal] visits, in order. *)
Definition for_each_nal (data : list byte) : list (list byte) :=
  match find_start_code data with
  | None => []
  | Some (sc, sc_len) => nal_loop (length data) (drop (sc + sc_len) data)
  end.

Definition enc_be32 (n : Z) : list byte :=
  [zb (Z.land (Z.shiftr n 24) 0xff); zb (Z.land (Z.shiftr n 16) 0xff);
   zb (Z.land (Z.shiftr n 8) 0xff); zb (Z.land n 0xff)].

(** [None] is [false]: a NAL too long for its length field. *)
Definition append_avcc_nal (out nal : list byte) : option (list byte) :=
  if 2 ^ 32 - 1 <? Z.of_nat (length nal) then None
  else Some (out ++ enc_be32 (Z.of_nat (length nal)) ++ nal).

Record ParameterSets := { ps_sps : list byte; ps_pps : list byte }.
Record AvccFrame := { avcc_data : list byte; avcc_idr : bool }.

Definition collect_set (out : ParameterSets) (nal : list byte) : ParameterSets :=
  if nal_type nal =? 7 then {| ps_sps := nal; ps_pps := ps_pps out |}
  else if nal_type nal =? 8 then {| ps_sps := ps_sps out; ps_pps := nal |}
  else out.

Definition extract_parameter_sets (data : list byte) : bool * ParameterSets :=
  let out := foldl collect_set {| ps_sps := []; ps_pps := [] |} (for_each_nal data) in
  (negb (length (ps_sps out) =? 0)%nat && negb (length (ps_pps out) =? 0)%nat, out).

Definition convert_nal (st : bool * AvccFrame) (nal : list byte) : bool * AvccFrame :=
  let '(ok, out) := st in
  if negb ok then st
  else
    let t := nal_type nal in
    if (t =? 7) || (t =? 8) || (t =? 9) then st
    else
      let idr := avcc_idr out || (t =? 5) in
      match append_avcc_nal (avcc_data out) nal with
      | None => (false, {| avcc_data := avcc_data out; avcc_idr := idr |})
      | Some data => (true, {| avcc_data := data; avcc_idr := idr |})
      end.

Definition annexb_to_avcc (data : list byte) : bool * AvccFrame :=
  let '(ok, out) := foldl convert_nal (true, {| avcc_data := []; avcc_idr := false |})
                      (for_each_nal data) in
  if negb ok then (false, {| avcc_data := []; avcc_idr := false |})
  else (negb (length (avcc_data out) =? 0)%nat, out).

Definition contains_idr (data : list byte) : bool :=
  existsb (fun nal => nal_type nal =? 5) (for_each_nal data).

(** ** The bit reader *)

(** The constructor strips the emulation-prevention bytes. *)
Fixpoint strip_emulation (l : list byte) : list byte :=
  match l with
  | a :: l1 =>
      match l1 with
      | b :: c :: l' =>
          if (bz a =? 0) && (bz b =? 0) && (bz c =? 3) then x00 :: x00 :: strip_emulation l'
          else a :: strip_emulation l1
      | _ => a :: strip_emulation l1
      end
  | [] => []
  end.

Record RbspReader := { rb_buf : list byte; rb_bit : nat; rb_ok : bool }.

Definition new_reader (data : list byte) : RbspReader :=
  {| rb_buf := strip_emulation data; rb_bit := 0; rb_ok := true |}.

(** Computations that read bits. *)
Definition R (A : Type) : Type := RbspReader -> A * RbspReader.
Definition rret {A} (a : A) : R A := fun r => (a, r).
Definition rbind {A B} (m : R A) (f : A -> R B) : R B := fun r => let '(a, r) := m r in f a r.

Declare Scope rbsp_scope.
Notation "x <- m ; k" := (rbind m (fun x => k))
  (at level 100, m at level 90, k at level 200, right associativity) : rbsp_scope.
Notation "m ;; k" := (rbind m (fun _ => k))
  (at level 100, k at level 200, right associativity) : rbsp_scope.
#[local] Open Scope rbsp_scope.

Definition set_fail (r : RbspReader) : RbspReader :=
  {| rb_buf := rb_buf r; rb_bit := rb_bit r; rb_ok := false |}.
Definition advance_bit (r : RbspReader) : RbspReader :=
  {| rb_buf := rb_buf r; rb_bit := S (rb_bit r); rb_ok := rb_ok r |}.

Definition rok : R bool := fun r => (rb_ok r, r).

Definition bit_at (b : byte) (i : nat) : Z := Z.land (Z.shiftr (bz b) (7 - Z.of_nat i)) 1.

Fixpoint u_loop (n : nat) (v : Z) (r : RbspReader) : Z * RbspReader :=
  match n with
  | O => (v, r)
  | S n =>
      let byte := (rb_bit r / 8)%nat in
      match rb_buf r !! byte with
      | None => (0, set_fail r)
      | Some b => u_loop n (u32 (Z.lor (Z.shiftl v 1) (bit_at b (rb_bit r mod 8)))) (advance_bit r)
      end
  end.

Definition u (bits : nat) : R Z := u_loop bits 0.

(** The leading zeros of a code: [None] when there are more than 31. *)
Fixpoint ue_zeros (fuel : nat) (zeros : nat) (r : RbspReader) : option nat * RbspReader :=
  if rb_ok r then
    let '(b, r) := u 1 r in
    if b =? 0 then
      let zeros := S zeros in
      match fuel with
      | O => (None, set_fail r)
      | S fuel => ue_zeros fuel zeros r
      end
    else (Some zeros, r)
  else (Some zeros, r).

Definition ue : R Z := fun r =>
  match ue_zeros 31 0 r with
  | (None, r) => (0, r)
  | (Some zeros, r) =>
      if negb (rb_ok r) || (zeros =? 0)%nat then (0, r)
      else let '(v, r) := u zeros r in (u32 (u32 (Z.shiftl 1 (Z.of_nat zeros)) - 1 + v), r)
  end.

Definition se : R Z :=
  k <- ue;
  if k =? 0 then rret 0
  else
    let mag := s32 (u32 (k + 1) / 2) in
    rret (if Z.land k 1 =? 0 then s32 (- mag) else mag).

Definition profile_has_chroma_block (profile_idc : Z) : bool :=
  existsb (Z.eqb profile_idc) [100; 110; 122; 244; 44; 83; 86; 118; 128; 138; 139; 134; 135].

Fixpoint skip_scaling_list (n : nat) (last next : Z) : R unit :=
  match n with
  | O => rret tt
  | S n =>
      o <- rok;
      if negb o then rret tt
      else
        next <- (if next =? 0 then rret next
                 else d <- se; rret (Z.rem (s32 (s32 (last + d) + 256)) 256));
        skip_scaling_list n (if next =? 0 then last else next) next
  end.

(** ** The geometry of a sequence parameter set *)

Record SpsGeometry := { sg_width : Z; sg_height : Z; sg_fps : Z }.

Fixpoint scaling_lists (n i : nat) : R unit :=
  match n with
  | O => rret tt
  | S n =>
      o <- rok;
      if negb o then rret tt
      else
        present <- u 1;
        (if present =? 0 then rret tt else skip_scaling_list (if (i <? 6)%nat then 16 else 64) 8 8);;
        scaling_lists n (S i)
  end.

(** The chroma block of the high profiles: the chroma format and the plane
    flag. *)
Definition chroma_block : R (Z * bool) :=
  fmt <- ue;
  sep <- (if fmt =? 3 then b <- u 1; rret (negb (b =? 0)) else rret false);
  ue;; ue;; u 1;;
  scaling <- u 1;
  (if scaling =? 0 then rret tt else scaling_lists (if fmt =? 3 then 12 else 8) 0);;
  rret (fmt, sep).

(** [for (i = 0; i < n && r.ok(); ++i) r.se();] *)
Fixpoint se_loop (fuel : nat) (n : Z) : R unit :=
  match fuel with
  | O => rret tt
  | S fuel =>
      o <- rok;
      if (0 <? n) && o then se;; se_loop fuel (n - 1) else rret tt
  end.

(** Every [se] reads at least one bit or fails, so one more iteration than
    there are bits left is enough. *)
Definition loop_fuel (r : RbspReader) : nat := S (8 * length (rb_buf r) - rb_bit r).

Definition poc_block : R unit :=
  poc_type <- ue;
  if poc_type =? 0 then ue;; rret tt
  else if poc_type =? 1 then
    u 1;; se;; se;;
    n <- ue;
    fun r => se_loop (loop_fuel r) n r
  else rret tt.

Definition cropping : R (Z * Z * Z * Z) :=
  flag <- u 1;
  if flag =? 0 then rret (0, 0, 0, 0)
  else l <- ue; rr <- ue; t <- ue; b <- ue; rret (l, rr, t, b).

(** The frame rate in double precision. *)
Definition frame_rate (num_units_in_tick time_scale : Z) : Z :=
  let v := SFdiv prec emax (of_int time_scale)
             (SFmul prec emax (of_int 2) (of_int num_units_in_tick)) in
  if SFltb (S754_zero false) v && SFltb v (of_int 1000)
  then match trunc (SFadd prec emax v (round_quot false 1 2)) with Some z => s32 z | None => 0 end
  else 0.

Definition vui_fps : R Z :=
  vui <- u 1;
  if vui =? 0 then rret 0
  else
    aspect <- u 1;
    (if aspect =? 0 then rret tt
     else idc <- u 8; if idc =? 255 then u 16;; u 16;; rret tt else rret tt);;
    over <- u 1;
    (if over =? 0 then rret tt else u 1;; rret tt);;
    video <- u 1;
    (if video =? 0 then rret tt
     else u 3;; u 1;; colour <- u 1; if colour =? 0 then rret tt else u 8;; u 8;; u 8;; rret tt);;
    loc <- u 1;
    (if loc =? 0 then rret tt else ue;; ue;; rret tt);;
    timing <- u 1;
    if timing =? 0 then rret 0
    else
      num <- u 32;
      scale <- u 32;
      u 1;;
      o <- rok;
      rret (if o && (0 <? num) && (0 <? scale) then frame_rate num scale else 0).

(** Width and height in luma samples from the macroblock counts and the
    cropping offsets; [None] is out of range. *)
Definition display_size (fmt : Z) (sep : bool) (width_mbs height_maps : Z) (frame_mbs_only : bool)
    (crop : Z * Z * Z * Z) : option (Z * Z) :=
  let '(crop_l, crop_r, crop_t, crop_b) := crop in
  let cat := if sep then 0 else fmt in
  let sub_w := if (cat =? 1) || (cat =? 2) then 2 else 1 in
  let sub_h := if cat =? 1 then 2 else 1 in
  let unit_x := if cat =? 0 then 1 else sub_w in
  let unit_y := (if cat =? 0 then 1 else sub_h) * (if frame_mbs_only then 1 else 2) in
  let w := width_mbs * 16 - u32 (crop_l + crop_r) * unit_x in
  let h := height_maps * 16 * (if frame_mbs_only then 1 else 2) - u32 (crop_t + crop_b) * unit_y in
  if (w <=? 0) || (h <=? 0) || (16384 <? w) || (16384 <? h) then None else Some (w, h).

Definition parse_sps : R (option SpsGeometry) :=
  profile_idc <- u 8;
  u 8;; u 8;; ue;;
  chroma <- (if profile_has_chroma_block profile_idc then chroma_block else rret (1, false));
  let '(fmt, sep) := chroma in
  ue;;
  poc_block;;
  ue;; u 1;;
  w <- ue;
  h <- ue;
  mbs_only <- u 1;
  let frame_mbs_only := negb (mbs_only =? 0) in
  (if frame_mbs_only then rret tt else u 1;; rret tt);;
  u 1;;
  crop <- cropping;
  fps <- vui_fps;
  o <- rok;
  rret (if negb o then None
        else match display_size fmt sep (u32 (w + 1)) (u32 (h + 1)) frame_mbs_only crop with
             | None => None
             | Some (w, h) => Some {| sg_width := w; sg_height := h; sg_fps := fps |}
             end).

(** [parse_sps_geometry]: [None] is [false]. *)
Definition parse_sps_geometry (sps : list byte) : option SpsGeometry :=
  if (length sps <? 4)%nat then None else (parse_sps (new_reader (drop 1 sps))).1.

(** ** A stream of NAL units is split where it was joined *)

(** Inside a NAL unit no two zero bytes are followed by 0 or 1 (the encoder's
    emulation prevention), and its last byte is not zero. *)
Fixpoint no_window (l : list byte) : bool :=
  match l with
  | a :: l1 =>
      match l1 with
      | b :: c :: _ => negb ((bz a =? 0) && (bz b =? 0) && (bz c <=? 1)) && no_window l1
      | _ => no_window l1
      end
  | [] => true
  end.

Fixpoint last_nonzero (l : list byte) : bool :=
  match l with
  | [] => false
  | [a] => negb (bz a =? 0)
  | _ :: l' => last_nonzero l'
  end.

Definition well_formed (nal : list byte) : bool := no_window nal && last_nonzero nal.

Definition start_bytes (long : bool) : list byte := if long then [x00; x00; x00; x01] else [x00; x00; x01].

(** The stream: every NAL unit behind a start code of three or four bytes. *)
Definition annexb (items : list (bool * list byte)) : list byte :=
  concat ((fun it => start_bytes it.1 ++ it.2) <$> items).

Lemma well_formed_cons a l :
  l <> [] -> well_formed (a :: l) = true -> well_formed l = true.
Proof.
  unfold well_formed. intros Hl [H1 H2]%andb_prop. destruct l as [|b l]; [done|].
  apply andb_true_intro. split; [|done]. simpl in H1. destruct l as [|c l]; [done|].
  by apply andb_prop in H1 as [_ H1].
Qed.

(** No start code begins inside a well-formed NAL unit. *)
Lemma start_code_inside a l tl :
  well_formed (a :: l) = true -> start_code ((a :: l) ++ tl) = None.
Proof.
  intros H. apply andb_prop in H as [H1 H2]. cbn [app start_code].
  destruct l as [|b [|c l]]; cbn [app].
  - simpl in H2. destruct tl as [|b [|c tl]]; try done.
    apply negb_true_iff in H2. by rewrite H2.
  - simpl in H2. destruct tl as [|c tl]; [done|]. apply negb_true_iff in H2.
    by rewrite H2, andb_false_r.
  - cbn [no_window] in H1. apply andb_prop in H1 as [H1 H3]. apply negb_true_iff in H1.
    destruct (bz a =? 0); [|done]. destruct (bz b =? 0); [|done]. cbn [andb] in *.
    apply Z.leb_gt in H1. destruct (Z.eqb_spec (bz c) 1); [lia|].
    destruct (Z.eqb_spec (bz c) 0); [lia|]. by destruct (l ++ tl).
Qed.

Lemma find_start_code_inside nal tl p :
  well_formed nal = true ->
  find_start_code tl = Some p ->
  find_start_code (nal ++ tl) = Some (length nal + p.1, p.2)%nat.
Proof.
  induction nal as [|a nal IH]; intros Hw Hp; [by destruct p|].
  assert (Hs := start_code_inside a nal tl Hw). cbn [app] in *.
  unfold find_start_code. fold find_start_code. rewrite Hs.
  destruct nal as [|b nal].
  - cbn [app]. rewrite Hp. done.
  - rewrite (IH (well_formed_cons a (b :: nal) ltac:(done) Hw) Hp). done.
Qed.

Lemma find_start_code_none nal : well_formed nal = true -> find_start_code nal = None.
Proof.
  induction nal as [|a nal IH]; intros Hw; [done|].
  assert (Hs := start_code_inside a nal [] Hw). rewrite app_nil_r in Hs.
  unfold find_start_code. fold find_start_code. rewrite Hs.
  destruct nal as [|b nal]; [done|].
  by rewrite (IH (well_formed_cons a (b :: nal) ltac:(done) Hw)).
Qed.

Lemma find_start_bytes long tl :
  find_start_code (start_bytes long ++ tl) = Some (0, length (start_bytes long))%nat.
Proof. by destruct long. Qed.

Definition wf_items (items : list (bool * list byte)) : Prop :=
  Forall (fun it => well_formed it.2 = true) items.

Lemma nal_loop_annexb items : forall fuel nal,
  wf_items items -> well_formed nal = true -> (length items < fuel)%nat ->
  nal_loop fuel (nal ++ annexb items) = nal :: (snd <$> items).
Proof.
  induction items as [|[long nal2] items IH]; intros fuel nal Hi Hw Hf;
    (destruct fuel as [|fuel]; [simpl in Hf; lia|]); cbn [nal_loop].
  - unfold annexb. rewrite fmap_nil. cbn [concat]. rewrite app_nil_r, find_start_code_none by done.
    by destruct nal.
  - apply Forall_cons in Hi as [Hw2 Hi]. cbn [fst snd] in Hw2.
    assert (Ha : annexb ((long, nal2) :: items) = start_bytes long ++ nal2 ++ annexb items).
    { unfold annexb. rewrite fmap_cons. cbn [concat fst snd]. by rewrite <- app_assoc. }
    rewrite Ha. rewrite (find_start_code_inside nal _ _ Hw (find_start_bytes long _)).
    cbn [fst snd]. rewrite Nat.add_0_r, take_app_length.
    destruct nal as [|a nal]; [done|]. rewrite fmap_cons. cbn [snd]. f_equal.
    rewrite <- (IH fuel nal2 Hi Hw2) by (simpl in Hf; lia). f_equal.
    rewrite app_assoc. apply drop_app_length'. by rewrite length_app.
Qed.

Lemma for_each_nal_annexb items :
  wf_items items -> for_each_nal (annexb items) = snd <$> items.
Proof.
  intros Hi. destruct items as [|[long nal] items]; [done|].
  apply Forall_cons in Hi as [Hw Hi]. cbn [snd] in Hw.
  assert (Ha : annexb ((long, nal) :: items) = start_bytes long ++ nal ++ annexb items).
  { unfold annexb. rewrite fmap_cons. cbn [concat fst snd]. by rewrite <- app_assoc. }
  unfold for_each_nal. rewrite Ha, find_start_bytes. cbn [Nat.add]. rewrite drop_app_length, fmap_cons.
  cbn [snd]. apply nal_loop_annexb; [done..|]. rewrite !length_app.
  assert (Hn : (length items <= length (annexb items))%nat).
  { clear. induction items as [|it items IH]; [simpl; lia|]. unfold annexb in *. rewrite fmap_cons.
    cbn [concat]. rewrite !length_app. destruct it as [[] ?]; cbn [fst snd start_bytes length]; lia. }
  destruct long; simpl; lia.
Qed.

(** ** Length-prefixed NAL units *)

Definition be32 (p : list byte) (i : nat) : Z :=
  2 ^ 24 * zat p i + 2 ^ 16 * zat p (i + 1) + 2 ^ 8 * zat p (i + 2) + zat p (i + 3).

Lemma be32_enc n tl : 0 <= n < 2 ^ 32 -> be32 (enc_be32 n ++ tl) 0 = n.
Proof.
  intros Hn. unfold be32, enc_be32, zat, at_. cbn [app].
  change 0xff with (Z.ones 8).
  cbn [lookup_total list_lookup_total Nat.add]. rewrite !bz_zb, !Z.land_ones, !Z.shiftr_div_pow2 by lia.
  change (2 ^ 8) with 256. change (2 ^ 24) with 16777216. change (2 ^ 16) with 65536.
  change (2 ^ 32) with 4294967296 in Hn. rewrite !Z.mod_mod by lia.
  replace (n / 65536) with (n / 256 / 256) by (by rewrite Z.div_div by lia).
  replace (n / 16777216) with (n / 256 / 256 / 256) by (by rewrite !Z.div_div by lia).
  Z.to_euclidean_division_equations. lia.
Qed.

(** What a reader of the converted frame sees. *)
Fixpoint parse_avcc (fuel : nat) (l : list byte) : option (list (list byte)) :=
  match fuel with
  | O => None
  | S fuel =>
      match l with
      | [] => Some []
      | _ =>
          let n := Z.to_nat (be32 l 0) in
          if (length l <? 4 + n)%nat then None
          else option_map (cons (sub 4 n l)) (parse_avcc fuel (drop (4 + n) l))
      end
  end.

Definition kept (nal : list byte) : bool :=
  negb ((nal_type nal =? 7) || (nal_type nal =? 8) || (nal_type nal =? 9)).

Definition avcc_of (nals : list (list byte)) : list byte :=
  concat ((fun nal => enc_be32 (Z.of_nat (length nal)) ++ nal) <$> nals).

Definition small (nal : list byte) : Prop := Z.of_nat (length nal) < 2 ^ 32.

Lemma convert_all nals out :
  Forall small nals ->
  foldl convert_nal (true, out) nals =
  (true, {| avcc_data := avcc_data out ++ avcc_of (List.filter kept nals);
            avcc_idr := avcc_idr out || existsb (fun nal => nal_type nal =? 5) nals |}).
Proof.
  intros Hs. revert out. induction Hs as [|nal nals Hn Hs IH]; intros out; cbn [foldl].
  - destruct out. unfold avcc_of. simpl. by rewrite app_nil_r, orb_false_r.
  - cbn [convert_nal negb existsb List.filter]. unfold kept at 1.
    destruct ((nal_type nal =? 7) || (nal_type nal =? 8) || (nal_type nal =? 9)) eqn:E; cbn [negb].
    + rewrite IH. repeat f_equal.
      replace (nal_type nal =? 5) with false; [done|]. symmetry. apply Z.eqb_neq.
      rewrite !orb_true_iff, !Z.eqb_eq in E. lia.
    + unfold append_avcc_nal, small in *. destruct (Z.ltb_spec (2 ^ 32 - 1) (Z.of_nat (length nal))); [lia|].
      rewrite IH. cbn [avcc_data avcc_idr]. unfold avcc_of. rewrite fmap_cons. cbn [concat].
      by rewrite <- !app_assoc, orb_assoc.
Qed.

Lemma parse_avcc_of nals fuel :
  Forall small nals -> (length nals < fuel)%nat -> parse_avcc fuel (avcc_of nals) = Some nals.
Proof.
  intros Hs. revert fuel. induction Hs as [|nal nals Hn Hs IH]; intros fuel Hf;
    (destruct fuel as [|fuel]; [simpl in Hf; lia|]); [done|].
  assert (Ha : avcc_of (nal :: nals) = enc_be32 (Z.of_nat (length nal)) ++ nal ++ avcc_of nals).
  { unfold avcc_of. rewrite fmap_cons. cbn [concat]. by rewrite <- app_assoc. }
  rewrite Ha. cbn [parse_avcc]. rewrite be32_enc by (unfold small in Hn; lia).
  rewrite Nat2Z.id. set (pre := enc_be32 _). assert (Hp : length pre = 4%nat) by done.
  destruct (pre ++ nal ++ avcc_of nals) as [|b l] eqn:E; [by destruct pre|]. rewrite <- E. clear E b l.
  rewrite !length_app, Hp. destruct (Nat.ltb_spec (4 + (length nal + length (avcc_of nals))) (4 + length nal)); [lia|].
  assert (Hsub : sub 4 (length nal) (pre ++ nal ++ avcc_of nals) = nal).
  { unfold sub. rewrite drop_app_length' by done. apply take_app_length. }
  rewrite Hsub. rewrite app_assoc, drop_app_length' by (rewrite length_app; lia).
  rewrite IH by (simpl in Hf; lia). done.
Qed.

(** An Annex-B stream converts to exactly its NAL units, each behind its
    length, without the parameter sets and delimiters, and the IDR flag says
    whether one of them is an IDR slice. *)
Lemma annexb_to_avcc_correct (items : list (bool * list byte)) :
  wf_items items -> Forall (fun it => small it.2) items ->
  let nals := List.filter kept (snd <$> items) in
  let '(ok, out) := annexb_to_avcc (annexb items) in
  ok = negb (length nals =? 0)%nat /\
  parse_avcc (S (length nals)) (avcc_data out) = Some nals /\
  avcc_idr out = contains_idr (annexb items) /\
  avcc_idr out = existsb (fun it => nal_type it.2 =? 5) items.
Proof.
  intros Hw Hs nals. unfold annexb_to_avcc, contains_idr. rewrite for_each_nal_annexb by done.
  assert (Hs' : Forall small (snd <$> items)) by (by apply Forall_fmap).
  rewrite convert_all by done. cbn [negb avcc_data avcc_idr app orb]. fold nals.
  assert (Hk : Forall small nals).
  { apply Forall_forall. intros x Hx%list_elem_of_In. apply filter_In in Hx as [Hx _].
    rewrite Forall_forall in Hs'. by apply Hs', list_elem_of_In. }
  split_and!.
  - destruct nals as [|nal nals']; [done|]. unfold avcc_of. rewrite fmap_cons. done.
  - apply parse_avcc_of; [done | lia].
  - done.
  - clear. induction items as [|it items IH]; [done|]. rewrite fmap_cons. simpl. by rewrite IH.
Qed.

(** ** Emulation prevention *)

(** What an encoder does: a byte 3 in front of a byte up to 3 that follows two
    zeros. [zeros] counts the zeros just written. *)
Fixpoint insert_emulation (zeros : nat) (l : list byte) : list byte :=
  match l with
  | [] => []
  | b :: l' =>
      if (2 <=? zeros)%nat && (bz b <=? 3)
      then Byte.x03 :: b :: insert_emulation (if bz b =? 0 then 1 else 0) l'
      else b :: insert_emulation (if bz b =? 0 then S zeros else 0) l'
  end.

Lemma strip_nonzero b l : bz b <> 0 -> strip_emulation (b :: l) = b :: strip_emulation l.
Proof.
  intros Hb. cbn [strip_emulation]. destruct l as [|c [|d l]]; try done.
  apply Z.eqb_neq in Hb. by rewrite Hb.
Qed.

Lemma strip_zero_nonzero b l :
  bz b <> 0 -> strip_emulation (x00 :: b :: l) = x00 :: b :: strip_emulation l.
Proof.
  intros Hb. rewrite <- strip_nonzero by done. cbn [strip_emulation].
  destruct l as [|d l]; [done|]. apply Z.eqb_neq in Hb. by rewrite Hb, andb_false_r.
Qed.

Lemma strip_two_zeros b l :
  3 < bz b -> strip_emulation (x00 :: x00 :: b :: l) = x00 :: x00 :: b :: strip_emulation l.
Proof.
  intros Hb. rewrite <- strip_zero_nonzero by lia. cbn [strip_emulation].
  destruct (Z.eqb_spec (bz b) 3); [lia|]. by rewrite andb_false_r.
Qed.

Lemma strip_insert l : forall z, (z <= 2)%nat ->
  strip_emulation (replicate z x00 ++ insert_emulation z l) = replicate z x00 ++ l.
Proof.
  induction l as [|b l IH]; intros z Hz.
  { rewrite app_nil_r. by destruct z as [|[|[|z]]]; [| | |lia]. }
  cbn [insert_emulation].
  destruct (Z.eqb_spec (bz b) 0) as [Hb|Hb].
  - assert (b = x00) as -> by (by apply bz_inj).
    destruct z as [|[|[|z]]]; [| | |lia]; cbn [Nat.leb andb replicate app].
    + apply (IH 1%nat). lia.
    + apply (IH 2%nat). lia.
    + change (bz x00 <=? 3) with true. cbn iota.
      pose proof (IH 1%nat ltac:(lia)) as H. cbn [replicate app] in H.
      change (strip_emulation (x00 :: x00 :: Byte.x03 :: x00 :: insert_emulation 1 l))
        with (x00 :: x00 :: strip_emulation (x00 :: insert_emulation 1 l)). by rewrite H.
  - pose proof (IH 0%nat ltac:(lia)) as H. cbn [replicate app] in H.
    destruct z as [|[|[|z]]]; [| | |lia]; cbn [Nat.leb andb replicate app].
    + by rewrite strip_nonzero, H.
    + by rewrite strip_zero_nonzero, H.
    + destruct (Z.leb_spec (bz b) 3).
      * change (strip_emulation (x00 :: x00 :: Byte.x03 :: b :: insert_emulation 0 l))
          with (x00 :: x00 :: strip_emulation (b :: insert_emulation 0 l)).
        by rewrite strip_nonzero, H.
      * by rewrite strip_two_zeros, H.
Qed.

Lemma length_insert z l : (length l <= length (insert_emulation z l))%nat.
Proof.
  revert z. induction l as [|b l IH]; intros z; cbn [insert_emulation length]; [lia|].
  destruct (_ && _); cbn [length];
    match goal with |- context [insert_emulation ?z l] => specialize (IH z) end; lia.
Qed.

(** ** Bits *)

Definition byte_bits (b : byte) : list bool :=
  (fun i => Z.testbit (bz b) (7 - Z.of_nat i)) <$> seq 0 8.
Definition bits_of (l : list byte) : list bool := concat (byte_bits <$> l).

(** The value of a run of bits, the most significant first. *)
Definition bval (bs : list bool) : Z := foldl (fun v b => 2 * v + Z.b2z b) 0 bs.

(** The [n] low bits of a value. *)
Definition to_bits (n : nat) (v : Z) : list bool :=
  (fun i => Z.testbit v (Z.of_nat (n - 1 - i))) <$> seq 0 n.

(** What the reader has not read yet. *)
Definition unread (r : RbspReader) : list bool := drop (rb_bit r) (bits_of (rb_buf r)).

Lemma bits_of_lookup l i :
  bits_of l !! i = (fun b => Z.testbit (bz b) (7 - Z.of_nat (i mod 8))) <$> l !! (i / 8)%nat.
Proof.
  revert i. induction l as [|b l IH]; intros i; [done|].
  unfold bits_of. rewrite fmap_cons. cbn [concat]. fold (bits_of l).
  destruct (decide (i < 8)%nat) as [Hi|Hi].
  - rewrite lookup_app_l by (unfold byte_bits; rewrite length_fmap, length_seq; lia).
    rewrite Nat.div_small, Nat.mod_small by lia. cbn [lookup list_lookup fmap option_fmap option_map].
    unfold byte_bits. rewrite list_lookup_fmap, lookup_seq_lt by lia. done.
  - rewrite lookup_app_r by (unfold byte_bits; rewrite length_fmap, length_seq; lia).
    unfold byte_bits at 1. rewrite length_fmap, length_seq.
    assert (Hd : (i / 8)%nat = S ((i - 8) / 8)).
    { replace i with ((i - 8) + 1 * 8)%nat at 1 by lia. rewrite Nat.div_add by lia. lia. }
    assert (Hm : (i mod 8)%nat = ((i - 8) mod 8)%nat).
    { replace i with ((i - 8) + 1 * 8)%nat at 1 by lia. by rewrite Nat.Div0.mod_add. }
    rewrite Hd, Hm. apply IH.
Qed.

Lemma bit_at_testbit b i : (i < 8)%nat -> bit_at b i = Z.b2z (Z.testbit (bz b) (7 - Z.of_nat i)).
Proof.
  intros Hi. unfold bit_at. change 1 with (Z.ones 1) at 1. rewrite Z.land_ones by lia.
  rewrite Z.testbit_spec' by lia. rewrite Z.shiftr_div_pow2 by lia. done.
Qed.

(** Reading one bit. *)
Lemma unread_cons r b bs :
  unread r = b :: bs ->
  exists byte, rb_buf r !! (rb_bit r / 8)%nat = Some byte /\
               bit_at byte (rb_bit r mod 8) = Z.b2z b /\ unread (advance_bit r) = bs.
Proof.
  intros H. assert (H0 : bits_of (rb_buf r) !! rb_bit r = Some b).
  { rewrite <- (Nat.add_0_r (rb_bit r)), <- lookup_drop. fold (unread r). by rewrite H. }
  rewrite bits_of_lookup in H0. destruct (rb_buf r !! (rb_bit r / 8)%nat) as [byte|]; [|done].
  exists byte. cbn [fmap option_fmap option_map] in H0. apply (inj Some) in H0 as <-.
  split_and!; [done| |].
  - apply bit_at_testbit. apply Nat.mod_upper_bound. lia.
  - unfold unread, advance_bit. cbn [rb_buf rb_bit]. unfold unread in H.
    rewrite <- Nat.add_1_r, <- drop_drop, H. done.
Qed.

Lemma u_loop_reads bs : forall v r rest,
  0 <= v -> (v + 1) * 2 ^ Z.of_nat (length bs) <= 2 ^ 32 -> unread r = bs ++ rest ->
  u_loop (length bs) v r =
  (foldl (fun v b => 2 * v + Z.b2z b) v bs,
   {| rb_buf := rb_buf r; rb_bit := rb_bit r + length bs; rb_ok := rb_ok r |}) /\
  unread {| rb_buf := rb_buf r; rb_bit := rb_bit r + length bs; rb_ok := rb_ok r |} = rest.
Proof.
  induction bs as [|b bs IH]; intros v r rest Hv Hle Hr; cbn [length u_loop foldl app] in *.
  - rewrite Nat.add_0_r. split; [by destruct r | done].
  - destruct (unread_cons r b (bs ++ rest) Hr) as (byte & H1 & H2 & H3). rewrite H1.
    rewrite Nat2Z.inj_succ, Z.pow_succ_r in Hle by lia.
    assert (Hb : 0 <= Z.b2z b <= 1) by (destruct b; simpl; lia).
    pose proof (Z.pow_pos_nonneg 2 (Z.of_nat (length bs)) ltac:(lia) ltac:(lia)).
    assert (Hu : u32 (Z.lor (Z.shiftl v 1) (bit_at byte (rb_bit r mod 8))) = 2 * v + Z.b2z b).
    { rewrite H2, Z.shiftl_mul_pow2 by lia. change (2 ^ 1) with 2.
      assert (Hl : Z.lor (v * 2) (Z.b2z b) = 2 * v + Z.b2z b).
      { destruct b; simpl Z.b2z; [|rewrite Z.lor_0_r; lia].
        rewrite (Z.mul_comm v 2).
        apply Z.bits_inj'. intros i Hi. rewrite Z.lor_spec.
        destruct (Z.eq_dec i 0) as [->|].
        - rewrite Z.testbit_even_0, Z.testbit_odd_0. done.
        - replace i with (Z.succ (i - 1)) by lia.
          rewrite Z.testbit_even_succ, (Z.testbit_odd_succ v) by lia.
          change (Z.testbit 1 (Z.succ (i - 1))) with (Z.testbit (2 * 0 + 1) (Z.succ (i - 1))).
          by rewrite Z.testbit_odd_succ, Z.bits_0, orb_false_r by lia. }
      rewrite Hl. unfold u32. apply Z.mod_small. nia. }
    rewrite Hu. destruct (IH (2 * v + Z.b2z b) (advance_bit r) rest) as [I1 I2]; [lia|nia|done|].
    cbn [advance_bit rb_buf rb_bit rb_ok] in I1, I2.
    replace (rb_bit r + S (length bs))%nat with (S (rb_bit r) + length bs)%nat by lia.
    split; [exact I1 | exact I2].
Qed.

(** A computation that reads exactly the bits [bs] and returns [a]. *)
Definition eats {A} (m : R A) (bs : list bool) (a : A) : Prop :=
  forall r rest, rb_ok r = true -> unread r = bs ++ rest ->
  exists r', m r = (a, r') /\ rb_ok r' = true /\ unread r' = rest.

Lemma eats_ret {A} (a : A) : eats (rret a) [] a.
Proof. intros r rest Ho Hr. by exists r. Qed.

Lemma eats_ok : eats rok [] true.
Proof. intros r rest Ho Hr. exists r. unfold rok. by rewrite Ho. Qed.

Lemma eats_bind {A B} (m : R A) (f : A -> R B) bs bs' a b :
  eats m bs a -> eats (f a) bs' b -> eats (rbind m f) (bs ++ bs') b.
Proof.
  intros Hm Hf r rest Ho Hr. rewrite <- app_assoc in Hr.
  destruct (Hm r _ Ho Hr) as (r1 & E1 & Ho1 & Hr1).
  destruct (Hf r1 _ Ho1 Hr1) as (r2 & E2 & Ho2 & Hr2). exists r2. unfold rbind. by rewrite E1.
Qed.

Lemma eats_u bs : (length bs <= 32)%nat -> eats (u (length bs)) bs (bval bs).
Proof.
  intros Hl r rest Ho Hr.
  assert (Hp : 2 ^ Z.of_nat (length bs) <= 2 ^ 32) by (apply Z.pow_le_mono_r; lia).
  destruct (u_loop_reads bs 0 r rest ltac:(lia) ltac:(lia) Hr) as [E1 E2].
  eexists. split; [exact E1|]. split; [exact Ho | exact E2].
Qed.

Lemma length_to_bits n v : length (to_bits n v) = n.
Proof. unfold to_bits. by rewrite length_fmap, length_seq. Qed.

Lemma bval_snoc bs b : bval (bs ++ [b]) = 2 * bval bs + Z.b2z b.
Proof. unfold bval. by rewrite foldl_app. Qed.

Lemma to_bits_S n v : to_bits (S n) v = to_bits n (v / 2) ++ [Z.testbit v 0].
Proof.
  unfold to_bits. rewrite seq_S, fmap_app. f_equal.
  - apply list_fmap_ext. intros j i Hi. apply lookup_seq in Hi as [-> Hi].
    replace (v / 2) with (Z.shiftr v 1) by (by rewrite Z.shiftr_div_pow2 by lia).
    rewrite Z.shiftr_spec by lia. f_equal. lia.
  - cbn. by replace (n - 0 - n)%nat with 0%nat by lia.
Qed.

Lemma bval_to_bits n v : 0 <= v < 2 ^ Z.of_nat n -> bval (to_bits n v) = v.
Proof.
  revert v. induction n as [|n IH]; intros v Hv.
  { change (2 ^ Z.of_nat 0) with 1 in Hv. change (bval (to_bits 0 v)) with 0. lia. }
  rewrite Nat2Z.inj_succ, Z.pow_succ_r in Hv by lia.
  rewrite to_bits_S, bval_snoc, IH; [|split; [apply Z.div_pos | apply Z.div_lt_upper_bound]; lia].
  rewrite Z.bit0_mod, <- (Z.div_mod v 2) by lia. done.
Qed.

Lemma eats_field n v : (n <= 32)%nat -> 0 <= v < 2 ^ Z.of_nat n -> eats (u n) (to_bits n v) v.
Proof.
  intros Hn Hv. pose proof (eats_u (to_bits n v)) as H.
  rewrite length_to_bits, bval_to_bits in H by done. by apply H.
Qed.

Lemma eats_flag b : eats (u 1) [b] (Z.b2z b).
Proof. pose proof (eats_u [b] ltac:(simpl; lia)) as H. destruct b; exact H. Qed.

(** ** Exponential Golomb codes *)

Definition ue_size (k : Z) : nat := Z.to_nat (Z.log2 (k + 1)).

Definition ue_bits (k : Z) : list bool :=
  replicate (ue_size k) false ++ [true] ++ to_bits (ue_size k) (k + 1 - 2 ^ Z.of_nat (ue_size k)).

Definition se_bits (v : Z) : list bool := ue_bits (if 0 <? v then 2 * v - 1 else - 2 * v).

Lemma ue_zeros_reads n : forall fuel z r rest,
  (n <= fuel)%nat -> rb_ok r = true -> unread r = replicate n false ++ true :: rest ->
  exists r', ue_zeros fuel z r = (Some (z + n)%nat, r') /\ rb_ok r' = true /\ unread r' = rest.
Proof.
  induction n as [|n IH]; intros fuel z r rest Hn Ho Hr.
  - destruct (eats_flag true r rest Ho Hr) as (r1 & E1 & Ho1 & Hr1).
    exists r1. rewrite Nat.add_0_r. by destruct fuel; cbn [ue_zeros]; rewrite Ho, E1.
  - destruct (eats_flag false r (replicate n false ++ true :: rest) Ho Hr) as (r1 & E1 & Ho1 & Hr1).
    destruct fuel as [|fuel]; [lia|]. cbn [ue_zeros]. rewrite Ho, E1. cbn.
    destruct (IH fuel (S z) r1 rest ltac:(lia) Ho1 Hr1) as (r2 & E2 & ?).
    exists r2. rewrite E2. split; [|done]. do 2 f_equal. lia.
Qed.

Lemma eats_ue k : 0 <= k < 2 ^ 32 - 1 -> eats ue (ue_bits k) k.
Proof.
  intros Hk r rest Ho Hr. set (n := ue_size k).
  pose proof (Z.log2_spec (k + 1) ltac:(lia)) as [Hlo Hhi].
  pose proof (Z.log2_nonneg (k + 1)).
  assert (Hn : Z.of_nat n = Z.log2 (k + 1)) by (subst n; unfold ue_size; lia).
  assert (Hlog : Z.log2 (k + 1) < 32) by (apply Z.log2_lt_pow2; lia).
  rewrite Z.pow_succ_r in Hhi by done. rewrite <- Hn in *.
  unfold ue_bits in Hr. fold n in Hr. rewrite <- app_assoc in Hr. cbn [app] in Hr.
  destruct (ue_zeros_reads n 31 0 r _ ltac:(lia) Ho Hr) as (r1 & E1 & Ho1 & Hr1).
  unfold ue. rewrite E1, Ho1. cbn [Nat.add negb orb].
  destruct (Nat.eqb_spec n 0) as [H0|H0].
  - rewrite H0 in Hr1, Hlo, Hhi. exists r1. split_and!; [|done|exact Hr1]. f_equal. simpl in *. lia.
  - destruct (eats_field n (k + 1 - 2 ^ Z.of_nat n) ltac:(lia) ltac:(lia) r1 rest Ho1 Hr1) as (r2 & E2 & Ho2 & Hr2).
    rewrite E2. exists r2. split; [|done]. f_equal.
    assert (Hs : u32 (Z.shiftl 1 (Z.of_nat n)) = 2 ^ Z.of_nat n).
    { rewrite Z.shiftl_mul_pow2, Z.mul_1_l by lia. unfold u32. apply Z.mod_small.
      split; [lia|]. apply Z.pow_lt_mono_r; lia. }
    rewrite Hs. unfold u32. rewrite Z.mod_small; lia.
Qed.

Lemma eats_se v : - 2 ^ 31 < v < 2 ^ 31 -> eats se (se_bits v) v.
Proof.
  intros Hv. unfold se_bits. set (k := if 0 <? v then 2 * v - 1 else - 2 * v).
  assert (Hk : 0 <= k < 2 ^ 32 - 1) by (subst k; destruct (Z.ltb_spec 0 v); lia).
  rewrite <- (app_nil_r (ue_bits k)). unfold se. eapply eats_bind; [by apply eats_ue|].
  destruct (Z.eqb_spec k 0) as [H0|H0].
  { replace 0 with v; [apply eats_ret|]. subst k. destruct (Z.ltb_spec 0 v); lia. }
  assert (Hm : u32 (k + 1) = k + 1) by (unfold u32; apply Z.mod_small; lia). rewrite Hm.
  assert (Hodd : Z.land k 1 = k mod 2) by (change 1 with (Z.ones 1); by rewrite Z.land_ones by lia).
  rewrite Hodd. subst k. destruct (Z.ltb_spec 0 v).
  - replace (2 * v - 1 + 1) with (v * 2) by lia. rewrite Z.div_mul by lia.
    replace ((2 * v - 1) mod 2) with 1 by (apply (Z.mod_unique _ _ (v - 1)); lia). cbn [Z.eqb Pos.eqb].
    unfold s32. rewrite signed_small by lia. apply eats_ret.
  - replace ((- 2 * v + 1) / 2) with (- v) by (apply (Z.div_unique _ _ _ 1); lia).
    replace ((- 2 * v) mod 2) with 0 by (apply (Z.mod_unique _ _ (- v)); lia). cbn [Z.eqb].
    unfold s32. rewrite (signed_small 32 (- v)) by lia. rewrite signed_small by lia.
    rewrite Z.opp_involutive. apply eats_ret.
Qed.

(** ** The frame rate is exact *)

Lemma quotient_units q mt mn t n kt kn :
  0 < n -> 0 <= kt <= 52 -> 0 <= kn <= 52 -> mt = t * 2 ^ kt -> mn = n * 2 ^ kn -> q = mt * 2 ^ 53 / mn ->
  q * n <= t * 2 ^ (kt - kn + 53) < (q + 1) * n.
Proof.
  intros Hn Hkt Hkn -> -> ->. assert (Hp : 0 < 2 ^ kn) by lia.
  assert (E : t * 2 ^ kt * 2 ^ 53 = t * 2 ^ (kt - kn + 53) * 2 ^ kn).
  { rewrite <- !Z.mul_assoc, <- !Z.pow_add_r by lia. do 2 f_equal. lia. }
  rewrite E, Z.div_mul_cancel_r by lia. set (u := t * 2 ^ (kt - kn + 53)).
  pose proof (Z.mul_div_le u n Hn). pose proof (Z.mul_succ_div_gt u n Hn). lia.
Qed.

Lemma rate_margin q t n c j : 0 < n < 2 ^ 32 -> 42 <= c -> q * n <= t * 2 ^ c -> t < j * n -> q <= j * 2 ^ c - 2 * 2 ^ (c - 33).
Proof.
  intros Hn Hc Hq Ht. assert (E : 2 ^ c = 2 ^ (c - 33) * 2 ^ 33) by (rewrite <- Z.pow_add_r by lia; f_equal; lia).
  assert (Hx : 0 < 2 ^ (c - 33)) by lia. rewrite E in *. set (x := 2 ^ (c - 33)) in *. change (2 ^ 33) with (2 * 2 ^ 32) in *.
  apply (Z.mul_le_mono_pos_r _ _ n); [lia|]. assert ((t + 1) * (x * (2 * 2 ^ 32)) <= j * n * (x * (2 * 2 ^ 32))) by (apply Z.mul_le_mono_nonneg_r; lia).
  assert (2 * x * n <= 2 * x * 2 ^ 32) by (apply Z.mul_le_mono_nonneg_l; lia). lia.
Qed.

Lemma rate_floor q t n c j : 0 < n -> 0 <= c -> t * 2 ^ c < (q + 1) * n -> j * n <= t -> j * 2 ^ c <= q.
Proof.
  intros Hn Hc Hq Ht. assert (j * n * 2 ^ c <= t * 2 ^ c) by (apply Z.mul_le_mono_nonneg_r; lia).
  assert (j * 2 ^ c < q + 1); [|lia]. apply (Z.mul_lt_mono_pos_r n); lia.
Qed.

(** The rate in floating point is the exact one: a frame takes two ticks, the
    nearest whole number counts, and rates of 1000 and more are not told. *)
Lemma frame_rate_exact n t :
  0 < n < 2 ^ 32 -> 0 < t < 2 ^ 32 -> frame_rate n t = if t <? 2000 * n then (t + n) / (2 * n) else 0.
Proof.
  intros Hn Ht. destruct (of_int_normal t) as (mt & kt & Hkt & Emt & Lmt & Ft); [lia|].
  destruct (of_int_normal n) as (mn & kn & Hkn & Emn & Lmn & Fn); [lia|].
  unfold frame_rate. rewrite Ft, Fn, double_normal by done.
  destruct (div_normal mt mn (- kt) (1 - kn) Lmt Lmn ltac:(lia)) as (m & e' & s & d & -> & Hm & He' & Hs & Hq & Hd & Hv).
  set (c := kt - kn + 53). assert (Hc : 1 <= c <= 105) by lia.
  replace (- kt - (1 - kn) - 53) with (- (c + 1)) in * by lia.
  pose proof (quotient_units _ _ _ t n kt kn ltac:(lia) Hkt Hkn Emt Emn eq_refl) as Hu. fold c in Hu.
  set (q := Zpos mt * 2 ^ 53 / Zpos mn) in *. clearbody q. clear Ft Fn Emt Emn Lmt Lmn mt mn.
  set (W := 2 ^ s * (q / 2 ^ s + d)) in *.
  assert (HW : 2 ^ s * (q / 2 ^ s) <= W <= q + 2).
  { split; [apply Z.mul_le_mono_nonneg_l; lia|]. pose proof (floor_near q s d ltac:(lia) Hd) as H. fold W in H.
    assert (2 ^ s <= 2 ^ 1) by (apply Z.pow_le_mono_r; lia). lia. }
  assert (Hfl : forall z i, 1 <= i -> z * 2 ^ i <= q -> z * 2 ^ i <= W) by (intros z i Hi Hz; pose proof (floor_keeps z q s i ltac:(lia) Hz); lia).
  clearbody W. clear Hd. cbn [SFltb SFcompare andb].
  change (of_int 1000) with (S754_finite false (1000 * 2 ^ 43) (-43)).
  rewrite (ltb_normal m e' (1000 * 2 ^ 43) (-43) (Z.min (- (c + 1)) (-43))) by (done || lia).
  set (z := Z.min (- (c + 1)) (-43)). replace (e' - z) with ((e' - - (c + 1)) + (- (c + 1) - z)) by lia.
  rewrite Z.pow_add_r, Z.mul_assoc, Hv by lia. change (Zpos (1000 * 2 ^ 43)) with (1000 * 2 ^ 43).
  rewrite <- Z.mul_assoc, <- Z.pow_add_r by lia. replace (43 + (-43 - z)) with ((c + 1) + (- (c + 1) - z)) by lia.
  rewrite Z.pow_add_r, (Z.mul_assoc 1000) by lia.
  assert (Hcmp : (W * 2 ^ (- (c + 1) - z) <? 1000 * 2 ^ (c + 1) * 2 ^ (- (c + 1) - z)) = (W <? 1000 * 2 ^ (c + 1))).
  { assert (0 < 2 ^ (- (c + 1) - z)) by lia. destruct (Z.ltb_spec W (1000 * 2 ^ (c + 1)));
      [apply Z.ltb_lt, Z.mul_lt_mono_pos_r | apply Z.ltb_ge, Z.mul_le_mono_nonneg_r]; lia. }
  rewrite Hcmp. clear Hcmp z. assert (H2c : 2 ^ (c + 1) = 2 * 2 ^ c) by (rewrite Z.pow_add_r by lia; lia).
  destruct (Z.ltb_spec t (2000 * n)) as [Hlt|Hge].
  2:{ destruct (Z.ltb_spec W (1000 * 2 ^ (c + 1))) as [Hw|]; [|done]. exfalso.
      pose proof (rate_floor q t n c 2000 ltac:(lia) ltac:(lia) ltac:(lia) Hge). specialize (Hfl 1000 (c + 1)). lia. }
  set (k := (t + n) / (2 * n)). assert (Hk : 2 * n * k <= t + n < 2 * n * k + 2 * n).
  { subst k. pose proof (Z.mul_div_le (t + n) (2 * n) ltac:(lia)). pose proof (Z.mul_succ_div_gt (t + n) (2 * n) ltac:(lia)). lia. }
  assert (Hk0 : 0 <= k <= 1000) by (split; [apply Z.div_pos; lia | apply Z.lt_succ_r, Z.div_lt_upper_bound; lia]). clearbody k.
  assert (Hc42 : 42 <= c).
  { destruct (Z.le_gt_cases 42 c) as [|Hs41]; [done|]. exfalso. assert (2 ^ c <= 2 ^ 41) by (apply Z.pow_le_mono_r; lia).
    assert (t * 2 ^ c <= t * 2 ^ 41) by (apply Z.mul_le_mono_nonneg_l; lia).
    assert (q < 2000 * 2 ^ 41) by (apply (Z.mul_lt_mono_pos_r n); lia). lia. }
  pose proof (rate_margin q t n c 2000 Hn Hc42 ltac:(lia) Hlt) as Hbig.
  pose proof (rate_margin q t n c (2 * k + 1) Hn Hc42 ltac:(lia) ltac:(lia)) as Hmar.
  assert (Hx : 512 <= 2 ^ (c - 33)) by (change 512 with (2 ^ 9); apply Z.pow_le_mono_r; lia).
  rewrite (proj2 (Z.ltb_lt _ _)) by lia. set (x := 2 ^ (c - 33)) in *. set (a := Z.max (- e') 53).

  assert (Hpa : 0 < 2 ^ a) by lia. assert (Hpc : 0 < 2 ^ (c + 1)) by lia.
  assert (Hma : Zpos m * 2 ^ (a + e') * 2 ^ (c + 1) = W * 2 ^ a).
  { rewrite <- Hv, <- !Z.mul_assoc, <- !Z.pow_add_r by lia. do 2 f_equal. lia. }
  destruct (add_half m e') as (s2 & W2 & -> & Hs2 & HW2); [lia | fold a; apply (Z.mul_lt_mono_pos_r (2 ^ (c + 1))); [done|]; rewrite Hma, <- Z.mul_assoc, (Z.mul_comm (2 ^ a)), Z.mul_assoc; apply Z.mul_lt_mono_pos_r; lia|].
  fold a in Hs2, HW2 |- *. set (M := Zpos m * 2 ^ (a + e') + 2 ^ (a - 1)) in *.
  assert (HM : M * 2 ^ (c + 1) = (W + 2 ^ c) * 2 ^ a).
  { unfold M. rewrite Z.mul_add_distr_r, Hma, Z.mul_add_distr_r. f_equal. rewrite <- !Z.pow_add_r by lia. f_equal. lia. }
  clearbody M. clear Hma Hv. rewrite H2c in HM.
  assert (Hlo : k * 2 ^ a <= M).
  { apply (Z.mul_le_mono_pos_r _ _ (2 * 2 ^ c)); [lia|]. rewrite HM.
    assert (Hw : (2 * k - 1) * 2 ^ c <= W) by (apply Hfl; [lia|]; apply (rate_floor q t n); lia).
    assert (2 * 2 ^ c * k * 2 ^ a <= (W + 2 ^ c) * 2 ^ a) by (apply Z.mul_le_mono_nonneg_r; lia). lia. }
  assert (Hhi : M <= (k + 1) * 2 ^ a - 2 ^ (a - 34)).
  { apply (Z.mul_le_mono_pos_r _ _ (2 * 2 ^ c)); [lia|]. rewrite HM.
    assert (E : 2 ^ (a - 34) * (2 * 2 ^ c) = x * 2 ^ a).
    { unfold x. rewrite <- (Z.pow_succ_r 2 c), <- !Z.pow_add_r by lia. f_equal. lia. }
    rewrite Z.mul_sub_distr_r, E. assert ((W + 2 ^ c) * 2 ^ a <= ((2 * k + 2) * 2 ^ c - x) * 2 ^ a) by (apply Z.mul_le_mono_nonneg_r; lia). lia. }
  assert (Hz : W2 / 2 ^ a = k).
  { symmetry. apply (Z.div_unique _ _ _ (W2 - 2 ^ a * k)); [left | lia]. pose proof (floor_keeps k M s2 a ltac:(lia) Hlo).
    assert (2 ^ s2 <= 2 ^ (a - 43)) by (apply Z.pow_le_mono_r; lia). assert (2 ^ (a - 43) < 2 ^ (a - 34)) by (apply Z.pow_lt_mono_r; lia). lia. }
  rewrite Hz. unfold s32. apply signed_small; lia.
Qed.

(** ** What an encoder writes *)

Inductive poc_spec :=
| Poc0 (log2_max_lsb : Z)
| Poc1 (always_zero : bool) (non_ref top_bottom : Z) (offsets : list Z)
| Poc2.

Inductive chroma_format := Monochrome | C420 | C422 | C444 (separate_planes : bool).

Inductive aspect_spec := Ratio (idc : Z) | Extended (width height : Z).

(** The usability information up to its timing: what it does not say is [None]. *)
Record vui_spec := {
  vui_aspect : option aspect_spec; vui_overscan : option bool;
  vui_video : option (Z * bool * option (Z * Z * Z)); vui_chroma_loc : option (Z * Z);
  vui_timing : option (Z * Z * bool)
}.

(** The syntax elements of a sequence parameter set. A scaling matrix has 8 or 12
    lists, each left out or given by its values up to where they stay the same. *)
Record sps_spec := {
  sp_profile : Z; sp_constraints : Z; sp_level : Z; sp_id : Z;
  sp_chroma : chroma_format; sp_depth_luma : Z; sp_depth_chroma : Z; sp_bypass : bool;
  sp_scaling : option (list (option (list Z)));
  sp_frame_num : Z; sp_poc : poc_spec; sp_refs : Z; sp_gaps : bool;
  sp_width : Z; sp_height : Z; sp_mbs_only : bool; sp_mbaff : bool; sp_direct : bool;
  sp_crop : option (Z * Z * Z * Z);
  sp_vui : option vui_spec
}.

(** The profiles that write the chroma format. *)
Definition writes_chroma (p : sps_spec) : bool :=
  bool_decide (sp_profile p ∈ [44; 83; 86; 100; 110; 118; 122; 128; 134; 135; 138; 139; 244]).

(** A change of a value, modulo 256. *)
Definition scale_delta (prev v : Z) : Z := (v - prev + 128) mod 256 - 128.

Fixpoint scales_bits (prev : Z) (vs : list Z) (size : nat) : list bool :=
  match vs, size with
  | _, O => []
  | [], _ => se_bits (scale_delta prev 0)
  | v :: vs, S size => se_bits (scale_delta prev v) ++ scales_bits v vs size
  end.

Fixpoint matrix_bits (i : nat) (lists : list (option (list Z))) : list bool :=
  match lists with
  | [] => []
  | None :: lists => [false] ++ matrix_bits (S i) lists
  | Some vs :: lists => [true] ++ scales_bits 8 vs (if (i <? 6)%nat then 16 else 64) ++ matrix_bits (S i) lists
  end.

Definition chroma_bits (p : sps_spec) : list bool :=
  (match sp_chroma p with
   | Monochrome => ue_bits 0 | C420 => ue_bits 1 | C422 => ue_bits 2 | C444 planes => ue_bits 3 ++ [planes]
   end) ++
  ue_bits (sp_depth_luma p) ++ ue_bits (sp_depth_chroma p) ++ [sp_bypass p] ++
  (match sp_scaling p with None => [false] | Some lists => [true] ++ matrix_bits 0 lists end).

Definition poc_bits (p : poc_spec) : list bool :=
  match p with
  | Poc0 lsb => ue_bits 0 ++ ue_bits lsb
  | Poc1 z a b offs => ue_bits 1 ++ [z] ++ se_bits a ++ se_bits b ++
                       ue_bits (Z.of_nat (length offs)) ++ concat (se_bits <$> offs)
  | Poc2 => ue_bits 2
  end.

Definition crop_bits (c : option (Z * Z * Z * Z)) : list bool :=
  match c with
  | None => [false]
  | Some (l, r, t, b) => [true] ++ ue_bits l ++ ue_bits r ++ ue_bits t ++ ue_bits b
  end.

(** A flag, and what follows it when it is set. *)
Definition opt_bits {A} (f : A -> list bool) (o : option A) : list bool :=
  match o with None => [false] | Some a => [true] ++ f a end.

Definition aspect_bits (a : aspect_spec) : list bool :=
  match a with Ratio idc => to_bits 8 idc | Extended w h => to_bits 8 255 ++ to_bits 16 w ++ to_bits 16 h end.

Definition colour_bits (c : Z * Z * Z) : list bool :=
  let '(primaries, transfer, matrix) := c in to_bits 8 primaries ++ to_bits 8 transfer ++ to_bits 8 matrix.

Definition video_bits (v : Z * bool * option (Z * Z * Z)) : list bool :=
  let '(format, full_range, colour) := v in to_bits 3 format ++ [full_range] ++ opt_bits colour_bits colour.

Definition timing_bits (t : Z * Z * bool) : list bool :=
  let '(num, scale, fixed) := t in to_bits 32 num ++ to_bits 32 scale ++ [fixed].

Definition vui_bits (v : vui_spec) : list bool :=
  opt_bits aspect_bits (vui_aspect v) ++ opt_bits (fun b => [b]) (vui_overscan v) ++ opt_bits video_bits (vui_video v) ++
  opt_bits (fun tb => ue_bits tb.1 ++ ue_bits tb.2) (vui_chroma_loc v) ++ opt_bits timing_bits (vui_timing v).

Definition sps_bits (p : sps_spec) : list bool :=
  to_bits 8 (sp_profile p) ++ to_bits 8 (sp_constraints p) ++ to_bits 8 (sp_level p) ++
  ue_bits (sp_id p) ++
  (if writes_chroma p then chroma_bits p else []) ++
  ue_bits (sp_frame_num p) ++ poc_bits (sp_poc p) ++ ue_bits (sp_refs p) ++ [sp_gaps p] ++
  ue_bits (sp_width p) ++ ue_bits (sp_height p) ++ [sp_mbs_only p] ++
  (if sp_mbs_only p then [] else [sp_mbaff p]) ++ [sp_direct p] ++
  crop_bits (sp_crop p) ++ opt_bits vui_bits (sp_vui p).

Definition ue_range (k : Z) : Prop := 0 <= k < 2 ^ 32 - 1.
Definition se_range (v : Z) : Prop := - 2 ^ 31 < v < 2 ^ 31.
Definition bits_range (n v : Z) : Prop := 0 <= v < 2 ^ n.

Record vui_wf (v : vui_spec) : Prop := {
  wf_aspect : match vui_aspect v with
              | None => True
              | Some (Ratio idc) => bits_range 8 idc /\ idc <> 255
              | Some (Extended w h) => bits_range 16 w /\ bits_range 16 h
              end;
  wf_video : match vui_video v with
             | None => True
             | Some (format, _, colour) => bits_range 3 format /\
                 match colour with None => True | Some (a, b, c) => bits_range 8 a /\ bits_range 8 b /\ bits_range 8 c end
             end;
  wf_loc : match vui_chroma_loc v with None => True | Some (t, b) => ue_range t /\ ue_range b end;
  wf_timing : match vui_timing v with None => True | Some (num, scale, _) => bits_range 32 num /\ bits_range 32 scale end
}.

(** Without the chroma format it is 4:2:0; cropping takes a 32-bit number of units. *)
Record sps_wf (p : sps_spec) : Prop := {
  wf_bytes : bits_range 8 (sp_profile p) /\ bits_range 8 (sp_constraints p) /\ bits_range 8 (sp_level p);
  wf_codes : Forall ue_range [sp_id p; sp_depth_luma p; sp_depth_chroma p;
                              sp_frame_num p; sp_refs p; sp_width p; sp_height p];
  wf_chroma : writes_chroma p = false -> sp_chroma p = C420;
  wf_scaling : match sp_scaling p with
               | None => True
               | Some lists => length lists = (match sp_chroma p with C444 _ => 12 | _ => 8 end)%nat /\
                               Forall (fun l => match l with None => True | Some vs => Forall (fun v => 0 < v < 256) vs end) lists
               end;
  wf_poc : match sp_poc p with
           | Poc0 lsb => ue_range lsb
           | Poc1 _ a b offs => se_range a /\ se_range b /\ Forall se_range offs /\
                                ue_range (Z.of_nat (length offs))
           | Poc2 => True
           end;
  wf_crop : match sp_crop p with
            | None => True
            | Some (l, r, t, b) => (ue_range l /\ ue_range r /\ ue_range t /\ ue_range b) /\ l + r < 2 ^ 32 /\ t + b < 2 ^ 32
            end;
  wf_vui : match sp_vui p with None => True | Some v => vui_wf v end
}.

Create HintDb eats.
#[local] Hint Resolve eats_ret eats_ok eats_flag eats_ue eats_se : eats.

(** Read the next syntax element. *)
Ltac eat := eapply eats_bind; [solve [auto with eats] | cbv beta].

(** The last step of a computation reads the bits that are left. *)
Lemma eats_nil {A} (m : R A) bs a : eats m (bs ++ []) a -> eats m bs a.
Proof. by rewrite app_nil_r. Qed.

(** A step that reads nothing. *)
Lemma eats_silent {A B} (m : R A) (f : A -> R B) bs a b : eats m [] a -> eats (f a) bs b -> eats (rbind m f) bs b.
Proof. intros Hm Hf. change bs with ([] ++ bs). by eapply eats_bind. Qed.

Lemma scale_delta_range prev v : - 128 <= scale_delta prev v < 128.
Proof. unfold scale_delta. pose proof (Z.mod_pos_bound (v - prev + 128) 256 ltac:(lia)). lia. Qed.

Lemma scale_delta_next prev v : 0 <= prev < 256 -> 0 <= v < 256 -> Z.rem (s32 (s32 (prev + scale_delta prev v) + 256)) 256 = v.
Proof.
  intros Hp Hv. pose proof (scale_delta_range prev v). unfold s32. rewrite (signed_small 32 (prev + scale_delta prev v)), signed_small by lia. rewrite Z.rem_mod_nonneg by lia.
  unfold scale_delta. symmetry. pose proof (Z.div_mod (v - prev + 128) 256 ltac:(lia)) as Hd.
  apply (Z.mod_unique _ _ (1 - (v - prev + 128) / 256)); lia.
Qed.

Lemma eats_scale_rest n : forall last, eats (skip_scaling_list n last 0) [] tt.
Proof.
  induction n as [|n IH]; intros last; cbn [skip_scaling_list]; [apply eats_ret|].
  eapply eats_silent; [apply eats_ok|]. cbn [negb Z.eqb]. eapply eats_silent; [apply eats_ret|]. apply IH.
Qed.

Lemma eats_scales vs : forall n prev,
  0 < prev < 256 -> Forall (fun v => 0 < v < 256) vs -> eats (skip_scaling_list n prev prev) (scales_bits prev vs n) tt.
Proof.
  assert (Hnext : forall prev v, 0 <= prev < 256 -> 0 <= v < 256 ->
    eats (d <- se; rret (Z.rem (s32 (s32 (prev + d) + 256)) 256)) (se_bits (scale_delta prev v)) v).
  { intros prev v Hp Hv. apply eats_nil. pose proof (scale_delta_range prev v). eapply eats_bind; [apply eats_se; lia|]. cbv beta.
    rewrite scale_delta_next by lia. apply eats_ret. }
  induction vs as [|v vs IH]; intros [|n] prev Hp Hvs; cbn [skip_scaling_list scales_bits]; try apply eats_ret.
  - eapply eats_silent; [apply eats_ok|]. cbn [negb]. rewrite (proj2 (Z.eqb_neq prev 0)) by lia.
    apply eats_nil. eapply eats_bind; [apply Hnext; lia|]. cbn [Z.eqb]. apply eats_scale_rest.
  - apply Forall_cons in Hvs as [Hv Hvs]. eapply eats_silent; [apply eats_ok|]. cbn [negb]. rewrite (proj2 (Z.eqb_neq prev 0)) by lia.
    eapply eats_bind; [apply Hnext; lia|]. cbv beta. rewrite (proj2 (Z.eqb_neq v 0)) by lia. by apply IH.
Qed.

Lemma eats_matrix lists : forall i,
  Forall (fun l => match l with None => True | Some vs => Forall (fun v => 0 < v < 256) vs end) lists ->
  eats (scaling_lists (length lists) i) (matrix_bits i lists) tt.
Proof.
  induction lists as [|l lists IH]; intros i Hl; cbn [length scaling_lists matrix_bits]; [apply eats_ret|].
  apply Forall_cons in Hl as [Hv Hl]. destruct l as [vs|].
  - eapply eats_silent; [apply eats_ok|]. cbn [negb]. eat. cbn [Z.b2z Z.eqb]. eapply eats_bind; [by apply eats_scales|]. by apply IH.
  - eapply eats_silent; [apply eats_ok|]. cbn [negb]. eat. cbn [Z.b2z Z.eqb]. eapply eats_silent; [apply eats_ret|]. by apply IH.
Qed.

(** The number and the flag of a chroma format. *)
Definition chroma_idc (c : chroma_format) : Z := match c with Monochrome => 0 | C420 => 1 | C422 => 2 | C444 _ => 3 end.
Definition chroma_planes (c : chroma_format) : bool := match c with C444 planes => planes | _ => false end.

Lemma eats_chroma p : sps_wf p -> eats chroma_block (chroma_bits p) (chroma_idc (sp_chroma p), chroma_planes (sp_chroma p)).
Proof.
  intros Hwf. pose proof (wf_codes p Hwf) as Hc. rewrite !Forall_cons in Hc. destruct Hc as (_ & H2 & H3 & _).
  assert (Hm : eats (scaling <- u 1; (if scaling =? 0 then rret tt else scaling_lists (if chroma_idc (sp_chroma p) =? 3 then 12 else 8) 0);;
      rret (chroma_idc (sp_chroma p), chroma_planes (sp_chroma p)))
    (match sp_scaling p with None => [false] | Some lists => [true] ++ matrix_bits 0 lists end) (chroma_idc (sp_chroma p), chroma_planes (sp_chroma p))).
  { pose proof (wf_scaling p Hwf) as Hs. destruct (sp_scaling p) as [lists|].
    - destruct Hs as [Hl Hs]. eat. cbn [Z.b2z Z.eqb].
      replace (if chroma_idc (sp_chroma p) =? 3 then 12%nat else 8%nat) with (length lists) by (rewrite Hl; by destruct (sp_chroma p)).
      apply eats_nil. eapply eats_bind; [by apply eats_matrix|]. apply eats_ret.
    - apply eats_nil. eat. cbn [Z.b2z Z.eqb]. eapply eats_silent; [apply eats_ret|]. apply eats_ret. }
  unfold chroma_block, chroma_bits. destruct (sp_chroma p) as [| | |planes]; cbn [chroma_idc chroma_planes] in *.
  1-3: eapply eats_bind; [apply eats_ue; lia|]; cbn [Z.eqb Pos.eqb]; eapply eats_silent; [apply eats_ret|]; cbv beta; eat; eat; eat; exact Hm.
  rewrite <- app_assoc. eapply eats_bind; [apply eats_ue; lia|]. cbn [Z.eqb Pos.eqb].
  eapply eats_bind. { apply eats_nil. eat. apply eats_ret. }
  cbv beta. replace (negb (Z.b2z planes =? 0)) with planes by by destruct planes. eat. eat. eat. exact Hm.
Qed.

Lemma eats_se_loop offs : forall fuel,
  Forall se_range offs -> (length offs <= fuel)%nat ->
  eats (se_loop fuel (Z.of_nat (length offs))) (concat (se_bits <$> offs)) tt.
Proof.
  induction offs as [|v offs IH]; intros fuel Hs Hf.
  - destruct fuel as [|fuel]; cbn [se_loop]; [apply eats_ret|].
    apply eats_nil. eapply eats_bind; [apply eats_ok|]. apply eats_ret.
  - destruct fuel as [|fuel]; [simpl in Hf; lia|]. apply Forall_cons in Hs as [Hv Hs].
    cbn [se_loop length]. change (concat (se_bits <$> v :: offs)) with ([] ++ concat (se_bits <$> v :: offs)).
    eapply eats_bind; [apply eats_ok|]. cbv beta.
    destruct (Z.ltb_spec 0 (Z.of_nat (S (length offs)))); [|lia]. cbn [andb].
    rewrite fmap_cons. cbn [concat]. eat.
    replace (Z.of_nat (S (length offs)) - 1) with (Z.of_nat (length offs)) by lia.
    apply IH; [done | simpl in Hf; lia].
Qed.

Lemma se_bits_length v : (1 <= length (se_bits v))%nat.
Proof.
  unfold se_bits, ue_bits. rewrite !length_app. simpl. lia.
Qed.

Lemma eats_se_offsets offs :
  Forall se_range offs ->
  eats (fun r => se_loop (loop_fuel r) (Z.of_nat (length offs)) r) (concat (se_bits <$> offs)) tt.
Proof.
  intros Hs r rest Ho Hr. apply eats_se_loop; try done.
  assert (Hl : (length offs <= length (unread r))%nat).
  { rewrite Hr, length_app. clear. induction offs as [|v offs IH]; [simpl; lia|].
    rewrite fmap_cons. cbn [concat length]. rewrite length_app. pose proof (se_bits_length v). lia. }
  unfold unread in Hl. rewrite length_drop in Hl. unfold loop_fuel.
  assert (Hb : length (bits_of (rb_buf r)) = (8 * length (rb_buf r))%nat).
  { clear. induction (rb_buf r) as [|b l IH]; [done|]. unfold bits_of in *. rewrite fmap_cons.
    cbn [concat]. rewrite length_app, IH. cbn [length]. unfold byte_bits. rewrite length_fmap, length_seq. lia. }
  lia.
Qed.

Lemma eats_poc p :
  match p with
  | Poc0 lsb => ue_range lsb
  | Poc1 _ a b offs => se_range a /\ se_range b /\ Forall se_range offs /\
                       ue_range (Z.of_nat (length offs))
  | Poc2 => True
  end -> eats poc_block (poc_bits p) tt.
Proof.
  unfold poc_block. destruct p as [lsb|z a b offs|]; cbn [poc_bits].
  - intros H. eapply eats_bind; [apply eats_ue; lia|]. cbn [Z.eqb]. apply eats_nil. eat. apply eats_ret.
  - intros (H1 & H2 & H3 & H4). eapply eats_bind; [apply eats_ue; lia|]. cbn [Z.eqb Pos.eqb].
    eat. eat. eat. eat. by apply eats_se_offsets.
  - intros _. apply eats_nil. eapply eats_bind; [apply eats_ue; lia|]. apply eats_ret.
Qed.

Lemma eats_crop c :
  match c with None => True | Some (l, r, t, b) => ue_range l /\ ue_range r /\ ue_range t /\ ue_range b end ->
  eats cropping (crop_bits c) (default (0, 0, 0, 0) c).
Proof.
  unfold cropping. destruct c as [[[[l r] t] b]|]; cbn [crop_bits default].
  - intros (H1 & H2 & H3 & H4). eat. cbn [Z.b2z Z.eqb]. eat. eat. eat. apply eats_nil. eat. apply eats_ret.
  - intros _. apply eats_nil. eat. apply eats_ret.
Qed.

(** An element behind its flag. *)
Lemma eats_opt {A} (f : A -> list bool) (o : option A) (m : R unit) :
  match o with None => True | Some a => eats m (f a) tt end ->
  eats (b <- u 1; if b =? 0 then rret tt else m) (opt_bits f o) tt.
Proof.
  destruct o as [a|]; cbn [opt_bits]; intros H; [eat; exact H|]. apply eats_nil. eat. apply eats_ret.
Qed.

(** Sequences of steps in the other grouping. *)
Lemma eats_assoc {A B C} (m : R A) (f : A -> R B) (g : B -> R C) bs c :
  eats (rbind (rbind m f) g) bs c -> eats (rbind m (fun a => rbind (f a) g)) bs c.
Proof.
  intros He r rest H1 H2. destruct (He r rest H1 H2) as (r' & E & H). exists r'. split; [|exact H]. revert E. unfold rbind. by destruct (m r).
Qed.

Ltac field := eapply eats_bind; [apply eats_field; [lia | done]|]; cbv beta.

(** The rate of the timing: a tick is a field, a frame takes two; the nearest
    whole number, none from 1000 on, none without both numbers. *)
Definition timing_fps (t : option (Z * Z * bool)) : Z :=
  match t with
  | Some (num, scale, _) => if (0 <? num) && (0 <? scale) && (scale <? 2000 * num) then (scale + num) / (2 * num) else 0
  | None => 0
  end.

Lemma eats_timing t :
  match t with None => True | Some (num, scale, _) => bits_range 32 num /\ bits_range 32 scale end ->
  eats (timing <- u 1; if timing =? 0 then rret 0
        else num <- u 32; scale <- u 32; u 1;; o <- rok; rret (if o && (0 <? num) && (0 <? scale) then frame_rate num scale else 0))
    (opt_bits timing_bits t) (timing_fps t).
Proof.
  destruct t as [[[num scale] fixed]|]; cbn [opt_bits timing_bits timing_fps].
  - intros [H1 H2]. eat. cbn [Z.b2z Z.eqb]. field. field. apply eats_nil. eat. eapply eats_silent; [apply eats_ok|]. cbn [andb].
    assert (Hr : (if (0 <? num) && (0 <? scale) then frame_rate num scale else 0) =
      (if (0 <? num) && (0 <? scale) && (scale <? 2000 * num) then (scale + num) / (2 * num) else 0)).
    { destruct (Z.ltb_spec 0 num), (Z.ltb_spec 0 scale); cbn [andb]; try done. unfold bits_range in *. by apply frame_rate_exact; lia. }
    rewrite Hr. apply eats_ret.
  - intros _. apply eats_nil. eat. apply eats_ret.
Qed.

Lemma eats_vui v : match v with None => True | Some v => vui_wf v end ->
  eats vui_fps (opt_bits vui_bits v) (timing_fps (v ≫= vui_timing)).
Proof.
  unfold vui_fps. destruct v as [v|]; cbn [opt_bits mbind option_bind]; [|intros _; apply eats_nil; eat; apply eats_ret].
  intros [Ha Hv Hl Ht]. eat. cbn [Z.b2z Z.eqb]. unfold vui_bits.
  apply eats_assoc. eapply eats_bind.
  { apply eats_opt. destruct (vui_aspect v) as [[idc|w h]|]; [| |done]; cbn [aspect_bits].
    - destruct Ha as [Ha1 Ha2]. apply eats_nil. field. rewrite (proj2 (Z.eqb_neq _ _)) by done. apply eats_ret.
    - destruct Ha as [Ha1 Ha2]. field. cbn [Z.eqb Pos.eqb]. field. apply eats_nil. field. apply eats_ret. }
  cbv beta. apply eats_assoc. eapply eats_bind.
  { apply eats_opt. destruct (vui_overscan v); [|done]. apply eats_nil. eat. apply eats_ret. }
  cbv beta. apply eats_assoc. eapply eats_bind.
  { apply eats_opt. destruct (vui_video v) as [[[format range] colour]|]; [|done]. destruct Hv as [Hf Hc]. cbn [video_bits].
    field. eat. apply eats_opt. destruct colour as [[[a b] c]|]; [|done]. destruct Hc as (Ca & Cb & Cc). cbn [colour_bits].
    field. field. apply eats_nil. field. apply eats_ret. }
  cbv beta. apply eats_assoc. eapply eats_bind.
  { apply eats_opt. destruct (vui_chroma_loc v) as [[a b]|]; [|done]. destruct Hl as [La Lb]. cbn [fst snd].
    eat. apply eats_nil. eat. apply eats_ret. }
  cbv beta. by apply eats_timing.
Qed.

(** Samples across and down in a unit of cropping. *)
Definition crop_unit (c : chroma_format) : Z * Z :=
  match c with C420 => (2, 2) | C422 => (2, 1) | Monochrome | C444 _ => (1, 1) end.

(** The geometry the syntax elements stand for: the macroblocks of 16 samples,
    in two fields unless all pictures are frames, without what is cropped; none
    that is empty or larger than 16384 samples. *)
Definition sps_geometry (p : sps_spec) : option SpsGeometry :=
  let '(l, r, t, b) := default (0, 0, 0, 0) (sp_crop p) in
  let fields := if sp_mbs_only p then 1 else 2 in
  let width := 16 * (sp_width p + 1) - (crop_unit (sp_chroma p)).1 * (l + r) in
  let height := fields * (16 * (sp_height p + 1) - (crop_unit (sp_chroma p)).2 * (t + b)) in
  if decide (1 <= width <= 16384 /\ 1 <= height <= 16384)
  then Some {| sg_width := width; sg_height := height; sg_fps := timing_fps (sp_vui p ≫= vui_timing) |} else None.

Lemma display_size_spec c width_mbs height_maps (mbs_only : bool) l r t b :
  0 <= l + r < 2 ^ 32 -> 0 <= t + b < 2 ^ 32 ->
  let w := 16 * width_mbs - (crop_unit c).1 * (l + r) in
  let h := (if mbs_only then 1 else 2) * (16 * height_maps - (crop_unit c).2 * (t + b)) in
  display_size (chroma_idc c) (chroma_planes c) width_mbs height_maps mbs_only (l, r, t, b) =
  if decide (1 <= w <= 16384 /\ 1 <= h <= 16384) then Some (w, h) else None.
Proof.
  intros Hl Ht w h. unfold display_size. assert (U1 : u32 (l + r) = l + r) by (by apply u32_small). assert (U2 : u32 (t + b) = t + b) by (by apply u32_small).
  rewrite U1, U2. subst w h.
  destruct c as [| | |[]], mbs_only; cbn [chroma_idc chroma_planes crop_unit fst snd Z.eqb Pos.eqb orb];
    match goal with |- (if ?x || ?y || ?z || ?v then None else Some (?a, ?b)) = (if decide (1 <= ?c <= _ /\ 1 <= ?d <= _) then _ else _) =>
      replace a with c by lia; replace b with d by lia end;
    case_decide as Hd; match goal with |- (if ?x then _ else _) = _ => destruct x eqn:E end; try done; exfalso; lia.
Qed.

Lemma writes_chroma_spec p : profile_has_chroma_block (sp_profile p) = writes_chroma p.
Proof.
  unfold profile_has_chroma_block, writes_chroma. apply eq_true_iff_eq. rewrite bool_decide_eq_true, existsb_exists. split.
  - intros (x & Hx & E%Z.eqb_eq). subst x. apply list_elem_of_In. simpl in *. tauto.
  - intros H. exists (sp_profile p). split; [|apply Z.eqb_refl]. apply list_elem_of_In in H. simpl in *. tauto.
Qed.

Lemma eats_sps p : sps_wf p -> eats parse_sps (sps_bits p) (sps_geometry p).
Proof.
  intros Hwf. destruct (wf_bytes p Hwf) as (B1 & B2 & B3). pose proof (wf_codes p Hwf) as Hc. rewrite !Forall_cons in Hc.
  destruct Hc as (C1 & _ & _ & C4 & C5 & C6 & C7 & _). pose proof (wf_crop p Hwf) as Hcrop.
  unfold parse_sps, sps_bits, sps_geometry.
  field. field. field. eat. rewrite writes_chroma_spec. eapply eats_bind.
  { instantiate (1 := (chroma_idc (sp_chroma p), chroma_planes (sp_chroma p))). pose proof (wf_chroma p Hwf) as H420.
    destruct (writes_chroma p); [by apply eats_chroma|]. rewrite H420 by done. apply eats_ret. }
  cbv beta. eat. eapply eats_bind; [apply eats_poc, (wf_poc p Hwf)|]. cbv beta. eat. eat. eat. eat. eat.
  assert (Hf : negb (Z.b2z (sp_mbs_only p) =? 0) = sp_mbs_only p) by (by destruct (sp_mbs_only p)).
  rewrite Hf. cbv zeta. eapply eats_bind.
  { instantiate (1 := tt). destruct (sp_mbs_only p); [apply eats_ret|]. apply eats_nil. eat. apply eats_ret. }
  cbv beta. eat. eapply eats_bind; [apply eats_crop; by destruct (sp_crop p) as [[[[l r] t] b]|]; [destruct Hcrop|]|]. cbv beta.
  apply eats_nil. eapply eats_bind; [apply eats_vui, (wf_vui p Hwf)|]. cbv beta.
  eapply eats_silent; [apply eats_ok|]. cbv beta. cbn [negb fst snd].
  assert (Hs : exists l r t b, default (0, 0, 0, 0) (sp_crop p) = (l, r, t, b) /\ 0 <= l + r < 2 ^ 32 /\ 0 <= t + b < 2 ^ 32).
  { unfold ue_range in Hcrop. destruct (sp_crop p) as [[[[l r] t] b]|]; [exists l, r, t, b | exists 0, 0, 0, 0]; cbn [default]; split_and!; lia || done. }
  destruct Hs as (l & r & t & b & -> & Hlr & Htb). unfold ue_range in C6, C7. rewrite !u32_small by lia. rewrite display_size_spec by done.
  cbv zeta. case_decide; apply eats_ret.
Qed.

(** C36: the geometry of a sequence parameter set is decoded as an encoder wrote
    it, in any profile, chroma format and picture order count type, with or
    without scaling matrices, cropping and usability information, behind emulation
    prevention: the samples of the macroblocks without the cropped ones, and the
    frame rate to the nearest whole number. *)
Theorem parse_sps_decodes (p : sps_spec) (header : byte) (rbsp : list byte) (tl : list bool) :
  sps_wf p -> bits_of rbsp = sps_bits p ++ tl ->
  parse_sps_geometry (header :: insert_emulation 0 rbsp) = sps_geometry p.
Proof.
  intros Hw Hb. unfold parse_sps_geometry.
  assert (Hlen : (4 <= length rbsp)%nat).
  { assert (Hl : length (bits_of rbsp) = (8 * length rbsp)%nat).
    { clear. induction rbsp as [|b l IH]; [done|]. unfold bits_of in *. rewrite fmap_cons.
      cbn [concat]. rewrite length_app, IH. cbn [length]. unfold byte_bits.
      rewrite length_fmap, length_seq. lia. }
    rewrite Hb, length_app in Hl. unfold sps_bits in Hl. rewrite !length_app, !length_to_bits in Hl.
    assert (1 <= length (ue_bits (sp_id p)))%nat by (unfold ue_bits; rewrite !length_app; simpl; lia).
    lia. }
  pose proof (length_insert 0 rbsp). cbn [length drop]. rewrite drop_0.
  destruct (Nat.ltb_spec (S (length (insert_emulation 0 rbsp))) 4); [lia|].
  destruct (eats_sps p Hw (new_reader (insert_emulation 0 rbsp)) tl) as (r & E & _); [done| |by rewrite E].
  unfold new_reader, unread. cbn [rb_buf rb_bit]. rewrite drop_0.
  pose proof (strip_insert rbsp 0 ltac:(lia)) as Hs. cbn [replicate app] in Hs. by rewrite Hs, Hb.
Qed.

(** What is returned comes out of [display_size]. *)
Lemma rbind_post {A B} (m : R A) (f : A -> R B) (P : B -> Prop) :
  (forall a r, P (f a r).1) -> forall r, P (rbind m f r).1.
Proof. intros H r. unfold rbind. destruct (m r). apply H. Qed.

Lemma parse_sps_post (P : SpsGeometry -> Prop) :
  (forall fmt sep w h mbs crop a b fps, display_size fmt sep w h mbs crop = Some (a, b) ->
     P {| sg_width := a; sg_height := b; sg_fps := fps |}) ->
  forall r g, (parse_sps r).1 = Some g -> P g.
Proof.
  intros HP. set (Q := fun o => forall g, o = Some g -> P g).
  assert (H : forall r, Q (parse_sps r).1); [|intros r g; apply H].
  unfold parse_sps. do 4 (apply rbind_post; intros ?). apply rbind_post. intros [fmt sep].
  do 7 (apply rbind_post; intros ?). cbv zeta. do 5 (apply rbind_post; intros ?). intros r g.
  cbn [rret fst]. destruct (negb _); [done|].
  destruct (display_size _ _ _ _ _ _) as [[w h]|] eqn:E; [|done]. intros [= <-]. by eapply HP.
Qed.

(** Whatever the bytes, a geometry that is returned is a picture of at
    least one and at most 16384 samples each way. *)
Lemma parse_sps_bounds (sps : list byte) (g : SpsGeometry) :
  parse_sps_geometry sps = Some g ->
  0 < sg_width g <= 16384 /\ 0 < sg_height g <= 16384.
Proof.
  unfold parse_sps_geometry. destruct (_ <? _)%nat; [done|].
  assert (Hd : forall fmt sep w h mbs crop a b,
    display_size fmt sep w h mbs crop = Some (a, b) -> 0 < a <= 16384 /\ 0 < b <= 16384).
  { intros fmt sep w h mbs [[[l r] t] b0] a b. unfold display_size. cbv zeta.
    destruct (_ || _) eqn:E; [done|]. intros [= <- <-]. rewrite !orb_false_iff in E. lia. }
  apply (parse_sps_post (fun g => 0 < sg_width g <= 16384 /\ 0 < sg_height g <= 16384)). intros fmt sep w h mbs crop a b fps E. simpl. eapply Hd, E.
Qed.

(** ** Concrete streams *)

Definition demo_items : list (bool * list byte) :=
  [(true, [Byte.x67; Byte.x42]); (true, [Byte.x68; Byte.xce]); (false, [Byte.x65; Byte.x88; x00; Byte.x80]);
   (false, [Byte.x41; x00; x00; Byte.x03; x01])].

Lemma annexb_to_avcc_correct_witness :
  let nals := List.filter kept (snd <$> demo_items) in
  let '(ok, out) := annexb_to_avcc (annexb demo_items) in
  ok = negb (length nals =? 0)%nat /\
  parse_avcc (S (length nals)) (avcc_data out) = Some nals /\
  avcc_idr out = contains_idr (annexb demo_items) /\
  avcc_idr out = existsb (fun it => nal_type it.2 =? 5) demo_items.
Proof.
  apply annexb_to_avcc_correct; unfold demo_items, wf_items, small; repeat constructor.
Defined.

(** 1920 x 1080 at 30 frames a second, 4:2:0, High profile. *)
Definition demo_sps : sps_spec :=
  {| sp_profile := 100; sp_constraints := 0; sp_level := 40; sp_id := 0;
     sp_chroma := C420; sp_depth_luma := 0; sp_depth_chroma := 0; sp_bypass := false;
     sp_scaling := Some [Some [6; 13; 20; 28; 32]; None; None; None; None; None; Some [16]; None];
     sp_frame_num := 0; sp_poc := Poc2; sp_refs := 1; sp_gaps := false;
     sp_width := 119; sp_height := 67; sp_mbs_only := true; sp_mbaff := false; sp_direct := true;
     sp_crop := Some (0, 0, 0, 4);
     sp_vui := Some {| vui_aspect := Some (Extended 1 1); vui_overscan := None; vui_video := Some (5, true, Some (1, 1, 1));
                       vui_chroma_loc := None; vui_timing := Some (1001, 60000, true) |} |}.

Fixpoint pack (fuel : nat) (bs : list bool) : list byte :=
  match fuel with
  | O => []
  | S fuel => zb (bval (take 8 bs)) :: pack fuel (drop 8 bs)
  end.

(** The payload: the bits, a stop bit, and zeros up to a whole byte. *)
Definition demo_tail : list bool := [true; false; false].
Definition demo_rbsp : list byte := pack 37 (sps_bits demo_sps ++ demo_tail).

Lemma parse_sps_decodes_witness :
  parse_sps_geometry (Byte.x67 :: insert_emulation 0 demo_rbsp) = sps_geometry demo_sps.
Proof.
  apply (parse_sps_decodes demo_sps _ _ demo_tail).
  - split; simpl; unfold bits_range; [lia | repeat constructor; unfold ue_range; lia | done | split; [done|]; repeat constructor; lia
      | done | unfold ue_range; lia | split; simpl; unfold bits_range; [lia | lia | done | lia]].
  - vm_compute. reflexivity.
Defined.

Example demo_geometry :
  sps_geometry demo_sps = Some {| sg_width := 1920; sg_height := 1080; sg_fps := 30 |}.
Proof. vm_compute. reflexivity. Qed.

Lemma parse_sps_bounds_witness : 0 < 1920 <= 16384 /\ 0 < 1080 <= 16384.
Proof.
  apply (parse_sps_bounds (Byte.x67 :: insert_emulation 0 demo_rbsp)
           {| sg_width := 1920; sg_height := 1080; sg_fps := 30 |}).
  vm_compute. reflexivity.
Defined.
