(* ===== verification/ZipRead.v ===== *)
(** Reading one entry of a zip archive ([src/zip_read.cpp]). The file is the
    list of its bytes; zlib's [inflate] and [crc32] are parameters: [inflate]
    gives the bytes a raw deflate stream decodes to when it ends within the
    output size it is given. Results are the data or the error text. *)

From S2P Require Import Prelude.

Definition kEocdSig : Z := 0x06054b50.
Definition kCentralSig : Z := 0x02014b50.
Definition kLocalSig : Z := 0x04034b50.
Definition kEocdLen : nat := 22.
Definition kCentralLen : nat := 46.
Definition kLocalLen : nat := 30.
Definition kMaxComment : Z := 0xffff.
Definition kMaxCentralDir : Z := 16 * 2 ^ 20.
Definition kMaxPacked : Z := 16 * 2 ^ 20.

(** Seeking past the end succeeds, reading there does not. *)
Definition read_at (file : list byte) (off n : Z) : option (list byte) :=
  if n =? 0 then Some []
  else if off + n <=? Z.of_nat (length file) then Some (sub (Z.to_nat off) (Z.to_nat n) file)
  else None.

(** The scan for the end-of-central-directory record, from position [n - 1]
    down. *)
Fixpoint find_eocd (n : nat) (tail : list byte) : option nat :=
  match n with
  | O => None
  | S i =>
      if (le32 tail i =? kEocdSig) &&
         (Z.of_nat (i + kEocdLen) + le16 tail (i + 20) =? Z.of_nat (length tail))
      then Some i else find_eocd i tail
  end.

(** A central directory record at the head of [c]. *)
Record Central := {
  c_flags : Z; c_method : Z; c_crc : Z; c_csize : Z; c_usize : Z; c_nlen : Z;
  c_rec : nat; c_loff : Z
}.

Definition read_central (c : list byte) : Central :=
  {| c_flags := le16 c 8; c_method := le16 c 10; c_crc := le32 c 16; c_csize := le32 c 20;
     c_usize := le32 c 24; c_nlen := le16 c 28;
     c_rec := kCentralLen + Z.to_nat (le16 c 28) + Z.to_nat (le16 c 30) + Z.to_nat (le16 c 32);
     c_loff := le32 c 42 |}.

(** Where the central directory is: its offset, size and number of entries. *)
Record Directory := { d_off : Z; d_size : Z; d_entries : Z }.

Definition read_eocd (e : list byte) (eocd_off : Z) : cstr + Directory :=
  let entries := le16 e 10 in
  let cd_size := le32 e 12 in
  let cd_off := le32 e 16 in
  if (entries =? 0xffff) || (cd_size =? 0xffffffff) || (cd_off =? 0xffffffff)
  then inl (str "zip64 archive")
  else if negb (le16 e 4 =? 0) || negb (le16 e 6 =? 0) || negb (le16 e 8 =? entries)
  then inl (str "multi-disk archive")
  else if (eocd_off <? cd_off + cd_size) || (kMaxCentralDir <? cd_size)
  then inl (str "central directory out of bounds")
  else inr {| d_off := cd_off; d_size := cd_size; d_entries := entries |}.

Section zlib.
Context (inflate : list byte -> nat -> option (list byte)) (crc32 : list byte -> Z).

Definition inflate_raw (packed : list byte) (size : nat) : option (list byte) :=
  match inflate packed size with
  | Some data => if (length data =? size)%nat then Some data else None
  | None => None
  end.

(** The entry a record describes. *)
Definition extract (file : list byte) (cd_off : Z) (c : Central) (max_size : Z)
    : cstr + list byte :=
  if negb (Z.land (c_flags c) 0x1 =? 0) then inl (str "encrypted entry")
  else if (c_csize c =? 0xffffffff) || (c_usize c =? 0xffffffff) || (c_loff c =? 0xffffffff)
  then inl (str "zip64 entry")
  else if max_size <? c_usize c then inl (str "entry too large")
  else if negb (c_method c =? 0) && negb (c_method c =? 8)
  then inl (str "unsupported compression method")
  else if (if c_method c =? 0 then negb (c_csize c =? c_usize c) else kMaxPacked <? c_csize c)
  then inl (str "bad entry sizes")
  else
    match read_at file (c_loff c) (Z.of_nat kLocalLen) with
    | None => inl (str "bad local header")
    | Some lh =>
        if negb (le32 lh 0 =? kLocalSig) then inl (str "bad local header")
        else
          let data_off := c_loff c + Z.of_nat kLocalLen + le16 lh 26 + le16 lh 28 in
          if cd_off <? data_off + c_csize c then inl (str "entry data out of bounds")
          else
            match read_at file data_off (c_csize c) with
            | None => inl (str "read failed")
            | Some packed =>
                match (if c_method c =? 0 then Some packed
                       else inflate_raw packed (Z.to_nat (c_usize c))) with
                | None => inl (str "inflate failed")
                | Some data => if negb (crc32 data =? c_crc c) then inl (str "crc mismatch")
                               else inr data
                end
            end
    end.

(** The loop over the [n] records left in [c]. *)
Fixpoint scan_entries (n : nat) (file : list byte) (cd_off : Z) (c name : list byte) (max_size : Z)
    : cstr + list byte :=
  match n with
  | O => inl (str "entry not found")
  | S n =>
      if (length c <? kCentralLen)%nat || negb (le32 c 0 =? kCentralSig)
      then inl (str "bad central directory entry")
      else
        let r := read_central c in
        if (length c <? c_rec r)%nat then inl (str "bad central directory entry")
        else
          let hit := (c_nlen r =? Z.of_nat (length name)) &&
                     bool_decide (sub kCentralLen (Z.to_nat (c_nlen r)) c = name) in
          if negb hit then scan_entries n file cd_off (drop (c_rec r) c) name max_size
          else extract file cd_off r max_size
  end.

(** [archive]: the contents of the file at [zip_path], when it opens. *)
Definition read_entry (archive : option (list byte)) (name : list byte) (max_size : Z)
    : cstr + list byte :=
  match archive with
  | None => inl (str "cannot open archive")
  | Some file =>
  let size := Z.of_nat (length file) in
  if size <? Z.of_nat kEocdLen then inl (str "not a zip archive")
  else
    let tail_len := Z.min size (Z.of_nat kEocdLen + kMaxComment) in
    match read_at file (size - tail_len) tail_len with
    | None => inl (str "read failed")
    | Some tail =>
        match find_eocd (Z.to_nat tail_len - kEocdLen + 1) tail with
        | None => inl (str "no end of central directory record")
        | Some eocd =>
            match read_eocd (drop eocd tail) (size - tail_len + Z.of_nat eocd) with
            | inl err => inl err
            | inr d =>
                match read_at file (d_off d) (d_size d) with
                | None => inl (str "read failed")
                | Some cd => scan_entries (Z.to_nat (d_entries d)) file (d_off d) cd name max_size
                end
            end
        end
    end
  end.

(** ** Bounds *)

Lemma extract_bounds file cd_off c max_size data :
  0 <= c_usize c -> 0 <= c_loff c -> extract file cd_off c max_size = inr data ->
  Z.of_nat (length data) = c_usize c /\ c_usize c <= max_size /\ crc32 data = c_crc c.
Proof.
  intros Hu Hl. unfold extract. destruct (negb _); [done|]. destruct (_ || _); [done|].
  destruct (Z.ltb_spec max_size (c_usize c)); [done|]. destruct (_ && _); [done|].
  destruct (if c_method c =? 0 then _ else _) eqn:Es; [done|].
  destruct (read_at file (c_loff c) _) as [lh|]; [|done].
  destruct (negb (le32 _ _ =? _)); [done|].
  destruct (cd_off <? _); [done|].
  destruct (read_at file _ (c_csize c)) as [packed|] eqn:Er; [|done].
  destruct (if c_method c =? 0 then Some packed else _) as [d|] eqn:Ed; [|done].
  destruct (Z.eqb_spec (crc32 d) (c_crc c)) as [Hc|]; [|done]. intros [= <-].
  split; [|done]. destruct (c_method c =? 0).
  - injection Ed as <-. apply negb_false_iff, Z.eqb_eq in Es. unfold read_at in Er.
    destruct (Z.eqb_spec (c_csize c) 0); [injection Er as <-; simpl; lia|].
    destruct (Z.leb_spec (c_loff c + Z.of_nat kLocalLen + le16 lh 26 + le16 lh 28 + c_csize c)
                (Z.of_nat (length file))); [|done].
    injection Er as <-. pose proof (le16_nonneg lh 26). pose proof (le16_nonneg lh 28).
    rewrite length_sub; lia.
  - unfold inflate_raw in Ed. destruct (inflate _ _) as [d'|]; [|done].
    destruct (Nat.eqb_spec (length d') (Z.to_nat (c_usize c))); [|done]. injection Ed as <-. lia.
Qed.

Lemma scan_bounds n file cd_off c name max_size data :
  scan_entries n file cd_off c name max_size = inr data ->
  Z.of_nat (length data) <= max_size /\ exists rest, crc32 data = le32 rest 16.
Proof.
  revert c. induction n as [|n IH]; intros c; cbn [scan_entries]; [done|].
  destruct (_ || _); [done|]. cbv zeta. destruct (_ <? _)%nat; [done|].
  destruct (negb _); [apply IH|]. intros H.
  apply extract_bounds in H as (H1 & H2 & H3); [|apply le32_nonneg..].
  split; [lia|]. by exists c.
Qed.

(** What [read_entry] returns is never larger than the caller's limit,
    and its checksum is the one an entry record of the central directory
    carries. *)
Lemma read_entry_checked archive name max_size data :
  read_entry archive name max_size = inr data ->
  Z.of_nat (length data) <= max_size /\ exists rest, crc32 data = le32 rest 16.
Proof.
  unfold read_entry. destruct archive as [file|]; [|done]. destruct (_ <? _); [done|]. cbv zeta.
  destruct (read_at _ _ _) as [tail|]; [|done]. destruct (find_eocd _ _) as [i|]; [|done].
  destruct (read_eocd _ _) as [|d]; [done|]. destruct (read_at _ _ _) as [cd|]; [|done].
  apply scan_bounds.
Qed.

(** ** Archives as a writer lays them out *)

Record Entry := {
  e_name : list byte; e_data : list byte; e_packed : list byte; e_method : Z; e_flags : Z;
  e_lextra : list byte; e_cextra : list byte; e_comment : list byte;
  e_made : Z; e_need : Z; e_time : Z; e_date : Z; e_lcrc : Z; e_lcsize : Z; e_lusize : Z;
  e_disk : Z; e_iattr : Z; e_eattr : Z
}.

Definition local_header (e : Entry) : list byte :=
  enc_le32 kLocalSig ++ enc_le16 (e_need e) ++ enc_le16 (e_flags e) ++ enc_le16 (e_method e) ++
  enc_le16 (e_time e) ++ enc_le16 (e_date e) ++ enc_le32 (e_lcrc e) ++ enc_le32 (e_lcsize e) ++
  enc_le32 (e_lusize e) ++ enc_le16 (zlen (e_name e)) ++ enc_le16 (zlen (e_lextra e)).

Definition local_entry (e : Entry) : list byte :=
  local_header e ++ e_name e ++ e_lextra e ++ e_packed e.

Definition central_header (off : nat) (e : Entry) : list byte :=
  enc_le32 kCentralSig ++ enc_le16 (e_made e) ++ enc_le16 (e_need e) ++ enc_le16 (e_flags e) ++
  enc_le16 (e_method e) ++ enc_le16 (e_time e) ++ enc_le16 (e_date e) ++
  enc_le32 (crc32 (e_data e)) ++ enc_le32 (zlen (e_packed e)) ++ enc_le32 (zlen (e_data e)) ++
  enc_le16 (zlen (e_name e)) ++ enc_le16 (zlen (e_cextra e)) ++ enc_le16 (zlen (e_comment e)) ++
  enc_le16 (e_disk e) ++ enc_le16 (e_iattr e) ++ enc_le32 (e_eattr e) ++ enc_le32 (Z.of_nat off).

Definition central_entry (off : nat) (e : Entry) : list byte :=
  central_header off e ++ e_name e ++ e_cextra e ++ e_comment e.

Fixpoint locals (es : list Entry) : list byte :=
  match es with [] => [] | e :: es => local_entry e ++ locals es end.

Fixpoint centrals (off : nat) (es : list Entry) : list byte :=
  match es with
  | [] => []
  | e :: es => central_entry off e ++ centrals (off + length (local_entry e)) es
  end.

Definition end_record (n cd_size cd_off : Z) (comment : list byte) : list byte :=
  enc_le32 kEocdSig ++ enc_le16 0 ++ enc_le16 0 ++ enc_le16 n ++ enc_le16 n ++
  enc_le32 cd_size ++ enc_le32 cd_off ++ enc_le16 (zlen comment) ++ comment.

Definition eocd_of (es : list Entry) (comment : list byte) : list byte :=
  end_record (zlen es) (zlen (centrals 0 es)) (zlen (locals es)) comment.

Definition archive_of (es : list Entry) (comment : list byte) : list byte :=
  locals es ++ centrals 0 es ++ eocd_of es comment.

(** The lengths that have a 16-bit field. *)
Definition name_ok (e : Entry) : Prop :=
  zlen (e_name e) < 2 ^ 16 /\ zlen (e_lextra e) < 2 ^ 16 /\
  zlen (e_cextra e) < 2 ^ 16 /\ zlen (e_comment e) < 2 ^ 16.

(** An entry that is stored, or deflated within the reader's cap, and not
    encrypted. *)
Definition entry_ok (e : Entry) : Prop :=
  0 <= e_flags e < 2 ^ 16 /\ Z.land (e_flags e) 0x1 = 0 /\
  (e_method e = 0 /\ e_packed e = e_data e \/
   e_method e = 8 /\ inflate (e_packed e) (length (e_data e)) = Some (e_data e) /\
   zlen (e_packed e) <= kMaxPacked) /\
  zlen (e_data e) < 0xffffffff /\ 0 <= crc32 (e_data e) < 2 ^ 32.

(** The directory fits the 32-bit format, and the end record's signature is
    not repeated in the comment. *)
Definition layout_ok (es : list Entry) (comment : list byte) : Prop :=
  Forall name_ok es /\ zlen es < 0xffff /\ zlen (centrals 0 es) <= kMaxCentralDir /\
  zlen (locals es) < 0xffffffff /\ zlen comment <= kMaxComment /\
  Forall (fun j => le32 (eocd_of es comment) j <> kEocdSig) (seq 1 (length comment)).

Lemma local_header_fields e r :
  le32 (local_header e ++ r) 0 = kLocalSig /\
  le16 (local_header e ++ r) 26 = u16 (zlen (e_name e)) /\
  le16 (local_header e ++ r) 28 = u16 (zlen (e_lextra e)).
Proof.
  rewrite (le16_at _ 26), (le16_at _ 28). unfold local_header.
  cbn [enc_le16 enc_le32 app drop]. rewrite !le16_enc, le32_enc. done.
Qed.

Lemma central_header_fields off e r :
  le32 (central_header off e ++ r) 0 = kCentralSig /\
  read_central (central_header off e ++ r) =
    {| c_flags := u16 (e_flags e); c_method := u16 (e_method e); c_crc := u32 (crc32 (e_data e));
       c_csize := u32 (zlen (e_packed e)); c_usize := u32 (zlen (e_data e));
       c_nlen := u16 (zlen (e_name e));
       c_rec := kCentralLen + Z.to_nat (u16 (zlen (e_name e)))
                + Z.to_nat (u16 (zlen (e_cextra e))) + Z.to_nat (u16 (zlen (e_comment e)));
       c_loff := u32 (Z.of_nat off) |}.
Proof.
  unfold read_central.
  rewrite (le16_at _ 8), (le16_at _ 10), (le32_at _ 16), (le32_at _ 20), (le32_at _ 24),
    (le16_at _ 28), (le16_at _ 30), (le16_at _ 32), (le32_at _ 42). unfold central_header.
  cbn [enc_le16 enc_le32 app drop]. rewrite !le16_enc, !le32_enc. done.
Qed.

Lemma length_local_header e : length (local_header e) = 30%nat.
Proof. done. Qed.
Lemma length_central_header off e : length (central_header off e) = 46%nat.
Proof. done. Qed.

Lemma read_at_app pre l post :
  read_at (pre ++ l ++ post) (zlen pre) (zlen l) = Some l.
Proof.
  unfold read_at, zlen. destruct (Z.eqb_spec (Z.of_nat (length l)) 0) as [E|].
  - destruct l; [done | simpl in E; lia].
  - rewrite !length_app, (proj2 (Z.leb_le _ _)) by lia. rewrite !Nat2Z.id, sub_app_r by lia.
    rewrite Nat.sub_diag, sub_app_head; done.
Qed.

(** The reader's checks on the sizes pass for an entry a writer may store. *)
Lemma entry_checks e max_size :
  entry_ok e -> zlen (e_data e) <= max_size ->
  u16 (e_flags e) = e_flags e /\ u16 (e_method e) = e_method e /\
  u32 (zlen (e_packed e)) = zlen (e_packed e) /\ u32 (zlen (e_data e)) = zlen (e_data e) /\
  zlen (e_packed e) < 0xffffffff /\
  (if e_method e =? 0 then negb (zlen (e_packed e) =? zlen (e_data e))
   else kMaxPacked <? zlen (e_packed e)) = false /\
  (if e_method e =? 0 then Some (e_packed e)
   else inflate_raw (e_packed e) (length (e_data e))) = Some (e_data e).
Proof.
  intros (Hf & _ & Hm & Hd & Hc) Hmax. assert (0 <= zlen (e_data e)) by (unfold zlen; lia).
  assert (0 <= zlen (e_packed e)) by (unfold zlen; lia). unfold kMaxPacked in *.
  destruct Hm as [(Hm & Hp) | (Hm & Hi & Hp)]; rewrite Hm; cbn [Z.eqb].
  - rewrite Hp, Z.eqb_refl, u16_small, !u32_small by lia. done.
  - unfold inflate_raw. rewrite Hi, Nat.eqb_refl, u16_small, !u32_small by lia.
    rewrite (proj2 (Z.ltb_ge _ _)) by lia. repeat split; done || lia.
Qed.

Lemma extract_entry pre e post cd_off nlen rec max_size :
  entry_ok e -> name_ok e -> zlen (e_data e) <= max_size -> zlen pre < 0xffffffff ->
  zlen pre + zlen (local_entry e) <= cd_off ->
  extract (pre ++ local_entry e ++ post) cd_off
    {| c_flags := u16 (e_flags e); c_method := u16 (e_method e); c_crc := u32 (crc32 (e_data e));
       c_csize := u32 (zlen (e_packed e)); c_usize := u32 (zlen (e_data e));
       c_nlen := nlen; c_rec := rec; c_loff := u32 (zlen pre) |} max_size = inr (e_data e).
Proof.
  intros He (Hn & Hx & _) Hmax Hpre Hoff.
  destruct (entry_checks _ _ He Hmax) as (Ef & Em & Ec & Eu & Hc & Es & Ed).
  destruct He as (_ & Hl & Hm & Hd & Hcrc).
  assert (0 <= zlen pre) by (unfold zlen; lia). assert (0 <= zlen (e_name e)) by (unfold zlen; lia).
  assert (0 <= zlen (e_lextra e)) by (unfold zlen; lia).
  unfold extract. cbn [c_flags c_method c_crc c_csize c_usize c_loff].
  rewrite Ef, Em, Ec, Eu, Hl, Es, (u32_small (zlen pre)), (u32_small (crc32 _)) by lia. cbn [Z.eqb negb].
  rewrite !(proj2 (Z.eqb_neq _ 0xffffffff)), (proj2 (Z.ltb_ge max_size _)) by lia. cbn [orb].
  replace (negb (e_method e =? 0) && negb (e_method e =? 8)) with false
    by (destruct Hm as [(-> & _) | (-> & _)]; done).
  unfold local_entry at 1 2. rewrite <- !app_assoc.
  change (Z.of_nat kLocalLen) with (zlen (local_header e)) at 1. rewrite read_at_app.
  destruct (local_header_fields e []) as (L1 & L2 & L3). rewrite app_nil_r in L1, L2, L3.
  rewrite L1, L2, L3, !u16_small, Z.eqb_refl by lia. cbn [negb]. cbv zeta.
  replace (zlen pre + Z.of_nat kLocalLen + zlen (e_name e) + zlen (e_lextra e))
    with (zlen (pre ++ local_header e ++ e_name e ++ e_lextra e))
    by (unfold zlen; rewrite !length_app, length_local_header; unfold kLocalLen; lia).
  rewrite (proj2 (Z.ltb_ge cd_off _)).
  2: { unfold zlen, local_entry in *. rewrite !length_app in *. lia. }
  replace (pre ++ local_header e ++ e_name e ++ e_lextra e ++ e_packed e ++ post)
    with ((pre ++ local_header e ++ e_name e ++ e_lextra e) ++ e_packed e ++ post)
    by by rewrite <- !app_assoc.
  rewrite read_at_app. unfold zlen at 1. rewrite Nat2Z.id, Ed, Z.eqb_refl. done.
Qed.

(** The record [central_entry] writes, as the reader sees it. *)
Definition record_of (off : nat) (e : Entry) : Central :=
  {| c_flags := u16 (e_flags e); c_method := u16 (e_method e); c_crc := u32 (crc32 (e_data e));
     c_csize := u32 (zlen (e_packed e)); c_usize := u32 (zlen (e_data e));
     c_nlen := zlen (e_name e); c_rec := length (central_entry off e);
     c_loff := u32 (Z.of_nat off) |}.

Lemma scan_step n file cd_off off e c name max_size :
  name_ok e ->
  scan_entries (S n) file cd_off (central_entry off e ++ c) name max_size =
  if decide (e_name e = name) then extract file cd_off (record_of off e) max_size
  else scan_entries n file cd_off c name max_size.
Proof.
  intros (Hn & _ & Hc & Hm). cbn [scan_entries].
  assert (Hr : read_central (central_entry off e ++ c) = record_of off e /\
               le32 (central_entry off e ++ c) 0 = kCentralSig).
  { unfold central_entry, record_of. rewrite <- !app_assoc.
    destruct (central_header_fields off e (e_name e ++ e_cextra e ++ e_comment e ++ c)) as [-> ->].
    rewrite !(u16_small (zlen _)) by (unfold zlen in *; lia). split; [|done]. f_equal.
    unfold central_entry, zlen, kCentralLen. rewrite !length_app, length_central_header. lia. }
  destruct Hr as [-> ->]. rewrite Z.eqb_refl. cbn [negb orb]. cbv zeta.
  assert (Hl : (46 <= length (central_entry off e))%nat)
    by (unfold central_entry; rewrite length_app, length_central_header; lia).
  unfold kCentralLen at 1. rewrite length_app, (proj2 (Nat.ltb_ge _ 46)) by lia. cbn [orb].
  change (c_rec (record_of off e)) with (length (central_entry off e)).
  change (c_nlen (record_of off e)) with (zlen (e_name e)). rewrite (proj2 (Nat.ltb_ge _ _)) by lia.
  rewrite drop_app_length.
  replace (Z.to_nat (zlen (e_name e))) with (length (e_name e)) by (unfold zlen; lia).
  assert (Hname : sub kCentralLen (length (e_name e)) (central_entry off e ++ c) = e_name e).
  { unfold central_entry. rewrite <- !app_assoc, sub_app_r by done.
    by rewrite length_central_header, Nat.sub_diag, sub_app_head. }
  rewrite Hname.
  case_decide as Hd.
  - unfold zlen. by rewrite Hd, Z.eqb_refl, bool_decide_true.
  - by rewrite bool_decide_false, andb_false_r.
Qed.

Lemma scan_archive es pre post cd_off r k e max_size :
  Forall name_ok es -> es !! k = Some e -> Forall (fun e' => e_name e' <> e_name e) (take k es) ->
  entry_ok e -> zlen (e_data e) <= max_size -> zlen (pre ++ locals es) < 0xffffffff ->
  zlen (pre ++ locals es) <= cd_off ->
  scan_entries (length es) (pre ++ locals es ++ post) cd_off (centrals (length pre) es ++ r)
    (e_name e) max_size = inr (e_data e).
Proof.
  revert pre k. induction es as [|f es IH]; intros pre k Hok Hk Hfirst He Hmax Hlen Hoff; [done|].
  apply Forall_cons in Hok as [Hf Hok]. cbn [length centrals locals] in *.
  rewrite <- (app_assoc (central_entry _ f)), scan_step by done.
  unfold zlen in Hlen, Hoff. rewrite !length_app in Hlen, Hoff.
  destruct k as [|k].
  - injection Hk as ->. rewrite decide_True by done. rewrite <- app_assoc.
    apply extract_entry; try done; unfold zlen; lia.
  - cbn [take] in Hfirst. apply Forall_cons in Hfirst as [Hne Hfirst].
    rewrite decide_False by done. rewrite <- app_assoc, (app_assoc pre), <- length_app.
    apply (IH _ k); try done; unfold zlen; rewrite !length_app; lia.
Qed.

(** ** The end record *)

Lemma find_eocd_hit tail i n :
  le32 tail i = kEocdSig ->
  Z.of_nat (i + kEocdLen) + le16 tail (i + 20) = Z.of_nat (length tail) ->
  (forall j, (i < j < i + S n)%nat -> le32 tail j <> kEocdSig) ->
  find_eocd (i + S n) tail = Some i.
Proof.
  intros H1 H2 Hj. induction n as [|n IH].
  - rewrite Nat.add_1_r. cbn [find_eocd]. rewrite H1, H2, !Z.eqb_refl. done.
  - rewrite Nat.add_succ_r. cbn [find_eocd]. rewrite (proj2 (Z.eqb_neq _ _)).
    + cbn [andb]. apply IH. intros j ?. apply Hj. lia.
    + apply Hj. lia.
Qed.

Lemma end_record_fields n cd_size cd_off comment :
  le32 (end_record n cd_size cd_off comment) 0 = kEocdSig /\
  le16 (end_record n cd_size cd_off comment) 4 = 0 /\
  le16 (end_record n cd_size cd_off comment) 6 = 0 /\
  le16 (end_record n cd_size cd_off comment) 8 = u16 n /\
  le16 (end_record n cd_size cd_off comment) 10 = u16 n /\
  le32 (end_record n cd_size cd_off comment) 12 = u32 cd_size /\
  le32 (end_record n cd_size cd_off comment) 16 = u32 cd_off /\
  le16 (end_record n cd_size cd_off comment) 20 = u16 (zlen comment) /\
  length (end_record n cd_size cd_off comment) = (22 + length comment)%nat.
Proof.
  rewrite (le16_at _ 4), (le16_at _ 6), (le16_at _ 8), (le16_at _ 10), (le32_at _ 12),
    (le32_at _ 16), (le16_at _ 20).
  unfold end_record. cbn [enc_le16 enc_le32 app drop]. rewrite !le16_enc, !le32_enc. done.
Qed.

Lemma le32_app_r p q j : le32 (p ++ q) (length p + j) = le32 q j.
Proof. by rewrite <- le32_drop, drop_app_length. Qed.

Lemma le16_app_r p q j : le16 (p ++ q) (length p + j) = le16 q j.
Proof. by rewrite <- le16_drop, drop_app_length. Qed.

Lemma length_eocd_of es comment : length (eocd_of es comment) = (22 + length comment)%nat.
Proof. done. Qed.

Lemma find_eocd_archive es comment x :
  zlen comment <= kMaxComment ->
  Forall (fun j => le32 (eocd_of es comment) j <> kEocdSig) (seq 1 (length comment)) ->
  find_eocd (length (x ++ eocd_of es comment) - kEocdLen + 1) (x ++ eocd_of es comment) =
  Some (length x).
Proof.
  intros Hc Hsig. unfold kMaxComment, zlen in Hc.
  destruct (end_record_fields (zlen es) (zlen (centrals 0 es)) (zlen (locals es)) comment)
    as (H0 & _ & _ & _ & _ & _ & _ & H20 & Hl).
  fold (eocd_of es comment) in *. rewrite length_app, Hl. unfold kEocdLen.
  replace (length x + (22 + length comment) - 22 + 1)%nat
    with (length x + S (length comment))%nat by lia.
  apply find_eocd_hit.
  - rewrite <- (Nat.add_0_r (length x)), le32_app_r. done.
  - rewrite le16_app_r, H20, length_app, Hl, u16_small by (unfold zlen; lia). unfold kEocdLen, zlen. lia.
  - intros j Hj. replace j with (length x + (j - length x))%nat by lia. rewrite le32_app_r.
    rewrite Forall_forall in Hsig. apply Hsig, elem_of_seq. lia.
Qed.

Lemma read_eocd_archive es comment off :
  layout_ok es comment -> zlen (locals es ++ centrals 0 es) <= off ->
  read_eocd (eocd_of es comment) off =
  inr {| d_off := zlen (locals es); d_size := zlen (centrals 0 es); d_entries := zlen es |}.
Proof.
  intros (_ & Hn & Hcd & Hlo & _ & _) Hoff. unfold kMaxCentralDir in *.
  destruct (end_record_fields (zlen es) (zlen (centrals 0 es)) (zlen (locals es)) comment)
    as (_ & H4 & H6 & H8 & H10 & H12 & H16 & _).
  fold (eocd_of es comment) in *. unfold read_eocd. rewrite H4, H6, H8, H10, H12, H16.
  rewrite u16_small, !u32_small by (unfold zlen in *; lia).
  rewrite !(proj2 (Z.eqb_neq _ _)) by lia. rewrite !Z.eqb_refl. cbv zeta. cbn [negb orb].
  unfold kMaxCentralDir. rewrite !(proj2 (Z.ltb_ge _ _)); [done | lia |].
  revert Hoff. unfold zlen. rewrite length_app. lia.
Qed.

Lemma read_tail body e t :
  zlen e <= t -> t <= zlen (body ++ e) ->
  read_at (body ++ e) (zlen (body ++ e) - t) t =
  Some (drop (Z.to_nat (zlen (body ++ e) - t)) body ++ e).
Proof.
  intros H1 H2. revert H1 H2. unfold zlen, read_at. rewrite length_app. intros H1 H2.
  destruct (Z.eqb_spec t 0).
  - rewrite (nil_length_inv e), drop_ge by lia. done.
  - rewrite (proj2 (Z.leb_le _ _)) by lia. f_equal. unfold sub. rewrite drop_app_le by lia.
    apply take_ge. rewrite length_app, length_drop. lia.
Qed.

(** C37: reading an entry by name from an archive a writer laid out (stored
    or deflated entries, extra fields and comments of any kind, the central
    directory and an archive comment that does not repeat the end record's
    signature) returns that entry's data: [read_entry] inverts the writer for
    the first entry of the name, when the data fits the caller's limit. *)
Theorem read_entry_roundtrip es comment k e max_size :
  layout_ok es comment -> es !! k = Some e -> entry_ok e ->
  Forall (fun e' => e_name e' <> e_name e) (take k es) -> zlen (e_data e) <= max_size ->
  read_entry (Some (archive_of es comment)) (e_name e) max_size = inr (e_data e).
Proof.
  intros Hlay Hk He Hfirst Hmax. pose proof Hlay as (Hok & Hn & Hcd & Hlo & Hcm & Hsig).
  unfold read_entry, archive_of. rewrite app_assoc.
  set (body := locals es ++ centrals 0 es). set (eo := eocd_of es comment).
  assert (Heo : zlen eo = 22 + zlen comment) by (unfold zlen, eo; rewrite length_eocd_of; lia).
  assert (Hsz : zlen (body ++ eo) = zlen body + zlen eo) by (unfold zlen; rewrite length_app; lia).
  assert (0 <= zlen comment) by (unfold zlen; lia). assert (0 <= zlen body) by (unfold zlen; lia).
  fold (zlen (body ++ eo)). unfold kEocdLen at 1 2. rewrite (proj2 (Z.ltb_ge _ _)) by lia. cbv zeta.
  unfold kMaxComment in *. set (t := Z.min _ _). assert (zlen eo <= t <= zlen (body ++ eo)) by lia.
  rewrite read_tail by lia. set (x := drop _ body).
  assert (Hx : zlen x = t - zlen eo) by (unfold x, zlen in *; rewrite length_drop; lia).
  replace (Z.to_nat t) with (length (x ++ eo)) by (rewrite length_app; unfold zlen in *; lia).
  unfold eo at 1 2. rewrite find_eocd_archive by done. fold eo. rewrite drop_app_length.
  fold (zlen x). unfold eo at 1. rewrite read_eocd_archive by (done || fold body; lia).
  cbn [d_off d_size d_entries]. unfold body at 1. rewrite <- !app_assoc, read_at_app.
  unfold zlen at 1. rewrite Nat2Z.id. unfold body. rewrite <- app_assoc.
  rewrite <- (app_nil_r (centrals 0 es)) at 2.
  apply (scan_archive es [] _ _ _ k); done.
Qed.
End zlib.

(** ** A concrete inflate (stored blocks) and CRC-32, for the witnesses *)

Definition inflate_stored (packed : list byte) (size : nat) : option (list byte) :=
  match packed with
  | f :: a :: b :: c :: d :: data =>
      if (bz f =? 1) && (le16 [a; b] 0 =? zlen data) && (le16 [c; d] 0 =? 0xffff - zlen data) &&
         (length data <=? size)%nat
      then Some data else None
  | _ => None
  end.

Definition crc32_bit (c : Z) : Z :=
  if Z.testbit c 0 then Z.lxor (Z.shiftr c 1) 0xedb88320 else Z.shiftr c 1.
Definition crc32_byte (c : Z) (b : byte) : Z :=
  Nat.iter 8 crc32_bit (Z.lxor c (bz b)).
Definition crc32_ieee (d : list byte) : Z :=
  Z.lxor (foldl crc32_byte 0xffffffff d) 0xffffffff.

Example crc32_check : crc32_ieee (str "123456789") = 0xcbf43926.
Proof. vm_compute. reflexivity. Qed.

(** An archive of a stored manifest and a deflated G-code file. *)
Definition sample_entry (name data packed : list byte) (method : Z) : Entry :=
  {| e_name := name; e_data := data; e_packed := packed; e_method := method; e_flags := 8;
     e_lextra := [x01; x01; x00; x00]; e_cextra := []; e_comment := str "c";
     e_made := 20; e_need := 20; e_time := 1; e_date := 33; e_lcrc := 0; e_lcsize := 0;
     e_lusize := 0; e_disk := 0; e_iattr := 0; e_eattr := 0 |}.
Definition gcode_entry : Entry :=
  sample_entry (str "plate_1.gcode") (str "G28")
    ([x01; zb 3; x00; zb 0xfc; zb 0xff] ++ str "G28") 8.
Definition sample_es : list Entry :=
  [ sample_entry (str "manifest") (str "<m/>") (str "<m/>") 0; gcode_entry ].

Lemma read_entry_checked_witness :
  exists data, read_entry inflate_stored crc32_ieee
    (Some (archive_of crc32_ieee sample_es (str "hi"))) (str "manifest") 100 = inr data /\
  Z.of_nat (length data) <= 100 /\ exists rest, crc32_ieee data = le32 rest 16.
Proof.
  exists (str "<m/>"). split; [vm_compute; reflexivity|].
  apply (read_entry_checked inflate_stored crc32_ieee
    (Some (archive_of crc32_ieee sample_es (str "hi"))) (str "manifest") 100).
  vm_compute. reflexivity.
Defined.

Lemma read_entry_roundtrip_witness :
  read_entry inflate_stored crc32_ieee
    (Some (archive_of crc32_ieee sample_es (str "hi"))) (e_name gcode_entry) 100 =
  inr (e_data gcode_entry).
Proof.
  apply (read_entry_roundtrip inflate_stored crc32_ieee sample_es (str "hi") 1
    gcode_entry 100); [ | reflexivity | | | vm_compute; discriminate].
  - unfold layout_ok. split_and!; try (vm_compute; (reflexivity || discriminate)).
    + repeat constructor.
    + repeat constructor; vm_compute; discriminate.
  - unfold entry_ok. split_and!; try (vm_compute; (reflexivity || discriminate)). right.
    split_and!; vm_compute; (reflexivity || discriminate).
  - repeat constructor. vm_compute. discriminate.
Defined.
