(* ===== verification/CameraUrl.v ===== *)
(** Camera URLs: minting and parsing of the [bambu:///tutk?...] and
    [bambu:///local/...] URLs ([src/camera_url.cpp],
    [src/camera/TutkCameraSource.cpp], [src/abi_ft.cpp], the URL parser of
    [stubs/BambuSource.cpp] and the one [Agent::camera_url_for] builds), and the
    ttcode request and response. *)

From S2P Require Import Prelude Text Json Session.

(** ** Percent encoding *)

Definition percent : byte := zb 37.
Definition amp : byte := zb 38.
Definition equals : byte := zb 61.
Definition question : byte := zb 63.
Definition bar : byte := zb 124.

Definition unreserved (c : byte) : bool :=
  is_upper c || is_lower c || is_digit c || beq c (zb 45) || beq c (zb 95) || beq c (zb 46) ||
  beq c (zb 126).

Definition url_encode_char (c : byte) : cstr :=
  if unreserved c then [c]
  else [percent; hex_upper (Z.land (Z.shiftr (bz c) 4) 0xf); hex_upper (Z.land (bz c) 0xf)].

Definition url_encode (s : cstr) : cstr := concat (url_encode_char <$> s).

(** [percent_decode] (abi_ft.cpp) and [url_decode] (BambuSource.cpp), which
    differ in what they do with the other characters. *)
Fixpoint decode_with (plain : byte -> byte) (s : cstr) : cstr :=
  match s with
  | [] => []
  | c :: s1 =>
      match s1 with
      | h :: l :: s3 =>
          match (if beq c percent then hex_val h else None), hex_val l with
          | Some hi, Some lo => zb (Z.lor (Z.shiftl hi 4) lo) :: decode_with plain s3
          | _, _ => plain c :: decode_with plain s1
          end
      | _ => plain c :: decode_with plain s1
      end
  end.

Definition percent_decode (s : cstr) : cstr := decode_with id s.
Definition url_decode (s : cstr) : cstr :=
  decode_with (fun c => if beq c (zb 43) then zb 32 else c) s.

(** ** The TUTK URL *)

Definition build_tutk_url (uid authkey passwd region : cstr) : cstr :=
  str "bambu:///tutk?uid=" ++ url_encode uid ++ str "&authkey=" ++ url_encode authkey ++
  str "&passwd=" ++ url_encode passwd ++ str "&region=" ++ url_encode region.

(** The search for [needle] at a parameter boundary: at [start], or after an
    [&]. [step] is how far it moves on after a match elsewhere. *)
Fixpoint boundary_find (fuel step start : nat) (needle s : cstr) (pos : nat) : option nat :=
  match fuel with
  | O => None
  | S fuel =>
      match find_str_from needle s pos with
      | None => None
      | Some pos =>
          if (pos =? start)%nat || beq (at_ s (pos - 1)) amp then Some pos
          else boundary_find fuel step start needle s (pos + step)
      end
  end.

Definition param_value (step start : nat) (key s : cstr) : cstr :=
  let needle := key ++ [equals] in
  match boundary_find (S (length s)) (step) start needle s start with
  | None => []
  | Some pos =>
      let pos := (pos + length needle)%nat in
      substr_to pos (find_char_from amp s pos) s
  end.

Definition query_param (query key : cstr) : cstr := param_value 1 0 key query.

Definition parse_tutk_url (url : cstr) : option TutkSessionParams :=
  if negb (starts_with (str "bambu://") url) then None
  else
    match find_char question url with
    | None => None
    | Some q =>
        let query := drop (q + 1) url in
        let uid := query_param query (str "uid") in
        let passwd := query_param query (str "passwd") in
        let authkey := query_param query (str "authkey") in
        let region := query_param query (str "region") in
        let relay_id := query_param query (str "channel") in
        match uid, passwd with
        | [], _ | _, [] => None
        | _, _ =>
            let uid := to_upper <$> uid in
            let region := if bool_decide (region = str "cn") || bool_decide (region = str "eu")
                          then region else str "us" in
            let relay_id := match relay_id with [] => uid | _ => relay_id end in
            Some {| p_uid := uid; p_passwd := passwd; p_authkey := authkey; p_region := region;
                    p_relay_id := relay_id |}
        end
    end.

(** ** The local URL *)

(** What [Agent::camera_url_for] builds from the address, the access code and
    the liveview protocol it has for a printer. *)
Definition camera_url (ip code lv : cstr) : cstr :=
  match ip, code with
  | [], _ | _, [] => []
  | _, _ =>
      str "bambu:///local/" ++ ip ++ str "?port=6000&user=bblp&passwd=" ++ code ++
      match lv with [] => [] | _ => str "&lv=" ++ lv end
  end.

Definition kPfx : cstr := str "bambu:///local/".

Record LocalCameraUrl := { c_ip : cstr; ctrl_port : Z; video_port : Z; c_lv : cstr }.

(** One trailing dot is dropped. *)
Definition drop_dot (ip : cstr) : cstr :=
  match last ip with Some c => if beq c (zb 46) then removelast ip else ip | None => ip end.

Definition query_val (url : cstr) (q : option nat) (key : cstr) : cstr :=
  match q with
  | None => []
  | Some q => param_value (length key + 1) (q + 1) key url
  end.

Definition parse_local_camera_url (url : cstr) : option LocalCameraUrl :=
  if (length url <=? length kPfx)%nat || negb (starts_with kPfx url) then None
  else
    let q := find_char_from question url (length kPfx) in
    match drop_dot (substr_to (length kPfx) q url) with
    | [] => None
    | ip =>
        let port := query_val url q (str "port") in
        let n := atoi port in
        let lv := query_val url q (str "lv") in
        Some {| c_ip := ip;
                ctrl_port := match port with
                             | [] => 6000
                             | _ => if (0 <? n) && (n <? 65536) then n else 6000
                             end;
                video_port := if bool_decide (lv = str "rtsps") then 322
                              else if bool_decide (lv = str "rtsp") then 554 else 0;
                c_lv := lv |}
    end.

(** [key=value] pairs of a query, in order, as the loops of [parse_lan_url] and
    [parse_url] cut them; [no_eq] is what they do with a piece without [=]. *)
Definition split_kv (kv : cstr) : option (cstr * cstr) :=
  match find_char equals kv with
  | None => None
  | Some eq => Some (take eq kv, drop (eq + 1) kv)
  end.

Record LanUrl := {
  l_ip : cstr; l_port : Z; l_user : cstr; l_password : cstr; l_device : cstr;
  l_cli_id : cstr; l_cli_ver : cstr; l_net_ver : cstr
}.

Definition assign_lan (u : LanUrl) (key val : cstr) : LanUrl :=
  let put (name : cstr) (old : cstr) := if bool_decide (key = name) then val else old in
  {| l_ip := l_ip u;
     l_port := if bool_decide (key = str "port")
               then match stoi val with Some n => n | None => l_port u end else l_port u;
     l_user := put (str "user") (l_user u); l_password := put (str "passwd") (l_password u);
     l_device := put (str "device") (l_device u); l_cli_id := put (str "cli_id") (l_cli_id u);
     l_cli_ver := put (str "cli_ver") (l_cli_ver u);
     l_net_ver := put (str "net_ver") (l_net_ver u) |}.

Definition set_lan_kv (u : LanUrl) (kv : cstr) : LanUrl :=
  match split_kv kv with
  | None => u
  | Some (key, val) => assign_lan u key (percent_decode val)
  end.

Definition parse_lan_url (raw : cstr) : option LanUrl :=
  if negb (starts_with kPfx raw) then None
  else
    let s := drop (length kPfx) raw in
    let '(host, query) := match find_char question s with
                          | Some q => (drop_dot (take q s), drop (q + 1) s)
                          | None => (s, [])
                          end in
    match host with
    | [] => None
    | _ =>
        Some (foldl set_lan_kv
          {| l_ip := host; l_port := 6000; l_user := str "bblp"; l_password := []; l_device := [];
             l_cli_id := []; l_cli_ver := []; l_net_ver := [] |} (getlines amp query []))
    end.

Record ConnectParams := {
  dev_ip : cstr; dev_id : cstr; port : Z; username : cstr; password : cstr; client_id : cstr;
  client_ver : option cstr
}.

(** [client_ver] keeps its default ([None]) when the URL names neither. *)
Definition connect_params (lan : LanUrl) : ConnectParams :=
  {| dev_ip := l_ip lan; dev_id := l_device lan; port := l_port lan; username := l_user lan;
     password := l_password lan; client_id := l_cli_id lan;
     client_ver := match l_cli_ver lan, l_net_ver lan with
                   | [], [] => None | [], v => Some v | v, _ => Some v end |}.

(** ** The URLs BambuSource opens *)

Inductive Scheme := Local | Rtsps | Rtsp | Tutk.

Record TunnelUrl := {
  scheme : Scheme; raw_url : cstr; host : cstr; t_port : Z; user : cstr; passwd : cstr;
  authkey : cstr; region : cstr; tutk_uid : cstr; channel : cstr; device : cstr; cli_id : cstr;
  cli_ver : cstr; net_ver : cstr; path : cstr; lv : cstr
}.

(** A piece without [=] is a key with an empty value. *)
Definition key_of (kv : cstr) : cstr := match split_kv kv with Some (k, _) => k | None => kv end.
Definition val_of (kv : cstr) : cstr :=
  match split_kv kv with Some (_, v) => url_decode v | None => [] end.

Definition assign_tutk (u : TunnelUrl) (key val : cstr) : TunnelUrl :=
  let put (name : cstr) (old : cstr) := if bool_decide (key = name) then val else old in
  {| scheme := scheme u; raw_url := raw_url u; host := host u; t_port := t_port u; user := user u;
     passwd := put (str "passwd") (passwd u); authkey := put (str "authkey") (authkey u);
     region := put (str "region") (region u); tutk_uid := put (str "uid") (tutk_uid u);
     channel := put (str "channel") (channel u); device := put (str "device") (device u);
     cli_id := put (str "cli_id") (cli_id u); cli_ver := put (str "cli_ver") (cli_ver u);
     net_ver := put (str "net_ver") (net_ver u); path := path u; lv := lv u |}.

Definition assign_url (u : TunnelUrl) (key val : cstr) : TunnelUrl :=
  let put (name : cstr) (old : cstr) := if bool_decide (key = name) then val else old in
  {| scheme := scheme u; raw_url := raw_url u; host := host u;
     t_port := if bool_decide (key = str "port")
               then match stoi val with Some n => n | None => t_port u end else t_port u;
     user := put (str "user") (user u); passwd := put (str "passwd") (passwd u);
     authkey := authkey u; region := region u; tutk_uid := tutk_uid u; channel := channel u;
     device := put (str "device") (device u); cli_id := put (str "cli_id") (cli_id u);
     cli_ver := put (str "cli_ver") (cli_ver u); net_ver := put (str "net_ver") (net_ver u);
     path := path u; lv := put (str "lv") (lv u) |}.

Definition set_tutk_kv (u : TunnelUrl) (kv : cstr) : TunnelUrl :=
  assign_tutk u (key_of kv) (val_of kv).
Definition set_url_kv (u : TunnelUrl) (kv : cstr) : TunnelUrl :=
  assign_url u (key_of kv) (val_of kv).

Definition tunnel_default (sch : Scheme) (raw : cstr) (h : cstr) (pt : Z) (us pw pa : cstr) : TunnelUrl :=
  {| scheme := sch; raw_url := raw; host := h; t_port := pt; user := us; passwd := pw;
     authkey := []; region := []; tutk_uid := []; channel := []; device := []; cli_id := [];
     cli_ver := []; net_ver := []; path := pa; lv := [] |}.

Definition kUser : cstr := str "bblp".
Definition kPath : cstr := str "/streaming/live/1".

Definition parse_url_tutk (url : cstr) : option TunnelUrl :=
  let query := match find_char question url with Some q => drop (q + 1) url | None => [] end in
  let out := foldl set_tutk_kv (tunnel_default Tutk url (str "tutk-relay") 6000 kUser [] kPath)
               (getlines amp query []) in
  match tutk_uid out with [] => None | _ => Some out end.

(** The scheme, its default port and the text after its prefix. *)
Definition split_scheme (body : cstr) : Scheme * Z * cstr :=
  if starts_with (str "local/") body then (Local, 6000, drop 6 body)
  else if starts_with (str "rtsps___") body then (Rtsps, 322, drop 8 body)
  else if starts_with (str "rtsp___") body then (Rtsp, 554, drop 7 body)
  else (Local, 6000, body).

(** ["<user>:<passwd>@<host>/<path>"]: user, password, host, path. *)
Definition split_userinfo (h : cstr) : cstr * cstr * cstr * cstr :=
  let '(us, pw, h) :=
    match find_char (zb 64) h with
    | None => (kUser, [], h)
    | Some a =>
        let userinfo := take a h in
        let rest := drop (a + 1) h in
        match find_char (zb 58) userinfo with
        | Some c => (url_decode (take c userinfo), url_decode (drop (c + 1) userinfo), rest)
        | None => (url_decode userinfo, [], rest)
        end
    end in
  match find_char (zb 47) h with
  | Some s => (us, pw, take s h, drop s h)
  | None => (us, pw, h, kPath)
  end.

Definition parse_url_lan (body : cstr) : option TunnelUrl :=
  let '(sch, def_port, rest) := split_scheme body in
  let '(host_part, query) := match find_char question rest with
                             | None => (rest, [])
                             | Some q => (take q rest, drop (q + 1) rest)
                             end in
  let '(us, pw, host_part, pa) :=
    match sch with
    | Rtsps | Rtsp => split_userinfo host_part
    | _ => (kUser, [], trim_back (fun c => beq c (zb 47) || beq c (zb 46)) host_part, kPath)
    end in
  match match find_char (zb 58) host_part with
        | None => Some (host_part, def_port)
        | Some c => match stoi (drop (c + 1) host_part) with
                    | Some n => Some (take c host_part, n)
                    | None => None
                    end
        end with
  | None => None
  | Some (h, pt) =>
      let out := foldl set_url_kv (tunnel_default sch [] h pt us pw pa) (getlines amp query []) in
      match host out with
      | [] => None
      | _ => if 0 <? t_port out then Some out else None
      end
  end.

Definition parse_url (url : cstr) : option TunnelUrl :=
  let body := if starts_with (str "bambu:") url
              then trim_front (fun c => beq c (zb 47)) (drop 6 url) else url in
  match find_str (str "tutk?") body with
  | Some _ => parse_url_tutk url
  | None => parse_url_lan body
  end.

(** ** The packed device key and the ttcode request *)

Record PackedDevKey := { serial : cstr; dev_version : cstr; protocols : list cstr }.

Definition is_blank (c : byte) : bool := beq c (zb 32) || beq c (zb 9).
Definition trim_blank (s : cstr) : cstr := trim_back is_blank (trim_front is_blank s).
Definition default_protocols : list cstr := [str "tutk"; str "agora"].

Definition parse_protocols (spec : cstr) : list cstr :=
  match filter (fun p => p <> []) (trim_blank <$> getlines comma spec []) with
  | [] => default_protocols
  | ps => ps
  end.

Definition parse_packed_dev_key (raw : cstr) : PackedDevKey :=
  match raw with
  | [] => {| serial := []; dev_version := []; protocols := [] |}
  | _ =>
      match find_char bar raw with
      | None => {| serial := raw; dev_version := []; protocols := default_protocols |}
      | Some b1 =>
          let ser := take b1 raw in
          match find_char_from bar raw (b1 + 1) with
          | None => {| serial := ser; dev_version := drop (b1 + 1) raw;
                       protocols := default_protocols |}
          | Some b2 =>
              let b3 := find_char_from bar raw (b2 + 1) in
              {| serial := ser; dev_version := sub (b1 + 1) (b2 - (b1 + 1)) raw;
                 protocols := parse_protocols (substr_to (b2 + 1) b3 raw) |}
          end
      end
  end.

Definition lbrace : cstr := [zb 123].
Definition rbrace : cstr := [zb 125].
Definition lbracket : cstr := [zb 91].
Definition rbracket : cstr := [zb 93].

(** A member name between quotes, and the colon. *)
Definition member (name : cstr) : cstr := [quote] ++ name ++ [quote; colon].

Definition build_ttcode_request_body (ser ver : cstr) (protos : list cstr) : cstr :=
  let protos_json := lbracket ++ join (escape <$> protos) ++ rbracket in
  lbrace ++ member (str "dev_id") ++ escape ser ++
  match ver with [] => [] | _ => [comma] ++ member (str "dev_version") ++ escape ver end ++
  [comma] ++ member (str "protocols") ++ protos_json ++ rbrace.

Record TtcodeResponse := {
  r_uid : cstr; r_authkey : cstr; r_passwd : cstr; r_region : cstr; r_type : cstr
}.

Definition get_string (v : Value) (k : cstr) : cstr := as_string (find v k).

(** The result and the response read; [None] when the text does not parse. *)
Definition parse_ttcode_response (text : cstr) : option (bool * TtcodeResponse) :=
  match parse text with
  | Ok root _ =>
      let uid := match get_string root (str "ttcode") with
                 | [] => get_string root (str "uid") | u => u end in
      Some (match uid with [] => false | _ => true end,
            {| r_uid := uid; r_authkey := get_string root (str "authkey");
               r_passwd := get_string root (str "passwd");
               r_region := get_string root (str "region");
               r_type := get_string root (str "type") |})
  | _ => None
  end.

(** ** Queries as lists of pairs *)

(** No character of [s] is [c]. *)
Definition lacks (c : byte) (s : cstr) : Prop := Forall (fun d => beq d c = false) s.

Definition kv_text (p : cstr * cstr) : cstr := p.1 ++ [equals] ++ p.2.

Fixpoint query_text (ps : list (cstr * cstr)) : cstr :=
  match ps with
  | [] => []
  | p :: ps => kv_text p ++ match ps with [] => [] | _ => amp :: query_text ps end
  end.

Definition pair_ok (p : cstr * cstr) : Prop := lacks amp p.1 /\ lacks equals p.1 /\ lacks amp p.2.

(** Where the pair after [ps] starts. *)
Definition pairs_len (ps : list (cstr * cstr)) : nat :=
  sum_list_with (fun p => length (kv_text p) + 1)%nat ps.

Definition at_boundary (needle s : cstr) (start j : nat) : bool :=
  starts_with needle (drop j s) && ((j =? start)%nat || beq (at_ s (j - 1)) amp).

Lemma starts_with_lookup needle s p i :
  starts_with needle (drop p s) = true -> (i < length needle)%nat -> at_ s (p + i) = at_ needle i.
Proof.
  intros [r Hr]%starts_with_spec Hi. rewrite <- at_drop, Hr. unfold at_.
  by rewrite lookup_total_app_l.
Qed.

Lemma lacks_at c s i : lacks c s -> (i < length s)%nat -> beq (at_ s i) c = false.
Proof.
  intros H Hi. unfold lacks in H. rewrite Forall_lookup in H. apply (H i). by apply lookup_some_total.
Qed.

(** The search finds the first parameter boundary where the needle is. *)
Lemma boundary_find_least fuel step start needle s pos j :
  lacks amp needle -> (1 <= step <= length needle)%nat -> (start <= pos <= j)%nat ->
  (length s - pos < fuel)%nat -> at_boundary needle s start j = true ->
  (forall i, (pos <= i < j)%nat -> at_boundary needle s start i = false) ->
  boundary_find fuel step start needle s pos = Some j.
Proof.
  intros Hn Hstep. revert pos. induction fuel as [|fuel IH]; intros pos Hpos Hf Hj Hmin; [lia|].
  pose proof Hj as Hj'. apply andb_prop in Hj' as [Hsj Hbj].
  assert (Hlen : (j + length needle <= length s)%nat)
    by (apply starts_with_length in Hsj; rewrite length_drop in Hsj; lia).
  cbn [boundary_find]. pose proof (find_str_from_spec needle s pos ltac:(lia)) as Hfs.
  destruct (find_str_from needle s pos) as [p|]; [|rewrite Hfs in Hsj by lia; done].
  destruct Hfs as (Hp & Hsp & Hmp).
  assert (Hpj : (p <= j)%nat).
  { destruct (decide (p <= j)%nat); [done|]. rewrite Hmp in Hsj by lia. done. }
  destruct ((p =? start)%nat || beq (at_ s (p - 1)) amp) eqn:Eb.
  - f_equal. destruct (decide (p = j)); [done|]. specialize (Hmin p ltac:(lia)).
    unfold at_boundary in Hmin. rewrite Hsp, Eb in Hmin. done.
  - assert (p <> j) by (intros ->; congruence).
    apply IH; [|lia|done|intros; apply Hmin; lia].
    destruct (decide (p + step <= j)%nat); [lia|]. exfalso.
    apply orb_prop in Hbj as [E|E]; [apply Nat.eqb_eq in E; lia|].
    replace (j - 1)%nat with (p + (j - 1 - p))%nat in E by lia.
    rewrite (starts_with_lookup needle) in E by (done || lia).
    rewrite lacks_at in E by (done || lia). done.
Qed.

Lemma boundary_find_none fuel step start needle s pos :
  (pos <= length s)%nat -> (1 <= step <= length needle)%nat ->
  (forall i, (pos <= i)%nat -> at_boundary needle s start i = false) ->
  boundary_find fuel step start needle s pos = None.
Proof.
  revert pos. induction fuel as [|fuel IH]; intros pos Hpos Hstep Hmin; [done|]. cbn [boundary_find].
  pose proof (find_str_from_spec needle s pos Hpos) as Hfs.
  destruct (find_str_from needle s pos) as [p|]; [|done]. destruct Hfs as (Hp & Hsp & _).
  specialize (Hmin p Hp) as Hm. unfold at_boundary in Hm. rewrite Hsp in Hm. cbn [andb] in Hm. rewrite Hm.
  apply starts_with_length in Hsp. rewrite length_drop in Hsp.
  apply IH; [lia | done | intros; apply Hmin; lia].
Qed.

Lemma lacks_app c a b : lacks c (a ++ b) <-> lacks c a /\ lacks c b.
Proof. apply Forall_app. Qed.

Lemma kv_lacks p : pair_ok p -> lacks amp (kv_text p).
Proof.
  intros (H1 & H2 & H3). unfold kv_text. rewrite !lacks_app. split_and!; [done | | done].
  by repeat constructor.
Qed.

Lemma query_text_cons p ps :
  query_text (p :: ps) = kv_text p ++ match ps with [] => [] | _ => amp :: query_text ps end.
Proof. done. Qed.

(** Every parameter boundary where [k=] is found starts a pair with key [k]. *)
Lemma boundary_pairs k ps a j :
  Forall pair_ok ps -> lacks amp k -> lacks equals k -> (length a <= j)%nat ->
  at_boundary (k ++ [equals]) (a ++ query_text ps) (length a) j = true ->
  exists ps1 v ps2, ps = ps1 ++ (k, v) :: ps2 /\ j = (length a + pairs_len ps1)%nat.
Proof.
  intros Hok Hk1 Hk2. revert a. induction ps as [|[k1 v1] ps IH]; intros a Hj Hb;
    apply andb_prop in Hb as [Hs Hb].
  - simpl in Hs. rewrite app_nil_r, drop_ge in Hs by done. by destruct k.
  - apply Forall_cons in Hok as [Hp Hok]. pose proof (kv_lacks _ Hp) as Hkv.
    rewrite query_text_cons in Hs, Hb. set (L := length (kv_text (k1, v1))) in *.
    destruct (decide (j = length a)) as [->|Hne].
    { rewrite drop_app_length in Hs. apply starts_with_spec in Hs as [r Hr].
      unfold kv_text in Hr. rewrite <- !app_assoc in Hr.
      destruct Hp as (_ & Hp & _). cbn [fst snd] in *. apply app_sep_inj in Hr as [-> _]; [|done..].
      exists [], v1, ps. split; [done|]. simpl. lia. }
    apply orb_prop in Hb as [Hb|Hb]; [apply Nat.eqb_eq in Hb; lia|].
    assert (Hge : (length a + L < j)%nat).
    { destruct (decide (length a + L < j)%nat); [done|]. exfalso.
      assert (E : at_ (a ++ kv_text (k1, v1) ++
        match ps with [] => [] | _ => amp :: query_text ps end) (j - 1) =
        at_ (kv_text (k1, v1)) (j - 1 - length a)).
      { unfold at_. rewrite lookup_total_app_r by lia. rewrite lookup_total_app_l; [done|]. lia. }
      rewrite E, lacks_at in Hb; [done | done | lia]. }
    destruct ps as [|p2 ps].
    { apply starts_with_length in Hs. rewrite length_drop, !length_app in Hs. fold L in Hs.
      simpl in Hs. lia. }
    destruct (IH Hok (a ++ kv_text (k1, v1) ++ [amp])) as (ps1 & v & ps2 & E & Ej).
    { rewrite !length_app. fold L. simpl. lia. }
    { unfold at_boundary. rewrite <- !app_assoc. cbn [app]. rewrite Hs, Hb, orb_true_r. done. }
    exists ((k1, v1) :: ps1), v, ps2. rewrite E. split; [done|]. rewrite Ej, !length_app. fold L.
    cbn [pairs_len sum_list_with length]. fold L. unfold pairs_len. lia.
Qed.

Lemma drop_pairs ps1 p ps2 :
  drop (pairs_len ps1) (query_text (ps1 ++ p :: ps2)) = query_text (p :: ps2).
Proof.
  induction ps1 as [|q ps1 IH]; [done|]. cbn [app]. rewrite query_text_cons.
  unfold pairs_len in *. cbn [sum_list_with]. rewrite <- Nat.add_assoc, <- drop_drop, drop_app_length.
  destruct (ps1 ++ p :: ps2) as [|r l] eqn:E; [by destruct ps1|]. apply IH.
Qed.

Lemma boundary_of_pair k v ps1 ps2 a :
  at_boundary (k ++ [equals]) (a ++ query_text (ps1 ++ (k, v) :: ps2)) (length a)
    (length a + pairs_len ps1) = true.
Proof.
  unfold at_boundary. rewrite <- drop_drop, drop_app_length, drop_pairs, query_text_cons.
  unfold kv_text. cbn [fst snd]. rewrite <- !app_assoc, (app_assoc k), starts_with_app. cbn [andb].
  destruct ps1 as [|q ps1] using rev_ind; [by rewrite Nat.add_0_r, Nat.eqb_refl|].
  clear IHps1. apply orb_true_iff. right. rewrite <- app_assoc. cbn [app].
  assert (Hlen : pairs_len (ps1 ++ [q]) = (pairs_len ps1 + length (kv_text q) + 1)%nat)
    by (unfold pairs_len; rewrite sum_list_with_app; simpl; lia).
  rewrite Hlen. replace (length a + _ - 1)%nat
    with (length a + (pairs_len ps1 + length (kv_text q)) + 0)%nat by lia.
  rewrite <- at_drop, <- drop_drop, <- drop_drop, drop_app_length, drop_pairs, query_text_cons.
  by rewrite drop_app_length.
Qed.

(** A parameter's value is that of the first pair with its key. *)
Lemma param_value_pairs step k v ps1 ps2 a :
  Forall pair_ok (ps1 ++ (k, v) :: ps2) -> Forall (fun p => p.1 <> k) ps1 ->
  (1 <= step <= length k + 1)%nat ->
  param_value step (length a) k (a ++ query_text (ps1 ++ (k, v) :: ps2)) = v.
Proof.
  intros Hok Hfirst Hstep. pose proof Hok as Hok'.
  apply Forall_app in Hok' as [_ Hok']. apply Forall_cons in Hok' as [(Hk1 & Hk2 & Hv) _].
  cbn [fst snd] in *. unfold param_value.
  assert (Hlacks : lacks amp (k ++ [equals])) by (rewrite lacks_app; split; [done | by repeat constructor]).
  rewrite (boundary_find_least _ _ _ _ _ _ (length a + pairs_len ps1));
    [| done | rewrite length_app; simpl; lia | lia | lia | apply boundary_of_pair |].
  - assert (Hd : drop (length a + pairs_len ps1 + length (k ++ [equals]))
      (a ++ query_text (ps1 ++ (k, v) :: ps2)) =
      v ++ match ps2 with [] => [] | _ => amp :: query_text ps2 end).
    { rewrite <- !drop_drop, drop_app_length, drop_pairs, query_text_cons. unfold kv_text.
      cbn [fst snd]. by rewrite <- !app_assoc, (app_assoc k), drop_app_length. }
    unfold find_char_from, find_if_from. change (find_if (beq amp)) with (find_char amp). rewrite Hd.
    destruct ps2 as [|p2 ps2].
    + rewrite app_nil_r in *. rewrite find_char_none by done. simpl. done.
    + rewrite find_char_app by done. simpl. unfold sub. rewrite Hd.
      replace (_ - _)%nat with (length v) by lia. apply take_app_length.
  - intros i Hi. destruct (at_boundary _ _ _ i) eqn:Eb; [|done].
    apply boundary_pairs in Eb as (qs1 & w & qs2 & E & ->); [|done..|lia].
    exfalso. apply app_eq_inv in E as [(l & -> & E) | (l & -> & E)].
    + destruct l as [|q l]; [rewrite app_nil_r in Hi; lia|]. injection E as <- _.
      apply Forall_app in Hfirst as [_ Hfirst]. by apply Forall_cons in Hfirst as [? _].
    + unfold pairs_len in Hi. rewrite sum_list_with_app in Hi. lia.
Qed.

Lemma param_value_absent step k ps a :
  Forall pair_ok ps -> lacks amp k -> lacks equals k -> k ∉ ps.*1 ->
  (1 <= step <= length k + 1)%nat -> param_value step (length a) k (a ++ query_text ps) = [].
Proof.
  intros Hok Hk1 Hk2 Hk Hstep. unfold param_value.
  rewrite boundary_find_none; [done | rewrite length_app; lia | rewrite length_app; simpl; lia |].
  intros i Hi. destruct (at_boundary _ _ _ i) eqn:Eb; [|done].
  apply boundary_pairs in Eb as (ps1 & v & ps2 & -> & _); [|done..].
  exfalso. apply Hk. rewrite fmap_app. apply elem_of_app. right. left.
Qed.

(** ** Percent encoding *)

Lemma decode_plain plain c s :
  beq c percent = false -> decode_with plain (c :: s) = plain c :: decode_with plain s.
Proof. intros H. destruct s as [|h [|l s]]; [done | done|]. cbn [decode_with]. by rewrite H. Qed.

Lemma decode_hex plain c s :
  decode_with plain (percent :: hex_upper (Z.land (Z.shiftr (bz c) 4) 0xf)
                             :: hex_upper (Z.land (bz c) 0xf) :: s) = c :: decode_with plain s.
Proof.
  cbn [decode_with]. rewrite beq_refl.
  assert (Hland : forall z, 0 <= Z.land z 0xf < 16)
    by (intros z; change 0xf with (Z.ones 4); rewrite Z.land_ones by lia; apply Z.mod_pos_bound; lia).
  rewrite !hex_val_upper by done. f_equal.
  byte_fact (fun c => bool_decide (zb (Z.lor (Z.shiftl (Z.land (Z.shiftr (bz c) 4) 15) 4)
    (Z.land (bz c) 15)) = c)) c H. by apply bool_decide_eq_true_1 in H.
Qed.

Lemma unreserved_not_percent c : unreserved c = true -> beq c percent = false.
Proof.
  intros H. byte_fact (fun c => negb (unreserved c) || negb (beq c percent)) c H0.
  rewrite H in H0. by destruct (beq c percent).
Qed.

Lemma decode_encode plain s :
  (forall c, unreserved c = true -> plain c = c) -> decode_with plain (url_encode s) = s.
Proof.
  intros Hp. unfold url_encode. induction s as [|c s IH]; [done|].
  rewrite fmap_cons. cbn [concat]. unfold url_encode_char at 1. destruct (unreserved c) eqn:E.
  - cbn [app]. rewrite decode_plain, Hp, IH by (done || by apply unreserved_not_percent). done.
  - cbn [app]. by rewrite decode_hex, IH.
Qed.

Lemma url_decode_encode s : url_decode (url_encode s) = s.
Proof.
  apply decode_encode. intros c H.
  byte_fact (fun c => negb (unreserved c) || negb (beq c (zb 43))) c H0.
  rewrite H in H0. by destruct (beq c (zb 43)).
Qed.

Lemma url_encode_chars s : Forall (fun c => unreserved c || beq c percent = true) (url_encode s).
Proof.
  unfold url_encode. induction s as [|c s IH]; [constructor|]. rewrite fmap_cons. cbn [concat].
  apply Forall_app. split; [|done].
  byte_fact (fun c => forallb (fun d => unreserved d || beq d percent) (url_encode_char c)) c H.
  apply Forall_forall. intros d Hd. rewrite forallb_forall in H. apply H. by apply list_elem_of_In.
Qed.

Lemma url_encode_lacks c s :
  unreserved c = false -> beq c percent = false -> lacks c (url_encode s).
Proof.
  intros H1 H2. unfold lacks. eapply Forall_impl; [apply url_encode_chars|]. intros d Hd.
  destruct (beq_spec d c) as [->|]; [|done]. by rewrite H1, H2 in Hd.
Qed.

Lemma url_encode_id s : Forall (fun c => unreserved c = true) s -> url_encode s = s.
Proof.
  unfold url_encode. induction 1 as [|c s Hc Hs IH]; [done|].
  rewrite fmap_cons. cbn [concat]. unfold url_encode_char at 1. by rewrite Hc, IH.
Qed.

Lemma url_encode_nil s : url_encode s = [] -> s = [].
Proof. destruct s as [|c s]; [done|]. unfold url_encode, url_encode_char. simpl. by destruct (unreserved c). Qed.

(** ** The pieces the query loops visit *)

Lemma split_kv_text p : lacks equals p.1 -> split_kv (kv_text p) = Some p.
Proof.
  intros H. unfold split_kv, kv_text. cbn [app]. rewrite find_char_app by done.
  rewrite take_app_length, Nat.add_1_r. destruct p as [k v]. cbn [fst snd]. f_equal. f_equal.
  replace (S (length k)) with (length (k ++ [equals])) by (rewrite length_app; simpl; lia).
  rewrite (app_assoc k [equals] v : k ++ equals :: v = _). apply drop_app_length.
Qed.

Lemma getlines_query ps : Forall pair_ok ps -> getlines amp (query_text ps) [] = kv_text <$> ps.
Proof.
  induction 1 as [|p ps Hp Hps IH]; [done|]. rewrite query_text_cons, fmap_cons.
  pose proof (kv_lacks _ Hp) as Hl. destruct ps as [|q ps].
  - rewrite app_nil_r, getlines_plain by done. cbn [app]. unfold kv_text.
    destruct p as [[|c k] v]; done.
  - rewrite getlines_sep by done. by rewrite IH.
Qed.

(** ** TUTK URLs *)

Definition tutk_pairs (uid authkey passwd region : cstr) : list (cstr * cstr) :=
  [(str "uid", url_encode uid); (str "authkey", url_encode authkey);
   (str "passwd", url_encode passwd); (str "region", url_encode region)].

Lemma tutk_url_text uid authkey passwd region :
  build_tutk_url uid authkey passwd region =
  str "bambu:///tutk" ++ question :: query_text (tutk_pairs uid authkey passwd region).
Proof. unfold build_tutk_url. cbn. by rewrite app_nil_r. Qed.

Lemma tutk_pairs_ok uid authkey passwd region :
  Forall pair_ok (tutk_pairs uid authkey passwd region).
Proof.
  unfold tutk_pairs. repeat constructor; cbn [fst snd]; by apply url_encode_lacks || idtac.
Qed.

Lemma tutk_find_query uid authkey passwd region :
  find_char question (build_tutk_url uid authkey passwd region) = Some 13%nat.
Proof. rewrite tutk_url_text. rewrite find_char_app; [done | by repeat constructor]. Qed.

Lemma drop_tutk_url uid authkey passwd region :
  drop (13 + 1) (build_tutk_url uid authkey passwd region) =
  query_text (tutk_pairs uid authkey passwd region).
Proof. by rewrite tutk_url_text. Qed.

Lemma query_param_pairs ps1 k v ps2 :
  Forall pair_ok (ps1 ++ (k, v) :: ps2) -> Forall (fun p => p.1 <> k) ps1 ->
  query_param (query_text (ps1 ++ (k, v) :: ps2)) k = v.
Proof. intros H1 H2. apply (param_value_pairs 1 k v ps1 ps2 []); [done | done | lia]. Qed.

(** Each parameter of the URL as [query_param] reads it. *)
Lemma tutk_params uid authkey passwd region :
  let q := query_text (tutk_pairs uid authkey passwd region) in
  query_param q (str "uid") = url_encode uid /\ query_param q (str "passwd") = url_encode passwd /\
  query_param q (str "authkey") = url_encode authkey /\
  query_param q (str "region") = url_encode region /\ query_param q (str "channel") = [].
Proof.
  cbv zeta. pose proof (tutk_pairs_ok uid authkey passwd region) as Hok. unfold tutk_pairs in *.
  split_and!.
  - by apply (query_param_pairs [] (str "uid")).
  - apply (query_param_pairs [_; _] (str "passwd")); [done | by repeat constructor].
  - apply (query_param_pairs [_] (str "authkey")); [done | by repeat constructor].
  - apply (query_param_pairs [_; _; _] (str "region")); [done | by repeat constructor].
  - refine (param_value_absent 1 (str "channel") _ [] Hok _ _ _ _);
      [by repeat constructor | by repeat constructor | | simpl; lia].
    cbn. rewrite !not_elem_of_cons. split_and!; try discriminate. apply not_elem_of_nil.
Qed.

Lemma parse_tutk_url_built uid authkey passwd region :
  uid <> [] -> passwd <> [] ->
  parse_tutk_url (build_tutk_url uid authkey passwd region) =
  Some {| p_uid := to_upper <$> url_encode uid; p_passwd := url_encode passwd;
          p_authkey := url_encode authkey;
          p_region := if bool_decide (url_encode region = str "cn")
                         || bool_decide (url_encode region = str "eu")
                      then url_encode region else str "us";
          p_relay_id := to_upper <$> url_encode uid |}.
Proof.
  intros Hu Hp. unfold parse_tutk_url.
  replace (starts_with (str "bambu://") (build_tutk_url uid authkey passwd region)) with true by done.
  cbn [negb]. rewrite tutk_find_query, drop_tutk_url. cbv zeta.
  destruct (tutk_params uid authkey passwd region) as (-> & -> & -> & -> & ->).
  destruct (url_encode uid) eqn:Eu; [by apply url_encode_nil in Eu|].
  destruct (url_encode passwd) eqn:Ep; [by apply url_encode_nil in Ep|]. done.
Qed.

Lemma set_tutk_kv_text u p :
  lacks equals p.1 -> set_tutk_kv u (kv_text p) = assign_tutk u p.1 (url_decode p.2).
Proof. intros H. unfold set_tutk_kv, key_of, val_of. by rewrite split_kv_text; destruct p. Qed.

Lemma set_url_kv_text u p :
  lacks equals p.1 -> set_url_kv u (kv_text p) = assign_url u p.1 (url_decode p.2).
Proof. intros H. unfold set_url_kv, key_of, val_of. by rewrite split_kv_text; destruct p. Qed.

Lemma set_lan_kv_text u p :
  lacks equals p.1 -> set_lan_kv u (kv_text p) = assign_lan u p.1 (percent_decode p.2).
Proof. intros H. unfold set_lan_kv. by rewrite split_kv_text; destruct p. Qed.

Lemma parse_url_built uid authkey passwd region :
  uid <> [] ->
  parse_url (build_tutk_url uid authkey passwd region) =
  Some {| scheme := Tutk; raw_url := build_tutk_url uid authkey passwd region;
          host := str "tutk-relay"; t_port := 6000; user := kUser; passwd := passwd;
          authkey := authkey; region := region; tutk_uid := uid; channel := []; device := [];
          cli_id := []; cli_ver := []; net_ver := []; path := kPath; lv := [] |}.
Proof.
  intros Hu. unfold parse_url.
  replace (starts_with (str "bambu:") (build_tutk_url uid authkey passwd region)) with true by done.
  replace (find_str (str "tutk?") (trim_front (fun c => beq c (zb 47))
    (drop 6 (build_tutk_url uid authkey passwd region)))) with (Some 0%nat) by done.
  unfold parse_url_tutk. rewrite tutk_find_query, drop_tutk_url.
  pose proof (tutk_pairs_ok uid authkey passwd region) as Hok.
  rewrite getlines_query by done. unfold tutk_pairs in *. rewrite !fmap_cons, fmap_nil. cbn [foldl].
  rewrite !set_tutk_kv_text by (by repeat constructor). cbn [fst snd]. rewrite !url_decode_encode.
  destruct uid as [|c uid]; [done|]. reflexivity.
Qed.

(** ** Local URLs *)

Definition local_pairs (code lv : cstr) : list (cstr * cstr) :=
  [(str "port", str "6000"); (str "user", str "bblp"); (str "passwd", code)] ++
  match lv with [] => [] | _ => [(str "lv", lv)] end.

(** An address a printer has (dotted decimal), and what an access code and a
    protocol name consist of. *)
Definition is_addr_char (c : byte) : bool := is_digit c || beq c (zb 46).
Definition address_ok (ip : cstr) : Prop :=
  ip <> [] /\ Forall (fun c => is_addr_char c = true) ip /\ last ip <> Some (zb 46).
Definition token_ok (s : cstr) : Prop := Forall (fun c => is_alnum c = true) s.

Lemma addr_lacks c ip :
  Forall (fun c => is_addr_char c = true) ip -> is_addr_char c = false -> lacks c ip.
Proof.
  intros H Hc. eapply Forall_impl; [exact H|]. intros d Hd. apply beq_neq. intros ->. congruence.
Qed.

Lemma token_lacks c s : token_ok s -> is_alnum c = false -> lacks c s.
Proof.
  intros H Hc. eapply Forall_impl; [exact H|]. intros d Hd. apply beq_neq. intros ->. congruence.
Qed.

Lemma token_decode s : token_ok s -> url_decode s = s /\ percent_decode s = s.
Proof.
  intros H. assert (Hu : Forall (fun c => unreserved c = true) s).
  { eapply Forall_impl; [exact H|]. intros c Hc.
    byte_fact (fun c => negb (is_alnum c) || unreserved c) c E. by rewrite Hc in E. }
  rewrite <- (url_encode_id s Hu) at 1 3. split; [apply url_decode_encode|].
  by apply decode_encode.
Qed.

Lemma local_pairs_ok code lv : token_ok code -> token_ok lv -> Forall pair_ok (local_pairs code lv).
Proof.
  intros Hc Hl. unfold local_pairs. apply Forall_app. split.
  - repeat constructor; cbn [fst snd]; by apply token_lacks.
  - destruct lv as [|l lv]; [constructor|]. constructor; [|constructor].
    split_and!; [by repeat constructor | by repeat constructor | by apply token_lacks].
Qed.

Lemma local_url_text ip code lv :
  ip <> [] -> code <> [] ->
  camera_url ip code lv = kPfx ++ ip ++ question :: query_text (local_pairs code lv).
Proof.
  intros Hi Hc. destruct ip as [|i ip]; [done|]. destruct code as [|c code]; [done|].
  unfold camera_url. destruct lv; cbn; by rewrite app_nil_r.
Qed.

Lemma address_last ip :
  address_ok ip -> match last ip with None => True | Some c => beq c (zb 46) = false end.
Proof.
  intros (Hne & _ & Hl). destruct (last ip) as [c|]; [|done]. apply beq_neq. congruence.
Qed.

Lemma drop_dot_address ip : address_ok ip -> drop_dot ip = ip.
Proof.
  intros H%address_last. unfold drop_dot. destruct (last ip); [by rewrite H | done].
Qed.

Lemma query_lacks c ps :
  beq amp c = false -> beq equals c = false -> Forall (fun p => lacks c p.1 /\ lacks c p.2) ps ->
  lacks c (query_text ps).
Proof.
  intros Ha He. induction 1 as [|p ps [H1 H2] Hps IH]; [constructor|]. rewrite query_text_cons.
  unfold kv_text. rewrite !lacks_app. split_and!; [done | by repeat constructor | done |].
  destruct ps; [constructor | by constructor].
Qed.

(** The text ["tutk?"] needs a [k] before the only [?]. *)
Lemma find_tutk_none a q :
  lacks question a -> lacks question q -> last a <> Some (zb 107) ->
  find_str (str "tutk?") (a ++ question :: q) = None.
Proof.
  intros Ha Hq Hl. destruct (find_str _ _) as [j|] eqn:E; [|done]. exfalso.
  apply find_str_some in E as [E _]. apply starts_with_spec in E as [r Hr].
  assert (E : a ++ question :: q = (take j (a ++ question :: q) ++ str "tutk") ++ question :: r).
  { rewrite <- (take_drop j (a ++ question :: q)) at 1. rewrite Hr, <- app_assoc. done. }
  revert E. generalize (take j (a ++ question :: q)). intros b E.
  apply app_eq_inv in E as [(l & E1 & E2) | (l & E1 & E2)].
  - destruct l as [|x l].
    + rewrite app_nil_r in E1. subst a. by rewrite last_app in Hl.
    + injection E2 as <- _. subst a. apply lacks_app in Ha as [_ Ha].
      apply Forall_cons in Ha as [Ha _]. by rewrite beq_refl in Ha.
  - destruct l as [|x l].
    + rewrite app_nil_r in E1. subst a. by rewrite last_app in Hl.
    + injection E2 as <- ->. apply lacks_app in Hq as [_ Hq].
      apply Forall_cons in Hq as [Hq _]. by rewrite beq_refl in Hq.
Qed.

Lemma local_query_lacks code lv :
  token_ok code -> token_ok lv -> lacks question (query_text (local_pairs code lv)).
Proof.
  intros Hc Hl. apply query_lacks; [done | done |]. unfold local_pairs. apply Forall_app. split.
  - repeat constructor; cbn [fst snd]; by apply token_lacks.
  - destruct lv as [|l lv]; [constructor|]. constructor; [|constructor].
    split; [by repeat constructor | by apply token_lacks].
Qed.

Lemma parse_url_local ip code proto :
  address_ok ip -> token_ok code -> code <> [] -> token_ok proto ->
  exists u, parse_url (camera_url ip code proto) = Some u /\ scheme u = Local /\ host u = ip /\
    t_port u = 6000 /\ user u = kUser /\ passwd u = code /\ lv u = proto.
Proof.
  intros Hip Hc Hne Hl. pose proof Hip as (Hi & Ha & Hd).
  rewrite local_url_text by done. pose proof (local_query_lacks code proto Hc Hl) as Hq.
  set (q := query_text (local_pairs code proto)) in *. unfold parse_url.
  replace (starts_with (str "bambu:") (kPfx ++ ip ++ question :: q)) with true by done.
  replace (trim_front (fun c => beq c (zb 47)) (drop 6 (kPfx ++ ip ++ question :: q)))
    with ((str "local/" ++ ip) ++ question :: q) by done.
  rewrite find_tutk_none; [| | done |].
  2: { apply lacks_app. split; [by repeat constructor | by apply addr_lacks]. }
  2: { rewrite last_app. destruct (last ip) as [d|] eqn:El; [|done]. intros [= ->].
       apply last_Some_elem_of in El. rewrite Forall_forall in Ha. by specialize (Ha _ El). }
  rewrite <- app_assoc. unfold parse_url_lan.
  replace (split_scheme (str "local/" ++ ip ++ question :: q))
    with (Local, 6000, ip ++ question :: q) by done.
  rewrite find_char_app by by apply addr_lacks.
  rewrite take_app_length, trim_back_id.
  2: { pose proof (address_last ip Hip). destruct (last ip) as [d|] eqn:El; [|done].
       apply last_Some_elem_of in El. rewrite Forall_forall in Ha. specialize (Ha _ El).
       apply orb_false_iff. split; [|done]. apply beq_neq. by intros ->. }
  rewrite find_char_none by by apply addr_lacks.
  replace (drop (length ip + 1) (ip ++ question :: q)) with q
    by (rewrite <- drop_drop, drop_app_length; done).
  unfold q. rewrite getlines_query by by apply local_pairs_ok.
  destruct (token_decode code Hc) as [Hdc _]. destruct (token_decode proto Hl) as [Hdl _].
  destruct ip as [|i ip]; [done|]. unfold local_pairs.
  destruct proto as [|l proto]; cbn [app]; rewrite !fmap_cons, fmap_nil; cbn [foldl];
    rewrite !set_url_kv_text by (by repeat constructor); cbn [fst snd]; rewrite Hdc, ?Hdl.
  - eexists. split; [reflexivity|]. done.
  - eexists. split; [reflexivity|]. done.
Qed.

Lemma local_query_val ip code proto ps1 k v ps2 :
  address_ok ip -> token_ok code -> code <> [] -> token_ok proto ->
  local_pairs code proto = ps1 ++ (k, v) :: ps2 -> Forall (fun p => p.1 <> k) ps1 ->
  query_val (camera_url ip code proto) (Some (15 + length ip)%nat) k = v.
Proof.
  intros (Hi & _) Hc Hne Hl E Hf. rewrite local_url_text by done. unfold query_val.
  pose proof (local_pairs_ok code proto Hc Hl) as Hok. rewrite E in *.
  replace (15 + length ip + 1)%nat with (length (kPfx ++ ip ++ [question]))
    by (rewrite !length_app; simpl; lia).
  replace (kPfx ++ ip ++ question :: query_text (ps1 ++ (k, v) :: ps2))
    with ((kPfx ++ ip ++ [question]) ++ query_text (ps1 ++ (k, v) :: ps2))
    by by rewrite <- !app_assoc.
  apply param_value_pairs; [done | done | lia].
Qed.

Lemma local_query_lv ip code proto :
  address_ok ip -> token_ok code -> code <> [] -> token_ok proto ->
  query_val (camera_url ip code proto) (Some (15 + length ip)%nat) (str "lv") = proto.
Proof.
  intros Hip Hc Hne Hl. destruct proto as [|l proto].
  - rewrite local_url_text by (done || apply Hip). unfold query_val.
    replace (15 + length ip + 1)%nat with (length (kPfx ++ ip ++ [question]))
      by (rewrite !length_app; simpl; lia).
    replace (kPfx ++ ip ++ question :: query_text (local_pairs code []))
      with ((kPfx ++ ip ++ [question]) ++ query_text (local_pairs code []))
      by by rewrite <- !app_assoc.
    apply param_value_absent; [by apply local_pairs_ok | by repeat constructor
      | by repeat constructor | | simpl; lia].
    cbn. rewrite !not_elem_of_cons. split_and!; try discriminate. apply not_elem_of_nil.
  - apply (local_query_val ip code (l :: proto)
      [(str "port", str "6000"); (str "user", str "bblp"); (str "passwd", code)]
      (str "lv") (l :: proto) []); [done.. | by repeat constructor].
Qed.

Lemma find_local_query ip q :
  address_ok ip ->
  find_char_from question (kPfx ++ ip ++ question :: q) 15 = Some (15 + length ip)%nat.
Proof.
  intros (_ & Ha & _). unfold find_char_from, find_if_from.
  replace (drop 15 (kPfx ++ ip ++ question :: q)) with (ip ++ question :: q) by done.
  change (find_if (beq question)) with (find_char question).
  by rewrite find_char_app by by apply addr_lacks.
Qed.

Lemma parse_local_camera_url_minted ip code proto :
  address_ok ip -> token_ok code -> code <> [] -> token_ok proto ->
  parse_local_camera_url (camera_url ip code proto) =
  Some {| c_ip := ip; ctrl_port := 6000;
          video_port := if bool_decide (proto = str "rtsps") then 322
                        else if bool_decide (proto = str "rtsp") then 554 else 0;
          c_lv := proto |}.
Proof.
  intros Hip Hc Hne Hl. unfold parse_local_camera_url.
  pose proof (local_query_val ip code proto [] (str "port") (str "6000") _ Hip Hc Hne Hl eq_refl
    (Forall_nil_2 _)) as Hport.
  pose proof (local_query_lv ip code proto Hip Hc Hne Hl) as Hlv.
  pose proof (local_url_text ip code proto (proj1 Hip) Hne) as Ht.
  rewrite Ht in *. set (q := query_text _) in *. clearbody q.
  rewrite (starts_with_app kPfx). rewrite (proj2 (Nat.leb_gt _ _)) by (rewrite !length_app; simpl; lia).
  change (length kPfx) with 15%nat. cbn [negb orb]. rewrite find_local_query by done.
  cbv zeta. rewrite Hport, Hlv.
  replace (substr_to 15 (Some (15 + length ip)%nat) (kPfx ++ ip ++ question :: q)) with ip.
  2: { unfold substr_to. rewrite sub_app_r by (simpl; lia). change (length kPfx) with 15%nat.
       by rewrite Nat.sub_diag, sub_app_head by lia. }
  rewrite drop_dot_address by done. destruct ip as [|i ip]; [by destruct Hip|]. done.
Qed.

Lemma parse_lan_url_minted ip code proto :
  address_ok ip -> token_ok code -> code <> [] -> token_ok proto ->
  parse_lan_url (camera_url ip code proto) =
  Some {| l_ip := ip; l_port := 6000; l_user := str "bblp"; l_password := code; l_device := [];
          l_cli_id := []; l_cli_ver := []; l_net_ver := [] |}.
Proof.
  intros Hip Hc Hne Hl. pose proof Hip as (Hi & Ha & _). unfold parse_lan_url.
  rewrite local_url_text by done. rewrite (starts_with_app kPfx). cbn [negb]. cbv zeta.
  rewrite drop_app_length, find_char_app by by apply addr_lacks.
  rewrite take_app_length, drop_dot_address by done.
  replace (drop (length ip + 1) (ip ++ question :: query_text (local_pairs code proto)))
    with (query_text (local_pairs code proto)) by (rewrite <- drop_drop, drop_app_length; done).
  rewrite getlines_query by by apply local_pairs_ok.
  destruct (token_decode code Hc) as [_ Hdc]. destruct ip as [|i ip]; [done|]. unfold local_pairs.
  destruct proto as [|l proto]; cbn [app]; rewrite !fmap_cons, fmap_nil; cbn [foldl];
    rewrite !set_lan_kv_text by (by repeat constructor); cbn [fst snd]; rewrite Hdc; done.
Qed.

(** ** The request body and the packed key *)

(** The object the ttcode request carries. *)
Definition ttcode_value (ser ver : cstr) (protos : list cstr) : Value :=
  Object ([(str "dev_id", String ser)] ++
          match ver with [] => [] | _ => [(str "dev_version", String ver)] end ++
          [(str "protocols", Array (String <$> protos))]).

Lemma ttcode_body_dump ser ver protos :
  build_ttcode_request_body ser ver protos = dump (ttcode_value ser ver protos).
Proof.
  unfold build_ttcode_request_body, ttcode_value.
  assert (E : map dump (String <$> protos) = escape <$> protos) by apply map_map.
  destruct ver as [|v ver]; cbn [dump map app fst snd]; rewrite E; cbn [join];
    rewrite <- ?app_assoc; cbn [app]; rewrite <- ?app_assoc; cbn [app]; rewrite <- ?app_assoc; reflexivity.
Qed.

Lemma list_max_zeros {A} (f : A -> nat) (l : list A) :
  (forall x, f x = 0%nat) -> list_max (map f l) = 0%nat.
Proof. intros H. induction l as [|x l IH]; simpl; [done|]. by rewrite H, IH. Qed.

Lemma ttcode_value_ok ser ver protos :
  sorted (ttcode_value ser ver protos) /\ (vdepth (ttcode_value ser ver protos) <= 128)%nat /\
  numbers_ok (ttcode_value ser ver protos) = true.
Proof.
  assert (H1 : fold_right (fun v p => sorted v /\ p) True (String <$> protos))
    by (induction protos as [|p ps IH]; [done|]; rewrite fmap_cons; split; [done | exact IH]).
  assert (H2 : list_max (map vdepth (String <$> protos)) = 0%nat)
    by (rewrite map_map; by apply list_max_zeros).
  assert (H3 : forallb numbers_ok (String <$> protos) = true)
    by (clear H1 H2; induction protos as [|p ps IH]; [done|]; rewrite fmap_cons; exact IH).
  unfold ttcode_value. destruct ver as [|v ver];
    cbn [sorted vdepth numbers_ok app fold_right forallb fst snd map]; rewrite H2, H3;
    split_and!; try done; try (simpl; lia).
  - repeat constructor.
  - repeat constructor.
Qed.

(** A token of the protocol list. *)
Definition proto_ok (p : cstr) : Prop :=
  lacks comma p /\ lacks bar p /\
  match p with [] => False | c :: _ => is_blank c = false end /\
  match last p with None => True | Some c => is_blank c = false end.

Lemma trim_proto p : proto_ok p -> trim_blank p = p.
Proof.
  intros (_ & _ & H1 & H2). unfold trim_blank. rewrite trim_front_id by by destruct p.
  by apply trim_back_id.
Qed.

Lemma getlines_join ps : Forall proto_ok ps -> getlines comma (join ps) [] = ps.
Proof.
  induction 1 as [|p ps Hp Hps IH]; [done|]. destruct Hp as (Hc & _ & Hne & _).
  destruct ps as [|q ps].
  - cbn [join]. rewrite getlines_plain by done. by destruct p.
  - rewrite join_cons2. cbn [app]. rewrite getlines_sep, IH by done. done.
Qed.

Lemma parse_protocols_join ps : ps <> [] -> Forall proto_ok ps -> parse_protocols (join ps) = ps.
Proof.
  intros Hne Hok. unfold parse_protocols. rewrite getlines_join by done.
  assert (Ht : trim_blank <$> ps = ps).
  { clear Hne. induction Hok as [|p ps Hp Hps IH]; [done|].
    by rewrite fmap_cons, trim_proto, IH. }
  rewrite Ht, filter_all; [by destruct ps|]. intros p Hp E. subst p.
  rewrite Forall_forall in Hok. by destruct (Hok _ Hp) as (_ & _ & ? & _).
Qed.

Lemma join_lacks ps : Forall proto_ok ps -> lacks bar (join ps).
Proof.
  induction 1 as [|p ps (_ & Hb & _) Hps IH]; [constructor|]. destruct ps as [|q ps]; [done|].
  rewrite join_cons2. apply lacks_app. split; [done|]. by constructor.
Qed.

Lemma find_char_from_app c a b pos :
  length a = pos -> find_char_from c (a ++ b) pos = option_map (Nat.add pos) (find_char c b).
Proof. intros <-. unfold find_char_from, find_if_from. by rewrite drop_app_length. Qed.

Lemma packed_key3 ser ver ps tail :
  lacks bar ser -> lacks bar ver -> ps <> [] -> Forall proto_ok ps ->
  parse_packed_dev_key (ser ++ bar :: ver ++ bar :: join ps ++
                        match tail with Some t => bar :: t | None => [] end) =
  {| serial := ser; dev_version := ver; protocols := ps |}.
Proof.
  intros Hs Hv Hne Hok. set (rest := match tail with Some t => bar :: t | None => [] end).
  set (raw := ser ++ bar :: ver ++ bar :: join ps ++ rest).
  assert (E1 : raw = (ser ++ [bar]) ++ ver ++ bar :: join ps ++ rest)
    by (unfold raw; by rewrite <- !app_assoc).
  assert (E2 : raw = (ser ++ [bar] ++ ver ++ [bar]) ++ join ps ++ rest)
    by (unfold raw; by rewrite <- !app_assoc).
  unfold parse_packed_dev_key.
  replace (find_char bar raw) with (Some (length ser)) by (symmetry; by apply find_char_app).
  assert (F2 : find_char_from bar raw (length ser + 1) = Some (length ser + 1 + length ver)%nat).
  { rewrite E1, find_char_from_app by (rewrite length_app; simpl; lia). by rewrite find_char_app. }
  rewrite F2.
  assert (F3 : find_char_from bar raw (length ser + 1 + length ver + 1) =
    match tail with Some _ => Some (length ser + 1 + length ver + 1 + length (join ps))%nat
                  | None => None end).
  { rewrite E2, find_char_from_app by (rewrite !length_app; simpl; lia). unfold rest.
    destruct tail as [t|].
    - rewrite find_char_app by by apply join_lacks. done.
    - rewrite app_nil_r, find_char_none by by apply join_lacks. done. }
  cbv zeta. rewrite F3.
  assert (P : substr_to (length ser + 1 + length ver + 1)
    (match tail with Some _ => Some (length ser + 1 + length ver + 1 + length (join ps))%nat
                   | None => None end) raw = join ps).
  { unfold substr_to, rest in *. rewrite E2. destruct tail as [t|].
    - rewrite sub_app_r by (rewrite !length_app; simpl; lia). rewrite !length_app. cbn [length].
      replace (length ser + 1 + length ver + 1 - _)%nat with 0%nat by lia. apply sub_app_head. lia.
    - rewrite app_nil_r. rewrite drop_app_ge by (rewrite !length_app; simpl; lia).
      rewrite !length_app. cbn [length]. by replace (_ - _)%nat with 0%nat by lia. }
  rewrite P, parse_protocols_join by done.
  assert (V : sub (length ser + 1) (length ser + 1 + length ver - (length ser + 1)) raw = ver).
  { rewrite E1, sub_app_r by (rewrite length_app; simpl; lia). rewrite length_app. cbn [length].
    replace (length ser + 1 - _)%nat with 0%nat by lia. apply sub_app_head. lia. }
  rewrite V. replace (take (length ser) raw) with ser by (symmetry; apply take_app_length).
  unfold raw. by destruct ser.
Qed.

(** ** The properties *)

(** The TUTK URL built from credentials gives them back to the URL parser
    of BambuSource, whatever characters they hold; the parser that starts the
    TUTK session gives them back (the UID in upper case, an unknown region as
    ["us"], the UID as the relay id) when none of their characters needs
    escaping. *)
Lemma tutk_url_roundtrip uid key pw reg :
  uid <> [] -> pw <> [] ->
  (exists u, parse_url (build_tutk_url uid key pw reg) = Some u /\ scheme u = Tutk /\
     tutk_uid u = uid /\ authkey u = key /\ passwd u = pw /\
     region u = reg) /\
  (Forall (fun c => unreserved c = true) (uid ++ key ++ pw ++ reg) ->
   parse_tutk_url (build_tutk_url uid key pw reg) =
   Some {| p_uid := to_upper <$> uid; p_passwd := pw; p_authkey := key;
           p_region := if bool_decide (reg = str "cn") || bool_decide (reg = str "eu")
                       then reg else str "us";
           p_relay_id := to_upper <$> uid |}).
Proof.
  intros Hu Hp. split.
  - rewrite parse_url_built by done. eexists. split; [reflexivity|]. done.
  - intros (H1 & (H2 & (H3 & H4)%Forall_app)%Forall_app)%Forall_app.
    rewrite parse_tutk_url_built, !url_encode_id by done. done.
Qed.

(** The session parser does not undo the escapes: a password with a [+] reaches
    the handshake as ["a%2Bb"]. *)
Lemma tutk_url_stays_encoded :
  parse_tutk_url (build_tutk_url (str "U") (str "k") (str "a+b") (str "us")) =
  Some {| p_uid := str "U"; p_passwd := str "a%2Bb"; p_authkey := str "k"; p_region := str "us";
          p_relay_id := str "U" |}.
Proof. vm_compute. reflexivity. Qed.

(** The local URL minted for a printer's address, access code and
    liveview protocol is read alike by its three parsers: the address, control
    port 6000, the user and the code, and the video port of the protocol. *)
Lemma local_url_roundtrip ip code proto :
  address_ok ip -> token_ok code -> code <> [] -> token_ok proto ->
  parse_local_camera_url (camera_url ip code proto) =
    Some {| c_ip := ip; ctrl_port := 6000;
            video_port := if bool_decide (proto = str "rtsps") then 322
                          else if bool_decide (proto = str "rtsp") then 554 else 0;
            c_lv := proto |} /\
  parse_lan_url (camera_url ip code proto) =
    Some {| l_ip := ip; l_port := 6000; l_user := str "bblp"; l_password := code;
            l_device := []; l_cli_id := []; l_cli_ver := []; l_net_ver := [] |} /\
  exists u, parse_url (camera_url ip code proto) = Some u /\ scheme u = Local /\ host u = ip /\
    t_port u = 6000 /\ user u = kUser /\ passwd u = code /\ lv u = proto.
Proof.
  intros. split_and!;
    [by apply parse_local_camera_url_minted | by apply parse_lan_url_minted | by apply parse_url_local].
Qed.

(** The ttcode request body is the JSON text of the object with the
    device id, the firmware version when there is one and the protocols, for
    any strings: parsing it gives that object. *)
Lemma ttcode_body_parses ser ver protos :
  parse (build_ttcode_request_body ser ver protos) = Ok (ttcode_value ser ver protos) [].
Proof.
  rewrite ttcode_body_dump. destruct (ttcode_value_ok ser ver protos) as (H1 & H2 & H3).
  by apply parse_of_dump.
Qed.

(** The packed key ["serial|version|protocols[|channel]"] is taken apart
    into the serial, the version and the protocol tokens. *)
Lemma packed_key_parses ser ver ps tail :
  lacks bar ser -> lacks bar ver -> ps <> [] -> Forall proto_ok ps ->
  parse_packed_dev_key (ser ++ bar :: ver ++ bar :: join ps ++
                        match tail with Some t => bar :: t | None => [] end) =
  {| serial := ser; dev_version := ver; protocols := ps |}.
Proof. apply packed_key3. Qed.

(** ** Witnesses *)

Lemma tutk_url_roundtrip_witness :
  parse_tutk_url (build_tutk_url (str "vgc47") (str "c0c5") (str "pw-1") (str "eu")) =
  Some {| p_uid := str "VGC47"; p_passwd := str "pw-1"; p_authkey := str "c0c5";
          p_region := str "eu"; p_relay_id := str "VGC47" |}.
Proof.
  refine (proj2 (tutk_url_roundtrip (str "vgc47") (str "c0c5") (str "pw-1") (str "eu") _ _) _);
    [discriminate | discriminate | by repeat constructor].
Defined.

Lemma local_url_roundtrip_witness :
  parse_local_camera_url (camera_url (str "192.168.1.9") (str "12345678") (str "rtsps")) =
  Some {| c_ip := str "192.168.1.9"; ctrl_port := 6000; video_port := 322; c_lv := str "rtsps" |}.
Proof.
  refine (proj1 (local_url_roundtrip (str "192.168.1.9") (str "12345678") (str "rtsps") _ _ _ _));
    [ | by repeat constructor | discriminate | by repeat constructor].
  split_and!; [discriminate | by repeat constructor | discriminate].
Defined.

Lemma packed_key_parses_witness :
  parse_packed_dev_key (str "01S|01.07|tutk,agora|0") =
  {| serial := str "01S"; dev_version := str "01.07"; protocols := [str "tutk"; str "agora"] |}.
Proof.
  apply (packed_key_parses (str "01S") (str "01.07") [str "tutk"; str "agora"] (Some (str "0")));
    [by repeat constructor | by repeat constructor | discriminate |].
  repeat constructor.
Defined.
