(* ===== verification/Naming.v ===== *)
(** Remote file names and URLs of a print job ([src/print_job_naming.cpp]) and
    the cover key of a status frame ([src/cover_key.cpp]). *)

From S2P Require Import Prelude Text Json.

Definition slash : byte := zb 47.
Definition bslash : byte := zb 92.
Definition dot : byte := zb 46.
Definition space : byte := zb 32.

(** The fields of [BBL::PrintParams] the naming reads. *)
Record PrintParams := {
  project_name : cstr; task_name : cstr; filename : cstr; ftp_folder : cstr; try_emmc_print : bool
}.

Definition is_slash (c : byte) : bool := beq c slash || beq c bslash.

Definition basename_of (path : cstr) : cstr :=
  match rfind_if is_slash path with None => path | Some i => drop (i + 1) path end.

Definition is_lead (c : byte) : bool := beq c dot || is_slash c || beq c space.
Definition is_trail (c : byte) : bool := beq c space || beq c dot.
Definition safe_char (c : byte) : byte := if (bz c <? 0x20) || is_slash c then zb 95 else c.

Definition sanitize_remote_name (name : cstr) : cstr :=
  safe_char <$> trim_back is_trail (trim_front is_lead name).

Definition strip_3mf_extension (name : cstr) : cstr :=
  if ends_with name (str ".gcode.3mf") then take (length name - 10) name
  else if ends_with name (str ".3mf") then take (length name - 4) name
  else name.

Definition pick_remote_name (p : PrintParams) : cstr :=
  let project := match project_name p with [] => task_name p | n => n end in
  match strip_3mf_extension (sanitize_remote_name project) with
  | [] => match sanitize_remote_name (basename_of (filename p)) with
          | [] => str "print.gcode.3mf"
          | name => name
          end
  | project => project ++ str ".gcode.3mf"
  end.

Definition dest_name_for_send_gcode (p : PrintParams) : cstr :=
  match project_name p with [] => [] | n => sanitize_remote_name n end.

Definition strip_leading_slash (s : cstr) : cstr :=
  match s with c :: s' => if beq c slash then s' else s | [] => s end.

(** [force_ftps] is [config::current().force_ftps]. *)
Definition use_brtc_cache_upload (force_ftps : bool) (p : PrintParams) : bool :=
  if force_ftps then false else try_emmc_print p.

Definition build_brtc_emmc_url (remote_name : cstr) : cstr :=
  str "brtc://emmc/" ++ strip_leading_slash remote_name.

Definition build_file_url (absolute_path : cstr) : cstr :=
  let norm := match absolute_path with
              | c :: _ => if beq c slash then absolute_path else slash :: absolute_path
              | [] => [slash]
              end in
  str "file://" ++ norm.

Definition build_ftp_url (stored_path : cstr) : cstr :=
  str "ftp://" ++ strip_leading_slash stored_path.

Definition build_ftp_remote_path (p : PrintParams) (remote_name : cstr) : cstr :=
  match trim_back is_slash (trim_front is_slash (ftp_folder p)) with
  | [] => slash :: strip_leading_slash remote_name
  | folder => [slash] ++ folder ++ [slash] ++ strip_leading_slash remote_name
  end.

(** ** The cover key *)

Definition frame_string_field (root : Value) (key : cstr) : cstr :=
  let v := find root key in
  let v := if is_string v then v else find root (str "print." ++ key) in
  if is_string v then as_string v else [].

Definition gcode_file_to_key (gcode_file : cstr) : cstr :=
  let base := match rfind_if (beq slash) gcode_file with
              | None => gcode_file | Some i => drop (i + 1) gcode_file end in
  if ends_with base (str ".gcode") then take (length base - 6) base else base.

Definition cover_model_key (payload_json : cstr) : cstr :=
  match parse payload_json with
  | Ok root _ =>
      match frame_string_field root (str "gcode_file") with
      | [] => frame_string_field root (str "subtask_name")
      | gcode_file => gcode_file_to_key gcode_file
      end
  | _ => []
  end.

(** ** What trimming leaves *)

Lemma trim_front_head f s : match trim_front f s with [] => True | c :: _ => f c = false end.
Proof.
  unfold trim_front. induction s as [|c s IH]; simpl; [done|].
  destruct (f c) eqn:E; [|done]. by destruct (span f s).
Qed.

Lemma trim_front_suffix f s : exists a, s = a ++ trim_front f s.
Proof. exists (span f s).1. symmetry. apply span_app. Qed.

Lemma trim_back_prefix f s : exists b, s = trim_back f s ++ b.
Proof.
  unfold trim_back. destruct (trim_front_suffix f (reverse s)) as [a Ha]. exists (reverse a).
  by rewrite <- reverse_app, <- Ha, reverse_involutive.
Qed.

(** A remote name the printer can store: no separators or control characters,
    and nothing that hides it or climbs out of its directory. *)
Definition name_char_ok (c : byte) : Prop := 0x20 <= bz c /\ is_slash c = false.
Definition starts_ok (s : cstr) : Prop :=
  match s with [] => False | c :: _ => is_lead c = false end.

Lemma name_chars_b s :
  forallb (fun c => (0x20 <=? bz c) && negb (is_slash c)) s = true -> Forall name_char_ok s.
Proof.
  intros H. apply Forall_forall. intros c Hc. rewrite forallb_forall in H.
  apply list_elem_of_In, H, andb_prop in Hc as [H1 H2]. split; [lia|]. by destruct (is_slash c).
Qed.

Lemma safe_char_ok c : name_char_ok (safe_char c).
Proof.
  byte_fact (fun c => (0x20 <=? bz (safe_char c)) && negb (is_slash (safe_char c))) c H.
  apply andb_prop in H as [H1 H2]. split; [lia|]. by destruct (is_slash (safe_char c)).
Qed.

Lemma safe_char_lead c : is_lead c = false -> is_lead (safe_char c) = false.
Proof.
  intros Hc. byte_fact (fun c => is_lead c || negb (is_lead (safe_char c))) c H.
  rewrite Hc in H. by destruct (is_lead (safe_char c)).
Qed.

Lemma sanitize_chars name : Forall name_char_ok (sanitize_remote_name name).
Proof.
  unfold sanitize_remote_name. apply Forall_fmap, Forall_forall. intros c _. apply safe_char_ok.
Qed.

Lemma sanitize_starts name :
  match sanitize_remote_name name with [] => True | c :: _ => is_lead c = false end.
Proof.
  unfold sanitize_remote_name. pose proof (trim_front_head is_lead name) as Hh.
  destruct (trim_back_prefix is_trail (trim_front is_lead name)) as [b Hb].
  destruct (trim_back is_trail (trim_front is_lead name)) as [|c s]; [done|].
  rewrite Hb in Hh. simpl in Hh. rewrite fmap_cons. by apply safe_char_lead.
Qed.

Lemma strip_3mf_prefix name : exists b, name = strip_3mf_extension name ++ b.
Proof.
  unfold strip_3mf_extension. destruct (ends_with _ _); [|destruct (ends_with _ _)].
  - eexists. symmetry. apply take_drop.
  - eexists. symmetry. apply take_drop.
  - exists []. by rewrite app_nil_r.
Qed.

Lemma pick_ok p : Forall name_char_ok (pick_remote_name p) /\ starts_ok (pick_remote_name p).
Proof.
  unfold pick_remote_name. set (project := match project_name p with [] => _ | _ => _ end).
  destruct (strip_3mf_prefix (sanitize_remote_name project)) as [b Hb].
  pose proof (sanitize_chars project) as Hc. pose proof (sanitize_starts project) as Hs.
  destruct (strip_3mf_extension (sanitize_remote_name project)) as [|c s].
  - pose proof (sanitize_chars (basename_of (filename p))) as Hc'.
    pose proof (sanitize_starts (basename_of (filename p))) as Hs'.
    destruct (sanitize_remote_name (basename_of (filename p))) as [|c s]; [|done].
    split; [|done]. by apply name_chars_b.
  - rewrite Hb in Hc, Hs. apply Forall_app in Hc as [Hc _]. split; [|done].
    apply Forall_app. split; [done|]. by apply name_chars_b.
Qed.

(** A project name that needs no cleaning. *)
Definition clean (x : cstr) : Prop :=
  Forall name_char_ok x /\ starts_ok x /\
  match last x with None => False | Some c => is_trail c = false end.

Lemma safe_char_id c : name_char_ok c -> safe_char c = c.
Proof.
  intros [H1 H2]. unfold safe_char. rewrite H2, orb_false_r, (proj2 (Z.ltb_ge _ _)) by lia. done.
Qed.

Lemma sanitize_clean x : clean x -> sanitize_remote_name x = x.
Proof.
  intros (Hc & Hs & Hl). unfold sanitize_remote_name. rewrite trim_front_id by by destruct x.
  rewrite trim_back_id by by destruct (last x).
  induction Hc as [|c x Hc Hx IH]; [done|]. rewrite fmap_cons, safe_char_id by done. f_equal.
  clear -Hx. induction Hx as [|c x Hc Hx IH]; [done|]. by rewrite fmap_cons, safe_char_id, IH.
Qed.

Lemma clean_app x suffix :
  clean x -> Forall name_char_ok suffix ->
  match last suffix with None => False | Some c => is_trail c = false end -> clean (x ++ suffix).
Proof.
  intros (Hc & Hs & _) Hf Hl. split_and!; [by apply Forall_app | by destruct x |].
  rewrite last_app. by destruct (last suffix).
Qed.

Lemma ends_with_app x s : ends_with (x ++ s) s = true.
Proof.
  unfold ends_with. rewrite length_app. apply andb_true_intro. split; [apply Nat.leb_le; lia|].
  apply bool_decide_eq_true_2. replace (_ - _)%nat with (length x) by lia. apply drop_app_length.
Qed.

Lemma ends_with_spec s suffix : ends_with s suffix = true <-> exists x, s = x ++ suffix.
Proof.
  split; [|intros [x ->]; apply ends_with_app].
  intros [_ H]%andb_prop. apply bool_decide_eq_true_1 in H.
  exists (take (length s - length suffix) s). rewrite <- H at 2. symmetry. apply take_drop.
Qed.

Lemma take_app_minus {A} (x s : list A) : take (length (x ++ s) - length s) (x ++ s) = x.
Proof. rewrite length_app. replace (_ - _)%nat with (length x) by lia. apply take_app_length. Qed.

(** Whatever the job's fields hold, the remote name is not empty, has no
    path separator or control character and does not start with a dot, a
    separator or a blank. *)
Lemma remote_name_safe p :
  Forall name_char_ok (pick_remote_name p) /\ starts_ok (pick_remote_name p).
Proof. apply pick_ok. Qed.

(** A clean project name gives the same remote name with no extension,
    with [.3mf] and with [.gcode.3mf]: the name and [.gcode.3mf] once. *)
Lemma remote_name_extension p x :
  clean x -> ends_with x (str ".3mf") = false -> ends_with x (str ".gcode") = false ->
  Forall (fun name => pick_remote_name {| project_name := name; task_name := task_name p;
            filename := filename p; ftp_folder := ftp_folder p;
            try_emmc_print := try_emmc_print p |} = x ++ str ".gcode.3mf")
    [x; x ++ str ".3mf"; x ++ str ".gcode.3mf"].
Proof.
  intros Hx Hext Hgc. pose proof Hx as (_ & Hs & _). destruct x as [|c x']; [done|].
  set (x := c :: x') in *.
  assert (Hno : ends_with x (str ".gcode.3mf") = false).
  { destruct (ends_with x (str ".gcode.3mf")) eqn:E; [|done]. apply ends_with_spec in E as [y Hy].
    rewrite Hy in Hext. change (str ".gcode.3mf") with (str ".gcode" ++ str ".3mf") in Hext.
    by rewrite app_assoc, ends_with_app in Hext. }
  assert (Hg : ends_with (x ++ str ".3mf") (str ".gcode.3mf") = false).
  { destruct (ends_with (x ++ _) _) eqn:E; [|done]. apply ends_with_spec in E as [y Hy].
    change (str ".gcode.3mf") with (str ".gcode" ++ str ".3mf") in Hy.
    rewrite app_assoc in Hy. apply app_inv_tail in Hy. by rewrite Hy, ends_with_app in Hgc. }
  assert (Hstrip : Forall (fun name => name <> [] /\ strip_3mf_extension (sanitize_remote_name name) = x)
    [x; x ++ str ".3mf"; x ++ str ".gcode.3mf"]).
  { repeat constructor; try (by destruct x); rewrite sanitize_clean by
      (done || (apply clean_app; [done | by apply name_chars_b | done])); unfold strip_3mf_extension.
    - by rewrite Hno, Hext.
    - rewrite Hg, ends_with_app. change 4%nat with (length (str ".3mf")). by rewrite take_app_minus.
    - rewrite ends_with_app. change 10%nat with (length (str ".gcode.3mf")). by rewrite take_app_minus. }
  eapply Forall_impl; [exact Hstrip|]. intros name [Hne E]. unfold pick_remote_name. cbn [project_name].
  destruct name; [done|]. by rewrite E.
Qed.

(** ** Paths *)

Lemma rfind_app (f : byte -> bool) a c b :
  f c = true -> Forall (fun d => f d = false) b -> rfind_if f (a ++ c :: b) = Some (length a).
Proof.
  intros Hc Hb. unfold rfind_if. rewrite reverse_app, reverse_cons, <- app_assoc.
  rewrite find_if_app by by apply Forall_reverse. cbn [app find_if]. rewrite Hc. simpl.
  rewrite length_app, length_reverse. simpl. f_equal. lia.
Qed.

Lemma basename_last a c b :
  is_slash c = true -> Forall (fun d => is_slash d = false) b -> basename_of (a ++ c :: b) = b.
Proof.
  intros Hc Hb. unfold basename_of. rewrite rfind_app by done.
  by rewrite <- drop_drop, drop_app_length.
Qed.

(** Whatever folder the job names, the path the file is stored under is
    absolute and its last component is the picked remote name; the FTP URL
    names the same path. *)
Lemma remote_path_names p :
  let name := pick_remote_name p in
  let path := build_ftp_remote_path p name in
  basename_of path = name /\ build_ftp_url path = str "ftp:/" ++ path.
Proof.
  cbv zeta. destruct (pick_ok p) as [Hc Hs]. set (name := pick_remote_name p) in *.
  assert (Hstrip : strip_leading_slash name = name).
  { unfold strip_leading_slash. destruct name as [|c s]; [done|].
    destruct (beq_spec c slash) as [->|]; [done|done]. }
  assert (Hb : Forall (fun d => is_slash d = false) name).
  { eapply Forall_impl; [exact Hc|]. by intros c [_ ?]. }
  unfold build_ftp_remote_path. rewrite Hstrip.
  destruct (trim_back _ _) as [|c s].
  - split; [by apply (basename_last [] slash) | done].
  - split; [|done]. cbn [app]. rewrite app_comm_cons, app_comm_cons. by apply basename_last.
Qed.

(** ** Cover keys *)

(** The status frame of a print: [{"print":{"gcode_file":f,"subtask_name":t}}]. *)
Definition status_frame (f t : cstr) : Value :=
  Object [(str "print", Object [(str "gcode_file", String f); (str "subtask_name", String t)])].

(** The cover key of a printer's status frame is the last component of
    [gcode_file] without [.gcode], and the subtask name when [gcode_file] is
    empty. *)
Lemma cover_key_of_frame dir base t :
  Forall (fun c => beq c slash = false) base ->
  cover_model_key (dump (status_frame (dir ++ [slash] ++ base ++ str ".gcode") t)) = base /\
  cover_model_key (dump (status_frame (base ++ str ".gcode") t)) = base /\
  cover_model_key (dump (status_frame [] t)) = t.
Proof.
  intros Hb. assert (Hb' : Forall (fun c => beq slash c = false) (base ++ str ".gcode")).
  { apply Forall_app. split; [|by repeat constructor].
    eapply Forall_impl; [exact Hb|]. intros c Hc. by rewrite beq_sym. }
  assert (Hkey : forall f, f <> [] -> cover_model_key (dump (status_frame f t)) = gcode_file_to_key f).
  { intros f Hf. unfold cover_model_key. rewrite parse_of_dump.
    - change (frame_string_field (status_frame f t) (str "gcode_file")) with f. by destruct f.
    - by repeat constructor.
    - simpl. lia.
    - done. }
  split_and!.
  - rewrite Hkey by by destruct dir. unfold gcode_file_to_key. cbn [app].
    rewrite rfind_app by done. rewrite <- drop_drop, drop_app_length. cbn [drop]. rewrite drop_0.
    rewrite ends_with_app. change 6%nat with (length (str ".gcode")). by rewrite take_app_minus.
  - rewrite Hkey by by destruct base. unfold gcode_file_to_key.
    replace (rfind_if (beq slash) (base ++ str ".gcode")) with (@None nat).
    + rewrite ends_with_app. change 6%nat with (length (str ".gcode")). by rewrite take_app_minus.
    + symmetry. unfold rfind_if. rewrite (proj2 (find_if_none _ _)); [done|]. by apply Forall_reverse.
  - unfold cover_model_key. rewrite parse_of_dump; [done | by repeat constructor | simpl; lia | done].
Qed.

(** ** Witnesses *)

Lemma remote_name_extension_witness :
  Forall (fun name => pick_remote_name {| project_name := name; task_name := []; filename := [];
            ftp_folder := []; try_emmc_print := true |} = str "cube" ++ str ".gcode.3mf")
    [str "cube"; str "cube" ++ str ".3mf"; str "cube" ++ str ".gcode.3mf"].
Proof.
  apply (remote_name_extension {| project_name := []; task_name := []; filename := [];
    ftp_folder := []; try_emmc_print := true |} (str "cube")); [|done|done].
  split_and!; [by apply name_chars_b | done | done].
Defined.

Lemma cover_key_of_frame_witness :
  cover_model_key (dump (status_frame (str "/data/" ++ [slash] ++ str "Cube" ++ str ".gcode") [])) =
  str "Cube".
Proof.
  apply (cover_key_of_frame (str "/data/") (str "Cube") []). by repeat constructor.
Defined.
