(* ===== verification/TransCode.v ===== *)
(** TransCodePartial, the obfuscation of IOTC datagrams
    ([src/camera/tutk/IotcClient.cpp], lines 178-357): blocks of 16 bytes are
    rotated, keyed, permuted and rotated again; a tail of 8 bytes is keyed and
    permuted, any other tail is keyed. *)

From S2P Require Import Prelude.

Definition kTransKey : list byte := str "Charlie is the d".

Definition rol32 (v n : Z) : Z := Z.lor (u32 (Z.shiftl v n)) (Z.shiftr v (32 - n)).
Definition ror32 (v n : Z) : Z := Z.lor (Z.shiftr v n) (u32 (Z.shiftl v (32 - n))).

Definition read_be32 (p : list byte) : Z :=
  Z.lor (Z.lor (Z.lor (Z.shiftl (zat p 0) 24) (Z.shiftl (zat p 1) 16)) (Z.shiftl (zat p 2) 8)) (zat p 3).
Definition read_be16 (p : list byte) (i : nat) : Z := Z.lor (Z.shiftl (zat p i) 8) (zat p (i + 1)).

(** [(tmp >> n) & 0xff]. *)
Definition octet (v n : Z) : byte := zb (Z.land (Z.shiftr v n) 0xff).

(** [(a << 24) | (b << 16) | (c << 8) | d]. *)
Definition word4 (a b c d : byte) : Z :=
  Z.lor (Z.lor (Z.lor (Z.shiftl (bz a) 24) (Z.shiftl (bz b) 16)) (Z.shiftl (bz c) 8)) (bz d).

Definition rot (i : nat) : Z := nth i [1; 5; 9; 13] 0.

Definition decode_block (inp : list byte) : list byte :=
  let tmp0 := rol32 (le32 inp 0) 3 in
  let tmp1 := rol32 (le32 inp 4) 7 in
  let tmp2 := rol32 (le32 inp 8) 11 in
  let tmp3 := rol32 (le32 inp 12) 15 in
  let t := [octet tmp2 24; octet tmp2 8; octet tmp2 0; octet tmp3 24;
            octet tmp3 8; octet tmp2 16; octet tmp3 0; octet tmp3 16;
            octet tmp0 16; octet tmp0 8; octet tmp1 8; octet tmp0 0;
            octet tmp1 16; octet tmp1 0; octet tmp1 24; octet tmp0 24] in
  let dw j := word4 (at_ t (j * 4 + 3)) (at_ t (j * 4 + 2)) (at_ t (j * 4 + 1)) (at_ t (j * 4)) in
  let raw i := rol32 (Z.lxor (dw i) (le32 kTransKey (4 * i))) (rot i) in
  enc_le32 (raw 0%nat) ++ enc_le32 (raw 1%nat) ++ enc_le32 (raw 2%nat) ++ enc_le32 (raw 3%nat).

Definition encode_block (inp : list byte) : list byte :=
  let dw i := Z.lxor (ror32 (le32 inp (4 * i)) (rot i)) (le32 kTransKey (4 * i)) in
  let t (i : nat) := octet (dw (i / 4)%nat) (8 * Z.of_nat (i mod 4)) in
  let o0 := ror32 (word4 (t 15%nat) (t 8%nat) (t 9%nat) (t 11%nat)) 3 in
  let o1 := ror32 (word4 (t 14%nat) (t 12%nat) (t 10%nat) (t 13%nat)) 7 in
  let o2 := ror32 (word4 (t 0%nat) (t 5%nat) (t 1%nat) (t 2%nat)) 11 in
  let o3 := ror32 (word4 (t 3%nat) (t 7%nat) (t 4%nat) (t 6%nat)) 15 in
  enc_le32 o0 ++ enc_le32 o1 ++ enc_le32 o2 ++ enc_le32 o3.

Definition kTailPerm8 : list nat := [7; 4; 3; 2; 1; 6; 5; 0]%nat.

(** The tails: [full] bytes went before, a multiple of 16, so the index into
    the key is the one into the tail. *)
Definition key_at (i : nat) : Z := zat kTransKey (i mod 16).
Definition key_byte (i : nat) (b : byte) : byte := zb (Z.lxor (bz b) (key_at i)).

Definition decode_tail (d : list byte) : list byte :=
  if (length d =? 8)%nat then
    foldl (fun tail k => <[kTailPerm8 !!! k := key_byte (kTailPerm8 !!! k) (at_ d k)]> tail)
      (replicate 8 x00) (seq 0 8)
  else imap key_byte d.

Definition encode_tail (d : list byte) : list byte :=
  if (length d =? 8)%nat then
    (fun k => key_byte (kTailPerm8 !!! k) (at_ d (kTailPerm8 !!! k))) <$> seq 0 8
  else imap key_byte d.

(** The loop over the [n] full blocks. *)
Fixpoint blocks (block tail : list byte -> list byte) (n : nat) (d : list byte) : list byte :=
  match n with
  | O => tail d
  | S n => block (take 16 d) ++ blocks block tail n (drop 16 d)
  end.

Definition reverse_trans_code_partial (d : list byte) : list byte :=
  blocks decode_block decode_tail (length d / 16) d.
Definition trans_code_partial (d : list byte) : list byte :=
  blocks encode_block encode_tail (length d / 16) d.

Definition kDataScrambleLen : nat := 64.

Definition descramble_rx (d : list byte) : list byte :=
  if (length d <? 16)%nat then reverse_trans_code_partial d
  else
    let d := reverse_trans_code_partial (take 16 d) ++ drop 16 d in
    let e := if zat d 3 =? 0x0b then Nat.min (length d) kDataScrambleLen else length d in
    take 16 d ++ reverse_trans_code_partial (sub 16 (e - 16) d) ++ drop e d.

(** ** Words and rotations *)

Lemma land_shifted a b n : 0 <= n -> 0 <= b < 2 ^ n -> Z.land (a * 2 ^ n) b = 0.
Proof.
  intros Hn Hb. destruct (decide (b = 0)) as [->|]; [apply Z.land_0_r|].
  apply Z.bits_inj'. intros i Hi. rewrite Z.land_spec, Z.bits_0.
  destruct (decide (i < n)); [by rewrite Z.mul_pow2_bits_low by lia|].
  rewrite (Z.bits_above_log2 b), andb_false_r; [done | lia |].
  apply Z.log2_lt_pow2; [lia|].
  apply Z.lt_le_trans with (2 ^ n); [lia|]. apply Z.pow_le_mono_r; lia.
Qed.

Lemma lor_shiftl a b n : 0 <= n -> 0 <= b < 2 ^ n -> Z.lor (Z.shiftl a n) b = a * 2 ^ n + b.
Proof.
  intros Hn Hb. rewrite Z.shiftl_mul_pow2 by done. pose proof (land_shifted a b n Hn Hb) as H.
  rewrite <- Z.lxor_lor by done. symmetry. by apply Z.add_nocarry_lxor.
Qed.

Lemma shifted_u32 v n : 0 <= n <= 32 -> u32 (Z.shiftl v n) = Z.shiftl (v mod 2 ^ (32 - n)) n.
Proof.
  intros Hn. unfold u32. rewrite !Z.shiftl_mul_pow2 by lia.
  replace (2 ^ 32) with (2 ^ (32 - n) * 2 ^ n) by (rewrite <- Z.pow_add_r by lia; f_equal; lia).
  apply Z.mul_mod_distr_r; [|]; apply Z.pow_nonzero; lia.
Qed.

Lemma ror32_sum v n :
  0 <= v < 2 ^ 32 -> 0 < n < 32 -> ror32 v n = (v mod 2 ^ n) * 2 ^ (32 - n) + v / 2 ^ n.
Proof.
  intros Hv Hn. unfold ror32. rewrite shifted_u32, Z.lor_comm, Z.shiftr_div_pow2 by lia.
  replace (32 - (32 - n)) with n by lia. apply lor_shiftl; [lia|]. split.
  - apply Z.div_pos; lia.
  - apply Z.div_lt_upper_bound; [lia|]. rewrite <- Z.pow_add_r by lia. replace (n + (32 - n)) with 32 by lia; lia.
Qed.

Lemma rol32_sum v n :
  0 <= v < 2 ^ 32 -> 0 < n < 32 -> rol32 v n = (v mod 2 ^ (32 - n)) * 2 ^ n + v / 2 ^ (32 - n).
Proof.
  intros Hv Hn. replace (rol32 v n) with (ror32 v (32 - n)).
  - rewrite ror32_sum by lia. by replace (32 - (32 - n)) with n by lia.
  - unfold ror32, rol32. rewrite Z.lor_comm. by replace (32 - (32 - n)) with n by lia.
Qed.

Lemma ror32_range v n : 0 <= v < 2 ^ 32 -> 0 < n < 32 -> 0 <= ror32 v n < 2 ^ 32.
Proof.
  intros Hv Hn. rewrite ror32_sum by done.
  pose proof (Z.mod_pos_bound v (2 ^ n) ltac:(lia)).
  assert (0 <= v / 2 ^ n < 2 ^ (32 - n)).
  { split; [apply Z.div_pos; lia|]. apply Z.div_lt_upper_bound; [lia|].
    rewrite <- Z.pow_add_r by lia. replace (n + (32 - n)) with 32 by lia; lia. }
  assert (2 ^ 32 = 2 ^ n * 2 ^ (32 - n))
    by (rewrite <- Z.pow_add_r by lia; f_equal; lia). nia.
Qed.

Lemma rol32_ror32 v n : 0 <= v < 2 ^ 32 -> 0 < n < 32 -> rol32 (ror32 v n) n = v.
Proof.
  intros Hv Hn. rewrite rol32_sum by (done || by apply ror32_range). rewrite ror32_sum by done.
  assert (Ha : 0 <= v / 2 ^ n < 2 ^ (32 - n)).
  { split; [apply Z.div_pos; lia|]. apply Z.div_lt_upper_bound; [lia|].
    rewrite <- Z.pow_add_r by lia. replace (n + (32 - n)) with 32 by lia; lia. }
  set (q := v / 2 ^ n) in *. set (r := v mod 2 ^ n). set (m := 2 ^ (32 - n)) in *.
  rewrite <- (Z.mod_unique (r * m + q) m r q), <- (Z.div_unique (r * m + q) m r q) by lia.
  subst q r. pose proof (Z.div_mod v (2 ^ n) ltac:(lia)). lia.
Qed.

Lemma octet_div v n : 0 <= n -> octet v n = zb (v / 2 ^ n).
Proof.
  intros Hn. unfold octet. rewrite Z.shiftr_div_pow2 by done. change 0xff with (Z.ones 8).
  rewrite Z.land_ones by lia. apply bz_inj. rewrite !bz_zb. apply Z.mod_mod. lia.
Qed.

Lemma word4_sum a b c d : word4 a b c d = bz a * 2 ^ 24 + (bz b * 2 ^ 16 + (bz c * 2 ^ 8 + bz d)).
Proof.
  unfold word4. rewrite <- !Z.lor_assoc. pose proof (bz_range b). pose proof (bz_range c).
  pose proof (bz_range d). rewrite (lor_shiftl (bz c)) by lia.
  rewrite (lor_shiftl (bz b)) by lia. rewrite lor_shiftl; lia.
Qed.

Lemma word4_range a b c d : 0 <= word4 a b c d < 2 ^ 32.
Proof.
  rewrite word4_sum. pose proof (bz_range a). pose proof (bz_range b). pose proof (bz_range c).
  pose proof (bz_range d). lia.
Qed.

Lemma le32_range p i : 0 <= le32 p i < 2 ^ 32.
Proof.
  unfold le32, zat. pose proof (bz_range (at_ p i)). pose proof (bz_range (at_ p (i + 1))).
  pose proof (bz_range (at_ p (i + 2))). pose proof (bz_range (at_ p (i + 3))). lia.
Qed.

Lemma word4_octets v :
  0 <= v < 2 ^ 32 -> word4 (octet v 24) (octet v 16) (octet v 8) (octet v 0) = v.
Proof.
  intros Hv. rewrite !octet_div by lia. rewrite Z.div_1_r || change (v / 2 ^ 0) with (v / 1).
  rewrite ?Z.div_1_r. transitivity (le32 (enc_le32 v) 0).
  - rewrite word4_sum. unfold le32, zat, at_, enc_le32. cbn -[zb Z.pow Z.div]. lia.
  - unfold enc_le32. rewrite le32_enc. by apply Z.mod_small.
Qed.

Lemma zb_add_mul a b : 0 <= b -> zb (256 * a + b) = zb b.
Proof. intros Hb. apply bz_inj. rewrite !bz_zb, Z.mul_comm, Z.add_comm, Z.mod_add; lia. Qed.

Lemma octets_word4 a b c d :
  octet (word4 a b c d) 24 = a /\ octet (word4 a b c d) 16 = b /\
  octet (word4 a b c d) 8 = c /\ octet (word4 a b c d) 0 = d.
Proof.
  rewrite !octet_div, word4_sum by lia. pose proof (bz_range a). pose proof (bz_range b).
  pose proof (bz_range c). pose proof (bz_range d).
  rewrite <- (zb_bz a) at 2. rewrite <- (zb_bz b) at 3. rewrite <- (zb_bz c) at 4.
  rewrite <- (zb_bz d) at 5. split_and!.
  - f_equal. symmetry. apply (Z.div_unique _ _ _ (bz b * 2 ^ 16 + (bz c * 2 ^ 8 + bz d))); lia.
  - rewrite <- (zb_add_mul (bz a) (bz b)) by lia. f_equal. symmetry.
    apply (Z.div_unique _ _ _ (bz c * 2 ^ 8 + bz d)); lia.
  - rewrite <- (zb_add_mul (256 * bz a + bz b) (bz c)) by lia. f_equal. symmetry.
    apply (Z.div_unique _ _ _ (bz d)); lia.
  - rewrite <- (zb_add_mul (65536 * bz a + 256 * bz b + bz c) (bz d)) by lia. f_equal. rewrite Z.div_1_r. lia.
Qed.

Lemma lxor_cancel a b : Z.lxor (Z.lxor a b) b = a.
Proof. by rewrite Z.lxor_assoc, Z.lxor_nilpotent, Z.lxor_0_r. Qed.

Lemma enc_le32_le32 p i :
  enc_le32 (le32 p i) = [at_ p i; at_ p (i + 1); at_ p (i + 2); at_ p (i + 3)].
Proof.
  assert (E : le32 p i = word4 (at_ p (i + 3)) (at_ p (i + 2)) (at_ p (i + 1)) (at_ p i))
    by (rewrite word4_sum; unfold le32, zat; lia).
  rewrite E. destruct (octets_word4 (at_ p (i + 3)) (at_ p (i + 2)) (at_ p (i + 1)) (at_ p i))
    as (H1 & H2 & H3 & H4). rewrite octet_div in H1, H2, H3, H4 by lia.
  rewrite Z.div_1_r in H4 || change (2 ^ 0) with 1 in H4. rewrite ?Z.div_1_r in H4.
  unfold enc_le32. by rewrite H1, H2, H3, H4.
Qed.

Lemma le32_words a b c d :
  0 <= a < 2 ^ 32 -> 0 <= b < 2 ^ 32 -> 0 <= c < 2 ^ 32 -> 0 <= d < 2 ^ 32 ->
  let l := enc_le32 a ++ enc_le32 b ++ enc_le32 c ++ enc_le32 d in
  le32 l 0 = a /\ le32 l 4 = b /\ le32 l 8 = c /\ le32 l 12 = d.
Proof.
  intros Ha Hb Hc Hd. cbv zeta. rewrite (le32_at _ 4), (le32_at _ 8), (le32_at _ 12).
  cbn [enc_le32 app drop]. rewrite !le32_enc. unfold u32. by rewrite !Z.mod_small.
Qed.

(** The keyed words of a block, and their octets. *)
Definition key_word (inp : list byte) (i : nat) : Z :=
  Z.lxor (ror32 (le32 inp (4 * i)) (rot i)) (le32 kTransKey (4 * i)).

Lemma rot_range i : (i < 4)%nat -> 0 < rot i < 32.
Proof. intros Hi. do 4 (destruct i as [|i]; [vm_compute; split; reflexivity|]). lia. Qed.

Lemma key_word_range inp i : (i < 4)%nat -> 0 <= key_word inp i < 2 ^ 32.
Proof.
  intros Hi. apply lxor_range; [lia | apply ror32_range; [apply le32_range | by apply rot_range] |].
  apply le32_range.
Qed.

Lemma unkey inp i :
  (i < 4)%nat -> rol32 (Z.lxor (key_word inp i) (le32 kTransKey (4 * i))) (rot i) = le32 inp (4 * i).
Proof.
  intros Hi. unfold key_word. rewrite lxor_cancel. apply rol32_ror32; [apply le32_range|].
  by apply rot_range.
Qed.

Lemma encode_block_words inp :
  let k := key_word inp in
  encode_block inp =
  enc_le32 (ror32 (word4 (octet (k 3%nat) 24) (octet (k 2%nat) 0) (octet (k 2%nat) 8) (octet (k 2%nat) 24)) 3) ++
  enc_le32 (ror32 (word4 (octet (k 3%nat) 16) (octet (k 3%nat) 0) (octet (k 2%nat) 16) (octet (k 3%nat) 8)) 7) ++
  enc_le32 (ror32 (word4 (octet (k 0%nat) 0) (octet (k 1%nat) 8) (octet (k 0%nat) 8) (octet (k 0%nat) 16)) 11) ++
  enc_le32 (ror32 (word4 (octet (k 0%nat) 24) (octet (k 1%nat) 24) (octet (k 1%nat) 0) (octet (k 1%nat) 16)) 15).
Proof. reflexivity. Qed.

Lemma block_le32 inp :
  length inp = 16%nat ->
  enc_le32 (le32 inp (4 * 0)) ++ enc_le32 (le32 inp (4 * 1)) ++ enc_le32 (le32 inp (4 * 2)) ++
  enc_le32 (le32 inp (4 * 3)) = inp.
Proof.
  intros Hl. rewrite !enc_le32_le32.
  do 16 (destruct inp as [|? inp]; [discriminate|]). by destruct inp.
Qed.

Lemma decode_encode_block inp :
  length inp = 16%nat -> decode_block (encode_block inp) = inp.
Proof.
  intros Hl. rewrite encode_block_words. cbv zeta. unfold decode_block.
  destruct (le32_words _ _ _ _
    (ror32_range (word4 (octet (key_word inp 3%nat) 24) (octet (key_word inp 2%nat) 0)
       (octet (key_word inp 2%nat) 8) (octet (key_word inp 2%nat) 24)) 3 (word4_range _ _ _ _) ltac:(lia))
    (ror32_range (word4 (octet (key_word inp 3%nat) 16) (octet (key_word inp 3%nat) 0)
       (octet (key_word inp 2%nat) 16) (octet (key_word inp 3%nat) 8)) 7 (word4_range _ _ _ _) ltac:(lia))
    (ror32_range (word4 (octet (key_word inp 0%nat) 0) (octet (key_word inp 1%nat) 8)
       (octet (key_word inp 0%nat) 8) (octet (key_word inp 0%nat) 16)) 11 (word4_range _ _ _ _) ltac:(lia))
    (ror32_range (word4 (octet (key_word inp 0%nat) 24) (octet (key_word inp 1%nat) 24)
       (octet (key_word inp 1%nat) 0) (octet (key_word inp 1%nat) 16)) 15 (word4_range _ _ _ _) ltac:(lia)))
    as (-> & -> & -> & ->).
  rewrite !rol32_ror32 by (apply word4_range || lia).
  repeat match goal with |- context [octet (word4 ?a ?b ?c ?d) 24] =>
    destruct (octets_word4 a b c d) as (-> & -> & -> & ->) end.
  cbv zeta. unfold at_. cbn [lookup_total list_lookup_total Nat.mul Nat.add].
  rewrite !word4_octets by by apply key_word_range; lia.
  rewrite !(unkey inp) by lia. by apply block_le32.
Qed.

Lemma length_encode_block inp : length (encode_block inp) = 16%nat.
Proof. done. Qed.

Lemma key_byte_twice i b : key_byte i (key_byte i b) = b.
Proof.
  unfold key_byte. assert (Hk : 0 <= key_at i < 256) by apply bz_range.
  assert (Hx : 0 <= Z.lxor (bz b) (key_at i) < 2 ^ 8) by (apply lxor_range; [lia | apply bz_range | lia]).
  rewrite bz_zb_small by lia. by rewrite lxor_cancel, zb_bz.
Qed.

Lemma length_encode_tail d : length (encode_tail d) = length d.
Proof.
  unfold encode_tail. destruct (Nat.eqb_spec (length d) 8) as [->|]; [done|]. apply length_imap.
Qed.

Lemma decode_encode_tail d : decode_tail (encode_tail d) = d.
Proof.
  unfold decode_tail. rewrite length_encode_tail. unfold encode_tail.
  destruct (Nat.eqb_spec (length d) 8) as [Hl|].
  - do 8 (destruct d as [|? d]; [discriminate|]). destruct d; [|discriminate].
    cbn -[key_byte]. unfold at_. cbn -[key_byte]. by rewrite !key_byte_twice.
  - apply list_eq. intros i. rewrite !list_lookup_imap. destruct (d !! i) as [b|]; [|done].
    simpl. by rewrite key_byte_twice.
Qed.

Lemma length_decode_tail d : length (decode_tail d) = length d.
Proof.
  unfold decode_tail. destruct (Nat.eqb_spec (length d) 8) as [->|]; [done|]. apply length_imap.
Qed.

Lemma length_blocks block tail n d :
  (forall b, length (block b) = 16%nat) -> (forall t, length (tail t) = length t) ->
  (16 * n <= length d)%nat -> length (blocks block tail n d) = length d.
Proof.
  intros Hb Ht. revert d. induction n as [|n IH]; intros d Hd; cbn [blocks]; [apply Ht|].
  rewrite length_app, Hb, IH, length_drop by (rewrite length_drop; lia). lia.
Qed.

Lemma decode_encode_blocks n d :
  (16 * n <= length d)%nat ->
  blocks decode_block decode_tail n (blocks encode_block encode_tail n d) = d.
Proof.
  revert d. induction n as [|n IH]; intros d Hd; cbn [blocks]; [apply decode_encode_tail|].
  rewrite take_app_length', drop_app_length' by done.
  rewrite decode_encode_block by (rewrite length_take; lia).
  rewrite IH by (rewrite length_drop; lia). apply take_drop.
Qed.

Lemma full_blocks {A} (d : list A) : (16 * (length d / 16) <= length d)%nat.
Proof. apply Nat.Div0.mul_div_le. Qed.

Lemma length_trans_code d : length (trans_code_partial d) = length d.
Proof. apply length_blocks; [apply length_encode_block | apply length_encode_tail | apply full_blocks]. Qed.

Lemma length_reverse_trans_code d : length (reverse_trans_code_partial d) = length d.
Proof. apply length_blocks; [done | apply length_decode_tail | apply full_blocks]. Qed.

Lemma reverse_trans_code d : reverse_trans_code_partial (trans_code_partial d) = d.
Proof.
  unfold reverse_trans_code_partial. rewrite length_trans_code.
  apply decode_encode_blocks, full_blocks.
Qed.

Lemma trans_code_block d :
  (16 <= length d)%nat -> trans_code_partial d = encode_block (take 16 d) ++ trans_code_partial (drop 16 d).
Proof.
  intros Hd. unfold trans_code_partial. rewrite length_drop.
  replace (length d) with (length d - 16 + 1 * 16)%nat at 1 by lia.
  rewrite Nat.div_add, Nat.add_1_r by lia. done.
Qed.

(** What goes out: control datagrams are scrambled whole, datagrams that carry
    DTLS in their first 64 bytes. *)
Definition scramble_tx (p : list byte) : list byte :=
  if zat p 3 =? 0x0b
  then trans_code_partial (take kDataScrambleLen p) ++ drop kDataScrambleLen p
  else trans_code_partial p.

Lemma reverse_block b : length b = 16%nat -> reverse_trans_code_partial (encode_block b) = b.
Proof.
  intros Hb. unfold reverse_trans_code_partial. rewrite length_encode_block.
  change (16 / 16)%nat with 1%nat. cbn [blocks].
  rewrite take_ge, drop_ge by (rewrite length_encode_block; done).
  rewrite decode_encode_block by done. apply app_nil_r.
Qed.

Lemma zat_take p i n : (i < n)%nat -> zat (take n p) i = zat p i.
Proof.
  intros Hi. unfold zat, at_. by rewrite !list_lookup_total_alt, lookup_take_lt.
Qed.

Lemma zat_app_l p q i : (i < length p)%nat -> zat (p ++ q) i = zat p i.
Proof. intros Hi. unfold zat, at_. by rewrite lookup_total_app_l. Qed.

(** Descrambling the first block and then [m] more bytes of a datagram of
    which the first [16 + m] are scrambled. *)
Lemma descramble_split p m :
  length p = (16 + m)%nat -> forall rest,
  let s := trans_code_partial p ++ rest in
  let d := reverse_trans_code_partial (take 16 s) ++ drop 16 s in
  take 16 d = take 16 p /\ sub 16 m d = trans_code_partial (drop 16 p) /\ drop (16 + m) d = rest.
Proof.
  intros Hp rest. cbv zeta. rewrite trans_code_block by lia. rewrite <- app_assoc.
  rewrite (take_app_length' (encode_block (take 16 p))), (drop_app_length' (encode_block (take 16 p)))
    by done.
  rewrite reverse_block by (rewrite length_take; lia).
  assert (Hb : length (take 16 p) = 16%nat) by (rewrite length_take; lia).
  assert (Hm : length (trans_code_partial (drop 16 p)) = m)
    by (rewrite length_trans_code, length_drop; lia).
  split_and!.
  - by apply take_app_length'.
  - unfold sub. rewrite drop_app_length' by done. by apply take_app_length'.
  - rewrite <- drop_drop, (drop_app_length' (take 16 p)) by done. by apply drop_app_length'.
Qed.

Lemma descramble_scramble d : descramble_rx (scramble_tx d) = d.
Proof.
  destruct (decide (length d < 16)%nat) as [Hs|Hs].
  { unfold descramble_rx, scramble_tx. destruct (_ =? _).
    - rewrite take_ge, drop_ge, app_nil_r, length_trans_code by (unfold kDataScrambleLen; lia).
      rewrite (proj2 (Nat.ltb_lt _ _)) by done. apply reverse_trans_code.
    - rewrite length_trans_code, (proj2 (Nat.ltb_lt _ _)) by done. apply reverse_trans_code. }
  set (e := if zat d 3 =? 0x0b then Nat.min (length d) kDataScrambleLen else length d).
  assert (He : (16 <= e <= length d)%nat) by (unfold e, kDataScrambleLen; destruct (_ =? _); lia).
  assert (Hs' : scramble_tx d = trans_code_partial (take e d) ++ drop e d).
  { unfold scramble_tx, e. destruct (_ =? _).
    - destruct (decide (length d <= kDataScrambleLen)%nat).
      + rewrite Nat.min_l by lia. by rewrite !take_ge, !drop_ge by lia.
      + by rewrite Nat.min_r by lia.
    - by rewrite take_ge, drop_ge, app_nil_r by lia. }
  rewrite Hs'. set (p := take e d). assert (Hp : length p = (16 + (e - 16))%nat)
    by (unfold p; rewrite length_take; lia).
  destruct (descramble_split p (e - 16) Hp (drop e d)) as (H1 & H2 & H3). cbv zeta in *.
  unfold descramble_rx. rewrite length_app, length_trans_code, Hp, length_drop.
  rewrite (proj2 (Nat.ltb_ge _ _)) by lia. set (d' := reverse_trans_code_partial _ ++ _) in *.
  assert (Hz : zat d' 3 = zat d 3).
  { rewrite <- (zat_take d' 3 16), H1, zat_take by lia. unfold p. apply zat_take. lia. }
  assert (Hlen : length d' = length d).
  { rewrite <- (take_drop (16 + (e - 16)) d'), length_app, H3, length_drop.
    assert (Ht : length (take 16 d') = 16%nat) by (rewrite H1, length_take; lia).
    assert (Hs2 : length (sub 16 (e - 16) d') = (e - 16)%nat)
      by (rewrite H2, length_trans_code, length_drop; lia).
    unfold sub in Hs2. rewrite length_take, length_drop in Hs2. rewrite length_take in Ht |- *. lia. }
  cbv zeta. rewrite Hz, Hlen. fold e. replace (16 + (e - 16))%nat with e in H3 by lia.
  rewrite H1, H2, H3, reverse_trans_code, app_assoc, take_drop. apply take_drop.
Qed.

Lemma length_scramble_tx p : length (scramble_tx p) = length p.
Proof.
  unfold scramble_tx. destruct (_ =? _); [|apply length_trans_code].
  rewrite length_app, length_trans_code, length_take, length_drop. lia.
Qed.

(** TransCodePartial is undone on the receiving side: decoding an encoded
    buffer of any length gives it back, and the receiver, which finds the kind
    of a datagram in its first descrambled block, restores every datagram that
    was scrambled whole (control) or in its first 64 bytes (DTLS). *)
Lemma trans_code_roundtrip d :
  reverse_trans_code_partial (trans_code_partial d) = d /\ descramble_rx (scramble_tx d) = d.
Proof. split; [apply reverse_trans_code | apply descramble_scramble]. Qed.
