(* ===== verification/DtlsRecord.v ===== *)
(** The DTLS 1.2 record layer of the camera client
    ([src/camera/tutk/IotcClient.cpp], lines 579-878): the TLS 1.2 PRF, record
    headers and nonces, AES-CBC with encrypt-then-MAC and ChaCha20-Poly1305
    records. OpenSSL's primitives are parameters. *)

From S2P Require Import Prelude TransCode.

Definition enc_be16 (v : Z) : list byte := [zb (Z.shiftr v 8); zb v].
Definition enc_be48 (v : Z) : list byte :=
  (fun i => zb (Z.shiftr v (40 - 8 * i))) <$> [0; 1; 2; 3; 4; 5].
Definition enc_be24 (v : Z) : list byte := [zb (Z.shiftr v 16); zb (Z.shiftr v 8); zb v].

Definition read_be48 (p : list byte) (i : nat) : Z :=
  foldl (fun acc j => Z.lor (Z.shiftl acc 8) (zat p (i + j))) 0 (seq 0 6).

Record DtlsSession := {
  client_random : list byte; server_random : list byte; master_secret : list byte;
  client_write_key : list byte; server_write_key : list byte;
  client_write_iv : list byte; server_write_iv : list byte;
  client_write_mac_key : list byte; server_write_mac_key : list byte;
  cipher_suite : Z; use_ems : bool; use_etm : bool; epoch : Z; tx_seq : Z; rx_seq : Z;
  handshake_complete : bool; d_relay_tag : Z; pkt_seq : Z
}.

Definition set_tx_seq (v : Z) (ds : DtlsSession) : DtlsSession :=
  {| client_random := client_random ds; server_random := server_random ds;
     master_secret := master_secret ds; client_write_key := client_write_key ds;
     server_write_key := server_write_key ds; client_write_iv := client_write_iv ds;
     server_write_iv := server_write_iv ds; client_write_mac_key := client_write_mac_key ds;
     server_write_mac_key := server_write_mac_key ds; cipher_suite := cipher_suite ds;
     use_ems := use_ems ds; use_etm := use_etm ds; epoch := epoch ds; tx_seq := v;
     rx_seq := rx_seq ds; handshake_complete := handshake_complete ds;
     d_relay_tag := d_relay_tag ds; pkt_seq := pkt_seq ds |}.

(** [iv XOR (0000 || epoch || seq)]. *)
Definition build_relay_nonce (iv : list byte) (ep seq : Z) : list byte :=
  zip_with bxor (take 12 iv) (replicate 4 x00 ++ enc_be16 ep ++ enc_be48 seq).

Definition build_dtls_record_hdr (content_type ep seq len : Z) : list byte :=
  [zb content_type; zb 0xfe; zb 0xfd] ++ enc_be16 ep ++ enc_be48 seq ++ enc_be16 len.

Definition build_dtls_hs_hdr (hs_type body_len msg_seq : Z) : list byte :=
  [zb hs_type] ++ enc_be24 body_len ++ enc_be16 msg_seq ++ [x00; x00; x00] ++ enc_be24 body_len.

Definition kMaxRecordPlaintext : Z := 16384.

Definition build_additional_data (content_type ep seq len : Z) : list byte :=
  enc_be16 ep ++ enc_be48 seq ++ [zb content_type; zb 0xfe; zb 0xfd] ++ enc_be16 len.

(** ** The PRF *)

Section prf.
Context (hmac : list byte -> list byte -> list byte) (md_len : nat).

(** The loop that fills the [rem] bytes still missing. *)
Fixpoint prf_loop (fuel rem : nat) (secret label_seed a : list byte) : list byte :=
  match fuel with
  | O => []
  | S fuel =>
      if (rem =? 0)%nat then []
      else
        let block := hmac secret (a ++ label_seed) in
        let copy := Nat.min md_len rem in
        take copy block ++ prf_loop fuel (rem - copy) secret label_seed (hmac secret a)
  end.

Definition tls12_prf_generic (secret label seed : list byte) (out_len : nat) : list byte :=
  let label_seed := label ++ seed in
  prf_loop out_len out_len secret label_seed (hmac secret label_seed).
End prf.

(** ** Records *)

(** OpenSSL's primitives as the client calls them. [cbc_*]: key, IV, data;
    [aead_*]: key, nonce, associated data, data (the ciphertext with its
    16-byte tag at the end). [None] is a failed call. *)
Class Crypto := {
  sha256 : list byte -> list byte;
  sha384 : list byte -> list byte;
  hmac256 : list byte -> list byte -> list byte;
  hmac384 : list byte -> list byte -> list byte;
  cbc_encrypt : list byte -> list byte -> list byte -> option (list byte);
  cbc_decrypt : list byte -> list byte -> list byte -> option (list byte);
  aead_encrypt : list byte -> list byte -> list byte -> list byte -> option (list byte);
  aead_decrypt : list byte -> list byte -> list byte -> list byte -> option (list byte);
}.

(** What the record layer relies on: lengths, and decryption undoing
    encryption. *)
Class CryptoLaws `{Crypto} : Prop := {
  hmac256_length k d : length (hmac256 k d) = 32%nat;
  hmac384_length k d : length (hmac384 k d) = 48%nat;
  cbc_inverse k iv p :
    length iv = 16%nat -> (length p mod 16 = 0)%nat ->
    exists c, cbc_encrypt k iv p = Some c /\ length c = length p /\ cbc_decrypt k iv c = Some p;
  aead_inverse k n ad p :
    exists c, aead_encrypt k n ad p = Some c /\ length c = (length p + 16)%nat /\
              aead_decrypt k n ad c = Some p;
  aead_length k n ad c p : aead_decrypt k n ad c = Some p -> length c = (length p + 16)%nat;
}.

Section records.
Context `{Crypto}.

Definition etm_mac (mac_key ad fragment : list byte) : list byte := hmac384 mac_key (ad ++ fragment).

(** [iv] is what [RAND_bytes] gives, [None] when it fails. *)
Definition encrypt_record_cbc_etm (key mac_key : list byte) (content_type ep seq : Z)
    (plain : list byte) (iv : option (list byte)) : option (list byte) :=
  let pad_len := (16 - length plain mod 16)%nat in
  match iv with
  | None => None
  | Some iv =>
      let padded := plain ++ replicate pad_len (zb (Z.of_nat pad_len - 1)) in
      match cbc_encrypt key iv padded with
      | None => None
      | Some ct =>
          if negb (length ct =? length padded)%nat then None
          else
            let fragment := iv ++ ct in
            let len := u16 (Z.of_nat (length fragment)) in
            let mac := etm_mac mac_key (build_additional_data content_type ep seq len) fragment in
            Some (build_dtls_record_hdr content_type ep seq
                    (u16 (Z.of_nat (length fragment) + 48)) ++ fragment ++ mac)
      end
  end.

(** The padding at the end of a decrypted fragment. *)
Definition strip_padding (d : list byte) : option (list byte) :=
  match last d with
  | None => None
  | Some pad_val =>
      let pad_count := S (Z.to_nat (bz pad_val)) in
      if (length d <? pad_count)%nat then None
      else if forallb (beq pad_val) (drop (length d - pad_count) d)
           then Some (take (length d - pad_count) d) else None
  end.

(** [rec_hdr] is the record; [payload] what follows its 13-byte header. *)
Definition decrypt_record_cbc_etm (key mac_key rec_hdr payload : list byte) (plain_max : nat)
    : option (list byte) :=
  let ep := read_be16 rec_hdr 3 in
  let seq := read_be48 rec_hdr 5 in
  let wire_len := Z.to_nat (read_be16 rec_hdr 11) in
  if (length payload <? wire_len)%nat || (wire_len <? 16 + 16 + 48)%nat then None
  else
    let frag_len := (wire_len - 48)%nat in
    let cipher_len := (frag_len - 16)%nat in
    if negb (cipher_len mod 16 =? 0)%nat then None
    else
      let ad := build_additional_data (zat rec_hdr 0) ep seq (Z.of_nat frag_len) in
      let mac := etm_mac mac_key ad (take frag_len payload) in
      if negb (bool_decide (mac = sub frag_len 48 payload)) then None
      else
        match cbc_decrypt key (take 16 payload) (sub 16 cipher_len payload) with
        | None => None
        | Some decrypted =>
            if negb (length decrypted =? cipher_len)%nat then None
            else
              match strip_padding decrypted with
              | None => None
              | Some plain => if (plain_max <? length plain)%nat then None else Some plain
              end
        end.

(** [aead_encrypt] gives the ciphertext and the 16-byte tag after it. *)
Definition aead_seal (ds : DtlsSession) (content_type : Z) (plain : list byte) : option (list byte) :=
  let ep := u16 (epoch ds) in
  let nonce := build_relay_nonce (client_write_iv ds) ep (tx_seq ds) in
  let ad := build_additional_data content_type ep (tx_seq ds) (u16 (Z.of_nat (length plain))) in
  match aead_encrypt (client_write_key ds) nonce ad plain with
  | None => None
  | Some sealed =>
      Some (build_dtls_record_hdr content_type ep (tx_seq ds)
              (u16 (Z.of_nat (length plain + 16))) ++ sealed)
  end.

Definition aead_open (ds : DtlsSession) (rec_hdr payload : list byte) (plain_max : nat)
    : option (list byte) :=
  let ep := read_be16 rec_hdr 3 in
  let seq := read_be48 rec_hdr 5 in
  let sealed_len := Z.to_nat (read_be16 rec_hdr 11) in
  if (length payload <? sealed_len)%nat || (sealed_len <? 16)%nat then None
  else
    let plain_len := (sealed_len - 16)%nat in
    if (plain_max <? plain_len)%nat then None
    else
      let nonce := build_relay_nonce (server_write_iv ds) ep seq in
      let ad := build_additional_data (zat rec_hdr 0) ep seq (Z.of_nat plain_len) in
      aead_decrypt (server_write_key ds) nonce ad (take sealed_len payload).

Definition dtls_encrypt_record (ds : DtlsSession) (content_type : Z) (plain : list byte)
    (iv : option (list byte)) : option (list byte) * DtlsSession :=
  if kMaxRecordPlaintext <? Z.of_nat (length plain) then (None, ds)
  else
    match (if cipher_suite ds =? 0xC038
           then encrypt_record_cbc_etm (client_write_key ds) (client_write_mac_key ds) content_type
                  (u16 (epoch ds)) (tx_seq ds) plain iv
           else aead_seal ds content_type plain) with
    | Some rec => (Some rec, set_tx_seq (u64 (tx_seq ds + 1)) ds)
    | None => (None, ds)
    end.

Definition dtls_decrypt_record (ds : DtlsSession) (rec : list byte) (plain_max : nat)
    : option (list byte) :=
  if (length rec <? 13)%nat then None
  else if cipher_suite ds =? 0xC038
       then decrypt_record_cbc_etm (server_write_key ds) (server_write_mac_key ds) rec (drop 13 rec)
              plain_max
       else aead_open ds rec (drop 13 rec) plain_max.
End records.

(** ** Fields *)

Lemma shift_byte acc b : Z.lor (Z.shiftl acc 8) (bz b) = acc * 256 + bz b.
Proof. pose proof (bz_range b). by rewrite lor_shiftl by lia. Qed.

Lemma read_be16_sum p i : read_be16 p i = zat p i * 256 + zat p (i + 1).
Proof. apply shift_byte. Qed.

Lemma read_be48_sum p i :
  read_be48 p i =
  ((((zat p i * 256 + zat p (i + 1)) * 256 + zat p (i + 2)) * 256 + zat p (i + 3)) * 256
   + zat p (i + 4)) * 256 + zat p (i + 5).
Proof.
  unfold read_be48. cbn [seq foldl]. unfold zat. rewrite !shift_byte, Nat.add_0_r. lia.
Qed.

Lemma read_be16_at p i : read_be16 p i = read_be16 (drop i p) 0.
Proof. rewrite !read_be16_sum. unfold zat. by rewrite !at_drop, Nat.add_0_r. Qed.

Lemma read_be48_at p i : read_be48 p i = read_be48 (drop i p) 0.
Proof. rewrite !read_be48_sum. unfold zat. by rewrite !at_drop, Nat.add_0_r. Qed.

Lemma read_be16_enc v r : read_be16 (enc_be16 v ++ r) 0 = u16 v.
Proof.
  rewrite read_be16_sum. unfold zat, at_, enc_be16. cbn -[zb Z.shiftr Z.mul Z.add].
  rewrite !bz_zb, Z.shiftr_div_pow2 by lia. unfold u16. change (2 ^ 16) with (256 * 256).
  rewrite (Z.rem_mul_r v 256 256) by lia. change (2 ^ 8) with 256. lia.
Qed.

Lemma base256 v : v = 256 * (v / 256) + v mod 256.
Proof. apply Z.div_mod. lia. Qed.

Lemma read_be48_enc v r : 0 <= v < 2 ^ 48 -> read_be48 (enc_be48 v ++ r) 0 = v.
Proof.
  intros Hv. rewrite read_be48_sum. unfold zat, at_, enc_be48.
  cbn -[zb Z.shiftr Z.mul Z.add Z.sub]. rewrite !bz_zb, !Z.shiftr_div_pow2 by lia.
  change (2 ^ (40 - 8 * 0)) with (256 * (256 * (256 * (256 * 256)))).
  change (2 ^ (40 - 8 * 1)) with (256 * (256 * (256 * 256))).
  change (2 ^ (40 - 8 * 2)) with (256 * (256 * 256)). change (2 ^ (40 - 8 * 3)) with (256 * 256).
  change (2 ^ (40 - 8 * 4)) with 256. change (2 ^ (40 - 8 * 5)) with 1.
  rewrite <- !(Z.div_div _ 256) by lia. rewrite Z.div_1_r.
  set (q1 := v / 256). set (q2 := q1 / 256). set (q3 := q2 / 256). set (q4 := q3 / 256).
  assert (v = 256 * q1 + v mod 256) by apply base256.
  assert (q1 = 256 * q2 + q1 mod 256) by apply base256.
  assert (q2 = 256 * q3 + q2 mod 256) by apply base256.
  assert (q3 = 256 * q4 + q3 mod 256) by apply base256.
  assert (q4 = 256 * (q4 / 256) + q4 mod 256) by apply base256.
  assert (0 <= q4 / 256 < 256).
  { unfold q4, q3, q2, q1. rewrite !Z.div_div by lia. split; [apply Z.div_pos; lia|].
    apply Z.div_lt_upper_bound; lia. }
  rewrite (Z.mod_small (q4 / 256)) by lia. lia.
Qed.

Lemma record_hdr_fields ct ep seq len r :
  0 <= seq < 2 ^ 48 ->
  let rec := build_dtls_record_hdr ct ep seq len ++ r in
  zat rec 0 = u8 ct /\ read_be16 rec 3 = u16 ep /\ read_be48 rec 5 = seq /\
  read_be16 rec 11 = u16 len /\ drop 13 rec = r.
Proof.
  intros Hs. cbv zeta. unfold build_dtls_record_hdr. rewrite <- !app_assoc.
  rewrite (read_be16_at _ 3), (read_be48_at _ 5), (read_be16_at _ 11).
  split_and!.
  - unfold zat, at_. cbn -[zb]. apply bz_zb.
  - change (drop 3 _) with (enc_be16 ep ++ enc_be48 seq ++ enc_be16 len ++ r). apply read_be16_enc.
  - change (drop 5 _) with (enc_be48 seq ++ enc_be16 len ++ r). by apply read_be48_enc.
  - change (drop 11 _) with (enc_be16 len ++ r). apply read_be16_enc.
  - reflexivity.
Qed.

Lemma length_record_hdr ct ep seq len : length (build_dtls_record_hdr ct ep seq len) = 13%nat.
Proof. done. Qed.

(** ** Records open again *)

Lemma strip_padded plain n :
  (1 <= n <= 256)%nat ->
  strip_padding (plain ++ replicate n (zb (Z.of_nat n - 1))) = Some plain.
Proof.
  intros Hn. set (b := zb (Z.of_nat n - 1)).
  assert (Hb : S (Z.to_nat (bz b)) = n) by (unfold b; rewrite bz_zb_small by lia; lia).
  unfold strip_padding. rewrite last_app. replace (last (replicate n b)) with (Some b).
  2: { destruct n as [|n]; [lia|]. clearbody b. clear. induction n as [|n IH]; [done|]. simpl in *. exact IH. }
  rewrite Hb, length_app, length_replicate, (proj2 (Nat.ltb_ge _ _)) by lia.
  replace (length plain + n - n)%nat with (length plain) by lia.
  rewrite drop_app_length, take_app_length.
  replace (forallb (beq b) (replicate n b)) with true; [done|].
  symmetry. apply forallb_forall. intros x Hx. apply list_elem_of_In, elem_of_replicate in Hx as [-> _].
  apply beq_refl.
Qed.

Section opens.
Context `{CryptoLaws}.

Lemma additional_data_ext ct ep seq len len' :
  len = len' -> build_additional_data ct ep seq len = build_additional_data ct ep seq len'.
Proof. by intros ->. Qed.

Lemma cbc_record_opens key mac_key ct ep seq plain iv rest plain_max :
  0 <= ct < 256 -> 0 <= ep < 2 ^ 16 -> 0 <= seq < 2 ^ 48 -> length iv = 16%nat ->
  Z.of_nat (length plain) <= kMaxRecordPlaintext -> (length plain <= plain_max)%nat ->
  exists payload, let rec := build_dtls_record_hdr ct ep seq (zlen payload) ++ payload in
    encrypt_record_cbc_etm key mac_key ct ep seq plain (Some iv) = Some rec /\
    zlen payload <= zlen plain + 80 /\
    decrypt_record_cbc_etm key mac_key (rec ++ rest) (drop 13 (rec ++ rest)) plain_max = Some plain.
Proof.
  intros Hct Hep Hseq Hiv Hlen Hmax. unfold encrypt_record_cbc_etm, kMaxRecordPlaintext in *. cbv zeta.
  set (n := (16 - length plain mod 16)%nat). assert (Hn : (1 <= n <= 16)%nat)
    by (unfold n; pose proof (Nat.mod_upper_bound (length plain) 16 ltac:(lia)); lia).
  set (padded := plain ++ _). assert (Hp : length padded = (length plain + n)%nat)
    by (unfold padded; by rewrite length_app, length_replicate).
  assert (Hp16 : (length padded mod 16 = 0)%nat).
  { rewrite Hp. unfold n. pose proof (Nat.div_mod_eq (length plain) 16).
    pose proof (Nat.mod_upper_bound (length plain) 16 ltac:(lia)).
    replace (length plain + (16 - length plain mod 16))%nat with ((length plain / 16 + 1) * 16)%nat by lia.
    apply Nat.Div0.mod_mul. }
  assert (16 <= length padded)%nat
    by (pose proof (Nat.div_mod_eq (length padded) 16); lia).
  destruct (cbc_inverse key iv padded Hiv Hp16) as (c & -> & Hc & Hd).
  rewrite Hc, Nat.eqb_refl. cbn [negb]. set (frag := iv ++ c).
  assert (Hf : length frag = (16 + length padded)%nat) by (unfold frag; rewrite length_app; lia).
  set (mac := etm_mac _ _ _). assert (Hm : length mac = 48%nat) by apply hmac384_length.
  exists (frag ++ mac). assert (Hz : zlen (frag ++ mac) = Z.of_nat (length frag) + 48)
    by (unfold zlen; rewrite length_app; lia).
  cbv zeta. rewrite Hz. split; [by rewrite u16_small by lia|]. split; [unfold zlen; lia|].
  rewrite <- !app_assoc.
  destruct (record_hdr_fields ct ep seq (Z.of_nat (length frag) + 48) (frag ++ mac ++ rest) Hseq)
    as (F1 & F2 & F3 & F4 & F5). cbv zeta in *.
  unfold decrypt_record_cbc_etm. rewrite F1, F2, F3, F4, F5, u8_small by lia.
  rewrite (u16_small (Z.of_nat (length frag) + 48)), (u16_small ep) by lia. cbv zeta.
  replace (Z.to_nat (Z.of_nat (length frag) + 48)) with (length frag + 48)%nat by lia.
  rewrite !length_app. do 2 rewrite (proj2 (Nat.ltb_ge _ _)) by lia. cbn [orb].
  rewrite Nat.add_sub. replace (length frag - 16)%nat with (length padded) by lia.
  rewrite Hp16, Nat.eqb_refl. cbn [negb]. rewrite take_app_length.
  rewrite (sub_app_r frag), Nat.sub_diag, sub_app_head by lia.
  replace (etm_mac mac_key _ frag) with mac by (unfold mac; do 2 f_equal; apply u16_small; lia).
  rewrite bool_decide_eq_true_2 by done. cbn [negb].
  unfold frag. rewrite <- !app_assoc, take_app_length', (sub_app_r iv) by lia.
  rewrite Hiv, Nat.sub_diag, <- Hc, sub_app_head, Hd, Hc, Nat.eqb_refl by done. cbn [negb].
  unfold padded. rewrite strip_padded by lia. by rewrite (proj2 (Nat.ltb_ge _ _)) by lia.
Qed.

Lemma aead_record_opens ds peer ct plain rest plain_max :
  0 <= ct < 256 -> 0 <= epoch ds < 2 ^ 16 -> 0 <= tx_seq ds < 2 ^ 48 ->
  server_write_key peer = client_write_key ds ->
  take 12 (server_write_iv peer) = take 12 (client_write_iv ds) ->
  Z.of_nat (length plain) <= kMaxRecordPlaintext -> (length plain <= plain_max)%nat ->
  exists payload, let rec := build_dtls_record_hdr ct (epoch ds) (tx_seq ds) (zlen payload) ++ payload in
    aead_seal ds ct plain = Some rec /\ zlen payload <= zlen plain + 80 /\
    aead_open peer (rec ++ rest) (drop 13 (rec ++ rest)) plain_max = Some plain.
Proof.
  intros Hct Hep Hseq Hk Hiv Hlen Hmax. unfold aead_seal, kMaxRecordPlaintext in *. cbv zeta.
  rewrite (u16_small (epoch ds)), (u16_small (Z.of_nat (length plain))),
    (u16_small (Z.of_nat (length plain + 16))) by lia.
  destruct (aead_inverse (client_write_key ds) (build_relay_nonce (client_write_iv ds) (epoch ds) (tx_seq ds))
    (build_additional_data ct (epoch ds) (tx_seq ds) (Z.of_nat (length plain))) plain)
    as (c & -> & Hc & Hd).
  exists c. cbv zeta. assert (Hz : zlen c = Z.of_nat (length plain + 16)) by (unfold zlen; lia).
  rewrite Hz. split; [done|]. split; [unfold zlen; lia|]. rewrite <- app_assoc.
  destruct (record_hdr_fields ct (epoch ds) (tx_seq ds) (Z.of_nat (length plain + 16)) (c ++ rest) Hseq)
    as (F1 & F2 & F3 & F4 & F5). cbv zeta in *.
  unfold aead_open. rewrite F1, F2, F3, F4, F5, u8_small, !u16_small by lia. cbv zeta.
  rewrite Nat2Z.id, length_app. do 2 rewrite (proj2 (Nat.ltb_ge _ _)) by lia. cbn [orb].
  rewrite Nat.add_sub, (proj2 (Nat.ltb_ge _ _)) by lia. rewrite take_app_length' by lia.
  rewrite Hk. unfold build_relay_nonce in *. rewrite Hiv. exact Hd.
Qed.

(** The receiving side holds the sender's keys. *)
Definition keys_agree (ds peer : DtlsSession) : Prop :=
  cipher_suite peer = cipher_suite ds /\ server_write_key peer = client_write_key ds /\
  server_write_mac_key peer = client_write_mac_key ds /\
  take 12 (server_write_iv peer) = take 12 (client_write_iv ds).

Lemma same_payload {n} (h h' p p' : list byte) :
  length h = n -> length h' = n -> Some (h ++ p) = Some (h' ++ p') -> p = p'.
Proof. intros H1 H2 E. injection E as E. apply (app_inj_1 h h') in E as [_ E]; [done | lia]. Qed.

Lemma record_opens ds peer ct plain iv plain_max :
  keys_agree ds peer -> 0 <= ct < 256 -> 0 <= epoch ds < 2 ^ 16 -> 0 <= tx_seq ds < 2 ^ 48 ->
  length iv = 16%nat -> Z.of_nat (length plain) <= kMaxRecordPlaintext -> (length plain <= plain_max)%nat ->
  exists payload, let rec := build_dtls_record_hdr ct (epoch ds) (tx_seq ds) (zlen payload) ++ payload in
    dtls_encrypt_record ds ct plain (Some iv) = (Some rec, set_tx_seq (tx_seq ds + 1) ds) /\
    zlen payload <= zlen plain + 80 /\
    forall rest, dtls_decrypt_record peer (rec ++ rest) plain_max = Some plain.
Proof.
  intros (Hs & Hk & Hm & Hi) Hct Hep Hseq Hiv Hlen Hmax. unfold dtls_encrypt_record, dtls_decrypt_record.
  rewrite (proj2 (Z.ltb_ge _ _)) by lia. rewrite Hs, (u16_small (epoch ds)) by lia.
  rewrite (u64_small (tx_seq ds + 1)) by lia.
  destruct (cipher_suite ds =? 0xC038).
  - destruct (cbc_record_opens (client_write_key ds) (client_write_mac_key ds) ct (epoch ds) (tx_seq ds)
      plain iv [] plain_max) as (p & E & Hp & _); [done..|]. cbv zeta in *. exists p. rewrite E.
    split; [done|]. split; [done|]. intros rest.
    destruct (cbc_record_opens (client_write_key ds) (client_write_mac_key ds) ct (epoch ds) (tx_seq ds)
      plain iv rest plain_max) as (p' & E' & _ & Hd); [done..|]. cbv zeta in *.
    rewrite E in E'. apply (same_payload _ _ _ _ (length_record_hdr _ _ _ _) (length_record_hdr _ _ _ _)) in E'. subst p'.
    rewrite !length_app, length_record_hdr, (proj2 (Nat.ltb_ge _ _)) by lia. by rewrite Hk, Hm.
  - destruct (aead_record_opens ds peer ct plain [] plain_max) as (p & E & Hp & _); [done..|].
    cbv zeta in *. exists p. rewrite E. split; [done|]. split; [done|]. intros rest.
    destruct (aead_record_opens ds peer ct plain rest plain_max) as (p' & E' & _ & Hd); [done..|].
    cbv zeta in *. rewrite E in E'. apply (same_payload _ _ _ _ (length_record_hdr _ _ _ _) (length_record_hdr _ _ _ _)) in E'. subst p'.
    by rewrite !length_app, length_record_hdr, (proj2 (Nat.ltb_ge _ _)) by lia.
Qed.

(** A record the client encrypts (either cipher suite, any content up to
    the TLS limit) is opened by the side that holds its keys, even with more
    records behind it in the datagram, and the sequence number moves on. *)
Lemma record_roundtrip ds peer ct plain iv rest plain_max :
  keys_agree ds peer -> 0 <= ct < 256 -> 0 <= epoch ds < 2 ^ 16 -> 0 <= tx_seq ds < 2 ^ 48 ->
  length iv = 16%nat -> Z.of_nat (length plain) <= kMaxRecordPlaintext -> (length plain <= plain_max)%nat ->
  exists rec, dtls_encrypt_record ds ct plain (Some iv) = (Some rec, set_tx_seq (tx_seq ds + 1) ds) /\
    dtls_decrypt_record peer (rec ++ rest) plain_max = Some plain.
Proof.
  intros. destruct (record_opens ds peer ct plain iv plain_max) as (p & E & _ & Hd); [done..|].
  by eauto.
Qed.
End opens.

(** ** Nonces *)

Lemma bxor_inj_r a x y : bxor a x = bxor a y -> x = y.
Proof.
  unfold bxor. intros E. apply (f_equal bz) in E. rewrite !bz_zb in E. apply bz_inj.
  assert (Hr : forall u, 0 <= Z.lxor (bz a) (bz u) < 2 ^ 8)
    by (intros u; apply lxor_range; [lia | apply bz_range..]).
  rewrite !Z.mod_small in E by apply Hr.
  apply (f_equal (Z.lxor (bz a))) in E. by rewrite <- !Z.lxor_assoc, Z.lxor_nilpotent in E.
Qed.

Lemma zip_bxor_inj l x y :
  length x = length l -> length y = length l -> zip_with bxor l x = zip_with bxor l y -> x = y.
Proof.
  revert x y. induction l as [|a l IH]; intros [|b x] [|c y] Hx Hy E; try discriminate; [done|].
  cbn [zip_with] in E. injection E as E1%bxor_inj_r E2. subst. f_equal.
  apply IH; simpl in *; [lia | lia | done].
Qed.

Lemma nonce_inj iv ep ep' seq seq' :
  (12 <= length iv)%nat -> 0 <= ep < 2 ^ 16 -> 0 <= ep' < 2 ^ 16 ->
  0 <= seq < 2 ^ 48 -> 0 <= seq' < 2 ^ 48 ->
  build_relay_nonce iv ep seq = build_relay_nonce iv ep' seq' -> ep = ep' /\ seq = seq'.
Proof.
  intros Hl He He' Hs Hs' E. unfold build_relay_nonce in E. apply zip_bxor_inj in E.
  - apply (f_equal (drop 4)) in E. rewrite !drop_app_length' in E by done. split.
    + apply (f_equal (fun l => read_be16 l 0)) in E. rewrite !read_be16_enc in E.
      by rewrite !u16_small in E.
    + apply (f_equal (drop 2)) in E. rewrite !drop_app_length' in E by done.
      rewrite <- (app_nil_r (enc_be48 seq)), <- (app_nil_r (enc_be48 seq')) in E.
      apply (f_equal (fun l => read_be48 l 0)) in E. by rewrite !read_be48_enc in E.
  - by rewrite length_take, Nat.min_l by lia.
  - by rewrite length_take, Nat.min_l by lia.
Qed.

Section nonces.
Context `{Crypto}.

(** The nonces of the records sealed when a session sends messages in turn. *)
Fixpoint nonces (ds : DtlsSession) (msgs : list (Z * list byte)) : list (list byte) :=
  match msgs with
  | [] => []
  | (ct, plain) :: msgs =>
      match dtls_encrypt_record ds ct plain None with
      | (Some _, ds') =>
          build_relay_nonce (client_write_iv ds) (u16 (epoch ds)) (tx_seq ds) :: nonces ds' msgs
      | (None, ds') => nonces ds' msgs
      end
  end.

Lemma encrypt_step ds ct plain iv rec ds' :
  dtls_encrypt_record ds ct plain iv = (Some rec, ds') -> ds' = set_tx_seq (u64 (tx_seq ds + 1)) ds.
Proof.
  unfold dtls_encrypt_record. destruct (_ <? _); [done|].
  destruct (if cipher_suite ds =? 0xC038 then _ else _); [|done]. by intros [= _ <-].
Qed.

Lemma encrypt_fail ds ct plain iv ds' : dtls_encrypt_record ds ct plain iv = (None, ds') -> ds' = ds.
Proof.
  unfold dtls_encrypt_record. destruct (_ <? _); [by intros [=]|].
  destruct (if cipher_suite ds =? 0xC038 then _ else _); [done|]. by intros [=].
Qed.

(** The nonces used from a state on carry its sequence number or a later one. *)
Lemma nonces_from ds msgs nonce :
  0 <= tx_seq ds -> tx_seq ds + zlen msgs <= 2 ^ 48 -> nonce ∈ nonces ds msgs ->
  exists seq, tx_seq ds <= seq < 2 ^ 48 /\
    nonce = build_relay_nonce (client_write_iv ds) (u16 (epoch ds)) seq.
Proof.
  revert ds. induction msgs as [|[ct plain] msgs IH]; intros ds H0 Hmax Hin; [by apply not_elem_of_nil in Hin|].
  unfold zlen in *. cbn [length] in Hmax. cbn [nonces] in Hin.
  destruct (dtls_encrypt_record ds ct plain None) as [[rec|] ds'] eqn:E.
  - apply encrypt_step in E. replace (u64 (tx_seq ds + 1)) with (tx_seq ds + 1) in E
      by (symmetry; apply Z.mod_small; lia). subst ds'.
    apply elem_of_cons in Hin as [->|Hin]; [exists (tx_seq ds); split; [lia | done]|].
    destruct (IH (set_tx_seq (tx_seq ds + 1) ds)) as (seq & Hseq & ->); simpl; [lia | lia | done |].
    simpl in Hseq. exists seq. split; [lia | done].
  - apply encrypt_fail in E as ->. apply IH; [lia | lia | done].
Qed.

(** No nonce is used twice: the records a ChaCha20-Poly1305 session seals,
    whatever it sends and whichever sends fail, all have different nonces as
    long as the sequence number fits the record header's 48 bits. *)
Lemma nonces_distinct ds msgs :
  (12 <= length (client_write_iv ds))%nat -> 0 <= tx_seq ds -> tx_seq ds + zlen msgs <= 2 ^ 48 ->
  NoDup (nonces ds msgs).
Proof.
  revert ds. induction msgs as [|[ct plain] msgs IH]; intros ds Hiv H0 Hmax; [constructor|].
  unfold zlen in *. cbn [length] in Hmax. cbn [nonces].
  destruct (dtls_encrypt_record ds ct plain None) as [[rec|] ds'] eqn:E.
  - apply encrypt_step in E. replace (u64 (tx_seq ds + 1)) with (tx_seq ds + 1) in E
      by (symmetry; apply Z.mod_small; lia). subst ds'. constructor.
    + intros Hin. apply nonces_from in Hin as (seq & Hseq & E); [|simpl; lia | unfold zlen; simpl; lia].
      simpl in Hseq, E. apply nonce_inj in E as [_ E]; [lia | done | apply Z.mod_pos_bound; lia
        | apply Z.mod_pos_bound; lia | lia | lia].
    + apply IH; simpl; [done | lia | lia].
  - apply encrypt_fail in E as ->. apply IH; [done | lia | lia].
Qed.
End nonces.

(** ** Rejection and the PRF *)

Section rejects.
Context `{CryptoLaws}.

Lemma strip_padding_length d p : strip_padding d = Some p -> (length p <= length d)%nat.
Proof.
  unfold strip_padding. destruct (last d) as [b|]; [|done]. destruct (_ <? _)%nat; [done|].
  destruct (forallb _ _); [|done]. intros [= <-]. rewrite length_take. lia.
Qed.

(** A record is only accepted whole, within the caller's buffer and
    authenticated: under AES-CBC the 48 bytes behind the fragment are its
    HMAC with the header's epoch, sequence number and type; under
    ChaCha20-Poly1305 the AEAD accepts it with that data and the nonce of its
    sequence number. *)
Lemma accepted_authentic ds rec plain_max plain :
  dtls_decrypt_record ds rec plain_max = Some plain ->
  let wire_len := Z.to_nat (read_be16 rec 11) in
  (13 + wire_len <= length rec)%nat /\ (length plain <= plain_max)%nat /\
  if cipher_suite ds =? 0xC038
  then sub (wire_len - 48) 48 (drop 13 rec) =
       hmac384 (server_write_mac_key ds)
         (build_additional_data (zat rec 0) (read_be16 rec 3) (read_be48 rec 5) (Z.of_nat (wire_len - 48))
          ++ take (wire_len - 48) (drop 13 rec))
  else aead_decrypt (server_write_key ds)
         (build_relay_nonce (server_write_iv ds) (read_be16 rec 3) (read_be48 rec 5))
         (build_additional_data (zat rec 0) (read_be16 rec 3) (read_be48 rec 5) (Z.of_nat (wire_len - 16)))
         (take wire_len (drop 13 rec)) = Some plain.
Proof.
  unfold dtls_decrypt_record. destruct (Nat.ltb_spec (length rec) 13); [done|]. cbv zeta.
  destruct (cipher_suite ds =? 0xC038).
  - unfold decrypt_record_cbc_etm. cbv zeta. set (w := Z.to_nat (read_be16 rec 11)).
    destruct (Nat.ltb_spec (length (drop 13 rec)) w) as [|Hw]; [done|].
    destruct (w <? _)%nat; [done|]. cbn [orb]. destruct (negb _); [done|].
    destruct (negb (bool_decide _)) eqn:E; [done|]. apply negb_false_iff, bool_decide_eq_true_1 in E.
    destruct (cbc_decrypt _ _ _) as [d|]; [|done]. destruct (negb _); [done|].
    destruct (strip_padding d) as [p|]; [|done].
    destruct (Nat.ltb_spec plain_max (length p)); [done|]. intros [= <-].
    rewrite length_drop in Hw. split_and!; [lia | lia | done].
  - unfold aead_open. cbv zeta. set (w := Z.to_nat (read_be16 rec 11)).
    destruct (Nat.ltb_spec (length (drop 13 rec)) w) as [|Hw]; [done|].
    destruct (Nat.ltb_spec w 16); [done|]. cbn [orb].
    destruct (Nat.ltb_spec plain_max (w - 16)); [done|]. intros E. pose proof (aead_length _ _ _ _ _ E) as Hl.
    rewrite length_take in Hl. rewrite length_drop in Hw, Hl. split_and!; [lia | lia | done].
Qed.
End rejects.

Section prf_spec.
Context (hmac : list byte -> list byte -> list byte) (md_len : nat).
Context (Hmd : (1 <= md_len)%nat) (Hmac : forall k d, length (hmac k d) = md_len).

(** RFC 5246, section 5: [A(0) = seed], [A(i) = HMAC(secret, A(i-1))];
    [P_hash] is [HMAC(secret, A(1) + seed) + HMAC(secret, A(2) + seed) + ...]. *)
Fixpoint A (secret seed : list byte) (i : nat) : list byte :=
  match i with O => seed | S i => hmac secret (A secret seed i) end.
Definition P_hash (secret seed : list byte) (from n : nat) : list byte :=
  concat ((fun i => hmac secret (A secret seed i ++ seed)) <$> seq from n).

Lemma prf_loop_spec fuel rem secret seed k n :
  (rem <= fuel)%nat -> (rem <= n * md_len)%nat ->
  prf_loop hmac md_len fuel rem secret seed (A secret seed k) = take rem (P_hash secret seed k n).
Proof.
  revert rem k n. induction fuel as [|fuel IH]; intros rem k n Hf Hn.
  - replace rem with 0%nat by lia. done.
  - cbn [prf_loop]. destruct (Nat.eqb_spec rem 0) as [->|Hr]; [done|].
    destruct n as [|n]; [lia|]. unfold P_hash. cbn [seq]. rewrite fmap_cons. cbn [concat].
    fold (P_hash secret seed (S k) n). change (hmac secret (A secret seed k)) with (A secret seed (S k)).
    rewrite (IH _ (S k) n) by (simpl in Hn; lia). rewrite take_app, Hmac. f_equal; [|f_equal; lia].
    destruct (decide (rem <= md_len)%nat); [by rewrite Nat.min_r by lia|].
    rewrite Nat.min_l, !take_ge by (rewrite ?Hmac; lia). done.
Qed.

Lemma length_P_hash secret seed k m : length (P_hash secret seed k m) = (m * md_len)%nat.
Proof.
  revert k. induction m as [|m IH]; intros k; [done|]. unfold P_hash. cbn [seq].
  rewrite fmap_cons. cbn [concat]. rewrite length_app, Hmac. fold (P_hash secret seed (S k) m).
  rewrite IH. lia.
Qed.

Lemma prf_spec secret label seed out_len n :
  (out_len <= n * md_len)%nat ->
  tls12_prf_generic hmac md_len secret label seed out_len =
    take out_len (P_hash secret (label ++ seed) 1 n).
Proof.
  intros Hn. unfold tls12_prf_generic.
  apply (prf_loop_spec out_len out_len secret (label ++ seed) 1 n); lia.
Qed.

Lemma length_prf secret label seed out_len :
  length (tls12_prf_generic hmac md_len secret label seed out_len) = out_len.
Proof.
  rewrite (prf_spec _ _ _ _ out_len) by nia. rewrite length_take, length_P_hash. nia.
Qed.

(** The PRF is the one of RFC 5246: its output is the first [out_len] bytes
    of [P_hash(secret, label + seed)], for every length. *)
Lemma prf_is_P_hash secret label seed out_len n :
  (out_len <= n * md_len)%nat ->
  tls12_prf_generic hmac md_len secret label seed out_len =
    take out_len (P_hash secret (label ++ seed) 1 n) /\
  length (tls12_prf_generic hmac md_len secret label seed out_len) = out_len.
Proof. intros Hn. split; [by apply prf_spec | apply length_prf]. Qed.
End prf_spec.

(** ** A concrete instance, for the witnesses *)

Definition toy_mac (n : nat) (k d : list byte) : list byte :=
  replicate n (zb (foldl (fun s b => (31 * s + bz b) mod 251) 7 (k ++ d))).

#[export] Instance toy_crypto : Crypto := {
  sha256 := toy_mac 32 []; sha384 := toy_mac 48 []; hmac256 := toy_mac 32; hmac384 := toy_mac 48;
  cbc_encrypt _ _ p := Some (reverse p); cbc_decrypt _ _ c := Some (reverse c);
  aead_encrypt k n ad p := Some (reverse p ++ toy_mac 16 k (n ++ ad ++ p));
  aead_decrypt k n ad c :=
    if (length c <? 16)%nat then None
    else
      let p := reverse (take (length c - 16) c) in
      if bool_decide (drop (length c - 16) c = toy_mac 16 k (n ++ ad ++ p)) then Some p else None
}.

#[export] Instance toy_laws : CryptoLaws.
Proof.
  split.
  - intros k d. apply length_replicate.
  - intros k d. apply length_replicate.
  - intros k iv p _ _. exists (reverse p). simpl. by rewrite length_reverse, reverse_involutive.
  - intros k n ad p. eexists. split; [reflexivity|]. simpl.
    assert (Hl : length (reverse p ++ toy_mac 16 k (n ++ ad ++ p)) = (length p + 16)%nat)
      by (rewrite length_app, length_reverse; done).
    split; [done|]. rewrite Hl, (proj2 (Nat.ltb_ge _ _)) by lia.
    replace (length p + 16 - 16)%nat with (length (reverse p)) by (rewrite length_reverse; lia).
    rewrite take_app_length, drop_app_length, reverse_involutive. by rewrite bool_decide_eq_true_2.
  - intros k n ad c p. simpl. destruct (Nat.ltb_spec (length c) 16); [done|].
    destruct (bool_decide _); [|done]. intros [= <-]. rewrite length_reverse, length_take. lia.
Qed.

Definition toy_session (suite : Z) : DtlsSession :=
  {| client_random := []; server_random := []; master_secret := []; client_write_key := str "k";
     server_write_key := str "k"; client_write_iv := replicate 12 x01; server_write_iv := replicate 12 x01;
     client_write_mac_key := str "m"; server_write_mac_key := str "m"; cipher_suite := suite;
     use_ems := true; use_etm := true; epoch := 1; tx_seq := 1; rx_seq := 1;
     handshake_complete := true; d_relay_tag := 0; pkt_seq := 3 |}.

Lemma record_roundtrip_witness :
  exists rec, dtls_encrypt_record (toy_session 0xCCAC) 0x17 (str "hello") (Some (replicate 16 x00)) =
    (Some rec, set_tx_seq 2 (toy_session 0xCCAC)) /\
    dtls_decrypt_record (toy_session 0xCCAC) (rec ++ str "next") 100 = Some (str "hello").
Proof.
  apply (record_roundtrip (toy_session 0xCCAC) (toy_session 0xCCAC) 0x17 (str "hello")
    (replicate 16 x00) (str "next") 100);
    [done | split | split | split | done | |]; vm_compute; (reflexivity || discriminate || lia).
Defined.

Lemma nonces_distinct_witness :
  NoDup (nonces (toy_session 0xCCAC) [(0x17, str "a"); (0x17, str "b")]).
Proof.
  apply (nonces_distinct (toy_session 0xCCAC) [(0x17, str "a"); (0x17, str "b")]);
    vm_compute; (lia || discriminate).
Defined.

Definition toy_record : list byte :=
  match (dtls_encrypt_record (toy_session 0xC038) 0x17 (str "hi") (Some (replicate 16 x00))).1 with
  | Some rec => rec | None => [] end.

Lemma accepted_authentic_witness :
  dtls_decrypt_record (toy_session 0xC038) toy_record 100 = Some (str "hi") /\
  (length (str "hi") <= 100)%nat.
Proof.
  assert (E : dtls_decrypt_record (toy_session 0xC038) toy_record 100 = Some (str "hi"))
    by (vm_compute; reflexivity).
  split; [exact E|]. exact (proj1 (proj2 (accepted_authentic _ _ _ _ E))).
Defined.

Lemma prf_is_P_hash_witness :
  length (tls12_prf_generic (toy_mac 32) 32 (str "s") (str "key expansion") (str "x") 88) = 88%nat.
Proof.
  apply (prf_is_P_hash (toy_mac 32) 32 ltac:(lia) (fun k d => length_replicate _ _) (str "s")
    (str "key expansion") (str "x") 88 3). lia.
Defined.
