(* ===== verification/Iotc.v ===== *)
(** IOTC datagrams ([src/camera/tutk/IotcClient.cpp]): the 16-byte header, the
    DTLS framing with its relay and direct forms, the rendezvous packets the
    client sends and the address records it reads. A datagram that goes out is
    the list of its bytes after scrambling. *)

From S2P Require Import Prelude TransCode.

(** [sockaddr_in]: address and port in network byte order. *)
Record Addr := { a_ip : list byte; a_port : list byte }.
#[global] Instance addr_eq_dec : EqDecision Addr.
Proof. solve_decision. Defined.

Definition ntohs (p : list byte) : Z := read_be16 p 0.
Definition kRelayPort : Z := 3478.
Definition kUidLen : nat := 20.

(** [memcpy] of a C string's bytes, cut to [n]. *)
Definition put_bytes (off : nat) (s p : list byte) : list byte := splice off s p.

Definition zeros (n : nat) : list byte := replicate n x00.

(** The 16-byte control header (channel 0x1c, flags 0x02), written over the
    first 16 bytes. *)
Definition write_rdv_hdr (body_len t0 t1 t2 : Z) (p : list byte) : list byte :=
  put8 10 t2 (put8 9 t1 (put8 8 t0 (put_le32 4 body_len
    (put_bytes 0 [zb 0x04; zb 0x02; zb 0x1c; zb 0x02] (put_bytes 0 (zeros 16) p))))).

(** ** DTLS datagrams *)

Definition is_relay_addr (dst : option Addr) : bool :=
  match dst with Some a => ntohs (a_port a) =? kRelayPort | None => false end.

Definition dtls_header (relay : bool) (epoch : Z) (token : list byte) (payload_len pkt_seq relay_tag : Z)
    : list byte :=
  [zb 0x04; zb 0x02; zb 0x1c; zb 0x0b] ++ enc_le16 payload_len ++ enc_le16 pkt_seq ++
  (if relay
   then [zb 0x04; zb 0x05; zb 0x24; x00; zb relay_tag; zb (Z.shiftr relay_tag 8);
         zb (Z.shiftr relay_tag 16); x01] ++ [zb 0x0c; x00; x00; x00]
   else [zb 0x07; zb 0x04; zb 0x21; x00; at_ token 0; at_ token 1; x00; x01] ++
        [zb 0x0c; zb (Z.shiftr epoch 8); zb epoch; x00]) ++
  take 8 token.

(** The datagram for [dtls_data], or [None] when it is too long. *)
Definition build_dtls_packet (dst : option Addr) (epoch : Z) (token dtls_data : list byte)
    (pkt_seq relay_tag : Z) : option (list byte) :=
  if 0xffff - 12 <? zlen dtls_data then None
  else
    let payload_len := u16 (12 + zlen dtls_data) in
    let pkt := dtls_header (is_relay_addr dst) epoch token payload_len pkt_seq relay_tag ++ dtls_data in
    let n := Nat.min (length pkt) kDataScrambleLen in
    Some (trans_code_partial (take n pkt) ++ drop n pkt).

(** ** Receiving a DTLS datagram *)

(** A datagram with its time of arrival and its sender. *)
Record Datagram := { g_time : Z; g_src : Addr; g_raw : list byte }.

Definition is_ping (raw : list byte) : bool :=
  (zat raw 8 =? 0x23) && (zat raw 9 =? 0x05) && (zat raw 10 =? 0x42).

Definition build_pong (raw : list byte) : list byte :=
  trans_code_partial
    (put8 10 0x24 (put8 9 0x05 (put8 8 0x24 (put8 2 0x1c (take 24 raw))))).

(** What [recv_dtls_packet] makes of one datagram: dropped, answered, or the
    DTLS payload. *)
Inductive RecvResult := Skip | Pong (pkt : list byte) | Payload (data : list byte).

Definition classify_dtls (peer : option Addr) (buf_size : nat) (g : Datagram) : RecvResult :=
  let n := length (g_raw g) in
  if (n <? 24)%nat then Skip
  else if match peer with Some p => negb (bool_decide (g_src g = p)) | None => false end then Skip
  else
    let raw := descramble_rx (g_raw g) in
    if negb (zat raw 0 =? 0x04) || negb (zat raw 1 =? 0x02) then Skip
    else if (n =? 24)%nat && is_ping raw then Pong (build_pong raw)
    else if (n <? 28)%nat then Skip
    else
      let data := drop 28 raw in
      if (length data <? 1)%nat
         || (negb (zat raw 28 =? 0x16) && negb (zat raw 28 =? 0x14) && negb (zat raw 28 =? 0x15))
      then Skip
      else if (buf_size <? length data)%nat then Skip
      else Payload data.

(** Datagrams received before the deadline, in order: the first payload and
    when it came, what is left in the queue, and the answers sent. [raw] is a
    2048-byte buffer: a longer datagram is cut there. What arrives at or after
    the deadline is left in the queue; the code, whose last poll may end past the
    deadline, can still take a datagram that comes within that poll. *)
Definition cut (n : nat) (g : Datagram) : Datagram :=
  {| g_time := g_time g; g_src := g_src g; g_raw := take n (g_raw g) |}.

Fixpoint recv_dtls_packet (peer : option Addr) (buf_size : nat) (deadline : Z) (inbox : list Datagram)
    : option (list byte * Z) * list Datagram * list (Addr * list byte) :=
  match inbox with
  | [] => (None, [], [])
  | g :: rest =>
      if deadline <=? g_time g then (None, inbox, [])
      else
        match classify_dtls peer buf_size (cut 2048 g) with
        | Payload data => (Some (data, g_time g), rest, [])
        | Skip => recv_dtls_packet peer buf_size deadline rest
        | Pong pkt =>
            let '(r, rest, out) := recv_dtls_packet peer buf_size deadline rest in
            (r, rest, (g_src g, pkt) :: out)
        end
  end.

(** ** Control packets *)

Definition build_ctrl0x33 (uid token : list byte) (step : Z) : list byte :=
  trans_code_partial
    (put_bytes 36 (take 8 token) (put_bytes 16 (take kUidLen uid)
      (put8 10 0x33 (put8 9 0x04 (put8 8 step (put8 4 0x24
        (put_bytes 0 [zb 0x04; zb 0x02; zb 0x1c; zb 0x02] (zeros 52)))))))).

Definition build_relay_join (uid relay_id : list byte) : list byte :=
  trans_code_partial
    (put8 53 0x00 (put8 52 0x06 (put_bytes 36 (take 16 relay_id) (put_bytes 16 (take kUidLen uid)
      (put8 10 0x18 (put8 9 0x10 (put8 8 0x07 (put8 4 0x26
        (put_bytes 0 [zb 0x04; zb 0x02; zb 0x1c; zb 0x02] (zeros 54)))))))))).

Definition kInitKnockFlags : list byte :=
  zb <$> [0x01; 0; 0; 0; 0; 0; 0; 0; 0; 0; 0x64; 0x64; 0x35; 0x35; 0x36; 0x63;
          0x63; 0x04; 0x13; 0x13; 0x66; 0x0c; 0x0c; 0x05].
Definition kDirKnockFlags : list byte :=
  zb <$> [0x02; 0; 0; 0; 0; 0; 0; 0; 0; 0; 0; 0; 0; 0; 0; 0;
          0x63; 0x04; 0x13; 0x13; 0x04; 0x0c; 0x0c; 0x63].

Definition build_relay_knock (uid token : list byte) (directed : bool) : list byte :=
  trans_code_partial
    (put_bytes 64 (if directed then kDirKnockFlags else kInitKnockFlags)
      (put_bytes 56 (take 8 token) (put_le32 52 0x04030304 (put_bytes 16 (take kUidLen uid)
        (put8 10 0x21 (put8 9 0x06 (put8 8 0x01 (put8 4 0x48
          (put_bytes 0 [zb 0x04; zb 0x02; zb 0x1c; zb 0x02] (zeros 88)))))))))).

Definition build_rdv_authkey (uid authkey : list byte) : list byte :=
  trans_code_partial
    (put_bytes 40 (take 8 authkey) (put_bytes 16 (take kUidLen uid)
      (write_rdv_hdr 32 0x14 0x02 0x24 (zeros 48)))).

Definition build_rdv_token (uid token authkey : list byte) : list byte :=
  trans_code_partial
    (put_bytes 56 (take 8 authkey) (put8 44 0x3c (put_bytes 36 (take 8 token)
      (put_bytes 16 (take kUidLen uid) (write_rdv_hdr 48 0x0a 0x02 0x24 (zeros 64)))))).

Definition kPunchConst : list byte :=
  zb <$> [0x00; 0x02; 0xff; 0x04; 0xa6; 0xff; 0xff; 0xff;
          0x00; 0x00; 0x00; 0x00; 0x04; 0x03; 0x03; 0x04].

Definition build_rdv_punch (uid token : list byte) (local_ep reflexive : Addr) : list byte :=
  trans_code_partial
    (put_bytes 540 [zb 0x42; zb 0x02; x00; x00]
      (put_bytes 144 (a_ip reflexive) (put_bytes 142 (a_port reflexive)
        (put_bytes 140 [zb 0x02; x00]
          (put_bytes 80 (a_ip local_ep) (put_bytes 78 (a_port local_ep) (put_bytes 76 [x00; x00]
            (put_bytes 68 (take 8 token) (put_bytes 52 kPunchConst (put_bytes 16 (take kUidLen uid)
              (write_rdv_hdr 528 0x04 0x08 0x24 (zeros 544)))))))))))).

Definition build_stun_probe (txn : list byte) : list byte :=
  trans_code_partial (put_bytes 16 (take 8 txn) (write_rdv_hdr 8 0x03 0x80 0x3f (zeros 24))).

Definition build_rdv_random (uid : list byte) (local_ep : Addr) (token authkey : list byte) : list byte :=
  trans_code_partial
    (put_bytes 272 (take 8 authkey) (put8 108 0x02 (put_bytes 100 (take 8 token)
      (put_bytes 40 (a_ip local_ep) (put_bytes 38 (a_port local_ep) (put_bytes 36 [x00; x00]
        (put_bytes 16 (take kUidLen uid) (write_rdv_hdr 272 0x03 0x02 0x34 (zeros 288))))))))).

(** [r]: the four random bytes at the end. *)
Definition build_punch_to_candidate (uid token r : list byte) : list byte :=
  trans_code_partial
    (put_bytes 48 (take 4 r) (put_bytes 36 (take 8 token) (put_bytes 16 (take kUidLen uid)
      (write_rdv_hdr 36 0x01 0x04 0x33 (zeros 52))))).

Definition kTrailer : list byte :=
  zb <$> [0x04; 0x03; 0x03; 0x04; 0x1c; 0x00; 0x00; 0x00; 0x02; 0x00; 0x00; 0x00].

Definition build_rdv_punch2 (uid token : list byte) : list byte :=
  trans_code_partial
    (put_bytes 48 kTrailer (put8 44 0x01 (put_bytes 36 (take 8 token) (put_bytes 16 (take kUidLen uid)
      (write_rdv_hdr 44 0x09 0x02 0x24 (zeros 60)))))).

Definition build_rdv_ack (uid token : list byte) (tag : Z) : list byte :=
  trans_code_partial
    (put_bytes 36 (take 8 token) (put_bytes 16 (take kUidLen uid)
      (put_le32 12 tag (write_rdv_hdr 28 0x0c 0x03 0x24 (zeros 44))))).

Definition build_lan_search (uid token authkey : list byte) : list byte :=
  trans_code_partial
    (put_bytes 74 (take 8 authkey) (put8 64 0x01 (put_bytes 56 (take 8 token)
      (put_bytes 52 [zb 0x04; zb 0x03; zb 0x03; zb 0x04] (put_bytes 16 (take kUidLen uid)
        (write_rdv_hdr (88 - 16) 0x01 0x06 0x21 (zeros 88))))))).

Definition build_p2p_session_ctrl (token : list byte) (t0 : Z) : list byte :=
  trans_code_partial
    (put_bytes 16 (take 8 token) (put8 3 0x0a (write_rdv_hdr 8 t0 0x04 0x21 (zeros 24)))).

(** ** Address records *)

Definition addr_at (i : nat) (p : list byte) : Addr :=
  {| a_ip := sub (i + 4) 4 p; a_port := sub (i + 2) 2 p |}.

Definition is_zero (s : list byte) : bool := forallb (fun b => bz b =? 0) s.
Definition addr_set (a : Addr) : bool := negb (is_zero (a_ip a)) && negb (is_zero (a_port a)).

Definition read_addr_rec (p : list byte) (i : nat) : option Addr :=
  if negb (zat p i =? 0x02) || negb (zat p (i + 1) =? 0) then None
  else if addr_set (addr_at i p) then Some (addr_at i p) else None.

(** The scans over [fuel] positions from [i]. *)
Fixpoint scan_servers (fuel i : nat) (reply : list byte) (max_out : nat) (out : list Addr) : list Addr :=
  match fuel with
  | O => out
  | S fuel =>
      if (length reply <? i + 8)%nat || (max_out <=? length out)%nat then out
      else
        let out :=
          match read_addr_rec reply i with
          | Some a =>
              if (ntohs (a_port a) =? kRelayPort)
                 && negb (existsb (fun b => bool_decide (a_ip b = a_ip a)) out)
              then out ++ [a] else out
          | None => out
          end in
        scan_servers fuel (i + 1) reply max_out out
  end.
Definition parse_rdv_servers (reply : list byte) (max_out : nat) : list Addr :=
  scan_servers (length reply) 16 reply max_out [].

Fixpoint scan_reflexive (fuel i : nat) (reply : list byte) : option Addr :=
  match fuel with
  | O => None
  | S fuel =>
      if (length reply <? i + 8)%nat then None
      else
        match read_addr_rec reply i with
        | Some a => if negb (ntohs (a_port a) =? kRelayPort) then Some a
                    else scan_reflexive fuel (i + 1) reply
        | None => scan_reflexive fuel (i + 1) reply
        end
  end.
Definition parse_reflexive (reply : list byte) : option Addr := scan_reflexive (length reply) 16 reply.

Fixpoint scan_candidates (fuel i : nat) (reply : list byte) (max_out : nat) (out : list Addr) : list Addr :=
  match fuel with
  | O => out
  | S fuel =>
      if (length reply <? i + 8)%nat || (max_out <=? length out)%nat then out
      else
        let out :=
          if negb (zat reply (i + 1) =? 0)
             || (negb (zat reply i =? 0) && negb (zat reply i =? 2)) then out
          else
            let a := addr_at i reply in
            if addr_set a && negb (existsb (fun b => bool_decide (b = a)) out) then out ++ [a] else out in
        scan_candidates fuel (i + 16) reply max_out out
  end.
Definition parse_candidates (reply : list byte) (max_out : nat) : list Addr :=
  scan_candidates (length reply) 36 reply max_out [].

(** ** What goes out *)

(** A DTLS datagram of the client: the header and the data, scrambled. *)
Lemma build_dtls_packet_scrambled dst ep token data seq tag :
  zlen data <= 0xffff - 12 ->
  build_dtls_packet dst ep token data seq tag =
  Some (scramble_tx (dtls_header (is_relay_addr dst) ep token (12 + zlen data) seq tag ++ data)).
Proof.
  intros Hd. unfold build_dtls_packet. rewrite (proj2 (Z.ltb_ge _ _)) by lia. cbv zeta.
  rewrite (u16_small (12 + zlen data)) by (unfold zlen in *; lia).
  set (pkt := dtls_header _ _ _ _ _ _ ++ data). unfold scramble_tx.
  replace (zat pkt 3) with 0x0b by (unfold pkt, dtls_header; destruct (is_relay_addr dst); done).
  cbn [Z.eqb Pos.eqb]. destruct (Nat.le_gt_cases kDataScrambleLen (length pkt)).
  - by rewrite Nat.min_r by lia.
  - rewrite Nat.min_l, (take_ge pkt (length pkt)), (take_ge pkt kDataScrambleLen), !drop_ge by lia. done.
Qed.

Lemma length_dtls_header relay ep token len seq tag :
  length token = 8%nat -> length (dtls_header relay ep token len seq tag) = 28%nat.
Proof.
  intros Ht. unfold dtls_header. rewrite !length_app, length_take, Ht. by destruct relay.
Qed.

(** ** The address lists *)

(** Both scans with duplicates left out by a key: from [i] in steps, the
    addresses that [acc] finds. *)
Section scan.
Context {K} `{EqDecision K} (key : Addr -> K) (acc : nat -> option Addr) (step len max_out : nat).

Definition scan_add (i : nat) (out : list Addr) : list Addr :=
  match acc i with
  | Some a => if existsb (fun b => bool_decide (key b = key a)) out then out else out ++ [a]
  | None => out
  end.

Fixpoint scan (fuel i : nat) (out : list Addr) : list Addr :=
  match fuel with
  | O => out
  | S fuel =>
      if (len <? i + 8)%nat || (max_out <=? length out)%nat then out
      else scan fuel (i + step) (scan_add i out)
  end.

Definition found_at (i0 : nat) (a : Addr) : Prop :=
  exists k, (i0 + step * k + 8 <= len)%nat /\ acc (i0 + step * k) = Some a.

Lemma scan_add_prefix i out : out `prefix_of` scan_add i out.
Proof. unfold scan_add. destruct (acc i); [|done]. destruct (existsb _ _); [done | by eexists]. Qed.

Lemma scan_prefix fuel i out : out `prefix_of` scan fuel i out.
Proof.
  revert i out. induction fuel as [|fuel IH]; intros i out; [done|]. cbn [scan].
  destruct (_ || _); [done|]. etrans; [apply scan_add_prefix | apply IH].
Qed.

Lemma scan_add_has i out a : acc i = Some a -> exists b, b ∈ scan_add i out /\ key b = key a.
Proof.
  intros E. unfold scan_add. rewrite E. destruct (existsb _ _) eqn:Ex.
  - apply existsb_exists in Ex as (b & Hb & Hk%bool_decide_eq_true). exists b.
    split; [by apply list_elem_of_In | done].
  - exists a. split; [apply elem_of_app; right; by left | done].
Qed.

Lemma scan_sound fuel i0 k out :
  (length out <= max_out)%nat -> NoDup (key <$> out) -> Forall (found_at i0) out ->
  let r := scan fuel (i0 + step * k) out in
  (length r <= max_out)%nat /\ NoDup (key <$> r) /\ Forall (found_at i0) r.
Proof.
  revert k out. induction fuel as [|fuel IH]; intros k out Hl Hn Hf; [done|]. cbv zeta. cbn [scan].
  destruct (Nat.ltb_spec len (i0 + step * k + 8)); [done|]. destruct (Nat.leb_spec max_out (length out)); [done|].
  cbn [orb]. replace (i0 + step * k + step)%nat with (i0 + step * S k)%nat by lia. unfold scan_add.
  destruct (acc (i0 + step * k)) as [a|] eqn:E; [|by apply IH].
  destruct (existsb _ out) eqn:Ex; [by apply IH|]. apply IH.
  - rewrite length_app. simpl. lia.
  - rewrite fmap_app. apply NoDup_app. split; [done|]. split; [|apply NoDup_singleton].
    intros x (b & -> & Hb)%list_elem_of_fmap [Hx | Hx%elem_of_nil]%elem_of_cons; [|done].
    apply not_true_iff_false in Ex. apply Ex, existsb_exists. exists b.
    split; [by apply list_elem_of_In | by apply bool_decide_eq_true].
  - apply Forall_app_2; [done|]. constructor; [|done]. by exists k.
Qed.

Lemma scan_complete fuel i0 k out j a :
  (1 <= step)%nat -> (len < i0 + step * k + fuel)%nat -> (k <= j)%nat -> (i0 + step * j + 8 <= len)%nat ->
  acc (i0 + step * j) = Some a -> (length (scan fuel (i0 + step * k) out) < max_out)%nat ->
  exists b, b ∈ scan fuel (i0 + step * k) out /\ key b = key a.
Proof.
  intros Hs. revert k out. induction fuel as [|fuel IH]; intros k out Hf Hk Hj Ha; [nia|]. cbn [scan].
  destruct (Nat.ltb_spec len (i0 + step * k + 8)); [nia|].
  destruct (Nat.leb_spec max_out (length out)); [cbn [orb]; lia|]. cbn [orb].
  replace (i0 + step * k + step)%nat with (i0 + step * S k)%nat by lia. intros Hlen.
  destruct (decide (k = j)) as [->|Hne]; [|apply IH; [nia | lia | done | done | done]].
  destruct (scan_add_has (i0 + step * j) out a Ha) as (b & Hb & Hk'). exists b. split; [|done].
  destruct (scan_prefix fuel (i0 + step * S j) (scan_add (i0 + step * j) out)) as [t ->].
  apply elem_of_app. by left.
Qed.
End scan.

(** What the two lists take: a public record of a :3478 server; a public or LAN
    record of a candidate. *)
Definition server_rec (reply : list byte) (i : nat) : option Addr :=
  match read_addr_rec reply i with
  | Some a => if ntohs (a_port a) =? kRelayPort then Some a else None
  | None => None
  end.
Definition candidate_rec (reply : list byte) (i : nat) : option Addr :=
  if ((zat reply i =? 0) || (zat reply i =? 2)) && (zat reply (i + 1) =? 0) && addr_set (addr_at i reply)
  then Some (addr_at i reply) else None.

Lemma parse_rdv_servers_scan reply max_out :
  parse_rdv_servers reply max_out = scan a_ip (server_rec reply) 1 (length reply) max_out (length reply) 16 [].
Proof.
  unfold parse_rdv_servers. generalize (length reply) at 1 3 as fuel. generalize 16%nat as i.
  generalize (@nil Addr) as out. intros out i fuel. revert i out.
  induction fuel as [|fuel IH]; intros i out; [done|]. cbn [scan_servers scan]. destruct (_ || _); [done|].
  unfold scan_add, server_rec. rewrite IH. destruct (read_addr_rec reply i) as [a|]; [|done].
  destruct (_ =? kRelayPort); [|done]. cbn [andb]. by destruct (existsb _ _).
Qed.

Lemma parse_candidates_scan reply max_out :
  parse_candidates reply max_out = scan id (candidate_rec reply) 16 (length reply) max_out (length reply) 36 [].
Proof.
  unfold parse_candidates. generalize (length reply) at 1 3 as fuel. generalize 36%nat as i.
  generalize (@nil Addr) as out. intros out i fuel. revert i out.
  induction fuel as [|fuel IH]; intros i out; [done|]. cbn [scan_candidates scan]. destruct (_ || _); [done|].
  rewrite IH. f_equal. unfold scan_add, candidate_rec, id.
  destruct (zat reply i =? 0), (zat reply i =? 2), (zat reply (i + 1) =? 0), (addr_set (addr_at i reply)); cbn [negb andb orb];
    try done; by destruct (existsb _ _).
Qed.

(** The address lists of a reply of any length hold at most the given
    number of distinct addresses, each set and read inside the reply; and when
    the list is not full, no record of the reply is left out. *)
Lemma address_lists reply max_out :
  let servers := parse_rdv_servers reply max_out in
  let cands := parse_candidates reply max_out in
  ((length servers <= max_out)%nat /\ NoDup (a_ip <$> servers) /\
   Forall (found_at (server_rec reply) 1 (length reply) 16) servers /\
   ((length servers < max_out)%nat -> forall i a, (16 <= i)%nat -> (i + 8 <= length reply)%nat ->
      server_rec reply i = Some a -> exists b, b ∈ servers /\ a_ip b = a_ip a)) /\
  ((length cands <= max_out)%nat /\ NoDup cands /\
   Forall (found_at (candidate_rec reply) 16 (length reply) 36) cands /\
   ((length cands < max_out)%nat -> forall k a, (36 + 16 * k + 8 <= length reply)%nat ->
      candidate_rec reply (36 + 16 * k) = Some a -> a ∈ cands)).
Proof.
  cbv zeta. rewrite parse_rdv_servers_scan, parse_candidates_scan. split.
  - destruct (scan_sound a_ip (server_rec reply) 1 (length reply) max_out (length reply) 16 0 [])
      as (H1 & H2 & H3); [simpl; lia | constructor | done |]. rewrite Nat.mul_0_r, Nat.add_0_r in *.
    split_and!; [done..|]. intros Hl i a Hi Hle Ha.
    apply (scan_complete a_ip (server_rec reply) 1 (length reply) max_out (length reply) 16 0 [] (i - 16));
      [lia | lia | lia | lia | by replace (16 + 1 * (i - 16))%nat with i by lia | done].
  - destruct (scan_sound id (candidate_rec reply) 16 (length reply) max_out (length reply) 36 0 [])
      as (H1 & H2 & H3); [simpl; lia | constructor | done |]. rewrite list_fmap_id in H2.
    split_and!; [done..|]. intros Hl k a Hle Ha.
    destruct (scan_complete id (candidate_rec reply) 16 (length reply) max_out (length reply) 36 0 [] k a)
      as (b & Hb & Hid); [lia | lia | lia | done | done | done |]. unfold id in Hid. by subst b.
Qed.
