(* ===== verification/DtlsHandshake.v ===== *)
(** The DTLS-PSK handshake of the camera client
    ([src/camera/tutk/IotcClient.cpp], lines 889-1299): ClientHello, the server's
    flight, key derivation, the Finished exchange. Randomness, the X25519
    exchange, the success of [sendto] and the datagrams that arrive are
    inputs. *)

From S2P Require Import Prelude Text TransCode DtlsRecord Iotc.

(** ** The ClientHello *)

Definition kCipherSuites : list byte := zb <$> [0xC0; 0x38; 0xCC; 0xAC; 0x00; 0xFF].

Definition kExtensions : list byte :=
  zb <$> [0x00; 0x52;
          0x00; 0x0b; 0x00; 0x04; 0x03; 0x00; 0x01; 0x02;
          0x00; 0x0a; 0x00; 0x0c; 0x00; 0x0a;
          0x00; 0x1d; 0x00; 0x17; 0x00; 0x1e;
          0x00; 0x19; 0x00; 0x18;
          0x00; 0x23; 0x00; 0x00;
          0x00; 0x16; 0x00; 0x00;
          0x00; 0x17; 0x00; 0x00;
          0x00; 0x0d; 0x00; 0x2a; 0x00; 0x28;
          0x04; 0x03; 0x05; 0x03; 0x06; 0x03; 0x08; 0x07;
          0x08; 0x08; 0x08; 0x09; 0x08; 0x0a; 0x08; 0x0b;
          0x08; 0x04; 0x08; 0x05; 0x08; 0x06; 0x04; 0x01;
          0x05; 0x01; 0x06; 0x01; 0x03; 0x03; 0x03; 0x01;
          0x03; 0x02; 0x04; 0x02; 0x05; 0x02; 0x06; 0x02].

Definition hello_body (random : list byte) : list byte :=
  [zb 0xfe; zb 0xfd] ++ take 32 random ++ [x00; x00] ++
  [x00; zb (zlen kCipherSuites)] ++ kCipherSuites ++ [x01; x00] ++ kExtensions.

(** The handshake message, which is what goes into the transcript. *)
Definition hello_message (random : list byte) : list byte :=
  build_dtls_hs_hdr 0x01 (zlen (hello_body random)) 0 ++ hello_body random.

(** The record, whose version is DTLS 1.0. *)
Definition build_client_hello (random : list byte) : list byte :=
  put8 2 0xff (build_dtls_record_hdr 0x16 0 0 (u16 (12 + zlen (hello_body random)))) ++
  hello_message random.

(** ** The server's flight *)

Definition read_be24 (p : list byte) (i : nat) : Z :=
  Z.lor (Z.lor (Z.shiftl (zat p i) 16) (Z.shiftl (zat p (i + 1)) 8)) (zat p (i + 2)).

Record Flight := {
  f_random : list byte; f_suite : Z; f_ems : bool; f_etm : bool; f_pub : option (list byte);
  f_transcript : list byte
}.

(** The extensions from [e] up to [e_end]: EtM and EMS. *)
Fixpoint ext_loop (fuel e e_end : nat) (body : list byte) (ems etm : bool) : bool * bool :=
  match fuel with
  | O => (ems, etm)
  | S fuel =>
      if (e_end <? e + 4)%nat then (ems, etm)
      else
        let etype := read_be16 body e in
        ext_loop fuel (e + 4 + Z.to_nat (read_be16 body (e + 2))) e_end body
          (ems || (etype =? 0x0017)) (etm || (etype =? 0x0016))
  end.

(** A ServerHello's body; [None] when it is malformed. *)
Definition read_server_hello (body : list byte) (f : Flight) : option Flight :=
  let hlen := length body in
  if (hlen <? 2 + 32 + 1)%nat then None
  else
    let off := (2 + 32 + 1 + Z.to_nat (zat body 34))%nat in
    if (hlen <? off + 3)%nat then None
    else
      let suite := read_be16 body off in
      let off := (off + 3)%nat in
      let '(ems, etm) :=
        if (off + 2 <=? hlen)%nat
        then ext_loop hlen (off + 2) (Nat.min hlen (off + 2 + Z.to_nat (read_be16 body off))) body
               (f_ems f) (f_etm f)
        else (f_ems f, f_etm f) in
      Some {| f_random := sub 2 32 body; f_suite := suite; f_ems := ems; f_etm := etm;
              f_pub := f_pub f; f_transcript := f_transcript f |}.

Definition read_server_key (body : list byte) (f : Flight) : Flight :=
  if (38 <=? length body)%nat && (zat body 0 =? 0) && (zat body 1 =? 0) && (zat body 2 =? 0x03)
     && (read_be16 body 3 =? 0x001d) && (zat body 5 =? 32)
  then {| f_random := f_random f; f_suite := f_suite f; f_ems := f_ems f; f_etm := f_etm f;
          f_pub := Some (sub 6 32 body); f_transcript := f_transcript f |}
  else f.

Definition to_transcript (msg : list byte) (f : Flight) : Flight :=
  {| f_random := f_random f; f_suite := f_suite f; f_ems := f_ems f; f_etm := f_etm f;
     f_pub := f_pub f; f_transcript := f_transcript f ++ msg |}.

Definition kServerHelloDone : list byte := zb <$> [0x0e; 0; 0; 0; 0; 0x02; 0; 0; 0; 0; 0; 0].

(** One handshake record's payload. *)
Definition read_handshake (hs : list byte) (f : Flight) : option Flight :=
  let htype := zat hs 0 in
  let hlen := Z.to_nat (read_be24 hs 1) in
  if (length hs <? 12 + hlen)%nat then Some f
  else if htype =? 0x0e then Some (to_transcript kServerHelloDone f)
  else
    let f := to_transcript (take (12 + hlen) hs) f in
    let body := sub 12 hlen hs in
    if htype =? 0x02 then read_server_hello body f
    else if htype =? 0x0c then Some (read_server_key body f)
    else Some f.

Fixpoint flight_loop (fuel : nat) (raw : list byte) (f : Flight) : option Flight :=
  match fuel with
  | O => Some f
  | S fuel =>
      if (length raw <? 13 + 12)%nat then Some f
      else
        let rlen := Z.to_nat (read_be16 raw 11) in
        if (length raw <? 13 + rlen)%nat then Some f
        else
          let rest := drop (13 + rlen) raw in
          if negb (zat raw 0 =? 0x16) || (rlen <? 12)%nat then flight_loop fuel rest f
          else
            match read_handshake (sub 13 rlen raw) f with
            | None => None
            | Some f => flight_loop fuel rest f
            end
  end.

Definition parse_server_hello_flight (raw transcript : list byte) : option Flight :=
  let len := length raw in
  if (15 <=? len)%nat && (zat raw 0 =? 0x15) then None
  else if (len <? 13 + 12 + 2 + 32 + 1)%nat || negb (zat raw 0 =? 0x16) || negb (zat raw 13 =? 0x02)
  then None
  else
    match flight_loop len raw {| f_random := []; f_suite := 0; f_ems := false; f_etm := false;
                                 f_pub := None; f_transcript := transcript |} with
    | None => None
    | Some f =>
        if negb (f_suite f =? 0xC038) && negb (f_suite f =? 0xCCAC) then None
        else match f_pub f with None => None | Some _ => Some f end
    end.

(** ** Keys *)

Section keys.
Context `{Crypto}.

Definition derive_psk (passwd : list byte) : list byte :=
  let psk := sha256 passwd in
  match find_char x00 psk with
  | None => psk
  | Some nul => take nul psk ++ replicate (32 - nul) x00
  end.

Definition suite_prf (suite : Z) (secret label seed : list byte) (out_len : nat) : list byte :=
  if suite =? 0xC038 then tls12_prf_generic hmac384 48 secret label seed out_len
  else tls12_prf_generic hmac256 32 secret label seed out_len.

Definition transcript_hash (suite : Z) (t : list byte) : list byte :=
  if suite =? 0xC038 then sha384 t else sha256 t.

Definition derive_master (ds : DtlsSession) (premaster transcript : list byte) : list byte :=
  if use_ems ds
  then suite_prf (cipher_suite ds) premaster (str "extended master secret")
         (transcript_hash (cipher_suite ds) transcript) 48
  else suite_prf (cipher_suite ds) premaster (str "master secret")
         (client_random ds ++ server_random ds) 48.

(** The key block split as the suite says: client MAC key, server MAC key,
    client key, server key, client IV, server IV. *)
Definition split_key_block (suite : Z) (kb : list byte)
    : list byte * list byte * list byte * list byte * list byte * list byte :=
  if suite =? 0xC038
  then (sub 0 48 kb, sub 48 48 kb, sub 96 32 kb, sub 128 32 kb, sub 160 16 kb, sub 176 16 kb)
  else ([], [], sub 0 32 kb, sub 32 32 kb, sub 64 12 kb, sub 76 12 kb).

Definition key_block_len (suite : Z) : nat := if suite =? 0xC038 then 192 else 88.

Definition derive_session_keys (ds : DtlsSession) (premaster transcript : list byte) : DtlsSession :=
  let master := derive_master ds premaster transcript in
  let kb := suite_prf (cipher_suite ds) master (str "key expansion")
              (server_random ds ++ client_random ds) (key_block_len (cipher_suite ds)) in
  let '(cm, sm, ck, sk, civ, siv) := split_key_block (cipher_suite ds) kb in
  {| client_random := client_random ds; server_random := server_random ds; master_secret := master;
     client_write_key := ck; server_write_key := sk; client_write_iv := civ; server_write_iv := siv;
     client_write_mac_key := cm; server_write_mac_key := sm; cipher_suite := cipher_suite ds;
     use_ems := use_ems ds; use_etm := use_etm ds; epoch := epoch ds; tx_seq := tx_seq ds;
     rx_seq := rx_seq ds; handshake_complete := handshake_complete ds;
     d_relay_tag := d_relay_tag ds; pkt_seq := pkt_seq ds |}.

Definition finished_verify_data (ds : DtlsSession) (transcript label : list byte) : list byte :=
  suite_prf (cipher_suite ds) (master_secret ds) label (transcript_hash (cipher_suite ds) transcript) 12.

(** ** The server's Finished *)

(** What the records of one datagram come to. *)
Inductive FinRecords := More (transcript : list byte) | Alert | Fin (transcript : list byte) (plain : option (list byte)).

Fixpoint finished_records (fuel : nat) (raw : list byte) (ds : DtlsSession) (transcript : list byte)
    : FinRecords :=
  match fuel with
  | O => More transcript
  | S fuel =>
      if (length raw <? 13)%nat then More transcript
      else
        let rlen := (13 + Z.to_nat (read_be16 raw 11))%nat in
        if (length raw <? rlen)%nat then More transcript
        else if zat raw 0 =? 0x15 then Alert
        else if negb (zat raw 0 =? 0x16) then finished_records fuel (drop rlen raw) ds transcript
        else if read_be16 raw 3 =? 0
        then finished_records fuel (drop rlen raw) ds (transcript ++ sub 13 (rlen - 13) raw)
        else Fin transcript (dtls_decrypt_record ds (take rlen raw) 64)
  end.

(** The loop over datagrams, each awaited for at most a second, until
    [deadline]. [fuel]: see [recv_finished_fuel]. *)
Fixpoint recv_finished_loop (fuel : nat) (peer : Addr) (ds : DtlsSession) (now deadline : Z)
    (inbox : list Datagram) (transcript : list byte)
    : option (list byte * list byte) * list Datagram * list (Addr * list byte) :=
  match fuel with
  | O => (None, inbox, [])
  | S fuel =>
      if deadline <=? now then (None, inbox, [])
      else
        let '(r, inbox, out) := recv_dtls_packet (Some peer) 1024 (now + 1000) inbox in
        let next now transcript :=
          let '(r, inbox, out') := recv_finished_loop fuel peer ds now deadline inbox transcript in
          (r, inbox, out ++ out') in
        match r with
        | None => next (now + 1000) transcript
        | Some (raw, t) =>
            let now := Z.max now t in
            if (length raw <? 13)%nat then next now transcript
            else
              match finished_records (length raw) raw ds transcript with
              | Alert => (None, inbox, out)
              | More transcript => next now transcript
              | Fin transcript (Some plain) => (Some (plain, transcript), inbox, out)
              | Fin transcript None => (None, inbox, out)
              end
        end
  end.

Definition recv_finished_fuel (inbox : list Datagram) : nat := length inbox + 5.

Definition recv_server_finished (peer : Addr) (ds : DtlsSession) (now : Z) (inbox : list Datagram)
    (transcript : list byte) :=
  recv_finished_loop (recv_finished_fuel inbox) peer ds now (now + 4000) inbox transcript.

(** ** The client *)

(** [x25519]: the server's key to the client's key and the shared secret;
    [sendto]: whether the socket takes a datagram. *)
Record Env := {
  e_random : option (list byte);
  e_iv : option (list byte);
  e_x25519 : list byte -> option (list byte * list byte);
  e_sendto : list byte -> bool
}.

Definition zero_session (relay_tag : Z) (random : list byte) : DtlsSession :=
  {| client_random := random; server_random := zeros 32; master_secret := zeros 48;
     client_write_key := zeros 32; server_write_key := zeros 32; client_write_iv := zeros 16;
     server_write_iv := zeros 16; client_write_mac_key := zeros 48; server_write_mac_key := zeros 48;
     cipher_suite := 0; use_ems := false; use_etm := false; epoch := 0; tx_seq := 0; rx_seq := 0;
     handshake_complete := false; d_relay_tag := relay_tag; pkt_seq := 0 |}.

Definition with_flight (f : Flight) (ds : DtlsSession) : DtlsSession :=
  {| client_random := client_random ds; server_random := f_random f; master_secret := master_secret ds;
     client_write_key := client_write_key ds; server_write_key := server_write_key ds;
     client_write_iv := client_write_iv ds; server_write_iv := server_write_iv ds;
     client_write_mac_key := client_write_mac_key ds; server_write_mac_key := server_write_mac_key ds;
     cipher_suite := f_suite f; use_ems := f_ems f; use_etm := f_etm f; epoch := epoch ds;
     tx_seq := tx_seq ds; rx_seq := rx_seq ds; handshake_complete := handshake_complete ds;
     d_relay_tag := d_relay_tag ds; pkt_seq := pkt_seq ds |}.

Definition with_counters (ep tx rx pkt : Z) (complete : bool) (ds : DtlsSession) : DtlsSession :=
  {| client_random := client_random ds; server_random := server_random ds;
     master_secret := master_secret ds; client_write_key := client_write_key ds;
     server_write_key := server_write_key ds; client_write_iv := client_write_iv ds;
     server_write_iv := server_write_iv ds; client_write_mac_key := client_write_mac_key ds;
     server_write_mac_key := server_write_mac_key ds; cipher_suite := cipher_suite ds;
     use_ems := use_ems ds; use_etm := use_etm ds; epoch := ep; tx_seq := tx; rx_seq := rx;
     handshake_complete := complete; d_relay_tag := d_relay_tag ds; pkt_seq := pkt |}.

Definition premaster_of (shared psk : list byte) : list byte :=
  [x00; zb 0x20] ++ shared ++ [x00; zb 0x20] ++ psk.

Definition client_key_exchange (account client_pub : list byte) : list byte :=
  let identity := str "AUTHPWD_" ++ account in
  [zb (Z.shiftr (zlen identity) 8); zb (zlen identity)] ++ identity ++ [zb 32] ++ client_pub.

Definition cke_message (cke : list byte) : list byte := build_dtls_hs_hdr 0x10 (zlen cke) 1 ++ cke.
Definition fin_message (verify : list byte) : list byte := build_dtls_hs_hdr 0x14 12 2 ++ verify.

(** The attempts to get the server's flight: what arrived, and the repeats of
    the ClientHello that were sent. *)
Fixpoint recv_flight (attempts : nat) (first : bool) (peer : Addr) (hello : list byte) (now : Z)
    (inbox : list Datagram) : option (list byte) * Z * list Datagram * list (Addr * list byte) :=
  match attempts with
  | O => (None, now, inbox, [])
  | S attempts =>
      let resent := if first then [] else [(peer, hello)] in
      let '(r, inbox, out) := recv_dtls_packet (Some peer) 1024 (now + 1000) inbox in
      match r with
      | Some (raw, t) =>
          let now := Z.max now t in
          if (length raw <? 13)%nat
          then let '(r, now, inbox, out') := recv_flight attempts false peer hello now inbox in
               (r, now, inbox, resent ++ out ++ out')
          else (Some raw, now, inbox, resent ++ out)
      | None =>
          let '(r, now, inbox, out') := recv_flight attempts false peer hello (now + 1000) inbox in
          (r, now, inbox, resent ++ out ++ out')
      end
  end.

(** From the parsed flight to the second flight: the session with its keys and
    the datagram. *)
Definition second_flight (env : Env) (peer : Addr) (token passwd account : list byte) (relay_tag : Z)
    (f : Flight) (ds : DtlsSession) : option (DtlsSession * list byte * list byte) :=
  match f_pub f with
  | None => None
  | Some server_pub =>
      match e_x25519 env server_pub with
      | None => None
      | Some (client_pub, shared) =>
          let cke := client_key_exchange account client_pub in
          let transcript := f_transcript f ++ cke_message cke in
          let ds := derive_session_keys (with_flight f ds)
                      (premaster_of shared (derive_psk passwd)) transcript in
          let fin := fin_message (finished_verify_data ds transcript (str "client finished")) in
          let transcript := transcript ++ fin in
          let ds := with_counters 1 0 (rx_seq ds) (pkt_seq ds) false ds in
          match dtls_encrypt_record ds 0x16 fin (e_iv env) with
          | (None, _) => None
          | (Some fin_rec, ds) =>
              let flight2 :=
                build_dtls_record_hdr 0x16 0 1 (u16 (12 + zlen cke)) ++ cke_message cke ++
                build_dtls_record_hdr 0x14 0 2 1 ++ [x01] ++ fin_rec in
              match build_dtls_packet (Some peer) 0 token flight2 (pkt_seq ds) relay_tag with
              | None => None
              | Some pkt =>
                  if e_sendto env pkt
                  then Some (with_counters (epoch ds) (tx_seq ds) (rx_seq ds)
                               (u16 (pkt_seq ds + 1)) false ds, transcript, pkt)
                  else None
              end
          end
      end
  end.

(** The handshake: the session when it completes, and every datagram sent. *)
Definition dtls_psk_handshake (env : Env) (peer : Addr) (token uid passwd account : list byte)
    (relay_tag now : Z) (inbox : list Datagram) : option DtlsSession * list (Addr * list byte) :=
  match e_random env with
  | None => (None, [])
  | Some random =>
      let ds := with_counters 0 0 0 1 false (zero_session relay_tag random) in
      match build_dtls_packet (Some peer) 0 token (build_client_hello random) 0 relay_tag with
      | None => (None, [])
      | Some hello =>
          if negb (e_sendto env hello) then (None, [])
          else
            let ctrl := build_ctrl0x33 uid token 0x02 in
            let sent := [(peer, hello); (peer, hello)] in
            match (match uid with [] => Some sent
                   | _ => if e_sendto env ctrl then Some (sent ++ [(peer, ctrl)]) else None end) with
            | None => (None, sent)
            | Some sent =>
                let '(flight, now, inbox, out) := recv_flight 3 true peer hello now inbox in
                let sent := sent ++ out in
                match flight with
                | None => (None, sent)
                | Some raw =>
                    match parse_server_hello_flight raw (hello_message random) with
                    | None => (None, sent)
                    | Some f =>
                        match second_flight env peer token passwd account relay_tag f ds with
                        | None => (None, sent)
                        | Some (ds, transcript, pkt) =>
                            let '(r, _, out) := recv_server_finished peer ds now inbox transcript in
                            let sent := sent ++ [(peer, pkt)] ++ out in
                            match r with
                            | None => (None, sent)
                            | Some (srv_fin, transcript) =>
                                if (length srv_fin <? 24)%nat then (None, sent)
                                else if bool_decide (sub 12 12 srv_fin =
                                          finished_verify_data ds transcript (str "server finished"))
                                then (Some (with_counters (epoch ds) 1 1 (pkt_seq ds) true ds), sent)
                                else (None, sent)
                            end
                        end
                    end
                end
            end
      end
  end.
End keys.
