(* ===== verification/DtlsServer.v ===== *)
(** A conforming server for the handshake of [DtlsHandshake], written from the
    protocol (RFC 5246, 5489, 6347), and the theorem that the client completes
    the handshake with it and ends up with its keys. *)

From S2P Require Import Prelude Text TransCode DtlsRecord Iotc DtlsHandshake.

(** ** What the server sends *)

Definition hs_msg (ty seq : Z) (body : list byte) : list byte :=
  build_dtls_hs_hdr ty (zlen body) seq ++ body.
Definition rec_of (ct ep seq : Z) (payload : list byte) : list byte :=
  build_dtls_record_hdr ct ep seq (zlen payload) ++ payload.

Definition ext_text (exts : list (Z * list byte)) : list byte :=
  concat ((fun x => enc_be16 x.1 ++ enc_be16 (zlen x.2) ++ x.2) <$> exts).

Record ServerHello := {
  s_random : list byte; s_session_id : list byte; s_suite : Z; s_exts : list (Z * list byte);
  s_pub : list byte
}.

Definition sh_body (h : ServerHello) : list byte :=
  [zb 0xfe; zb 0xfd] ++ s_random h ++ [zb (zlen (s_session_id h))] ++ s_session_id h ++
  enc_be16 (s_suite h) ++ [x00] ++ enc_be16 (zlen (ext_text (s_exts h))) ++ ext_text (s_exts h).

(** ServerKeyExchange: no PSK hint, named curve x25519, the 32-byte key. *)
Definition ske_body (h : ServerHello) : list byte :=
  [x00; x00; zb 0x03; x00; zb 0x1d; zb 32] ++ s_pub h.

Definition sh_msg (h : ServerHello) : list byte := hs_msg 0x02 0 (sh_body h).
Definition ske_msg (h : ServerHello) : list byte := hs_msg 0x0c 1 (ske_body h).
Definition shd_msg : list byte := hs_msg 0x0e 2 [].

Definition server_flight (h : ServerHello) : list byte :=
  rec_of 0x16 0 0 (sh_msg h) ++ rec_of 0x16 0 1 (ske_msg h) ++ rec_of 0x16 0 2 shd_msg.

Definition has_ext (ty : Z) (exts : list (Z * list byte)) : bool :=
  existsb (fun x => x.1 =? ty) exts.

Definition hello_ok (h : ServerHello) : Prop :=
  length (s_random h) = 32%nat /\ length (s_pub h) = 32%nat /\ zlen (s_session_id h) <= 32 /\
  (s_suite h = 0xC038 \/ s_suite h = 0xCCAC) /\
  Forall (fun x => 0 <= x.1 < 2 ^ 16 /\ zlen x.2 < 2 ^ 16) (s_exts h) /\
  zlen (ext_text (s_exts h)) <= 512.

(** ** Fields of handshake messages *)

Lemma read_be24_sum p i : read_be24 p i = (zat p i * 256 + zat p (i + 1)) * 256 + zat p (i + 2).
Proof.
  unfold read_be24, zat. rewrite <- !Z.lor_assoc. pose proof (bz_range (at_ p (i + 1))).
  pose proof (bz_range (at_ p (i + 2))).
  rewrite (lor_shiftl (bz (at_ p (i + 1)))) by lia. rewrite lor_shiftl by lia. lia.
Qed.

Lemma read_be24_enc v r : 0 <= v < 2 ^ 24 -> read_be24 (enc_be24 v ++ r) 0 = v.
Proof.
  intros Hv. rewrite read_be24_sum. unfold zat, at_, enc_be24. cbn -[zb Z.shiftr Z.mul Z.add].
  rewrite !bz_zb, !Z.shiftr_div_pow2 by lia. change (2 ^ 16) with (256 * 256). change (2 ^ 8) with 256.
  rewrite <- Z.div_div by lia. set (q1 := v / 256). set (q2 := q1 / 256).
  assert (v = 256 * q1 + v mod 256) by apply base256.
  assert (q1 = 256 * q2 + q1 mod 256) by apply base256.
  assert (0 <= q2 < 256).
  { unfold q2, q1. rewrite Z.div_div by lia. split; [apply Z.div_pos; lia|].
    apply Z.div_lt_upper_bound; lia. }
  rewrite (Z.mod_small q2) by lia. lia.
Qed.

Lemma read_be24_at p i : read_be24 p i = read_be24 (drop i p) 0.
Proof. rewrite !read_be24_sum. unfold zat. by rewrite !at_drop, Nat.add_0_r. Qed.

Lemma hs_msg_fields ty seq body :
  0 <= ty < 256 -> zlen body < 2 ^ 24 ->
  let m := hs_msg ty seq body in
  zat m 0 = ty /\ Z.to_nat (read_be24 m 1) = length body /\ length m = (12 + length body)%nat /\
  drop 12 m = body.
Proof.
  intros Ht Hb. cbv zeta. unfold hs_msg, build_dtls_hs_hdr. rewrite <- !app_assoc.
  rewrite (read_be24_at _ 1). split_and!.
  - unfold zat, at_. cbn -[zb]. by apply bz_zb_small.
  - change (drop 1 _) with (enc_be24 (zlen body) ++ enc_be16 seq ++ [x00; x00; x00] ++ enc_be24 (zlen body) ++ body).
    rewrite read_be24_enc by (unfold zlen in *; lia). unfold zlen. lia.
  - rewrite !length_app. done.
  - done.
Qed.

Lemma read_handshake_msg ty seq body f :
  0 <= ty < 256 -> zlen body < 2 ^ 24 ->
  read_handshake (hs_msg ty seq body) f =
  if ty =? 0x0e then Some (to_transcript kServerHelloDone f)
  else
    let f := to_transcript (hs_msg ty seq body) f in
    if ty =? 0x02 then read_server_hello body f
    else if ty =? 0x0c then Some (read_server_key body f) else Some f.
Proof.
  intros Ht Hb. destruct (hs_msg_fields ty seq body Ht Hb) as (F1 & F2 & F3 & F4). cbv zeta in *.
  unfold read_handshake. rewrite F1, F2, F3, (proj2 (Nat.ltb_ge _ _)) by lia. cbv zeta.
  unfold sub. rewrite F4, (take_ge (hs_msg ty seq body)), (take_ge body) by lia. done.
Qed.

(** One record of the flight. *)
Lemma flight_step fuel seq payload rest f :
  (12 <= length payload)%nat -> zlen payload < 2 ^ 16 -> 0 <= seq < 2 ^ 48 ->
  flight_loop (S fuel) (rec_of 0x16 0 seq payload ++ rest) f =
  match read_handshake payload f with None => None | Some f => flight_loop fuel rest f end.
Proof.
  intros Hp Hl Hs. cbn [flight_loop]. unfold rec_of. rewrite <- app_assoc.
  destruct (record_hdr_fields 0x16 0 seq (zlen payload) (payload ++ rest) Hs) as (F1 & _ & _ & F4 & F5).
  cbv zeta in *. rewrite F4, u16_small by (unfold zlen in *; lia). unfold zlen. rewrite Nat2Z.id.
  fold (zlen payload). rewrite !length_app, length_record_hdr.
  do 2 rewrite (proj2 (Nat.ltb_ge _ _)) by lia.
  rewrite F1, (proj2 (Nat.ltb_ge _ 12)) by lia. cbn [negb orb]. change (u8 0x16 =? 0x16) with true. cbn [negb orb].
  rewrite <- drop_drop, F5, drop_app_length. unfold sub. by rewrite F5, take_app_length.
Qed.

(** ** The ServerHello *)

Lemma zat_app_r a b i : zat (a ++ b) (length a + i) = zat b i.
Proof. unfold zat. by rewrite <- at_drop, drop_app_length. Qed.

Lemma read_be16_app_r a b i : read_be16 (a ++ b) (length a + i) = read_be16 b i.
Proof. rewrite (read_be16_at (a ++ b)), (read_be16_at b), <- drop_drop, drop_app_length. done. Qed.

Lemma length_ext_text_cons x exts :
  length (ext_text (x :: exts)) = (4 + length x.2 + length (ext_text exts))%nat.
Proof. unfold ext_text. rewrite fmap_cons. cbn [concat]. rewrite !length_app. simpl. lia. Qed.

Lemma ext_loop_text fuel pre exts ems etm :
  Forall (fun x => 0 <= x.1 < 2 ^ 16 /\ zlen x.2 < 2 ^ 16) exts -> (length exts <= fuel)%nat ->
  ext_loop fuel (length pre) (length pre + length (ext_text exts)) (pre ++ ext_text exts) ems etm =
  (ems || has_ext 0x17 exts, etm || has_ext 0x16 exts).
Proof.
  intros Hok. revert fuel pre ems etm. induction Hok as [|[ty d] exts [Ht Hd] Hok IH];
    intros fuel pre ems etm Hf.
  - rewrite !orb_false_r. destruct fuel as [|fuel]; [done|]. cbn [ext_loop].
    rewrite (proj2 (Nat.ltb_lt _ _)); [done|]. simpl. lia.
  - destruct fuel as [|fuel]; [simpl in Hf; lia|]. cbn [ext_loop fst snd] in *.
    rewrite length_ext_text_cons. cbn [snd]. rewrite (proj2 (Nat.ltb_ge _ _)) by lia.
    assert (E : ext_text ((ty, d) :: exts) = enc_be16 ty ++ enc_be16 (zlen d) ++ d ++ ext_text exts)
      by (unfold ext_text; rewrite fmap_cons; cbn [concat fst snd]; by rewrite <- !app_assoc).
    assert (F1 : read_be16 (pre ++ ext_text ((ty, d) :: exts)) (length pre) = ty).
    { rewrite <- (Nat.add_0_r (length pre)), read_be16_app_r, E, read_be16_enc. by apply u16_small. }
    assert (F2 : read_be16 (pre ++ ext_text ((ty, d) :: exts)) (length pre + 2) = zlen d).
    { rewrite read_be16_app_r, E, read_be16_at.
      change (drop 2 _) with (enc_be16 (zlen d) ++ d ++ ext_text exts). rewrite read_be16_enc.
      apply u16_small. unfold zlen in *. lia. }
    rewrite F1, F2, to_nat_zlen.
    replace (pre ++ ext_text ((ty, d) :: exts))
      with ((pre ++ enc_be16 ty ++ enc_be16 (zlen d) ++ d) ++ ext_text exts)
      by (rewrite E, <- !app_assoc; done).
    assert (Hl : length (pre ++ enc_be16 ty ++ enc_be16 (zlen d) ++ d) = (length pre + 4 + length d)%nat)
      by (rewrite !length_app; simpl; lia).
    replace (length pre + (4 + length d + length (ext_text exts)))%nat
      with (length (pre ++ enc_be16 ty ++ enc_be16 (zlen d) ++ d) + length (ext_text exts))%nat by lia.
    rewrite <- Hl, IH by (simpl in Hf; lia). cbn [has_ext existsb fst]. by rewrite !orb_assoc.
Qed.

Lemma length_exts exts : (4 * length exts <= length (ext_text exts))%nat.
Proof.
  induction exts as [|x exts IH]; [done|]. rewrite length_ext_text_cons. simpl. lia.
Qed.

Definition hello_flight (h : ServerHello) (f : Flight) : Flight :=
  {| f_random := s_random h; f_suite := s_suite h; f_ems := f_ems f || has_ext 0x17 (s_exts h);
     f_etm := f_etm f || has_ext 0x16 (s_exts h); f_pub := f_pub f; f_transcript := f_transcript f |}.

Lemma read_sh_body h f : hello_ok h -> read_server_hello (sh_body h) f = Some (hello_flight h f).
Proof.
  intros (Hr & Hp & Hsid & Hsu & Hex & Hel). unfold zlen in Hsid, Hel.
  set (head := [zb 0xfe; zb 0xfd] ++ s_random h). set (sid := s_session_id h) in *.
  set (tail := enc_be16 (s_suite h) ++ [x00] ++ enc_be16 (zlen (ext_text (s_exts h))) ++ ext_text (s_exts h)).
  assert (E1 : sh_body h = head ++ [zb (zlen sid)] ++ sid ++ tail)
    by (unfold sh_body, head, tail; by rewrite <- !app_assoc).
  assert (Hh : length head = 34%nat) by (unfold head; rewrite length_app, Hr; done).
  assert (E2 : sh_body h = (head ++ [zb (zlen sid)] ++ sid) ++ tail) by (rewrite E1, <- !app_assoc; done).
  set (pre := head ++ [zb (zlen sid)] ++ sid) in *.
  assert (Hpre : length pre = (35 + length sid)%nat) by (unfold pre; rewrite !length_app, Hh; simpl; lia).
  assert (Ht : length tail = (5 + length (ext_text (s_exts h)))%nat)
    by (unfold tail; rewrite !length_app; simpl; lia).
  assert (Hl : length (sh_body h) = (40 + length sid + length (ext_text (s_exts h)))%nat)
    by (rewrite E2, length_app; lia).
  assert (F34 : zat (sh_body h) 34 = zlen sid).
  { rewrite E1, <- Hh, <- (Nat.add_0_r (length head)), zat_app_r. unfold zat, at_. cbn -[zb].
    apply bz_zb_small. unfold zlen. lia. }
  unfold read_server_hello. rewrite F34. cbv zeta. rewrite to_nat_zlen, Hl. do 2 rewrite (proj2 (Nat.ltb_ge _ _)) by lia.
  replace (2 + 32 + 1 + length sid)%nat with (length pre) by lia.
  assert (Fs : read_be16 (sh_body h) (length pre) = s_suite h).
  { rewrite <- (Nat.add_0_r (length pre)), E2, read_be16_app_r. unfold tail. rewrite read_be16_enc.
    apply u16_small. destruct Hsu as [-> | ->]; lia. }
  assert (Fe : read_be16 (sh_body h) (length pre + 3) = zlen (ext_text (s_exts h))).
  { rewrite E2, read_be16_app_r. unfold tail. rewrite read_be16_at.
    change (drop 3 _) with (enc_be16 (zlen (ext_text (s_exts h))) ++ ext_text (s_exts h)).
    rewrite read_be16_enc. apply u16_small. unfold zlen. lia. }
  rewrite Fs, Fe. rewrite (proj2 (Nat.leb_le _ _)) by lia. rewrite to_nat_zlen.
  set (pre2 := pre ++ enc_be16 (s_suite h) ++ [x00] ++ enc_be16 (zlen (ext_text (s_exts h)))).
  assert (Hpre2 : length pre2 = (length pre + 5)%nat) by (unfold pre2; rewrite !length_app; simpl; lia).
  replace (length pre + 3 + 2)%nat with (length pre2) by lia.
  rewrite Nat.min_r by lia.
  replace (sh_body h) with (pre2 ++ ext_text (s_exts h)) at 1
    by (rewrite E2; unfold pre2, tail; by rewrite <- !app_assoc).
  rewrite ext_loop_text by (done || (pose proof (length_exts (s_exts h)); lia)).
  unfold hello_flight. repeat f_equal. rewrite E1. unfold head. rewrite <- app_assoc.
  unfold sub. cbn [drop app]. rewrite drop_0. apply take_app_length'. done.
Qed.

Lemma read_ske_body h f :
  hello_ok h ->
  read_server_key (ske_body h) f =
  {| f_random := f_random f; f_suite := f_suite f; f_ems := f_ems f; f_etm := f_etm f;
     f_pub := Some (s_pub h); f_transcript := f_transcript f |}.
Proof.
  intros (_ & Hp & _). unfold read_server_key, ske_body.
  rewrite length_app, Hp. unfold sub. rewrite drop_app_length' by done.
  rewrite take_ge by lia. done.
Qed.

(** What the client knows after the server's flight. *)
Definition flight_of (h : ServerHello) (transcript : list byte) : Flight :=
  {| f_random := s_random h; f_suite := s_suite h; f_ems := has_ext 0x17 (s_exts h);
     f_etm := has_ext 0x16 (s_exts h); f_pub := Some (s_pub h);
     f_transcript := transcript ++ sh_msg h ++ ske_msg h ++ shd_msg |}.

Lemma length_sh_body h :
  hello_ok h ->
  length (sh_body h) = (40 + length (s_session_id h) + length (ext_text (s_exts h)))%nat.
Proof.
  intros (Hr & _). unfold sh_body. rewrite !length_app, Hr. simpl. lia.
Qed.

Lemma length_hs_msg ty seq body : length (hs_msg ty seq body) = (12 + length body)%nat.
Proof. unfold hs_msg. rewrite length_app. done. Qed.

Lemma length_rec_of ct ep seq payload : length (rec_of ct ep seq payload) = (13 + length payload)%nat.
Proof. unfold rec_of. rewrite length_app. done. Qed.

Lemma length_server_flight h :
  hello_ok h ->
  length (server_flight h) =
  (153 + length (s_session_id h) + length (ext_text (s_exts h)))%nat.
Proof.
  intros Hok. unfold server_flight, sh_msg, ske_msg, shd_msg.
  rewrite !length_app, !length_rec_of, !length_hs_msg, length_sh_body by done.
  unfold ske_body. rewrite length_app. destruct Hok as (_ & -> & _). simpl. lia.
Qed.

Lemma flight_parses h transcript :
  hello_ok h ->
  parse_server_hello_flight (server_flight h) transcript = Some (flight_of h transcript).
Proof.
  intros Hok. pose proof (length_server_flight h Hok) as Hl. pose proof (length_sh_body h Hok) as Hsh.
  pose proof Hok as (_ & Hp & Hsid & Hsu & _ & Hel). unfold zlen in Hsid, Hel.
  assert (Hske : length (ske_body h) = 38%nat) by (unfold ske_body; rewrite length_app, Hp; done).
  unfold parse_server_hello_flight. cbv zeta.
  replace (zat (server_flight h) 0) with 0x16 by done.
  replace (zat (server_flight h) 13) with 0x02 by done.
  change (0x16 =? 0x15) with false. rewrite andb_false_r, (proj2 (Nat.ltb_ge _ _)) by lia. cbn [negb orb].
  change (negb (0x16 =? 0x16)) with false. change (negb (0x02 =? 0x02)) with false. cbn [orb].
  assert (H4 : exists n, length (server_flight h) = S (S (S (S n)))) by (exists (length (server_flight h) - 4)%nat; lia).
  destruct H4 as [n ->]. unfold server_flight.
  rewrite flight_step by (unfold sh_msg, zlen; rewrite ?length_hs_msg; lia).
  unfold sh_msg. rewrite read_handshake_msg by (unfold zlen; lia). cbn [Z.eqb Pos.eqb]. cbv zeta.
  rewrite read_sh_body by done.
  rewrite flight_step by (unfold ske_msg, zlen; rewrite ?length_hs_msg; lia).
  unfold ske_msg. rewrite read_handshake_msg by (unfold zlen; lia). cbn [Z.eqb Pos.eqb]. cbv zeta.
  rewrite read_ske_body by done.
  rewrite <- (app_nil_r (rec_of 0x16 0 2 shd_msg)), flight_step by (vm_compute; (lia || (split; (discriminate || reflexivity)))).
  unfold shd_msg. rewrite read_handshake_msg by (vm_compute; (reflexivity || (split; (discriminate || reflexivity)))).
  cbn [Z.eqb Pos.eqb flight_loop]. change ((length (@nil byte) <? 13 + 12)%nat) with true. cbv iota.
  cbn [to_transcript hello_flight f_suite f_pub f_ems f_etm f_random f_transcript orb].
  replace (negb (s_suite h =? 0xC038) && negb (s_suite h =? 0xCCAC)) with false
    by (destruct Hsu as [-> | ->]; done).
  replace kServerHelloDone with shd_msg by (vm_compute; reflexivity).
  unfold flight_of, to_transcript, sh_msg, ske_msg. cbn [f_suite f_pub f_ems f_etm f_random f_transcript].
  by rewrite <- !app_assoc.
Qed.
