(* ===== verification/DtlsAgree.v ===== *)
(** The client of [DtlsHandshake] against the server of [DtlsServer]: arrival of
    the server's datagrams among others, the server's own keys and Finished, and
    the theorem that the handshake completes with both sides in agreement. *)

From S2P Require Import Prelude Text TransCode DtlsRecord Iotc DtlsHandshake DtlsServer.

(** ** Datagrams that carry DTLS *)

(** The 28 bytes before the DTLS records. *)
Definition dtls_hdr_ok (hdr : list byte) : Prop :=
  length hdr = 28%nat /\ zat hdr 0 = 0x04 /\ zat hdr 1 = 0x02.

Definition dtls_first (data : list byte) : bool :=
  (zat data 0 =? 0x16) || (zat data 0 =? 0x14) || (zat data 0 =? 0x15).

Definition dtls_datagram (t : Z) (src : Addr) (hdr data : list byte) : Datagram :=
  {| g_time := t; g_src := src; g_raw := scramble_tx (hdr ++ data) |}.

Lemma classify_dtls_datagram peer buf t hdr data :
  dtls_hdr_ok hdr -> dtls_first data = true -> (1 <= length data <= 1024)%nat -> (length data <= buf)%nat ->
  classify_dtls (Some peer) buf (cut 2048 (dtls_datagram t peer hdr data)) = Payload data.
Proof.
  intros (Hl & H0 & H1) Hf Hd Hb. unfold classify_dtls, cut, dtls_datagram. cbn [g_raw g_src].
  assert (Hs : length (scramble_tx (hdr ++ data)) = (28 + length data)%nat)
    by (rewrite length_scramble_tx, length_app; lia).
  rewrite take_ge by lia. rewrite Hs, (proj2 (Nat.ltb_ge _ _)) by lia.
  rewrite bool_decide_eq_true_2 by done. cbn [negb]. rewrite descramble_scramble.
  rewrite !zat_app_l by lia. rewrite H0, H1. cbn [negb orb Z.eqb Pos.eqb].
  rewrite (proj2 (Nat.eqb_neq _ _)) by lia. cbn [andb].
  rewrite (proj2 (Nat.ltb_ge (28 + length data) 28)) by lia. rewrite drop_app_length' by done.
  rewrite (proj2 (Nat.ltb_ge (length data) 1)) by lia.
  replace (zat (hdr ++ data) 28) with (zat data 0) by (rewrite <- Hl, <- (Nat.add_0_r (length hdr)); by rewrite zat_app_r).
  unfold dtls_first in Hf. rewrite <- !negb_orb. rewrite Hf. cbn [negb orb].
  by rewrite (proj2 (Nat.ltb_ge _ _)) by lia.
Qed.

(** ** Other datagrams in the queue *)

(** Not a DTLS datagram of the peer, and in the queue before time [t]. *)
Definition stray (peer : Addr) (t : Z) (g : Datagram) : Prop :=
  g_time g <= t /\ forall data, classify_dtls (Some peer) 1024 (cut 2048 g) <> Payload data.

Lemma recv_arrives peer deadline strays d data rest :
  Forall (stray peer (g_time d)) strays -> g_time d < deadline ->
  classify_dtls (Some peer) 1024 (cut 2048 d) = Payload data ->
  exists out, recv_dtls_packet (Some peer) 1024 deadline (strays ++ d :: rest) =
    (Some (data, g_time d), rest, out).
Proof.
  intros Hs Hd Hc. induction Hs as [|g strays [Hg Hp] Hs IH]; cbn [app recv_dtls_packet].
  - rewrite (proj2 (Z.leb_gt _ _)), Hc by lia. eauto.
  - rewrite (proj2 (Z.leb_gt _ _)) by lia. destruct IH as [out ->].
    destruct (classify_dtls (Some peer) 1024 (cut 2048 g)) eqn:E; [eauto | eauto |]. by destruct (Hp data0).
Qed.

Lemma recv_waits peer deadline strays d rest :
  Forall (stray peer (g_time d)) strays -> deadline <= g_time d ->
  exists strays' out, recv_dtls_packet (Some peer) 1024 deadline (strays ++ d :: rest) =
    (None, strays' ++ d :: rest, out) /\ Forall (stray peer (g_time d)) strays' /\
    (length strays' <= length strays)%nat.
Proof.
  intros Hs Hd. induction Hs as [|g strays [Hg Hp] Hs IH]; cbn [app recv_dtls_packet].
  - rewrite (proj2 (Z.leb_le _ _)) by lia. exists [], []. done.
  - destruct (Z.leb_spec deadline (g_time g)).
    + exists (g :: strays), []. split; [done|]. split; [|done]. by constructor.
    + destruct IH as (s' & out & -> & Hs' & Hl).
      destruct (classify_dtls (Some peer) 1024 (cut 2048 g)) eqn:E; [| |by destruct (Hp data)].
      * exists s', out. split; [done|]. split; [done|]. simpl. lia.
      * eexists s', _. split; [done|]. split; [done|]. simpl. lia.
Qed.

(** The client gets the server's flight if it comes within the attempts. *)
Lemma recv_flight_arrives n first peer hello now strays d data rest :
  Forall (stray peer (g_time d)) strays -> (0 < n)%nat -> g_time d < now + 1000 * Z.of_nat n ->
  classify_dtls (Some peer) 1024 (cut 2048 d) = Payload data -> (13 <= length data)%nat ->
  exists out, recv_flight n first peer hello now (strays ++ d :: rest) =
    (Some data, Z.max now (g_time d), rest, out).
Proof.
  intros Hs Hn Hd Hc Hl. revert first now strays Hs Hn Hd.
  induction n as [|n IH]; intros first now strays Hs Hn Hd; [lia|].
  cbn [recv_flight]. cbv zeta. destruct (Z.lt_ge_cases (g_time d) (now + 1000)) as [Ht|Ht].
  - destruct (recv_arrives peer (now + 1000) strays d data rest) as [out ->]; [done..|].
    rewrite (proj2 (Nat.ltb_ge _ _)) by lia. eauto.
  - destruct (recv_waits peer (now + 1000) strays d rest) as (s' & out & -> & Hs' & _); [done..|].
    destruct (IH false (now + 1000) s') as [out' ->]; [done | lia | lia |].
    replace (Z.max (now + 1000) (g_time d)) with (Z.max now (g_time d)) by lia. eauto.
Qed.

Section finished.
Context `{Crypto}.

(** The server's last flight is looked at if it comes within the deadline. *)
Lemma recv_finished_arrives fuel peer ds now deadline strays d data rest transcript transcript' plain :
  Forall (stray peer (g_time d)) strays -> now < deadline ->
  deadline <= now + 1000 * Z.of_nat fuel -> g_time d < deadline ->
  classify_dtls (Some peer) 1024 (cut 2048 d) = Payload data -> (13 <= length data)%nat ->
  finished_records (length data) data ds transcript = Fin transcript' (Some plain) ->
  exists out, recv_finished_loop fuel peer ds now deadline (strays ++ d :: rest) transcript =
    (Some (plain, transcript'), rest, out).
Proof.
  intros Hs Hn Hf Hd Hc Hl Hr. revert now strays Hs Hn Hf.
  induction fuel as [|fuel IH]; intros now strays Hs Hn Hf; [lia|].
  cbn [recv_finished_loop]. cbv zeta. rewrite (proj2 (Z.leb_gt deadline now)) by lia.
  destruct (Z.lt_ge_cases (g_time d) (now + 1000)) as [Ht|Ht].
  - destruct (recv_arrives peer (now + 1000) strays d data rest) as [out ->]; [done..|].
    rewrite (proj2 (Nat.ltb_ge _ _)), Hr by lia. eauto.
  - destruct (recv_waits peer (now + 1000) strays d rest) as (s' & out & -> & Hs' & _); [done..|].
    destruct (IH (now + 1000) s') as [out' ->]; [done | lia | lia |]. eauto.
Qed.

(** ** The records of the last flight *)

Lemma handshake_rec_skipped fuel seq payload rest ds transcript :
  zlen payload < 2 ^ 16 -> 0 <= seq < 2 ^ 48 ->
  finished_records (S fuel) (rec_of 0x16 0 seq payload ++ rest) ds transcript =
  finished_records fuel rest ds (transcript ++ payload).
Proof.
  intros Hl Hs. cbn [finished_records]. unfold rec_of. rewrite <- app_assoc.
  destruct (record_hdr_fields 0x16 0 seq (zlen payload) (payload ++ rest) Hs) as (F1 & F2 & _ & F4 & F5).
  cbv zeta in *. rewrite F1, F2, F4, u16_small by (unfold zlen in *; lia). rewrite to_nat_zlen.
  rewrite !length_app, length_record_hdr. do 2 rewrite (proj2 (Nat.ltb_ge _ _)) by lia.
  change (u8 0x16 =? 0x15) with false. change (u8 0x16 =? 0x16) with true. change (u16 0 =? 0) with true.
  cbn [negb]. rewrite <- drop_drop, F5, drop_app_length. unfold sub. rewrite F5.
  replace (13 + length payload - 13)%nat with (length payload) by lia. by rewrite take_app_length.
Qed.

Lemma ccs_skipped fuel seq rest ds transcript :
  0 <= seq < 2 ^ 48 ->
  finished_records (S fuel) (rec_of 0x14 0 seq [x01] ++ rest) ds transcript =
  finished_records fuel rest ds transcript.
Proof.
  intros Hs. cbn [finished_records]. unfold rec_of. rewrite <- app_assoc.
  destruct (record_hdr_fields 0x14 0 seq (zlen [x01]) ([x01] ++ rest) Hs) as (F1 & F2 & _ & F4 & F5).
  cbv zeta in *. rewrite F1, F4. change (Z.to_nat (u16 (zlen [x01]))) with 1%nat.
  rewrite !length_app, length_record_hdr. change (length [x01]) with 1%nat.
  do 2 rewrite (proj2 (Nat.ltb_ge _ _)) by lia.
  change (u8 0x14 =? 0x15) with false. change (u8 0x14 =? 0x16) with false. cbn [negb].
  rewrite <- drop_drop, F5. done.
Qed.

Lemma finished_rec_opened fuel seq payload ds transcript :
  zlen payload < 2 ^ 16 -> 0 <= seq < 2 ^ 48 ->
  let rec := rec_of 0x16 1 seq payload in
  finished_records (S fuel) rec ds transcript = Fin transcript (dtls_decrypt_record ds rec 64).
Proof.
  intros Hl Hs. cbv zeta. cbn [finished_records].
  destruct (record_hdr_fields 0x16 1 seq (zlen payload) payload Hs) as (F1 & F2 & _ & F4 & F5).
  cbv zeta in *. fold (rec_of 0x16 1 seq payload) in *.
  rewrite F1, F2, F4, u16_small by (unfold zlen in *; lia). rewrite to_nat_zlen, length_rec_of.
  do 2 rewrite (proj2 (Nat.ltb_ge _ _)) by lia.
  change (u8 0x16 =? 0x15) with false. change (u8 0x16 =? 0x16) with true. change (u16 1 =? 0) with false.
  cbn [negb]. by rewrite take_ge by (rewrite length_rec_of; lia).
Qed.
End finished.

(** ** The server's keys and last flight *)

Section server.
Context `{Crypto}.
Variables (h : ServerHello) (random cpub shared passwd account : list byte) (ticket : option (list byte)).

(** RFC 5489, section 2: the ECDHE_PSK premaster secret and ClientKeyExchange. *)
Definition s_premaster : list byte :=
  enc_be16 (zlen shared) ++ shared ++ enc_be16 32 ++ derive_psk passwd.
Definition s_cke : list byte :=
  let identity := str "AUTHPWD_" ++ account in
  hs_msg 0x10 1 (enc_be16 (zlen identity) ++ identity ++ [zb (zlen cpub)] ++ cpub).
Definition s_transcript : list byte :=
  hello_message random ++ sh_msg h ++ ske_msg h ++ shd_msg ++ s_cke.

(** RFC 5246, section 8.1, and RFC 7627, section 4. *)
Definition s_master : list byte :=
  if has_ext 0x17 (s_exts h)
  then suite_prf (s_suite h) s_premaster (str "extended master secret")
         (transcript_hash (s_suite h) s_transcript) 48
  else suite_prf (s_suite h) s_premaster (str "master secret") (random ++ s_random h) 48.

(** RFC 5246, section 6.3: MAC keys, keys and IVs, the client's first; the
    server writes with the second of each pair. *)
Definition s_key_block (n : nat) : list byte :=
  suite_prf (s_suite h) s_master (str "key expansion") (s_random h ++ random) n.

Definition server_session : DtlsSession :=
  let cbc := s_suite h =? 0xC038 in
  let n := if cbc then 192%nat else 88%nat in
  let kb := s_key_block n in
  let mac := if cbc then 48%nat else 0%nat in
  let iv := if cbc then 16%nat else 12%nat in
  {| client_random := random; server_random := s_random h; master_secret := s_master;
     client_write_mac_key := sub mac mac kb; server_write_mac_key := sub 0 mac kb;
     client_write_key := sub (2 * mac + 32) 32 kb; server_write_key := sub (2 * mac) 32 kb;
     client_write_iv := sub (2 * mac + 64 + iv) iv kb; server_write_iv := sub (2 * mac + 64) iv kb;
     cipher_suite := s_suite h; use_ems := has_ext 0x17 (s_exts h); use_etm := has_ext 0x16 (s_exts h);
     epoch := 1; tx_seq := 0; rx_seq := 0; handshake_complete := false; d_relay_tag := 0; pkt_seq := 0 |}.

(** RFC 5246, section 7.4.9. *)
Definition s_verify (label transcript : list byte) : list byte :=
  suite_prf (s_suite h) s_master label (transcript_hash (s_suite h) transcript) 12.
Definition s_client_fin : list byte :=
  hs_msg 0x14 2 (s_verify (str "client finished") s_transcript).

Definition ticket_msg : list byte :=
  match ticket with Some t => hs_msg 0x04 3 t | None => [] end.
Definition s_fin : list byte :=
  hs_msg 0x14 4 (s_verify (str "server finished") (s_transcript ++ s_client_fin ++ ticket_msg)).

(** [NewSessionTicket], ChangeCipherSpec, Finished, in one datagram. *)
Definition last_flight (iv : list byte) : list byte :=
  (match ticket with Some _ => rec_of 0x16 0 3 ticket_msg | None => [] end) ++
  rec_of 0x14 0 4 [x01] ++
  default [] (dtls_encrypt_record server_session 0x16 s_fin (Some iv)).1.
End server.

Section agreement.
Context `{CryptoLaws}.

Lemma length_suite_prf suite secret label seed n : length (suite_prf suite secret label seed n) = n.
Proof.
  unfold suite_prf. destruct (suite =? 0xC038); apply length_prf; try lia;
    [apply hmac384_length | apply hmac256_length].
Qed.

Lemma length_s_fin h random cpub shared passwd account ticket :
  length (s_fin h random cpub shared passwd account ticket) = 24%nat.
Proof. unfold s_fin, s_verify. by rewrite length_hs_msg, length_suite_prf. Qed.

(** The client reads the server's last flight. *)
Lemma last_flight_read h random cpub shared passwd account ticket iv ds transcript :
  keys_agree (server_session h random cpub shared passwd account) ds -> length iv = 16%nat ->
  zlen (ticket_msg ticket) <= 512 ->
  let data := last_flight h random cpub shared passwd account ticket iv in
  dtls_first data = true /\ (13 <= length data <= 1024)%nat /\
  finished_records (length data) data ds transcript =
    Fin (transcript ++ ticket_msg ticket) (Some (s_fin h random cpub shared passwd account ticket)).
Proof.
  intros Hk Hiv Ht. cbv zeta. unfold last_flight.
  set (fin := s_fin h random cpub shared passwd account ticket).
  assert (Hfin : length fin = 24%nat) by apply length_s_fin.
  destruct (record_opens (server_session h random cpub shared passwd account) ds 0x16 fin iv 64 Hk)
    as (p & E & Hp & Hd); [lia | by vm_compute | by vm_compute | done | unfold kMaxRecordPlaintext; lia | lia |].
  cbv zeta in *. rewrite E. cbn [fst default from_option id].
  change (build_dtls_record_hdr 0x16 _ _ (zlen p) ++ p) with (rec_of 0x16 1 0 p) in *.
  specialize (Hd []). rewrite app_nil_r in Hd. unfold zlen in Hp, Ht. rewrite Hfin in Hp.
  assert (Hend : forall fuel tr, (2 <= fuel)%nat ->
    finished_records fuel (rec_of 0x14 0 4 [x01] ++ rec_of 0x16 1 0 p) ds tr = Fin tr (Some fin)).
  { intros fuel tr Hf. destruct fuel as [|[|fuel]]; [lia | lia |].
    rewrite ccs_skipped, finished_rec_opened, Hd by (unfold zlen; lia). done. }
  destruct ticket as [t|].
  - rewrite !length_app, !length_rec_of. cbn [length].
    split; [done|]. split; [lia|].
    replace (13 + length (ticket_msg (Some t)) + (13 + 1 + (13 + length p)))%nat
      with (S (39 + length (ticket_msg (Some t)) + length p)) by lia.
    rewrite handshake_rec_skipped by (unfold zlen; lia). apply Hend. lia.
  - cbn [app]. rewrite !length_app, !length_rec_of. cbn [length].
    split; [done|]. split; [lia|]. rewrite Hend by lia. by rewrite app_nil_r.
Qed.

(** The client's session after the second flight. *)
Definition client_session (h : ServerHello) (random cpub shared passwd account : list byte) (relay_tag : Z)
    : DtlsSession :=
  derive_session_keys
    (with_flight (flight_of h (hello_message random)) (with_counters 0 0 0 1 false (zero_session relay_tag random)))
    (premaster_of shared (derive_psk passwd)) (s_transcript h random cpub account).

Lemma client_master h random cpub shared passwd account tag :
  length shared = 32%nat ->
  master_secret (client_session h random cpub shared passwd account tag) =
  s_master h random cpub shared passwd account.
Proof.
  intros Hs. unfold client_session, derive_session_keys.
  destruct (split_key_block _ _) as [[[[[? ?] ?] ?] ?] ?]. cbn [master_secret].
  unfold derive_master, s_master, s_premaster, zlen. rewrite Hs. done.
Qed.

Lemma client_counters h random cpub shared passwd account tag :
  let cl := client_session h random cpub shared passwd account tag in
  cipher_suite cl = s_suite h /\ rx_seq cl = 0 /\ pkt_seq cl = 1.
Proof.
  unfold client_session, derive_session_keys.
  by destruct (split_key_block _ _) as [[[[[? ?] ?] ?] ?] ?].
Qed.

Lemma client_keys_agree h random cpub shared passwd account tag ep tx rx pkt c :
  length shared = 32%nat ->
  let cl := with_counters ep tx rx pkt c (client_session h random cpub shared passwd account tag) in
  let sv := server_session h random cpub shared passwd account in
  keys_agree cl sv /\ keys_agree sv cl.
Proof.
  intros Hs. cbv zeta. pose proof (client_master h random cpub shared passwd account tag Hs) as Hm.
  revert Hm. unfold client_session, derive_session_keys.
  set (ds := with_flight _ _). set (m := derive_master ds _ _).
  assert (Hc : cipher_suite ds = s_suite h) by done.
  assert (Hr : server_random ds ++ client_random ds = s_random h ++ random) by done.
  rewrite Hc, Hr. unfold split_key_block, key_block_len, keys_agree, server_session, s_key_block.
  destruct (s_suite h =? 0xC038) eqn:E;
    cbn [master_secret]; intros Hm; rewrite <- Hm; cbn; done.
Qed.
Definition flight2 (account cpub crec : list byte) : list byte :=
  rec_of 0x16 0 1 (s_cke cpub account) ++ rec_of 0x14 0 2 [x01] ++ crec.

Definition flight2_datagram (peer : Addr) (token account cpub crec : list byte) (tag : Z) : list byte :=
  let data := flight2 account cpub crec in
  scramble_tx (dtls_header (is_relay_addr (Some peer)) 0 token (12 + zlen data) 1 tag ++ data).

Lemma cke_agrees account cpub :
  length cpub = 32%nat -> cke_message (client_key_exchange account cpub) = s_cke cpub account.
Proof. intros Hc. unfold s_cke, cke_message, hs_msg, client_key_exchange, zlen. by rewrite Hc. Qed.

Lemma fin_agrees ds transcript h random cpub shared passwd account label :
  cipher_suite ds = s_suite h -> master_secret ds = s_master h random cpub shared passwd account ->
  finished_verify_data ds transcript label = s_verify h random cpub shared passwd account label transcript.
Proof. intros Hs Hm. unfold finished_verify_data, s_verify. by rewrite Hs, Hm. Qed.

Lemma length_s_cke account cpub :
  length cpub = 32%nat -> length (s_cke cpub account) = (55 + length account)%nat.
Proof. intros Hc. unfold s_cke. rewrite length_hs_msg, !length_app, Hc. simpl. lia. Qed.

Lemma second_flight_sent env peer token passwd account tag h random cpub shared civ :
  e_iv env = Some civ -> length civ = 16%nat -> (forall p, e_sendto env p = true) ->
  e_x25519 env (s_pub h) = Some (cpub, shared) -> length cpub = 32%nat -> length shared = 32%nat ->
  zlen account <= 1024 ->
  let cl := client_session h random cpub shared passwd account tag in
  exists crec,
    second_flight env peer token passwd account tag (flight_of h (hello_message random))
      (with_counters 0 0 0 1 false (zero_session tag random)) =
    Some (with_counters 1 1 0 2 false cl,
          s_transcript h random cpub account ++ s_client_fin h random cpub shared passwd account,
          flight2_datagram peer token account cpub crec tag) /\
    dtls_decrypt_record (server_session h random cpub shared passwd account) crec 64 =
      Some (s_client_fin h random cpub shared passwd account).
Proof.
  intros Hiv Hl16 Hsend Hx Hc Hs Hacc. cbv zeta. unfold second_flight. cbn [f_pub flight_of].
  rewrite Hx, Hiv. cbv zeta. rewrite cke_agrees by done.
  replace (f_transcript (flight_of h (hello_message random)) ++ s_cke cpub account)
    with (s_transcript h random cpub account) by (unfold s_transcript, flight_of; cbn [f_transcript]; by rewrite <- !app_assoc).
  fold (client_session h random cpub shared passwd account tag).
  pose proof (client_master h random cpub shared passwd account tag Hs) as Hm.
  destruct (client_counters h random cpub shared passwd account tag) as (Hsu & Hrx & Hpkt).
  rewrite (fin_agrees _ _ h random cpub shared passwd account) by done.
  assert (Hfin : fin_message (s_verify h random cpub shared passwd account (str "client finished")
      (s_transcript h random cpub account)) = s_client_fin h random cpub shared passwd account).
  { unfold s_client_fin, hs_msg, s_verify, zlen. by rewrite length_suite_prf. }
  rewrite Hfin. set (cl := client_session _ _ _ _ _ _ _) in *. set (fin := s_client_fin _ _ _ _ _ _) in *.
  assert (Hfl : length fin = 24%nat)
    by (unfold fin, s_client_fin, s_verify; by rewrite length_hs_msg, length_suite_prf).
  destruct (client_keys_agree h random cpub shared passwd account tag 1 0 (rx_seq cl) (pkt_seq cl) false Hs)
    as [Hk _]. fold cl in Hk.
  destruct (record_opens (with_counters 1 0 (rx_seq cl) (pkt_seq cl) false cl) _ 0x16 fin civ 64 Hk)
    as (p & E & Hp & Hd); [lia | by vm_compute | by vm_compute | done | unfold kMaxRecordPlaintext; lia | lia |].
  cbv zeta in *. rewrite E. cbn [epoch tx_seq with_counters] in *.
  change (build_dtls_record_hdr 0x16 1 0 (zlen p) ++ p) with (rec_of 0x16 1 0 p) in *.
  specialize (Hd []). rewrite app_nil_r in Hd. exists (rec_of 0x16 1 0 p). split; [|done].
  assert (Hcke := length_s_cke account cpub Hc). unfold zlen in Hp, Hacc. rewrite Hfl in Hp.
  assert (Hn : length (flight2 account cpub (rec_of 0x16 1 0 p)) = (95 + length account + length p)%nat)
    by (unfold flight2; rewrite !length_app, !length_rec_of, Hcke; simpl; lia).
  match goal with |- context [build_dtls_packet _ _ _ ?d _ _] =>
    replace d with (flight2 account cpub (rec_of 0x16 1 0 p)) end.
  2:{ unfold flight2. unfold rec_of at 1 2. rewrite <- !app_assoc. do 2 f_equal.
      unfold zlen at 1. rewrite Hcke.
      assert (Hz : 12 + zlen (client_key_exchange account cpub) = zlen (s_cke cpub account))
        by (rewrite <- (cke_agrees account cpub Hc); unfold cke_message, zlen; rewrite length_app;
            change (length (build_dtls_hs_hdr _ _ _)) with 12%nat; lia).
      rewrite Hz. rewrite u16_small; unfold zlen; rewrite Hcke; [done | lia]. }
  rewrite build_dtls_packet_scrambled by (unfold zlen; lia). rewrite Hsend.
  cbn [set_tx_seq with_counters epoch tx_seq rx_seq pkt_seq]. rewrite Hrx, Hpkt. done.
Qed.
Lemma hello_sent peer token random tag :
  length random = 32%nat ->
  exists hello, build_dtls_packet peer 0 token (build_client_hello random) 0 tag = Some hello.
Proof.
  intros Hr. eexists. apply build_dtls_packet_scrambled.
  unfold build_client_hello, put8, hello_message, hello_body, zlen.
  rewrite !length_app, length_splice, length_take, Hr. vm_compute. discriminate.
Qed.

(** The end of the handshake: the server's last flight is awaited and checked. *)
Lemma last_flight_accepted h random cpub shared passwd account ticket tag civ hdr peer now t strays rest :
  length shared = 32%nat -> length civ = 16%nat -> zlen (ticket_msg ticket) <= 512 -> dtls_hdr_ok hdr ->
  t < now + 4000 -> Forall (stray peer t) strays ->
  let ds := with_counters 1 1 0 2 false (client_session h random cpub shared passwd account tag) in
  let tr := s_transcript h random cpub account ++ s_client_fin h random cpub shared passwd account in
  let fin := s_fin h random cpub shared passwd account ticket in
  let last := last_flight h random cpub shared passwd account ticket civ in
  (exists out, recv_server_finished peer ds now (strays ++ dtls_datagram t peer hdr last :: rest) tr =
     (Some (fin, tr ++ ticket_msg ticket), rest, out)) /\
  length fin = 24%nat /\
  sub 12 12 fin = finished_verify_data ds (tr ++ ticket_msg ticket) (str "server finished").
Proof.
  intros Hs Hc Ht Hh Htime Hst. cbv zeta. split; [|split].
  - destruct (client_keys_agree h random cpub shared passwd account tag 1 1 0 2 false Hs) as [_ Hk].
    destruct (last_flight_read h random cpub shared passwd account ticket civ _
      (s_transcript h random cpub account ++ s_client_fin h random cpub shared passwd account) Hk Hc Ht)
      as (Hf & Hl & Hr).
    unfold recv_server_finished, recv_finished_fuel.
    eapply (recv_finished_arrives _ _ _ _ _ strays (dtls_datagram t peer hdr _)); cbn [g_time dtls_datagram];
      [done | lia | lia | lia | | | exact Hr]; [|lia].
    apply classify_dtls_datagram; [done | done | lia | lia].
  - apply length_s_fin.
  - rewrite (fin_agrees _ _ h random cpub shared passwd account).
    + unfold s_fin, hs_msg, sub. rewrite drop_app_length' by done. rewrite <- app_assoc.
      apply take_ge. unfold s_verify. by rewrite length_suite_prf.
    + by apply client_counters.
    + by apply client_master.
Qed.

(** C1: the handshake completes with every conforming server that sends each
    flight in one datagram, no HelloVerifyRequest and an empty hint, for both cipher
    suites, with and without the extensions and the session ticket: when the
    server's two flights arrive within the client's three and four seconds,
    among any other datagrams, the client ends with the master secret and keys
    the server derives from RFC 5246/5489/7627, and the Finished record of the
    datagram it sent opens at the server to the verify data the server
    expects. *)
Theorem handshake_completes env peer token uid h random cpub shared passwd account tag now
    civ siv ticket hdr1 hdr2 t1 t2 strays1 strays2 rest :
  e_random env = Some random -> length random = 32%nat -> e_iv env = Some civ -> length civ = 16%nat ->
  (forall p, e_sendto env p = true) -> e_x25519 env (s_pub h) = Some (cpub, shared) ->
  length cpub = 32%nat -> length shared = 32%nat -> zlen account <= 1024 ->
  hello_ok h -> length siv = 16%nat -> zlen (ticket_msg ticket) <= 512 ->
  dtls_hdr_ok hdr1 -> dtls_hdr_ok hdr2 -> t1 < now + 3000 -> t2 < Z.max now t1 + 4000 ->
  Forall (stray peer t1) strays1 -> Forall (stray peer t2) strays2 ->
  let server := server_session h random cpub shared passwd account in
  let last := last_flight h random cpub shared passwd account ticket siv in
  exists ds sent crec,
    dtls_psk_handshake env peer token uid passwd account tag now
      (strays1 ++ dtls_datagram t1 peer hdr1 (server_flight h) ::
       strays2 ++ dtls_datagram t2 peer hdr2 last :: rest) = (Some ds, sent) /\
    handshake_complete ds = true /\ epoch ds = 1 /\ tx_seq ds = 1 /\ rx_seq ds = 1 /\
    master_secret ds = s_master h random cpub shared passwd account /\
    keys_agree ds server /\ keys_agree server ds /\
    (peer, flight2_datagram peer token account cpub crec tag) ∈ sent /\
    dtls_decrypt_record server crec 64 = Some (s_client_fin h random cpub shared passwd account).
Proof.
  intros Hr Hr32 Hiv Hc16 Hsend Hx Hc Hs Hacc Hok Hs16 Htk Hh1 Hh2 Ht1 Ht2 Hst1 Hst2. cbv zeta.
  unfold dtls_psk_handshake. rewrite Hr. cbv zeta.
  destruct (hello_sent (Some peer) token random tag Hr32) as [hello ->]. rewrite Hsend. cbn [negb].
  assert (Huid : exists sent, match uid with [] => Some [(peer, hello); (peer, hello)]
    | _ => if e_sendto env (build_ctrl0x33 uid token 0x02)
           then Some ([(peer, hello); (peer, hello)] ++ [(peer, build_ctrl0x33 uid token 0x02)]) else None end
    = Some sent) by (rewrite Hsend; destruct uid; eauto).
  destruct Huid as [sent0 ->].
  pose proof (length_server_flight h Hok) as Hfl. pose proof Hok as (_ & _ & Hsid & _ & _ & Hel).
  unfold zlen in Hsid, Hel.
  destruct (recv_flight_arrives 3 true peer hello now strays1
    (dtls_datagram t1 peer hdr1 (server_flight h)) (server_flight h)
    (strays2 ++ dtls_datagram t2 peer hdr2 (last_flight h random cpub shared passwd account ticket siv) :: rest))
    as [out1 ->]; [done | lia | cbn [g_time dtls_datagram]; lia
    | apply classify_dtls_datagram; [done | done | lia | lia] | lia |].
  rewrite flight_parses by done.
  destruct (second_flight_sent env peer token passwd account tag h random cpub shared civ) as (crec & -> & Hd);
    [done..|].
  destruct (last_flight_accepted h random cpub shared passwd account ticket tag siv hdr2 peer
    (Z.max now t1) t2 strays2 rest Hs Hs16 Htk Hh2 Ht2 Hst2) as ((out2 & E) & Hl & Hv).
  cbn [g_time dtls_datagram]. rewrite E, Hl. change (24 <? 24)%nat with false.
  rewrite bool_decide_eq_true_2 by exact Hv.
  eexists _, _, crec. split; [reflexivity|]. do 4 (split; [reflexivity|]).
  split; [by apply client_master|].
  destruct (client_keys_agree h random cpub shared passwd account tag 1 1 1 2 true Hs) as [Hk1 Hk2].
  split; [exact Hk1|]. split; [exact Hk2|]. split; [set_solver | exact Hd].
Qed.
End agreement.

(** ** A concrete handshake *)

Definition toy_peer : Addr := {| a_ip := replicate 4 (zb 10); a_port := zb <$> [0x30; 0x39] |}.
Definition toy_random : list byte := replicate 32 (zb 1).
Definition toy_iv : list byte := replicate 16 (zb 2).
Definition toy_cpub : list byte := replicate 32 (zb 3).
Definition toy_shared : list byte := replicate 32 (zb 4).
Definition toy_hello : ServerHello :=
  {| s_random := replicate 32 (zb 5); s_session_id := str "id"; s_suite := 0xC038;
     s_exts := [(0x16, []); (0x17, [])]; s_pub := replicate 32 (zb 6) |}.
Definition toy_env : Env :=
  {| e_random := Some toy_random; e_iv := Some toy_iv; e_sendto _ := true;
     e_x25519 pub := if bool_decide (pub = s_pub toy_hello) then Some (toy_cpub, toy_shared) else None |}.
Definition toy_dtls_hdr : list byte := [zb 0x04; zb 0x02; zb 0x1c; zb 0x0b] ++ zeros 24.
Definition toy_stray : Datagram :=
  {| g_time := 10; g_src := {| a_ip := []; a_port := [] |}; g_raw := replicate 40 (zb 7) |}.
Definition toy_last : list byte :=
  last_flight toy_hello toy_random toy_cpub toy_shared (str "secret") (str "admin") (Some (str "ticket")) toy_iv.
Definition toy_inbox : list Datagram :=
  [toy_stray] ++ dtls_datagram 1500 toy_peer toy_dtls_hdr (server_flight toy_hello) ::
  [] ++ dtls_datagram 4000 toy_peer toy_dtls_hdr toy_last :: [].

Lemma toy_hello_ok : hello_ok toy_hello.
Proof.
  split_and!; [done | done | vm_compute; discriminate | by left | | vm_compute; discriminate].
  repeat constructor; vm_compute; discriminate.
Qed.

Lemma handshake_completes_witness :
  exists ds sent,
    dtls_psk_handshake toy_env toy_peer (str "sesstokn") (str "UID") (str "secret") (str "admin") 0 0
      toy_inbox = (Some ds, sent) /\ handshake_complete ds = true.
Proof.
  destruct (handshake_completes toy_env toy_peer (str "sesstokn") (str "UID") toy_hello toy_random
    toy_cpub toy_shared (str "secret") (str "admin") 0 0 toy_iv toy_iv (Some (str "ticket"))
    toy_dtls_hdr toy_dtls_hdr 1500 4000 [toy_stray] [] []) as (ds & sent & crec & E & Hc & _);
    [done | done | done | done | done | done | done | done | vm_compute; discriminate
    | exact toy_hello_ok | done | vm_compute; discriminate | done | done | lia | lia | | done |].
  - constructor; [|done]. split; [vm_compute; discriminate|]. intros d Hd. vm_compute in Hd. discriminate.
  - exists ds, sent. unfold toy_inbox, toy_last. split; [exact E | exact Hc].
Defined.
