(* ===== verification/DtlsAuth.v ===== *)
(** What a session that [dtls_psk_handshake] returns rests on: the server's
    flight and a Finished record that came from the peer and opened and verified
    under the keys derived from the password. *)

From S2P Require Import Prelude Text TransCode DtlsRecord Iotc DtlsHandshake DtlsServer DtlsAgree.

(** ** Where the data comes from *)

(** [data] is the DTLS part of a datagram of the peer in the queue. *)
Definition came_from (peer : Addr) (inbox : list Datagram) (data : list byte) : Prop :=
  exists g, g ∈ inbox /\ g_src g = peer /\ data = drop 28 (descramble_rx (take 2048 (g_raw g))).

Lemma came_from_suffix peer inbox inbox' data :
  inbox' `suffix_of` inbox -> came_from peer inbox' data -> came_from peer inbox data.
Proof. intros [k ->] (g & Hg & Hsrc). exists g. split; [apply elem_of_app; by right | exact Hsrc]. Qed.

Lemma classify_payload peer buf g data :
  classify_dtls (Some peer) buf g = Payload data ->
  g_src g = peer /\ data = drop 28 (descramble_rx (g_raw g)).
Proof.
  unfold classify_dtls. cbv zeta. intros E.
  repeat (match type of E with
          | (if negb (bool_decide ?P) then _ else _) = _ => destruct (bool_decide_reflect P); cbn [negb] in E
          | (if ?b then _ else _) = _ => destruct b
          end; try discriminate E).
  by injection E as <-.
Qed.

Lemma recv_came_from peer buf deadline inbox data t rest out :
  recv_dtls_packet (Some peer) buf deadline inbox = (Some (data, t), rest, out) ->
  came_from peer inbox data /\ rest `suffix_of` inbox.
Proof.
  revert rest out. induction inbox as [|g inbox IH]; intros rest out; cbn [recv_dtls_packet]; [done|].
  destruct (deadline <=? g_time g); [done|].
  assert (Hsuf : forall r, r `suffix_of` inbox -> r `suffix_of` g :: inbox)
    by (intros r Hr; by apply suffix_cons_r).
  destruct (classify_dtls (Some peer) buf (cut 2048 g)) as [| |d] eqn:E; intros Er.
  - destruct (IH _ _ Er) as [Hd Hr]. split; [|auto]. by apply (came_from_suffix _ _ inbox); [apply Hsuf|].
  - destruct (recv_dtls_packet _ _ _ inbox) as [[r rest'] out'] eqn:Er'. injection Er as -> -> _.
    destruct (IH _ _ eq_refl) as [Hd Hr]. split; [|auto]. by apply (came_from_suffix _ _ inbox); [apply Hsuf|].
  - injection Er as -> _ -> _. split; [|by apply suffix_cons_r].
    apply classify_payload in E as [Hs ->]. exists g. split; [by left | done].
Qed.

Lemma recv_timeout_suffix peer buf deadline inbox rest out :
  recv_dtls_packet peer buf deadline inbox = (None, rest, out) -> rest `suffix_of` inbox.
Proof.
  revert rest out. induction inbox as [|g inbox IH]; intros rest out; cbn [recv_dtls_packet].
  - by intros [= <- _].
  - destruct (deadline <=? g_time g); [by intros [= <- _]|].
    destruct (classify_dtls _ _ _); [| |done].
    + intros E. apply suffix_cons_r. eauto.
    + destruct (recv_dtls_packet _ _ _ inbox) as [[r rest'] out'] eqn:Er. intros [= -> -> _].
      apply suffix_cons_r. eauto.
Qed.

Lemma recv_flight_came_from n first peer hello now inbox raw t rest out :
  recv_flight n first peer hello now inbox = (Some raw, t, rest, out) ->
  came_from peer inbox raw /\ rest `suffix_of` inbox.
Proof.
  revert first now inbox rest out. induction n as [|n IH]; intros first now inbox rest out;
    cbn [recv_flight]; [done|]. cbv zeta.
  destruct (recv_dtls_packet _ _ _ inbox) as [[r inbox'] out'] eqn:E.
  assert (Hrec : forall now', inbox' `suffix_of` inbox ->
    (let '(r, now, inbox, out'') := recv_flight n false peer hello now' inbox' in
     (r, now, inbox, (if first then [] else [(peer, hello)]) ++ out' ++ out'')) = (Some raw, t, rest, out) ->
    came_from peer inbox raw /\ rest `suffix_of` inbox).
  { intros now' Hs. destruct (recv_flight n _ _ _ _ inbox') as [[[r' n'] i'] o'] eqn:Er. intros [= -> -> -> _].
    destruct (IH _ _ _ _ _ Er) as [Hc Hr]. split; [by eapply came_from_suffix | by etrans]. }
  destruct r as [[raw' t']|].
  - destruct (recv_came_from _ _ _ _ _ _ _ _ E) as [Hc Hr].
    destruct (length raw' <? 13)%nat; [by apply Hrec|]. intros [= <- _ <- _]. done.
  - apply Hrec. by eapply recv_timeout_suffix.
Qed.

(** ** The Finished record *)

Section auth.
Context `{Crypto}.

Lemma read_be16_take p i n : (i + 2 <= n)%nat -> read_be16 (take n p) i = read_be16 p i.
Proof. intros Hn. unfold read_be16. rewrite !zat_take by lia. done. Qed.

(** A Finished is the opened payload of a record of another epoch. *)
Lemma finished_records_opened fuel raw ds tr tr' plain :
  finished_records fuel raw ds tr = Fin tr' (Some plain) ->
  tr `prefix_of` tr' /\
  exists k n, read_be16 (sub k n raw) 3 <> 0 /\ dtls_decrypt_record ds (sub k n raw) 64 = Some plain.
Proof.
  revert raw tr. induction fuel as [|fuel IH]; intros raw tr; cbn [finished_records]; [done|]. cbv zeta.
  set (rlen := (13 + Z.to_nat (read_be16 raw 11))%nat). intros E.
  assert (Hrec : forall tr0, tr `prefix_of` tr0 ->
    finished_records fuel (drop rlen raw) ds tr0 = Fin tr' (Some plain) ->
    tr `prefix_of` tr' /\ exists k n, read_be16 (sub k n raw) 3 <> 0 /\
      dtls_decrypt_record ds (sub k n raw) 64 = Some plain).
  { intros tr0 Hp Er. destruct (IH _ _ Er) as (Hp' & k & n & H3 & Hd). split; [by etrans|].
    exists (rlen + k)%nat, n. unfold sub in *. by rewrite <- drop_drop. }
  destruct (length raw <? 13)%nat; [done|]. destruct (length raw <? rlen)%nat; [done|].
  destruct (zat raw 0 =? 0x15); [done|]. destruct (negb (zat raw 0 =? 0x16)); [by apply (Hrec tr)|].
  destruct (Z.eqb_spec (read_be16 raw 3) 0) as [|H3]; [eapply Hrec; [by eexists | exact E]|].
  injection E as -> Hd. split; [done|]. exists 0%nat, rlen. unfold sub. rewrite drop_0, read_be16_take by lia.
  done.
Qed.

Lemma finished_records_more fuel raw ds tr tr' :
  finished_records fuel raw ds tr = More tr' -> tr `prefix_of` tr'.
Proof.
  revert raw tr. induction fuel as [|fuel IH]; intros raw tr; cbn [finished_records]; [by intros [= <-]|].
  cbv zeta. destruct (length raw <? 13)%nat; [by intros [= <-]|].
  destruct (length raw <? _)%nat; [by intros [= <-]|].
  destruct (zat raw 0 =? 0x15); [done|]. destruct (negb (zat raw 0 =? 0x16)); [apply IH|].
  destruct (read_be16 raw 3 =? 0); [|done]. intros E%IH. etrans; [by eexists | exact E].
Qed.

Lemma recv_finished_opened fuel peer ds now deadline inbox tr plain tr' rest out :
  recv_finished_loop fuel peer ds now deadline inbox tr = (Some (plain, tr'), rest, out) ->
  tr `prefix_of` tr' /\
  exists raw k n, came_from peer inbox raw /\ read_be16 (sub k n raw) 3 <> 0 /\
    dtls_decrypt_record ds (sub k n raw) 64 = Some plain.
Proof.
  revert now inbox tr rest out. induction fuel as [|fuel IH]; intros now inbox tr rest out;
    cbn [recv_finished_loop]; [done|]. cbv zeta. destruct (deadline <=? now); [done|].
  destruct (recv_dtls_packet _ _ _ inbox) as [[r inbox'] out'] eqn:E.
  assert (Hrec : forall now' tr0, inbox' `suffix_of` inbox -> tr `prefix_of` tr0 ->
    (let '(r, inbox, out'') := recv_finished_loop fuel peer ds now' deadline inbox' tr0 in
     (r, inbox, out' ++ out'')) = (Some (plain, tr'), rest, out) ->
    tr `prefix_of` tr' /\ exists raw k n, came_from peer inbox raw /\
      read_be16 (sub k n raw) 3 <> 0 /\ dtls_decrypt_record ds (sub k n raw) 64 = Some plain).
  { intros now' tr0 Hs Hp. destruct (recv_finished_loop fuel _ _ _ _ inbox' tr0) as [[r' i'] o'] eqn:Er.
    intros [= -> -> _]. destruct (IH _ _ _ _ _ Er) as (Hp' & raw & k & n & Hc & H3 & Hd).
    split; [by etrans|]. exists raw, k, n. split; [by eapply came_from_suffix | done]. }
  destruct r as [[raw t]|]; [|apply Hrec; [by eapply recv_timeout_suffix | done]].
  destruct (recv_came_from _ _ _ _ _ _ _ _ E) as [Hc Hr].
  destruct (length raw <? 13)%nat; [by apply Hrec|].
  destruct (finished_records _ raw ds tr) as [tr0| |tr0 [p|]] eqn:Ef; [|done| |done].
  - apply Hrec; [done | by eapply finished_records_more].
  - intros [= <- <- _ _]. destruct (finished_records_opened _ _ _ _ _ _ Ef) as (Hp & k & n & H3 & Hd).
    split; [done|]. by exists raw, k, n.
Qed.

(** ** The transcript *)

Lemma read_handshake_transcript hs f f' :
  read_handshake hs f = Some f' -> f_transcript f `prefix_of` f_transcript f'.
Proof.
  unfold read_handshake. cbv zeta. destruct (length hs <? _)%nat; [by intros [= <-]|].
  assert (Hto : forall m, f_transcript f `prefix_of` f_transcript (to_transcript m f)) by (intros m; by eexists).
  destruct (zat hs 0 =? 0x0e); [by intros [= <-]|].
  set (f1 := to_transcript (take _ hs) f). specialize (Hto (take (12 + Z.to_nat (read_be24 hs 1)) hs)).
  fold f1 in Hto. destruct (zat hs 0 =? 0x02).
  - unfold read_server_hello. destruct (_ <? 2 + 32 + 1)%nat; [done|].
    cbv zeta. destruct (length _ <? _)%nat; [done|].
    destruct (if (_ <=? _)%nat then _ else _) as [ems etm]. by intros [= <-].
  - destruct (zat hs 0 =? 0x0c); [|by intros [= <-]]. intros [= <-]. unfold read_server_key.
    by destruct (_ && _).
Qed.

Lemma flight_loop_transcript fuel raw f f' :
  flight_loop fuel raw f = Some f' -> f_transcript f `prefix_of` f_transcript f'.
Proof.
  revert raw f. induction fuel as [|fuel IH]; intros raw f; cbn [flight_loop]; [by intros [= <-]|].
  cbv zeta. destruct (length raw <? 13 + 12)%nat; [by intros [= <-]|].
  destruct (length raw <? _)%nat; [by intros [= <-]|].
  destruct (_ || _); [apply IH|]. destruct (read_handshake _ f) as [f1|] eqn:E; [|done].
  intros E1%IH. etrans; [by eapply read_handshake_transcript | exact E1].
Qed.

Lemma parse_flight_transcript raw tr f :
  parse_server_hello_flight raw tr = Some f -> tr `prefix_of` f_transcript f.
Proof.
  unfold parse_server_hello_flight. cbv zeta. destruct (_ && _); [done|].
  destruct (_ || _); [done|]. destruct (flight_loop _ _ _) as [f0|] eqn:E; [|done].
  apply flight_loop_transcript in E. destruct (_ && _); [done|]. destruct (f_pub f0); [|done].
  by intros [= <-].
Qed.

(** The session and transcript after the second flight. *)
Lemma second_flight_session env peer token passwd account tag f ds ds' tr pkt :
  second_flight env peer token passwd account tag f ds = Some (ds', tr, pkt) ->
  exists pub cpub shared, f_pub f = Some pub /\ e_x25519 env pub = Some (cpub, shared) /\
    let tr0 := f_transcript f ++ cke_message (client_key_exchange account cpub) in
    let keys := derive_session_keys (with_flight f ds) (premaster_of shared (derive_psk passwd)) tr0 in
    (exists tx rx pk, ds' = with_counters 1 tx rx pk false keys) /\ tr0 `prefix_of` tr.
Proof.
  unfold second_flight. destruct (f_pub f) as [pub|]; [|done].
  destruct (e_x25519 env pub) as [[cpub shared]|] eqn:Ex; [|done]. cbv zeta.
  set (keys := derive_session_keys _ _ _). set (tr0 := f_transcript f ++ _). intros E.
  exists pub, cpub, shared. split; [done|]. split; [done|].
  unfold dtls_encrypt_record in E. destruct (_ <? _) in E; [done|].
  match type of E with context [match ?x with Some _ => (_, set_tx_seq _ _) | None => _ end] =>
    destruct x as [rec|]; [|discriminate E] end.
  destruct (build_dtls_packet _ _ _ _ _ _); [|done]. destruct (e_sendto _ _); [|done].
  injection E as <- <- _. split; [|by eexists]. eexists _, _, _. reflexivity.
Qed.

(** C22: no session without the password: a session the handshake returns has
    the keys of an X25519 exchange, of [SHA256(passwd)] and of the transcript,
    and there is a record in a datagram of the peer that opens under these very
    keys and whose verify data is the one of a transcript with the client's own
    hello and key exchange at its head. *)
Theorem handshake_authenticated env peer token uid passwd account tag now inbox ds sent random :
  e_random env = Some random ->
  dtls_psk_handshake env peer token uid passwd account tag now inbox = (Some ds, sent) ->
  handshake_complete ds = true /\
  exists f pub cpub shared raw k n plain tr,
    f_pub f = Some pub /\ e_x25519 env pub = Some (cpub, shared) /\
    (let tr0 := f_transcript f ++ cke_message (client_key_exchange account cpub) in
     let start := with_counters 0 0 0 1 false (zero_session tag random) in
     let keys := derive_session_keys (with_flight f start) (premaster_of shared (derive_psk passwd)) tr0 in
     hello_message random `prefix_of` tr0 /\ tr0 `prefix_of` tr /\
     exists pk, ds = with_counters 1 1 1 pk true keys) /\
    came_from peer inbox raw /\ read_be16 (sub k n raw) 3 <> 0 /\
    dtls_decrypt_record ds (sub k n raw) 64 = Some plain /\ (24 <= length plain)%nat /\
    sub 12 12 plain = finished_verify_data ds tr (str "server finished").
Proof.
  intros Hr. unfold dtls_psk_handshake. rewrite Hr. cbv zeta.
  destruct (build_dtls_packet _ _ _ _ _ _) as [hello|]; [|done].
  destruct (negb (e_sendto env hello)); [done|].
  match goal with |- context [match ?x with Some s => _ | None => (None, [(peer, hello); _]) end = _] =>
    destruct x as [sent0|]; [|done] end.
  destruct (recv_flight _ _ _ _ _ inbox) as [[[[raw1|] now1] inbox1] out1] eqn:Ef; [|done].
  destruct (parse_server_hello_flight raw1 _) as [f|] eqn:Ep; [|done].
  destruct (second_flight _ _ _ _ _ _ f _) as [[[ds1 tr1] pkt]|] eqn:Es; [|done].
  destruct (recv_server_finished peer ds1 now1 inbox1 tr1) as [[[[fin tr]|] rest] out] eqn:Efin; [|done].
  destruct (Nat.ltb_spec (length fin) 24) as [|Hl]; [done|].
  destruct (bool_decide_reflect (sub 12 12 fin = finished_verify_data ds1 tr (str "server finished"))) as [Hv|];
    [|done].
  intros [= <- _]. split; [done|].
  apply recv_flight_came_from in Ef as [_ Hsuf]. apply parse_flight_transcript in Ep.
  apply second_flight_session in Es as (pub & cpub & shared & Hpub & Hx & (tx & rx & pk & ->) & Htr).
  apply recv_finished_opened in Efin as (Htr' & raw & k & n & Hc & H3 & Hd).
  exists f, pub, cpub, shared, raw, k, n, fin, tr. split; [done|]. split; [done|]. split.
  { split; [by apply prefix_app_r|]. split; [by etrans|]. by eexists. }
  split; [by eapply came_from_suffix|]. split; [done|]. split; [exact Hd|]. split; [done | exact Hv].
Qed.
End auth.

Lemma handshake_authenticated_witness :
  match dtls_psk_handshake toy_env toy_peer (str "sesstokn") [] (str "secret") (str "admin") 0 0 toy_inbox with
  | (Some ds, _) => handshake_complete ds = true
  | (None, _) => False
  end.
Proof.
  destruct (dtls_psk_handshake _ _ _ _ _ _ _ _ _) as [[ds|] sent] eqn:E.
  - exact (proj1 (handshake_authenticated toy_env toy_peer _ _ _ _ _ _ _ _ _ toy_random eq_refl E)).
  - apply (f_equal (fun r => match r.1 with None => true | Some _ => false end)) in E.
    vm_compute in E. discriminate.
Defined.
