(* ===== verification/IotcConn.v ===== *)
(** An established IOTC connection ([src/camera/tutk/IotcClient.cpp], lines
    2244-2469): application data out and in, keepalives, the close. The socket
    is the datagrams that arrive, with their times, and whether [sendto] takes
    what is sent. *)

From S2P Require Import Prelude Text TransCode DtlsRecord Iotc DtlsHandshake DtlsServer DtlsAgree DtlsAuth.

(** [c_open]: [sock >= 0]. *)
Record IotcConn := {
  c_open : bool; c_peer : Addr; c_token : list byte; c_dtls : DtlsSession; c_relay_tag : Z;
  c_is_relay : bool; c_uid : list byte; c_cookie : list byte; c_have_cookie : bool;
  c_is_lan : bool; c_last_alive : Z
}.

Definition set_dtls (ds : DtlsSession) (rc : IotcConn) : IotcConn :=
  {| c_open := c_open rc; c_peer := c_peer rc; c_token := c_token rc; c_dtls := ds;
     c_relay_tag := c_relay_tag rc; c_is_relay := c_is_relay rc; c_uid := c_uid rc;
     c_cookie := c_cookie rc; c_have_cookie := c_have_cookie rc; c_is_lan := c_is_lan rc;
     c_last_alive := c_last_alive rc |}.

Definition set_cookie (cookie : list byte) (rc : IotcConn) : IotcConn :=
  {| c_open := c_open rc; c_peer := c_peer rc; c_token := c_token rc; c_dtls := c_dtls rc;
     c_relay_tag := c_relay_tag rc; c_is_relay := c_is_relay rc; c_uid := c_uid rc;
     c_cookie := cookie; c_have_cookie := true; c_is_lan := c_is_lan rc;
     c_last_alive := c_last_alive rc |}.

Definition set_alive (now : Z) (rc : IotcConn) : IotcConn :=
  {| c_open := c_open rc; c_peer := c_peer rc; c_token := c_token rc; c_dtls := c_dtls rc;
     c_relay_tag := c_relay_tag rc; c_is_relay := c_is_relay rc; c_uid := c_uid rc;
     c_cookie := c_cookie rc; c_have_cookie := c_have_cookie rc; c_is_lan := c_is_lan rc;
     c_last_alive := now |}.

(** [ds.pkt_seq++], [ds.rx_seq++]. *)
Definition next_pkt (ds : DtlsSession) : DtlsSession :=
  with_counters (epoch ds) (tx_seq ds) (rx_seq ds) (u16 (pkt_seq ds + 1)) (handshake_complete ds) ds.
Definition next_rx (ds : DtlsSession) : DtlsSession :=
  with_counters (epoch ds) (tx_seq ds) (u64 (rx_seq ds + 1)) (pkt_seq ds) (handshake_complete ds) ds.

Section conn.
Context `{Crypto}.

(** The connection with its session; after a failure the caller closes it. *)
Definition iotc_dtls_handshake (env : Env) (rc : IotcConn) (passwd account : list byte) (now : Z)
    (inbox : list Datagram) : option IotcConn * list (Addr * list byte) :=
  if negb (c_open rc) then (None, [])
  else
    let uid := if c_is_relay rc || c_is_lan rc then [] else c_uid rc in
    match dtls_psk_handshake env (c_peer rc) (c_token rc) uid passwd account (c_relay_tag rc) now inbox with
    | (Some ds, out) => (Some (set_dtls ds rc), out)
    | (None, out) => (None, out)
    end.

(** [iv]: the random IV of the record; [sendto]: whether the socket takes the
    datagram. *)
Definition iotc_send_app_data (sendto : list byte -> bool) (iv : option (list byte)) (rc : IotcConn)
    (data : list byte) : Z * IotcConn * list (Addr * list byte) :=
  if negb (c_open rc) then (-1, rc, [])
  else
    match dtls_encrypt_record (c_dtls rc) 0x17 data iv with
    | (None, ds) => (-1, set_dtls ds rc, [])
    | (Some rec, ds) =>
        let rc := set_dtls (next_pkt ds) rc in
        match build_dtls_packet (Some (c_peer rc)) (if c_is_relay rc then epoch ds else 0) (c_token rc) rec
                (pkt_seq ds) (c_relay_tag rc) with
        | None => (-1, rc, [])
        | Some pkt => if sendto pkt then (0, rc, [(c_peer rc, pkt)]) else (-1, rc, [])
        end
    end.

(** ** Receiving *)

Definition msg_type (raw : list byte) (a b c : Z) : bool :=
  (zat raw 8 =? a) && (zat raw 9 =? b) && (zat raw 10 =? c).

(** What one datagram comes to: nothing more than some answers, the end of the
    session, or data. *)
Inductive AppResult :=
  | AppSkip (rc : IotcConn) (out : list (Addr * list byte))
  | AppGone
  | AppData (plain : list byte) (rc : IotcConn).

Definition is_app_dtls (is_relay : bool) (raw : list byte) : bool :=
  if is_relay then msg_type raw 0x03 0x05 0x42
  else (zat raw 9 =? 0x04)
       && (((zat raw 8 =? 0x08) && (zat raw 10 =? 0x12)) || ((zat raw 8 =? 0x07) && (zat raw 10 =? 0x21))).

Definition handle_app (rc : IotcConn) (out_size : nat) (g : Datagram) : AppResult :=
  let n := length (g_raw g) in
  if (n <? 16)%nat then AppSkip rc []
  else if negb (bool_decide (g_src g = c_peer rc)) then AppSkip rc []
  else
    let raw := descramble_rx (g_raw g) in
    if negb (zat raw 0 =? 0x04) || negb (zat raw 1 =? 0x02) then AppSkip rc []
    else if msg_type raw 0x03 0x03 0x43
    then
      let tag := if (40 <=? n)%nat then le32 raw 36 else 0 in
      AppSkip rc [(g_src g, build_rdv_ack (c_uid rc) (c_token rc) tag)]
    else if c_is_relay rc && (n =? 24)%nat && msg_type raw 0x13 0x05 0x42 then AppGone
    else if c_is_relay rc && (n =? 24)%nat && msg_type raw 0x23 0x05 0x42
    then AppSkip (set_cookie (sub 16 8 raw) rc) [(c_peer rc, build_pong raw)]
    else if negb (is_app_dtls (c_is_relay rc) raw) then AppSkip rc []
    else if (n <? 28 + 13)%nat then AppSkip rc []
    else if negb (zat raw 28 =? 0x17) then AppSkip rc []
    else
      match dtls_decrypt_record (c_dtls rc) (drop 28 raw) out_size with
      | Some plain => AppData plain (set_dtls (next_rx (c_dtls rc)) rc)
      | None => AppSkip rc []
      end.

(** A datagram, or a failed [recvfrom]. *)
Inductive RecvEvent := Got (g : Datagram) | SockError (t : Z).
Definition ev_time (e : RecvEvent) : Z := match e with Got g => g_time g | SockError t => t end.

(** [recvfrom] with a receive timeout; a timeout of 0 waits for ever. *)
Inductive Wait := TimedOut (now : Z) | Event (e : RecvEvent) (now : Z) (rest : list RecvEvent) | Blocked.
Definition recvfrom (now timeout : Z) (inbox : list RecvEvent) : Wait :=
  match inbox with
  | [] => if timeout =? 0 then Blocked else TimedOut (now + timeout)
  | e :: rest =>
      if negb (timeout =? 0) && (now + timeout <=? ev_time e) then TimedOut (now + timeout)
      else Event e (Z.max now (ev_time e)) rest
  end.

(** The return value and the data, or no return. *)
Inductive Returned := Ret (code : Z) (data : list byte) | Never.

Fixpoint recv_app_loop (fuel : nat) (rc : IotcConn) (out_size : nat) (timeout now deadline : Z)
    (inbox : list RecvEvent) : Returned * IotcConn * list RecvEvent * list (Addr * list byte) :=
  match fuel with
  | O => (Never, rc, inbox, [])
  | S fuel =>
      let remain := if timeout <=? 0 then 0 else deadline - now in
      if remain <? 0 then (Ret 0 [], rc, inbox, [])
      else
        let step := if timeout <=? 0 then 0 else Z.max 1 (Z.min remain 200) in
        let continue rc now inbox out :=
          if now <? deadline
          then let '(r, rc, inbox, out') := recv_app_loop fuel rc out_size timeout now deadline inbox in
               (r, rc, inbox, out ++ out')
          else (Ret 0 [], rc, inbox, out) in
        match recvfrom now step inbox with
        | Blocked => (Never, rc, inbox, [])
        | TimedOut now => continue rc now inbox []
        | Event (SockError _) _ rest => (Ret (-1) [], rc, rest, [])
        | Event (Got g) now rest =>
            match handle_app rc out_size (cut (Z.to_nat (65536 + 64)) g) with
            | AppSkip rc out => continue rc now rest out
            | AppGone => (Ret (-2) [], rc, rest, [])
            | AppData plain rc => (Ret (zlen plain) plain, rc, rest, [])
            end
        end
  end.

(** Every turn takes an event or at least a millisecond of the time left. *)
Definition recv_app_fuel (timeout : Z) (inbox : list RecvEvent) : nat :=
  S (length inbox + Z.to_nat (Z.max 0 timeout)).

Definition iotc_recv_app_data (rc : IotcConn) (out_size : nat) (timeout now : Z) (inbox : list RecvEvent)
    : Returned * IotcConn * list RecvEvent * list (Addr * list byte) :=
  if negb (c_open rc) then (Ret (-1) [], rc, inbox, [])
  else
    let alive := negb (c_is_relay rc) && (2000 <=? now - c_last_alive rc) in
    let rc := if alive then set_alive now rc else rc in
    let out := if alive then [(c_peer rc, build_p2p_session_ctrl (c_token rc) 0x27)] else [] in
    let '(r, rc, inbox, out') :=
      recv_app_loop (recv_app_fuel timeout inbox) rc out_size timeout now (now + Z.max 0 timeout) inbox in
    (r, rc, inbox, out ++ out').

(** ** Closing *)

Definition zero_conn : IotcConn :=
  {| c_open := false; c_peer := {| a_ip := zeros 4; a_port := zeros 2 |}; c_token := zeros 8;
     c_dtls := with_counters 0 0 0 0 false (zero_session 0 (zeros 32)); c_relay_tag := 0;
     c_is_relay := false; c_uid := []; c_cookie := zeros 8; c_have_cookie := false; c_is_lan := false;
     c_last_alive := 0 |}.

Definition build_relay_close (rc : IotcConn) : list byte :=
  trans_code_partial
    (put_bytes 16 (take 8 (if c_have_cookie rc then c_cookie rc else c_token rc))
      (put_le32 12 (c_relay_tag rc)
        (put_bytes 8 (zb <$> [0x14; 0x05; 0x24; 0])
          (put_bytes 0 (zb <$> [0x04; 0x02; 0x1c; 0x0a; 0x08; 0; 0; 0]) (zeros 24))))).

Definition iotc_close (rc : IotcConn) : IotcConn * list (Addr * list byte) :=
  let out :=
    if negb (c_open rc) then []
    else if c_is_relay rc && negb (c_relay_tag rc =? 0)
    then replicate 5 (c_peer rc, build_relay_close rc)
    else if negb (c_is_relay rc) then replicate 3 (c_peer rc, build_p2p_session_ctrl (c_token rc) 0x17)
    else [] in
  (zero_conn, out).
End conn.

(** ** Receiving ends *)

Section ends.
Context `{Crypto}.

Lemma recvfrom_step now timeout inbox :
  0 < timeout ->
  match recvfrom now timeout inbox with
  | TimedOut t => t = now + timeout
  | Event e t rest => inbox = e :: rest /\ t = Z.max now (ev_time e)
  | Blocked => False
  end.
Proof.
  intros Ht. unfold recvfrom. rewrite (proj2 (Z.eqb_neq timeout 0)) by lia.
  destruct inbox as [|e inbox]; [done|]. cbn [negb andb]. by destruct (_ <=? _).
Qed.

Lemma recv_step_range timeout now deadline :
  0 < timeout -> now < deadline ->
  let step := Z.max 1 (Z.min (deadline - now) 200) in 0 < step <= deadline - now.
Proof. cbv zeta. lia. Qed.

Lemma recv_app_ends fuel rc out_size timeout now deadline inbox :
  0 < timeout -> now < deadline -> (length inbox + Z.to_nat (deadline - now) <= fuel)%nat ->
  (recv_app_loop fuel rc out_size timeout now deadline inbox).1.1.1 <> Never.
Proof.
  intros Ht. revert rc now inbox. induction fuel as [|fuel IH]; intros rc now inbox Hd Hf; [lia|].
  cbn [recv_app_loop]. rewrite (proj2 (Z.leb_gt timeout 0)), (proj2 (Z.ltb_ge (deadline - now) 0)) by lia.
  cbv zeta. pose proof (recv_step_range timeout now deadline Ht Hd) as Hs. cbv zeta in Hs.
  set (step := Z.max 1 (Z.min (deadline - now) 200)) in *.
  pose proof (recvfrom_step now step inbox (proj1 Hs)) as Hr.
  assert (Hrec : forall rc now' inbox' out, (length inbox' + Z.to_nat (deadline - now') <= fuel)%nat ->
    ((if now' <? deadline
      then let '(r, rc, inbox, out') := recv_app_loop fuel rc out_size timeout now' deadline inbox' in
           (r, rc, inbox, out ++ out')
      else (Ret 0 [], rc, inbox', out)) : Returned * IotcConn * list RecvEvent * list (Addr * list byte)).1.1.1 <> Never).
  { intros rc' now' inbox' out Hf'. destruct (Z.ltb_spec now' deadline); [|done].
    specialize (IH rc' now' inbox' ltac:(lia) Hf').
    by destruct (recv_app_loop _ _ _ _ _ _ inbox') as [[[r ?] ?] ?]. }
  destruct (recvfrom now step inbox) as [t|e t rest|]; [|destruct Hr as [-> Hr]|done].
  - apply Hrec. lia.
  - destruct e as [g|]; [|done]. simpl in Hf. destruct (handle_app rc out_size _) as [rc' out| |plain rc'];
      [apply Hrec; lia | done | done].
Qed.

(** With a positive timeout, as both callers pass, receiving application
    data always returns: each turn of the loop takes something from the queue or
    a slice of the time left. *)
Lemma recv_app_returns rc out_size timeout now inbox :
  0 < timeout -> (iotc_recv_app_data rc out_size timeout now inbox).1.1.1 <> Never.
Proof.
  intros Ht. unfold iotc_recv_app_data. destruct (negb (c_open rc)); [done|]. cbv zeta.
  set (alive := negb (c_is_relay rc) && _). set (rc' := if alive then set_alive now rc else rc).
  pose proof (recv_app_ends (recv_app_fuel timeout inbox) rc' out_size timeout now (now + Z.max 0 timeout)
    inbox Ht ltac:(lia) ltac:(unfold recv_app_fuel; lia)) as He.
  by destruct (recv_app_loop _ _ _ _ _ _ _) as [[[r ?] ?] ?].
Qed.
End ends.

(** ** Data arrives *)

(** What the rest of the connection sees of it: all but the relay cookie. *)
Definition same_but_cookie (rc rc' : IotcConn) : Prop :=
  rc' = rc \/ exists cookie, rc' = set_cookie cookie rc.

Section delivery.
Context `{CryptoLaws}.

Lemma same_but_cookie_step rc rc' cookie :
  same_but_cookie rc rc' -> same_but_cookie rc (set_cookie cookie rc').
Proof. intros [-> | [c ->]]; right; by exists cookie. Qed.

Lemma same_but_cookie_fields rc rc' :
  same_but_cookie rc rc' ->
  c_open rc' = c_open rc /\ c_peer rc' = c_peer rc /\ c_token rc' = c_token rc /\
  c_dtls rc' = c_dtls rc /\ c_relay_tag rc' = c_relay_tag rc /\ c_is_relay rc' = c_is_relay rc /\
  c_uid rc' = c_uid rc /\ c_is_lan rc' = c_is_lan rc.
Proof. by intros [-> | [c ->]]. Qed.

(** A datagram that neither carries data for the session nor ends it. *)
Definition skipped (rc : IotcConn) (out_size : nat) (g : Datagram) : Prop :=
  exists rc' out, handle_app rc out_size g = AppSkip rc' out.

Lemma skipped_ext rc rc' out_size g :
  c_peer rc' = c_peer rc -> c_token rc' = c_token rc -> c_dtls rc' = c_dtls rc ->
  c_is_relay rc' = c_is_relay rc -> c_uid rc' = c_uid rc -> skipped rc out_size g ->
  exists rc'' out, handle_app rc' out_size g = AppSkip rc'' out /\ same_but_cookie rc' rc''.
Proof.
  intros E1 E2 E3 E4 E5 (r & o & E).
  revert E. unfold handle_app. rewrite E1, E2, E3, E4, E5. cbv zeta.
  assert (Hrefl : same_but_cookie rc' rc') by by left.
  repeat (match goal with |- context [if ?b then _ else _] => destruct b end; intros E;
    try discriminate E;
    try (eexists _, _; split; [reflexivity | by (apply same_but_cookie_step || exact Hrefl)]);
    revert E).
  destruct (dtls_decrypt_record _ _ _); [done|]. intros _. eexists _, _. by split.
Qed.

Lemma skipped_by rc rc' out_size g :
  same_but_cookie rc rc' -> skipped rc out_size g ->
  exists rc'' out, handle_app rc' out_size g = AppSkip rc'' out /\ same_but_cookie rc rc''.
Proof.
  intros Hs Hsk. destruct (same_but_cookie_fields rc rc' Hs) as (_ & E1 & E2 & E3 & _ & E4 & E5 & _).
  destruct (skipped_ext rc rc' out_size g) as (rc'' & out & E & Hs'); [done..|]. exists rc'', out. split; [done|].
  destruct Hs as [-> | [c ->]]; [done|]. destruct Hs' as [-> | [c' ->]]; right; [by exists c | by exists c'].
Qed.

(** The 28 bytes in front of the records of a connection's peer. *)
Definition app_hdr_ok (is_relay : bool) (hdr : list byte) : Prop :=
  length hdr = 28%nat /\ zat hdr 0 = 0x04 /\ zat hdr 1 = 0x02 /\
  if is_relay then msg_type hdr 0x03 0x05 0x42 = true else msg_type hdr 0x08 0x04 0x12 = true.

Definition app_datagram (rc : IotcConn) (t : Z) (hdr rec : list byte) : RecvEvent :=
  Got {| g_time := t; g_src := c_peer rc; g_raw := scramble_tx (hdr ++ rec) |}.

Lemma msg_type_app hdr rec a b c :
  (11 <= length hdr)%nat -> msg_type (hdr ++ rec) a b c = msg_type hdr a b c.
Proof. intros Hl. unfold msg_type. by rewrite !zat_app_l by lia. Qed.

Lemma msg_type_true p a b c : msg_type p a b c = true -> zat p 8 = a /\ zat p 9 = b /\ zat p 10 = c.
Proof. unfold msg_type. intros [[?%Z.eqb_eq ?%Z.eqb_eq]%andb_prop ?%Z.eqb_eq]%andb_prop. done. Qed.

Lemma handle_app_data rc out_size t hdr payload ep seq plain :
  app_hdr_ok (c_is_relay rc) hdr ->
  let rec := build_dtls_record_hdr 0x17 ep seq (zlen payload) ++ payload in
  zlen rec <= 65536 -> 0 <= seq < 2 ^ 48 ->
  dtls_decrypt_record (c_dtls rc) rec out_size = Some plain ->
  forall g, app_datagram rc t hdr rec = Got g ->
  handle_app rc out_size (cut (Z.to_nat (65536 + 64)) g) = AppData plain (set_dtls (next_rx (c_dtls rc)) rc).
Proof.
  intros (Hl & Hb0 & Hb1 & Ht). cbv zeta. set (rec := build_dtls_record_hdr 0x17 ep seq (zlen payload) ++ payload).
  intros Hn Hs Hd g [= <-]. unfold zlen in Hn. unfold handle_app, cut. cbn [g_raw g_src].
  assert (Hr13 : (13 <= length rec)%nat) by (unfold rec; rewrite length_app, length_record_hdr; lia).
  assert (Hlen : length (scramble_tx (hdr ++ rec)) = (28 + length rec)%nat)
    by (rewrite length_scramble_tx, length_app; lia).
  rewrite take_ge by lia. rewrite Hlen, (proj2 (Nat.ltb_ge _ 16)) by lia.
  rewrite bool_decide_eq_true_2 by done. cbn [negb]. rewrite descramble_scramble. cbv zeta.
  rewrite !(zat_app_l hdr) by lia. rewrite Hb0, Hb1. cbn [negb orb Z.eqb Pos.eqb].
  rewrite !msg_type_app by lia. rewrite (proj2 (Nat.eqb_neq _ 24)) by lia. rewrite !andb_false_r.
  assert (H28 : zat (hdr ++ rec) 28 = 0x17).
  { unfold zat. rewrite <- Hl, <- (Nat.add_0_r (length hdr)), <- at_drop, drop_app_length.
    destruct (record_hdr_fields 0x17 ep seq (zlen payload) payload Hs) as (F & _). exact F. }
  assert (Happ : is_app_dtls (c_is_relay rc) (hdr ++ rec) = true /\ msg_type hdr 0x03 0x03 0x43 = false).
  { unfold is_app_dtls. rewrite !zat_app_l, msg_type_app by lia.
    destruct (c_is_relay rc); apply msg_type_true in Ht as Hf; destruct Hf as (E8 & E9 & E10).
    - rewrite Ht. unfold msg_type. by rewrite E8, E9, E10.
    - unfold msg_type. by rewrite E8, E9, E10. }
  destruct Happ as [-> ->]. cbn [negb]. rewrite (proj2 (Nat.ltb_ge _ (28 + 13))) by lia.
  rewrite H28. cbn [Z.eqb Pos.eqb negb]. rewrite drop_app_length' by done. by rewrite Hd.
Qed.

(** Datagrams, by what is on the wire: all that the buffer takes, descrambled. *)
Definition on_wire (g : Datagram) : list byte := descramble_rx (take (Z.to_nat (65536 + 64)) (g_raw g)).

Definition typed (raw : list byte) (a b c : Z) : Prop :=
  zat raw 0 = 0x04 /\ zat raw 1 = 0x02 /\ zat raw 8 = a /\ zat raw 9 = b /\ zat raw 10 = c.

(** The relay tells that the peer has gone. *)
Definition relay_close (rc : IotcConn) (g : Datagram) : Prop :=
  c_is_relay rc = true /\ g_src g = c_peer rc /\ length (g_raw g) = 24%nat /\ typed (on_wire g) 0x13 0x05 0x42.

(** A record of application data that opens under the session's keys, from the
    peer, in the framing of the relay or of the direct path. *)
Definition session_data (rc : IotcConn) (out_size : nat) (g : Datagram) : Prop :=
  g_src g = c_peer rc /\
  (if c_is_relay rc then typed (on_wire g) 0x03 0x05 0x42 else typed (on_wire g) 0x08 0x04 0x12 \/ typed (on_wire g) 0x07 0x04 0x21) /\
  zat (on_wire g) 28 = 0x17 /\ exists plain, dtls_decrypt_record (c_dtls rc) (drop 28 (on_wire g)) out_size = Some plain.

(** In the queue before time [t], and neither of the two. *)
Definition app_stray (rc : IotcConn) (out_size : nat) (t : Z) (e : RecvEvent) : Prop :=
  exists g, e = Got g /\ g_time g <= t /\ ~ session_data rc out_size g /\ ~ relay_close rc g.

Lemma is_app_typed rc raw : zat raw 0 = 0x04 -> zat raw 1 = 0x02 -> is_app_dtls (c_is_relay rc) raw = true ->
  if c_is_relay rc then typed raw 0x03 0x05 0x42 else typed raw 0x08 0x04 0x12 \/ typed raw 0x07 0x04 0x21.
Proof.
  intros B0 B1. unfold is_app_dtls. destruct (c_is_relay rc); [by intros (? & ? & ?)%msg_type_true|].
  rewrite andb_true_iff, orb_true_iff, !andb_true_iff, !Z.eqb_eq. intros (H9 & [[H8 H10]|[H8 H10]]); [left | right]; done.
Qed.

Lemma length_take_small {A} (n m : nat) (l : list A) : (m < n)%nat -> length (take n l) = m -> length l = m.
Proof. intros Hlt E. rewrite length_take in E. lia. Qed.

(** Such a datagram is passed over. *)
Lemma stray_skipped rc out_size g :
  ~ session_data rc out_size g -> ~ relay_close rc g -> skipped rc out_size (cut (Z.to_nat (65536 + 64)) g).
Proof.
  intros Hd Hc. unfold skipped, handle_app, cut. cbn [g_raw g_src].
  fold (on_wire g). cbv zeta. set (n := length (take (Z.to_nat (65536 + 64)) (g_raw g))). set (raw := on_wire g) in *.
  destruct (n <? 16)%nat; [eauto|]. case_bool_decide as Hsrc; cbn [negb]; [|eauto].
  destruct (Z.eqb_spec (zat raw 0) 0x04) as [B0|]; cbn [negb orb]; [|eauto].
  destruct (Z.eqb_spec (zat raw 1) 0x02) as [B1|]; cbn [negb]; [|eauto].
  destruct (msg_type raw 0x03 0x03 0x43); [eauto|].
  destruct (c_is_relay rc && (n =? 24)%nat && msg_type raw 0x13 0x05 0x42) eqn:Eclose.
  { exfalso. apply Hc. apply andb_prop in Eclose as [[Hr Hn%Nat.eqb_eq]%andb_prop (H8 & H9 & H10)%msg_type_true].
    split_and!; [done | done | | done]. apply length_take_small in Hn; [done | lia]. }
  destruct (c_is_relay rc && (n =? 24)%nat && msg_type raw 0x23 0x05 0x42); [eauto|].
  destruct (is_app_dtls (c_is_relay rc) raw) eqn:Eapp; cbn [negb]; [|eauto].
  destruct (n <? 28 + 13)%nat; [eauto|]. destruct (Z.eqb_spec (zat raw 28) 0x17) as [H28|]; cbn [negb]; [|eauto].
  destruct (dtls_decrypt_record _ _ _) as [plain|] eqn:Ed; [|eauto].
  exfalso. apply Hd. split_and!; [done | by apply is_app_typed | done | by exists plain].
Qed.

Lemma app_stray_ext rc rc' out_size t e :
  c_peer rc' = c_peer rc -> c_dtls rc' = c_dtls rc -> c_is_relay rc' = c_is_relay rc ->
  app_stray rc out_size t e -> app_stray rc' out_size t e.
Proof. intros E1 E2 E3. unfold app_stray, session_data, relay_close. rewrite E1, E2, E3. done. Qed.

Lemma recv_app_delivers fuel rc rc' out_size timeout now deadline strays d rest plain :
  same_but_cookie rc rc' -> Forall (app_stray rc out_size (g_time d)) strays ->
  0 < timeout -> now < deadline -> g_time d < deadline ->
  (length strays + Z.to_nat (deadline - now) < fuel)%nat ->
  (forall rc', same_but_cookie rc rc' -> handle_app rc' out_size (cut (Z.to_nat (65536 + 64)) d) =
    AppData plain (set_dtls (next_rx (c_dtls rc')) rc')) ->
  exists rc'' out, recv_app_loop fuel rc' out_size timeout now deadline (strays ++ Got d :: rest) =
    (Ret (zlen plain) plain, set_dtls (next_rx (c_dtls rc)) rc'', rest, out) /\ same_but_cookie rc rc''.
Proof.
  intros Hsame Hst Ht Hnow Hd Hf Hdata. revert rc' Hsame now strays Hst Hnow Hf.
  induction fuel as [|fuel IH]; intros rc' Hsame now strays Hst Hnow Hf; [lia|].
  cbn [recv_app_loop]. rewrite (proj2 (Z.leb_gt timeout 0)), (proj2 (Z.ltb_ge (deadline - now) 0)) by lia.
  cbv zeta. pose proof (recv_step_range timeout now deadline Ht Hnow) as Hs. cbv zeta in Hs.
  set (step := Z.max 1 (Z.min (deadline - now) 200)) in *. unfold recvfrom.
  rewrite (proj2 (Z.eqb_neq step 0)) by lia. cbn [negb andb].
  assert (Hrec : forall rc1 now' strays' out, same_but_cookie rc rc1 -> now' < deadline ->
    Forall (app_stray rc out_size (g_time d)) strays' ->
    (length strays' + Z.to_nat (deadline - now') < fuel)%nat ->
    exists rc'' out', (if now' <? deadline
      then let '(r, rc, inbox, out') := recv_app_loop fuel rc1 out_size timeout now' deadline
             (strays' ++ Got d :: rest) in (r, rc, inbox, out ++ out')
      else (Ret 0 [], rc1, strays' ++ Got d :: rest, out)) =
    (Ret (zlen plain) plain, set_dtls (next_rx (c_dtls rc)) rc'', rest, out') /\ same_but_cookie rc rc'').
  { intros rc1 now' strays' out H1 H2 H3 H4. rewrite (proj2 (Z.ltb_lt _ _)) by done.
    destruct (IH rc1 H1 now' strays' H3 H2 H4) as (rc'' & out' & -> & Hc). by eauto. }
  destruct Hst as [|e strays (g & -> & Hg & Hnd & Hnc) Hst]; cbn [app ev_time].
  - destruct (Z.leb_spec (now + step) (g_time d)).
    + apply (Hrec rc' (now + step) [] []); [done | lia | done | simpl in *; lia].
    + rewrite (Hdata rc' Hsame). destruct (same_but_cookie_fields rc rc' Hsame) as (_ & _ & _ & -> & _).
      by eauto.
  - destruct (Z.leb_spec (now + step) (g_time g)).
    + apply (Hrec rc' (now + step) (Got g :: strays) []); [done | lia | | simpl in *; lia].
      constructor; [by exists g | done].
    + destruct (skipped_by rc rc' out_size _ Hsame (stray_skipped _ _ _ Hnd Hnc)) as (rc1 & out & -> & Hs1).
      apply Hrec; [done | lia | done | simpl in *; lia].
Qed.

(** C25: application data crosses the connection both ways. What the client
    sends is a datagram from which the peer, which holds the matching keys,
    reads the data; what the peer sends in a record, in the framing of the
    relay or of the direct path, is what receiving returns when it arrives in
    time, whatever datagrams come before it, from whomever, that are neither data
    of the session nor the relay's word that the peer has gone. *)
Theorem app_data_exchanged rc peer data iv reply riv hdr out_size timeout now t strays rest :
  c_open rc = true -> length (c_token rc) = 8%nat -> keys_agree (c_dtls rc) peer -> keys_agree peer (c_dtls rc) ->
  0 <= epoch (c_dtls rc) < 2 ^ 16 -> 0 <= tx_seq (c_dtls rc) < 2 ^ 48 ->
  0 <= epoch peer < 2 ^ 16 -> 0 <= tx_seq peer < 2 ^ 48 -> length iv = 16%nat -> length riv = 16%nat ->
  zlen data <= kMaxRecordPlaintext -> zlen reply <= kMaxRecordPlaintext -> zlen reply <= Z.of_nat out_size ->
  app_hdr_ok (c_is_relay rc) hdr -> 0 < timeout -> t < now + timeout ->
  Forall (app_stray rc out_size t) strays ->
  (exists rc' pkt, iotc_send_app_data (fun _ => true) (Some iv) rc data = (0, rc', [(c_peer rc, pkt)]) /\
     tx_seq (c_dtls rc') = tx_seq (c_dtls rc) + 1 /\
     dtls_decrypt_record peer (drop 28 (descramble_rx pkt)) (length data) = Some data) /\
  (exists rec rc' out, fst (dtls_encrypt_record peer 0x17 reply (Some riv)) = Some rec /\
     iotc_recv_app_data rc out_size timeout now (strays ++ app_datagram rc t hdr rec :: rest) =
       (Ret (zlen reply) reply, rc', rest, out) /\
     c_dtls rc' = next_rx (c_dtls rc) /\ c_peer rc' = c_peer rc).
Proof.
  intros Hopen Htok Hk1 Hk2 He Hs Hpe Hps Hiv Hriv Hdl Hrl Hro Hh Ht Htime Hst. split.
  - unfold iotc_send_app_data. rewrite Hopen. cbn [negb].
    destruct (record_opens (c_dtls rc) peer 0x17 data iv (length data) Hk1)
      as (p & -> & Hp & Hd); [lia | lia | lia | done | done | lia |]. cbv zeta in *.
    set (rec := _ ++ p) in *. specialize (Hd []). rewrite app_nil_r in Hd. unfold kMaxRecordPlaintext in *.
    assert (Hn : zlen rec <= 0xffff - 12) by (unfold rec, zlen in *; rewrite length_app, length_record_hdr; lia).
    rewrite build_dtls_packet_scrambled by done. eexists _, _. split; [reflexivity|]. split; [done|].
    rewrite descramble_scramble, drop_app_length'; [exact Hd|]. symmetry. by apply length_dtls_header.
  - destruct (record_opens peer (c_dtls rc) 0x17 reply riv out_size Hk2)
      as (p & E & Hp & Hd); [lia | lia | lia | done | done | unfold zlen in *; lia |]. cbv zeta in *.
    set (rec := _ ++ p) in *. specialize (Hd []). rewrite app_nil_r in Hd.
    unfold iotc_recv_app_data. rewrite Hopen. cbn [negb]. cbv zeta.
    set (alive := negb (c_is_relay rc) && _).
    set (rc1 := if alive then set_alive now rc else rc). rewrite E.
    assert (Hrc1 : c_dtls rc1 = c_dtls rc /\ c_peer rc1 = c_peer rc /\ c_is_relay rc1 = c_is_relay rc)
      by (unfold rc1; by destruct alive).
    destruct Hrc1 as (Ed & Ep & Er).
    assert (Hn : zlen rec <= 65536)
      by (unfold rec, zlen, kMaxRecordPlaintext in *; rewrite length_app, length_record_hdr; lia).
    destruct (recv_app_delivers (recv_app_fuel timeout (strays ++ app_datagram rc t hdr rec :: rest)) rc1 rc1
      out_size timeout now (now + Z.max 0 timeout) strays
      {| g_time := t; g_src := c_peer rc; g_raw := scramble_tx (hdr ++ rec) |} rest reply)
      as (rc2 & out2 & E2 & Hsame).
    + by left.
    + eapply Forall_impl; [exact Hst|]. intros e. by apply app_stray_ext.
    + done.
    + lia.
    + cbn [g_time]. lia.
    + unfold recv_app_fuel. rewrite length_app. simpl. lia.
    + intros rc2 Hs2. destruct (same_but_cookie_fields rc1 rc2 Hs2) as (_ & Ep2 & _ & Ed2 & _ & Er2 & _).
      apply (handle_app_data rc2 out_size t hdr p (epoch peer) (tx_seq peer) reply);
        [by rewrite Er2, Er | done | done | by rewrite Ed2, Ed |].
      unfold app_datagram. by rewrite Ep2, Ep.
    + unfold app_datagram in *. exists rec, (set_dtls (next_rx (c_dtls rc1)) rc2). eexists. split; [done|].
      split; [by rewrite E2|]. cbn [set_dtls c_dtls c_peer].
      destruct (same_but_cookie_fields rc1 rc2 Hsame) as (_ & Ep2 & _). by rewrite Ed, Ep2, Ep.
Qed.
End delivery.

(** ** The session stays well-formed *)

(** The sizes of the arrays as the suite uses them, and the epoch. *)
Definition session_ok (ds : DtlsSession) : Prop :=
  let cbc := cipher_suite ds =? 0xC038 in
  (cipher_suite ds = 0xC038 \/ cipher_suite ds = 0xCCAC) /\
  length (client_random ds) = 32%nat /\ length (server_random ds) = 32%nat /\
  length (master_secret ds) = 48%nat /\
  length (client_write_key ds) = 32%nat /\ length (server_write_key ds) = 32%nat /\
  (let iv := if cbc then 16%nat else 12%nat in
   length (client_write_iv ds) = iv /\ length (server_write_iv ds) = iv) /\
  (let mac := if cbc then 48%nat else 0%nat in
   length (client_write_mac_key ds) = mac /\ length (server_write_mac_key ds) = mac) /\
  epoch ds = 1 /\ handshake_complete ds = true.

Section typing.
Context `{CryptoLaws}.

Definition flight_ok (f : Flight) : Prop := f_suite f = 0 \/ length (f_random f) = 32%nat.

Lemma read_handshake_ok hs f f' : flight_ok f -> read_handshake hs f = Some f' -> flight_ok f'.
Proof.
  intros Hf. unfold read_handshake. cbv zeta. destruct (length hs <? _)%nat; [by intros [= <-]|].
  destruct (zat hs 0 =? 0x0e); [by intros [= <-]|]. set (body := sub 12 _ hs).
  destruct (zat hs 0 =? 0x02).
  - unfold read_server_hello. destruct (Nat.ltb_spec (length body) (2 + 32 + 1)) as [|Hb]; [done|].
    cbv zeta. destruct (length body <? _)%nat; [done|].
    destruct (if (_ <=? _)%nat then _ else _) as [ems etm]. intros [= <-]. right. cbn [f_random].
    unfold sub. rewrite length_take, length_drop. lia.
  - destruct (zat hs 0 =? 0x0c); intros [= <-]; [|done]. unfold read_server_key. by destruct (_ && _).
Qed.

Lemma flight_loop_ok fuel raw f f' : flight_ok f -> flight_loop fuel raw f = Some f' -> flight_ok f'.
Proof.
  revert raw f. induction fuel as [|fuel IH]; intros raw f Hf; cbn [flight_loop]; [by intros [= <-]|].
  cbv zeta. destruct (length raw <? 13 + 12)%nat; [by intros [= <-]|].
  destruct (length raw <? _)%nat; [by intros [= <-]|]. destruct (_ || _); [by apply IH|].
  destruct (read_handshake _ f) as [f1|] eqn:E; [|done]. apply IH. by eapply read_handshake_ok.
Qed.

Lemma parse_flight_ok raw tr f :
  parse_server_hello_flight raw tr = Some f ->
  (f_suite f = 0xC038 \/ f_suite f = 0xCCAC) /\ length (f_random f) = 32%nat.
Proof.
  unfold parse_server_hello_flight. cbv zeta. destruct (_ && _); [done|]. destruct (_ || _); [done|].
  destruct (flight_loop _ _ _) as [f0|] eqn:E; [|done]. apply flight_loop_ok in E as Hok; [|by left].
  destruct (Z.eqb_spec (f_suite f0) 0xC038) as [Hs|]; [|destruct (Z.eqb_spec (f_suite f0) 0xCCAC) as [Hs|]; [|done]];
    cbn [negb andb]; destruct (f_pub f0); try done; intros [= <-];
    (split; [tauto|]); (destruct Hok as [Hz|]; [rewrite Hs in Hz; discriminate | done]).
Qed.

(** The keys derived for a flight have the sizes of its suite. *)
Lemma derived_ok f ds premaster tr ep tx rx pk :
  (f_suite f = 0xC038 \/ f_suite f = 0xCCAC) -> length (f_random f) = 32%nat ->
  length (client_random ds) = 32%nat -> ep = 1 ->
  session_ok (with_counters ep tx rx pk true (derive_session_keys (with_flight f ds) premaster tr)).
Proof.
  intros Hs Hr Hc ->. unfold derive_session_keys. set (master := derive_master _ _ _).
  assert (Hm : length master = 48%nat)
    by (unfold master, derive_master; destruct (use_ems _); apply length_suite_prf).
  set (kb := suite_prf _ _ _ _ _). pose proof (length_suite_prf (cipher_suite (with_flight f ds)) master
    (str "key expansion") (server_random (with_flight f ds) ++ client_random (with_flight f ds))
    (key_block_len (cipher_suite (with_flight f ds)))) as Hkb. fold kb in Hkb. clearbody kb master. revert Hkb.
  cbn [cipher_suite with_flight]. unfold key_block_len, split_key_block, session_ok.
  destruct (f_suite f =? 0xC038) eqn:E; intros Hkb;
    cbn; unfold sub; rewrite E, ?length_take, ?length_drop, Hkb; repeat (split; [done || lia|]); done.
Qed.

(** Connections with a session: after the handshake, and after sending and
    receiving in any order. *)
Inductive live : IotcConn -> Prop :=
  | live_handshake env rc passwd account now inbox rc' out random :
      e_random env = Some random -> length random = 32%nat ->
      iotc_dtls_handshake env rc passwd account now inbox = (Some rc', out) -> live rc'
  | live_send rc sendto iv data : live rc -> live (iotc_send_app_data sendto iv rc data).1.2
  | live_recv rc out_size timeout now inbox :
      live rc -> live (iotc_recv_app_data rc out_size timeout now inbox).1.1.2.

Lemma handshake_ok env peer token uid passwd account tag now inbox ds sent random :
  e_random env = Some random -> length random = 32%nat ->
  dtls_psk_handshake env peer token uid passwd account tag now inbox = (Some ds, sent) -> session_ok ds.
Proof.
  intros Hr Hr32. unfold dtls_psk_handshake. rewrite Hr. cbv zeta.
  destruct (build_dtls_packet _ _ _ _ _ _) as [hello|]; [|done].
  destruct (negb (e_sendto env hello)); [done|].
  match goal with |- context [match ?x with Some s => _ | None => (None, [(peer, hello); _]) end = _] =>
    destruct x as [sent0|]; [|done] end.
  destruct (recv_flight _ _ _ _ _ inbox) as [[[[raw1|] now1] inbox1] out1]; [|done].
  destruct (parse_server_hello_flight raw1 _) as [f|] eqn:Ep; [|done].
  destruct (second_flight _ _ _ _ _ _ f _) as [[[ds1 tr1] pkt]|] eqn:Es; [|done].
  destruct (recv_server_finished peer ds1 now1 inbox1 tr1) as [[[[fin tr]|] rest] out]; [|done].
  destruct (length fin <? 24)%nat; [done|]. destruct (bool_decide _); [|done]. intros [= <- _].
  apply parse_flight_ok in Ep as [Hs Hl].
  apply second_flight_session in Es as (pub & cpub & shared & _ & _ & (tx & rx & pk & ->) & _).
  by apply (derived_ok f (with_counters 0 0 0 1 false (zero_session tag random)) _ _ 1 1 1 _ Hs Hl Hr32).
Qed.

(** Sending and receiving move only counters. *)
Lemma session_ok_counters ds tx rx pk :
  session_ok ds -> session_ok (with_counters (epoch ds) tx rx pk (handshake_complete ds) ds).
Proof. done. Qed.

Lemma send_ok sendto iv rc data :
  session_ok (c_dtls rc) -> session_ok (c_dtls (iotc_send_app_data sendto iv rc data).1.2).
Proof.
  intros Hok. unfold iotc_send_app_data. destruct (negb (c_open rc)); [done|].
  assert (Henc : forall r ds, dtls_encrypt_record (c_dtls rc) 0x17 data iv = (r, ds) -> session_ok ds).
  { unfold dtls_encrypt_record. intros r ds. destruct (_ <? _); [by intros [= _ <-]|].
    destruct (if _ =? _ then _ else _); by intros [= _ <-]. }
  destruct (dtls_encrypt_record _ _ _ _) as [[rec|] ds]; specialize (Henc _ _ eq_refl); [|done].
  destruct (build_dtls_packet _ _ _ _ _ _); [|done]. by destruct (sendto _).
Qed.

Lemma handle_app_ok rc out_size g :
  session_ok (c_dtls rc) ->
  match handle_app rc out_size g with
  | AppSkip rc' _ | AppData _ rc' => session_ok (c_dtls rc')
  | AppGone => True
  end.
Proof.
  intros Hok. unfold handle_app. cbv zeta.
  repeat match goal with
    |- match (if ?b then _ else _) with _ => _ end => destruct b; [done|] end.
  by destruct (dtls_decrypt_record _ _ _).
Qed.

Lemma recv_loop_ok fuel rc out_size timeout now deadline inbox :
  session_ok (c_dtls rc) ->
  session_ok (c_dtls (recv_app_loop fuel rc out_size timeout now deadline inbox).1.1.2).
Proof.
  revert rc now inbox. induction fuel as [|fuel IH]; intros rc now inbox Hok; [done|].
  cbn [recv_app_loop]. destruct (_ <? 0); [done|]. cbv zeta.
  assert (Hrec : forall rc now' inbox' out, session_ok (c_dtls rc) ->
    session_ok (c_dtls ((if now' <? deadline
      then let '(r, rc, inbox, out') := recv_app_loop fuel rc out_size timeout now' deadline inbox' in
           (r, rc, inbox, out ++ out')
      else (Ret 0 [], rc, inbox', out)) : Returned * IotcConn * list RecvEvent * list (Addr * list byte)).1.1.2)).
  { intros rc' now' inbox' out Hok'. destruct (now' <? deadline); [|done].
    specialize (IH rc' now' inbox' Hok'). by destruct (recv_app_loop _ _ _ _ _ _ inbox') as [[[r ?] ?] ?]. }
  destruct (recvfrom _ _ _) as [t|[g|] t rest|]; [by apply Hrec | | done | done].
  pose proof (handle_app_ok rc out_size (cut (Z.to_nat (65536 + 64)) g) Hok) as Hh.
  destruct (handle_app _ _ _); [by apply Hrec | done | done].
Qed.

(** C39: a connection that the handshake opened keeps a well-formed session
    whatever is sent and received: one of the two suites, every key, IV and MAC
    key of the size that suite uses, epoch 1, the handshake complete. *)
Theorem live_session_ok rc : live rc -> session_ok (c_dtls rc).
Proof.
  induction 1 as [env rc passwd account now inbox rc' out random Hr Hr32 E|rc sendto iv data _ IH
    |rc out_size timeout now inbox _ IH].
  - revert E. unfold iotc_dtls_handshake. destruct (negb (c_open rc)); [done|]. cbv zeta.
    destruct (dtls_psk_handshake _ _ _ _ _ _ _ _ _) as [[ds|] sent] eqn:E; [|done].
    intros [= <- _]. by eapply handshake_ok.
  - by apply send_ok.
  - unfold iotc_recv_app_data. destruct (negb (c_open rc)); [done|]. cbv zeta.
    set (alive := negb (c_is_relay rc) && _). set (rc1 := if alive then set_alive now rc else rc).
    pose proof (recv_loop_ok (recv_app_fuel timeout inbox) rc1 out_size timeout now (now + Z.max 0 timeout)
      inbox) as Hl.
    destruct (recv_app_loop _ _ _ _ _ _ _) as [[[r rc2] rest] out2]. apply Hl. unfold rc1. by destruct alive.
Qed.
End typing.

(** ** A concrete exchange *)

Definition toy_conn : IotcConn :=
  {| c_open := true; c_peer := {| a_ip := zb <$> [10; 0; 0; 7]; a_port := zb <$> [0x30; 0x39] |};
     c_token := str "sesstokn"; c_dtls := toy_session 0xCCAC; c_relay_tag := 0; c_is_relay := false;
     c_uid := str "UID"; c_cookie := zeros 8; c_have_cookie := false; c_is_lan := true; c_last_alive := 0 |}.
Definition toy_app_hdr : list byte :=
  (zb <$> [0x04; 0x02; 0x1c; 0x0b; 0; 0; 0; 0; 0x08; 0x04; 0x12]) ++ zeros 17.
(** A datagram of nobody, and one of the peer with a record that does not open. *)
Definition toy_noise : list RecvEvent :=
  [Got {| g_time := 5100; g_src := {| a_ip := []; a_port := [] |}; g_raw := zeros 20 |};
   Got {| g_time := 5200; g_src := c_peer toy_conn; g_raw := scramble_tx (toy_app_hdr ++ [zb 0x17] ++ zeros 30) |}].

Lemma toy_noise_stray : Forall (app_stray toy_conn 100 5700) toy_noise.
Proof.
  apply Forall_cons. split; [|apply Forall_cons; split; [|apply Forall_nil; done]].
  - eexists. split; [reflexivity|]. split; [by vm_compute|]. split; intros H; [destruct H as (H & _) | destruct H as (_ & H & _)]; discriminate H.
  - eexists. split; [reflexivity|]. split; [by vm_compute|]. split; intros H; [destruct H as (_ & _ & _ & plain & H) | destruct H as (H & _)].
    + vm_compute in H. discriminate H.
    + discriminate H.
Qed.

Lemma app_data_exchanged_witness :
  exists rec rc' out,
    fst (dtls_encrypt_record (toy_session 0xCCAC) 0x17 (str "pong") (Some (zeros 16))) = Some rec /\
    iotc_recv_app_data toy_conn 100 800 5000 (toy_noise ++ app_datagram toy_conn 5700 toy_app_hdr rec :: []) =
      (Ret (zlen (str "pong")) (str "pong"), rc', [], out) /\
    c_dtls rc' = next_rx (c_dtls toy_conn) /\ c_peer rc' = c_peer toy_conn.
Proof.
  refine (proj2 (app_data_exchanged toy_conn (toy_session 0xCCAC) (str "ping") (zeros 16) (str "pong")
    (zeros 16) toy_app_hdr 100 800 5000 5700 toy_noise [] _ _ _ _ _ _ _ _ _ _ _ _ _ _ _ _ _));
    [done | done | by vm_compute | by vm_compute | by vm_compute | by vm_compute | by vm_compute
    | by vm_compute | done | done | by vm_compute | by vm_compute | by vm_compute | by vm_compute
    | by vm_compute | by vm_compute | apply toy_noise_stray].
Defined.

Lemma recv_app_returns_witness : (iotc_recv_app_data toy_conn 100 800 5000 []).1.1.1 <> Never.
Proof. apply (recv_app_returns toy_conn 100 800 5000 []). lia. Defined.

Definition toy_opening : IotcConn :=
  {| c_open := true; c_peer := toy_peer; c_token := str "sesstokn"; c_dtls := c_dtls zero_conn; c_relay_tag := 0;
     c_is_relay := false; c_uid := str "UID"; c_cookie := zeros 8; c_have_cookie := false; c_is_lan := true;
     c_last_alive := 0 |}.

Lemma live_session_ok_witness :
  match iotc_dtls_handshake toy_env toy_opening (str "secret") (str "admin") 0 toy_inbox with
  | (Some rc, _) => session_ok (c_dtls rc)
  | (None, _) => False
  end.
Proof.
  destruct (iotc_dtls_handshake _ _ _ _ _ _) as [[rc|] out] eqn:E.
  - apply (live_session_ok rc).
    exact (live_handshake toy_env toy_opening _ _ _ _ rc out toy_random eq_refl eq_refl E).
  - apply (f_equal (fun r => match r.1 with None => true | Some _ => false end)) in E.
    vm_compute in E. discriminate.
Defined.
