(* ===== verification/IotcRdv.v ===== *)
(** Finding the printer ([src/camera/tutk/IotcClient.cpp], lines 1645-2240): the
    LAN search, the JOIN through the masters, the off-LAN rendezvous. Sockets
    are queues of datagrams with their arrival times, [cancelled] is polled
    with the time, messages are values rendered by [msg_bytes]. *)

From S2P Require Import Prelude Text TransCode DtlsRecord Iotc DtlsHandshake IotcConn.

(** ** Messages *)

Inductive RdvMsg :=
  | MSearch | MJoin | MKnock (directed : bool) | MProbe | MAuthkey | MRegister (reflexive : Addr)
  | MRandom | MToken | MPunch | MPunch2 | MAck (tag : Z) | MCtrl (step : Z).

(** What a client connects with; [local_ep] and the transaction id are those of
    one rendezvous. *)
Record Ids := {
  i_uid : list byte; i_authkey : list byte; i_token : list byte; i_relay_id : list byte;
  i_local : Addr; i_txn : list byte
}.

(** [r]: the four random bytes a punch carries. *)
Definition msg_bytes (ids : Ids) (r : list byte) (m : RdvMsg) : list byte :=
  let uid := i_uid ids in
  let token := i_token ids in
  match m with
  | MSearch => build_lan_search uid token (i_authkey ids)
  | MJoin => build_relay_join uid (i_relay_id ids)
  | MKnock directed => build_relay_knock uid token directed
  | MProbe => build_stun_probe (i_txn ids)
  | MAuthkey => build_rdv_authkey uid (i_authkey ids)
  | MRegister reflexive => build_rdv_punch uid token (i_local ids) reflexive
  | MRandom => build_rdv_random uid (i_local ids) token (i_authkey ids)
  | MToken => build_rdv_token uid token (i_authkey ids)
  | MPunch => build_punch_to_candidate uid token r
  | MPunch2 => build_rdv_punch2 uid token
  | MAck tag => build_rdv_ack uid token tag
  | MCtrl step => build_ctrl0x33 uid token step
  end.

Definition Sends := list (Addr * RdvMsg).
Definition to_all (dsts : list Addr) (ms : list RdvMsg) : Sends :=
  concat ((fun d => (fun m => (d, m)) <$> ms) <$> dsts).

Definition magic_ok (raw : list byte) : bool := (zat raw 0 =? 0x04) && (zat raw 1 =? 0x02).
Definition echoes (off : nat) (what raw : list byte) : bool := bool_decide (sub off (length what) raw = what).

(** ** The off-LAN rendezvous *)

Record Rdv := {
  v_reflexive : Addr; v_cands : list Addr;
  v_probe : Z; v_challenge : Z; v_session : Z; v_punch : Z
}.

(** The peer, the relay tag, whether the path was punched. *)
Record Outcome := { o_peer : Addr; o_tag : Z; o_direct : bool }.

Section rendezvous.
Context (ids : Ids) (servers : list Addr).

(** What is sent again from time to time. *)
Definition periodic (now : Z) (st : Rdv) : Rdv * Sends :=
  match v_cands st with
  | [] =>
      if 2000 <=? now - v_probe st
      then ({| v_reflexive := v_reflexive st; v_cands := []; v_probe := now;
               v_challenge := v_challenge st; v_session := v_session st; v_punch := v_punch st |},
            to_all servers [MProbe; MAuthkey])
      else (st, [])
  | cands =>
      if 250 <=? now - v_punch st
      then ({| v_reflexive := v_reflexive st; v_cands := cands; v_probe := v_probe st;
               v_challenge := v_challenge st; v_session := v_session st; v_punch := now |},
            to_all cands [MPunch] ++ to_all servers [MPunch2; MAuthkey])
      else (st, [])
  end.

(** A reply of [n] bytes in the receive buffer [resp], which is longer: what
    lies behind the reply is what was there before. *)
Definition on_reply (now : Z) (src : Addr) (n : nat) (resp : list byte) (st : Rdv)
    : Rdv * Sends * option Outcome :=
  if (zat resp 8 =? 0x04) && (zat resp 9 =? 0x80)
  then
    match read_addr_rec resp 16 with
    | Some mine =>
        if negb (ntohs (a_port mine) =? kRelayPort)
        then ({| v_reflexive := mine; v_cands := v_cands st; v_probe := v_probe st;
                 v_challenge := v_challenge st; v_session := v_session st; v_punch := v_punch st |}, [], None)
        else (st, [], None)
    | None => (st, [], None)
    end
  else if msg_type resp 0x02 0x06 0x12
  then (st, [], Some {| o_peer := src; o_tag := 0; o_direct := false |})
  else if (zat resp 9 =? 0x04) && (zat resp 10 =? 0x33) && (44 <=? n)%nat
          && echoes 16 (i_uid ids) resp && echoes 36 (i_token ids) resp
  then
    if zat resp 8 =? 0x01 then (st, [(src, MCtrl 0x02)], None)
    else if negb (zat resp 8 =? 0x02) && negb (zat resp 8 =? 0x04) then (st, [], None)
    else (st, if zat resp 8 =? 0x02 then [(src, MCtrl 0x04); (src, MCtrl 0x04)] else [],
          Some {| o_peer := src; o_tag := 0; o_direct := true |})
  else if msg_type resp 0x27 0x02 0x42
  then
    if 150 <=? now - v_challenge st
    then ({| v_reflexive := v_reflexive st; v_cands := v_cands st; v_probe := v_probe st;
             v_challenge := now; v_session := v_session st; v_punch := v_punch st |},
          to_all servers [MRegister (v_reflexive st); MProbe; MAuthkey], None)
    else (st, [], None)
  else if msg_type resp 0x15 0x02 0x42
  then
    if 150 <=? now - v_session st
    then ({| v_reflexive := v_reflexive st; v_cands := v_cands st; v_probe := v_probe st;
             v_challenge := v_challenge st; v_session := now; v_punch := v_punch st |},
          to_all servers [MRandom; MToken], None)
    else (st, [], None)
  else if msg_type resp 0x01 0x03 0x43
  then
    let cands := parse_candidates (take n resp) 4 in
    ({| v_reflexive := v_reflexive st; v_cands := cands; v_probe := v_probe st;
        v_challenge := v_challenge st; v_session := v_session st; v_punch := v_punch st |},
     to_all cands [MPunch] ++ to_all cands [MPunch] ++ to_all cands [MPunch] ++
     to_all servers [MPunch2; MAuthkey], None)
  else if msg_type resp 0x03 0x03 0x43
  then
    let tag := if (40 <=? n)%nat then le32 resp 36 else 0 in
    (st, [(src, MAck tag); (src, MAck tag)], Some {| o_peer := src; o_tag := tag; o_direct := false |})
  else (st, [], None).

(** [stale]: what an earlier datagram left in the buffer behind this one. *)
Definition on_datagram (stale : list byte) (now : Z) (g : Datagram) (st : Rdv) : Rdv * Sends * option Outcome :=
  let raw := take 1024 (g_raw g) in
  if (length raw <? 16)%nat then (st, [], None)
  else
    let resp := reverse_trans_code_partial raw in
    if negb (magic_ok resp) then (st, [], None)
    else on_reply now (g_src g) (length raw) (resp ++ stale) st.

(** Datagrams left in the queue after a pairing, waited for 10 ms at a time. *)
Fixpoint drain (now : Z) (inbox : list Datagram) : list Datagram :=
  match inbox with
  | [] => []
  | g :: rest =>
      if now + 10 <=? g_time g then inbox
      else match g_raw g with [] => rest | _ => drain (Z.max now (g_time g)) rest end
  end.

Definition is_pairing (g : Datagram) : bool :=
  msg_type (reverse_trans_code_partial (take 1024 (g_raw g))) 0x03 0x03 0x43.

(** The loop; [stale] by the turns left. *)
Fixpoint rdv_loop (fuel : nat) (stale : nat -> list byte) (cancelled : Z -> bool) (now deadline : Z)
    (inbox : list Datagram) (st : Rdv) : option Outcome * Z * list Datagram * Sends :=
  match fuel with
  | O => (None, now, inbox, [])
  | S fuel =>
      if deadline <=? now then (None, now, inbox, [])
      else if cancelled now then (None, now, inbox, [])
      else
        let '(st, out) := periodic now st in
        let continue now' inbox st out :=
          let '(r, now', inbox, out') := rdv_loop fuel stale cancelled now' deadline inbox st in
          (r, now', inbox, out ++ out') in
        match inbox with
        | [] => continue (now + 100) [] st out
        | g :: rest =>
            if now + 100 <=? g_time g then continue (now + 100) inbox st out
            else
              let now' := Z.max now (g_time g) in
              let '(st, out', r) := on_datagram (stale fuel) now g st in
              match r with
              | None => continue now' rest st (out ++ out')
              | Some o => (Some o, now', if is_pairing g then drain now' rest else rest, out ++ out')
              end
        end
  end.

Definition rdv_fuel (now deadline : Z) (inbox : list Datagram) : nat :=
  S (length inbox + Z.to_nat (deadline - now)).
End rendezvous.

(** The rendezvous, for at most 15 seconds. [stale]: what the receive buffer
    holds behind the datagram of each turn. *)
Definition offlan_rendezvous (stale : nat -> list byte) (master_reply : list byte) (ids : Ids) (cancelled : Z -> bool)
    (now : Z) (inbox : list Datagram) : option Outcome * Z * list Datagram * Sends :=
  match i_authkey ids with
  | [] => (None, now, inbox, [])
  | _ =>
      match parse_rdv_servers master_reply 4 with
      | [] => (None, now, inbox, [])
      | (s0 :: _) as servers =>
          let st :=
            {| v_reflexive := default s0 (parse_reflexive master_reply); v_cands := []; v_probe := now;
               v_challenge := now - 1000; v_session := now - 1000; v_punch := now - 1000 |} in
          let '(r, now', rest, out) :=
            rdv_loop ids servers (rdv_fuel now (now + 15000) inbox) stale cancelled now (now + 15000) inbox st in
          (r, now', rest, to_all servers [MProbe; MAuthkey] ++ out)
      end
  end.

(** ** The masters *)

Definition candidate_hosts (region : list byte) : list (list byte) :=
  (match region with
   | [] => []
   | _ => [region ++ str "-m1.iotcplatform.com"; region ++ str "-m2.iotcplatform.com"]
   end) ++ [str "m1.iotcplatform.com"; str "m2.iotcplatform.com"; str "m3.iotcplatform.com"].

(** The first four addresses; [resolve]: the IPv4 addresses of a host. *)
Fixpoint collect_masters (resolve : list byte -> list Addr) (hosts : list (list byte)) (masters : list Addr)
    : list Addr :=
  match hosts with
  | [] => masters
  | host :: hosts =>
      if (4 <=? length masters)%nat then masters
      else collect_masters resolve hosts (masters ++ take (4 - length masters) (resolve host))
  end.

(** [recv_cancellable]: a datagram, or nothing in [timeout_ms], looking at
    [cancelled] every 100 ms. *)
Fixpoint recv_cancellable (fuel : nat) (cancelled : Z -> bool) (now deadline : Z) (inbox : list Datagram)
    : option Datagram * Z * list Datagram :=
  match fuel with
  | O => (None, now, inbox)
  | S fuel =>
      if cancelled now || (deadline <=? now) then (None, now, inbox)
      else
        match inbox with
        | [] => recv_cancellable fuel cancelled (now + 100) deadline []
        | g :: rest =>
            if now + 100 <=? g_time g then recv_cancellable fuel cancelled (now + 100) deadline inbox
            else (Some g, Z.max now (g_time g), rest)
        end
  end.

(** The replies to the JOIN: the printer's own rendezvous, or the last reply of
    a master. *)
Fixpoint relay_attempts (attempts : nat) (cancelled : Z -> bool) (now : Z) (inbox : list Datagram)
    (master_reply : list byte) : option Addr * list byte * Z * list Datagram :=
  match attempts with
  | O => (None, master_reply, now, inbox)
  | S attempts =>
      if cancelled now then (None, master_reply, now, inbox)
      else
        let '(r, now, inbox) := recv_cancellable 31 cancelled now (now + 3000) inbox in
        match r with
        | None => relay_attempts attempts cancelled now inbox master_reply
        | Some g =>
            let raw := take 256 (g_raw g) in
            if (length raw <? 16)%nat then relay_attempts attempts cancelled now inbox master_reply
            else
              let resp := reverse_trans_code_partial raw in
              if negb (magic_ok resp) then relay_attempts attempts cancelled now inbox master_reply
              else if msg_type resp 0x08 0x10 0x83
              then relay_attempts attempts cancelled now inbox resp
              else if negb (msg_type resp 0x02 0x06 0x12)
              then relay_attempts attempts cancelled now inbox master_reply
              else (Some (g_src g), master_reply, now, inbox)
        end
  end.

Definition conn_to (peer : Addr) (ids : Ids) (tag : Z) (is_relay is_lan : bool) : IotcConn :=
  {| c_open := true; c_peer := peer; c_token := i_token ids;
     c_dtls := with_counters 0 0 0 0 false (zero_session tag (zeros 32)); c_relay_tag := tag;
     c_is_relay := is_relay; c_uid := i_uid ids; c_cookie := zeros 8; c_have_cookie := false;
     c_is_lan := is_lan; c_last_alive := 0 |}.

(** [sendto]: whether a message to an address goes out. *)
Definition iotc_relay_connect (resolve : list byte -> list Addr) (sendto : Addr -> RdvMsg -> bool)
    (stale : nat -> list byte) (region : list byte) (ids : Ids) (cancelled : Z -> bool) (now : Z)
    (inbox : list Datagram) : option IotcConn * Sends :=
  if negb (length (i_uid ids) =? kUidLen)%nat then (None, [])
  else
    let masters := collect_masters resolve (candidate_hosts region) [] in
    let joins := filter (fun s => sendto s.1 s.2 = true) (to_all masters [MJoin]) in
    match joins with
    | [] => (None, [])
    | _ =>
        let '(assigned, master_reply, now, inbox) := relay_attempts 3 cancelled now inbox [] in
        let '(found, out) :=
          match assigned with
          | Some peer => (Some {| o_peer := peer; o_tag := 0; o_direct := false |}, [])
          | None =>
              match master_reply with
              | [] => (None, [])
              | _ => if cancelled now then (None, [])
                     else let '(o, _, _, out) := offlan_rendezvous stale master_reply ids cancelled now inbox in
                          (o, out)
              end
          end in
        match found with
        | None => (None, joins ++ out)
        | Some o =>
            let relayed := ntohs (a_port (o_peer o)) =? kRelayPort in
            let conn := conn_to (o_peer o) ids (o_tag o) relayed false in
            if negb (o_direct o) && negb relayed
            then
              if sendto (o_peer o) (MKnock true) then (Some conn, joins ++ out ++ [(o_peer o, MKnock true)])
              else (None, joins ++ out)
            else (Some conn, joins ++ out)
        end
    end.

(** ** The LAN search *)

Definition kLanSearchPort : Z := 32761.

(** The addresses in order, each once, and the limited broadcast. *)
Definition lan_broadcast_targets (interfaces : list (list byte)) : list Addr :=
  (fun ip => {| a_ip := ip; a_port := enc_be16 kLanSearchPort |}) <$>
    foldl (fun out ip => if bool_decide (ip ∈ out) then out else out ++ [ip]) []
      (interfaces ++ [replicate 4 (zb 0xff)]).

(** The printer's answer: its UID and the token of the search. *)
Definition lan_answer (ids : Ids) (g : Datagram) : bool :=
  let raw := take 512 (g_raw g) in
  (200 <=? length raw)%nat
  && (let resp := reverse_trans_code_partial raw in
      magic_ok resp && msg_type resp 0x02 0x06 0x12
      && echoes 16 (i_uid ids) resp && echoes 188 (i_token ids) resp).

Fixpoint lan_loop (fuel : nat) (targets : list Addr) (ids : Ids) (cancelled : Z -> bool)
    (now next_send deadline : Z) (inbox : list Datagram) : option Addr * Sends :=
  match fuel with
  | O => (None, [])
  | S fuel =>
      if deadline <=? now then (None, [])
      else if cancelled now then (None, [])
      else
        let out := if next_send <=? now then to_all targets [MSearch] else [] in
        let next_send := if next_send <=? now then next_send + 250 else next_send in
        let continue now inbox :=
          let '(r, out') := lan_loop fuel targets ids cancelled now next_send deadline inbox in
          (r, out ++ out') in
        match inbox with
        | [] => continue (now + 50) []
        | g :: rest =>
            if now + 50 <=? g_time g then continue (now + 50) inbox
            else if lan_answer ids g then (Some (g_src g), out)
            else continue (Z.max now (g_time g)) rest
        end
  end.

Definition iotc_lan_connect (interfaces : list (list byte)) (ids : Ids) (timeout : Z) (cancelled : Z -> bool)
    (now : Z) (inbox : list Datagram) : option IotcConn * Sends :=
  if negb (length (i_uid ids) =? kUidLen)%nat then (None, [])
  else
    let '(found, out) := lan_loop (S (length inbox + Z.to_nat timeout)) (lan_broadcast_targets interfaces) ids
                           cancelled now now (now + timeout) inbox in
    match found with
    | None => (None, out)
    | Some peer => (Some (conn_to peer ids 0 false true), out ++ [(peer, MSearch)])
    end.

(** ** What the rendezvous relies on *)

Definition reply_of (g : Datagram) : list byte := reverse_trans_code_partial (take 1024 (g_raw g)).

(** The datagram that ends the rendezvous with [o], and what it must hold. *)
Definition ended_by (ids : Ids) (g : Datagram) (o : Outcome) (out : Sends) : Prop :=
  let resp := reply_of g in
  o_peer o = g_src g /\ magic_ok resp = true /\
  ((msg_type resp 0x02 0x06 0x12 = true /\ o_tag o = 0 /\ o_direct o = false) \/
   (o_direct o = true /\ o_tag o = 0 /\ (zat resp 8 = 0x02 \/ zat resp 8 = 0x04) /\
    zat resp 9 = 0x04 /\ zat resp 10 = 0x33 /\
    sub 16 (length (i_uid ids)) resp = i_uid ids /\ sub 36 (length (i_token ids)) resp = i_token ids) \/
   (msg_type resp 0x03 0x03 0x43 = true /\ o_direct o = false /\
    o_tag o = (if (40 <=? length resp)%nat then le32 resp 36 else 0) /\
    (o_peer o, MAck (o_tag o)) ∈ out)).

(** To whom what may be sent: the rendezvous to the servers, punches to
    candidates a reply named, answers to who asked. *)
Definition licensed (servers : list Addr) (inbox : list Datagram) (s : Addr * RdvMsg) : Prop :=
  match s.2 with
  | MPunch => exists g, g ∈ inbox /\ s.1 ∈ parse_candidates (reply_of g) 4
  | MCtrl _ | MAck _ => exists g, g ∈ inbox /\ g_src g = s.1
  | _ => s.1 ∈ servers
  end.

Definition cands_ok (inbox : list Datagram) (st : Rdv) : Prop :=
  v_cands st = [] \/ exists g, g ∈ inbox /\ v_cands st = parse_candidates (reply_of g) 4.

Section soundness.
Context (ids : Ids) (servers : list Addr).
Context (Huid : length (i_uid ids) = 20%nat) (Htok : length (i_token ids) = 8%nat).

Lemma elem_of_to_all dsts ms d m : (d, m) ∈ to_all dsts ms -> d ∈ dsts /\ m ∈ ms.
Proof.
  unfold to_all. intros (l & Hl & H)%list_elem_of_In%in_concat. apply list_elem_of_In in Hl.
  apply list_elem_of_In in H. apply list_elem_of_fmap in Hl as (d' & -> & Hd).
  apply list_elem_of_fmap in H as (m' & [= -> ->] & Hm). done.
Qed.

Lemma licensed_servers inbox ms :
  (forall m, m ∈ ms -> match m with MPunch | MCtrl _ | MAck _ => False | _ => True end) ->
  Forall (licensed servers inbox) (to_all servers ms).
Proof.
  intros Hms. apply Forall_forall. intros [d m] [Hd Hm]%elem_of_to_all. specialize (Hms m Hm).
  unfold licensed. by destruct m.
Qed.

Lemma licensed_punch inbox g :
  g ∈ inbox -> Forall (licensed servers inbox) (to_all (parse_candidates (reply_of g) 4) [MPunch]).
Proof.
  intros Hg. apply Forall_forall. intros [d m] [Hd Hm]%elem_of_to_all.
  apply list_elem_of_singleton in Hm as ->. by exists g.
Qed.

Lemma licensed_more inbox inbox' s :
  (forall g, g ∈ inbox -> g ∈ inbox') -> licensed servers inbox s -> licensed servers inbox' s.
Proof.
  intros Hi. unfold licensed. destruct (s.2); try done; intros (g & Hg & ?); exists g; auto.
Qed.

Ltac server_sends :=
  let m := fresh in let Hm := fresh in apply licensed_servers; intros m Hm; rewrite !elem_of_cons in Hm;
  repeat destruct Hm as [->|Hm]; try done; by apply not_elem_of_nil in Hm.

Lemma periodic_ok inbox now st :
  cands_ok inbox st ->
  cands_ok inbox (periodic servers now st).1 /\ Forall (licensed servers inbox) (periodic servers now st).2.
Proof.
  intros Hc. unfold periodic. destruct (v_cands st) as [|c cs] eqn:E.
  - destruct (_ <=? _); [|done]. split; [by left | server_sends].
  - destruct (_ <=? _); [|done]. destruct Hc as [Hc | (g & Hg & Hc)]; [congruence|].
    split; [right; exists g; by rewrite <- E |]. rewrite <- E, Hc. apply Forall_app_2; [by apply licensed_punch|].
    server_sends.
Qed.

Lemma reply_stale resp stale i : (i < length resp)%nat -> zat (resp ++ stale) i = zat resp i.
Proof. apply zat_app_l. Qed.

Lemma msg_type_stale resp stale a b c :
  (11 <= length resp)%nat -> msg_type (resp ++ stale) a b c = msg_type resp a b c.
Proof. apply msg_type_app. Qed.

Lemma echoes_stale off what resp stale :
  (off + length what <= length resp)%nat -> echoes off what (resp ++ stale) = true ->
  sub off (length what) resp = what.
Proof.
  intros Hl E%bool_decide_eq_true. revert E. unfold sub. rewrite drop_app_le by lia.
  rewrite take_app_le by (rewrite length_drop; lia). done.
Qed.

(** One datagram: the state stays good, what is sent is licensed, and an end is
    justified. *)
Lemma on_datagram_ok inbox stale now g st :
  g ∈ inbox -> cands_ok inbox st ->
  let '(st', out, r) := on_datagram ids servers stale now g st in
  cands_ok inbox st' /\ Forall (licensed servers inbox) out /\
  match r with None => True | Some o => ended_by ids g o out end.
Proof.
  intros Hg Hc. unfold on_datagram. cbv zeta. fold (reply_of g).
  assert (Hlen : length (reply_of g) = length (take 1024 (g_raw g)))
    by apply length_reverse_trans_code.
  rewrite <- Hlen. destruct (Nat.ltb_spec (length (reply_of g)) 16) as [|Hn]; [done|].
  destruct (magic_ok (reply_of g)) eqn:Hm; cbn [negb]; [|done].
  unfold on_reply. rewrite !msg_type_app by lia. rewrite !zat_app_l by lia.
  rewrite take_app_length.
  assert (Hanswer : forall m, match m with MCtrl _ | MAck _ => True | _ => False end ->
    licensed servers inbox (g_src g, m)).
  { intros m Hms. unfold licensed. destruct m; try done; by exists g. }
  destruct (_ && (zat (reply_of g) 9 =? 0x80)).
  { destruct (read_addr_rec _ 16); [|done]. by destruct (negb _). }
  destruct (msg_type (reply_of g) 0x02 0x06 0x12) eqn:E1.
  { split; [done|]. split; [done|]. unfold ended_by. cbv zeta. split; [done|]. split; [done|]. by left. }
  destruct (_ && echoes 36 _ _) eqn:E2.
  { apply andb_prop in E2 as [[[[E9 E10]%andb_prop E44]%andb_prop Eu]%andb_prop Et].
    apply Z.eqb_eq in E9, E10. apply Nat.leb_le in E44.
    apply echoes_stale in Eu; [|lia]. apply echoes_stale in Et; [|lia].
    destruct (Z.eqb_spec (zat (reply_of g) 8) 0x01); [split; [done|]; split; [by constructor; [apply Hanswer|]|done]|].
    destruct (negb (zat (reply_of g) 8 =? 0x02) && negb (zat (reply_of g) 8 =? 0x04)) eqn:E8; [done|].
    split; [done|]. split.
    - destruct (_ =? 0x02); repeat constructor; by apply Hanswer.
    - unfold ended_by. cbv zeta. split; [done|]. split; [done|]. right. left. split_and!; try done.
      destruct (Z.eqb_spec (zat (reply_of g) 8) 0x02); [by left|].
      destruct (Z.eqb_spec (zat (reply_of g) 8) 0x04); [by right | done]. }
  destruct (msg_type (reply_of g) 0x27 0x02 0x42).
  { destruct (_ <=? _); [|done]. split; [done|]. split; [server_sends | done]. }
  destruct (msg_type (reply_of g) 0x15 0x02 0x42).
  { destruct (_ <=? _); [|done]. split; [done|]. split; [server_sends | done]. }
  destruct (msg_type (reply_of g) 0x01 0x03 0x43).
  { split; [right; by exists g|]. split; [|done].
    repeat (apply Forall_app_2; [by apply licensed_punch|]). server_sends. }
  destruct (msg_type (reply_of g) 0x03 0x03 0x43) eqn:E3; [|done].
  split; [done|]. split; [repeat constructor; by apply Hanswer|].
  unfold ended_by. cbv zeta. split; [done|]. split; [done|]. right. right. split_and!; [done | done | | by left].
  cbn [o_tag]. destruct (Nat.leb_spec 40 (length (reply_of g))); [|done].
  unfold le32. by rewrite !zat_app_l by lia.
Qed.
Lemma ended_by_more g o out out' :
  (forall s, s ∈ out -> s ∈ out') -> ended_by ids g o out -> ended_by ids g o out'.
Proof.
  intros Hs (Hp & Hm & H). split; [done|]. split; [done|].
  destruct H as [H | [H | (H1 & H2 & H3 & H4)]]; [by left | by right; left |]. right. right. auto.
Qed.

(** What a run of the loop comes to. *)
Definition loop_ok (inbox : list Datagram) (deadline : Z) (r : option Outcome) (out : Sends) : Prop :=
  Forall (licensed servers inbox) out /\
  match r with
  | None => True
  | Some o => exists g, g ∈ inbox /\ g_time g < deadline + 100 /\ ended_by ids g o out
  end.

Lemma loop_ok_app inbox deadline r out out' :
  Forall (licensed servers inbox) out -> loop_ok inbox deadline r out' -> loop_ok inbox deadline r (out ++ out').
Proof.
  intros Ho [Ho' Hr]. split; [by apply Forall_app_2|]. destruct r as [o|]; [|done].
  destruct Hr as (g & Hg & Ht & He). exists g. split; [done|]. split; [done|].
  eapply ended_by_more; [|exact He]. intros s Hs. apply elem_of_app. by right.
Qed.

Lemma rdv_loop_sound fuel stale cancelled now deadline inbox0 inbox st :
  cands_ok inbox0 st -> (forall g, g ∈ inbox -> g ∈ inbox0) ->
  let '(r, _, _, out) := rdv_loop ids servers fuel stale cancelled now deadline inbox st in
  loop_ok inbox0 deadline r out.
Proof.
  revert now inbox st. induction fuel as [|fuel IH]; intros now inbox st Hc Hin; cbn [rdv_loop]; [done|].
  destruct (Z.leb_spec deadline now) as [|Hd]; [done|]. destruct (cancelled now); [done|].
  destruct (periodic_ok inbox0 now st Hc) as [Hc1 Ho1].
  destruct (periodic servers now st) as [st1 out1]. cbn [fst snd] in *. cbv zeta.
  assert (Hrec : forall now' inbox' st' out, cands_ok inbox0 st' -> (forall g, g ∈ inbox' -> g ∈ inbox0) ->
    Forall (licensed servers inbox0) out ->
    let '(r, _, _, out) :=
      let '(r, now', inbox, out') := rdv_loop ids servers fuel stale cancelled now' deadline inbox' st' in
      (r, now', inbox, out ++ out') in
    loop_ok inbox0 deadline r out).
  { intros now' inbox' st' out Hc' Hin' Ho. specialize (IH now' inbox' st' Hc' Hin').
    destruct (rdv_loop _ _ _ _ _ _ _ inbox' st') as [[[r ?] ?] out']. by apply loop_ok_app. }
  destruct inbox as [|g rest]; [by apply Hrec|].
  destruct (Z.leb_spec (now + 100) (g_time g)) as [|Ht]; [by apply Hrec|].
  assert (Hg : g ∈ inbox0) by (apply Hin; by left).
  pose proof (on_datagram_ok inbox0 (stale fuel) now g st1 Hg Hc1) as Hstep.
  destruct (on_datagram _ _ _ _ g st1) as [[st2 out2] r]. destruct Hstep as (Hc2 & Ho2 & Hr).
  destruct r as [o|].
  - split; [by apply Forall_app_2|]. exists g. split; [done|]. split; [lia|].
    eapply ended_by_more; [|exact Hr]. intros s Hs. apply elem_of_app. by right.
  - apply Hrec; [done | | by apply Forall_app_2]. intros g' Hg'. apply Hin. by right.
Qed.
(** Without a peer the loop runs to its deadline, or is cancelled. *)
Lemma rdv_loop_ends fuel stale cancelled now deadline inbox st :
  (length inbox + Z.to_nat (deadline - now) < fuel)%nat ->
  let '(r, t, _, _) := rdv_loop ids servers fuel stale cancelled now deadline inbox st in
  r = None -> deadline <= t \/ cancelled t = true.
Proof.
  revert now inbox st. induction fuel as [|fuel IH]; intros now inbox st Hf; cbn [rdv_loop]; [lia|].
  destruct (Z.leb_spec deadline now) as [|Hd]; [by left|]. destruct (cancelled now) eqn:Ec; [by right|].
  destruct (periodic servers now st) as [st1 out1]. cbv zeta.
  assert (Hrec : forall now' inbox' st' out, (length inbox' + Z.to_nat (deadline - now') < fuel)%nat ->
    let '(r, t, _, _) :=
      let '(r, now', inbox, out') := rdv_loop ids servers fuel stale cancelled now' deadline inbox' st' in
      (r, now', inbox, (out ++ out') : Sends) in
    r = None -> deadline <= t \/ cancelled t = true).
  { intros now' inbox' st' out Hf'. specialize (IH now' inbox' st' Hf').
    by destruct (rdv_loop _ _ _ _ _ _ _ inbox' st') as [[[r ?] ?] out']. }
  destruct inbox as [|g rest]; [apply Hrec; simpl in *; lia|].
  destruct (Z.leb_spec (now + 100) (g_time g)) as [|Ht]; [apply Hrec; simpl in *; lia|].
  destruct (on_datagram _ _ _ _ g st1) as [[st2 out2] [o|]]; [done|]. apply Hrec. simpl in *. lia.
Qed.
End soundness.

(** C31: a rendezvous ends with a peer only on a datagram from that peer that is
    one of the three ends of the protocol: the printer's own 02 06 12, a punch
    answer that repeats the UID and this session's token (the only case that
    counts as a direct path), or a pairing, whose tag is taken over and
    acknowledged. Up to then nothing is sent to anyone but the :3478 servers of
    the master's reply, candidates a reply named, and who sent a datagram.
    Without a peer it runs its 15 seconds or until it is cancelled. *)
Theorem rendezvous_sound stale master_reply ids cancelled now inbox r t rest out :
  length (i_uid ids) = 20%nat -> length (i_token ids) = 8%nat ->
  offlan_rendezvous stale master_reply ids cancelled now inbox = (r, t, rest, out) ->
  Forall (licensed (parse_rdv_servers master_reply 4) inbox) out /\
  match r with
  | None => i_authkey ids = [] \/ parse_rdv_servers master_reply 4 = [] \/ now + 15000 <= t \/ cancelled t = true
  | Some o => exists g, g ∈ inbox /\ g_time g < now + 15100 /\ ended_by ids g o out
  end.
Proof.
  intros Hu Ht. unfold offlan_rendezvous. destruct (i_authkey ids); [intros [= <- _ _ <-]; split; [done | by left]|].
  destruct (parse_rdv_servers master_reply 4) as [|s0 servers] eqn:Es; [intros [= <- _ _ <-]; split; [done | by right; left]|].
  cbv zeta. set (st := {| v_reflexive := _ |}).
  pose proof (rdv_loop_sound ids (s0 :: servers) Hu Ht (rdv_fuel now (now + 15000) inbox) stale cancelled now
    (now + 15000) inbox inbox st ltac:(by left) ltac:(done)) as Hl.
  pose proof (rdv_loop_ends ids (s0 :: servers) Hu Ht (rdv_fuel now (now + 15000) inbox) stale cancelled now
    (now + 15000) inbox st ltac:(unfold rdv_fuel; lia)) as Hend.
  destruct (rdv_loop _ _ _ _ _ _ _ inbox st) as [[[r' t'] rest'] out']. intros [= <- <- _ <-].
  destruct (loop_ok_app ids (s0 :: servers) inbox (now + 15000) r' (to_all (s0 :: servers) [MProbe; MAuthkey]) out')
    as [H1 H2]; [| done |].
  - apply licensed_servers. intros m. rewrite !elem_of_cons. intros [-> | [-> | Hm]]; [done..|].
    by apply not_elem_of_nil in Hm.
  - split; [done|]. destruct r' as [o|]; [|specialize (Hend eq_refl); tauto]. destruct H2 as (g & Hg & Htime & He). exists g. split_and!; [done | lia | done].
Qed.

(** ** The LAN search *)

Lemma lan_loop_sound fuel targets ids cancelled now next_send deadline inbox :
  let '(r, out) := lan_loop fuel targets ids cancelled now next_send deadline inbox in
  Forall (fun s => s.1 ∈ targets /\ s.2 = MSearch) out /\
  match r with
  | None => True
  | Some peer => exists g, g ∈ inbox /\ g_time g < deadline + 50 /\ lan_answer ids g = true /\ g_src g = peer
  end.
Proof.
  revert now next_send inbox. induction fuel as [|fuel IH]; intros now next_send inbox; cbn [lan_loop]; [done|].
  destruct (Z.leb_spec deadline now) as [|Hd]; [done|]. destruct (cancelled now); [done|]. cbv zeta.
  set (out := if next_send <=? now then to_all targets [MSearch] else []).
  set (next := if next_send <=? now then next_send + 250 else next_send).
  assert (Ho : Forall (fun s => s.1 ∈ targets /\ s.2 = MSearch) out).
  { unfold out. destruct (_ <=? _); [|done]. apply Forall_forall. intros [d m] [Hd' Hm]%elem_of_to_all.
    by apply list_elem_of_singleton in Hm. }
  assert (Hrec : forall now' inbox', (forall g, g ∈ inbox' -> g ∈ inbox) ->
    let '(r, out) := let '(r, out') := lan_loop fuel targets ids cancelled now' next deadline inbox' in
                     (r, out ++ out') in
    Forall (fun s => s.1 ∈ targets /\ s.2 = MSearch) out /\
    match r with
    | None => True
    | Some peer => exists g, g ∈ inbox /\ g_time g < deadline + 50 /\ lan_answer ids g = true /\ g_src g = peer
    end).
  { intros now' inbox' Hin. specialize (IH now' next inbox').
    destruct (lan_loop _ _ _ _ now' next _ inbox') as [r out']. destruct IH as [H1 H2].
    split; [by apply Forall_app_2|]. destruct r; [|done]. destruct H2 as (g & Hg & H2). exists g. auto. }
  destruct inbox as [|g rest]; [by apply Hrec|].
  destruct (Z.leb_spec (now + 50) (g_time g)); [by apply Hrec|].
  destruct (lan_answer ids g) eqn:E.
  - split; [done|]. exists g. split_and!; [by left | lia | done | done].
  - apply Hrec. intros g' Hg'. by right.
Qed.

Lemma lan_loop_finds fuel targets ids cancelled now next_send deadline strays g rest :
  (forall t, cancelled t = false) -> now < deadline -> g_time g < deadline -> lan_answer ids g = true ->
  Forall (fun s => g_time s <= g_time g /\ lan_answer ids s = false) strays ->
  (length strays + Z.to_nat (deadline - now) < fuel)%nat ->
  (lan_loop fuel targets ids cancelled now next_send deadline (strays ++ g :: rest)).1 = Some (g_src g).
Proof.
  intros Hcan Hnow Hg Ha Hst Hf. revert now next_send strays Hnow Hst Hf.
  induction fuel as [|fuel IH]; intros now next_send strays Hnow Hst Hf; [lia|].
  cbn [lan_loop]. rewrite (proj2 (Z.leb_gt deadline now)), Hcan by lia. cbv zeta.
  set (next := if next_send <=? now then next_send + 250 else next_send).
  assert (Hrec : forall now' strays' out, now' < deadline ->
    Forall (fun s => g_time s <= g_time g /\ lan_answer ids s = false) strays' ->
    (length strays' + Z.to_nat (deadline - now') < fuel)%nat ->
    (let '(r, out') := lan_loop fuel targets ids cancelled now' next deadline (strays' ++ g :: rest) in
     (r, (out : Sends) ++ out')).1 = Some (g_src g)).
  { intros now' strays' out H1 H2 H3. specialize (IH now' next strays' H1 H2 H3).
    by destruct (lan_loop _ _ _ _ now' next _ _). }
  destruct Hst as [|s strays [Hs Hn] Hst]; cbn [app].
  - destruct (Z.leb_spec (now + 50) (g_time g)); [|by rewrite Ha].
    apply (Hrec (now + 50) []); [lia | done | simpl in *; lia].
  - destruct (Z.leb_spec (now + 50) (g_time s)).
    + apply (Hrec (now + 50) (s :: strays)); [lia | by constructor | simpl in *; lia].
    + rewrite Hn. apply Hrec; [lia | done | simpl in *; lia].
Qed.

(** The LAN search connects exactly to who answers it: a connection's peer
    sent a datagram with the searched UID and the token of this search; and
    when such an answer comes in time, whatever other datagrams come before it,
    the search finds its sender, with a fresh direct session. *)
Lemma lan_search_finds interfaces ids timeout cancelled now inbox :
  length (i_uid ids) = kUidLen ->
  (forall rc out, iotc_lan_connect interfaces ids timeout cancelled now inbox = (Some rc, out) ->
     exists g, g ∈ inbox /\ g_time g < now + timeout + 50 /\ lan_answer ids g = true /\ c_peer rc = g_src g) /\
  (forall strays g rest, inbox = strays ++ g :: rest -> (forall t, cancelled t = false) -> 0 < timeout ->
     g_time g < now + timeout -> lan_answer ids g = true ->
     Forall (fun s => g_time s <= g_time g /\ lan_answer ids s = false) strays ->
     exists out, iotc_lan_connect interfaces ids timeout cancelled now inbox =
       (Some (conn_to (g_src g) ids 0 false true), out ++ [(g_src g, MSearch)])).
Proof.
  intros Hu. unfold iotc_lan_connect. rewrite Hu, Nat.eqb_refl. cbn [negb]. split.
  - intros rc out. pose proof (lan_loop_sound (S (length inbox + Z.to_nat timeout)) (lan_broadcast_targets interfaces)
      ids cancelled now now (now + timeout) inbox) as Hl.
    destruct (lan_loop _ _ _ _ _ _ _ inbox) as [[peer|] out']; [|done]. intros [= <- _].
    destruct Hl as [_ (g & Hg & Ht & Ha & Hp)]. by exists g.
  - intros strays g rest -> Hc Htm Hg Ha Hst.
    pose proof (lan_loop_finds (S (length (strays ++ g :: rest) + Z.to_nat timeout)) (lan_broadcast_targets interfaces)
      ids cancelled now now (now + timeout) strays g rest Hc ltac:(lia) Hg Ha Hst
      ltac:(rewrite length_app; simpl; lia)) as Hf.
    destruct (lan_loop _ _ _ _ _ _ _ _) as [r out]. cbn [fst] in Hf. rewrite Hf. by eexists.
Qed.

(** ** A concrete rendezvous and search *)

Definition toy_ids : Ids :=
  {| i_uid := str "ABCDEFGHIJKLMNOPQRST"; i_authkey := str "key"; i_token := str "sesstokn";
     i_relay_id := str "relay"; i_local := {| a_ip := zeros 4; a_port := zeros 2 |}; i_txn := zeros 8 |}.
Definition toy_printer : Addr := {| a_ip := zb <$> [192; 168; 0; 9]; a_port := zb <$> [0x20; 0x01] |}.
Definition toy_master_reply : list byte :=
  zeros 16 ++ (zb <$> [2; 0; 0x0d; 0x96; 52; 1; 2; 3]) ++ (zb <$> [2; 0; 0x20; 0x01; 9; 8; 7; 6]).
(** A punch answer, and an answer to the search. *)
Definition toy_punch_answer : Datagram :=
  {| g_time := 1200; g_src := toy_printer;
     g_raw := build_ctrl0x33 (i_uid toy_ids) (i_token toy_ids) 0x02 |}.
Definition toy_answer : Datagram :=
  {| g_time := 1200; g_src := toy_printer;
     g_raw := trans_code_partial (put_bytes 188 (i_token toy_ids) (put_bytes 16 (i_uid toy_ids)
       (write_rdv_hdr 184 0x02 0x06 0x12 (zeros 200)))) |}.

Lemma rendezvous_sound_witness :
  match offlan_rendezvous (fun _ => []) toy_master_reply toy_ids (fun _ => false) 1000 [toy_punch_answer] with
  | (Some o, _, _, out) =>
      o_peer o = toy_printer /\ o_direct o = true /\
      Forall (licensed (parse_rdv_servers toy_master_reply 4) [toy_punch_answer]) out
  | (None, _, _, _) => False
  end.
Proof.
  destruct (offlan_rendezvous _ _ _ _ _ _) as [[[r t] rest] out] eqn:E.
  pose proof (proj1 (rendezvous_sound (fun _ => []) toy_master_reply toy_ids (fun _ => false) 1000 [toy_punch_answer]
    r t rest out eq_refl eq_refl E)) as Hl.
  apply (f_equal (fun x => x.1.1.1)) in E. vm_compute in E. subst r. by split_and!.
Defined.

Lemma lan_search_finds_witness :
  exists out, iotc_lan_connect [] toy_ids 1500 (fun _ => false) 1000 ([] ++ toy_answer :: []) =
    (Some (conn_to toy_printer toy_ids 0 false true), out ++ [(toy_printer, MSearch)]).
Proof.
  refine (proj2 (lan_search_finds [] toy_ids 1500 (fun _ => false) 1000 ([] ++ toy_answer :: []) eq_refl)
    [] toy_answer [] eq_refl _ _ _ _ _); [done | lia | vm_compute; reflexivity | vm_compute; reflexivity | constructor].
Defined.
