(* ===== verification/Tunnel.v ===== *)
(** The wire helpers of the printer's local tunnel ([src/tunnel_local.cpp],
    [include/obn/tunnel_local.hpp]): frames, control messages and their replies.
    The connection that uses them is in TunnelSession. *)

From S2P Require Import Prelude OMap Text Double Json.

#[local] Delimit Scope string_scope with string.

(** ** Frames *)

Definition kMagicLoginClient : Z := 0x0101013F.
Definition kMagicLoginServer : Z := 0x0001013F.
Definition kMagicCtrlClient : Z := 0x0102013F.
Definition kMtypeCtrlSetup : Z := 12291.
Definition kMtypeCtrlJson : Z := 12289.

Record FrameHeader := { payload_len : Z; magic : Z; seq : Z }.

Definition build_frame_header (len mag sq : Z) : list byte :=
  enc_le32 len ++ enc_le32 mag ++ enc_le32 sq ++ replicate 4 x00.

Definition parse_frame_header (data : list byte) : option FrameHeader :=
  if (length data <? 16)%nat then None
  else Some {| payload_len := le32 data 0; magic := le32 data 4; seq := le32 data 8 |}.

(** The loop of [consume_frames] at position [i]. The length of a frame is
    computed in 32 bits; a body that reaches past the data is copied from
    beyond it, which is [None]: the behaviour of the code is not defined. *)
Fixpoint consume_loop (fuel : nat) (data : list byte) (i : nat) (bodies : list (list byte))
  : option (list (list byte) * nat) :=
  match fuel with
  | O => Some (bodies, i)
  | S fuel =>
      if (i + 16 <=? length data)%nat then
        match parse_frame_header (drop i data) with
        | None => Some (bodies, i)
        | Some hdr =>
            let frame_len := u32 (16 + payload_len hdr) in
            if zlen data <? Z.of_nat i + frame_len then Some (bodies, i)
            else if zlen data <? Z.of_nat i + 16 + payload_len hdr then None
            else
              let body := sub (i + 16) (Z.to_nat (payload_len hdr)) data in
              consume_loop fuel data (i + Z.to_nat frame_len) (bodies ++ [body])
        end
      else Some (bodies, i)
  end.

(** The bodies of the complete frames at the front and the bytes they take:
    every turn takes 16 bytes or more when the lengths do not wrap. *)
Definition consume_frames (data : list byte) : option (list (list byte) * nat) :=
  consume_loop (S (length data)) data 0 [].

(** ** Messages out *)

Definition ascii_field (s : cstr) (width : nat) : list byte :=
  take width s ++ replicate (width - length s) x00.

Definition build_login_payload (username access_code : cstr) : list byte :=
  ascii_field username 8 ++ ascii_field access_code 8.

(** [obn::json::Value (static_cast<double> (z))]. *)
Definition num (z : Z) : Value := Number (of_int z).

(** An object filled by assignments [obj["k"] = v], in their order. *)
Definition obj (kvs : list (String.string * Value)) : Value :=
  Object (foldl (fun o kv => om_set (str kv.1) kv.2 o) [] kvs).

Definition build_setup_json (client_id client_ver : cstr) : cstr :=
  dump (obj [("sequence", num 0); ("mtype", num kMtypeCtrlSetup);
             ("req", obj [("t_av", num 1); ("mtype", num kMtypeCtrlJson); ("peer_t", num 3);
                          ("pid", String client_id); ("ver", String client_ver)])])%string.

Definition blank_end (c : byte) : bool :=
  beq c (zb 10) || beq c (zb 13) || beq c (zb 32) || beq c (zb 9).

Definition mtype_head : cstr := str "{" ++ [quote] ++ str "mtype" ++ [quote].

Definition wrap_ctrl_abi (abi_json : cstr) : cstr :=
  match abi_json with
  | [] => abi_json
  | _ =>
      let trimmed := trim_back blank_end abi_json in
      if starts_with mtype_head trimmed then abi_json
      else
        match trimmed with
        | c :: rest =>
            if beq c (zb 123)
            then mtype_head ++ str ":" ++ dec kMtypeCtrlJson ++ str "," ++ rest
            else abi_json
        | [] => abi_json
        end
  end.

Definition kSep : cstr := [zb 10; zb 10].

Definition wrap_ctrl_abi_with_binary (abi_json : cstr) (bin : list byte) : list byte :=
  let wire := wrap_ctrl_abi abi_json in
  match bin with [] => wire | _ => wire ++ kSep ++ bin end.

(** ** Messages in *)

(** The scanning loop of [split_json_prefix]: where it stops and the depth
    there. *)
Fixpoint scan_json (data : list byte) (i : nat) (depth : Z) (in_str esc : bool) : nat * Z :=
  match data with
  | [] => (i, depth)
  | c :: data =>
      if in_str then
        if esc then scan_json data (S i) depth true false
        else if beq c backslash then scan_json data (S i) depth true true
        else if beq c quote then scan_json data (S i) depth false false
        else scan_json data (S i) depth true false
      else if beq c quote then scan_json data (S i) depth true esc
      else if beq c (zb 123) then scan_json data (S i) (depth + 1) false esc
      else if beq c (zb 125) then
        if depth - 1 =? 0 then (S i, depth - 1) else scan_json data (S i) (depth - 1) false esc
      else scan_json data (S i) depth false esc
  end.

Definition skip_sep (data : list byte) (i : nat) : nat :=
  if (i + 1 <? length data)%nat && (zat data i =? 10) && (zat data (i + 1) =? 10) then i + 2
  else if (i + 3 <? length data)%nat && (zat data i =? 13) && (zat data (i + 1) =? 10)
          && (zat data (i + 2) =? 13) && (zat data (i + 3) =? 10) then i + 4
  else i.

Definition split_json_prefix (data : list byte) : option (cstr * list byte) :=
  match data with
  | [] => None
  | c :: _ =>
      if negb (beq c (zb 123)) then None
      else
        let '(i, depth) := scan_json data 0 0 false false in
        if negb (depth =? 0) then None
        else Some (take i data, drop (skip_sep data i) data)
  end.

(** The JSON of a frame body; a body that does not start with an object is
    handed on whole. *)
Definition wire_json_of (body : list byte) : list cstr :=
  match body with
  | [] => []
  | _ =>
      match split_json_prefix body with
      | Some (json, _) => match json with [] => [] | _ => [json] end
      | None => [body]
      end
  end.

(** The messages of the complete frames in the receive buffer, and what is
    left in it. *)
Fixpoint take_pending_loop (fuel : nat) (recv_buf : list byte) (msgs : list cstr) : option (list cstr * list byte) :=
  match fuel with
  | O => Some (msgs, recv_buf)
  | S fuel =>
      '(bodies, consumed) ← consume_frames recv_buf;
      if (consumed =? 0)%nat then Some (msgs, recv_buf)
      else take_pending_loop fuel (drop consumed recv_buf) (msgs ++ concat (map wire_json_of bodies))
  end.

Definition take_pending_wire_json (recv_buf : list byte) : option (list cstr * list byte) :=
  take_pending_loop (S (length recv_buf)) recv_buf [].

(** ** Requests *)

Definition kCmdMediaAbility : Z := 7.
Definition kCmdFileUpload : Z := 5.
Definition kCmdFileDownload : Z := 4.
Definition kCmdFileDel : Z := 3.
Definition kCmdSubFile : Z := 2.
Definition kCmdListInfo : Z := 1.

(** [if (!s.empty()) req["k"] = s]. *)
Definition opt (k : String.string) (s : cstr) : list (String.string * Value) :=
  match s with [] => [] | _ => [(k, String s)] end.

(** The request around [req]. *)
Definition request (cmdtype sequence : Z) (extra : list (String.string * Value)) (req : Value) : cstr :=
  dump (obj ([("cmdtype", num cmdtype); ("sequence", num sequence)] ++ extra ++ [("req", req)])%string).

Definition build_media_ability_abi (sequence : Z) : cstr :=
  request kCmdMediaAbility sequence []
    (obj [("peer", String (str "studio")); ("peer_t", num 3); ("api_version", num 3)])%string.

Definition build_file_upload_init_abi (sequence : Z) (dest_storage dest_name : cstr) (total : Z) : cstr :=
  request kCmdFileUpload sequence []
    (obj ([("type", String (str "model")); ("path", String dest_name); ("total", num total)]
          ++ opt "storage" dest_storage))%string.

Definition build_file_delete_abi (sequence : Z) (dest_storage dest_name : cstr) : cstr :=
  request kCmdFileDel sequence []
    (obj ([("delete", Array [String dest_name])] ++ opt "storage" dest_storage))%string.

Definition build_file_download_abi (sequence : Z) (path : cstr) (offset : Z) (target_path : cstr) : cstr :=
  request kCmdFileDownload sequence []
    (obj ([("path", String path); ("offset", num offset)] ++ opt "target_path" target_path))%string.

Definition build_sub_file_abi (sequence : Z) (paths : list cstr) (storage : cstr) : cstr :=
  request kCmdSubFile sequence []
    (obj ([("paths", Array (map String paths)); ("api_version", num 2); ("peer", String (str "studio"))]
          ++ opt "storage" storage))%string.

Definition build_list_info_abi (sequence : Z) (type storage : cstr) : cstr :=
  request kCmdListInfo sequence []
    (obj ([("type", String type); ("api_version", num 2); ("notify", String (str "DETAIL"))]
          ++ opt "storage" storage))%string.

Definition build_file_upload_chunk_abi (sequence frag_id offset size : Z) (file_md5_lower : cstr) : cstr :=
  request kCmdFileUpload sequence [("frag_id", num frag_id)]%string
    (obj ([("offset", num offset); ("size", num size)] ++ opt "file_md5" file_md5_lower))%string.

Definition build_file_upload_abi (sequence : Z) (dest_storage dest_name : cstr) (size : Z) (md5 : cstr) : cstr :=
  let path :=
    match dest_storage with
    | [] => str "/"
    | _ => let p := str "/" ++ dest_storage in
           match last p with
           | Some c => if beq c (zb 47) then p else p ++ [zb 47]
           | None => p
           end
    end in
  request kCmdFileUpload sequence []
    (obj ([("path", String path); ("file", String dest_name); ("size", num size); ("md5", String md5)]
          ++ opt "storage" dest_storage
          ++ [("peer", String (str "studio")); ("api_version", num 3)]))%string.

(** ** Replies *)

(** [obn::json::parse]: a value, or none. *)
Definition parsed (wire_json : cstr) : option Value :=
  match parse wire_json with Ok v _ => Some v | _ => None end.

(** [static_cast<int> (root->find (k).as_int (-1))], or -1 without a value. *)
Definition int_field (k : String.string) (wire_json : cstr) : Z :=
  match parsed wire_json with
  | None => -1
  | Some root => s32 (as_int (-1) (find root (str k)))
  end.

Definition parse_wire_result (wire_json : cstr) : Z := int_field "result"%string wire_json.
Definition parse_wire_cmdtype (wire_json : cstr) : Z := int_field "cmdtype"%string wire_json.
Definition parse_wire_sequence (wire_json : cstr) : Z := int_field "sequence"%string wire_json.

Definition parse_wire_reply_json (wire_json : cstr) : cstr :=
  match parsed wire_json with
  | None => []
  | Some root => let reply := find root (str "reply") in if is_object reply then dump reply else []
  end.

Definition kMaxChunkSizeKb : Z := 64 * 1024.

(** The chunk size in KB and the resume offset, or nothing; and the result
    code. *)
Definition parse_upload_init_reply (wire_json : cstr) : option (Z * Z) * Z :=
  let rc := parse_wire_result wire_json in
  (if negb (rc =? 1) && negb (rc =? 19) then None
   else
     match parsed wire_json with
     | None => None
     | Some root =>
         let reply := find root (str "reply") in
         if negb (is_object reply) then None
         else
           let raw_kb := as_int 0 (find reply (str "chunk_size")) in
           if (raw_kb <=? 0) || (kMaxChunkSizeKb <? raw_kb) then None
           else
             let raw_offset := as_int 0 (find reply (str "offset")) in
             if raw_offset <? 0 then None else Some (raw_kb, raw_offset)
     end, rc).

(** The storages of an ability reply, as the code looks for them. *)
Definition pick_array (reply : Value) (storages : list Value) (key : String.string) : list Value :=
  match storages with
  | [] => let v := find reply (str key) in if is_array v then as_array v else []
  | _ => storages
  end.

Definition reply_storages (reply : Value) : list Value :=
  let storages := foldl (pick_array reply) [] ["upload_storage"; "storage"; "storage_list"; "storages"]%string in
  match storages with
  | [] =>
      let ab := find reply (str "ability") in
      if is_object ab then
        let v := find ab (str "upload_storage") in
        let v := if is_array v then v else find ab (str "storage") in
        if is_array v then as_array v else []
      else []
  | _ => storages
  end.

(** Only quotes are escaped. *)
Definition quote_storage (v : Value) : cstr :=
  [quote] ++ concat (map (fun c => if beq c quote then [backslash; quote] else [c]) (as_string v)) ++ [quote].

Definition parse_ability_reply_to_ft_json (wire_json : cstr) : cstr :=
  match parsed wire_json with
  | None => []
  | Some root =>
      if negb (s32 (as_int (-1) (find root (str "result"))) =? 0) then []
      else
        let reply := find root (str "reply") in
        if negb (is_object reply) then []
        else
          match reply_storages reply with
          | [] => []
          | storages => str "[" ++ join (map quote_storage storages) ++ str "]"
          end
  end.

(** ** Frames of a stream *)

(** A length the code adds the header's 16 bytes to without wrapping. *)
Definition kMaxPayload : Z := 2 ^ 32 - 16.

(** The first frame of a stream and what follows it; the start of a frame that
    is not complete. *)
Definition next_frame (data : list byte) : option (list byte * list byte) :=
  if (length data <? 16)%nat then None
  else if kMaxPayload <=? le32 data 0 then None
  else if zlen data <? 16 + le32 data 0 then None
  else Some (sub 16 (Z.to_nat (le32 data 0)) data, drop (16 + Z.to_nat (le32 data 0)) data).

Definition partial (data : list byte) : Prop :=
  (length data < 16)%nat \/ (le32 data 0 < kMaxPayload /\ zlen data < 16 + le32 data 0).

(** [framed data bodies rest]: the complete frames at the front of [data] have
    the bodies [bodies], and [rest] is the incomplete one after them. *)
Inductive framed : list byte -> list (list byte) -> list byte -> Prop :=
| framed_end data : partial data -> framed data [] data
| framed_next data body rest bodies tl :
    next_frame data = Some (body, rest) -> framed rest bodies tl -> framed data (body :: bodies) tl.

Lemma next_frame_inv data body rest :
  next_frame data = Some (body, rest) ->
  (16 <= length data)%nat /\ 0 <= le32 data 0 < kMaxPayload /\ 16 + le32 data 0 <= zlen data /\
  body = sub 16 (Z.to_nat (le32 data 0)) data /\ rest = drop (16 + Z.to_nat (le32 data 0)) data.
Proof.
  unfold next_frame. pose proof (le32_nonneg data 0) as H0.
  destruct (Nat.ltb_spec (length data) 16); [done|].
  destruct (Z.leb_spec kMaxPayload (le32 data 0)); [done|].
  destruct (Z.ltb_spec (zlen data) (16 + le32 data 0)) as [|Hl]; [done|]. by intros [= <- <-].
Qed.

Lemma next_frame_intro data :
  (16 <= length data)%nat -> le32 data 0 < kMaxPayload -> 16 + le32 data 0 <= zlen data ->
  next_frame data = Some (sub 16 (Z.to_nat (le32 data 0)) data, drop (16 + Z.to_nat (le32 data 0)) data).
Proof.
  intros H1 H2 H3. unfold next_frame. rewrite (proj2 (Nat.ltb_ge _ _)) by lia.
  rewrite (proj2 (Z.leb_gt _ _)), (proj2 (Z.ltb_ge _ _)) by lia. done.
Qed.

Lemma partial_next data : partial data -> next_frame data = None.
Proof.
  intros Hp. destruct (next_frame data) as [[body rest]|] eqn:E; [|done].
  apply next_frame_inv in E as (H1 & H2 & H3 & _). destruct Hp as [|[]]; lia.
Qed.

Lemma next_frame_rest data body rest :
  next_frame data = Some (body, rest) ->
  rest = drop (16 + length body) data /\ (16 + length body <= length data)%nat.
Proof.
  intros (H1 & H2 & H3 & -> & ->)%next_frame_inv. unfold zlen in H3. rewrite length_sub by lia. split; [done | lia].
Qed.

Lemma le32_app_l (a x : list byte) : (4 <= length a)%nat -> le32 (a ++ x) 0 = le32 a 0.
Proof. intros Ha. unfold le32, zat, at_. by rewrite !lookup_total_app_l by lia. Qed.

Lemma next_frame_app data body rest x :
  next_frame data = Some (body, rest) -> next_frame (data ++ x) = Some (body, rest ++ x).
Proof.
  intros (H1 & H2 & H3 & -> & ->)%next_frame_inv. unfold zlen in H3.
  rewrite next_frame_intro; rewrite ?le32_app_l by lia; unfold zlen; rewrite ?length_app; try lia.
  rewrite sub_app_l by lia. rewrite drop_app_le by lia. done.
Qed.

Lemma framed_app a bs tl x bs' tl' :
  framed a bs tl -> framed (tl ++ x) bs' tl' -> framed (a ++ x) (bs ++ bs') tl'.
Proof.
  induction 1 as [d Hd|d b r bs tl Hd _ IH]; intros H; [done|].
  cbn [app]. eapply framed_next; [by apply next_frame_app | by apply IH].
Qed.

Lemma framed_fun data bs tl : framed data bs tl -> forall bs' tl', framed data bs' tl' -> bs' = bs /\ tl' = tl.
Proof.
  induction 1 as [d Hd|d b r bs tl Hd _ IH]; intros bs' tl' H; inversion H as [d' Hd'|d' b' r' l' t' Hd' Hr']; subst.
  - done.
  - rewrite partial_next in Hd' by done. done.
  - rewrite partial_next in Hd by done. done.
  - rewrite Hd in Hd'. injection Hd' as <- <-. by destruct (IH _ _ Hr') as [-> ->].
Qed.

Lemma framed_len data bs tl : framed data bs tl -> (16 * length bs + length tl <= length data)%nat.
Proof.
  induction 1 as [d Hd|d b r bs tl Hd _ IH]; [simpl; lia|].
  apply next_frame_rest in Hd as [-> Hl]. rewrite length_drop in IH. simpl. lia.
Qed.

Lemma framed_partial data bs tl : framed data bs tl -> partial tl.
Proof. by induction 1. Qed.

Lemma framed_tail data bs tl : framed data bs tl -> framed tl [] tl.
Proof. intros H. by eapply framed_end, framed_partial. Qed.

(** What has arrived of a framed stream is framed. *)
Lemma framed_prefix a x bs tl :
  framed (a ++ x) bs tl ->
  exists bs1 tl1 bs2, framed a bs1 tl1 /\ framed (tl1 ++ x) bs2 tl /\ bs = bs1 ++ bs2.
Proof.
  intros H. remember (a ++ x) as d eqn:Ed. revert a Ed.
  induction H as [d Hd|d b r bs tl Hd Hr IH]; intros a ->.
  - exists [], a, []. split_and!; [|by apply framed_end | done]. apply framed_end.
    destruct Hd as [Hd|[H1 H2]]; [left; rewrite length_app in Hd; lia|].
    destruct (decide (length a < 16)%nat); [by left|]. right. rewrite le32_app_l in * by lia.
    unfold zlen in *. rewrite length_app in H2. lia.
  - destruct (decide (partial a)) as [Hp|Hp].
    { exists [], a, (b :: bs). split_and!; [by apply framed_end | by eapply framed_next | done]. }
    destruct (next_frame a) as [[b' r']|] eqn:Ea.
    + pose proof (next_frame_app _ _ _ x Ea) as Hx. rewrite Hd in Hx. injection Hx as <- ->.
      destruct (IH r' eq_refl) as (bs1 & tl1 & bs2 & H1 & H2 & ->).
      exists (b :: bs1), tl1, bs2. split_and!; [by eapply framed_next | done | done].
    + exfalso. apply Hp. apply next_frame_inv in Hd as (H1 & H2 & H3 & _).
      destruct (decide (length a < 16)%nat); [by left|]. right. rewrite le32_app_l in * by lia.
      split; [lia|]. destruct (decide (zlen a < 16 + le32 a 0)); [done|].
      rewrite next_frame_intro in Ea by lia. done.
Qed.

Lemma consume_loop_framed data bs tl :
  framed data bs tl -> forall fuel full i acc,
  drop i full = data -> (i <= length full)%nat -> (length data < fuel)%nat ->
  exists n, consume_loop fuel full i acc = Some (acc ++ bs, n) /\ drop n full = tl /\ (n <= length full)%nat /\
            n = (i + (length data - length tl))%nat.
Proof.
  induction 1 as [d Hd|d b r bs tl Hd Hr IH]; intros fuel full i acc <- Hi Hf; destruct fuel as [|fuel]; try lia.
  - exists i. rewrite app_nil_r. split_and!; [|done|done|lia]. cbn [consume_loop].
    unfold partial, zlen in Hd. rewrite length_drop in Hd. destruct (Nat.leb_spec (i + 16) (length full)); [|done].
    unfold parse_frame_header. rewrite length_drop, (proj2 (Nat.ltb_ge _ _)) by lia. cbn [payload_len].
    pose proof (le32_nonneg (drop i full) 0). unfold kMaxPayload in Hd.
    rewrite u32_small by lia. rewrite (proj2 (Z.ltb_lt _ _)) by (unfold zlen; lia). done.
  - pose proof (framed_len _ _ _ Hr) as Hlr. apply next_frame_inv in Hd as (H1 & H2 & H3 & -> & ->).
    unfold zlen in H3. rewrite length_drop in *.
    cbn [consume_loop]. rewrite (proj2 (Nat.leb_le _ _)) by lia. unfold parse_frame_header.
    rewrite length_drop, (proj2 (Nat.ltb_ge _ _)) by lia. cbn [payload_len]. unfold kMaxPayload in H2.
    rewrite u32_small by lia. unfold zlen. rewrite !(proj2 (Z.ltb_ge _ _)) by lia.
    set (pl := le32 (drop i full) 0) in *.
    destruct (IH fuel full (i + Z.to_nat (16 + pl))%nat (acc ++ [sub (i + 16) (Z.to_nat pl) full])) as (n & E & Ht & Hn & En).
    { rewrite drop_drop. f_equal. lia. }
    { lia. }
    { rewrite length_drop. lia. }
    rewrite length_drop in En, Hlr. exists n. rewrite E, <- app_assoc. unfold sub. rewrite !drop_drop.
    split_and!; [done | done | done | lia].
Qed.

Lemma consume_frames_of data bs tl :
  framed data bs tl ->
  exists n, consume_frames data = Some (bs, n) /\ drop n data = tl /\ (bs = [] <-> n = 0%nat).
Proof.
  intros Hf. unfold consume_frames.
  destruct (consume_loop_framed _ _ _ Hf (S (length data)) data 0 []) as (n & E & Ht & Hn & En); [done | lia | lia|].
  exists n. split_and!; [done | done|]. split.
  - intros ->. assert (tl = data) as -> by (by inversion Hf). lia.
  - intros ->. cbn in Ht. subst tl. destruct bs; [done|]. pose proof (framed_len _ _ _ Hf). simpl in *. lia.
Qed.

(** What the loop takes from less than 4 GiB are frames: a length that wraps
    is read past the end. *)
Lemma consume_loop_inv fuel : forall data i acc bodies n,
  zlen data < 2 ^ 32 -> (i <= length data)%nat -> (length data < fuel + i)%nat ->
  consume_loop fuel data i acc = Some (bodies, n) ->
  exists bs, bodies = acc ++ bs /\ framed (drop i data) bs (drop n data).
Proof.
  induction fuel as [|fuel IH]; intros data i acc bodies n Hd Hi Hf H; [lia|]. cbn [consume_loop] in H.
  assert (Hend : partial (drop i data) -> (acc, i) = (bodies, n) ->
    exists bs, bodies = acc ++ bs /\ framed (drop i data) bs (drop n data)).
  { intros Hp [= <- <-]. exists []. rewrite app_nil_r. split; [done | by apply framed_end]. }
  unfold parse_frame_header in H. pose proof (le32_nonneg (drop i data) 0) as H0.
  assert (H1 : le32 (drop i data) 0 < 2 ^ 32).
  { unfold le32, zat. pose proof (bz_range (at_ (drop i data) 0)). pose proof (bz_range (at_ (drop i data) (0 + 1))).
    pose proof (bz_range (at_ (drop i data) (0 + 2))). pose proof (bz_range (at_ (drop i data) (0 + 3))). lia. }
  unfold partial, kMaxPayload in Hend. unfold zlen in *. rewrite length_drop in *.
  destruct (Nat.leb_spec (i + 16) (length data)) as [H16|H16]; [|injection H as <- <-; apply Hend; [left; lia | done]].
  rewrite (proj2 (Nat.ltb_ge _ _)) in H by lia. cbn [payload_len] in H.
  set (pl := le32 (drop i data) 0) in *.
  destruct (Z.ltb_spec (Z.of_nat (length data)) (Z.of_nat i + 16 + pl)) as [Hs|Hs].
  { destruct (Z.ltb_spec (Z.of_nat (length data)) (Z.of_nat i + u32 (16 + pl))) as [Hw|Hw]; [|done].
    injection H as <- <-. apply Hend; [right | done]. split; [|lia]. destruct (Z.lt_ge_cases pl (2 ^ 32 - 16)); [done|].
    exfalso. assert (u32 (16 + pl) = 16 + pl - 2 ^ 32); [|lia].
    unfold u32. symmetry. apply (Z.mod_unique_pos _ _ 1); lia. }
  rewrite (u32_small (16 + pl)) in H by lia. rewrite (proj2 (Z.ltb_ge _ _)) in H by lia.
  apply IH in H as (bs & -> & Hfr); [|done | lia | lia].
  exists (sub (i + 16) (Z.to_nat pl) data :: bs). rewrite <- app_assoc. split; [done|].
  eapply framed_next; [|exact Hfr]. rewrite next_frame_intro; fold pl; unfold kMaxPayload, zlen; rewrite ?length_drop; try lia.
  unfold sub. rewrite !drop_drop. do 3 f_equal. lia.
Qed.

Lemma consume_frames_inv data bs n :
  zlen data < 2 ^ 32 -> consume_frames data = Some (bs, n) -> framed data bs (drop n data).
Proof.
  intros Hd H. apply consume_loop_inv in H as (bs' & -> & Hf); [exact Hf | done | lia | lia].
Qed.

Lemma take_pending_framed buf bs tl :
  framed buf bs tl -> take_pending_wire_json buf = Some (concat (map wire_json_of bs), tl).
Proof.
  intros Hf. unfold take_pending_wire_json. cbn [take_pending_loop].
  destruct (consume_frames_of _ _ _ Hf) as (n & -> & Ht & Hz). cbn [mbind option_bind].
  destruct (Nat.eqb_spec n 0) as [->|Hn].
  { rewrite (proj2 Hz eq_refl). cbn in Ht. by subst. }
  rewrite Ht. pose proof (framed_len _ _ _ Hf). destruct buf as [|c buf].
  { destruct bs; [by rewrite (proj1 Hz eq_refl) in Hn | simpl in *; lia]. }
  simpl length. cbn [take_pending_loop app].
  destruct (consume_frames_of _ _ _ (framed_tail _ _ _ Hf)) as (n' & -> & _ & Hz'). cbn [mbind option_bind].
  by rewrite (proj1 Hz' eq_refl).
Qed.

(** A frame as the sender writes it. *)
Definition frame (mag sq : Z) (body : list byte) : list byte :=
  build_frame_header (u32 (zlen body)) mag sq ++ body.

Lemma length_frame_header len mag sq : length (build_frame_header len mag sq) = 16%nat.
Proof. done. Qed.

Lemma next_frame_frame mag sq body x :
  zlen body < kMaxPayload -> next_frame (frame mag sq body ++ x) = Some (body, x).
Proof.
  intros Hb. unfold frame. rewrite <- app_assoc. set (h := build_frame_header _ _ _).
  assert (Hl : length h = 16%nat) by done.
  pose proof (zlen_nonneg body). assert (Hu : zlen body < 2 ^ 32) by (unfold kMaxPayload in Hb; lia).
  assert (Hle : le32 (h ++ body ++ x) 0 = zlen body).
  { subst h. unfold build_frame_header, enc_le32. cbn [app]. rewrite le32_enc.
    by rewrite !u32_small by (rewrite ?u32_small; lia). }
  unfold zlen in *. rewrite next_frame_intro; rewrite ?Hle; unfold zlen; rewrite ?length_app, ?Hl; try lia.
  rewrite Nat2Z.id. rewrite sub_app_r by done.
  rewrite sub_app_head by done. do 2 f_equal.
  rewrite app_assoc. apply drop_app_length'. rewrite length_app. lia.
Qed.

(** A sequence of frames, with what comes after. *)
Definition frames (fs : list (Z * Z * list byte)) : list byte :=
  concat (map (fun f => frame f.1.1 f.1.2 f.2) fs).

Lemma framed_frames (fs : list (Z * Z * list byte)) tl :
  Forall (fun f => zlen f.2 < kMaxPayload) fs -> partial tl ->
  framed (frames fs ++ tl) (map snd fs) tl.
Proof.
  intros Hs Ht. unfold frames. induction Hs as [|f fs Hf Hs IH]; [by apply framed_end|].
  cbn [map concat]. rewrite <- app_assoc. eapply framed_next; [by apply next_frame_frame | done].
Qed.

Lemma partial_nil : partial [].
Proof. left. simpl. lia. Qed.

(** ** Finding the end of the JSON *)

(** Text the scanner passes over at depth [depth], outside strings. *)
Definition passes (t : cstr) : Prop :=
  forall rest i depth, 1 <= depth ->
    scan_json (t ++ rest) i depth false false = scan_json rest (i + length t) depth false false.

Lemma passes_nil : passes [].
Proof. intros rest i depth _. by rewrite Nat.add_0_r. Qed.

Lemma passes_app a b : passes a -> passes b -> passes (a ++ b).
Proof.
  intros Ha Hb rest i depth Hd. rewrite <- app_assoc, Ha, Hb by done.
  f_equal. rewrite length_app. lia.
Qed.

Definition plain (c : byte) : bool := negb (beq c quote) && negb (beq c (zb 123)) && negb (beq c (zb 125)).

Lemma passes_plain t : Forall (fun c => plain c = true) t -> passes t.
Proof.
  induction 1 as [|c t Hc _ IH]; [apply passes_nil|].
  intros rest i depth Hd. unfold plain in Hc. rewrite !andb_true_iff, !negb_true_iff in Hc.
  destruct Hc as [[H1 H2] H3]. cbn [app scan_json]. rewrite H1, H2, H3, IH by done. f_equal. simpl. lia.
Qed.

(** One escaped character inside a string. *)
Lemma scan_escape_char c rest i depth :
  scan_json (escape_char c ++ rest) i depth true false =
  scan_json rest (i + length (escape_char c)) depth true false.
Proof.
  unfold escape_char. pose proof (control_spec c) as Hc.
  assert (Hb : forall e l, beq e quote = beq e quote ->
    scan_json (backslash :: e :: l) i depth true false = scan_json l (i + 2) depth true false).
  { intros e l _. cbn [scan_json]. change (beq backslash backslash) with true. cbn iota. f_equal. lia. }
  destruct (beq c quote) eqn:Eq; [by rewrite <- Hb with (e := quote)|].
  destruct (beq c backslash) eqn:Eb; [by rewrite <- Hb with (e := backslash)|].
  repeat match goal with |- context [if beq c (zb ?n) then _ else _] =>
    destruct (beq c (zb n)); [by cbn [app length]; rewrite Hb|] end.
  destruct (Z.ltb_spec (bz c) 0x20).
  - cbn [app length]. rewrite Hb by done.
    assert (Hh : forall d l j, 0 <= d < 16 -> scan_json (hex_lower d :: l) j depth true false = scan_json l (S j) depth true false).
    { intros d l j Hd. cbn [scan_json].
      assert (Hd' : beq (hex_lower d) backslash = false /\ beq (hex_lower d) quote = false).
      { unfold hex_lower, beq, quote, backslash. destruct (Z.ltb_spec d 10); rewrite !bz_zb_small by lia; split; apply Z.eqb_neq; lia. }
      by destruct Hd' as [-> ->]. }
    pose proof (bz_range c).
    rewrite !Hh by (try apply Z.mod_pos_bound; try (split; [apply Z.div_pos | apply Z.div_lt_upper_bound]); lia).
    f_equal. lia.
  - cbn [app scan_json length]. rewrite Eq, Eb. f_equal. lia.
Qed.

Lemma passes_escape s : passes (escape s).
Proof.
  intros rest i depth _. unfold escape. rewrite <- !app_assoc. cbn [app scan_json].
  change (beq quote quote) with true. cbn iota.
  assert (H : forall j, scan_json (concat (escape_char <$> s) ++ quote :: rest) j depth true false =
                        scan_json rest (j + length (concat (escape_char <$> s)) + 1) depth false false).
  { induction s as [|c s IH]; intros j.
    - cbn [fmap list_fmap concat app scan_json]. change (beq quote backslash) with false.
      change (beq quote quote) with true. cbn iota. f_equal. simpl. lia.
    - rewrite fmap_cons. cbn [concat]. rewrite <- app_assoc, scan_escape_char, IH, length_app.
      f_equal. lia. }
  rewrite H. cbn [length]. rewrite length_app. f_equal. simpl. lia.
Qed.

Lemma passes_number d : number_ok d = true -> passes (dump_number d).
Proof.
  intros H. apply passes_plain. eapply Forall_impl; [by apply number_ok_chars|].
  intros c Hc. byte_fact (fun c => implb (number_char c) (plain c)) c Hf. by rewrite Hc in Hf.
Qed.

(** Braces around text that passes. *)
Lemma passes_braces t : passes t -> passes ([zb 123] ++ t ++ [zb 125]).
Proof.
  intros Ht rest i depth Hd. rewrite <- !app_assoc. cbn [app scan_json].
  change (beq (zb 123) quote) with false. change (beq (zb 123) (zb 123)) with true. cbn iota.
  rewrite Ht by lia. cbn [scan_json]. change (beq (zb 125) quote) with false.
  change (beq (zb 125) (zb 123)) with false. change (beq (zb 125) (zb 125)) with true. cbn iota.
  destruct (Z.eqb_spec (depth + 1 - 1) 0); [lia|]. f_equal; [|lia].
  cbn [app length]. rewrite length_app. simpl. lia.
Qed.

Lemma passes_join l : Forall passes l -> passes (join l).
Proof.
  induction 1 as [|x l Hx Hl IH]; [apply passes_nil|]. destruct l as [|y l]; [done|].
  rewrite join_cons2. apply passes_app; [done|]. apply passes_app; [|done].
  apply passes_plain. by repeat constructor.
Qed.

Lemma passes_dump v : numbers_ok v = true -> passes (dump v).
Proof.
  induction v as [|b|d|s|a Ha|o Ho] using Value_rect'; intros Hn; cbn [dump numbers_ok] in *.
  - apply passes_plain. by repeat constructor.
  - destruct b; apply passes_plain; by repeat constructor.
  - by apply passes_number.
  - apply passes_escape.
  - apply passes_app; [apply passes_plain; by repeat constructor|].
    apply passes_app; [|apply passes_plain; by repeat constructor].
    apply passes_join. rewrite forallb_forall in Hn. rewrite Forall_forall in Ha.
    apply Forall_forall. intros t (v & <- & Hv)%list_elem_of_In%in_map_iff.
    apply Ha; [by apply list_elem_of_In | by apply Hn].
  - apply passes_braces, passes_join. rewrite forallb_forall in Hn. rewrite Forall_forall in Ho.
    apply Forall_forall. intros t (kv & <- & Hv)%list_elem_of_In%in_map_iff.
    apply passes_app; [apply passes_escape|]. apply passes_app; [apply passes_plain; by repeat constructor|].
    apply Ho; [by apply list_elem_of_In | by apply Hn].
Qed.

(** An object's text ends where its brace does, whatever follows. *)
Lemma scan_object t rest :
  passes t -> scan_json (([zb 123] ++ t ++ [zb 125]) ++ rest) 0 0 false false = ((length t + 2)%nat, 0).
Proof.
  intros Ht. rewrite <- !app_assoc. cbn [app scan_json].
  change (beq (zb 123) quote) with false. change (beq (zb 123) (zb 123)) with true. cbn iota.
  rewrite Ht by lia. cbn [scan_json]. change (beq (zb 125) quote) with false.
  change (beq (zb 125) (zb 123)) with false. change (beq (zb 125) (zb 125)) with true. cbn iota.
  change (0 + 1 - 1 =? 0) with true. cbn iota. f_equal. lia.
Qed.

Lemma skip_sep_app a b : skip_sep (a ++ b) (length a) = (length a + skip_sep b 0)%nat.
Proof.
  unfold skip_sep. rewrite length_app.
  assert (Hz : forall k, zat (a ++ b) (length a + k) = zat b k).
  { intros k. unfold zat, at_. rewrite lookup_total_app_r by lia. do 2 f_equal. lia. }
  assert (Hz0 : zat (a ++ b) (length a) = zat b 0) by (rewrite <- (Hz 0%nat); f_equal; lia).
  rewrite !Hz, Hz0. cbn [Nat.add].
  assert (Hlt : forall k, (length a + k <? length a + length b)%nat = (k <? length b)%nat).
  { intros k. destruct (Nat.ltb_spec (length a + k) (length a + length b)), (Nat.ltb_spec k (length b)); lia || done. }
  rewrite !Hlt. destruct ((1 <? length b)%nat && _ && _); [done|].
  destruct ((3 <? length b)%nat && _ && _ && _ && _); lia.
Qed.

Lemma split_object t rest :
  passes t ->
  split_json_prefix (([zb 123] ++ t ++ [zb 125]) ++ rest) =
  Some ([zb 123] ++ t ++ [zb 125], drop (skip_sep rest 0) rest).
Proof.
  intros Ht. unfold split_json_prefix. rewrite scan_object by done.
  change (([zb 123] ++ t ++ [zb 125]) ++ rest) with (zb 123 :: (t ++ [zb 125]) ++ rest) at 1.
  cbn iota. change (beq (zb 123) (zb 123)) with true. cbn [negb].
  set (o := [zb 123] ++ t ++ [zb 125]).
  assert (Ho : (length t + 2)%nat = length o) by (subst o; cbn [app length]; rewrite length_app; simpl; lia).
  rewrite Ho, take_app_length, skip_sep_app. change (0 =? 0) with true. cbn iota. do 2 f_equal.
  rewrite <- drop_drop. by rewrite drop_app_length.
Qed.

(** What follows a JSON is taken for binary data: nothing, or the separator
    and the data. *)
Lemma split_with_binary t bin :
  passes t ->
  split_json_prefix (match bin with [] => [zb 123] ++ t ++ [zb 125]
                                  | _ => ([zb 123] ++ t ++ [zb 125]) ++ kSep ++ bin end)
  = Some ([zb 123] ++ t ++ [zb 125], bin).
Proof.
  intros Ht. destruct bin as [|b bin].
  - pose proof (split_object t [] Ht) as H. rewrite app_nil_r in H. by rewrite H.
  - by rewrite split_object.
Qed.

(** ** Wrapping *)

Lemma starts_with_mtype k v o :
  starts_with mtype_head (dump (Object ((k, v) :: o))) = true -> k = str "mtype".
Proof.
  intros [x E]%starts_with_spec. cbn [dump map] in E.
  assert (H : exists y, dump (Object ((k, v) :: o)) = zb 123 :: escape k ++ y).
  { cbn [dump map]. destruct (map _ o) as [|z l].
    - eexists. cbn [join app]. rewrite <- !app_assoc. reflexivity.
    - eexists. rewrite join_cons2. cbn [app fst snd]. rewrite <- !app_assoc. reflexivity. }
  destruct H as [y H]. cbn [dump map] in H. rewrite H in E. clear H.
  change (mtype_head ++ x) with (zb 123 :: escape (str "mtype") ++ x) in E.
  apply (f_equal tail) in E as E'. cbn [tail] in E'.
  pose proof (parse_string_escape k y) as H1. rewrite E', parse_string_escape in H1. by injection H1.
Qed.

Lemma object_text o : dump (Object o) = [zb 123] ++ join (map member_text o) ++ [zb 125].
Proof. done. Qed.

Definition mtype_member : cstr * Value := (str "mtype", num kMtypeCtrlJson).

(** A request is given the member [mtype] in front. *)
Lemma wrap_object o :
  o <> [] -> om_find (str "mtype") o = None ->
  wrap_ctrl_abi (dump (Object o)) = [zb 123] ++ join (map member_text (mtype_member :: o)) ++ [zb 125].
Proof.
  intros Ho Hm. unfold wrap_ctrl_abi. destruct o as [|[k v] o]; [done|].
  assert (Ht : trim_back blank_end (dump (Object ((k, v) :: o))) = dump (Object ((k, v) :: o))).
  { apply trim_back_id. rewrite object_text, app_assoc, last_snoc. done. }
  rewrite Ht. destruct (starts_with mtype_head (dump (Object ((k, v) :: o)))) eqn:E.
  { apply starts_with_mtype in E as ->. cbn [om_find] in Hm. by rewrite keq_refl in Hm. }
  rewrite object_text in *. cbn [app].
  change (beq (zb 123) (zb 123)) with true. cbn iota.
  assert (Hj : join (map member_text (mtype_member :: (k, v) :: o)) =
               member_text mtype_member ++ [comma] ++ join (map member_text ((k, v) :: o))) by apply join_cons2.
  rewrite Hj. assert (Hmt : mtype_head ++ str ":" ++ dec kMtypeCtrlJson = zb 123 :: member_text mtype_member)
    by (vm_compute; reflexivity).
  transitivity ((mtype_head ++ str ":" ++ dec kMtypeCtrlJson) ++ str "," ++ join (map member_text ((k, v) :: o)) ++ [zb 125]);
    [by rewrite <- !app_assoc|].
  rewrite Hmt. cbn [app]. by rewrite <- !app_assoc.
Qed.

Lemma emplace_all_set k v o :
  ascending o -> om_find k o = None -> emplace_all [(k, v)] o = om_set k v o.
Proof.
  intros Hasc Hf.
  assert (Hgen : forall acc, ascending acc -> ascending (emplace_all acc o) /\
    forall j, om_find j (emplace_all acc o) = match om_find j acc with Some x => Some x | None => om_find j o end).
  { clear - Hasc. induction o as [|[k' v'] o IH]; intros acc Ha.
    - split; [done|]. intros j. simpl. by destruct (om_find j acc).
    - change (emplace_all acc ((k', v') :: o)) with (emplace_all (om_emplace k' v' acc) o). destruct Hasc as [Hk Hasc].
      destruct (IH Hasc (om_emplace k' v' acc)) as [H1 H2]; [by apply ascending_emplace|].
      split; [exact H1|]. intros j. rewrite (H2 j). unfold om_emplace. cbn [om_find].
      destruct (keq j k') eqn:Ej.
      + apply keq_eq in Ej as ->. destruct (om_find k' acc) eqn:E; [by rewrite E|]. by rewrite om_find_set.
      + apply keq_neq in Ej. destruct (om_find k' acc); [done|]. by rewrite om_find_set_ne by congruence. }
  destruct (Hgen [(k, v)]) as [H1 H2]; [repeat constructor|].
  apply om_ext; [done | by apply ascending_set|]. intros j. rewrite H2. cbn [om_find].
  destruct (keq j k) eqn:Ej.
  - apply keq_eq in Ej as ->. by rewrite om_find_set.
  - apply keq_neq in Ej. by rewrite om_find_set_ne by congruence.
Qed.

(** ** What the peer reads *)

(** A document as the requests build it: keys in order, numbers that read
    back, little nesting. *)
Definition readable (v : Value) : Prop := sorted v /\ numbers_ok v = true /\ (vdepth v <= 127)%nat.

Lemma parse_wrapped o :
  o <> [] -> om_find (str "mtype") o = None -> ascending o -> Forall (fun kv => readable kv.2) o ->
  parse (wrap_ctrl_abi (dump (Object o))) = Ok (Object (om_set (str "mtype") (num kMtypeCtrlJson) o)) [].
Proof.
  intros Ho Hm Hasc Hr. rewrite wrap_object by done.
  assert (Hall : Forall (fun kv => readable kv.2) (mtype_member :: o)).
  { constructor; [|done]. split_and!; [done | vm_compute; reflexivity | simpl; lia]. }
  rewrite parse_member_list.
  - do 2 f_equal. unfold mtype_member. rewrite <- emplace_all_set by done. done.
  - done.
  - eapply Forall_impl; [exact Hall|]. by intros kv [? _].
  - apply forallb_forall. intros kv Hkv%list_elem_of_In. rewrite Forall_forall in Hall.
    by destruct (Hall kv Hkv) as (_ & ? & _).
  - eapply Forall_impl; [exact Hall|]. by intros kv (_ & _ & ?).
Qed.

Lemma split_wrapped o bin :
  o <> [] -> om_find (str "mtype") o = None -> Forall (fun kv => readable kv.2) o ->
  split_json_prefix (wrap_ctrl_abi_with_binary (dump (Object o)) bin) =
  Some (wrap_ctrl_abi (dump (Object o)), bin).
Proof.
  intros Ho Hm Hr. unfold wrap_ctrl_abi_with_binary. rewrite wrap_object by done.
  apply split_with_binary, passes_join. apply Forall_forall.
  intros t (kv & <- & Hkv)%list_elem_of_In%in_map_iff. apply passes_app; [apply passes_escape|].
  apply passes_app; [apply passes_plain; by repeat constructor|]. apply passes_dump.
  destruct Hkv as [<-|Hkv]; [vm_compute; reflexivity|]. rewrite Forall_forall in Hr.
  by destruct (Hr kv ltac:(by apply list_elem_of_In)) as (_ & ? & _).
Qed.

(** Reads of a stream, with the pending messages taken after each. *)
Fixpoint drain_reads (buf : list byte) (chunks : list (list byte)) : option (list cstr * list byte) :=
  match chunks with
  | [] => Some ([], buf)
  | chunk :: chunks =>
      '(msgs, buf) ← take_pending_wire_json (buf ++ chunk);
      '(more, buf) ← drain_reads buf chunks;
      Some (msgs ++ more, buf)
  end.

Lemma drain_reads_framed chunks : forall buf bs tl,
  partial buf -> framed (buf ++ concat chunks) bs tl ->
  drain_reads buf chunks = Some (concat (map wire_json_of bs), tl).
Proof.
  induction chunks as [|c chunks IH]; intros buf bs tl Hp Hf; cbn [concat drain_reads] in *.
  - rewrite app_nil_r in Hf. destruct (framed_fun _ _ _ Hf _ _ (framed_end _ Hp)) as [<- <-]. done.
  - rewrite app_assoc in Hf. destruct (framed_prefix _ _ _ _ Hf) as (bs1 & tl1 & bs2 & H1 & H2 & ->).
    rewrite (take_pending_framed _ _ _ H1). cbn [mbind option_bind].
    rewrite (IH _ _ _ (framed_partial _ _ _ H1) H2). cbn [mbind option_bind].
    by rewrite map_app, concat_app.
Qed.

(** ** Requests as the peer reads them *)

Definition fine (d : nat) (v : Value) : Prop := sorted v /\ numbers_ok v = true /\ (vdepth v <= d)%nat.

Lemma fine_num d z : Z.abs z < 2 ^ 53 -> fine d (num z).
Proof. intros Hz. split_and!; [done | by apply number_ok_int | simpl; lia]. Qed.

Lemma fine_string d s : fine d (String s).
Proof. split_and!; [done | done | simpl; lia]. Qed.

Definition members (l : list (String.string * Value)) : list (cstr * Value) :=
  foldl (fun o kv => om_set (str kv.1) kv.2 o) [] l.

Lemma obj_members l : obj l = Object (members l).
Proof. done. Qed.

Lemma members_spec (P : Value -> Prop) l : Forall (fun kv => P kv.2) l ->
  ascending (members l) /\ Forall (fun kv => P kv.2) (members l).
Proof.
  intros Hl. unfold members.
  assert (H : ascending (@nil (cstr * Value)) /\ Forall (fun kv => P kv.2) (@nil (cstr * Value))) by (by split).
  revert H. generalize (@nil (cstr * Value)). induction Hl as [|[k v] l Hv _ IH]; intros o [H1 H2]; [done|].
  apply IH. split; [by apply ascending_set | by apply Forall_om_set].
Qed.

Lemma fold_sorted (o : list (cstr * Value)) :
  Forall (fun kv => sorted kv.2) o -> fold_right (fun kv p => sorted kv.2 /\ p) True o.
Proof. by induction 1. Qed.

Lemma list_max_bound {A} (f : A -> nat) l n : Forall (fun x => f x <= n)%nat l -> (list_max (map f l) <= n)%nat.
Proof. induction 1 as [|x l Hx _ IH]; simpl; [lia|]. unfold list_max in *. simpl. lia. Qed.

Lemma fine_obj d l : Forall (fun kv => fine d kv.2) l -> fine (S d) (obj l).
Proof.
  intros Hl. destruct (members_spec _ l Hl) as [Ha Hf]. rewrite obj_members. split_and!.
  - split; [done|]. apply fold_sorted. eapply Forall_impl; [exact Hf|]. by intros kv [? _].
  - apply forallb_forall. intros kv Hkv%list_elem_of_In. rewrite Forall_forall in Hf. by destruct (Hf kv Hkv) as (_ & ? & _).
  - cbn [vdepth]. apply le_n_S, (list_max_bound (fun kv : cstr * Value => vdepth kv.2)).
    eapply Forall_impl; [exact Hf|]. by intros kv (_ & _ & ?).
Qed.

Lemma members_nonempty l : l <> [] -> members l <> [].
Proof.
  unfold members. destruct l as [|[k v] l]; [done|]. intros _. cbn [foldl om_set fst snd].
  assert (H : [(str k, v)] <> []) by done. revert H. generalize [(str k, v)].
  induction l as [|[k' v'] l IH]; intros o Ho; [done|]. cbn [foldl fst snd]. apply IH.
  destruct o as [|[k2 v2] o]; [done|]. cbn [om_set]. destruct (klt _ _); [done|]. by destruct (klt _ _).
Qed.

Lemma members_find k l : Forall (fun kv => str kv.1 <> k) l -> om_find k (members l) = None.
Proof.
  intros Hl. unfold members. assert (H : om_find k (@nil (cstr * Value)) = None) by done. revert H.
  generalize (@nil (cstr * Value)). induction Hl as [|[k' v] l Hk _ IH]; intros o Ho; [done|].
  cbn [foldl fst snd]. apply IH. by rewrite om_find_set_ne.
Qed.

(** A request with some binary data, taken apart again. *)
Lemma read_request l bin :
  l <> [] -> Forall (fun kv => fine 127 kv.2) l -> Forall (fun kv => str kv.1 <> str "mtype") l ->
  split_json_prefix (wrap_ctrl_abi_with_binary (dump (obj l)) bin) = Some (wrap_ctrl_abi (dump (obj l)), bin) /\
  parsed (wrap_ctrl_abi (dump (obj l))) = Some (Object (om_set (str "mtype") (num kMtypeCtrlJson) (members l))).
Proof.
  intros Hl Hf Hm. destruct (members_spec _ l Hf) as [Ha Hr]. rewrite obj_members. split.
  - by apply split_wrapped; [apply members_nonempty | apply members_find|].
  - unfold parsed. by rewrite parse_wrapped; [|apply members_nonempty | apply members_find| |].
Qed.

(** The fields of a chunk of an upload. *)
Lemma read_chunk seq frag off size md5 bin :
  0 <= seq < 2 ^ 32 -> 0 <= frag < 2 ^ 32 -> 0 <= off < 2 ^ 53 -> 0 <= size < 2 ^ 53 ->
  exists json v,
    split_json_prefix (wrap_ctrl_abi_with_binary (build_file_upload_chunk_abi seq frag off size md5) bin)
    = Some (json, bin) /\ parsed json = Some v /\
    as_int (-1) (find v (str "mtype")) = kMtypeCtrlJson /\ as_int (-1) (find v (str "cmdtype")) = kCmdFileUpload /\
    as_int (-1) (find v (str "sequence")) = seq /\ as_int (-1) (find v (str "frag_id")) = frag /\
    as_int (-1) (find v (str "req.offset")) = off /\ as_int (-1) (find v (str "req.size")) = size /\
    find v (str "req.file_md5") = match md5 with [] => Null | _ => String md5 end.
Proof.
  intros Hs Hf Ho Hz. unfold build_file_upload_chunk_abi, request. cbn [app].
  lazymatch goal with |- context [wrap_ctrl_abi_with_binary (dump (obj ?l)) bin] =>
    destruct (read_request l bin) as [H1 H2] end.
  { done. }
  { constructor; [apply fine_num; unfold kCmdFileUpload; lia|]. do 2 (constructor; [apply fine_num; lia|]).
    constructor; [|constructor]. apply (fine_obj 126). do 2 (constructor; [apply fine_num; lia|]).
    destruct md5; repeat constructor. }
  { repeat constructor; done. }
  do 2 eexists. split; [exact H1|]. split; [exact H2|].
  assert (Hn : forall v z, v = num z -> Z.abs z < 2 ^ 53 -> as_int (-1) v = z) by (intros v z -> ?; by apply as_int_of_int).
  split_and!; try (apply Hn; [|unfold kMtypeCtrlJson, kCmdFileUpload; lia]); destruct md5 as [|m md5];
    generalize (num seq) (num frag) (num off) (num size) (num kMtypeCtrlJson) (num kCmdFileUpload); intros; reflexivity.
Qed.

(** ** The properties *)

(** However a stream of frames is cut into reads, taking the pending
    messages after every read hands over the JSON of every complete frame,
    each once and in order, and leaves the incomplete rest in the buffer; no
    body is copied from beyond the buffer. *)
Lemma messages_of_any_reads (fs : list (Z * Z * list byte)) (tl : list byte) (chunks : list (list byte)) :
  Forall (fun f => zlen f.2 < kMaxPayload) fs -> partial tl -> concat chunks = frames fs ++ tl ->
  drain_reads [] chunks = Some (concat (map (fun f => wire_json_of f.2) fs), tl).
Proof.
  intros Hf Ht E. rewrite (drain_reads_framed chunks [] (map snd fs) tl).
  - by rewrite map_map.
  - apply partial_nil.
  - rewrite E. by apply framed_frames.
Qed.

(** A control message with binary data, wrapped for the wire, is taken
    apart into a JSON that parses to the message with [mtype] added and the
    very bytes of the data, whatever the strings in the message and the bytes
    of the data are. *)
Lemma control_message_roundtrip (o : list (cstr * Value)) (bin : list byte) :
  o <> [] -> om_find (str "mtype") o = None -> ascending o -> Forall (fun kv => readable kv.2) o ->
  exists json, split_json_prefix (wrap_ctrl_abi_with_binary (dump (Object o)) bin) = Some (json, bin) /\
    parse json = Ok (Object (om_set (str "mtype") (num kMtypeCtrlJson) o)) [].
Proof.
  intros Ho Hm Ha Hr. exists (wrap_ctrl_abi (dump (Object o))). split; [by apply split_wrapped | by apply parse_wrapped].
Qed.

(** The length of a frame is computed in 32 bits: a header that announces
    2^32 - 16 bytes passes for a frame of no length, and the copy of its body
    reads beyond the buffer. *)
Lemma frame_length_wraps m q : consume_frames (build_frame_header (2 ^ 32 - 16) m q) = None.
Proof. vm_compute. reflexivity. Qed.

(** An object without members is wrapped into a text that does not parse. *)
Lemma wrap_empty_object : parsed (wrap_ctrl_abi (str "{}")) = None.
Proof. vm_compute. reflexivity. Qed.

(** A storage name with a backslash is quoted into other text. *)
Lemma storage_backslash : parsed ([zb 91] ++ quote_storage (String (str "a\q")) ++ [zb 93]) = None.
Proof. vm_compute. reflexivity. Qed.

Definition demo_message : list (cstr * Value) :=
  [(str "cmdtype", num 5); (str "req", Object [(str "path", String (str "a}" ++ [quote; backslash] ++ str "{"))])].

Lemma control_message_roundtrip_witness :
  exists json, split_json_prefix (wrap_ctrl_abi_with_binary (dump (Object demo_message)) [zb 10; zb 123]) = Some (json, [zb 10; zb 123]) /\
    parse json = Ok (Object (om_set (str "mtype") (num kMtypeCtrlJson) demo_message)) [].
Proof.
  apply (control_message_roundtrip demo_message [zb 10; zb 123]).
  - done.
  - vm_compute. reflexivity.
  - cbn. repeat split; repeat constructor.
  - unfold demo_message. constructor; [split_and!; [done | vm_compute; reflexivity | simpl; lia]|].
    constructor; [|constructor]. split_and!; [cbn; repeat split; repeat constructor | vm_compute; reflexivity | simpl; lia].
Defined.

Definition demo_frames : list (Z * Z * list byte) :=
  [(kMagicCtrlClient, 7, str "{}"); (kMagicCtrlClient, 8, []); (kMagicCtrlClient, 9, str "{}" ++ kSep ++ str "data")].

Lemma messages_of_any_reads_witness :
  drain_reads [] [take 5 (frames demo_frames); drop 5 (frames demo_frames) ++ str "part"]
  = Some (concat (map (fun f => wire_json_of f.2) demo_frames), str "part").
Proof.
  apply (messages_of_any_reads demo_frames (str "part")).
  - unfold demo_frames. repeat constructor.
  - left. simpl. lia.
  - vm_compute. reflexivity.
Defined.
