(* ===== verification/Tls.v ===== *)
(** TLS connections as the program uses them ([src/tls_dial.cpp]): writing all
    of a buffer, and reading a given number of bytes or a line, each chunk under
    a deadline. A connection is what its reads and writes come to: [incoming]
    has the records still to arrive with their times, [outcomes] the results of
    the next [SSL_write] calls, after which everything is taken, [written] what
    the peer has been sent. Times are microseconds of the steady clock. *)

From S2P Require Import Prelude.

(** ** Writing *)

(** One [SSL_write]: it takes up to [n + 1] bytes, wants the socket ready
    (which it becomes, or not, within the poll), or fails. *)
Inductive Write := Takes (n : nat) | Wants (ready : bool) | WriteFails.

(** The loop of [tls::ssl_write_all]: [Takes n] takes up to [n + 1] bytes. *)
Fixpoint write_loop (ws : list Write) (out p : list byte) : bool * list byte * list Write :=
  match p with
  | [] => (true, out, ws)
  | _ =>
      match ws with
      | [] => (true, out ++ p, [])
      | Takes n :: ws => write_loop ws (out ++ take (S n) p) (drop (S n) p)
      | Wants true :: ws => write_loop ws out p
      | Wants false :: ws => (false, out, ws)
      | WriteFails :: ws => (false, out, ws)
      end
  end.

Lemma write_loop_ok ws : forall out p out' ws', write_loop ws out p = (true, out', ws') -> out' = out ++ p.
Proof.
  induction ws as [|w ws IH]; intros out p out' ws' H; destruct p as [|c p]; cbn [write_loop] in H;
    try (injection H as <- <-; by rewrite ?app_nil_r).
  destruct w as [n|[]|]; try done; apply IH in H as ->; [|done].
  rewrite <- app_assoc. f_equal. apply (take_drop (S n)).
Qed.

(** A connection that takes what it is given, in pieces of any size. *)
Definition accepting (ws : list Write) : Prop :=
  Forall (fun w => match w with Takes _ | Wants true => True | _ => False end) ws.

Lemma write_loop_accepting ws : forall out p, accepting ws ->
  exists ws', write_loop ws out p = (true, out ++ p, ws') /\ accepting ws'.
Proof.
  induction ws as [|w ws IH]; intros out p Ha; destruct p as [|c p]; cbn [write_loop];
    try (by eexists; rewrite ?app_nil_r).
  apply Forall_cons in Ha as [Hw Ha]. destruct w as [n|[]|]; try done; [|by apply IH].
  destruct (IH (out ++ take (S n) (c :: p)) (drop (S n) (c :: p)) Ha) as (ws' & -> & H).
  exists ws'. rewrite <- app_assoc, take_drop. done.
Qed.

(** ** Calls

    A result of 0 comes with a value; 1 is the end of the stream, -1 an error. *)

Inductive Io (A : Type) := Done (a : A) | Eos | Fault.
Arguments Done {A} a.
Arguments Eos {A}.
Arguments Fault {A}.

Definition call (S A : Type) : Type := S -> Io A * S.

#[export] Instance call_ret {S} : MRet (call S) := fun A a s => (Done a, s).
#[export] Instance call_bind {S} : MBind (call S) := fun A B f m s =>
  let '(r, s) := m s in
  match r with Done a => f a s | Eos => (Eos, s) | Fault => (Fault, s) end.

Definition fault {S A} : call S A := fun s => (Fault, s).
Definition eos {S A} : call S A := fun s => (Eos, s).
Definition gets {S A} (f : S -> A) : call S A := fun s => (Done (f s), s).
Definition modify {S} (f : S -> S) : call S unit := fun s => (Done tt, f s).

(** ** Reading *)

Inductive Chunk := Bytes (bs : list byte) | CloseNotify | Broken.

Record Conn := { incoming : list (Z * Chunk); outcomes : list Write; written : list byte; clock : Z }.

Inductive Got := GotBytes (bs : list byte) | GotEnd | GotNothing.

(** The loop of [read_some_timeout] from time [now] on: records without data
    are passed over; what is not read of a record stays. *)
Fixpoint read_from (deadline : Z) (n : nat) (inc : list (Z * Chunk)) (now : Z) : Got * list (Z * Chunk) * Z :=
  match inc with
  | [] => (GotNothing, [], deadline)
  | (t, ch) :: rest =>
      if deadline <=? Z.max now t then (GotNothing, inc, deadline)
      else
        let now := Z.max now t in
        match ch with
        | Bytes [] => read_from deadline n rest now
        | Bytes bs => (GotBytes (take n bs), match drop n bs with [] => rest | bs => (t, Bytes bs) :: rest end, now)
        | CloseNotify => (GotEnd, inc, now)
        | Broken => (GotNothing, inc, now)
        end
  end.

Definition read_some_timeout (n : nat) (timeout_ms : Z) : call Conn (list byte) := fun c =>
  let '(got, inc, now) := read_from (clock c + 1000 * timeout_ms) n (incoming c) (clock c) in
  let c := {| incoming := inc; outcomes := outcomes c; written := written c; clock := now |} in
  match got with GotBytes bs => (Done bs, c) | GotEnd => (Eos, c) | GotNothing => (Fault, c) end.

(** The loop of [ssl_read_full_timeout], for positive time limits; [acc] has
    been read, [want] is left. Every pass reads at least a byte. *)
Fixpoint full_loop (fuel : nat) (want : nat) (acc : list byte) (timeout_ms : Z) : call Conn (list byte) :=
  match want, fuel with
  | O, _ => mret acc
  | _, O => fault
  | _, S fuel =>
      bs ← read_some_timeout want timeout_ms;
      full_loop fuel (want - length bs) (acc ++ bs) timeout_ms
  end.

Definition ssl_read_full_timeout (len : nat) (timeout_ms : Z) : call Conn (list byte) :=
  full_loop len len [] timeout_ms.

Definition cr : byte := zb 13.
Definition lf : byte := zb 10.

(** The loop of [ssl_read_line_timeout]: [room] is [max_len - out->size ()]. *)
Fixpoint line_loop (room : nat) (prev : byte) (out : list byte) (timeout_ms : Z) : call Conn (list byte) :=
  match room with
  | O => fault
  | S room =>
      bs ← read_some_timeout 1 timeout_ms;
      let c := bs !!! 0%nat in
      if beq prev cr && beq c lf then mret (removelast out)
      else line_loop room c (out ++ [c]) timeout_ms
  end.

Definition kMaxLine : nat := Z.to_nat 8192.

Definition ssl_read_line_timeout (timeout_ms : Z) : call Conn (list byte) := line_loop kMaxLine x00 [] timeout_ms.

Definition ssl_write_all_conn (p : list byte) : call Conn unit := fun c =>
  let '(ok, out, ws) := write_loop (outcomes c) (written c) p in
  (if ok then Done tt else Fault, {| incoming := incoming c; outcomes := ws; written := out; clock := clock c |}).

(** ** The stream of a connection *)

Fixpoint stream (inc : list (Z * Chunk)) : list byte :=
  match inc with (_, Bytes bs) :: inc => bs ++ stream inc | _ => [] end.

(** What comes after the bytes: nothing ever, or an end. *)
Fixpoint ending (inc : list (Z * Chunk)) : option Chunk :=
  match inc with [] => None | (_, Bytes _) :: inc => ending inc | (_, ch) :: _ => Some ch end.

(** The peer is never silent for [limit] microseconds. *)
Fixpoint paced (limit now : Z) (inc : list (Z * Chunk)) : Prop :=
  match inc with
  | [] => True
  | (t, ch) :: inc =>
      t < now + limit /\ match ch with Bytes bs => bs <> [] /\ paced limit (Z.max now t) inc | _ => True end
  end.

(** A connection on which [tl] is still to be read before [fin], and [out] has
    been written. *)
Record conn_at (limit : Z) (tl : list byte) (fin : option Chunk) (out : list byte) (c : Conn) : Prop := {
  at_stream : stream (incoming c) = tl;
  at_ending : ending (incoming c) = fin;
  at_paced : paced limit (clock c) (incoming c);
  at_accepting : accepting (outcomes c);
  at_written : written c = out
}.

(** A call that takes [bs] from the stream and gives [a]. *)
Definition reads {A} (limit : Z) (m : call Conn A) (bs : list byte) (a : A) : Prop :=
  forall tl fin out c, conn_at limit (bs ++ tl) fin out c -> exists c', m c = (Done a, c') /\ conn_at limit tl fin out c'.

Lemma bind_done {S A B} (m : call S A) (f : A -> call S B) s a s' : m s = (Done a, s') -> (m ≫= f) s = f a s'.
Proof. intros H. unfold mbind, call_bind. by rewrite H. Qed.

Lemma bind_eos {S A B} (m : call S A) (f : A -> call S B) s s' : m s = (Eos, s') -> (m ≫= f) s = (Eos, s').
Proof. intros H. unfold mbind, call_bind. by rewrite H. Qed.

Lemma bind_fault {S A B} (m : call S A) (f : A -> call S B) s s' : m s = (Fault, s') -> (m ≫= f) s = (Fault, s').
Proof. intros H. unfold mbind, call_bind. by rewrite H. Qed.

Lemma reads_ret {A} limit (a : A) : reads limit (mret a) [] a.
Proof. intros tl fin out c H. by exists c. Qed.

Lemma reads_bind {A B} limit (m : call Conn A) (f : A -> call Conn B) bs bs' a b :
  reads limit m bs a -> reads limit (f a) bs' b -> reads limit (m ≫= f) (bs ++ bs') b.
Proof.
  intros Hm Hf tl fin out c H. rewrite <- app_assoc in H. destruct (Hm _ _ _ _ H) as (c1 & E1 & H1).
  destruct (Hf _ _ _ _ H1) as (c2 & E2 & H2). exists c2. by rewrite (bind_done _ _ _ _ _ E1).
Qed.

(** One read: some of what is there, at most [n] bytes. *)
Lemma read_some_at limit n ms tl fin out c :
  0 < limit <= 1000 * ms -> (0 < n)%nat -> tl <> [] -> conn_at limit tl fin out c ->
  exists bs tl' c', tl = bs ++ tl' /\ bs <> [] /\ (length bs <= n)%nat /\
    read_some_timeout n ms c = (Done bs, c') /\ conn_at limit tl' fin out c'.
Proof.
  intros Hl Hn Htl [H1 H2 H3 H4 H5]. unfold read_some_timeout.
  destruct (incoming c) as [|[t ch] inc] eqn:Ei; [cbn in H1; congruence|]. cbn [read_from].
  destruct H3 as [Ht H3]. destruct (Z.leb_spec (clock c + 1000 * ms) (Z.max (clock c) t)) as [|_]; [lia|].
  destruct ch as [bs| |]; cbn [stream ending] in *; [|congruence..]. destruct H3 as [Hbs H3].
  destruct bs as [|b bs]; [done|]. set (l := b :: bs) in *.
  exists (take n l), (drop n l ++ stream inc). eexists. split_and!.
  - by rewrite app_assoc, take_drop.
  - subst l. destruct n; [lia|done].
  - rewrite length_take. lia.
  - reflexivity.
  - destruct (drop n l) as [|b' l'] eqn:Ed; split; cbn [incoming clock outcomes written stream ending paced]; try done.
    split; [lia|]. split; [done|]. by rewrite Z.max_id || (replace (Z.max (Z.max (clock c) t) t) with (Z.max (clock c) t) by lia).
Qed.

Lemma full_loop_at limit ms fuel : forall want acc bs tl fin out c,
  0 < limit <= 1000 * ms -> length bs = want -> (want <= fuel)%nat -> conn_at limit (bs ++ tl) fin out c ->
  exists c', full_loop fuel want acc ms c = (Done (acc ++ bs), c') /\ conn_at limit tl fin out c'.
Proof.
  induction fuel as [|fuel IH]; intros want acc bs tl fin out c Hl Hw Hf H.
  - destruct bs; [|cbn in Hw; lia]. subst want. cbn. rewrite app_nil_r. by eexists.
  - destruct want as [|want].
    { destruct bs; [|done]. cbn. rewrite app_nil_r. by eexists. }
    destruct (read_some_at limit (S want) ms (bs ++ tl) fin out c) as (got & tl' & c1 & E & Hg & Hgl & Er & H1);
      [done | lia | by destruct bs | done |].
    cbn [full_loop]. rewrite (bind_done _ _ _ _ _ Er).
    assert (Hbs : bs = got ++ drop (length got) bs).
    { rewrite <- (take_drop (length got) bs) at 1. f_equal.
      apply (f_equal (take (length got))) in E. rewrite take_app_length, take_app_le in E by lia. done. }
    assert (tl' = drop (length got) bs ++ tl) as ->.
    { rewrite Hbs, <- app_assoc in E. by apply app_inv_head in E. }
    destruct (IH (S want - length got)%nat (acc ++ got) (drop (length got) bs) tl fin out c1) as (c2 & E2 & H2);
      [done | rewrite length_drop; lia | destruct got; [done|cbn [length] in *; lia] | done |].
    exists c2. rewrite E2. split; [|done]. rewrite <- app_assoc. by rewrite <- Hbs.
Qed.

Lemma reads_full limit ms n bs :
  0 < limit <= 1000 * ms -> length bs = n -> reads limit (ssl_read_full_timeout n ms) bs bs.
Proof.
  intros Hl Hn tl fin out c H. unfold ssl_read_full_timeout.
  by apply (full_loop_at limit ms n n [] bs tl fin out c Hl Hn).
Qed.

(** No line end inside, also not across [prev] and the first character. *)
Fixpoint no_crlf (prev : byte) (l : list byte) : bool :=
  match l with [] => true | c :: l => negb (beq prev cr && beq c lf) && no_crlf c l end.

Lemma line_loop_at limit ms room : forall prev out line tl fin wr c,
  0 < limit <= 1000 * ms -> (length line + 2 <= room)%nat -> no_crlf prev line = true ->
  conn_at limit (line ++ [cr; lf] ++ tl) fin wr c ->
  exists c', line_loop room prev out ms c = (Done (out ++ line), c') /\ conn_at limit tl fin wr c'.
Proof.
  assert (Hone : forall x, 0 < limit <= 1000 * ms -> forall tl fin wr c, conn_at limit (x :: tl) fin wr c ->
    exists c', read_some_timeout 1 ms c = (Done [x], c') /\ conn_at limit tl fin wr c').
  { intros x Hl tl fin wr c H.
    destruct (read_some_at limit 1 ms (x :: tl) fin wr c Hl ltac:(lia) ltac:(done) H) as (bs & tl' & c' & E & Hb & Hle & Er & H').
    destruct bs as [|b [|]]; [done| |cbn in Hle; lia]. injection E as -> ->. by exists c'. }
  induction room as [|room IH]; intros prev out line tl fin wr c Hl Hr Hn H; [lia|].
  destruct line as [|x line].
  - cbn [line_loop app] in *. destruct (Hone cr Hl _ _ _ _ H) as (c1 & E1 & H1).
    rewrite (bind_done _ _ _ _ _ E1). cbn [lookup_total list_lookup_total].
    assert (beq cr lf = false) as -> by done. rewrite andb_false_r.
    destruct room as [|room]; [cbn in Hr; lia|]. cbn [line_loop].
    destruct (Hone lf Hl _ _ _ _ H1) as (c2 & E2 & H2). rewrite (bind_done _ _ _ _ _ E2).
    cbn [lookup_total list_lookup_total]. rewrite !beq_refl. cbn [andb].
    exists c2. by rewrite removelast_last, app_nil_r.
  - cbn [line_loop app no_crlf length] in *. apply andb_prop in Hn as [Hx%negb_true_iff Hn].
    destruct (Hone x Hl _ _ _ _ H) as (c1 & E1 & H1). rewrite (bind_done _ _ _ _ _ E1).
    cbn [lookup_total list_lookup_total]. rewrite Hx.
    destruct (IH x (out ++ [x]) line tl fin wr c1 Hl ltac:(lia) Hn H1) as (c2 & E2 & H2).
    exists c2. rewrite E2, <- app_assoc. done.
Qed.

Lemma reads_line limit ms line :
  0 < limit <= 1000 * ms -> (length line + 2 <= kMaxLine)%nat -> no_crlf x00 line = true ->
  reads limit (ssl_read_line_timeout ms) (line ++ [cr; lf]) line.
Proof.
  intros Hl Hr Hn tl fin wr c H. rewrite <- app_assoc in H.
  by apply (line_loop_at limit ms kMaxLine x00 [] line tl fin wr c Hl Hr Hn H).
Qed.

(** At the end of the stream. *)
Lemma read_some_end limit n ms wr c :
  0 < limit <= 1000 * ms -> conn_at limit [] (Some CloseNotify) wr c -> (read_some_timeout n ms c).1 = Eos.
Proof.
  intros Hl [H1 H2 H3 _ _]. unfold read_some_timeout.
  destruct (incoming c) as [|[t ch] inc]; [done|]. destruct H3 as [Ht H3]. cbn [read_from].
  destruct (Z.leb_spec (clock c + 1000 * ms) (Z.max (clock c) t)) as [|_]; [lia|].
  destruct ch as [bs| |]; cbn [stream ending] in *; [|done|done].
  destruct H3 as [Hbs _]. by destruct bs.
Qed.

Lemma write_at limit p tl fin wr c :
  conn_at limit tl fin wr c ->
  exists c', ssl_write_all_conn p c = (Done tt, c') /\ conn_at limit tl fin (wr ++ p) c' /\
             clock c' = clock c /\ incoming c' = incoming c.
Proof.
  intros [H1 H2 H3 H4 H5]. destruct (write_loop_accepting _ (written c) p H4) as (ws & E & Ha).
  unfold ssl_write_all_conn. rewrite E. eexists. split; [reflexivity|].
  split; [split; cbn; congruence || done | done].
Qed.

(** ** Reads take from the stream *)

Lemma read_from_stream deadline n inc : forall now bs inc' now',
  read_from deadline n inc now = (GotBytes bs, inc', now') -> (0 < n)%nat ->
  stream inc = bs ++ stream inc' /\ bs <> [].
Proof.
  induction inc as [|[t ch] inc IH]; intros now bs inc' now' H Hn; cbn [read_from] in H; [done|].
  destruct (deadline <=? Z.max now t); [done|]. destruct ch as [[|b l]| |]; [by apply IH in H| |done|done].
  injection H as <- <- _. cbn [stream]. split; [|by destruct n; [lia|]].
  destruct (drop n (b :: l)) as [|b' l'] eqn:E; cbn [stream].
  - by rewrite <- (app_nil_r (take n (b :: l))), <- E, take_drop.
  - by rewrite app_assoc, <- E, take_drop.
Qed.

Lemma read_some_stream n ms c bs c' :
  read_some_timeout n ms c = (Done bs, c') -> (0 < n)%nat -> stream (incoming c) = bs ++ stream (incoming c') /\ bs <> [].
Proof.
  unfold read_some_timeout. destruct (read_from _ n (incoming c) (clock c)) as [[got inc] now] eqn:E.
  destruct got; [|done|done]. intros [= <- <-] Hn. by apply (read_from_stream _ _ _ _ _ _ _ E).
Qed.

Lemma line_loop_shrinks ms room : forall prev out line c c',
  line_loop room prev out ms c = (Done line, c') -> (length (stream (incoming c')) < length (stream (incoming c)))%nat.
Proof.
  induction room as [|room IH]; intros prev out line c c' H; [done|]. cbn [line_loop] in H.
  unfold mbind, call_bind in H. destruct (read_some_timeout 1 ms c) as [[bs| |] c1] eqn:E; [|done|done].
  apply read_some_stream in E as [E Hbs]; [|lia]. rewrite E, length_app.
  assert (0 < length bs)%nat by (destruct bs; [done | cbn; lia]).
  destruct (beq prev cr && beq (bs !!! 0%nat) lf); [injection H as _ <-; lia|]. apply IH in H. lia.
Qed.

Lemma line_shrinks ms c line c' :
  ssl_read_line_timeout ms c = (Done line, c') -> (length (stream (incoming c')) < length (stream (incoming c)))%nat.
Proof. apply line_loop_shrinks. Qed.
