(* ===== verification/TunnelSession.v ===== *)
(** A session of the local tunnel ([Session] of [src/tunnel_local.cpp]): the
    handshake, sending, and receiving over a TLS connection. The connection is
    what its reads and writes come to: [rx] has the outcomes of the next
    [SSL_read] calls with their times, after them nothing ever arrives;
    [writes] has those of the next [SSL_write] calls, after them everything is
    taken. [tx] is what the peer has been sent. *)

From S2P Require Import Prelude OMap Text Double Json Tls Tunnel.

Inductive Read := Data (bs : list byte) | WouldBlock | Closed.

Record Ssl := { rx : list (Z * Read); writes : list Write; tx : list byte; now : Z }.

Inductive HandshakePhase := NotStarted | LoginSent | SetupSent | Ready | Failed.
#[export] Instance phase_eq_dec : EqDecision HandshakePhase.
Proof. solve_decision. Defined.

Record Session := {
  s_seq : Z; phase : HandshakePhase; recv_buf : list byte; rx_total : Z; hs_note : cstr
}.

Definition new_session (seq_seed : Z) : Session :=
  {| s_seq := seq_seed; phase := NotStarted; recv_buf := []; rx_total := 0; hs_note := [] |}.

Definition set_seq (q : Z) (s : Session) : Session :=
  {| s_seq := q; phase := phase s; recv_buf := recv_buf s; rx_total := rx_total s; hs_note := hs_note s |}.
Definition set_phase (p : HandshakePhase) (s : Session) : Session :=
  {| s_seq := s_seq s; phase := p; recv_buf := recv_buf s; rx_total := rx_total s; hs_note := hs_note s |}.
Definition set_buf (b : list byte) (s : Session) : Session :=
  {| s_seq := s_seq s; phase := phase s; recv_buf := b; rx_total := rx_total s; hs_note := hs_note s |}.
Definition set_note (n : cstr) (s : Session) : Session :=
  {| s_seq := s_seq s; phase := phase s; recv_buf := recv_buf s; rx_total := rx_total s; hs_note := n |}.
Definition got_bytes (bs : list byte) (s : Session) : Session :=
  {| s_seq := s_seq s; phase := phase s; recv_buf := recv_buf s ++ bs; rx_total := rx_total s + zlen bs;
     hs_note := hs_note s |}.

(** ** Writing *)

Definition ssl_write_all (ssl : Ssl) (p : list byte) : bool * Ssl :=
  let '(ok, out, ws) := write_loop (writes ssl) (tx ssl) p in
  (ok, {| rx := rx ssl; writes := ws; tx := out; now := now ssl |}).

(** [seq_++] comes before the writes: a frame that fails has used its number. *)
Definition send_frame (ses : Session) (ssl : Ssl) (mag : Z) (payload : list byte) : bool * Session * Ssl :=
  let hdr := build_frame_header (u32 (zlen payload)) mag (s_seq ses) in
  let ses := set_seq (u32 (s_seq ses + 1)) ses in
  let '(ok, ssl) := ssl_write_all ssl hdr in
  if negb ok then (false, ses, ssl)
  else
    match payload with
    | [] => (true, ses, ssl)
    | _ => let '(ok, ssl) := ssl_write_all ssl payload in (ok, ses, ssl)
    end.

Definition send_abi_json (ses : Session) (ssl : Ssl) (abi_body : cstr) : bool * Session * Ssl :=
  send_frame ses ssl kMagicCtrlClient (wrap_ctrl_abi abi_body).

(** ** Reading *)

(** One read: 0 for data, 1 for none yet, -1 for the end. *)
Definition read_event (ev : Z * Read) (rest : list (Z * Read)) (ses : Session) (ssl : Ssl) : Z * Session * Ssl :=
  let ssl := {| rx := rest; writes := writes ssl; tx := tx ssl; now := Z.max (now ssl) ev.1 |} in
  match ev.2 with
  | WouldBlock => (1, ses, ssl)
  | Closed => (-1, ses, ssl)
  | Data bs => (0, got_bytes bs ses, ssl)
  end.

Definition try_read_frames (ses : Session) (ssl : Ssl) : Z * Session * Ssl :=
  match rx ssl with
  | [] => (1, ses, ssl)
  | ev :: rest => read_event ev rest ses ssl
  end.

(** The results of what reads the buffer are [None] when the code copies from
    beyond it ([consume_frames]). *)
Definition take_frames (ses : Session) : option (list (list byte) * Session) :=
  '(bodies, consumed) ← consume_frames (recv_buf ses);
  Some (bodies, set_buf (drop consumed (recv_buf ses)) ses).

Definition drain_pending_wire_json (ses : Session) : option (list cstr * Session) :=
  '(msgs, buf) ← take_pending_wire_json (recv_buf ses); Some (msgs, set_buf buf ses).

Inductive RecvRc := Payload (body : list byte) | Again | RecvError | Deadline.

(** The loop of [recv_payload_until]: all complete frames leave the buffer,
    the first is the result. *)
Fixpoint recv_loop (reads : list (Z * Read)) (deadline : option Z) (ses : Session) (ssl : Ssl)
  : option (RecvRc * Session * Ssl) :=
  '(bodies, ses) ← take_frames ses;
  match bodies with
  | body :: _ => Some (Payload body, ses, ssl)
  | [] =>
      if match deadline with Some d => d <=? now ssl | None => false end then Some (Deadline, ses, ssl)
      else
        match reads with
        | [] => Some (Again, ses, ssl)
        | ev :: rest =>
            let '(rc, ses, ssl) := read_event ev rest ses ssl in
            if rc <? 0 then Some (RecvError, ses, ssl)
            else if 0 <? rc then Some (Again, ses, ssl)
            else recv_loop rest deadline ses ssl
        end
  end.

Definition recv_payload_until (deadline : option Z) (ses : Session) (ssl : Ssl)
  : option (RecvRc * Session * Ssl) :=
  recv_loop (rx ssl) deadline ses ssl.

(** [steady_clock::time_point::max ()] does not pass. *)
Definition recv_payload : Session -> Ssl -> option (RecvRc * Session * Ssl) := recv_payload_until None.

(** ** Sending with binary data *)

(** The reads after a sent frame: at most eight. [stop rc] is the loop's
    break. *)
Fixpoint poll_reads (passes : nat) (stop : Z -> bool) (ses : Session) (ssl : Ssl) : Session * Ssl :=
  match passes with
  | O => (ses, ssl)
  | S passes =>
      let '(rc, ses, ssl) := try_read_frames ses ssl in
      if stop rc then (ses, ssl) else poll_reads passes stop ses ssl
  end.

(** [on_wire] for the pending messages, up to the first it refuses. *)
Fixpoint dispatch (on_wire : cstr -> bool) (pending : list cstr) : list cstr * bool :=
  match pending with
  | [] => ([], true)
  | json :: pending =>
      if on_wire json then let '(seen, ok) := dispatch on_wire pending in (json :: seen, ok)
      else ([json], false)
  end.

(** The result, and the messages [on_wire] was given. [bin_in] is what is left
    of the stream. *)
Definition send_abi_json_with_binary_stream (ses : Session) (ssl : Ssl) (abi_json : cstr) (bin_in : list byte)
    (bin_len : nat) (on_wire : option (cstr -> bool)) (poll_rx_after_send : bool)
  : option (Z * list cstr * Session * Ssl) :=
  let wire := wrap_ctrl_abi abi_json in
  if (0 <? bin_len)%nat && (length bin_in <? bin_len)%nat then Some (-1, [], ses, ssl)
  else
    let body := if (0 <? bin_len)%nat then wire ++ kSep ++ take bin_len bin_in else wire in
    let '(ok, ses, ssl) := send_frame ses ssl kMagicCtrlClient body in
    if negb ok then Some (-1, [], ses, ssl)
    else if negb poll_rx_after_send then Some (0, [], ses, ssl)
    else
      match on_wire with
      | Some f =>
          let '(ses, ssl) := poll_reads 8 (fun rc => rc <? 0) ses ssl in
          '(pending, ses) ← drain_pending_wire_json ses;
          let '(seen, ok) := dispatch f pending in
          Some (if ok then 0 else -2, seen, ses, ssl)
      | None => let '(ses, ssl) := poll_reads 8 (fun rc => rc <=? 0) ses ssl in Some (0, [], ses, ssl)
      end.

Definition send_abi_json_with_binary (ses : Session) (ssl : Ssl) (abi_json : cstr) (bin : list byte)
    (poll_rx_after_send : bool) : option (bool * Session * Ssl) :=
  match bin with
  | [] => Some (send_abi_json ses ssl abi_json)
  | _ =>
      '(rc, _, ses, ssl) ← send_abi_json_with_binary_stream ses ssl abi_json bin (length bin) None poll_rx_after_send;
      Some (rc =? 0, ses, ssl)
  end.

(** ** The handshake *)

Record Config := { username : cstr; access_code : cstr; client_id : cstr; client_ver : cstr }.

(** [obn::log::hexdump]: text as it is, other data in hexadecimal, cut. *)
Definition text_char (c : byte) : bool :=
  ((0x20 <=? bz c) && negb (bz c =? 0x7f)) || (bz c =? 10) || (bz c =? 13) || (bz c =? 9).

Definition hexdump (p : list byte) (max_bytes : nat) : cstr :=
  match p with
  | [] => []
  | _ =>
      let q := take max_bytes p in
      (if forallb text_char q then q
       else concat (map (fun c => [hex_lower (Z.shiftr (bz c) 4); hex_lower (Z.land (bz c) 15)]) q))
      ++ (if (max_bytes <? length p)%nat then str "..." else [])
  end.

Definition handshake_note (ses : Session) : cstr :=
  str "rx=" ++ dec (rx_total ses) ++ str " bytes" ++
  match hs_note ses with [] => [] | note => str ", last unexpected: " ++ note end.

Definition have_login_ack (ses : Session) : bool :=
  if (length (recv_buf ses) <? 16)%nat then false
  else
    match parse_frame_header (recv_buf ses) with
    | None => false
    | Some hdr =>
        if negb (magic hdr =? kMagicLoginServer) then false
        else u32 (16 + payload_len hdr) <=? zlen (recv_buf ses)
    end.

Definition no_ack_note (ses : Session) : Session :=
  let buf := recv_buf ses in
  match parse_frame_header buf with
  | Some hdr =>
      if negb (magic hdr =? kMagicLoginServer)
      then set_note (str "frame magic=0x" ++ hex8 (magic hdr) ++ str " len=" ++ dec (payload_len hdr) ++ str ": "
                     ++ hexdump (drop 16 buf) 64) ses
      else ses
  | None =>
      match buf with
      | [] => ses
      | _ => set_note (str "partial: " ++ hexdump buf 64) ses
      end
  end.

Definition is_setup_reply (body : list byte) : bool :=
  match parsed body with
  | None => false
  | Some v => (as_int 0 (find v (str "mtype")) =? kMtypeCtrlSetup) && (as_int 0 (find v (str "result")) =? 0)
  end.

(** The bodies up to the setup reply. *)
Fixpoint scan_setup (bodies : list (list byte)) (ses : Session) : bool * Session :=
  match bodies with
  | [] => (false, ses)
  | body :: bodies =>
      match body with
      | [] => scan_setup bodies ses
      | _ =>
          if is_setup_reply body then (true, set_phase Ready ses)
          else scan_setup bodies (set_note (str "setup reply: " ++ hexdump body 200) ses)
      end
  end.

Fixpoint setup_attempts (attempts : nat) (ses : Session) (ssl : Ssl) : option (Z * Session * Ssl) :=
  match attempts with
  | O => Some (1, ses, ssl)
  | S attempts =>
      '(bodies, ses) ← take_frames ses;
      let '(ready, ses) := scan_setup bodies ses in
      if ready then Some (0, ses, ssl)
      else
        let '(rr, ses, ssl) := try_read_frames ses ssl in
        if rr <? 0 then Some (-1, set_phase Failed ses, ssl)
        else if 0 <? rr then Some (1, ses, ssl)
        else setup_attempts attempts ses ssl
  end.

Definition default_id (cfg : Config) (ses : Session) : cstr :=
  match client_id cfg with [] => hex8 (s_seq ses) | id => id end.

(** 0: ready; 1: in progress; -1: failed. *)
Definition handshake_step (cfg : Config) (ses : Session) (ssl : Ssl) : option (Z * Session * Ssl) :=
  let id := default_id cfg ses in
  match phase ses with
  | Ready => Some (0, ses, ssl)
  | Failed => Some (-1, ses, ssl)
  | NotStarted =>
      let '(ok, ses, ssl) :=
        send_frame ses ssl kMagicLoginClient (build_login_payload (username cfg) (access_code cfg)) in
      Some (if ok then (1, set_phase LoginSent ses, ssl) else (-1, set_phase Failed ses, ssl))
  | LoginSent =>
      let '(rr, ses, ssl) := try_read_frames ses ssl in
      if rr <? 0 then Some (-1, set_phase Failed ses, ssl)
      else if 0 <? rr then Some (1, ses, ssl)
      else if negb (have_login_ack ses) then Some (1, no_ack_note ses, ssl)
      else
        '(_, ses) ← take_frames ses;
        let '(ok, ses, ssl) := send_frame ses ssl kMagicCtrlClient (build_setup_json id (client_ver cfg)) in
        Some (if ok then (1, set_phase SetupSent ses, ssl) else (-1, set_phase Failed ses, ssl))
  | SetupSent => setup_attempts 32 ses ssl
  end.

(** The loop of [Connection::connect]. *)
Fixpoint handshake_loop (attempts : nat) (cfg : Config) (ses : Session) (ssl : Ssl) : option (bool * Session * Ssl) :=
  match attempts with
  | O => Some (false, ses, ssl)
  | S attempts =>
      '(hs, ses, ssl) ← handshake_step cfg ses ssl;
      if hs =? 0 then Some (true, ses, ssl)
      else if hs <? 0 then Some (false, ses, ssl)
      else handshake_loop attempts cfg ses ssl
  end.

(** ** Writing: all of it, in order *)

(** What a call sends and leaves of the connection. *)
Definition sent (ssl ssl' : Ssl) (bs : list byte) : Prop :=
  tx ssl' = tx ssl ++ bs /\ rx ssl' = rx ssl /\ now ssl' = now ssl.

Definition next_seq (s : Session) : Session := set_seq (u32 (s_seq s + 1)) s.

Lemma ssl_write_all_ok ssl p ssl' : ssl_write_all ssl p = (true, ssl') -> sent ssl ssl' p.
Proof.
  unfold ssl_write_all. destruct (write_loop (writes ssl) (tx ssl) p) as [[ok out] ws] eqn:E.
  intros [= -> <-]. by apply write_loop_ok in E as ->.
Qed.

Lemma ssl_write_all_accepting ssl p :
  accepting (writes ssl) -> exists ssl', ssl_write_all ssl p = (true, ssl') /\ sent ssl ssl' p /\ accepting (writes ssl').
Proof.
  intros Ha. destruct (write_loop_accepting _ (tx ssl) p Ha) as (ws & E & Ha').
  unfold ssl_write_all. rewrite E. by eexists.
Qed.

Lemma sent_app ssl ssl1 ssl2 a b : sent ssl ssl1 a -> sent ssl1 ssl2 b -> sent ssl ssl2 (a ++ b).
Proof.
  intros (H1 & H2 & H3) (H4 & H5 & H6). unfold sent. by rewrite H4, H5, H6, H1, H2, H3, app_assoc.
Qed.

Lemma send_frame_ok ses ssl mag p ses' ssl' :
  send_frame ses ssl mag p = (true, ses', ssl') ->
  ses' = next_seq ses /\ sent ssl ssl' (frame mag (s_seq ses) p).
Proof.
  unfold send_frame. set (hdr := build_frame_header _ _ _).
  destruct (ssl_write_all ssl hdr) as [ok ssl1] eqn:E1. destruct ok; [|done]. apply ssl_write_all_ok in E1.
  cbn [negb]. destruct p as [|c p].
  - intros [= <- <-]. split; [done|]. unfold frame. by rewrite app_nil_r.
  - destruct (ssl_write_all ssl1 (c :: p)) as [ok ssl2] eqn:E2. intros [= -> <- <-].
    apply ssl_write_all_ok in E2. split; [done | by eapply sent_app].
Qed.

Lemma send_frame_accepting ses ssl mag p :
  accepting (writes ssl) ->
  exists ssl', send_frame ses ssl mag p = (true, next_seq ses, ssl') /\
               sent ssl ssl' (frame mag (s_seq ses) p) /\ accepting (writes ssl').
Proof.
  intros Ha. unfold send_frame. set (hdr := build_frame_header _ _ _).
  destruct (ssl_write_all_accepting ssl hdr Ha) as (ssl1 & -> & H1 & Ha1). cbn [negb].
  destruct p as [|c p].
  - exists ssl1. split_and!; [done| |done]. unfold frame. by rewrite app_nil_r.
  - destruct (ssl_write_all_accepting ssl1 (c :: p) Ha1) as (ssl2 & -> & H2 & Ha2).
    exists ssl2. split_and!; [done | by eapply sent_app | done].
Qed.

Lemma ssl_write_all_rx ssl p : rx (ssl_write_all ssl p).2 = rx ssl.
Proof. unfold ssl_write_all. by destruct (write_loop _ _ _) as [[ok out] ws]. Qed.

Lemma send_frame_rx ses ssl mag p ok ses' ssl' : send_frame ses ssl mag p = (ok, ses', ssl') -> rx ssl' = rx ssl.
Proof.
  unfold send_frame. set (hdr := build_frame_header _ _ _). pose proof (ssl_write_all_rx ssl hdr) as H1.
  destruct (ssl_write_all ssl hdr) as [[] ssl1]; cbn [negb snd] in *; [|by intros [= <- <- <-]].
  destruct p as [|c p]; [by intros [= <- <- <-]|]. pose proof (ssl_write_all_rx ssl1 (c :: p)) as H2.
  destruct (ssl_write_all ssl1 (c :: p)) as [ok2 ssl2]. intros [= <- <- <-]. simpl in H2. congruence.
Qed.

(** ** Reading *)

(** The data of some reads. *)
Definition arrived (reads : list (Z * Read)) : list byte :=
  concat (map (fun ev => match ev.2 with Data bs => bs | _ => [] end) reads).

Definition alive (reads : list (Z * Read)) : Prop :=
  Forall (fun ev => ev.2 <> Closed) reads.

Lemma take_frames_framed ses bs tl :
  framed (recv_buf ses) bs tl -> take_frames ses = Some (bs, set_buf tl ses).
Proof.
  intros Hf. unfold take_frames. destruct (consume_frames_of _ _ _ Hf) as (n & -> & Hd & _).
  cbn [mbind option_bind]. by rewrite Hd.
Qed.

Lemma set_buf_id ses : set_buf (recv_buf ses) ses = ses.
Proof. by destruct ses. Qed.

(** ** The handshake with a printer that answers *)

(** Nothing but the note differs. *)
Definition alike (a b : Session) : Prop :=
  s_seq a = s_seq b /\ phase a = phase b /\ recv_buf a = recv_buf b.

Lemma alike_refl a : alike a a.
Proof. done. Qed.

Lemma alike_trans a b c : alike a b -> alike b c -> alike a c.
Proof. intros (H1 & H2 & H3) (H4 & H5 & H6). unfold alike. by rewrite H1, H2, H3. Qed.

Lemma scan_setup_none bodies : forall ses,
  Forall (fun b => is_setup_reply b = false) bodies ->
  exists ses', scan_setup bodies ses = (false, ses') /\ alike ses' ses.
Proof.
  induction bodies as [|b bodies IH]; intros ses Hb; cbn [scan_setup]; [by exists ses|].
  apply Forall_cons in Hb as [Hn Hb]. destruct b as [|c b]; [by apply IH|]. rewrite Hn.
  destruct (IH (set_note (str "setup reply: " ++ hexdump (c :: b) 200) ses) Hb) as (ses' & -> & H).
  by exists ses'.
Qed.

Lemma scan_setup_found pre b post : forall ses,
  Forall (fun b => is_setup_reply b = false) pre -> is_setup_reply b = true ->
  exists ses', scan_setup (pre ++ b :: post) ses = (true, ses') /\ alike ses' (set_phase Ready ses).
Proof.
  induction pre as [|x pre IH]; intros ses Hp Hb; cbn [app scan_setup].
  - rewrite Hb. destruct b as [|c b]; [vm_compute in Hb; discriminate|]. by eexists.
  - apply Forall_cons in Hp as [Hn Hp]. destruct x as [|c x]; [by apply IH|]. rewrite Hn.
    by destruct (IH (set_note (str "setup reply: " ++ hexdump (c :: x) 200) ses) Hp Hb) as (ses' & -> & H); exists ses'.
Qed.

(** What the loop of [connect] makes of a step's result. *)
Definition loop_from (n : nat) (cfg : Config) (r : option (Z * Session * Ssl)) : option (bool * Session * Ssl) :=
  '(hs, ses, ssl) ← r;
  if hs =? 0 then Some (true, ses, ssl)
  else if hs <? 0 then Some (false, ses, ssl)
  else handshake_loop n cfg ses ssl.

Lemma handshake_loop_S n cfg ses ssl : handshake_loop (S n) cfg ses ssl = loop_from n cfg (handshake_step cfg ses ssl).
Proof. done. Qed.

Definition shaken (q : Z) (out : list byte) (r : option (bool * Session * Ssl)) : Prop :=
  exists ses ssl, r = Some (true, ses, ssl) /\ phase ses = Ready /\ s_seq ses = q /\ tx ssl = out.

Lemma app_split {A} (pre post bs1 bs2 : list A) r :
  pre ++ r :: post = bs1 ++ bs2 ->
  (exists k, pre = bs1 ++ k /\ bs2 = k ++ r :: post) \/ (exists k, bs1 = pre ++ r :: k).
Proof.
  intros [(k & H1 & H2)|(k & H1 & H2)]%app_eq_inv; [left; by exists k|].
  destruct k as [|x k]; [|injection H2 as <- _; right; by exists k].
  rewrite app_nil_r in H1. left. exists []. by rewrite app_nil_r.
Qed.

Lemma setup_step cfg ses ssl : phase ses = SetupSent -> handshake_step cfg ses ssl = setup_attempts 32 ses ssl.
Proof. intros H. unfold handshake_step. by rewrite H. Qed.

Lemma setup_phase cfg reply post tl :
  is_setup_reply reply = true ->
  forall reads pre m n ses ssl,
  Forall (fun b => is_setup_reply b = false) pre ->
  phase ses = SetupSent -> rx ssl = reads -> alive reads ->
  framed (recv_buf ses ++ arrived reads) (pre ++ reply :: post) tl -> (length reads <= n)%nat ->
  shaken (s_seq ses) (tx ssl) (loop_from n cfg (setup_attempts (S m) ses ssl)).
Proof.
  intros Hreply. induction reads as [|[t rd] reads IH]; intros pre m n ses ssl Hpre Hph Hrx Hal Hf Hn;
    destruct (framed_prefix _ _ _ _ Hf) as (bs1 & tl1 & bs2 & H1 & H2 & E);
    cbn [setup_attempts]; rewrite (take_frames_framed _ _ _ H1); cbn [mbind option_bind];
    (apply app_split in E as [(k & -> & ->)|(k & ->)];
      [|destruct (scan_setup_found pre reply k (set_buf tl1 ses) Hpre Hreply) as (ses' & -> & Ha & Hb & _);
        do 2 eexists; split; [reflexivity|]; by rewrite Hb, Ha]).
  - cbn [arrived map concat] in H2. rewrite app_nil_r in H2.
    destruct (framed_fun _ _ _ H2 _ _ (framed_tail _ _ _ H1)) as [Hk _]. by destruct k.
  - apply Forall_app in Hpre as [Hpre1 Hpre2].
    destruct (scan_setup_none bs1 (set_buf tl1 ses) Hpre1) as (ses1 & -> & Ha & Hb & Hc).
    cbn [set_buf s_seq phase recv_buf] in Ha, Hb, Hc. rewrite Hph in Hb. unfold try_read_frames. rewrite Hrx.
    apply Forall_cons in Hal as [Hd Hal]. simpl length in Hn.
    assert (Hagain : forall ses' ssl', s_seq ses' = s_seq ses -> phase ses' = SetupSent -> rx ssl' = reads ->
      tx ssl' = tx ssl -> framed (recv_buf ses' ++ arrived reads) (k ++ reply :: post) tl ->
      shaken (s_seq ses) (tx ssl) (loop_from n cfg (Some (1, ses', ssl')))).
    { intros ses' ssl' Hs' Hp' Hr' Ht' Hf'. change (loop_from n cfg (Some (1, ses', ssl'))) with (handshake_loop n cfg ses' ssl').
      destruct n as [|n]; [lia|]. rewrite handshake_loop_S, setup_step by done. rewrite <- Hs', <- Ht'.
      eapply IH; try done. lia. }
    destruct rd as [bs| |]; [| |done]; unfold read_event; cbn [snd fst].
    + cbn [Z.ltb Z.compare]. cbn [arrived map concat snd] in H2. rewrite app_assoc in H2.
      set (ses2 := got_bytes bs ses1). set (ssl2 := {| rx := reads; writes := _; tx := _; now := _ |}).
      assert (Hbuf : recv_buf ses2 = tl1 ++ bs) by (subst ses2; simpl; by rewrite Hc).
      destruct m as [|m]; [apply Hagain; try done; by rewrite Hbuf|].
      assert (Hq : s_seq ses2 = s_seq ses) by done. rewrite <- Hq. change (tx ssl) with (tx ssl2).
      eapply IH; try done; [by rewrite Hbuf | lia].
    + cbn [Z.ltb Z.compare]. apply Hagain; try done. by rewrite Hc.
Qed.

Lemma parse_header_built len mag sq y :
  parse_frame_header (build_frame_header len mag sq ++ y) =
  Some {| payload_len := u32 len; magic := u32 mag; seq := u32 sq |}.
Proof.
  unfold parse_frame_header, build_frame_header. cbn [enc_le32 app length Nat.ltb Nat.leb].
  rewrite le32_enc. do 2 f_equal; unfold le32, zat, at_; cbn [Nat.add lookup_total list_lookup_total];
    [pose proof (le32_enc mag) as H | pose proof (le32_enc sq) as H]; unfold le32, zat, at_ in H;
    cbn [Nat.add lookup_total list_lookup_total] in H; by apply (H []).
Qed.

(** The ack is recognised when all of it has come. *)
Lemma ack_complete ses sq ack x :
  zlen ack < kMaxPayload -> recv_buf ses ++ x = frame kMagicLoginServer sq ack ->
  have_login_ack ses = bool_decide (x = []).
Proof.
  intros Hack E. pose proof (zlen_nonneg ack) as H0. unfold kMaxPayload in Hack. unfold have_login_ack.
  assert (Hu : u32 (zlen ack) = zlen ack) by (apply u32_small; lia).
  assert (Hv : u32 (16 + zlen ack) = 16 + zlen ack) by (apply u32_small; lia).
  destruct (Nat.ltb_spec (length (recv_buf ses)) 16) as [Hl|Hl].
  { symmetry. apply bool_decide_eq_false. intros ->. rewrite app_nil_r in E. rewrite E in Hl.
    unfold frame in Hl. rewrite length_app, length_frame_header in Hl. lia. }
  unfold frame in E. apply app_eq_inv in E as [(k & E1 & E2)|(k & E1 & E2)].
  2: { assert (k = []) as ->.
       { apply length_zero_iff_nil. apply (f_equal length) in E1. rewrite length_app, length_frame_header in E1. lia. }
       cbn [app] in E2. subst x. rewrite app_nil_r in E1. rewrite <- E1.
       rewrite <- (app_nil_r (build_frame_header _ _ _)), parse_header_built. cbn [magic payload_len].
       change (u32 kMagicLoginServer =? kMagicLoginServer) with true. cbn [negb].
       rewrite app_nil_r, !Hu, Hv. unfold zlen. rewrite length_frame_header.
       destruct ack as [|c ack]; [done|]. rewrite (proj2 (Z.leb_gt _ _)) by (simpl; lia). done. }
  rewrite E1, parse_header_built. cbn [magic payload_len].
  change (u32 kMagicLoginServer =? kMagicLoginServer) with true. cbn [negb].
  rewrite !Hu, Hv. clear Hu Hv. subst ack. unfold zlen. rewrite !length_app, length_frame_header.
  destruct x as [|c x]; [rewrite (proj2 (Z.leb_le _ _)) by (simpl; lia); done|].
  rewrite (proj2 (Z.leb_gt _ _)) by (simpl; lia). done.
Qed.

Lemma no_ack_alike ses : alike (no_ack_note ses) ses.
Proof.
  unfold no_ack_note. destruct (parse_frame_header (recv_buf ses)) as [hdr|].
  - by destruct (negb _).
  - by destruct (recv_buf ses) eqn:E.
Qed.

Lemma login_phase cfg sq ack r2 :
  zlen ack < kMaxPayload -> forall r1 ses ssl,
  phase ses = LoginSent -> rx ssl = r1 ++ r2 -> alive r1 -> accepting (writes ssl) ->
  recv_buf ses ++ arrived r1 = frame kMagicLoginServer sq ack -> arrived r1 <> [] ->
  exists k r1' ses' ssl',
    (k + length r1' = length r1)%nat /\
    (forall n, handshake_loop (k + n) cfg ses ssl = handshake_loop n cfg ses' ssl') /\
    phase ses' = SetupSent /\ recv_buf ses' = [] /\ rx ssl' = r1' ++ r2 /\ arrived r1' = [] /\ alive r1' /\
    s_seq ses' = u32 (s_seq ses + 1) /\
    tx ssl' = tx ssl ++ frame kMagicCtrlClient (s_seq ses) (build_setup_json (default_id cfg ses) (client_ver cfg)).
Proof.
  intros Hack. induction r1 as [|[t rd] r1 IH]; intros ses ssl Hph Hrx Hal Hacc Hbuf Hne; [done|].
  apply Forall_cons in Hal as [Hd Hal].
  assert (Hstep : forall m, handshake_loop (S m) cfg ses ssl = loop_from m cfg (handshake_step cfg ses ssl)) by done.
  unfold handshake_step in Hstep. rewrite Hph in Hstep. unfold try_read_frames in Hstep. rewrite Hrx in Hstep.
  cbn [app] in Hstep. unfold read_event in Hstep. cbn [snd fst] in Hstep.
  set (ssl1 := {| rx := r1 ++ r2; writes := writes ssl; tx := tx ssl; now := Z.max (now ssl) t |}) in *.
  destruct rd as [bs| |]; [| |done].
  - cbn [Z.ltb Z.compare] in Hstep. cbn [arrived map concat snd] in Hbuf. fold (arrived r1) in Hbuf.
    rewrite app_assoc in Hbuf. set (ses1 := got_bytes bs ses) in *.
    change (recv_buf ses ++ bs) with (recv_buf ses1) in Hbuf.
    rewrite (ack_complete ses1 sq ack _ Hack Hbuf) in Hstep.
    destruct (bool_decide_reflect (arrived r1 = [])) as [He|He]; cbn [negb] in Hstep.
    + rewrite He, app_nil_r in Hbuf.
      assert (Hf : framed (recv_buf ses1) [ack] []).
      { rewrite Hbuf, <- (app_nil_r (frame _ _ _)). eapply framed_next; [by apply next_frame_frame|].
        apply framed_end, partial_nil. }
      rewrite (take_frames_framed _ _ _ Hf) in Hstep. cbn [mbind option_bind] in Hstep.
      destruct (send_frame_accepting (set_buf [] ses1) ssl1 kMagicCtrlClient
                  (build_setup_json (default_id cfg ses) (client_ver cfg)) Hacc) as (ssl2 & E & (Ht & Hr & _) & Ha2).
      rewrite E in Hstep.
      exists 1%nat, r1, (set_phase SetupSent (next_seq (set_buf [] ses1))), ssl2.
      split_and!; [done | intros n; apply Hstep | done | done | done | done | done | done | done].
    + destruct (no_ack_alike ses1) as (Hs & Hp & Hb).
      destruct (IH (no_ack_note ses1) ssl1) as (k & r1' & ses' & ssl' & Hk & Hl & Hrest);
        [by rewrite Hp | done | done | done | by rewrite Hb | done |].
      exists (S k), r1', ses', ssl'. split; [simpl; lia|]. split.
      { intros n. cbn [Nat.add]. rewrite Hstep. apply Hl. }
      unfold default_id in *. rewrite Hs in Hrest. exact Hrest.
  - cbn [Z.ltb Z.compare] in Hstep.
    destruct (IH ses ssl1) as (k & r1' & ses' & ssl' & Hk & Hl & Hrest); [done..|].
    exists (S k), r1', ses', ssl'. split; [simpl; lia|]. split; [|exact Hrest].
    intros n. cbn [Nat.add]. rewrite Hstep. apply Hl.
Qed.

Definition login_frame (cfg : Config) (q : Z) : list byte :=
  frame kMagicLoginClient q (build_login_payload (username cfg) (access_code cfg)).
Definition setup_frame (cfg : Config) (q : Z) : list byte :=
  frame kMagicCtrlClient q
    (build_setup_json (match client_id cfg with [] => hex8 q | id => id end) (client_ver cfg)).

(** The handshake with a printer that acknowledges the login and then
    accepts the setup ends ready, however the two answers are cut into reads,
    whatever else the printer says before it accepts, and however the writes
    are split; what was sent is the login and the setup. *)
Lemma tunnel_ready (cfg : Config) (q : Z) (ssl : Ssl) (r1 r2 : list (Z * Read)) (sq : Z) (ack : list byte)
    (pre post : list (list byte)) (reply tl : list byte) :
  rx ssl = r1 ++ r2 -> alive r1 -> alive r2 -> accepting (writes ssl) ->
  (length r1 + length r2 <= 62)%nat -> zlen ack < kMaxPayload ->
  arrived r1 = frame kMagicLoginServer sq ack -> framed (arrived r2) (pre ++ reply :: post) tl ->
  Forall (fun b => is_setup_reply b = false) pre -> is_setup_reply reply = true ->
  exists ses' ssl', handshake_loop 64 cfg (new_session q) ssl = Some (true, ses', ssl') /\
    phase ses' = Ready /\ tx ssl' = tx ssl ++ login_frame cfg q ++ setup_frame cfg (u32 (q + 1)).
Proof.
  intros Hrx H1 H2 Hacc Hlen Hack Ha1 Hf Hpre Hreply.
  destruct (send_frame_accepting (new_session q) ssl kMagicLoginClient
              (build_login_payload (username cfg) (access_code cfg)) Hacc) as (ssl1 & E & (Ht1 & Hr1 & _) & Hacc1).
  rewrite handshake_loop_S. unfold handshake_step. cbn [phase new_session]. rewrite E.
  set (ses1 := set_phase LoginSent (next_seq (new_session q))).
  cut (shaken (u32 (u32 (q + 1) + 1)) (tx ssl ++ login_frame cfg q ++ setup_frame cfg (u32 (q + 1)))
        (handshake_loop 63 cfg ses1 ssl1)); [intros (s & l & H & Hp & _ & Ht); by exists s, l|].
  destruct (login_phase cfg sq ack r2 Hack r1 ses1 ssl1)
    as (k & r1' & ses2 & ssl2 & Hk & Hl & Hp & Hb & Hr & Har & Hal & Hs & Ht);
    [done | by rewrite Hr1 | done | done | by rewrite Ha1 | by rewrite Ha1|].
  replace 63%nat with (k + S (62 - k))%nat by lia. rewrite Hl, handshake_loop_S, setup_step by done.
  change (u32 (q + 1)) with (s_seq ses1) at 1. rewrite <- Hs.
  replace (tx ssl ++ _) with (tx ssl2); [|by rewrite Ht, Ht1, <- app_assoc].
  eapply setup_phase; [exact Hreply | exact Hpre | done | exact Hr | by apply Forall_app | | rewrite length_app; lia].
  rewrite Hb. cbn [app]. unfold arrived in *. by rewrite map_app, concat_app, Har.
Qed.

(** ** What a ready session has seen *)

(** The data starts with a complete frame of the login acknowledgement. *)
Definition acked (d : list byte) : Prop :=
  (16 <= length d)%nat /\ le32 d 4 = kMagicLoginServer /\ 16 + le32 d 0 <= zlen d.

(** [seen d1 d2 bs tl]: [d1] came before the setup was sent and starts with
    the ack; the frames that came after it have the bodies [bs]. *)
Definition seen (d1 d2 : list byte) (bs : list (list byte)) (tl : list byte) : Prop :=
  acked d1 /\ exists bs1 tl1, framed d1 bs1 tl1 /\ framed (tl1 ++ d2) bs tl.

(** The state of a handshake started with [reads0] and [tx0]. *)
Definition stage (cfg : Config) (q : Z) (reads0 : list (Z * Read)) (tx0 : list byte) (ses : Session) (ssl : Ssl) : Prop :=
  exists used, reads0 = used ++ rx ssl /\
  match phase ses with
  | NotStarted => arrived used = [] /\ recv_buf ses = [] /\ s_seq ses = q /\ tx ssl = tx0
  | LoginSent => recv_buf ses = arrived used /\ s_seq ses = u32 (q + 1) /\ tx ssl = tx0 ++ login_frame cfg q
  | SetupSent =>
      tx ssl = tx0 ++ login_frame cfg q ++ setup_frame cfg (u32 (q + 1)) /\
      exists d1 d2 d3 bs tl, arrived used = d1 ++ d2 ++ d3 /\ seen d1 d2 bs tl /\ recv_buf ses = tl ++ d3
  | Ready =>
      tx ssl = tx0 ++ login_frame cfg q ++ setup_frame cfg (u32 (q + 1)) /\
      exists d1 d2 bs tl, arrived used = d1 ++ d2 /\ seen d1 d2 bs tl /\
        Exists (fun b => is_setup_reply b = true) bs
  | Failed => True
  end.

Lemma arrived_app a b : arrived (a ++ b) = arrived a ++ arrived b.
Proof. unfold arrived. by rewrite map_app, concat_app. Qed.

Lemma take_frames_inv ses bs ses' :
  zlen (recv_buf ses) < 2 ^ 32 -> take_frames ses = Some (bs, ses') ->
  exists tl, ses' = set_buf tl ses /\ framed (recv_buf ses) bs tl.
Proof.
  intros Hl. unfold take_frames. destruct (consume_frames (recv_buf ses)) as [[bs' n]|] eqn:E; [|done].
  cbn [mbind option_bind]. intros [= <- <-]. apply consume_frames_inv in E; [|done]. by eexists.
Qed.

Lemma scan_setup_spec bodies : forall ses ok ses',
  scan_setup bodies ses = (ok, ses') ->
  if ok then alike ses' (set_phase Ready ses) /\ Exists (fun b => is_setup_reply b = true) bodies
  else alike ses' ses.
Proof.
  induction bodies as [|b bodies IH]; intros ses ok ses' H; cbn [scan_setup] in H; [by injection H as <- <-|].
  destruct b as [|c b].
  - apply IH in H. destruct ok; [|done]. split; [apply H | right; apply H].
  - destruct (is_setup_reply (c :: b)) eqn:E.
    + injection H as <- <-. split; [done | by left].
    + apply IH in H. destruct ok; [|exact H]. split; [apply H | right; apply H].
Qed.

Lemma seen_more d1 d2 bs tl d3 bs' tl' :
  seen d1 d2 bs tl -> framed (tl ++ d3) bs' tl' -> seen d1 (d2 ++ d3) (bs ++ bs') tl'.
Proof.
  intros (Ha & bs1 & tl1 & H1 & H2) H3. split; [done|]. exists bs1, tl1. split; [done|].
  rewrite app_assoc. by eapply framed_app.
Qed.

(** A read, of whichever kind. *)
Lemma try_read_cases ses ssl rr ses' ssl' :
  try_read_frames ses ssl = (rr, ses', ssl') ->
  tx ssl' = tx ssl /\ writes ssl' = writes ssl /\
  exists evs bs, rx ssl = evs ++ rx ssl' /\ arrived evs = bs /\
    s_seq ses' = s_seq ses /\ phase ses' = phase ses /\ recv_buf ses' = recv_buf ses ++ bs.
Proof.
  unfold try_read_frames. destruct (rx ssl) as [|[t rd] rest] eqn:E.
  - intros [= <- <- <-]. split_and!; [done..|]. exists [], []. by split_and!; rewrite ?E, ?app_nil_r.
  - unfold read_event. cbn [fst snd]. destruct rd as [bs| |]; intros [= <- <- <-]; (split_and!; [done..|]).
    + exists [(t, Data bs)], bs. split_and!; try done. unfold arrived. cbn. by rewrite app_nil_r.
    + exists [(t, WouldBlock)], []. by split_and!; rewrite ?app_nil_r.
    + exists [(t, Closed)], []. by split_and!; rewrite ?app_nil_r.
Qed.

Lemma short_app (a b : list byte) n : zlen (a ++ b) < n -> zlen a < n /\ zlen b < n.
Proof. unfold zlen. rewrite length_app. lia. Qed.

(** The buffer has no more than what has arrived. *)
Lemma seen_length d1 d2 bs tl : seen d1 d2 bs tl -> (length tl <= length d1 + length d2)%nat.
Proof.
  intros (_ & bs1 & tl1 & H1%framed_len & H2%framed_len). rewrite length_app in H2. lia.
Qed.

Lemma setup_attempts_stage cfg q reads0 tx0 : zlen (arrived reads0) < 2 ^ 32 -> forall m ses ssl hs ses' ssl',
  phase ses = SetupSent -> stage cfg q reads0 tx0 ses ssl ->
  setup_attempts m ses ssl = Some (hs, ses', ssl') ->
  stage cfg q reads0 tx0 ses' ssl' /\ (hs = 0 -> phase ses' = Ready).
Proof.
  intros Hsmall. induction m as [|m IH]; intros ses ssl hs ses' ssl' Hph Hst H; cbn [setup_attempts] in H.
  { by injection H as <- <- <-. }
  destruct Hst as (used & Hu & Hst). rewrite Hph in Hst.
  destruct Hst as (Htx & d1 & d2 & d3 & bs & tl & Hd & Hseen & Hbuf).
  assert (Hlen : zlen (recv_buf ses) < 2 ^ 32).
  { pose proof (seen_length _ _ _ _ Hseen). rewrite Hu, arrived_app, Hd in Hsmall.
    rewrite Hbuf. unfold zlen in *. rewrite !length_app in *. lia. }
  destruct (take_frames ses) as [[bodies ses1]|] eqn:Et; [|done]. cbn [mbind option_bind] in H.
  apply take_frames_inv in Et as (tl' & -> & Hf); [|done]. rewrite Hbuf in Hf.
  pose proof (seen_more _ _ _ _ _ _ _ Hseen Hf) as Hseen'.
  destruct (scan_setup bodies (set_buf tl' ses)) as [ready ses2] eqn:Es. apply scan_setup_spec in Es.
  destruct ready.
  { injection H as <- <- <-. destruct Es as [(Ha & Hb & Hc) Hex]. split; [|done]. exists used. split; [done|].
    rewrite Hb. cbn [phase set_phase]. split; [done|]. exists d1, (d2 ++ d3), (bs ++ bodies), tl'. split_and!; [done | done|].
    apply Exists_app. by right. }
  destruct Es as (Ha & Hb & Hc). cbn [set_buf phase recv_buf] in Hb, Hc.
  destruct (try_read_frames ses2 ssl) as [[rr ses3] ssl3] eqn:Er.
  apply try_read_cases in Er as (Htx3 & _ & evs & bs3 & Hrx & Har & Hs3 & Hp3 & Hb3).
  assert (Hst3 : stage cfg q reads0 tx0 ses3 ssl3).
  { exists (used ++ evs). split; [by rewrite Hu, Hrx, app_assoc|]. rewrite Hp3, Hb, Hph. split; [by rewrite Htx3|].
    exists d1, (d2 ++ d3), bs3, (bs ++ bodies), tl'. split_and!; [|done|by rewrite Hb3, Hc].
    rewrite arrived_app, Hd, Har. by rewrite <- !app_assoc. }
  destruct (rr <? 0).
  { injection H as <- <- <-. split; [|done]. destruct Hst3 as (u & Hu3 & _). exists u. by split. }
  destruct (0 <? rr); [by injection H as <- <- <-|].
  apply IH in H; [done | by rewrite Hp3, Hb | done].
Qed.

Lemma have_login_ack_spec ses :
  zlen (recv_buf ses) < 2 ^ 32 -> le32 (recv_buf ses) 0 < kMaxPayload ->
  have_login_ack ses = true -> acked (recv_buf ses).
Proof.
  intros Hl Hp. unfold have_login_ack, parse_frame_header. pose proof (le32_nonneg (recv_buf ses) 0).
  unfold kMaxPayload in Hp. destruct (Nat.ltb_spec (length (recv_buf ses)) 16); [done|]. cbn [magic payload_len].
  destruct (Z.eqb_spec (le32 (recv_buf ses) 4) kMagicLoginServer); [|done]. cbn [negb].
  rewrite u32_small by lia. rewrite Z.leb_le. done.
Qed.

(** A framed buffer's first header does not wrap. *)
Lemma framed_head data bs tl : framed data bs tl -> (16 <= length data)%nat -> le32 data 0 < kMaxPayload.
Proof.
  intros Hf Hl. inversion Hf as [d [Hp|[Hp _]]|d b r l t Hn _]; subst; [lia | done|].
  apply next_frame_inv in Hn. lia.
Qed.

Lemma default_id_eq cfg ses : default_id cfg ses = match client_id cfg with [] => hex8 (s_seq ses) | id => id end.
Proof. done. Qed.

Lemma login_step_stage cfg q reads0 tx0 ses ssl hs ses' ssl' :
  zlen (arrived reads0) < 2 ^ 32 -> phase ses = LoginSent -> stage cfg q reads0 tx0 ses ssl ->
  handshake_step cfg ses ssl = Some (hs, ses', ssl') ->
  stage cfg q reads0 tx0 ses' ssl' /\ hs <> 0.
Proof.
  intros Hsmall Hph (used & Hu & Hst) H. rewrite Hph in Hst. destruct Hst as (Hbuf & Hseq & Htx).
  unfold handshake_step in H. rewrite Hph in H.
  destruct (try_read_frames ses ssl) as [[rr ses1] ssl1] eqn:Er.
  apply try_read_cases in Er as (Htx1 & _ & evs & bs & Hrx & Har & Hs1 & Hp1 & Hb1).
  assert (Hu1 : reads0 = (used ++ evs) ++ rx ssl1) by (by rewrite Hu, Hrx, app_assoc).
  assert (Hb1' : recv_buf ses1 = arrived (used ++ evs)) by (by rewrite arrived_app, Hb1, Hbuf, Har).
  assert (Hlen : zlen (recv_buf ses1) < 2 ^ 32).
  { rewrite Hb1'. rewrite Hu1, arrived_app in Hsmall. by apply short_app in Hsmall as [? _]. }
  destruct (rr <? 0); [injection H as <- <- <-; split; [exists (used ++ evs); by split | done]|].
  destruct (0 <? rr).
  { injection H as <- <- <-. split; [|done]. exists (used ++ evs). rewrite Hp1, Hph, Htx1, Hs1. done. }
  destruct (have_login_ack ses1) eqn:Eack; cbn [negb] in H.
  2: { injection H as <- <- <-. split; [|done]. destruct (no_ack_alike ses1) as (Ha & Hb & Hc).
       exists (used ++ evs). rewrite Hb, Hp1, Hph, Ha, Hc, Hs1, Htx1. done. }
  destruct (take_frames ses1) as [[bodies ses2]|] eqn:Et; [|done]. cbn [mbind option_bind] in H.
  apply take_frames_inv in Et as (tl & -> & Hf); [|done].
  destruct (send_frame (set_buf tl ses1) ssl1 kMagicCtrlClient (build_setup_json (default_id cfg ses) (client_ver cfg)))
    as [[ok ses3] ssl3] eqn:Esend. destruct ok.
  2: { apply send_frame_rx in Esend as Hrx3.
       injection H as <- <- <-. split; [|done]. exists (used ++ evs). rewrite Hrx3. by split. }
  injection H as <- <- <-. split; [|done]. apply send_frame_ok in Esend as (-> & Ht & Hr & _).
  exists (used ++ evs). rewrite Hr. split; [done|]. cbn [phase set_phase]. split.
  { rewrite Ht, Htx1, Htx, <- app_assoc. cbn [set_buf s_seq]. rewrite Hs1, default_id_eq, Hseq. done. }
  assert (H16 : (16 <= length (recv_buf ses1))%nat).
  { unfold have_login_ack in Eack. by destruct (Nat.ltb_spec (length (recv_buf ses1)) 16). }
  exists (recv_buf ses1), [], [], [], tl. split_and!; [by rewrite !app_nil_r, Hb1' | | by rewrite app_nil_r].
  split; [by apply have_login_ack_spec, Eack; [|eapply framed_head]|].
  exists bodies, tl. split; [done|]. rewrite app_nil_r. by apply framed_end, (framed_partial _ _ _ Hf).
Qed.

Lemma handshake_step_stage cfg q reads0 tx0 ses ssl hs ses' ssl' :
  zlen (arrived reads0) < 2 ^ 32 -> stage cfg q reads0 tx0 ses ssl ->
  handshake_step cfg ses ssl = Some (hs, ses', ssl') ->
  stage cfg q reads0 tx0 ses' ssl' /\ (hs = 0 -> phase ses' = Ready).
Proof.
  intros Hsmall Hst H. destruct (phase ses) eqn:Hph.
  - destruct Hst as (used & Hu & Hst). rewrite Hph in Hst. destruct Hst as (Har & Hbuf & Hseq & Htx).
    unfold handshake_step in H. rewrite Hph in H.
    destruct (send_frame ses ssl kMagicLoginClient (build_login_payload (username cfg) (access_code cfg)))
      as [[ok ses1] ssl1] eqn:Es. pose proof (send_frame_rx _ _ _ _ _ _ _ Es) as Hr. destruct ok.
    + injection H as <- <- <-. split; [|done]. apply send_frame_ok in Es as (-> & Ht & _).
      exists used. rewrite Hr. split; [done|]. cbn. rewrite Hbuf, Har, Hseq, Ht, Htx, Hseq. done.
    + injection H as <- <- <-. split; [|done]. exists used. rewrite Hr. by split.
  - eapply login_step_stage in H; [|done..]. split; [apply H|]. intros ->. by destruct H.
  - rewrite setup_step in H by done. by eapply setup_attempts_stage in H.
  - unfold handshake_step in H. rewrite Hph in H. by injection H as <- <- <-.
  - unfold handshake_step in H. rewrite Hph in H. injection H as <- <- <-. split; [done | lia].
Qed.

(** Whatever arrives, a session that became ready has sent exactly the
    login and the setup, the printer's data began with a complete
    acknowledgement of the login, and a frame that accepts the setup came
    after it. *)
Lemma ready_means_accepted (cfg : Config) (q : Z) (attempts : nat) (ssl : Ssl) (ses' : Session) (ssl' : Ssl) :
  zlen (arrived (rx ssl)) < 2 ^ 32 ->
  handshake_loop attempts cfg (new_session q) ssl = Some (true, ses', ssl') ->
  phase ses' = Ready /\ tx ssl' = tx ssl ++ login_frame cfg q ++ setup_frame cfg (u32 (q + 1)) /\
  exists used d1 d2 bs tl, rx ssl = used ++ rx ssl' /\ arrived used = d1 ++ d2 /\ seen d1 d2 bs tl /\
    Exists (fun b => is_setup_reply b = true) bs.
Proof.
  intros Hsmall H. cut (stage cfg q (rx ssl) (tx ssl) ses' ssl' /\ phase ses' = Ready).
  { intros [(used & Hu & Hst) Hp]. rewrite Hp in Hst. destruct Hst as (Htx & d1 & d2 & bs & tl & Hst).
    split_and!; [done | done|]. by exists used, d1, d2, bs, tl. }
  assert (Hst : stage cfg q (rx ssl) (tx ssl) (new_session q) ssl) by (by exists []).
  revert Hst H. generalize (tx ssl) (new_session q). revert Hsmall. generalize (rx ssl). intros reads0 Hsmall tx0 ses.
  revert ses ssl. induction attempts as [|n IH]; intros ses ssl Hst H; [done|].
  rewrite handshake_loop_S in H. unfold loop_from in H.
  destruct (handshake_step cfg ses ssl) as [[[hs ses1] ssl1]|] eqn:E; [|done]. cbn [mbind option_bind] in H.
  eapply handshake_step_stage in E as [Hst1 Hr]; [|done..].
  destruct (Z.eqb_spec hs 0); [injection H as <- <-; auto|].
  destruct (hs <? 0); [done|]. by apply (IH ses1 ssl1).
Qed.

(** ** A frame that arrives *)

(** The start of a frame. *)
Lemma frame_start (buf more : list byte) mag sq body :
  zlen body < kMaxPayload -> buf ++ more = frame mag sq body -> more <> [] -> framed buf [] buf.
Proof.
  intros Hb E Hm.
  assert (Hf : framed (buf ++ more) [body] []).
  { rewrite E, <- (app_nil_r (frame _ _ _)). eapply framed_next; [by apply next_frame_frame | apply framed_end, partial_nil]. }
  destruct (framed_prefix _ _ _ _ Hf) as (bs1 & tl1 & bs2 & H1 & H2 & Eb).
  destruct bs1 as [|b bs1]; [by inversion H1; subst|]. exfalso. injection Eb as <- [-> ->]%symmetry%app_eq_nil.
  inversion H1 as [|d b r l t Hn Hr]; subst. inversion Hr; subst. apply next_frame_rest in Hn as [_ Hl].
  apply (f_equal length) in E. unfold frame in E. rewrite !length_app, length_frame_header in E.
  destruct more; [done | simpl in E; lia].
Qed.

(** What a receive leaves alone. *)
Definition kept (ses ses' : Session) (ssl ssl' : Ssl) : Prop :=
  s_seq ses' = s_seq ses /\ phase ses' = phase ses /\ tx ssl' = tx ssl /\ writes ssl' = writes ssl.

Lemma kept_trans a b c x y z : kept a b x y -> kept b c y z -> kept a c x z.
Proof. unfold kept. intros (-> & -> & -> & ->) ?. done. Qed.

Lemma recv_loop_frame body mag sq rest :
  zlen body < kMaxPayload -> forall g ses ssl,
  alive g -> rx ssl = g ++ rest -> recv_buf ses ++ arrived g = frame mag sq body -> arrived g <> [] ->
  exists rc ses' ssl', recv_loop (g ++ rest) None ses ssl = Some (rc, ses', ssl') /\ kept ses ses' ssl ssl' /\
    ((rc = Payload body /\ recv_buf ses' = [] /\
      exists g', rx ssl' = g' ++ rest /\ arrived g' = [] /\ alive g' /\ (length g' < length g)%nat) \/
     (rc = Again /\
      exists g', rx ssl' = g' ++ rest /\ arrived g' <> [] /\ alive g' /\ (length g' < length g)%nat /\
                 recv_buf ses' ++ arrived g' = frame mag sq body)).
Proof.
  intros Hb. induction g as [|[t rd] g IH]; intros ses ssl Hal Hrx E Hne; [done|].
  apply Forall_cons in Hal as [Hd Hal]. pose proof (frame_start _ _ _ _ _ Hb E Hne) as Hf.
  cbn [app recv_loop]. rewrite (take_frames_framed _ _ _ Hf), set_buf_id. cbn [mbind option_bind].
  unfold read_event. cbn [fst snd].
  set (ssl1 := {| rx := g ++ rest; writes := writes ssl; tx := tx ssl; now := Z.max (now ssl) t |}).
  destruct rd as [bs| |]; [| |done].
  - cbn [Z.ltb Z.compare]. set (ses1 := got_bytes bs ses).
    assert (E1 : recv_buf ses1 ++ arrived g = frame mag sq body) by (rewrite <- E; apply symmetry, app_assoc).
    destruct (decide (arrived g = [])) as [Hg|Hg].
    + rewrite Hg, app_nil_r in E1.
      assert (Hf1 : framed (recv_buf ses1) [body] []).
      { rewrite E1, <- (app_nil_r (frame _ _ _)). eapply framed_next; [by apply next_frame_frame | apply framed_end, partial_nil]. }
      exists (Payload body), (set_buf [] ses1), ssl1. split; [|split; [done|]].
      * destruct (g ++ rest); cbn [recv_loop]; by rewrite (take_frames_framed _ _ _ Hf1).
      * left. split_and!; [done | done|]. exists g. split_and!; [done | done | done | simpl; lia].
    + destruct (IH ses1 ssl1) as (rc & ses' & ssl' & Er & Hk & Hc); [done..|].
      exists rc, ses', ssl'. rewrite Er. split; [done|]. split; [exact Hk|].
      destruct Hc as [(-> & Hbuf & g' & H1 & H2 & H3 & H4)|(-> & g' & H1 & H2 & H3 & H4 & H5)]; [left|right];
        (split_and!; [done..|]); exists g'; split_and!; (done || simpl; lia).
  - cbn [Z.ltb Z.compare]. exists Again, ses, ssl1. split; [done|]. split; [done|]. right. split; [done|].
    exists g. split_and!; [done | done | done | simpl; lia | done].
Qed.

(** ** What receiving leaves alone, whatever arrives *)

Lemma kept_refl ses ssl : kept ses ses ssl ssl.
Proof. done. Qed.

Lemma take_frames_kept ses bs ses' ssl : take_frames ses = Some (bs, ses') -> kept ses ses' ssl ssl.
Proof.
  unfold take_frames. destruct (consume_frames (recv_buf ses)) as [[bs' n]|]; [|done].
  cbn [mbind option_bind]. by intros [= <- <-].
Qed.

Lemma drain_kept ses msgs ses' ssl : drain_pending_wire_json ses = Some (msgs, ses') -> kept ses ses' ssl ssl.
Proof.
  unfold drain_pending_wire_json. destruct (take_pending_wire_json (recv_buf ses)) as [[m b]|]; [|done].
  cbn [mbind option_bind]. by intros [= <- <-].
Qed.

Lemma recv_loop_kept reads deadline : forall ses ssl rc ses' ssl',
  recv_loop reads deadline ses ssl = Some (rc, ses', ssl') -> kept ses ses' ssl ssl'.
Proof.
  induction reads as [|[t rd] reads IH]; intros ses ssl rc ses' ssl' H; cbn [recv_loop] in H;
    (destruct (take_frames ses) as [[bs ses1]|] eqn:E; [|done]); cbn [mbind option_bind] in H;
    apply (take_frames_kept _ _ _ ssl) in E; (destruct bs as [|b bs]; [|by injection H as <- <- <-]);
    (destruct (match deadline with Some d => _ | None => _ end); [by injection H as <- <- <-|]);
    [by injection H as <- <- <-|].
  unfold read_event in H. cbn [fst snd] in H. destruct rd as [bs| |]; cbn [Z.ltb Z.compare] in H.
  - apply IH in H. eapply kept_trans; [exact E|]. exact H.
  - by injection H as <- <- <-.
  - by injection H as <- <- <-.
Qed.

(** ** A concrete handshake *)

Definition demo_cfg : Config :=
  {| username := str "bblp"; access_code := str "12345678"; client_id := []; client_ver := str "1.0" |}.
Definition demo_ack : list byte := frame kMagicLoginServer 1 (str "ok").
Definition demo_reply : list byte :=
  str "{" ++ [quote] ++ str "mtype" ++ [quote] ++ str ":12291," ++ [quote] ++ str "result" ++ [quote] ++ str ":0}".
Definition demo_r1 : list (Z * Read) := [(0, Data (take 5 demo_ack)); (1, WouldBlock); (2, Data (drop 5 demo_ack))].
Definition demo_r2 : list (Z * Read) :=
  [(3, Data (frame kMagicCtrlClient 2 (str "hello") ++ take 20 (frame kMagicCtrlClient 3 demo_reply)));
   (4, Data (drop 20 (frame kMagicCtrlClient 3 demo_reply)))].
Definition demo_ssl : Ssl :=
  {| rx := demo_r1 ++ demo_r2; writes := [Takes 3; Wants true]; tx := []; now := 0 |}.

Definition demo_end : option (bool * Session * Ssl) := handshake_loop 64 demo_cfg (new_session 5) demo_ssl.
Definition demo_ses' : Session := match demo_end with Some (_, s, _) => s | None => new_session 0 end.
Definition demo_ssl' : Ssl := match demo_end with Some (_, _, l) => l | None => demo_ssl end.

Lemma demo_framed : framed (arrived demo_r2) [str "hello"; demo_reply] [].
Proof.
  replace (arrived demo_r2) with (frames [(kMagicCtrlClient, 2, str "hello"); (kMagicCtrlClient, 3, demo_reply)] ++ [])
    by (vm_compute; reflexivity).
  apply (framed_frames [(kMagicCtrlClient, 2, str "hello"); (kMagicCtrlClient, 3, demo_reply)] []);
    [repeat constructor | apply partial_nil].
Qed.

Lemma tunnel_ready_witness :
  exists ses' ssl', handshake_loop 64 demo_cfg (new_session 5) demo_ssl = Some (true, ses', ssl') /\
    phase ses' = Ready /\ tx ssl' = tx demo_ssl ++ login_frame demo_cfg 5 ++ setup_frame demo_cfg (u32 (5 + 1)).
Proof.
  apply (tunnel_ready demo_cfg 5 demo_ssl demo_r1 demo_r2 1 (str "ok") [str "hello"] [] demo_reply []).
  - done.
  - repeat constructor; done.
  - repeat constructor; done.
  - repeat constructor.
  - cbn. lia.
  - done.
  - vm_compute. reflexivity.
  - exact demo_framed.
  - repeat constructor.
  - vm_compute. reflexivity.
Defined.

Lemma ready_means_accepted_witness :
  phase demo_ses' = Ready /\ tx demo_ssl' = tx demo_ssl ++ login_frame demo_cfg 5 ++ setup_frame demo_cfg (u32 (5 + 1)) /\
  exists used d1 d2 bs tl, rx demo_ssl = used ++ rx demo_ssl' /\ arrived used = d1 ++ d2 /\ seen d1 d2 bs tl /\
    Exists (fun b => is_setup_reply b = true) bs.
Proof.
  apply (ready_means_accepted demo_cfg 5 64 demo_ssl demo_ses' demo_ssl').
  - vm_compute. reflexivity.
  - vm_compute. reflexivity.
Defined.
