(* ===== verification/TunnelUpload.v ===== *)
(** Transfers over the local tunnel ([src/tunnel_upload.cpp]): the requests that
    wait for their reply, the chunked upload, the download and the read of an
    archive member. The MD5 digest is a parameter; the local file is its
    bytes. *)

From S2P Require Import Prelude OMap Text Double Json Tls Tunnel TunnelSession.

#[local] Delimit Scope string_scope with string.

(** What a call comes to: a result; it waits for data that never comes; or it
    copies from beyond its buffer. *)
Inductive call (A : Type) := Returns (a : A) | Waits | Overreads.
Arguments Returns {A}. Arguments Waits {A}. Arguments Overreads {A}.

#[export] Instance call_bind : MBind call := fun A B f c =>
  match c with Returns a => f a | Waits => Waits | Overreads => Overreads end.
#[export] Instance call_ret : MRet call := fun A a => Returns a.

Definition lift {A} (o : option A) : call A := match o with Some a => Returns a | None => Overreads end.

(** [error]: a text of the code, or that of OpenSSL. *)
Inductive Error := NoError | Msg (text : cstr) | SslError.

(** ** Waiting for a reply *)

(** The loop around [recv_payload] of a blocking receive; every turn but the
    last consumes a read. *)
Fixpoint next_payload_fuel (fuel : nat) (ses : Session) (ssl : Ssl) : call (option (list byte) * Session * Ssl) :=
  match fuel with
  | O => Waits
  | S fuel =>
      '(rc, ses, ssl) ← lift (recv_payload ses ssl);
      match rc with
      | Payload body => Returns (Some body, ses, ssl)
      | RecvError => Returns (None, ses, ssl)
      | Deadline => Returns (None, ses, ssl)
      | Again => match rx ssl with [] => Waits | _ => next_payload_fuel fuel ses ssl end
      end
  end.

Definition next_payload (ses : Session) (ssl : Ssl) : call (option (list byte) * Session * Ssl) :=
  next_payload_fuel (S (length (rx ssl))) ses ssl.

(** The JSON and the binary data of a body, as every receiver takes them. *)
Definition body_parts (body : list byte) : cstr * list byte :=
  match split_json_prefix body with Some parts => parts | None => (body, []) end.

Definition recv_json_payload (ses : Session) (ssl : Ssl) : call (option cstr * Session * Ssl) :=
  '(r, ses, ssl) ← next_payload ses ssl;
  Returns (match r with Some body => Some (body_parts body).1 | None => None end, ses, ssl).

Definition try_accept (want_cmdtype want_seq : Z) (json : cstr) : bool :=
  (parse_wire_cmdtype json =? want_cmdtype)
  && ((want_seq =? 0) || (u32 (parse_wire_sequence json) =? want_seq)).

Fixpoint recv_skipping (max_skips : nat) (want_cmdtype want_seq : Z) (ses : Session) (ssl : Ssl)
  : call (option cstr * Session * Ssl) :=
  match max_skips with
  | O => Returns (None, ses, ssl)
  | S max_skips =>
      '(r, ses, ssl) ← recv_json_payload ses ssl;
      match r with
      | None => Returns (None, ses, ssl)
      | Some json =>
          if try_accept want_cmdtype want_seq json then Returns (Some json, ses, ssl)
          else recv_skipping max_skips want_cmdtype want_seq ses ssl
      end
  end.

Fixpoint first_accepted (want_cmdtype want_seq : Z) (pending : list cstr) : option cstr :=
  match pending with
  | [] => None
  | json :: pending =>
      if try_accept want_cmdtype want_seq json then Some json else first_accepted want_cmdtype want_seq pending
  end.

Definition recv_wire_json (want_cmdtype want_seq : Z) (ses : Session) (ssl : Ssl)
  : call (option cstr * Session * Ssl) :=
  '(pending, ses) ← lift (drain_pending_wire_json ses);
  match first_accepted want_cmdtype want_seq pending with
  | Some json => Returns (Some json, ses, ssl)
  | None => recv_skipping 32 want_cmdtype want_seq ses ssl
  end.

Definition drain_stale_wire_json (ses : Session) : call Session :=
  '(_, ses) ← lift (drain_pending_wire_json ses); Returns ses.

(** ** Upload *)

Section upload.

(** [md5_finalize_lower] of a context that was given these bytes. *)
Variable md5_lower_of : list byte -> cstr.

Record UploadRequest := { dest_storage : cstr; dest_name : cstr; local_path : cstr }.
Record UploadOutcome := { ok : bool; bytes : Z; md5_lower : cstr; wire_result : Z; error : Error }.

Definition fail_upload (e : Error) : UploadOutcome :=
  {| ok := false; bytes := 0; md5_lower := []; wire_result := 0; error := e |}.
Definition fail_result (r : Z) (e : Error) : UploadOutcome :=
  {| ok := false; bytes := 0; md5_lower := []; wire_result := r; error := e |}.

(** [std::ifstream]: the position and whether reads still succeed. *)
Record Stream := { pos : nat; good : bool }.

Definition stream_read (file : list byte) (st : Stream) (want : nat) : list byte * Stream :=
  if negb (good st) then ([], st)
  else
    let got := sub (pos st) want file in
    (got, {| pos := pos st + length got; good := (want <=? length got)%nat |}).

(** The resume prefix: what has been hashed, or a read error. *)
Fixpoint hash_prefix (fuel : nat) (file : list byte) (st : Stream) (offset buffer_size : Z) (hashed : list byte)
  : option (list byte) :=
  match fuel with
  | O => None
  | S fuel =>
      if zlen hashed <? offset then
        let want := Z.to_nat (Z.min (offset - zlen hashed) buffer_size) in
        let '(got, st) := stream_read file st want in
        match got with
        | [] => None
        | _ => hash_prefix fuel file st offset buffer_size (hashed ++ got)
        end
      else Some hashed
  end.

(** The state of the chunk loop. *)
Record Chunks := { c_offset : Z; c_frag : Z; c_hashed : list byte; c_stream : Stream; c_digest : cstr; c_pct : Z }.

(** One turn: the error that ends the loop, the next state and the progress
    to report. [cancelled] is what the callback returns at its turn. *)
Definition chunk_step (file : list byte) (seq buffer_size : Z) (cancelled : Z -> bool)
    (c : Chunks) (ses : Session) (ssl : Ssl) : call (option Error * Chunks * list Z * Session * Ssl) :=
  let fsize := zlen file in
  if cancelled (c_frag c) then Returns (Some (Msg (str "cancelled")), c, [], ses, ssl)
  else
    let want := Z.to_nat (Z.min (fsize - c_offset c) buffer_size) in
    let '(got, st) := stream_read file (c_stream c) want in
    match got with
    | [] => Returns (Some (Msg (str "read error")), c, [], ses, ssl)
    | _ =>
        let hashed := c_hashed c ++ got in
        let last_chunk := fsize <=? c_offset c + zlen got in
        let digest := if last_chunk then md5_lower_of hashed else c_digest c in
        if last_chunk && match digest with [] => true | _ => false end
        then Returns (Some (Msg (str "md5 finalize failed")), c, [], ses, ssl)
        else
          let file_md5 := if last_chunk then digest else [] in
          let abi := build_file_upload_chunk_abi seq (c_frag c) (c_offset c) (zlen got) file_md5 in
          '(sent_ok, ses, ssl) ← lift (send_abi_json_with_binary ses ssl abi got false);
          if negb sent_ok then Returns (Some SslError, c, [], ses, ssl)
          else
            let offset := c_offset c + zlen got in
            let pct := offset * 100 / fsize in
            Returns (None, {| c_offset := offset; c_frag := u32 (c_frag c + 1); c_hashed := hashed; c_stream := st;
                              c_digest := digest; c_pct := pct |},
                     if pct =? c_pct c then [] else [pct], ses, ssl)
    end.

(** The loop: every turn sends a byte or more. *)
Fixpoint send_chunks (fuel : nat) (file : list byte) (seq buffer_size : Z) (cancelled : Z -> bool)
    (c : Chunks) (ses : Session) (ssl : Ssl) : call (option Error * Chunks * list Z * Session * Ssl) :=
  match fuel with
  | O => Returns (None, c, [], ses, ssl)
  | S fuel =>
      if c_offset c <? zlen file then
        '(e, c, pct, ses, ssl) ← chunk_step file seq buffer_size cancelled c ses ssl;
        match e with
        | Some e => Returns (Some e, c, pct, ses, ssl)
        | None =>
            '(e, c, pcts, ses, ssl) ← send_chunks fuel file seq buffer_size cancelled c ses ssl;
            Returns (e, c, pct ++ pcts, ses, ssl)
        end
      else Returns (None, c, [], ses, ssl)
  end.

(** The final replies: up to 32, while they say that more follow. *)
Fixpoint final_result (attempts : nat) (seq result_code : Z) (ses : Session) (ssl : Ssl)
  : call (option Z * Session * Ssl) :=
  match attempts with
  | O => Returns (Some result_code, ses, ssl)
  | S attempts =>
      '(r, ses, ssl) ← recv_wire_json kCmdFileUpload seq ses ssl;
      match r with
      | None => Returns (None, ses, ssl)
      | Some wire_json =>
          let result_code := parse_wire_result wire_json in
          if result_code =? 1 then final_result attempts seq result_code ses ssl
          else Returns (Some result_code, ses, ssl)
      end
  end.

(** [file]: the bytes of the local file, if it opens. The list is what the
    progress callback is given. *)
Definition run_chunked_upload (file : option (list byte)) (seq : Z) (req : UploadRequest) (cancelled : Z -> bool)
    (ses : Session) (ssl : Ssl) : call (UploadOutcome * list Z * Session * Ssl) :=
  match dest_storage req, dest_name req, local_path req with
  | [], _, _ | _, [], _ | _, _, [] => Returns (fail_upload (Msg (str "missing upload fields")), [], ses, ssl)
  | _, _, _ =>
      match file with
      | None => Returns (fail_upload (Msg (str "cannot open local file")), [], ses, ssl)
      | Some file =>
          let fsize := zlen file in
          ses ← drain_stale_wire_json ses;
          let '(sent_ok, ses, ssl) :=
            send_abi_json ses ssl (build_file_upload_init_abi seq (dest_storage req) (dest_name req) fsize) in
          if negb sent_ok then Returns (fail_upload SslError, [], ses, ssl)
          else
            '(r, ses, ssl) ← recv_wire_json kCmdFileUpload seq ses ssl;
            match r with
            | None => Returns (fail_upload SslError, [], ses, ssl)
            | Some wire_json =>
                match parse_upload_init_reply wire_json with
                | (None, rc) => Returns (fail_result rc (Msg (str "bad upload init reply")), [], ses, ssl)
                | (Some (chunk_size_kb, offset), _) =>
                    let buffer_size := chunk_size_kb * 1024 in
                    match hash_prefix (S (length file)) file {| pos := 0; good := true |} offset buffer_size [] with
                    | None => Returns (fail_upload (Msg (str "read error hashing resume prefix")), [], ses, ssl)
                    | Some hashed =>
                        let c := {| c_offset := offset; c_frag := 0; c_hashed := hashed;
                                    c_stream := {| pos := Z.to_nat offset; good := true |}; c_digest := [];
                                    c_pct := -1 |} in
                        '(e, c, pcts, ses, ssl) ← send_chunks (length file) file seq buffer_size cancelled c ses ssl;
                        match e with
                        | Some e => Returns (fail_upload e, pcts, ses, ssl)
                        | None =>
                            '(r, ses, ssl) ← final_result 32 seq (-1) ses ssl;
                            match r with
                            | None => Returns (fail_upload SslError, pcts, ses, ssl)
                            | Some rc =>
                                let good_end := (rc =? 0) || (rc =? 19) in
                                Returns ({| ok := good_end; bytes := fsize; md5_lower := c_digest c; wire_result := rc;
                                            error := if good_end then NoError
                                                     else Msg (str "upload failed wire result=" ++ dec rc) |},
                                         if good_end then pcts ++ [100] else pcts, ses, ssl)
                            end
                        end
                    end
                end
            end
      end
  end.
End upload.

(** ** Download *)

Record DownloadOutcome := {
  d_ok : bool; d_data : list byte; d_wire_result : Z; d_error : Error; d_json_body : cstr
}.

Definition reply_has_mem_dl_param (wire_json : cstr) : bool :=
  match parsed wire_json with
  | None => false
  | Some root =>
      let reply := find root (str "reply") in
      if negb (is_object reply) then false
      else
        match find reply (str "mem_dl_param_size") with
        | Number d => SFltb (of_int 0) d
        | _ => false
        end
  end.

Definition fail_download (data : list byte) (r : Z) (e : Error) : DownloadOutcome :=
  {| d_ok := false; d_data := data; d_wire_result := r; d_error := e; d_json_body := [] |}.

(** The loop over the frames. [cancelled]: what the callback returns at each
    turn. Every turn consumes a read or a frame that was there before. *)
Fixpoint download_loop (fuel : nat) (cancelled : nat -> bool) (frames : nat) (data : list byte) (last_result : Z)
    (ses : Session) (ssl : Ssl) : call (DownloadOutcome * Session * Ssl) :=
  match fuel with
  | O => Waits
  | S fuel =>
      if cancelled frames then Returns (fail_download data last_result (Msg (str "cancelled")), ses, ssl)
      else
        '(r, ses, ssl) ← next_payload ses ssl;
        match r with
        | None => Returns (fail_download data last_result SslError, ses, ssl)
        | Some body =>
            let '(wire_json, chunk) := body_parts body in
            let result := parse_wire_result wire_json in
            let data := if reply_has_mem_dl_param wire_json then data else data ++ chunk in
            if result =? 1 then download_loop fuel cancelled (S frames) data result ses ssl
            else if result =? 0 then
              let reply := parse_wire_reply_json wire_json in
              Returns ({| d_ok := true; d_data := data; d_wire_result := result; d_error := NoError;
                          d_json_body := match reply with [] => wire_json | _ => reply end |}, ses, ssl)
            else Returns (fail_download data result (Msg (str "download failed wire result=" ++ dec result)), ses, ssl)
        end
  end.

Definition run_download (seq : Z) (path target_path : cstr) (cancelled : nat -> bool) (ses : Session) (ssl : Ssl)
  : call (DownloadOutcome * Session * Ssl) :=
  match path with
  | [] => Returns (fail_download [] 0 (Msg (str "missing download path")), ses, ssl)
  | _ =>
      ses ← drain_stale_wire_json ses;
      let '(sent_ok, ses, ssl) := send_abi_json ses ssl (build_file_download_abi seq path 0 target_path) in
      if negb sent_ok then Returns (fail_download [] 0 SslError, ses, ssl)
      else download_loop (S (length (rx ssl))) cancelled 0 [] 0 ses ssl
  end.

(** ** Listings *)

Record ModelFileEntry := { f_name : cstr; f_path : cstr; f_time : Z }.
Record ListInfoOutcome := { l_ok : bool; l_files : list ModelFileEntry; l_wire_result : Z; l_error : Error }.

Definition list_entry (item : Value) : list ModelFileEntry :=
  if is_object item then
    match as_string (find item (str "path")) with
    | [] => []
    | path => [{| f_name := as_string (find item (str "name")); f_path := path;
                  f_time := as_int 0 (find item (str "time")) |}]
    end
  else [].

Definition fail_list (r : Z) (e : Error) : ListInfoOutcome :=
  {| l_ok := false; l_files := []; l_wire_result := r; l_error := e |}.

Definition read_listing (wire_json : cstr) : ListInfoOutcome :=
  let r := parse_wire_result wire_json in
  if negb (r =? 0) then fail_list r (Msg (str "list_info wire result=" ++ dec r))
  else
    match parse wire_json with
    | Err perr => fail_list r (Msg (match perr with [] => str "list_info parse failed" | _ => perr end))
    | Fuel => fail_list r NoError
    | Ok root _ =>
        let lists := find root (str "reply.file_lists") in
        if negb (is_array lists) then fail_list r (Msg (str "list_info missing file_lists"))
        else {| l_ok := true; l_files := concat (map list_entry (as_array lists)); l_wire_result := r;
                l_error := NoError |}
    end.

Definition run_list_info (seq : Z) (storage : cstr) (ses : Session) (ssl : Ssl)
  : call (ListInfoOutcome * Session * Ssl) :=
  ses ← drain_stale_wire_json ses;
  let '(sent_ok, ses, ssl) := send_abi_json ses ssl (build_list_info_abi seq (str "model") storage) in
  if negb sent_ok then Returns (fail_list 0 SslError, ses, ssl)
  else
    '(r, ses, ssl) ← recv_wire_json kCmdListInfo seq ses ssl;
    Returns (match r with
             | None => fail_list 0 (Msg (str "list_info reply timeout"))
             | Some wire_json => read_listing wire_json
             end, ses, ssl).

(** ** Archive members *)

Record SubFileOutcome := { sf_ok : bool; sf_data : list byte; sf_wire_result : Z; sf_error : Error; sf_timed_out : bool }.

Definition kPngMagic : list byte := map zb [0x89; 0x50; 0x4e; 0x47; 0x0d; 0x0a; 0x1a; 0x0a].

Definition wire_chunk_is_image (chunk : list byte) : bool :=
  starts_with kPngMagic chunk || ((2 <=? length chunk)%nat && (zat chunk 0 =? 0xff) && (zat chunk 1 =? 0xd8)).

Fixpoint index_of (path : cstr) (paths : list cstr) : nat :=
  match paths with
  | [] => 0
  | p :: paths => if bool_decide (p = path) then 0 else S (index_of path paths)
  end.

Definition sub_file_reply_rank (wire_json : cstr) (paths : list cstr) : nat :=
  match parsed wire_json with
  | None => length paths
  | Some root => index_of (as_string (find root (str "reply.path"))) paths
  end.

Definition for_request (cmdtype seq : Z) (wire_json : cstr) : bool :=
  (parse_wire_cmdtype wire_json =? cmdtype) && (u32 (parse_wire_sequence wire_json) =? seq).

(** The image kept so far and its rank, after a frame of the request. *)
Definition better_image (paths : list cstr) (wire_json : cstr) (chunk data : list byte) (best_rank : nat)
  : list byte * nat :=
  match chunk with
  | [] => (data, best_rank)
  | _ =>
      if wire_chunk_is_image chunk then
        let rank := sub_file_reply_rank wire_json paths in
        if match data with [] => true | _ => (rank <? best_rank)%nat end then (chunk, rank) else (data, best_rank)
      else (data, best_rank)
  end.

Definition sub_file_end (ok : bool) (data : list byte) (r : Z) (e : Error) : SubFileOutcome :=
  {| sf_ok := ok; sf_data := data; sf_wire_result := r; sf_error := e; sf_timed_out := false |}.

Fixpoint sub_file_loop (fuel : nat) (seq : Z) (paths : list cstr) (data : list byte) (best_rank : nat) (r : Z)
    (ses : Session) (ssl : Ssl) : call (SubFileOutcome * Session * Ssl) :=
  match fuel with
  | O => Waits
  | S fuel =>
      '(p, ses, ssl) ← next_payload ses ssl;
      match p with
      | None => Returns (sub_file_end false data r SslError, ses, ssl)
      | Some body =>
          let '(wire_json, chunk) := body_parts body in
          if for_request kCmdSubFile seq wire_json then
            let '(data, best_rank) := better_image paths wire_json chunk data best_rank in
            let r := parse_wire_result wire_json in
            if r =? 1 then sub_file_loop fuel seq paths data best_rank r ses ssl
            else
              Returns (match data with
                       | [] => sub_file_end false data r
                                 (Msg (if r =? 0 then str "sub_file empty payload"
                                       else str "sub_file failed wire result=" ++ dec r))
                       | _ => sub_file_end true data r NoError
                       end, ses, ssl)
          else sub_file_loop fuel seq paths data best_rank r ses ssl
      end
  end.

Definition run_sub_file (seq : Z) (paths : list cstr) (storage : cstr) (ses : Session) (ssl : Ssl)
  : call (SubFileOutcome * Session * Ssl) :=
  match paths with
  | [] => Returns (sub_file_end false [] 0 (Msg (str "missing sub_file paths")), ses, ssl)
  | _ =>
      ses ← drain_stale_wire_json ses;
      let '(sent_ok, ses, ssl) := send_abi_json ses ssl (build_sub_file_abi seq paths storage) in
      if negb sent_ok then Returns (sub_file_end false [] 0 SslError, ses, ssl)
      else sub_file_loop (S (length (rx ssl))) seq paths [] 0 0 ses ssl
  end.

(** ** Receiving what a printer sends *)

(** Reads that carry one frame with this body. *)
Definition carries (reads : list (Z * Read)) (body : list byte) : Prop :=
  alive reads /\ zlen body < kMaxPayload /\ exists mag sq, arrived reads = frame mag sq body.

Lemma frame_nonempty mag sq body : frame mag sq body <> [].
Proof. done. Qed.

Lemma next_payload_fuel_frame body mag sq rest :
  zlen body < kMaxPayload -> forall fuel g ses ssl,
  alive g -> rx ssl = g ++ rest -> recv_buf ses ++ arrived g = frame mag sq body -> arrived g <> [] ->
  (length g <= fuel)%nat ->
  exists g' ses' ssl', next_payload_fuel fuel ses ssl = Returns (Some body, ses', ssl') /\ kept ses ses' ssl ssl' /\
    recv_buf ses' = [] /\ rx ssl' = g' ++ rest /\ arrived g' = [] /\ alive g'.
Proof.
  intros Hb. induction fuel as [|fuel IH]; intros g ses ssl Hal Hrx E Hne Hf.
  { destruct g; [done | simpl in Hf; lia]. }
  cbn [next_payload_fuel]. unfold recv_payload, recv_payload_until. rewrite Hrx.
  destruct (recv_loop_frame body mag sq rest Hb g ses ssl Hal Hrx E Hne)
    as (rc & ses1 & ssl1 & -> & Hk & [(-> & Hbuf & g' & H1 & H2 & H3 & H4)|(-> & g' & H1 & H2 & H3 & H4 & H5)]);
    cbn [lift mbind call_bind].
  - exists g', ses1, ssl1. split_and!; done.
  - assert (Hn : rx ssl1 <> []) by (rewrite H1; by destruct g').
    destruct (IH g' ses1 ssl1) as (g2 & ses2 & ssl2 & Er & Hk2 & H); [done..|lia|].
    exists g2, ses2, ssl2. destruct (rx ssl1); [done|]. rewrite Er.
    split; [done|]. split; [by eapply kept_trans | done].
Qed.

(** The state of a receiver between frames: [g] has no data. *)
Definition between (ses : Session) (ssl : Ssl) (rest : list (Z * Read)) : Prop :=
  recv_buf ses = [] /\ exists g, rx ssl = g ++ rest /\ arrived g = [] /\ alive g.

Lemma next_payload_carries body r rest ses ssl :
  carries r body -> between ses ssl (r ++ rest) ->
  exists ses' ssl', next_payload ses ssl = Returns (Some body, ses', ssl') /\ kept ses ses' ssl ssl' /\
                    between ses' ssl' rest.
Proof.
  intros (Hal & Hb & mag & sq & E) (Hbuf & g & Hrx & Har & Hg).
  destruct (next_payload_fuel_frame body mag sq rest Hb (S (length (rx ssl))) (g ++ r) ses ssl)
    as (g' & ses' & ssl' & Er & Hk & H1 & H2 & H3 & H4).
  - by apply Forall_app.
  - by rewrite Hrx, app_assoc.
  - by rewrite Hbuf, arrived_app, Har.
  - rewrite arrived_app, Har, E. apply frame_nonempty.
  - rewrite Hrx, !length_app. lia.
  - exists ses', ssl'. split; [exact Er|]. split; [done|]. split; [done|]. by exists g'.
Qed.

Lemma between_drained ses ssl rest :
  between ses ssl rest -> drain_pending_wire_json ses = Some ([], ses).
Proof.
  intros [Hbuf _]. unfold drain_pending_wire_json. rewrite Hbuf. cbn. f_equal. f_equal.
  rewrite <- Hbuf. apply set_buf_id.
Qed.

Lemma between_start ses ssl : recv_buf ses = [] -> between ses ssl (rx ssl).
Proof. intros H. split; [done|]. exists []. split_and!; [done | done | constructor]. Qed.

Lemma between_kept ses ses' ssl ssl' rest :
  recv_buf ses' = recv_buf ses -> rx ssl' = rx ssl -> between ses ssl rest -> between ses' ssl' rest.
Proof. intros H1 H2 [H3 (g & H4 & H5)]. split; [by rewrite H1|]. exists g. by rewrite H2. Qed.

(** A reply for this request is taken. *)
Lemma recv_wire_json_carries body r rest cmd seq ses ssl :
  carries r body -> try_accept cmd seq (body_parts body).1 = true -> between ses ssl (r ++ rest) ->
  exists ses' ssl', recv_wire_json cmd seq ses ssl = Returns (Some (body_parts body).1, ses', ssl') /\
    kept ses ses' ssl ssl' /\ between ses' ssl' rest.
Proof.
  intros Hc Ha Hbt. unfold recv_wire_json. rewrite (between_drained _ _ _ Hbt).
  cbn [lift mbind call_bind first_accepted]. change 32%nat with (S 31). cbn [recv_skipping]. unfold recv_json_payload.
  destruct (next_payload_carries body r rest ses ssl Hc Hbt) as (ses' & ssl' & -> & Hk & Hbt').
  cbn [mbind call_bind]. rewrite Ha. by exists ses', ssl'.
Qed.

(** ** The download *)

(** The data a frame adds to the download. *)
Definition download_part (body : list byte) : list byte :=
  let '(wire_json, chunk) := body_parts body in if reply_has_mem_dl_param wire_json then [] else chunk.

Definition body_result (body : list byte) : Z := parse_wire_result (body_parts body).1.

(** Frames, each with the reads that carry it. *)
Definition delivered (parts : list (list (Z * Read) * list byte)) : Prop :=
  Forall (fun p => carries p.1 p.2) parts.
Definition delivery (parts : list (list (Z * Read) * list byte)) : list (Z * Read) := concat (map fst parts).

Lemma delivered_length parts : delivered parts -> (length parts <= length (delivery parts))%nat.
Proof.
  unfold delivery. induction 1 as [|[r b] parts (_ & _ & mag & sq & E) _ IH]; [done|]. cbn [map concat fst snd] in *.
  rewrite length_app. destruct r as [|e r]; [|simpl; lia]. by pose proof (frame_nonempty mag sq b).
Qed.

Lemma download_loop_parts last_r last_b : forall parts fuel n data r ses ssl,
  delivered (parts ++ [(last_r, last_b)]) -> Forall (fun p => body_result p.2 = 1) parts -> body_result last_b = 0 ->
  between ses ssl (delivery (parts ++ [(last_r, last_b)])) -> (length parts < fuel)%nat ->
  exists out ses' ssl', download_loop fuel (fun _ => false) n data r ses ssl = Returns (out, ses', ssl') /\
    d_ok out = true /\ d_data out = data ++ concat (map download_part (map snd parts ++ [last_b])) /\
    d_wire_result out = 0 /\ kept ses ses' ssl ssl'.
Proof.
  induction parts as [|[r1 b1] parts IH]; intros fuel n data r ses ssl Hd Hr Hl Hb Hf;
    (destruct fuel as [|fuel]; [simpl in Hf; lia|]); cbn [download_loop app map snd concat] in *;
    unfold delivery in Hb; cbn [map concat fst] in Hb; apply Forall_cons in Hd as [Hc Hd]; cbn [fst snd] in Hc;
    edestruct (next_payload_carries _ _ _ _ _ Hc Hb) as (ses1 & ssl1 & -> & Hk & Hb1); cbn [mbind call_bind].
  - unfold body_result in Hl. unfold download_part. destruct (body_parts last_b) as [wire_json chunk]. cbn [fst] in Hl.
    rewrite Hl. cbn [Z.eqb]. do 3 eexists. split; [reflexivity|]. cbn [d_ok d_data d_wire_result].
    split_and!; try done. rewrite app_nil_r. destruct (reply_has_mem_dl_param wire_json); by rewrite ?app_nil_r.
  - apply Forall_cons in Hr as [Hr1 Hr]. cbn [snd] in Hr1. unfold body_result in Hr1.
    unfold download_part at 1. destruct (body_parts b1) as [wire_json chunk]. cbn [fst] in Hr1. rewrite Hr1. cbn [Z.eqb Pos.eqb].
    edestruct (IH fuel (S n)) as (out & ses2 & ssl2 & -> & H1 & H2 & H3 & Hk2); [done..|simpl in Hf; lia|].
    exists out, ses2, ssl2. split_and!; [done | done | | done | by eapply kept_trans].
    rewrite H2. destruct (reply_has_mem_dl_param wire_json); by rewrite <- ?app_assoc.
Qed.

(** A download whose frames come in separate reads, each split in any way,
    returns the data of the frames in order, and asks with one frame. *)
Lemma download_assembles (seq : Z) (path target_path : cstr) (ses : Session) (ssl : Ssl)
    (parts : list (list (Z * Read) * list byte)) (last_r : list (Z * Read)) (last_b : list byte) :
  path <> [] -> accepting (writes ssl) -> recv_buf ses = [] ->
  rx ssl = delivery (parts ++ [(last_r, last_b)]) -> delivered (parts ++ [(last_r, last_b)]) ->
  Forall (fun p => body_result p.2 = 1) parts -> body_result last_b = 0 ->
  exists out ses' ssl', run_download seq path target_path (fun _ => false) ses ssl = Returns (out, ses', ssl') /\
    d_ok out = true /\ d_data out = concat (map download_part (map snd parts ++ [last_b])) /\
    tx ssl' = tx ssl ++ frame kMagicCtrlClient (s_seq ses) (wrap_ctrl_abi (build_file_download_abi seq path 0 target_path)).
Proof.
  intros Hp Hacc Hbuf Hrx Hd Hr Hl. unfold run_download. destruct path as [|c path]; [done|].
  set (p := c :: path). pose proof (between_start ses ssl Hbuf) as Hbt.
  unfold drain_stale_wire_json. rewrite (between_drained _ _ _ Hbt). cbn [lift mbind call_bind]. unfold send_abi_json.
  destruct (send_frame_accepting ses ssl kMagicCtrlClient (wrap_ctrl_abi (build_file_download_abi seq p 0 target_path)) Hacc)
    as (ssl1 & -> & (Ht & Hr1 & _) & _). cbn [negb].
  edestruct (download_loop_parts last_r last_b parts (S (length (rx ssl1))) 0 [] 0 (next_seq ses) ssl1)
    as (out & ses' & ssl' & -> & H1 & H2 & _ & (_ & _ & H3 & _)); [done..| | |].
  - rewrite <- Hrx, <- Hr1. by apply between_start.
  - rewrite Hr1, Hrx. pose proof (delivered_length _ Hd) as Hle. rewrite length_app in Hle. simpl in Hle. lia.
  - exists out, ses', ssl'. split_and!; [done | done | done |]. by rewrite H3, Ht.
Qed.

(** ** The upload, as the printer reads it *)

(** What a printer that checks everything makes of the chunks: the file so
    far, the fragment it expects, and the digest it was told. *)
Record Stored := { st_data : list byte; st_next : Z; st_md5 : cstr }.

Definition store_chunk (seq : Z) (st : option Stored) (body : list byte) : option Stored :=
  st ← st;
  '(json, bin) ← split_json_prefix body;
  v ← parsed json;
  let field k := as_int (-1) (find v (str k)) in
  if (field "mtype"%string =? kMtypeCtrlJson) && (field "cmdtype"%string =? kCmdFileUpload)
     && (field "sequence"%string =? seq) && (field "frag_id"%string =? st_next st)
     && (field "req.offset"%string =? zlen (st_data st)) && (field "req.size"%string =? zlen bin) && (0 <? zlen bin)
  then Some {| st_data := st_data st ++ bin; st_next := st_next st + 1;
               st_md5 := as_string (find v (str "req.file_md5")) |}
  else None.

(** Bodies sent one after the other, with the numbers of their frames. *)
Fixpoint numbered (q : Z) (bodies : list (list byte)) : list (Z * Z * list byte) :=
  match bodies with
  | [] => []
  | b :: bodies => (kMagicCtrlClient, q, b) :: numbered (u32 (q + 1)) bodies
  end.

Lemma frames_cons f fs : frames (f :: fs) = frame f.1.1 f.1.2 f.2 ++ frames fs.
Proof. done. Qed.

Lemma send_bin_ok ses ssl abi bin ses' ssl' :
  bin <> [] -> send_abi_json_with_binary ses ssl abi bin false = Some (true, ses', ssl') ->
  ses' = next_seq ses /\ sent ssl ssl' (frame kMagicCtrlClient (s_seq ses) (wrap_ctrl_abi_with_binary abi bin)).
Proof.
  intros Hb. unfold send_abi_json_with_binary, send_abi_json_with_binary_stream. destruct bin as [|b bin]; [done|].
  set (d := b :: bin). change (0 <? length d)%nat with true. rewrite Nat.ltb_irrefl. cbn [andb].
  rewrite take_ge by lia. change (wrap_ctrl_abi abi ++ kSep ++ d) with (wrap_ctrl_abi_with_binary abi d).
  destruct (send_frame ses ssl kMagicCtrlClient (wrap_ctrl_abi_with_binary abi d)) as [[ok ses1] ssl1] eqn:E.
  destruct ok; cbn [negb mbind option_bind]; [|done]. intros [= <- <-]. by apply send_frame_ok in E.
Qed.

Lemma send_bin_accepting ses ssl abi bin :
  bin <> [] -> accepting (writes ssl) ->
  exists ssl', send_abi_json_with_binary ses ssl abi bin false = Some (true, next_seq ses, ssl') /\
               accepting (writes ssl').
Proof.
  intros Hb Hacc. unfold send_abi_json_with_binary, send_abi_json_with_binary_stream. destruct bin as [|b bin]; [done|].
  set (d := b :: bin). change (0 <? length d)%nat with true. rewrite Nat.ltb_irrefl. cbn [andb].
  destruct (send_frame_accepting ses ssl kMagicCtrlClient (wrap_ctrl_abi abi ++ kSep ++ take (length d) d) Hacc)
    as (ssl1 & -> & _ & Ha). cbn [negb mbind option_bind]. by exists ssl1.
Qed.

Section upload_facts.
Context (md5_lower_of : list byte -> cstr).

(** The state of the loop after [k] bytes of the file. *)
Definition at_byte (file : list byte) (k : nat) (c : Chunks) : Prop :=
  (k <= length file)%nat /\ c_offset c = Z.of_nat k /\ c_hashed c = take k file /\
  c_stream c = {| pos := k; good := true |} /\ ((k < length file)%nat -> 0 <= c_frag c /\ c_frag c * 1024 <= Z.of_nat k).

(** The next chunk of the file. *)
Definition chunk_len (file : list byte) (buffer_size : Z) (k : nat) : nat :=
  Z.to_nat (Z.min (zlen file - Z.of_nat k) buffer_size).

Definition chunk_body (file : list byte) (seq buffer_size : Z) (c : Chunks) (k : nat) : list byte :=
  let n := chunk_len file buffer_size k in
  wrap_ctrl_abi_with_binary
    (build_file_upload_chunk_abi seq (c_frag c) (Z.of_nat k) (Z.of_nat n)
       (if (k + n =? length file)%nat then md5_lower_of file else [])) (sub k n file).

Lemma stream_read_in file k want :
  (k + want <= length file)%nat ->
  stream_read file {| pos := k; good := true |} want = (sub k want file, {| pos := k + want; good := true |}).
Proof.
  intros H. unfold stream_read. cbn [good negb pos]. rewrite length_sub by lia.
  by rewrite (proj2 (Nat.leb_le _ _)) by lia.
Qed.

Lemma take_sub {A} (l : list A) k n : take k l ++ sub k n l = take (k + n) l.
Proof. unfold sub. rewrite take_take_drop. f_equal. Qed.

(** What a turn does before it sends. *)
Lemma chunk_step_eq file seq buffer_size cancelled c k ses ssl :
  at_byte file k c -> (k < length file)%nat -> 1024 <= buffer_size -> cancelled (c_frag c) = false ->
  md5_lower_of file <> [] ->
  let n := chunk_len file buffer_size k in
  (0 < n)%nat /\ (k + n <= length file)%nat /\ ((k + n < length file)%nat -> 1024 <= Z.of_nat n) /\
  exists c', at_byte file (k + n) c' /\ c_frag c' = u32 (c_frag c + 1) /\
    c_digest c' = (if (k + n =? length file)%nat then md5_lower_of file else c_digest c) /\
  chunk_step md5_lower_of file seq buffer_size cancelled c ses ssl =
    ('(sent_ok, ses, ssl) ← lift (send_abi_json_with_binary ses ssl
        (build_file_upload_chunk_abi seq (c_frag c) (Z.of_nat k) (Z.of_nat n)
           (if (k + n =? length file)%nat then md5_lower_of file else [])) (sub k n file) false);
     if negb sent_ok then Returns (Some SslError, c, [], ses, ssl)
     else Returns (None, c', if c_pct c' =? c_pct c then [] else [c_pct c'], ses, ssl)).
Proof.
  intros (Hk & Hoff & Hh & Hst & Hfr) Hlt Hbs Hc Hmd5 n.
  assert (Hn : (0 < n)%nat /\ (k + n <= length file)%nat /\ ((k + n < length file)%nat -> 1024 <= Z.of_nat n)).
  { subst n. unfold chunk_len, zlen. lia. }
  destruct Hn as (H0 & Hle & Hbig). split_and!; [done..|].
  unfold chunk_step. rewrite Hc, Hoff, Hst. change (Z.to_nat (Z.min (zlen file - Z.of_nat k) buffer_size)) with n.
  rewrite stream_read_in by done. set (got := sub k n file).
  assert (Hgot : length got = n) by (subst got; apply length_sub; lia).
  assert (Hz : zlen got = Z.of_nat n) by (unfold zlen; by rewrite Hgot).
  rewrite Hh, Hz. subst got. rewrite take_sub.
  assert (Hlast : (zlen file <=? Z.of_nat k + Z.of_nat n) = (k + n =? length file)%nat).
  { unfold zlen. destruct (Z.leb_spec (Z.of_nat (length file)) (Z.of_nat k + Z.of_nat n)), (Nat.eqb_spec (k + n) (length file)); lia || done. }
  rewrite Hlast. set (digest := if (k + n =? length file)%nat then md5_lower_of (take (k + n) file) else c_digest c).
  assert (Hdig : digest = if (k + n =? length file)%nat then md5_lower_of file else c_digest c).
  { subst digest. destruct (Nat.eqb_spec (k + n) (length file)) as [->|]; [by rewrite take_ge by lia | done]. }
  exists {| c_offset := Z.of_nat k + Z.of_nat n; c_frag := u32 (c_frag c + 1); c_hashed := take (k + n) file;
            c_stream := {| pos := k + n; good := true |}; c_digest := digest;
            c_pct := (Z.of_nat k + Z.of_nat n) * 100 / zlen file |}.
  split; [|split; [done|split; [done|]]].
  - unfold at_byte. cbn [c_offset c_hashed c_stream c_frag]. split_and!; [done | lia | done | done|].
    intros Hlt2. specialize (Hbig Hlt2). destruct (Hfr Hlt) as [Hf1 Hf2]. unfold u32.
    pose proof (Z.mod_pos_bound (c_frag c + 1) (2 ^ 32) ltac:(lia)).
    pose proof (Z.mod_le (c_frag c + 1) (2 ^ 32) ltac:(lia) ltac:(lia)). lia.
  - assert (Hne : sub k n file <> []).
    { intros E. apply (f_equal length) in E. rewrite length_sub in E by lia. simpl in E. lia. }
    destruct (sub k n file) as [|b got] eqn:Eg; [done|].
    clearbody digest. destruct (k + n =? length file)%nat; cbn [andb]; subst digest; [|done].
    by destruct (md5_lower_of file).
Qed.

Lemma store_chunk_body file seq buffer_size c k s :
  at_byte file k c -> (k < length file)%nat -> 1024 <= buffer_size -> zlen file < 2 ^ 41 -> 0 <= seq < 2 ^ 32 ->
  st_data s = take k file -> st_next s = c_frag c ->
  let n := chunk_len file buffer_size k in
  store_chunk seq (Some s) (chunk_body file seq buffer_size c k) =
  Some {| st_data := take (k + n) file; st_next := c_frag c + 1;
          st_md5 := if (k + n =? length file)%nat then md5_lower_of file else [] |}.
Proof.
  intros (Hk & Hoff & Hh & Hst & Hfr) Hlt Hbs Hsmall Hseq Hd Hn n. destruct (Hfr Hlt) as [Hf1 Hf2].
  unfold zlen in Hsmall. assert (Hle : (k + n <= length file)%nat) by (subst n; unfold chunk_len, zlen; lia).
  unfold chunk_body. fold n. set (md5 := if (k + n =? length file)%nat then _ else _).
  destruct (read_chunk seq (c_frag c) (Z.of_nat k) (Z.of_nat n) md5 (sub k n file))
    as (json & v & E1 & E2 & F1 & F2 & F3 & F4 & F5 & F6 & F7); [lia..|].
  unfold store_chunk. cbn [mbind option_bind]. rewrite E1. cbn [mbind option_bind]. rewrite E2. cbn [mbind option_bind].
  rewrite F1, F2, F3, F4, F5, F6, F7, Hd, Hn.
  assert (Hz1 : zlen (take k file) = Z.of_nat k) by (unfold zlen; rewrite length_take; lia).
  assert (Hz2 : zlen (sub k n file) = Z.of_nat n) by (unfold zlen; by rewrite length_sub by lia).
  assert (Hpos : (0 <? Z.of_nat n) = true) by (apply Z.ltb_lt; subst n; unfold chunk_len, zlen in *; lia).
  rewrite Hz1, Hz2, !Z.eqb_refl, Hpos. cbn [andb]. rewrite take_sub. do 2 f_equal. by destruct md5.
Qed.

(** Bodies a printer can store from the byte [k] on. *)
Definition stores (file : list byte) (seq : Z) (k : nat) (frag : Z) (bodies : list (list byte)) : Prop :=
  forall s, st_data s = take k file -> st_next s = frag ->
  exists s', foldl (store_chunk seq) (Some s) bodies = Some s' /\ st_data s' = file /\
    ((k < length file)%nat -> st_md5 s' = md5_lower_of file) /\ ((length file <= k)%nat -> st_md5 s' = st_md5 s).

Context (md5_text : forall d, md5_lower_of d <> []).

Lemma u32_frag file k c : at_byte file k c -> (k < length file)%nat -> zlen file < 2 ^ 41 -> u32 (c_frag c + 1) = c_frag c + 1.
Proof.
  intros (Hk & _ & _ & _ & Hfr) Hlt Hs. destruct (Hfr Hlt) as [H1 H2]. unfold zlen in Hs. apply u32_small. lia.
Qed.

Lemma stores_cons file seq buffer_size c c' k bodies :
  at_byte file k c -> (k < length file)%nat -> 1024 <= buffer_size -> zlen file < 2 ^ 41 -> 0 <= seq < 2 ^ 32 ->
  c_frag c' = u32 (c_frag c + 1) -> stores file seq (k + chunk_len file buffer_size k) (c_frag c') bodies ->
  stores file seq k (c_frag c) (chunk_body file seq buffer_size c k :: bodies).
Proof.
  intros Hat Hlt Hbs Hsmall Hseq Hfr Hst s Hd Hn. cbn [foldl].
  rewrite (store_chunk_body file seq buffer_size c k s) by done.
  set (s1 := {| st_data := _; st_next := _; st_md5 := _ |}).
  destruct (Hst s1) as (s' & E & H1 & H2 & H3); [done | by rewrite Hfr, (u32_frag file k) by done|].
  exists s'. rewrite E. split_and!; [done | done | | lia]. intros _.
  assert (Hle : (k + chunk_len file buffer_size k <= length file)%nat) by (unfold chunk_len, zlen; lia).
  destruct (decide (k + chunk_len file buffer_size k < length file)%nat) as [Hl|Hl]; [by apply H2|].
  rewrite H3 by lia. subst s1. cbn [st_md5].
  by rewrite (proj2 (Nat.eqb_eq _ _)) by lia.
Qed.

(** The chunks from the byte [k] on have been sent. *)
Definition chunks_sent (file : list byte) (seq : Z) (k : nat) (c : Chunks) (ses : Session) (ssl : Ssl)
    (c' : Chunks) (ses' : Session) (ssl' : Ssl) : Prop :=
  exists bodies, tx ssl' = tx ssl ++ frames (numbered (s_seq ses) bodies) /\ rx ssl' = rx ssl /\
    recv_buf ses' = recv_buf ses /\ stores file seq k (c_frag c) bodies /\
    c_digest c' = (if (k <? length file)%nat then md5_lower_of file else c_digest c).

Lemma chunks_sent_end file seq k c ses ssl :
  (length file <= k)%nat -> chunks_sent file seq k c ses ssl c ses ssl.
Proof.
  intros Hge. exists []. rewrite (proj2 (Nat.ltb_ge _ _)) by done. split_and!; [by rewrite app_nil_r | done | done | | done].
  intros s Hd Hn. exists s. rewrite take_ge in Hd by done. split_and!; [done | done | lia | done].
Qed.

(** Whatever the connection does: when the loop ends without an error, what
    it sent are chunks the printer can store. *)
Lemma send_chunks_sent file seq buffer_size cancelled :
  1024 <= buffer_size -> zlen file < 2 ^ 41 -> 0 <= seq < 2 ^ 32 -> forall fuel k c ses ssl c' pcts ses' ssl',
  at_byte file k c -> (length file - k <= fuel)%nat ->
  send_chunks md5_lower_of fuel file seq buffer_size cancelled c ses ssl = Returns (None, c', pcts, ses', ssl') ->
  chunks_sent file seq k c ses ssl c' ses' ssl'.
Proof.
  intros Hbs Hsmall Hseq. induction fuel as [|fuel IH]; intros k c ses ssl c' pcts ses' ssl' Hat Hf H.
  { injection H as <- <- <- <-. apply chunks_sent_end. lia. }
  cbn [send_chunks] in H. pose proof Hat as (Hk & Hoff & _). rewrite Hoff in H. unfold zlen in H at 1.
  destruct (Z.ltb_spec (Z.of_nat k) (Z.of_nat (length file))) as [Hlt|Hge];
    [|injection H as <- <- <- <-; apply chunks_sent_end; lia].
  destruct (cancelled (c_frag c)) eqn:Ec.
  { unfold chunk_step in H. rewrite Ec in H. cbn [mbind call_bind] in H. done. }
  destruct (chunk_step_eq file seq buffer_size cancelled c k ses ssl Hat ltac:(lia) Hbs Ec (md5_text file))
    as (H0 & Hle & Hbig & c1 & Hat1 & Hfr1 & Hdig1 & Estep).
  rewrite Estep in H. clear Estep. set (n := chunk_len file buffer_size k) in *.
  set (abi := build_file_upload_chunk_abi _ _ _ _ _) in H.
  destruct (send_abi_json_with_binary ses ssl abi (sub k n file) false) as [[[ok ses1] ssl1]|] eqn:Esend;
    cbn [lift mbind call_bind] in H; [|done]. destruct ok; cbn [negb mbind call_bind] in H; [|done].
  assert (Hne : sub k n file <> []).
  { intros E. apply (f_equal length) in E. rewrite length_sub in E by lia. simpl in E. lia. }
  apply send_bin_ok in Esend as (-> & Ht & Hr & _); [|done].
  destruct (send_chunks md5_lower_of fuel file seq buffer_size cancelled c1 (next_seq ses) ssl1)
    as [[[[[e2 c2] pcts2] ses2] ssl2]| |] eqn:E2; cbn [mbind call_bind] in H; [|done..].
  injection H as -> -> <- -> ->.
  destruct (IH (k + n)%nat c1 (next_seq ses) ssl1 c' pcts2 ses' ssl' Hat1 ltac:(lia) E2)
    as (bodies & Ht2 & Hr2 & Hb2 & Hs2 & Hd2).
  exists (chunk_body file seq buffer_size c k :: bodies). split_and!.
  - cbn [numbered]. rewrite frames_cons. cbn [fst snd]. rewrite Ht2, Ht, <- app_assoc. done.
  - by rewrite Hr2, Hr.
  - by rewrite Hb2.
  - eapply stores_cons; [exact Hat | lia | done | done | done | exact Hfr1 | exact Hs2].
  - rewrite Hd2, Hdig1, (proj2 (Nat.ltb_lt k _)) by lia.
    destruct (Nat.ltb_spec (k + n) (length file)); [done|]. by rewrite (proj2 (Nat.eqb_eq _ _)) by lia.
Qed.

(** On a connection that takes everything the loop ends without an error. *)
Lemma send_chunks_done file seq buffer_size :
  1024 <= buffer_size -> forall fuel k c ses ssl,
  at_byte file k c -> (length file - k <= fuel)%nat -> accepting (writes ssl) ->
  exists c' pcts ses' ssl',
    send_chunks md5_lower_of fuel file seq buffer_size (fun _ => false) c ses ssl = Returns (None, c', pcts, ses', ssl').
Proof.
  intros Hbs. induction fuel as [|fuel IH]; intros k c ses ssl Hat Hf Hacc; cbn [send_chunks]; [by do 4 eexists|].
  destruct (Z.ltb_spec (c_offset c) (zlen file)) as [Hlt|Hge]; [|by do 4 eexists].
  assert (Hlt' : (k < length file)%nat) by (destruct Hat as (_ & Hoff & _); unfold zlen in Hlt; lia).
  destruct (chunk_step_eq file seq buffer_size (fun _ => false) c k ses ssl Hat Hlt' Hbs eq_refl (md5_text file))
    as (H0 & Hle & Hbig & c1 & Hat1 & Hfr1 & Hdig1 & Estep).
  rewrite Estep. set (n := chunk_len file buffer_size k) in *.
  assert (Hne : sub k n file <> []).
  { intros E. apply (f_equal length) in E. rewrite length_sub in E by lia. simpl in E. lia. }
  edestruct (send_bin_accepting ses ssl) as (ssl1 & -> & Ha1); [exact Hne | exact Hacc|].
  cbn [lift mbind call_bind negb].
  destruct (IH (k + n)%nat c1 (next_seq ses) ssl1 Hat1 ltac:(lia) Ha1) as (c' & pcts & ses' & ssl' & ->).
  cbn [mbind call_bind]. by do 4 eexists.
Qed.
End upload_facts.

Lemma lift_inv {A} (o : option A) a : lift o = Returns a -> o = Some a.
Proof. destruct o; [by intros [= ->] | done]. Qed.

Lemma bind_inv {A B} (c : call A) (f : A -> call B) b : c ≫= f = Returns b -> exists a, c = Returns a /\ f a = Returns b.
Proof. destruct c as [a| |]; [|done..]. intros H. by exists a. Qed.

Lemma next_payload_kept fuel : forall ses ssl r ses' ssl',
  next_payload_fuel fuel ses ssl = Returns (r, ses', ssl') -> kept ses ses' ssl ssl'.
Proof.
  induction fuel as [|fuel IH]; intros ses ssl r ses' ssl' H; [done|]. cbn [next_payload_fuel] in H.
  apply bind_inv in H as ([[rc ses1] ssl1] & E%lift_inv & H). apply recv_loop_kept in E.
  destruct rc; try (by injection H as <- <- <-). destruct (rx ssl1) eqn:Er; [done|].
  apply IH in H. by eapply kept_trans.
Qed.

Lemma recv_skipping_kept n cmd seq : forall ses ssl r ses' ssl',
  recv_skipping n cmd seq ses ssl = Returns (r, ses', ssl') -> kept ses ses' ssl ssl'.
Proof.
  induction n as [|n IH]; intros ses ssl r ses' ssl' H; cbn [recv_skipping] in H; [by injection H as <- <- <-|].
  apply bind_inv in H as ([[j ses1] ssl1] & E & H). unfold recv_json_payload in E.
  apply bind_inv in E as ([[p ses2] ssl2] & E & Ep). apply next_payload_kept in E. injection Ep as <- <- <-.
  destruct p as [body|]; [|by injection H as <- <- <-].
  destruct (try_accept cmd seq _); [by injection H as <- <- <-|]. apply IH in H. by eapply kept_trans.
Qed.

Lemma recv_wire_json_kept cmd seq ses ssl r ses' ssl' :
  recv_wire_json cmd seq ses ssl = Returns (r, ses', ssl') -> kept ses ses' ssl ssl'.
Proof.
  intros H. unfold recv_wire_json in H. apply bind_inv in H as ([pend ses1] & E%lift_inv & H).
  apply (drain_kept _ _ _ ssl) in E. destruct (first_accepted cmd seq pend); [by injection H as <- <- <-|].
  apply recv_skipping_kept in H. by eapply kept_trans.
Qed.

Lemma drain_stale_kept ses ses' ssl : drain_stale_wire_json ses = Returns ses' -> kept ses ses' ssl ssl.
Proof.
  intros H. apply bind_inv in H as ([pend ses1] & E%lift_inv & H). injection H as <-. by eapply drain_kept.
Qed.

Lemma final_result_kept n seq : forall rc ses ssl r ses' ssl',
  final_result n seq rc ses ssl = Returns (r, ses', ssl') -> kept ses ses' ssl ssl'.
Proof.
  induction n as [|n IH]; intros rc ses ssl r ses' ssl' H; cbn [final_result] in H; [by injection H as <- <- <-|].
  apply bind_inv in H as ([[j ses1] ssl1] & E & H). apply recv_wire_json_kept in E.
  destruct j as [json|]; [|by injection H as <- <- <-].
  destruct (parse_wire_result json =? 1); [|by injection H as <- <- <-]. apply IH in H. by eapply kept_trans.
Qed.

(** ** The resume prefix *)

Lemma hash_prefix_bad fuel file p offset buffer_size hashed :
  zlen hashed < offset -> hash_prefix fuel file {| pos := p; good := false |} offset buffer_size hashed = None.
Proof.
  intros H. destruct fuel as [|fuel]; [done|]. cbn [hash_prefix]. by rewrite (proj2 (Z.ltb_lt _ _)).
Qed.

Lemma hash_prefix_spec file offset buffer_size : 0 < buffer_size -> forall fuel k,
  (k <= length file)%nat -> Z.of_nat k <= offset -> (length file - k < fuel)%nat ->
  hash_prefix fuel file {| pos := k; good := true |} offset buffer_size (take k file) =
  if offset <=? zlen file then Some (take (Z.to_nat offset) file) else None.
Proof.
  intros Hb. induction fuel as [|fuel IH]; intros k Hk Ho Hf; [lia|]. cbn [hash_prefix].
  assert (Hz : zlen (take k file) = Z.of_nat k) by (unfold zlen; rewrite length_take; lia). rewrite Hz.
  destruct (Z.ltb_spec (Z.of_nat k) offset) as [Hlt|Hge].
  2: { unfold zlen. rewrite (proj2 (Z.leb_le _ _)) by lia. do 2 f_equal. lia. }
  set (want := Z.to_nat (Z.min (offset - Z.of_nat k) buffer_size)).
  assert (Hw : (0 < want)%nat) by (subst want; lia).
  unfold stream_read. cbn [good negb pos]. destruct (decide (k + want <= length file)%nat) as [Hin|Hout].
  - rewrite length_sub by lia. rewrite (proj2 (Nat.leb_le _ _)) by lia.
    destruct (sub k want file) as [|b got] eqn:Eg; [apply (f_equal length) in Eg; rewrite length_sub in Eg by lia; simpl in Eg; lia|].
    rewrite <- Eg, take_sub. apply IH; subst want; lia.
  - assert (Hs : sub k want file = drop k file) by (unfold sub; rewrite take_ge; [done | rewrite length_drop; lia]).
    rewrite Hs. assert (Ho' : zlen file < offset) by (subst want; unfold zlen; lia).
    rewrite (proj2 (Z.leb_gt _ _)) by lia.
    destruct (drop k file) as [|b got] eqn:Eg; [done|]. rewrite <- Eg, take_drop, length_drop.
    rewrite (proj2 (Nat.leb_gt _ _)) by lia. by apply hash_prefix_bad.
Qed.

Lemma init_reply_bounds json kb offset rc :
  parse_upload_init_reply json = (Some (kb, offset), rc) -> 1 <= kb <= kMaxChunkSizeKb /\ 0 <= offset.
Proof.
  unfold parse_upload_init_reply. destruct (_ && _); [done|]. destruct (parsed json) as [root|]; [|done].
  destruct (negb (is_object _)); [done|]. set (k := as_int 0 (find _ (str "chunk_size"))).
  set (o := as_int 0 (find _ (str "offset"))).
  destruct (Z.leb_spec k 0); [done|]. destruct (Z.ltb_spec kMaxChunkSizeKb k); [done|]. cbn [orb].
  destruct (Z.ltb_spec o 0); [done|]. intros [= <- <- _]. lia.
Qed.

Section upload_theorems.
Context (md5_lower_of : list byte -> cstr) (md5_text : forall d, md5_lower_of d <> []).

(** What a successful upload has sent when the printer asked for the file from
    [offset] on: the request, and then chunks, none of them empty, that a checking
    printer which has the first [offset] bytes stores as the whole file. *)
Definition uploaded (file : list byte) (seq : Z) (req : UploadRequest) (offset : nat) (ses : Session) (ssl : Ssl)
    (out : UploadOutcome) (ssl' : Ssl) : Prop :=
  (offset <= length file)%nat /\
  (exists bodies,
    tx ssl' = tx ssl ++ frame kMagicCtrlClient (s_seq ses)
                          (wrap_ctrl_abi (build_file_upload_init_abi seq (dest_storage req) (dest_name req) (zlen file)))
                     ++ frames (numbered (u32 (s_seq ses + 1)) bodies) /\
    exists s', foldl (store_chunk seq) (Some {| st_data := take offset file; st_next := 0; st_md5 := [] |}) bodies = Some s' /\
               st_data s' = file /\ ((offset < length file)%nat -> st_md5 s' = md5_lower_of file)) /\
  bytes out = zlen file /\ ((offset < length file)%nat -> md5_lower out = md5_lower_of file) /\
  (wire_result out = 0 \/ wire_result out = 19).

(** The reply that follows the request for [file] has the number [offset] as the
    member offset of its reply. *)
Definition asked_from (file : list byte) (seq : Z) (req : UploadRequest) (ses : Session) (ssl : Ssl) (offset : Z) : Prop :=
  exists ses1 ses2 ssl2 json ses3 ssl3 root,
    drain_stale_wire_json ses = Returns ses1 /\
    send_abi_json ses1 ssl (build_file_upload_init_abi seq (dest_storage req) (dest_name req) (zlen file)) = (true, ses2, ssl2) /\
    recv_wire_json kCmdFileUpload seq ses2 ssl2 = Returns (Some json, ses3, ssl3) /\
    parsed json = Some root /\ as_int 0 (find (find root (str "reply")) (str "offset")) = offset /\ 0 <= offset.

Lemma init_reply_offset json kb offset rc :
  parse_upload_init_reply json = (Some (kb, offset), rc) ->
  exists root, parsed json = Some root /\ as_int 0 (find (find root (str "reply")) (str "offset")) = offset.
Proof.
  unfold parse_upload_init_reply. destruct (_ && _); [done|]. destruct (parsed json) as [root|]; [|done].
  destruct (negb (is_object _)); [done|]. destruct (_ || _); [done|]. destruct (_ <? 0); [done|]. intros [= _ <- _]. by exists root.
Qed.

Lemma start_at_byte file offset hashed buffer_size :
  0 < buffer_size -> 0 <= offset ->
  hash_prefix (S (length file)) file {| pos := 0; good := true |} offset buffer_size [] = Some hashed ->
  at_byte file (Z.to_nat offset)
    {| c_offset := offset; c_frag := 0; c_hashed := hashed; c_stream := {| pos := Z.to_nat offset; good := true |};
       c_digest := []; c_pct := -1 |}.
Proof.
  intros Hb Ho H. pose proof (hash_prefix_spec file offset buffer_size Hb (S (length file)) 0) as Hp.
  rewrite take_0, H in Hp. specialize (Hp ltac:(lia) ltac:(lia) ltac:(lia)). clear H. rename Hp into H.
  destruct (Z.leb_spec offset (zlen file)) as [Hle|]; [|done]. injection H as ->.
  unfold zlen in Hle. unfold at_byte. cbn [c_offset c_hashed c_stream c_frag]. split_and!; [lia | lia | done | done | lia].
Qed.

Lemma upload_sent (file : list byte) (seq : Z) (req : UploadRequest) (cancelled : Z -> bool)
    (ses : Session) (ssl : Ssl) (out : UploadOutcome) (pcts : list Z) (ses' : Session) (ssl' : Ssl) :
  zlen file < 2 ^ 41 -> 0 <= seq < 2 ^ 32 ->
  run_chunked_upload md5_lower_of (Some file) seq req cancelled ses ssl = Returns (out, pcts, ses', ssl') ->
  ok out = true -> exists offset, asked_from file seq req ses ssl offset /\ uploaded file seq req (Z.to_nat offset) ses ssl out ssl'.
Proof.
  intros Hsmall Hseq H Hok. unfold run_chunked_upload in H.
  destruct (dest_storage req) as [|d1 ds] eqn:Eds; [injection H as <- _ _ _; done|].
  destruct (dest_name req) as [|n1 dn] eqn:Edn; [injection H as <- _ _ _; done|].
  destruct (local_path req) as [|p1 lp]; [injection H as <- _ _ _; done|]. rewrite <- Eds, <- Edn in H. clear Eds Edn.
  apply bind_inv in H as (ses1 & E1 & H). apply (drain_stale_kept _ _ ssl) in E1 as Hk1. destruct Hk1 as (Hq1 & _ & _ & _).
  destruct (send_abi_json ses1 ssl _) as [[ok2 ses2] ssl2] eqn:E2.
  destruct ok2; cbn [negb] in H; [|injection H as <- _ _ _; done]. apply send_frame_ok in E2 as Hs2. destruct Hs2 as (-> & Ht2 & _).
  apply bind_inv in H as ([[j ses3] ssl3] & E3 & H). apply recv_wire_json_kept in E3 as Hk3. destruct Hk3 as (Hq3 & _ & Ht3 & _).
  destruct j as [json|]; [|injection H as <- _ _ _; done].
  destruct (parse_upload_init_reply json) as [[[kb offset]|] rc] eqn:Er; [|injection H as <- _ _ _; done].
  apply init_reply_offset in Er as Hroot. destruct Hroot as (root & Hr & Hro). apply init_reply_bounds in Er as [Hkb Hoff].
  destruct (hash_prefix _ _ _ _ _ _) as [hashed|] eqn:Eh; [|injection H as <- _ _ _; done].
  apply start_at_byte in Eh; [|lia|done]. set (c0 := {| c_offset := offset; c_frag := 0; c_hashed := hashed; c_stream := _; c_digest := []; c_pct := -1 |}) in *.
  apply bind_inv in H as ([[[[e c4] pcts4] ses4] ssl4] & E4 & H).
  destruct e as [e|]; [injection H as <- _ _ _; done|].
  apply (send_chunks_sent md5_lower_of md5_text file seq (kb * 1024) cancelled ltac:(lia) Hsmall Hseq _ (Z.to_nat offset)) in E4; [|done|lia].
  destruct E4 as (bodies & Ht4 & _ & _ & Hst & Hdig).
  apply bind_inv in H as ([[r ses5] ssl5] & E5 & H). apply final_result_kept in E5 as (_ & _ & Ht5 & _).
  destruct r as [rc'|]; injection H as <- _ _ <-; [|done]. cbn [ok] in Hok.
  destruct (Hst {| st_data := take (Z.to_nat offset) file; st_next := 0; st_md5 := [] |}) as (s' & Es & Hs1 & Hs2 & _); [done..|].
  exists offset. split; [by exists ses1, (next_seq ses1), ssl2, json, ses3, ssl3, root|]. destruct Eh as [Hle _]. split; [done|].
  split; [exists bodies; split; [|by exists s']|split_and!; [done | |]].
  - rewrite Ht5, Ht4, Ht3, Ht2, Hq3, <- app_assoc. cbn [next_seq set_seq s_seq]. by rewrite Hq1.
  - intros Hlt. cbn [md5_lower]. rewrite Hdig. by rewrite (proj2 (Nat.ltb_lt _ _)) by lia.
  - cbn [wire_result]. apply orb_prop in Hok as [Hz%Z.eqb_eq|Hz%Z.eqb_eq]; auto.
Qed.
Lemma final_result_parts seq last_r last_b : forall parts n rc ses ssl,
  delivered (parts ++ [(last_r, last_b)]) ->
  Forall (fun p => try_accept kCmdFileUpload seq (body_parts p.2).1 = true /\ body_result p.2 = 1) parts ->
  try_accept kCmdFileUpload seq (body_parts last_b).1 = true -> body_result last_b <> 1 ->
  between ses ssl (delivery (parts ++ [(last_r, last_b)])) -> (length parts < n)%nat ->
  exists ses' ssl', final_result n seq rc ses ssl = Returns (Some (body_result last_b), ses', ssl').
Proof.
  induction parts as [|[r1 b1] parts IH]; intros n rc ses ssl Hd Hp Ha Hl Hb Hn;
    (destruct n as [|n]; [simpl in Hn; lia|]); cbn [final_result app] in *; unfold delivery in Hb; cbn [map concat fst] in Hb;
    apply Forall_cons in Hd as [Hc Hd]; cbn [fst snd] in Hc.
  - destruct (recv_wire_json_carries _ _ _ _ seq _ _ Hc Ha Hb) as (ses1 & ssl1 & -> & _). cbn [mbind call_bind].
    fold (body_result last_b). rewrite (proj2 (Z.eqb_neq _ _)) by done. by exists ses1, ssl1.
  - apply Forall_cons in Hp as [[Ha1 Hr1] Hp]. cbn [snd] in Ha1, Hr1.
    destruct (recv_wire_json_carries _ _ _ _ seq _ _ Hc Ha1 Hb) as (ses1 & ssl1 & -> & _ & Hb1). cbn [mbind call_bind].
    fold (body_result b1). rewrite Hr1. cbn [Z.eqb Pos.eqb]. apply IH; [done..|simpl in Hn; lia].
Qed.

(** With the reply to the request first, it is that reply's offset. *)
Lemma asked_from_first file seq req ses ssl first_r first_b rest kb offset rc offset' :
  accepting (writes ssl) -> recv_buf ses = [] -> rx ssl = first_r ++ rest -> carries first_r first_b ->
  try_accept kCmdFileUpload seq (body_parts first_b).1 = true ->
  parse_upload_init_reply (body_parts first_b).1 = (Some (kb, offset), rc) ->
  asked_from file seq req ses ssl offset' -> offset' = offset.
Proof.
  intros Hacc Hbuf Hrx Hc Ha Hinit (ses1 & ses2 & ssl2 & json & ses3 & ssl3 & root & E1 & E2 & E3 & Ep & Eo & _).
  pose proof (between_start ses ssl Hbuf) as Hbt. unfold drain_stale_wire_json in E1. rewrite (between_drained _ _ _ Hbt) in E1.
  injection E1 as <-. unfold send_abi_json in E2.
  destruct (send_frame_accepting ses ssl kMagicCtrlClient (wrap_ctrl_abi (build_file_upload_init_abi seq (dest_storage req) (dest_name req) (zlen file))) Hacc)
    as (ssl1 & Es & (_ & Hr1 & _) & _). rewrite Es in E2. injection E2 as <- <-.
  assert (Hbt1 : between (next_seq ses) ssl1 (first_r ++ rest)) by (rewrite <- Hrx, <- Hr1; by apply between_start).
  destruct (recv_wire_json_carries _ _ _ _ seq _ _ Hc Ha Hbt1) as (ses4 & ssl4 & Er & _). rewrite Er in E3. injection E3 as <- _ _.
  apply init_reply_offset in Hinit as (root' & Ep' & <-). rewrite Ep in Ep'. by injection Ep' as <-.
Qed.

(** C32: whatever the printer and the connection do, an upload that reports
    success has sent the request and then, in order and without a gap, all the
    bytes of the file from the offset that the printer's reply to the request
    asked for; the last chunk tells the file's digest, which is also the one
    returned, and the final result is 0 or 19. *)
Theorem upload_delivers (file : list byte) (seq : Z) (req : UploadRequest) (cancelled : Z -> bool)
    (ses : Session) (ssl : Ssl) (out : UploadOutcome) (pcts : list Z) (ses' : Session) (ssl' : Ssl) :
  zlen file < 2 ^ 41 -> 0 <= seq < 2 ^ 32 ->
  run_chunked_upload md5_lower_of (Some file) seq req cancelled ses ssl = Returns (out, pcts, ses', ssl') ->
  ok out = true -> exists offset, asked_from file seq req ses ssl offset /\ uploaded file seq req (Z.to_nat offset) ses ssl out ssl'.
Proof. apply upload_sent. Qed.

(** C29: with a printer that accepts the upload, reports progress and then
    success, each reply in reads of its own and split in any way, and a
    connection that takes everything, the upload ends, reports success and has
    delivered the file from the offset on that the first reply asked for. *)
Theorem upload_completes (file : list byte) (seq : Z) (req : UploadRequest) (ses : Session) (ssl : Ssl)
    (first_r last_r : list (Z * Read)) (first_b last_b : list byte) (parts : list (list (Z * Read) * list byte))
    (kb offset rc : Z) :
  dest_storage req <> [] -> dest_name req <> [] -> local_path req <> [] ->
  zlen file < 2 ^ 41 -> 0 <= seq < 2 ^ 32 -> accepting (writes ssl) -> recv_buf ses = [] ->
  rx ssl = first_r ++ delivery (parts ++ [(last_r, last_b)]) ->
  carries first_r first_b -> delivered (parts ++ [(last_r, last_b)]) ->
  try_accept kCmdFileUpload seq (body_parts first_b).1 = true ->
  parse_upload_init_reply (body_parts first_b).1 = (Some (kb, offset), rc) -> offset <= zlen file ->
  Forall (fun p => try_accept kCmdFileUpload seq (body_parts p.2).1 = true /\ body_result p.2 = 1) parts ->
  (length parts <= 31)%nat -> try_accept kCmdFileUpload seq (body_parts last_b).1 = true -> body_result last_b = 0 ->
  exists out pcts ses' ssl',
    run_chunked_upload md5_lower_of (Some file) seq req (fun _ => false) ses ssl = Returns (out, pcts, ses', ssl') /\
    ok out = true /\ uploaded file seq req (Z.to_nat offset) ses ssl out ssl'.
Proof.
  intros Hds Hdn Hlp Hsmall Hseq Hacc Hbuf Hrx Hc1 Hd Ha1 Hinit Hoff Hparts Hlen Ha2 Hres.
  cut (exists out pcts ses' ssl',
    run_chunked_upload md5_lower_of (Some file) seq req (fun _ => false) ses ssl = Returns (out, pcts, ses', ssl') /\ ok out = true).
  { intros (out & pcts & ses' & ssl' & E & Hok). exists out, pcts, ses', ssl'. split_and!; [done | done|].
    destruct (upload_sent _ _ _ _ _ _ _ _ _ _ Hsmall Hseq E Hok) as (offset' & Hask & Hup).
    by rewrite (asked_from_first _ _ _ _ _ _ _ _ _ _ _ _ Hacc Hbuf Hrx Hc1 Ha1 Hinit Hask) in Hup. }
  unfold run_chunked_upload. destruct (dest_storage req) as [|d1 ds]; [done|]. destruct (dest_name req) as [|n1 dn]; [done|].
  destruct (local_path req) as [|p1 lp]; [done|].
  pose proof (between_start ses ssl Hbuf) as Hbt. unfold drain_stale_wire_json. rewrite (between_drained _ _ _ Hbt).
  cbn [lift mbind call_bind]. unfold send_abi_json.
  destruct (send_frame_accepting ses ssl kMagicCtrlClient
              (wrap_ctrl_abi (build_file_upload_init_abi seq (d1 :: ds) (n1 :: dn) (zlen file))) Hacc)
    as (ssl1 & -> & (_ & Hr1 & _) & Hacc1). cbn [negb].
  assert (Hbt1 : between (next_seq ses) ssl1 (first_r ++ delivery (parts ++ [(last_r, last_b)]))).
  { rewrite <- Hrx, <- Hr1. by apply between_start. }
  destruct (recv_wire_json_carries _ _ _ _ seq _ _ Hc1 Ha1 Hbt1) as (ses2 & ssl2 & -> & (_ & _ & _ & Hw2) & Hbt2).
  cbn [mbind call_bind]. rewrite Hinit. apply init_reply_bounds in Hinit as [Hkb Hoff0].
  pose proof (hash_prefix_spec file offset (kb * 1024) ltac:(lia) (S (length file)) 0 ltac:(lia) ltac:(lia) ltac:(lia)) as Hh.
  rewrite take_0, (proj2 (Z.leb_le _ _)) in Hh by done. pose proof Hh as Hat. rewrite Hh.
  apply start_at_byte in Hat; [|lia|done].
  edestruct (send_chunks_done md5_lower_of md5_text file seq (kb * 1024) ltac:(lia) (length file)) as (c & pcts & ses3 & ssl3 & E3);
    [exact Hat | lia | by rewrite Hw2 |].
  rewrite E3. cbn [mbind call_bind].
  apply (send_chunks_sent md5_lower_of md5_text file seq (kb * 1024) _ ltac:(lia) Hsmall Hseq _ (Z.to_nat offset)) in E3; [|done|lia].
  destruct E3 as (bodies & _ & Hr3 & Hb3 & _).
  edestruct (final_result_parts seq last_r last_b parts 32) as (ses4 & ssl4 & ->); [done | done | done | by rewrite Hres | | lia |].
  - eapply between_kept; [exact Hb3 | exact Hr3 | exact Hbt2].
  - cbn [mbind call_bind]. rewrite Hres. do 4 eexists. split; [reflexivity | done].
Qed.
End upload_theorems.

(** ** The fuel of the loops *)

(** No complete frame waits in the buffer, and less than 4 GiB is to come. *)
Definition settled (ses : Session) (ssl : Ssl) : Prop :=
  partial (recv_buf ses) /\ zlen (recv_buf ses ++ arrived (rx ssl)) < 2 ^ 32.

Lemma recv_loop_settled reads deadline : forall ses ssl rc ses' ssl',
  rx ssl = reads -> zlen (recv_buf ses ++ arrived reads) < 2 ^ 32 ->
  recv_loop reads deadline ses ssl = Some (rc, ses', ssl') ->
  settled ses' ssl' /\ (length (rx ssl') <= length reads)%nat.
Proof.
  induction reads as [|[t rd] reads IH]; intros ses ssl rc ses' ssl' Hrx Hl H; cbn [recv_loop] in H;
    (destruct (take_frames ses) as [[bs ses1]|] eqn:E; [|done]); cbn [mbind option_bind] in H;
    (apply take_frames_inv in E as (tl & -> & Hf); [|by apply short_app in Hl as [? _]]);
    pose proof (framed_len _ _ _ Hf) as Hlen;
    assert (Hset : settled (set_buf tl ses) ssl)
      by (split; [by eapply framed_partial | rewrite Hrx; cbn [set_buf recv_buf]; unfold zlen in *; rewrite length_app in *; lia]);
    (destruct bs as [|b bs]; [|by injection H as <- <- <-; rewrite Hrx]);
    (destruct (match deadline with Some d => _ | None => _ end); [by injection H as <- <- <-; rewrite Hrx|]);
    [by injection H as <- <- <-; rewrite Hrx|].
  destruct Hset as [Hp Hs]. rewrite Hrx in Hs. cbn [set_buf recv_buf] in Hp, Hs.
  unfold read_event in H. cbn [fst snd] in H. destruct rd as [bs| |]; cbn [Z.ltb Z.compare] in H.
  - apply IH in H as [H1 H2]; [|done|]; [split; [done | simpl; lia]|].
    cbn [got_bytes recv_buf set_buf]. rewrite <- app_assoc. exact Hs.
  - injection H as <- <- <-. split; [split; [exact Hp | exact Hs] | simpl; lia].
  - injection H as <- <- <-. split; [split; [exact Hp | exact Hs] | simpl; lia].
Qed.

Lemma recv_payload_settled ses ssl rc ses' ssl' :
  settled ses ssl -> recv_payload ses ssl = Some (rc, ses', ssl') ->
  settled ses' ssl' /\ (rx ssl = [] -> rc = Again /\ rx ssl' = []) /\
  (rx ssl <> [] -> (length (rx ssl') < length (rx ssl))%nat).
Proof.
  intros [Hp Hl] H. unfold recv_payload, recv_payload_until in H.
  destruct (rx ssl) as [|[t rd] reads] eqn:Hrx; cbn [recv_loop] in H;
    rewrite (take_frames_framed _ _ _ (framed_end _ Hp)), set_buf_id in H; cbn [mbind option_bind] in H.
  { injection H as <- <- <-. split_and!; [split; [done | by rewrite Hrx] | done | done]. }
  unfold read_event in H. cbn [fst snd] in H. destruct rd as [bs| |]; cbn [Z.ltb Z.compare] in H.
  - apply recv_loop_settled in H as [H1 H2]; [split_and!; [done | done | simpl; lia] | done|].
    cbn [got_bytes recv_buf]. rewrite <- app_assoc. exact Hl.
  - injection H as <- <- <-. split_and!; [split; [exact Hp | exact Hl] | done | simpl; lia].
  - injection H as <- <- <-. split_and!; [split; [exact Hp | exact Hl] | done | simpl; lia].
Qed.

Lemma next_payload_enough : forall fuel1 fuel2 ses ssl,
  settled ses ssl -> (length (rx ssl) < fuel1)%nat -> (length (rx ssl) < fuel2)%nat ->
  next_payload_fuel fuel1 ses ssl = next_payload_fuel fuel2 ses ssl.
Proof.
  induction fuel1 as [|fuel1 IH]; intros fuel2 ses ssl Hs H1 H2; [lia|]. destruct fuel2 as [|fuel2]; [lia|].
  cbn [next_payload_fuel]. destruct (recv_payload ses ssl) as [[[rc ses1] ssl1]|] eqn:E; [|done].
  cbn [lift mbind call_bind]. destruct rc; try done. destruct (rx ssl1) as [|e rest] eqn:Er; [done|].
  apply recv_payload_settled in E as (Hs1 & Hn & Hlt); [|done].
  destruct (rx ssl) as [|e0 rest0] eqn:Er0; [by destruct (Hn eq_refl); congruence|].
  specialize (Hlt ltac:(done)). apply IH; [done | lia | lia].
Qed.

Lemma next_payload_settled fuel : forall ses ssl body ses' ssl',
  settled ses ssl -> next_payload_fuel fuel ses ssl = Returns (Some body, ses', ssl') ->
  settled ses' ssl' /\ (length (rx ssl') < length (rx ssl))%nat.
Proof.
  induction fuel as [|fuel IH]; intros ses ssl body ses' ssl' Hs H; [done|]. cbn [next_payload_fuel] in H.
  apply bind_inv in H as ([[rc ses1] ssl1] & E%lift_inv & H).
  apply recv_payload_settled in E as (Hs1 & Hn & Hlt); [|done].
  assert (Hle : rc <> Again \/ rx ssl1 <> [] -> (length (rx ssl1) < length (rx ssl))%nat).
  { intros Hor. apply Hlt. intros E0. destruct (Hn E0) as [-> Hr]. by destruct Hor. }
  destruct rc; try done.
  - injection H as -> -> ->. split; [done | apply Hle; by left].
  - destruct (rx ssl1) eqn:Er; [done|]. rewrite <- Er in Hle. apply IH in H as [H1 H2]; [|done]. split; [done|].
    assert (length (rx ssl1) < length (rx ssl))%nat by (apply Hle; right; by rewrite Er). lia.
Qed.

(** The loops of the transfers end: once no complete frame waits, every
    turn consumes a read, so the fuel they are run with is enough and no larger
    one changes the result. *)
Lemma transfer_fuel_enough (m : nat) (ses : Session) (ssl : Ssl) :
  settled ses ssl ->
  (forall cancelled n data r,
     download_loop (S (length (rx ssl)) + m) cancelled n data r ses ssl =
     download_loop (S (length (rx ssl))) cancelled n data r ses ssl) /\
  (forall seq paths data rank r,
     sub_file_loop (S (length (rx ssl)) + m) seq paths data rank r ses ssl =
     sub_file_loop (S (length (rx ssl))) seq paths data rank r ses ssl) /\
  next_payload_fuel (S (length (rx ssl)) + m) ses ssl = next_payload ses ssl.
Proof.
  intros Hs.
  assert (H : forall f1 f2 ses ssl, settled ses ssl -> (length (rx ssl) < f1)%nat -> (length (rx ssl) < f2)%nat ->
    (forall cancelled n data r, download_loop f1 cancelled n data r ses ssl = download_loop f2 cancelled n data r ses ssl) /\
    (forall seq paths data rank r, sub_file_loop f1 seq paths data rank r ses ssl = sub_file_loop f2 seq paths data rank r ses ssl)).
  { clear. induction f1 as [|f1 IH]; intros f2 ses ssl Hs H1 H2; [lia|]. destruct f2 as [|f2]; [lia|].
    assert (Hnext : forall body ses1 ssl1, next_payload ses ssl = Returns (Some body, ses1, ssl1) ->
      settled ses1 ssl1 /\ (length (rx ssl1) < f1)%nat /\ (length (rx ssl1) < f2)%nat).
    { intros body ses1 ssl1 E. apply next_payload_settled in E as [Hs1 Hl]; [|done]. split; [done | lia]. }
    split; intros; cbn [download_loop sub_file_loop]; [destruct (cancelled n); [done|]|];
      destruct (next_payload ses ssl) as [[[[body|] ses1] ssl1]| |] eqn:E; try done; cbn [mbind call_bind];
      destruct (Hnext _ _ _ eq_refl) as (Hs1 & L1 & L2); destruct (body_parts body) as [json chunk].
    - destruct (_ =? 1); [by apply IH | done].
    - destruct (for_request _ _ _); [|by apply IH]. destruct (better_image _ _ _ _ _) as [d k].
      destruct (_ =? 1); [by apply IH | done]. }
  split_and!; [intros; apply H; (done || lia).. | apply next_payload_enough; (done || lia)].
Qed.

(** ** Concrete transfers *)

(** A reply as a printer writes it, and reads that carry one frame. *)
Definition reply_text (cmd seq result : Z) (rest : cstr) : cstr :=
  str "{" ++ [quote] ++ str "cmdtype" ++ [quote] ++ str ":" ++ dec cmd ++ str "," ++ [quote] ++ str "sequence" ++ [quote]
  ++ str ":" ++ dec seq ++ str "," ++ [quote] ++ str "result" ++ [quote] ++ str ":" ++ dec result ++ rest ++ str "}".
Definition in_two_reads (q : Z) (body : list byte) : list (Z * Read) :=
  [(0, Data (take 9 (frame kMagicCtrlClient q body))); (0, WouldBlock); (0, Data (drop 9 (frame kMagicCtrlClient q body)))].

Definition demo_init : cstr :=
  reply_text 5 7 1 (str "," ++ [quote] ++ str "reply" ++ [quote] ++ str ":{" ++ [quote] ++ str "chunk_size" ++ [quote]
                    ++ str ":1," ++ [quote] ++ str "offset" ++ [quote] ++ str ":2}").
Definition demo_file : list byte := str "hello".
Definition demo_req : UploadRequest :=
  {| dest_storage := str "emmc"; dest_name := str "a.3mf"; local_path := str "/tmp/a.3mf" |}.
Definition demo_md5 (d : list byte) : cstr := str "m" ++ take 3 d.
Definition demo_parts : list (list (Z * Read) * list byte) := [(in_two_reads 2 (reply_text 5 7 1 []), reply_text 5 7 1 [])].
Definition demo_last : list byte := reply_text 5 7 0 [].
Definition demo_net : Ssl :=
  {| rx := in_two_reads 1 demo_init ++ delivery (demo_parts ++ [(in_two_reads 3 demo_last, demo_last)]);
     writes := [Takes 20; Wants true]; tx := []; now := 0 |}.

Lemma in_two_reads_carries q body : zlen body < kMaxPayload -> carries (in_two_reads q body) body.
Proof.
  intros Hb. split; [repeat constructor; done|]. split; [done|]. exists kMagicCtrlClient, q.
  unfold arrived, in_two_reads. cbn [map concat snd]. rewrite app_nil_r. apply (take_drop 9).
Qed.

Lemma upload_completes_witness :
  exists out pcts ses' ssl',
    run_chunked_upload demo_md5 (Some demo_file) 7 demo_req (fun _ => false) (new_session 1) demo_net
    = Returns (out, pcts, ses', ssl') /\
    ok out = true /\ uploaded demo_md5 demo_file 7 demo_req (Z.to_nat 2) (new_session 1) demo_net out ssl'.
Proof.
  apply (upload_completes demo_md5 ltac:(intros d; done) demo_file 7 demo_req (new_session 1) demo_net
           (in_two_reads 1 demo_init) (in_two_reads 3 demo_last) demo_init demo_last demo_parts 1 2 1).
  - done.
  - done.
  - done.
  - vm_compute. reflexivity.
  - lia.
  - repeat constructor.
  - done.
  - reflexivity.
  - apply in_two_reads_carries. vm_compute. reflexivity.
  - constructor; [|constructor; [|constructor]]; apply in_two_reads_carries; vm_compute; reflexivity.
  - vm_compute. reflexivity.
  - vm_compute. reflexivity.
  - vm_compute. discriminate.
  - constructor; [|constructor]. split; vm_compute; reflexivity.
  - cbn. lia.
  - vm_compute. reflexivity.
  - vm_compute. reflexivity.
Defined.

Definition demo_run : call (UploadOutcome * list Z * Session * Ssl) :=
  run_chunked_upload demo_md5 (Some demo_file) 7 demo_req (fun _ => false) (new_session 1) demo_net.
Definition demo_out : UploadOutcome :=
  match demo_run with Returns (o, _, _, _) => o | _ => fail_upload NoError end.
Definition demo_pcts : list Z := match demo_run with Returns (_, p, _, _) => p | _ => [] end.
Definition demo_run_ses : Session := match demo_run with Returns (_, _, s, _) => s | _ => new_session 0 end.
Definition demo_run_ssl : Ssl := match demo_run with Returns (_, _, _, l) => l | _ => demo_net end.

Lemma upload_delivers_witness :
  exists offset, asked_from demo_file 7 demo_req (new_session 1) demo_net offset /\
    uploaded demo_md5 demo_file 7 demo_req (Z.to_nat offset) (new_session 1) demo_net demo_out demo_run_ssl.
Proof.
  apply (upload_delivers demo_md5 ltac:(intros d; done) demo_file 7 demo_req (fun _ => false) (new_session 1) demo_net
           demo_out demo_pcts demo_run_ses demo_run_ssl).
  - vm_compute. reflexivity.
  - lia.
  - vm_compute. reflexivity.
  - vm_compute. reflexivity.
Defined.

Definition demo_chunk (q result : Z) (data : list byte) : list byte := reply_text 4 9 result [] ++ kSep ++ data.
Definition demo_download : list (list (Z * Read) * list byte) :=
  [(in_two_reads 1 (demo_chunk 1 1 (str "abc")), demo_chunk 1 1 (str "abc"))].
Definition demo_download_last : list byte := demo_chunk 2 0 (str "de").
Definition demo_download_net : Ssl :=
  {| rx := delivery (demo_download ++ [(in_two_reads 2 demo_download_last, demo_download_last)]);
     writes := []; tx := []; now := 0 |}.

Lemma download_assembles_witness :
  exists out ses' ssl', run_download 9 (str "mem:/1") [] (fun _ => false) (new_session 1) demo_download_net
    = Returns (out, ses', ssl') /\
    d_ok out = true /\ d_data out = concat (map download_part (map snd demo_download ++ [demo_download_last])) /\
    tx ssl' = tx demo_download_net
              ++ frame kMagicCtrlClient 1 (wrap_ctrl_abi (build_file_download_abi 9 (str "mem:/1") 0 [])).
Proof.
  apply (download_assembles 9 (str "mem:/1") [] (new_session 1) demo_download_net demo_download
           (in_two_reads 2 demo_download_last) demo_download_last).
  - done.
  - constructor.
  - done.
  - reflexivity.
  - constructor; [|constructor; [|constructor]]; apply in_two_reads_carries; vm_compute; reflexivity.
  - constructor; [vm_compute; reflexivity | constructor].
  - vm_compute. reflexivity.
Defined.

Example demo_download_data : concat (map download_part (map snd demo_download ++ [demo_download_last])) = str "abcde".
Proof. vm_compute. reflexivity. Qed.

(** Two frames that come in one read: the receive drops all but the first, so
    the transfer waits for a reply it already had. *)
Lemma coalesced_frames_lost :
  run_download 9 (str "mem:/1") [] (fun _ => false) (new_session 1)
    {| rx := [(0, Data (frame kMagicCtrlClient 1 (demo_chunk 1 1 (str "abc"))
                        ++ frame kMagicCtrlClient 2 demo_download_last))]; writes := []; tx := []; now := 0 |} = Waits.
Proof. vm_compute. reflexivity. Qed.

Lemma transfer_fuel_enough_witness :
  (forall cancelled n data r,
     download_loop (S (length (rx demo_net)) + 5) cancelled n data r (new_session 1) demo_net =
     download_loop (S (length (rx demo_net))) cancelled n data r (new_session 1) demo_net) /\
  (forall seq paths data rank r,
     sub_file_loop (S (length (rx demo_net)) + 5) seq paths data rank r (new_session 1) demo_net =
     sub_file_loop (S (length (rx demo_net))) seq paths data rank r (new_session 1) demo_net) /\
  next_payload_fuel (S (length (rx demo_net)) + 5) (new_session 1) demo_net = next_payload (new_session 1) demo_net.
Proof.
  apply (transfer_fuel_enough 5 (new_session 1) demo_net). split; [apply partial_nil | vm_compute; reflexivity].
Defined.
