(* ===== verification/Rtp.v ===== *)
(** The data plane of the RTSP client ([src/stubs/rtsp_client.cpp]): RTP
    packets with H.264 payloads (RFC 6184) become NAL units, and the receiver
    statistics and reports of RTCP (RFC 3550). Times are microseconds of the
    steady clock. *)

From S2P Require Import Prelude Text Double H264.

(** ** Data *)

Record H264Track := {
  t_sps : list byte; t_pps : list byte; clock_rate : Z; rtp_pt : Z;
  t_width : Z; t_height : Z; t_fps : Z
}.

Record Nalu := { n_data : list byte; rtp_ts_90khz : Z; au_end : bool }.

(** The demux state of [Client::Impl]. *)
Record Demux := { nalu_queue : list Nalu; fu_buf : list byte; fu_ts : Z; fu_au_end : bool }.

Definition new_demux : Demux := {| nalu_queue := []; fu_buf := []; fu_ts := 0; fu_au_end := false |}.

Definition push_nalus (ns : list Nalu) (d : Demux) : Demux :=
  {| nalu_queue := nalu_queue d ++ ns; fu_buf := fu_buf d; fu_ts := fu_ts d; fu_au_end := fu_au_end d |}.

(** The receiver-side bookkeeping of [Client::Impl]. *)
Record Stats := {
  our_ssrc : Z; have_peer_ssrc : bool; peer_ssrc : Z; seq_initialised : bool;
  max_seq : Z; seq_cycles : Z; base_seq : Z; packets_received : Z;
  expected_prior : Z; received_prior : Z;
  jitter : double; have_transit : bool; last_transit : Z;
  have_sr : bool; last_sr_middle32 : Z; last_sr_at : Z
}.

Definition new_stats (ssrc : Z) : Stats :=
  {| our_ssrc := ssrc; have_peer_ssrc := false; peer_ssrc := 0; seq_initialised := false;
     max_seq := 0; seq_cycles := 0; base_seq := 0; packets_received := 0;
     expected_prior := 0; received_prior := 0;
     jitter := S754_zero false; have_transit := false; last_transit := 0;
     have_sr := false; last_sr_middle32 := 0; last_sr_at := 0 |}.

Definition be16 (p : list byte) (i : nat) : Z := zat p i * 2 ^ 8 + zat p (i + 1).
Definition enc_be16 (v : Z) : list byte := [zb (v / 2 ^ 8); zb v].

(** ** Depacketisation *)

(** The sub-units of a STAP-A payload: a 16-bit size and that many bytes; the
    loop stops at a size of zero or beyond the end. *)
Fixpoint stap_units (fuel : nat) (ts : Z) (m : bool) (q : list byte) : list Nalu :=
  match fuel with
  | O => []
  | S fuel =>
      if (length q <? 2)%nat then []
      else
        let sub_size := Z.to_nat (be16 q 0) in
        let q := drop 2 q in
        if (sub_size =? 0)%nat || (length q <? sub_size)%nat then []
        else
          {| n_data := take sub_size q; rtp_ts_90khz := ts; au_end := m && (length q =? sub_size)%nat |}
          :: stap_units fuel ts m (drop sub_size q)
  end.

(** The end of a fragmented unit: the buffer becomes a NAL unit. *)
Definition fu_finish (d : Demux) : Demux :=
  {| nalu_queue := nalu_queue d ++ [{| n_data := fu_buf d; rtp_ts_90khz := fu_ts d; au_end := fu_au_end d |}];
     fu_buf := []; fu_ts := fu_ts d; fu_au_end := false |}.

Definition decode_fu_a (ts : Z) (m : bool) (p : list byte) (d : Demux) : Demux :=
  if (length p <? 2)%nat then d
  else
    let fu_ind := zat p 0 in
    let fu_hdr := zat p 1 in
    let start := negb (Z.land fu_hdr 0x80 =? 0) in
    let stop := negb (Z.land fu_hdr 0x40 =? 0) in
    let orig_t := Z.land fu_hdr 0x1f in
    let fed :=
      if start then
        Some {| nalu_queue := nalu_queue d;
                fu_buf := zb (Z.lor (Z.land fu_ind 0xe0) (Z.land orig_t 0x1f)) :: drop 2 p;
                fu_ts := ts; fu_au_end := m |}
      else
        match fu_buf d with
        | [] => None
        | _ => Some {| nalu_queue := nalu_queue d; fu_buf := fu_buf d ++ drop 2 p; fu_ts := fu_ts d;
                       fu_au_end := if m then true else fu_au_end d |}
        end in
    match fed with
    | None => d
    | Some d => if stop then fu_finish d else d
    end.

Definition decode_payload (ts : Z) (m : bool) (p : list byte) (d : Demux) : Demux :=
  let nal_type := Z.land (zat p 0) 0x1f in
  if (1 <=? nal_type) && (nal_type <=? 23)
  then push_nalus [{| n_data := p; rtp_ts_90khz := ts; au_end := m |}] d
  else if nal_type =? 24 then push_nalus (stap_units (length p) ts m (drop 1 p)) d
  else if nal_type =? 28 then decode_fu_a ts m p d
  else d.

(** Where the payload starts: behind the CSRC list and a header extension.
    [None]: the packet ends inside the extension header. *)
Definition payload_offset (rtp : list byte) : option nat :=
  let off := (12 + 4 * Z.to_nat (Z.land (zat rtp 0) 0x0f))%nat in
  if negb (Z.land (zat rtp 0) 0x10 =? 0) then
    if (length rtp <? off + 4)%nat then None
    else Some (off + 4 + Z.to_nat (be16 rtp (off + 2)) * 4)%nat
  else Some off.

Definition decode_rtp_h264 (pt : Z) (rtp : list byte) (d : Demux) : Demux :=
  if (length rtp <? 12)%nat then d
  else if negb (Z.shiftr (zat rtp 0) 6 =? 2) then d
  else if negb (Z.land (zat rtp 1) 0x7f =? pt) then d
  else
    match payload_offset rtp with
    | None => d
    | Some off =>
        if (length rtp <=? off)%nat then d
        else decode_payload (be32 rtp 4) (negb (Z.land (zat rtp 1) 0x80 =? 0)) (drop off rtp) d
    end.

(** ** Statistics *)

(** The sequence number of a packet: the first starts the counters, a small
    forward step advances the highest one, anything else only counts. *)
Definition note_seq (seq ssrc : Z) (s : Stats) : Stats :=
  let fresh := negb (seq_initialised s) in
  let forward := u16 (seq - max_seq s) <? 0x8000 in
  {| our_ssrc := our_ssrc s; have_peer_ssrc := true; peer_ssrc := ssrc; seq_initialised := true;
     max_seq := if fresh || forward then seq else max_seq s;
     seq_cycles := if fresh then 0
                   else if forward && (seq <? max_seq s) then u32 (seq_cycles s + 0x10000) else seq_cycles s;
     base_seq := if fresh then seq else base_seq s;
     packets_received := u32 ((if fresh then 0 else packets_received s) + 1);
     expected_prior := if fresh then 0 else expected_prior s;
     received_prior := if fresh then 0 else received_prior s;
     jitter := jitter s; have_transit := have_transit s; last_transit := last_transit s;
     have_sr := have_sr s; last_sr_middle32 := last_sr_middle32 s; last_sr_at := last_sr_at s |}.

(** [jitter += (static_cast<double> (d) - jitter) / 16.0]. *)
Definition jitter_step (d : Z) (j : double) : double :=
  SFadd prec emax j (SFdiv prec emax (SFsub prec emax (of_int d) j) (of_int 16)).

(** [elapsed] is the time since the start of the stream. *)
Definition note_transit (rate elapsed rtp_ts : Z) (s : Stats) : Stats :=
  let arrival := Z.quot (elapsed * rate) 1000000 in
  let transit := arrival - rtp_ts in
  {| our_ssrc := our_ssrc s; have_peer_ssrc := have_peer_ssrc s; peer_ssrc := peer_ssrc s;
     seq_initialised := seq_initialised s; max_seq := max_seq s; seq_cycles := seq_cycles s;
     base_seq := base_seq s; packets_received := packets_received s;
     expected_prior := expected_prior s; received_prior := received_prior s;
     jitter := if have_transit s then jitter_step (Z.abs (transit - last_transit s)) (jitter s) else jitter s;
     have_transit := true; last_transit := transit;
     have_sr := have_sr s; last_sr_middle32 := last_sr_middle32 s; last_sr_at := last_sr_at s |}.

Definition update_rtp_stats (rate elapsed seq rtp_ts ssrc : Z) (s : Stats) : Stats :=
  note_transit rate elapsed rtp_ts (note_seq seq ssrc s).

Definition handle_rtp (track : H264Track) (elapsed : Z) (rtp : list byte) (s : Stats) (d : Demux) : Stats * Demux :=
  let s := if (12 <=? length rtp)%nat
           then update_rtp_stats (clock_rate track) elapsed (be16 rtp 2) (be32 rtp 4) (be32 rtp 8) s
           else s in
  (s, decode_rtp_h264 (rtp_pt track) rtp d).

(** ** RTCP *)

Definition kRtcpSr : Z := 200.
Definition kRtcpRr : Z := 201.
Definition kRtcpSdes : Z := 202.
Definition kRtcpBye : Z := 203.

Definition note_sr (msw lsw now : Z) (s : Stats) : Stats :=
  {| our_ssrc := our_ssrc s; have_peer_ssrc := have_peer_ssrc s; peer_ssrc := peer_ssrc s;
     seq_initialised := seq_initialised s; max_seq := max_seq s; seq_cycles := seq_cycles s;
     base_seq := base_seq s; packets_received := packets_received s;
     expected_prior := expected_prior s; received_prior := received_prior s;
     jitter := jitter s; have_transit := have_transit s; last_transit := last_transit s;
     have_sr := true; last_sr_middle32 := Z.lor (u32 (Z.shiftl msw 16)) (Z.shiftr lsw 16); last_sr_at := now |}.

(** The walk over a compound packet, [pkt] from the current offset on: the new
    statistics, and whether a BYE was met. *)
Fixpoint handle_rtcp (fuel : nat) (now : Z) (pkt : list byte) (s : Stats) : Stats * bool :=
  match fuel with
  | O => (s, false)
  | S fuel =>
      if (length pkt <? 4)%nat then (s, false)
      else if negb (Z.shiftr (zat pkt 0) 6 =? 2) then (s, false)
      else
        let pt := zat pkt 1 in
        let len := ((Z.to_nat (be16 pkt 2) + 1) * 4)%nat in
        if (length pkt <? len)%nat then (s, false)
        else if (pt =? kRtcpSr) && (20 <=? len)%nat
        then handle_rtcp fuel now (drop len pkt) (note_sr (be32 pkt 8) (be32 pkt 12) now s)
        else if pt =? kRtcpBye then (s, true)
        else handle_rtcp fuel now (drop len pkt) s
  end.

(** ** Receiver reports *)

(** What a report says, before it is encoded. *)
Definition extended_max (s : Stats) : Z := u32 (seq_cycles s + max_seq s).
Definition expected (s : Stats) : Z := u32 (extended_max s - base_seq s + 1).
Definition cumulative_lost (s : Stats) : Z :=
  let lost := expected s - packets_received s in
  if lost <? 0 then 0 else if 0x7fffff <? lost then 0x7fffff else lost.
Definition fraction_lost (s : Stats) : Z :=
  let expected_interval := u32 (expected s - expected_prior s) in
  let received_interval := u32 (packets_received s - received_prior s) in
  let lost_interval := expected_interval - received_interval in
  if (0 <? expected_interval) && (0 <? lost_interval)
  then u8 (Z.shiftl lost_interval 8 / expected_interval) else 0.

(** The delay since the last sender report, in 1/65536 s. *)
Definition report_dlsr (now : Z) (s : Stats) : Z :=
  if have_sr s then u32 (Z.quot ((now - last_sr_at s) * 65536) 1000000) else 0.

Definition close_interval (s : Stats) : Stats :=
  {| our_ssrc := our_ssrc s; have_peer_ssrc := have_peer_ssrc s; peer_ssrc := peer_ssrc s;
     seq_initialised := seq_initialised s; max_seq := max_seq s; seq_cycles := seq_cycles s;
     base_seq := base_seq s; packets_received := packets_received s;
     expected_prior := expected s; received_prior := packets_received s;
     jitter := jitter s; have_transit := have_transit s; last_transit := last_transit s;
     have_sr := have_sr s; last_sr_middle32 := last_sr_middle32 s; last_sr_at := last_sr_at s |}.

Definition enc_be24 (v : Z) : list byte := [zb (Z.shiftr v 16); zb (Z.shiftr v 8); zb v].

(** [static_cast<uint32_t> (jitter)]. *)
Definition jitter_field (s : Stats) : Z := match trunc (jitter s) with Some j => u32 j | None => 0 end.

Definition build_receiver_report (now : Z) (s : Stats) : list byte * Stats :=
  ([zb (Z.lor 0x80 1); zb kRtcpRr; zb 0; zb 7]
   ++ enc_be32 (our_ssrc s) ++ enc_be32 (peer_ssrc s)
   ++ [zb (fraction_lost s)] ++ enc_be24 (cumulative_lost s)
   ++ enc_be32 (extended_max s) ++ enc_be32 (jitter_field s)
   ++ enc_be32 (if have_sr s then last_sr_middle32 s else 0) ++ enc_be32 (report_dlsr now s),
   close_interval s).

(** A minimal SDES packet with a CNAME, behind [out]. *)
Definition cname (ssrc : Z) : cstr := str "obn-" ++ hex8 ssrc.

Definition sdes_chunk (ssrc : Z) : list byte :=
  [zb (Z.lor 0x80 1); zb kRtcpSdes; zb 0; zb 0] ++ enc_be32 ssrc
  ++ [zb 1; zb (zlen (cname ssrc))] ++ cname ssrc ++ [zb 0].

Definition append_sdes_cname (ssrc : Z) (out : list byte) : list byte :=
  let c := sdes_chunk ssrc in
  let c := c ++ replicate ((4 - length c mod 4) mod 4) (zb 0) in
  let words := zlen c / 4 - 1 in
  out ++ put8 3 (Z.land words 0xff) (put8 2 (Z.land (Z.shiftr words 8) 0xff) c).

(** ** Fields *)

Lemma be16_enc v r : 0 <= v < 2 ^ 16 -> be16 (enc_be16 v ++ r) 0 = v.
Proof.
  intros Hv. unfold be16, enc_be16, zat, at_. cbn [app lookup_total list_lookup_total Nat.add].
  rewrite !bz_zb. rewrite (Z.mod_small (v / 2 ^ 8)) by (Z.to_euclidean_division_equations; lia).
  pose proof (Z_div_mod_eq_full v 256). change (2 ^ 8) with 256. lia.
Qed.

Lemma be16_drop p i j : be16 (drop i p) j = be16 p (i + j).
Proof. unfold be16, zat. rewrite !at_drop. by rewrite Nat.add_assoc. Qed.

Lemma be32_drop p i j : be32 (drop i p) j = be32 p (i + j).
Proof. unfold be32, zat. rewrite !at_drop. by rewrite !Nat.add_assoc. Qed.

Lemma be16_range p i : 0 <= be16 p i < 2 ^ 16.
Proof.
  unfold be16, zat. pose proof (bz_range (at_ p i)). pose proof (bz_range (at_ p (i + 1))). lia.
Qed.

(** A field behind a prefix. *)
Lemma be16_at a v r i : i = length a -> 0 <= v < 2 ^ 16 -> be16 (a ++ enc_be16 v ++ r) i = v.
Proof.
  intros -> Hv. rewrite <- (Nat.add_0_r (length a)), <- be16_drop, drop_app_length. by apply be16_enc.
Qed.

Lemma be32_at a v r i : i = length a -> 0 <= v < 2 ^ 32 -> be32 (a ++ enc_be32 v ++ r) i = v.
Proof.
  intros -> Hv. rewrite <- (Nat.add_0_r (length a)), <- be32_drop, drop_app_length. by apply be32_enc.
Qed.

(** ** A packetiser (RFC 6184)

    A sender cuts an access unit into units: a NAL unit of its own, an
    aggregation of several (STAP-A), or one cut into fragments (FU-A). *)

Inductive unit_ :=
  | Single (nal : list byte)
  | StapA (header : byte) (nals : list (list byte))
  | FuA (hd : byte) (first : list byte) (middle : list (list byte)) (final : list byte).

Definition nal_of_type (lo hi : Z) (b : byte) : Prop := lo <= Z.land (bz b) 0x1f <= hi.

Definition unit_ok (u : unit_) : Prop :=
  match u with
  | Single nal => exists b r, nal = b :: r /\ nal_of_type 1 23 b
  | StapA h nals => nal_of_type 24 24 h /\ nals <> [] /\ Forall (fun n => 0 < zlen n < 2 ^ 16) nals
  | FuA _ _ _ _ => True
  end.

Definition unit_nals (u : unit_) : list (list byte) :=
  match u with
  | Single nal => [nal]
  | StapA _ nals => nals
  | FuA hd first middle final => [hd :: first ++ concat middle ++ final]
  end.

Definition fu_indicator (hd : byte) : byte := zb (Z.lor (Z.land (bz hd) 0xe0) 28).
Definition fu_header (start stop : bool) (hd : byte) : byte :=
  zb (Z.lor (if start then 0x80 else 0) (Z.lor (if stop then 0x40 else 0) (Z.land (bz hd) 0x1f))).

Definition fragment (hd : byte) (start stop : bool) (data : list byte) : list byte :=
  fu_indicator hd :: fu_header start stop hd :: data.

Definition unit_payloads (u : unit_) : list (list byte) :=
  match u with
  | Single nal => [nal]
  | StapA h nals => [h :: concat ((fun n => enc_be16 (zlen n) ++ n) <$> nals)]
  | FuA hd first middle final =>
      fragment hd true false first :: (fragment hd false false <$> middle) ++ [fragment hd false true final]
  end.

(** Access units with their times: the marker is on the last packet of each,
    the end of the access unit on its last NAL unit. *)
Fixpoint mark_last {A} (l : list A) : list (bool * A) :=
  match l with
  | [] => []
  | x :: l' => (match l' with [] => true | _ => false end, x) :: mark_last l'
  end.

Definition AccessUnit : Type := Z * list unit_.

Definition au_jobs (au : AccessUnit) : list (Z * bool * list byte) :=
  (fun '(m, p) => (au.1, m, p)) <$> mark_last (concat (unit_payloads <$> au.2)).

Definition au_nalus (au : AccessUnit) : list Nalu :=
  (fun '(m, n) => {| n_data := n; rtp_ts_90khz := au.1; au_end := m |}) <$>
  mark_last (concat (unit_nals <$> au.2)).

(** RTP packets: contributing sources and a header extension as they come. *)
Record RtpHeader := { h_seq : Z; h_ssrc : Z; h_csrcs : list byte; h_ext : option (list byte * list byte) }.

Definition header_ok (h : RtpHeader) : Prop :=
  (exists cc, length (h_csrcs h) = (4 * cc)%nat /\ (cc < 16)%nat) /\
  match h_ext h with
  | None => True
  | Some (profile, data) =>
      length profile = 2%nat /\ exists w, length data = (4 * w)%nat /\ Z.of_nat w < 2 ^ 16
  end.

Definition ext_bytes (h : RtpHeader) : list byte :=
  match h_ext h with
  | None => []
  | Some (profile, data) => profile ++ enc_be16 (zlen data / 4) ++ data
  end.

Definition rtp_packet (h : RtpHeader) (pt : Z) (ts : Z) (m : bool) (payload : list byte) : list byte :=
  [zb (0x80 + (match h_ext h with None => 0 | Some _ => 0x10 end) + zlen (h_csrcs h) / 4);
   zb ((if m then 0x80 else 0) + pt)]
  ++ enc_be16 (h_seq h) ++ enc_be32 ts ++ enc_be32 (h_ssrc h) ++ h_csrcs h ++ ext_bytes h ++ payload.

(** Packets the client passes over. *)
Definition foreign (pt : Z) (p : list byte) : Prop :=
  (length p < 12)%nat \/ Z.shiftr (zat p 0) 6 <> 2 \/ Z.land (zat p 1) 0x7f <> pt.

(** The packets of a stream, with foreign packets anywhere between them. *)
Inductive carried (pt : Z) : list (Z * bool * list byte) -> list (list byte) -> Prop :=
  | carried_nil : carried pt [] []
  | carried_job h ts m p js ps :
      header_ok h -> carried pt js ps -> carried pt ((ts, m, p) :: js) (rtp_packet h pt ts m p :: ps)
  | carried_foreign q js ps : foreign pt q -> carried pt js ps -> carried pt js (q :: ps).

Lemma be32_range p i : 0 <= be32 p i < 2 ^ 32.
Proof.
  unfold be32, zat. pose proof (bz_range (at_ p i)). pose proof (bz_range (at_ p (i + 1))).
  pose proof (bz_range (at_ p (i + 2))). pose proof (bz_range (at_ p (i + 3))). lia.
Qed.

Lemma first_byte (ext : bool) cc :
  0 <= cc < 16 ->
  let b := zb (0x80 + (if ext then 0x10 else 0) + cc) in
  Z.shiftr (bz b) 6 = 2 /\ Z.land (bz b) 0x0f = cc /\ negb (Z.land (bz b) 0x10 =? 0) = ext.
Proof.
  intros Hcc b.
  pose proof (below_forall (fun cc => let b := zb (0x80 + (if ext then 0x10 else 0) + cc) in
    (Z.shiftr (bz b) 6 =? 2) && (Z.land (bz b) 0x0f =? cc) && eqb (negb (Z.land (bz b) 0x10 =? 0)) ext) 16
    ltac:(destruct ext; vm_compute; reflexivity) cc Hcc) as H.
  apply andb_prop in H as [[H1%Z.eqb_eq H2%Z.eqb_eq]%andb_prop H3%eqb_prop]. done.
Qed.

Lemma second_byte (m : bool) pt :
  0 <= pt < 128 ->
  let b := zb ((if m then 0x80 else 0) + pt) in
  Z.land (bz b) 0x7f = pt /\ negb (Z.land (bz b) 0x80 =? 0) = m.
Proof.
  intros Hpt b.
  pose proof (below_forall (fun pt => let b := zb ((if m then 0x80 else 0) + pt) in
    (Z.land (bz b) 0x7f =? pt) && eqb (negb (Z.land (bz b) 0x80 =? 0)) m) 128
    ltac:(destruct m; vm_compute; reflexivity) pt Hpt) as H.
  apply andb_prop in H as [H1%Z.eqb_eq H2%eqb_prop]. done.
Qed.

(** The fixed part of a packet, and what follows it. *)
Lemma packet_shape h pt ts m p :
  exists fixed, rtp_packet h pt ts m p = fixed ++ h_csrcs h ++ ext_bytes h ++ p /\ length fixed = 12%nat.
Proof. unfold rtp_packet. rewrite !app_assoc, <- !(app_assoc _ _ p), <- (app_assoc _ (h_csrcs h)). by eexists. Qed.

Lemma packet_offset h pt ts m p :
  header_ok h ->
  exists off, payload_offset (rtp_packet h pt ts m p) = Some off /\ drop off (rtp_packet h pt ts m p) = p.
Proof.
  intros [(cc & Hcc & Hcc16) Hext]. destruct (packet_shape h pt ts m p) as (fixed & E & Hf).
  assert (Hz : zlen (h_csrcs h) / 4 = Z.of_nat cc) by (unfold zlen; rewrite Hcc; Z.to_euclidean_division_equations; lia).
  unfold payload_offset.
  assert (Hb : zat (rtp_packet h pt ts m p) 0 =
    bz (zb (0x80 + (if match h_ext h with None => false | Some _ => true end then 0x10 else 0) + Z.of_nat cc))).
  { rewrite <- Hz. unfold rtp_packet, zat. by destruct (h_ext h). }
  rewrite Hb. destruct (first_byte (match h_ext h with None => false | Some _ => true end) (Z.of_nat cc))
    as (_ & H2 & H3); [lia|].
  cbv zeta in H2, H3. rewrite H2, H3, Nat2Z.id. clear Hb H2 H3. rewrite E. unfold ext_bytes.
  destruct (h_ext h) as [[profile data]|].
  - destruct Hext as [Hp (w & Hw & Hw16)].
    assert (Hz' : zlen data / 4 = Z.of_nat w) by (unfold zlen; rewrite Hw; Z.to_euclidean_division_equations; lia).
    rewrite Hz'. destruct (Nat.ltb_spec (length (fixed ++ h_csrcs h ++ (profile ++ enc_be16 (Z.of_nat w) ++ data) ++ p))
      (12 + 4 * cc + 4)) as [H|_].
    { rewrite !length_app in H. cbn [enc_be16 length] in H. lia. }
    assert (Hat : be16 (fixed ++ h_csrcs h ++ (profile ++ enc_be16 (Z.of_nat w) ++ data) ++ p) (12 + 4 * cc + 2) = Z.of_nat w).
    { rewrite <- !app_assoc, !(app_assoc fixed), !(app_assoc (fixed ++ h_csrcs h)).
      apply be16_at; [rewrite !length_app; lia | lia]. }
    rewrite Hat, Nat2Z.id. eexists. split; [reflexivity|].
    rewrite <- !app_assoc, !(app_assoc fixed), !(app_assoc (fixed ++ h_csrcs h)), !(app_assoc ((fixed ++ h_csrcs h) ++ profile)),
      !(app_assoc (((fixed ++ h_csrcs h) ++ profile) ++ _)).
    apply drop_app_length'. rewrite !length_app. cbn [enc_be16 length]. lia.
  - eexists. split; [reflexivity|]. cbn [app]. rewrite app_assoc. apply drop_app_length'. rewrite length_app. lia.
Qed.

Lemma decode_packet h pt ts m p d :
  header_ok h -> 0 <= pt < 128 -> 0 <= ts < 2 ^ 32 -> p <> [] ->
  decode_rtp_h264 pt (rtp_packet h pt ts m p) d = decode_payload ts m p d.
Proof.
  intros Hh Hpt Hts Hp. unfold decode_rtp_h264.
  destruct (packet_offset h pt ts m p Hh) as (off & -> & Hd).
  destruct (Nat.leb_spec (length (rtp_packet h pt ts m p)) off) as [Hle|_].
  { apply drop_ge in Hle. congruence. }
  rewrite Hd. destruct Hh as [(cc & Hcc & Hcc16) _].
  assert (Hz : zlen (h_csrcs h) / 4 = Z.of_nat cc) by (unfold zlen; rewrite Hcc; Z.to_euclidean_division_equations; lia).
  destruct (packet_shape h pt ts m p) as (fixed & E & Hf).
  destruct (Nat.ltb_spec (length (rtp_packet h pt ts m p)) 12) as [H|_].
  { rewrite E, !length_app in H. lia. }
  assert (Hb0 : zat (rtp_packet h pt ts m p) 0 =
    bz (zb (0x80 + (if match h_ext h with None => false | Some _ => true end then 0x10 else 0) + Z.of_nat cc))).
  { rewrite <- Hz. unfold rtp_packet, zat. by destruct (h_ext h). }
  destruct (first_byte (match h_ext h with None => false | Some _ => true end) (Z.of_nat cc)) as (H1 & _); [lia|].
  rewrite Hb0. cbv zeta in H1. rewrite H1. cbn [Z.eqb Pos.eqb negb].
  change (zat (rtp_packet h pt ts m p) 1) with (bz (zb ((if m then 0x80 else 0) + pt))).
  destruct (second_byte m pt Hpt) as (H2 & H3). cbv zeta in H2, H3. rewrite H2, H3, Z.eqb_refl. cbn [negb].
  f_equal. unfold rtp_packet. rewrite app_assoc. by apply be32_at.
Qed.

(** ** Units come out whole *)

Definition mark {A} (final : bool) (l : list A) : list (bool * A) :=
  if final then mark_last l else (fun x => (false, x)) <$> l.

Lemma mark_last_app {A} (l l' : list A) : l' <> [] -> mark_last (l ++ l') = mark false l ++ mark_last l'.
Proof.
  intros Hl'. induction l as [|x l IH]; [done|]. cbn [mark_last app]. rewrite IH.
  destruct (l ++ l') as [|] eqn:E; [|done]. by apply app_eq_nil in E as [_ ->].
Qed.

Definition nalu (ts : Z) (x : bool * list byte) : Nalu :=
  {| n_data := x.2; rtp_ts_90khz := ts; au_end := x.1 |}.

Definition run_job (d : Demux) (job : Z * bool * list byte) : Demux := decode_payload job.1.1 job.1.2 job.2 d.

Lemma stap_units_all ts m nals : forall fuel,
  Forall (fun n => 0 < zlen n < 2 ^ 16) nals -> (length nals < fuel)%nat ->
  stap_units fuel ts m (concat ((fun n => enc_be16 (zlen n) ++ n) <$> nals)) = nalu ts <$> mark m nals.
Proof.
  induction nals as [|n nals IH]; intros fuel Hn Hf; (destruct fuel as [|fuel]; [lia|]).
  { by destruct m. }
  apply Forall_cons in Hn as [Hn Hns]. cbn [fmap list_fmap concat stap_units].
  rewrite <- app_assoc.
  destruct (Nat.ltb_spec (length (enc_be16 (zlen n) ++ n ++ concat ((fun n => enc_be16 (zlen n) ++ n) <$> nals))) 2) as [H|_].
  { rewrite length_app in H. cbn [enc_be16 length] in H. lia. }
  rewrite be16_enc by lia. rewrite (drop_app_length' (enc_be16 (zlen n))) by done. rewrite to_nat_zlen.
  destruct (Nat.eqb_spec (length n) 0) as [H|_]; [unfold zlen in Hn; lia|].
  rewrite length_app. destruct (Nat.ltb_spec (length n + length (concat ((fun n => enc_be16 (zlen n) ++ n) <$> nals))) (length n)) as [|_]; [lia|].
  cbn [orb]. rewrite take_app_length, drop_app_length, IH by (done || (cbn [length] in Hf; lia)).
  assert (Hlen : (length n + length (concat ((fun n => enc_be16 (zlen n) ++ n) <$> nals)) =? length n)%nat =
                 match nals with [] => true | _ => false end).
  { destruct nals as [|n' nals]; cbn [fmap list_fmap concat length]; [by rewrite Nat.add_0_r, Nat.eqb_refl|].
    apply Nat.eqb_neq. rewrite !length_app. cbn [enc_be16 length]. lia. }
  rewrite Hlen. destruct m; [|done]. by destruct nals.
Qed.

Lemma fu_bytes (hd : byte) (start stop : bool) :
  Z.land (bz (fu_indicator hd)) 0x1f = 28 /\
  negb (Z.land (bz (fu_header start stop hd)) 0x80 =? 0) = start /\
  negb (Z.land (bz (fu_header start stop hd)) 0x40 =? 0) = stop /\
  zb (Z.lor (Z.land (bz (fu_indicator hd)) 0xe0) (Z.land (Z.land (bz (fu_header start stop hd)) 0x1f) 0x1f)) = hd.
Proof.
  pose proof (byte_forall (fun hd => (Z.land (bz (fu_indicator hd)) 0x1f =? 28) &&
    eqb (negb (Z.land (bz (fu_header start stop hd)) 0x80 =? 0)) start &&
    eqb (negb (Z.land (bz (fu_header start stop hd)) 0x40 =? 0)) stop &&
    beq (zb (Z.lor (Z.land (bz (fu_indicator hd)) 0xe0) (Z.land (Z.land (bz (fu_header start stop hd)) 0x1f) 0x1f))) hd)
    ltac:(destruct start, stop; vm_compute; reflexivity) hd) as H.
  apply andb_prop in H as [[[H1%Z.eqb_eq H2%eqb_prop]%andb_prop H3%eqb_prop]%andb_prop H4%beq_eq]. done.
Qed.

Lemma decode_fragment ts m hd start stop data d :
  decode_payload ts m (fragment hd start stop data) d =
  (let fed :=
     if start then Some {| nalu_queue := nalu_queue d; fu_buf := hd :: data; fu_ts := ts; fu_au_end := m |}
     else match fu_buf d with
          | [] => None
          | _ => Some {| nalu_queue := nalu_queue d; fu_buf := fu_buf d ++ data; fu_ts := fu_ts d;
                         fu_au_end := if m then true else fu_au_end d |}
          end in
   match fed with None => d | Some d => if stop then fu_finish d else d end).
Proof.
  destruct (fu_bytes hd start stop) as (H1 & H2 & H3 & H4). unfold decode_payload.
  change (zat (fragment hd start stop data) 0) with (bz (fu_indicator hd)). rewrite H1.
  unfold decode_fu_a.
  change (zat (fragment hd start stop data) 0) with (bz (fu_indicator hd)).
  change (zat (fragment hd start stop data) 1) with (bz (fu_header start stop hd)).
  cbn [Z.leb Z.eqb Z.compare Pos.compare Pos.compare_cont andb Pos.eqb fragment length Nat.ltb Nat.leb drop].
  rewrite H2, H3, H4. done.
Qed.

Lemma run_middle ts hd middle : forall d, fu_buf d <> [] ->
  foldl run_job d ((fun p => (ts, false, p)) <$> (fragment hd false false <$> middle)) =
  {| nalu_queue := nalu_queue d; fu_buf := fu_buf d ++ concat middle; fu_ts := fu_ts d; fu_au_end := fu_au_end d |}.
Proof.
  induction middle as [|x middle IH]; intros d Hd; cbn [fmap list_fmap foldl concat].
  { rewrite app_nil_r. by destruct d. }
  unfold run_job at 2. cbn [fst snd]. rewrite decode_fragment. cbv zeta.
  destruct (fu_buf d) as [|b buf] eqn:E; [done|]. cbn [app]. rewrite IH by done.
  cbn [nalu_queue fu_buf fu_ts fu_au_end app]. by rewrite <- app_assoc.
Qed.

Lemma run_unit ts final u d :
  unit_ok u ->
  nalu_queue (foldl run_job d ((fun '(m, p) => (ts, m, p)) <$> mark final (unit_payloads u))) =
  nalu_queue d ++ (nalu ts <$> mark final (unit_nals u)).
Proof.
  intros Hu. destruct u as [nal|h nals|hd first middle last_]; cbn [unit_ok unit_payloads unit_nals] in *.
  - destruct Hu as (b & r & -> & Hb). unfold nal_of_type in Hb.
    assert (Hj : forall m, run_job d (ts, m, b :: r) =
      push_nalus [{| n_data := b :: r; rtp_ts_90khz := ts; au_end := m |}] d).
    { intros m. unfold run_job, decode_payload. cbn [fst snd]. change (zat (b :: r) 0) with (bz b).
      destruct (Z.leb_spec 1 (Z.land (bz b) 0x1f)); [|lia].
      destruct (Z.leb_spec (Z.land (bz b) 0x1f) 23); [done|lia]. }
    destruct final; cbn [mark mark_last fmap list_fmap foldl]; by rewrite Hj.
  - destruct Hu as (Hh & Hne & Hall). unfold nal_of_type in Hh.
    assert (Hj : forall m, nalu_queue (run_job d (ts, m, h :: concat ((fun n => enc_be16 (zlen n) ++ n) <$> nals))) =
      nalu_queue d ++ (nalu ts <$> mark m nals)).
    { intros m. unfold run_job, decode_payload. cbn [fst snd].
      change (zat (h :: concat ((fun n => enc_be16 (zlen n) ++ n) <$> nals)) 0) with (bz h).
      assert (Z.land (bz h) 0x1f = 24) as -> by lia.
      cbn [Z.leb Z.eqb Z.compare Pos.compare Pos.compare_cont andb Pos.eqb push_nalus nalu_queue drop].
      f_equal. apply stap_units_all; [done|]. cbn [length]. apply Nat.lt_succ_r.
      clear -Hall. induction Hall as [|n nals Hn Hall IH]; [done|].
      cbn [fmap list_fmap concat length]. rewrite !length_app. cbn [enc_be16 length]. lia. }
    destruct final; cbn [mark mark_last fmap list_fmap foldl]; by rewrite Hj.
  - assert (Hrun : forall m, nalu_queue (foldl run_job d ((ts, false, fragment hd true false first)
        :: ((fun p => (ts, false, p)) <$> (fragment hd false false <$> middle)) ++ [(ts, m, fragment hd false true last_)])) =
        nalu_queue d ++ [{| n_data := hd :: first ++ concat middle ++ last_; rtp_ts_90khz := ts; au_end := m |}]).
    { intros m. cbn [foldl]. unfold run_job at 2. cbn [fst snd]. rewrite decode_fragment. cbv zeta.
      rewrite foldl_app, run_middle by done. cbn [foldl]. unfold run_job. cbn [fst snd].
      rewrite decode_fragment. cbn [nalu_queue fu_buf fu_ts fu_au_end app fu_finish].
      by rewrite <- app_assoc; destruct m. }
    destruct final; cbn [mark].
    + assert (E : mark_last (fragment hd true false first :: (fragment hd false false <$> middle) ++ [fragment hd false true last_])
                  = (false, fragment hd true false first) :: ((fun p => (false, p)) <$> (fragment hd false false <$> middle))
                    ++ [(true, fragment hd false true last_)]).
      { change (?x :: ?a ++ ?b) with ((x :: a) ++ b). by rewrite mark_last_app. }
      rewrite E. cbn [fmap list_fmap]. rewrite fmap_app, <- list_fmap_compose. apply Hrun.
    + cbn [fmap list_fmap]. rewrite !fmap_app, <- !list_fmap_compose. rewrite list_fmap_compose. apply Hrun.
Qed.

Lemma unit_payloads_not_nil u : unit_payloads u <> [].
Proof. by destruct u. Qed.

Lemma unit_nals_not_nil u : unit_ok u -> unit_nals u <> [].
Proof. destruct u; cbn; [done | by intros (_ & ? & _) | done]. Qed.

Lemma concat_fmap_snoc {A B} (f : A -> list B) us u : concat (f <$> (us ++ [u])) = concat (f <$> us) ++ f u.
Proof. rewrite fmap_app, concat_app. cbn. by rewrite app_nil_r. Qed.

Lemma mark_false_app {A} (l l' : list A) : mark false (l ++ l') = mark false l ++ mark false l'.
Proof. apply fmap_app. Qed.

Lemma mark_concat {A B} (f : A -> list B) us u :
  f u <> [] -> mark_last (concat (f <$> (us ++ [u]))) = concat ((fun u => mark false (f u)) <$> us) ++ mark true (f u).
Proof.
  intros Hu. rewrite concat_fmap_snoc, mark_last_app by done. f_equal.
  induction us as [|v us IH]; [done|]. cbn [fmap list_fmap concat]. by rewrite mark_false_app, IH.
Qed.

Definition au_ok (au : AccessUnit) : Prop := 0 <= au.1 < 2 ^ 32 /\ au.2 <> [] /\ Forall unit_ok au.2.

Lemma run_units ts us : forall d, Forall unit_ok us ->
  nalu_queue (foldl run_job d ((fun '(m, p) => (ts, m, p)) <$> concat ((fun u => mark false (unit_payloads u)) <$> us))) =
  nalu_queue d ++ (nalu ts <$> concat ((fun u => mark false (unit_nals u)) <$> us)).
Proof.
  induction us as [|u us IH]; intros d Hus; [cbn; by rewrite app_nil_r|].
  apply Forall_cons in Hus as [Hu Hus]. cbn [fmap list_fmap concat].
  rewrite !fmap_app, foldl_app, IH, run_unit, app_assoc by done. done.
Qed.

Lemma run_au au d :
  au_ok au -> nalu_queue (foldl run_job d (au_jobs au)) = nalu_queue d ++ au_nalus au.
Proof.
  destruct au as [ts us]. intros (Hts & Hne & Hok). cbn [fst snd] in *. unfold au_jobs, au_nalus. cbn [fst snd].
  destruct (exists_last Hne) as (us' & u & ->). apply Forall_app in Hok as [Hus' [Hu _]%Forall_cons].
  rewrite (mark_concat unit_payloads) by apply unit_payloads_not_nil.
  rewrite (mark_concat unit_nals) by by apply unit_nals_not_nil.
  rewrite !fmap_app, foldl_app, run_unit, run_units by done. rewrite <- app_assoc. do 2 f_equal;
    by apply list_fmap_ext; intros ? [].
Qed.

Lemma run_aus aus : forall d,
  Forall au_ok aus -> nalu_queue (foldl run_job d (concat (au_jobs <$> aus))) = nalu_queue d ++ concat (au_nalus <$> aus).
Proof.
  induction aus as [|au aus IH]; intros d Haus; [cbn; by rewrite app_nil_r|].
  apply Forall_cons in Haus as [Hau Haus]. cbn [fmap list_fmap concat].
  rewrite foldl_app, IH, run_au, app_assoc by done. done.
Qed.

(** Every payload of a well-formed stream is non-empty. *)
Definition job_ok (job : Z * bool * list byte) : Prop := 0 <= job.1.1 < 2 ^ 32 /\ job.2 <> [].

Lemma au_jobs_ok au : au_ok au -> Forall job_ok (au_jobs au).
Proof.
  intros (Hts & _ & Hok). unfold au_jobs. apply Forall_fmap.
  assert (Hp : Forall (fun p => p <> []) (concat (unit_payloads <$> au.2))).
  { apply Forall_concat, Forall_fmap. eapply Forall_impl; [exact Hok|]. intros u Hu.
    destruct u as [nal|h nals|hd first middle last_]; cbn [unit_payloads compose] in *.
    - destruct Hu as (b & r & -> & _). by repeat constructor.
    - by repeat constructor.
    - constructor; [done|]. apply Forall_app. split; [|by repeat constructor].
      apply Forall_fmap, Forall_true. done. }
  induction (concat (unit_payloads <$> au.2)) as [|p l IH]; cbn [mark_last]; [constructor|].
  apply Forall_cons in Hp as [Hp Hl]. constructor; [done | by apply IH].
Qed.

Lemma carried_run pt js ps :
  0 <= pt < 128 -> carried pt js ps -> Forall job_ok js ->
  forall d, foldl (fun d p => decode_rtp_h264 pt p d) d ps = foldl run_job d js.
Proof.
  intros Hpt Hc. induction Hc as [|h ts m p js ps Hh Hc IH|q js ps Hq Hc IH]; intros Hjs d; [done| |].
  - apply Forall_cons in Hjs as [[Hts Hp] Hjs]. cbn [fst snd foldl] in *.
    rewrite decode_packet by done. by apply IH.
  - cbn [foldl]. rewrite IH by done. f_equal. unfold decode_rtp_h264.
    destruct (Nat.ltb_spec (length q) 12); [done|].
    destruct (Z.eqb_spec (Z.shiftr (zat q 0) 6) 2); [|done].
    destruct (Z.eqb_spec (Z.land (zat q 1) 0x7f) pt); [|done]. destruct Hq as [Hq|[Hq|Hq]]; lia || done.
Qed.

(** Depacketisation inverts packetisation: for every stream of access
    units that a sender cuts into single NAL unit packets, aggregations and
    fragments, with any headers and with packets of other formats in between,
    the NAL units come out complete and in order, each with its time stamp, and
    the end of the access unit on its last NAL unit only; whatever was left
    in the fragment buffer before. *)
Lemma rtp_roundtrip (track : H264Track) (aus : list AccessUnit) (ps : list (Z * list byte)) (s : Stats) (d : Demux) :
  0 <= rtp_pt track < 128 -> Forall au_ok aus -> carried (rtp_pt track) (concat (au_jobs <$> aus)) ps.*2 ->
  nalu_queue (foldl (fun '(s, d) '(elapsed, p) => handle_rtp track elapsed p s d) (s, d) ps).2 =
  nalu_queue d ++ concat (au_nalus <$> aus).
Proof.
  intros Hpt Haus Hc. rewrite <- run_aus by done.
  rewrite <- (carried_run _ _ _ Hpt Hc).
  - f_equal. clear. revert s d. induction ps as [|[t p] ps IH]; intros s d; [done|].
    cbn [foldl fmap list_fmap snd]. unfold handle_rtp at 2. apply IH.
  - apply Forall_concat, Forall_fmap. eapply Forall_impl; [exact Haus|]. apply au_jobs_ok.
Qed.

(** ** Reports say what was lost (RFC 3550, appendix A.3)

    A packet is known here by its extended sequence number, which does not
    wrap; on the wire are its low 16 bits. *)

Record Arrival := { a_ext : Z; a_ts : Z; a_elapsed : Z }.

Definition receive (rate ssrc : Z) (s : Stats) (xs : list Arrival) : Stats :=
  foldl (fun s x => update_rtp_stats rate (a_elapsed x) (a_ext x mod 2 ^ 16) (a_ts x) ssrc s) s xs.

Definition highest (m : Z) (xs : list Arrival) : Z := foldl (fun m x => Z.max m (a_ext x)) m xs.

(** Packets may be lost, doubled and out of order within half the number
    space of the highest one. *)
Fixpoint near (m : Z) (xs : list Arrival) : Prop :=
  match xs with
  | [] => True
  | x :: xs => - 2 ^ 15 <= a_ext x - m < 2 ^ 15 /\ near (Z.max m (a_ext x)) xs
  end.

(** The counters after [n] packets from [x0] on, the highest being [m], when
    the last report covered [e] numbers and [r] packets. *)
Record tracks (s : Stats) (ssrc x0 m n e r : Z) : Prop := {
  tr_init : seq_initialised s = true;
  tr_ssrc : peer_ssrc s = ssrc;
  tr_base : base_seq s = x0;
  tr_max : max_seq s = m mod 2 ^ 16;
  tr_cycles : seq_cycles s = u32 (m - m mod 2 ^ 16);
  tr_received : packets_received s = u32 n;
  tr_expected_prior : expected_prior s = e;
  tr_received_prior : received_prior s = r
}.

Lemma cycles_step m x :
  m <= x < m + 2 ^ 15 ->
  x - x mod 2 ^ 16 = m - m mod 2 ^ 16 + (if x mod 2 ^ 16 <? m mod 2 ^ 16 then 0x10000 else 0).
Proof. intros H. destruct (Z.ltb_spec (x mod 2 ^ 16) (m mod 2 ^ 16)); Z.to_euclidean_division_equations; lia. Qed.

Lemma forward_iff m x :
  - 2 ^ 15 <= x - m < 2 ^ 15 -> (u16 (x mod 2 ^ 16 - m mod 2 ^ 16) <? 0x8000) = (m <=? x).
Proof.
  intros H. unfold u16. rewrite <- Zminus_mod. destruct (Z.leb_spec m x).
  - rewrite Z.mod_small by lia. apply Z.ltb_lt. lia.
  - rewrite <- (Z.mod_unique (x - m) (2 ^ 16) (-1) (x - m + 2 ^ 16)) by lia. apply Z.ltb_ge. lia.
Qed.

Lemma u32_add_l a b : u32 (u32 a + b) = u32 (a + b).
Proof. apply Zplus_mod_idemp_l. Qed.

Lemma tracks_step rate s ssrc x0 m n e r x :
  tracks s ssrc x0 m n e r -> - 2 ^ 15 <= a_ext x - m < 2 ^ 15 ->
  tracks (receive rate ssrc s [x]) ssrc x0 (Z.max m (a_ext x)) (n + 1) e r.
Proof.
  intros [H1 H2 H3 H4 H5 H6 H7 H8] Hx. unfold receive, update_rtp_stats, note_transit, note_seq. cbn [foldl].
  rewrite H1, H4, forward_iff by done. cbn [negb orb].
  split; cbn [seq_initialised peer_ssrc base_seq max_seq seq_cycles packets_received expected_prior received_prior];
    try done.
  - destruct (Z.leb_spec m (a_ext x)); [rewrite Z.max_r by lia | rewrite Z.max_l by lia]; done.
  - destruct (Z.leb_spec m (a_ext x)) as [Hle|Hle]; cbn [andb]; [|by rewrite Z.max_l by lia].
    rewrite Z.max_r, (cycles_step m (a_ext x)) by lia.
    destruct (a_ext x mod 2 ^ 16 <? m mod 2 ^ 16); [by rewrite H5, u32_add_l | by rewrite Z.add_0_r].
  - by rewrite H6, u32_add_l.
Qed.

Lemma receive_cons rate ssrc s x xs : receive rate ssrc s (x :: xs) = receive rate ssrc (receive rate ssrc s [x]) xs.
Proof. done. Qed.

Lemma tracks_all rate ssrc x0 e r xs : forall s m n,
  tracks s ssrc x0 m n e r -> near m xs ->
  tracks (receive rate ssrc s xs) ssrc x0 (highest m xs) (n + zlen xs) e r.
Proof.
  induction xs as [|x xs IH]; intros s m n Hs Hn.
  - replace (n + zlen []) with n by (unfold zlen; cbn; lia). done.
  - destruct Hn as [Hx Hn]. rewrite receive_cons. unfold highest. cbn [foldl].
    replace (n + zlen (x :: xs)) with (n + 1 + zlen xs) by (unfold zlen; cbn [length]; lia).
    apply IH; [by apply tracks_step | done].
Qed.

Lemma tracks_first rate s ssrc x :
  seq_initialised s = false -> 0 <= a_ext x < 2 ^ 16 ->
  tracks (receive rate ssrc s [x]) ssrc (a_ext x) (a_ext x) 1 0 0.
Proof.
  intros H Hx. unfold receive, update_rtp_stats, note_transit, note_seq. cbn [foldl]. rewrite H.
  split; cbn [seq_initialised peer_ssrc base_seq max_seq seq_cycles packets_received expected_prior received_prior
              negb orb]; try done.
  - by apply Z.mod_small.
  - rewrite Z.mod_small by done. by rewrite Z.sub_diag.
Qed.

Lemma highest_ge xs : forall m, m <= highest m xs.
Proof.
  induction xs as [|x xs IH]; intros m; [done|]. unfold highest. cbn [foldl].
  specialize (IH (Z.max m (a_ext x))). unfold highest in IH. lia.
Qed.

(** What a report block should say of the loss: of [e] packets expected since
    the last report [r] came, of [te] expected in all [tr] came. *)
Definition loss_block (e r te tr m : Z) : Z * Z * Z :=
  (if r <? e then 256 * (e - r) / e else 0, Z.min 0x7fffff (Z.max 0 (te - tr)), m).

Definition report_block (p : list byte) : Z * Z * Z :=
  (zat p 12, 2 ^ 16 * zat p 13 + 2 ^ 8 * zat p 14 + zat p 15, be32 p 16).

Lemma extended_max_tracks s ssrc x0 m n e r : tracks s ssrc x0 m n e r -> extended_max s = u32 m.
Proof.
  intros [_ _ _ H4 H5 _ _ _]. unfold extended_max. rewrite H4, H5, u32_add_l. f_equal. lia.
Qed.

Lemma expected_tracks s ssrc x0 m n e r : tracks s ssrc x0 m n e r -> expected s = u32 (m - x0 + 1).
Proof.
  intros H. unfold expected. rewrite (extended_max_tracks _ _ _ _ _ _ _ H), (tr_base _ _ _ _ _ _ _ H).
  unfold u32. rewrite <- (Zplus_mod_idemp_l (m - x0)), <- (Zminus_mod_idemp_l m), Zplus_mod_idemp_l. done.
Qed.

Lemma length_enc_be32 v : length (enc_be32 v) = 4%nat.
Proof. done. Qed.

Lemma be32_enc_mod v r : be32 (enc_be32 v ++ r) 0 = u32 v.
Proof.
  unfold be32, enc_be32, zat, at_, u32. cbn [app]. change 0xff with (Z.ones 8).
  cbn [lookup_total list_lookup_total Nat.add]. rewrite !bz_zb, !Z.land_ones, !Z.shiftr_div_pow2 by lia.
  change (2 ^ 8) with 256. change (2 ^ 24) with 16777216. change (2 ^ 16) with 65536.
  change (2 ^ 32) with 4294967296. rewrite !Z.mod_mod by lia.
  replace (v / 65536) with (v / 256 / 256) by (by rewrite Z.div_div by lia).
  replace (v / 16777216) with (v / 256 / 256 / 256) by (by rewrite !Z.div_div by lia).
  Z.to_euclidean_division_equations. lia.
Qed.

Lemma be24_enc v : 0 <= v < 2 ^ 24 -> 2 ^ 16 * bz (zb (Z.shiftr v 16)) + 2 ^ 8 * bz (zb (Z.shiftr v 8)) + bz (zb v) = v.
Proof.
  intros Hv. rewrite !bz_zb, !Z.shiftr_div_pow2 by lia.
  change (2 ^ 16) with 65536. change (2 ^ 8) with 256. change (2 ^ 24) with 16777216 in Hv.
  replace (v / 65536) with (v / 256 / 256) by (by rewrite Z.div_div by lia).
  Z.to_euclidean_division_equations. lia.
Qed.

Lemma report_block_fields now s :
  report_block (build_receiver_report now s).1 =
  (fraction_lost s mod 256,
   2 ^ 16 * bz (zb (Z.shiftr (cumulative_lost s) 16)) + 2 ^ 8 * bz (zb (Z.shiftr (cumulative_lost s) 8))
   + bz (zb (cumulative_lost s)),
   u32 (extended_max s)).
Proof.
  unfold report_block, build_receiver_report. cbn [fst]. f_equal; [f_equal|].
  - unfold zat, at_. cbn [enc_be32 app lookup_total list_lookup_total]. by rewrite bz_zb.
  - rewrite <- (be32_enc_mod (extended_max s)
      (enc_be32 (jitter_field s) ++ enc_be32 (if have_sr s then last_sr_middle32 s else 0) ++ enc_be32 (report_dlsr now s))).
    by rewrite <- (Nat.add_0_r 16), <- be32_drop.
Qed.

Lemma report_step s ssrc x0 m n e r now :
  tracks s ssrc x0 m n e r -> x0 <= m -> 0 <= x0 -> m + 1 < 2 ^ 32 -> n < 2 ^ 32 ->
  0 <= e <= m - x0 + 1 -> 0 <= r <= n -> (r = n -> e = m - x0 + 1) ->
  report_block (build_receiver_report now s).1 = loss_block (m - x0 + 1 - e) (n - r) (m - x0 + 1) n m /\
  tracks (build_receiver_report now s).2 ssrc x0 m n (m - x0 + 1) n.
Proof.
  intros Hs Hx Hx0 Hm Hn He Hr Hq.
  pose proof (expected_tracks _ _ _ _ _ _ _ Hs) as Hex. pose proof (extended_max_tracks _ _ _ _ _ _ _ Hs) as Hem.
  rewrite u32_small in Hex by lia. rewrite u32_small in Hem by lia.
  pose proof (tr_received _ _ _ _ _ _ _ Hs) as Hre. rewrite u32_small in Hre by lia.
  split.
  - rewrite report_block_fields, Hem, (u32_small m) by lia. unfold loss_block. do 2 f_equal.
    + unfold fraction_lost. rewrite Hex, Hre, (tr_expected_prior _ _ _ _ _ _ _ Hs),
        (tr_received_prior _ _ _ _ _ _ _ Hs), !u32_small by lia.
      assert (HR : n - r < m - x0 + 1 - e -> 0 < n - r).
      { intros H. destruct (Z.eq_dec r n) as [E|E]; [specialize (Hq E)|]; lia. }
      revert HR. generalize (m - x0 + 1 - e) as E, (n - r) as R. intros E R HR.
      destruct (Z.ltb_spec R E) as [HRE|HRE].
      * destruct (Z.ltb_spec 0 E); [|lia]. destruct (Z.ltb_spec 0 (E - R)); [|lia]. cbn [andb].
        rewrite Z.shiftl_mul_pow2, Z.mul_comm by lia. change (2 ^ 8) with 256.
        unfold u8. change (2 ^ 8) with 256. rewrite Z.mod_mod, Z.mod_small; [done| |lia].
        split; [apply Z.div_pos; lia|]. apply Z.div_lt_upper_bound; lia.
      * destruct (Z.ltb_spec 0 (E - R)); [lia|]. by rewrite andb_false_r.
    + assert (Hc : cumulative_lost s = Z.min 0x7fffff (Z.max 0 (m - x0 + 1 - n))).
      { unfold cumulative_lost. rewrite Hex, Hre. destruct (Z.ltb_spec (m - x0 + 1 - n) 0); [lia|].
        destruct (Z.ltb_spec 0x7fffff (m - x0 + 1 - n)); lia. }
      rewrite Hc. apply be24_enc. lia.
  - destruct Hs. split; cbn [build_receiver_report snd close_interval seq_initialised peer_ssrc base_seq max_seq
      seq_cycles packets_received expected_prior received_prior]; done.
Qed.

(** The quotas of an interval: nothing advances without a packet. *)
Lemma highest_nil m xs : zlen xs = 0 -> highest m xs = m.
Proof. by destruct xs. Qed.

(** A receiver report states the loss of its interval: packets of one
    source arrive from its first on, some lost, doubled or out of order; the
    first report, and the one after any further packets, carry in their blocks
    the fraction lost since the report before, the total lost (clamped to 24
    bits) and the highest extended sequence number. *)
Lemma receiver_report_correct (rate ssrc now1 now2 : Z) (s : Stats) (x : Arrival) (xs ys : list Arrival) :
  seq_initialised s = false -> 0 <= a_ext x < 2 ^ 16 -> near (a_ext x) (xs ++ ys) ->
  highest (a_ext x) (xs ++ ys) + 1 < 2 ^ 32 -> zlen (x :: xs ++ ys) < 2 ^ 32 ->
  let '(p1, s1) := build_receiver_report now1 (receive rate ssrc s (x :: xs)) in
  let '(p2, s2) := build_receiver_report now2 (receive rate ssrc s1 ys) in
  let m1 := highest (a_ext x) xs in let m2 := highest m1 ys in
  let n1 := zlen (x :: xs) in let n2 := n1 + zlen ys in
  report_block p1 = loss_block (m1 - a_ext x + 1) n1 (m1 - a_ext x + 1) n1 m1 /\
  report_block p2 = loss_block (m2 - m1) (zlen ys) (m2 - a_ext x + 1) n2 m2.
Proof.
  intros Hs Hx Hnear Hm Hn. unfold highest in Hm. rewrite foldl_app in Hm.
  fold (highest (a_ext x) xs) in Hm. fold (highest (highest (a_ext x) xs) ys) in Hm.
  assert (Hsplit : near (a_ext x) xs /\ near (highest (a_ext x) xs) ys).
  { clear -Hnear. revert Hnear. generalize (a_ext x) as m. induction xs as [|z xs IH]; intros m H; [done|].
    destruct H as [Hz H]. apply IH in H as [H1 H2]. done. }
  destruct Hsplit as [Hn1 Hn2].
  pose proof (highest_ge xs (a_ext x)) as Hg1. pose proof (highest_ge ys (highest (a_ext x) xs)) as Hg2.
  assert (Hz : zlen (x :: xs ++ ys) = 1 + zlen xs + zlen ys) by (unfold zlen; cbn [length]; rewrite length_app; lia).
  pose proof (zlen_nonneg xs). pose proof (zlen_nonneg ys).
  pose proof (tracks_all rate ssrc (a_ext x) 0 0 xs _ _ _ (tracks_first rate s ssrc x Hs Hx) Hn1) as H1.
  rewrite <- receive_cons in H1.
  destruct (report_step _ _ _ _ _ _ _ now1 H1) as [Hb1 Ht1]; try lia.
  destruct (build_receiver_report now1 (receive rate ssrc s (x :: xs))) as [p1 s1]. cbn [fst snd] in Hb1, Ht1.
  pose proof (tracks_all rate ssrc (a_ext x) _ _ ys _ _ _ Ht1 Hn2) as H2.
  destruct (report_step _ _ _ _ _ _ _ now2 H2) as [Hb2 _]; try lia.
  { intros E. rewrite (highest_nil _ ys) by lia. done. }
  destruct (build_receiver_report now2 (receive rate ssrc s1 ys)) as [p2 s2]. cbn [fst snd] in Hb2.
  cbv zeta. replace (zlen (x :: xs)) with (1 + zlen xs) by (unfold zlen; cbn [length]; lia).
  split; [rewrite Hb1 | rewrite Hb2]; f_equal; lia.
Qed.

(** ** Compound packets *)

(** An RTCP packet: the count in its first byte, its type, and a body of whole
    32-bit words. *)
Record RtcpPacket := { rc_count : Z; rc_type : Z; rc_body : list byte }.

Definition rtcp_ok (p : RtcpPacket) : Prop :=
  0 <= rc_count p < 32 /\ 0 <= rc_type p < 256 /\ exists w, length (rc_body p) = (4 * w)%nat /\ Z.of_nat w < 2 ^ 16.

Definition rtcp_bytes (p : RtcpPacket) : list byte :=
  [zb (0x80 + rc_count p); zb (rc_type p)] ++ enc_be16 (zlen (rc_body p) / 4) ++ rc_body p.

(** What a receiver takes from it. *)
Definition is_sr (p : RtcpPacket) : bool := (rc_type p =? kRtcpSr) && (16 <=? length (rc_body p))%nat.

Fixpoint rtcp_effect (now : Z) (ps : list RtcpPacket) (s : Stats) : Stats * bool :=
  match ps with
  | [] => (s, false)
  | p :: ps =>
      if is_sr p then rtcp_effect now ps (note_sr (be32 (rc_body p) 4) (be32 (rc_body p) 8) now s)
      else if rc_type p =? kRtcpBye then (s, true)
      else rtcp_effect now ps s
  end.

Lemma rtcp_first_byte c : 0 <= c < 32 -> Z.shiftr (bz (zb (0x80 + c))) 6 = 2.
Proof.
  intros Hc. pose proof (below_forall (fun c => Z.shiftr (bz (zb (0x80 + c))) 6 =? 2) 32 eq_refl c Hc) as H.
  by apply Z.eqb_eq in H.
Qed.

Lemma be32_app_l p r i : (i + 4 <= length p)%nat -> be32 (p ++ r) i = be32 p i.
Proof.
  intros H. unfold be32, zat, at_. by rewrite !lookup_total_app_l by lia.
Qed.

Lemma rtcp_body_at p rest i :
  (i + 4 <= length (rc_body p))%nat -> be32 (rtcp_bytes p ++ rest) (4 + i) = be32 (rc_body p) i.
Proof.
  intros H. rewrite <- be32_drop. change (drop 4 (rtcp_bytes p ++ rest)) with (rc_body p ++ rest).
  by apply be32_app_l.
Qed.

Lemma handle_rtcp_compound now ps : forall fuel s,
  Forall rtcp_ok ps -> (length ps < fuel)%nat ->
  handle_rtcp fuel now (concat (rtcp_bytes <$> ps)) s = rtcp_effect now ps s.
Proof.
  induction ps as [|p ps IH]; intros fuel s Hps Hf; (destruct fuel as [|fuel]; [lia|]); [done|].
  apply Forall_cons in Hps as [(Hc & Ht & w & Hw & Hw16) Hps].
  assert (Hz : zlen (rc_body p) / 4 = Z.of_nat w) by (unfold zlen; rewrite Hw; Z.to_euclidean_division_equations; lia).
  cbn [fmap list_fmap concat handle_rtcp rtcp_effect length] in *.
  set (rest := concat (rtcp_bytes <$> ps)) in *.
  assert (Hlen : length (rtcp_bytes p ++ rest) = (4 + 4 * w + length rest)%nat).
  { unfold rtcp_bytes. rewrite !length_app. cbn [length enc_be16]. lia. }
  assert (H16 : be16 (rtcp_bytes p ++ rest) 2 = Z.of_nat w).
  { unfold rtcp_bytes. rewrite Hz, <- !app_assoc. apply be16_at; [done | lia]. }
  rewrite Hlen, H16, Nat2Z.id.
  change (zat (rtcp_bytes p ++ rest) 0) with (bz (zb (0x80 + rc_count p))).
  change (zat (rtcp_bytes p ++ rest) 1) with (bz (zb (rc_type p))).
  rewrite rtcp_first_byte, bz_zb_small by done.
  destruct (Nat.ltb_spec (4 + 4 * w + length rest) 4) as [|_]; [lia|].
  destruct (Nat.ltb_spec (4 + 4 * w + length rest) ((w + 1) * 4)) as [|_]; [lia|].
  cbn [negb Z.eqb Pos.eqb]. rewrite drop_app_length' by (unfold rtcp_bytes; rewrite !length_app; cbn [length enc_be16]; lia).
  unfold is_sr. rewrite Hw.
  assert (Heq : (20 <=? (w + 1) * 4)%nat = (16 <=? 4 * w)%nat).
  { destruct (Nat.leb_spec 16 (4 * w)); [apply Nat.leb_le; lia | apply Nat.leb_gt; lia]. }
  rewrite Heq. destruct (rc_type p =? kRtcpSr) eqn:Esr; cbn [andb].
  - destruct (Nat.leb_spec 16 (4 * w)) as [Hle|Hle]; rewrite IH by (done || lia).
    + pose proof (rtcp_body_at p rest 4 ltac:(lia)) as E4. pose proof (rtcp_body_at p rest 8 ltac:(lia)) as E8.
      cbn [Nat.add] in E4, E8. by rewrite E4, E8.
    + done.
  - destruct (rc_type p =? kRtcpBye); [done|]. apply IH; [done | lia].
Qed.

Lemma fold_length_hex8 v : length (hex8 v) = 8%nat.
Proof. done. Qed.

(** What the client sends is itself a compound packet: a receiver report with
    one block, and a source description with its name. *)
Lemma report_is_compound now s :
  exists rr sdes, append_sdes_cname (our_ssrc s) (build_receiver_report now s).1 = rtcp_bytes rr ++ rtcp_bytes sdes /\
    rtcp_ok rr /\ rc_type rr = kRtcpRr /\ rc_count rr = 1 /\
    rtcp_ok sdes /\ rc_type sdes = kRtcpSdes /\ rc_count sdes = 1 /\
    be32 (rc_body rr) 0 = u32 (our_ssrc s) /\ be32 (rc_body sdes) 0 = u32 (our_ssrc s) /\
    sub 6 12 (rc_body sdes) = cname (our_ssrc s).
Proof.
  exists {| rc_count := 1; rc_type := kRtcpRr; rc_body := drop 4 (build_receiver_report now s).1 |},
    {| rc_count := 1; rc_type := kRtcpSdes;
       rc_body := drop 4 (sdes_chunk (our_ssrc s) ++ [x00]) |}.
  cbn [rc_count rc_type rc_body].
  assert (Hl1 : length (drop 4 (build_receiver_report now s).1) = 28%nat) by done.
  assert (Hl2 : length (drop 4 (sdes_chunk (our_ssrc s) ++ [x00])) = 20%nat) by done.
  split_and!; try done; [| |
    apply (be32_enc_mod (our_ssrc s) (drop 8 (build_receiver_report now s).1)) |
    apply (be32_enc_mod (our_ssrc s) (drop 8 (sdes_chunk (our_ssrc s) ++ [x00])))].
  - split_and!; [done | done | done | done |]. exists 7%nat. split; [exact Hl1 | done].
  - split_and!; [done | done | done | done |]. exists 5%nat. split; [exact Hl2 | done].
Qed.

(** The transit time is not taken modulo 2^32: when the time stamp wraps around
    in a perfectly even stream, the reported jitter leaps to 2^28 units, the
    better part of an hour. *)
Lemma jitter_wraps :
  let even := [{| a_ext := 7; a_ts := 2 ^ 32 - 3000; a_elapsed := 0 |};
               {| a_ext := 8; a_ts := 0; a_elapsed := 33334 |}] in
  jitter_field (receive 90000 1 (new_stats 2) even) = 2 ^ 28.
Proof. vm_compute. reflexivity. Qed.

(** ** Examples *)

Definition demo_track : H264Track :=
  {| t_sps := []; t_pps := []; clock_rate := 90000; rtp_pt := 96; t_width := 0; t_height := 0; t_fps := 0 |}.

Definition demo_aus : list AccessUnit :=
  [(3000, [StapA (zb 24) [str "gA"; str "h"]; FuA (zb 0x65) (str "ab") [str "c"] (str "de")]);
   (6000, [Single (zb 0x41 :: str "xyz")])].

Definition demo_header (q : Z) : RtpHeader :=
  {| h_seq := q; h_ssrc := 77; h_csrcs := enc_be32 5; h_ext := Some (str "PP", str "word") |}.

Definition demo_packets : list (list byte) :=
  str "x" :: ((fun '(ts, m, p) => rtp_packet (demo_header 9) 96 ts m p) <$> concat (au_jobs <$> demo_aus)).

Lemma demo_carried : carried 96 (concat (au_jobs <$> demo_aus)) demo_packets.
Proof.
  assert (Hh : header_ok (demo_header 9)).
  { split; [by exists 1%nat; split; [|lia]|]. split; [done|]. by exists 1%nat. }
  unfold demo_packets. apply carried_foreign; [left; cbn; lia|].
  induction (concat (au_jobs <$> demo_aus)) as [|[[ts m] p] js IH]; [constructor|]. by constructor.
Qed.

Lemma rtp_roundtrip_witness :
  n_data <$> nalu_queue (foldl (fun '(s, d) '(elapsed, p) => handle_rtp demo_track elapsed p s d)
    (new_stats 1, new_demux) ((fun p => (10, p)) <$> demo_packets)).2 =
  [str "gA"; str "h"; zb 0x65 :: str "abcde"; zb 0x41 :: str "xyz"].
Proof.
  rewrite (rtp_roundtrip demo_track demo_aus ((fun p => (10, p)) <$> demo_packets) (new_stats 1) new_demux).
  - vm_compute. reflexivity.
  - cbn. lia.
  - constructor; [|constructor; [|constructor]].
    + split_and!; [cbn; lia | cbn; lia | done |]. constructor; [|by repeat constructor].
      split_and!; [done | done | by repeat constructor].
    + split_and!; [cbn; lia | cbn; lia | done |]. constructor; [|constructor]. by eexists _, _.
  - rewrite <- list_fmap_compose, list_fmap_id. exact demo_carried.
Defined.

Lemma receiver_report_correct_witness :
  let arrival q := {| a_ext := q; a_ts := 0; a_elapsed := 0 |} in
  let '(p1, s1) := build_receiver_report 0 (receive 90000 5 (new_stats 2) [arrival 65534; arrival 65537; arrival 65536]) in
  let '(p2, s2) := build_receiver_report 0 (receive 90000 5 s1 [arrival 65540; arrival 65541]) in
  report_block p1 = (64, 1, 65537) /\ report_block p2 = (128, 3, 65541).
Proof.
  cbv zeta. set (arrival q := {| a_ext := q; a_ts := 0; a_elapsed := 0 |}).
  apply (receiver_report_correct 90000 5 0 0 (new_stats 2) (arrival 65534) [arrival 65537; arrival 65536]
           [arrival 65540; arrival 65541]); cbn; lia || done.
Defined.
