(* ===== verification/Rtsp.v ===== *)
(** The text of RTSP in [src/stubs/rtsp_client.cpp]: base64, the parameters of
    a challenge, control URLs, responses read from a connection, and session
    descriptions (SDP). *)

From S2P Require Import Prelude Text Double H264 Rtp Tls.

#[local] Delimit Scope string_scope with string.

(** ** Base64 *)

Definition kB64Alphabet : cstr := str "ABCDEFGHIJKLMNOPQRSTUVWXYZabcdefghijklmnopqrstuvwxyz0123456789+/".

Definition b64_char (v : Z) : byte := kB64Alphabet !!! Z.to_nat (Z.land v 0x3f).

Fixpoint base64_encode (data : list byte) : cstr :=
  match data with
  | a :: b :: c :: data =>
      let v := Z.lor (Z.lor (Z.shiftl (bz a) 16) (Z.shiftl (bz b) 8)) (bz c) in
      b64_char (Z.shiftr v 18) :: b64_char (Z.shiftr v 12) :: b64_char (Z.shiftr v 6) :: b64_char v
      :: base64_encode data
  | [a; b] =>
      let v := Z.lor (Z.shiftl (bz a) 16) (Z.shiftl (bz b) 8) in
      [b64_char (Z.shiftr v 18); b64_char (Z.shiftr v 12); b64_char (Z.shiftr v 6); zb 61]
  | [a] =>
      let v := Z.shiftl (bz a) 16 in
      [b64_char (Z.shiftr v 18); b64_char (Z.shiftr v 12); zb 61; zb 61]
  | [] => []
  end.

Definition b64_value (c : byte) : option Z :=
  if is_upper c then Some (bz c - 65)
  else if is_lower c then Some (bz c - 97 + 26)
  else if is_digit c then Some (bz c - 48 + 52)
  else if beq c (zb 43) then Some 62
  else if beq c (zb 47) then Some 63
  else None.

Definition b64_skip (c : byte) : bool := beq c cr || beq c lf || beq c (zb 32).

Fixpoint b64_loop (buf bits : Z) (out : list byte) (s : cstr) : option (list byte) :=
  match s with
  | [] => Some out
  | c :: s =>
      if beq c (zb 61) then Some out
      else if b64_skip c then b64_loop buf bits out s
      else
        match b64_value c with
        | None => None
        | Some v =>
            let buf := u32 (Z.lor (Z.shiftl buf 6) v) in
            let bits := bits + 6 in
            if 8 <=? bits then b64_loop buf (bits - 8) (out ++ [zb (Z.land (Z.shiftr buf (bits - 8)) 0xff)]) s
            else b64_loop buf bits out s
        end
  end.

Definition base64_decode (s : cstr) : option (list byte) := b64_loop 0 0 [] s.

(** ** Strings *)

Definition lc (s : cstr) : cstr := map to_lower s.
Definition trim (s : cstr) : cstr := trim_back is_space (trim_front is_space s).

(** A quoted value up to its closing quote; a backslash takes the next
    character with it. *)
Fixpoint quoted_value (s : cstr) : cstr * cstr :=
  match s with
  | [] => ([], [])
  | c :: s' =>
      if beq c (zb 34) then ([], s)
      else
        match s' with
        | d :: s'' =>
            if beq c (zb 92) then let '(v, rest) := quoted_value s'' in (c :: d :: v, rest)
            else let '(v, rest) := quoted_value s' in (c :: v, rest)
        | [] => ([c], [])
        end
  end.

Definition param_sep (c : byte) : bool := beq c (zb 32) || beq c (zb 44) || beq c (zb 9).

(** The value behind the key: quoted, or up to the next comma. *)
Definition param_value (s : cstr) : cstr * cstr :=
  match s with
  | c :: s' =>
      if beq c (zb 61) then
        match s' with
        | q :: s'' =>
            if beq q (zb 34) then
              let '(v, rest) := quoted_value s'' in
              (v, match rest with _ :: rest => rest | [] => [] end)
            else span (fun c => negb (beq c (zb 44))) s'
        | [] => ([], [])
        end
      else ([], s)
  | [] => ([], [])
  end.

Fixpoint auth_params (fuel : nat) (s : cstr) : list (cstr * cstr) :=
  match fuel with
  | O => []
  | S fuel =>
      match trim_front param_sep s with
      | [] => []
      | s =>
          let '(k, s) := span (fun c => negb (beq c (zb 61)) && negb (beq c (zb 44))) s in
          let '(v, s) := param_value s in
          (lc (trim k), trim v) :: auth_params fuel s
      end
  end.

Definition parse_auth_params (s : cstr) : list (cstr * cstr) := auth_params (length s) s.

(** ** URLs *)

Record Url := {
  url_host : cstr; url_port : Z; url_user : cstr; url_passwd : cstr; url_path : cstr; url_device : cstr; url_tls : bool
}.

Definition resolve_control (base control : cstr) : cstr :=
  if bool_decide (control = []) || bool_decide (control = str "*") then base
  else if starts_with (str "rtsp://") control || starts_with (str "rtsps://") control then control
  else if starts_with (str "/") control then
    match find_str (str "://") base with
    | None => base ++ control
    | Some p =>
        match find_char_from (zb 47) base (p + 3) with
        | None => base ++ control
        | Some slash => take slash base ++ control
        end
    end
  else if negb (bool_decide (base = [])) && ends_with base (str "/") then base ++ control
  else base ++ str "/" ++ control.

Definition base_url (url : Url) : cstr :=
  (if url_tls url then str "rtsps://" else str "rtsp://") ++ url_host url ++ str ":" ++ dec (url_port url)
  ++ (match url_path url with [] => [] | c :: _ => if beq c (zb 47) then [] else str "/" end)
  ++ url_path url.

(** ** Responses *)

Record Response := { status : Z; reason : cstr; headers : list (cstr * cstr); body : list byte }.

Definition header (r : Response) (key : cstr) : cstr :=
  match List.find (fun h => bool_decide (h.1 = lc key)) (headers r) with Some h => h.2 | None => [] end.

Definition kMaxResponseBody : Z := 2 ^ 16.

(** A header line; the last [Content-Length] counts, cut to [size_t]. *)
Definition header_line (line : cstr) (len : Z) (hs : list (cstr * cstr)) : Z * list (cstr * cstr) :=
  match find_char (zb 58) line with
  | None => (len, hs)
  | Some colon =>
      let k := lc (trim (take colon line)) in
      let v := trim (drop (S colon) line) in
      (if bool_decide (k = str "content-length") then u64 (atoi v) else len, hs ++ [(k, v)])
  end.

Fixpoint header_loop (fuel : nat) (ms : Z) (len : Z) (hs : list (cstr * cstr)) : call Conn (Z * list (cstr * cstr)) :=
  match fuel with
  | O => fault
  | S fuel =>
      line ← ssl_read_line_timeout ms;
      match line with
      | [] => mret (len, hs)
      | _ => let '(len, hs) := header_line line len hs in header_loop fuel ms len hs
      end
  end.

(** Every line takes at least its two end characters. *)
Definition line_fuel (c : Conn) : nat := S (length (stream (incoming c))).

Definition read_headers (ms : Z) : call Conn (Z * list (cstr * cstr)) :=
  fuel ← gets line_fuel; header_loop fuel ms 0 [].

Definition read_body (ms len : Z) : call Conn (list byte) :=
  if kMaxResponseBody <? len then fault
  else if 0 <? len then ssl_read_full_timeout (Z.to_nat len) ms
  else mret [].

Definition read_response (ms : Z) (prefetch : option byte) : call Conn Response :=
  rest ← ssl_read_line_timeout ms;
  let line := match prefetch with Some c => c :: rest | None => rest end in
  if (length line <? 12)%nat || negb (starts_with (str "RTSP/1.") line) then fault
  else
    match find_char_from (zb 32) line 9 with
    | None => fault
    | Some sp1 =>
        let status := atoi (sub 9 (sp1 - 9) line) in
        let reason := trim (drop (S sp1) line) in
        '(len, hs) ← read_headers ms;
        body ← read_body ms len;
        mret {| status := status; reason := reason; headers := hs; body := body |}
    end.

(** ** Session descriptions *)

Record SdpState := { sd_track : H264Track; sd_control : cstr; in_video : bool; seen_rtpmap : bool; video_pt : Z }.

Definition set_sets (sps pps : list byte) (t : H264Track) : H264Track :=
  {| t_sps := sps; t_pps := pps; clock_rate := clock_rate t; rtp_pt := rtp_pt t;
     t_width := t_width t; t_height := t_height t; t_fps := t_fps t |}.
Definition set_rate (r : Z) (t : H264Track) : H264Track :=
  {| t_sps := t_sps t; t_pps := t_pps t; clock_rate := r; rtp_pt := rtp_pt t;
     t_width := t_width t; t_height := t_height t; t_fps := t_fps t |}.
Definition set_pt (pt : Z) (t : H264Track) : H264Track :=
  {| t_sps := t_sps t; t_pps := t_pps t; clock_rate := clock_rate t; rtp_pt := pt;
     t_width := t_width t; t_height := t_height t; t_fps := t_fps t |}.
Definition set_geometry (g : SpsGeometry) (t : H264Track) : H264Track :=
  {| t_sps := t_sps t; t_pps := t_pps t; clock_rate := clock_rate t; rtp_pt := rtp_pt t;
     t_width := sg_width g; t_height := sg_height g; t_fps := sg_fps g |}.
Definition with_track (t : H264Track) (s : SdpState) : SdpState :=
  {| sd_track := t; sd_control := sd_control s; in_video := in_video s; seen_rtpmap := seen_rtpmap s; video_pt := video_pt s |}.

Definition sdp_init : SdpState :=
  {| sd_track := {| t_sps := []; t_pps := []; clock_rate := 90000; rtp_pt := -1; t_width := 0; t_height := 0; t_fps := 0 |};
     sd_control := []; in_video := false; seen_rtpmap := false; video_pt := -1 |}.

(** One of the comma-separated NAL units: the first of each kind counts. *)
Definition take_set (t : H264Track) (b64 : cstr) : H264Track :=
  match base64_decode b64 with
  | None | Some [] => t
  | Some nal =>
      if (nal_type nal =? 7) && bool_decide (t_sps t = []) then set_sets nal (t_pps t) t
      else if (nal_type nal =? 8) && bool_decide (t_pps t = []) then set_sets (t_sps t) nal t
      else t
  end.

(** One of the parameters of [a=fmtp]. *)
Definition fmtp_param (t : H264Track) (kv : cstr) : H264Track :=
  match find_char (zb 61) kv with
  | None => t
  | Some eq =>
      if bool_decide (lc (trim (take eq kv)) = str "sprop-parameter-sets")
      then foldl take_set t (getlines (zb 44) (trim (drop (S eq) kv)) [])
      else t
  end.

Definition media_line (val : cstr) (s : SdpState) : SdpState :=
  if starts_with (str "video ") val then
    let pt := match rfind_if (beq (zb 32)) val with Some sp => atoi (drop (S sp) val) | None => video_pt s end in
    {| sd_track := set_pt pt (sd_track s); sd_control := sd_control s; in_video := true;
       seen_rtpmap := seen_rtpmap s; video_pt := pt |}
  else
    {| sd_track := sd_track s; sd_control := sd_control s; in_video := false;
       seen_rtpmap := seen_rtpmap s; video_pt := video_pt s |}.

Definition control_line (val : cstr) (s : SdpState) : SdpState :=
  {| sd_track := sd_track s;
     sd_control := match sd_control s with [] => trim (drop 8 val) | c => c end;
     in_video := in_video s; seen_rtpmap := seen_rtpmap s; video_pt := video_pt s |}.

(** [None]: a codec other than H.264. *)
Definition rtpmap_line (rest : cstr) (s : SdpState) : option SdpState :=
  match find_char (zb 32) rest with
  | None => Some s
  | Some sp =>
      let enc := drop (S sp) rest in
      if negb (atoi (take sp rest) =? video_pt s) then Some s
      else
        match find_char (zb 47) enc with
        | None => Some s
        | Some slash =>
            if negb (bool_decide (lc (take slash enc) = str "h264")) then None
            else
              let rate := u32 (atoi (drop (S slash) enc)) in
              Some {| sd_track := set_rate (if rate =? 0 then 90000 else rate) (sd_track s);
                      sd_control := sd_control s; in_video := in_video s; seen_rtpmap := true; video_pt := video_pt s |}
        end
  end.

Definition fmtp_line (rest : cstr) (s : SdpState) : SdpState :=
  match find_char (zb 32) rest with
  | None => s
  | Some sp =>
      if negb (atoi (take sp rest) =? video_pt s) then s
      else with_track (foldl fmtp_param (sd_track s) (getlines (zb 59) (drop (S sp) rest) [])) s
  end.

Definition strip_cr (line : cstr) : cstr :=
  match last line with Some c => if beq c cr then removelast line else line | None => line end.

Definition sdp_line (s : SdpState) (line : cstr) : option SdpState :=
  match strip_cr line with
  | tag :: eq :: val =>
      if negb (beq eq (zb 61)) then Some s
      else if beq tag (zb 109) then Some (media_line val s)
      else if in_video s && beq tag (zb 97) then
        if starts_with (str "control:") val then Some (control_line val s)
        else if starts_with (str "rtpmap:") val then rtpmap_line (drop 7 val) s
        else if starts_with (str "fmtp:") val then Some (fmtp_line (drop 5 val) s)
        else Some s
      else Some s
  | _ => Some s
  end.

Fixpoint sdp_lines (lines : list cstr) (s : SdpState) : option SdpState :=
  match lines with
  | [] => Some s
  | line :: lines => s ← sdp_line s line; sdp_lines lines s
  end.

(** The track and its control attribute. *)
Definition parse_sdp (sdp : cstr) : option (H264Track * cstr) :=
  s ← sdp_lines (getlines lf sdp []) sdp_init;
  if negb (seen_rtpmap s) then None
  else
    let t := sd_track s in
    let t := match t_sps t with
             | [] => t
             | sps => match parse_sps_geometry sps with Some g => set_geometry g t | None => t end
             end in
    Some (t, sd_control s).

(** ** Base64 is undone *)

Lemma b64_char_spec v :
  0 <= v -> b64_value (b64_char v) = Some (v mod 64) /\ beq (b64_char v) (zb 61) = false /\ b64_skip (b64_char v) = false.
Proof.
  intros Hv.
  assert (E : b64_char v = b64_char (v mod 64)).
  { unfold b64_char. change 0x3f with (Z.ones 6). rewrite !Z.land_ones by lia. change (2 ^ 6) with 64. by rewrite Z.mod_mod. }
  rewrite E. pose proof (below_forall (fun v => match b64_value (b64_char v) with Some w => w =? v | None => false end &&
    negb (beq (b64_char v) (zb 61)) && negb (b64_skip (b64_char v))) 64 ltac:(vm_compute; reflexivity) (v mod 64)
    (Z.mod_pos_bound v 64 eq_refl)) as H.
  apply andb_prop in H as [[H1 H2%negb_true_iff]%andb_prop H3%negb_true_iff].
  destruct (b64_value (b64_char (v mod 64))) as [w|]; [|done]. apply Z.eqb_eq in H1. by subst w.
Qed.

(** Sextets: what the characters of a group stand for. *)
Definition put6 (buf v : Z) : Z := u32 (Z.lor (Z.shiftl buf 6) v).

Lemma lor_shiftl_add a v k : 0 <= k -> 0 <= v < 2 ^ k -> Z.lor (Z.shiftl a k) v = a * 2 ^ k + v.
Proof.
  intros Hk Hv. rewrite Z.shiftl_mul_pow2 by lia. rewrite <- Z.lxor_lor, <- Z.add_nocarry_lxor; [done| |];
  apply Z.bits_inj'; intros i Hi; rewrite Z.land_spec, Z.bits_0;
    (destruct (Z.ltb_spec i k); [by rewrite Z.mul_pow2_bits_low|]);
    rewrite <- (Z.mod_small v (2 ^ k)), Z.mod_pow2_bits_high by lia; apply andb_false_r.
Qed.

Lemma put6_eq buf v : 0 <= v < 64 -> put6 buf v = (buf * 64 + v) mod 2 ^ 32.
Proof. intros Hv. unfold put6, u32. by rewrite lor_shiftl_add. Qed.

Lemma b64_step buf bits out v s :
  0 <= v -> b64_loop buf bits out (b64_char v :: s) =
  (let buf := put6 buf (v mod 64) in
   if 8 <=? bits + 6 then b64_loop buf (bits + 6 - 8) (out ++ [zb (Z.land (Z.shiftr buf (bits + 6 - 8)) 0xff)]) s
   else b64_loop buf (bits + 6) out s).
Proof. intros Hv. destruct (b64_char_spec v Hv) as (H1 & H2 & H3). cbn [b64_loop]. by rewrite H1, H2, H3. Qed.

Lemma group_value a b c : Z.lor (Z.lor (Z.shiftl (bz a) 16) (Z.shiftl (bz b) 8)) (bz c) = bz a * 65536 + bz b * 256 + bz c.
Proof.
  pose proof (bz_range a). pose proof (bz_range b). pose proof (bz_range c).
  replace (Z.shiftl (bz a) 16) with (Z.shiftl (bz a * 256) 8) by (rewrite !Z.shiftl_mul_pow2 by lia; lia).
  pose proof (lor_shiftl_add (bz a) (bz b) 8 ltac:(lia) ltac:(lia)) as E.
  rewrite Z.shiftl_mul_pow2 in E by lia. change (2 ^ 8) with 256 in E.
  rewrite <- Z.shiftl_lor, E, lor_shiftl_add by lia. change (2 ^ 8) with 256. lia.
Qed.

Lemma push_byte buf k : 0 <= k -> zb (Z.land (Z.shiftr buf k) 0xff) = zb (buf / 2 ^ k).
Proof.
  intros Hk. change 0xff with (Z.ones 8). rewrite Z.land_ones, Z.shiftr_div_pow2 by lia.
  apply bz_inj. rewrite !bz_zb. change (2 ^ 8) with 256. by rewrite Z.mod_mod.
Qed.

Lemma zb_eq x y : x mod 256 = y mod 256 -> zb x = zb y.
Proof. intros H. apply bz_inj. by rewrite !bz_zb. Qed.

(** The buffer ends in the low bits of [u], the sextets read so far. *)
Definition ends_in (buf u : Z) : Prop := buf mod 4096 = u mod 4096.

Lemma put6_ends buf u : buf mod 64 = (u / 64) mod 64 -> ends_in (put6 buf (u mod 64)) u.
Proof.
  intros H. unfold ends_in. rewrite put6_eq by (apply Z.mod_pos_bound; lia).
  change (2 ^ 32) with 4294967296. Z.to_euclidean_division_equations. lia.
Qed.

Lemma ends_in_64 buf u : ends_in buf u -> buf mod 64 = u mod 64.
Proof. unfold ends_in. intros H. Z.to_euclidean_division_equations. lia. Qed.

Lemma push_ends buf u k :
  ends_in buf u -> k = 0 \/ k = 2 \/ k = 4 -> zb (Z.land (Z.shiftr buf k) 0xff) = zb (u / 2 ^ k).
Proof.
  unfold ends_in. intros H Hk. change 0xff with (Z.ones 8). rewrite Z.land_ones, Z.shiftr_div_pow2 by lia.
  apply bz_inj. rewrite !bz_zb. change (2 ^ 8) with 256. rewrite Z.mod_mod by lia.
  destruct Hk as [-> | [-> | ->]]; [change (2 ^ 0) with 1 | change (2 ^ 2) with 4 | change (2 ^ 4) with 16];
    Z.to_euclidean_division_equations; lia.
Qed.

Lemma b64_first buf out v s : 0 <= v -> b64_loop buf 0 out (b64_char v :: s) = b64_loop (put6 buf (v mod 64)) 6 out s.
Proof. intros Hv. by rewrite b64_step. Qed.

Lemma b64_push buf bits out v s :
  0 <= v -> 2 <= bits ->
  b64_loop buf bits out (b64_char v :: s) =
  b64_loop (put6 buf (v mod 64)) (bits - 2) (out ++ [zb (Z.land (Z.shiftr (put6 buf (v mod 64)) (bits - 2)) 0xff)]) s.
Proof.
  intros Hv Hb. rewrite b64_step by done. cbv zeta. destruct (Z.leb_spec 8 (bits + 6)); [|lia].
  by replace (bits + 6 - 8) with (bits - 2) by lia.
Qed.

(** The first two characters of a group give a byte, and so does each of the
    other two. *)
Lemma b64_two buf out u s :
  0 <= u ->
  exists buf', b64_loop buf 0 out (b64_char (u / 64) :: b64_char u :: s) = b64_loop buf' 4 (out ++ [zb (u / 16)]) s
               /\ ends_in buf' u.
Proof.
  intros Hu. rewrite b64_first by (apply Z.div_pos; lia). rewrite b64_push by lia. change (6 - 2) with 4.
  assert (H : ends_in (put6 (put6 buf ((u / 64) mod 64)) (u mod 64)) u).
  { apply put6_ends. rewrite put6_eq by (apply Z.mod_pos_bound; lia).
    change (2 ^ 32) with 4294967296. Z.to_euclidean_division_equations. lia. }
  eexists. split; [|exact H]. by rewrite (push_ends _ u 4) by auto.
Qed.

Lemma b64_third buf out u s :
  0 <= u -> ends_in buf (u / 64) ->
  exists buf', b64_loop buf 4 out (b64_char u :: s) = b64_loop buf' 2 (out ++ [zb (u / 4)]) s /\ ends_in buf' u.
Proof.
  intros Hu Hb. rewrite b64_push by lia. change (4 - 2) with 2.
  assert (H : ends_in (put6 buf (u mod 64)) u) by by apply put6_ends, ends_in_64.
  eexists. split; [|exact H]. by rewrite (push_ends _ u 2) by auto.
Qed.

Lemma b64_fourth buf out u s :
  0 <= u -> ends_in buf (u / 64) ->
  exists buf', b64_loop buf 2 out (b64_char u :: s) = b64_loop buf' 0 (out ++ [zb u]) s.
Proof.
  intros Hu Hb. rewrite b64_push by lia. change (2 - 2) with 0.
  assert (H : ends_in (put6 buf (u mod 64)) u) by by apply put6_ends, ends_in_64.
  eexists. rewrite (push_ends _ u 0) by auto. by rewrite Z.div_1_r.
Qed.

Lemma zb_mod_eq x y : x mod 256 = y mod 256 -> zb x = zb y.
Proof. intros H. apply bz_inj. by rewrite !bz_zb. Qed.

Lemma div64 v k : 0 <= k -> v / 2 ^ (k + 6) = v / 2 ^ k / 64.
Proof. intros Hk. rewrite Z.pow_add_r, Z.div_div by lia. done. Qed.

(** The sextets of a 24-bit group. *)
Lemma sextet v k : 0 <= v -> 0 <= k -> Z.shiftr v (k + 6) = v / 2 ^ k / 64.
Proof. intros Hv Hk. rewrite Z.shiftr_div_pow2 by lia. by apply div64. Qed.

Lemma b64_group3 buf out v s :
  0 <= v ->
  exists buf', b64_loop buf 0 out (b64_char (Z.shiftr v 18) :: b64_char (Z.shiftr v 12) :: b64_char (Z.shiftr v 6) :: s)
    = b64_loop buf' 2 (out ++ [zb (v / 2 ^ 16); zb (v / 2 ^ 8)]) s /\ ends_in buf' (v / 2 ^ 6).
Proof.
  intros Hv. replace 18 with (12 + 6) by lia. rewrite sextet, !Z.shiftr_div_pow2 by lia.
  destruct (b64_two buf out (v / 2 ^ 12) (b64_char (v / 2 ^ 6) :: s)) as (b1 & -> & H1); [apply Z.div_pos; lia|].
  replace 12 with (6 + 6) in H1 by lia. rewrite div64 in H1 by lia.
  destruct (b64_third b1 (out ++ [zb (v / 2 ^ 12 / 16)]) (v / 2 ^ 6) s) as (b2 & -> & H2); [apply Z.div_pos; lia | done|].
  exists b2. rewrite <- app_assoc, !Z.div_div by lia. done.
Qed.

Lemma zb_of a v : v = bz a -> zb v = a.
Proof. intros ->. apply zb_bz. Qed.

Lemma b64_loop_encode data : forall buf out, b64_loop buf 0 out (base64_encode data) = Some (out ++ data).
Proof.
  induction data as [data IH] using (well_founded_induction (well_founded_ltof _ (@length byte))). unfold ltof in IH.
  intros buf out. destruct data as [|a [|b [|c data]]]; cbn [base64_encode].
  - cbn. by rewrite app_nil_r.
  - rewrite Z.shiftl_mul_pow2 by lia. pose proof (bz_range a).
    replace 18 with (12 + 6) by lia. rewrite sextet, Z.shiftr_div_pow2 by lia.
    destruct (b64_two buf out (bz a * 2 ^ 16 / 2 ^ 12) [zb 61; zb 61]) as (buf' & -> & _); [apply Z.div_pos; lia|].
    cbn -[Z.div Z.mul zb Z.pow]. rewrite beq_refl, (zb_of a); [done|]. rewrite Z.div_div by lia. by apply Z.div_mul.
  - pose proof (bz_range a). pose proof (bz_range b).
    assert (Hv : Z.lor (Z.shiftl (bz a) 16) (Z.shiftl (bz b) 8) = bz a * 65536 + bz b * 256).
    { rewrite (Z.shiftl_mul_pow2 (bz b)), lor_shiftl_add by lia. lia. }
    rewrite Hv. set (v := bz a * 65536 + bz b * 256).
    destruct (b64_group3 buf out v [zb 61]) as (buf' & -> & _); [lia|].
    cbn [b64_loop]. rewrite beq_refl.
    assert (E : [zb (v / 2 ^ 16); zb (v / 2 ^ 8)] = [a; b]); [|by rewrite E].
    change (2 ^ 16) with 65536. change (2 ^ 8) with 256. subst v.
    f_equal; [|f_equal]; apply bz_inj; rewrite bz_zb; Z.to_euclidean_division_equations; lia.
  - pose proof (bz_range a). pose proof (bz_range b). pose proof (bz_range c). rewrite group_value.
    set (v := bz a * 65536 + bz b * 256 + bz c).
    destruct (b64_group3 buf out v (b64_char v :: base64_encode data)) as (b1 & -> & Hb1); [lia|].
    destruct (b64_fourth b1 (out ++ [zb (v / 2 ^ 16); zb (v / 2 ^ 8)]) v (base64_encode data)) as (b2 & ->); [lia | done|].
    rewrite IH by (cbn [length]; lia). rewrite <- !app_assoc. cbn [app].
    assert (E : [zb (v / 2 ^ 16); zb (v / 2 ^ 8); zb v] = [a; b; c]); [|by injection E as -> -> ->].
    change (2 ^ 16) with 65536. change (2 ^ 8) with 256. subst v.
    f_equal; [|f_equal; [|f_equal]]; apply bz_inj; rewrite bz_zb; Z.to_euclidean_division_equations; lia.
Qed.

(** base64_decode undoes base64_encode, on all data. *)
Lemma base64_roundtrip (data : list byte) : base64_decode (base64_encode data) = Some data.
Proof. apply (b64_loop_encode data 0 []). Qed.

(** ** Responses are read as they were written *)

(** A response as a server writes it. *)
Record Reply := { r_status : Z; r_reason : cstr; r_headers : list (cstr * cstr); r_body : list byte }.

Definition header_text (h : cstr * cstr) : cstr := h.1 ++ str ": " ++ h.2.

Definition length_header (b : list byte) : list (cstr * cstr) :=
  match b with [] => [] | _ => [(str "Content-Length", dec_nonneg (zlen b))] end.

Definition all_headers (r : Reply) : list (cstr * cstr) := r_headers r ++ length_header (r_body r).

Definition status_line (r : Reply) : cstr := str "RTSP/1.0 " ++ dec_nonneg (r_status r) ++ str " " ++ r_reason r.

Definition crlf (line : cstr) : cstr := line ++ [cr; lf].

Definition render (r : Reply) : list byte :=
  crlf (status_line r) ++ concat ((fun h => crlf (header_text h)) <$> all_headers r) ++ crlf [] ++ r_body r.

(** Text without line ends, short enough for a line, and with no white space
    around it. *)
Definition plain (l : cstr) : Prop := Forall (fun c => beq c cr = false /\ beq c lf = false) l.
Definition field_ok (l : cstr) : Prop := plain l /\ trim l = l.
Definition header_ok (h : cstr * cstr) : Prop :=
  field_ok h.1 /\ field_ok h.2 /\ Forall (fun c => beq c (zb 58) = false) h.1 /\ zlen h.1 + zlen h.2 < 8000.

Definition reply_ok (r : Reply) : Prop :=
  100 <= r_status r < 1000 /\ field_ok (r_reason r) /\ zlen (r_reason r) < 8000 /\
  Forall (fun h => header_ok h /\ lc h.1 <> str "content-length") (r_headers r) /\
  zlen (r_body r) <= kMaxResponseBody.

Definition response_of (r : Reply) : Response :=
  {| status := r_status r; reason := r_reason r; headers := (fun h => (lc h.1, h.2)) <$> all_headers r; body := r_body r |}.

Lemma plain_no_crlf l : plain l -> forall prev, no_crlf prev l = true.
Proof.
  induction 1 as [|c l [Hc Hl] _ IH]; intros prev; [done|]. cbn [no_crlf]. by rewrite Hl, andb_false_r, IH.
Qed.

Lemma plain_app a b : plain a -> plain b -> plain (a ++ b).
Proof. intros. by apply Forall_app. Qed.

Definition is_plain (l : cstr) : bool := forallb (fun c => negb (beq c cr) && negb (beq c lf)) l.
Lemma plain_eval l : is_plain l = true -> plain l.
Proof.
  intros H. apply Forall_forall. intros c Hc. unfold is_plain in H. rewrite forallb_forall in H.
  apply list_elem_of_In in Hc. specialize (H c Hc). apply andb_prop in H as [H1%negb_true_iff H2%negb_true_iff]. done.
Qed.

Lemma digits_plain ds : Forall (fun c => is_digit c = true) ds -> plain ds.
Proof.
  intros H. eapply Forall_impl; [exact H|]. intros c Hc.
  pose proof (byte_forall (fun c => negb (is_digit c) || (negb (beq c cr) && negb (beq c lf))) ltac:(vm_compute; reflexivity) c) as E.
  cbv beta in E. rewrite Hc in E. cbn in E. by apply andb_prop in E as [?%negb_true_iff ?%negb_true_iff].
Qed.

Lemma digit_no_space c : is_digit c = true -> beq c (zb 32) = false.
Proof.
  intros Hc. pose proof (byte_forall (fun c => negb (is_digit c) || negb (beq c (zb 32))) ltac:(vm_compute; reflexivity) c) as E.
  cbv beta in E. rewrite Hc in E. by apply negb_true_iff in E.
Qed.

Lemma atoi_dec n : 0 <= n < 2 ^ 31 -> atoi (dec_nonneg n) = n.
Proof.
  intros Hn. unfold atoi. rewrite strtol_dec by lia. rewrite Z.min_l, Z.max_r by lia.
  apply signed_small; lia.
Qed.

Lemma trim_space c l : is_space c = true -> trim (c :: l) = trim l.
Proof. intros H. unfold trim, trim_front. cbn [span]. rewrite H. by destruct (span is_space l). Qed.

Lemma trim_id l :
  match l with [] => True | c :: _ => is_space c = false end ->
  match last l with None => True | Some c => is_space c = false end -> trim l = l.
Proof. intros H1 H2. unfold trim. by rewrite trim_front_id, trim_back_id. Qed.

Lemma digits_trim n : 0 <= n -> trim (dec_nonneg n) = dec_nonneg n.
Proof.
  intros Hn. destruct (dec_nonneg_spec n Hn) as (_ & H & _). apply trim_id.
  - destruct H; [done|]. by apply digit_not_space.
  - destruct (last (dec_nonneg n)) as [c|] eqn:E; [|done]. apply last_Some_elem_of in E.
    rewrite Forall_forall in H. by apply digit_not_space, H.
Qed.

(** What is behind a separator. *)
Lemma drop_behind {A} (a : list A) c b : drop (S (length a)) (a ++ c :: b) = b.
Proof. rewrite cons_middle, app_assoc. apply drop_app_length'. rewrite length_app. cbn. lia. Qed.

Lemma find_char_colon k rest :
  Forall (fun c => beq c (zb 58) = false) k -> find_char (zb 58) (k ++ zb 58 :: rest) = Some (length k).
Proof. apply find_char_app. Qed.

Lemma header_line_text h len hs :
  header_ok h ->
  header_line (header_text h) len hs =
  (if bool_decide (lc h.1 = str "content-length") then u64 (atoi h.2) else len, hs ++ [(lc h.1, h.2)]).
Proof.
  intros ((_ & Hk) & (_ & Hv) & Hc & _). unfold header_line, header_text.
  change (h.1 ++ str ": " ++ h.2) with (h.1 ++ zb 58 :: zb 32 :: h.2).
  rewrite find_char_colon by done. rewrite take_app_length.
  rewrite drop_behind, trim_space, Hk, Hv by done. done.
Qed.

Lemma header_text_plain h : header_ok h -> plain (header_text h).
Proof.
  intros ((Hk & _) & (Hv & _) & _). apply plain_app; [done|]. apply plain_app; [by apply plain_eval | done].
Qed.

Lemma header_text_length h : header_ok h -> (length (header_text h) + 2 <= kMaxLine)%nat.
Proof.
  intros (_ & _ & _ & Hl). unfold header_text, kMaxLine. unfold zlen in Hl. rewrite !length_app.
  change (length (str ": ")) with 2%nat. lia.
Qed.

Lemma header_text_cons h : exists c l, header_text h = c :: l.
Proof. unfold header_text. destruct h.1; by eexists _, _. Qed.

(** What reading the headers gathers. *)
Definition step_headers (acc : Z * list (cstr * cstr)) (h : cstr * cstr) : Z * list (cstr * cstr) :=
  header_line (header_text h) acc.1 acc.2.

Lemma reads_headers_loop limit ms hs : 0 < limit <= 1000 * ms -> Forall header_ok hs ->
  forall fuel len acc, (length hs < fuel)%nat ->
  reads limit (header_loop fuel ms len acc) (concat ((fun h => crlf (header_text h)) <$> hs) ++ crlf [])
    (foldl step_headers (len, acc) hs).
Proof.
  intros Hl Hok. induction Hok as [|h hs Hh Hok IH]; intros fuel len acc Hf; (destruct fuel as [|fuel]; [lia|]);
    cbn [header_loop fmap list_fmap concat foldl].
  - apply (reads_bind limit _ _ (crlf []) [] []); [|apply reads_ret].
    apply (reads_line limit ms []); [done | unfold kMaxLine; cbn [length]; lia | done].
  - rewrite <- app_assoc. eapply reads_bind.
    + apply reads_line; [done | by apply header_text_length | apply plain_no_crlf, (header_text_plain h Hh)].
    + destruct (header_text_cons h) as (c & l & E).
      assert (Hm : forall (x y : call Conn (Z * list (cstr * cstr))), match header_text h with [] => x | _ => y end = y)
        by (by rewrite E).
      rewrite Hm. change (step_headers (len, acc) h) with (header_line (header_text h) len acc).
      destruct (header_line (header_text h) len acc) as [len' acc']. apply IH. cbn [length] in Hf. lia.
Qed.

Lemma reads_headers limit ms hs : 0 < limit <= 1000 * ms -> Forall header_ok hs ->
  reads limit (read_headers ms) (concat ((fun h => crlf (header_text h)) <$> hs) ++ crlf [])
    (foldl step_headers (0, []) hs).
Proof.
  intros Hl Hok tl fin out c H. unfold read_headers, gets, mbind, call_bind. cbn [fst].
  eapply reads_headers_loop; [done | done | | exact H].
  unfold line_fuel. rewrite (at_stream _ _ _ _ _ H). unfold crlf. rewrite !length_app.
  assert (length hs <= length (concat ((fun h => header_text h ++ [cr; lf]) <$> hs)))%nat; [|lia].
  clear. induction hs as [|h hs IH]; [done|]. cbn [fmap list_fmap concat length]. rewrite !length_app. cbn [length]. lia.
Qed.

Lemma step_headers_plain hs : forall len acc,
  Forall (fun h => header_ok h /\ lc h.1 <> str "content-length") hs ->
  foldl step_headers (len, acc) hs = (len, acc ++ ((fun h => (lc h.1, h.2)) <$> hs)).
Proof.
  induction hs as [|h hs IH]; intros len acc Hok; [by rewrite app_nil_r|].
  apply Forall_cons in Hok as [[Hh Hn] Hok]. cbn [foldl]. unfold step_headers at 2. cbn [fst snd].
  rewrite header_line_text, bool_decide_false by done. rewrite IH, <- app_assoc by done. done.
Qed.

Lemma length_header_ok b : zlen b <= kMaxResponseBody -> Forall header_ok (length_header b).
Proof.
  intros Hb. unfold length_header. pose proof (zlen_nonneg b) as H0. destruct b as [|x b]; [constructor|].
  constructor; [|constructor]. set (n := zlen (x :: b)) in *.
  destruct (dec_nonneg_spec n H0) as (_ & Hd & _). split_and!; cbn [fst snd].
  - split; [by apply plain_eval | done].
  - split; [by apply digits_plain | by apply digits_trim].
  - by repeat constructor.
  - assert (zlen (dec_nonneg n) <= 18); [|change (zlen (str "Content-Length")) with 14; lia].
    unfold dec_nonneg. assert (Hlog : Z.log2 n <= 16) by (apply (Z.log2_le_mono n (2 ^ 16)); done).
    assert (Hlen : forall f m, (length (dec_fuel f m) <= f)%nat).
    { induction f as [|f IHf]; intros m; [done|]. cbn [dec_fuel]. destruct (m <? 10); [cbn; lia|].
      rewrite length_app. specialize (IHf (m / 10)). cbn [length]. lia. }
    specialize (Hlen (S (Z.to_nat (Z.log2 n))) n). unfold zlen. lia.
Qed.

Lemma all_headers_fold r : reply_ok r ->
  foldl step_headers (0, []) (all_headers r) = (zlen (r_body r), (fun h => (lc h.1, h.2)) <$> all_headers r).
Proof.
  intros (_ & _ & _ & Hh & Hb). unfold all_headers. rewrite foldl_app, step_headers_plain by done. cbn [app].
  pose proof (length_header_ok _ Hb) as Hl. unfold length_header in *.
  destruct (r_body r) as [|x b] eqn:E; [by rewrite app_nil_r|].
  apply Forall_cons in Hl as [Hl _]. cbn [foldl]. unfold step_headers. cbn [fst snd].
  rewrite header_line_text by done. cbn [fst snd]. rewrite bool_decide_true by done.
  pose proof (zlen_nonneg (x :: b)). unfold kMaxResponseBody in Hb.
  rewrite atoi_dec, u64_small by lia. by rewrite fmap_app.
Qed.

Lemma reads_body limit ms b : 0 < limit <= 1000 * ms -> zlen b <= kMaxResponseBody -> reads limit (read_body ms (zlen b)) b b.
Proof.
  intros Hl Hb. unfold read_body. destruct (Z.ltb_spec kMaxResponseBody (zlen b)); [lia|].
  destruct (Z.ltb_spec 0 (zlen b)).
  - rewrite to_nat_zlen. by apply reads_full.
  - destruct b; [apply reads_ret | unfold zlen in *; cbn in *; lia].
Qed.

Lemma status_digits n : 100 <= n < 1000 -> length (dec_nonneg n) = 3%nat.
Proof.
  intros Hn. pose proof (below_forall (fun n => (n <? 100) || (length (dec_nonneg n) =? 3)%nat) 1000
    ltac:(vm_compute; reflexivity) n ltac:(lia)) as H.
  apply orb_prop in H as [H%Z.ltb_lt|H%Nat.eqb_eq]; [lia | done].
Qed.

(** The parts of a response, as they are read. *)
Lemma reply_parts limit ms r c rest :
  0 < limit <= 1000 * ms -> reply_ok r -> render r = c :: rest ->
  status_line r = c :: tail (status_line r) /\
  exists line hdrs, rest = line ++ hdrs ++ r_body r ++ [] /\
    reads limit (ssl_read_line_timeout ms) line (tail (status_line r)) /\
    reads limit (read_headers ms) hdrs (zlen (r_body r), (fun h => (lc h.1, h.2)) <$> all_headers r) /\
    reads limit (read_body ms (zlen (r_body r))) (r_body r) (r_body r).
Proof.
  intros Hl Hr E. pose proof Hr as (Hs & [Hrp Hrt] & Hrl & Hh & Hb).
  assert (Hst : status_line r = c :: tail (status_line r)) by (injection E as <- _; reflexivity).
  split; [done|]. exists (crlf (tail (status_line r))), (concat ((fun h => crlf (header_text h)) <$> all_headers r) ++ crlf []).
  destruct (dec_nonneg_spec (r_status r)) as (_ & Hd & _); [lia|].
  pose proof (status_digits _ Hs) as H3.
  assert (Hplain : plain (tail (status_line r))).
  { assert (plain (status_line r)) as H; [|rewrite Hst in H; by apply Forall_cons in H as [_ H]].
    unfold status_line. apply plain_app; [by apply plain_eval|]. apply plain_app; [by apply digits_plain|].
    apply plain_app; [by apply plain_eval | done]. }
  assert (Hlen : length (status_line r) = (9 + (3 + (1 + length (r_reason r))))%nat).
  { unfold status_line. rewrite !length_app, H3. done. }
  split_and!.
  - apply (f_equal tail) in E. change (tail (c :: rest)) with rest in E. rewrite <- E, app_nil_r. clear E.
    unfold render. generalize (r_body r), (concat ((fun h => crlf (header_text h)) <$> all_headers r)).
    intros b hs. rewrite Hst. unfold crlf. cbn [app tail]. by rewrite <- !app_assoc.
  - apply reads_line; [done | | by apply plain_no_crlf]. rewrite Hst in Hlen. cbn [length] in Hlen.
    unfold kMaxLine, zlen in *. lia.
  - rewrite <- all_headers_fold by done. apply reads_headers; [done|]. apply Forall_app. split; [|by apply length_header_ok].
    eapply Forall_impl; [exact Hh|]. by intros h [].
  - by apply reads_body.
Qed.

(** A response reads back as it was written: whatever the status, the
    reason, the headers (names in any case) and the body up to the cap, however
    the stream is cut into records, and what follows it is left alone. *)
Lemma reads_response (limit ms : Z) (r : Reply) (c : byte) (rest : list byte) :
  0 < limit <= 1000 * ms -> reply_ok r -> render r = c :: rest ->
  reads limit (read_response ms (Some c)) rest (response_of r).
Proof.
  intros Hl Hr E. destruct (reply_parts limit ms r c rest Hl Hr E) as (Hst & line & hdrs & -> & Hline & Hhdrs & Hbody).
  pose proof Hr as (Hs & [_ Hrt] & _).
  destruct (dec_nonneg_spec (r_status r)) as (_ & Hd & _); [lia|].
  pose proof (status_digits _ Hs) as H3.
  unfold read_response. eapply reads_bind; [exact Hline|]. cbv zeta. rewrite <- Hst.
  assert (Hlen : length (status_line r) = (9 + (3 + (1 + length (r_reason r))))%nat).
  { unfold status_line. rewrite !length_app, H3. done. }
  destruct (Nat.ltb_spec (length (status_line r)) 12) as [|_]; [lia|].
  assert (starts_with (str "RTSP/1.") (status_line r) = true) as -> by done. cbn [negb orb].
  assert (Hsp : find_char_from (zb 32) (status_line r) 9 = Some 12%nat).
  { unfold find_char_from, find_if_from.
    change (drop 9 (status_line r)) with (dec_nonneg (r_status r) ++ zb 32 :: r_reason r).
    fold (find_char (zb 32) (dec_nonneg (r_status r) ++ zb 32 :: r_reason r)). rewrite find_char_app; [by rewrite H3|].
    eapply Forall_impl; [exact Hd|]. intros x Hx. by apply digit_no_space. }
  rewrite Hsp.
  assert (Hat : sub 9 (12 - 9) (status_line r) = dec_nonneg (r_status r)).
  { unfold sub. change (drop 9 (status_line r)) with (dec_nonneg (r_status r) ++ zb 32 :: r_reason r).
    apply take_app_length'. by rewrite H3. }
  assert (Hre : drop 13 (status_line r) = r_reason r).
  { change 13%nat with (9 + 4)%nat. rewrite <- drop_drop.
    change (drop 9 (status_line r)) with (dec_nonneg (r_status r) ++ [zb 32] ++ r_reason r).
    rewrite app_assoc. apply drop_app_length'. rewrite length_app, H3. done. }
  rewrite Hat, Hre, atoi_dec, Hrt by lia.
  eapply reads_bind; [exact Hhdrs|]. cbn [fst snd]. eapply reads_bind; [exact Hbody | apply reads_ret].
Qed.

(** The fuel of the header loop is enough: more does not change the result. *)
Lemma header_loop_fuel ms f : forall f' len hs c,
  (length (stream (incoming c)) < f)%nat -> (length (stream (incoming c)) < f')%nat ->
  header_loop f ms len hs c = header_loop f' ms len hs c.
Proof.
  induction f as [|f IH]; intros f' len hs c Hf Hf'; [lia|]. destruct f' as [|f']; [lia|].
  cbn [header_loop]. unfold mbind, call_bind.
  destruct (ssl_read_line_timeout ms c) as [[line| |] c1] eqn:E; [|done|done]. apply line_shrinks in E.
  destruct line as [|x line]; [done|]. destruct (header_line (x :: line) len hs) as [len' hs']. apply IH; lia.
Qed.

(** ** Session descriptions of a camera *)

Definition video_line (port : cstr) (pt : Z) : cstr :=
  str "m=video " ++ port ++ str " RTP/AVP " ++ dec_nonneg pt.
Definition rtpmap_text (pt : Z) (rate : Z) : cstr :=
  str "a=rtpmap:" ++ dec_nonneg pt ++ str " H264/" ++ dec_nonneg rate.
(** A parameter other than the parameter sets. *)
Definition other_param (kv : cstr) : Prop :=
  plain kv /\ Forall (fun c => beq c (zb 59) = false) kv /\
  match find_char (zb 61) kv with
  | Some e => lc (trim (take e kv)) <> str "sprop-parameter-sets"
  | None => True
  end.
Definition sprop (sps pps : list byte) : cstr :=
  str "sprop-parameter-sets=" ++ base64_encode sps ++ str "," ++ base64_encode pps.
Definition fmtp_text (pt : Z) (params : list cstr) (sps pps : list byte) : cstr :=
  str "a=fmtp:" ++ dec_nonneg pt ++ str " " ++ concat ((fun kv => kv ++ str ";") <$> params) ++ sprop sps pps.
Definition control_text (c : cstr) : cstr := str "a=control:" ++ c.

(** Lines that say nothing of the track: before the video section any line
    that does not open it, in it anything but the three attributes, and then
    any section of another medium. *)
Definition starts_any (ps : list cstr) (l : cstr) : bool := existsb (fun p => starts_with p l) ps.
Definition before_line (l : cstr) : Prop := plain l /\ starts_with (str "m=video ") l = false.
Definition inert_line (l : cstr) : Prop :=
  plain l /\ starts_any [str "m="; str "a=control:"; str "a=rtpmap:"; str "a=fmtp:"] l = false.

(** The lines [ls] with lines that say nothing between them. *)
Inductive spaced : list cstr -> list cstr -> Prop :=
  | spaced_nil : spaced [] []
  | spaced_line l ls out : spaced ls out -> spaced (l :: ls) (l :: out)
  | spaced_inert l ls out : inert_line l -> spaced ls out -> spaced ls (l :: out).

Definition other_media (ls : list cstr) : Prop :=
  match ls with
  | [] => True
  | l :: ls => starts_with (str "m=") l = true /\ before_line l /\ Forall before_line ls
  end.

Definition sdp_text (ls : list cstr) : cstr := concat (crlf <$> ls).

Lemma getlines_crlf ls : Forall plain ls -> getlines lf (sdp_text ls) [] = (fun l => l ++ [cr]) <$> ls.
Proof.
  induction 1 as [|l ls Hl _ IH]; [done|]. unfold sdp_text in *. cbn [fmap list_fmap concat]. unfold crlf at 1.
  replace ((l ++ [cr; lf]) ++ concat (crlf <$> ls)) with ((l ++ [cr]) ++ lf :: concat (crlf <$> ls))
    by (by rewrite <- !app_assoc).
  rewrite getlines_sep; [by rewrite IH|]. apply Forall_app. split; [|by repeat constructor].
  eapply Forall_impl; [exact Hl|]. by intros c [].
Qed.

Lemma strip_cr_line l : strip_cr (l ++ [cr]) = l.
Proof. unfold strip_cr. rewrite last_snoc, beq_refl. apply removelast_last. Qed.

Lemma rfind_last f a c b :
  f c = true -> Forall (fun x => f x = false) b -> rfind_if f (a ++ c :: b) = Some (length a).
Proof.
  intros Hc Hb. unfold rfind_if. rewrite reverse_app, reverse_cons, <- app_assoc. cbn [app].
  rewrite find_if_app by (by apply Forall_reverse). cbn [find_if]. rewrite Hc. cbn [option_map].
  f_equal. rewrite length_reverse, length_app. cbn [length]. lia.
Qed.

(** The characters of base64 text. *)
Definition b64_text (c : byte) : bool := is_alnum c || beq c (zb 43) || beq c (zb 47) || beq c (zb 61).

Lemma b64_char_text v : b64_text (b64_char v) = true.
Proof.
  unfold b64_char. change 0x3f with (Z.ones 6). rewrite Z.land_ones by lia.
  apply (below_forall (fun i => b64_text (kB64Alphabet !!! Z.to_nat i)) 64); [vm_compute; reflexivity|].
  by apply Z.mod_pos_bound.
Qed.

Lemma base64_encode_text d : Forall (fun c => b64_text c = true) (base64_encode d).
Proof.
  induction d as [d IH] using (well_founded_induction (well_founded_ltof _ (@length byte))). unfold ltof in IH.
  destruct d as [|a [|b [|c d]]]; cbn [base64_encode];
    repeat (apply Forall_cons; split; [apply b64_char_text || done|]); try constructor.
  apply IH. cbn. lia.
Qed.

Lemma b64_text_plain c :
  b64_text c = true ->
  beq c cr = false /\ beq c lf = false /\ beq c (zb 59) = false /\ beq c (zb 44) = false /\ is_space c = false.
Proof.
  intros H. pose proof (byte_forall (fun c => negb (b64_text c) || (negb (beq c cr) && negb (beq c lf) &&
    negb (beq c (zb 59)) && negb (beq c (zb 44)) && negb (is_space c))) ltac:(vm_compute; reflexivity) c) as E.
  cbv beta in E. rewrite H in E. cbn [negb orb] in E. rewrite !andb_true_iff, !negb_true_iff in E. tauto.
Qed.

Lemma base64_encode_not_nil d : d <> [] -> base64_encode d <> [].
Proof. by destruct d as [|a [|b [|c d]]]. Qed.

Lemma trim_text l : Forall (fun c => is_space c = false) l -> trim l = l.
Proof.
  intros H. apply trim_id; [by destruct H|]. destruct (last l) as [c|] eqn:E; [|done].
  apply last_Some_elem_of in E. rewrite Forall_forall in H. by apply H.
Qed.

Lemma getlines_two c a b :
  b <> [] -> Forall (fun x => beq x c = false) a -> Forall (fun x => beq x c = false) b ->
  getlines c (a ++ c :: b) [] = [a; b].
Proof. intros Hb Ha Hf. rewrite getlines_sep, getlines_plain by done. cbn [app]. by destruct b. Qed.

Lemma take_set_decoded t nal :
  take_set t (base64_encode nal) =
  match nal with
  | [] => t
  | _ => if (nal_type nal =? 7) && bool_decide (t_sps t = []) then set_sets nal (t_pps t) t
         else if (nal_type nal =? 8) && bool_decide (t_pps t = []) then set_sets (t_sps t) nal t else t
  end.
Proof. unfold take_set, base64_decode. by rewrite (b64_loop_encode nal 0 []). Qed.

Lemma sprop_param t sps pps :
  nal_type sps = 7 -> nal_type pps = 8 -> sps <> [] -> pps <> [] -> t_sps t = [] -> t_pps t = [] ->
  fmtp_param t (sprop sps pps) = set_sets sps pps t.
Proof.
  intros H7 H8 Hs Hp Ht1 Ht2. unfold fmtp_param, sprop.
  assert (E : find_char (zb 61) (str "sprop-parameter-sets=" ++ base64_encode sps ++ str "," ++ base64_encode pps) = Some 20%nat)
    by done.
  rewrite E. clear E. cbv zeta.
  assert (E : lc (trim (take 20 (str "sprop-parameter-sets=" ++ base64_encode sps ++ str "," ++ base64_encode pps)))
    = str "sprop-parameter-sets") by (vm_compute; reflexivity).
  rewrite bool_decide_true by exact E. clear E.
  change (drop 21 (str "sprop-parameter-sets=" ++ base64_encode sps ++ str "," ++ base64_encode pps))
    with (base64_encode sps ++ zb 44 :: base64_encode pps).
  pose proof (base64_encode_text sps) as Fs. pose proof (base64_encode_text pps) as Fp.
  rewrite trim_text.
  - rewrite getlines_two; [|by apply base64_encode_not_nil | |].
    + assert (E1 : take_set t (base64_encode sps) = set_sets sps (t_pps t) t).
      { rewrite take_set_decoded, H7, Ht1. by destruct sps. }
      cbn [foldl]. rewrite E1, take_set_decoded, H8. cbn [set_sets t_sps t_pps]. rewrite Ht2. by destruct pps.
    + eapply Forall_impl; [exact Fs|]. intros c Hc. apply b64_text_plain in Hc. tauto.
    + eapply Forall_impl; [exact Fp|]. intros c Hc. apply b64_text_plain in Hc. tauto.
  - apply Forall_app. split; [|apply Forall_cons; split; [done|]].
    + eapply Forall_impl; [exact Fs|]. intros c Hc. apply b64_text_plain in Hc. tauto.
    + eapply Forall_impl; [exact Fp|]. intros c Hc. apply b64_text_plain in Hc. tauto.
Qed.

(** The lines one by one; [line] is a line without its end. *)
Lemma getlines_params params last_ :
  Forall other_param params -> Forall (fun c => beq c (zb 59) = false) last_ -> last_ <> [] ->
  getlines (zb 59) (concat ((fun kv => kv ++ str ";") <$> params) ++ last_) [] = params ++ [last_].
Proof.
  intros Hp Hl Hn. induction Hp as [|kv params (Hkv & Hsemi & _) Hp IH]; cbn [fmap list_fmap concat app].
  - rewrite getlines_plain by done. by destruct last_.
  - rewrite <- !app_assoc. change (str ";" ++ ?x) with (zb 59 :: x). rewrite getlines_sep by done. by rewrite IH.
Qed.

Lemma other_params_inert t params : Forall other_param params -> foldl fmtp_param t params = t.
Proof.
  induction 1 as [|kv params (_ & _ & Hk) Hp IH]; [done|]. cbn [foldl]. unfold fmtp_param at 2.
  destruct (find_char (zb 61) kv) as [e|]; [|done]. by rewrite bool_decide_false.
Qed.

Lemma sprop_no_semi sps pps : Forall (fun c => beq c (zb 59) = false) (sprop sps pps).
Proof.
  unfold sprop. apply Forall_app. split; [by repeat constructor|]. apply Forall_app. split; [|apply Forall_cons; split; [done|]].
  - eapply Forall_impl; [apply (base64_encode_text sps)|]. intros c Hc. apply b64_text_plain in Hc. tauto.
  - eapply Forall_impl; [apply (base64_encode_text pps)|]. intros c Hc. apply b64_text_plain in Hc. tauto.
Qed.

(** A number in front of a space. *)
Lemma number_field n rest :
  0 <= n < 2 ^ 31 ->
  find_char (zb 32) (dec_nonneg n ++ zb 32 :: rest) = Some (length (dec_nonneg n)) /\
  atoi (take (length (dec_nonneg n)) (dec_nonneg n ++ zb 32 :: rest)) = n /\
  drop (S (length (dec_nonneg n))) (dec_nonneg n ++ zb 32 :: rest) = rest.
Proof.
  intros Hn. destruct (dec_nonneg_spec n) as (_ & Hd & _); [lia|]. split_and!.
  - apply find_char_app. eapply Forall_impl; [exact Hd|]. intros c Hc. by apply digit_no_space.
  - rewrite take_app_length. by apply atoi_dec.
  - apply drop_behind.
Qed.

Lemma sdp_video s port pt :
  0 <= pt < 128 -> sdp_line s (video_line port pt ++ [cr]) =
  Some {| sd_track := set_pt pt (sd_track s); sd_control := sd_control s; in_video := true;
          seen_rtpmap := seen_rtpmap s; video_pt := pt |}.
Proof.
  intros Hpt. unfold sdp_line. rewrite strip_cr_line.
  set (val := str "video " ++ port ++ str " RTP/AVP " ++ dec_nonneg pt).
  change (video_line port pt) with (zb 109 :: zb 61 :: val). cbn [beq negb]. rewrite !beq_refl. cbn [negb].
  unfold media_line. assert (starts_with (str "video ") val = true) as -> by done.
  destruct (dec_nonneg_spec pt) as (_ & Hd & _); [lia|].
  assert (E : val = (str "video " ++ port ++ str " RTP/AVP") ++ zb 32 :: dec_nonneg pt)
    by (subst val; by rewrite <- !app_assoc).
  rewrite E, (rfind_last (beq (zb 32))).
  - by rewrite drop_behind, atoi_dec by lia.
  - apply beq_refl.
  - eapply Forall_impl; [exact Hd|]. intros c Hc. rewrite beq_sym. by apply digit_no_space.
Qed.

(** The state in a video section of type [pt]. *)
Record in_section (pt : Z) (s : SdpState) : Prop := { sec_video : in_video s = true; sec_pt : video_pt s = pt }.

Lemma sdp_attr s val :
  in_video s = true ->
  sdp_line s ((str "a=" ++ val) ++ [cr]) =
  if starts_with (str "control:") val then Some (control_line val s)
  else if starts_with (str "rtpmap:") val then rtpmap_line (drop 7 val) s
  else if starts_with (str "fmtp:") val then Some (fmtp_line (drop 5 val) s)
  else Some s.
Proof. intros H. unfold sdp_line. rewrite strip_cr_line. change (str "a=" ++ val) with (zb 97 :: zb 61 :: val). by rewrite H. Qed.

Lemma sdp_rtpmap s pt rate :
  0 <= pt < 128 -> 0 < rate < 2 ^ 31 -> in_section pt s ->
  sdp_line s (rtpmap_text pt rate ++ [cr]) =
  Some {| sd_track := set_rate rate (sd_track s); sd_control := sd_control s; in_video := in_video s;
          seen_rtpmap := true; video_pt := video_pt s |}.
Proof.
  intros Hpt Hr [Hv Hp]. unfold rtpmap_text.
  change (str "a=rtpmap:" ++ ?x) with (str "a=" ++ str "rtpmap:" ++ x). rewrite sdp_attr by done.
  set (rest := dec_nonneg pt ++ str " H264/" ++ dec_nonneg rate).
  assert (starts_with (str "control:") (str "rtpmap:" ++ rest) = false) as -> by done.
  assert (starts_with (str "rtpmap:") (str "rtpmap:" ++ rest) = true) as -> by done.
  change (drop 7 (str "rtpmap:" ++ rest)) with rest. unfold rtpmap_line.
  change rest with (dec_nonneg pt ++ zb 32 :: str "H264/" ++ dec_nonneg rate).
  destruct (number_field pt (str "H264/" ++ dec_nonneg rate)) as (-> & -> & ->); [lia|].
  rewrite Hp, Z.eqb_refl. cbn [negb].
  assert (find_char (zb 47) (str "H264/" ++ dec_nonneg rate) = Some 4%nat) as -> by done.
  rewrite bool_decide_true by done. cbn [negb].
  change (drop 5 (str "H264/" ++ dec_nonneg rate)) with (dec_nonneg rate).
  rewrite atoi_dec, u32_small by lia. destruct (Z.eqb_spec rate 0); [lia | done].
Qed.

Lemma sdp_fmtp s pt params sps pps :
  0 <= pt < 128 -> in_section pt s -> Forall other_param params ->
  nal_type sps = 7 -> nal_type pps = 8 -> sps <> [] -> pps <> [] -> t_sps (sd_track s) = [] -> t_pps (sd_track s) = [] ->
  sdp_line s (fmtp_text pt params sps pps ++ [cr]) = Some (with_track (set_sets sps pps (sd_track s)) s).
Proof.
  intros Hpt [Hv Hp] Hpar H7 H8 Hs Hpp Ht1 Ht2. unfold fmtp_text.
  change (str "a=fmtp:" ++ ?x) with (str "a=" ++ str "fmtp:" ++ x). rewrite sdp_attr by done.
  set (rest := dec_nonneg pt ++ str " " ++ concat ((fun kv => kv ++ str ";") <$> params) ++ sprop sps pps).
  assert (starts_with (str "control:") (str "fmtp:" ++ rest) = false) as -> by done.
  assert (starts_with (str "rtpmap:") (str "fmtp:" ++ rest) = false) as -> by done.
  assert (starts_with (str "fmtp:") (str "fmtp:" ++ rest) = true) as -> by done.
  change (drop 5 (str "fmtp:" ++ rest)) with rest. unfold fmtp_line.
  change rest with (dec_nonneg pt ++ zb 32 :: concat ((fun kv => kv ++ str ";") <$> params) ++ sprop sps pps).
  destruct (number_field pt (concat ((fun kv => kv ++ str ";") <$> params) ++ sprop sps pps)) as (-> & -> & ->); [lia|].
  rewrite Hp, Z.eqb_refl. cbn [negb]. rewrite getlines_params by (done || apply sprop_no_semi).
  rewrite foldl_app, (other_params_inert _ params) by done. cbn [foldl]. by rewrite sprop_param.
Qed.

Lemma sdp_control s pt c :
  in_section pt s -> field_ok c -> sd_control s = [] ->
  sdp_line s (control_text c ++ [cr]) =
  Some {| sd_track := sd_track s; sd_control := c; in_video := in_video s;
          seen_rtpmap := seen_rtpmap s; video_pt := video_pt s |}.
Proof.
  intros [Hv _] [_ Hc] Hn. unfold control_text. change (str "a=control:" ++ c) with (str "a=" ++ str "control:" ++ c).
  rewrite sdp_attr by done. assert (starts_with (str "control:") (str "control:" ++ c) = true) as -> by done.
  unfold control_line. change (drop 8 (str "control:" ++ c)) with c. by rewrite Hn, Hc.
Qed.

Lemma starts_with_cons c p d s : starts_with (c :: p) (d :: s) = beq c d && starts_with p s.
Proof. done. Qed.

Lemma sdp_inert s l : inert_line l -> sdp_line s (l ++ [cr]) = Some s.
Proof.
  intros [_ H]. unfold sdp_line. rewrite strip_cr_line. destruct l as [|tag [|eq val]]; [done|done|].
  unfold starts_any in H. cbn [existsb] in H.
  apply orb_false_iff in H as [H1 H]. apply orb_false_iff in H as [H2 H].
  apply orb_false_iff in H as [H3 H]. apply orb_false_iff in H as [H4 _].
  destruct (beq eq (zb 61)) eqn:Eeq; cbn [negb]; [|done]. apply beq_eq in Eeq as ->.
  destruct (beq tag (zb 109)) eqn:Em; [apply beq_eq in Em as ->; by vm_compute in H1|].
  destruct (in_video s); cbn [andb]; [|done]. destruct (beq tag (zb 97)) eqn:Ea; [|done].
  apply beq_eq in Ea as ->.
  change (starts_with (str "a=control:") (zb 97 :: zb 61 :: val)) with (starts_with (str "control:") val) in H2.
  change (starts_with (str "a=rtpmap:") (zb 97 :: zb 61 :: val)) with (starts_with (str "rtpmap:") val) in H3.
  change (starts_with (str "a=fmtp:") (zb 97 :: zb 61 :: val)) with (starts_with (str "fmtp:") val) in H4.
  by rewrite H2, H3, H4.
Qed.

Lemma sdp_before s l : before_line l -> in_video s = false -> sdp_line s (l ++ [cr]) = Some s.
Proof.
  intros [_ H] Hv. unfold sdp_line. rewrite strip_cr_line. destruct l as [|tag [|eq val]]; [done|done|].
  destruct (beq eq (zb 61)) eqn:Eeq; cbn [negb]; [|done]. apply beq_eq in Eeq as ->.
  rewrite Hv. cbn [andb]. destruct (beq tag (zb 109)) eqn:Em; [|done]. apply beq_eq in Em as ->.
  change (starts_with (str "m=video ") (zb 109 :: zb 61 :: val)) with (starts_with (str "video ") val) in H.
  unfold media_line. rewrite H. destruct s; cbn in *. by rewrite Hv.
Qed.

Abbreviation wired ls := ((fun l => l ++ [cr]) <$> ls).

Lemma sdp_lines_app a b s : sdp_lines (a ++ b) s = (s ← sdp_lines a s; sdp_lines b s).
Proof.
  revert s. induction a as [|l a IH]; intros s; [done|]. cbn [app sdp_lines].
  destruct (sdp_line s l) as [s'|]; [apply IH | done].
Qed.

Lemma spaced_run ls out : spaced ls out -> forall s, sdp_lines (wired out) s = sdp_lines (wired ls) s.
Proof.
  induction 1 as [|l ls out _ IH|l ls out Hl _ IH]; intros s; [done| |]; cbn [fmap list_fmap sdp_lines].
  - destruct (sdp_line s (l ++ [cr])) as [s'|]; [apply IH | done].
  - rewrite sdp_inert by done. apply IH.
Qed.

Lemma before_run ls s : Forall before_line ls -> in_video s = false -> sdp_lines (wired ls) s = Some s.
Proof.
  intros H Hv. induction H as [|l ls Hl _ IH]; [done|]. cbn [fmap list_fmap sdp_lines]. by rewrite sdp_before.
Qed.

Lemma other_media_run ls s :
  other_media ls ->
  exists s', sdp_lines (wired ls) s = Some s' /\ sd_track s' = sd_track s /\ sd_control s' = sd_control s /\
             seen_rtpmap s' = seen_rtpmap s.
Proof.
  destruct ls as [|l ls]; [by exists s|]. intros (Hm & [Hp Hb] & Hls). cbn [fmap list_fmap sdp_lines].
  apply starts_with_spec in Hm as [val ->].
  change (starts_with (str "m=video ") (str "m=" ++ val)) with (starts_with (str "video ") val) in Hb.
  assert (E : sdp_line s ((str "m=" ++ val) ++ [cr]) = Some (media_line val s)).
  { unfold sdp_line. rewrite strip_cr_line. done. }
  rewrite E. cbn [mbind option_bind]. unfold media_line. rewrite Hb. rewrite before_run by done. by eexists.
Qed.

Lemma spaced_plain ls out : spaced ls out -> Forall plain ls -> Forall plain out.
Proof.
  induction 1 as [|l ls out _ IH|l ls out [Hl _] _ IH]; intros H; [done| |].
  - apply Forall_cons in H as [Hl H]. constructor; [done | by apply IH].
  - constructor; [done | by apply IH].
Qed.

Lemma dec_plain n : 0 <= n -> plain (dec_nonneg n).
Proof. intros Hn. apply digits_plain. by destruct (dec_nonneg_spec n Hn) as (_ & H & _). Qed.

Lemma base64_plain d : plain (base64_encode d).
Proof. eapply Forall_impl; [apply (base64_encode_text d)|]. intros c Hc. apply b64_text_plain in Hc. tauto. Qed.

Lemma fmtp_plain pt params sps pps : 0 <= pt -> Forall other_param params -> plain (fmtp_text pt params sps pps).
Proof.
  intros Hpt Hp. unfold fmtp_text, sprop. repeat apply plain_app; try (by apply plain_eval);
    [by apply dec_plain | | apply base64_plain..].
  induction Hp as [|kv params (Hkv & _) Hp IH]; [constructor|]. cbn [fmap list_fmap concat].
  apply plain_app; [|done]. by apply plain_app, plain_eval.
Qed.

(** The description of a camera: a session, the video section with its
    attributes, and sections of other media. *)
Record Camera := {
  cam_before : list cstr; cam_port : cstr; cam_pt : Z; cam_rate : Z; cam_params : list cstr;
  cam_sps : list byte; cam_pps : list byte; cam_control : cstr; cam_section : list cstr; cam_after : list cstr
}.

Definition camera_ok (d : Camera) : Prop :=
  Forall before_line (cam_before d) /\ plain (cam_port d) /\ 0 <= cam_pt d < 128 /\ 0 < cam_rate d < 2 ^ 31 /\
  Forall other_param (cam_params d) /\
  nal_type (cam_sps d) = 7 /\ cam_sps d <> [] /\ nal_type (cam_pps d) = 8 /\ cam_pps d <> [] /\
  field_ok (cam_control d) /\
  spaced [rtpmap_text (cam_pt d) (cam_rate d); fmtp_text (cam_pt d) (cam_params d) (cam_sps d) (cam_pps d);
          control_text (cam_control d)] (cam_section d) /\
  other_media (cam_after d).

Definition describe (d : Camera) : cstr :=
  sdp_text (cam_before d ++ video_line (cam_port d) (cam_pt d) :: cam_section d ++ cam_after d).

(** The track a client should find. *)
Definition camera_track (d : Camera) : H264Track :=
  let t := {| t_sps := cam_sps d; t_pps := cam_pps d; clock_rate := cam_rate d; rtp_pt := cam_pt d;
              t_width := 0; t_height := 0; t_fps := 0 |} in
  match parse_sps_geometry (cam_sps d) with Some g => set_geometry g t | None => t end.

(** A session description is understood: the client finds the payload type,
    the clock rate, the parameter sets (from their base64 text), the geometry
    of the sequence parameter set and the control attribute, with any other
    lines, parameters and sections around them. *)
Lemma sdp_understood (d : Camera) :
  camera_ok d -> parse_sdp (describe d) = Some (camera_track d, cam_control d).
Proof.
  intros (Hb & Hport & Hpt & Hr & Hpar & H7 & Hs & H8 & Hp & Hc & Hsec & Ha). unfold parse_sdp, describe.
  rewrite getlines_crlf.
  - rewrite fmap_app, sdp_lines_app, before_run by done. cbn [mbind option_bind fmap list_fmap sdp_lines].
    rewrite sdp_video by done. cbn [mbind option_bind]. rewrite fmap_app, sdp_lines_app, (spaced_run _ _ Hsec).
    cbn [fmap list_fmap sdp_lines].
    rewrite (sdp_rtpmap _ (cam_pt d)) by (done || by constructor). cbn [mbind option_bind sd_track sd_control in_video seen_rtpmap video_pt].
    rewrite (sdp_fmtp _ (cam_pt d)) by (done || by constructor). cbn [mbind option_bind sd_track sd_control in_video seen_rtpmap video_pt with_track].
    rewrite (sdp_control _ (cam_pt d)) by (done || by constructor). cbn [mbind option_bind sd_track sd_control in_video seen_rtpmap video_pt].
    match goal with |- context [sdp_lines (wired (cam_after d)) ?s] =>
      destruct (other_media_run (cam_after d) s Ha) as (s' & -> & Ht & Hctl & Hseen) end.
    cbn [mbind option_bind]. rewrite Hseen, Ht, Hctl. cbn [seen_rtpmap sd_track sd_control negb]. unfold camera_track.
    destruct (cam_sps d) as [|x sps] eqn:E; [done|]. cbn -[parse_sps_geometry].
    by destruct (parse_sps_geometry (x :: sps)).
  - apply Forall_app. split; [eapply Forall_impl; [exact Hb|]; by intros l []|].
    constructor; [|apply Forall_app; split].
    + unfold video_line. repeat apply plain_app; try (by apply plain_eval); [done | apply dec_plain; lia].
    + eapply spaced_plain; [exact Hsec|]. constructor; [|constructor; [|constructor; [|constructor]]].
      * unfold rtpmap_text. repeat apply plain_app; try (by apply plain_eval); apply dec_plain; lia.
      * apply fmtp_plain; [lia | done].
      * apply plain_app; [by apply plain_eval|]. by destruct Hc.
    + unfold other_media in Ha. destruct (cam_after d) as [|l ls]; [done|]. destruct Ha as (_ & [Hl _] & Hls).
      constructor; [done|]. eapply Forall_impl; [exact Hls|]. by intros m [].
Qed.

(** ** Challenges *)

Definition param_text (p : cstr * cstr) : cstr := p.1 ++ str "=" ++ [zb 34] ++ p.2 ++ [zb 34].

Fixpoint params_text (ps : list (cstr * cstr)) : cstr :=
  match ps with
  | [] => []
  | [p] => param_text p
  | p :: ps => param_text p ++ str ", " ++ params_text ps
  end.

Definition key_char (c : byte) : bool := is_alnum c || beq c (zb 45).
Definition value_char (c : byte) : bool := negb (beq c (zb 34)) && negb (beq c (zb 92)).

Definition param_ok (p : cstr * cstr) : Prop :=
  p.1 <> [] /\ Forall (fun c => key_char c = true) p.1 /\ Forall (fun c => value_char c = true) p.2 /\ trim p.2 = p.2.

Lemma key_char_spec c :
  key_char c = true ->
  param_sep c = false /\ negb (beq c (zb 61)) && negb (beq c (zb 44)) = true /\ is_space c = false.
Proof.
  intros H. pose proof (byte_forall (fun c => negb (key_char c) || (negb (param_sep c) &&
    (negb (beq c (zb 61)) && negb (beq c (zb 44))) && negb (is_space c))) ltac:(vm_compute; reflexivity) c) as E.
  cbv beta in E. rewrite H in E. cbn [negb orb] in E.
  apply andb_prop in E as [[H1%negb_true_iff H2]%andb_prop H3%negb_true_iff]. done.
Qed.

Lemma quoted_value_closed v rest :
  Forall (fun c => value_char c = true) v -> quoted_value (v ++ zb 34 :: rest) = (v, zb 34 :: rest).
Proof.
  induction 1 as [|c v Hc Hv IH].
  - cbn [app quoted_value]. by rewrite beq_refl.
  - unfold value_char in Hc. apply andb_prop in Hc as [Hq%negb_true_iff Hb%negb_true_iff].
    cbn [app quoted_value]. rewrite Hq, Hb, IH. by destruct (v ++ zb 34 :: rest) eqn:E; [destruct v|].
Qed.

Lemma param_read p rest :
  param_ok p ->
  trim_front param_sep (param_text p ++ rest) = param_text p ++ rest /\
  span (fun c => negb (beq c (zb 61)) && negb (beq c (zb 44))) (param_text p ++ rest) =
    (p.1, str "=" ++ [zb 34] ++ p.2 ++ [zb 34] ++ rest) /\
  param_value (str "=" ++ [zb 34] ++ p.2 ++ [zb 34] ++ rest) = (p.2, rest) /\
  trim p.1 = p.1.
Proof.
  destruct p as [k v]. intros (Hne & Hk & Hv & Ht). cbn [fst snd] in *. unfold param_text. cbn [fst snd].
  rewrite <- !app_assoc. split_and!.
  - apply trim_front_id. destruct Hk as [|c k Hc _]; [done|]. by apply key_char_spec in Hc as (? & _).
  - apply span_all; [|done]. eapply Forall_impl; [exact Hk|]. intros c Hc. by apply key_char_spec in Hc as (_ & ? & _).
  - change (str "=" ++ [zb 34] ++ v ++ [zb 34] ++ rest) with (zb 61 :: zb 34 :: v ++ zb 34 :: rest).
    unfold param_value. by rewrite !beq_refl, quoted_value_closed.
  - apply trim_text. eapply Forall_impl; [exact Hk|]. intros c Hc. by apply key_char_spec in Hc as (_ & _ & ?).
Qed.

Lemma sep_skipped l : trim_front param_sep (str ", " ++ l) = trim_front param_sep l.
Proof. unfold trim_front. cbn. by destruct (span param_sep l). Qed.

Lemma auth_params_read ps : forall fuel, Forall param_ok ps -> (length ps < fuel)%nat ->
  auth_params fuel (params_text ps) = (fun p => (lc p.1, p.2)) <$> ps.
Proof.
  assert (Hstep : forall p rest fuel, param_ok p ->
    auth_params (S fuel) (param_text p ++ rest) = (lc p.1, p.2) :: auth_params fuel rest).
  { intros p rest fuel Hp. destruct (param_read p rest Hp) as (H1 & H2 & H3 & H4). cbn [auth_params].
    destruct Hp as (Hne & _ & _ & Hv).
    destruct (param_text p ++ rest) as [|c l] eqn:E; [unfold param_text in E; by destruct p.1|].
    by rewrite H1, H2, H3, H4, Hv. }
  induction ps as [|p ps IH]; intros fuel Hok Hf; (destruct fuel as [|fuel]; [cbn in Hf; lia|]); [done|].
  apply Forall_cons in Hok as [Hp Hok]. cbn [length] in Hf. destruct ps as [|q ps].
  - cbn [params_text]. rewrite <- (app_nil_r (param_text p)), Hstep by done. by destruct fuel.
  - change (params_text (p :: q :: ps)) with (param_text p ++ str ", " ++ params_text (q :: ps)).
    rewrite Hstep by done. cbn [fmap list_fmap]. f_equal. change ((lc q.1, q.2) :: ((fun p => (lc p.1, p.2)) <$> ps))
      with ((fun p => (lc p.1, p.2)) <$> (q :: ps)). rewrite <- (IH fuel Hok) by (cbn [length] in *; lia).
    destruct fuel as [|fuel]; [done|]. cbn [auth_params]. by rewrite sep_skipped.
Qed.
