(* ===== verification/RtspClient.v ===== *)
(** The RTSP client ([Client::Impl] of [src/stubs/rtsp_client.cpp]): requests
    with their authorization, the handshake, the reader of interleaved frames,
    keepalives and reports. The MD5 digest is a parameter; random nonces are an
    input, taken one after the other. The keepalive thread's pings are steps of
    their own ([send_rtsp_ping]). *)

From S2P Require Import Prelude Text Double H264 Rtp Tls Rtsp.

#[local] Delimit Scope string_scope with string.

(** ** State *)

Inductive AuthScheme := NoAuth | Basic | Digest.

Record Auth := {
  user : cstr; passwd : cstr; auth_scheme : AuthScheme;
  digest_realm : cstr; digest_nonce : cstr; digest_qop : cstr; digest_opaque : cstr; digest_algorithm : cstr;
  digest_nc : Z; cnonces : list cstr
}.

Record Requests := { cseq : Z; session : cstr; session_id : cstr; url_full : cstr; url_setup : cstr }.

Record Media := {
  track : H264Track; demux : Demux; stats : Stats; peer_bye : bool; stream_t0 : Z; next_rtcp_due : Z
}.

Record Control := { ssl_open : bool; stop_flag : bool; socket_down : bool; ctrl_timeout_ms : Z; data_timeout_ms : Z }.

Record Impl := { conn : Conn; auth : Auth; reqs : Requests; media : Media; ctl : Control }.

Definition set_conn (c : Conn) (s : Impl) : Impl :=
  {| conn := c; auth := auth s; reqs := reqs s; media := media s; ctl := ctl s |}.
Definition set_auth (a : Auth) (s : Impl) : Impl :=
  {| conn := conn s; auth := a; reqs := reqs s; media := media s; ctl := ctl s |}.
Definition set_reqs (r : Requests) (s : Impl) : Impl :=
  {| conn := conn s; auth := auth s; reqs := r; media := media s; ctl := ctl s |}.
Definition set_media (m : Media) (s : Impl) : Impl :=
  {| conn := conn s; auth := auth s; reqs := reqs s; media := m; ctl := ctl s |}.
Definition set_ctl (k : Control) (s : Impl) : Impl :=
  {| conn := conn s; auth := auth s; reqs := reqs s; media := media s; ctl := k |}.

(** A call on the connection. *)
Definition on_conn {A} (m : call Conn A) : call Impl A := fun s =>
  let '(r, c) := m (conn s) in (r, set_conn c s).

Definition read_full (n : nat) (ms : Z) : call Impl (list byte) := on_conn (ssl_read_full_timeout n ms).
Definition read_line (ms : Z) : call Impl cstr := on_conn (ssl_read_line_timeout ms).

(** The writes that fail without a connection. *)
Definition write_all (p : list byte) : call Impl unit :=
  up ← gets (fun s => ssl_open (ctl s)); if up : bool then on_conn (ssl_write_all_conn p) else fault.

(** The characters that [%s] prints. *)
Definition c_str (l : cstr) : cstr := (span (fun c => negb (beq c x00)) l).1.

Definition eol : cstr := [cr; lf].
Definition quoted (s : cstr) : cstr := [zb 34] ++ s ++ [zb 34].

Section client.
Context (md5 : list byte -> list byte).

Definition md5_hex (s : cstr) : cstr :=
  concat ((fun c => [hex_lower (Z.shiftr (bz c) 4); hex_lower (Z.land (bz c) 0x0f)]) <$> md5 s).

(** ** Authorization *)

Definition next_nonce (a : Auth) : Auth :=
  {| user := user a; passwd := passwd a; auth_scheme := auth_scheme a;
     digest_realm := digest_realm a; digest_nonce := digest_nonce a; digest_qop := digest_qop a;
     digest_opaque := digest_opaque a; digest_algorithm := digest_algorithm a;
     digest_nc := u32 (digest_nc a + 1); cnonces := tail (cnonces a) |}.

Definition ha1 (a : Auth) : cstr := md5_hex (user a ++ str ":" ++ digest_realm a ++ str ":" ++ passwd a).
Definition ha2 (method uri : cstr) : cstr := md5_hex (method ++ str ":" ++ uri).

(** The response to the challenge, and the parameters it needs with [qop]. *)
Definition digest_response (a : Auth) (method uri : cstr) : cstr * cstr * Auth :=
  match digest_qop a with
  | [] => (md5_hex (ha1 a ++ str ":" ++ digest_nonce a ++ str ":" ++ ha2 method uri), [], a)
  | _ =>
      let cnonce := match cnonces a with c :: _ => c | [] => [] end in
      let a' := next_nonce a in
      let nc := hex8 (digest_nc a') in
      (md5_hex (ha1 a ++ str ":" ++ digest_nonce a ++ str ":" ++ nc ++ str ":" ++ cnonce ++ str ":auth:" ++ ha2 method uri),
       str ", qop=auth, nc=" ++ nc ++ str ", cnonce=" ++ quoted cnonce, a')
  end.

Definition authorization (a : Auth) (method uri : cstr) : cstr * Auth :=
  match auth_scheme a with
  | NoAuth => ([], a)
  | Basic => (str "Authorization: Basic " ++ base64_encode (user a ++ str ":" ++ passwd a) ++ eol, a)
  | Digest =>
      let '(response, extra, a) := digest_response a method uri in
      (str "Authorization: Digest username=" ++ quoted (user a) ++ str ", realm=" ++ quoted (digest_realm a)
       ++ str ", nonce=" ++ quoted (digest_nonce a) ++ str ", uri=" ++ quoted uri ++ str ", response=" ++ quoted response
       ++ (match digest_opaque a with [] => [] | o => str ", opaque=" ++ quoted o end)
       ++ (match digest_algorithm a with [] => [] | g => str ", algorithm=" ++ g end)
       ++ extra ++ eol, a)
  end.

Definition compute_authorization (method uri : cstr) : call Impl cstr := fun s =>
  let '(text, a) := authorization (auth s) method uri in (Done text, set_auth a s).

(** The last parameter of a name counts. *)
Definition last_param (k : cstr) (ps : list (cstr * cstr)) : cstr :=
  foldl (fun v p => if bool_decide (p.1 = k) then p.2 else v) [] ps.

Definition adopt (resp : Response) (a : Auth) : bool * Auth :=
  let www := header resp (str "www-authenticate") in
  match www with
  | [] => (false, a)
  | _ =>
      if bool_decide (lc (take 7 www) = str "digest ") then
        let p := parse_auth_params (drop 7 www) in
        let a := {| user := user a; passwd := passwd a; auth_scheme := auth_scheme a;
                    digest_realm := last_param (str "realm") p; digest_nonce := last_param (str "nonce") p;
                    digest_qop := last_param (str "qop") p; digest_opaque := last_param (str "opaque") p;
                    digest_algorithm := last_param (str "algorithm") p; digest_nc := digest_nc a; cnonces := cnonces a |} in
        if bool_decide (digest_realm a = []) || bool_decide (digest_nonce a = []) then (false, a)
        else
          (true, {| user := user a; passwd := passwd a; auth_scheme := Digest;
                    digest_realm := digest_realm a; digest_nonce := digest_nonce a; digest_qop := digest_qop a;
                    digest_opaque := digest_opaque a; digest_algorithm := digest_algorithm a; digest_nc := 0;
                    cnonces := cnonces a |})
      else if bool_decide (lc (take 6 www) = str "basic ") then
        (true, {| user := user a; passwd := passwd a; auth_scheme := Basic;
                  digest_realm := digest_realm a; digest_nonce := digest_nonce a; digest_qop := digest_qop a;
                  digest_opaque := digest_opaque a; digest_algorithm := digest_algorithm a; digest_nc := digest_nc a;
                  cnonces := cnonces a |})
      else (false, a)
  end.

Definition adopt_challenge (resp : Response) : call Impl bool := fun s =>
  let '(ok, a) := adopt resp (auth s) in (Done ok, set_auth a s).

(** ** Requests *)

Definition next_cseq (r : Requests) : Requests :=
  {| cseq := s32 (cseq r + 1); session := session r; session_id := session_id r; url_full := url_full r; url_setup := url_setup r |}.

Definition take_cseq : call Impl Z := fun s => (Done (cseq (reqs s)), set_reqs (next_cseq (reqs s)) s).

Definition kRequestBuffer : Z := 4096.

(** What [snprintf] puts into the buffer: the request line and the first
    headers. *)
Definition request_head (method url : cstr) (q : Z) (id : cstr) : cstr :=
  method ++ str " " ++ c_str url ++ str " RTSP/1.0" ++ eol ++ str "CSeq: " ++ dec q ++ eol
  ++ str "User-Agent: open-bamboo-networking/0.1" ++ eol
  ++ match id with [] => [] | _ => str "Session: " ++ c_str id ++ eol end.

Definition send_request (method url extra_headers : cstr) (body : list byte) : call Impl unit :=
  q ← take_cseq;
  id ← gets (fun s => session_id (reqs s));
  let head := request_head method url q id in
  if kRequestBuffer <=? zlen head then fault
  else
    hdr ← compute_authorization method url;
    write_all (head ++ hdr ++ extra_headers
               ++ (match body with [] => [] | _ => str "Content-Length: " ++ dec (zlen body) ++ eol end) ++ eol ++ body).

(** ** Interleaved frames *)

Definition kMaxRtpPacket : Z := 2 ^ 16.

Definition media_rtp (now : Z) (rtp : list byte) (m : Media) : Media :=
  let '(s, d) := handle_rtp (track m) (now - stream_t0 m) rtp (stats m) (demux m) in
  {| track := track m; demux := d; stats := s; peer_bye := peer_bye m; stream_t0 := stream_t0 m; next_rtcp_due := next_rtcp_due m |}.

Definition media_rtcp (now : Z) (pkt : list byte) (m : Media) : Media :=
  let '(s, bye) := handle_rtcp (length pkt) now pkt (stats m) in
  {| track := track m; demux := demux m; stats := s; peer_bye := peer_bye m || bye;
     stream_t0 := stream_t0 m; next_rtcp_due := next_rtcp_due m |}.

Definition media_frame (channel : byte) (now : Z) (pkt : list byte) (m : Media) : Media :=
  if bz channel =? 0 then media_rtp now pkt m
  else if bz channel =? 1 then media_rtcp now pkt m
  else m.

Definition handle_frame (channel : byte) (pkt : list byte) : call Impl unit :=
  modify (fun s => set_media (media_frame channel (clock (conn s)) pkt (media s)) s).

(** ** Waiting for a response *)

Definition dollar : byte := zb 36.

(** The first byte tells an interleaved frame from a response; every pass takes
    at least a byte. *)
Fixpoint await_loop (fuel : nat) (ms : Z) : call Impl Response :=
  match fuel with
  | O => fault
  | S fuel =>
      prefix ← read_full 1 ms;
      let c := prefix !!! 0%nat in
      if beq c dollar then
        hdr ← read_full 3 ms;
        let plen := be16 hdr 1 in
        if kMaxRtpPacket <? plen then fault
        else
          rtp ← read_full (Z.to_nat plen) ms;
          handle_frame (hdr !!! 0%nat) rtp ;;
          await_loop fuel ms
      else on_conn (read_response ms (Some c))
  end.

Definition stream_fuel (s : Impl) : nat := S (length (stream (incoming (conn s)))).

Definition await_response : call Impl Response :=
  fuel ← gets stream_fuel; ms ← gets (fun s => ctrl_timeout_ms (ctl s)); await_loop fuel ms.

Definition request_with_auth (method url extra_headers : cstr) (body : list byte) : call Impl Response :=
  send_request method url extra_headers body ;;
  resp ← await_response;
  if negb (status resp =? 401) then mret resp
  else
    ok ← adopt_challenge resp;
    if negb ok then fault
    else
      send_request method url extra_headers body ;;
      resp ← await_response;
      if status resp =? 401 then fault else mret resp.

(** ** The handshake *)

Definition expect_ok (resp : Response) : call Impl unit := if status resp =? 200 then mret tt else fault.

Definition full_url : call Impl cstr := gets (fun s => url_full (reqs s)).

Definition do_options : call Impl unit :=
  url ← full_url;
  resp ← request_with_auth (str "OPTIONS") url [] [];
  expect_ok resp.

Definition do_describe : call Impl cstr :=
  url ← full_url;
  resp ← request_with_auth (str "DESCRIBE") url (str "Accept: application/sdp" ++ eol) [];
  expect_ok resp ;; mret (body resp).

Definition set_session (v : cstr) (r : Requests) : Requests :=
  {| cseq := cseq r; session := v;
     session_id := trim (match find_char (zb 59) v with Some semi => take semi v | None => v end);
     url_full := url_full r; url_setup := url_setup r |}.

Definition store_session (v : cstr) (r : Requests) : Requests :=
  {| cseq := cseq r; session := v; session_id := session_id r; url_full := url_full r; url_setup := url_setup r |}.

Definition do_setup : call Impl unit :=
  url ← gets (fun s => url_setup (reqs s));
  resp ← request_with_auth (str "SETUP") url (str "Transport: RTP/AVP/TCP;unicast;interleaved=0-1" ++ eol) [];
  expect_ok resp ;;
  let v := header resp (str "session") in
  modify (fun s => set_reqs (store_session v (reqs s)) s) ;;
  match v with
  | [] => fault
  | _ => modify (fun s => set_reqs (set_session v (reqs s)) s)
  end.

Definition do_play : call Impl unit :=
  url ← full_url;
  resp ← request_with_auth (str "PLAY") url (str "Range: npt=0.000-" ++ eol) [];
  expect_ok resp.

Definition set_track (t : H264Track) (m : Media) : Media :=
  {| track := t; demux := demux m; stats := stats m; peer_bye := peer_bye m; stream_t0 := stream_t0 m; next_rtcp_due := next_rtcp_due m |}.
Definition set_setup_url (u : cstr) (r : Requests) : Requests :=
  {| cseq := cseq r; session := session r; session_id := session_id r; url_full := url_full r; url_setup := u |}.

Definition kRtcpIntervalMs : Z := 2000.

(** The session runs: the clocks start. *)
Definition start_clocks (now : Z) (m : Media) : Media :=
  {| track := track m; demux := demux m; stats := stats m; peer_bye := peer_bye m;
     stream_t0 := now; next_rtcp_due := now + 1000 * kRtcpIntervalMs |}.

Definition handshake : call Impl unit :=
  do_options ;;
  sdp ← do_describe;
  match parse_sdp sdp with
  | None => fault
  | Some (t, control) =>
      modify (fun s => set_media (set_track t (media s)) s) ;;
      modify (fun s => set_reqs (set_setup_url (resolve_control (url_full (reqs s)) control) (reqs s)) s) ;;
      do_setup ;;
      do_play ;;
      modify (fun s => set_media (start_clocks (clock (conn s)) (media s)) s)
  end.

(** The state a client is built with: [ssrc] is random, [now] the time. *)
Definition new_impl (ssrc now : Z) (nonces : list cstr) (c : Conn) : Impl :=
  {| conn := c;
     auth := {| user := []; passwd := []; auth_scheme := NoAuth; digest_realm := []; digest_nonce := []; digest_qop := [];
                digest_opaque := []; digest_algorithm := []; digest_nc := 0; cnonces := nonces |};
     reqs := {| cseq := 1; session := []; session_id := []; url_full := []; url_setup := [] |};
     media := {| track := {| t_sps := []; t_pps := []; clock_rate := 90000; rtp_pt := 96; t_width := 0; t_height := 0; t_fps := 0 |};
                 demux := new_demux; stats := new_stats ssrc; peer_bye := false; stream_t0 := now; next_rtcp_due := 0 |};
     ctl := {| ssl_open := false; stop_flag := false; socket_down := false; ctrl_timeout_ms := 5000; data_timeout_ms := 5000 |} |}.

Definition kDataReadTimeoutMs : Z := 5000.

(** [OBN_RTSP_READ_TIMEOUT_MS]. *)
Definition data_read_timeout (env : option cstr) : Z :=
  match env with
  | Some e => let v := atoi e in if 0 <? v then v else kDataReadTimeoutMs
  | None => kDataReadTimeoutMs
  end.

Definition set_timeouts (connect_timeout_ms : Z) (env : option cstr) (k : Control) : Control :=
  {| ssl_open := ssl_open k; stop_flag := stop_flag k; socket_down := socket_down k;
     ctrl_timeout_ms := if 0 <? connect_timeout_ms then connect_timeout_ms else 5000;
     data_timeout_ms := data_read_timeout env |}.
Definition set_open (up : bool) (k : Control) : Control :=
  {| ssl_open := up; stop_flag := stop_flag k; socket_down := socket_down k;
     ctrl_timeout_ms := ctrl_timeout_ms k; data_timeout_ms := data_timeout_ms k |}.
Definition set_user (u p : cstr) (a : Auth) : Auth :=
  {| user := u; passwd := p; auth_scheme := auth_scheme a; digest_realm := digest_realm a; digest_nonce := digest_nonce a;
     digest_qop := digest_qop a; digest_opaque := digest_opaque a; digest_algorithm := digest_algorithm a;
     digest_nc := digest_nc a; cnonces := cnonces a |}.
Definition set_full_url (u : cstr) (r : Requests) : Requests :=
  {| cseq := cseq r; session := session r; session_id := session_id r; url_full := u; url_setup := url_setup r |}.

(** [dialled] is what the TLS dial comes to; a plain rtsp:// URL is refused. *)
Definition start (url : Url) (connect_timeout_ms : Z) (env : option cstr) (dialled : option Conn) : call Impl unit := fun s =>
  let s := set_ctl (set_timeouts connect_timeout_ms env (ctl s)) s in
  match dialled with
  | None => (Fault, s)
  | Some c =>
      if negb (url_tls url) then (Fault, s)
      else
        let s := set_ctl (set_open true (ctl s)) (set_conn c s) in
        let s := set_reqs (set_full_url (base_url url) (reqs s)) s in
        let s := set_auth (set_user (url_user url) (url_passwd url) (auth s)) s in
        match handshake s with
        | (Done _, s) => (Done tt, s)
        | (_, s) => (Fault, set_ctl (set_open false (ctl s)) s)
        end
  end.

(** ** Keepalives and reports *)

(** The request the ping and the teardown build themselves. *)
Definition session_request (method : cstr) : call Impl cstr :=
  url ← full_url;
  hdr ← compute_authorization method url;
  q ← take_cseq;
  id ← gets (fun s => session_id (reqs s));
  mret (method ++ str " " ++ url ++ str " RTSP/1.0" ++ eol ++ str "CSeq: " ++ dec q ++ eol
        ++ str "Session: " ++ id ++ eol ++ hdr ++ eol).

Definition send_rtsp_ping : call Impl unit :=
  down ← gets (fun s => socket_down (ctl s));
  if down : bool then fault
  else req ← session_request (str "GET_PARAMETER"); write_all req.

(** The teardown's own errors are ignored. *)
Definition do_teardown_best_effort : call Impl unit := fun s =>
  if bool_decide (session_id (reqs s) = []) || negb (ssl_open (ctl s)) || socket_down (ctl s) then (Done tt, s)
  else (Done tt, ((req ← session_request (str "TEARDOWN"); write_all req) s).2).

Definition set_stats (st : Stats) (m : Media) : Media :=
  {| track := track m; demux := demux m; stats := st; peer_bye := peer_bye m; stream_t0 := stream_t0 m; next_rtcp_due := next_rtcp_due m |}.

(** A report frame on channel 1, and the statistics after it. *)
Definition report_frame (now : Z) (st : Stats) : list byte * Stats :=
  let '(rr, st') := build_receiver_report now st in
  let pkt := append_sdes_cname (our_ssrc st) rr in
  ([dollar; zb 1] ++ enc_be16 (zlen pkt) ++ pkt, st').

Definition send_rtcp_receiver_report : call Impl unit :=
  down ← gets (fun s => socket_down (ctl s));
  if down : bool then fault
  else
    st ← gets (fun s => stats (media s));
    if negb (seq_initialised st) || negb (have_peer_ssrc st) then mret tt
    else
      now ← gets (fun s => clock (conn s));
      let '(frame, st) := report_frame now st in
      modify (fun s => set_media (set_stats st (media s)) s) ;;
      write_all (take 4 frame) ;; write_all (drop 4 frame).

Definition set_due (t : Z) (m : Media) : Media :=
  {| track := track m; demux := demux m; stats := stats m; peer_bye := peer_bye m; stream_t0 := stream_t0 m; next_rtcp_due := t |}.

(** Its result is ignored. *)
Definition maybe_send_rtcp : call Impl unit := fun s =>
  let now := clock (conn s) in
  if now <? next_rtcp_due (media s) then (Done tt, s)
  else
    let s := set_media (set_due (now + 1000 * kRtcpIntervalMs) (media s)) s in
    (Done tt, (send_rtcp_receiver_report s).2).

(** ** The reader *)

(** A stray response, the answer to a ping: its headers and body are
    dropped. *)
Definition drain_response (ms : Z) : call Conn unit :=
  _ ← ssl_read_line_timeout ms;
  '(len, _) ← read_headers ms;
  _ ← read_body ms len;
  mret tt.

Definition pull_one_message : call Impl unit :=
  ms ← gets (fun s => data_timeout_ms (ctl s));
  prefix ← read_full 1 ms;
  let c := prefix !!! 0%nat in
  if beq c dollar then
    hdr ← read_full 3 ms;
    let plen := be16 hdr 1 in
    if (plen =? 0) || (kMaxRtpPacket <? plen) then fault
    else
      rtp ← read_full (Z.to_nat plen) ms;
      let channel := hdr !!! 0%nat in
      handle_frame channel rtp ;;
      bye ← gets (fun s => peer_bye (media s));
      if (bz channel =? 1) && bye then eos else mret tt
  else if beq c (zb 82) then on_conn (drain_response ms)
  else fault.

Definition set_queue (q : list Nalu) (m : Media) : Media :=
  {| track := track m;
     demux := {| nalu_queue := q; fu_buf := fu_buf (demux m); fu_ts := fu_ts (demux m); fu_au_end := fu_au_end (demux m) |};
     stats := stats m; peer_bye := peer_bye m; stream_t0 := stream_t0 m; next_rtcp_due := next_rtcp_due m |}.

(** Every pulled message takes at least a byte. *)
Fixpoint read_nalu_loop (fuel : nat) : call Impl Nalu :=
  match fuel with
  | O => fault
  | S fuel =>
      q ← gets (fun s => nalu_queue (demux (media s)));
      match q with
      | n :: q => modify (fun s => set_media (set_queue q (media s)) s) ;; mret n
      | [] =>
          k ← gets ctl;
          if stop_flag k || negb (ssl_open k) then fault
          else maybe_send_rtcp ;; pull_one_message ;; read_nalu_loop fuel
      end
  end.

Definition read_nalu : call Impl Nalu := fuel ← gets stream_fuel; read_nalu_loop fuel.

(** ** The end *)

Definition set_flags (stop down up : bool) (k : Control) : Control :=
  {| ssl_open := up; stop_flag := stop; socket_down := down; ctrl_timeout_ms := ctrl_timeout_ms k; data_timeout_ms := data_timeout_ms k |}.

Definition stop (s : Impl) : Impl :=
  if stop_flag (ctl s) then s
  else
    let s := set_ctl (set_flags true (socket_down (ctl s)) (ssl_open (ctl s)) (ctl s)) s in
    let s := (do_teardown_best_effort s).2 in
    set_ctl (set_flags true true false (ctl s)) s.

(** The socket is shut down: reads fail from then on. *)
Definition shut (c : Conn) : Conn :=
  {| incoming := [(clock c, Broken)]; outcomes := outcomes c; written := written c; clock := clock c |}.

Definition cancel (s : Impl) : Impl :=
  set_ctl (set_flags (stop_flag (ctl s)) true (ssl_open (ctl s)) (ctl s)) (set_conn (shut (conn s)) s).

(** ** Calls on a live connection *)

(** The client has the stream [tl] to read before [fin], and has sent [wr]. *)
Record live (limit : Z) (tl : list byte) (fin : option Chunk) (wr : list byte) (s : Impl) : Prop := {
  live_conn : conn_at limit tl fin wr (conn s);
  live_open : ssl_open (ctl s) = true
}.

Lemma on_conn_reads {A} limit (m : call Conn A) bs a tl fin wr s :
  reads limit m bs a -> live limit (bs ++ tl) fin wr s ->
  exists c', on_conn m s = (Done a, set_conn c' s) /\ live limit tl fin wr (set_conn c' s).
Proof.
  intros Hm [Hc Ho]. destruct (Hm _ _ _ _ Hc) as (c' & E & Hc'). exists c'. unfold on_conn. rewrite E. by split.
Qed.

Lemma read_full_at limit ms n bs tl fin wr s :
  0 < limit <= 1000 * ms -> length bs = n -> live limit (bs ++ tl) fin wr s ->
  exists c', read_full n ms s = (Done bs, set_conn c' s) /\ live limit tl fin wr (set_conn c' s).
Proof. intros Hl Hn. apply on_conn_reads. by apply reads_full. Qed.

Lemma write_all_at limit p tl fin wr s :
  live limit tl fin wr s ->
  exists c', write_all p s = (Done tt, set_conn c' s) /\ live limit tl fin (wr ++ p) (set_conn c' s) /\
             clock c' = clock (conn s) /\ incoming c' = incoming (conn s).
Proof.
  intros [Hc Ho]. destruct (write_at limit p tl fin wr (conn s) Hc) as (c' & E & Hc' & Hk & Hi). exists c'.
  unfold write_all, gets, mbind, call_bind. rewrite Ho. unfold on_conn. rewrite E. by split_and!.
Qed.

(** What a request without a body looks like on the wire. *)
Definition request_text (a : Auth) (r : Requests) (method url extra : cstr) : cstr :=
  request_head method url (cseq r) (session_id r) ++ (authorization a method url).1 ++ extra ++ eol.

Lemma send_request_at limit method url extra tl fin wr s :
  live limit tl fin wr s -> zlen (request_head method url (cseq (reqs s)) (session_id (reqs s))) < kRequestBuffer ->
  exists c', let s' := set_conn c' (set_auth (authorization (auth s) method url).2 (set_reqs (next_cseq (reqs s)) s)) in
    send_request method url extra [] s = (Done tt, s') /\
    live limit tl fin (wr ++ request_text (auth s) (reqs s) method url extra) s'.
Proof.
  intros Hs Hlen. set (s1 := set_auth (authorization (auth s) method url).2 (set_reqs (next_cseq (reqs s)) s)).
  assert (Hs1 : live limit tl fin wr s1) by (destruct Hs; by split).
  destruct (write_all_at limit (request_head method url (cseq (reqs s)) (session_id (reqs s)) ++
    (authorization (auth s) method url).1 ++ extra ++ [] ++ eol ++ []) tl fin wr s1 Hs1) as (c' & E & Hc' & _).
  exists c'. cbv zeta. split.
  - unfold send_request, take_cseq, gets, mbind, call_bind. cbn [set_reqs reqs next_cseq session_id].
    destruct (Z.leb_spec kRequestBuffer (zlen (request_head method url (cseq (reqs s)) (session_id (reqs s))))); [lia|].
    unfold compute_authorization. subst s1. change (auth (set_reqs (next_cseq (reqs s)) s)) with (auth s).
    destruct (authorization (auth s) method url) as [hdr a']. cbn [fst snd] in *. exact E.
  - unfold request_text. by rewrite app_nil_l, app_nil_r in Hc'.
Qed.

(** ** Frames ahead of a response *)

Definition frame_bytes (f : byte * list byte) : list byte := [dollar; f.1] ++ enc_be16 (zlen f.2) ++ f.2.

(** What hearing frames makes of the media state, at some times. *)
Inductive heard : list (byte * list byte) -> Media -> Media -> Prop :=
  | heard_nil m : heard [] m m
  | heard_frame ch p fs now m m' : heard fs (media_frame ch now p m) m' -> heard ((ch, p) :: fs) m m'.

Lemma frame_header ch p rest :
  zlen p < 2 ^ 16 ->
  frame_bytes (ch, p) ++ rest = [dollar] ++ (ch :: enc_be16 (zlen p)) ++ p ++ rest /\
  be16 (ch :: enc_be16 (zlen p)) 1 = zlen p.
Proof.
  intros Hp. split; [unfold frame_bytes; cbn [fst snd app]; by rewrite <- !app_assoc|].
  pose proof (zlen_nonneg p). change (ch :: enc_be16 (zlen p)) with ([ch] ++ enc_be16 (zlen p) ++ []).
  apply be16_at; [done | lia].
Qed.

(** The two reads behind the dollar sign. *)
Lemma frame_reads limit ms ch p rest fin wr s :
  0 < limit <= 1000 * ms -> zlen p < 2 ^ 16 -> live limit (frame_bytes (ch, p) ++ rest) fin wr s ->
  exists c1 c2 c3,
    read_full 1 ms s = (Done [dollar], set_conn c1 s) /\
    read_full 3 ms (set_conn c1 s) = (Done (ch :: enc_be16 (zlen p)), set_conn c2 s) /\
    read_full (length p) ms (set_conn c2 s) = (Done p, set_conn c3 s) /\
    live limit rest fin wr (set_conn c3 s).
Proof.
  intros Hl Hp Hs. destruct (frame_header ch p rest Hp) as [E _]. rewrite E in Hs.
  destruct (read_full_at limit ms 1 [dollar] _ fin wr s Hl eq_refl Hs) as (c1 & E1 & H1).
  destruct (read_full_at limit ms 3 (ch :: enc_be16 (zlen p)) _ fin wr _ Hl eq_refl H1) as (c2 & E2 & H2).
  destruct (read_full_at limit ms (length p) p _ fin wr _ Hl eq_refl H2) as (c3 & E3 & H3).
  by exists c1, c2, c3.
Qed.

Lemma set_media_conn c m s : set_media m (set_conn c s) = set_conn c (set_media m s).
Proof. done. Qed.

Lemma render_first r : exists rest, render r = zb 82 :: rest.
Proof. by eexists. Qed.

Lemma await_loop_at limit ms fs r tl fin wr : 0 < limit <= 1000 * ms -> Forall (fun f => zlen f.2 < 2 ^ 16) fs -> reply_ok r ->
  forall fuel s, (length fs < fuel)%nat -> live limit (concat (frame_bytes <$> fs) ++ render r ++ tl) fin wr s ->
  exists c' m', await_loop fuel ms s = (Done (response_of r), set_conn c' (set_media m' s)) /\
    heard fs (media s) m' /\ live limit tl fin wr (set_conn c' (set_media m' s)).
Proof.
  intros Hl Hfs Hr. induction Hfs as [|[ch p] fs Hp Hfs IH]; intros fuel s Hf Hs; (destruct fuel as [|fuel]; [lia|]).
  - cbn [fmap list_fmap concat app] in Hs. destruct (render_first r) as (rest & Er).
    rewrite Er in Hs. cbn [app] in Hs. cbn [await_loop].
    destruct (read_full_at limit ms 1 [zb 82] (rest ++ tl) fin wr s Hl eq_refl Hs) as (c1 & E1 & H1).
    rewrite (bind_done _ _ _ _ _ E1). cbn [lookup_total list_lookup_total].
    assert (beq (zb 82) dollar = false) as -> by done.
    destruct (on_conn_reads limit (read_response ms (Some (zb 82))) rest (response_of r) tl fin wr (set_conn c1 s))
      as (c2 & E2 & H2); [by apply reads_response | done |].
    exists c2, (media s). rewrite E2. split_and!; [by destruct s | constructor | by destruct s].
  - cbn [fmap list_fmap concat length snd] in *. rewrite <- app_assoc in Hs.
    destruct (frame_reads limit ms ch p _ fin wr s Hl Hp Hs) as (c1 & c2 & c3 & E1 & E2 & E3 & H3).
    destruct (frame_header ch p [] Hp) as [_ Eb]. cbn [await_loop].
    rewrite (bind_done _ _ _ _ _ E1). cbn [lookup_total list_lookup_total]. rewrite beq_refl.
    rewrite (bind_done _ _ _ _ _ E2), Eb. destruct (Z.ltb_spec kMaxRtpPacket (zlen p)) as [H|_]; [unfold kMaxRtpPacket in H; lia|].
    rewrite to_nat_zlen, (bind_done _ _ _ _ _ E3). cbn [lookup_total list_lookup_total].
    set (m1 := media_frame ch (clock c3) p (media s)).
    destruct (IH fuel (set_conn c3 (set_media m1 s))) as (c4 & m' & E4 & Hm & H4); [lia | destruct H3; by split |].
    exists c4, m'. split_and!; [exact E4 | apply (heard_frame ch p fs (clock c3)); exact Hm | destruct H4; by split].
Qed.

Lemma length_concat_le {A B} (f : A -> list B) l :
  (forall x, (1 <= length (f x))%nat) -> (length l <= length (concat (f <$> l)))%nat.
Proof.
  intros Hf. induction l as [|x l IH]; [done|]. cbn [fmap list_fmap concat length]. rewrite length_app.
  specialize (Hf x). lia.
Qed.

Lemma interleaved_nonempty f : (1 <= length (frame_bytes f))%nat.
Proof. unfold frame_bytes. rewrite length_app. cbn [length]. lia. Qed.

Lemma await_response_at limit fs r tl fin wr s :
  0 < limit <= 1000 * ctrl_timeout_ms (ctl s) -> Forall (fun f => zlen f.2 < 2 ^ 16) fs -> reply_ok r ->
  live limit (concat (frame_bytes <$> fs) ++ render r ++ tl) fin wr s ->
  exists c' m', await_response s = (Done (response_of r), set_conn c' (set_media m' s)) /\
    heard fs (media s) m' /\ live limit tl fin wr (set_conn c' (set_media m' s)).
Proof.
  intros Hl Hfs Hr Hs. unfold await_response, gets, mbind, call_bind. apply await_loop_at; try done.
  unfold stream_fuel. rewrite (at_stream _ _ _ _ _ (live_conn _ _ _ _ _ Hs)), !length_app.
  pose proof (length_concat_le frame_bytes fs ltac:(intros; unfold frame_bytes; cbn; lia)). lia.
Qed.

(** ** One request, one answer *)

(** The state after the request is sent with authorization [a'], and [m'] is
    heard. *)
Definition after_request (a' : Auth) (m' : Media) (s : Impl) : Impl :=
  set_media m' (set_auth a' (set_reqs (next_cseq (reqs s)) s)).

Definition fits (method url : cstr) (s : Impl) : Prop :=
  zlen (request_head method url (cseq (reqs s)) (session_id (reqs s))) < kRequestBuffer.

Lemma exchange_at limit method url extra fs r tl fin wr s :
  0 < limit <= 1000 * ctrl_timeout_ms (ctl s) -> Forall (fun f => zlen f.2 < 2 ^ 16) fs -> reply_ok r ->
  fits method url s ->
  live limit (concat (frame_bytes <$> fs) ++ render r ++ tl) fin wr s ->
  exists c' m', let s' := set_conn c' (after_request (authorization (auth s) method url).2 m' s) in
    (send_request method url extra [] ;; await_response) s = (Done (response_of r), s') /\
    heard fs (media s) m' /\ live limit tl fin (wr ++ request_text (auth s) (reqs s) method url extra) s'.
Proof.
  intros Hl Hfs Hr Hfit Hs.
  destruct (send_request_at limit method url extra _ fin wr s Hs Hfit) as (c1 & E1 & H1). cbv zeta in E1, H1.
  destruct (await_response_at limit fs r tl fin _ (set_conn c1 (set_auth (authorization (auth s) method url).2
    (set_reqs (next_cseq (reqs s)) s))) Hl Hfs Hr H1) as (c2 & m' & E2 & Hm & H2).
  exists c2, m'. cbv zeta. rewrite (bind_done _ _ _ _ _ E1), E2. split_and!; [done | done |].
  destruct H2 as [H2a H2b]. by split.
Qed.

Lemma request_answered limit method url extra fs r tl fin wr s :
  0 < limit <= 1000 * ctrl_timeout_ms (ctl s) -> Forall (fun f => zlen f.2 < 2 ^ 16) fs -> reply_ok r -> r_status r <> 401 ->
  fits method url s ->
  live limit (concat (frame_bytes <$> fs) ++ render r ++ tl) fin wr s ->
  exists c' m', let s' := set_conn c' (after_request (authorization (auth s) method url).2 m' s) in
    request_with_auth method url extra [] s = (Done (response_of r), s') /\
    heard fs (media s) m' /\ live limit tl fin (wr ++ request_text (auth s) (reqs s) method url extra) s'.
Proof.
  intros Hl Hfs Hr H401 Hfit Hs.
  destruct (exchange_at limit method url extra fs r tl fin wr s Hl Hfs Hr Hfit Hs) as (c1 & m' & E1 & Hm & H1).
  exists c1, m'. cbv zeta in *. split_and!; [|done|done]. unfold request_with_auth.
  unfold mbind, call_bind in E1 |- *. destruct (send_request method url extra [] s) as [[[]| |] s1]; [|done|done].
  rewrite E1. cbn [response_of status]. destruct (Z.eqb_spec (r_status r) 401); done.
Qed.
End client.
