(* ===== verification/RtspSession.v ===== *)
(** Sessions of the RTSP client ([src/stubs/rtsp_client.cpp]): the handshake
    against a server that asks for digest authorization, and the reader
    against a stream of interleaved messages. The operations are those of
    [RtspClient]. *)

From S2P Require Import Prelude Text Double H264 Rtp Tls Rtsp RtspClient.

#[local] Delimit Scope string_scope with string.

Section session.
Context (md5 : list byte -> list byte).

(** ** A client between two requests *)

Record client_at (limit : Z) (tl : list byte) (fin : option Chunk) (wr : list byte)
    (a : Auth) (r : Requests) (m : Media) (k : Control) (s : Impl) : Prop := {
  ca_live : live limit tl fin wr s;
  ca_auth : auth s = a;
  ca_reqs : reqs s = r;
  ca_media : media s = m;
  ca_ctl : ctl s = k
}.

(** What the server may have sent ahead of the answer. *)
Definition small_frames (fs : list (byte * list byte)) : Prop := Forall (fun f => zlen f.2 < 2 ^ 16) fs.

Definition head_fits (method url : cstr) (r : Requests) : Prop :=
  zlen (request_head method url (cseq r) (session_id r)) < kRequestBuffer.

Abbreviation auth_after a method url := (authorization md5 a method url).2.

(** A request with an answer that is not a challenge. *)
Lemma answered_at limit method url extra fs r tl fin wr a q m k s :
  0 < limit <= 1000 * ctrl_timeout_ms k -> small_frames fs -> reply_ok r -> r_status r <> 401 -> head_fits method url q ->
  client_at limit (concat (frame_bytes <$> fs) ++ render r ++ tl) fin wr a q m k s ->
  exists m' s', request_with_auth md5 method url extra [] s = (Done (response_of r), s') /\ heard fs m m' /\
    client_at limit tl fin (wr ++ request_text md5 a q method url extra) (auth_after a method url) (next_cseq q) m' k s'.
Proof.
  intros Hl Hfs Hr H401 Hfit [Hs <- <- <- <-].
  destruct (request_answered md5 limit method url extra fs r tl fin wr s Hl Hfs Hr H401 Hfit Hs) as (c & m' & E & Hm & H').
  exists m'. eexists. by split_and!; [exact E | exact Hm | split].
Qed.

(** A request that is challenged, and sent again. *)
Lemma challenged_at limit method url extra challenge r tl fin wr a a1 q m k s :
  0 < limit <= 1000 * ctrl_timeout_ms k -> reply_ok challenge -> reply_ok r ->
  r_status challenge = 401 -> r_status r <> 401 ->
  adopt (response_of challenge) (auth_after a method url) = (true, a1) ->
  head_fits method url q -> head_fits method url (next_cseq q) ->
  client_at limit (render challenge ++ render r ++ tl) fin wr a q m k s ->
  exists s', request_with_auth md5 method url extra [] s = (Done (response_of r), s') /\
    client_at limit tl fin (wr ++ request_text md5 a q method url extra ++ request_text md5 a1 (next_cseq q) method url extra)
      (auth_after a1 method url) (next_cseq (next_cseq q)) m k s'.
Proof.
  intros Hl Hc Hr H401 H200 Ha Hf1 Hf2 [Hs <- <- <- <-].
  destruct (send_request_at md5 limit method url extra _ fin wr s Hs Hf1) as (c1 & E1 & H1). cbv zeta in E1, H1.
  match type of E1 with _ = (_, ?x) => set (s1 := x) in * end.
  destruct (await_response_at limit [] challenge (render r ++ tl) fin _ s1 Hl ltac:(constructor) Hc H1)
    as (c2 & m2 & E2 & Hm2 & H2).
  inversion Hm2; subst m2.
  set (s2 := set_auth a1 (set_conn c2 (set_media (media s1) s1))).
  assert (Hl2 : live limit (render r ++ tl) fin (wr ++ request_text md5 (auth s) (reqs s) method url extra) s2)
    by (destruct H2; by split).
  destruct (send_request_at md5 limit method url extra _ fin _ s2 Hl2 Hf2) as (c3 & E3 & H3). cbv zeta in E3, H3.
  match type of E3 with _ = (_, ?x) => set (s3 := x) in * end.
  destruct (await_response_at limit [] r tl fin _ s3 Hl ltac:(constructor) Hr H3) as (c4 & m4 & E4 & Hm4 & H4).
  inversion Hm4; subst m4.
  eexists. split.
  - unfold request_with_auth. rewrite (bind_done _ _ _ _ _ E1), (bind_done _ _ _ _ _ E2).
    cbn [response_of status]. rewrite H401. cbn [Z.eqb Pos.eqb negb].
    assert (E : adopt_challenge (response_of challenge) (set_conn c2 (set_media (media s1) s1)) = (Done true, s2)).
    { unfold adopt_challenge. change (auth (set_conn c2 (set_media (media s1) s1))) with (auth_after (auth s) method url).
      by rewrite Ha. }
    rewrite (bind_done _ _ _ _ _ E). cbn [negb].
    rewrite (bind_done _ _ _ _ _ E3), (bind_done _ _ _ _ _ E4). cbn [response_of status].
    destruct (Z.eqb_spec (r_status r) 401); [done|]. reflexivity.
  - split; [|done..]. rewrite app_assoc. exact H4.
Qed.

(** ** Digest authorization (RFC 2617, without [qop] RFC 2069) *)

Definition challenge_params (realm nonce : cstr) (qop : bool) : list (cstr * cstr) :=
  [(str "realm", realm); (str "nonce", nonce)] ++ if qop then [(str "qop", str "auth")] else [].

Definition value_ok (v : cstr) : Prop := v <> [] /\ Forall (fun c => value_char c = true) v /\ trim v = v.

Definition challenges (realm nonce : cstr) (qop : bool) (r : Reply) : Prop :=
  reply_ok r /\ r_status r = 401 /\ value_ok realm /\ value_ok nonce /\
  header (response_of r) (str "www-authenticate") = str "Digest " ++ params_text (challenge_params realm nonce qop).

(** The header of an authorized request, with the nonce count and the client
    nonce that [qop] asks for. *)
Definition credentials (u p realm nonce : cstr) (count : option (Z * cstr)) (method uri : cstr) : cstr :=
  let a1 := md5_hex md5 (u ++ str ":" ++ realm ++ str ":" ++ p) in
  let a2 := md5_hex md5 (method ++ str ":" ++ uri) in
  let response :=
    match count with
    | None => md5_hex md5 (a1 ++ str ":" ++ nonce ++ str ":" ++ a2)
    | Some (n, cnonce) =>
        md5_hex md5 (a1 ++ str ":" ++ nonce ++ str ":" ++ hex8 n ++ str ":" ++ cnonce ++ str ":auth:" ++ a2)
    end in
  str "Authorization: Digest username=" ++ quoted u ++ str ", realm=" ++ quoted realm ++ str ", nonce=" ++ quoted nonce
  ++ str ", uri=" ++ quoted uri ++ str ", response=" ++ quoted response
  ++ match count with
     | None => []
     | Some (n, cnonce) => str ", qop=auth, nc=" ++ hex8 n ++ str ", cnonce=" ++ quoted cnonce
     end.

(** The client's side after the challenge and [k] authorized requests. *)
Definition logged_in (u p realm nonce : cstr) (qop : bool) (nonces : list cstr) (k : nat) : Auth :=
  {| user := u; passwd := p; auth_scheme := Digest; digest_realm := realm; digest_nonce := nonce;
     digest_qop := if qop then str "auth" else []; digest_opaque := []; digest_algorithm := [];
     digest_nc := if qop then Z.of_nat k else 0; cnonces := if qop then drop k nonces else nonces |}.

Definition count_at (qop : bool) (nonces : list cstr) (k : nat) : option (Z * cstr) :=
  if qop then Some (Z.of_nat (S k), default [] (nonces !! k)) else None.

Lemma challenge_read realm nonce qop :
  value_ok realm -> value_ok nonce ->
  parse_auth_params (params_text (challenge_params realm nonce qop)) = challenge_params realm nonce qop.
Proof.
  intros (_ & Hr & Hrt) (_ & Hn & Hnt). unfold parse_auth_params. rewrite auth_params_read.
  - by destruct qop.
  - unfold challenge_params. constructor; [|constructor; [|destruct qop; repeat constructor]].
    + split_and!; [done | by repeat constructor | done | done].
    + split_and!; [done | by repeat constructor | done | done].
    + done.
  - unfold challenge_params. destruct qop; cbn [app params_text length]; unfold param_text; cbn [fst snd];
      rewrite !length_app; cbn; lia.
Qed.

Lemma adopt_digest realm nonce qop r a :
  challenges realm nonce qop r ->
  adopt (response_of r) a = (true, logged_in (user a) (passwd a) realm nonce qop (cnonces a) 0).
Proof.
  intros (_ & _ & Hr & Hn & Hh). unfold adopt. rewrite Hh. clear Hh.
  set (ps := params_text (challenge_params realm nonce qop)).
  change (str "Digest " ++ ps) with (zb 68 :: str "igest " ++ ps).
  assert (lc (take 7 (zb 68 :: str "igest " ++ ps)) = str "digest ") as -> by done.
  rewrite bool_decide_true by done. change (drop 7 (zb 68 :: str "igest " ++ ps)) with ps.
  subst ps. rewrite challenge_read by done.
  assert (last_param (str "realm") (challenge_params realm nonce qop) = realm) as -> by by destruct qop.
  assert (last_param (str "nonce") (challenge_params realm nonce qop) = nonce) as -> by by destruct qop.
  assert (last_param (str "opaque") (challenge_params realm nonce qop) = []) as -> by by destruct qop.
  assert (last_param (str "algorithm") (challenge_params realm nonce qop) = []) as -> by by destruct qop.
  assert (last_param (str "qop") (challenge_params realm nonce qop) = if qop then str "auth" else []) as -> by by destruct qop.
  cbn [digest_realm digest_nonce]. destruct Hr as [Hr _], Hn as [Hn _].
  rewrite !bool_decide_false by done. cbn [orb]. f_equal. unfold logged_in. by destruct qop.
Qed.

Lemma nonces_left (l : list cstr) k :
  match drop k l with c :: _ => c | [] => [] end = default [] (l !! k) /\ tail (drop k l) = drop (S k) l.
Proof. revert k. induction l as [|x l IH]; intros [|k]; [done..|]. apply IH. Qed.

Lemma authorization_logged_in u p realm nonce qop nonces k method uri :
  (k < 100)%nat ->
  authorization md5 (logged_in u p realm nonce qop nonces k) method uri =
  (crlf (credentials u p realm nonce (count_at qop nonces k) method uri), logged_in u p realm nonce qop nonces (S k)).
Proof.
  intros Hk. unfold authorization, digest_response, logged_in, count_at, credentials, crlf, ha1, ha2. destruct qop.
  - change (str "auth") with (zb 97 :: str "uth"). cbn [auth_scheme digest_qop].
    unfold next_nonce. cbn [digest_nc cnonces user passwd auth_scheme digest_realm digest_nonce digest_qop digest_opaque digest_algorithm].
    assert (Hu : u32 (Z.of_nat k + 1) = Z.of_nat (S k)) by (rewrite u32_small by lia; lia). rewrite Hu.
    destruct (nonces_left nonces k) as [-> Ht]. rewrite Ht. rewrite <- !app_assoc. done.
  - cbn [auth_scheme digest_qop user passwd digest_realm digest_nonce digest_opaque digest_algorithm]. f_equal.
    rewrite <- !app_assoc. done.
Qed.

(** ** The session on the wire *)

Definition message (method url : cstr) (q : Z) (fields : list cstr) : list byte :=
  crlf (method ++ str " " ++ url ++ str " RTSP/1.0") ++ crlf (str "CSeq: " ++ dec q)
  ++ crlf (str "User-Agent: open-bamboo-networking/0.1") ++ concat (crlf <$> fields) ++ crlf [].

Definition session_field (id : cstr) : list cstr := match id with [] => [] | _ => [str "Session: " ++ id] end.

Definition no_nul (s : cstr) : Prop := Forall (fun c => beq c x00 = false) s.

Lemma c_str_id s : no_nul s -> c_str s = s.
Proof.
  intros H. unfold c_str. rewrite <- (app_nil_r s) at 1. rewrite span_all; [done | | done].
  eapply Forall_impl; [exact H|]. by intros c ->.
Qed.

Lemma request_message a q method url creds field :
  no_nul url -> no_nul (session_id q) -> (authorization md5 a method url).1 = concat (crlf <$> creds) ->
  request_text md5 a q method url (concat (crlf <$> field)) =
  message method url (cseq q) (session_field (session_id q) ++ creds ++ field).
Proof.
  intros Hu Hi Ha. unfold request_text, request_head, message. rewrite Ha, !c_str_id by done.
  rewrite !fmap_app, !concat_app. unfold crlf, eol, session_field.
  destruct (session_id q); cbn [fmap list_fmap concat app]; repeat (rewrite <- ?app_assoc; cbn [app]); done.
Qed.

Lemma message_head_fits method url q :
  no_nul url -> no_nul (session_id q) -> zlen method < 100 -> zlen url < 3000 -> zlen (session_id q) < 800 ->
  zlen (dec (cseq q)) < 20 -> head_fits method url q.
Proof.
  intros Hu Hi H1 H2 H3 H4. unfold head_fits, request_head, kRequestBuffer. rewrite !c_str_id by done.
  unfold zlen in *. destruct (session_id q) as [|b id]; rewrite !length_app; cbn [length eol] in *;
    rewrite ?length_app; cbn [length eol] in *; repeat match goal with |- context [length (str ?x)] =>
      let n := eval vm_compute in (length (str x)) in change (length (str x)) with n end; lia.
Qed.

(** ** The handshake *)

(** What a server sends: an answer to each request, DESCRIBE being challenged
    first, and the media that begins ahead of the answer to PLAY. *)
Record Server := {
  options : Reply; challenge : Reply; described : Reply; setup : Reply; play : Reply;
  early : list (byte * list byte)
}.

Definition serves (srv : Server) : list byte :=
  render (options srv) ++ render (challenge srv) ++ render (described srv) ++ render (setup srv)
  ++ concat (frame_bytes <$> early srv) ++ render (play srv).

Definition accepts (r : Reply) : Prop := reply_ok r /\ r_status r = 200.

(** The session id: the header may go on with parameters. *)
Definition session_named (sid v : cstr) : Prop := v = sid \/ exists ps, v = sid ++ zb 59 :: ps.

Definition id_ok (sid : cstr) : Prop :=
  sid <> [] /\ no_nul sid /\ Forall (fun c => beq c (zb 59) = false) sid /\ trim sid = sid /\ zlen sid < 800.

Definition url_ok (url : cstr) : Prop := no_nul url /\ zlen url < 3000.

Record server_ok (realm nonce : cstr) (qop : bool) (d : Camera) (sid : cstr) (srv : Server) : Prop := {
  so_options : accepts (options srv);
  so_challenge : challenges realm nonce qop (challenge srv);
  so_described : accepts (described srv);
  so_camera : camera_ok d;
  so_sdp : r_body (described srv) = describe d;
  so_setup : accepts (setup srv);
  so_session : session_named sid (header (response_of (setup srv)) (str "session"));
  so_id : id_ok sid;
  so_play : accepts (play srv);
  so_early : small_frames (early srv)
}.

Lemma session_stored sid v q : id_ok sid -> session_named sid v -> v <> [] /\ session_id (set_session v q) = sid.
Proof.
  intros (Hne & _ & Hs & Ht & _) Hv. destruct Hv as [->|[ps ->]]; unfold set_session; cbn [session_id].
  - by rewrite find_char_none.
  - rewrite find_char_app, take_app_length by done. split; [by destruct sid | done].
Qed.

Lemma accepted r : accepts r -> expect_ok (response_of r) = mret tt.
Proof. intros [_ H]. unfold expect_ok. cbn [response_of status]. by rewrite H. Qed.

Lemma client_set_reqs limit tl fin wr a q q' m k s :
  client_at limit tl fin wr a q m k s -> client_at limit tl fin wr a q' m k (set_reqs q' s).
Proof. intros [[Hc Ho] <- <- <- <-]. split; [by split | done..]. Qed.

Lemma client_set_media limit tl fin wr a q m m' k s :
  client_at limit tl fin wr a q m k s -> client_at limit tl fin wr a q m' k (set_media m' s).
Proof. intros [[Hc Ho] <- <- <- <-]. split; [by split | done..]. Qed.

(** The parts of the request state: number, id and URLs. *)
Definition reqs_at (n : Z) (v sid base su : cstr) : Requests :=
  {| cseq := n; session := v; session_id := sid; url_full := base; url_setup := su |}.

(** A request that fits, with its answer. *)
Definition sends (method url : cstr) (q : Requests) : Prop :=
  url_ok url /\ url_ok (session_id q) /\ zlen (session_id q) < 800 /\ zlen method < 100 /\ zlen (dec (cseq q)) < 20.

Lemma sends_fits method url q : sends method url q -> head_fits method url q.
Proof. intros ([Hu Hz] & [Hi _] & Hs & Hm & Hd). by apply message_head_fits. Qed.

Lemma sends_plain method url n v sid base su :
  url_ok url -> sid = [] \/ id_ok sid -> 0 <= n < 10 -> zlen method < 100 -> sends method url (reqs_at n v sid base su).
Proof.
  intros Hu Hi Hn Hm. split; [done|]. cbn [session_id cseq reqs_at].
  pose proof (below_forall (fun n => zlen (dec n) <? 20) 10 eq_refl n Hn) as Hd%Z.ltb_lt.
  assert (no_nul sid /\ zlen sid < 800) as [H1 H2] by (destruct Hi as [->|(_ & ? & _ & _ & ?)]; [split; [constructor | done] | done]).
  unfold url_ok. split_and!; lia || done.
Qed.

Lemma asked_at limit method url creds field fs r tl fin wr a a' q m k s :
  0 < limit <= 1000 * ctrl_timeout_ms k -> small_frames fs -> accepts r -> sends method url q ->
  authorization md5 a method url = (concat (crlf <$> creds), a') ->
  client_at limit (concat (frame_bytes <$> fs) ++ render r ++ tl) fin wr a q m k s ->
  exists m' s', request_with_auth md5 method url (concat (crlf <$> field)) [] s = (Done (response_of r), s') /\
    heard fs m m' /\
    client_at limit tl fin (wr ++ message method url (cseq q) (session_field (session_id q) ++ creds ++ field))
      a' (next_cseq q) m' k s'.
Proof.
  intros Hl Hfs [Hr H200] Hsend Ha Hs.
  destruct (answered_at limit method url (concat (crlf <$> field)) fs r tl fin wr a q m k s Hl Hfs Hr
    ltac:(by rewrite H200) (sends_fits _ _ _ Hsend) Hs) as (m' & s' & E & Hm & H').
  destruct Hsend as ([Hu _] & [Hi _] & _). rewrite Ha in H'. cbn [snd] in H'.
  rewrite (request_message a q method url creds field Hu Hi) in H' by by rewrite Ha. by exists m', s'.
Qed.

Lemma options_at limit srv_options tl fin wr a base su m k s :
  0 < limit <= 1000 * ctrl_timeout_ms k -> accepts srv_options -> url_ok base -> auth_scheme a = NoAuth ->
  client_at limit (render srv_options ++ tl) fin wr a (reqs_at 1 [] [] base su) m k s ->
  exists s', do_options md5 s = (Done tt, s') /\
    client_at limit tl fin (wr ++ message (str "OPTIONS") base 1 []) a (reqs_at 2 [] [] base su) m k s'.
Proof.
  intros Hl Hr Hu Ha Hs.
  destruct (asked_at limit (str "OPTIONS") base [] [] [] srv_options tl fin wr a a (reqs_at 1 [] [] base su) m k s Hl
    ltac:(constructor) Hr) as (m' & s' & E & Hm & H'); [apply sends_plain; (done || by left) | by unfold authorization; rewrite Ha | exact Hs |].
  inversion Hm; subst m'. exists s'. split; [|exact H'].
  unfold do_options, full_url, gets, mbind, call_bind. rewrite (ca_reqs _ _ _ _ _ _ _ _ _ Hs). cbn [url_full reqs_at].
  change (concat (crlf <$> [])) with (@nil byte) in E. rewrite E. by rewrite accepted.
Qed.

Lemma describe_at limit realm nonce qop challenge described tl fin wr a base su m k s :
  0 < limit <= 1000 * ctrl_timeout_ms k -> challenges realm nonce qop challenge -> accepts described ->
  url_ok base -> auth_scheme a = NoAuth ->
  client_at limit (render challenge ++ render described ++ tl) fin wr a (reqs_at 2 [] [] base su) m k s ->
  exists s', do_describe md5 s = (Done (r_body described), s') /\
    client_at limit tl fin
      (wr ++ message (str "DESCRIBE") base 2 [str "Accept: application/sdp"]
          ++ message (str "DESCRIBE") base 3
               [credentials (user a) (passwd a) realm nonce (count_at qop (cnonces a) 0) (str "DESCRIBE") base;
                str "Accept: application/sdp"])
      (logged_in (user a) (passwd a) realm nonce qop (cnonces a) 1) (reqs_at 4 [] [] base su) m k s'.
Proof.
  intros Hl Hc Hr Hu Ha Hs. pose proof Hc as (Hcr & H401 & _). pose proof Hr as [Hrr H200].
  set (q2 := reqs_at 2 [] [] base su) in *. set (q3 := reqs_at 3 [] [] base su).
  assert (Ea : authorization md5 a (str "DESCRIBE") base = ([], a)) by (unfold authorization; by rewrite Ha).
  assert (Hf : forall q, q = q2 \/ q = q3 -> head_fits (str "DESCRIBE") base q).
  { intros q Hq. apply sends_fits. destruct Hq as [->| ->]; apply sends_plain; done || by left. }
  pose proof (authorization_logged_in (user a) (passwd a) realm nonce qop (cnonces a) 0 (str "DESCRIBE") base ltac:(lia)) as E3.
  destruct (challenged_at limit (str "DESCRIBE") base (concat (crlf <$> [str "Accept: application/sdp"])) challenge described
    tl fin wr a (logged_in (user a) (passwd a) realm nonce qop (cnonces a) 0) q2 m k s Hl Hcr Hrr H401
    ltac:(by rewrite H200)) as (s' & E & H'); [rewrite Ea; by apply adopt_digest | by apply Hf; left | by apply Hf; right | done |].
  exists s'. split.
  - unfold do_describe, full_url, gets, mbind, call_bind. rewrite (ca_reqs _ _ _ _ _ _ _ _ _ Hs). cbn [url_full q2 reqs_at].
    change (concat (crlf <$> [str "Accept: application/sdp"])) with (str "Accept: application/sdp" ++ eol) in E.
    rewrite E, accepted by done. done.
  - change (next_cseq q2) with q3 in H'. rewrite E3 in H'. cbn [snd] in H'.
    destruct Hu as [Hn Hz].
    rewrite (request_message a q2 _ _ [] [_] Hn ltac:(constructor)) in H' by by rewrite Ea.
    rewrite (request_message _ q3 _ _ [_] [_] Hn ltac:(constructor)) in H' by (rewrite E3; symmetry; apply app_nil_r).
    exact H'.
Qed.

Lemma setup_at limit u p realm nonce qop nonces sid setup tl fin wr base su m k s :
  0 < limit <= 1000 * ctrl_timeout_ms k -> accepts setup -> url_ok su -> id_ok sid ->
  session_named sid (header (response_of setup) (str "session")) ->
  client_at limit (render setup ++ tl) fin wr (logged_in u p realm nonce qop nonces 1) (reqs_at 4 [] [] base su) m k s ->
  exists s', do_setup md5 s = (Done tt, s') /\
    client_at limit tl fin
      (wr ++ message (str "SETUP") su 4
               [credentials u p realm nonce (count_at qop nonces 1) (str "SETUP") su;
                str "Transport: RTP/AVP/TCP;unicast;interleaved=0-1"])
      (logged_in u p realm nonce qop nonces 2)
      (reqs_at 5 (header (response_of setup) (str "session")) sid base su) m k s'.
Proof.
  intros Hl Hr Hu Hi Hv Hs. set (v := header (response_of setup) (str "session")) in *.
  destruct (asked_at limit (str "SETUP") su [credentials u p realm nonce (count_at qop nonces 1) (str "SETUP") su]
    [str "Transport: RTP/AVP/TCP;unicast;interleaved=0-1"] [] setup tl fin wr (logged_in u p realm nonce qop nonces 1) (logged_in u p realm nonce qop nonces 2)
    (reqs_at 4 [] [] base su) m k s Hl ltac:(constructor) Hr) as (m' & s1 & E & Hm & H1);
    [apply sends_plain; (done || by left) |
     rewrite authorization_logged_in by lia; cbn [fmap list_fmap concat]; by rewrite app_nil_r | exact Hs |].
  inversion Hm; subst m'. destruct (session_stored sid v (store_session v (reqs s1)) Hi Hv) as [Hne Hid].
  exists (set_reqs (set_session v (store_session v (reqs s1))) (set_reqs (store_session v (reqs s1)) s1)). split.
  - unfold do_setup. unfold gets at 1, mbind at 1, call_bind at 1. rewrite (ca_reqs _ _ _ _ _ _ _ _ _ Hs).
    cbn [url_setup reqs_at].
    change (concat (crlf <$> [str "Transport: RTP/AVP/TCP;unicast;interleaved=0-1"]))
      with (str "Transport: RTP/AVP/TCP;unicast;interleaved=0-1" ++ eol) in E.
    rewrite (bind_done _ _ _ _ _ E), accepted by done. fold v. destruct v as [|c v']; [done|]. reflexivity.
  - assert (Eq : set_session v (store_session v (reqs s1)) = reqs_at 5 v sid base su).
    { unfold reqs_at. rewrite <- Hid. by rewrite (ca_reqs _ _ _ _ _ _ _ _ _ H1). }
    rewrite Eq. do 2 eapply client_set_reqs. exact H1.
Qed.

Lemma play_at limit u p realm nonce qop nonces v sid play fs tl fin wr base su m k s :
  0 < limit <= 1000 * ctrl_timeout_ms k -> accepts play -> small_frames fs -> url_ok base -> id_ok sid ->
  client_at limit (concat (frame_bytes <$> fs) ++ render play ++ tl) fin wr
    (logged_in u p realm nonce qop nonces 2) (reqs_at 5 v sid base su) m k s ->
  exists m' s', do_play md5 s = (Done tt, s') /\ heard fs m m' /\
    client_at limit tl fin
      (wr ++ message (str "PLAY") base 5
               [str "Session: " ++ sid; credentials u p realm nonce (count_at qop nonces 2) (str "PLAY") base;
                str "Range: npt=0.000-"])
      (logged_in u p realm nonce qop nonces 3) (reqs_at 6 v sid base su) m' k s'.
Proof.
  intros Hl Hr Hfs Hu Hi Hs.
  destruct (asked_at limit (str "PLAY") base [credentials u p realm nonce (count_at qop nonces 2) (str "PLAY") base]
    [str "Range: npt=0.000-"] fs play tl fin wr (logged_in u p realm nonce qop nonces 2) (logged_in u p realm nonce qop nonces 3)
    (reqs_at 5 v sid base su) m k s Hl Hfs Hr) as (m' & s' & E & Hm & H1);
    [apply sends_plain; (done || by right) |
     rewrite authorization_logged_in by lia; cbn [fmap list_fmap concat]; by rewrite app_nil_r | exact Hs |].
  exists m', s'. split_and!; [|done|].
  - unfold do_play, full_url, gets, mbind, call_bind. rewrite (ca_reqs _ _ _ _ _ _ _ _ _ Hs). cbn [url_full reqs_at].
    change (concat (crlf <$> [str "Range: npt=0.000-"])) with (str "Range: npt=0.000-" ++ eol) in E.
    rewrite E. by rewrite accepted.
  - cbn [session_id cseq reqs_at] in H1. destruct Hi as [Hi _]. by destruct sid.
Qed.

(** All the requests of a session, as the server reads them. *)
Definition session_requests (u p realm nonce : cstr) (qop : bool) (nonces : list cstr) (base su sid : cstr) : list byte :=
  let authorized k method url := credentials u p realm nonce (count_at qop nonces k) method url in
  message (str "OPTIONS") base 1 []
  ++ message (str "DESCRIBE") base 2 [str "Accept: application/sdp"]
  ++ message (str "DESCRIBE") base 3 [authorized 0%nat (str "DESCRIBE") base; str "Accept: application/sdp"]
  ++ message (str "SETUP") su 4 [authorized 1%nat (str "SETUP") su; str "Transport: RTP/AVP/TCP;unicast;interleaved=0-1"]
  ++ message (str "PLAY") base 5 [str "Session: " ++ sid; authorized 2%nat (str "PLAY") base; str "Range: npt=0.000-"].

Lemma handshake_at limit realm nonce qop d sid srv tl fin wr a base m k s :
  0 < limit <= 1000 * ctrl_timeout_ms k -> server_ok realm nonce qop d sid srv -> auth_scheme a = NoAuth ->
  url_ok base -> url_ok (resolve_control base (cam_control d)) ->
  client_at limit (serves srv ++ tl) fin wr a (reqs_at 1 [] [] base []) m k s ->
  exists m' now s', handshake md5 s = (Done tt, s') /\ heard (early srv) (set_track (camera_track d) m) m' /\
    client_at limit tl fin
      (wr ++ session_requests (user a) (passwd a) realm nonce qop (cnonces a) base (resolve_control base (cam_control d)) sid)
      (logged_in (user a) (passwd a) realm nonce qop (cnonces a) 3)
      (reqs_at 6 (header (response_of (setup srv)) (str "session")) sid base (resolve_control base (cam_control d)))
      (start_clocks now m') k s'.
Proof.
  intros Hl [] Ha Hb Hsu Hs. set (su := resolve_control base (cam_control d)) in *.
  unfold serves in Hs. rewrite <- !app_assoc in Hs.
  destruct (options_at limit _ _ fin wr a base [] m k s Hl so_options0 Hb Ha Hs) as (s1 & E1 & H1).
  destruct (describe_at limit realm nonce qop _ _ _ fin _ a base [] m k s1 Hl so_challenge0 so_described0 Hb Ha H1)
    as (s2 & E2 & H2).
  set (s3 := set_media (set_track (camera_track d) (media s2)) s2).
  set (s4 := set_reqs (set_setup_url (resolve_control (url_full (reqs s3)) (cam_control d)) (reqs s3)) s3).
  assert (H4 : client_at limit (render (setup srv) ++ concat (frame_bytes <$> early srv) ++ render (play srv) ++ tl) fin
    ((wr ++ message (str "OPTIONS") base 1 []) ++ message (str "DESCRIBE") base 2 [str "Accept: application/sdp"]
          ++ message (str "DESCRIBE") base 3
               [credentials (user a) (passwd a) realm nonce (count_at qop (cnonces a) 0) (str "DESCRIBE") base;
                str "Accept: application/sdp"])
    (logged_in (user a) (passwd a) realm nonce qop (cnonces a) 1) (reqs_at 4 [] [] base su)
    (set_track (camera_track d) m) k s4).
  { subst s4 s3. cbn [set_media reqs]. rewrite (ca_reqs _ _ _ _ _ _ _ _ _ H2), (ca_media _ _ _ _ _ _ _ _ _ H2).
    cbn [url_full reqs_at]. fold su. eapply client_set_reqs, client_set_media. exact H2. }
  destruct (setup_at limit _ _ _ _ _ _ sid _ _ fin _ base su _ k s4 Hl so_setup0 Hsu so_id0 so_session0 H4) as (s5 & E5 & H5).
  destruct (play_at limit _ _ _ _ _ _ _ sid _ _ tl fin _ base su _ k s5 Hl so_play0 so_early0 Hb so_id0 H5)
    as (m' & s6 & E6 & Hm & H6).
  exists m', (clock (conn s6)), (set_media (start_clocks (clock (conn s6)) (media s6)) s6). split_and!; [|done|].
  - unfold handshake. rewrite (bind_done _ _ _ _ _ E1), (bind_done _ _ _ _ _ E2), so_sdp0, sdp_understood by done.
    erewrite (bind_done (modify _)) by reflexivity. fold s3. erewrite (bind_done (modify _)) by reflexivity. fold s4.
    by rewrite (bind_done _ _ _ _ _ E5), (bind_done _ _ _ _ _ E6).
  - rewrite (ca_media _ _ _ _ _ _ _ _ _ H6). eapply client_set_media. unfold session_requests.
    rewrite <- !app_assoc in H6. exact H6.
Qed.

(** ** Frames and the media state *)

Definition rtp_payloads (fs : list (byte * list byte)) : list (list byte) :=
  snd <$> filter (fun f => bz f.1 = 0) fs.

Definition decode_all (pt : Z) (d : Demux) (ps : list (list byte)) : Demux :=
  foldl (fun d p => decode_rtp_h264 pt p d) d ps.

(** Control packets: on channel 1 whole compound packets, without a BYE. *)
Definition is_bye (p : RtcpPacket) : Prop := rc_type p = kRtcpBye.

Definition frame_quiet (f : byte * list byte) : Prop :=
  bz f.1 = 1 -> exists ps, Forall rtcp_ok ps /\ Forall (fun p => ~ is_bye p) ps /\ f.2 = concat (rtcp_bytes <$> ps).

Lemma rtcp_effect_bye now ps : forall s, (rtcp_effect now ps s).2 = existsb (fun p => rc_type p =? kRtcpBye) ps.
Proof.
  induction ps as [|p ps IH]; intros s; [done|]. cbn [rtcp_effect existsb].
  destruct (is_sr p) eqn:E.
  - rewrite IH. unfold is_sr in E. apply andb_prop in E as [E%Z.eqb_eq _]. by rewrite E.
  - destruct (rc_type p =? kRtcpBye); [done | apply IH].
Qed.

Lemma compound_bye now ps s :
  Forall rtcp_ok ps -> let pkt := concat (rtcp_bytes <$> ps) in
  (handle_rtcp (length pkt) now pkt s).2 = existsb (fun p => rc_type p =? kRtcpBye) ps.
Proof.
  intros Hps pkt. destruct (decide (ps = [])) as [->|Hne]; [done|].
  subst pkt. rewrite handle_rtcp_compound; [apply rtcp_effect_bye | done |].
  assert (H : forall p, (4 <= length (rtcp_bytes p))%nat) by (intros p; unfold rtcp_bytes; rewrite !length_app; cbn; lia).
  clear Hps. induction ps as [|p ps IH]; [done|]. cbn [fmap list_fmap concat length]. rewrite length_app. specialize (H p).
  destruct (decide (ps = [])) as [->|Hps]; [cbn; lia|]. specialize (IH Hps). lia.
Qed.

Lemma quiet_frame f now m : frame_quiet f -> peer_bye (media_frame f.1 now f.2 m) = peer_bye m.
Proof.
  intros Hq. unfold media_frame.
  destruct (Z.eqb_spec (bz f.1) 0).
  { unfold media_rtp. by destruct (handle_rtp (track m) (now - stream_t0 m) f.2 (stats m) (demux m)). }
  destruct (Z.eqb_spec (bz f.1) 1) as [H1|]; [|done]. destruct (Hq H1) as (ps & Hok & Hb & E). unfold media_rtcp.
  pose proof (compound_bye now ps (stats m) Hok) as Hc. cbv zeta in Hc. rewrite <- E in Hc.
  destruct (handle_rtcp (length f.2) now f.2 (stats m)) as [st bye]. cbn [snd peer_bye] in *. rewrite Hc.
  assert (existsb (fun p => rc_type p =? kRtcpBye) ps = false) as ->; [|apply orb_false_r].
  clear -Hb. induction Hb as [|p ps Hp Hb IH]; [done|]. cbn [existsb]. rewrite IH.
  destruct (Z.eqb_spec (rc_type p) kRtcpBye); [done|done].
Qed.

Lemma frame_track ch now p m : track (media_frame ch now p m) = track m.
Proof.
  unfold media_frame, media_rtp, media_rtcp. destruct (bz ch =? 0).
  - by destruct (handle_rtp (track m) (now - stream_t0 m) p (stats m) (demux m)).
  - destruct (bz ch =? 1); [|done]. by destruct (handle_rtcp (length p) now p (stats m)).
Qed.

Lemma frame_demux f now m :
  demux (media_frame f.1 now f.2 m) = decode_all (rtp_pt (track m)) (demux m) (rtp_payloads [f]).
Proof.
  unfold media_frame, media_rtp, media_rtcp, rtp_payloads. rewrite filter_cons, filter_nil.
  destruct (Z.eqb_spec (bz f.1) 0) as [H0|H0].
  - rewrite decide_True by done. unfold handle_rtp. done.
  - rewrite decide_False by done. destruct (bz f.1 =? 1); [|done]. by destruct (handle_rtcp (length f.2) now f.2 (stats m)).
Qed.

Lemma rtp_payloads_app fs gs : rtp_payloads (fs ++ gs) = rtp_payloads fs ++ rtp_payloads gs.
Proof. unfold rtp_payloads. by rewrite filter_app, fmap_app. Qed.

Lemma decode_all_app pt d ps qs : decode_all pt d (ps ++ qs) = decode_all pt (decode_all pt d ps) qs.
Proof. apply foldl_app. Qed.

Lemma heard_all fs m m' :
  heard fs m m' -> Forall frame_quiet fs ->
  track m' = track m /\ demux m' = decode_all (rtp_pt (track m)) (demux m) (rtp_payloads fs) /\ peer_bye m' = peer_bye m.
Proof.
  induction 1 as [m|ch p fs now m m' Hm IH]; intros Hq; [done|]. apply Forall_cons in Hq as [Hq1 Hq].
  destruct (IH Hq) as (Ht & Hd & Hb).
  pose proof (quiet_frame (ch, p) now m Hq1) as H1. pose proof (frame_demux (ch, p) now m) as H2.
  pose proof (frame_track ch now p m) as H3. cbn [fst snd] in *.
  rewrite Ht, Hd, Hb, H1, H2, H3. split_and!; [done | | done].
  rewrite <- decode_all_app, <- rtp_payloads_app. done.
Qed.

(** ** What is queued already comes first *)

Definition queued (q : list Nalu) (d : Demux) : Demux :=
  {| nalu_queue := q ++ nalu_queue d; fu_buf := fu_buf d; fu_ts := fu_ts d; fu_au_end := fu_au_end d |}.

Lemma queued_push q ns d : push_nalus ns (queued q d) = queued q (push_nalus ns d).
Proof. unfold push_nalus, queued. cbn. by rewrite app_assoc. Qed.

Lemma decode_payload_queued ts mk p q d : decode_payload ts mk p (queued q d) = queued q (decode_payload ts mk p d).
Proof.
  unfold decode_payload. repeat case_match; rewrite ?queued_push; try done.
  unfold decode_fu_a, fu_finish, queued. cbn [nalu_queue fu_buf fu_ts fu_au_end].
  repeat case_match; simplify_eq; cbn [nalu_queue fu_buf fu_ts fu_au_end]; rewrite ?app_assoc; done || congruence.
Qed.

Lemma decode_rtp_queued pt p q d : decode_rtp_h264 pt p (queued q d) = queued q (decode_rtp_h264 pt p d).
Proof. unfold decode_rtp_h264. repeat case_match; try done. apply decode_payload_queued. Qed.

Lemma decode_all_queued pt ps : forall q d, decode_all pt (queued q d) ps = queued q (decode_all pt d ps).
Proof.
  induction ps as [|p ps IH]; intros q d; [done|]. unfold decode_all. cbn [foldl].
  rewrite decode_rtp_queued. apply IH.
Qed.

(** ** The reader *)

Inductive Incoming := Interleaved (f : byte * list byte) | Stray (r : Reply).

Definition incoming_bytes (i : Incoming) : list byte :=
  match i with Interleaved f => frame_bytes f | Stray r => render r end.

Definition incoming_ok (i : Incoming) : Prop :=
  match i with Interleaved f => 0 < zlen f.2 < 2 ^ 16 /\ frame_quiet f | Stray r => reply_ok r end.

Definition frames_of (xs : list Incoming) : list (byte * list byte) :=
  concat ((fun i => match i with Interleaved f => [f] | Stray _ => [] end) <$> xs).

(** The stream ends with the connection's close, or with a goodbye. *)
Definition stream_end (tl : list byte) (fin : option Chunk) : Prop :=
  (tl = [] /\ fin = Some CloseNotify) \/
  exists ps rest, Forall rtcp_ok ps /\ Exists is_bye ps /\ let pkt := concat (rtcp_bytes <$> ps) in
    zlen pkt < 2 ^ 16 /\ tl = frame_bytes (zb 1, pkt) ++ rest.

(** A client that plays: the state of its data plane, and what is to come. *)
Record playing (limit : Z) (tl : list byte) (fin : option Chunk) (t : H264Track) (d : Demux) (k : Control) (s : Impl) : Prop := {
  pl_live : exists wr, live limit tl fin wr s;
  pl_ctl : ctl s = k;
  pl_track : track (media s) = t;
  pl_demux : demux (media s) = d;
  pl_bye : peer_bye (media s) = false
}.

Lemma report_at limit tl fin t d k s :
  playing limit tl fin t d k s -> exists s', maybe_send_rtcp s = (Done tt, s') /\ playing limit tl fin t d k s'.
Proof.
  intros [[wr Hs] <- <- <- Hb]. unfold maybe_send_rtcp.
  destruct (clock (conn s) <? next_rtcp_due (media s)); [exists s; by split; [|split; [exists wr|..]]|].
  set (s1 := set_media (set_due (clock (conn s) + 1000 * kRtcpIntervalMs) (media s)) s).
  assert (H1 : live limit tl fin wr s1) by (destruct Hs; by split).
  eexists. split; [reflexivity|]. unfold send_rtcp_receiver_report, gets, mbind, call_bind.
  destruct (socket_down (ctl s1)); [by split; [exists wr|..]|].
  destruct (negb (seq_initialised (stats (media s1))) || negb (have_peer_ssrc (stats (media s1)))); [by split; [exists wr|..]|].
  destruct (report_frame (clock (conn s1)) (stats (media s1))) as [frame st].
  set (s2 := set_media (set_stats st (media s1)) s1).
  assert (H2 : live limit tl fin wr s2) by (destruct H1; by split).
  destruct (write_all_at limit (take 4 frame) tl fin wr s2 H2) as (c3 & E3 & H3 & _).
  destruct (write_all_at limit (drop 4 frame) tl fin _ _ H3) as (c4 & E4 & H4 & _).
  unfold modify. fold s2. rewrite E3, E4. split; [by eexists | done..].
Qed.

Lemma stray_reads limit ms r rest :
  0 < limit <= 1000 * ms -> reply_ok r -> render r = zb 82 :: rest -> reads limit (drain_response ms) rest tt.
Proof.
  intros Hl Hr E. destruct (reply_parts limit ms r (zb 82) rest Hl Hr E) as (_ & line & hdrs & -> & Hline & Hhdrs & Hbody).
  unfold drain_response. eapply reads_bind; [exact Hline|]. eapply reads_bind; [exact Hhdrs|].
  eapply reads_bind; [exact Hbody | apply reads_ret].
Qed.

(** One frame, up to what its handler does. *)
Lemma pull_frame limit f rest fin wr s :
  0 < limit <= 1000 * data_timeout_ms (ctl s) -> 0 < zlen f.2 < 2 ^ 16 -> live limit (frame_bytes f ++ rest) fin wr s ->
  exists c, let s' := set_media (media_frame f.1 (clock c) f.2 (media s)) (set_conn c s) in
    pull_one_message s = ((if (bz f.1 =? 1) && peer_bye (media s') then Eos else Done tt), s') /\ live limit rest fin wr s'.
Proof.
  destruct f as [ch p]. cbn [fst snd]. intros Hl Hp Hs.
  destruct (frame_reads limit (data_timeout_ms (ctl s)) ch p rest fin wr s Hl ltac:(lia) Hs) as (c1 & c2 & c3 & E1 & E2 & E3 & H3).
  destruct (frame_header ch p [] ltac:(lia)) as [_ Eb]. exists c3. cbv zeta. split; [|destruct H3; by split].
  unfold pull_one_message. erewrite (bind_done (gets _)) by reflexivity. rewrite (bind_done _ _ _ _ _ E1).
  cbn [lookup_total list_lookup_total]. rewrite beq_refl, (bind_done _ _ _ _ _ E2), Eb.
  destruct (Z.eqb_spec (zlen p) 0); [lia|]. destruct (Z.ltb_spec kMaxRtpPacket (zlen p)) as [H|_]; [unfold kMaxRtpPacket in H; lia|].
  cbn [orb]. rewrite to_nat_zlen, (bind_done _ _ _ _ _ E3). cbn [lookup_total list_lookup_total].
  erewrite (bind_done (handle_frame ch p)) by reflexivity. erewrite (bind_done (gets _)) by reflexivity.
  change (clock (conn (set_conn c3 s))) with (clock c3). change (media (set_conn c3 s)) with (media s).
  change (media (set_media ?m _)) with m. by destruct ((bz ch =? 1) && peer_bye (media_frame ch (clock c3) p (media s))).
Qed.

Lemma pull_at limit x tl fin t d k s :
  0 < limit <= 1000 * data_timeout_ms k -> incoming_ok x -> playing limit (incoming_bytes x ++ tl) fin t d k s ->
  exists s', pull_one_message s = (Done tt, s') /\
    playing limit tl fin t (decode_all (rtp_pt t) d (rtp_payloads (frames_of [x]))) k s'.
Proof.
  intros Hl Hx [[wr Hs] <- <- <- Hb]. destruct x as [f|r]; cbn [incoming_bytes incoming_ok] in *.
  - destruct Hx as [Hp Hq]. destruct (pull_frame limit f tl fin wr s Hl Hp Hs) as (c & E & H').
    pose proof (quiet_frame f (clock c) (media s) Hq) as Hbye. cbv zeta in E.
    change (media (set_media ?m _)) with m in E. rewrite Hbye, Hb, andb_false_r in E.
    eexists. split; [exact E|]. split; [by eexists | done | | |].
    + cbn [media set_media]. by rewrite frame_track.
    + cbn [media set_media]. by rewrite frame_demux.
    + cbn [media set_media]. by rewrite Hbye.
  - destruct (render_first r) as (rest & Er). rewrite Er in Hs. cbn [app] in Hs.
    destruct (read_full_at limit (data_timeout_ms (ctl s)) 1 [zb 82] (rest ++ tl) fin wr s Hl eq_refl Hs) as (c1 & E1 & H1).
    destruct (on_conn_reads limit (drain_response (data_timeout_ms (ctl s))) rest tt tl fin wr (set_conn c1 s)
      ltac:(by apply (stray_reads _ _ r)) H1) as (c2 & E2 & H2).
    eexists. split.
    + unfold pull_one_message. erewrite (bind_done (gets _)) by reflexivity. rewrite (bind_done _ _ _ _ _ E1).
      cbn [lookup_total list_lookup_total]. assert (beq (zb 82) dollar = false) as -> by done.
      rewrite beq_refl. exact E2.
    + by split; [eexists|..].
Qed.

Lemma pull_end limit tl fin t d k s :
  0 < limit <= 1000 * data_timeout_ms k -> stream_end tl fin -> playing limit tl fin t d k s -> (pull_one_message s).1 = Eos.
Proof.
  intros Hl Hend [[wr Hs] <- _ _ _]. destruct Hend as [[-> ->]|(ps & rest & Hps & Hbye & Hlen & ->)].
  - destruct Hs as [Hc _]. unfold pull_one_message. erewrite (bind_done (gets _)) by reflexivity.
    assert (E : exists s', read_full 1 (data_timeout_ms (ctl s)) s = (Eos, s')).
    { unfold read_full, on_conn, ssl_read_full_timeout. cbn [full_loop].
      pose proof (read_some_end limit 1 (data_timeout_ms (ctl s)) wr (conn s) Hl Hc) as H.
      destruct (read_some_timeout 1 (data_timeout_ms (ctl s)) (conn s)) as [r c1] eqn:E1. cbn [fst] in H. subst r.
      rewrite (bind_eos _ _ _ _ E1). by eexists. }
    destruct E as (s' & E). by rewrite (bind_eos _ _ _ _ E).
  - set (pkt := concat (rtcp_bytes <$> ps)) in *.
    assert (Hpos : 0 < zlen pkt).
    { destruct Hbye as [p ps' _|p ps' _]; subst pkt; cbn [fmap list_fmap concat]; unfold rtcp_bytes at 1, zlen;
        rewrite !length_app; cbn [length]; lia. }
    destruct (pull_frame limit (zb 1, pkt) rest fin wr s Hl ltac:(cbn [snd]; lia) Hs) as (c & E & _).
    cbv zeta in E. rewrite E. cbn [fst snd]. change (media (set_media ?m _)) with m.
    assert (Hb : peer_bye (media_frame (zb 1) (clock c) pkt (media s)) = true).
    { unfold media_frame, media_rtcp. change (bz (zb 1) =? 0) with false. change (bz (zb 1) =? 1) with true.
      pose proof (compound_bye (clock c) ps (stats (media s)) Hps) as H. cbv zeta in H. fold pkt in H.
      destruct (handle_rtcp (length pkt) (clock c) pkt (stats (media s))) as [st b]. cbn [snd peer_bye] in *. rewrite H.
      assert (existsb (fun p => rc_type p =? kRtcpBye) ps = true) as ->; [|apply orb_true_r].
      apply existsb_exists. apply Exists_exists in Hbye as (p & Hin & Hp). exists p.
      split; [by apply list_elem_of_In | by apply Z.eqb_eq]. }
    by rewrite Hb.
Qed.

Lemma frames_of_cons x xs : frames_of (x :: xs) = frames_of [x] ++ frames_of xs.
Proof. unfold frames_of. cbn [fmap list_fmap concat]. by rewrite app_nil_r. Qed.

(** What is still to be delivered: the queue and what the messages bring. *)
Definition to_come (pt : Z) (d : Demux) (xs : list Incoming) : list Nalu :=
  nalu_queue (decode_all pt d (rtp_payloads (frames_of xs))).

Abbreviation wire xs := (concat (incoming_bytes <$> xs)).

Lemma read_loop_at limit tl fin t k xs : forall fuel d s,
  0 < limit <= 1000 * data_timeout_ms k -> stop_flag k = false -> Forall incoming_ok xs -> stream_end tl fin ->
  (length xs < fuel)%nat -> playing limit (wire xs ++ tl) fin t d k s ->
  (to_come (rtp_pt t) d xs = [] /\ (read_nalu_loop fuel s).1 = Eos) \/
  exists n s' d' xs', read_nalu_loop fuel s = (Done n, s') /\ Forall incoming_ok xs' /\
    playing limit (wire xs' ++ tl) fin t d' k s' /\ to_come (rtp_pt t) d xs = n :: to_come (rtp_pt t) d' xs'.
Proof.
  induction xs as [|x xs IH]; intros fuel d s Hl Hk Hxs Hend Hf Hs; (destruct fuel as [|fuel]; [lia|]);
    cbn [read_nalu_loop]; erewrite (bind_done (gets _)) by reflexivity; cbv beta;
    rewrite (pl_demux _ _ _ _ _ _ _ Hs).
  all: destruct (nalu_queue d) as [|n q] eqn:Eq.
  2, 4: right; set (d' := {| nalu_queue := q; fu_buf := fu_buf d; fu_ts := fu_ts d; fu_au_end := fu_au_end d |});
    assert (Ed : d = queued [n] d') by (destruct d; cbn in *; by subst);
    eexists n, _, d', _; split_and!;
    [ erewrite (bind_done (modify _)) by reflexivity; reflexivity | exact Hxs
    | destruct Hs as [[wr [Hc Ho]] Hctl Hpt Hd Hb]; split; [exists wr; by split | done | done | by cbn; rewrite Hd | done]
    | unfold to_come; by rewrite Ed, decode_all_queued ].
  all: erewrite (bind_done (gets _)) by reflexivity; cbv beta;
    rewrite (pl_ctl _ _ _ _ _ _ _ Hs), Hk;
    assert (ssl_open k = true) as -> by (destruct Hs as [[wr [_ Ho]] <- _ _ _]; done); cbn [negb orb];
    destruct (report_at _ _ _ _ _ _ _ Hs) as (s1 & E1 & H1); rewrite (bind_done _ _ _ _ _ E1).
  - left. split; [by unfold to_come|]. pose proof (pull_end limit tl fin t d k s1 Hl Hend H1) as H2.
    destruct (pull_one_message s1) as [r s2] eqn:E2. cbn [fst] in H2. subst r. by rewrite (bind_eos _ _ _ _ E2).
  - apply Forall_cons in Hxs as [Hx Hxs]. cbn [fmap list_fmap concat] in H1. rewrite <- app_assoc in H1.
    destruct (pull_at limit x _ fin t d k s1 Hl Hx H1) as (s2 & E2 & H2). rewrite (bind_done _ _ _ _ _ E2).
    assert (Et : to_come (rtp_pt t) d (x :: xs) = to_come (rtp_pt t) (decode_all (rtp_pt t) d (rtp_payloads (frames_of [x]))) xs).
    { unfold to_come. by rewrite (frames_of_cons x xs), rtp_payloads_app, decode_all_app. }
    rewrite Et. apply IH; try done. cbn [length] in Hf. lia.
Qed.

Lemma read_nalu_at limit tl fin t k xs d s :
  0 < limit <= 1000 * data_timeout_ms k -> stop_flag k = false -> Forall incoming_ok xs -> stream_end tl fin ->
  playing limit (wire xs ++ tl) fin t d k s ->
  (to_come (rtp_pt t) d xs = [] /\ (read_nalu s).1 = Eos) \/
  exists n s' d' xs', read_nalu s = (Done n, s') /\ Forall incoming_ok xs' /\
    playing limit (wire xs' ++ tl) fin t d' k s' /\ to_come (rtp_pt t) d xs = n :: to_come (rtp_pt t) d' xs'.
Proof.
  intros Hl Hk Hxs Hend Hs. unfold read_nalu. erewrite (bind_done (gets _)) by reflexivity.
  apply (read_loop_at limit tl fin t k xs); try done.
  destruct (pl_live _ _ _ _ _ _ _ Hs) as (wr & Hlive).
  unfold stream_fuel. rewrite (at_stream _ _ _ _ _ (live_conn _ _ _ _ _ Hlive)), length_app.
  pose proof (length_concat_le incoming_bytes xs) as H.
  assert (forall x, (1 <= length (incoming_bytes x))%nat); [|specialize (H ltac:(done)); lia].
  intros [f|r]; cbn [incoming_bytes]; [apply interleaved_nonempty | destruct (render_first r) as (rest & ->); cbn; lia].
Qed.

(** What a caller gets that reads until the end. *)
Fixpoint read_all (fuel : nat) (s : Impl) : list Nalu * Io unit :=
  match fuel with
  | O => ([], Done tt)
  | S fuel =>
      match read_nalu s with
      | (Done n, s) => let '(ns, r) := read_all fuel s in (n :: ns, r)
      | (Eos, _) => ([], Eos)
      | (Fault, _) => ([], Fault)
      end
  end.

Lemma read_all_at limit tl fin t k : 0 < limit <= 1000 * data_timeout_ms k -> stop_flag k = false -> stream_end tl fin ->
  forall fuel xs d s, Forall incoming_ok xs -> playing limit (wire xs ++ tl) fin t d k s ->
  (length (to_come (rtp_pt t) d xs) < fuel)%nat -> read_all fuel s = (to_come (rtp_pt t) d xs, Eos).
Proof.
  intros Hl Hk Hend. induction fuel as [|fuel IH]; intros xs d s Hxs Hs Hf; [lia|]. cbn [read_all].
  destruct (read_nalu_at limit tl fin t k xs d s Hl Hk Hxs Hend Hs) as [[Et E]|(n & s' & d' & xs' & E & Hxs' & H' & Et)].
  - destruct (read_nalu s) as [r s']. cbn [fst] in E. subst r. by rewrite Et.
  - rewrite E, Et. rewrite Et in Hf. cbn [length] in Hf. rewrite (IH xs' d' s') by (done || lia). done.
Qed.

(** ** From the first request to the last picture *)

Definition dials (u : Url) (d : Camera) : Prop :=
  url_tls u = true /\ url_ok (base_url u) /\ url_ok (resolve_control (base_url u) (cam_control d)).

Lemma camera_pt d : rtp_pt (camera_track d) = cam_pt d.
Proof. unfold camera_track. by destruct (parse_sps_geometry (cam_sps d)). Qed.

Lemma start_at limit u timeout env ssrc now nonces c0 c realm nonce qop d sid srv tl fin :
  0 < limit <= 1000 * timeout -> dials u d -> server_ok realm nonce qop d sid srv ->
  conn_at limit (serves srv ++ tl) fin [] c ->
  exists m' t s, start md5 u timeout env (Some c) (new_impl ssrc now nonces c0) = (Done tt, s) /\
    heard (early srv) (set_track (camera_track d) (media (new_impl ssrc now nonces c0))) m' /\
    client_at limit tl fin
      (session_requests (url_user u) (url_passwd u) realm nonce qop nonces (base_url u)
         (resolve_control (base_url u) (cam_control d)) sid)
      (logged_in (url_user u) (url_passwd u) realm nonce qop nonces 3)
      (reqs_at 6 (header (response_of (setup srv)) (str "session")) sid (base_url u)
         (resolve_control (base_url u) (cam_control d)))
      (start_clocks t m')
      {| ssl_open := true; stop_flag := false; socket_down := false; ctrl_timeout_ms := timeout;
         data_timeout_ms := data_read_timeout env |} s.
Proof.
  intros Hl (Htls & Hb & Hsu) Hsrv Hc. unfold start. rewrite Htls. cbn [negb].
  assert (Ht : (if 0 <? timeout then timeout else 5000) = timeout) by (destruct (Z.ltb_spec 0 timeout); lia).
  match goal with |- context [handshake md5 ?x] => set (s0 := x) end.
  set (k := {| ssl_open := true; stop_flag := false; socket_down := false; ctrl_timeout_ms := timeout;
               data_timeout_ms := data_read_timeout env |}).
  assert (Hk : ctl s0 = k) by (change (ctl s0) with (set_open true (set_timeouts timeout env (ctl (new_impl ssrc now nonces c0))));
    unfold set_timeouts; by rewrite Ht).
  assert (Hs0 : client_at limit (serves srv ++ tl) fin [] (auth s0) (reqs_at 1 [] [] (base_url u) []) (media s0) k s0)
    by (split; done).
  destruct (handshake_at limit realm nonce qop d sid srv tl fin [] (auth s0) (base_url u) (media s0) k s0 Hl Hsrv eq_refl
    Hb Hsu Hs0) as (m' & t & s & E & Hm & H).
  exists m', t, s. rewrite E. by split_and!.
Qed.

(** C30: A session is established: against a server that answers the requests,
    challenging DESCRIBE with digest authorization (with or without [qop]), the
    client sends exactly OPTIONS, DESCRIBE, DESCRIBE with credentials, SETUP at
    the resolved control URL and PLAY in the named session, numbered from 1,
    every credential computed as RFC 2617 says and its nonce count one more
    than the last; it ends connected, with the track the description announces,
    however the answers are cut into records and with media ahead of the last
    one. *)
Theorem session_established (limit : Z) (u : Url) (timeout : Z) (env : option cstr) (ssrc now : Z) (nonces : list cstr)
    (c0 c : Conn) (realm nonce : cstr) (qop : bool) (d : Camera) (sid : cstr) (srv : Server)
    (tl : list byte) (fin : option Chunk) :
  0 < limit <= 1000 * timeout -> dials u d -> server_ok realm nonce qop d sid srv ->
  conn_at limit (serves srv ++ tl) fin [] c ->
  exists s, start md5 u timeout env (Some c) (new_impl ssrc now nonces c0) = (Done tt, s) /\
    conn_at limit tl fin
      (session_requests (url_user u) (url_passwd u) realm nonce qop nonces (base_url u)
         (resolve_control (base_url u) (cam_control d)) sid) (conn s) /\
    session_id (reqs s) = sid /\ ssl_open (ctl s) = true /\
    (Forall frame_quiet (early srv) -> track (media s) = camera_track d).
Proof.
  intros Hl Hd Hsrv Hc.
  destruct (start_at limit u timeout env ssrc now nonces c0 c realm nonce qop d sid srv tl fin Hl Hd Hsrv Hc)
    as (m' & t & s & E & Hm & [[Hlive Ho] _ Hq Hmedia _]).
  exists s. split_and!; [done | done | by rewrite Hq | done|]. intros Hquiet.
  destruct (heard_all _ _ _ Hm Hquiet) as (Ht & _ & _). by rewrite Hmedia.
Qed.

(** The play of a session: what the camera packetised is interleaved from before
    the answer to PLAY on with control packets, other channels and answers to
    pings, up to a goodbye or the connection's close. *)
Record broadcast (pt : Z) (srv : Server) (xs : list Incoming) (tl : list byte) (fin : option Chunk)
    (aus : list AccessUnit) : Prop := {
  bc_quiet : Forall frame_quiet (early srv);
  bc_incoming : Forall incoming_ok xs;
  bc_end : stream_end tl fin;
  bc_aus : Forall au_ok aus;
  bc_carried : carried pt (concat (au_jobs <$> aus)) (rtp_payloads (early srv ++ frames_of xs))
}.

(** What [start] leaves: a client that plays, with all the units to come. *)
Lemma start_playing limit u timeout env ssrc now nonces c0 c realm nonce qop d sid srv xs tl fin aus :
  0 < limit <= 1000 * timeout -> dials u d -> server_ok realm nonce qop d sid srv ->
  broadcast (cam_pt d) srv xs tl fin aus -> conn_at limit (serves srv ++ wire xs ++ tl) fin [] c ->
  exists s d0 k, start md5 u timeout env (Some c) (new_impl ssrc now nonces c0) = (Done tt, s) /\
    playing limit (wire xs ++ tl) fin (camera_track d) d0 k s /\
    stop_flag k = false /\ data_timeout_ms k = data_read_timeout env /\
    to_come (rtp_pt (camera_track d)) d0 xs = concat (au_nalus <$> aus).
Proof.
  intros Hl Hd Hsrv [Hquiet Hxs Hend Haus Hcar] Hc.
  destruct (start_at limit u timeout env ssrc now nonces c0 c realm nonce qop d sid srv _ fin Hl Hd Hsrv Hc)
    as (m' & t & s & E & Hm & [Hlive _ _ Hmedia Hctl]).
  destruct (heard_all _ _ _ Hm Hquiet) as (Ht & Hdm & Hb). cbn [set_track track demux peer_bye new_impl media] in Ht, Hdm, Hb.
  exists s, (demux m'), (ctl s). split_and!; [done | | by rewrite Hctl | by rewrite Hctl |].
  - split; [by eexists | done | by rewrite Hmedia | by rewrite Hmedia | by rewrite Hmedia].
  - rewrite Hdm, camera_pt. unfold to_come. rewrite <- decode_all_app, <- rtp_payloads_app. unfold decode_all.
    rewrite (carried_run (cam_pt d) _ _) with (2 := Hcar); [by rewrite run_aus | |].
    + destruct Hsrv as [_ _ _ (_ & _ & Hpt & _) _ _ _ _ _ _]. exact Hpt.
    + apply Forall_concat, Forall_fmap. eapply Forall_impl; [exact Haus|]. apply au_jobs_ok.
Qed.

(** C26: Video is delivered: the access units a camera packetises, interleaved
    from before the answer to PLAY on with control packets, other channels and
    answers to pings, come out of [read_nalu] as their NAL units, complete and
    in order, with the time stamps and the access unit ends; then, at a
    goodbye or the connection's close, the end of the stream. *)
Theorem video_delivered (limit : Z) (u : Url) (timeout : Z) (env : option cstr) (ssrc now : Z) (nonces : list cstr)
    (c0 c : Conn) (realm nonce : cstr) (qop : bool) (d : Camera) (sid : cstr) (srv : Server)
    (xs : list Incoming) (tl : list byte) (fin : option Chunk) (aus : list AccessUnit) (fuel : nat) :
  0 < limit <= 1000 * timeout -> 0 < limit <= 1000 * data_read_timeout env ->
  dials u d -> server_ok realm nonce qop d sid srv -> broadcast (cam_pt d) srv xs tl fin aus ->
  conn_at limit (serves srv ++ wire xs ++ tl) fin [] c ->
  (length (concat (au_nalus <$> aus)) < fuel)%nat ->
  exists s, start md5 u timeout env (Some c) (new_impl ssrc now nonces c0) = (Done tt, s) /\
    read_all fuel s = (concat (au_nalus <$> aus), Eos).
Proof.
  intros Hl Hl' Hd Hsrv Hbc Hc Hf.
  destruct (start_playing limit u timeout env ssrc now nonces c0 c realm nonce qop d sid srv xs tl fin aus Hl Hd Hsrv Hbc Hc)
    as (s & d0 & k & E & Hs & Hk & Ht & Hto).
  exists s. split; [done|]. destruct Hbc as [_ Hxs Hend _ _]. rewrite <- Hto in *.
  apply (read_all_at limit tl fin (camera_track d) k); by rewrite ?Ht.
Qed.
End session.

(** ** Examples *)

Definition demo_md5 (l : list byte) : list byte := replicate 4 (zb (foldl (fun a c => 31 * a + bz c) 7 l)).

Definition demo_url (tls : bool) : Url :=
  {| url_host := str "10.0.0.9"; url_port := 322; url_user := str "bblp"; url_passwd := str "secret";
     url_path := str "/streaming/live/1"; url_device := []; url_tls := tls |}.

Definition demo_camera : Camera :=
  {| cam_before := [str "v=0"; str "s=live"]; cam_port := str "0"; cam_pt := 96; cam_rate := 90000;
     cam_params := [str "packetization-mode=1"]; cam_sps := [zb 0x67; zb 1]; cam_pps := [zb 0x68; zb 2];
     cam_control := str "track1";
     cam_section := [rtpmap_text 96 90000; str "b=AS:500"; fmtp_text 96 [str "packetization-mode=1"] [zb 0x67; zb 1] [zb 0x68; zb 2];
                     control_text (str "track1")];
     cam_after := [str "m=audio 0 RTP/AVP 0"; str "a=control:track2"] |}.

Definition ok_reply (hs : list (cstr * cstr)) (b : list byte) : Reply :=
  {| r_status := 200; r_reason := str "OK"; r_headers := hs; r_body := b |}.

Definition bye : RtcpPacket := {| rc_count := 1; rc_type := kRtcpBye; rc_body := enc_be32 77 |}.
Definition sender : RtcpPacket := {| rc_count := 0; rc_type := kRtcpSr; rc_body := enc_be32 77 ++ replicate 20 (zb 7) |}.

Definition demo_server : Server :=
  {| options := ok_reply [(str "Public", str "PLAY")] [];
     challenge := {| r_status := 401; r_reason := str "Unauthorized";
       r_headers := [(str "WWW-Authenticate", str "Digest " ++ params_text (challenge_params (str "LIVE555") (str "c0ffee") true))];
       r_body := [] |};
     described := ok_reply [] (describe demo_camera);
     setup := ok_reply [(str "Session", str "5EAD;timeout=65")] [];
     play := ok_reply [] [];
     early := (fun p => (zb 0, p)) <$> take 2 demo_packets |}.

Definition demo_incoming : list Incoming :=
  Stray (ok_reply [] []) :: Interleaved (zb 1, rtcp_bytes sender)
  :: ((fun p => Interleaved (zb 0, p)) <$> drop 2 demo_packets) ++ [Interleaved (zb 7, str "other")].

Definition demo_stream : list byte :=
  serves demo_server ++ concat (incoming_bytes <$> demo_incoming) ++ frame_bytes (zb 1, rtcp_bytes bye).

(** The stream in three records, and what the connection takes. *)
Definition demo_conn : Conn :=
  {| incoming := [(1000, Bytes (take 100 demo_stream)); (2000, Bytes (take 400 (drop 100 demo_stream)));
                  (3000, Bytes (drop 400 (drop 100 demo_stream)))];
     outcomes := [Wants true; Takes 10; Takes 3]; written := []; clock := 900 |}.

Definition demo_idle : Conn := {| incoming := []; outcomes := []; written := []; clock := 0 |}.

Lemma demo_camera_ok : camera_ok demo_camera.
Proof.
  assert (Hp : forall l, is_plain l = true -> plain l) by (exact plain_eval).
  unfold camera_ok. cbn [demo_camera cam_before cam_port cam_pt cam_rate cam_params cam_sps cam_pps cam_control cam_section cam_after].
  split_and!; try done; try lia.
  - by repeat constructor; apply Hp.
  - by apply Hp.
  - constructor; [|constructor]. split_and!; [by apply Hp | by repeat constructor | done].
  - split; [by apply Hp | done].
  - constructor. apply spaced_inert; [split; [by apply Hp | done]|]. repeat constructor.
  - split; [done|]. split; [split; [by apply Hp | done]|]. constructor; [|constructor]. split; [by apply Hp | done].
Qed.

Lemma demo_header_ok k v : is_plain k = true -> is_plain v = true -> trim k = k -> trim v = v ->
  Forall (fun c => beq c (zb 58) = false) k -> zlen k + zlen v < 8000 -> Rtsp.header_ok (k, v).
Proof.
  intros Hk Hv Htk Htv Hc Hz. split; [split; [by apply plain_eval | done]|].
  split; [split; [by apply plain_eval | done]|]. done.
Qed.

Lemma demo_reply_ok hs b : Forall (fun h => Rtsp.header_ok h /\ lc h.1 <> str "content-length") hs ->
  zlen b <= kMaxResponseBody -> reply_ok (ok_reply hs b).
Proof.
  intros Hh Hb. split; [cbn; lia|]. split; [split; [by apply plain_eval | done]|]. split; [done|]. done.
Qed.

Lemma demo_server_ok : server_ok (str "LIVE555") (str "c0ffee") true demo_camera (str "5EAD") demo_server.
Proof.
  assert (H1 : forall k v, Rtsp.header_ok (k, v) -> lc k <> str "content-length" ->
    Forall (fun h => Rtsp.header_ok h /\ lc h.1 <> str "content-length") [(k, v)]) by (intros k v Hk Hc; constructor; [done | constructor]).
  split; try exact demo_camera_ok; try reflexivity.
  - split; [|done]. apply demo_reply_ok; [|done]. apply H1; [|done]. apply demo_header_ok; try done. by repeat constructor.
  - assert (Hr : reply_ok (challenge demo_server)).
    { split; [cbn; lia|]. split; [split; [by apply plain_eval | done]|]. split; [done|]. split; [|done].
      apply H1; [|done]. apply demo_header_ok; try done. by repeat constructor. }
    split; [done|]. split; [done|]. split; [split; [done | split; [by repeat constructor | done]]|].
    split; [split; [done | split; [by repeat constructor | done]] | done].
  - split; [|done]. apply demo_reply_ok; [constructor|]. vm_compute. discriminate.
  - split; [|done]. apply demo_reply_ok; [|done]. apply H1; [|done]. apply demo_header_ok; try done. by repeat constructor.
  - right. by exists (str "timeout=65").
  - split; [done|]. split; [by repeat constructor|]. split; [by repeat constructor | done].
  - split; [|done]. apply demo_reply_ok; [constructor | done].
  - by repeat constructor.
Qed.

Lemma demo_conn_at : conn_at 2000000 demo_stream None [] demo_conn.
Proof.
  split; [vm_compute; reflexivity | done | | by repeat constructor | done].
  split; [done|]. split; [by vm_compute|]. split; [done|]. split; [by vm_compute|]. split; [done|]. split; [by vm_compute | done].
Qed.

Lemma demo_dials : dials (demo_url true) demo_camera.
Proof.
  split; [done|]. split; (split; [|done]); apply Forall_forall; intros c Hc;
    pose proof (forallb_forall (fun c => negb (beq c x00))) as H.
  - apply negb_true_iff. apply (proj1 (H (base_url (demo_url true))) ltac:(vm_compute; reflexivity)). by apply list_elem_of_In.
  - apply negb_true_iff. apply (proj1 (H (resolve_control (base_url (demo_url true)) (cam_control demo_camera)))
      ltac:(vm_compute; reflexivity)). by apply list_elem_of_In.
Qed.

(** What the server reads in the session of the example. *)
Definition demo_requests : list byte :=
  session_requests demo_md5 (str "bblp") (str "secret") (str "LIVE555") (str "c0ffee") true
    [str "aa"; str "bb"; str "cc"; str "dd"] (str "rtsps://10.0.0.9:322/streaming/live/1")
    (str "rtsps://10.0.0.9:322/streaming/live/1/track1") (str "5EAD").

Definition demo_impl : Impl := new_impl 5 800 [str "aa"; str "bb"; str "cc"; str "dd"] demo_idle.

Lemma session_established_witness :
  exists s, start demo_md5 (demo_url true) 3000 None (Some demo_conn) demo_impl = (Done tt, s) /\
    written (conn s) = demo_requests /\ session_id (reqs s) = str "5EAD" /\ t_pps (track (media s)) = [zb 0x68; zb 2].
Proof.
  destruct (session_established demo_md5 2000000 (demo_url true) 3000 None 5 800 [str "aa"; str "bb"; str "cc"; str "dd"]
    demo_idle demo_conn (str "LIVE555") (str "c0ffee") true demo_camera (str "5EAD") demo_server
    (concat (incoming_bytes <$> demo_incoming) ++ frame_bytes (zb 1, rtcp_bytes bye)) None) as (s & E & Hc & Hid & _ & Ht).
  - lia.
  - exact demo_dials.
  - exact demo_server_ok.
  - exact demo_conn_at.
  - exists s. split; [exact E|]. split; [by rewrite (at_written _ _ _ _ _ Hc)|]. split; [exact Hid|].
    rewrite Ht; [vm_compute; reflexivity|]. by repeat constructor.
Defined.

Lemma demo_incoming_ok : Forall incoming_ok demo_incoming.
Proof.
  constructor; [apply demo_reply_ok; [constructor | done]|].
  constructor.
  { split; [vm_compute; done|]. intros _. exists [sender]. cbn [fmap list_fmap concat snd]. rewrite app_nil_r.
    split; [|split; [by repeat constructor | done]]. constructor; [|constructor].
    split; [done|]. split; [done|]. by exists 6%nat. }
  apply Forall_app. split; [|constructor; [by split | constructor]].
  apply Forall_fmap. eapply (Forall_impl (fun p => 0 < zlen p < 2 ^ 16)).
  - vm_compute. by repeat constructor.
  - intros p Hp. by split.
Qed.

Lemma demo_broadcast : broadcast 96 demo_server demo_incoming (frame_bytes (zb 1, rtcp_bytes bye)) None demo_aus.
Proof.
  split.
  - by repeat constructor.
  - exact demo_incoming_ok.
  - right. exists [bye], []. cbn [fmap list_fmap concat]. rewrite !app_nil_r. split_and!.
    + constructor; [|constructor]. split; [done|]. split; [done|]. by exists 1%nat.
    + by constructor.
    + done.
    + done.
  - constructor; [|constructor; [|constructor]].
    + split; [cbn; lia|]. split; [done|]. constructor; [|by repeat constructor].
      split_and!; [done | done | by repeat constructor].
    + split; [cbn; lia|]. split; [done|]. constructor; [|constructor]. by eexists _, _.
  - exact demo_carried.
Qed.

Lemma video_delivered_witness :
  exists s, start demo_md5 (demo_url true) 3000 None (Some demo_conn) demo_impl = (Done tt, s) /\
    read_all 9 s = (concat (au_nalus <$> demo_aus), Eos).
Proof.
  apply (video_delivered demo_md5 2000000 (demo_url true) 3000 None 5 800 [str "aa"; str "bb"; str "cc"; str "dd"]
    demo_idle demo_conn (str "LIVE555") (str "c0ffee") true demo_camera (str "5EAD") demo_server
    demo_incoming (frame_bytes (zb 1, rtcp_bytes bye)) None demo_aus 9).
  - lia.
  - done.
  - exact demo_dials.
  - exact demo_server_ok.
  - exact demo_broadcast.
  - exact demo_conn_at.
  - vm_compute. lia.
Defined.
