(* ===== verification/RtspPassthrough.v ===== *)
(** The passthrough of [src/stubs/rtsp_passthrough.cpp]: a worker turns NAL
    units into Annex-B access units, a bounded queue hands them to the caller
    of [try_pull], and a watchdog reports a dead stream. The RTSP client is
    [RtspClient]. Times are nanoseconds of the steady clock, an input of each
    step; the two threads are interleaved by a schedule of events. *)

From S2P Require Import Prelude Text Double H264 Rtp Tls Rtsp RtspClient RtspSession.

#[local] Delimit Scope string_scope with string.

(** ** Samples and the ready queue *)

Definition kFlagSync : Z := 1.
Definition kMaxReadyQueue : nat := 8.
Definition kStallTimeoutMs : Z := 8000.

(** [OBN_RTSP_STALL_TIMEOUT_MS]. *)
Definition stall_timeout_ms (env : option cstr) : Z :=
  match env with
  | Some e => let v := atoi e in if 0 <? v then v else kStallTimeoutMs
  | None => kStallTimeoutMs
  end.

Record Sample := { bytes : list byte; dt_100ns : Z; flags : Z }.

(** What [q_mu] guards, and what only the caller's thread uses. *)
Record Queue := {
  ready : list Sample; last_progress : Z; stalled : bool; stall_ms : Z; t0 : Z; current : Sample
}.

Definition kEos : Z := 0x100.
Definition kErr : Z := 0x200.

(** The sample of an access unit at time [now]; the oldest make room. *)
Definition push (now : Z) (unit : list byte * Z) (q : Queue) : Queue :=
  {| ready := drop (S (length (ready q)) - kMaxReadyQueue) (ready q)
              ++ [{| bytes := unit.1; dt_100ns := u64 (Z.quot (now - t0 q) 100); flags := unit.2 |}];
     last_progress := now; stalled := stalled q; stall_ms := stall_ms q; t0 := t0 q; current := current q |}.

(** The marker at the end of the stream is not bounded. *)
Definition push_marker (now flag : Z) (q : Queue) : Queue :=
  {| ready := ready q ++ [{| bytes := []; dt_100ns := 0; flags := flag |}];
     last_progress := now; stalled := stalled q; stall_ms := stall_ms q; t0 := t0 q; current := current q |}.

Inductive PullResult := Pull_Ok (buf : list byte) (dt : Z) (fl : Z) | Pull_StreamEnd | Pull_WouldBlock | Pull_Error.

Definition take_ready (s : Sample) (rest : list Sample) (q : Queue) : Queue :=
  {| ready := rest; last_progress := last_progress q; stalled := stalled q; stall_ms := stall_ms q; t0 := t0 q; current := s |}.
Definition set_stalled (q : Queue) : Queue :=
  {| ready := ready q; last_progress := last_progress q; stalled := true; stall_ms := stall_ms q; t0 := t0 q; current := current q |}.

Definition try_pull (now : Z) (q : Queue) : PullResult * Queue :=
  match ready q with
  | [] =>
      if stalled q then (Pull_Error, q)
      else if stall_ms q <=? Z.quot (now - last_progress q) 1000000 then (Pull_Error, set_stalled q)
      else (Pull_WouldBlock, q)
  | s :: rest =>
      let q := take_ready s rest q in
      if negb (Z.land (flags s) kEos =? 0) then (Pull_StreamEnd, q)
      else if negb (Z.land (flags s) kErr =? 0) then (Pull_Error, q)
      else (Pull_Ok (bytes s) (dt_100ns s) (flags s), q)
  end.

(** ** Access units *)

Definition append_annexb (out nal : list byte) : list byte := out ++ [x00; x00; x00; zb 1] ++ nal.

Definition nal_is_sps (nal0 : byte) : bool := Z.land (bz nal0) 0x1f =? 7.
Definition nal_is_pps (nal0 : byte) : bool := Z.land (bz nal0) 0x1f =? 8.

(** The accumulator of the worker. *)
Record Worker := { au : list byte; au_ts : Z; au_open : bool; au_has_idr : bool }.

Definition new_worker : Worker := {| au := []; au_ts := 0; au_open := false; au_has_idr := false |}.

Definition closed (w : Worker) : Worker := {| au := []; au_ts := au_ts w; au_open := false; au_has_idr := false |}.

(** The unit it hands to the queue, with the flags. *)
Definition flush_au (w : Worker) : Worker * list (list byte * Z) :=
  if negb (au_open w) || bool_decide (au w = []) then (closed w, [])
  else (closed w, [(au w, if au_has_idr w then kFlagSync else 0)]).

Definition open_at (ts : Z) (w : Worker) : Worker :=
  if au_open w then w else {| au := au w; au_ts := ts; au_open := true; au_has_idr := au_has_idr w |}.

Definition append_set (set : list byte) (out : list byte) : list byte :=
  match set with [] => out | _ => append_annexb out set end.

Definition put_nal (tr : H264Track) (nal : list byte) (idr : bool) (w : Worker) : Worker :=
  {| au := append_annexb (if idr then append_set (t_pps tr) (append_set (t_sps tr) (au w)) else au w) nal;
     au_ts := au_ts w; au_open := au_open w; au_has_idr := idr || au_has_idr w |}.

(** One NAL unit: the units that are flushed, at most two. *)
Definition on_nalu (tr : H264Track) (n : Nalu) (w : Worker) : Worker * list (list byte * Z) :=
  match n_data n with
  | [] => (w, [])
  | nal0 :: _ =>
      if nal_is_sps nal0 || nal_is_pps nal0 then (w, [])
      else
        let '(w, before) := if au_open w && negb (rtp_ts_90khz n =? au_ts w) then flush_au w else (w, []) in
        let w := put_nal tr (n_data n) (Z.land (bz nal0) 0x1f =? 5) (open_at (rtp_ts_90khz n) w) in
        if au_end n then let '(w, after) := flush_au w in (w, before ++ after) else (w, before)
  end.

Fixpoint on_nalus (tr : H264Track) (w : Worker) (ns : list Nalu) : Worker * list (list byte * Z) :=
  match ns with
  | [] => (w, [])
  | n :: ns =>
      let '(w, out) := on_nalu tr n w in
      let '(w, out') := on_nalus tr w ns in
      (w, out ++ out')
  end.

(** ** The two threads *)

(** Where the worker is: before a read, with its result, or out of the loop. *)
Inductive Phase := AtLoop | Has (r : Io Nalu) | Finished.

(** What it has to publish: a unit, or the marker. *)
Inductive Post := PostUnit (unit : list byte * Z) | PostMarker (flag : Z).

Record Impl := {
  client : RtspClient.Impl; stop_flag : bool; phase : Phase; worker : Worker; outbox : list Post; queue : Queue
}.

Definition with_phase (ph : Phase) (s : Impl) : Impl :=
  {| client := client s; stop_flag := stop_flag s; phase := ph; worker := worker s; outbox := outbox s; queue := queue s |}.
Definition with_queue (q : Queue) (s : Impl) : Impl :=
  {| client := client s; stop_flag := stop_flag s; phase := phase s; worker := worker s; outbox := outbox s; queue := q |}.

(** The head of the loop: the stop flag, then [read_nalu]. *)
Definition read_step (s : Impl) : Impl :=
  match phase s, outbox s with
  | AtLoop, [] =>
      if stop_flag s then with_phase Finished s
      else
        let '(r, c) := read_nalu (client s) in
        {| client := c; stop_flag := stop_flag s; phase := Has r; worker := worker s; outbox := []; queue := queue s |}
  | _, _ => s
  end.

(** What the worker makes of the result. *)
Definition react_step (s : Impl) : Impl :=
  match phase s with
  | Has (Done n) =>
      let '(w, units) := on_nalu (track (media (client s))) n (worker s) in
      {| client := client s; stop_flag := stop_flag s; phase := AtLoop; worker := w;
         outbox := PostUnit <$> units; queue := queue s |}
  | Has r =>
      {| client := client s; stop_flag := stop_flag s; phase := Finished; worker := worker s;
         outbox := [PostMarker (if (match r with Eos => true | _ => false end) || stop_flag s then kEos else kErr)];
         queue := queue s |}
  | _ => s
  end.

Definition publish_step (now : Z) (s : Impl) : Impl :=
  match outbox s with
  | [] => s
  | p :: ps =>
      {| client := client s; stop_flag := stop_flag s; phase := phase s; worker := worker s; outbox := ps;
         queue := match p with
                  | PostUnit u => push now u (queue s)
                  | PostMarker flag => push_marker now flag (queue s)
                  end |}
  end.

(** [stop], up to the join: the flag is set once, and the client cancelled. *)
Definition stop_step (s : Impl) : Impl :=
  if stop_flag s then s
  else {| client := cancel (client s); stop_flag := true; phase := phase s; worker := worker s; outbox := outbox s; queue := queue s |}.

Inductive Event := Read | React | Publish (now : Z) | Poll (now : Z) | Stop.

Definition step (e : Event) (s : Impl) : list PullResult * Impl :=
  match e with
  | Read => ([], read_step s)
  | React => ([], react_step s)
  | Publish now => ([], publish_step now s)
  | Poll now => let '(r, q) := try_pull now (queue s) in ([r], with_queue q s)
  | Stop => ([], stop_step s)
  end.

(** The results of a schedule. *)
Fixpoint run (es : list Event) (s : Impl) : list PullResult * Impl :=
  match es with
  | [] => ([], s)
  | e :: es => let '(rs, s) := step e s in let '(rs', s) := run es s in (rs ++ rs', s)
  end.

(** ** The calls *)

Definition no_sample : Sample := {| bytes := []; dt_100ns := 0; flags := 0 |}.

Definition camera_url (host : cstr) (port : Z) (usr pw path : cstr) (tls : bool) (device : cstr) : Url :=
  {| url_host := host; url_port := port; url_user := usr; url_passwd := pw; url_path := path;
     url_device := device; url_tls := tls |}.

Section passthrough.
Context (md5 : list byte -> list byte).

(** Before the first [start] there is no worker. *)
Definition new_pass (c : RtspClient.Impl) : Impl :=
  {| client := c; stop_flag := false; phase := Finished; worker := new_worker; outbox := [];
     queue := {| ready := []; last_progress := 0; stalled := false; stall_ms := kStallTimeoutMs; t0 := 0; current := no_sample |} |}.

(** [now] is the time at which the handshake ends. *)
Definition pass_start (u : Url) (timeout : Z) (env stall_env : option cstr) (dialled : option Conn) (now : Z) (s : Impl)
    : bool * Impl :=
  let '(r, c) := start md5 u timeout env dialled (client s) in
  match r with
  | Done _ =>
      (true, {| client := c; stop_flag := false; phase := AtLoop; worker := new_worker; outbox := [];
                queue := {| ready := ready (queue s); last_progress := now; stalled := false;
                            stall_ms := stall_timeout_ms stall_env; t0 := now; current := current (queue s) |} |})
  | _ =>
      (false, {| client := c; stop_flag := stop_flag s; phase := phase s; worker := worker s; outbox := outbox s; queue := queue s |})
  end.

(** The rest of [stop], once the worker has been joined. *)
Definition join_step (s : Impl) : Impl :=
  match phase s, outbox s with
  | Finished, [] =>
      {| client := RtspClient.stop md5 (client s); stop_flag := stop_flag s; phase := Finished;
         worker := worker s; outbox := []; queue := queue s |}
  | _, _ => s
  end.
End passthrough.

Definition params (s : Impl) : Z * Z * Z :=
  let t := track (media (client s)) in (t_width t, t_height t, t_fps t).

(** ** Access units come out whole *)

Definition start_code (nal : list byte) : list byte := [x00; x00; x00; zb 1] ++ nal.

Definition is_slice (nal : list byte) : bool :=
  match nal with [] => false | b :: _ => negb (nal_is_sps b || nal_is_pps b) end.
Definition is_idr (nal : list byte) : bool := match nal with [] => false | b :: _ => Z.land (bz b) 0x1f =? 5 end.

Definition slices (nals : list (list byte)) : list (list byte) := filter (fun n => is_slice n = true) nals.

Section pictures.
Context (tr : H264Track).

(** The Annex-B text of a unit: behind start codes, and with the parameter
    sets of the session description ahead of an IDR slice. *)
Definition annexb (nal : list byte) : list byte :=
  (if is_idr nal then append_set (t_pps tr) (append_set (t_sps tr) []) else []) ++ start_code nal.

Definition unit_of (ks : list (list byte)) : list byte * Z :=
  (concat (annexb <$> ks), if existsb is_idr ks then kFlagSync else 0).

Definition picture (nals : list (list byte)) : list byte * Z := unit_of (slices nals).

(** The accumulator with the slices [ks] of time [ts]. *)
Definition built (ts : Z) (ks : list (list byte)) : Worker :=
  {| au := concat (annexb <$> ks); au_ts := ts; au_open := true; au_has_idr := existsb is_idr ks |}.

Definition idle (w : Worker) : Prop := au w = [] /\ au_open w = false /\ au_has_idr w = false.
Definition fresh (ts : Z) (w : Worker) : Prop := idle w \/ (au_open w = true /\ au w <> [] /\ au_ts w <> ts).

Definition open_unit (w : Worker) : list (list byte * Z) :=
  if au_open w then [(au w, if au_has_idr w then kFlagSync else 0)] else [].

Lemma append_set_app set out : append_set set out = out ++ append_set set [].
Proof. unfold append_set, append_annexb. destruct set; [by rewrite app_nil_r | done]. Qed.

Lemma put_nal_au nal w : au (put_nal tr nal (is_idr nal) w) = au w ++ annexb nal.
Proof.
  unfold put_nal, annexb, append_annexb. cbn [au]. change ([x00; x00; x00; zb 1] ++ nal) with (start_code nal).
  destruct (is_idr nal); [|done]. rewrite (append_set_app (t_pps tr)), (append_set_app (t_sps tr)), <- !app_assoc.
  rewrite (append_set_app (t_pps tr) (append_set (t_sps tr) [])). by rewrite <- !app_assoc.
Qed.

Lemma annexb_not_nil nal : annexb nal <> [].
Proof. unfold annexb. intros H. by apply app_eq_nil in H as [_ H]. Qed.

Lemma unit_not_nil ks : ks <> [] -> concat (annexb <$> ks) <> [].
Proof.
  destruct ks as [|k ks]; [done|]. intros _ H. cbn [fmap list_fmap concat] in H. apply app_eq_nil in H as [H _].
  by apply annexb_not_nil in H.
Qed.

Lemma put_built ts ks nal :
  put_nal tr nal (is_idr nal) (built ts ks) = built ts (ks ++ [nal]).
Proof.
  pose proof (put_nal_au nal (built ts ks)) as H. unfold built at 2.
  rewrite fmap_app, concat_app, existsb_app. cbn [fmap list_fmap concat existsb]. rewrite app_nil_r, orb_false_r, orb_comm.
  unfold put_nal in *. cbn [au] in H. rewrite H. done.
Qed.

(** A NAL unit, by what it does to the accumulator. *)
Lemma param_passed n w : is_slice (n_data n) = false -> on_nalu tr n w = (w, []).
Proof.
  intros H. unfold on_nalu. destruct (n_data n) as [|b r]; [done|]. cbn [is_slice] in H. apply negb_false_iff in H. by rewrite H.
Qed.

Lemma flush_built ts ks : ks <> [] -> flush_au (built ts ks) = (closed (built ts ks), [unit_of ks]).
Proof.
  intros Hk. unfold flush_au. cbn [au_open built negb orb]. change (au (built ts ks)) with (concat (annexb <$> ks)).
  rewrite bool_decide_false by by apply unit_not_nil. done.
Qed.

Lemma finish_slice ts ks (e : bool) (out : list (list byte * Z)) : ks <> [] ->
  (if e then let '(w, after) := flush_au (built ts ks) in (w, out ++ after) else (built ts ks, out)) =
  (if e then (closed (built ts ks), out ++ [unit_of ks]) else (built ts ks, out)).
Proof. intros Hk. destruct e; [by rewrite flush_built | done]. Qed.

Lemma slice_built n ts ks :
  is_slice (n_data n) = true -> rtp_ts_90khz n = ts -> ks <> [] ->
  let ks' := ks ++ [n_data n] in
  on_nalu tr n (built ts ks) = if au_end n then (closed (built ts ks'), [unit_of ks']) else (built ts ks', []).
Proof.
  intros Hn Ht Hk ks'. unfold on_nalu. rewrite Ht. destruct (n_data n) as [|b r] eqn:E; [done|].
  cbn [is_slice] in Hn. apply negb_true_iff in Hn. rewrite Hn. cbn [au_open built au_ts]. rewrite Z.eqb_refl. cbn [negb andb].
  change (open_at ts (built ts ks)) with (built ts ks).
  change (Z.land (bz b) 31 =? 5) with (is_idr (b :: r)). rewrite put_built. subst ks'.
  apply (finish_slice ts (ks ++ [b :: r]) (au_end n) []). by destruct ks.
Qed.

Lemma slice_fresh n ts w :
  is_slice (n_data n) = true -> rtp_ts_90khz n = ts -> fresh ts w ->
  on_nalu tr n w = if au_end n then (closed (built ts [n_data n]), open_unit w ++ [unit_of [n_data n]])
                   else (built ts [n_data n], open_unit w).
Proof.
  intros Hn Ht Hw. unfold on_nalu. rewrite Ht. destruct (n_data n) as [|b r] eqn:E; [done|].
  cbn [is_slice] in Hn. apply negb_true_iff in Hn. rewrite Hn. change (Z.land (bz b) 31 =? 5) with (is_idr (b :: r)).
  assert (H : forall w, idle w -> put_nal tr (b :: r) (is_idr (b :: r)) (open_at ts w) = built ts [b :: r]).
  { intros w0 (Ha & Ho & Hi). assert (open_at ts w0 = built ts []) as ->; [|apply (put_built ts [])].
    unfold open_at, built. by rewrite Ho, Ha, Hi. }
  destruct Hw as [Hw|(Ho & Hne & Hts)].
  - pose proof Hw as (_ & Ho & _). unfold open_unit. rewrite Ho. cbn [andb]. rewrite H by done. by apply finish_slice.
  - unfold open_unit. rewrite Ho. apply not_eq_sym, Z.eqb_neq in Hts. rewrite Hts. cbn [negb andb].
    unfold flush_au at 1. rewrite Ho, bool_decide_false by done. cbn [negb orb].
    rewrite H by done. by apply finish_slice.
Qed.

Lemma on_nalus_app ns ns' w :
  on_nalus tr w (ns ++ ns') =
  let '(w1, o1) := on_nalus tr w ns in let '(w2, o2) := on_nalus tr w1 ns' in (w2, o1 ++ o2).
Proof.
  revert w. induction ns as [|n ns IH]; intros w; cbn [app on_nalus]; [by destruct (on_nalus tr w ns')|].
  destruct (on_nalu tr n w) as [w1 o1]. rewrite IH. destruct (on_nalus tr w1 ns) as [w2 o2].
  destruct (on_nalus tr w2 ns') as [w3 o3]. by rewrite app_assoc.
Qed.

(** An access unit on the wire: its time, its NAL units, and whether its end
    is marked. *)
Definition Timed : Type := Z * list (list byte) * bool.

Definition nalus_of (a : Timed) : list Nalu :=
  (fun '(l, n) => {| n_data := n; rtp_ts_90khz := a.1.1; au_end := l && a.2 |}) <$> mark_last a.1.2.

Definition ends_whole (nals : list (list byte)) (ended : bool) : bool :=
  ended && match last nals with Some n => is_slice n | None => false end.

(** The accumulator within an access unit: as it was before, or with the
    slices so far. *)
Definition holds (ts : Z) (w0 : Worker) (ks : list (list byte)) (w : Worker) : Prop :=
  match ks with [] => w = w0 /\ fresh ts w0 | _ => w = built ts ks end.

Definition held_before (w0 : Worker) (ks : list (list byte)) : list (list byte * Z) :=
  match ks with [] => open_unit w0 | _ => [] end.

Lemma slices_cons n nals : slices (n :: nals) = (if is_slice n then [n] else []) ++ slices nals.
Proof. unfold slices. rewrite filter_cons. destruct (is_slice n); [by rewrite decide_True | by rewrite decide_False]. Qed.

Lemma open_built ts ks : open_unit (built ts ks) = [unit_of ks].
Proof. done. Qed.

Lemma slice_held n ts w0 ks w :
  is_slice (n_data n) = true -> rtp_ts_90khz n = ts -> holds ts w0 ks w ->
  let ks' := ks ++ [n_data n] in
  on_nalu tr n w = if au_end n then (closed (built ts ks'), held_before w0 ks ++ [unit_of ks'])
                   else (built ts ks', held_before w0 ks).
Proof.
  intros Hn Ht Hw. destruct ks as [|k ks].
  - destruct Hw as [-> Hw]. by apply slice_fresh.
  - cbn [holds] in Hw. subst w. rewrite (slice_built n ts (k :: ks)) by done. done.
Qed.

Lemma au_run ts (ended : bool) w0 nals : forall ks w,
  holds ts w0 ks w -> ks ++ slices nals <> [] ->
  let '(w', out) := on_nalus tr w (nalus_of (ts, nals, ended)) in
  out ++ open_unit w' = held_before w0 ks ++ [unit_of (ks ++ slices nals)] /\
  (idle w' \/ w' = built ts (ks ++ slices nals)) /\
  (ends_whole nals ended = true -> idle w').
Proof.
  unfold nalus_of. cbn [fst snd]. induction nals as [|n nals IH]; intros ks w Hw Hk.
  - change (slices []) with (@nil (list byte)) in *. rewrite app_nil_r in *. cbn [mark_last fmap list_fmap on_nalus app].
    destruct ks as [|k ks]; [done|]. cbn [holds] in Hw. subst w. unfold ends_whole. rewrite andb_false_r.
    split_and!; [done | by right | done].
  - cbn [mark_last fmap list_fmap on_nalus]. rewrite slices_cons in *. set (l := match nals with [] => true | _ => false end).
    assert (Hends : l = false -> ends_whole (n :: nals) ended = ends_whole nals ended)
      by (unfold ends_whole; subst l; by destruct nals).
    destruct (is_slice n) eqn:En.
    + rewrite (slice_held _ ts w0 ks w) by done. cbn [n_data au_end app]. rewrite (app_assoc ks [n]) in *.
      destruct (l && ended) eqn:Ee.
      * apply andb_prop in Ee as [El ->]. subst l. destruct nals as [|]; [|done]. cbn [mark_last fmap list_fmap on_nalus].
        change (slices []) with (@nil (list byte)). rewrite !app_nil_r. split_and!; [done | by left; split_and! | intros _; by split_and!].
      * assert (H : holds ts w0 (ks ++ [n]) (built ts (ks ++ [n]))) by by destruct ks.
        specialize (IH _ _ H). destruct (on_nalus tr (built ts (ks ++ [n])) _) as [w' out].
        destruct IH as (H1 & H2 & H3); [by destruct ks|]. rewrite <- (app_assoc (held_before w0 ks)), H1.
        rewrite <- !(app_assoc ks) in *.
        assert (held_before w0 (ks ++ [n]) = []) as -> by by destruct ks. split_and!; [done | done |].
        intros He. apply H3. destruct l eqn:El; [|by rewrite <- Hends].
        unfold ends_whole in He. cbn in Ee. by rewrite Ee in He.
    + rewrite param_passed by done. cbn [app] in *. specialize (IH ks w Hw Hk).
      destruct (on_nalus tr w _) as [w' out]. destruct IH as (H1 & H2 & H3). split_and!; [done | done |].
      intros He. apply H3. destruct l eqn:El; [|by rewrite <- Hends]. subst l. destruct nals as [|]; [|done].
      unfold ends_whole in He. cbn [last] in He. by rewrite En, andb_false_r in He.
Qed.

(** Time stamps that change from one access unit to the next. *)
Fixpoint changing (ts : list Z) : Prop :=
  match ts with t :: (t' :: _) as ts => t <> t' /\ changing ts | _ => True end.

Lemma aus_run (aus : list Timed) : forall w,
  Forall (fun a => slices a.1.2 <> []) aus -> changing (aus.*1.*1) ->
  match aus with a :: _ => fresh a.1.1 w | [] => True end ->
  let '(w', out) := on_nalus tr w (concat (nalus_of <$> aus)) in
  out ++ open_unit w' = open_unit w ++ ((fun a => picture a.1.2) <$> aus) /\
  (match last aus with Some a => ends_whole a.1.2 a.2 = true | None => idle w end -> idle w').
Proof.
  induction aus as [|[[ts nals] ended] aus IH]; intros w Hs Hc Hw; [cbn; by rewrite app_nil_r|].
  apply Forall_cons in Hs as [Hs1 Hs]. cbn [fmap list_fmap concat fst snd] in *. rewrite on_nalus_app.
  pose proof (au_run ts ended w nals [] w (conj eq_refl Hw) Hs1) as H. cbn [app held_before] in H.
  destruct (on_nalus tr w (nalus_of (ts, nals, ended))) as [w1 o1]. destruct H as (H1 & H2 & H3).
  assert (Hw1 : match aus with a :: _ => fresh a.1.1 w1 | [] => True end).
  { destruct aus as [|[[ts' nals'] ended'] aus]; [done|]. cbn [fst fmap list_fmap changing] in *. destruct Hc as [Hne _].
    destruct H2 as [H2|H2]; [by left|]. right. subst w1. split_and!; [done | by apply unit_not_nil | done]. }
  assert (Hc1 : changing (aus.*1.*1)) by (cbn [changing] in Hc; destruct aus as [|a aus]; [done | by destruct Hc]).
  specialize (IH w1 Hs Hc1 Hw1). destruct (on_nalus tr w1 (concat (nalus_of <$> aus))) as [w2 o2]. destruct IH as [H4 H5].
  split.
  - rewrite <- app_assoc, H4, app_assoc, H1, <- app_assoc. done.
  - intros Hlast. apply H5. destruct aus as [|a aus]; [by apply H3|].
    change (last ((ts, nals, ended) :: a :: aus)) with (last (a :: aus)) in Hlast.
    destruct (last (a :: aus)) eqn:El; [done|]. by apply last_None in El.
Qed.
End pictures.

(** Samples are pictures: from the NAL units of access units whose times
    change, the worker makes one sample per access unit, with its slices (and
    other units) in order behind start codes, the parameter sets of the session
    description ahead of each IDR slice, in-band parameter sets left out, and
    the sync flag where there is an IDR slice; a lost end mark only delays a
    sample to the next access unit, so at most the last one is still open, and
    it is not if it was marked and ends with a slice. *)
Lemma samples_are_pictures (tr : H264Track) (aus : list Timed) :
  Forall (fun a => slices a.1.2 <> []) aus -> changing (aus.*1.*1) ->
  let '(w, units) := on_nalus tr new_worker (concat (nalus_of <$> aus)) in
  units ++ open_unit w = (fun a => picture tr a.1.2) <$> aus /\
  (match last aus with Some a => ends_whole a.1.2 a.2 = true | None => True end ->
   units = (fun a => picture tr a.1.2) <$> aus).
Proof.
  intros Hs Hc. pose proof (aus_run tr aus new_worker Hs Hc) as H.
  assert (Hi : idle new_worker) by by split_and!.
  destruct (on_nalus tr new_worker (concat (nalus_of <$> aus))) as [w units].
  destruct H as [H1 H2]; [destruct aus; [done | by left]|]. split; [exact H1|].
  intros Hl. destruct H2 as (_ & Ho & _); [by destruct (last aus)|]. unfold open_unit at 1 in H1. rewrite Ho, app_nil_r in H1.
  exact H1.
Qed.

(** ** What the worker needs of the client

    A source gives the units that are left, one per read, then the end of the
    stream; once cancelled it may fail early. *)

Class NaluSource (t : H264Track) (gives : list Nalu -> bool -> RtspClient.Impl -> Prop) := {
  source_reads left c : gives left false c ->
    exists r c', read_nalu c = (r, c') /\
      match left with [] => r = Eos | n :: left' => r = Done n /\ gives left' false c' end;
  source_cancelled left c : gives left true c ->
    exists r c', read_nalu c = (r, c') /\
      (r = Fault \/ exists n left', left = n :: left' /\ r = Done n /\ gives left' true c');
  source_cancel left b c : gives left b c -> gives left true (cancel c);
  source_track left b c : gives left b c -> track (media c) = t
}.

(** What is published, the end of the stream being a unit of its own. *)
Definition eos_unit : list byte * Z := ([], kEos).
Definition post_unit (p : Post) : list byte * Z := match p with PostUnit u => u | PostMarker f => ([], f) end.
Definition sample_unit (s : Sample) : list byte * Z := (bytes s, flags s).

(** What a caller has got. *)
Definition got (r : PullResult) : list (list byte * Z) :=
  match r with Pull_Ok b _ f => [(b, f)] | Pull_StreamEnd => [eos_unit] | _ => [] end.

Definition got_all (rs : list PullResult) : list (list byte * Z) := concat (got <$> rs).

Definition unit_ok (u : list byte * Z) : Prop := u.2 = 0 \/ u.2 = kFlagSync.
Definition item_ok (u : list byte * Z) : Prop := unit_ok u \/ u = eos_unit.

Lemma flush_ok w : Forall unit_ok (flush_au w).2.
Proof.
  unfold flush_au. destruct (negb (au_open w) || bool_decide (au w = [])); cbn [snd]; [constructor|].
  constructor; [|constructor]. destruct (au_has_idr w); [by right | by left].
Qed.

Lemma on_nalu_ok tr n w : Forall unit_ok (on_nalu tr n w).2.
Proof.
  unfold on_nalu. destruct (n_data n) as [|b r]; [constructor|]. destruct (nal_is_sps b || nal_is_pps b); [constructor|].
  assert (H : Forall unit_ok (if au_open w && negb (rtp_ts_90khz n =? au_ts w) then flush_au w else (w, [])).2).
  { destruct (au_open w && negb (rtp_ts_90khz n =? au_ts w)); [apply flush_ok | constructor]. }
  destruct (if au_open w && negb (rtp_ts_90khz n =? au_ts w) then flush_au w else (w, [])) as [w1 before].
  destruct (au_end n); [|done]. match goal with |- context [flush_au ?x] => pose proof (flush_ok x) as H2; destruct (flush_au x) as [w2 after] end.
  by apply Forall_app.
Qed.

Lemma on_nalus_ok tr ns : forall w, Forall unit_ok (on_nalus tr w ns).2.
Proof.
  induction ns as [|n ns IH]; intros w; cbn [on_nalus]; [constructor|].
  pose proof (on_nalu_ok tr n w) as H. destruct (on_nalu tr n w) as [w1 o1]. specialize (IH w1).
  destruct (on_nalus tr w1 ns) as [w2 o2]. by apply Forall_app.
Qed.

Lemma on_nalus_snoc tr ns n w :
  on_nalus tr w (ns ++ [n]) =
  let '(w1, o1) := on_nalus tr w ns in let '(w2, o2) := on_nalu tr n w1 in (w2, o1 ++ o2).
Proof.
  rewrite on_nalus_app. destruct (on_nalus tr w ns) as [w1 o1]. cbn [on_nalus].
  destruct (on_nalu tr n w1) as [w2 o2]. by rewrite app_nil_r.
Qed.

Section schedules.
Context {t : H264Track} {gives : list Nalu -> bool -> RtspClient.Impl -> Prop} `{!NaluSource t gives}.
Context (all : list Nalu).

Definition units : list (list byte * Z) := (on_nalus t new_worker all).2.

(** The queue kept up: no unit was dropped. *)
Definition keeps_up (e : Event) (s : Impl) : bool :=
  match e, outbox s with
  | Publish _, PostUnit _ :: _ => (length (ready (queue s)) <? kMaxReadyQueue)%nat
  | _, _ => true
  end.

Fixpoint kept_up (es : list Event) (s : Impl) : bool :=
  match es with [] => true | e :: es => keeps_up e s && kept_up es (step e s).2 end.

Definition in_hand (ph : Phase) : list Nalu := match ph with Has (Done n) => [n] | _ => [] end.

(** What has been got and what is ready, against what was published. *)
Definition arrives (kept : bool) (l pubs : list (list byte * Z)) : Prop := if kept then l = pubs else l `sublist_of` pubs.

(** The state after a schedule: [gs] has been got, [read] NAL units have been
    read, and [pubs] published. *)
Record reached (kept : bool) (gs : list (list byte * Z)) (read left : list Nalu) (pubs m : list (list byte * Z)) (s : Impl)
    : Prop := {
  re_arrives : arrives kept (gs ++ (sample_unit <$> ready (queue s))) pubs;
  re_posts : pubs ++ (post_unit <$> outbox s) = (on_nalus t new_worker read).2 ++ m;
  re_worker : worker s = (on_nalus t new_worker read).1;
  re_all : all = read ++ in_hand (phase s) ++ left;
  re_marker : m = [] \/ (m = [eos_unit] /\ phase s = Finished);
  re_outbox : (exists us, outbox s = PostUnit <$> us) \/ (phase s = Finished /\ outbox s = [PostMarker kEos]);
  re_phase : match phase s with
             | AtLoop => gives left (stop_flag s) (client s)
             | Has (Done n) => outbox s = [] /\ gives left (stop_flag s) (client s)
             | Has Eos => outbox s = [] /\ (stop_flag s = true \/ left = [])
             | Has Fault => outbox s = [] /\ stop_flag s = true
             | Finished => stop_flag s = true \/ (left = [] /\ m = [eos_unit])
             end;
  re_bound : (length (ready (queue s)) <= kMaxReadyQueue)%nat \/
             (phase s = Finished /\ outbox s = [] /\ (length (ready (queue s)) <= S kMaxReadyQueue)%nat)
}.

Lemma arrives_ready kept gs read left pubs m s :
  reached kept gs read left pubs m s -> Forall item_ok (sample_unit <$> ready (queue s)).
Proof.
  intros H. assert (Hp : Forall item_ok pubs).
  { pose proof (re_posts _ _ _ _ _ _ _ H) as E. assert (Hall : Forall item_ok (pubs ++ (post_unit <$> outbox s))).
    { rewrite E. apply Forall_app. split.
      - eapply Forall_impl; [apply on_nalus_ok|]. intros u Hu. by left.
      - destruct (re_marker _ _ _ _ _ _ _ H) as [->|[-> _]]; [constructor|]. constructor; [by right | constructor]. }
    by apply Forall_app in Hall as [Hall _]. }
  pose proof (re_arrives _ _ _ _ _ _ _ H) as Ha. unfold arrives in Ha.
  assert (Hs : (gs ++ (sample_unit <$> ready (queue s))) `sublist_of` pubs) by (destruct kept; [by rewrite Ha | done]).
  apply Forall_forall. intros u Hu. rewrite Forall_forall in Hp. apply Hp.
  eapply elem_of_sublist; [|exact Hs]. apply elem_of_app. by right.
Qed.

Lemma try_pull_item now q :
  Forall item_ok (sample_unit <$> ready q) ->
  let '(r, q') := try_pull now q in got r ++ (sample_unit <$> ready q') = sample_unit <$> ready q /\
    (length (ready q') <= length (ready q))%nat.
Proof.
  intros H. unfold try_pull. destruct (ready q) as [|x rest] eqn:E.
  - destruct (stalled q); [by rewrite E|].
    destruct (stall_ms q <=? Z.quot (now - last_progress q) 1000000); cbn [set_stalled ready got]; by rewrite E.
  - cbn [fmap list_fmap] in H. apply Forall_cons in H as [Hx _].
    assert (Hx' : (flags x = 0 \/ flags x = kFlagSync) \/ (bytes x = [] /\ flags x = kEos)).
    { destruct Hx as [Hx|Hx]; [by left | right]. by injection Hx as -> ->. }
    destruct Hx' as [[Hf|Hf]|[Hb Hf]]; rewrite Hf; cbn [take_ready ready got length fmap list_fmap];
      unfold sample_unit at 2; rewrite ?Hb, Hf; (split; [done | cbn; lia]).
Qed.

Lemma arrives_app_r kept l pubs u : arrives kept l pubs -> arrives kept (l ++ [u]) (pubs ++ [u]).
Proof. unfold arrives. destruct kept; [by intros -> | intros H; by apply sublist_app]. Qed.

Lemma arrives_weaken kept b l pubs : arrives kept l pubs -> arrives (kept && b) l pubs.
Proof. unfold arrives. destruct kept, b; cbn [andb]; try done. intros ->. reflexivity. Qed.

Lemma read_reached kept gs read left pubs m s :
  reached kept gs read left pubs m s -> exists left', reached kept gs read left' pubs m (read_step s).
Proof.
  intros H. unfold read_step. destruct (phase s) as [|r|] eqn:Ep; [|by exists left..].
  destruct (outbox s) as [|p ps] eqn:Eo; [|by exists left].
  destruct H as [H1 H2 H3 H4 H5 H6 H7 H8]. rewrite Ep in *. rewrite Eo in *.
  destruct (stop_flag s) eqn:Es.
  { exists left. split; cbn [with_phase queue outbox worker phase client stop_flag]; rewrite ?Eo; try done.
    - destruct H5 as [->|[_ ?]]; [by left | done].
    - left. by exists [].
    - by left.
    - left. destruct H8 as [?|(? & _)]; done. }
  assert (H5' : m = []) by (destruct H5 as [->|[_ ?]]; done). subst m.
  destruct (source_reads left (client s) H7) as (r & c' & E & Hr). rewrite E.
  exists (match left with [] => [] | _ :: l => l end).
  assert (Hb : (length (ready (queue s)) <= kMaxReadyQueue)%nat) by (destruct H8 as [?|(? & _)]; done).
  destruct left as [|n left]; [subst r | destruct Hr as [-> Hr]];
    split; cbn [queue outbox worker phase client stop_flag in_hand]; try done; try (by left); try (by left; exists []).
  split; [done | by right].
Qed.

Lemma react_reached kept gs read left pubs m s :
  reached kept gs read left pubs m s -> exists read' m', reached kept gs read' left pubs m' (react_step s).
Proof.
  intros H. unfold react_step. destruct (phase s) as [|r|] eqn:Ep; [by exists read, m | |by exists read, m].
  destruct H as [H1 H2 H3 H4 H5 H6 H7 H8]. rewrite Ep in *.
  assert (H5' : m = []) by (destruct H5 as [->|[_ ?]]; done). subst m. rewrite app_nil_r in H2.
  assert (Hb : (length (ready (queue s)) <= kMaxReadyQueue)%nat) by (destruct H8 as [?|(? & _)]; done).
  destruct r as [n| |].
  - destruct H7 as [Ho Hg]. rewrite Ho in *. cbn [fmap list_fmap] in H2. rewrite app_nil_r in H2.
    rewrite (source_track left _ _ Hg). pose proof (on_nalus_snoc t read n new_worker) as Hsn.
    destruct (on_nalus t new_worker read) as [w1 o1] eqn:E1. cbn [fst snd] in H2, H3. subst pubs. rewrite H3.
    destruct (on_nalu t n w1) as [w2 o2] eqn:E2.
    exists (read ++ [n]), []. split; cbn [queue outbox worker phase client stop_flag in_hand]; rewrite ?Hsn; try done.
    + cbn [snd]. rewrite app_nil_r. f_equal. rewrite <- list_fmap_compose. apply list_fmap_id.
    + cbn [in_hand app] in *. by rewrite <- app_assoc.
    + by left.
    + left. by eexists.
    + by left.
  - destruct H7 as [Ho Hl]. rewrite Ho in *. exists read, [eos_unit]. cbn [fmap list_fmap] in H2. rewrite app_nil_r in H2.
    split; cbn [queue outbox worker phase client stop_flag in_hand]; try done.
    + by rewrite H2.
    + by right.
    + by right.
    + destruct Hl as [?|?]; [by left | by right].
    + by left.
  - destruct H7 as [Ho Hl]. rewrite Ho, Hl in *. exists read, [eos_unit]. cbn [fmap list_fmap] in H2. rewrite app_nil_r in H2.
    split; cbn [queue outbox worker phase client stop_flag in_hand]; try done.
    + by rewrite H2.
    + by right.
    + by right.
    + by left.
    + by left.
Qed.

Lemma drop_room (l : list Sample) : (length (drop (S (length l) - kMaxReadyQueue) l) < kMaxReadyQueue)%nat.
Proof. rewrite length_drop. unfold kMaxReadyQueue. lia. Qed.

Lemma publish_reached now kept gs read left pubs m s :
  reached kept gs read left pubs m s ->
  exists pubs', reached (kept && keeps_up (Publish now) s) gs read left pubs' m (publish_step now s).
Proof.
  intros [H1 H2 H3 H4 H5 H6 H7 H8]. unfold publish_step, keeps_up. destruct (outbox s) as [|p ps] eqn:Eo.
  { exists pubs. rewrite andb_true_r. split; try done; by rewrite ?Eo. }
  assert (Hb : (length (ready (queue s)) <= kMaxReadyQueue)%nat) by (destruct H8 as [?|(_ & ? & _)]; done).
  exists (pubs ++ [post_unit p]).
  destruct H6 as [[us Hus]|[Hfin Hm]].
  - destruct us as [|u us]; [done|]. injection Hus as -> ->.
    split; cbn [queue outbox worker phase client stop_flag]; try done.
    + cbn [push ready post_unit]. rewrite fmap_app. cbn [fmap list_fmap].
      unfold sample_unit at 2. cbn [bytes flags]. rewrite <- surjective_pairing, (app_assoc gs).
      apply arrives_app_r. set (n := (S (length (ready (queue s))) - kMaxReadyQueue)%nat).
      destruct (Nat.ltb_spec (length (ready (queue s))) kMaxReadyQueue).
      * rewrite andb_true_r. assert (n = 0%nat) as -> by (subst n; lia). exact H1.
      * rewrite andb_false_r. unfold arrives in *. etrans; [apply sublist_app; [reflexivity|]; rewrite fmap_drop; apply sublist_drop|].
        destruct kept; [by rewrite H1 | exact H1].
    + rewrite <- app_assoc. exact H2.
    + left. by eexists.
    + destruct (phase s) as [|[n| |]|]; try done; by destruct H7 as [? _].
    + left. cbn [push ready]. rewrite length_app. cbn [length]. pose proof (drop_room (ready (queue s))). lia.
  - injection Hm as -> ->. rewrite Hfin in *.
    split; cbn [queue outbox worker phase client stop_flag]; rewrite ?Hfin; try done.
    + cbn [push_marker ready post_unit]. rewrite fmap_app, andb_true_r. cbn [fmap list_fmap].
      rewrite (app_assoc gs). by apply arrives_app_r.
    + rewrite <- app_assoc. exact H2.
    + left. by exists [].
    + right. cbn [push_marker ready]. rewrite length_app. cbn [length]. split_and!; [done | done | lia].
Qed.

Lemma poll_reached now kept gs read left pubs m s :
  reached kept gs read left pubs m s ->
  let '(r, q) := try_pull now (queue s) in reached kept (gs ++ got r) read left pubs m (with_queue q s).
Proof.
  intros H. pose proof (try_pull_item now (queue s) (arrives_ready _ _ _ _ _ _ _ H)) as Hp.
  destruct (try_pull now (queue s)) as [r q]. destruct Hp as [Hg Hl]. destruct H as [H1 H2 H3 H4 H5 H6 H7 H8].
  split; cbn [with_queue queue outbox worker phase client stop_flag]; try done.
  - rewrite <- app_assoc, Hg. exact H1.
  - destruct H8 as [?|(? & ? & ?)]; [left; lia | right; split_and!; [done | done | lia]].
Qed.

Lemma stop_reached kept gs read left pubs m s :
  reached kept gs read left pubs m s -> reached kept gs read left pubs m (stop_step s).
Proof.
  intros H. unfold stop_step. destruct (stop_flag s) eqn:Es; [done|].
  destruct H as [H1 H2 H3 H4 H5 H6 H7 H8]. rewrite Es in H7. split; cbn [queue outbox worker phase client stop_flag]; try done.
  destruct (phase s) as [|[n| |]|].
  - by apply (source_cancel left false).
  - destruct H7 as [? H7]. split; [done|]. by apply (source_cancel left false).
  - destruct H7 as [? _]. split; [done | by left].
  - by destruct H7.
  - by left.
Qed.

Lemma got_all_app rs rs' : got_all (rs ++ rs') = got_all rs ++ got_all rs'.
Proof. unfold got_all. by rewrite fmap_app, concat_app. Qed.

Lemma step_reached e kept gs read left pubs m s :
  reached kept gs read left pubs m s ->
  exists read' left' pubs' m', let '(rs, s') := step e s in
    reached (kept && keeps_up e s) (gs ++ got_all rs) read' left' pubs' m' s'.
Proof.
  intros H. destruct e as [| |now|now|]; cbn [step]; change (got_all []) with (@nil (list byte * Z)); rewrite ?app_nil_r;
    try (assert (keeps_up Read s = true) as -> by done); try (assert (keeps_up React s = true) as -> by done);
    try (assert (keeps_up (Poll now) s = true) as -> by done); try (assert (keeps_up Stop s = true) as -> by done);
    rewrite ?andb_true_r.
  - destruct (read_reached _ _ _ _ _ _ _ H) as (left' & H'). by exists read, left', pubs, m.
  - destruct (react_reached _ _ _ _ _ _ _ H) as (read' & m' & H'). by exists read', left, pubs, m'.
  - destruct (publish_reached now _ _ _ _ _ _ _ H) as (pubs' & H'). by exists read, left, pubs', m.
  - pose proof (poll_reached now _ _ _ _ _ _ _ H) as H'. destruct (try_pull now (queue s)) as [r q].
    exists read, left, pubs, m. unfold got_all. cbn [fmap list_fmap concat]. by rewrite app_nil_r.
  - exists read, left, pubs, m. by apply stop_reached.
Qed.

Lemma run_reached es : forall kept gs read left pubs m s,
  reached kept gs read left pubs m s ->
  exists read' left' pubs' m', let '(rs, s') := run es s in
    reached (kept && kept_up es s) (gs ++ got_all rs) read' left' pubs' m' s'.
Proof.
  induction es as [|e es IH]; intros kept gs read left pubs m s H; cbn [run kept_up].
  - exists read, left, pubs, m. change (got_all []) with (@nil (list byte * Z)). by rewrite app_nil_r, andb_true_r.
  - destruct (step_reached e _ _ _ _ _ _ _ H) as (r1 & l1 & p1 & m1 & H1). destruct (step e s) as [rs s1].
    destruct (IH _ _ _ _ _ _ _ H1) as (r2 & l2 & p2 & m2 & H2). exists r2, l2, p2, m2. cbn [snd].
    destruct (run es s1) as [rs' s2]. rewrite got_all_app, app_assoc, andb_assoc. exact H2.
Qed.

(** The state [start] leaves. *)
Definition begins (s : Impl) : Prop :=
  gives all false (client s) /\ stop_flag s = false /\ phase s = AtLoop /\ worker s = new_worker /\
  outbox s = [] /\ ready (queue s) = [].

Lemma begins_reached s : begins s -> reached true [] [] all [] [] s.
Proof.
  intros (Hg & Hs & Hp & Hw & Ho & Hr). split; rewrite ?Hs, ?Hp, ?Hw, ?Ho, ?Hr; try done; left; try done; [by exists []|].
  cbn. lia.
Qed.

Lemma on_nalus_prefix read left : (on_nalus t new_worker read).2 `prefix_of` (on_nalus t new_worker (read ++ left)).2.
Proof.
  rewrite on_nalus_app. destruct (on_nalus t new_worker read) as [w1 o1]. destruct (on_nalus t w1 left) as [w2 o2].
  by exists o2.
Qed.

Lemma stop_flag_step e s : e <> Stop -> stop_flag (step e s).2 = stop_flag s.
Proof.
  intros He. destruct e as [| |now|now|]; cbn [step snd]; [| | | |done].
  - unfold read_step. destruct (phase s); [|done..]. destruct (outbox s); [|done].
    destruct (stop_flag s) eqn:E; [done|]. by destruct (read_nalu (client s)).
  - unfold react_step. destruct (phase s) as [|[n| |]|]; try done. by destruct (on_nalu _ n (worker s)).
  - unfold publish_step. by destruct (outbox s).
  - by destruct (try_pull now (queue s)).
Qed.

Lemma stop_flag_run es : forall s, Forall (fun e => e <> Stop) es -> stop_flag (run es s).2 = stop_flag s.
Proof.
  induction es as [|e es IH]; intros s H; [done|]. apply Forall_cons in H as [He H]. cbn [run].
  pose proof (stop_flag_step e s He) as E. destruct (step e s) as [rs s1]. cbn [snd] in E. specialize (IH s1 H).
  destruct (run es s1) as [rs' s2]. cbn [snd] in *. by rewrite IH.
Qed.

(** What every schedule gives: the pictures in order, some perhaps left out,
    and the end of the stream behind them; everything if the caller keeps up
    and does not stop; never more than eight samples and the end ready. *)
Lemma schedule_correct es s :
  begins s ->
  let '(rs, s') := run es s in
  got_all rs `sublist_of` units ++ [eos_unit] /\
  (length (ready (queue s')) <= S kMaxReadyQueue)%nat /\
  (kept_up es s = true -> Forall (fun e => e <> Stop) es ->
   phase s' = Finished -> outbox s' = [] -> ready (queue s') = [] -> got_all rs = units ++ [eos_unit]).
Proof.
  intros Hb. destruct (run_reached es _ _ _ _ _ _ s (begins_reached s Hb)) as (read & left & pubs & m & H).
  pose proof (stop_flag_run es s) as Hflag. destruct (run es s) as [rs s']. cbn [snd app andb] in *.
  pose proof H as [H1 H2 H3 H4 H5 H6 H7 H8].
  assert (Hu : (on_nalus t new_worker read).2 `prefix_of` units) by (unfold units; rewrite H4; apply on_nalus_prefix).
  split_and!.
  - assert (Hs : got_all rs `sublist_of` pubs).
    { unfold arrives in H1. etrans; [|destruct (kept_up es s); [rewrite <- H1; reflexivity | exact H1]].
      apply sublist_inserts_r. reflexivity. }
    etrans; [exact Hs|]. etrans; [apply (sublist_inserts_r (post_unit <$> outbox s')); reflexivity|].
    rewrite H2. destruct Hu as [rest ->]. rewrite <- app_assoc. apply sublist_app; [reflexivity|].
    destruct H5 as [->|[-> _]]; [apply sublist_nil_l | apply sublist_inserts_l; reflexivity].
  - destruct H8 as [?|(_ & _ & ?)]; lia.
  - intros Hk Hn Hp Ho Hr. rewrite Hk in H1. unfold arrives in H1. rewrite Hr in H1. cbn [fmap list_fmap] in H1.
    rewrite app_nil_r in H1. rewrite H1, Ho in *. cbn [fmap list_fmap] in H2. rewrite app_nil_r in H2. subst pubs.
    destruct Hb as (_ & Hs & _). rewrite Hp in H7. destruct H7 as [H7|[-> ->]].
    { rewrite Hflag, Hs in H7 by done. done. }
    rewrite Hp in H4. cbn [in_hand app] in H4. rewrite app_nil_r in H4. unfold units. by rewrite H4.
Qed.

(** ** A caller that polls often enough gets everything *)

(** One turn of the worker; what it flushes, at most two samples, is taken at
    once. *)
Definition round (ts : Z * Z * Z * Z) : list Event :=
  let '(a, b, c, d) := ts in [Read; React; Publish a; Poll b; Publish c; Poll d].

Lemma on_nalu_two tr n w : (length (on_nalu tr n w).2 <= 2)%nat.
Proof.
  assert (Hf : forall w, (length (flush_au w).2 <= 1)%nat) by (intros w0; unfold flush_au; case_match; cbn; lia).
  unfold on_nalu. destruct (n_data n) as [|b r]; [cbn; lia|]. destruct (nal_is_sps b || nal_is_pps b); [cbn; lia|].
  assert (H : (length ((if au_open w && negb (rtp_ts_90khz n =? au_ts w)%Z then flush_au w else (w, [])).2) <= 1)%nat).
  { destruct (au_open w && negb (rtp_ts_90khz n =? au_ts w)); [apply Hf | cbn; lia]. }
  destruct (if au_open w && negb (rtp_ts_90khz n =? au_ts w) then flush_au w else (w, [])) as [w1 before].
  destruct (au_end n); cbn [snd] in *; [|lia].
  match goal with |- context [flush_au ?x] => pose proof (Hf x) as H2; destruct (flush_au x) as [w2 after] end.
  cbn [snd] in *. rewrite length_app. lia.
Qed.

(** All but the queue and the outbox. *)
Definition same_worker (s s' : Impl) : Prop :=
  client s' = client s /\ stop_flag s' = stop_flag s /\ phase s' = phase s /\ worker s' = worker s.

Lemma publish_polled a b s :
  ready (queue s) = [] ->
  let s' := (run [Publish a; Poll b] s).2 in
  kept_up [Publish a; Poll b] s = true /\ same_worker s s' /\ outbox s' = tail (outbox s) /\ ready (queue s') = [].
Proof.
  intros Hr. cbn [run step kept_up keeps_up snd]. unfold publish_step. destruct (outbox s) as [|p ps] eqn:Eo.
  - unfold try_pull. rewrite Hr. destruct (stalled (queue s)); [cbn; by rewrite Eo, Hr|].
    destruct (stall_ms (queue s) <=? Z.quot (b - last_progress (queue s)) 1000000); cbn; by rewrite Eo, Hr.
  - rewrite Hr. destruct p as [u|f]; unfold try_pull; cbn [queue push push_marker ready]; rewrite Hr, ?drop_nil; cbn [app];
      repeat case_match; simplify_eq; done.
Qed.

Lemma run_app es es' s :
  run (es ++ es') s = let '(rs, s1) := run es s in let '(rs', s2) := run es' s1 in (rs ++ rs', s2).
Proof.
  revert s. induction es as [|e es IH]; intros s; cbn [app run]; [by destruct (run es' s)|].
  destruct (step e s) as [rs s1]. rewrite IH. destruct (run es s1) as [rs1 s2]. destruct (run es' s2) as [rs2 s3].
  by rewrite app_assoc.
Qed.

Lemma kept_up_app es es' s : kept_up (es ++ es') s = kept_up es s && kept_up es' (run es s).2.
Proof.
  revert s. induction es as [|e es IH]; intros s; cbn [app run kept_up]; [done|].
  rewrite IH, andb_assoc. destruct (step e s) as [rs s1]. cbn [snd]. by destruct (run es s1).
Qed.

Definition ready_to_read (left : list Nalu) (s : Impl) : Prop :=
  gives left false (client s) /\ stop_flag s = false /\ phase s = AtLoop /\ outbox s = [] /\ ready (queue s) = [].

Definition drained (s : Impl) : Prop := phase s = Finished /\ outbox s = [] /\ ready (queue s) = [].

Lemma round_reads left ts s :
  ready_to_read left s ->
  kept_up (round ts) s = true /\
  let s' := (run (round ts) s).2 in
  match left with [] => drained s' | _ :: left' => ready_to_read left' s' end.
Proof.
  intros (Hg & Hs & Hp & Ho & Hr). destruct ts as [[[a b] c] d].
  change (round (a, b, c, d)) with ([Read; React] ++ [Publish a; Poll b] ++ [Publish c; Poll d]).
  rewrite !kept_up_app, !run_app.
  assert (H2 : exists s2, run [Read; React] s = ([], s2) /\ kept_up [Read; React] s = true /\
    (length (outbox s2) <= 2)%nat /\ ready (queue s2) = [] /\
    match left with [] => phase s2 = Finished | _ :: left' => phase s2 = AtLoop /\ stop_flag s2 = false /\ gives left' false (client s2) end).
  { cbn [run step kept_up keeps_up]. unfold read_step. rewrite Hp, Ho, Hs.
    destruct (source_reads left (client s) Hg) as (r & c' & E & Hl). rewrite E. unfold react_step. cbn [phase].
    destruct left as [|n left].
    - subst r. eexists. split; [reflexivity|]. cbn [outbox queue phase length]. split_and!; [done | lia | done | done].
    - destruct Hl as [-> Hl]. cbn [worker client queue].
      pose proof (on_nalu_two (track (media c')) n (worker s)) as H2.
      destruct (on_nalu (track (media c')) n (worker s)) as [w' us]. eexists. split; [reflexivity|].
      cbn [outbox queue phase snd client stop_flag] in *. rewrite length_fmap. done. }
  destruct H2 as (s2 & E2 & K2 & Hlen & Hr2 & Hcase). rewrite E2, K2. cbn [snd andb]. rewrite (run_app [Publish a; Poll b]).
  destruct (publish_polled a b s2 Hr2) as (K3 & (S31 & S32 & S33 & S34) & Ho3 & Hr3). rewrite K3.
  destruct (run [Publish a; Poll b] s2) as [rs3 s3]. cbn [snd andb] in *.
  destruct (publish_polled c d s3 Hr3) as (K4 & (S41 & S42 & S43 & S44) & Ho4 & Hr4). rewrite K4.
  destruct (run [Publish c; Poll d] s3) as [rs4 s4]. cbn [snd] in *. split; [done|].
  assert (Hnone : outbox s4 = []).
  { rewrite Ho4, Ho3. destruct (outbox s2) as [|x [|y [|z l]]]; try done. cbn [length] in Hlen. lia. }
  destruct left as [|n left].
  - split_and!; [by rewrite S43, S33 | done | done].
  - destruct Hcase as (H1 & H2 & H3). split_and!; [by rewrite S41, S31 | by rewrite S42, S32 | by rewrite S43, S33 | done | done].
Qed.

Lemma rounds_read left : forall ts s, ready_to_read left s -> length ts = S (length left) ->
  kept_up (concat (round <$> ts)) s = true /\ drained (run (concat (round <$> ts)) s).2.
Proof.
  induction left as [|n left IH]; intros ts s Hs Hl; (destruct ts as [|x ts]; [done|]); cbn [fmap list_fmap concat length] in *;
    destruct (round_reads _ x s Hs) as [K H]; rewrite kept_up_app, K, run_app; destruct (run (round x) s) as [rs s1]; cbn [snd andb] in *.
  - destruct ts as [|? ?]; [|done]. done.
  - destruct (IH ts s1 H) as [K2 H2]; [lia|]. rewrite K2. by destruct (run (concat (round <$> ts)) s1).
Qed.

Lemma round_no_stop ts : Forall (fun e => e <> Stop) (concat (round <$> ts)).
Proof. apply Forall_concat, Forall_fmap, Forall_true. intros [[[a b] c] d]. by repeat constructor. Qed.

Lemma eager_gets_all ts s :
  begins s -> length ts = S (length all) ->
  drained (run (concat (round <$> ts)) s).2 /\ got_all (run (concat (round <$> ts)) s).1 = units ++ [eos_unit].
Proof.
  intros Hb Hl. pose proof Hb as (Hg & Hs & Hp & Hw & Ho & Hr).
  destruct (rounds_read all ts s) as [K (Hp' & Ho' & Hr')]; [by split_and! | done |].
  pose proof (schedule_correct (concat (round <$> ts)) s Hb) as H.
  destruct (run (concat (round <$> ts)) s) as [rs s']. cbn [fst snd] in *. destruct H as (_ & _ & H).
  split; [by split_and!|]. apply H; try done. apply round_no_stop.
Qed.
End schedules.

(** ** The RTSP client is a source *)

(** After [cancel]: what is queued can still be read. *)
Record gone (t : H264Track) (left : list Nalu) (c : RtspClient.Impl) : Prop := {
  gone_track : track (media c) = t;
  gone_queue : nalu_queue (demux (media c)) `prefix_of` left;
  gone_conn : exists now, incoming (conn c) = [(now, Broken)];
  gone_down : socket_down (ctl c) = true
}.

Section rtsp_source.
Context (limit : Z) (tl : list byte) (fin : option Chunk) (t : H264Track).

Definition rtsp_gives (left : list Nalu) (cancelled : bool) (c : RtspClient.Impl) : Prop :=
  if cancelled then gone t left c
  else exists xs d k, 0 < limit <= 1000 * data_timeout_ms k /\ RtspClient.stop_flag k = false /\
    Forall incoming_ok xs /\ stream_end tl fin /\
    playing limit (concat (incoming_bytes <$> xs) ++ tl) fin t d k c /\ to_come (rtp_pt t) d xs = left.

Lemma queue_to_come pt d xs : nalu_queue d `prefix_of` to_come pt d xs.
Proof.
  unfold to_come. set (d0 := {| nalu_queue := []; fu_buf := fu_buf d; fu_ts := fu_ts d; fu_au_end := fu_au_end d |}).
  assert (E : d = queued (nalu_queue d) d0) by (destruct d; unfold queued; cbn; by rewrite app_nil_r).
  rewrite E at 2. rewrite decode_all_queued. by eexists.
Qed.

Lemma broken_read n ms c : (exists now, incoming c = [(now, Broken)]) -> (read_some_timeout n ms c).1 = Fault.
Proof.
  intros [now E]. unfold read_some_timeout. rewrite E. cbn [read_from].
  by destruct (clock c + 1000 * ms <=? Z.max (clock c) now).
Qed.

Lemma gone_pull c : (exists now, incoming (conn c) = [(now, Broken)]) -> exists c', pull_one_message c = (Fault, c').
Proof.
  intros H. unfold pull_one_message. erewrite (bind_done (gets _)) by reflexivity.
  assert (E : exists c', read_full 1 (data_timeout_ms (ctl c)) c = (Fault, c')).
  { unfold read_full, on_conn, ssl_read_full_timeout. cbn [full_loop].
    pose proof (broken_read 1 (data_timeout_ms (ctl c)) (conn c) H) as Hr.
    destruct (read_some_timeout 1 (data_timeout_ms (ctl c)) (conn c)) as [r c1] eqn:E1. cbn [fst] in Hr. subst r.
    rewrite (bind_fault _ _ _ _ E1). by eexists. }
  destruct E as (c' & E). rewrite (bind_fault _ _ _ _ E). by eexists.
Qed.

Lemma gone_report c : socket_down (ctl c) = true -> exists c', maybe_send_rtcp c = (Done tt, c') /\ conn c' = conn c.
Proof.
  intros Hd. unfold maybe_send_rtcp. destruct (clock (conn c) <? next_rtcp_due (media c)); [by exists c|].
  unfold send_rtcp_receiver_report, gets, mbind, call_bind. cbn [set_media ctl]. rewrite Hd. by eexists.
Qed.

Lemma gone_reads left c :
  gone t left c ->
  exists r c', read_nalu c = (r, c') /\ (r = Fault \/ exists n left', left = n :: left' /\ r = Done n /\ gone t left' c').
Proof.
  intros [Ht [rest Hq] [now Hc] Hd]. unfold read_nalu. erewrite (bind_done (gets _)) by reflexivity.
  unfold stream_fuel. rewrite Hc. cbn [stream length read_nalu_loop]. erewrite (bind_done (gets _)) by reflexivity. cbv beta.
  destruct (nalu_queue (demux (media c))) as [|n q] eqn:Eq.
  - erewrite (bind_done (gets _)) by reflexivity. cbv beta.
    destruct (RtspClient.stop_flag (ctl c) || negb (ssl_open (ctl c))); [eexists Fault, c; split; [done | by left]|].
    destruct (gone_report c Hd) as (c1 & E1 & Hc1). rewrite (bind_done _ _ _ _ _ E1).
    destruct (gone_pull c1) as (c2 & E2); [exists now; by rewrite Hc1|]. rewrite (bind_fault _ _ _ _ E2).
    eexists Fault, c2. split; [done | by left].
  - eexists (Done n), _. split; [erewrite (bind_done (modify _)) by reflexivity; reflexivity|]. right.
    exists n, (q ++ rest). split_and!; [done | done|]. split; [done | by eexists | by exists now | done].
Qed.

#[export] Instance rtsp_source : NaluSource t rtsp_gives.
Proof.
  split.
  - intros left c (xs & d & k & Hl & Hk & Hxs & Hend & Hs & <-).
    destruct (read_nalu_at limit tl fin t k xs d c Hl Hk Hxs Hend Hs) as [[-> E]|(n & c' & d' & xs' & E & Hxs' & Hs' & ->)].
    + destruct (read_nalu c) as [r c'] eqn:Er. exists r, c'. by split.
    + exists (Done n), c'. split; [done|]. split; [done|]. by exists xs', d', k.
  - intros left c H. by apply gone_reads.
  - intros left b c H. split; cbn [cancel set_conn set_ctl media conn ctl shut incoming socket_down set_flags].
    + destruct b; [by destruct H | by destruct H as (? & ? & ? & _ & _ & _ & _ & [_ _ ? _ _] & _)].
    + destruct b; [by destruct H|]. destruct H as (xs & d & k & _ & _ & _ & _ & [_ _ _ Hd _] & <-). rewrite Hd. apply queue_to_come.
    + by eexists.
    + done.
  - intros left b c H. destruct b; [by destruct H | by destruct H as (? & ? & ? & _ & _ & _ & _ & [_ _ ? _ _] & _)].
Qed.
End rtsp_source.

(** The watchdog. *)
Fixpoint polls (ts : list Z) (q : Queue) : Queue := match ts with [] => q | now :: ts => polls ts (try_pull now q).2 end.

Lemma try_pull_progress now q :
  let q' := (try_pull now q).2 in
  last_progress q' = last_progress q /\ stall_ms q' = stall_ms q /\ ready q' = tail (ready q).
Proof.
  unfold try_pull. destruct (ready q) as [|x rest] eqn:E.
  - destruct (stalled q); [|destruct (stall_ms q <=? Z.quot (now - last_progress q) 1000000)]; cbn [snd set_stalled ready last_progress stall_ms]; by rewrite ?E.
  - destruct (negb (Z.land (flags x) kEos =? 0)); [done|]. by destruct (negb (Z.land (flags x) kErr =? 0)).
Qed.

Lemma polls_progress ts : forall q,
  last_progress (polls ts q) = last_progress q /\ stall_ms (polls ts q) = stall_ms q /\
  ready (polls ts q) = drop (length ts) (ready q).
Proof.
  induction ts as [|now ts IH]; intros q; [done|]. cbn [polls length]. destruct (IH (try_pull now q).2) as (-> & -> & ->).
  destruct (try_pull_progress now q) as (-> & -> & ->). split_and!; [done | done|]. destruct (ready q); [cbn [tail]; by rewrite !drop_nil | done].
Qed.

(** A dead stream is reported: once the stall time has passed since the last
    sample (or the start), and the caller has taken what is ready, [try_pull]
    answers with an error, and goes on doing so until there is a sample again;
    so "would block" is never the answer forever. *)
Lemma stall_reported (q : Queue) (ts : list Z) (now : Z) (later : list Z) (again : Z) :
  stall_ms q <= Z.quot (now - last_progress q) 1000000 -> (length (ready q) <= length ts)%nat ->
  let '(r, q') := try_pull now (polls ts q) in
  r = Pull_Error /\ (try_pull again (polls later q')).1 = Pull_Error.
Proof.
  intros Hst Hr. destruct (polls_progress ts q) as (Hp & Hm & Hready). rewrite drop_ge in Hready by done.
  assert (Hstay : forall later q, ready q = [] -> stalled q = true -> polls later q = q).
  { induction later0 as [|x later0 IH]; intros q0 H1 H2; [done|]. cbn [polls]. unfold try_pull. rewrite H1, H2. by apply IH. }
  unfold try_pull at 1. rewrite Hready, Hp, Hm. destruct (stalled (polls ts q)) eqn:Es.
  - split; [done|]. rewrite Hstay by done. unfold try_pull. by rewrite Hready, Es.
  - destruct (Z.leb_spec (stall_ms q) (Z.quot (now - last_progress q) 1000000)); [|lia]. split; [done|].
    rewrite Hstay by done. unfold try_pull. cbn [set_stalled ready stalled]. by rewrite Hready.
Qed.

(** ** From the camera to the caller *)

(** An access unit as the worker sees it. *)
Definition timed (au : AccessUnit) : Timed := (au.1, concat (unit_nals <$> au.2), true).

Definition viewable (au : AccessUnit) : Prop := slices (timed au).1.2 <> [] /\ ends_whole (timed au).1.2 true = true.

Lemma nalus_of_timed au : nalus_of (timed au) = au_nalus au.
Proof.
  unfold nalus_of, timed, au_nalus. cbn [fst snd]. apply list_fmap_ext. intros _ [m n] _. by rewrite andb_true_r.
Qed.

Lemma units_of_stream tr aus :
  Forall viewable aus -> changing (aus.*1) ->
  (on_nalus tr new_worker (concat (au_nalus <$> aus))).2 = (fun au => picture tr (concat (unit_nals <$> au.2))) <$> aus.
Proof.
  intros Hv Hc. pose proof (aus_run tr (timed <$> aus) new_worker) as H.
  assert (E : concat (nalus_of <$> (timed <$> aus)) = concat (au_nalus <$> aus)).
  { f_equal. rewrite <- list_fmap_compose. apply list_fmap_ext. intros ? au _. apply nalus_of_timed. }
  rewrite E in H. destruct (on_nalus tr new_worker (concat (au_nalus <$> aus))) as [w us]. cbn [snd].
  destruct H as [H1 H2].
  - apply Forall_fmap. eapply Forall_impl; [exact Hv|]. by intros au [? _].
  - replace ((timed <$> aus).*1.*1) with (aus.*1); [done|]. rewrite <- !list_fmap_compose. by apply list_fmap_ext.
  - destruct aus; [done|]. by left; split_and!.
  - assert (Hi : idle w).
    { apply H2. rewrite fmap_last. destruct (last aus) as [au|] eqn:El; [|by split_and!]. cbn.
      apply last_Some in El as [l ->]. apply Forall_app in Hv as [_ [[_ He] _]%Forall_cons]. exact He. }
    destruct Hi as (_ & Ho & _). unfold open_unit at 1 in H1. rewrite Ho, app_nil_r in H1. cbn [open_unit au_open new_worker app] in H1.
    rewrite H1, <- list_fmap_compose. by apply list_fmap_ext.
Qed.

(** C3: The caller gets the camera's pictures: after [start] against a camera
    that streams access units, whatever the schedule of the two threads, the
    results of [try_pull] are the Annex-B pictures in order, some perhaps left
    out, with the end of the stream behind them, and at most eight samples and
    the end are ever ready; none is left out if the queue never overflows and
    nobody stops, and so if the caller polls after each turn of the worker, at
    whatever times. *)
Theorem pictures_delivered (md5 : list byte -> list byte) (limit : Z) (u : Url) (timeout : Z) (env stall_env : option cstr)
    (ssrc now now' : Z) (nonces : list cstr) (c0 c : Conn) (realm nonce : cstr) (qop : bool) (d : Camera) (sid : cstr)
    (srv : Server) (xs : list Incoming) (tl : list byte) (fin : option Chunk) (aus : list AccessUnit) :
  0 < limit <= 1000 * timeout -> 0 < limit <= 1000 * data_read_timeout env ->
  dials u d -> server_ok realm nonce qop d sid srv -> broadcast (cam_pt d) srv xs tl fin aus ->
  conn_at limit (serves srv ++ concat (incoming_bytes <$> xs) ++ tl) fin [] c ->
  Forall viewable aus -> changing (aus.*1) ->
  let pictures := (fun au => picture (camera_track d) (concat (unit_nals <$> au.2))) <$> aus in
  let '(ok, s) := pass_start md5 u timeout env stall_env (Some c) now' (new_pass (new_impl ssrc now nonces c0)) in
  ok = true /\ params s = (t_width (camera_track d), t_height (camera_track d), t_fps (camera_track d)) /\
  (forall es, let '(rs, s') := run es s in
     got_all rs `sublist_of` pictures ++ [eos_unit] /\ (length (ready (queue s')) <= 9)%nat /\
     (kept_up es s = true -> Forall (fun e => e <> Stop) es -> drained s' -> got_all rs = pictures ++ [eos_unit])) /\
  (forall ts, length ts = S (length (concat (au_nalus <$> aus))) ->
     got_all (run (concat (round <$> ts)) s).1 = pictures ++ [eos_unit]).
Proof.
  intros Hl Hl' Hd Hsrv Hbc Hc Hv Hch pictures.
  destruct (start_playing md5 limit u timeout env ssrc now nonces c0 c realm nonce qop d sid srv xs tl fin aus Hl Hd Hsrv Hbc Hc)
    as (c1 & d0 & k & E & Hs & Hk & Ht & Hto).
  unfold pass_start. cbn [new_pass client]. rewrite E. cbn [queue ready new_pass current].
  match goal with |- context [run _ ?x] => set (s := x) end.
  set (all := concat (au_nalus <$> aus)) in *.
  assert (Hg : rtsp_gives limit tl fin (camera_track d) all false c1).
  { exists xs, d0, k. destruct Hbc as [_ Hxs Hend _ _]. by rewrite Ht. }
  assert (Hb : begins (gives := rtsp_gives limit tl fin (camera_track d)) all s) by (by split_and!).
  assert (Hu : units (t := camera_track d) all = pictures) by (unfold units; by apply units_of_stream).
  split; [done|]. split; [unfold params; cbn; by rewrite (pl_track _ _ _ _ _ _ _ Hs)|]. split.
  - intros es. pose proof (schedule_correct (t := camera_track d) all es s Hb) as H. rewrite Hu in H.
    destruct (run es s) as [rs s']. destruct H as (H1 & H2 & H3). split_and!; [done | done|].
    intros Hku Hns (Hf1 & Hf2 & Hf3). by apply H3.
  - intros ts Hts. destruct (eager_gets_all (t := camera_track d) all ts s Hb Hts) as [_ H]. by rewrite Hu in H.
Qed.

(** In-band parameter sets are left out also when the session description has
    none: then a stream that carries them comes out without any. *)
Lemma inband_sets_lost :
  let tr := {| t_sps := []; t_pps := []; clock_rate := 90000; rtp_pt := 96; t_width := 0; t_height := 0; t_fps := 0 |} in
  (on_nalus tr new_worker (nalus_of (1, [str "gS"; str "hP"; str "eidr"], true))).2 = [(start_code (str "eidr"), kFlagSync)].
Proof. reflexivity. Qed.

(** ** Examples *)

Lemma samples_are_pictures_witness :
  let tr := {| t_sps := str "gS"; t_pps := str "hP"; clock_rate := 90000; rtp_pt := 96; t_width := 0; t_height := 0; t_fps := 0 |} in
  (on_nalus tr new_worker (concat (nalus_of <$> [(1, [str "gx"; str "eidr"; str "esec"], false); (2, [str "A"; str "Ab"], true)]))).2 =
  [(concat (start_code <$> [str "gS"; str "hP"; str "eidr"; str "gS"; str "hP"; str "esec"]), 1);
   (concat (start_code <$> [str "A"; str "Ab"]), 0)].
Proof.
  intros tr.
  pose proof (samples_are_pictures tr [(1, [str "gx"; str "eidr"; str "esec"], false); (2, [str "A"; str "Ab"], true)]) as H.
  destruct (on_nalus tr new_worker _) as [w us] eqn:E. cbn [snd]. destruct H as [_ H].
  - by repeat constructor.
  - by split.
  - rewrite H by reflexivity. vm_compute. reflexivity.
Defined.

Lemma stall_reported_witness :
  let q := {| ready := [no_sample]; last_progress := 5; stalled := false; stall_ms := 8000; t0 := 0; current := no_sample |} in
  (try_pull 20 q).1 = Pull_Ok [] 0 0 /\ (try_pull 30 (polls [20] q)).1 = Pull_WouldBlock /\
  let '(r, q') := try_pull 8000000005 (polls [20; 30] q) in r = Pull_Error /\ (try_pull 40 (polls [] q')).1 = Pull_Error.
Proof.
  intros q. split; [done|]. split; [done|].
  apply (stall_reported q [20; 30] 8000000005 [] 40); [by vm_compute | cbn; lia].
Defined.

Definition demo_pass : Impl :=
  (pass_start demo_md5 (demo_url true) 3000 None None (Some demo_conn) 5000000 (new_pass demo_impl)).2.

(** A caller that polls after each turn, and one that stops early. *)
Definition demo_rounds : list (Z * Z * Z * Z) := replicate 5 (6000000, 6100000, 6200000, 6300000).

Lemma pictures_delivered_witness :
  got_all (run (concat (round <$> demo_rounds)) demo_pass).1 =
    [(concat (start_code <$> [[zb 0x67; zb 1]; [zb 0x68; zb 2]; str "eabcde"]), 1); (start_code (str "Axyz"), 0); eos_unit] /\
  got_all (run [Read; React; Read; React; Stop; Read; React; Publish 7; Poll 8] demo_pass).1
    `sublist_of` ((fun au => picture (camera_track demo_camera) (concat (unit_nals <$> au.2))) <$> demo_aus) ++ [eos_unit].
Proof.
  pose proof (pictures_delivered demo_md5 2000000 (demo_url true) 3000 None None 5 800 5000000
    [str "aa"; str "bb"; str "cc"; str "dd"] demo_idle demo_conn (str "LIVE555") (str "c0ffee") true demo_camera
    (str "5EAD") demo_server demo_incoming (frame_bytes (zb 1, rtcp_bytes bye)) None demo_aus) as H.
  cbv zeta in H. unfold demo_pass, demo_impl.
  destruct (pass_start demo_md5 (demo_url true) 3000 None None (Some demo_conn) 5000000 _) as [ok s]. cbn [snd].
  destruct H as (_ & _ & H1 & H2).
  - lia.
  - done.
  - exact demo_dials.
  - exact demo_server_ok.
  - exact demo_broadcast.
  - exact demo_conn_at.
  - by repeat constructor.
  - by split.
  - split.
    + rewrite H2 by (vm_compute; reflexivity). vm_compute. reflexivity.
    + specialize (H1 [Read; React; Read; React; Stop; Read; React; Publish 7; Poll 8]).
      destruct (run _ s) as [rs s']. cbn [fst]. tauto.
Defined.
