(* ===== verification/Calendar.v ===== *)
(** Calendar time: [timegm] and [gmtime] of the C library, which the listing
    parser and the file browser call ([obn::os::timegm_safe], [gmtime_safe]), on
    the proleptic Gregorian calendar in UTC. *)

From S2P Require Import Prelude.

(** The fields of [std::tm] the code uses; the month counts from 0, the year
    from year 0. *)
Record Tm := { tm_year : Z; tm_mon : Z; tm_mday : Z; tm_hour : Z; tm_min : Z; tm_sec : Z }.

(** Days since 1970-01-01: years begin in March, eras have 400 years. *)
Definition day_of_era (yoe mp d : Z) : Z := yoe * 365 + yoe / 4 - yoe / 100 + (153 * mp + 2) / 5 + d - 1.

Definition days_from_civil (y m d : Z) : Z :=
  let y := if m <=? 2 then y - 1 else y in
  let mp := if m <=? 2 then m + 9 else m - 3 in
  y / 400 * 146097 + day_of_era (y mod 400) mp d - 719468.

Definition year_of_era (doe : Z) : Z := (doe - doe / 1460 + doe / 36524 - doe / 146096) / 365.

Definition civil_from_days (z : Z) : Z * Z * Z :=
  let z := z + 719468 in
  let doe := z mod 146097 in
  let yoe := year_of_era doe in
  let doy := doe - (365 * yoe + yoe / 4 - yoe / 100) in
  let mp := (5 * doy + 2) / 153 in
  let m := if mp <? 10 then mp + 3 else mp - 9 in
  (yoe + z / 146097 * 400 + (if m <=? 2 then 1 else 0), m, doy - (153 * mp + 2) / 5 + 1).

(** Fields beyond their range carry over. *)
Definition timegm (tm : Tm) : Z :=
  86400 * (days_from_civil (tm_year tm) (tm_mon tm + 1) 1 + tm_mday tm - 1)
  + 3600 * tm_hour tm + 60 * tm_min tm + tm_sec tm.

Definition gmtime (t : Z) : Tm :=
  let '(y, m, d) := civil_from_days (t / 86400) in
  let s := t mod 86400 in
  {| tm_year := y; tm_mon := m - 1; tm_mday := d; tm_hour := s / 3600; tm_min := s / 60 mod 60; tm_sec := s mod 60 |}.

(** ** Valid dates *)

Definition leap (y : Z) : bool := (y mod 4 =? 0) && (negb (y mod 100 =? 0) || (y mod 400 =? 0)).

Definition month_days (y m : Z) : Z :=
  if m =? 2 then if leap y then 29 else 28 else if (m =? 4) || (m =? 6) || (m =? 9) || (m =? 11) then 30 else 31.

Definition date_ok (y m d : Z) : Prop := 1 <= m <= 12 /\ 1 <= d <= month_days y m.

Definition tm_ok (tm : Tm) : Prop :=
  date_ok (tm_year tm) (tm_mon tm + 1) (tm_mday tm) /\
  0 <= tm_hour tm < 24 /\ 0 <= tm_min tm < 60 /\ 0 <= tm_sec tm < 60.

(** ** Within an era *)

Definition civil_of_era (doe : Z) : Z * Z * Z :=
  let yoe := year_of_era doe in
  let doy := doe - (365 * yoe + yoe / 4 - yoe / 100) in
  let mp := (5 * doy + 2) / 153 in
  (yoe, mp, doy - (153 * mp + 2) / 5 + 1).

(** The first day of a year from March on, and its length. *)
Definition year_start (yoe : Z) : Z := 365 * yoe + yoe / 4 - yoe / 100.
Definition year_length (yoe : Z) : Z := if leap (yoe + 1) then 366 else 365.

Lemma year_of_era_mono a b : 0 <= a <= b -> b < 146097 -> year_of_era a <= year_of_era b.
Proof.
  intros Hab Hb. unfold year_of_era. apply Z.div_le_mono; [lia|].
  assert (H1 : a - a / 1460 <= b - b / 1460) by (Z.to_euclidean_division_equations; lia).
  assert (H2 : a / 36524 <= b / 36524) by (apply Z.div_le_mono; lia).
  destruct (Z.eq_dec b 146096) as [->|].
  - destruct (Z.eq_dec a 146096) as [->|]; [lia|]. assert (a / 36524 <= 3) by (Z.to_euclidean_division_equations; lia).
    change (146096 / 36524) with 4. change (146096 / 146096) with 1. rewrite (Z.div_small a 146096) by lia. lia.
  - rewrite (Z.div_small a 146096), (Z.div_small b 146096) by lia. lia.
Qed.

Definition year_ok (yoe : Z) : bool :=
  (year_of_era (year_start yoe) =? yoe) && (year_of_era (year_start yoe + year_length yoe - 1) =? yoe)
  && (0 <=? year_start yoe) && (year_start yoe + year_length yoe <=? 146097)
  && ((yoe =? 399) || (year_start (yoe + 1) =? year_start yoe + year_length yoe)).

Lemma year_spec yoe : 0 <= yoe < 400 ->
  0 <= year_start yoe /\ year_start yoe + year_length yoe <= 146097 /\
  forall doe, year_start yoe <= doe < year_start yoe + year_length yoe -> year_of_era doe = yoe.
Proof.
  intros Hy. pose proof (below_forall year_ok 400 ltac:(vm_compute; reflexivity) yoe Hy) as H. unfold year_ok in H.
  apply andb_prop in H as [H _]. apply andb_prop in H as [H H4%Z.leb_le]. apply andb_prop in H as [H H3%Z.leb_le].
  apply andb_prop in H as [H1%Z.eqb_eq H2%Z.eqb_eq]. split_and!; [done | done|]. intros doe Hd.
  pose proof (year_of_era_mono (year_start yoe) doe ltac:(lia) ltac:(lia)).
  pose proof (year_of_era_mono doe (year_start yoe + year_length yoe - 1) ltac:(lia) ltac:(lia)). lia.
Qed.

(** Every day of the era lies in a year. *)
Lemma year_covers doe : 0 <= doe < 146097 ->
  exists yoe, 0 <= yoe < 400 /\ year_start yoe <= doe < year_start yoe + year_length yoe.
Proof.
  assert (H : forall n : nat, (n <= 400)%nat -> forall doe, 0 <= doe < (if (n =? 400)%nat then 146097 else year_start (Z.of_nat n)) ->
    exists yoe, 0 <= yoe < 400 /\ year_start yoe <= doe < year_start yoe + year_length yoe).
  { induction n as [|n IH]; intros Hn doe' Hd.
    - change (year_start (Z.of_nat 0)) with 0 in Hd. cbn in Hd. lia.
    - pose proof (below_forall year_ok 400 ltac:(vm_compute; reflexivity) (Z.of_nat n) ltac:(lia)) as Hy. unfold year_ok in Hy.
      apply andb_prop in Hy as [_ Hy].
      assert (Hend : (if (S n =? 400)%nat then 146097 else year_start (Z.of_nat (S n))) = year_start (Z.of_nat n) + year_length (Z.of_nat n)).
      { destruct (Nat.eqb_spec (S n) 400) as [E|E].
        - assert (n = 399%nat) as -> by lia. reflexivity.
        - apply orb_prop in Hy as [Hy%Z.eqb_eq|Hy%Z.eqb_eq]; [lia|]. by rewrite Nat2Z.inj_succ. }
      rewrite Hend in Hd. destruct (Z.lt_ge_cases doe' (year_start (Z.of_nat n))) as [Hlt|Hge].
      + apply IH; [lia|]. destruct (Nat.eqb_spec n 400); lia.
      + exists (Z.of_nat n). lia. }
  intros Hd. apply (H 400%nat); [lia|]. exact Hd.
Qed.

(** Months from March on. *)
Definition last_day (yoe mp : Z) : Z :=
  if mp =? 11 then if leap (yoe + 1) then 29 else 28 else if (mp =? 1) || (mp =? 3) || (mp =? 6) || (mp =? 8) then 30 else 31.

Definition day_of_year (mp d : Z) : Z := (153 * mp + 2) / 5 + d - 1.

Definition month_ok (i : Z) : bool :=
  let '(mp, d) := (i / 31, i mod 31 + 1) in
  let doy := day_of_year mp d in
  if d <=? (if mp =? 11 then 29 else last_day 0 mp)
  then (0 <=? doy) && (doy <? (if (mp =? 11) && (d =? 29) then 366 else 365))
       && ((5 * doy + 2) / 153 =? mp) && (doy - (153 * mp + 2) / 5 + 1 =? d)
  else true.

Lemma month_spec yoe mp d : 0 <= mp < 12 -> 1 <= d <= last_day yoe mp ->
  0 <= day_of_year mp d < year_length yoe /\ (5 * day_of_year mp d + 2) / 153 = mp /\
  day_of_year mp d - (153 * mp + 2) / 5 + 1 = d.
Proof.
  intros Hm Hd.
  assert (Hd31 : d <= (if mp =? 11 then 29 else last_day 0 mp)).
  { revert Hd. unfold last_day. destruct (Z.eqb_spec mp 11); [destruct (leap (yoe + 1)); lia | lia]. }
  assert (Hle : (if mp =? 11 then 29 else last_day 0 mp) <= 31).
  { unfold last_day. destruct (mp =? 11); [lia|]. destruct ((mp =? 1) || (mp =? 3) || (mp =? 6) || (mp =? 8)); lia. }
  assert (H31 : d <= 31) by (etrans; [exact Hd31 | exact Hle]). clear Hle.
  pose proof (below_forall month_ok 372 ltac:(vm_compute; reflexivity) (31 * mp + (d - 1)) ltac:(lia)) as H. unfold month_ok in H.
  replace ((31 * mp + (d - 1)) / 31) with mp in H by (Z.to_euclidean_division_equations; lia).
  replace ((31 * mp + (d - 1)) mod 31 + 1) with d in H by (Z.to_euclidean_division_equations; lia).
  destruct (Z.leb_spec d (if mp =? 11 then 29 else last_day 0 mp)); [|lia].
  apply andb_prop in H as [H H4%Z.eqb_eq]. apply andb_prop in H as [H H3%Z.eqb_eq]. apply andb_prop in H as [H1%Z.leb_le H2%Z.ltb_lt].
  split_and!; try done. revert H2 Hd. unfold last_day, year_length.
  destruct (Z.eqb_spec mp 11) as [->|]; cbn [andb]; [|destruct (leap (yoe + 1)); lia].
  destruct (leap (yoe + 1)); [destruct (d =? 29); lia|]. destruct (Z.eqb_spec d 29); lia.
Qed.

Definition doy_ok (doy : Z) : bool :=
  let mp := (5 * doy + 2) / 153 in let d := doy - (153 * mp + 2) / 5 + 1 in
  (0 <=? mp) && (mp <? 12) && (1 <=? d) && (d <=? 31).

Lemma civil_of_day_of_era yoe mp d :
  0 <= yoe < 400 -> 0 <= mp < 12 -> 1 <= d <= last_day yoe mp ->
  0 <= day_of_era yoe mp d < 146097 /\ civil_of_era (day_of_era yoe mp d) = (yoe, mp, d).
Proof.
  intros Hy Hm Hd. destruct (year_spec yoe Hy) as (H1 & H2 & H3). destruct (month_spec yoe mp d Hm Hd) as (H4 & H5 & H6).
  assert (E : day_of_era yoe mp d = year_start yoe + day_of_year mp d) by (unfold day_of_era, year_start, day_of_year; lia).
  split; [lia|]. unfold civil_of_era. rewrite E, (H3 (year_start yoe + day_of_year mp d) ltac:(lia)). fold (year_start yoe).
  replace (year_start yoe + day_of_year mp d - year_start yoe) with (day_of_year mp d) by lia. by rewrite H5, H6.
Qed.

Lemma day_of_civil_of_era doe : 0 <= doe < 146097 ->
  let '(yoe, mp, d) := civil_of_era doe in
  0 <= yoe < 400 /\ 0 <= mp < 12 /\ 1 <= d <= 31 /\ day_of_era yoe mp d = doe.
Proof.
  intros Hd. destruct (year_covers doe Hd) as (yoe & Hy & Hin). destruct (year_spec yoe Hy) as (_ & _ & H3).
  unfold civil_of_era. rewrite (H3 doe Hin). fold (year_start yoe). set (doy := doe - year_start yoe).
  assert (Hdoy : 0 <= doy < 366) by (subst doy; unfold year_length in Hin; destruct (leap (yoe + 1)); lia).
  pose proof (below_forall doy_ok 366 ltac:(vm_compute; reflexivity) doy Hdoy) as H. unfold doy_ok in H.
  set (mp := (5 * doy + 2) / 153) in *. set (d := doy - (153 * mp + 2) / 5 + 1) in *.
  apply andb_prop in H as [H H4%Z.leb_le]. apply andb_prop in H as [H H2%Z.leb_le]. apply andb_prop in H as [H0%Z.leb_le H1%Z.ltb_lt].
  split_and!; try lia. unfold day_of_era. subst d doy. unfold year_start. lia.
Qed.

Lemma leap_mod y : leap (y mod 400) = leap y.
Proof.
  assert (E4 : y mod 400 mod 4 = y mod 4) by (Z.to_euclidean_division_equations; lia).
  assert (E100 : y mod 400 mod 100 = y mod 100) by (Z.to_euclidean_division_equations; lia).
  unfold leap. by rewrite E4, E100, Z.mod_mod by lia.
Qed.

(** A date is found again from its day. *)
Lemma civil_from_days_from_civil y m d : date_ok y m d -> civil_from_days (days_from_civil y m d) = (y, m, d).
Proof.
  intros [Hm Hd]. unfold days_from_civil.
  set (y' := if m <=? 2 then y - 1 else y). set (mp := if m <=? 2 then m + 9 else m - 3).
  assert (Hmp : 0 <= mp < 12) by (subst mp; destruct (Z.leb_spec m 2); lia).
  assert (Hyoe : 0 <= y' mod 400 < 400) by (apply Z.mod_pos_bound; lia).
  assert (Hlast : 1 <= d <= last_day (y' mod 400) mp).
  { assert (El : m <= 2 -> leap (y' mod 400 + 1) = leap y).
    { intros H. rewrite <- leap_mod, <- (leap_mod y). f_equal. subst y'. destruct (Z.leb_spec m 2); [|lia].
      rewrite Zplus_mod_idemp_l. f_equal. lia. }
    revert Hd. unfold month_days, last_day. subst mp. clearbody y'.
    assert (m = 1 \/ m = 2 \/ m = 3 \/ m = 4 \/ m = 5 \/ m = 6 \/ m = 7 \/ m = 8 \/ m = 9 \/ m = 10 \/ m = 11 \/ m = 12) as Hcases by lia.
    destruct Hcases as [->|[->|[->|[->|[->|[->|[->|[->|[->|[->|[->| ->]]]]]]]]]]];
      repeat match goal with
             | |- context [?a =? ?b] => let v := eval vm_compute in (a =? b) in progress change (a =? b) with v
             | |- context [?a <=? ?b] => let v := eval vm_compute in (a <=? b) in progress change (a <=? b) with v
             end; cbn [orb]; try done.
    rewrite El by lia. done. }
  destruct (civil_of_day_of_era (y' mod 400) mp d Hyoe Hmp Hlast) as [Hr Hc].
  unfold civil_from_days.
  replace (y' / 400 * 146097 + day_of_era (y' mod 400) mp d - 719468 + 719468)
    with (day_of_era (y' mod 400) mp d + y' / 400 * 146097) by lia.
  rewrite Z.mod_add, Z.mod_small, Z.div_add, Z.div_small, Z.add_0_l by lia.
  unfold civil_of_era in Hc. injection Hc as Hc1 Hc2 Hc3. rewrite Hc1 in *. rewrite Hc2 in *. rewrite Hc3.
  assert (Em : (if mp <? 10 then mp + 3 else mp - 9) = m).
  { subst mp. destruct (Z.leb_spec m 2); [destruct (Z.ltb_spec (m + 9) 10); lia | destruct (Z.ltb_spec (m - 3) 10); lia]. }
  rewrite Em. f_equal. f_equal. pose proof (Z_div_mod_eq_full y' 400). subst y'. destruct (Z.leb_spec m 2); lia.
Qed.

(** And the day from its date. *)
Lemma days_from_civil_from_days z : let '(y, m, d) := civil_from_days z in days_from_civil y m d = z.
Proof.
  unfold civil_from_days. set (doe := (z + 719468) mod 146097).
  assert (Hdoe : 0 <= doe < 146097) by (apply Z.mod_pos_bound; lia).
  pose proof (day_of_civil_of_era doe Hdoe) as H. unfold civil_of_era in H.
  set (yoe := year_of_era doe) in *. set (doy := doe - (365 * yoe + yoe / 4 - yoe / 100)) in *.
  set (mp := (5 * doy + 2) / 153) in *. set (d := doy - (153 * mp + 2) / 5 + 1) in *.
  destruct H as (H1 & H3 & H5 & H7).
  unfold days_from_civil. set (era := (z + 719468) / 146097).
  pose proof (Z_div_mod_eq_full (z + 719468) 146097) as E. fold doe era in E.
  destruct (Z.ltb_spec mp 10).
  - destruct (Z.leb_spec (mp + 3) 2); [lia|].
    replace (yoe + era * 400 + 0) with (yoe + era * 400) by lia.
    rewrite Z.mod_add, Z.mod_small, Z.div_add, Z.div_small by lia. replace (mp + 3 - 3) with mp by lia. lia.
  - destruct (Z.leb_spec (mp - 9) 2); [|lia].
    replace (yoe + era * 400 + 1 - 1) with (yoe + era * 400) by lia.
    rewrite Z.mod_add, Z.mod_small, Z.div_add, Z.div_small by lia. replace (mp - 9 + 9) with mp by lia. lia.
Qed.

Lemma days_split y m d : days_from_civil y m d = days_from_civil y m 1 + d - 1.
Proof. unfold days_from_civil, day_of_era. lia. Qed.

(** [gmtime] undoes [timegm] on a valid time. *)
Lemma gmtime_timegm tm : tm_ok tm -> gmtime (timegm tm) = tm.
Proof.
  intros (Hd & Hh & Hm & Hs). destruct tm as [y mo d h mi s]. cbn [tm_year tm_mon tm_mday tm_hour tm_min tm_sec] in *.
  unfold timegm, gmtime. cbn [tm_year tm_mon tm_mday tm_hour tm_min tm_sec].
  rewrite <- days_split. set (z := days_from_civil y (mo + 1) d).
  replace (86400 * z + 3600 * h + 60 * mi + s) with (3600 * h + 60 * mi + s + z * 86400) by lia.
  rewrite Z.div_add, Z.mod_add, Z.div_small, Z.mod_small, Z.add_0_l by lia.
  subst z. rewrite civil_from_days_from_civil by done. f_equal; Z.to_euclidean_division_equations; lia.
Qed.

(** ** Years *)

(** The day a year begins in March. *)
Definition march (y : Z) : Z := 365 * y + y / 4 - y / 100 + y / 400.

Lemma march_step y : march (y + 1) - march y = 365 \/ march (y + 1) - march y = 366.
Proof. unfold march. Z.to_euclidean_division_equations. lia. Qed.

Lemma days_march y m d :
  days_from_civil y m d =
  (if m <=? 2 then march (y - 1) + day_of_year (m + 9) d else march y + day_of_year (m - 3) d) - 719468.
Proof.
  assert (E : forall y, y / 400 * 146097 + ((y mod 400) * 365 + (y mod 400) / 4 - (y mod 400) / 100) = march y).
  { intros y'. unfold march. Z.to_euclidean_division_equations. lia. }
  unfold days_from_civil, day_of_era, day_of_year.
  destruct (m <=? 2); [pose proof (E (y - 1)) | pose proof (E y)]; lia.
Qed.

Lemma day_of_year_range m d :
  1 <= m <= 12 -> 1 <= d <= 31 ->
  if m <=? 2 then 306 <= day_of_year (m + 9) d < 306 + 62 else 0 <= day_of_year (m - 3) d < 306.
Proof. intros Hm Hd. unfold day_of_year. destruct (Z.leb_spec m 2); Z.to_euclidean_division_equations; lia. Qed.

Lemma month_days_31 y m : month_days y m <= 31.
Proof. unfold month_days. repeat case_match; lia. Qed.

(** A day lies in its year. *)
Lemma in_year y m d :
  1 <= m <= 12 -> 1 <= d <= 31 -> days_from_civil y 1 1 <= days_from_civil y m d < days_from_civil (y + 1) 1 1.
Proof.
  intros Hm Hd. pose proof (day_of_year_range m d Hm Hd) as Hr.
  rewrite !days_march. change (1 <=? 2) with true. cbv iota. change (1 + 9) with 10. change (day_of_year 10 1) with 306.
  replace (y + 1 - 1) with y by lia. pose proof (march_step (y - 1)) as Hs. replace (y - 1 + 1) with y in Hs by lia.
  destruct (m <=? 2); lia.
Qed.

Lemma years_apart y y' : y <= y' -> days_from_civil y 1 1 + 365 * (y' - y) <= days_from_civil y' 1 1.
Proof.
  intros H. replace y' with (y + Z.of_nat (Z.to_nat (y' - y))) by lia. generalize (Z.to_nat (y' - y)) as n. intros n.
  replace (y + Z.of_nat n - y) with (Z.of_nat n) by lia.
  induction n as [|n IH]; [replace (y + Z.of_nat 0) with y by lia; lia|].
  assert (E : forall z, days_from_civil (z + 1) 1 1 >= days_from_civil z 1 1 + 365).
  { intros z. rewrite !days_march. change (1 <=? 2) with true. cbv iota. pose proof (march_step (z - 1)) as Hs.
    replace (z - 1 + 1) with (z + 1 - 1) in Hs by lia. lia. }
  specialize (E (y + Z.of_nat n)). replace (y + Z.of_nat (S n)) with (y + Z.of_nat n + 1) by lia. lia.
Qed.

(** The same date a year later, from March on. *)
Lemma next_year y m d : 3 <= m -> days_from_civil (y + 1) m d - days_from_civil y m d = 365 \/
                                  days_from_civil (y + 1) m d - days_from_civil y m d = 366.
Proof. intros Hm. rewrite !days_march. destruct (Z.leb_spec m 2); [lia|]. pose proof (march_step y). lia. Qed.

Lemma civil_range z : let '(_, m, d) := civil_from_days z in 1 <= m <= 12 /\ 1 <= d <= 31.
Proof.
  unfold civil_from_days. set (doe := (z + 719468) mod 146097).
  assert (Hdoe : 0 <= doe < 146097) by (apply Z.mod_pos_bound; lia).
  pose proof (day_of_civil_of_era doe Hdoe) as H. unfold civil_of_era in H.
  set (mp := (5 * (doe - _) + 2) / 153) in *. destruct H as (_ & H3 & H5 & _). split; [|lia].
  destruct (Z.ltb_spec mp 10); lia.
Qed.

Lemma gmtime_year t :
  let y := tm_year (gmtime t) in 86400 * days_from_civil y 1 1 <= t < 86400 * days_from_civil (y + 1) 1 1.
Proof.
  pose proof (days_from_civil_from_days (t / 86400)) as E. pose proof (civil_range (t / 86400)) as Hr. unfold gmtime.
  destruct (civil_from_days (t / 86400)) as [[y m] d]. cbn [tm_year]. destruct Hr as [Hm Hd].
  pose proof (in_year y m d Hm Hd). Z.to_euclidean_division_equations. lia.
Qed.

(** The year of a time is the one whose days enclose it. *)
Lemma year_unique t y :
  86400 * days_from_civil y 1 1 <= t < 86400 * days_from_civil (y + 1) 1 1 -> tm_year (gmtime t) = y.
Proof.
  intros H. pose proof (gmtime_year t) as H'. cbv zeta in H'.
  destruct (Z.lt_trichotomy (tm_year (gmtime t)) y) as [Hlt|[Heq|Hgt]]; [|done|].
  - pose proof (years_apart (tm_year (gmtime t) + 1) y ltac:(lia)). lia.
  - pose proof (years_apart (y + 1) (tm_year (gmtime t)) ltac:(lia)). lia.
Qed.
