(* ===== verification/FtpsParse.v ===== *)
(** The parsers of [src/ftps_parse.hpp]: [ls -l] lines of directory listings,
    and the reply to PASV. *)

From S2P Require Import Prelude Text Calendar.

#[local] Delimit Scope string_scope with string.

Record Entry := { name : cstr; size : Z; mtime : Z; is_dir : bool }.

Definition new_entry : Entry := {| name := []; size := 0; mtime := 0; is_dir := false |}.

(** ** Listing lines *)

Definition kMonths : list cstr :=
  [str "jan"; str "feb"; str "mar"; str "apr"; str "may"; str "jun"; str "jul"; str "aug"; str "sep"; str "oct"; str "nov"; str "dec"].

Fixpoint month_at (lower : cstr) (ms : list cstr) (i : Z) : Z :=
  match ms with [] => 0 | m :: ms => if bool_decide (lower = m) then i + 1 else month_at lower ms (i + 1) end.

Definition ls_month_index (tok : cstr) : Z :=
  if negb (length tok =? 3)%nat then 0 else month_at (map to_lower tok) kMonths 0.

Definition space : byte := zb 32.

(** The tokens with their offsets. *)
Fixpoint split_tokens (fuel : nat) (i : nat) (l : cstr) : list (nat * cstr) :=
  match fuel with
  | O => []
  | S fuel =>
      let '(gap, l) := span (beq space) l in
      match l with
      | [] => []
      | _ =>
          let s := (i + length gap)%nat in
          let '(w, l) := span (fun c => negb (beq space c)) l in
          (s, w) :: split_tokens fuel (s + length w) l
      end
  end.

Definition tokens_of (line : cstr) : list (nat * cstr) := split_tokens (S (length line)) 0 line.

(** [std::strtoull (s, nullptr, 10)]. *)
Definition strtoull (s : cstr) : Z :=
  match strtol s with
  | Some v => if 2 ^ 64 <=? Z.abs v then 2 ^ 64 - 1 else u64 v
  | None => 0
  end.

Definition kSixMonths : Z := 60 * 60 * 24 * 183.

Definition with_year (y : Z) (tm : Tm) : Tm :=
  {| tm_year := y; tm_mon := tm_mon tm; tm_mday := tm_mday tm; tm_hour := tm_hour tm; tm_min := tm_min tm; tm_sec := tm_sec tm |}.

(** The time of the form [HH:MM]: this year's, or last year's when that is more
    than six months ahead. [timegm] normalises its argument. *)
Definition recent_time (now mo day : Z) (ty : cstr) (colon : nat) : Z :=
  let tm := {| tm_year := tm_year (gmtime now); tm_mon := mo - 1; tm_mday := day;
               tm_hour := atoi (take colon ty); tm_min := atoi (drop (S colon) ty); tm_sec := 0 |} in
  let candidate := timegm tm in
  if now + kSixMonths <? candidate then
    let tm := gmtime candidate in timegm (with_year (tm_year tm - 1) tm)
  else candidate.

(** The modification time; 0 stands for unknown. *)
Definition ls_time (now mo day : Z) (ty : cstr) : Z :=
  if (0 <? mo) && (0 <? day) && negb (bool_decide (ty = [])) then
    match find_char (zb 58) ty with
    | Some colon => let c := recent_time now mo day ty colon in if 0 <? c then c else 0
    | None =>
        let yr := atoi ty in
        if 1970 <=? yr then
          let c := timegm {| tm_year := yr; tm_mon := mo - 1; tm_mday := day; tm_hour := 0; tm_min := 0; tm_sec := 0 |} in
          if 0 <? c then c else 0
        else 0
    end
  else 0.

Definition parse_ls_line (now : Z) (line : cstr) : Entry :=
  match line with
  | [] => new_entry
  | c :: _ =>
      let dir := beq c (zb 100) in
      let tokens := tokens_of line in
      if (length tokens <? 9)%nat then {| name := []; size := 0; mtime := 0; is_dir := dir |}
      else
        let tok i := (tokens !!! i).2 in
        let rest := drop (tokens !!! 8%nat).1 line in
        {| name := match find_str (str " -> ") rest with Some arrow => take arrow rest | None => rest end;
           size := strtoull (tok 4%nat);
           mtime := ls_time now (ls_month_index (tok 5%nat)) (atoi (tok 6%nat)) (tok 7%nat);
           is_dir := dir |}
  end.

(** ** PASV replies *)

(** One field: at most three digits, spaces around it. *)
Definition pasv_field (s : cstr) : option (Z * cstr) :=
  let s := trim_front (beq space) s in
  let ds := (span is_digit (take 3 s)).1 in
  match ds with
  | [] => None
  | _ => if 255 <? undec ds then None else Some (undec ds, trim_front (beq space) (drop (length ds) s))
  end.

Fixpoint pasv_fields (n : nat) (s : cstr) : option (list Z * cstr) :=
  match n with
  | O => Some ([], s)
  | S n =>
      '(v, s) ← pasv_field s;
      match n with
      | O => Some ([v], s)
      | _ =>
          match s with
          | c :: s => if beq c (zb 44) then '(vs, s) ← pasv_fields n s; Some (v :: vs, s) else None
          | [] => None
          end
      end
  end.

(** The octets and the port. *)
Definition parse_pasv_reply (body : cstr) : option (list Z * Z) :=
  lp ← find_char (zb 40) body;
  rp ← find_char_from (zb 41) body lp;
  '(f, rest) ← pasv_fields 6 (sub (S lp) (rp - S lp) body);
  match rest with
  | [] => let p := (f !!! 4%nat) * 256 + f !!! 5%nat in if p =? 0 then None else Some (take 4 f, p)
  | _ => None
  end.

(** ** What [ls -l] writes *)

Definition word (w : cstr) : Prop := w <> [] /\ Forall (fun c => beq space c = false) w.
Definition gap (g : nat) : cstr := replicate (S g) space.

(** The columns behind each other, each with the gap behind it. *)
Fixpoint columns (ws : list (cstr * nat)) (rest : cstr) : cstr :=
  match ws with [] => rest | (w, g) :: ws => w ++ gap g ++ columns ws rest end.

Fixpoint offsets (i : nat) (ws : list (cstr * nat)) : list (nat * cstr) :=
  match ws with [] => [] | (w, g) :: ws => (i, w) :: offsets (i + length w + S g) ws end.

Definition starts_word (l : cstr) : Prop := match l with [] => False | c :: _ => beq space c = false end.

Lemma gap_spaces g : Forall (fun c => beq space c = true) (replicate g space).
Proof. apply Forall_replicate. apply beq_refl. Qed.

Lemma columns_start w g ws rest : word w -> starts_word (columns ((w, g) :: ws) rest).
Proof. intros [Hne Hw]. destruct w as [|c w]; [done|]. by apply Forall_cons in Hw as [Hc _]. Qed.

Lemma span_word (w : cstr) g l : word w -> span (fun c => negb (beq space c)) (w ++ gap g ++ l) = (w, gap g ++ l).
Proof.
  intros [_ Hw]. apply span_all.
  - eapply Forall_impl; [exact Hw|]. by intros c ->.
  - cbn. by rewrite beq_refl.
Qed.

Lemma split_columns ws rest : forall fuel g i,
  Forall (fun x => word x.1) ws -> starts_word rest -> (length ws < fuel)%nat ->
  exists toks, split_tokens fuel i (replicate g space ++ columns ws rest) =
    offsets (i + g) ws ++ ((i + g + (length (columns ws rest) - length rest))%nat, (span (fun c => negb (beq space c)) rest).1) :: toks.
Proof.
  induction ws as [|[w g'] ws IH]; intros fuel g i Hws Hrest Hf; (destruct fuel as [|fuel]; [cbn in Hf; lia|]); cbn [split_tokens].
  - cbn [columns offsets app]. rewrite span_all; [|apply gap_spaces|by destruct rest].
    destruct rest as [|c rest]; [done|]. rewrite length_replicate.
    destruct (span (fun c => negb (beq space c)) (c :: rest)) as [w l]. eexists. cbn [fst].
    by rewrite Nat.sub_diag, Nat.add_0_r.
  - apply Forall_cons in Hws as [Hw Hws]. cbn [fst] in Hw.
    rewrite span_all; [|apply gap_spaces | pose proof (columns_start w g' ws rest Hw) as H; by destruct (columns ((w, g') :: ws) rest)].
    pose proof (columns_start w g' ws rest Hw) as Hs.
    destruct (columns ((w, g') :: ws) rest) as [|c l] eqn:E; [done|]. rewrite <- E. clear c l E Hs.
    cbn [columns]. rewrite length_replicate, span_word by done.
    destruct (IH fuel (S g') (i + g + length w)%nat Hws Hrest) as (toks & Et); [cbn [length] in Hf; lia|].
    unfold gap. rewrite Et. exists toks. cbn [offsets app].
    assert (length rest <= length (columns ws rest))%nat.
    { clear. induction ws as [|[w g] ws IH]; [done|]. cbn [columns]. rewrite !length_app. lia. }
    f_equal. f_equal. f_equal. f_equal. rewrite !length_app, length_replicate. lia.
Qed.

Lemma columns_length ws rest : (length ws <= length (columns ws rest))%nat.
Proof. induction ws as [|[w g] ws IH]; [cbn; lia|]. cbn [columns length]. unfold gap. rewrite !length_app, length_replicate. lia. Qed.

(** The tokens of a line with eight columns ahead of the name. *)
Lemma line_tokens ws rest :
  Forall (fun x => word x.1) ws -> length ws = 8%nat -> starts_word rest ->
  (9 <= length (tokens_of (columns ws rest)))%nat /\
  (forall i w g, ws !! i = Some (w, g) -> (tokens_of (columns ws rest) !!! i).2 = w) /\
  drop (tokens_of (columns ws rest) !!! 8%nat).1 (columns ws rest) = rest.
Proof.
  intros Hws H8 Hrest. unfold tokens_of.
  destruct (split_columns ws rest (S (length (columns ws rest))) 0 0 Hws Hrest) as (toks & E).
  { pose proof (columns_length ws rest). lia. }
  cbn [replicate app Nat.add] in E. rewrite E.
  assert (Hoff : forall j us, length (offsets j us) = length us).
  { intros j us. revert j. induction us as [|[w g] us IH]; intros j; [done|]. cbn [offsets length]. by rewrite IH. }
  assert (Hat : forall us i j w g, us !! i = Some (w, g) -> exists n, offsets j us !! i = Some (n, w)).
  { induction us as [|[w' g'] us IH]; intros i j w g H; [done|]. destruct i as [|i]; cbn in *; [|by eapply IH].
    injection H as -> ->. by eexists. }
  split_and!.
  - rewrite length_app, Hoff. cbn [length]. lia.
  - intros i w g H. destruct (Hat ws i 0%nat w g H) as (n & Hn). erewrite list_lookup_total_correct; [|by rewrite lookup_app, Hn]. done.
  - erewrite list_lookup_total_correct; [|rewrite lookup_app_r by (rewrite Hoff; lia); by rewrite Hoff, H8, Nat.sub_diag].
    cbn [fst].
    assert (Hd : forall us, drop (length (columns us rest) - length rest) (columns us rest) = rest); [|apply Hd].
    clear. induction us as [|[w g] us IH]; [cbn; by rewrite Nat.sub_diag|]. cbn [columns].
    assert (length rest <= length (columns us rest))%nat.
    { clear. induction us as [|[w g] us IH]; [done|]. cbn [columns]. rewrite !length_app. lia. }
    rewrite app_assoc. rewrite length_app, drop_app_ge by lia. etrans; [|exact IH]. f_equal. lia.
Qed.

Definition two_digits (n : Z) : cstr := [digit_char (n / 10); digit_char (n mod 10)].

Definition ls_months : list cstr :=
  [str "Jan"; str "Feb"; str "Mar"; str "Apr"; str "May"; str "Jun"; str "Jul"; str "Aug"; str "Sep"; str "Oct"; str "Nov"; str "Dec"].

(** A file as the server lists it. *)
Record Listed := {
  l_perms : cstr; l_links : cstr; l_owner : cstr; l_group : cstr;
  l_size : Z; l_time : Tm; l_recent : bool; l_name : cstr; l_target : option cstr }.

Definition ls_stamp (x : Listed) : cstr :=
  if l_recent x then two_digits (tm_hour (l_time x)) ++ str ":" ++ two_digits (tm_min (l_time x))
  else dec_nonneg (tm_year (l_time x)).

Definition ls_columns (x : Listed) : list cstr :=
  [l_perms x; l_links x; l_owner x; l_group x; dec_nonneg (l_size x);
   ls_months !!! Z.to_nat (tm_mon (l_time x)); dec_nonneg (tm_mday (l_time x)); ls_stamp x].

Definition ls_tail (x : Listed) : cstr :=
  l_name x ++ match l_target x with Some t => str " -> " ++ t | None => [] end.

Definition ls_line (gaps : list nat) (x : Listed) : cstr := columns (zip (ls_columns x) gaps) (ls_tail x).

(** The time the line shows. *)
Definition shown_time (x : Listed) : Z :=
  if l_recent x then timegm (l_time x) else 86400 * days_from_civil (tm_year (l_time x)) (tm_mon (l_time x) + 1) (tm_mday (l_time x)).

(** The form without the year is for a time near the clock's, not in a later
    year. *)
Definition listed_ok (now : Z) (x : Listed) : Prop :=
  Forall word [l_perms x; l_links x; l_owner x; l_group x] /\ 0 <= l_size x < 2 ^ 64 /\
  tm_ok (l_time x) /\ tm_sec (l_time x) = 0 /\ 1970 <= tm_year (l_time x) < 2 ^ 31 /\
  starts_word (l_name x) /\ find_str (str " ->") (l_name x) = None /\
  (l_recent x = true ->
   now - 86400 * 182 < timegm (l_time x) <= now + kSixMonths /\ tm_year (l_time x) <= tm_year (gmtime now)).

Lemma strtoull_dec n : 0 <= n < 2 ^ 64 -> strtoull (dec_nonneg n) = n.
Proof.
  intros Hn. unfold strtoull. rewrite strtol_dec by lia. rewrite Z.abs_eq by lia.
  destruct (Z.leb_spec (2 ^ 64) n); [lia|]. unfold u64. by apply Z.mod_small.
Qed.

Lemma atoi_dec_int n : 0 <= n < 2 ^ 31 -> atoi (dec_nonneg n) = n.
Proof. intros Hn. unfold atoi. rewrite strtol_dec by lia. rewrite Z.min_l, Z.max_r by lia. apply (signed_small 32); lia. Qed.

Definition is_word (w : cstr) : bool := forallb (fun c => negb (beq space c)) w && negb (bool_decide (w = [])).

Lemma is_word_spec w : is_word w = true -> word w.
Proof.
  intros [Hw Hne]%andb_prop. split; [by apply negb_true_iff, bool_decide_eq_false in Hne|].
  apply Forall_forall. intros c Hc. rewrite forallb_forall in Hw. apply negb_true_iff, Hw. by apply list_elem_of_In.
Qed.

Definition month_word_ok (mo : Z) : bool :=
  let w := ls_months !!! Z.to_nat mo in is_word w && (ls_month_index w =? mo + 1).

Lemma month_words : forallb month_word_ok (seqZ 0 12) = true.
Proof. vm_compute. reflexivity. Qed.

Lemma month_index_spec mo : 0 <= mo < 12 -> word (ls_months !!! Z.to_nat mo) /\ ls_month_index (ls_months !!! Z.to_nat mo) = mo + 1.
Proof. intros H. pose proof (below_forall _ _ month_words mo H) as [Hw Hi]%andb_prop. split; [by apply is_word_spec|lia]. Qed.

Lemma digits_word ds : ds <> [] -> Forall (fun c => is_digit c = true) ds -> word ds.
Proof.
  intros Hne H. split; [done|]. eapply Forall_impl; [exact H|]. intros c Hc%is_digit_range.
  unfold beq, digit_val in *. change (bz space) with 32. lia.
Qed.

Lemma dec_word n : 0 <= n -> word (dec_nonneg n).
Proof. intros H. destruct (dec_nonneg_spec n H) as (_ & H2 & H3 & _). by apply digits_word. Qed.

Definition two_digits_ok (n : Z) : bool :=
  let w := two_digits n in is_word w && bool_decide (find_char (zb 58) w = None) && (atoi w =? n).

Lemma two_digits_all : forallb two_digits_ok (seqZ 0 60) = true.
Proof. vm_compute. reflexivity. Qed.

Lemma two_digits_spec n : 0 <= n < 60 -> word (two_digits n) /\ find_char (zb 58) (two_digits n) = None /\ atoi (two_digits n) = n.
Proof.
  intros H. pose proof (below_forall _ _ two_digits_all n H) as Hb. unfold two_digits_ok in Hb. cbv zeta in Hb.
  apply andb_prop in Hb as [Hb Ha]. apply andb_prop in Hb as [Hw Hc].
  split_and!; [by apply is_word_spec | by apply bool_decide_eq_true in Hc | lia].
Qed.

(** The name ends at the arrow of a link. *)
Lemma find_arrow n rest :
  find_str (str " ->") n = None -> find_str (str " -> ") (n ++ str " -> " ++ rest) = Some (length n).
Proof.
  induction n as [|c n IH]; intros H; [done|].
  assert (Hs : starts_with (str " ->") (c :: n) = false /\ find_str (str " ->") n = None).
  { cbn [find_str] in H. destruct (starts_with (str " ->") (c :: n)); [done|]. by destruct (find_str (str " ->") n). }
  destruct Hs as [Hs Hn]. specialize (IH Hn). cbn [app find_str].
  assert (starts_with (str " -> ") (c :: n ++ str " -> " ++ rest) = false) as ->.
  { destruct n as [|d [|e n]]; cbn in Hs |- *; repeat (apply andb_false_iff in Hs as [->|Hs]; rewrite ?andb_false_r; try done);
      rewrite ?andb_false_r; try done. }
  by rewrite IH.
Qed.

Lemma find_arrow_none n : find_str (str " ->") n = None -> find_str (str " -> ") n = None.
Proof.
  induction n as [|c n IH]; intros H; [done|]. cbn [find_str] in *.
  destruct (starts_with (str " ->") (c :: n)) eqn:E; [done|].
  destruct (find_str (str " ->") n) eqn:En; [done|]. rewrite IH by done.
  destruct (starts_with (str " -> ") (c :: n)) eqn:E'; [|done]. apply starts_with_spec in E' as [r E']. by rewrite E' in E.
Qed.

Lemma first_day y m d : 1 <= m <= 12 -> 1 <= d <= 31 -> 1970 <= y -> 0 <= days_from_civil y m d.
Proof.
  intros Hm Hd Hy. pose proof (in_year y m d Hm Hd). pose proof (years_apart 1970 y Hy).
  change (days_from_civil 1970 1 1) with 0 in *. lia.
Qed.

Lemma timegm_nonneg tm : tm_ok tm -> 1970 <= tm_year tm -> 0 <= timegm tm.
Proof.
  intros ([Hm Hd] & Hh & Hmi & Hs) Hy. unfold timegm.
  pose proof (month_days_31 (tm_year tm) (tm_mon tm + 1)).
  pose proof (first_day (tm_year tm) (tm_mon tm + 1) (tm_mday tm) Hm ltac:(lia) Hy) as H0.
  rewrite days_split in H0. lia.
Qed.

(** The inferred year is the file's. *)
Lemma recent_time_read now tm :
  tm_ok tm -> tm_sec tm = 0 -> now - 86400 * 182 < timegm tm <= now + kSixMonths ->
  tm_year tm <= tm_year (gmtime now) ->
  recent_time now (tm_mon tm + 1) (tm_mday tm) (two_digits (tm_hour tm) ++ str ":" ++ two_digits (tm_min tm)) 2 = timegm tm.
Proof.
  intros Hok Hs Hnear Hy. pose proof Hok as ([Hm Hd] & Hh & Hmi & _). unfold recent_time.
  destruct (two_digits_spec (tm_hour tm)) as (_ & _ & Eh); [lia|]. destruct (two_digits_spec (tm_min tm)) as (_ & _ & Em); [lia|].
  change (take 2 _) with (two_digits (tm_hour tm)). change (drop 3 _) with (two_digits (tm_min tm)). rewrite Eh, Em.
  set (y0 := tm_year (gmtime now)) in *. pose proof (gmtime_year now) as Hnow. cbv zeta in Hnow. fold y0 in Hnow.
  destruct tm as [y mo d h mi s]. cbn [tm_year tm_mon tm_mday tm_hour tm_min tm_sec] in *. subst s.
  replace (mo + 1 - 1) with mo by lia. pose proof (month_days_31 y (mo + 1)) as H31.
  pose proof (in_year y (mo + 1) d Hm ltac:(lia)) as Hin. pose proof (days_split y (mo + 1) d) as Hsp.
  destruct (Z.eqb_spec y y0) as [->|Hne].
  - destruct (Z.ltb_spec (now + kSixMonths) (timegm {| tm_year := y0; tm_mon := mo; tm_mday := d; tm_hour := h; tm_min := mi; tm_sec := 0 |})); [lia|done].
  - pose proof (years_apart (y + 1) y0 ltac:(lia)) as Hap.
    assert (Hy1 : y + 1 = y0).
    { destruct (Z.ltb_spec (y + 1) y0); [|lia]. unfold timegm in Hnear. cbn in Hnear. lia. }
    rewrite <- Hy1 in *. clear Hap.
    assert (Hmo : 3 <= mo + 1).
    { destruct (Z.leb_spec 3 (mo + 1)); [done|]. exfalso. unfold timegm in Hnear. cbn in Hnear.
      pose proof (days_march y (mo + 1) d) as E1. pose proof (days_march (y + 1) 1 1) as E2.
      destruct (Z.leb_spec (mo + 1) 2); [|lia]. cbn [Z.leb Z.compare Pos.compare Pos.compare_cont] in E2.
      replace (y + 1 - 1) with y in E2 by lia. pose proof (march_step (y - 1)). replace (y - 1 + 1) with y in * by lia.
      pose proof (day_of_year_range (mo + 1) d Hm ltac:(lia)) as Hr. destruct (Z.leb_spec (mo + 1) 2); [|lia].
      change (day_of_year (1 + 9) 1) with 306 in E2. lia. }
    pose proof (next_year y (mo + 1) 1 Hmo) as Hnext.
    assert (Hc : now + kSixMonths < timegm {| tm_year := y + 1; tm_mon := mo; tm_mday := d; tm_hour := h; tm_min := mi; tm_sec := 0 |}).
    { unfold timegm in Hnear |- *. unfold kSixMonths. cbn [tm_year tm_mon tm_mday tm_hour tm_min tm_sec] in *. lia. }
    destruct (Z.ltb_spec (now + kSixMonths) (timegm {| tm_year := y + 1; tm_mon := mo; tm_mday := d; tm_hour := h; tm_min := mi; tm_sec := 0 |})); [|lia].
    assert (Hok' : forall y', month_days y' (mo + 1) = month_days y (mo + 1) \/ mo + 1 = 2).
    { intros y'. destruct (Z.eqb_spec (mo + 1) 2); [by right|]. left. unfold month_days. destruct (Z.eqb_spec (mo + 1) 2); [lia|done]. }
    rewrite gmtime_timegm.
    + cbn [with_year tm_year tm_mon tm_mday tm_hour tm_min tm_sec]. by replace (y + 1 - 1) with y by lia.
    + split_and!; cbn; try lia. split; [lia|]. destruct (Hok' (y + 1)); lia.
Qed.

Lemma stamp_word now x : listed_ok now x -> word (ls_stamp x).
Proof.
  intros (_ & _ & ([Hm Hd] & Hh & Hmi & _) & _ & Hy & _). unfold ls_stamp. destruct (l_recent x); [|apply dec_word; lia].
  destruct (two_digits_spec (tm_hour (l_time x))) as ([Hne H1] & _); [lia|].
  destruct (two_digits_spec (tm_min (l_time x))) as ([_ H2] & _); [lia|].
  split; [by destruct (two_digits (tm_hour (l_time x)))|]. apply Forall_app. split; [done|]. by constructor.
Qed.

Lemma columns_words now x gaps :
  listed_ok now x -> length gaps = 8%nat -> Forall (fun c : cstr * nat => word c.1) (zip (ls_columns x) gaps).
Proof.
  intros Hok Hg. pose proof (stamp_word now x Hok) as Hs. destruct Hok as (Hw & Hsz & ([Hm Hd] & _) & _).
  destruct (month_index_spec (tm_mon (l_time x)) ltac:(lia)) as [Hmo _].
  assert (H : Forall word (ls_columns x)).
  { apply Forall_cons in Hw as [H1 [H2 [H3 [H4 _]%Forall_cons]%Forall_cons]%Forall_cons].
    unfold ls_columns. repeat constructor; try apply H1; try apply H2; try apply H3; try apply H4; try apply Hs; try apply Hmo;
      by (apply dec_word; lia). }
  clear -H. revert gaps. induction H as [|w ws Hw Hws IH]; intros [|g gaps]; cbn; constructor; [done|]. apply IH.
Qed.

Lemma clock_colon h m : 0 <= h < 60 -> find_char (zb 58) (two_digits h ++ str ":" ++ two_digits m) = Some 2%nat.
Proof.
  intros Hh. destruct (two_digits_spec h Hh) as (_ & Hc & _). apply find_if_none in Hc.
  change (str ":" ++ two_digits m) with (zb 58 :: two_digits m). rewrite find_char_app; [done|].
  eapply Forall_impl; [exact Hc|]. intros c. cbn. by rewrite beq_sym.
Qed.

Lemma ls_time_read now x :
  listed_ok now x ->
  ls_time now (tm_mon (l_time x) + 1) (tm_mday (l_time x)) (ls_stamp x) = shown_time x.
Proof.
  intros Hok. pose proof (stamp_word now x Hok) as [Hne _].
  destruct Hok as (_ & _ & Htm & Hsec & Hy & _ & _ & Hnear). pose proof Htm as ([Hm Hd] & Hh & Hmi & _).
  pose proof (month_days_31 (tm_year (l_time x)) (tm_mon (l_time x) + 1)) as H31.
  unfold ls_time. destruct (Z.ltb_spec 0 (tm_mon (l_time x) + 1)); [|lia]. destruct (Z.ltb_spec 0 (tm_mday (l_time x))); [|lia].
  rewrite bool_decide_eq_false_2 by done. cbn [andb negb]. unfold ls_stamp, shown_time.
  destruct (l_recent x).
  - destruct Hnear as [Hn1 Hn2]; [done|]. rewrite clock_colon by lia. cbv zeta.
    rewrite recent_time_read by done. pose proof (timegm_nonneg (l_time x) Htm ltac:(lia)). destruct (Z.ltb_spec 0 (timegm (l_time x))); lia.
  - destruct (dec_nonneg_spec (tm_year (l_time x))) as (_ & Hds & _); [lia|].
    rewrite find_char_none.
    + rewrite atoi_dec_int by lia. destruct (Z.leb_spec 1970 (tm_year (l_time x))); [|lia]. cbv zeta.
      replace (tm_mon (l_time x) + 1 - 1) with (tm_mon (l_time x)) by lia. unfold timegm. cbn [tm_year tm_mon tm_mday tm_hour tm_min tm_sec].
      pose proof (first_day (tm_year (l_time x)) (tm_mon (l_time x) + 1) (tm_mday (l_time x)) Hm ltac:(lia) ltac:(lia)) as Hge.
      rewrite (days_split _ _ (tm_mday (l_time x))) in Hge |- *. match goal with |- context [0 <? ?e] => destruct (Z.ltb_spec 0 e) end; lia.
    + eapply Forall_impl; [exact Hds|]. intros c Hc%is_digit_range. unfold beq, digit_val in *. change (bz (zb 58)) with 58. lia.
Qed.

Lemma tail_name x : find_str (str " ->") (l_name x) = None ->
  match find_str (str " -> ") (ls_tail x) with Some arrow => take arrow (ls_tail x) | None => ls_tail x end = l_name x.
Proof.
  intros H. unfold ls_tail. destruct (l_target x) as [t|].
  - rewrite find_arrow by done. by rewrite take_app_length.
  - rewrite app_nil_r. by rewrite find_arrow_none.
Qed.

(** ** Replies to PASV *)

Definition padded (x : nat * Z * nat) : cstr :=
  let '(a, v, b) := x in replicate a space ++ dec_nonneg v ++ replicate b space.

Fixpoint pasv_text (xs : list (nat * Z * nat)) : cstr :=
  match xs with [] => [] | [x] => padded x | x :: xs => padded x ++ zb 44 :: pasv_text xs end.

Definition octet_ok (v : Z) : bool :=
  let d := dec_nonneg v in (length d <=? 3)%nat && bool_decide (span is_digit d = (d, [])).

Lemma octets_all : forallb octet_ok (seqZ 0 256) = true.
Proof. vm_compute. reflexivity. Qed.

Lemma trim_spaces n l : match l with [] => True | c :: _ => beq space c = false end -> trim_front (beq space) (replicate n space ++ l) = l.
Proof. intros H. unfold trim_front. by rewrite span_all by (try apply gap_spaces; by destruct l). Qed.

Lemma pasv_field_read a v b rest :
  0 <= v <= 255 -> match rest with [] => True | c :: _ => beq space c = false /\ is_digit c = false end ->
  pasv_field (padded (a, v, b) ++ rest) = Some (v, rest).
Proof.
  intros Hv Hrest. pose proof (below_forall _ _ octets_all v ltac:(lia)) as [H3 Hsp]%andb_prop.
  apply bool_decide_eq_true in Hsp. destruct (dec_nonneg_spec v ltac:(lia)) as (Hu & Hds & Hne & _).
  unfold pasv_field, padded. rewrite <- !app_assoc. set (d := dec_nonneg v) in *.
  rewrite trim_spaces.
  2:{ destruct d as [|c d']; [done|]. apply Forall_cons in Hds as [Hc%is_digit_range _]. cbn.
      unfold beq, digit_val in *. change (bz space) with 32. lia. }
  assert (Hsp' : (span is_digit (take 3 (d ++ replicate b space ++ rest))).1 = d).
  { rewrite take_app. replace (take 3 d) with d by (symmetry; apply take_ge; apply Nat.leb_le in H3; lia).
    rewrite span_all; [done | done |].
    destruct (3 - length d)%nat as [|k]; [done|]. destruct b as [|b]; [destruct rest; [done|apply Hrest]|done]. }
  rewrite Hsp'. destruct d as [|c d'] eqn:Ed; [done|]. rewrite <- Ed in *. clear Hne.
  assert (undec d = v) as -> by (rewrite <- Hu; by subst d). destruct (Z.ltb_spec 255 v); [lia|].
  rewrite drop_app_length, trim_spaces; [done|]. destruct rest; [done|apply Hrest].
Qed.

Lemma pasv_fields_more n s v s' :
  pasv_field s = Some (v, zb 44 :: s') ->
  pasv_fields (S (S n)) s = '(vs, r) ← pasv_fields (S n) s'; Some (v :: vs, r).
Proof.
  intros H. remember (S n) as m eqn:Em. cbn [pasv_fields]. rewrite H. cbn [mbind option_bind]. by subst m.
Qed.

Lemma pasv_fields_read xs :
  xs <> [] -> Forall (fun x : nat * Z * nat => 0 <= x.1.2 <= 255) xs ->
  pasv_fields (length xs) (pasv_text xs) = Some (map (fun x => x.1.2) xs, []).
Proof.
  induction xs as [|[[a v] b] xs IH]; intros Hne H; [done|]. apply Forall_cons in H as [Hv H]. cbn [fst snd] in Hv.
  destruct xs as [|y xs].
  - cbn [length pasv_fields pasv_text]. rewrite <- (app_nil_r (padded _)). by rewrite pasv_field_read.
  - specialize (IH ltac:(done) H). change (length (y :: xs)) with (S (length xs)) in IH.
    change (pasv_text ((a, v, b) :: y :: xs)) with (padded (a, v, b) ++ zb 44 :: pasv_text (y :: xs)).
    change (length ((a, v, b) :: y :: xs)) with (S (S (length xs))).
    erewrite pasv_fields_more; [|by apply pasv_field_read]. by rewrite IH.
Qed.

Lemma undec_nonneg ds : Forall (fun c => is_digit c = true) ds -> 0 <= undec ds.
Proof.
  intros H. unfold undec. assert (Hg : forall acc, 0 <= acc -> 0 <= foldl (fun acc c => acc * 10 + digit_val c) acc ds); [|by apply Hg].
  induction H as [|c ds Hc%is_digit_range _ IH]; intros acc Ha; [done|]. cbn [foldl]. apply IH. lia.
Qed.

Definition pasv_port (vs : list Z) : Z := (vs !!! 4%nat) * 256 + vs !!! 5%nat.

(** The reply reads back with spaces around its fields. *)
Lemma pasv_reply_read pre xs post :
  find_char (zb 40) pre = None -> length xs = 6%nat -> Forall (fun x : nat * Z * nat => 0 <= x.1.2 <= 255) xs ->
  pasv_port (map (fun x => x.1.2) xs) <> 0 ->
  parse_pasv_reply (pre ++ zb 40 :: pasv_text xs ++ zb 41 :: post) =
    Some (take 4 (map (fun x => x.1.2) xs), pasv_port (map (fun x => x.1.2) xs)).
Proof.
  intros Hpre H6 Hxs Hp. unfold parse_pasv_reply. apply find_if_none in Hpre.
  rewrite find_char_app by (eapply Forall_impl; [exact Hpre|]; intros c; cbn; by rewrite beq_sym). cbn [mbind option_bind].
  assert (Hr : Forall (fun c => beq c (zb 41) = false) (zb 40 :: pasv_text xs)).
  { constructor; [done|]. clear -Hxs. induction xs as [|[[a v] b] xs IH]; [constructor|]. apply Forall_cons in Hxs as [Hv Hxs].
    specialize (IH Hxs). assert (Hpad : Forall (fun c => beq c (zb 41) = false) (padded (a, v, b))).
    { cbn. apply Forall_app. split; [by apply Forall_replicate|]. apply Forall_app. split; [|by apply Forall_replicate].
      destruct (dec_nonneg_spec v ltac:(cbn in Hv; lia)) as (_ & Hds & _). eapply Forall_impl; [exact Hds|].
      intros c Hc%is_digit_range. unfold beq, digit_val in *. change (bz (zb 41)) with 41. lia. }
    destruct xs as [|y xs]; [done|]. cbn [pasv_text]. apply Forall_app. split; [done|]. by constructor. }
  unfold find_char_from, find_if_from. rewrite drop_app_length.
  change (find_if (beq (zb 41)) (zb 40 :: pasv_text xs ++ zb 41 :: post)) with
    (find_char (zb 41) ((zb 40 :: pasv_text xs) ++ zb 41 :: post)). rewrite find_char_app by done. cbn [option_map mbind option_bind].
  assert (sub (S (length pre)) (length pre + length (zb 40 :: pasv_text xs) - S (length pre)) (pre ++ zb 40 :: pasv_text xs ++ zb 41 :: post) = pasv_text xs) as ->.
  { unfold sub. replace (S (length pre)) with (length (pre ++ [zb 40])) by (rewrite length_app; cbn; lia).
    change (zb 40 :: pasv_text xs ++ zb 41 :: post) with ([zb 40] ++ pasv_text xs ++ zb 41 :: post). rewrite app_assoc, drop_app_length.
    apply take_app_length'. rewrite length_app. cbn. lia. }
  rewrite <- H6, pasv_fields_read by (try done; by destruct xs). cbn [mbind option_bind]. cbv zeta. fold (pasv_port (map (fun x => x.1.2) xs)).
  by destruct (Z.eqb_spec (pasv_port (map (fun x => x.1.2) xs)) 0).
Qed.

(** What it accepts is an address and a port. *)
Lemma pasv_reply_bounds body os p :
  parse_pasv_reply body = Some (os, p) -> length os = 4%nat /\ Forall (fun v => 0 <= v <= 255) os /\ 1 <= p <= 65535.
Proof.
  intros H. assert (Hf : forall n s vs r, pasv_fields n s = Some (vs, r) -> length vs = n /\ Forall (fun v => 0 <= v <= 255) vs).
  { assert (Hone : forall s v r, pasv_field s = Some (v, r) -> 0 <= v <= 255).
    { intros s v r. unfold pasv_field. pose proof (span_forall is_digit (take 3 (trim_front (beq space) s))) as Hd.
      destruct (span is_digit (take 3 (trim_front (beq space) s))).1 as [|c ds] eqn:E; [done|].
      pose proof (undec_nonneg (c :: ds) Hd). destruct (Z.ltb_spec 255 (undec (c :: ds))); [done|]. intros [= <- _]. lia. }
    induction n as [|n IH]; intros s vs r Hn; cbn [pasv_fields] in Hn; [by injection Hn as <- _|].
    destruct (pasv_field s) as [[v s']|] eqn:E; [|done]. apply Hone in E. cbn [mbind option_bind] in Hn.
    destruct n as [|n]; [injection Hn as <- _; split; [done | by apply Forall_singleton]|].
    destruct s' as [|c s']; [done|]. destruct (beq c (zb 44)); [|done].
    destruct (pasv_fields (S n) s') as [[vs' r']|] eqn:E'; [|done]. injection Hn as <- _.
    destruct (IH _ _ _ E') as [Hl Hv]. split; [cbn; by rewrite Hl | by constructor]. }
  unfold parse_pasv_reply in H. destruct (find_char (zb 40) body) as [lp|]; [|done]. cbn [mbind option_bind] in H.
  destruct (find_char_from (zb 41) body lp) as [rp|]; [|done]. cbn [mbind option_bind] in H.
  destruct (pasv_fields 6 _) as [[f rest]|] eqn:E; [|done]. apply Hf in E as [H6 Hv]. cbn [mbind option_bind] in H.
  destruct rest; [|done]. cbv zeta in H. do 6 (destruct f as [|? f]; [done|]). destruct f; [|done].
  cbn [lookup_total list_lookup_total] in H. repeat apply Forall_cons in Hv as [? Hv].
  match type of H with (if ?e then _ else _) = _ => destruct e eqn:Ep end; [done|]. injection H as <- <-.
  split; [done|]. split; [by repeat first [apply Forall_nil_2 | apply Forall_cons_2; [done|]]|]. lia.
Qed.

(** A line of [ls -l] reads back, whatever the gaps between its columns: the
    name with its spaces and without a link's target, the size, the directory
    flag, and the time that the line shows. Without a year the time is exact to
    the minute from 182 days before the clock to 183 days after it, unless it
    lies in a later year than the clock's. *)
Lemma ls_line_read now gaps x :
  listed_ok now x -> length gaps = 8%nat ->
  parse_ls_line now (ls_line gaps x) =
    {| name := l_name x; size := l_size x; mtime := shown_time x; is_dir := starts_with (str "d") (l_perms x) |}.
Proof.
  intros Hok Hg. pose proof (columns_words now x gaps Hok Hg) as Hws. pose proof (ls_time_read now x Hok) as Ht.
  destruct Hok as (Hw & Hsz & ([Hm Hd] & _) & _ & _ & Hn & Harrow & _). destruct (month_index_spec (tm_mon (l_time x)) ltac:(lia)) as [_ Hmo].
  pose proof (month_days_31 (tm_year (l_time x)) (tm_mon (l_time x) + 1)).
  assert (Hstart : starts_word (ls_tail x)) by (unfold ls_tail; by destruct (l_name x)).
  destruct (line_tokens _ (ls_tail x) Hws) as (H9 & Htok & Hdrop); [by rewrite length_zip, Hg|done|].
  fold (ls_line gaps x) in *. assert (Hat : forall i w, ls_columns x !! i = Some w -> (tokens_of (ls_line gaps x) !!! i).2 = w).
  { intros i w Hi. pose proof (lookup_lt_Some _ _ _ Hi) as Hlt. change (length (ls_columns x)) with 8%nat in Hlt.
    destruct (lookup_lt_is_Some_2 gaps i ltac:(lia)) as [g Hgi]. eapply (Htok i w g). apply lookup_zip_Some. done. }
  assert (Hdir : exists l, ls_line gaps x = l_perms x ++ l).
  { destruct gaps as [|g gaps]; [done|]. by eexists. }
  apply Forall_cons in Hw as [[Hp _] _]. destruct Hdir as [l Hl]. unfold parse_ls_line.
  destruct (ls_line gaps x) as [|c line] eqn:E; [by destruct (l_perms x)|]. rewrite <- E in *.
  destruct (Nat.ltb_spec (length (tokens_of (ls_line gaps x))) 9); [lia|]. cbv zeta.
  rewrite Hdrop, tail_name by done. erewrite !Hat by reflexivity. rewrite strtoull_dec, Hmo, atoi_dec_int, Ht by lia. f_equal.
  destruct (l_perms x) as [|d ds]; [done|]. rewrite E in Hl. injection Hl as -> _. cbn. by rewrite andb_true_r, beq_sym.
Qed.

Definition sample_listed : Listed :=
  {| l_perms := str "-rw-r--r--"; l_links := str "1"; l_owner := str "1000"; l_group := str "1000"; l_size := 5000000000;
     l_time := {| tm_year := 2023; tm_mon := 10; tm_mday := 30; tm_hour := 7; tm_min := 5; tm_sec := 0 |};
     l_recent := true; l_name := str "My  Song (live).3mf"; l_target := None |}.

Lemma sample_listed_ok : listed_ok 1709164800 sample_listed.
Proof.
  unfold listed_ok. split; [repeat apply Forall_cons_2; try apply Forall_nil_2; by apply is_word_spec|].
  split; [cbn; lia|]. split; [repeat split; by vm_compute|]. split; [reflexivity|]. split; [cbn; lia|].
  split; [reflexivity|]. split; [by vm_compute|]. intros _. change (timegm (l_time sample_listed)) with 1701327900.
  split; [unfold kSixMonths; lia | by vm_compute].
Qed.

(** A time of the coming year is read a year early: a day ahead becomes 364
    days ago. *)
Example next_year_listed :
  let now := 86400 * days_from_civil 2023 12 31 in
  let t := {| tm_year := 2024; tm_mon := 0; tm_mday := 1; tm_hour := 1; tm_min := 0; tm_sec := 0 |} in
  (timegm t - now, recent_time now 1 1 (str "01:00") 2 - now) = (90000, 90000 - 86400 * 365).
Proof. reflexivity. Qed.
