(* ===== verification/Ftps.v ===== *)
(** The FTP and FTPS client ([src/ftps.cpp]): control lines and replies, login,
    and the transfers over data connections. *)

From S2P Require Import Prelude Text Tls FtpsParse.

#[local] Delimit Scope string_scope with string.

(** ** Sockets *)

(** What the peer does next: bytes arrive, it closes, the connection fails, or
    nothing comes for as long as a read waits. *)
Inductive Event := Data (bs : cstr) | Closed | Failed | Silent.

(** [ssl_read_some], [plain_read_some]: what is not read of the bytes stays. *)
Fixpoint read_some (n : nat) (inc : list Event) : Got * list Event :=
  match inc with
  | [] => (GotNothing, [])
  | Data [] :: inc => read_some n inc
  | Data bs :: inc => (GotBytes (take n bs), match drop n bs with [] => inc | bs => Data bs :: inc end)
  | Closed :: _ => (GotEnd, inc)
  | Failed :: _ => (GotNothing, inc)
  | Silent :: inc => (GotNothing, inc)
  end.

(** A data connection: whether it comes to be, whether its TLS handshake does,
    and what goes over it. *)
Record Link := { link_up : bool; link_tls : bool; link_in : list Event; link_out : list Write }.

(** The client with its control connection. [links] are the data connections of
    the coming PASV calls; [dialled] has the ports connected to, [carried] what
    each data connection closed took from the client. *)
Record Client := {
  use_tls : bool; ctrl_ssl : bool; ctrl_fd : bool; ctrl_buf : cstr;
  ctrl_in : list Event; ctrl_sends : list Write; ctrl_written : cstr;
  links : list Link; dialled : list Z; carried : list cstr }.

Definition with_input (buf : cstr) (inc : list Event) (c : Client) : Client :=
  {| use_tls := use_tls c; ctrl_ssl := ctrl_ssl c; ctrl_fd := ctrl_fd c; ctrl_buf := buf; ctrl_in := inc;
     ctrl_sends := ctrl_sends c; ctrl_written := ctrl_written c; links := links c; dialled := dialled c; carried := carried c |}.

Definition with_output (out : cstr) (ws : list Write) (c : Client) : Client :=
  {| use_tls := use_tls c; ctrl_ssl := ctrl_ssl c; ctrl_fd := ctrl_fd c; ctrl_buf := ctrl_buf c; ctrl_in := ctrl_in c;
     ctrl_sends := ws; ctrl_written := out; links := links c; dialled := dialled c; carried := carried c |}.

Definition with_links (ls : list Link) (ports : list Z) (c : Client) : Client :=
  {| use_tls := use_tls c; ctrl_ssl := ctrl_ssl c; ctrl_fd := ctrl_fd c; ctrl_buf := ctrl_buf c; ctrl_in := ctrl_in c;
     ctrl_sends := ctrl_sends c; ctrl_written := ctrl_written c; links := ls; dialled := ports; carried := carried c |}.

(** [close_socket] of a data connection that took [bs]. *)
Definition close_data (bs : cstr) (c : Client) : Client :=
  {| use_tls := use_tls c; ctrl_ssl := ctrl_ssl c; ctrl_fd := ctrl_fd c; ctrl_buf := ctrl_buf c; ctrl_in := ctrl_in c;
     ctrl_sends := ctrl_sends c; ctrl_written := ctrl_written c; links := links c; dialled := dialled c;
     carried := carried c ++ [bs] |}.

(** ** Control connection *)

Definition usable (c : Client) : bool := if use_tls c then ctrl_ssl c else ctrl_fd c.

Definition ctrl_read (n : nat) (ok : bool) (inc : list Event) : Got * list Event :=
  if ok then read_some n inc else (GotNothing, inc).

Definition ctrl_write (p : cstr) (c : Client) : bool * Client :=
  if usable c then
    let '(ok, out, ws) := write_loop (ctrl_sends c) (ctrl_written c) p in (ok, with_output out ws c)
  else (false, c).

Definition kMaxControlLine : nat := Z.to_nat 16384.
Definition kMaxControlReply : Z := 262144.

(** A trailing carriage return is dropped. *)
Definition chomp (line : cstr) : cstr :=
  match last line with Some c => if beq c cr then removelast line else line | None => line end.

(** Each pass adds a byte to a buffer of bounded size. *)
Fixpoint read_line_loop (fuel : nat) (ok : bool) (buf : cstr) (inc : list Event) : option cstr * cstr * list Event :=
  match fuel with
  | O => (None, buf, inc)
  | S fuel =>
      match find_char lf buf with
      | Some nl => (Some (chomp (take nl buf)), drop (S nl) buf, inc)
      | None =>
          if (kMaxControlLine <? length buf)%nat then (None, buf, inc)
          else match ctrl_read 512 ok inc with
               | (GotBytes bs, inc) => read_line_loop fuel ok (buf ++ bs) inc
               | (_, inc) => (None, buf, inc)
               end
      end
  end.

Definition read_line (c : Client) : option cstr * Client :=
  let '(r, buf, inc) := read_line_loop (S (S kMaxControlLine)) (usable c) (ctrl_buf c) (ctrl_in c) in
  (r, with_input buf inc c).

Definition isdigit_at (line : cstr) (i : nat) : bool := is_digit (line !!! i).

(** A line that ends a reply, and its code. *)
Definition final_line (line : cstr) : option Z :=
  if (4 <=? length line)%nat && isdigit_at line 0 && isdigit_at line 1 && isdigit_at line 2
     && beq (line !!! 3%nat) space
  then Some (atoi (take 3 line)) else None.

Definition add_line (acc line : cstr) : cstr := match acc with [] => line | _ => acc ++ lf :: line end.

(** [None] is the result -1. *)
Fixpoint read_reply_loop (fuel : nat) (acc : cstr) (c : Client) : option (Z * cstr) * Client :=
  match fuel with
  | O => (None, c)
  | S fuel =>
      match read_line c with
      | (None, c) => (None, c)
      | (Some line, c) =>
          let acc := add_line acc line in
          if kMaxControlReply <? zlen acc then (None, c)
          else match final_line line with Some code => (Some (code, acc), c) | None => read_reply_loop fuel acc c end
      end
  end.

Fixpoint arriving (inc : list Event) : nat :=
  match inc with [] => 0 | Data bs :: inc => length bs + arriving inc | _ :: inc => arriving inc end.

(** Every line takes a byte. *)
Definition supply (c : Client) : nat := (length (ctrl_buf c) + arriving (ctrl_in c))%nat.

Definition read_reply (c : Client) : option (Z * cstr) * Client := read_reply_loop (S (supply c)) [] c.

Definition send_cmd (cmd : cstr) (c : Client) : option (Z * cstr) * Client :=
  let '(ok, c) := ctrl_write (cmd ++ [cr; lf]) c in if ok then read_reply c else (None, c).

Definition code_of (r : option (Z * cstr)) : Z := match r with Some (code, _) => code | None => -1 end.
Definition body_of (r : option (Z * cstr)) : cstr := match r with Some (_, body) => body | None => [] end.

(** ** Errors *)

Inductive Err :=
  | CannotOpen | PasvRejected (code : Z) | PasvBadReply (body : cstr) | DataTcp | DataTls
  | Rejected (cmd : cstr) (code : Z) | Finish (cmd : cstr) (code : Z) (body : cstr)
  | DataWrite | DataRead | UploadCancelled | DownloadCancelled | SizeParse (body : cstr).

(** ** Connecting *)

Record ConnectConfig := {
  c_username : cstr; c_password : cstr; c_use_tls : bool; tls_verify_hostname : cstr; ca_file : cstr }.

(** What connecting meets: whether verification is on, the TCP connection, the
    context, the trust store, the handshake, the name in the certificate, and
    what then goes over the connection. *)
Record Dial := {
  verify_enabled : bool; tcp_up : bool; ctx_made : bool; verify_setup : bool; ssl_made : bool;
  handshake_done : bool; cn_matches : bool; server_in : list Event; server_out : list Write; server_links : list Link }.

Inductive ConnErr :=
  | TcpFailed | NeedsSerial | NeedsCaFile | CtxFailed | VerifySetup | SslFailed | HandshakeFailed | VerifyFailed
  | NoBanner (code : Z) (banner : cstr)
  | UserRejected (code : Z) | PassRejected (code : Z) | TypeRejected (code : Z) | PbszRejected (code : Z) | ProtRejected (code : Z).

Definition fresh (tls fd ssl : bool) (d : Dial) : Client :=
  {| use_tls := tls; ctrl_ssl := ssl; ctrl_fd := fd; ctrl_buf := []; ctrl_in := server_in d; ctrl_sends := server_out d;
     ctrl_written := []; links := server_links d; dialled := []; carried := [] |}.

Definition is_empty (s : cstr) : bool := match s with [] => true | _ => false end.

(** The TLS part of [connect_transport], with whether there is an [SSL]. *)
Definition tls_setup (cfg : ConnectConfig) (d : Dial) : option ConnErr * bool :=
  let want_verify := verify_enabled d && negb (is_empty (tls_verify_hostname cfg)) in
  if verify_enabled d && is_empty (tls_verify_hostname cfg) then (Some NeedsSerial, false)
  else if want_verify && is_empty (ca_file cfg) then (Some NeedsCaFile, false)
  else if negb (ctx_made d) then (Some CtxFailed, false)
  else if want_verify && negb (verify_setup d) then (Some VerifySetup, false)
  else if negb (ssl_made d) then (Some SslFailed, false)
  else if negb (handshake_done d) then (Some HandshakeFailed, true)
  else if want_verify && negb (cn_matches d) then (Some VerifyFailed, true)
  else (None, true).

(** [connect_transport] of a new client. *)
Definition connect_transport (cfg : ConnectConfig) (d : Dial) : option ConnErr * Client :=
  if negb (tcp_up d) then (Some TcpFailed, fresh (c_use_tls cfg) false false d)
  else
    let '(err, ssl) := if c_use_tls cfg then tls_setup cfg d else (None, false) in
    let c := fresh (c_use_tls cfg) true ssl d in
    match err with
    | Some e => (Some e, c)
    | None =>
        let '(r, c) := read_reply c in
        (if code_of r =? 220 then None else Some (NoBanner (code_of r) (body_of r)), c)
    end.

(** A command that must be answered with [want]. *)
Definition expect (cmd : cstr) (want : Z) (err : Z -> ConnErr) (c : Client) : option ConnErr * Client :=
  let '(r, c) := send_cmd cmd c in (if code_of r =? want then None else Some (err (code_of r)), c).

Definition and_then (m : Client -> option ConnErr * Client) (k : Client -> option ConnErr * Client) (c : Client) :=
  match m c with (Some e, c) => (Some e, c) | (None, c) => k c end.

Definition login (cfg : ConnectConfig) (c : Client) : option ConnErr * Client :=
  let '(r, c) := send_cmd (str "USER " ++ c_username cfg) c in
  let code := code_of r in
  if negb (code =? 331) && negb (code =? 230) then (Some (UserRejected code), c)
  else
    and_then (if code =? 331 then expect (str "PASS " ++ c_password cfg) 230 PassRejected else fun c => (None, c))
      (and_then (expect (str "TYPE I") 200 TypeRejected)
         (fun c =>
            if use_tls c then and_then (expect (str "PBSZ 0") 200 PbszRejected) (expect (str "PROT P") 200 ProtRejected) c
            else (None, c))) c.

Definition connect (cfg : ConnectConfig) (d : Dial) : option ConnErr * Client :=
  and_then (fun _ => connect_transport cfg d) (login cfg) (fresh false false false d).

(** ** Data connections *)

Definition port_of (body : cstr) : option Z := option_map snd (parse_pasv_reply body).

(** The address of the reply is not used: the control connection's host is. *)
Definition open_data_tcp (c : Client) : (Err + Link) * Client :=
  let '(r, c) := send_cmd (str "PASV") c in
  if negb (code_of r =? 227) then (inl (PasvRejected (code_of r)), c)
  else
    match port_of (body_of r) with
    | None => (inl (PasvBadReply (body_of r)), c)
    | Some port =>
        match links c with
        | [] => (inl DataTcp, with_links [] (dialled c ++ [port]) c)
        | l :: ls => (if link_up l then inr l else inl DataTcp, with_links ls (dialled c ++ [port]) c)
        end
    end.

Definition started (code : Z) : bool := (code =? 150) || (code =? 125).
Definition finished (code : Z) : bool := (code =? 226) || (code =? 250).

(** PASV, the command [cmd] with its argument, and the delayed handshake. *)
Definition start_transfer (cmd line : cstr) (c : Client) : (Err + Link) * Client :=
  match open_data_tcp c with
  | (inl e, c) => (inl e, c)
  | (inr l, c) =>
      let '(r, c) := send_cmd line c in
      if negb (started (code_of r)) then (inl (Rejected cmd (code_of r)), close_data [] c)
      else if use_tls c && negb (link_tls l) then (inl DataTls, close_data [] c)
      else (inr l, c)
  end.

(** ** Upload *)

Definition kFileBuf : nat := Z.to_nat 65536.

Section stor.
Context {P : Type} (progress : P -> Z -> Z -> bool * P).

(** The state of the loop: what is left of the file, the bytes sent, the last
    percentage told. *)
Fixpoint stor_loop (fuel : nat) (rest : cstr) (total sent last_progress : Z) (p : P) (out : cstr) (ws : list Write) :
    option Err * cstr * Z * P :=
  match fuel with
  | O => (Some DataWrite, out, sent, p)
  | S fuel =>
      match take kFileBuf rest with
      | [] => (None, out, sent, p)
      | buf =>
          let '(ok, out, ws) := write_loop ws out buf in
          if negb ok then (Some DataWrite, out, sent, p)
          else
            let sent := u64 (sent + zlen buf) in
            let pct := if 0 <? total then u64 (sent * 100) / total else -1 in
            if pct =? last_progress then stor_loop fuel (drop kFileBuf rest) total sent last_progress p out ws
            else
              let '(go, p) := progress p sent total in
              if go then stor_loop fuel (drop kFileBuf rest) total sent pct p out ws
              else (Some UploadCancelled, out, sent, p)
      end
  end.

(** [file] is [None] when it cannot be opened. *)
Definition stor (file : option cstr) (remote_path : cstr) (p : P) (c : Client) : option Err * P * Client :=
  match file with
  | None => (Some CannotOpen, p, c)
  | Some file =>
      match start_transfer (str "STOR") (str "STOR " ++ remote_path) c with
      | (inl e, c) => (Some e, p, c)
      | (inr l, c) =>
          let '(err, out, sent, p) := stor_loop (S (length file)) file (zlen file) 0 (-1) p [] (link_out l) in
          let c := close_data out c in
          match err with
          | Some e => (Some e, p, c)
          | None =>
              let '(r, c) := read_reply c in
              if finished (code_of r) then (None, (progress p sent (zlen file)).2, c)
              else (Some (Finish (str "STOR") (code_of r) (body_of r)), p, c)
          end
      end
  end.
End stor.

(** ** Download *)

Section retr.
Context {S : Type} (sink : S -> cstr -> bool * S).

Fixpoint retr_loop (fuel : nat) (s : S) (inc : list Event) : option Err * S :=
  match fuel with
  | O => (Some DataRead, s)
  | Datatypes.S fuel =>
      match read_some kFileBuf inc with
      | (GotNothing, _) => (Some DataRead, s)
      | (GotEnd, _) => (None, s)
      | (GotBytes bs, inc) => let '(go, s) := sink s bs in if go then retr_loop fuel s inc else (Some DownloadCancelled, s)
      end
  end.

Definition retr (remote_path : cstr) (s : S) (c : Client) : option Err * S * Client :=
  match start_transfer (str "RETR") (str "RETR " ++ remote_path) c with
  | (inl e, c) => (Some e, s, c)
  | (inr l, c) =>
      let '(err, s) := retr_loop (Datatypes.S (arriving (link_in l))) s (link_in l) in
      let '(r, c) := read_reply (close_data [] c) in
      (match err with
       | Some e => Some e
       | None => if finished (code_of r) then None else Some (Finish (str "RETR") (code_of r) (body_of r))
       end, s, c)
  end.
End retr.

(** ** Listing *)

(** Reading to the end, whichever it is. *)
Fixpoint list_loop (fuel : nat) (body : cstr) (inc : list Event) : cstr :=
  match fuel with
  | O => body
  | S fuel => match read_some 1024 inc with (GotBytes bs, inc) => list_loop fuel (body ++ bs) inc | _ => body end
  end.

(** [Client::list]. *)
Definition list_body (path : cstr) (c : Client) : (Err + cstr) * Client :=
  match start_transfer (str "LIST") (if is_empty path then str "LIST" else str "LIST " ++ path) c with
  | (inl e, c) => (inl e, c)
  | (inr l, c) =>
      let body := list_loop (S (arriving (link_in l))) [] (link_in l) in
      let '(r, c) := read_reply (close_data [] c) in
      (if finished (code_of r) then inr body else inl (Finish (str "LIST") (code_of r) []), c)
  end.

Definition dotted (e : Entry) : bool :=
  is_empty (name e) || bool_decide (name e = str ".") || bool_decide (name e = str "..").

Definition entry_of (now : Z) (line : cstr) : list Entry :=
  match chomp line with
  | [] => []
  | line => let e := parse_ls_line now line in if dotted e then [] else [e]
  end.

Definition list_entries (now : Z) (path : cstr) (c : Client) : (Err + list Entry) * Client :=
  let '(r, c) := list_body path c in
  (match r with inl e => inl e | inr body => inr (concat (map (entry_of now) (getlines lf body []))) end, c).

(** ** The other commands *)

Definition result_of (cmd : cstr) (ok : Z -> bool) (line : cstr) (c : Client) : option Err * Client :=
  let '(r, c) := send_cmd line c in (if ok (code_of r) then None else Some (Rejected cmd (code_of r)), c).

Definition dele (remote_path : cstr) : Client -> option Err * Client :=
  result_of (str "DELE") (fun code => (code =? 250) || (code =? 200)) (str "DELE " ++ remote_path).

Definition cwd (path : cstr) : Client -> option Err * Client :=
  result_of (str "CWD") (fun code => (code =? 250) || (code =? 200)) (str "CWD " ++ path).

Definition is_blank (c : byte) : bool := beq c space || beq c (zb 9).

(** The text up to its first NUL. *)
Definition c_str (s : cstr) : cstr := (span (fun c => negb (beq c x00)) s).1.

(** The reply [213 n]: the code is passed over, wherever it is. *)
Definition size (remote_path : cstr) (c : Client) : option Err * Z * Client :=
  let '(r, c) := send_cmd (str "SIZE " ++ remote_path) c in
  if negb (code_of r =? 213) then (Some (Rejected (str "SIZE") (code_of r)), 0, c)
  else
    let s := trim_front (fun c => negb (is_digit c)) (c_str (body_of r)) in
    let s := trim_front is_blank (trim_front is_digit s) in
    match strtol s with
    | None => (Some (SizeParse (body_of r)), 0, c)
    | Some _ => (None, strtoull s, c)
    end.

Definition quit (c : Client) : Client :=
  let c := if ctrl_fd c then (read_reply (ctrl_write (str "QUIT" ++ [cr; lf]) c).2).2 else c in
  {| use_tls := use_tls c; ctrl_ssl := false; ctrl_fd := false; ctrl_buf := ctrl_buf c; ctrl_in := ctrl_in c;
     ctrl_sends := ctrl_sends c; ctrl_written := ctrl_written c; links := links c; dialled := dialled c; carried := carried c |}.

(** ** The stream of a connection *)

(** The bytes that arrive before anything else happens, and what then does. *)
Fixpoint flow (inc : list Event) : cstr := match inc with Data bs :: inc => bs ++ flow inc | _ => [] end.
Fixpoint flow_end (inc : list Event) : option Event :=
  match inc with [] => None | Data _ :: inc => flow_end inc | e :: _ => Some e end.

Lemma flow_arriving inc : (length (flow inc) <= arriving inc)%nat.
Proof. induction inc as [|[bs| | |] inc IH]; cbn; rewrite ?length_app; lia. Qed.

Lemma read_some_bytes n inc bs inc' :
  (0 < n)%nat -> read_some n inc = (GotBytes bs, inc') ->
  bs <> [] /\ (length bs <= n)%nat /\ flow inc = bs ++ flow inc' /\ flow_end inc = flow_end inc' /\
  (arriving inc = length bs + arriving inc')%nat.
Proof.
  intros Hn. induction inc as [|[[|b l]| | |] inc IH]; cbn [read_some]; try done.
  intros [= <- <-]. set (w := b :: l) in *. split_and!.
  - subst w. by destruct n; [lia|].
  - rewrite length_take. lia.
  - cbn [flow]. destruct (drop n w) eqn:E; cbn [flow]; rewrite <- (take_drop n w) at 1; rewrite E, <- ?app_assoc, ?app_nil_r; done.
  - by destruct (drop n w).
  - cbn [arriving]. rewrite <- (take_drop n w) at 1. rewrite length_app. destruct (drop n w); cbn [arriving length]; lia.
Qed.

Lemma read_some_nothing n inc r inc' :
  read_some n inc = (r, inc') -> match r with GotBytes _ => True | GotEnd => flow inc = [] /\ flow_end inc = Some Closed
    | GotNothing => flow inc = [] /\ flow_end inc <> Some Closed end /\ (arriving inc' <= arriving inc)%nat.
Proof.
  induction inc as [|[[|b l]| | |] inc IH]; cbn [read_some]; try (intros [= <- <-]; done || (cbn; split; [done|lia])).
  - apply IH.
  - intros [= <- <-]. split; [done|]. cbn [arriving]. rewrite <- (take_drop n (b :: l)) at 2.
    rewrite length_app. destruct (drop n (b :: l)); cbn [arriving length]; lia.
Qed.

Lemma read_some_flow n inc :
  (0 < n)%nat -> flow inc <> [] -> exists bs inc', read_some n inc = (GotBytes bs, inc').
Proof.
  intros Hn. induction inc as [|[[|b l]| | |] inc IH]; cbn [flow read_some]; try done. eauto.
Qed.

Definition pending (c : Client) : cstr := ctrl_buf c ++ flow (ctrl_in c).

Lemma pending_supply c : (length (pending c) <= supply c)%nat.
Proof. unfold pending, supply. rewrite length_app. pose proof (flow_arriving (ctrl_in c)). lia. Qed.

(** A client in use with [inp] to be read and [wr] written. *)
Record at_ctrl (tls : bool) (inp wr : cstr) (ls : list Link) (ports : list Z) (ca : list cstr) (c : Client) : Prop := {
  at_usable : usable c = true;
  at_pending : pending c = inp;
  at_out : accepting (ctrl_sends c);
  at_wr : ctrl_written c = wr;
  at_links : links c = ls;
  at_dialled : dialled c = ports;
  at_carried : carried c = ca;
  at_tls : use_tls c = tls }.

(** ** Lines *)

Lemma find_lf_prefix line tl buf rest :
  find_char lf line = None -> buf ++ rest = line ++ lf :: tl ->
  match find_char lf buf with
  | Some nl => nl = length line /\ take nl buf = line /\ drop (S nl) buf ++ rest = tl
  | None => (length buf <= length line)%nat
  end.
Proof.
  intros Hl E. pose proof Hl as Hl'. apply find_if_none in Hl'.
  destruct (find_char lf buf) as [nl|] eqn:Ef.
  - pose proof (find_if_some _ _ _ Ef) as (Hlt & Hpre & (d & Hd & Hlf)). apply beq_eq in Hlf as <-.
    assert (Hb : buf = take nl buf ++ lf :: drop (S nl) buf) by (symmetry; by apply take_drop_middle).
    rewrite Hb, <- app_assoc in E. cbn [app] in E.
    apply (app_sep_inj lf) in E as [E1 E2].
    + split_and!; [|done|done]. rewrite <- E1, length_take. lia.
    + eapply Forall_impl; [exact Hpre|]. intros x. cbn. by rewrite beq_sym.
    + eapply Forall_impl; [exact Hl'|]. intros x. cbn. by rewrite beq_sym.
  - destruct (Nat.leb_spec (length buf) (length line)) as [|Hlt]; [done|]. exfalso.
    apply find_if_none in Ef. assert (Hat : (buf ++ rest) !! length line = Some lf) by (by rewrite E, list_lookup_middle).
    rewrite lookup_app_l in Hat by lia. rewrite Forall_lookup in Ef. specialize (Ef _ _ Hat). cbn in Ef. by rewrite beq_refl in Ef.
Qed.

Lemma read_line_loop_at fuel line tl : forall buf inc,
  find_char lf line = None -> (length line <= kMaxControlLine)%nat -> buf ++ flow inc = line ++ lf :: tl ->
  (1 <= fuel)%nat -> (S (S kMaxControlLine) <= fuel + length buf)%nat ->
  exists buf' inc', read_line_loop fuel true buf inc = (Some (chomp line), buf', inc') /\ buf' ++ flow inc' = tl.
Proof.
  induction fuel as [|fuel IH]; intros buf inc Hl Hlen E Hf1 Hf; [lia|]. cbn [read_line_loop].
  pose proof (find_lf_prefix line tl buf (flow inc) Hl E) as Hp. destruct (find_char lf buf) as [nl|].
  - destruct Hp as (_ & -> & Hd). by exists (drop (S nl) buf), inc.
  - destruct (Nat.ltb_spec kMaxControlLine (length buf)); [lia|]. cbn [ctrl_read].
    assert (Hne : flow inc <> []).
    { intros Hn. rewrite Hn, app_nil_r in E. apply (f_equal length) in E. rewrite length_app in E. cbn in E. lia. }
    destruct (read_some_flow 512 inc ltac:(lia) Hne) as (bs & inc' & Er). rewrite Er.
    apply read_some_bytes in Er as (Hbs & _ & Hflow & _ & _); [|lia].
    assert (length bs <> 0%nat) by (by destruct bs).
    apply IH; [done | done | by rewrite <- app_assoc, <- Hflow | lia | rewrite length_app; lia].
Qed.

Lemma read_line_at tls line tl wr ls ports ca c :
  find_char lf line = None -> (length line <= kMaxControlLine)%nat ->
  at_ctrl tls (line ++ lf :: tl) wr ls ports ca c ->
  exists c', read_line c = (Some (chomp line), c') /\ at_ctrl tls tl wr ls ports ca c'.
Proof.
  intros Hl Hlen [Hu Hp Ho Hw Hls Hd Hc Ht]. unfold read_line. rewrite Hu.
  destruct (read_line_loop_at (S (S kMaxControlLine)) line tl (ctrl_buf c) (ctrl_in c) Hl Hlen Hp) as (buf & inc & E & Hp'); [lia|lia|].
  rewrite E. eexists. split; [reflexivity|]. by split.
Qed.

(** ** Replies *)

Lemma chomp_cr line : chomp (line ++ [cr]) = line.
Proof. unfold chomp. rewrite last_snoc, beq_refl. apply removelast_last. Qed.

(** A reply of the server: its lines, the last of which ends it. *)
Record Reply := { r_more : list cstr; r_last : cstr }.

Definition eol (line : cstr) : cstr := line ++ [cr; lf].
Definition reply_wire (r : Reply) : cstr := concat (map eol (r_more r ++ [r_last r])).
Definition reply_body (r : Reply) : cstr := foldl add_line [] (r_more r ++ [r_last r]).

Definition line_ok (line : cstr) : Prop := find_char lf line = None /\ (length line < kMaxControlLine)%nat.

(** A reply within the limits, with code [code]. *)
Record answers (r : Reply) (code : Z) : Prop := {
  ans_more : Forall (fun line => line_ok line /\ final_line line = None) (r_more r);
  ans_last : line_ok (r_last r);
  ans_code : final_line (r_last r) = Some code;
  ans_body : zlen (reply_body r) <= kMaxControlReply }.

Lemma add_line_grows acc line : (length acc <= length (add_line acc line))%nat.
Proof. destruct acc as [|a acc]; cbn; [lia|]. rewrite length_app. lia. Qed.

Lemma add_lines_grow lines : forall acc, (length acc <= length (foldl add_line acc lines))%nat.
Proof.
  induction lines as [|l lines IH]; intros acc; [done|]. cbn [foldl]. specialize (IH (add_line acc l)).
  pose proof (add_line_grows acc l). lia.
Qed.

Lemma read_eol tls line tl wr ls ports ca c :
  line_ok line -> at_ctrl tls (eol line ++ tl) wr ls ports ca c ->
  exists c', read_line c = (Some line, c') /\ at_ctrl tls tl wr ls ports ca c'.
Proof.
  intros [Hl Hlen] H. rewrite <- (chomp_cr line).
  apply (read_line_at tls (line ++ [cr]) tl); [|rewrite length_app; cbn; lia|].
  - apply find_if_none. apply Forall_app. split; [by apply find_if_none|by constructor].
  - unfold eol in H. rewrite <- app_assoc in H |- *. exact H.
Qed.

Lemma read_reply_loop_at tls last code tl wr ls ports ca fuel : forall lines acc c,
  Forall (fun line => line_ok line /\ final_line line = None) lines -> line_ok last -> final_line last = Some code ->
  zlen (foldl add_line acc (lines ++ [last])) <= kMaxControlReply -> (length lines < fuel)%nat ->
  at_ctrl tls (concat (map eol (lines ++ [last])) ++ tl) wr ls ports ca c ->
  exists c', read_reply_loop fuel acc c = (Some (code, foldl add_line acc (lines ++ [last])), c') /\ at_ctrl tls tl wr ls ports ca c'.
Proof.
  induction fuel as [|fuel IH]; intros lines acc c Hlines Hlast Hcode Hmax Hf H; [lia|]. cbn [read_reply_loop].
  destruct lines as [|line lines]; cbn [app map concat foldl] in *.
  - rewrite app_nil_r in H. destruct (read_eol tls last tl wr ls ports ca c Hlast H) as (c1 & E & H1). rewrite E. cbv zeta.
    destruct (Z.ltb_spec kMaxControlReply (zlen (add_line acc last))); [lia|]. rewrite Hcode. by exists c1.
  - apply Forall_cons in Hlines as [[Hline Hnf] Hlines]. rewrite <- app_assoc in H.
    destruct (read_eol tls line _ wr ls ports ca c Hline H) as (c1 & E & H1). rewrite E. cbv zeta.
    pose proof (add_lines_grow (lines ++ [last]) (add_line acc line)). unfold zlen in *.
    destruct (Z.ltb_spec kMaxControlReply (Z.of_nat (length (add_line acc line)))); [lia|]. rewrite Hnf.
    cbn [length] in Hf. apply IH; try done. lia.
Qed.

Lemma wire_lines lines : (length lines <= length (concat (map eol lines)))%nat.
Proof. induction lines as [|l lines IH]; [done|]. cbn. unfold eol at 1. rewrite !length_app. cbn. lia. Qed.

Lemma reply_at tls r code tl wr ls ports ca c :
  answers r code -> at_ctrl tls (reply_wire r ++ tl) wr ls ports ca c ->
  exists c', read_reply c = (Some (code, reply_body r), c') /\ at_ctrl tls tl wr ls ports ca c'.
Proof.
  intros [Hm Hl Hc Hb] H. unfold read_reply. apply read_reply_loop_at; try done.
  pose proof (pending_supply c) as Hs. rewrite (at_pending _ _ _ _ _ _ _ H) in Hs. unfold reply_wire in Hs. rewrite length_app in Hs.
  pose proof (wire_lines (r_more r ++ [r_last r])) as Hw. rewrite length_app in Hw. lia.
Qed.

Lemma ctrl_write_at tls p inp wr ls ports ca c :
  at_ctrl tls inp wr ls ports ca c -> exists c', ctrl_write p c = (true, c') /\ at_ctrl tls inp (wr ++ p) ls ports ca c'.
Proof.
  intros [Hu Hp Ho Hw Hls Hd Hc Ht]. unfold ctrl_write. rewrite Hu.
  destruct (write_loop_accepting (ctrl_sends c) (ctrl_written c) p Ho) as (ws & E & Ha). rewrite E. eexists. split; [reflexivity|].
  split; try done. by rewrite <- Hw.
Qed.

(** A command with its reply. *)
Lemma send_at tls cmd r code tl wr ls ports ca c :
  answers r code -> at_ctrl tls (reply_wire r ++ tl) wr ls ports ca c ->
  exists c', send_cmd cmd c = (Some (code, reply_body r), c') /\ at_ctrl tls tl (wr ++ eol cmd) ls ports ca c'.
Proof.
  intros Hr H. unfold send_cmd. destruct (ctrl_write_at tls (eol cmd) _ _ _ _ _ _ H) as (c1 & E & H1). unfold eol in E. rewrite E.
  by apply (reply_at tls r code tl).
Qed.

(** ** What a command leaves alone *)

Record same_data (c c' : Client) : Prop := {
  same_links : links c' = links c; same_dialled : dialled c' = dialled c; same_carried : carried c' = carried c;
  same_tls : use_tls c' = use_tls c }.

Lemma same_refl c : same_data c c.
Proof. done. Qed.

Lemma same_trans c1 c2 c3 : same_data c1 c2 -> same_data c2 c3 -> same_data c1 c3.
Proof. intros [] []. split; congruence. Qed.

Lemma read_line_same c r c' : read_line c = (r, c') -> same_data c c'.
Proof. unfold read_line. destruct (read_line_loop _ _ _ _) as [[l buf] inc]. by intros [= _ <-]. Qed.

Lemma read_reply_loop_same fuel : forall acc c r c', read_reply_loop fuel acc c = (r, c') -> same_data c c'.
Proof.
  induction fuel as [|fuel IH]; intros acc c r c'; cbn [read_reply_loop]; [by intros [= _ <-]|].
  destruct (read_line c) as [[line|] c1] eqn:E; apply read_line_same in E; [|by intros [= _ <-]].
  cbv zeta. destruct (_ <? _); [by intros [= _ <-]|]. destruct (final_line line); [by intros [= _ <-]|].
  intros H%IH. by eapply same_trans.
Qed.

Lemma read_reply_same c r c' : read_reply c = (r, c') -> same_data c c'.
Proof. apply read_reply_loop_same. Qed.

Lemma send_cmd_same cmd c r c' : send_cmd cmd c = (r, c') -> same_data c c'.
Proof.
  unfold send_cmd, ctrl_write. destruct (usable c); [|by intros [= _ <-]].
  destruct (write_loop _ _ _) as [[[] out] ws]; [|by intros [= _ <-]].
  intros H%read_reply_same. eapply same_trans; [|exact H]. done.
Qed.

(** ** The loops end *)

(** A line is read within the passes its limit allows. *)
Lemma line_fuel k fuel : forall ok buf inc,
  (1 <= fuel)%nat -> (S (S kMaxControlLine) <= fuel + length buf)%nat ->
  read_line_loop (fuel + k) ok buf inc = read_line_loop fuel ok buf inc.
Proof.
  induction fuel as [|fuel IH]; intros ok buf inc H1 Hf; [lia|]. cbn [Nat.add read_line_loop].
  destruct (find_char lf buf); [done|]. destruct (Nat.ltb_spec kMaxControlLine (length buf)); [done|].
  destruct ok; [|done]. cbn [ctrl_read]. destruct (read_some 512 inc) as [[bs| |] inc'] eqn:E; [|done..].
  apply read_some_bytes in E as (Hbs & _); [|lia]. assert (length bs <> 0%nat) by (by destruct bs).
  apply IH; [lia | rewrite length_app; lia].
Qed.

Lemma read_line_loop_takes fuel : forall ok buf inc line buf' inc',
  read_line_loop fuel ok buf inc = (Some line, buf', inc') -> (length buf' + arriving inc' < length buf + arriving inc)%nat.
Proof.
  induction fuel as [|fuel IH]; intros ok buf inc line buf' inc'; cbn [read_line_loop]; [done|].
  destruct (find_char lf buf) as [nl|] eqn:Ef.
  - intros [= _ <- <-]. apply find_if_some in Ef as [Hlt _]. rewrite length_drop. lia.
  - destruct (_ <? _)%nat; [done|]. destruct ok; [|done]. cbn [ctrl_read].
    destruct (read_some 512 inc) as [[bs| |] inc1] eqn:E; [|done..].
    apply read_some_bytes in E as (_ & _ & _ & _ & Ha); [|lia]. intros H%IH. rewrite length_app in H. lia.
Qed.

Lemma read_line_takes c line c' : read_line c = (Some line, c') -> (supply c' < supply c)%nat.
Proof.
  unfold read_line. destruct (read_line_loop _ _ _ _) as [[l buf] inc] eqn:E. intros [= -> <-].
  by apply read_line_loop_takes in E.
Qed.

Lemma reply_fuel k fuel : forall acc c, (supply c < fuel)%nat -> read_reply_loop (fuel + k) acc c = read_reply_loop fuel acc c.
Proof.
  induction fuel as [|fuel IH]; intros acc c Hf; [lia|]. cbn [Nat.add read_reply_loop].
  destruct (read_line c) as [[line|] c1] eqn:E; [|done]. apply read_line_takes in E.
  cbv zeta. destruct (_ <? _); [done|]. destruct (final_line line); [done|]. apply IH. lia.
Qed.

(** ** Data connections *)

(** The pieces a transfer hands over make up the stream. *)
Section pieces.
Context {S : Type} (sink : S -> cstr -> bool * S).

Fixpoint feed (s : S) (pieces : list cstr) : option S :=
  match pieces with [] => Some s | bs :: pieces => let '(go, s) := sink s bs in if go then feed s pieces else None end.

(** A download that succeeds. *)
Lemma retr_loop_done fuel : forall s inc s',
  retr_loop sink fuel s inc = (None, s') ->
  flow_end inc = Some Closed /\ exists pieces, concat pieces = flow inc /\ Forall (fun bs => bs <> [] /\ (length bs <= kFileBuf)%nat) pieces /\ feed s pieces = Some s'.
Proof.
  induction fuel as [|fuel IH]; intros s inc s'; cbn [retr_loop]; [done|].
  destruct (read_some kFileBuf inc) as [[bs| |] inc'] eqn:E; [| |done].
  - apply read_some_bytes in E as (Hbs & Hle & Hflow & Hend & _); [|unfold kFileBuf; lia].
    destruct (sink s bs) as [[] s1] eqn:Es; [|done]. intros (He & pieces & Hc & Hne & Hf)%IH.
    split; [congruence|]. exists (bs :: pieces). cbn [concat feed]. rewrite Hc, Es. split_and!; [done | by constructor | done].
  - intros [= <-]. apply read_some_nothing in E as [[Hf He] _]. split; [done|]. exists []. by rewrite Hf.
Qed.

(** A sink that always goes on. *)
Definition willing (R : S -> Prop) : Prop := forall s bs, R s -> (sink s bs).1 = true /\ R (sink s bs).2.

Lemma retr_loop_all R fuel : forall s inc,
  willing R -> R s -> (arriving inc < fuel)%nat -> flow_end inc = Some Closed ->
  exists s', retr_loop sink fuel s inc = (None, s') /\ R s'.
Proof.
  induction fuel as [|fuel IH]; intros s inc Hw Hs Hf He; [lia|]. cbn [retr_loop].
  destruct (read_some kFileBuf inc) as [[bs| |] inc'] eqn:E.
  - apply read_some_bytes in E as (Hbs & _ & _ & He' & Ha); [|unfold kFileBuf; lia].
    destruct (Hw s bs Hs) as [Hgo HR]. destruct (sink s bs) as [go s1]. cbn in Hgo, HR. subst go.
    assert (length bs <> 0%nat) by (by destruct bs). apply IH; [done | done | lia | congruence].
  - by exists s.
  - exfalso. apply read_some_nothing in E as [[Hf' Hn] _]. done.
Qed.
End pieces.

Lemma list_loop_flow fuel : forall body inc, (arriving inc < fuel)%nat -> list_loop fuel body inc = body ++ flow inc.
Proof.
  induction fuel as [|fuel IH]; intros body inc Hf; [lia|]. cbn [list_loop].
  destruct (read_some 1024 inc) as [[bs| |] inc'] eqn:E.
  - apply read_some_bytes in E as (Hbs & _ & Hflow & _ & Ha); [|lia]. assert (length bs <> 0%nat) by (by destruct bs).
    rewrite IH by lia. by rewrite Hflow, app_assoc.
  - apply read_some_nothing in E as [[-> _] _]. by rewrite app_nil_r.
  - apply read_some_nothing in E as [[-> _] _]. by rewrite app_nil_r.
Qed.

Section stor_proofs.
Context {P : Type} (progress : P -> Z -> Z -> bool * P).

Lemma stor_loop_done fuel : forall rest total sent last p out ws out' sent' p',
  stor_loop progress fuel rest total sent last p out ws = (None, out', sent', p') -> out' = out ++ rest.
Proof.
  induction fuel as [|fuel IH]; intros rest total sent last p out ws out' sent' p'; cbn [stor_loop]; [done|].
  pose proof (take_drop kFileBuf rest) as Htd. destruct (take kFileBuf rest) as [|b buf] eqn:Et.
  - intros [= <- _ _]. destruct rest; [by rewrite app_nil_r|]. unfold kFileBuf in Et. by destruct (Z.to_nat 65536) eqn:E; [lia|].
  - destruct (write_loop ws out (b :: buf)) as [[[] out1] ws1] eqn:Ew; [|done]. apply write_loop_ok in Ew. cbn [negb]. cbv zeta.
    destruct (_ =? last).
    + intros H%IH. by rewrite H, Ew, <- app_assoc, Htd.
    + destruct (progress p _ total) as [[] p1]; [|done]. intros H%IH. by rewrite H, Ew, <- app_assoc, Htd.
Qed.

Lemma stor_loop_all fuel : forall rest total sent last p out ws,
  (forall p a b, (progress p a b).1 = true) -> accepting ws -> (length rest < fuel)%nat -> 0 <= sent -> sent + zlen rest < 2 ^ 64 ->
  exists p', stor_loop progress fuel rest total sent last p out ws = (None, out ++ rest, sent + zlen rest, p').
Proof.
  induction fuel as [|fuel IH]; intros rest total sent last p out ws Hp Ha Hf Hs Hm; [lia|]. cbn [stor_loop].
  pose proof (take_drop kFileBuf rest) as Htd. destruct (take kFileBuf rest) as [|b buf] eqn:Et.
  - assert (rest = []) as ->.
    { destruct rest; [done|]. unfold kFileBuf in Et. by destruct (Z.to_nat 65536) eqn:E; [lia|]. }
    exists p. rewrite app_nil_r. unfold zlen. cbn. by rewrite Z.add_0_r.
  - destruct (write_loop_accepting ws out (b :: buf) Ha) as (ws1 & Ew & Ha1). rewrite Ew. cbn [negb]. cbv zeta.
    assert (Hlen : zlen rest = zlen (b :: buf) + zlen (drop kFileBuf rest)) by (rewrite <- Htd at 1; unfold zlen; rewrite length_app; lia).
    assert (Hd : (length (drop kFileBuf rest) < fuel)%nat).
    { apply (f_equal length) in Htd. rewrite length_app in Htd. cbn [length] in Htd. lia. }
    pose proof (zlen_nonneg (b :: buf)). pose proof (zlen_nonneg (drop kFileBuf rest)).
    assert (u64 (sent + zlen (b :: buf)) = sent + zlen (b :: buf)) as -> by (apply Z.mod_small; lia).
    replace (out ++ rest) with ((out ++ b :: buf) ++ drop kFileBuf rest) by (by rewrite <- app_assoc, Htd).
    rewrite Hlen, Z.add_assoc. destruct (_ =? last); [apply IH; done || lia|].
    pose proof (Hp p (sent + zlen (b :: buf)) total) as Hgo. destruct (progress p _ total) as [go p1]. cbn in Hgo. subst go.
    apply IH; done || lia.
Qed.
End stor_proofs.

Lemma open_at tls pasv port l tl wr ls ports ca c :
  answers pasv 227 -> port_of (reply_body pasv) = Some port -> link_up l = true ->
  at_ctrl tls (reply_wire pasv ++ tl) wr (l :: ls) ports ca c ->
  exists c', open_data_tcp c = (inr l, c') /\ at_ctrl tls tl (wr ++ eol (str "PASV")) ls (ports ++ [port]) ca c'.
Proof.
  intros Hp Hport Hup H. destruct (send_at tls (str "PASV") pasv 227 _ _ _ _ _ _ Hp H) as (c1 & E & [Hu H1 H2 H3 H4 H5 H6 H7]).
  unfold open_data_tcp. rewrite E. cbn [code_of body_of]. change (negb (227 =? 227)) with false. cbn match. rewrite Hport, H4, Hup.
  eexists. split; [reflexivity|]. split; cbn [with_links links dialled carried use_tls ctrl_written ctrl_sends]; try done. by rewrite H5.
Qed.

Lemma transfer_start_at tls cmd line pasv port go code l tl wr ls ports ca c :
  answers pasv 227 -> port_of (reply_body pasv) = Some port -> answers go code -> started code = true ->
  link_up l = true -> (tls = true -> link_tls l = true) ->
  at_ctrl tls (reply_wire pasv ++ reply_wire go ++ tl) wr (l :: ls) ports ca c ->
  exists c', start_transfer cmd line c = (inr l, c') /\
             at_ctrl tls tl (wr ++ eol (str "PASV") ++ eol line) ls (ports ++ [port]) ca c'.
Proof.
  intros Hp Hport Hgo Hst Hup Htls H. unfold start_transfer.
  destruct (open_at tls pasv port l _ _ _ _ _ _ Hp Hport Hup H) as (c1 & E1 & H1). rewrite E1.
  destruct (send_at tls line go code _ _ _ _ _ _ Hgo H1) as (c2 & E2 & H2). rewrite E2. cbn [code_of]. rewrite Hst. cbn [negb].
  rewrite (at_tls _ _ _ _ _ _ _ H2). exists c2. rewrite <- app_assoc in H2.
  destruct tls; [|done]. by rewrite Htls.
Qed.

Lemma close_at tls inp wr ls ports ca c bs :
  at_ctrl tls inp wr ls ports ca c -> at_ctrl tls inp wr ls ports (ca ++ [bs]) (close_data bs c).
Proof. intros [Hu H1 H2 H3 H4 H5 H6 H7]. split; try done. cbn. by rewrite H6. Qed.

(** A transfer that starts has the next data connection, with its handshake
    done when the client uses TLS. *)
Lemma start_same cmd line c l c' :
  start_transfer cmd line c = (inr l, c') ->
  links c = l :: links c' /\ carried c' = carried c /\ use_tls c' = use_tls c /\ link_up l = true /\
  (use_tls c = true -> link_tls l = true) /\ exists port, dialled c' = dialled c ++ [port].
Proof.
  unfold start_transfer, open_data_tcp. destruct (send_cmd (str "PASV") c) as [r c1] eqn:E1. apply send_cmd_same in E1 as [L1 D1 C1 T1].
  destruct (negb _); [done|]. destruct (port_of _) as [port|]; [|done]. destruct (links c1) as [|l1 ls] eqn:El; [done|].
  destruct (link_up l1) eqn:Eup; [|done]. destruct (send_cmd line _) as [r2 c2] eqn:E2. apply send_cmd_same in E2 as [L2 D2 C2 T2].
  cbn in L2, D2, C2, T2. destruct (negb (started _)); [done|]. destruct (use_tls c2) eqn:Et; cbn [andb].
  - destruct (link_tls l1) eqn:Elt; [|done]. cbn [negb]. intros [= <- <-]. split_and!; [|congruence|congruence|done|done|].
    + by rewrite L2, <- L1.
    + exists port. by rewrite D2, D1.
  - intros [= <- <-]. split_and!; [|congruence|congruence|done|congruence|].
    + by rewrite L2, <- L1.
    + exists port. by rewrite D2, D1.
Qed.

(** ** Transfers *)

Lemma stor_at {P} (progress : P -> Z -> Z -> bool * P) tls file path p pasv port go code fin code' l tl wr ls ports ca c :
  (forall q a b, (progress q a b).1 = true) -> zlen file < 2 ^ 64 ->
  answers pasv 227 -> port_of (reply_body pasv) = Some port -> answers go code -> started code = true ->
  answers fin code' -> finished code' = true ->
  link_up l = true -> (tls = true -> link_tls l = true) -> accepting (link_out l) ->
  at_ctrl tls (reply_wire pasv ++ reply_wire go ++ reply_wire fin ++ tl) wr (l :: ls) ports ca c ->
  exists p' c', stor progress (Some file) path p c = (None, p', c') /\
    at_ctrl tls tl (wr ++ eol (str "PASV") ++ eol (str "STOR " ++ path)) ls (ports ++ [port]) (ca ++ [file]) c'.
Proof.
  intros Hprog Hsize Hpasv Hport Hgo Hst Hfin Hf Hup Htls Hacc H. unfold stor.
  destruct (transfer_start_at tls (str "STOR") (str "STOR " ++ path) pasv port go code l _ _ _ _ _ _ Hpasv Hport Hgo Hst Hup Htls H) as (c1 & E1 & H1).
  rewrite E1. destruct (stor_loop_all progress (S (length file)) file (zlen file) 0 (-1) p [] (link_out l) Hprog Hacc) as (p1 & El); [lia..|].
  rewrite El. cbn [app]. apply (close_at _ _ _ _ _ _ _ file) in H1. destruct (reply_at tls fin code' _ _ _ _ _ _ Hfin H1) as (c2 & E2 & H2).
  rewrite E2. cbn [code_of]. rewrite Hf. eauto.
Qed.

(** C28: A transfer's reply is read whatever the pieces it arrives in, and takes
    just its own bytes: with a server that accepts it, an upload succeeds, the
    server has been sent PASV and STOR, the data connection was made to the
    port it named and has carried the file, and what the server says next is
    still to be read. *)
Theorem stor_completes {P} (progress : P -> Z -> Z -> bool * P) tls file path p pasv port go code fin code' l tl wr ls ports ca c :
  (forall q a b, (progress q a b).1 = true) -> zlen file < 2 ^ 64 ->
  answers pasv 227 -> port_of (reply_body pasv) = Some port -> answers go code -> started code = true ->
  answers fin code' -> finished code' = true ->
  link_up l = true -> (tls = true -> link_tls l = true) -> accepting (link_out l) ->
  at_ctrl tls (reply_wire pasv ++ reply_wire go ++ reply_wire fin ++ tl) wr (l :: ls) ports ca c ->
  exists p' c', stor progress (Some file) path p c = (None, p', c') /\
    at_ctrl tls tl (wr ++ eol (str "PASV") ++ eol (str "STOR " ++ path)) ls (ports ++ [port]) (ca ++ [file]) c'.
Proof. apply stor_at. Qed.

(** An upload that reports success has sent all of the file over the next
    data connection, whatever the server did, and with TLS after its handshake. *)
Lemma upload_is_file {P} (progress : P -> Z -> Z -> bool * P) file path p c p' c' :
  stor progress file path p c = (None, p', c') ->
  exists f l, file = Some f /\ links c = l :: links c' /\ (use_tls c = true -> link_tls l = true) /\ carried c' = carried c ++ [f].
Proof.
  unfold stor. destruct file as [f|]; [|done]. destruct (start_transfer _ _ c) as [[e|l] c1] eqn:E1; [done|].
  apply start_same in E1 as (L1 & C1 & _ & _ & Ht & _).
  destruct (stor_loop _ _ _ _ _ _ _ _ _) as [[[[e|] out] sent] p1] eqn:El; [done|]. apply stor_loop_done in El. cbn [app] in El. subst out.
  destruct (read_reply _) as [r c2] eqn:E2. apply read_reply_same in E2 as [L2 _ C2 _]. cbn in L2, C2.
  destruct (finished _); [|done]. intros [= _ <-]. exists f, l. split_and!; [done | congruence | done | congruence].
Qed.

(** The exchange of a STOR of [f] under [path] that the server has accepted, from
    the client [c] to the client [c']: PASV with a port, STOR with its go-ahead,
    the file over the connection to that port, and the reply that completes it. *)
Definition stor_accepted (f path : cstr) (c c' : Client) : Prop :=
  exists c1 c2 c3 pasv port l ls go go_text fin fin_text,
    send_cmd (str "PASV") c = (Some (227, pasv), c1) /\ port_of pasv = Some port /\
    links c1 = l :: ls /\ link_up l = true /\ c2 = with_links ls (dialled c1 ++ [port]) c1 /\
    send_cmd (str "STOR " ++ path) c2 = (Some (go, go_text), c3) /\ (go = 150 \/ go = 125) /\
    (use_tls c = true -> link_tls l = true) /\
    read_reply (close_data f c3) = (Some (fin, fin_text), c') /\ (fin = 226 \/ fin = 250).

(** A reply with a code that a server gives. *)
Lemma code_given r code : code_of r = code -> 0 <= code -> exists text, r = Some (code, text).
Proof. destruct r as [[a text]|]; cbn; intros; [exists text; congruence | lia]. Qed.

Lemma one_of_two {a b : Z} {r} : ((code_of r =? a) || (code_of r =? b))%bool = true -> 0 <= a -> 0 <= b ->
  exists code text, r = Some (code, text) /\ (code = a \/ code = b).
Proof.
  intros [H|H]%orb_prop Ha Hb; apply Z.eqb_eq in H; destruct (code_given r _ H) as [text ->]; try lia; eauto.
Qed.

Lemma stor_exchange {P} (progress : P -> Z -> Z -> bool * P) f path p c p' c' :
  stor progress (Some f) path p c = (None, p', c') -> stor_accepted f path c c' /\ carried c' = carried c ++ [f].
Proof.
  unfold stor, start_transfer, open_data_tcp. destruct (send_cmd (str "PASV") c) as [r1 c1] eqn:E1.
  destruct (Z.eqb_spec (code_of r1) 227) as [H1|]; [|done]. cbn [negb]. destruct (code_given _ _ H1) as [pasv ->]; [lia|]. cbn [body_of].
  destruct (port_of pasv) as [port|] eqn:Ep; [|done]. destruct (links c1) as [|l ls] eqn:El; [done|].
  destruct (link_up l) eqn:Eu; [|done]. destruct (send_cmd (str "STOR " ++ path) _) as [r2 c2] eqn:E2.
  destruct (started (code_of r2)) eqn:Es; [|done]. cbn [negb]. apply one_of_two in Es as (go & text & -> & Hgo); [|lia..].
  apply send_cmd_same in E1 as S1. apply send_cmd_same in E2 as S2. destruct S1 as [_ _ C1 T1], S2 as [_ _ C2 T2]. cbn in C2, T2.
  destruct (use_tls c2 && negb (link_tls l)) eqn:Et; [done|].
  destruct (stor_loop _ _ _ _ _ _ _ _ _) as [[[[e|] out] sent] p1] eqn:Eo; [done|]. apply stor_loop_done in Eo. cbn [app] in Eo. subst out.
  destruct (read_reply _) as [r3 c3] eqn:E3. destruct (finished (code_of r3)) eqn:Ef; [|done]. intros [= _ <-].
  apply one_of_two in Ef as (fin & text' & -> & Hfin); [|lia..]. apply read_reply_same in E3 as S3. destruct S3 as [_ _ C3 _]. cbn in C3.
  split; [|congruence]. exists c1. do 2 eexists. exists pasv, port, l, ls, go, text, fin, text'.
  split_and!; try done. intros Hu. rewrite T2, T1, Hu in Et. by destruct (link_tls l).
Qed.

(** A download that reports success has given the sink, in order and in
    pieces of at most 64 KiB, all that the data connection carried up to its
    orderly end; one that a willing sink sees through a data connection that
    ends in order succeeds. *)
Lemma download_is_stream {S} (sink : S -> cstr -> bool * S) path s c s' c' :
  retr sink path s c = (None, s', c') ->
  exists l pieces, links c = l :: links c' /\ (use_tls c = true -> link_tls l = true) /\ flow_end (link_in l) = Some Closed /\
    concat pieces = flow (link_in l) /\ Forall (fun bs => bs <> [] /\ (length bs <= kFileBuf)%nat) pieces /\ feed sink s pieces = Some s'.
Proof.
  unfold retr. destruct (start_transfer _ _ c) as [[e|l] c1] eqn:E1; [done|]. apply start_same in E1 as (L1 & _ & _ & _ & Ht & _).
  destruct (retr_loop _ _ _ _) as [[e|] s1] eqn:El; [by destruct (read_reply _)|]. apply retr_loop_done in El as (He & pieces & Hc & Hne & Hf).
  destruct (read_reply _) as [r c2] eqn:E2. apply read_reply_same in E2 as [L2 _ _ _]. cbn in L2.
  destruct (finished _); [|done]. intros [= <- <-]. exists l, pieces. split_and!; [congruence | done..].
Qed.

Lemma download_completes {S} (sink : S -> cstr -> bool * S) R tls path s pasv port go code fin code' l tl wr ls ports ca c :
  willing sink R -> R s ->
  answers pasv 227 -> port_of (reply_body pasv) = Some port -> answers go code -> started code = true ->
  answers fin code' -> finished code' = true ->
  link_up l = true -> (tls = true -> link_tls l = true) -> flow_end (link_in l) = Some Closed ->
  at_ctrl tls (reply_wire pasv ++ reply_wire go ++ reply_wire fin ++ tl) wr (l :: ls) ports ca c ->
  exists s' c' pieces, retr sink path s c = (None, s', c') /\ concat pieces = flow (link_in l) /\ feed sink s pieces = Some s' /\
    at_ctrl tls tl (wr ++ eol (str "PASV") ++ eol (str "RETR " ++ path)) ls (ports ++ [port]) (ca ++ [[]]) c'.
Proof.
  intros Hw Hs Hpasv Hport Hgo Hst Hfin Hf Hup Htls He H. unfold retr.
  destruct (transfer_start_at tls (str "RETR") (str "RETR " ++ path) pasv port go code l _ _ _ _ _ _ Hpasv Hport Hgo Hst Hup Htls H) as (c1 & E1 & H1).
  rewrite E1. destruct (retr_loop_all sink R (Datatypes.S (arriving (link_in l))) s (link_in l) Hw Hs) as (s1 & El & HR); [lia|done|].
  rewrite El. apply (close_at _ _ _ _ _ _ _ []) in H1. destruct (reply_at tls fin code' _ _ _ _ _ _ Hfin H1) as (c2 & E2 & H2).
  rewrite E2. cbn [code_of]. rewrite Hf. apply retr_loop_done in El as (_ & pieces & Hc & _ & Hfd). exists s1, c2, pieces. done.
Qed.

(** ** Listings *)

Lemma getlines_eols lines : Forall (fun line => find_char lf line = None) lines ->
  getlines lf (concat (map eol lines)) [] = map (fun line => line ++ [cr]) lines.
Proof.
  induction lines as [|line lines IH]; intros H; [done|]. apply Forall_cons in H as [Hl H]. cbn [map concat].
  assert (eol line ++ concat (map eol lines) = (line ++ [cr]) ++ lf :: concat (map eol lines)) as ->.
  { unfold eol. by rewrite <- !app_assoc. }
  rewrite getlines_sep; [by rewrite IH|]. apply Forall_app. split; [|by constructor].
  apply find_if_none in Hl. eapply Forall_impl; [exact Hl|]. intros x. cbn. by rewrite beq_sym.
Qed.

(** A line of a listing: a file's, or one with fewer columns, such as the
    total. *)
Inductive Item := File (gaps : list nat) (x : Listed) | Remark (line : cstr).

Definition item_line (i : Item) : cstr := match i with File gaps x => ls_line gaps x | Remark line => line end.

Definition item_ok (now : Z) (i : Item) : Prop :=
  find_char lf (item_line i) = None /\
  match i with File gaps x => listed_ok now x /\ length gaps = 8%nat | Remark line => (length (tokens_of line) < 9)%nat end.

Definition entry_read (x : Listed) : Entry :=
  {| name := l_name x; FtpsParse.size := l_size x; mtime := shown_time x; is_dir := starts_with (str "d") (l_perms x) |}.

Definition item_entries (i : Item) : list Entry :=
  match i with File _ x => if dotted (entry_read x) then [] else [entry_read x] | Remark _ => [] end.

Lemma entry_of_item now i : item_ok now i -> entry_of now (item_line i ++ [cr]) = item_entries i.
Proof.
  intros [_ H]. unfold entry_of. rewrite chomp_cr. destruct i as [gaps x|line]; cbn [item_line item_entries].
  - destruct H as [Hok Hg]. pose proof (ls_line_read now gaps x Hok Hg) as E. fold (entry_read x) in E.
    destruct (ls_line gaps x) as [|c l] eqn:El; [|by rewrite E]. exfalso. destruct Hok as (Hw & _).
    apply Forall_cons in Hw as [[Hne _] _]. destruct gaps as [|g gaps]; [done|]. unfold ls_line in El. cbn in El. by destruct (l_perms x).
  - destruct line as [|c l]; [done|]. unfold parse_ls_line. destruct (Nat.ltb_spec (length (tokens_of (c :: l))) 9); [done|lia].
Qed.

(** A directory listing, in whatever pieces it arrives, comes back as its
    files in order, with their names, sizes, times and directory flags; the
    lines that are not a file's, and the entries of the directory and its
    parent, are left out. *)
Lemma listing_read now tls path items pasv port go code fin code' l tl wr ls ports ca c :
  Forall (item_ok now) items -> flow (link_in l) = concat (map (fun i => eol (item_line i)) items) ->
  answers pasv 227 -> port_of (reply_body pasv) = Some port -> answers go code -> started code = true ->
  answers fin code' -> finished code' = true -> link_up l = true -> (tls = true -> link_tls l = true) ->
  at_ctrl tls (reply_wire pasv ++ reply_wire go ++ reply_wire fin ++ tl) wr (l :: ls) ports ca c ->
  exists c', list_entries now path c = (inr (concat (map item_entries items)), c') /\
    at_ctrl tls tl (wr ++ eol (str "PASV") ++ eol (if is_empty path then str "LIST" else str "LIST " ++ path)) ls (ports ++ [port]) (ca ++ [[]]) c'.
Proof.
  intros Hitems Hflow Hpasv Hport Hgo Hst Hfin Hf Hup Htls H. unfold list_entries, list_body.
  set (line := if is_empty path then str "LIST" else str "LIST " ++ path).
  destruct (transfer_start_at tls (str "LIST") line pasv port go code l _ _ _ _ _ _ Hpasv Hport Hgo Hst Hup Htls H) as (c1 & E1 & H1).
  rewrite E1, list_loop_flow by lia. apply (close_at _ _ _ _ _ _ _ []) in H1.
  destruct (reply_at tls fin code' _ _ _ _ _ _ Hfin H1) as (c2 & E2 & H2). rewrite E2. cbn [code_of]. rewrite Hf.
  exists c2. split; [|done]. f_equal. f_equal. cbn [app]. rewrite Hflow. clear -Hitems.
  rewrite <- (map_map item_line eol), getlines_eols.
  - rewrite map_map, map_map. f_equal. induction Hitems as [|i items Hi _ IH]; [done|]. cbn [map]. by rewrite IH, entry_of_item.
  - induction Hitems as [|i items Hi _ IH]; [constructor|]. constructor; [apply Hi|done].
Qed.

(** ** Connecting and logging in *)

(** C34: With verification on, nothing is written to a server over TLS, no
    command and so no password, unless the serial and the trust store are
    known, the handshake is done and the certificate names the printer. *)
Theorem no_login_unverified cfg d :
  verify_enabled d = true -> c_use_tls cfg = true -> ctrl_written (connect cfg d).2 <> [] ->
  tls_verify_hostname cfg <> [] /\ ca_file cfg <> [] /\ verify_setup d = true /\ handshake_done d = true /\ cn_matches d = true.
Proof.
  intros Hv Ht Hw. unfold connect, and_then, connect_transport in Hw. rewrite Ht in Hw.
  destruct (tcp_up d); [|done]. cbn [negb] in Hw. destruct (tls_setup cfg d) as [[e|] ssl] eqn:E; [done|]. clear Hw.
  unfold tls_setup in E. rewrite Hv in E. cbn [andb] in E. destruct (tls_verify_hostname cfg); [done|]. cbn [is_empty negb andb] in E.
  destruct (ca_file cfg); [done|]. cbn [is_empty] in E.
  repeat match type of E with context [negb ?b] => destruct b; cbn [negb] in E; [|done] end. done.
Qed.

Lemma quit_carried c : carried (quit c) = carried c.
Proof.
  unfold quit. destruct (ctrl_fd c); cbn [carried]; [|done]. destruct (read_reply _) as [r c1] eqn:E. apply read_reply_same in E as [_ _ C _].
  cbn [snd]. rewrite C. unfold ctrl_write. destruct (usable c); [|done]. by destruct (write_loop _ _ _) as [[b out] ws].
Qed.

(** Logging in opens no data connection. *)
Lemma expect_same cmd want err c e c' : expect cmd want err c = (e, c') -> same_data c c'.
Proof. unfold expect. destruct (send_cmd cmd c) as [r c1] eqn:E. apply send_cmd_same in E. by intros [= _ <-]. Qed.

Definition keeps (m : Client -> option ConnErr * Client) : Prop := forall c e c', m c = (e, c') -> same_data c c'.

Lemma and_then_same m k : keeps m -> keeps k -> keeps (and_then m k).
Proof.
  intros Hm Hk c e c'. unfold and_then. destruct (m c) as [[x|] c1] eqn:E; apply Hm in E; [by intros [= _ <-]|].
  intros H%Hk. by eapply same_trans.
Qed.

Lemma skip_same : keeps (fun c => (None, c)).
Proof. intros c e c' [= _ <-]. apply same_refl. Qed.

Lemma login_same cfg : keeps (login cfg).
Proof.
  intros c e c'. unfold login. destruct (send_cmd _ c) as [r c1] eqn:E. apply send_cmd_same in E.
  destruct (negb _ && negb _); [by intros [= _ <-]|]. intros H. eapply same_trans; [exact E|]. revert H.
  pose proof expect_same as He. apply and_then_same; [destruct (_ =? _); [intros ? ? ?; apply He | apply skip_same]|].
  apply and_then_same; [intros ? ? ?; apply He|]. intros c2 e2 c3. destruct (use_tls c2); [|apply skip_same].
  apply and_then_same; intros ? ? ?; apply He.
Qed.

Lemma connect_same cfg d e c : connect cfg d = (e, c) -> carried c = [] /\ dialled c = [].
Proof.
  assert (Ht : forall e1 c1, connect_transport cfg d = (e1, c1) -> carried c1 = [] /\ dialled c1 = []).
  { intros e1 c1. unfold connect_transport. destruct (negb _); [by intros [= _ <-]|].
    destruct (if c_use_tls cfg then _ else _) as [[x|] ssl]; [by intros [= _ <-]|].
    destruct (read_reply _) as [r c2] eqn:E. apply read_reply_same in E as [_ D C _]. by intros [= _ <-]. }
  unfold connect, and_then. destruct (connect_transport cfg d) as [[x|] c1] eqn:E; [intros [= _ <-]; by eapply Ht|].
  destruct (Ht _ _ eq_refl) as [C D]. intros H%login_same. by rewrite (same_carried _ _ H), (same_dialled _ _ H).
Qed.

Lemma expect_at tls cmd want err r tl wr ls ports ca c :
  answers r want -> at_ctrl tls (reply_wire r ++ tl) wr ls ports ca c ->
  exists c', expect cmd want err c = (None, c') /\ at_ctrl tls tl (wr ++ eol cmd) ls ports ca c'.
Proof.
  intros Hr H. destruct (send_at tls cmd r want _ _ _ _ _ _ Hr H) as (c1 & E & H1). unfold expect. rewrite E. cbn [code_of].
  rewrite Z.eqb_refl. by exists c1.
Qed.

(** The commands of a login, with the reply each must get. *)
Definition login_commands (tls : bool) (cfg : ConnectConfig) : list (cstr * Z) :=
  [(str "USER " ++ c_username cfg, 331); (str "PASS " ++ c_password cfg, 230); (str "TYPE I", 200)] ++
  (if tls then [(str "PBSZ 0", 200); (str "PROT P", 200)] else []).

Lemma login_completes tls cfg rs tl wr ls ports ca c :
  Forall2 (fun r x => answers r x.2) rs (login_commands tls cfg) ->
  at_ctrl tls (concat (map reply_wire rs) ++ tl) wr ls ports ca c ->
  exists c', login cfg c = (None, c') /\ at_ctrl tls tl (wr ++ concat (map (fun x => eol x.1) (login_commands tls cfg))) ls ports ca c'.
Proof.
  unfold login_commands. intros Hrs H. destruct rs as [|r1 rs]; [by inversion Hrs|]. apply Forall2_cons in Hrs as [H1 Hrs].
  destruct rs as [|r2 rs]; [by inversion Hrs|]. apply Forall2_cons in Hrs as [H2 Hrs].
  destruct rs as [|r3 rs]; [by inversion Hrs|]. apply Forall2_cons in Hrs as [H3 Hrs]. cbn [map concat fst snd] in *.
  rewrite <- !app_assoc in H. unfold login.
  destruct (send_at tls (str "USER " ++ c_username cfg) r1 331 _ _ _ _ _ _ H1 H) as (c1 & E1 & A1). rewrite E1. cbn [code_of].
  change (negb (331 =? 331) && negb (331 =? 230)) with false. change (331 =? 331) with true. cbn match. unfold and_then.
  destruct (expect_at tls (str "PASS " ++ c_password cfg) 230 PassRejected r2 _ _ _ _ _ _ H2 A1) as (c2 & E2 & A2). rewrite E2.
  destruct (expect_at tls (str "TYPE I") 200 TypeRejected r3 _ _ _ _ _ _ H3 A2) as (c3 & E3 & A3). rewrite E3.
  rewrite (at_tls _ _ _ _ _ _ _ A3). destruct tls.
  - destruct rs as [|r4 rs]; [by inversion Hrs|]. apply Forall2_cons in Hrs as [H4 Hrs].
    destruct rs as [|r5 rs]; [by inversion Hrs|]. apply Forall2_cons in Hrs as [H5 Hrs]. inversion Hrs; subst. cbn [map concat fst snd] in *.
    rewrite <- !app_assoc in A3. destruct (expect_at true (str "PBSZ 0") 200 PbszRejected r4 _ _ _ _ _ _ H4 A3) as (c4 & E4 & A4).
    rewrite E4. destruct (expect_at true (str "PROT P") 200 ProtRejected r5 _ _ _ _ _ _ H5 A4) as (c5 & E5 & A5). rewrite E5.
    exists c5. split; [done|]. by rewrite <- !app_assoc in A5.
  - inversion Hrs; subst. exists c3. split; [done|]. by rewrite <- !app_assoc in A3.
Qed.

Lemma line_too_long fuel ok buf inc :
  find_char lf buf = None -> (kMaxControlLine < length buf)%nat -> read_line_loop (S fuel) ok buf inc = (None, buf, inc).
Proof. intros Hn Hl. cbn [read_line_loop]. rewrite Hn. by destruct (Nat.ltb_spec kMaxControlLine (length buf)); [|lia]. Qed.

(** Reading a reply always ends: each line read takes at least a byte of
    what arrives, so more passes than there are bytes change nothing, and a
    line without an end is given up after its limit. *)
Lemma reply_ends fuel c : (supply c < fuel)%nat ->
  read_reply_loop fuel [] c = read_reply c /\
  (find_char lf (ctrl_buf c) = None -> (kMaxControlLine < length (ctrl_buf c))%nat -> read_reply c = (None, c)).
Proof.
  intros Hf. split.
  - unfold read_reply. replace fuel with (S (supply c) + (fuel - S (supply c)))%nat by lia. apply reply_fuel. lia.
  - intros Hn Hl. unfold read_reply. generalize (supply c). intros n. cbn [read_reply_loop]. unfold read_line.
    rewrite line_too_long by done. by destruct c.
Qed.

(** A reply of one line. *)
Definition one_line (line : cstr) : Reply := {| r_more := []; r_last := line |}.

Definition one_line_ok (line : cstr) (code : Z) : bool :=
  bool_decide (find_char lf line = None) && (zlen line <? 16384) && bool_decide (final_line line = Some code).

Lemma answers_one line code : one_line_ok line code = true -> answers (one_line line) code.
Proof.
  intros [[Hl Hn]%andb_prop Hc]%andb_prop. apply bool_decide_eq_true in Hl, Hc. unfold zlen in Hn.
  split; cbn [one_line r_more r_last]; [done | | done | unfold reply_body, kMaxControlReply, zlen; cbn; lia].
  split; [done|]. unfold kMaxControlLine. lia.
Qed.

(** A SIZE reply reads back. *)
Lemma size_read tls path n tl wr ls ports ca c :
  0 <= n < 2 ^ 64 -> at_ctrl tls (reply_wire (one_line (str "213 " ++ dec_nonneg n)) ++ tl) wr ls ports ca c ->
  exists c', size path c = (None, n, c') /\ at_ctrl tls tl (wr ++ eol (str "SIZE " ++ path)) ls ports ca c'.
Proof.
  intros Hn H. destruct (dec_nonneg_spec n) as (_ & Hds & Hne & _); [lia|].
  assert (Hlen : (length (dec_nonneg n) <= 65)%nat).
  { unfold dec_nonneg. assert (Hg : forall fuel m, (length (dec_fuel fuel m) <= fuel)%nat).
    { induction fuel as [|fuel IH]; intros m; [done|]. cbn [dec_fuel]. destruct (m <? 10); [cbn; lia|]. rewrite length_app. cbn. specialize (IH (m / 10)). lia. }
    pose proof (Hg (S (Z.to_nat (Z.log2 n))) n). destruct (Z.eqb_spec n 0) as [->|]; [cbn in *; lia|].
    assert (Z.log2 n < 64) by (apply Z.log2_lt_pow2; lia). lia. }
  assert (Hr : answers (one_line (str "213 " ++ dec_nonneg n)) 213).
  { apply answers_one. unfold one_line_ok. rewrite !andb_true_iff, !bool_decide_eq_true. split_and!; [| |done].
    - apply find_if_none. apply Forall_app. split; [by repeat constructor|]. eapply Forall_impl; [exact Hds|].
      intros c0 Hc0%is_digit_range. unfold beq, digit_val in *. change (bz lf) with 10. lia.
    - apply Z.ltb_lt. unfold zlen. rewrite length_app. change (length (str "213 ")) with 4%nat. lia. }
  destruct (send_at tls (str "SIZE " ++ path) _ 213 _ _ _ _ _ _ Hr H) as (c1 & E & H1). exists c1. split; [|done].
  unfold size. rewrite E. cbn [code_of body_of]. change (negb (213 =? 213)) with false. cbn match.
  assert (Hnul : c_str (reply_body (one_line (str "213 " ++ dec_nonneg n))) = str "213 " ++ dec_nonneg n).
  { unfold c_str. change (reply_body _) with (str "213 " ++ dec_nonneg n). rewrite <- (app_nil_r (str "213 " ++ dec_nonneg n)) at 1.
    rewrite span_all; [done| |done]. apply Forall_app. split; [by repeat constructor|]. eapply Forall_impl; [exact Hds|].
    intros c0 Hc0%is_digit_range. unfold beq, digit_val in *. change (bz x00) with 0. lia. }
  rewrite Hnul. change (trim_front (fun c => negb (is_digit c)) (str "213 " ++ dec_nonneg n)) with (str "213 " ++ dec_nonneg n).
  assert (Hskip : forall f a b, Forall (fun c => f c = true) a -> match b with [] => True | c :: _ => f c = false end -> trim_front f (a ++ b) = b).
  { intros f a b Ha Hb. unfold trim_front. by rewrite span_all. }
  change (str "213 " ++ dec_nonneg n) with (str "213" ++ str " " ++ dec_nonneg n).
  rewrite (Hskip is_digit (str "213")), (Hskip is_blank (str " ")).
  - rewrite strtol_dec by lia. by rewrite strtoull_dec.
  - by repeat constructor.
  - destruct (dec_nonneg n) as [|d ds]; [done|]. apply Forall_cons in Hds as [Hd%is_digit_range _].
    unfold is_blank, beq, digit_val in *. change (bz space) with 32. change (bz (zb 9)) with 9. lia.
  - by repeat constructor.
  - done.
Qed.

(** A line inside a multi-line reply that begins with three digits and a space
    ends it, whichever its code. *)
Example reply_ends_early :
  let c := {| use_tls := false; ctrl_ssl := false; ctrl_fd := true; ctrl_buf := str "230-Welcome" ++ [lf] ++ str "150 files" ++ [lf] ++ str "230 Ready" ++ [lf];
              ctrl_in := []; ctrl_sends := []; ctrl_written := []; links := []; dialled := []; carried := [] |} in
  code_of (read_reply c).1 = 150 /\ ctrl_buf (read_reply c).2 = str "230 Ready" ++ [lf].
Proof. by vm_compute. Qed.

(** ** Examples *)

Definition pasv_sample : Reply := one_line (str "227 Entering Passive Mode (0,0,0,0,200,13).").
Definition go_sample : Reply := one_line (str "150 Ok to send data.").
Definition done_sample : Reply := one_line (str "226 Transfer complete.").

Definition wire_sample : cstr := reply_wire pasv_sample ++ reply_wire go_sample ++ reply_wire done_sample.

(** The replies arrive in two pieces, after a client wrote nothing. *)
Definition client_sample (l : Link) : Client :=
  {| use_tls := true; ctrl_ssl := true; ctrl_fd := true; ctrl_buf := take 5 wire_sample;
     ctrl_in := [Data (take 50 (drop 5 wire_sample)); Data (drop 55 wire_sample); Failed];
     ctrl_sends := [Takes 2; Wants true]; ctrl_written := []; links := [l]; dialled := []; carried := [] |}.

Definition link_sample (inc : list Event) : Link :=
  {| link_up := true; link_tls := true; link_in := inc; link_out := [Takes 1; Wants true; Takes 9] |}.

Lemma at_sample l : at_ctrl true (reply_wire pasv_sample ++ reply_wire go_sample ++ reply_wire done_sample ++ []) [] [l] [] [] (client_sample l).
Proof. split; try done. by repeat constructor. Qed.

Lemma sample_answers : answers pasv_sample 227 /\ answers go_sample 150 /\ answers done_sample 226.
Proof. split_and!; by apply answers_one. Qed.

Definition count_calls (n : Z) (_ _ : Z) : bool * Z := (true, n + 1).

Lemma stor_completes_witness :
  exists p' c', stor count_calls (Some (str "G28 X Y")) (str "/a.gcode") 0 (client_sample (link_sample [])) = (None, p', c') /\
    at_ctrl true [] ([] ++ eol (str "PASV") ++ eol (str "STOR " ++ str "/a.gcode")) [] [51213] [str "G28 X Y"] c'.
Proof.
  destruct sample_answers as (H1 & H2 & H3).
  apply (stor_completes count_calls true (str "G28 X Y") (str "/a.gcode") 0 pasv_sample 51213 go_sample 150 done_sample 226
           (link_sample []) [] [] [] [] []); try done; [by repeat constructor | apply at_sample].
Defined.

Lemma upload_is_file_witness :
  exists f l, Some (str "G28") = Some f /\ links (client_sample (link_sample [])) = l :: [] /\
    (true = true -> link_tls l = true) /\ carried (stor count_calls (Some (str "G28")) (str "/a") 0 (client_sample (link_sample []))).2 = [] ++ [f].
Proof.
  exact (upload_is_file count_calls (Some (str "G28")) (str "/a") 0 (client_sample (link_sample []))
           (stor count_calls (Some (str "G28")) (str "/a") 0 (client_sample (link_sample []))).1.2
           (stor count_calls (Some (str "G28")) (str "/a") 0 (client_sample (link_sample []))).2 ltac:(vm_compute; reflexivity)).
Defined.

Definition collect (s : cstr) (bs : cstr) : bool * cstr := (true, s ++ bs).

Lemma download_is_stream_witness :
  let c := client_sample (link_sample [Data (str "abc"); Data (str "de"); Closed]) in
  exists l pieces, links c = l :: [] /\ (true = true -> link_tls l = true) /\ flow_end (link_in l) = Some Closed /\
    concat pieces = flow (link_in l) /\ Forall (fun bs => bs <> [] /\ (length bs <= kFileBuf)%nat) pieces /\
    feed collect [] pieces = Some (str "abcde").
Proof.
  intros c. exact (download_is_stream collect (str "/a") [] c (str "abcde") (retr collect (str "/a") [] c).2 ltac:(vm_compute; reflexivity)).
Defined.

Definition cfg_sample : ConnectConfig :=
  {| c_username := str "bblp"; c_password := str "12345678"; c_use_tls := true; tls_verify_hostname := str "01S00A";
     ca_file := str "printer.cer" |}.

Definition dial_sample : Dial :=
  {| verify_enabled := true; tcp_up := true; ctx_made := true; verify_setup := true; ssl_made := true; handshake_done := true;
     cn_matches := true; server_in := [Data (str "220 ready" ++ [cr; lf])]; server_out := []; server_links := [] |}.

Lemma no_login_unverified_witness :
  tls_verify_hostname cfg_sample <> [] /\ ca_file cfg_sample <> [] /\ verify_setup dial_sample = true /\
  handshake_done dial_sample = true /\ cn_matches dial_sample = true.
Proof. apply (no_login_unverified cfg_sample dial_sample); [done | done | by vm_compute]. Defined.

Lemma reply_ends_witness :
  let c := client_sample (link_sample []) in
  read_reply_loop 1000 [] c = read_reply c /\
  (find_char lf (ctrl_buf c) = None -> (kMaxControlLine < length (ctrl_buf c))%nat -> read_reply c = (None, c)).
Proof. intros c. apply (reply_ends 1000 c). vm_compute. lia. Defined.
