(* ===== verification/FtpsBridge.v ===== *)
(** The file browser over FTPS ([src/BambuSource.cpp] with force_ftps): the
    session on demand, and the handlers of the browser's requests. *)

From S2P Require Import Prelude OMap Text Double Json Tunnel Tls Calendar FtpsParse Ftps.

#[local] Delimit Scope string_scope with string.

Definition kCmdListInfo : Z := 0x0001.
Definition kCmdSubFile : Z := 0x0002.
Definition kCmdFileDel : Z := 0x0003.
Definition kCmdFileDownload : Z := 0x0004.
Definition kCmdRequestMediaAbility : Z := 0x0007.
Definition kCmdTaskCancel : Z := 0x1000.

Definition kResOK : Z := 0.
Definition kResContinue : Z := 1.
Definition kResErrCancel : Z := 4.
Definition kResFileNoExist : Z := 10.
Definition kResStorUnavail : Z := 17.
Definition kResApiUnsupport : Z := 18.

(** One attempt to connect: what the environment variables say, and what the
    connection meets. *)
Record Attempt := { skip_verify : bool; lan_ca_file : option cstr; env_serial : option cstr; meets : Dial }.

(** The part of the tunnel that the bridge uses. [attempts] are the connections
    to come. *)
Record Bridge := {
  url_user : cstr; url_passwd : cstr;
  ftp : option Client; root_is_storage : bool; storage_label : cstr; ftp_prefix : cstr;
  ctrl_cancelled : list Z; ctrl_out : list cstr; attempts : list Attempt }.

Definition with_ftp (c : option Client) (t : Bridge) : Bridge :=
  {| url_user := url_user t; url_passwd := url_passwd t; ftp := c; root_is_storage := root_is_storage t;
     storage_label := storage_label t; ftp_prefix := ftp_prefix t; ctrl_cancelled := ctrl_cancelled t;
     ctrl_out := ctrl_out t; attempts := attempts t |}.

Definition with_storage (root : bool) (label prefix : cstr) (t : Bridge) : Bridge :=
  {| url_user := url_user t; url_passwd := url_passwd t; ftp := ftp t; root_is_storage := root;
     storage_label := label; ftp_prefix := prefix; ctrl_cancelled := ctrl_cancelled t;
     ctrl_out := ctrl_out t; attempts := attempts t |}.

Definition with_cancelled (l : list Z) (t : Bridge) : Bridge :=
  {| url_user := url_user t; url_passwd := url_passwd t; ftp := ftp t; root_is_storage := root_is_storage t;
     storage_label := storage_label t; ftp_prefix := ftp_prefix t; ctrl_cancelled := l;
     ctrl_out := ctrl_out t; attempts := attempts t |}.

Definition with_attempts (l : list Attempt) (t : Bridge) : Bridge :=
  {| url_user := url_user t; url_passwd := url_passwd t; ftp := ftp t; root_is_storage := root_is_storage t;
     storage_label := storage_label t; ftp_prefix := ftp_prefix t; ctrl_cancelled := ctrl_cancelled t;
     ctrl_out := ctrl_out t; attempts := l |}.

Definition push_replies (rs : list cstr) (t : Bridge) : Bridge :=
  {| url_user := url_user t; url_passwd := url_passwd t; ftp := ftp t; root_is_storage := root_is_storage t;
     storage_label := storage_label t; ftp_prefix := ftp_prefix t; ctrl_cancelled := ctrl_cancelled t;
     ctrl_out := ctrl_out t ++ rs; attempts := attempts t |}.

Definition push_reply (r : cstr) : Bridge -> Bridge := push_replies [r].

(** ** Replies *)

Definition make_wire_reply (env : Value) (blob : list byte) : cstr :=
  dump env ++ match blob with [] => [] | _ => kSep ++ blob end.

Definition make_reply_envelope (cmdtype sequence result : Z) (reply : Value) : Value :=
  obj [("cmdtype", num cmdtype); ("sequence", num sequence); ("result", num result); ("reply", reply)]%string.

(** An envelope without a blob. *)
Definition bare (cmdtype sequence result : Z) (reply : Value) : cstr :=
  make_wire_reply (make_reply_envelope cmdtype sequence result reply) [].

Definition no_fields : Value := Object [].

Definition ctrl_is_cancelled (t : Bridge) (sequence : Z) : bool := bool_decide (sequence ∈ ctrl_cancelled t).

(** The destructor of [CancelledGuard]. *)
Definition uncancel (sequence : Z) (t : Bridge) : Bridge :=
  with_cancelled (filter (fun s => s <> sequence) (ctrl_cancelled t)) t.

(** ** The session *)

Inductive FtpErr := ConnectFailed (e : ConnErr) | NoStorageMount.

Definition config_of (a : Attempt) (t : Bridge) : ConnectConfig :=
  {| c_username := if is_empty (url_user t) then str "bblp" else url_user t; c_password := url_passwd t; c_use_tls := true;
     tls_verify_hostname := if skip_verify a then [] else default [] (env_serial a);
     ca_file := if skip_verify a then [] else default [] (lan_ca_file a) |}.

(** No more attempts: the TCP connection fails. *)
Definition no_dial : Dial :=
  {| verify_enabled := true; tcp_up := false; ctx_made := false; verify_setup := false; ssl_made := false;
     handshake_done := false; cn_matches := false; server_in := []; server_out := []; server_links := [] |}.
Definition no_attempt : Attempt := {| skip_verify := false; lan_ca_file := None; env_serial := None; meets := no_dial |}.

(** The mount, by changing to its candidates in turn. *)
Definition probe_storage (c : Client) (t : Bridge) : option FtpErr * Bridge :=
  let '(e, c) := cwd (str "/sdcard") c in
  match e with
  | None => (None, with_storage false (str "sdcard") (str "/sdcard") (with_ftp (Some c) t))
  | Some _ =>
      let '(e, c) := cwd (str "/usb") c in
      match e with
      | None => (None, with_storage false (str "udisk") (str "/usb") (with_ftp (Some c) t))
      | Some _ =>
          let '(e, c) := cwd (str "/") c in
          match e with
          | None => (None, with_storage true (str "udisk") [] (with_ftp (Some c) t))
          | Some _ => (Some NoStorageMount, with_ftp (Some c) t)
          end
      end
  end.

Definition ensure_ftp (t : Bridge) : option FtpErr * Bridge :=
  match ftp t with
  | Some _ => (None, t)
  | None =>
      let a := match attempts t with a :: _ => a | [] => no_attempt end in
      let t := with_attempts (tail (attempts t)) t in
      match connect (config_of a t) (meets a) with
      | (Some e, _) => (Some (ConnectFailed e), t)
      | (None, c) => probe_storage c t
      end
  end.

(** The client that quits is not used again. *)
Definition reconnect_ftp (t : Bridge) : option FtpErr * Bridge := ensure_ftp (with_ftp None t).

Definition resolve_subtree (t : Bridge) (type : cstr) : cstr :=
  if bool_decide (type = str "timelapse") then ftp_prefix t ++ str "/timelapse"
  else if bool_decide (type = str "video") then ftp_prefix t ++ str "/ipcam"
  else if is_empty (ftp_prefix t) then str "/" else ftp_prefix t.

Definition ftps_storage_matches_request (t : Bridge) (req : cstr) : bool :=
  let label s := bool_decide (storage_label t = str s) in
  let same s := bool_decide (req = str s) in
  if is_empty req then negb (label "emmc"%string)
  else if same "internal"%string || same "emmc"%string then label "emmc"%string
  else if same "udisk"%string || same "usb"%string then label "udisk"%string
  else if same "sdcard"%string then label "sdcard"%string
  else bool_decide (req = storage_label t).

Definition keep_for_type (type name : cstr) : bool :=
  let ends suf := ends_with (map to_lower name) (str suf) in
  let same s := bool_decide (type = str s) in
  if same "timelapse"%string then ends ".mp4"%string || ends ".avi"%string
  else if same "video"%string then ends ".mp4"%string
  else if same "model"%string then ends ".3mf"%string || ends ".gcode"%string || ends ".gcode.3mf"%string
  else true.

(** [strftime ("%F %T")], for years of four digits. *)
Definition format_time_studio (epoch : Z) : cstr :=
  if epoch =? 0 then []
  else
    let tm := gmtime epoch in
    dec (tm_year tm) ++ str "-" ++ two_digits (tm_mon tm + 1) ++ str "-" ++ two_digits (tm_mday tm) ++ str " " ++
    two_digits (tm_hour tm) ++ str ":" ++ two_digits (tm_min tm) ++ str ":" ++ two_digits (tm_sec tm).

(** ** Listing *)

Definition ftps_handle_media_ability (sequence : Z) (t : Bridge) : Bridge :=
  let '(err, t) := ensure_ftp t in
  let storage := match err with None => [String (storage_label t)] | Some _ => [] end in
  let result := match err with None => kResOK | Some _ => kResStorUnavail end in
  push_reply (bare kCmdRequestMediaAbility sequence result (obj [("storage"%string, Array storage)])) t.

Definition file_path (path name : cstr) : cstr :=
  if bool_decide (path = str "/") then str "/" ++ name else path ++ str "/" ++ name.

Definition file_object (path : cstr) (e : Entry) : Value :=
  obj ([("name", String (name e)); ("path", String (file_path path (name e))); ("size", num (FtpsParse.size e))] ++
       (if mtime e =? 0 then [] else [("time", num (mtime e)); ("date", String (format_time_studio (mtime e)))]))%string.

Definition file_lists (type path : cstr) (entries : list Entry) : Value :=
  obj [("file_lists"%string,
        Array (map (file_object path) (filter (fun e => negb (is_dir e) && keep_for_type type (name e)) entries)))].

Definition list_reply (sequence : Z) (files : Value) : cstr := bare kCmdListInfo sequence kResOK files.

(** [now] is [std::time]. [None] is the use of a null client. *)
Definition ftps_handle_list_info (now sequence : Z) (req : Value) (t : Bridge) : option Bridge :=
  let type := as_string (find req (str "type")) in
  let storage := as_string (find req (str "storage")) in
  let '(err, t) := ensure_ftp t in
  match err with
  | Some _ => Some (push_reply (bare kCmdListInfo sequence kResStorUnavail no_fields) t)
  | None =>
      if negb (ftps_storage_matches_request t storage) then
        Some (push_reply (list_reply sequence (obj [("file_lists"%string, Array [])])) t)
      else
        c ← ftp t;
        let path := resolve_subtree t type in
        let '(r, c) := list_entries now path c in
        let t := with_ftp (Some c) t in
        match r with
        | inr entries => Some (push_reply (list_reply sequence (file_lists type path entries)) t)
        | inl _ =>
            let empty t := push_reply (list_reply sequence (obj [("file_lists"%string, Array [])])) t in
            let '(err, t) := reconnect_ftp t in
            match err with
            | Some _ => Some (empty t)
            | None =>
                c ← ftp t;
                let path := resolve_subtree t type in
                let '(r, c) := list_entries now path c in
                let t := with_ftp (Some c) t in
                match r with
                | inr entries => Some (push_reply (list_reply sequence (file_lists type path entries)) t)
                | inl _ => Some (empty t)
                end
            end
        end
  end.

(** ** Archives *)

Definition kChunkSize : nat := Z.to_nat 262144.

(** The part of a path before its [#]. *)
Definition base_of (full : cstr) : cstr :=
  match find_char (zb 35) full with Some hash => take hash full | None => full end.

(** Each path once, in the order of its first use. *)
Definition bases (paths : list Value) : list cstr :=
  foldl (fun bs v => let full := base_of (as_string v) in if bool_decide (full ∈ bs) then bs else bs ++ [full]) [] paths.

Definition sub_file_reply (sequence result : Z) (fields : list (String.string * Value)) (blob : list byte) : cstr :=
  make_wire_reply (make_reply_envelope kCmdSubFile sequence result (obj fields)) blob.

Definition archive_fields (full : cstr) (size offset total : Z) (more : bool) : list (String.string * Value) :=
  [("path", String full); ("mimetype", String (str "application/zip")); ("size", num size);
   ("offset", num offset); ("total", num total); ("continue", Bool more)]%string.

(** The chunks of an archive from [offset] on. [chunk_size] is [kChunkSize]. *)
Fixpoint archive_chunks (fuel chunk_size : nat) (sequence : Z) (full : cstr) (total offset : Z) (rest : list byte) (last_file : bool) : list cstr :=
  match fuel, rest with
  | O, _ | _, [] => []
  | S fuel, _ =>
      let chunk := take chunk_size rest in
      let last_chunk := (offset + zlen chunk =? total) in
      sub_file_reply sequence (if last_chunk && last_file then kResOK else kResContinue)
        (archive_fields full (zlen chunk) offset total (negb last_chunk)) chunk
      :: archive_chunks fuel chunk_size sequence full total (offset + zlen chunk) (drop chunk_size rest) last_file
  end.

Definition archive_replies (sequence : Z) (full : cstr) (archive : list byte) (last_file : bool) : list cstr :=
  match archive with
  | [] => [sub_file_reply sequence (if last_file then kResOK else kResContinue) (archive_fields full 0 0 0 false) []]
  | _ => archive_chunks (S (length archive)) kChunkSize sequence full (zlen archive) 0 archive last_file
  end.

(** The sink of [retr_into_archive], with whether it was cancelled. *)
Definition archive_sink (cancelled : bool) (s : list byte * bool) (bs : list byte) : bool * (list byte * bool) :=
  if cancelled then (false, (s.1, true)) else (true, (s.1 ++ bs, s.2)).

(** How serving one archive ends: its bytes, a cancellation or an error. *)
Inductive Served := Archive (bs : list byte) | WasCancelled | NotServed.

Definition served (r : option Err * (list byte * bool)) : Served :=
  if r.2.2 then WasCancelled else match r.1 with Some _ => NotServed | None => Archive r.2.1 end.

(** SIZE only sets aside memory; its result is not used. *)
Definition retr_archive (cancelled : bool) (full : cstr) (c : Client) : (option Err * (list byte * bool)) * Client :=
  let '(_, _, c) := size full c in
  let '(e, s, c) := retr (archive_sink cancelled) full ([], false) c in ((e, s), c).

Definition fetch_archive (sequence : Z) (full : cstr) (t : Bridge) : option (Served * Bridge) :=
  c ← ftp t;
  let cancelled := ctrl_is_cancelled t sequence in
  let '(r, c) := retr_archive cancelled full c in
  let t := with_ftp (Some c) t in
  match served r with
  | NotServed =>
      let '(err, t) := reconnect_ftp t in
      match err with
      | Some _ => Some (NotServed, t)
      | None => c ← ftp t; let '(r, c) := retr_archive cancelled full c in Some (served r, with_ftp (Some c) t)
      end
  | r => Some (r, t)
  end.

Definition cancel_reply (sequence : Z) : cstr := bare kCmdSubFile sequence kResErrCancel no_fields.

Fixpoint serve_archives (sequence : Z) (files : list cstr) (t : Bridge) : option Bridge :=
  match files with
  | [] => Some t
  | full :: files =>
      if ctrl_is_cancelled t sequence then Some (push_reply (cancel_reply sequence) t)
      else
        '(r, t) ← fetch_archive sequence full t;
        match r with
        | WasCancelled => Some (push_reply (cancel_reply sequence) t)
        | NotServed => Some (push_reply (bare kCmdSubFile sequence kResFileNoExist no_fields) t)
        | Archive bs =>
            let last_file := match files with [] => true | _ => false end in
            serve_archives sequence files (push_replies (archive_replies sequence full bs last_file) t)
        end
  end.

(** The empty answers to requests for pictures and metadata. *)
Fixpoint stub_replies (sequence : Z) (fields : Value -> list (String.string * Value)) (vs : list Value) (t : Bridge) : Bridge :=
  match vs with
  | [] => t
  | v :: vs =>
      if ctrl_is_cancelled t sequence then push_reply (cancel_reply sequence) t
      else
        let result := match vs with [] => kResOK | _ => kResContinue end in
        stub_replies sequence fields vs (push_reply (sub_file_reply sequence result (fields v) []) t)
  end.

Definition thumbnail_fields (v : Value) : list (String.string * Value) :=
  [("path", String (as_string v)); ("mimetype", String (str "application/octet-stream")); ("size", num 0);
   ("offset", num 0); ("total", num 0)]%string.
Definition name_fields (v : Value) : list (String.string * Value) :=
  [("name", String (as_string v)); ("mimetype", String (str "image/jpeg")); ("size", num 0)]%string.

Definition ftps_handle_sub_file (sequence : Z) (req : Value) (t : Bridge) : option Bridge :=
  let '(err, t) := ensure_ftp t in
  let paths := as_array (find req (str "paths")) in
  let files := as_array (find req (str "files")) in
  let zip_mode := as_bool false (find req (str "zip")) in
  t ← match err with
      | Some _ => Some (push_reply (bare kCmdSubFile sequence kResStorUnavail no_fields) t)
      | None =>
          match paths, files with
          | _ :: _, _ =>
              if zip_mode then serve_archives sequence (bases paths) t
              else Some (stub_replies sequence thumbnail_fields paths t)
          | [], _ :: _ => Some (stub_replies sequence name_fields files t)
          | [], [] => Some (push_reply (bare kCmdSubFile sequence kResApiUnsupport no_fields) t)
          end
      end;
  Some (uncancel sequence t).

(** ** Downloads *)

Section download.
(** [EVP_md5], and whether its context can be made. *)
Context (md5 : list byte -> list byte) (md5_ready : bool).

Definition finalize_md5 (digested : list byte) : cstr :=
  concat (map (fun c => [hex_lower (Z.land (Z.shiftr (bz c) 4) 0xF); hex_lower (Z.land (bz c) 0xF)]) (md5 digested)).

(** The variables that the lambdas of the handler share. *)
Record Download := { d_digested : list byte; d_buf : list byte; d_sent : Z; d_out : list cstr; d_cancelled : bool }.

Definition new_download : Download := {| d_digested := []; d_buf := []; d_sent := 0; d_out := []; d_cancelled := false |}.

Definition chunk_fields (path : cstr) (offset total size : Z) (digest : option cstr) : list (String.string * Value) :=
  [("path", String path); ("offset", num offset); ("total", num total); ("size", num size)]%string ++
  match digest with Some d => [("file_md5"%string, String d)] | None => [] end.

Definition chunk_reply (sequence : Z) (path : cstr) (offset total : Z) (digest : option cstr) (blob : list byte) : cstr :=
  make_wire_reply
    (make_reply_envelope kCmdFileDownload sequence (match digest with Some _ => kResOK | None => kResContinue end)
       (obj (chunk_fields path offset total (zlen blob) digest))) blob.

Definition flush_chunk (sequence : Z) (path : cstr) (total : Z) (is_last : bool) (d : Download) : Download :=
  let digest := if is_last then Some (finalize_md5 (d_digested d)) else None in
  {| d_digested := d_digested d; d_buf := []; d_sent := u64 (d_sent d + zlen (d_buf d));
     d_out := d_out d ++ [chunk_reply sequence path (d_sent d) total digest (d_buf d)]; d_cancelled := d_cancelled d |}.

(** The loop that fills the buffer of [chunk_size] bytes. *)
Fixpoint fill (fuel chunk_size : nat) (sequence : Z) (path : cstr) (total : Z) (d : Download) (data : list byte) : Download :=
  match fuel, data with
  | O, _ | _, [] => d
  | S fuel, _ =>
      let n := Nat.min (length data) (chunk_size - length (d_buf d)) in
      let d := {| d_digested := d_digested d; d_buf := d_buf d ++ take n data; d_sent := d_sent d; d_out := d_out d; d_cancelled := d_cancelled d |} in
      let d := if (length (d_buf d) =? chunk_size)%nat then flush_chunk sequence path total false d else d in
      fill fuel chunk_size sequence path total d (drop n data)
  end.

Definition download_sink (cancelled : bool) (sequence : Z) (path : cstr) (total : Z) (d : Download) (data : list byte) : bool * Download :=
  if cancelled then
    (false, {| d_digested := d_digested d; d_buf := d_buf d; d_sent := d_sent d; d_out := d_out d; d_cancelled := true |})
  else
    (true, fill (length data) kChunkSize sequence path total
             {| d_digested := d_digested d ++ data; d_buf := d_buf d; d_sent := d_sent d; d_out := d_out d; d_cancelled := d_cancelled d |} data).

Definition request_path (req : Value) : cstr :=
  let path := as_string (find req (str "path")) in
  if is_empty path then as_string (find req (str "file")) else path.

(** SIZE, again after a reconnect when it fails: the size, 0 when unknown. *)
Definition probe_size (path : cstr) (t : Bridge) : option (Z * Bridge) :=
  c ← ftp t;
  let '(e, total, c) := size path c in
  let t := with_ftp (Some c) t in
  match e with
  | None => Some (total, t)
  | Some _ =>
      let '(err, t) := reconnect_ftp t in
      match err with
      | Some _ => Some (0, t)
      | None => c ← ftp t; let '(_, total, c) := size path c in Some (total, with_ftp (Some c) t)
      end
  end.

(** The transfer, with a second try in a new session when nothing came. *)
Definition run_download (sequence : Z) (path : cstr) (total : Z) (t : Bridge) : option (option Err * Download * Bridge) :=
  let cancelled := ctrl_is_cancelled t sequence in
  c ← ftp t;
  let '(e, d, c) := retr (download_sink cancelled sequence path total) path new_download c in
  let t := with_ftp (Some c) t in
  match e with
  | None => Some (None, d, t)
  | Some _ =>
      if negb (d_cancelled d) && (d_sent d =? 0) && is_empty (d_buf d) then
        let '(err, t) := reconnect_ftp t in
        match err with
        | Some _ => Some (e, d, t)
        | None =>
            c ← ftp t;
            let again := {| d_digested := []; d_buf := d_buf d; d_sent := d_sent d; d_out := d_out d; d_cancelled := d_cancelled d |} in
            let '(e, d, c) := retr (download_sink cancelled sequence path total) path again c in
            Some (e, d, with_ftp (Some c) t)
        end
      else Some (e, d, t)
  end.

Definition ftps_handle_file_download (sequence : Z) (req : Value) (t : Bridge) : option Bridge :=
  let refuse result t := Some (push_reply (bare kCmdFileDownload sequence result no_fields) t) in
  let '(err, t) := ensure_ftp t in
  let path := request_path req in
  t ← match err with
      | Some _ => refuse kResStorUnavail t
      | None =>
          if is_empty path then refuse kResFileNoExist t
          else
            '(total, t) ← probe_size path t;
            if negb md5_ready then refuse kResFileNoExist t
            else
              '(e, d, t) ← run_download sequence path total t;
              let t := push_replies (d_out d) t in
              if d_cancelled d then refuse kResErrCancel t
              else
                match e with
                | Some _ => refuse kResFileNoExist t
                | None =>
                    let actual := u64 (d_sent d + zlen (d_buf d)) in
                    let done := flush_chunk sequence path actual true {| d_digested := d_digested d; d_buf := d_buf d;
                                  d_sent := d_sent d; d_out := []; d_cancelled := d_cancelled d |} in
                    Some (push_replies (d_out done) t)
                end
      end;
  Some (uncancel sequence t).

(** ** Deleting, cancelling and dispatch *)

(** The paths deleted and the result; [reconnected] allows one new session. *)
Fixpoint delete_paths (paths : list Value) (reconnected : bool) (result : Z) (ok_names : list Value) (t : Bridge) :
    option (Z * list Value * Bridge) :=
  match paths with
  | [] => Some (result, ok_names, t)
  | v :: paths =>
      let p := as_string v in
      if is_empty p then delete_paths paths reconnected result ok_names t
      else
        c ← ftp t;
        let '(e, c) := dele p c in
        let t := with_ftp (Some c) t in
        '(e, reconnected, t) ←
          match e with
          | Some _ =>
              if reconnected then Some (e, reconnected, t)
              else
                let '(err, t) := reconnect_ftp t in
                match err with
                | Some _ => Some (e, true, t)
                | None => c ← ftp t; let '(e, c) := dele p c in Some (e, true, with_ftp (Some c) t)
                end
          | None => Some (None, reconnected, t)
          end;
        match e with
        | Some _ => delete_paths paths reconnected kResFileNoExist ok_names t
        | None => delete_paths paths reconnected result (ok_names ++ [String p]) t
        end
  end.

Definition ftps_handle_file_del (sequence : Z) (req : Value) (t : Bridge) : option Bridge :=
  let '(err, t) := ensure_ftp t in
  match err with
  | Some _ => Some (push_reply (bare kCmdFileDel sequence kResStorUnavail no_fields) t)
  | None =>
      '(result, ok_names, t) ← delete_paths (as_array (find req (str "paths"))) false kResOK [] t;
      Some (push_reply (bare kCmdFileDel sequence result (obj [("paths"%string, Array ok_names)])) t)
  end.

(** [static_cast<int>] of [as_number]; out of range it is what x86-64 gives. *)
Definition int_of (v : Value) : Z :=
  match v with
  | Number x => match trunc x with Some z => if (- 2 ^ 31 <=? z) && (z <? 2 ^ 31) then z else - 2 ^ 31 | None => - 2 ^ 31 end
  | _ => 0
  end.

Definition insert_seq (s : Z) (l : list Z) : list Z := if bool_decide (s ∈ l) then l else s :: l.

Definition ftps_handle_task_cancel (sequence : Z) (req : Value) (t : Bridge) : Bridge :=
  let seqs := map int_of (as_array (find req (str "tasks"))) in
  let set := if (256 <? length (ctrl_cancelled t))%nat then [] else ctrl_cancelled t in
  let t := with_cancelled (foldl (fun l s => insert_seq s l) set seqs) t in
  push_reply (bare kCmdTaskCancel sequence kResOK (obj [("tasks"%string, Array (map num seqs))])) t.

(** [inl] is a request for the printer itself. *)
Definition ftps_dispatch (now cmdtype sequence : Z) (body : Value) (t : Bridge) : unit + option Bridge :=
  if cmdtype =? kCmdRequestMediaAbility then inr (Some (ftps_handle_media_ability sequence t))
  else if cmdtype =? kCmdListInfo then inr (ftps_handle_list_info now sequence body t)
  else if cmdtype =? kCmdSubFile then inr (ftps_handle_sub_file sequence body t)
  else if cmdtype =? kCmdFileDownload then inr (ftps_handle_file_download sequence body t)
  else if cmdtype =? kCmdFileDel then inr (ftps_handle_file_del sequence body t)
  else if cmdtype =? kCmdTaskCancel then inr (Some (ftps_handle_task_cancel sequence body t))
  else inl tt.

Definition json_part (wire : cstr) : cstr := match find_str kSep wire with Some e => take e wire | None => wire end.

Definition parse_ctrl_request (wire : cstr) : option (Z * Z * Value) :=
  match parse (json_part wire) with
  | Ok v _ =>
      let ct := find v (str "cmdtype") in
      let sq := find v (str "sequence") in
      if negb (is_number ct) || negb (is_number sq) then None else Some (int_of ct, int_of sq, find v (str "req"))
  | _ => None
  end.

(** The worker's requests in order, as long as they are the bridge's: each is
    served before the next is taken from the queue. *)
Fixpoint serve (now : Z) (requests : list (Z * Z * Value)) (t : Bridge) : option Bridge :=
  match requests with
  | [] => Some t
  | (cmdtype, sequence, body) :: requests =>
      match ftps_dispatch now cmdtype sequence body t with
      | inl _ => serve now requests t
      | inr r => t ← r; serve now requests t
      end
  end.
End download.

(** ** Chunks of a download *)

Lemma kChunkSize_pos : (0 < kChunkSize)%nat.
Proof. unfold kChunkSize. change 0%nat with (Z.to_nat 0). apply Z2Nat.inj_lt; lia. Qed.

Section download_proofs.
Context (md5 : list byte -> list byte).
Context (sequence : Z) (path : cstr) (total : Z).
Context (k : nat) (chunk_pos : (0 < k)%nat).

(** The full chunks of [data] from [offset] on, the first [n] of them. *)
Fixpoint full_replies (n : nat) (offset : Z) (data : list byte) : list cstr :=
  match n with
  | O => []
  | S n => chunk_reply sequence path offset total None (take k data) :: full_replies n (offset + Z.of_nat k) (drop k data)
  end.

Lemma full_replies_app n : forall offset a b, (n * k <= length a)%nat -> full_replies n offset (a ++ b) = full_replies n offset a.
Proof.
  induction n as [|n IH]; intros offset a b Hn; [done|]. cbn [full_replies]. cbn [Nat.mul] in Hn.
  rewrite take_app_le, drop_app_le by lia. rewrite IH; [done|]. rewrite length_drop. lia.
Qed.

Lemma full_replies_snoc n : forall offset data,
  full_replies (S n) offset data =
  full_replies n offset data ++ [chunk_reply sequence path (offset + Z.of_nat (n * k)) total None (take k (drop (n * k) data))].
Proof.
  induction n as [|n IH]; intros offset data.
  - cbn [full_replies Nat.mul app drop]. by rewrite Z.add_0_r.
  - change (full_replies (S (S n)) offset data) with
      (chunk_reply sequence path offset total None (take k data) :: full_replies (S n) (offset + Z.of_nat k) (drop k data)).
    rewrite IH, drop_drop. cbn [full_replies app].
    replace (offset + Z.of_nat k + Z.of_nat (n * k)) with (offset + Z.of_nat (S n * k)) by lia. done.
Qed.

(** After [data] the buffer has what does not fill a chunk. *)
Record downloaded (data : list byte) (d : Download) : Prop := {
  dl_digested : d_digested d = data;
  dl_buf : d_buf d = drop (length data / k * k) data;
  dl_sent : d_sent d = Z.of_nat (length data / k * k);
  dl_out : d_out d = full_replies (length data / k) 0 data;
  dl_cancelled : d_cancelled d = false }.

Definition filled (data : list byte) (d : Download) : Prop :=
  d_buf d = drop (length data / k * k) data /\ d_sent d = Z.of_nat (length data / k * k) /\
  d_out d = full_replies (length data / k) 0 data.

Lemma filled_step data d a :
  filled data d -> (length (d_buf d) + length a <= k)%nat -> Z.of_nat (length data + length a) < 2 ^ 64 ->
  let d' := {| d_digested := d_digested d; d_buf := d_buf d ++ a; d_sent := d_sent d; d_out := d_out d; d_cancelled := d_cancelled d |} in
  filled (data ++ a) (if (length (d_buf d') =? k)%nat then flush_chunk md5 sequence path total false d' else d').
Proof.
  intros (Hb & Hs & Ho) Ha Hmax. cbn [d_buf]. pose proof chunk_pos as Hk.
  pose proof (Nat.div_mod_eq (length data) k) as Hdm. pose proof (Nat.mod_upper_bound (length data) k ltac:(lia)) as Hmod.
  set (n := (length data / k)%nat) in *. assert (Hlb : length (d_buf d) = (length data - n * k)%nat) by (by rewrite Hb, length_drop).
  assert (Hnk : (n * k <= length data)%nat) by lia.
  destruct (Nat.eqb_spec (length (d_buf d ++ a)) k) as [He|He]; rewrite length_app in He.
  - assert (Hn : ((length data + length a) / k = S n)%nat) by (symmetry; apply (Nat.div_unique _ _ _ 0); lia).
    unfold filled. rewrite length_app, Hn. unfold flush_chunk. cbn [d_buf d_sent d_out]. split_and!.
    + rewrite drop_ge; [done|]. rewrite length_app. lia.
    + unfold u64, zlen. rewrite Hs, length_app. rewrite Z.mod_small by lia. lia.
    + rewrite full_replies_snoc, full_replies_app, Ho, Hs by done. do 2 f_equal. f_equal.
      rewrite drop_app_le by done. rewrite <- Hb. rewrite take_ge; [done|]. rewrite length_app. lia.
  - assert (Hn : ((length data + length a) / k = n)%nat) by (symmetry; apply (Nat.div_unique _ _ _ (length data + length a - n * k)); lia).
    unfold filled. rewrite length_app, Hn. cbn [d_buf d_sent d_out]. split_and!; [|done|].
    + by rewrite Hb, drop_app_le by done.
    + by rewrite full_replies_app.
Qed.

Lemma fill_filled fuel : forall data d a,
  filled data d -> (length a <= fuel)%nat -> Z.of_nat (length data + length a) < 2 ^ 64 -> filled (data ++ a) (fill md5 fuel k sequence path total d a).
Proof.
  induction fuel as [|fuel IH]; intros data d a Hd Hf Hmax.
  - destruct a; [|cbn in Hf; lia]. by rewrite app_nil_r.
  - destruct a as [|b a]; [cbn; by rewrite app_nil_r|]. cbn [fill].
    assert (Hlt : (length (d_buf d) < k)%nat).
    { destruct Hd as (-> & _). rewrite length_drop. pose proof (Nat.div_mod_eq (length data) k).
      pose proof (Nat.mod_upper_bound (length data) k ltac:(lia)). lia. }
    set (n := Nat.min (length (b :: a)) (k - length (d_buf d))). assert (Hn : (0 < n <= length (b :: a))%nat) by (subst n; cbn [length]; lia).
    assert (Hnk : (length (d_buf d) + length (take n (b :: a)) <= k)%nat) by (rewrite length_take; subst n; lia).
    pose proof (filled_step data d (take n (b :: a)) Hd Hnk ltac:(rewrite length_take; lia)) as H1. cbv zeta in H1. cbv zeta.
    specialize (IH _ _ (drop n (b :: a)) H1). rewrite <- app_assoc, take_drop in IH. apply IH.
    + rewrite length_drop. cbn [length] in *. lia.
    + rewrite length_app, length_drop, length_take. lia.
Qed.

Lemma fill_keeps fuel chunk_size : forall d a,
  d_digested (fill md5 fuel chunk_size sequence path total d a) = d_digested d /\
  d_cancelled (fill md5 fuel chunk_size sequence path total d a) = d_cancelled d.
Proof.
  induction fuel as [|fuel IH]; intros d a; [done|]. destruct a as [|b a]; [done|]. cbn [fill]. cbv zeta.
  match goal with |- context [fill _ fuel _ _ _ _ ?d' ?a'] => destruct (IH d' a') as [-> ->] end.
  by destruct (_ =? _)%nat.
Qed.
End download_proofs.

Lemma feed_download md5 sequence path total pieces : forall data d d',
  downloaded sequence path total kChunkSize data d -> Z.of_nat (length data + length (concat pieces)) < 2 ^ 64 ->
  feed (download_sink md5 false sequence path total) d pieces = Some d' ->
  downloaded sequence path total kChunkSize (data ++ concat pieces) d'.
Proof.
  induction pieces as [|bs pieces IH]; intros data d d' Hd Hmax H; cbn [feed concat] in *.
  - injection H as <-. by rewrite app_nil_r.
  - rewrite length_app in Hmax. rewrite app_assoc. cbn [download_sink] in H. eapply IH; [| |exact H]; [|rewrite length_app; lia].
    destruct Hd as [Hdg Hb Hs Ho Hc].
    set (d0 := {| d_digested := d_digested d ++ bs; d_buf := d_buf d; d_sent := d_sent d; d_out := d_out d; d_cancelled := d_cancelled d |}).
    destruct (fill_keeps md5 sequence path total (length bs) kChunkSize d0 bs) as [K1 K2].
    destruct (fill_filled md5 sequence path total kChunkSize kChunkSize_pos (length bs) data d0 bs) as (F1 & F2 & F3); [done|lia|lia|].
    split; [by rewrite K1; subst d0; cbn; rewrite Hdg | done..|]. by rewrite K2.
Qed.

(** What a download is answered with: the full chunks, under the size that SIZE
    told, then the rest with the size that came and the digest. *)
Definition download_replies (md5 : list byte -> list byte) (sequence : Z) (path : cstr) (probed : Z) (data : list byte) : list cstr :=
  let n := (length data / kChunkSize)%nat in
  full_replies sequence path probed kChunkSize n 0 data ++
  [chunk_reply sequence path (Z.of_nat (n * kChunkSize)) (zlen data) (Some (finalize_md5 md5 data)) (drop (n * kChunkSize) data)].

Lemma rest_size (data : list byte) (k : nat) :
  zlen data < 2 ^ 64 -> u64 (Z.of_nat (length data / k * k) + zlen (drop (length data / k * k) data)) = zlen data.
Proof.
  intros H. pose proof (Nat.Div0.mul_div_le (length data) k). unfold u64, zlen in *. rewrite length_drop, Z.mod_small by lia. lia.
Qed.

Lemma new_downloaded sequence path total : downloaded sequence path total kChunkSize [] new_download.
Proof. split; cbn [length new_download d_digested d_buf d_sent d_out d_cancelled]; rewrite ?Nat.Div0.div_0_l; done. Qed.

Lemma willing_sink md5 sequence path total : willing (download_sink md5 false sequence path total) (fun _ => True).
Proof. done. Qed.

(** A session in use, ready to read [inp]. *)
Definition session_at (inp : cstr) (ls : list Link) (t : Bridge) : Prop :=
  exists c wr ports ca, ftp t = Some c /\ at_ctrl true inp wr ls ports ca c.

Lemma ensure_session inp ls t : session_at inp ls t -> ensure_ftp t = (None, t).
Proof. intros (c & wr & ports & ca & E & _). unfold ensure_ftp. by rewrite E. Qed.

Lemma download_answered md5 sequence req probed pasv port go code fin code' l tl ls t :
  let path := request_path req in
  let data := flow (link_in l) in
  path <> [] -> ctrl_is_cancelled t sequence = false -> 0 <= probed < 2 ^ 64 -> zlen data < 2 ^ 64 ->
  answers pasv 227 -> port_of (reply_body pasv) = Some port -> answers go code -> started code = true ->
  answers fin code' -> finished code' = true ->
  link_up l = true -> link_tls l = true -> flow_end (link_in l) = Some Closed ->
  session_at (reply_wire (one_line (str "213 " ++ dec_nonneg probed)) ++ reply_wire pasv ++ reply_wire go ++ reply_wire fin ++ tl) (l :: ls) t ->
  exists t', ftps_handle_file_download md5 true sequence req t = Some t' /\
    ctrl_out t' = ctrl_out t ++ download_replies md5 sequence path probed data /\ session_at tl ls t'.
Proof.
  intros path data Hpath Hcan Hprobed Hmax Hpasv Hport Hgo Hst Hfin Hf Hup Htls He Ht.
  unfold ftps_handle_file_download. rewrite (ensure_session _ _ _ Ht). fold path. destruct Ht as (c & wr & ports & ca & Ec & H).
  destruct path as [|p path'] eqn:Ep; [done|]. cbn [is_empty]. rewrite <- Ep in *. clear Hpath.
  destruct (size_read true path probed _ wr _ ports ca c Hprobed H) as (c1 & E1 & H1).
  unfold probe_size. rewrite Ec. cbn [mbind option_bind]. rewrite E1. cbn [mbind option_bind negb].
  unfold run_download. cbn [with_ftp ftp mbind option_bind]. change (ctrl_is_cancelled (with_ftp (Some c1) t) sequence) with (ctrl_is_cancelled t sequence).
  rewrite Hcan.
  destruct (download_completes (download_sink md5 false sequence path probed) (fun _ => True) true path new_download pasv port go code fin code' l
              tl _ ls ports ca c1 (willing_sink md5 sequence path probed) I Hpasv Hport Hgo Hst Hfin Hf Hup ltac:(done) He H1)
    as (d & c2 & pieces & E2 & Hpieces & Hfeed & H2).
  rewrite E2. cbn [mbind option_bind].
  apply (feed_download md5 sequence path probed pieces [] new_download d (new_downloaded sequence path probed)) in Hfeed;
    [|rewrite Hpieces; cbn [length Nat.add]; exact Hmax].
  cbn [app] in Hfeed. rewrite Hpieces in Hfeed. fold data in Hfeed. destruct Hfeed as [Hdg Hb Hs Ho Hc]. rewrite Hc.
  eexists. split; [reflexivity|]. split.
  - cbn [uncancel with_cancelled push_replies with_ftp ctrl_out flush_chunk d_out d_digested d_sent d_buf]. rewrite <- app_assoc.
    unfold download_replies. cbv zeta. rewrite Ho, Hs, Hb, Hdg, rest_size by done. reflexivity.
  - exists c2. do 3 eexists. split; [reflexivity|]. exact H2.
Qed.

(** C27: A FILE_DOWNLOAD request, in a session whose server sends the file:
    whatever pieces the data arrives in, the replies carry it in order as chunks
    of 256 KiB at consecutive offsets, and the rest of it, possibly empty, with
    the result of success, the number of bytes that came as the total and their
    MD5 in hexadecimal. *)
Theorem download_served md5 sequence req probed pasv port go code fin code' l tl ls t :
  let path := request_path req in
  let data := flow (link_in l) in
  path <> [] -> ctrl_is_cancelled t sequence = false -> 0 <= probed < 2 ^ 64 -> zlen data < 2 ^ 64 ->
  answers pasv 227 -> port_of (reply_body pasv) = Some port -> answers go code -> started code = true ->
  answers fin code' -> finished code' = true ->
  link_up l = true -> link_tls l = true -> flow_end (link_in l) = Some Closed ->
  session_at (reply_wire (one_line (str "213 " ++ dec_nonneg probed)) ++ reply_wire pasv ++ reply_wire go ++ reply_wire fin ++ tl) (l :: ls) t ->
  exists t', ftps_handle_file_download md5 true sequence req t = Some t' /\
    ctrl_out t' = ctrl_out t ++ download_replies md5 sequence path probed data /\ session_at tl ls t'.
Proof. apply download_answered. Qed.

(** ** Replies as the caller reads them *)

Definition reply_read (r : cstr) : option (Value * list byte) :=
  '(json, blob) ← split_json_prefix r; v ← parsed json; Some (v, blob).

Lemma read_wire_reply cmdtype sequence result fields blob :
  Z.abs cmdtype < 2 ^ 53 -> Z.abs sequence < 2 ^ 53 -> Z.abs result < 2 ^ 53 -> Forall (fun kv => fine 126 kv.2) fields ->
  let env := make_reply_envelope cmdtype sequence result (obj fields) in
  reply_read (make_wire_reply env blob) = Some (env, blob).
Proof.
  intros Hc Hs Hr Hf env.
  assert (He : fine 128 env).
  { apply (fine_obj 127). do 3 (constructor; [by apply fine_num|]). constructor; [|constructor]. by apply (fine_obj 126). }
  destruct He as (Hsort & Hn & Hd). unfold reply_read, make_wire_reply.
  assert (exists l, env = Object l) as (l & El) by (eexists; apply obj_members). clearbody env. subst env. rewrite object_text.
  assert (Hp : passes (join (map member_text l))).
  { apply passes_join. cbn [numbers_ok] in Hn. rewrite forallb_forall in Hn. apply Forall_forall.
    intros x (kv & <- & Hkv)%list_elem_of_In%in_map_iff. unfold member_text. apply passes_app; [apply passes_escape|].
    apply passes_app; [apply passes_plain; by repeat constructor|]. apply passes_dump. by apply Hn. }
  pose proof (split_with_binary _ blob Hp) as Hb.
  assert (Hw : (([zb 123] ++ join (map member_text l) ++ [zb 125]) ++ match blob with [] => [] | _ => kSep ++ blob end) =
               match blob with [] => [zb 123] ++ join (map member_text l) ++ [zb 125]
                             | _ => ([zb 123] ++ join (map member_text l) ++ [zb 125]) ++ kSep ++ blob end).
  { destruct blob; [by rewrite app_nil_r|done]. }
  rewrite Hw, Hb. cbn [mbind option_bind]. rewrite <- object_text. unfold parsed. by rewrite parse_of_dump.
Qed.

Definition blob_read (r : cstr) : list byte := match reply_read r with Some (_, blob) => blob | None => [] end.
Definition field_read (field : String.string) (r : cstr) : Value :=
  match reply_read r with Some (v, _) => find v (str field) | None => Null end.
Definition int_read (field : String.string) (r : cstr) : Z := as_int (-1) (field_read field r).

(** The fields of a chunk. *)
Lemma read_download_chunk sequence path offset total digest blob :
  Z.abs sequence < 2 ^ 31 -> 0 <= offset < 2 ^ 53 -> 0 <= total < 2 ^ 53 -> zlen blob < 2 ^ 53 ->
  let r := chunk_reply sequence path offset total digest blob in
  blob_read r = blob /\ int_read "result"%string r = match digest with Some _ => kResOK | None => kResContinue end /\
  int_read "sequence"%string r = sequence /\ int_read "reply.offset"%string r = offset /\ int_read "reply.total"%string r = total /\
  int_read "reply.size"%string r = zlen blob /\
  field_read "reply.file_md5"%string r = match digest with Some d => String d | None => Null end.
Proof.
  intros Hs Ho Ht Hz r. pose proof (zlen_nonneg blob) as Hz0.
  assert (Hr : Z.abs (match digest with Some _ => kResOK | None => kResContinue end) < 2 ^ 53) by (unfold kResOK, kResContinue; destruct digest; lia).
  assert (E : reply_read r = Some (make_reply_envelope kCmdFileDownload sequence (match digest with Some _ => kResOK | None => kResContinue end)
                (obj (chunk_fields path offset total (zlen blob) digest)), blob)).
  { apply read_wire_reply; [unfold kCmdFileDownload; lia | lia | done |]. unfold chunk_fields. apply Forall_app. split.
    - constructor; [apply fine_string|]. do 3 (constructor; [apply fine_num; lia|]). constructor.
    - destruct digest; repeat constructor. }
  unfold blob_read, int_read, field_read. rewrite E. split; [done|].
  assert (Hn : forall v z, v = num z -> Z.abs z < 2 ^ 53 -> as_int (-1) v = z) by (intros v z -> ?; by apply as_int_of_int).
  unfold make_reply_envelope, chunk_fields.
  split_and!; try (apply Hn; [|assumption || lia]); destruct digest;
    generalize (num kCmdFileDownload) (num sequence) (num offset) (num total) (num (zlen blob)) (num kResOK) (num kResContinue); intros; reflexivity.
Qed.

Lemma full_replies_read sequence path total k n : forall offset data,
  (0 < k)%nat -> Z.abs sequence < 2 ^ 31 -> 0 <= total < 2 ^ 53 -> 0 <= offset -> offset + zlen data < 2 ^ 53 -> (n * k <= length data)%nat ->
  concat (map blob_read (full_replies sequence path total k n offset data)) = take (n * k) data /\
  Forall (fun r => int_read "result"%string r = kResContinue) (full_replies sequence path total k n offset data).
Proof.
  induction n as [|n IH]; intros offset data Hk Hs Ht Ho Hm Hn; [done|]. cbn [full_replies map concat].
  cbn [Nat.mul] in Hn. assert (Hl : length (take k data) = k) by (rewrite length_take; lia). unfold zlen in *.
  destruct (read_download_chunk sequence path offset total None (take k data)) as (-> & Hr & _); [lia|lia|lia|unfold zlen; lia|].
  destruct (IH (offset + Z.of_nat k) (drop k data)) as [-> Hf]; [done | done | done | lia | rewrite length_drop; lia | rewrite length_drop; lia |].
  split; [|by constructor]. cbn [Nat.mul].
  by rewrite take_take_drop.
Qed.

(** The answer to a download puts the file together again: the data of the
    replies, as the caller separates it from their JSON, are the file, every
    reply but the last says that more follows, and the last has the file's size
    as the end of its range and its digest. *)
Lemma download_reassembles md5 sequence path probed data :
  Z.abs sequence < 2 ^ 31 -> 0 <= probed < 2 ^ 53 -> zlen data < 2 ^ 53 ->
  let rs := download_replies md5 sequence path probed data in
  concat (map blob_read rs) = data /\
  exists more final, rs = more ++ [final] /\ Forall (fun r => int_read "result"%string r = kResContinue) more /\
    int_read "result"%string final = kResOK /\
    int_read "reply.offset"%string final + int_read "reply.size"%string final = zlen data /\
    int_read "reply.total"%string final = zlen data /\
    field_read "reply.file_md5"%string final = String (finalize_md5 md5 data).
Proof.
  intros Hs Hp Hd rs. unfold rs, download_replies. pose proof kChunkSize_pos as Hk. generalize dependent kChunkSize. intros k Hk.
  set (n := (length data / k)%nat). assert (Hn : (n * k <= length data)%nat) by (pose proof (Nat.Div0.mul_div_le (length data) k); lia).
  pose proof (zlen_nonneg data). assert (Hrest : zlen (drop (n * k) data) = zlen data - Z.of_nat (n * k)) by (unfold zlen; rewrite length_drop; lia).
  destruct (full_replies_read sequence path probed k n 0 data) as [Hb Hf]; [done | done | done | lia | lia | done |].
  destruct (read_download_chunk sequence path (Z.of_nat (n * k)) (zlen data) (Some (finalize_md5 md5 data)) (drop (n * k) data))
    as (Eb & Er & _ & Eo & Et & Ez & Em); [done | unfold zlen in *; lia | lia | lia |].
  split.
  - rewrite map_app, concat_app, Hb. cbn [map concat]. rewrite Eb, app_nil_r. apply take_drop.
  - do 2 eexists. split; [reflexivity|]. rewrite Er, Eo, Et, Ez, Em. split_and!; [done | done | lia | done | done].
Qed.

(** The replies to a file of whole chunks whose size SIZE told. *)
Lemma whole_chunk_replies md5 sequence path (m : nat) data :
  Z.abs sequence < 2 ^ 31 -> zlen data < 2 ^ 53 -> length data = (S m * kChunkSize)%nat ->
  exists more r final, download_replies md5 sequence path (zlen data) data = more ++ [r; final] /\
    concat (map blob_read more) ++ blob_read r = data /\
    int_read "reply.offset"%string r + int_read "reply.size"%string r = zlen data /\ int_read "reply.total"%string r = zlen data /\
    field_read "reply.file_md5"%string r = Null /\
    blob_read final = [] /\ field_read "reply.file_md5"%string final = String (finalize_md5 md5 data).
Proof.
  intros Hs Hd Hm. unfold download_replies. pose proof kChunkSize_pos as Hk. generalize dependent kChunkSize. intros k Hm Hk.
  pose proof (zlen_nonneg data). assert (Hn : (length data / k = S m)%nat) by (rewrite Hm; apply Nat.div_mul; lia). rewrite Hn.
  rewrite (full_replies_snoc _ _ _ k Hk), <- app_assoc. do 3 eexists. split; [reflexivity|].
  assert (Hl : zlen (take k (drop (m * k) data)) = Z.of_nat k) by (unfold zlen; rewrite length_take, length_drop; lia).
  assert (Hz : zlen data = Z.of_nat (m * k) + Z.of_nat k) by (unfold zlen; rewrite Hm; lia).
  destruct (full_replies_read sequence path (zlen data) k m 0 data) as [Hb _]; [done | done | lia | lia | lia | lia |]. rewrite Hb.
  destruct (read_download_chunk sequence path (0 + Z.of_nat (m * k)) (zlen data) None (take k (drop (m * k) data)))
    as (-> & _ & _ & -> & -> & -> & ->); [done | lia | lia | lia |].
  destruct (read_download_chunk sequence path (Z.of_nat (S m * k)) (zlen data) (Some (finalize_md5 md5 data)) (drop (S m * k) data))
    as (-> & _ & _ & _ & _ & _ & ->); [done | lia | lia | unfold zlen in *; rewrite length_drop; lia |].
  split_and!; [|lia | done | done | apply drop_ge; lia | done].
  rewrite take_take_drop. apply take_ge. lia.
Qed.

(** C38: A FILE_DOWNLOAD of a file of whole chunks whose size SIZE told, in a
    session whose server sends it in any pieces: the reply that completes the file,
    whose range ends at the total, has no digest; the digest is in the empty reply
    that follows it. *)
Theorem whole_chunks_lack_digest md5 sequence req (m : nat) pasv port go code fin code' l tl ls t :
  let path := request_path req in
  let data := flow (link_in l) in
  Z.abs sequence < 2 ^ 31 -> zlen data < 2 ^ 53 -> length data = (S m * kChunkSize)%nat ->
  path <> [] -> ctrl_is_cancelled t sequence = false ->
  answers pasv 227 -> port_of (reply_body pasv) = Some port -> answers go code -> started code = true ->
  answers fin code' -> finished code' = true ->
  link_up l = true -> link_tls l = true -> flow_end (link_in l) = Some Closed ->
  session_at (reply_wire (one_line (str "213 " ++ dec_nonneg (zlen data))) ++ reply_wire pasv ++ reply_wire go ++ reply_wire fin ++ tl) (l :: ls) t ->
  exists t' more r final, ftps_handle_file_download md5 true sequence req t = Some t' /\
    ctrl_out t' = ctrl_out t ++ more ++ [r; final] /\ concat (map blob_read more) ++ blob_read r = data /\
    int_read "reply.offset"%string r + int_read "reply.size"%string r = zlen data /\ int_read "reply.total"%string r = zlen data /\
    field_read "reply.file_md5"%string r = Null /\
    blob_read final = [] /\ field_read "reply.file_md5"%string final = String (finalize_md5 md5 data).
Proof.
  intros path data Hs Hd Hm Hp Hcan Hpasv Hport Hgo Hst Hfin Hf Hup Htls He Ht. pose proof (zlen_nonneg data).
  destruct (download_answered md5 sequence req (zlen data) pasv port go code fin code' l tl ls t) as (t' & E & Ho & _); try done; [lia | fold data; lia |].
  destruct (whole_chunk_replies md5 sequence path m data Hs Hd Hm) as (more & r & final & Er & H'). fold path data in Ho. rewrite Er in Ho.
  by exists t', more, r, final.
Qed.

(** ** Listings *)

(** A LIST_INFO request for the mounted storage, in a session whose server
    lists the directory, is answered with its files that Studio shows for the
    type, in order, with their paths, sizes and times. *)
Lemma listing_served now sequence req items pasv port go code fin code' l tl ls t :
  let type := as_string (find req (str "type")) in
  ftps_storage_matches_request t (as_string (find req (str "storage"))) = true ->
  Forall (item_ok now) items -> flow (link_in l) = concat (map (fun i => eol (item_line i)) items) ->
  answers pasv 227 -> port_of (reply_body pasv) = Some port -> answers go code -> started code = true ->
  answers fin code' -> finished code' = true -> link_up l = true -> link_tls l = true ->
  session_at (reply_wire pasv ++ reply_wire go ++ reply_wire fin ++ tl) (l :: ls) t ->
  exists t', ftps_handle_list_info now sequence req t = Some t' /\
    ctrl_out t' = ctrl_out t ++ [list_reply sequence (file_lists type (resolve_subtree t type) (concat (map item_entries items)))] /\
    session_at tl ls t'.
Proof.
  intros type Hst Hitems Hflow Hpasv Hport Hgo Hs Hfin Hf Hup Htls Ht. unfold ftps_handle_list_info.
  rewrite (ensure_session _ _ _ Ht), Hst. cbn [negb]. fold type. destruct Ht as (c & wr & ports & ca & Ec & H). rewrite Ec. cbn [mbind option_bind].
  destruct (listing_read now true (resolve_subtree t type) items pasv port go code fin code' l tl wr ls ports ca c
              Hitems Hflow Hpasv Hport Hgo Hs Hfin Hf Hup ltac:(done) H) as (c1 & E1 & H1).
  rewrite E1. eexists. split; [reflexivity|]. split; [done|]. exists c1. do 3 eexists. split; [reflexivity|exact H1].
Qed.

(** ** Archives *)

Lemma read_archive_chunk sequence result full size offset total more blob :
  Z.abs sequence < 2 ^ 31 -> 0 <= result < 2 -> 0 <= size < 2 ^ 53 -> 0 <= offset < 2 ^ 53 -> 0 <= total < 2 ^ 53 ->
  let r := sub_file_reply sequence result (archive_fields full size offset total more) blob in
  blob_read r = blob /\ int_read "result"%string r = result /\ int_read "reply.offset"%string r = offset /\
  field_read "reply.continue"%string r = Bool more.
Proof.
  intros Hs Hr Hz Ho Ht r.
  assert (E : reply_read r = Some (make_reply_envelope kCmdSubFile sequence result (obj (archive_fields full size offset total more)), blob)).
  { apply read_wire_reply; [unfold kCmdSubFile; lia | lia | lia |]. unfold archive_fields.
    do 2 (constructor; [apply fine_string|]). do 3 (constructor; [apply fine_num; lia|]). repeat constructor. }
  unfold blob_read, int_read, field_read. rewrite E. split; [done|].
  assert (Hn : forall v z, v = num z -> Z.abs z < 2 ^ 53 -> as_int (-1) v = z) by (intros v z -> ?; by apply as_int_of_int).
  unfold make_reply_envelope, archive_fields.
  split_and!; try (apply Hn; [|lia]); generalize (num kCmdSubFile) (num sequence) (num offset) (num total) (num size) (num result); intros; reflexivity.
Qed.

(** The replies of an archive whose last has [result]. *)
Definition archive_answer (archive : list byte) (result : Z) (rs : list cstr) : Prop :=
  concat (map blob_read rs) = archive /\
  exists more final, rs = more ++ [final] /\
    Forall (fun r => int_read "result"%string r = kResContinue /\ field_read "reply.continue"%string r = Bool true) more /\
    int_read "result"%string final = result /\ field_read "reply.continue"%string final = Bool false.

Lemma archive_chunks_answer fuel k sequence full total last_file : forall offset rest,
  (0 < k)%nat -> Z.abs sequence < 2 ^ 31 -> 0 <= offset -> total < 2 ^ 53 -> offset + zlen rest = total -> rest <> [] -> (length rest < fuel)%nat ->
  archive_answer rest (if (last_file : bool) then kResOK else kResContinue) (archive_chunks fuel k sequence full total offset rest last_file).
Proof.
  induction fuel as [|fuel IH]; intros offset rest Hk Hs Ho Ht Htot Hne Hf; [lia|].
  destruct rest as [|b rest']; [done|]. cbn [archive_chunks]. set (rest := b :: rest') in *. clear Hne.
  assert (Hl : (0 < length rest)%nat) by (subst rest; cbn; lia).
  assert (Hlen : length (take k rest) = Nat.min k (length rest)) by apply length_take. unfold zlen in *. set (last_chunk := _ =? total).
  destruct (read_archive_chunk sequence (if last_chunk && last_file then kResOK else kResContinue) full (Z.of_nat (length (take k rest))) offset total
              (negb last_chunk) (take k rest)) as (Eb & Er & _ & Ec); [done | unfold kResOK, kResContinue; destruct (_ && _); lia | lia | lia | lia |].
  unfold archive_answer. cbn [map concat]. rewrite Eb. destruct (Nat.leb_spec (length rest) k) as [Hle|Hgt].
  - assert (Hlast : last_chunk = true) by (subst last_chunk; apply Z.eqb_eq; lia). rewrite Hlast in *. rewrite drop_ge, take_ge by lia.
    assert (Hnil : forall o, archive_chunks fuel k sequence full total o [] last_file = []) by (by destruct fuel). rewrite Hnil.
    split; [apply app_nil_r|]. exists []. eexists. split; [reflexivity|]. split; [done|]. rewrite take_ge in Er, Ec by lia.
    split; [exact Er | exact Ec].
  - assert (Hlast : last_chunk = false) by (subst last_chunk; apply Z.eqb_neq; lia). rewrite Hlast in *.
    destruct (IH (offset + Z.of_nat (length (take k rest))) (drop k rest)) as (Hc & more & final & Hrs & Hmore & Hfin).
    { done. } { done. } { lia. } { done. } { rewrite length_drop. lia. } { intros Hd. apply (f_equal length) in Hd. rewrite length_drop in Hd. change (length (@nil byte)) with 0%nat in Hd. lia. }
    { rewrite length_drop. lia. }
    rewrite Hc, take_drop. split; [done|]. rewrite Hrs.
    eexists (_ :: more), final. split; [reflexivity|]. split; [|exact Hfin]. constructor; [|exact Hmore]. split; [exact Er | exact Ec].
Qed.

Lemma size_at full r code tl wr ls ports ca c :
  answers r code -> at_ctrl true (reply_wire r ++ tl) wr ls ports ca c ->
  exists e n c', size full c = (e, n, c') /\ at_ctrl true tl (wr ++ eol (str "SIZE " ++ full)) ls ports ca c'.
Proof.
  intros Hr H. destruct (send_at true (str "SIZE " ++ full) r code _ _ _ _ _ _ Hr H) as (c1 & E & H1). unfold size. rewrite E.
  destruct (negb _); [eauto|]. destruct (strtol _); eauto.
Qed.

(** A SUB_FILE request for an archive, in a session whose server sends it,
    whatever it answers to SIZE: the data of the replies, as the caller
    separates it, are the archive; each but the last says that more follows,
    and the last has the result of success. *)
Lemma archive_served sequence req full sz szcode pasv port go code fin code' l tl ls t :
  let data := flow (link_in l) in
  bases (as_array (find req (str "paths"))) = [full] -> as_bool false (find req (str "zip")) = true ->
  ctrl_is_cancelled t sequence = false -> Z.abs sequence < 2 ^ 31 -> zlen data < 2 ^ 53 ->
  answers sz szcode -> answers pasv 227 -> port_of (reply_body pasv) = Some port -> answers go code -> started code = true ->
  answers fin code' -> finished code' = true ->
  link_up l = true -> link_tls l = true -> flow_end (link_in l) = Some Closed ->
  session_at (reply_wire sz ++ reply_wire pasv ++ reply_wire go ++ reply_wire fin ++ tl) (l :: ls) t ->
  exists t' rs, ftps_handle_sub_file sequence req t = Some t' /\ ctrl_out t' = ctrl_out t ++ rs /\
    archive_answer data kResOK rs /\ session_at tl ls t'.
Proof.
  intros data Hbases Hzip Hcan Hseq Hmax Hsz Hpasv Hport Hgo Hst Hfin Hf Hup Htls He Ht. unfold ftps_handle_sub_file.
  rewrite (ensure_session _ _ _ Ht), Hzip, Hbases. destruct Ht as (c & wr & ports & ca & Ec & H).
  destruct (as_array (find req (str "paths"))) as [|p ps]; [done|]. cbn [serve_archives]. rewrite Hcan.
  unfold fetch_archive. rewrite Ec. cbn [mbind option_bind]. rewrite Hcan. unfold retr_archive.
  destruct (size_at full sz szcode _ wr _ ports ca c Hsz H) as (e & n & c1 & E1 & H1). rewrite E1.
  destruct (download_completes (archive_sink false) (fun _ => True) true full ([], false) pasv port go code fin code' l
              tl _ ls ports ca c1 ltac:(done) I Hpasv Hport Hgo Hst Hfin Hf Hup ltac:(done) He H1) as (s & c2 & pieces & E2 & Hp & Hfeed & H2).
  rewrite E2. assert (Hs : s = (data, false)).
  { assert (Hg : forall ps a s', feed (archive_sink false) (a, false) ps = Some s' -> s' = (a ++ concat ps, false)).
    { induction ps0 as [|q ps0 IH]; intros a s' Hq; cbn [feed] in Hq; [injection Hq as <-; cbn; by rewrite app_nil_r|].
      cbn in Hq. apply IH in Hq as ->. cbn. by rewrite app_assoc. }
    apply Hg in Hfeed. by rewrite Hfeed, Hp. }
  subst s. cbn [served fst snd mbind option_bind serve_archives]. do 2 eexists. split; [reflexivity|]. split; [reflexivity|]. split.
  - unfold archive_replies. destruct data as [|b data'] eqn:Ed.
    + destruct (read_archive_chunk sequence kResOK full 0 0 0 false []) as (Eb & Er & _ & Ek); [done | done | lia | lia | lia |].
      split; [cbn [map concat]; by rewrite Eb|]. exists []. eexists. split; [reflexivity|].
      split; [constructor|]. split; [exact Er | exact Ek].
    + rewrite <- Ed in *. apply (archive_chunks_answer (S (length data)) kChunkSize sequence full (zlen data) true);
        [apply kChunkSize_pos | done | lia | done | lia | by rewrite Ed | lia].
  - exists c2. do 3 eexists. split; [reflexivity|]. exact H2.
Qed.

(** ** Examples *)

Definition client_with (inp : cstr) (ls : list Link) : Client :=
  {| use_tls := true; ctrl_ssl := true; ctrl_fd := true; ctrl_buf := take 3 inp; ctrl_in := [Data (take 9 (drop 3 inp)); Data (drop 12 inp); Failed];
     ctrl_sends := [Takes 2; Wants true]; ctrl_written := []; links := ls; dialled := []; carried := [] |}.

Definition bridge_with (c : option Client) (attempts : list Attempt) : Bridge :=
  {| url_user := []; url_passwd := str "12345678"; ftp := c; root_is_storage := false; storage_label := str "sdcard"; ftp_prefix := str "/sdcard";
     ctrl_cancelled := []; ctrl_out := []; attempts := attempts |}.

Lemma session_sample inp ls : session_at inp ls (bridge_with (Some (client_with inp ls)) []).
Proof.
  do 4 eexists. split; [reflexivity|]. split; try done; [|by repeat constructor].
  unfold pending. cbn [client_with ctrl_buf ctrl_in flow]. rewrite app_nil_r. rewrite <- (take_drop 3 inp) at 4.
  by rewrite <- (take_drop 9 (drop 3 inp)) at 2; rewrite drop_drop.
Qed.

Definition data_sample : Link := link_sample [Data (str "abc"); Data (str "de"); Closed].
Definition sizes_sample : cstr := reply_wire (one_line (str "213 " ++ dec_nonneg 4)) ++ wire_sample.
Definition path_request : Value := Object [(str "path", String (str "/sdcard/a.3mf"))].
Definition no_md5 (_ : list byte) : list byte := [].

Lemma download_served_witness :
  exists t', ftps_handle_file_download no_md5 true 7 path_request (bridge_with (Some (client_with sizes_sample [data_sample])) []) = Some t' /\
    ctrl_out t' = [] ++ download_replies no_md5 7 (str "/sdcard/a.3mf") 4 (str "abcde") /\ session_at [] [] t'.
Proof.
  destruct sample_answers as (H1 & H2 & H3).
  apply (download_served no_md5 7 path_request 4 pasv_sample 51213 go_sample 150 done_sample 226 data_sample [] []
           (bridge_with (Some (client_with sizes_sample [data_sample])) [])); try done; apply session_sample.
Defined.

Lemma download_reassembles_witness :
  let rs := download_replies no_md5 7 (str "/a") 3 (str "abcde") in
  concat (map blob_read rs) = str "abcde" /\
  exists more final, rs = more ++ [final] /\ Forall (fun r => int_read "result"%string r = kResContinue) more /\
    int_read "result"%string final = kResOK /\
    int_read "reply.offset"%string final + int_read "reply.size"%string final = zlen (str "abcde") /\
    int_read "reply.total"%string final = zlen (str "abcde") /\
    field_read "reply.file_md5"%string final = String (finalize_md5 no_md5 (str "abcde")).
Proof. apply (download_reassembles no_md5 7 (str "/a") 3 (str "abcde")); done. Defined.

Definition whole_sample : list byte := replicate (1 * kChunkSize) x00.
Definition whole_link : Link := link_sample [Data (take 3 whole_sample); Data (drop 3 whole_sample); Closed].
Definition whole_sizes : cstr := reply_wire (one_line (str "213 " ++ dec_nonneg (zlen whole_sample))) ++ wire_sample.

Lemma whole_flow : flow (link_in whole_link) = whole_sample.
Proof. unfold whole_link. cbn [link_sample link_in flow]. by rewrite app_nil_r, take_drop. Qed.

Lemma whole_length : zlen whole_sample = 262144.
Proof. unfold zlen, whole_sample. rewrite length_replicate, Nat.mul_1_l. unfold kChunkSize. by rewrite Z2Nat.id by lia. Qed.

Lemma whole_chunks_lack_digest_witness :
  exists t' more r final,
    ftps_handle_file_download no_md5 true 7 path_request (bridge_with (Some (client_with whole_sizes [whole_link])) []) = Some t' /\
    ctrl_out t' = [] ++ more ++ [r; final] /\ concat (map blob_read more) ++ blob_read r = flow (link_in whole_link) /\
    int_read "reply.offset"%string r + int_read "reply.size"%string r = zlen (flow (link_in whole_link)) /\
    int_read "reply.total"%string r = zlen (flow (link_in whole_link)) /\
    field_read "reply.file_md5"%string r = Null /\
    blob_read final = [] /\ field_read "reply.file_md5"%string final = String (finalize_md5 no_md5 (flow (link_in whole_link))).
Proof.
  destruct sample_answers as (H1 & H2 & H3).
  apply (whole_chunks_lack_digest no_md5 7 path_request 0 pasv_sample 51213 go_sample 150 done_sample 226 whole_link [] []
           (bridge_with (Some (client_with whole_sizes [whole_link])) [])).
  - lia.
  - rewrite whole_flow, whole_length. lia.
  - rewrite whole_flow. unfold whole_sample. apply length_replicate.
  - discriminate.
  - reflexivity.
  - exact H1.
  - reflexivity.
  - exact H2.
  - reflexivity.
  - exact H3.
  - reflexivity.
  - reflexivity.
  - reflexivity.
  - reflexivity.
  - rewrite whole_flow. apply session_sample.
Defined.

Definition list_request : Value := Object [(str "storage", String []); (str "type", String (str "model"))].
Definition listing_link : Link :=
  link_sample [Data (str "total 3" ++ [cr]); Data ([lf] ++ ls_line [0; 3; 0; 5; 2; 0; 0; 0]%nat sample_listed ++ [cr; lf]); Closed].

Lemma listing_served_witness :
  exists t', ftps_handle_list_info 1709164800 7 list_request (bridge_with (Some (client_with wire_sample [listing_link])) []) = Some t' /\
    ctrl_out t' = [] ++ [list_reply 7 (file_lists (str "model") (str "/sdcard")
      [{| name := str "My  Song (live).3mf"; FtpsParse.size := 5000000000; mtime := 1701327900; is_dir := false |}])] /\
    session_at [] [] t'.
Proof.
  destruct sample_answers as (H1 & H2 & H3).
  apply (listing_served 1709164800 7 list_request [Remark (str "total 3"); File [0; 3; 0; 5; 2; 0; 0; 0]%nat sample_listed]
           pasv_sample 51213 go_sample 150 done_sample 226 listing_link [] [] (bridge_with (Some (client_with wire_sample [listing_link])) []));
    try done; [|apply session_sample].
  repeat apply Forall_cons_2; [| |apply Forall_nil_2].
  - split; [done|]. vm_compute. lia.
  - split; [by vm_compute|]. split; [apply sample_listed_ok | done].
Defined.

Definition zip_request : Value := Object [(str "paths", Array [String (str "/sdcard/a.3mf#plate_1.png"); String (str "/sdcard/a.3mf")]); (str "zip", Bool true)].

Lemma archive_served_witness :
  exists t' rs, ftps_handle_sub_file 7 zip_request (bridge_with (Some (client_with sizes_sample [data_sample])) []) = Some t' /\ ctrl_out t' = [] ++ rs /\
    archive_answer (str "abcde") kResOK rs /\ session_at [] [] t'.
Proof.
  destruct sample_answers as (H1 & H2 & H3).
  apply (archive_served 7 zip_request (str "/sdcard/a.3mf") (one_line (str "213 " ++ dec_nonneg 4)) 213 pasv_sample 51213 go_sample 150 done_sample 226
           data_sample [] [] (bridge_with (Some (client_with sizes_sample [data_sample])) []));
    try done; [by apply answers_one | apply session_sample].
Defined.

(** When no mount is found the client stays, and the next request takes the
    session for a good one. *)
Definition no_mount_attempt : Attempt :=
  {| skip_verify := true; lan_ca_file := None; env_serial := None;
     meets := {| verify_enabled := false; tcp_up := true; ctx_made := true; verify_setup := true; ssl_made := true; handshake_done := true;
       cn_matches := true; server_in := [Data (concat (map (fun s => eol (str s))
         ["220 ready"; "230 in"; "200 ok"; "200 ok"; "200 ok"; "550 no"; "550 no"; "550 no"]%string))];
       server_out := []; server_links := [] |} |}.

Example no_mount_then_success :
  let t := {| url_user := []; url_passwd := []; ftp := None; root_is_storage := false; storage_label := []; ftp_prefix := [];
              ctrl_cancelled := []; ctrl_out := []; attempts := [no_mount_attempt] |} in
  let t1 := (ensure_ftp t).2 in
  (ensure_ftp t).1 = Some NoStorageMount /\ (ensure_ftp t1).1 = None /\ storage_label t1 = [].
Proof. by vm_compute. Qed.

(** Deleting two files after the session is lost for good, and downloading in
    that state, use a null client. *)
Example lost_session_null_client :
  let t := bridge_with (Some (client_with [] [])) [] in
  ftps_handle_file_del 7 (Object [(str "paths", Array [String (str "a"); String (str "b")])]) t = None /\
  ftps_handle_file_download no_md5 true 7 path_request t = None.
Proof. by vm_compute. Qed.
