(* ===== verification/Config.v ===== *)
(** The settings of [obn.conf] ([src/config.cpp], [include/obn/config.hpp]):
    reading the file, and the fixes that the installer has made in it. *)

From S2P Require Import Prelude Text.
From coqutil Require Import Datatypes.RecordSetters.
Import DoubleBraceUpdate.

#[local] Delimit Scope string_scope with string.

(** ** Settings *)

Inductive CloudPrintMode := CloudOnly | TryLanFirst | LanOnly | CloudForMakerWorldOnly.

Record Settings := {
  log_level : cstr; log_stderr : cstr; log_to_file : cstr; log_file : cstr;
  cloud_global_api_host : cstr; cloud_global_web_host : cstr; cloud_global_mqtt_host : cstr;
  cloud_cn_api_host : cstr; cloud_cn_web_host : cstr; cloud_cn_mqtt_host : cstr;
  lan_tls_skip_verify : bool; cloud_mqtt_port : Z; block_cloud : bool; cloud_print : CloudPrintMode;
  cloud_hide_history : bool; cloud_pushall_on_connect : bool; force_timelapse_external : bool; force_ftps : bool;
  disable_camera_preview : bool; prefer_lan_over_tutk : bool; mqtt_keep_connection : bool; override_lan_ip : bool;
  patch_mqtt_home_flag : bool; patch_mqtt_ipcam_file : bool; patch_mqtt_internal_storage : bool;
  filter_mqtt_hms_65543 : bool; exp_numeric_sequence_id : bool;
  slicer_key_pem : cstr; slicer_cert_pem : cstr; slicer_crl_pem : cstr;
  client_name : cstr; cloud_os_type : cstr; executable_info : cstr; mytask_pop : bool; mytask_pop_set : bool;
  bambusource_log_level : cstr; bambusource_log_stderr : cstr; bambusource_log_to_file : cstr; bambusource_log_file : cstr }.

Definition default_settings : Settings :=
  {| log_level := []; log_stderr := []; log_to_file := []; log_file := [];
     cloud_global_api_host := []; cloud_global_web_host := []; cloud_global_mqtt_host := [];
     cloud_cn_api_host := []; cloud_cn_web_host := []; cloud_cn_mqtt_host := [];
     lan_tls_skip_verify := false; cloud_mqtt_port := 8883; block_cloud := true; cloud_print := CloudOnly;
     cloud_hide_history := false; cloud_pushall_on_connect := true; force_timelapse_external := false; force_ftps := false;
     disable_camera_preview := false; prefer_lan_over_tutk := false; mqtt_keep_connection := true; override_lan_ip := false;
     patch_mqtt_home_flag := false; patch_mqtt_ipcam_file := false; patch_mqtt_internal_storage := false;
     filter_mqtt_hms_65543 := true; exp_numeric_sequence_id := false;
     slicer_key_pem := []; slicer_cert_pem := []; slicer_crl_pem := [];
     client_name := []; cloud_os_type := []; executable_info := []; mytask_pop := false; mytask_pop_set := false;
     bambusource_log_level := []; bambusource_log_stderr := []; bambusource_log_to_file := []; bambusource_log_file := [] |}.

(** ** Values and lines *)

Definition to_lower (s : cstr) : cstr := map Text.to_lower s.

Definition truthy (val : cstr) (fallback : bool) : bool :=
  let lc := to_lower val in
  let same s := bool_decide (lc = str s) in
  if same "1"%string || same "true"%string || same "yes"%string then true
  else if same "0"%string || same "false"%string || same "no"%string then false
  else fallback.

Definition trim (s : cstr) : cstr := trim_back is_space (trim_front is_space s).

Definition is_valid_version (v : cstr) : bool :=
  negb (length v =? 0)%nat && (length v <=? 32)%nat && forallb (fun c => beq c (zb 46) || is_digit c) v && existsb is_digit v.

Definition parse_line (line : cstr) : option (cstr * cstr) :=
  match line with
  | [] => None
  | c :: _ =>
      if beq c (zb 35) then None
      else
        match find_char (zb 61) line with
        | None | Some O => None
        | Some eq =>
            match trim (take eq line) with
            | [] => None
            | key => Some (key, trim (drop (S eq) line))
            end
        end
  end.

Definition print_mode (v : cstr) : CloudPrintMode :=
  let same s := bool_decide (v = str s) in
  if same "cloud_only"%string then CloudOnly
  else if same "try_lan_first"%string then TryLanFirst
  else if same "lan_only"%string then LanOnly
  else if same "cloud_for_makerworld_only"%string then CloudForMakerWorldOnly
  else CloudOnly.

Definition yes (val : cstr) : bool := truthy val false.

(** The chain of comparisons as a table, in its order. *)
Definition key_table : list (String.string * (cstr -> Settings -> Settings)) :=
  [("log_level", fun v s => s {{ log_level := v }});
   ("log_stderr", fun v s => s {{ log_stderr := v }});
   ("log_to_file", fun v s => s {{ log_to_file := v }});
   ("log_file", fun v s => s {{ log_file := v }});
   ("cloud_global_api_host", fun v s => s {{ cloud_global_api_host := v }});
   ("cloud_global_web_host", fun v s => s {{ cloud_global_web_host := v }});
   ("cloud_global_mqtt_host", fun v s => s {{ cloud_global_mqtt_host := v }});
   ("cloud_cn_api_host", fun v s => s {{ cloud_cn_api_host := v }});
   ("cloud_cn_web_host", fun v s => s {{ cloud_cn_web_host := v }});
   ("cloud_cn_mqtt_host", fun v s => s {{ cloud_cn_mqtt_host := v }});
   ("lan_tls_skip_verify", fun v s => s {{ lan_tls_skip_verify := yes v }});
   ("cloud_mqtt_port", fun v s => let p := atoi v in if (0 <? p) && (p <=? 65535) then s {{ cloud_mqtt_port := p }} else s);
   ("cloud_os_type", fun v s =>
      let v := to_lower v in
      if bool_decide (v = str "windows") || bool_decide (v = str "macos") || bool_decide (v = str "linux")
      then s {{ cloud_os_type := v }} else s);
   ("block_cloud", fun v s => s {{ block_cloud := yes v }});
   ("cloud_hide_history", fun v s => s {{ cloud_hide_history := yes v }});
   ("cloud_pushall_on_connect", fun v s => s {{ cloud_pushall_on_connect := yes v }});
   ("cloud_print", fun v s => s {{ cloud_print := print_mode (to_lower v) }});
   ("force_timelapse_external", fun v s => s {{ force_timelapse_external := yes v }});
   ("force_ftps", fun v s => s {{ force_ftps := yes v }});
   ("disable_camera_preview", fun v s => s {{ disable_camera_preview := yes v }});
   ("prefer_lan_over_tutk", fun v s => s {{ prefer_lan_over_tutk := yes v }});
   ("mqtt_keep_connection", fun v s => s {{ mqtt_keep_connection := yes v }});
   ("override_lan_ip", fun v s => s {{ override_lan_ip := yes v }});
   ("patch_mqtt_home_flag", fun v s => s {{ patch_mqtt_home_flag := yes v }});
   ("patch_mqtt_ipcam_file", fun v s => s {{ patch_mqtt_ipcam_file := yes v }});
   ("patch_mqtt_internal_storage", fun v s => s {{ patch_mqtt_internal_storage := yes v }});
   ("exp_numeric_sequence_id", fun v s => s {{ exp_numeric_sequence_id := yes v }});
   ("filter_mqtt_hms_65543", fun v s => s {{ filter_mqtt_hms_65543 := yes v }});
   ("slicer_key_pem", fun v s => s {{ slicer_key_pem := v }});
   ("slicer_cert_pem", fun v s => s {{ slicer_cert_pem := v }});
   ("slicer_crl_pem", fun v s => s {{ slicer_crl_pem := v }});
   ("client_name", fun v s => s {{ client_name := v }});
   ("executable_info", fun v s => s {{ executable_info := v }});
   ("mytask_pop", fun v s =>
      let explicit_val := negb (bool_decide (to_lower v = str "auto")) in
      s {{ mytask_pop_set := explicit_val; mytask_pop := explicit_val && yes v }});
   ("bambusource_log_level", fun v s => s {{ bambusource_log_level := v }});
   ("bambusource_log_stderr", fun v s => s {{ bambusource_log_stderr := v }});
   ("bambusource_log_to_file", fun v s => s {{ bambusource_log_to_file := v }});
   ("bambusource_log_file", fun v s => s {{ bambusource_log_file := v }})]%string.

Fixpoint table_find (key : cstr) (t : list (String.string * (cstr -> Settings -> Settings))) : cstr -> Settings -> Settings :=
  match t with
  | [] => fun _ s => s
  | (k, f) :: t => if bool_decide (key = str k) then f else table_find key t
  end.

Definition apply_key (key val : cstr) (s : Settings) : Settings := table_find key key_table val s.

Definition apply_line (s : Settings) (line : cstr) : Settings :=
  match parse_line line with Some (key, val) => apply_key key val s | None => s end.

(** [parse_file] of a file's text. *)
Definition parse_file (data : cstr) : Settings := foldl apply_line default_settings (getlines (zb 10) data []).

(** ** The lines of a file *)

Definition cr : byte := zb 13.
Definition lf : byte := zb 10.

(** Lines with their ends; [cur] is the line being read. *)
Fixpoint split_ends (cur data : cstr) : list cstr :=
  match data with
  | [] => match cur with [] => [] | _ => [cur] end
  | c :: data => if beq c lf then (cur ++ [c]) :: split_ends [] data else split_ends (cur ++ [c]) data
  end.

Definition split_lines_keep_ends (data : cstr) : list cstr := split_ends [] data.

Definition is_eol (c : byte) : bool := beq c lf || beq c cr.
Definition strip_eol (line : cstr) : cstr := trim_back is_eol line.

Definition eol_of (line : cstr) : cstr :=
  let content := strip_eol line in
  if (length content =? length line)%nat then [lf] else drop (length content) line.

(** ** block_cloud *)

(** What follows [key], spaces and [=] at the front of a line that is no
    comment, without the spaces ahead of it. *)
Definition key_rest (content key : cstr) : option cstr :=
  match trim_front is_space content with
  | [] => None
  | c :: s =>
      if beq c (zb 35) then None
      else if negb (starts_with key (c :: s)) then None
      else
        match trim_front is_space (drop (length key) (c :: s)) with
        | d :: s => if beq d (zb 61) then Some (trim_front is_space s) else None
        | [] => None
        end
  end.

Definition kBlockCloud : cstr := str "block_cloud".

Definition parse_block_cloud_line (content : cstr) : option cstr :=
  s ← key_rest content kBlockCloud;
  match (span (fun c => negb (is_space c)) s).1 with [] => None | value => Some value end.

Inductive EnsureOutcome := Error | Unchanged | Created | Set_ | Appended.

Definition outcome_code (o : EnsureOutcome) : Z :=
  match o with Error => -1 | Unchanged => 0 | Created => 1 | Set_ => 2 | Appended => 3 end.

Definition block_off : cstr := str "block_cloud = 0".

Definition key_line (line : cstr) : bool := match parse_block_cloud_line (strip_eol line) with Some _ => true | None => false end.
Definition on_line (line : cstr) : bool := match parse_block_cloud_line (strip_eol line) with Some v => yes v | None => false end.

Definition fix_line (line : cstr) : cstr := if on_line line then block_off ++ eol_of line else line.

(** The three lines that are appended to a file without the key. *)
Definition kBlockCloudHeader : cstr :=
  str "# 0 = talk to Bambu Cloud (required for cloud printing and for any" ++ [lf] ++
  str "# printer that is not reachable over LAN). 1 = block cloud traffic." ++ [lf] ++
  block_off ++ [lf].

Definition with_lf (line : cstr) : cstr := match last line with Some c => if beq c lf then line else line ++ [lf] | None => [lf] end.

(** Ending the last line and leaving a blank one. *)
Definition with_gap (lines : list cstr) : list cstr :=
  match last lines with
  | None => []
  | Some l => removelast lines ++ [with_lf l] ++ (match strip_eol (with_lf l) with [] => [] | _ => [[lf]] end)
  end.

Definition fix_lines (lines : list cstr) : EnsureOutcome * list cstr :=
  if existsb key_line lines then (if existsb on_line lines then Set_ else Unchanged, map fix_line lines)
  else (Appended, with_gap lines ++ [kBlockCloudHeader]).

(** ** log_to_file and client_name *)

(** A value and where it starts. *)
Definition find_key_value (content key : cstr) : option (nat * cstr) :=
  s ← key_rest content key;
  match (span (fun c => negb (is_space c) && negb (beq c (zb 35))) s).1 with
  | [] => None
  | value => Some ((length content - length s)%nat, value)
  end.

Definition replace (line : cstr) (pos n : nat) (s : cstr) : cstr := take pos line ++ s ++ drop (pos + n) line.

(** The first line with the key and what comes of it: [None] for no such line,
    otherwise the line's replacement when there is one. *)
Fixpoint fix_first (key : cstr) (f : cstr -> option cstr) (lines : list cstr) : option (option (list cstr)) :=
  match lines with
  | [] => None
  | line :: lines =>
      match find_key_value (strip_eol line) key with
      | Some (pos, value) =>
          Some (match f value with Some v => Some (replace line pos (length value) v :: lines) | None => None end)
      | None =>
          match fix_first key f lines with
          | Some (Some lines) => Some (Some (line :: lines))
          | r => r
          end
      end
  end.

Definition fix_log_to_file (lines : list cstr) (installer_default : bool) : Z * list cstr :=
  match fix_first (str "log_to_file") (fun v => if installer_default && negb (yes v) then Some (str "1") else None) lines with
  | Some (Some lines') => (1, lines')
  | Some None => (0, lines)
  | None => (1, with_gap lines ++ [str "log_to_file = 1" ++ [lf]])
  end.

Definition unquote (v : cstr) : cstr :=
  match trim_front (beq (zb 34)) v with [] => v | s => trim_back (beq (zb 34)) s end.

Definition fix_client_name (lines : list cstr) : Z * list cstr :=
  match fix_first (str "client_name")
          (fun v => if bool_decide (to_lower (unquote v) = str "openbamboonetworking") then Some (str "BambuStudio") else None) lines with
  | Some (Some lines') => (1, lines')
  | _ => (0, lines)
  end.

(** ** The file *)

(** How an atomic write goes: whether the temporary file opens, whether the
    stream is still good when all has been written to it, how many bytes are in
    the file when its [close] fails to write the rest (nobody looks), whether
    [remove] takes the old file away, and whether [rename] succeeds. *)
Record Attempt := { a_opens : bool; a_streams : bool; a_cut : option nat; a_removes : bool; a_renames : bool }.

(** The file, whether it can be read, and how the coming writes go. *)
Record Disk := { file : option cstr; readable : bool; writes : list Attempt }.

Section disk.
(** Whether the build is one for Windows, where the old file is removed first. *)
Context (windows : bool).

Definition write_atomic (content : cstr) (d : Disk) : bool * Disk :=
  match writes d with
  | [] => (false, d)
  | a :: ws =>
      let leave ok f := (ok, {| file := f; readable := readable d; writes := ws |}) in
      if negb (a_opens a) || negb (a_streams a) then leave false (file d)
      else
        let tmp := match a_cut a with Some n => take n content | None => content end in
        let old := if windows && a_removes a then None else file d in
        if a_renames a then leave true (Some tmp) else leave false old
  end.

Definition read_all (d : Disk) : option cstr := if readable d then file d else None.

Definition ensure_block_cloud_in_file (d : Disk) : EnsureOutcome * Disk :=
  match read_all d with
  | None => (Error, d)
  | Some data =>
      match fix_lines (split_lines_keep_ends data) with
      | (Unchanged, _) => (Unchanged, d)
      | (outcome, lines) => let '(ok, d) := write_atomic (concat lines) d in (if ok then outcome else Error, d)
      end
  end.

(** [kDefaultTemplate], which the build generates. *)
Context (kDefaultTemplate : cstr).

Definition ensure_block_cloud_off (conf_path : cstr) (d : Disk) : EnsureOutcome * Disk :=
  match conf_path with
  | [] => (Error, d)
  | _ =>
      match file d with
      | Some _ => ensure_block_cloud_in_file d
      | None =>
          let '(ok, d) := write_atomic kDefaultTemplate d in
          if ok then
            let '(outcome, d) := ensure_block_cloud_in_file d in
            (match outcome with Error => Error | _ => Created end, d)
          else (Error, d)
      end
  end.

Definition ensure_conf_fixes (conf_path : cstr) (d : Disk) : Z * Disk :=
  match conf_path with
  | [] => (-1, d)
  | _ =>
      let exists_ := match file d with Some _ => true | None => false end in
      let '(ok, d) := if exists_ then (true, d) else write_atomic kDefaultTemplate d in
      if negb ok then (-1, d)
      else
        match read_all d with
        | None => (-1, d)
        | Some data =>
            let '(block, lines) := fix_lines (split_lines_keep_ends data) in
            let changed := match block with Set_ | Appended => true | _ => false end in
            let block := if exists_ then block else Created in
            let '(log, lines) := fix_log_to_file lines (negb exists_) in
            let '(client, lines) := fix_client_name lines in
            let code := Z.lor (outcome_code block) (Z.lor (Z.shiftl log 8) (Z.shiftl client 16)) in
            if changed || negb (log =? 0) || negb (client =? 0) then
              let '(ok, d) := write_atomic (concat lines) d in (if ok then code else -1, d)
            else (code, d)
        end
  end.
End disk.

(** ** Endpoints *)

Definition is_cn_region (region : cstr) : bool := bool_decide (region = str "CN") || bool_decide (region = str "cn").
Definition pick_or_default (configured : cstr) (fallback : String.string) : cstr :=
  match configured with [] => str fallback | _ => configured end.

Definition cloud_api_host_for (s : Settings) (region : cstr) : cstr :=
  if is_cn_region region then pick_or_default (cloud_cn_api_host s) "https://api.bambulab.cn"%string
  else pick_or_default (cloud_global_api_host s) "https://api.bambulab.com"%string.
Definition cloud_web_host_for (s : Settings) (region : cstr) : cstr :=
  if is_cn_region region then pick_or_default (cloud_cn_web_host s) "https://bambulab.cn"%string
  else pick_or_default (cloud_global_web_host s) "https://bambulab.com"%string.
Definition cloud_mqtt_host_for (s : Settings) (region : cstr) : cstr :=
  if is_cn_region region then pick_or_default (cloud_cn_mqtt_host s) "cn.mqtt.bambulab.com"%string
  else pick_or_default (cloud_global_mqtt_host s) "us.mqtt.bambulab.com"%string.

(** [read_version_override] of a file's text. *)
Definition version_override (data : cstr) : cstr :=
  match getlines lf data [] with
  | [] => []
  | v :: _ => let v := trim v in if is_valid_version v then v else []
  end.

(** ** The settings in use *)

Record Config := { g_current : Settings; g_config_dir : cstr }.

Definition kConfigFileName : cstr := str "obn.conf".

Definition config_path (config_dir : cstr) : cstr :=
  match last config_dir with
  | None => []
  | Some c => config_dir ++ (if beq c (zb 47) || beq c (zb 92) then [] else [zb 47]) ++ kConfigFileName
  end.

Definition parse_path (d : Disk) : Settings := match read_all d with Some data => parse_file data | None => default_settings end.

(** [d] is the file at the path of [config_dir]. *)
Definition load_or_create (windows : bool) (kDefaultTemplate config_dir : cstr) (c : Config) (d : Disk) : Settings * Config * Disk :=
  match config_path config_dir with
  | [] => (g_current c, c, d)
  | _ =>
      let d := match file d with Some _ => d | None => (write_atomic windows kDefaultTemplate d).2 end in
      let s := parse_path d in
      (s, {| g_current := s; g_config_dir := config_dir |}, d)
  end.

Definition load_if_exists (config_dir : cstr) (d : Disk) : Settings :=
  match config_path config_dir with
  | [] => default_settings
  | _ => match file d with Some _ => parse_path d | None => default_settings end
  end.

(** ** Spaces around a text *)

Definition spaces (w : cstr) : Prop := Forall (fun c => is_space c = true) w.
(** No space at either end. *)
Definition tight (s : cstr) : Prop :=
  match s with [] => True | c :: _ => is_space c = false end /\ match last s with None => True | Some c => is_space c = false end.

Lemma trim_front_app f w s :
  Forall (fun c => f c = true) w -> trim_front f (w ++ s) = trim_front f s.
Proof.
  unfold trim_front. induction 1 as [|c w Hc Hw IH]; [done|]. simpl. rewrite Hc.
  destruct (span f (w ++ s)), (span f s). done.
Qed.

Lemma trim_front_spec f s :
  exists w, s = w ++ trim_front f s /\ Forall (fun c => f c = true) w /\
            match trim_front f s with [] => True | c :: _ => f c = false end.
Proof.
  exists (span f s).1. split_and!; [symmetry; apply span_app | apply span_forall |].
  unfold trim_front. induction s as [|c s IH]; [done|]. simpl. destruct (f c) eqn:E; [|done].
  by destruct (span f s).
Qed.

Lemma trim_back_app f w s :
  Forall (fun c => f c = true) w -> trim_back f (s ++ w) = trim_back f s.
Proof.
  intros Hw. unfold trim_back. rewrite reverse_app, trim_front_app; [done | by apply Forall_reverse].
Qed.

Lemma trim_back_spec f s :
  exists w, s = trim_back f s ++ w /\ Forall (fun c => f c = true) w /\
            match last (trim_back f s) with None => True | Some c => f c = false end.
Proof.
  destruct (trim_front_spec f (reverse s)) as (w & E & Hw & Hh). exists (reverse w). split_and!.
  - unfold trim_back. by rewrite <- reverse_app, <- E, reverse_involutive.
  - by apply Forall_reverse.
  - unfold trim_back. rewrite last_reverse. by destruct (trim_front f (reverse s)).
Qed.

Lemma trim_around w1 s w2 : spaces w1 -> tight s -> spaces w2 -> trim (w1 ++ s ++ w2) = s.
Proof.
  intros H1 [Hs Hl] H2. unfold trim. rewrite trim_front_app by done. destruct s as [|c s].
  - simpl. rewrite <- (app_nil_r w2), trim_front_app by done. done.
  - rewrite trim_front_id by done. rewrite trim_back_app by done. by apply trim_back_id.
Qed.

Lemma trim_spec s : exists w1 w2, s = w1 ++ trim s ++ w2 /\ spaces w1 /\ tight (trim s) /\ spaces w2.
Proof.
  destruct (trim_front_spec is_space s) as (w1 & E1 & H1 & Hh).
  destruct (trim_back_spec is_space (trim_front is_space s)) as (w2 & E2 & H2 & Hl).
  exists w1, w2. fold (trim s) in *. split_and!; [by rewrite <- E2 | done | split; [|done] | done].
  rewrite E2 in Hh. destruct (trim s); [done | exact Hh].
Qed.

Lemma trim_app w1 s w2 : spaces w1 -> spaces w2 -> trim (w1 ++ s ++ w2) = trim s.
Proof.
  intros H1 H2. destruct (trim_spec s) as (v1 & v2 & E & Hv1 & Ht & Hv2).
  rewrite E at 1. rewrite <- !app_assoc, (app_assoc w1).
  apply trim_around; [by apply Forall_app | done | by apply Forall_app].
Qed.

(** ** Lines with a key *)

(** A name that can be a key: no space at its ends, no [=], no [#] in front. *)
Definition key_ok (key : cstr) : Prop :=
  tight key /\ Forall (fun c => beq c (zb 61) = false) key /\ match key with [] => False | c :: _ => beq c (zb 35) = false end.

Lemma key_ok_dec key :
  match key with [] => false | c :: _ => negb (is_space c) && negb (beq c (zb 35)) end &&
  match last key with None => true | Some c => negb (is_space c) end && forallb (fun c => negb (beq c (zb 61))) key = true ->
  key_ok key.
Proof.
  intros [[H1 H2]%andb_prop H3]%andb_prop. unfold key_ok, tight. destruct key as [|c key]; [done|].
  apply andb_prop in H1 as [H1 H4]. rewrite negb_true_iff in H1, H4.
  split_and!; [done | | | done].
  - destruct (last (c :: key)); [by apply negb_true_iff | done].
  - apply Forall_forall. intros x Hx. apply negb_true_iff. rewrite forallb_forall in H3. apply H3. by apply list_elem_of_In.
Qed.

Lemma space_not c d : is_space d = false -> is_space c = true -> beq c d = false.
Proof. intros Hd Hc. apply not_true_is_false. intros ->%beq_eq. congruence. Qed.

Lemma spaces_not d w : is_space d = false -> spaces w -> Forall (fun c => beq c d = false) w.
Proof. intros Hd Hw. eapply Forall_impl; [exact Hw|]. intros c. by apply space_not. Qed.

(** The lines that a fix takes for lines with [key], and what it takes for
    their value. *)
Lemma key_rest_intro key w1 w2 w3 s :
  key_ok key -> spaces w1 -> spaces w2 -> spaces w3 -> match s with [] => True | c :: _ => is_space c = false end ->
  key_rest (w1 ++ key ++ w2 ++ zb 61 :: w3 ++ s) key = Some s.
Proof.
  intros ([Hk _] & _ & Hc) H1 H2 H3 Hs. unfold key_rest. rewrite trim_front_app by done.
  destruct key as [|c key]; [done|]. simpl app at 1. rewrite trim_front_id by done. rewrite Hc.
  pose proof (starts_with_app (c :: key) (w2 ++ zb 61 :: w3 ++ s)) as Hw. simpl app in Hw. rewrite Hw. simpl negb. cbv iota.
  change (c :: key ++ w2 ++ zb 61 :: w3 ++ s) with ((c :: key) ++ w2 ++ zb 61 :: w3 ++ s).
  rewrite drop_app_length, trim_front_app, trim_front_id by done. rewrite beq_refl.
  by rewrite trim_front_app, trim_front_id.
Qed.

Lemma key_rest_elim key content s :
  key_rest content key = Some s ->
  exists w1 w2 w3, content = w1 ++ key ++ w2 ++ zb 61 :: w3 ++ s /\ spaces w1 /\ spaces w2 /\ spaces w3 /\
                   match s with [] => True | c :: _ => is_space c = false end.
Proof.
  unfold key_rest. destruct (trim_front_spec is_space content) as (w1 & E1 & H1 & Hh1).
  destruct (trim_front is_space content) as [|c t]; [done|]. destruct (beq c (zb 35)); [done|].
  destruct (starts_with key (c :: t)) eqn:Ek; [|done]. simpl. apply starts_with_spec in Ek as [r Er].
  rewrite Er in *. rewrite drop_app_length. destruct (trim_front_spec is_space r) as (w2 & E2 & H2 & Hh2).
  destruct (trim_front is_space r) as [|d u]; [done|]. destruct (beq d (zb 61)) eqn:Ed; [|done].
  apply beq_eq in Ed as ->. intros [= <-]. destruct (trim_front_spec is_space u) as (w3 & E3 & H3 & Hh3).
  exists w1, w2, w3. split_and!; try done. by rewrite E1, E2, <- E3.
Qed.

Lemma parse_line_intro key w1 w2 r :
  key_ok key -> spaces w1 -> spaces w2 -> parse_line (w1 ++ key ++ w2 ++ zb 61 :: r) = Some (key, trim r).
Proof.
  intros (Ht & He & Hc) H1 H2. destruct key as [|c key]; [done|].
  assert (Hpre : Forall (fun x => beq x (zb 61) = false) (w1 ++ (c :: key) ++ w2)).
  { apply Forall_app. split; [by apply spaces_not|]. apply Forall_app. split; [done | by apply spaces_not]. }
  assert (E : w1 ++ (c :: key) ++ w2 ++ zb 61 :: r = (w1 ++ (c :: key) ++ w2) ++ zb 61 :: r) by by rewrite <- !app_assoc.
  pose proof (find_char_app (zb 61) _ r Hpre) as Hf.
  assert (Hd : drop (S (length (w1 ++ (c :: key) ++ w2))) ((w1 ++ (c :: key) ++ w2) ++ zb 61 :: r) = r).
  { replace (S _) with (length ((w1 ++ (c :: key) ++ w2) ++ [zb 61])) by (rewrite !length_app; simpl; lia).
    by rewrite (app_assoc _ [zb 61] r : _ ++ zb 61 :: r = _), drop_app_length. }
  rewrite E. unfold parse_line. rewrite Hf, take_app_length, trim_around, Hd by done.
  destruct w1 as [|x w1]; simpl.
  - by rewrite Hc.
  - apply Forall_cons in H1 as [Hx _]. rewrite (space_not x (zb 35)) by done. done.
Qed.

Lemma parse_line_elim line key v :
  parse_line line = Some (key, v) -> exists w1 w2 r, line = w1 ++ key ++ w2 ++ zb 61 :: r /\ spaces w1 /\ spaces w2 /\ trim r = v.
Proof.
  unfold parse_line. destruct line as [|c t] eqn:El; [done|]. rewrite <- El. destruct (beq c (zb 35)); [done|].
  destruct (find_char (zb 61) line) as [[|n]|] eqn:Ef; [done| |done].
  destruct (trim_spec (take (S n) line)) as (w1 & w2 & E & H1 & _ & H2). remember (trim (take (S n) line)) as k eqn:Hk.
  destruct k; [done|]. intros [= <- <-]. apply find_if_some in Ef as (_ & _ & d & Hd & Hb).
  apply beq_eq in Hb as <-. exists w1, w2, (drop (S (S n)) line). split_and!; try done.
  rewrite <- (take_drop_middle line (S n) (zb 61) Hd) at 1. rewrite E. by rewrite <- !app_assoc.
Qed.
