(* ===== verification/ConfigFix.v ===== *)
(** What the installer's fixes do to [obn.conf] ([src/config.cpp]): a file
    that was fixed is read as before but for the settings that were fixed, and
    a second pass finds nothing to do. What a failed write leaves is stated with
    the outcomes of its steps ([Config.Attempt]). *)

From S2P Require Import Prelude Text Config.
From coqutil Require Import Datatypes.RecordSetters.
Import DoubleBraceUpdate.

#[local] Delimit Scope string_scope with string.

(** ** Keys and settings *)

Definition set_block (b : bool) (s : Settings) : Settings := s {{ block_cloud := b }}.
Definition set_log (v : cstr) (s : Settings) : Settings := s {{ log_to_file := v }}.
Definition set_client (v : cstr) (s : Settings) : Settings := s {{ client_name := v }}.

Lemma apply_block v s : apply_key kBlockCloud v s = set_block (yes v) s.
Proof. reflexivity. Qed.
Lemma apply_log v s : apply_key (str "log_to_file") v s = set_log v s.
Proof. reflexivity. Qed.
Lemma apply_client v s : apply_key (str "client_name") v s = set_client v s.
Proof. reflexivity. Qed.

(** Each key sets its own settings. *)
Ltac frame_entry :=
  let H := fresh in
  intros H v s;
  first [ by destruct H
        | destruct s; reflexivity
        | cbn [fst snd]; cbv beta zeta; case_match; destruct s; reflexivity ].
Ltac frame := unfold key_table; repeat (apply Forall_cons; split; [frame_entry|]); by apply Forall_nil.

Definition frames (k : String.string) (g : Settings -> Settings) : Prop :=
  Forall (fun e => e.1 <> k -> forall v s, e.2 v (g s) = g (e.2 v s)) key_table.

Lemma block_frame b : frames "block_cloud"%string (set_block b).
Proof. unfold frames. frame. Qed.
Lemma log_frame x : frames "log_to_file"%string (set_log x).
Proof. unfold frames. frame. Qed.
Lemma client_frame x : frames "client_name"%string (set_client x).
Proof. unfold frames. frame. Qed.

Lemma apply_key_frame k g key v s : frames k g -> key <> str k -> apply_key key v (g s) = g (apply_key key v s).
Proof.
  unfold frames, apply_key. intros Hf Hk. induction Hf as [|[k' f] t Hf Ht IH]; [done|]. simpl.
  destruct (bool_decide (key = str k')) eqn:E; [|done]. apply bool_decide_eq_true in E as ->. apply Hf. simpl. by intros ->.
Qed.

(** ** Lines *)

(** The text of a line, as [std::getline] gives it. *)
Definition body (line : cstr) : cstr := trim_back (beq lf) line.
Definition no_lf (b : cstr) : Prop := Forall (fun x => beq x lf = false) b.
(** A whole line, or the last one of a file. *)
Definition single (line : cstr) : Prop := exists b, no_lf b /\ (line = b ++ [lf] \/ line = b /\ b <> []).
Definition ended (line : cstr) : Prop := exists b, line = b ++ [lf].
Fixpoint wf (lines : list cstr) : Prop :=
  match lines with
  | [] => True
  | line :: lines => (lines = [] \/ ended line) /\ wf lines
  end.

Lemma eol_space c : is_eol c = true -> is_space c = true.
Proof. intros [->%beq_eq | ->%beq_eq]%orb_prop; reflexivity. Qed.

Lemma strip_body line : exists e, body line = strip_eol line ++ e /\ spaces e.
Proof.
  destruct (trim_back_spec (beq lf) line) as (w & E & Hw & _). fold (body line) in E.
  destruct (trim_back_spec is_eol (body line)) as (e & E' & He & _). exists e. split.
  - rewrite E' at 1. unfold strip_eol. rewrite E at 2. rewrite trim_back_app; [done|].
    eapply Forall_impl; [exact Hw|]. intros c <-%beq_eq. reflexivity.
  - eapply Forall_impl; [exact He|]. intros c. apply eol_space.
Qed.

Lemma key_line_parse key line s :
  key_ok key -> key_rest (strip_eol line) key = Some s -> parse_line (body line) = Some (key, trim s).
Proof.
  intros Hk (w1 & w2 & w3 & E & H1 & H2 & H3 & _)%key_rest_elim. destruct (strip_body line) as (e & -> & He).
  rewrite E. rewrite <- !app_assoc. simpl. rewrite parse_line_intro by done.
  by rewrite <- app_assoc, trim_app.
Qed.

Lemma last_split {A} (x y : list A) c p : x ++ y = p -> Forall (fun d => d <> c) y -> forall q r, p = q ++ c :: r -> exists r', x = q ++ c :: r' /\ r = r' ++ y.
Proof.
  intros <- Hy q. revert x. induction q as [|d q IH]; intros x r E; destruct x as [|d' x]; simpl in *.
  - subst y. by apply Forall_cons in Hy as [[] _].
  - injection E as -> <-. by exists x.
  - subst y. apply Forall_cons in Hy as [_ Hy]. apply Forall_app in Hy as [_ Hy]. by apply Forall_cons in Hy as [[] _].
  - injection E as -> E. destruct (IH x r E) as (r' & -> & ->). by exists r'.
Qed.

Lemma parse_key_line key line v :
  key_ok key -> parse_line (body line) = Some (key, v) -> exists s, key_rest (strip_eol line) key = Some s /\ trim s = v.
Proof.
  intros Hk (w1 & w2 & r & E & H1 & H2 & <-)%parse_line_elim. destruct (strip_body line) as (e & Eb & He).
  assert (Hne : Forall (fun d => d <> zb 61) e).
  { eapply Forall_impl; [exact He|]. intros c Hc ->. done. }
  rewrite Eb in E. destruct (last_split _ _ _ _ E Hne (w1 ++ key ++ w2) r) as (r' & E' & ->); [by rewrite <- !app_assoc|].
  destruct (trim_front_spec is_space r') as (w3 & Er & H3 & Hh). exists (trim_front is_space r'). split.
  - rewrite E', Er at 1. rewrite <- !app_assoc. by apply key_rest_intro.
  - rewrite Er at 2. rewrite <- app_assoc, trim_app; done.
Qed.

Lemma trim_tight s : tight s -> trim s = s.
Proof. intros H. pose proof (trim_around [] s [] (Forall_nil_2 _) H (Forall_nil_2 _)) as E. by rewrite app_nil_r in E. Qed.

(** *** Cutting a text into lines *)

Lemma getlines_ended b rest cur : getlines lf ((b ++ [lf]) ++ rest) cur = getlines lf (b ++ [lf]) cur ++ getlines lf rest [].
Proof.
  revert cur. induction b as [|x b IH]; intros cur; simpl; [done|].
  destruct (beq x lf); [by rewrite IH | apply IH].
Qed.

Lemma split_ended b rest cur : split_ends cur ((b ++ [lf]) ++ rest) = split_ends cur (b ++ [lf]) ++ split_ends [] rest.
Proof.
  revert cur. induction b as [|x b IH]; intros cur; simpl; [done|].
  destruct (beq x lf); [by rewrite IH | apply IH].
Qed.

Lemma getlines_concat lines : wf lines -> getlines lf (concat lines) [] = concat (map (fun l => getlines lf l []) lines).
Proof.
  induction lines as [|l lines IH]; [done|]. intros [H Hw]. simpl. destruct H as [-> | [b ->]].
  - simpl. by rewrite !app_nil_r.
  - by rewrite getlines_ended, IH.
Qed.

Lemma split_concat lines : wf lines -> split_ends [] (concat lines) = concat (map (split_ends []) lines).
Proof.
  induction lines as [|l lines IH]; [done|]. intros [H Hw]. simpl. destruct H as [-> | [b ->]].
  - simpl. by rewrite !app_nil_r.
  - by rewrite split_ended, IH.
Qed.

Lemma split_single line cur : no_lf line -> split_ends cur (line ++ [lf]) = [cur ++ line ++ [lf]].
Proof.
  intros H. revert cur. induction H as [|x b Hx Hb IH]; intros cur; simpl; [done|]. rewrite Hx, IH. by rewrite <- app_assoc.
Qed.

Lemma split_rest line cur : no_lf line -> cur ++ line <> [] -> split_ends cur line = [cur ++ line].
Proof.
  intros H. revert cur. induction H as [|x b Hx Hb IH]; intros cur Hn; simpl.
  - rewrite app_nil_r in *. by destruct cur.
  - rewrite Hx, IH; [by rewrite <- app_assoc | by destruct cur].
Qed.

Lemma split_of_single line : single line -> split_ends [] line = [line].
Proof. intros (b & Hb & [-> | [-> Hn]]); [by rewrite split_single | by apply split_rest]. Qed.

Lemma body_of b : no_lf b -> body (b ++ [lf]) = b /\ body b = b.
Proof.
  intros H. assert (Hl : match last b with None => True | Some c => beq lf c = false end).
  { destruct (last b) as [c|] eqn:E; [|done]. apply last_Some in E as [b' ->].
    apply Forall_app in H as [_ H]. rewrite beq_sym. by apply Forall_cons in H as [-> _]. }
  unfold body. rewrite trim_back_app by (apply Forall_singleton; reflexivity). by rewrite trim_back_id.
Qed.

Lemma getlines_single line : single line -> getlines lf line [] = [body line].
Proof.
  intros (b & Hb & [-> | [-> Hn]]); destruct (body_of b Hb) as [E1 E2].
  - rewrite E1, getlines_sep by done. done.
  - rewrite E2, getlines_plain by done. by destruct b.
Qed.

Lemma split_ends_spec data cur :
  no_lf cur -> wf (split_ends cur data) /\ Forall single (split_ends cur data) /\ concat (split_ends cur data) = cur ++ data.
Proof.
  revert cur. induction data as [|c data IH]; intros cur Hc; simpl.
  - rewrite app_nil_r. destruct cur as [|x cur]; [split_and!; constructor|].
    split_and!; [by split; [left|] | | by simpl; rewrite app_nil_r].
    apply Forall_singleton. exists (x :: cur). auto.
  - destruct (beq c lf) eqn:E.
    + apply beq_eq in E as ->. destruct (IH [] (Forall_nil_2 _)) as (H1 & H2 & H3). split_and!.
      * split; [right; by exists cur | done].
      * constructor; [|done]. exists cur. auto.
      * simpl. rewrite H3. by rewrite <- app_assoc.
    + destruct (IH (cur ++ [c])) as (H1 & H2 & H3).
      { apply Forall_app. split; [done | by apply Forall_singleton]. }
      split_and!; [done | done |]. rewrite H3. by rewrite <- app_assoc.
Qed.

Lemma split_spec data :
  wf (split_lines_keep_ends data) /\ Forall single (split_lines_keep_ends data) /\ concat (split_lines_keep_ends data) = data.
Proof. apply (split_ends_spec data []). constructor. Qed.

(** What reading a piece of the file does to the settings. *)
Definition reads (s : Settings) (piece : cstr) : Settings := foldl apply_line s (getlines lf piece []).

Lemma parse_file_concat lines : wf lines -> parse_file (concat lines) = foldl reads default_settings lines.
Proof.
  intros H. unfold parse_file. fold lf. rewrite getlines_concat by done. clear H. generalize default_settings.
  induction lines as [|l lines IH]; intros s; [done|]. simpl. by rewrite foldl_app, IH.
Qed.

Lemma reads_single s line : single line -> reads s line = apply_line s (body line).
Proof. intros H. unfold reads. by rewrite getlines_single. Qed.

(** ** The block_cloud fix *)

Definition words (v : cstr) : Prop := Forall (fun c => is_space c = false) v.

Lemma yes_words v : yes v = true -> words v.
Proof.
  assert (H : forall s, words s -> to_lower v = s -> words v).
  { intros s Hs <-. unfold words, to_lower in *. rewrite Forall_map in Hs. eapply Forall_impl; [exact Hs|].
    intros c. unfold Text.to_lower. destruct (is_upper c) eqn:E; [|done].
    intros _. unfold is_upper, is_space in *. lia. }
  unfold yes, truthy. intros Hy.
  destruct (bool_decide (to_lower v = str "1") || bool_decide (to_lower v = str "true") || bool_decide (to_lower v = str "yes")) eqn:E.
  - apply orb_prop in E as [[E|E]%orb_prop|E]; apply bool_decide_eq_true in E;
      eapply H; try exact E; repeat (apply Forall_cons; split; [reflexivity|]); apply Forall_nil_2.
  - by destruct (_ || _ || _) in Hy.
Qed.

Lemma span_words (p : byte -> bool) v w :
  Forall (fun c => p c = true) v -> match w with [] => True | c :: _ => p c = false end -> (span p (v ++ w)).1 = v.
Proof. intros Hv Hw. by rewrite span_all. Qed.

Lemma kBlockCloud_ok : key_ok kBlockCloud.
Proof. apply key_ok_dec. reflexivity. Qed.

Lemma trimmed_front s : match s with [] => True | c :: _ => is_space c = false end -> exists w, s = trim s ++ w /\ spaces w.
Proof.
  intros Hs. destruct (trim_spec s) as (w1 & w2 & E & H1 & Ht & H2). exists w2. split; [|done].
  destruct w1 as [|c w1]; [done|]. destruct s as [|d s]; [done|].
  apply Forall_cons in H1 as [Hc _]. injection E as -> _. congruence.
Qed.

(** A value that turns the key on is found by the fix. *)
Lemma on_line_of line v : parse_line (body line) = Some (kBlockCloud, v) -> yes v = true -> on_line line = true.
Proof.
  intros Hp Hv. destruct (parse_key_line _ _ _ kBlockCloud_ok Hp) as (s & Hk & Ht).
  pose proof (key_rest_elim _ _ _ Hk) as (_ & _ & _ & _ & _ & _ & _ & Hs).
  destruct (trimmed_front s Hs) as (w & E & Hw). rewrite Ht in E.
  assert (Htok : (span (fun c => negb (is_space c)) s).1 = v).
  { rewrite E. apply span_words.
    - eapply Forall_impl; [apply (yes_words v Hv)|]. by intros c ->.
    - destruct w as [|c w]; [done|]. by apply Forall_cons in Hw as [-> _]. }
  unfold on_line, parse_block_cloud_line. rewrite Hk. simpl. rewrite Htok. by destruct v.
Qed.

Lemma key_line_of line : key_line line = true -> exists v, parse_line (body line) = Some (kBlockCloud, v).
Proof.
  unfold key_line, parse_block_cloud_line. destruct (key_rest (strip_eol line) kBlockCloud) as [s|] eqn:E; [|done].
  intros _. exists (trim s). by apply key_line_parse; [apply kBlockCloud_ok|].
Qed.

Lemma eol_of_spec line w : line = strip_eol line ++ w -> eol_of line = match w with [] => [lf] | _ => w end.
Proof.
  intros E. unfold eol_of. remember (strip_eol line) as c. rewrite E, length_app. destruct w as [|x w].
  - rewrite Nat.add_0_r, Nat.eqb_refl. done.
  - rewrite (proj2 (Nat.eqb_neq _ _)) by (simpl; lia). apply drop_app_length.
Qed.

Lemma eols_of line : Forall (fun c => is_eol c = true) (eol_of line).
Proof.
  destruct (trim_back_spec is_eol line) as (w & E & Hw & _). rewrite (eol_of_spec line w E).
  destruct w; [by apply Forall_singleton | done].
Qed.

Lemma strip_block_off line : strip_eol (block_off ++ eol_of line) = block_off.
Proof. unfold strip_eol. rewrite trim_back_app by apply eols_of. reflexivity. Qed.

Lemma no_lf_block_off w : no_lf w -> no_lf (block_off ++ w).
Proof. intros H. apply Forall_app. split; [by repeat (apply Forall_cons; split; [reflexivity|]) | done]. Qed.

Lemma eol_whole b : no_lf b -> exists w, eol_of (b ++ [lf]) = w ++ [lf] /\ no_lf w.
Proof.
  intros Hb. destruct (trim_back_spec is_eol b) as (w & E & Hw & _). exists w. split.
  - rewrite (eol_of_spec _ (w ++ [lf])); [by destruct w|]. rewrite app_assoc. f_equal. rewrite E at 1. f_equal.
    unfold strip_eol. by rewrite trim_back_app by by apply Forall_singleton.
  - rewrite E in Hb. by apply Forall_app in Hb as [_ Hb].
Qed.

Lemma eol_rest b : no_lf b -> eol_of b = [lf] \/ no_lf (eol_of b).
Proof.
  intros Hb. destruct (trim_back_spec is_eol b) as (w & E & Hw & _). rewrite (eol_of_spec b w E).
  destruct w as [|x w]; [by left|]. right. rewrite E in Hb. by apply Forall_app in Hb as [_ Hb].
Qed.

Lemma fix_line_single line : single line -> single (fix_line line).
Proof.
  unfold fix_line. destruct (on_line line); [|done]. intros (b & Hb & [-> | [-> Hn]]).
  - destruct (eol_whole b Hb) as (w & -> & Hw). exists (block_off ++ w).
    split; [by apply no_lf_block_off | left; by rewrite app_assoc].
  - destruct (eol_rest b Hb) as [-> | Hw].
    + exists block_off. split; [apply (no_lf_block_off []); constructor | by left].
    + exists (block_off ++ eol_of b). split; [by apply no_lf_block_off | by right].
Qed.

Lemma fix_line_ended line : single line -> ended line -> ended (fix_line line).
Proof.
  unfold fix_line. destruct (on_line line); [|done]. intros (b & Hb & [-> | [-> Hn]]) Hl.
  - destruct (eol_whole b Hb) as (w & -> & Hw). exists (block_off ++ w). by rewrite app_assoc.
  - destruct Hl as [b' ->]. apply Forall_app in Hb as [_ Hb]. by apply Forall_cons in Hb as [Hb _].
Qed.

Lemma fix_line_off line : on_line (fix_line line) = false /\ key_line (fix_line line) = key_line line.
Proof.
  unfold fix_line. destruct (on_line line) eqn:E; [|done]. unfold on_line, key_line in *. rewrite strip_block_off.
  split; [reflexivity|]. by destruct (parse_block_cloud_line (strip_eol line)).
Qed.

Lemma fix_line_parse line : on_line line = true -> parse_line (body (fix_line line)) = Some (kBlockCloud, str "0").
Proof.
  unfold fix_line. intros ->. rewrite (key_line_parse kBlockCloud _ (str "0")); [done | apply kBlockCloud_ok |].
  rewrite strip_block_off. reflexivity.
Qed.

(** *** The settings that are read *)

Lemma set_block_twice b b' s : set_block b (set_block b' s) = set_block b s.
Proof. by destruct s. Qed.
Lemma set_block_same s : set_block (block_cloud s) s = s.
Proof. by destruct s. Qed.

Lemma reads_key s line key v : single line -> parse_line (body line) = Some (key, v) -> reads s line = apply_key key v s.
Proof. intros H E. rewrite reads_single by done. unfold apply_line. by rewrite E. Qed.

(** A line of another key, or of none, commutes with setting [k]. *)
Lemma reads_frame k g s line :
  frames k g -> single line -> (forall v, parse_line (body line) <> Some (str k, v)) -> reads (g s) line = g (reads s line).
Proof.
  intros Hg Hl Hp. rewrite !reads_single by done. unfold apply_line.
  destruct (parse_line (body line)) as [[key v]|]; [|done]. apply (apply_key_frame k); [done|].
  intros ->. by apply (Hp v).
Qed.

Definition agree (s s' : Settings) : Prop := set_block false s = set_block false s'.

Lemma parse_key_dec line k :
  (exists v, parse_line (body line) = Some (str k, v)) \/ (forall v, parse_line (body line) <> Some (str k, v)).
Proof.
  destruct (parse_line (body line)) as [[key v]|]; [|by right].
  destruct (decide (key = str k)) as [->|Hn]; [left; by exists v | right; congruence].
Qed.

Lemma fix_line_agree s s' line : single line -> agree s s' -> agree (reads s line) (reads s' (fix_line line)).
Proof.
  intros Hl Ha. unfold agree in *. destruct (parse_key_dec line "block_cloud"%string) as [[v E]|E].
  - rewrite (reads_key s line kBlockCloud v), apply_block, set_block_twice by done.
    destruct (on_line line) eqn:Eo.
    + pose proof (fix_line_parse line Eo) as E'. rewrite (reads_key s' _ _ _ (fix_line_single line Hl) E').
      by rewrite apply_block, set_block_twice.
    + unfold fix_line. rewrite Eo, (reads_key s' line kBlockCloud v), apply_block, set_block_twice by done. done.
  - assert (Eo : on_line line = false).
    { destruct (on_line line) eqn:Eo; [|done]. destruct (key_line_of line) as [v Ev]; [|by destruct (E v)].
      unfold on_line, key_line in *. by destruct (parse_block_cloud_line (strip_eol line)). }
    unfold fix_line. rewrite Eo. rewrite <- !(reads_frame _ _ _ _ (block_frame false)) by done. by rewrite Ha.
Qed.

Lemma fold_agree lines s s' :
  Forall single lines -> agree s s' -> agree (foldl reads s lines) (foldl reads s' (map fix_line lines)).
Proof.
  intros H. revert s s'. induction H as [|l lines Hl Hs IH]; intros s s' Ha; [done|]. simpl. apply IH. by apply fix_line_agree.
Qed.

Lemma on_key line : on_line line = true -> key_line line = true.
Proof. unfold on_line, key_line. by destruct (parse_block_cloud_line (strip_eol line)). Qed.

Lemma fixed_off s line :
  single line -> key_line line = true \/ block_cloud s = false -> block_cloud (reads s (fix_line line)) = false.
Proof.
  intros Hl H. pose proof (fix_line_single line Hl) as Hl'. destruct (fix_line_off line) as [H0 Hk].
  destruct (parse_key_dec (fix_line line) "block_cloud"%string) as [[v E]|E].
  - rewrite (reads_key s _ kBlockCloud v), apply_block by done. simpl.
    destruct (yes v) eqn:Ev; [|by destruct s]. by rewrite (on_line_of _ v E Ev) in H0.
  - destruct H as [H|H].
    + rewrite <- Hk in H. destruct (key_line_of _ H) as [v Ev]. by destruct (E v).
    + rewrite <- (set_block_same s), H, (reads_frame _ _ _ _ (block_frame false)) by done. by destruct (reads s (fix_line line)).
Qed.

Lemma fold_off lines s :
  Forall single lines -> existsb key_line lines = true \/ block_cloud s = false ->
  block_cloud (foldl reads s (map fix_line lines)) = false.
Proof.
  intros H. revert s. induction H as [|l lines Hl Hs IH]; intros s [Hk|Hk]; simpl in *; try done.
  - apply IH. apply orb_prop in Hk as [Hk|Hk]; [right | by left]. apply fixed_off; auto.
  - apply IH. right. apply fixed_off; auto.
Qed.

(** *** Ending the last line *)

(** A line of the file, or the lines that are appended at once. *)
Definition piece (l : cstr) : Prop := single l \/ l = kBlockCloudHeader.

Lemma header_ended : ended kBlockCloudHeader.
Proof. exists (removelast kBlockCloudHeader). reflexivity. Qed.

Lemma with_lf_ended l : ended (with_lf l).
Proof.
  unfold with_lf. destruct (last l) as [c|] eqn:E; [|by exists []].
  apply last_Some in E as [b ->]. destruct (beq c lf) eqn:Ec; [apply beq_eq in Ec as ->; by exists b | by eexists].
Qed.

Lemma with_lf_id l : ended l -> with_lf l = l.
Proof. intros [b ->]. unfold with_lf. by rewrite last_snoc. Qed.

Lemma with_lf_single l : single l -> single (with_lf l).
Proof.
  intros (b & Hb & [-> | [-> Hn]]); [rewrite with_lf_id by (by exists b); exists b; auto|].
  unfold with_lf. destruct (last b) as [c|] eqn:E; [|by apply last_None in E].
  destruct (beq c lf) eqn:Ec; exists b; auto.
Qed.

Lemma reads_with_lf s l : piece l -> reads s (with_lf l) = reads s l.
Proof.
  intros [H| ->]; [|by rewrite with_lf_id by apply header_ended]. rewrite !reads_single by (done || by apply with_lf_single). f_equal.
  destruct H as (b & Hb & [-> | [-> Hn]]); [by rewrite with_lf_id by by exists b|]. unfold with_lf.
  destruct (last b) as [c|] eqn:E; [|by apply last_None in E]. destruct (body_of b Hb) as [E1 E2].
  destruct (beq c lf); [done | by rewrite E1].
Qed.

Lemma wf_snoc lines l : wf (lines ++ [l]) <-> Forall ended lines.
Proof.
  induction lines as [|x lines IH]; simpl; [split; [constructor | auto]|].
  rewrite Forall_cons, IH. split; [|intros [??]; auto]. intros [[H|H] H']; [by destruct lines | by split].
Qed.

Lemma with_lf_piece l : piece l -> piece (with_lf l).
Proof. intros [H| ->]; [left; by apply with_lf_single | right; by apply with_lf_id, header_ended]. Qed.

Lemma with_gap_spec lines :
  Forall piece lines -> wf lines ->
  Forall ended (with_gap lines) /\ Forall piece (with_gap lines) /\
  (forall s, foldl reads s (with_gap lines) = foldl reads s lines).
Proof.
  intros Hp Hw. unfold with_gap. destruct (last lines) as [l|] eqn:E; [|apply last_None in E as ->; by split_and!].
  apply last_Some in E as [A ->]. rewrite removelast_last. apply wf_snoc in Hw. apply Forall_app in Hp as [Hp Hl].
  apply Forall_cons in Hl as [Hl _]. pose proof (with_lf_ended l) as Hend. pose proof (with_lf_piece l Hl) as Hpl.
  assert (Hb : ended [lf] /\ piece [lf]).
  { split; [by exists [] | left; exists []; split; [apply Forall_nil_2 | by left]]. }
  destruct Hb. repeat rewrite Forall_app. split_and!; try done; try by apply Forall_singleton.
  - destruct (strip_eol (with_lf l)); [apply Forall_nil_2 | by apply Forall_singleton].
  - destruct (strip_eol (with_lf l)); [apply Forall_nil_2 | by apply Forall_singleton].
  - intros s. rewrite !foldl_app. simpl. rewrite reads_with_lf by done. by destruct (strip_eol (with_lf l)).
Qed.

(** *** The lines of the file that is written *)

(** The lines, without their ends, that the next pass finds. *)
Definition contents (pieces : list cstr) : list cstr := map strip_eol (concat (map (split_ends []) pieces)).

Lemma contents_app a b : contents (a ++ b) = contents a ++ contents b.
Proof. unfold contents. by rewrite map_app, concat_app, map_app. Qed.

Lemma contents_single l : single l -> contents [l] = [strip_eol l].
Proof. intros H. unfold contents. simpl. by rewrite split_of_single. Qed.

Lemma contents_singles ls : Forall single ls -> contents ls = map strip_eol ls.
Proof.
  induction 1 as [|l ls Hl Hs IH]; [done|]. change (l :: ls) with ([l] ++ ls). by rewrite contents_app, IH, contents_single.
Qed.

Lemma contents_written pieces : wf pieces -> contents pieces = map strip_eol (split_lines_keep_ends (concat pieces)).
Proof. intros H. unfold contents, split_lines_keep_ends. by rewrite split_concat. Qed.

Lemma strip_with_lf l : single l -> strip_eol (with_lf l) = strip_eol l.
Proof.
  intros (b & Hb & [-> | [-> Hn]]); [by rewrite with_lf_id by by exists b|].
  unfold with_lf. destruct (last b) as [c|] eqn:E; [|by apply last_None in E].
  destruct (beq c lf); [done|]. apply trim_back_app. by apply Forall_singleton.
Qed.

Lemma contents_with_lf l : piece l -> contents [with_lf l] = contents [l].
Proof.
  intros [H| ->]; [|by rewrite with_lf_id by apply header_ended].
  rewrite !contents_single by (done || by apply with_lf_single). by rewrite strip_with_lf.
Qed.

Lemma contents_gap lines : Forall piece lines -> contents (with_gap lines) = contents lines \/ contents (with_gap lines) = contents lines ++ [[]].
Proof.
  intros Hp. unfold with_gap. destruct (last lines) as [l|] eqn:E; [|apply last_None in E as ->; by left].
  apply last_Some in E as [A ->]. apply Forall_app in Hp as [_ Hl]. apply Forall_cons in Hl as [Hl _].
  rewrite removelast_last, !contents_app, contents_with_lf by done.
  destruct (strip_eol (with_lf l)); [left; by rewrite app_nil_r | right; by rewrite app_assoc].
Qed.

(** The file holds the key, and no line turns it on. *)
Definition key_content (c : cstr) : bool := match parse_block_cloud_line c with Some _ => true | None => false end.
Definition on_content (c : cstr) : bool := match parse_block_cloud_line c with Some v => yes v | None => false end.
Definition settled (cs : list cstr) : Prop := existsb key_content cs = true /\ existsb on_content cs = false.

Lemma existsb_map {A B} (f : B -> bool) (g : A -> B) l : existsb f (map g l) = existsb (fun x => f (g x)) l.
Proof. induction l as [|x l IH]; simpl; [done | by rewrite IH]. Qed.

Lemma settled_unchanged lines : settled (map strip_eol lines) -> fix_lines lines = (Unchanged, lines).
Proof.
  unfold settled. rewrite !existsb_map. intros [H1 H2]. unfold fix_lines.
  change (existsb key_line lines = true) in H1. change (existsb on_line lines = false) in H2. rewrite H1, H2. f_equal.
  clear H1. induction lines as [|l lines IH]; [done|]. simpl in *. apply orb_false_elim in H2 as [H2 H3].
  rewrite IH by done. unfold fix_line. by rewrite H2.
Qed.

Lemma existsb_none {A} (f : A -> bool) l : existsb f l = false -> Forall (fun x => f x = false) l.
Proof. induction l as [|x l IH]; simpl; [constructor|]. intros [H1 H2]%orb_false_elim. constructor; auto. Qed.

Lemma fix_lines_settled lines : Forall single lines -> settled (contents (fix_lines lines).2).
Proof.
  intros Hs. assert (Hp : Forall piece lines) by (eapply Forall_impl; [exact Hs|]; by left).
  unfold fix_lines. destruct (existsb key_line lines) eqn:Ek; simpl.
  - rewrite contents_singles by (apply Forall_map; eapply Forall_impl; [exact Hs | apply fix_line_single]).
    unfold settled. rewrite !existsb_map. split.
    + rewrite <- Ek. clear. induction lines as [|l lines IH]; [done|]. simpl. rewrite IH. f_equal. apply (fix_line_off l).
    + clear. induction lines as [|l lines IH]; [done|]. simpl. rewrite IH, orb_false_r. apply (fix_line_off l).
  - rewrite contents_app.
    assert (H : existsb key_content (contents (with_gap lines)) = false /\ existsb on_content (contents (with_gap lines)) = false).
    { assert (H : existsb key_content (contents lines) = false /\ existsb on_content (contents lines) = false).
      { rewrite contents_singles, !existsb_map by done. split; [exact Ek|].
        apply not_true_is_false. intros (l & Hl & Ho)%existsb_exists. apply (on_key l) in Ho.
        pose proof (existsb_none _ _ Ek) as Hn. rewrite Forall_forall in Hn. rewrite Hn in Ho; [done|]. by apply list_elem_of_In. }
      destruct H as [H1 H2]. destruct (contents_gap lines Hp) as [-> | ->]; [done|]. by rewrite !existsb_app, H1, H2. }
    destruct H as [H1 H2]. unfold settled. rewrite !existsb_app, H1, H2. split; reflexivity.
Qed.

Lemma reads_header s : reads s kBlockCloudHeader = set_block false s.
Proof. reflexivity. Qed.

Lemma wf_app a b : Forall ended a -> wf b -> wf (a ++ b).
Proof. induction 1 as [|l a Hl Ha IH]; intros Hb; [done|]. simpl. auto. Qed.

Lemma wf_map_fix lines : Forall single lines -> wf lines -> wf (map fix_line lines).
Proof.
  induction 1 as [|l lines Hl Hs IH]; [done|]. intros [H Hw]. simpl. split; [|by apply IH].
  destruct H as [-> | H]; [by left | right; by apply fix_line_ended].
Qed.

(** The fix turns the key off and changes no other setting. *)
Lemma fix_lines_spec lines s :
  Forall single lines -> wf lines ->
  wf (fix_lines lines).2 /\ Forall piece (fix_lines lines).2 /\
  foldl reads s (fix_lines lines).2 = set_block false (foldl reads s lines).
Proof.
  intros Hs Hw. assert (Hp : Forall piece lines) by (eapply Forall_impl; [exact Hs|]; by left).
  unfold fix_lines. destruct (existsb key_line lines) eqn:Ek; simpl.
  - split_and!; [by apply wf_map_fix | apply Forall_map; eapply Forall_impl; [exact Hs|]; intros l Hl; left; by apply fix_line_single |].
    pose proof (fold_agree lines s s Hs eq_refl) as Ha. pose proof (fold_off lines s Hs (or_introl Ek)) as Ho.
    unfold agree in Ha. rewrite Ha, <- Ho. symmetry. apply set_block_same.
  - destruct (with_gap_spec lines Hp Hw) as (H1 & H2 & H3). split_and!.
    + apply wf_app; [done|]. simpl. auto.
    + apply Forall_app. split; [done | apply Forall_singleton; by right].
    + rewrite foldl_app, H3. apply reads_header.
Qed.

(** ** The log_to_file and client_name fixes *)

Definition value_char (c : byte) : bool := negb (is_space c) && negb (beq c (zb 35)).
(** A text that is read back as a value. *)
Definition plain (u : cstr) : Prop := u <> [] /\ Forall (fun c => value_char c = true) u.

Lemma value_char_space c : value_char c = true -> is_space c = false.
Proof. intros [H _]%andb_prop. by apply negb_true_iff. Qed.

Lemma find_key_value_eq content key :
  find_key_value content key =
  match key_rest content key with
  | Some s => match (span value_char s).1 with [] => None | v => Some ((length content - length s)%nat, v) end
  | None => None
  end.
Proof. unfold find_key_value. by destruct (key_rest content key). Qed.

Lemma value_split content key pos v :
  key_ok key -> find_key_value content key = Some (pos, v) ->
  exists pre r, content = pre ++ v ++ r /\ pos = length pre /\ v <> [] /\
    (forall u, plain u -> find_key_value (pre ++ u ++ r) key = Some (pos, u)).
Proof.
  intros Hk Hf. rewrite find_key_value_eq in Hf. destruct (key_rest content key) as [s|] eqn:Er; [|done].
  destruct (key_rest_elim _ _ _ Er) as (w1 & w2 & w3 & E & H1 & H2 & H3 & Hs).
  destruct (trim_front_spec value_char s) as (_ & _ & _ & Hr). unfold trim_front in Hr.
  pose proof (span_app value_char s) as Es. set (r := (span value_char s).2) in *.
  destruct (span value_char s).1 as [|v0 v'] eqn:Ev; [done|]. injection Hf as Hpos <-. set (v := v0 :: v') in *.
  set (pre := w1 ++ key ++ w2 ++ zb 61 :: w3).
  assert (Epre : forall x, w1 ++ key ++ w2 ++ zb 61 :: w3 ++ x = pre ++ x) by (intros x; unfold pre; by repeat (rewrite <- app_assoc; simpl)).
  rewrite Epre in E. assert (Hp : pos = length pre) by (rewrite <- Hpos, E, length_app; lia).
  exists pre, r. split_and!; [by rewrite E, <- Es | done | done |]. intros u [Hu0 Hu]. rewrite find_key_value_eq, <- Epre.
  rewrite key_rest_intro; try done.
  - rewrite span_words by done. destruct u; [done|]. do 2 f_equal. rewrite Epre, Hp, length_app. lia.
  - destruct u as [|c u]; [done|]. apply Forall_cons in Hu as [Hx _]. by apply value_char_space.
Qed.

Lemma plain_last u : plain u -> match last u with None => False | Some c => is_eol c = false end.
Proof.
  intros [Hn Hu]. destruct u as [|c u _] using rev_ind; [done|]. rewrite last_snoc. apply Forall_app in Hu as [_ Hc].
  apply Forall_cons in Hc as [Hc _]. apply value_char_space in Hc. apply not_true_is_false. intros He%eol_space. congruence.
Qed.

Lemma plain_no_lf u : plain u -> no_lf u.
Proof.
  intros [_ Hu]. eapply Forall_impl; [exact Hu|]. intros c Hx%value_char_space. apply not_true_is_false. intros ->%beq_eq. done.
Qed.

(** The line's end is after its value. *)
Lemma line_end line content w :
  single line -> line = content ++ w -> content = strip_eol line ->
  (exists w', w = w' ++ [lf] /\ no_lf (content ++ w')) \/ no_lf (content ++ w) /\ ~ ended line.
Proof.
  intros (b & Hb & [Eb | [Eb Hn]]) El Hc.
  - left. destruct w as [|c w _] using rev_ind.
    + exfalso. rewrite app_nil_r in El. destruct (trim_back_spec is_eol line) as (_ & _ & _ & Hl). fold (strip_eol line) in Hl.
      by rewrite <- Hc, <- El, Eb, last_snoc in Hl.
    + rewrite Eb, app_assoc in El. apply app_inj_tail in El as [-> <-]. by exists w.
  - right. rewrite <- El, Eb. split; [done|]. intros [x ->]. apply Forall_app in Hb as [_ Hb]. by apply Forall_cons in Hb as [Hb _].
Qed.

(** A line of [key] takes the new value and stays a line of [key]. *)
Lemma replace_value key line pos v u :
  key_ok key -> single line -> plain u -> find_key_value (strip_eol line) key = Some (pos, v) ->
  find_key_value (strip_eol (replace line pos (length v) u)) key = Some (pos, u) /\
  single (replace line pos (length v) u) /\ (ended line -> ended (replace line pos (length v) u)).
Proof.
  intros Hk Hl Hu Hf. destruct (value_split _ _ _ _ Hk Hf) as (pre & r & E & -> & Hv & Hfind).
  destruct (trim_back_spec is_eol line) as (w & El & Hw & Hlast). fold (strip_eol line) in El, Hlast.
  assert (El' : replace line (length pre) (length v) u = (pre ++ u ++ r) ++ w).
  { unfold replace. rewrite El, E, <- !app_assoc, take_app_length, <- drop_drop, drop_app_length, drop_app_length. done. }
  assert (Hc : strip_eol ((pre ++ u ++ r) ++ w) = pre ++ u ++ r).
  { unfold strip_eol. rewrite trim_back_app by done. apply trim_back_id. rewrite E in Hlast. rewrite !last_app in *.
    pose proof (plain_last u Hu). by destruct (last r), (last u). }
  assert (Hno : forall t, no_lf ((strip_eol line) ++ t) -> no_lf ((pre ++ u ++ r) ++ t)).
  { intros t. rewrite E. unfold no_lf. pose proof (plain_no_lf u Hu). unfold no_lf in *. rewrite !Forall_app. tauto. }
  rewrite El'. split; [by rewrite Hc; apply Hfind|].
  destruct (line_end line _ w Hl El eq_refl) as [(w' & -> & Hn) | [Hn Hne]].
  - split; [exists ((pre ++ u ++ r) ++ w'); split; [by apply Hno | left] | exists ((pre ++ u ++ r) ++ w')]; by rewrite app_assoc.
  - split; [|done]. exists ((pre ++ u ++ r) ++ w). split; [by apply Hno | right]. split; [done|].
    destruct Hu as [Hu _], u; [done|]. intros [[_ Hx]%app_nil _]%app_nil. done.
Qed.

(** *** A line is replaced *)

Fixpoint first_value (key : cstr) (cs : list cstr) : option cstr :=
  match cs with
  | [] => None
  | c :: cs => match find_key_value c key with Some (_, v) => Some v | None => first_value key cs end
  end.

Lemma first_value_app key a b : first_value key (a ++ b) = match first_value key a with None => first_value key b | r => r end.
Proof. induction a as [|c a IH]; simpl; [done|]. rewrite IH. by destruct (find_key_value c key) as [[]|]. Qed.

Lemma find_key_unique content k k' r :
  key_ok k -> key_ok k' -> k <> k' -> find_key_value content k = Some r -> key_rest content k' = None.
Proof.
  intros Hk Hk' Hn Hf. rewrite find_key_value_eq in Hf. destruct (key_rest content k) as [s|] eqn:E; [|done].
  destruct (key_rest content k') as [s'|] eqn:E'; [|done]. exfalso. apply Hn.
  destruct (key_rest_elim _ _ _ E) as (w1 & w2 & w3 & Ec & H1 & H2 & _).
  destruct (key_rest_elim _ _ _ E') as (v1 & v2 & v3 & Ec' & H1' & H2' & _).
  pose proof (parse_line_intro k w1 w2 (w3 ++ s) Hk H1 H2) as P. pose proof (parse_line_intro k' v1 v2 (v3 ++ s') Hk' H1' H2') as P'.
  rewrite <- Ec in P. rewrite <- Ec', P in P'. by injection P'.
Qed.

Definition ok (lines : list cstr) : Prop := wf lines /\ Forall piece lines.

(** One line of [k] has a new value; the lines ahead of it are not of [k]. *)
Definition swapped (k : String.string) (u : cstr) (lines lines' : list cstr) : Prop :=
  exists A l l' B p v, lines = A ++ l :: B /\ lines' = A ++ l' :: B /\ single l /\ single l' /\ (ended l -> ended l') /\
    find_key_value (strip_eol l) (str k) = Some (p, v) /\ find_key_value (strip_eol l') (str k) = Some (p, u) /\
    first_value (str k) (contents A) = None.

(** A view of the settings without [k]. *)
Definition ignores (k : String.string) (g : Settings -> Settings) : Prop :=
  frames k g /\ forall v s, g (apply_key (str k) v s) = g s.

Lemma log_ignores : ignores "log_to_file"%string (set_log []).
Proof. split; [apply log_frame|]. intros v []. reflexivity. Qed.
Lemma client_ignores : ignores "client_name"%string (set_client []).
Proof. split; [apply client_frame|]. intros v []. reflexivity. Qed.

Section swap.
Context (k : String.string) (g : Settings -> Settings).
Context (Hk : key_ok (str k)) (Hkb : str k <> kBlockCloud) (Hg : ignores k g).

Lemma reads_view s s' l : piece l -> g s = g s' -> g (reads s l) = g (reads s' l).
Proof.
  destruct Hg as [Hf Hi]. intros [Hl| ->] E.
  - destruct (parse_key_dec l k) as [[v Ev]|Ev].
    + by rewrite !(reads_key _ l (str k) v), !Hi.
    + rewrite <- !(reads_frame _ _ _ _ Hf) by done. by rewrite E.
  - rewrite !reads_header, <- !(apply_block (str "0")), <- !(apply_key_frame _ _ _ _ _ Hf) by done. by rewrite E.
Qed.

Lemma fold_view lines s s' : Forall piece lines -> g s = g s' -> g (foldl reads s lines) = g (foldl reads s' lines).
Proof.
  intros H. revert s s'. induction H as [|l lines Hl Hs IH]; intros s s' E; [done|]. simpl. apply IH. by apply reads_view.
Qed.

Lemma find_reads l p v s : single l -> find_key_value (strip_eol l) (str k) = Some (p, v) -> g (reads s l) = g s.
Proof.
  intros Hl Hf. rewrite find_key_value_eq in Hf. destruct (key_rest (strip_eol l) (str k)) as [r|] eqn:E; [|done].
  rewrite (reads_key s l (str k) (trim r)); [apply Hg | done | by apply key_line_parse].
Qed.

Lemma swapped_reads u lines lines' s : Forall piece lines -> swapped k u lines lines' -> g (foldl reads s lines') = g (foldl reads s lines).
Proof.
  intros Hp (A & l & l' & B & p & v & -> & -> & Hl & Hl' & _ & Hv & Hu & _). apply Forall_app in Hp as [_ Hp].
  apply Forall_cons in Hp as [_ Hp]. rewrite !foldl_app. simpl. apply fold_view; [done|].
  by rewrite (find_reads l' p u), (find_reads l p v).
Qed.

Lemma swapped_ok u lines lines' : ok lines -> swapped k u lines lines' -> ok lines'.
Proof.
  intros [Hw Hp] (A & l & l' & B & p & v & -> & -> & Hl & Hl' & He & _). split.
  - clear Hp. induction A as [|x A IH]; simpl in *.
    + destruct Hw as [[H|H] Hw]; auto.
    + destruct Hw as [[H|H] Hw]; [by destruct A | auto].
  - apply Forall_app in Hp as [Ha Hp]. apply Forall_cons in Hp as [_ Hp].
    apply Forall_app. split; [done|]. apply Forall_cons. split; [by left | done].
Qed.

Lemma swapped_contents u lines lines' :
  swapped k u lines lines' ->
  exists a c c' b p v, contents lines = a ++ c :: b /\ contents lines' = a ++ c' :: b /\ first_value (str k) a = None /\
    find_key_value c (str k) = Some (p, v) /\ find_key_value c' (str k) = Some (p, u).
Proof.
  intros (A & l & l' & B & p & v & -> & -> & Hl & Hl' & He & Hv & Hu & Ha).
  exists (contents A), (strip_eol l), (strip_eol l'), (contents B), p, v.
  change (l :: B) with ([l] ++ B). change (l' :: B) with ([l'] ++ B). by rewrite !contents_app, !contents_single.
Qed.

Lemma swapped_value u lines lines' : swapped k u lines lines' -> first_value (str k) (contents lines') = Some u.
Proof.
  intros (a & c & c' & b & p & v & _ & -> & Ha & _ & Hu)%swapped_contents. rewrite first_value_app, Ha. simpl. by rewrite Hu.
Qed.

Lemma swapped_other k' u lines lines' :
  key_ok k' -> str k <> k' -> swapped k u lines lines' -> first_value k' (contents lines') = first_value k' (contents lines).
Proof.
  intros Hk' Hn (a & c & c' & b & p & v & -> & -> & _ & Hv & Hu)%swapped_contents. rewrite !first_value_app. simpl.
  rewrite !find_key_value_eq, (find_key_unique _ _ _ _ Hk Hk' Hn Hv), (find_key_unique _ _ _ _ Hk Hk' Hn Hu). done.
Qed.

Lemma swapped_settled u lines lines' : swapped k u lines lines' -> settled (contents lines) -> settled (contents lines').
Proof.
  intros (a & c & c' & b & p & v & -> & -> & _ & Hv & Hu)%swapped_contents. unfold settled. rewrite !existsb_app. simpl.
  unfold key_content, on_content, parse_block_cloud_line.
  by rewrite (find_key_unique _ _ _ _ Hk kBlockCloud_ok Hkb Hv), (find_key_unique _ _ _ _ Hk kBlockCloud_ok Hkb Hu).
Qed.

Lemma header_values : first_value (str k) (contents [kBlockCloudHeader]) = None /\ find_key_value (strip_eol kBlockCloudHeader) (str k) = None.
Proof.
  destruct Hk as ([Ht _] & _ & Hc). rewrite find_key_value_eq. split; [|unfold key_rest; reflexivity].
  assert (E : contents [kBlockCloudHeader] = removelast (contents [kBlockCloudHeader]) ++ [block_off]) by reflexivity.
  rewrite E, first_value_app. simpl. rewrite !find_key_value_eq.
  assert (Hb : key_rest block_off (str k) = None); [|by rewrite Hb].
  by apply (find_key_unique block_off kBlockCloud (str k) (14%nat, str "0") kBlockCloud_ok Hk); [congruence|].
Qed.

Lemma fix_first_spec f lines :
  (forall v u, f v = Some u -> plain u) -> Forall piece lines ->
  match fix_first (str k) f lines with
  | None => first_value (str k) (contents lines) = None
  | Some None => exists v, first_value (str k) (contents lines) = Some v /\ f v = None
  | Some (Some lines') => exists v u, first_value (str k) (contents lines) = Some v /\ f v = Some u /\ swapped k u lines lines'
  end.
Proof.
  intros Hu. induction 1 as [|l lines Hl Hs IH]; [done|]. simpl. change (l :: lines) with ([l] ++ lines).
  rewrite contents_app, first_value_app.
  assert (Hcl : first_value (str k) (contents [l]) = option_map snd (find_key_value (strip_eol l) (str k))).
  { destruct Hl as [Hl| ->]; [|by destruct header_values as [-> ->]]. rewrite contents_single by done. simpl.
    by destruct (find_key_value _ _) as [[]|]. }
  rewrite Hcl. destruct (find_key_value (strip_eol l) (str k)) as [[p v]|] eqn:Ef; simpl.
  - destruct Hl as [Hl| ->]; [|destruct header_values; congruence]. destruct (f v) as [u|] eqn:Eu; [|by exists v].
    exists v, u. split_and!; [done | done |]. destruct (replace_value _ _ _ _ u Hk Hl (Hu _ _ Eu) Ef) as (R1 & R2 & R3).
    by exists [], l, (replace l p (length v) u), lines, p, v.
  - destruct (fix_first (str k) f lines) as [[lines'|]|]; [|done | done].
    destruct IH as (v & u & H1 & H2 & (A & l1 & l2 & B & p & v' & -> & -> & R)). exists v, u. split_and!; [done | done |].
    exists (l :: A), l1, l2, B, p, v'. destruct R as (R1 & R2 & R3 & R4 & R5 & R6). split_and!; try done.
    change (l :: A) with ([l] ++ A). by rewrite contents_app, first_value_app, Hcl.
Qed.
End swap.

(** *** The two fixes *)

Abbreviation kLog := "log_to_file"%string.
Abbreviation kClient := "client_name"%string.

Lemma log_ok : key_ok (str kLog).
Proof. apply key_ok_dec. reflexivity. Qed.
Lemma client_ok : key_ok (str kClient).
Proof. apply key_ok_dec. reflexivity. Qed.

Ltac plain_word := split; [done | repeat (apply Forall_cons; split; [reflexivity|]); apply Forall_nil_2].

Lemma log_line_single : single (str "log_to_file = 1" ++ [lf]).
Proof. exists (str "log_to_file = 1"). split; [repeat (apply Forall_cons; split; [reflexivity|]); apply Forall_nil_2 | by left]. Qed.

Lemma first_value_gap key lines : Forall piece lines -> first_value key (contents lines) = None -> first_value key (contents (with_gap lines)) = None.
Proof. intros Hp H. destruct (contents_gap lines Hp) as [-> | ->]; [done|]. by rewrite first_value_app, H. Qed.

Lemma settled_app a b : settled a -> existsb on_content b = false -> settled (a ++ b).
Proof. unfold settled. rewrite !existsb_app. by intros [-> ->] ->. Qed.

Lemma first_value_app_none key a b : first_value key b = None -> first_value key (a ++ b) = first_value key a.
Proof. intros H. rewrite first_value_app, H. by destruct (first_value key a). Qed.

Lemma fix_log_spec lines inst :
  ok lines -> settled (contents lines) ->
  let '(n, lines') := fix_log_to_file lines inst in
  ok lines' /\ settled (contents lines') /\ first_value (str kLog) (contents lines') <> None /\
  (forall s, set_log [] (foldl reads s lines') = set_log [] (foldl reads s lines)) /\
  ((n = 0 /\ lines' = lines) \/ n = 1).
Proof.
  intros [Hw Hp] Hset. unfold fix_log_to_file.
  match goal with |- context [fix_first _ ?f lines] => set (fx := f) end.
  assert (Hu : forall v u, fx v = Some u -> plain u).
  { unfold fx. intros v u. destruct (inst && negb (yes v)); [|done]. intros [= <-]. plain_word. }
  assert (Hkb : str kLog <> kBlockCloud) by done.
  pose proof (fix_first_spec _ log_ok Hkb fx lines Hu Hp) as H. clearbody fx.
  destruct (fix_first (str kLog) fx lines) as [[lines'|]|].
  - destruct H as (v & u & H1 & _ & Hs). split_and!.
    + by apply (swapped_ok _ _ _ _ (conj Hw Hp) Hs).
    + by apply (swapped_settled _ log_ok Hkb u lines).
    + by rewrite (swapped_value _ u lines).
    + intros s. by apply (swapped_reads _ _ log_ok Hkb log_ignores u).
    + by right.
  - destruct H as (v & H1 & _). split_and!; try done; [congruence | by left].
  - destruct (with_gap_spec lines Hp Hw) as (G1 & G2 & G3). pose proof log_line_single as Hl. split_and!.
    + split; [apply wf_app; [done|]; simpl; auto | apply Forall_app; split; [done | apply Forall_singleton; by left]].
    + rewrite contents_app. apply settled_app; [|reflexivity].
      destruct (contents_gap lines Hp) as [-> | ->]; [done | by apply settled_app].
    + rewrite contents_app, first_value_app, (first_value_gap _ _ Hp H). done.
    + intros s. rewrite foldl_app, G3. simpl. rewrite (reads_key _ _ (str kLog) (str "1")) by done. apply log_ignores.
    + by right.
Qed.

Definition old_client (v : cstr) : bool := bool_decide (to_lower (unquote v) = str "openbamboonetworking").

Lemma fix_client_spec lines :
  ok lines -> settled (contents lines) -> first_value (str kLog) (contents lines) <> None ->
  let '(n, lines') := fix_client_name lines in
  ok lines' /\ settled (contents lines') /\ first_value (str kLog) (contents lines') <> None /\
  match first_value (str kClient) (contents lines') with None => True | Some v => old_client v = false end /\
  (forall s, set_client [] (foldl reads s lines') = set_client [] (foldl reads s lines)) /\
  ((n = 0 /\ lines' = lines) \/ n = 1).
Proof.
  intros [Hw Hp] Hset Hlog. unfold fix_client_name.
  change (fun v => if bool_decide (to_lower (unquote v) = str "openbamboonetworking") then Some (str "BambuStudio") else None)
    with (fun v => if old_client v then Some (str "BambuStudio") else None).
  set (fx := fun v => if old_client v then Some (str "BambuStudio") else None).
  assert (Hu : forall v u, fx v = Some u -> plain u).
  { unfold fx. intros v u. destruct (old_client v); [|done]. intros [= <-]. plain_word. }
  assert (Hkb : str kClient <> kBlockCloud) by done. assert (Hlc : str kClient <> str kLog) by done.
  pose proof (fix_first_spec _ client_ok Hkb fx lines Hu Hp) as H.
  destruct (fix_first (str kClient) fx lines) as [[lines'|]|].
  - destruct H as (v & u & H1 & Ef & Hs). split_and!.
    + by apply (swapped_ok _ _ _ _ (conj Hw Hp) Hs).
    + by apply (swapped_settled _ client_ok Hkb u lines).
    + by rewrite (swapped_other _ client_ok (str kLog) u lines lines' log_ok Hlc Hs).
    + rewrite (swapped_value _ u lines) by done. unfold fx in Ef. destruct (old_client v); [|done].
      injection Ef as <-. reflexivity.
    + intros s. by apply (swapped_reads _ _ client_ok Hkb client_ignores u).
    + by right.
  - destruct H as (v & H1 & Ef). split_and!; try done; [| by left]. rewrite H1. unfold fx in Ef. by destruct (old_client v).
  - split_and!; try done; [by rewrite H | by left].
Qed.

(** *** A second pass *)

Lemma log_settled lines :
  Forall piece lines -> first_value (str kLog) (contents lines) <> None -> fix_log_to_file lines false = (0, lines).
Proof.
  intros Hp Hn. unfold fix_log_to_file. simpl. assert (Hkb : str kLog <> kBlockCloud) by done.
  pose proof (fix_first_spec _ log_ok Hkb (fun _ => None) lines ltac:(done) Hp) as H.
  destruct (fix_first (str kLog) (fun _ => None) lines) as [[lines'|]|]; [|done | done]. by destruct H as (v & u & _ & H & _).
Qed.

Lemma client_settled lines :
  Forall piece lines -> match first_value (str kClient) (contents lines) with None => True | Some v => old_client v = false end ->
  fix_client_name lines = (0, lines).
Proof.
  intros Hp Hn. unfold fix_client_name. assert (Hkb : str kClient <> kBlockCloud) by done.
  match goal with |- context [fix_first _ ?f lines] => set (fx := f) end.
  assert (Hu : forall v u, fx v = Some u -> plain u).
  { unfold fx. intros v u. destruct (bool_decide _); [|done]. intros [= <-]. plain_word. }
  pose proof (fix_first_spec _ client_ok Hkb fx lines Hu Hp) as H.
  destruct (fix_first (str kClient) fx lines) as [[lines'|]|]; [|done | done].
  destruct H as (v & u & H & Hf & _). rewrite H in Hn. unfold fx in Hf. unfold old_client in Hn. by rewrite Hn in Hf.
Qed.

Lemma split_ok data : ok (split_lines_keep_ends data).
Proof.
  destruct (split_spec data) as (H1 & H2 & _). split; [done|]. eapply Forall_impl; [exact H2|]. by left.
Qed.

Lemma resplit pieces : wf pieces -> contents (split_lines_keep_ends (concat pieces)) = contents pieces.
Proof.
  intros H. destruct (split_spec (concat pieces)) as (_ & Hs & _). by rewrite (contents_singles _ Hs), contents_written.
Qed.

Lemma fix_again pieces :
  wf pieces -> settled (contents pieces) ->
  fix_lines (split_lines_keep_ends (concat pieces)) = (Unchanged, split_lines_keep_ends (concat pieces)).
Proof. intros Hw Hs. apply settled_unchanged. by rewrite <- contents_written. Qed.

Lemma fix_unchanged lines : (fix_lines lines).1 = Unchanged -> (fix_lines lines).2 = lines.
Proof.
  unfold fix_lines. destruct (existsb key_line lines); [|done]. simpl. destruct (existsb on_line lines) eqn:E; [done|].
  intros _. apply existsb_none in E. induction E as [|l lines Hl Hs IH]; [done|]. simpl. rewrite IH. unfold fix_line. by rewrite Hl.
Qed.

Lemma parse_fixed data :
  parse_file (concat (fix_lines (split_lines_keep_ends data)).2) = set_block false (parse_file data).
Proof.
  destruct (split_spec data) as (Hw & Hs & E). destruct (fix_lines_spec _ default_settings Hs Hw) as (H1 & _ & H3).
  rewrite parse_file_concat by done. rewrite H3, <- parse_file_concat, E; done.
Qed.

(** ** The file *)

Definition written (data : cstr) : cstr := concat (fix_lines (split_lines_keep_ends data)).2.

Lemma written_settled data :
  fix_lines (split_lines_keep_ends (written data)) = (Unchanged, split_lines_keep_ends (written data)).
Proof.
  destruct (split_spec data) as (Hw & Hs & _). apply fix_again; [by apply (fix_lines_spec _ default_settings Hs Hw)|].
  by apply fix_lines_settled.
Qed.

Lemma fix_outcome lines : (fix_lines lines).1 = Unchanged \/ (fix_lines lines).1 = Set_ \/ (fix_lines lines).1 = Appended.
Proof. unfold fix_lines. destruct (existsb key_line lines), (existsb on_line lines); simpl; auto. Qed.

(** Every [close] of a written file writes what is left. *)
Definition closes_well (d : Disk) : Prop := Forall (fun a => a_cut a = None) (writes d).

(** On Windows, a write that removes the old file and cannot rename the new one. *)
Definition loses_file (windows : bool) (d : Disk) : Prop :=
  windows = true /\ Exists (fun a => a_removes a = true /\ a_renames a = false) (writes d).

Lemma write_atomic_spec windows content d ok d' :
  closes_well d -> write_atomic windows content d = (ok, d') ->
  readable d' = readable d /\ closes_well d' /\ (loses_file windows d' -> loses_file windows d) /\
  if ok then file d' = Some content else file d' = file d \/ (file d' = None /\ loses_file windows d).
Proof.
  unfold closes_well, loses_file, write_atomic. destruct (writes d) as [|a ws] eqn:Ew; [intros _ [= <- <-]; rewrite Ew; auto|].
  intros [Hc Hcs]%Forall_cons. assert (Hl : forall f r, windows = true /\ Exists (fun a => a_removes a = true /\ a_renames a = false)
    (writes {| file := f; readable := r; writes := ws |}) -> windows = true /\ Exists (fun a => a_removes a = true /\ a_renames a = false) (a :: ws)).
  { intros f r [Hw He]. split; [done | by apply Exists_cons_tl]. }
  destruct (negb (a_opens a) || negb (a_streams a)); [intros [= <- <-]; split_and!; [done | done | apply Hl | by left]|].
  rewrite Hc. destruct (a_renames a) eqn:Er; intros [= <- <-]; (split_and!; [done | done | apply Hl |]); [done|]. cbn [file].
  destruct windows, (a_removes a) eqn:Em; cbn [andb]; auto. right. split; [done|]. split; [done|]. by apply Exists_cons_hd.
Qed.

Lemma ensure_in_file windows data d o d' :
  closes_well d -> file d = Some data -> ensure_block_cloud_in_file windows d = (o, d') ->
  closes_well d' /\
  ((o = Error /\ (file d' = Some data \/ (file d' = None /\ loses_file windows d))) \/
   (o <> Error /\ readable d' = true /\ file d' = Some (written data))).
Proof.
  intros Hcw Hd. unfold ensure_block_cloud_in_file, read_all. destruct (readable d) eqn:Er; [|intros [= <- <-]; auto].
  rewrite Hd. pose proof (fix_unchanged (split_lines_keep_ends data)) as Hu. unfold written.
  destruct (split_spec data) as (_ & _ & Hc). destruct (fix_outcome (split_lines_keep_ends data)) as [E|E];
    destruct (fix_lines (split_lines_keep_ends data)) as [oc lines]; cbn [fst snd] in *.
  - subst oc. intros [= <- <-]. split; [done|]. right. split_and!; [done | done |]. by rewrite Hu, Hc by done.
  - assert (Ho : oc <> Unchanged /\ oc <> Error) by by destruct E; subst.
    destruct (write_atomic windows (concat lines) d) as [ok d1] eqn:Ew. apply write_atomic_spec in Ew as (H1 & H2 & _ & H3); [|done].
    rewrite Er, Hd in *.
    destruct oc; try (by destruct Ho); intros [= <- <-]; (split; [done|]); destruct ok; try (left; by auto); right; by split_and!.
Qed.

(** C33: When every [close] of a written file succeeds, [ensure_block_cloud_off]
    makes sure that the cloud is not blocked: when it does not report an error,
    the file (the one that was there, or the template) is read as before with
    block_cloud off and every other setting the same, and doing it again finds
    nothing to do; when it does, a file that was there is unchanged, except that
    on Windows it is gone when the old file was removed and the new one could not
    be renamed. *)
Theorem block_cloud_off (windows : bool) (kDefaultTemplate conf_path : cstr) d o d' :
  closes_well d -> ensure_block_cloud_off windows kDefaultTemplate conf_path d = (o, d') ->
  match o with
  | Error => file d' = file d \/ (file d = None /\ file d' = Some kDefaultTemplate) \/ (file d' = None /\ loses_file windows d)
  | _ =>
      exists data, file d' = Some data /\
        parse_file data = (parse_file (default kDefaultTemplate (file d))) {{ block_cloud := false }} /\
        forall ws, let d2 := {| file := Some data; readable := true; writes := ws |} in
                   ensure_block_cloud_off windows kDefaultTemplate conf_path d2 = (Unchanged, d2)
  end.
Proof.
  intros Hcw. unfold ensure_block_cloud_off. destruct conf_path as [|c p]; [by intros [= <- <-]; left|].
  assert (Hgoal : forall data, parse_file (written data) = set_block false (parse_file data) /\
    forall ws, ensure_block_cloud_in_file windows {| file := Some (written data); readable := true; writes := ws |} =
               (Unchanged, {| file := Some (written data); readable := true; writes := ws |})).
  { intros data. split; [apply parse_fixed|]. intros ws. unfold ensure_block_cloud_in_file, read_all. simpl. by rewrite written_settled. }
  destruct (file d) as [data|] eqn:Ed.
  - intros H. destruct (ensure_in_file windows data d o d' Hcw Ed H) as [_ [[-> [E|E]]|(Hn & _ & E)]]; [by left | by right; right |].
    destruct o; try done; exists (written data); by destruct (Hgoal data).
  - destruct (write_atomic windows kDefaultTemplate d) as [ok d1] eqn:Ew.
    apply write_atomic_spec in Ew as (Hr & Hcw1 & Hl & Hf); [|done]. destruct ok.
    2:{ intros [= <- <-]. rewrite Ed in Hf. by left; destruct Hf as [|[]]. }
    destruct (ensure_block_cloud_in_file windows d1) as [o1 d2] eqn:E1. intros H.
    destruct (ensure_in_file windows kDefaultTemplate d1 o1 d2 Hcw1 Hf E1) as [_ [[-> [E|[E _]]]|(Hn & _ & E)]].
    + injection H as <- <-. auto.
    + injection H as <- <-. by left.
    + assert (Ho : o = Created /\ d' = d2) by (destruct o1; by injection H as <- <-). destruct Ho as [-> ->].
      exists (written kDefaultTemplate). by destruct (Hgoal kDefaultTemplate).
Qed.

(** The settings that the fixes do not touch. *)
Definition erased (s : Settings) : Settings := s {{ log_to_file := [] }} {{ client_name := [] }}.

Lemma erased_log s : erased s = set_client [] (set_log [] s).
Proof. reflexivity. Qed.
Lemma erased_client s : erased s = set_log [] (set_client [] s).
Proof. by destruct s. Qed.

Lemma three_fixes data inst :
  let '(b, l1) := fix_lines (split_lines_keep_ends data) in
  let '(n, l2) := fix_log_to_file l1 inst in
  let '(m, l3) := fix_client_name l2 in
  erased (parse_file (concat l3)) = erased ((parse_file data) {{ block_cloud := false }}) /\
  ((b = Unchanged /\ n = 0 /\ m = 0 /\ concat l3 = data) \/ (b = Set_ \/ b = Appended) \/ n = 1 \/ m = 1) /\ 0 <= n /\ 0 <= m /\ b <> Error /\
  let lines := split_lines_keep_ends (concat l3) in
  fix_lines lines = (Unchanged, lines) /\ fix_log_to_file lines false = (0, lines) /\ fix_client_name lines = (0, lines).
Proof.
  destruct (split_spec data) as (Hw & Hs & Hcat). destruct (fix_lines_spec _ default_settings Hs Hw) as (W1 & P1 & R1).
  pose proof (fix_lines_settled _ Hs) as S1. pose proof (fix_outcome (split_lines_keep_ends data)) as O1.
  pose proof (fix_unchanged (split_lines_keep_ends data)) as U1.
  destruct (fix_lines (split_lines_keep_ends data)) as [b l1]. cbn [fst snd] in *.
  pose proof (fix_log_spec l1 inst (conj W1 P1) S1) as H2. destruct (fix_log_to_file l1 inst) as [n l2].
  destruct H2 as (K2 & S2 & L2 & R2 & N2). pose proof (fix_client_spec l2 K2 S2 L2) as H3.
  destruct (fix_client_name l2) as [m l3]. destruct H3 as ([W3 P3] & S3 & L3 & C3 & R3 & N3).
  assert (Hr : contents (split_lines_keep_ends (concat l3)) = contents l3) by by apply resplit.
  assert (Hp : Forall piece (split_lines_keep_ends (concat l3))) by apply split_ok. split_and!.
  - rewrite parse_file_concat by done. rewrite erased_client, R3, <- erased_client, erased_log, R2, R1, <- parse_file_concat, Hcat by done.
    reflexivity.
  - destruct O1 as [O1|O1]; [|by right; left]. destruct N2 as [[N2 ->]|N2]; [|by right; right; left].
    destruct N3 as [[N3 ->]|N3]; [|by right; right; right]. left. split_and!; try done. by rewrite U1.
  - lia.
  - lia.
  - destruct O1 as [-> | [-> | ->]]; done.
  - by apply fix_again.
  - apply log_settled; [done | by rewrite Hr].
  - apply client_settled; [done | by rewrite Hr].
Qed.

Lemma code_nonneg b n m : b <> Error -> 0 <= n -> 0 <= m -> 0 <= Z.lor (outcome_code b) (Z.lor (Z.shiftl n 8) (Z.shiftl m 16)).
Proof.
  intros Hb Hn Hm. repeat (apply Z.lor_nonneg; split); [by destruct b | |]; by apply Z.shiftl_nonneg.
Qed.

(** The pass over a file that is there. *)
Definition conf_pass (windows exists_ : bool) (data : cstr) (d : Disk) : Z * Disk :=
  let '(block, lines) := fix_lines (split_lines_keep_ends data) in
  let changed := match block with Set_ | Appended => true | _ => false end in
  let block := if exists_ then block else Created in
  let '(log, lines) := fix_log_to_file lines (negb exists_) in
  let '(client, lines) := fix_client_name lines in
  let code := Z.lor (outcome_code block) (Z.lor (Z.shiftl log 8) (Z.shiftl client 16)) in
  if changed || negb (log =? 0) || negb (client =? 0) then
    let '(ok, d) := write_atomic windows (concat lines) d in (if ok then code else -1, d)
  else (code, d).

Lemma conf_pass_spec windows ex data d code d' :
  closes_well d -> file d = Some data -> conf_pass windows ex data d = (code, d') ->
  (code = -1 /\ (file d' = Some data \/ (file d' = None /\ loses_file windows d))) \/
  (0 <= code /\ exists data', file d' = Some data' /\
     erased (parse_file data') = erased ((parse_file data) {{ block_cloud := false }}) /\
     forall d2, conf_pass windows true data' d2 = (0, d2)).
Proof.
  intros Hcw Hd. unfold conf_pass at 1. pose proof (three_fixes data (negb ex)) as H.
  destruct (fix_lines (split_lines_keep_ends data)) as [b l1]. destruct (fix_log_to_file l1 (negb ex)) as [n l2].
  destruct (fix_client_name l2) as [m l3]. destruct H as (He & Hch & Hn & Hm & Hb & F1 & F2 & F3).
  set (b' := if ex then b else Created). assert (Hb' : b' <> Error) by by destruct ex.
  pose proof (code_nonneg b' n m Hb' Hn Hm) as Hcode. set (cd := Z.lor _ _) in *. clearbody cd.
  assert (Hagain : forall d2, conf_pass windows true (concat l3) d2 = (0, d2)).
  { intros d2. unfold conf_pass. rewrite F1. simpl negb. rewrite F2, F3. reflexivity. }
  assert (Hend : concat l3 = data \/ (match b with Set_ | Appended => true | _ => false end) || negb (n =? 0) || negb (m =? 0) = true).
  { destruct Hch as [(_ & _ & _ & E)|[[-> | ->]|[-> | ->]]]; [by left | by right | by right | |]; right; simpl; by rewrite ?orb_true_r. }
  destruct (_ || _ || _).
  - destruct (write_atomic windows (concat l3) d) as [ok d1] eqn:Ew. apply write_atomic_spec in Ew as (_ & _ & _ & Hf); [|done].
    rewrite Hd in Hf. destruct ok; intros [= <- <-]; [right | by left]. split; [done|]. by exists (concat l3).
  - intros [= <- <-]. right. split; [done|]. destruct Hend as [E|]; [|done]. exists (concat l3). by rewrite E in *.
Qed.

Lemma ensure_conf_fixes_pass windows t c p d data :
  file d = Some data -> readable d = true -> ensure_conf_fixes windows t (c :: p) d = conf_pass windows true data d.
Proof. intros Hd Hr. unfold ensure_conf_fixes, read_all. rewrite Hd, Hr, Hd. reflexivity. Qed.

(** [ensure_conf_fixes], when every [close] of a written file succeeds: when it
    does not fail, the file is read as before with block_cloud off, except for
    log_to_file and client_name, and a second call reports 0 and writes nothing;
    when it fails, a file that was there is unchanged, but for the loss on Windows. *)
Lemma conf_fixes windows (kDefaultTemplate conf_path : cstr) d code d' :
  closes_well d -> ensure_conf_fixes windows kDefaultTemplate conf_path d = (code, d') ->
  (code = -1 /\ (file d' = file d \/ (file d = None /\ file d' = Some kDefaultTemplate) \/ (file d' = None /\ loses_file windows d))) \/
  (0 <= code /\ exists data, file d' = Some data /\
     (let s := parse_file data in s {{ log_to_file := [] }} {{ client_name := [] }}) =
     (let s := parse_file (default kDefaultTemplate (file d)) in s {{ block_cloud := false }} {{ log_to_file := [] }} {{ client_name := [] }}) /\
     forall ws, let d2 := {| file := Some data; readable := true; writes := ws |} in
                ensure_conf_fixes windows kDefaultTemplate conf_path d2 = (0, d2)).
Proof.
  intros Hcw. destruct conf_path as [|c p]; [by intros [= <- <-]; left; auto|].
  destruct (file d) as [data|] eqn:Ed.
  - destruct (readable d) eqn:Er.
    + rewrite (ensure_conf_fixes_pass windows _ c p d data) by done. intros H.
      destruct (conf_pass_spec windows true data d code d' Hcw Ed H) as [[-> [E|E]]|(Hn & data' & E & He & Ha)]; [by left; auto.. | right].
      split; [done|]. exists data'. split_and!; [done | exact He |]. intros ws. cbv zeta. by rewrite (ensure_conf_fixes_pass windows _ c p _ data').
    + unfold ensure_conf_fixes, read_all. rewrite Ed, Er. intros [= <- <-]. left. rewrite Ed. auto.
  - unfold ensure_conf_fixes at 1, read_all. rewrite Ed. destruct (write_atomic windows kDefaultTemplate d) as [ok d1] eqn:Ew.
    apply write_atomic_spec in Ew as (Hr & Hcw1 & Hl & Hf); [|done]. rewrite Ed in Hf.
    destruct ok; cbn [negb]; [|intros [= <- <-]; left; split; [done|]; destruct Hf as [|[]]; auto].
    destruct (readable d1) eqn:Er; [|intros [= <- <-]; by left; auto]. rewrite Hf. intros H.
    destruct (conf_pass_spec windows false kDefaultTemplate d1 code d' Hcw1 Hf H) as [[-> [E|[E _]]]|(Hn & data' & E & He & Ha)]; [by left; auto.. | right].
    split; [done|]. exists data'. split_and!; [done | exact He |]. intros ws2. cbv zeta. by rewrite (ensure_conf_fixes_pass windows _ c p _ data').
Qed.

(** ** Witnesses *)

Definition sample_conf : cstr :=
  str "log_level = debug" ++ [cr; lf] ++ str " block_cloud= Yes # no cloud" ++ [cr; lf] ++ str "client_name = OpenBambooNetworking".

Definition goes_well : Attempt := {| a_opens := true; a_streams := true; a_cut := None; a_removes := true; a_renames := true |}.
Definition sample_disk : Disk := {| file := Some sample_conf; readable := true; writes := [goes_well] |}.

Lemma sample_closes : closes_well sample_disk.
Proof. by repeat constructor. Qed.

Definition sample_blocked : cstr :=
  str "log_level = debug" ++ [cr; lf] ++ str "block_cloud = 0" ++ [cr; lf] ++ str "client_name = OpenBambooNetworking".

Example sample_read : block_cloud (parse_file sample_conf) = false /\ client_name (parse_file sample_conf) = str "OpenBambooNetworking".
Proof. split; vm_compute; reflexivity. Qed.

Lemma block_cloud_off_witness :
  exists data, file {| file := Some sample_blocked; readable := true; writes := [] |} = Some data /\
    parse_file data = (parse_file sample_conf) {{ block_cloud := false }} /\
    forall ws, let d2 := {| file := Some data; readable := true; writes := ws |} in
               ensure_block_cloud_off true [] (str "obn.conf") d2 = (Unchanged, d2).
Proof.
  exact (block_cloud_off true [] (str "obn.conf") sample_disk Set_ {| file := Some sample_blocked; readable := true; writes := [] |}
           sample_closes ltac:(vm_compute; reflexivity)).
Defined.

(** On Windows a rename that fails loses the file. *)
Example rename_loses_file :
  let a := {| a_opens := true; a_streams := true; a_cut := None; a_removes := true; a_renames := false |} in
  ensure_block_cloud_off true [] (str "obn.conf") {| file := Some sample_conf; readable := true; writes := [a] |} =
    (Error, {| file := None; readable := true; writes := [] |}).
Proof. vm_compute. reflexivity. Qed.

(** A [close] that fails leaves a file cut short, and the write is a success. *)
Example close_cuts_file :
  let a := {| a_opens := true; a_streams := true; a_cut := Some 0%nat; a_removes := true; a_renames := true |} in
  ensure_block_cloud_off false [] (str "obn.conf") {| file := Some sample_conf; readable := true; writes := [a] |} =
    (Set_, {| file := Some []; readable := true; writes := [] |}).
Proof. vm_compute. reflexivity. Qed.

Definition sample_fixed : cstr :=
  str "log_level = debug" ++ [cr; lf] ++ str "block_cloud = 0" ++ [cr; lf] ++ str "client_name = BambuStudio" ++ [lf; lf] ++ str "log_to_file = 1" ++ [lf].

Lemma conf_fixes_witness :
  ensure_conf_fixes true [] (str "obn.conf") sample_disk = (65794, {| file := Some sample_fixed; readable := true; writes := [] |}) /\
  (exists data, Some sample_fixed = Some data /\
     forall ws, let d2 := {| file := Some data; readable := true; writes := ws |} in
                ensure_conf_fixes true [] (str "obn.conf") d2 = (0, d2)).
Proof.
  assert (E : ensure_conf_fixes true [] (str "obn.conf") sample_disk = (65794, {| file := Some sample_fixed; readable := true; writes := [] |}))
    by (vm_compute; reflexivity).
  split; [exact E|]. destruct (conf_fixes true [] (str "obn.conf") sample_disk _ _ sample_closes E) as [[H _]|(_ & data & H & _ & Ha)]; [discriminate H|].
  exists data. split; [exact H | exact Ha].
Defined.
