(* ===== verification/Ssdp.v ===== *)
(** SSDP discovery ([src/ssdp.cpp], [include/obn/ssdp.hpp]): the headers of a
    datagram, the message for Studio that is made of them, and what the
    listener reports of a datagram. The listener's threads are in
    [SsdpListener]. *)

From S2P Require Import Prelude OMap Text Json.

#[local] Delimit Scope string_scope with string.

Definition to_lower (s : cstr) : cstr := map Text.to_lower s.

Definition is_blank (c : byte) : bool := beq c (zb 32) || beq c (zb 9) || beq c (zb 13) || beq c (zb 10).

Definition trim (s : cstr) : cstr := trim_back is_blank (trim_front is_blank s).

(** The switch of [json_escape]; [%04x] of a character below 32. *)
Definition json_escape_char (c : byte) : cstr :=
  let v := bz c in
  if v =? 34 then [zb 92; zb 34]
  else if v =? 92 then [zb 92; zb 92]
  else if v =? 8 then [zb 92; zb 98]
  else if v =? 12 then [zb 92; zb 102]
  else if v =? 10 then [zb 92; zb 110]
  else if v =? 13 then [zb 92; zb 114]
  else if v =? 9 then [zb 92; zb 116]
  else if v <? 32 then [zb 92; zb 117; zb 48; zb 48; hex_lower (v / 16); hex_lower (v mod 16)]
  else [c].

Definition json_escape (s : cstr) : cstr := [zb 34] ++ concat (map json_escape_char s) ++ [zb 34].

(** ** Headers *)

Definition Headers := list (cstr * cstr).

Definition set (key value : cstr) (h : Headers) : Headers := om_emplace (to_lower key) value h.
Definition get (lc_key : cstr) (h : Headers) : option cstr := om_find lc_key h.
Definition value (lc_key : cstr) (h : Headers) : cstr := match get lc_key h with Some v => v | None => [] end.

(** ** The parser *)

(** Where the start line ends, and where the next line starts. *)
Definition start_line_end (msg : cstr) : option nat :=
  match find_str [zb 13; zb 10] msg with Some n => Some n | None => find_char (zb 10) msg end.

Definition contains (needle s : cstr) : bool := match find_str needle s with Some _ => true | None => false end.

Definition chop_cr (line : cstr) : cstr := match last line with Some c => if beq c (zb 13) then removelast line else line | None => line end.

Definition add_header (line : cstr) (h : Headers) : Headers :=
  match find_char (zb 58) line with
  | Some colon =>
      match trim (take colon line) with
      | [] => h
      | k => set k (trim (drop (S colon) line)) h
      end
  | None => h
  end.

(** The loop over the lines of [rest], what is left of the message at [pos]. *)
Fixpoint header_loop (fuel : nat) (rest : cstr) (h : Headers) : Headers :=
  match fuel with
  | O => h
  | S fuel =>
      match rest with
      | [] => h
      | _ =>
          let eol := default (length rest) (find_char (zb 10) rest) in
          match chop_cr (take eol rest) with
          | [] => h
          | line => header_loop fuel (drop (S eol) rest) (add_header line h)
          end
      end
  end.

Definition parse (data : cstr) : option Headers :=
  if (length data <? 4)%nat then None
  else
    match start_line_end data with
    | None => None
    | Some sol_end =>
        if negb (contains (str "HTTP/1.") (take sol_end data)) then None
        else
          let pos := if beq (at_ data sol_end) (zb 13) then (sol_end + 2)%nat else (sol_end + 1)%nat in
          Some (header_loop (length data) (drop pos data) [])
    end.

(** ** The message for Studio *)

Definition member (first : bool) (key : String.string) (v : cstr) : cstr :=
  (if first then [] else [zb 44]) ++ [zb 34] ++ str key ++ [zb 34; zb 58] ++ json_escape v.

Definition to_device_info_json (h : Headers) : cstr :=
  let dev_id := value (str "usn") h in
  let dev_ip := value (str "location") h in
  let dev_type := value (str "devmodel.bambu.com") h in
  let dev_name := value (str "devname.bambu.com") h in
  let connect_t := value (str "devconnect.bambu.com") h in
  let bind_state := value (str "devbind.bambu.com") h in
  let sec_link := value (str "devseclink.bambu.com") h in
  let ssdp_ver := value (str "devversion.bambu.com") h in
  let conn_name := value (str "devinf.bambu.com") h in
  [zb 123] ++ member true "dev_name"%string dev_name ++ member false "dev_id"%string dev_id ++ member false "dev_ip"%string dev_ip
    ++ member false "dev_type"%string dev_type ++ member false "dev_signal"%string [] ++ member false "connect_type"%string connect_t
    ++ member false "bind_state"%string bind_state ++ member false "sec_link"%string sec_link
    ++ member false "ssdp_version"%string ssdp_ver ++ member false "connection_name"%string conn_name ++ [zb 125].

(** ** A datagram *)

Definition kBufSize : nat := 4096.

Definition Addr := (Z * Z * Z * Z)%type.
(** [inet_ntop] of an IPv4 address. *)
Definition inet_ntop (a : Addr) : cstr :=
  let '(a, b, c, d) := a in dec a ++ [zb 46] ++ dec b ++ [zb 46] ++ dec c ++ [zb 46] ++ dec d.

(** What the listener does with a datagram from [src]: nothing, or the message
    for the callback. [recvfrom] cuts a long datagram at the buffer's size. *)
Definition on_datagram (src : Addr) (data : cstr) : option cstr :=
  match take kBufSize data with
  | [] => None
  | data =>
      match parse data with
      | None => None
      | Some h =>
          match get (str "usn") h, get (str "devmodel.bambu.com") h with
          | Some (_ :: _), Some (_ :: _) =>
              let h := match get (str "location") h with
                       | None => set (str "Location") (inet_ntop src) h
                       | Some _ => h
                       end in
              Some (to_device_info_json h)
          | _, _ => None
          end
      end
  end.

(** ** The message is JSON *)

Lemma json_escape_eq s : json_escape s = escape s.
Proof. unfold json_escape, escape. do 2 f_equal. Qed.

(** The members in the order of their keys, as a parser has them. *)
Definition device_object (f : cstr -> cstr) : list (cstr * Value) :=
  let s k v := (str k, String v) in
  [s "bind_state"%string (f (str "devbind.bambu.com"));
   s "connect_type"%string (f (str "devconnect.bambu.com"));
   s "connection_name"%string (f (str "devinf.bambu.com"));
   s "dev_id"%string (f (str "usn"));
   s "dev_ip"%string (f (str "location"));
   s "dev_name"%string (f (str "devname.bambu.com"));
   s "dev_signal"%string [];
   s "dev_type"%string (f (str "devmodel.bambu.com"));
   s "sec_link"%string (f (str "devseclink.bambu.com"));
   s "ssdp_version"%string (f (str "devversion.bambu.com"))].

Definition device_members (f : cstr -> cstr) : list (cstr * Value) :=
  let s k v := (str k, String v) in
  [s "dev_name"%string (f (str "devname.bambu.com"));
   s "dev_id"%string (f (str "usn"));
   s "dev_ip"%string (f (str "location"));
   s "dev_type"%string (f (str "devmodel.bambu.com"));
   s "dev_signal"%string [];
   s "connect_type"%string (f (str "devconnect.bambu.com"));
   s "bind_state"%string (f (str "devbind.bambu.com"));
   s "sec_link"%string (f (str "devseclink.bambu.com"));
   s "ssdp_version"%string (f (str "devversion.bambu.com"));
   s "connection_name"%string (f (str "devinf.bambu.com"))].

Lemma member_eq first k v :
  escape (str k) = [zb 34] ++ str k ++ [zb 34] -> member first k v = (if first then [] else [comma]) ++ member_text (str k, String v).
Proof.
  intros E. unfold member, member_text. cbn [fst snd dump]. rewrite E, json_escape_eq, <- !app_assoc. by destruct first.
Qed.

Lemma json_text h : to_device_info_json h = [zb 123] ++ join (map member_text (device_members (fun k => value k h))) ++ [zb 125].
Proof.
  unfold to_device_info_json, device_members. rewrite !member_eq by reflexivity. cbn [map]. rewrite !join_cons2. cbn [join].
  generalize member_text. intros mt. by rewrite <- !app_assoc.
Qed.

Lemma members_sorted f : emplace_all [] (device_members f) = device_object f.
Proof.
  unfold device_members, device_object.
  generalize (f (str "devinf.bambu.com")) (f (str "devname.bambu.com")) (f (str "usn")) (f (str "location")) (f (str "devmodel.bambu.com"))
    (f (str "devconnect.bambu.com")) (f (str "devbind.bambu.com")) (f (str "devseclink.bambu.com")) (f (str "devversion.bambu.com")).
  intros. vm_compute. reflexivity.
Qed.

Lemma device_json h : Json.parse (to_device_info_json h) = Ok (Object (device_object (fun k => value k h))) [].
Proof.
  rewrite json_text, parse_member_list, members_sorted; [done | done | | reflexivity |].
  - unfold device_members. repeat (apply Forall_cons; split; [done|]). by apply Forall_nil.
  - unfold device_members. repeat (apply Forall_cons; split; [simpl; lia|]). by apply Forall_nil.
Qed.

(** ** Headers of a message *)

(** The first value of a key, whatever the case of its letters. *)
Fixpoint header (lc_key : cstr) (fields : list (cstr * cstr)) : option cstr :=
  match fields with
  | [] => None
  | (k, v) :: fields => if bool_decide (to_lower k = lc_key) then Some v else header lc_key fields
  end.

Definition set_all (h : Headers) (fields : list (cstr * cstr)) : Headers := foldl (fun h kv => set kv.1 kv.2 h) h fields.

Lemma get_set k v lk h :
  get lk (set k v h) = match get lk h with Some x => Some x | None => if bool_decide (to_lower k = lk) then Some v else None end.
Proof.
  unfold get, set. rewrite om_find_emplace. destruct (om_find lk h); [done|]. case_bool_decide as E.
  - by rewrite E, keq_refl.
  - by rewrite (proj2 (keq_neq lk (to_lower k))) by congruence.
Qed.

Lemma get_set_all lk fields h : get lk (set_all h fields) = match get lk h with Some x => Some x | None => header lk fields end.
Proof.
  revert h. induction fields as [|[k v] fields IH]; intros h; simpl; [by destruct (get lk h)|].
  rewrite IH, get_set. destruct (get lk h); [done|]. by case_bool_decide.
Qed.

(** ** A message as printers send it *)

Definition is_cr (c : byte) : bool := beq c (zb 13).
Definition is_lf (c : byte) : bool := beq c (zb 10).
Definition line_text (s : cstr) : Prop := Forall (fun c => is_lf c = false) s /\ Forall (fun c => is_cr c = false) s.

Definition ending (crlf : bool) : cstr := if crlf then [zb 13; zb 10] else [zb 10].

Definition field_line (crlf : bool) (kv : cstr * cstr) : cstr := kv.1 ++ [zb 58] ++ kv.2 ++ ending crlf.

Definition message (crlf : bool) (start : cstr) (fields : list (cstr * cstr)) (body : cstr) : cstr :=
  start ++ ending crlf ++ concat (map (field_line crlf) fields) ++ ending crlf ++ body.

Definition field_ok (kv : cstr * cstr) : Prop :=
  line_text kv.1 /\ line_text kv.2 /\ Forall (fun c => beq c (zb 58) = false) kv.1 /\ trim kv.1 <> [].

Definition trimmed (fields : list (cstr * cstr)) : list (cstr * cstr) := map (fun kv => (trim kv.1, trim kv.2)) fields.

Lemma find_str_skip c n a b :
  Forall (fun x => beq x c = false) a -> find_str (c :: n) (a ++ b) = option_map (Nat.add (length a)) (find_str (c :: n) b).
Proof.
  induction 1 as [|x a Hx Ha IH]; [cbn [app length]; by destruct (find_str (c :: n) b)|]. cbn [app find_str starts_with length].
  rewrite beq_sym, Hx, IH. cbn [andb]. by destruct (find_str (c :: n) b).
Qed.

Lemma find_str_absent c n a : Forall (fun x => beq x c = false) a -> find_str (c :: n) a = None.
Proof. intros H. rewrite <- (app_nil_r a), find_str_skip by done. done. Qed.

Lemma chop_cr_plain l : Forall (fun c => is_cr c = false) l -> chop_cr l = l.
Proof.
  intros H. unfold chop_cr. destruct (last l) as [c|] eqn:E; [|done]. apply last_Some in E as [l' ->].
  apply Forall_app in H as [_ H]. apply Forall_cons in H as [H _]. unfold is_cr in H. by rewrite H.
Qed.

Lemma chop_cr_cr l : chop_cr (l ++ [zb 13]) = l.
Proof. unfold chop_cr. rewrite last_snoc. change (beq (zb 13) (zb 13)) with true. by rewrite removelast_last. Qed.

(** Cutting the next line off. *)
Lemma cut_line crlf l r :
  line_text l ->
  exists eol, find_char (zb 10) (l ++ ending crlf ++ r) = Some eol /\
    chop_cr (take eol (l ++ ending crlf ++ r)) = l /\ drop (S eol) (l ++ ending crlf ++ r) = r.
Proof.
  intros [Hl Hc]. set (l' := if crlf then l ++ [zb 13] else l).
  assert (E : l ++ ending crlf ++ r = l' ++ zb 10 :: r) by (unfold l'; destruct crlf; simpl; by rewrite <- ?app_assoc).
  exists (length l'). rewrite E. split_and!.
  - apply find_char_app. unfold l'. destruct crlf; [|done]. apply Forall_app. split; [done | by apply Forall_singleton].
  - rewrite take_app_length. unfold l'. destruct crlf; [apply chop_cr_cr | by apply chop_cr_plain].
  - change (zb 10 :: r) with ([zb 10] ++ r). rewrite app_assoc.
    replace (S (length l')) with (length (l' ++ [zb 10])) by (rewrite length_app; simpl; lia). apply drop_app_length.
Qed.

Lemma header_loop_line crlf fuel l r h :
  line_text l -> header_loop (S fuel) (l ++ ending crlf ++ r) h = match l with [] => h | _ => header_loop fuel r (add_header l h) end.
Proof.
  intros Hl. destruct (cut_line crlf l r Hl) as (eol & H1 & H2 & H3). cbn [header_loop].
  destruct (l ++ ending crlf ++ r) as [|c m] eqn:E; [by destruct l, crlf|]. rewrite H1. simpl from_option. unfold id.
  rewrite H2. destruct l; [done|]. by rewrite H3.
Qed.

Lemma add_field kv h : field_ok kv -> add_header (kv.1 ++ [zb 58] ++ kv.2) h = set (trim kv.1) (trim kv.2) h.
Proof.
  destruct kv as [k v]. intros (_ & _ & Hk & Hn). cbn [fst snd] in *. unfold add_header. cbn [app].
  rewrite find_char_app, take_app_length by done. destruct (trim k); [done|].
  change (zb 58 :: v) with ([zb 58] ++ v). rewrite app_assoc.
  replace (S (length k)) with (length (k ++ [zb 58])) by (rewrite length_app; simpl; lia). by rewrite drop_app_length.
Qed.

Lemma field_text kv : field_ok kv -> line_text (kv.1 ++ [zb 58] ++ kv.2).
Proof.
  intros ([H1 H2] & [H3 H4] & _). split; repeat (apply Forall_app; split); try done; by apply Forall_singleton.
Qed.

Lemma header_loop_fields crlf fields : forall fuel body h,
  Forall field_ok fields -> (length fields < fuel)%nat ->
  header_loop fuel (concat (map (field_line crlf) fields) ++ ending crlf ++ body) h = set_all h (trimmed fields).
Proof.
  induction fields as [|kv fields IH]; intros fuel body h Hf Hl; destruct fuel as [|fuel]; simpl in Hl; try lia.
  - cbn [map concat app]. change (ending crlf ++ body) with ([] ++ ending crlf ++ body). rewrite header_loop_line; [done|].
    split; apply Forall_nil_2.
  - apply Forall_cons in Hf as [Hk Hf]. cbn [map concat]. unfold field_line at 1.
    replace ((kv.1 ++ [zb 58] ++ kv.2 ++ ending crlf) ++ concat (map (field_line crlf) fields))
      with ((kv.1 ++ [zb 58] ++ kv.2) ++ ending crlf ++ concat (map (field_line crlf) fields)) by by rewrite <- !app_assoc.
    rewrite <- app_assoc, <- (app_assoc (ending crlf)).
    rewrite header_loop_line by by apply field_text.
    destruct (kv.1 ++ [zb 58] ++ kv.2) as [|c l] eqn:E; [by destruct kv.1|]. rewrite <- E, add_field by done.
    by apply IH; [|lia].
Qed.

Lemma parse_message crlf start fields body :
  line_text start -> contains (str "HTTP/1.") start = true -> Forall field_ok fields ->
  (crlf = true \/ Forall (fun c => is_cr c = false) body) ->
  parse (message crlf start fields body) = Some (set_all [] (trimmed fields)).
Proof.
  intros [Hlf Hcr] Hs Hf Hb. set (rest := concat (map (field_line crlf) fields) ++ ending crlf ++ body).
  assert (Hm : message crlf start fields body = start ++ ending crlf ++ rest) by done.
  assert (Hstart : start_line_end (start ++ ending crlf ++ rest) = Some (length start)).
  { unfold start_line_end. rewrite find_str_skip by done. destruct crlf.
    - simpl. f_equal. lia.
    - rewrite find_str_absent; [by apply find_char_app|]. destruct Hb as [|Hb]; [done|].
      cbn [ending app]. apply Forall_cons. split; [done|]. unfold rest. apply Forall_app. split; [|by apply Forall_cons].
      clear -Hf. induction Hf as [|kv fields Hk Hf IH]; [by apply Forall_nil|]. cbn [map concat]. apply Forall_app. split; [|exact IH].
      destruct Hk as ([_ H1] & [_ H2] & _). unfold field_line. repeat (apply Forall_app; split); try done; by apply Forall_singleton. }
  assert (Hlen : (length fields < length (start ++ ending crlf ++ rest) /\ 4 <= length (start ++ ending crlf ++ rest))%nat).
  { assert (Hn : (length fields <= length (concat (map (field_line crlf) fields)))%nat).
    { clear. induction fields as [|kv fields IH]; simpl; [lia|]. unfold field_line at 1. rewrite !length_app. simpl. lia. }
    assert (H4 : (7 <= length start)%nat).
    { unfold contains in Hs. destruct (find_str (str "HTTP/1.") start) as [i|] eqn:E; [|done].
      apply find_str_some in E as [E _]. apply starts_with_length in E. rewrite length_drop in E. simpl in E. lia. }
    unfold rest. rewrite !length_app. lia. }
  unfold parse. rewrite Hm, (proj2 (Nat.ltb_ge _ _)), Hstart, take_app_length, Hs by lia. cbn [negb]. f_equal.
  assert (Hd : drop (if beq (at_ (start ++ ending crlf ++ rest) (length start)) (zb 13) then length start + 2 else length start + 1) (start ++ ending crlf ++ rest) = rest).
  { unfold at_. rewrite list_lookup_total_alt, lookup_app_r, Nat.sub_diag by done. destruct crlf; simpl.
    - rewrite <- drop_drop, drop_app_length. done.
    - rewrite <- drop_drop, drop_app_length. done. }
  rewrite Hd. apply header_loop_fields; [done | lia].
Qed.

(** ** What is reported of a datagram *)

Lemma on_datagram_parsed src data :
  on_datagram src data =
  match parse (take kBufSize data) with
  | None => None
  | Some h =>
      match get (str "usn") h, get (str "devmodel.bambu.com") h with
      | Some (_ :: _), Some (_ :: _) =>
          Some (to_device_info_json (match get (str "location") h with
                                     | None => set (str "Location") (inet_ntop src) h
                                     | Some _ => h
                                     end))
      | _, _ => None
      end
  end.
Proof. unfold on_datagram. destruct (take kBufSize data); [reflexivity | done]. Qed.

(** With the fallback for the address every key has the value it had. *)
Lemma value_located src h k :
  value k (match get (str "location") h with None => set (str "Location") (inet_ntop src) h | Some _ => h end) =
  default (if bool_decide (k = str "location") then inet_ntop src else []) (get k h).
Proof.
  unfold value. case_bool_decide as E.
  - subst k. destruct (get (str "location") h) as [v|] eqn:El; [by rewrite El|]. rewrite get_set, El.
    by rewrite bool_decide_eq_true_2.
  - destruct (get (str "location") h) eqn:El; [by destruct (get k h)|]. rewrite get_set. destruct (get k h); [done|].
    by rewrite bool_decide_eq_false_2.
Qed.

(** Whatever arrives, what the callback is given is JSON: an object with
    exactly the ten members Studio reads, all strings, with a serial number and
    a model that are not empty. *)
Lemma report_well_formed (src : Addr) (data json : cstr) :
  on_datagram src data = Some json ->
  exists f, f (str "usn") <> [] /\ f (str "devmodel.bambu.com") <> [] /\ Json.parse json = Ok (Object (device_object f)) [].
Proof.
  rewrite on_datagram_parsed. destruct (parse (take kBufSize data)) as [h|]; [|done].
  destruct (get (str "usn") h) as [[|c u]|] eqn:Eu; try done. destruct (get (str "devmodel.bambu.com") h) as [[|d m]|] eqn:Em; try done.
  intros [= <-]. set (h' := match get (str "location") h with None => _ | Some _ => h end).
  exists (fun k => value k h'). split_and!; [| |apply device_json]; unfold h'; rewrite value_located; [by rewrite Eu | by rewrite Em].
Qed.

(** C19: A message as printers send it (a start line with HTTP/1., header lines
    that end in CR LF or all in LF, an empty line) that names a serial number
    and a model is reported: the report is the JSON object of the first value
    of each header, whatever the case of its name, without the blanks around
    it, and of the sender's address where there is no Location. *)
Theorem printer_reported (src : Addr) (crlf : bool) (start : cstr) (fields : list (cstr * cstr)) (body id model : cstr) :
  line_text start -> contains (str "HTTP/1.") start = true -> Forall field_ok fields ->
  (crlf = true \/ Forall (fun c => is_cr c = false) body) -> (length (message crlf start fields body) <= kBufSize)%nat ->
  header (str "usn") (trimmed fields) = Some id -> id <> [] ->
  header (str "devmodel.bambu.com") (trimmed fields) = Some model -> model <> [] ->
  exists json, on_datagram src (message crlf start fields body) = Some json /\
    Json.parse json =
    Ok (Object (device_object (fun k => default (if bool_decide (k = str "location") then inet_ntop src else []) (header k (trimmed fields))))) [].
Proof.
  intros Hs Hh Hf Hb Hl Hu Hun Hm Hmn. rewrite on_datagram_parsed, take_ge, parse_message by done.
  rewrite (get_set_all (str "usn")), (get_set_all (str "devmodel.bambu.com")). cbn [get om_find]. rewrite Hu, Hm. destruct id; [done|]. destruct model; [done|]. eexists. split; [reflexivity|].
  rewrite device_json. do 2 f_equal. unfold device_object. cbv beta. rewrite !value_located, !get_set_all. reflexivity.
Qed.

(** ** Witnesses *)

Definition sample_fields : list (cstr * cstr) :=
  [(str "HOST", str " 239.255.255.250:1990"); (str "USN", str " 01P00A000000001"); (str "Location", str " 192.168.1.20 ");
   (str "DevModel.bambu.com", str " C11"); (str "DevName.bambu.com", str " my printer")].


Lemma report_well_formed_witness :
  exists f, f (str "usn") <> [] /\ f (str "devmodel.bambu.com") <> [] /\
    Json.parse (default [] (on_datagram (10, 0, 0, 7) (message true (str "NOTIFY * HTTP/1.1") sample_fields []))) = Ok (Object (device_object f)) [].
Proof. apply (report_well_formed (10, 0, 0, 7) (message true (str "NOTIFY * HTTP/1.1") sample_fields [])). vm_compute. reflexivity. Defined.

Lemma text_of (s : cstr) : forallb (fun c => negb (is_lf c) && negb (is_cr c)) s = true -> line_text s.
Proof.
  intros H. split; apply Forall_forall; intros c Hc%list_elem_of_In; rewrite forallb_forall in H; specialize (H c Hc);
    apply andb_prop in H as [H1 H2]; by apply negb_true_iff.
Qed.

Lemma sample_fields_ok : Forall field_ok sample_fields.
Proof.
  unfold sample_fields. repeat (apply Forall_cons; split; [split_and!; [apply text_of; reflexivity | apply text_of; reflexivity | repeat (apply Forall_cons; split; [reflexivity|]); apply Forall_nil_2 | done]|]).
  apply Forall_nil_2.
Qed.

Lemma printer_reported_witness :
  exists json, on_datagram (10, 0, 0, 7) (message false (str "NOTIFY * HTTP/1.1") sample_fields (str "tail")) = Some json /\
    Json.parse json =
    Ok (Object (device_object (fun k => default (if bool_decide (k = str "location") then inet_ntop (10, 0, 0, 7) else []) (header k (trimmed sample_fields))))) [].
Proof.
  eapply (printer_reported (10, 0, 0, 7) false (str "NOTIFY * HTTP/1.1") sample_fields (str "tail")).
  - apply text_of. reflexivity.
  - reflexivity.
  - exact sample_fields_ok.
  - right. apply (text_of (str "tail")). reflexivity.
  - apply Nat.leb_le. vm_compute. reflexivity.
  - vm_compute. reflexivity.
  - discriminate.
  - vm_compute. reflexivity.
  - discriminate.
Defined.
