(* ===== verification/SsdpListener.v ===== *)
(** The SSDP listener's threads ([Discovery] of [src/ssdp.cpp]): [start] and
    [stop], which one mutex serialises, against the worker's loop, one shared
    access at a step. Sockets are the numbers the system gave; [open_] is the
    system's view of the listener's own. *)

From S2P Require Import Prelude OMap Text Json Ssdp.
From coqutil Require Import Datatypes.RecordSetters.
Import DoubleBraceUpdate.

(** ** State *)

(** Where [run_] is. [WDone] is a thread that has ended and was not joined. *)
Inductive Worker :=
| WStart
| WLoop (fd : Z)
| WPoll (fd : Z)
| WRecv (fd : Z)
| WGet (fd : Z) (json : cstr)
| WCall (fd : Z) (cb : option nat) (json : cstr)
| WExit (fd : Z)
| WReset (fd : Z)
| WClose (fd : Z)
| WDone.

(** Where the thread is that holds [start_mu_], in [start] or in [stop]. *)
Inductive Control :=
| Idle
| SCheck (cb : option nat) | SSwap (cb : option nat) | SJoin (cb : option nat) | SSetCb (cb : option nat) | SSocket | SBind (fd : Z) | SStore (fd : Z)
| SRun (fd : Z) | SSpawn (fd : Z) | SUndoRun (fd : Z) | SUndoFd (fd : Z) | SUndoClose (fd : Z) | SFail
| TXchg | TReap | TClear | TJoin | TTake | TClose (fd : Z) | TEnd.

Record Discovery := {
  running_ : bool;
  fd_ : Z;
  cb_ : option nat;
  worker_ : option Worker;
  control : Control;
  open_ : list Z }.

Definition kInvalidSocket : Z := -1.

Definition new_discovery : Discovery :=
  {| running_ := false; fd_ := kInvalidSocket; cb_ := None; worker_ := None; control := Idle; open_ := [] |}.

(** What a step shows. [Started] is shown where the result of [start] is
    decided: at its return, or, when a listener is running already, at the load
    of [running_], after which [start] has only the callback to replace. *)
Inductive Event :=
| Tau
| Opened (fd : Z)
| Used (fd : Z)
| Closed (fd : Z)
| Received (fd : Z) (src : Addr) (data : cstr)
| Called (cb : nat) (json : cstr)
| Started (ok : bool)
| Stopped.

Definition close_socket (fd : Z) (s : Discovery) : Discovery := s {{ open_ := filter (fun x => x <> fd) (open_ s) }}.

Definition joinable_done (s : Discovery) : bool := match worker_ s with None | Some WDone => true | _ => false end.

(** ** start and stop *)

(** What the system answers: a socket or none, binding it, a thread; and what
    the caller asks for next. *)
Inductive Answer := AskStart (cb : option nat) | AskStop | Go | Got (fd : Z) | Refused.

Definition control_step (a : Answer) (s : Discovery) : option (Event * Discovery) :=
  match control s, a with
  | Idle, AskStart cb => Some (Tau, s {{ control := SCheck cb }})
  | Idle, AskStop => Some (Tau, s {{ control := TXchg }})
  | SCheck cb, Go => Some (if running_ s then (Started true, s {{ control := SSwap cb }}) else (Tau, s {{ control := SJoin cb }}))
  | SSwap cb, Go => Some (Tau, s {{ cb_ := cb }} {{ control := Idle }})
  | SJoin cb, Go => if joinable_done s then Some (Tau, s {{ worker_ := None }} {{ control := SSetCb cb }}) else None
  | SSetCb cb, Go => Some (Tau, s {{ cb_ := cb }} {{ control := SSocket }})
  | SSocket, Got fd =>
      if (0 <=? fd) && negb (bool_decide (fd ∈ open_ s)) then Some (Opened fd, s {{ open_ := fd :: open_ s }} {{ control := SBind fd }}) else None
  | SSocket, Refused => Some (Tau, s {{ control := SFail }})
  | SBind fd, Go => Some (Used fd, s {{ control := SStore fd }})
  | SBind fd, Refused => Some (Closed fd, (close_socket fd s) {{ control := SFail }})
  | SStore fd, Go => Some (Tau, s {{ fd_ := fd }} {{ control := SRun fd }})
  | SRun fd, Go => Some (Tau, s {{ running_ := true }} {{ control := SSpawn fd }})
  | SSpawn fd, Go => Some (Started true, s {{ worker_ := Some WStart }} {{ control := Idle }})
  | SSpawn fd, Refused => Some (Tau, s {{ control := SUndoRun fd }})
  | SUndoRun fd, Go => Some (Tau, s {{ running_ := false }} {{ control := SUndoFd fd }})
  | SUndoFd fd, Go => Some (Tau, s {{ fd_ := kInvalidSocket }} {{ control := SUndoClose fd }})
  | SUndoClose fd, Go => Some (Closed fd, (close_socket fd s) {{ control := SFail }})
  | SFail, Go => Some (Started false, s {{ control := Idle }})
  | TXchg, Go => Some (Tau, s {{ running_ := false }} {{ control := if running_ s then TClear else TReap }})
  | TReap, Go => if joinable_done s then Some (Stopped, s {{ worker_ := None }} {{ control := Idle }}) else None
  | TClear, Go => Some (Tau, s {{ cb_ := None }} {{ control := TJoin }})
  | TJoin, Go => if joinable_done s then Some (Tau, s {{ worker_ := None }} {{ control := TTake }}) else None
  | TTake, Go => Some (Tau, s {{ fd_ := kInvalidSocket }} {{ control := TClose (fd_ s) }})
  | TClose fd, Go => Some (Closed fd, (close_socket fd s) {{ control := TEnd }})
  | TEnd, Go => Some (Stopped, s {{ control := Idle }})
  | _, _ => None
  end.

(** ** The worker *)

(** What polling and receiving give. *)
Inductive Net := NGo | NAgain | NError | NReady | NDatagram (src : Addr) (data : cstr).

Definition at_worker (w : Worker) (s : Discovery) : Discovery := s {{ worker_ := Some w }}.

Definition worker_step (n : Net) (s : Discovery) : option (Event * Discovery) :=
  match worker_ s with
  | None => None
  | Some w =>
      match w, n with
      | WStart, NGo => Some (Tau, at_worker (WLoop (fd_ s)) s)
      | WLoop fd, NGo => Some (Tau, at_worker (if running_ s then WPoll fd else WExit fd) s)
      | WPoll fd, NAgain => Some (Used fd, at_worker (WLoop fd) s)
      | WPoll fd, NError => Some (Used fd, at_worker (WExit fd) s)
      | WPoll fd, NReady => Some (Used fd, at_worker (WRecv fd) s)
      | WRecv fd, NAgain => Some (Used fd, at_worker (WLoop fd) s)
      | WRecv fd, NError => Some (Used fd, at_worker (WExit fd) s)
      | WRecv fd, NDatagram src data =>
          Some (Received fd src data, at_worker (match on_datagram src data with Some json => WGet fd json | None => WLoop fd end) s)
      | WGet fd json, NGo => Some (Tau, at_worker (WCall fd (cb_ s) json) s)
      | WCall fd (Some cb) json, NGo => Some (Called cb json, at_worker (WLoop fd) s)
      | WCall fd None json, NGo => Some (Tau, at_worker (WLoop fd) s)
      | WExit fd, NGo => Some (Tau, (at_worker (if running_ s then WReset fd else WDone) s) {{ running_ := false }})
      | WReset fd, NGo => Some (Tau, (at_worker (WClose fd) s) {{ fd_ := kInvalidSocket }})
      | WClose fd, NGo => Some (Closed fd, close_socket fd (at_worker WDone s))
      | _, _ => None
      end
  end.

(** ** Together *)

Inductive step : Discovery -> Event -> Discovery -> Prop :=
| step_control a s e s' : control_step a s = Some (e, s') -> step s e s'
| step_worker n s e s' : worker_step n s = Some (e, s') -> step s e s'.

Inductive steps : Discovery -> list Event -> Discovery -> Prop :=
| steps_nil s : steps s [] s
| steps_snoc s tr s1 e s2 : steps s tr s1 -> step s1 e s2 -> steps s (tr ++ [e]) s2.

Definition reachable (s : Discovery) : Prop := exists tr, steps new_discovery tr s.

(** ** The invariant *)

(** A worker that has not taken the socket back: it runs on [fd]. *)
Definition at_work (fd : Z) (w : Worker) : Prop :=
  match w with
  | WStart => True
  | WLoop f | WPoll f | WRecv f | WGet f _ | WCall f _ _ | WExit f => f = fd
  | _ => False
  end.

(** No listener, or one that ends on its own account. *)
Definition ended (s : Discovery) : Prop :=
  running_ s = false /\
  match worker_ s with
  | None | Some WDone => open_ s = [] /\ fd_ s = kInvalidSocket
  | Some (WReset fd) => open_ s = [fd] /\ fd_ s = fd
  | Some (WClose fd) => open_ s = [fd] /\ fd_ s = kInvalidSocket
  | _ => False
  end.

Definition listening (s : Discovery) : Prop :=
  running_ s = true /\ open_ s = [fd_ s] /\ exists w, worker_ s = Some w /\ at_work (fd_ s) w.

(** A listener that [stop] has told to end. *)
Definition draining (s : Discovery) : Prop :=
  running_ s = false /\ open_ s = [fd_ s] /\ exists w, worker_ s = Some w /\ (at_work (fd_ s) w \/ w = WDone).

Definition bare (s : Discovery) : Prop := running_ s = false /\ worker_ s = None /\ fd_ s = kInvalidSocket /\ open_ s = [].

Definition Inv (s : Discovery) : Prop :=
  match control s with
  | Idle | SCheck _ | SSwap _ | TXchg => ended s \/ listening s
  | SJoin _ | TReap => ended s
  | SSetCb _ | SSocket | SFail | TEnd => bare s
  | SBind fd | SStore fd => running_ s = false /\ worker_ s = None /\ fd_ s = kInvalidSocket /\ open_ s = [fd]
  | SRun fd => running_ s = false /\ worker_ s = None /\ fd_ s = fd /\ open_ s = [fd]
  | SSpawn fd | SUndoRun fd => running_ s = true /\ worker_ s = None /\ fd_ s = fd /\ open_ s = [fd]
  | SUndoFd fd => running_ s = false /\ worker_ s = None /\ fd_ s = fd /\ open_ s = [fd]
  | SUndoClose fd | TClose fd => running_ s = false /\ worker_ s = None /\ fd_ s = kInvalidSocket /\ open_ s = [fd]
  | TClear | TJoin => draining s
  | TTake => running_ s = false /\ worker_ s = None /\ open_ s = [fd_ s]
  end.

Lemma filter_out_one (fd : Z) : filter (fun x => x <> fd) [fd] = [].
Proof. rewrite filter_cons_False by (intros H; by apply H). done. Qed.

(** Each step is a case of the definition. *)
Ltac split_step H :=
  repeat match type of H with
  | context [match ?x with _ => _ end] => let E := fresh "E" in destruct x eqn:E; try done
  end.

Lemma worker_control n s e s' : worker_step n s = Some (e, s') -> control s' = control s.
Proof.
  destruct s as [r f c [w|] k o]; [|done]. unfold worker_step, close_socket, at_worker. cbn. intros H. split_step H; by injection H as <- <-.
Qed.

Lemma worker_ended n s e s' : ended s -> worker_step n s = Some (e, s') -> ended s'.
Proof.
  destruct s as [r f c [w|] k o]; [|done]. unfold ended, worker_step, close_socket, at_worker. cbn. intros [-> Hw] H.
  destruct w, n; try done; destruct Hw as [-> ->]; injection H as <- <-; cbn; split_and!; try done. by rewrite decide_False by auto.
Qed.

Lemma worker_draining n s e s' : draining s -> worker_step n s = Some (e, s') -> draining s'.
Proof.
  destruct s as [r f c w k o]. unfold draining, worker_step, at_worker. cbn. intros (-> & -> & w' & -> & Hw) H.
  destruct Hw as [Hw | ->]; [|done]. destruct w', n; try done; cbn in Hw; subst; split_step H; injection H as <- <-; cbn;
    split_and!; try done; eexists; (split; [reflexivity|]); first [by left | by right].
Qed.

Lemma worker_listening n s e s' : listening s -> worker_step n s = Some (e, s') -> ended s' \/ listening s'.
Proof.
  destruct s as [r f c w k o]. unfold listening, ended, worker_step, at_worker. cbn. intros (-> & -> & w' & -> & Hw) H.
  destruct w', n; try done; cbn in Hw; subst; split_step H; injection H as <- <-; cbn;
    first [by left | right; split_and!; try done; eexists; (split; [reflexivity|]); done].
Qed.

Lemma worker_keeps n s e s' : Inv s -> worker_step n s = Some (e, s') -> Inv s'.
Proof.
  intros Hi H. pose proof (worker_control _ _ _ _ H) as Hc. unfold Inv in *. rewrite Hc.
  assert (Hnone : worker_ s = None -> False) by (intros E; unfold worker_step in H; by rewrite E in H).
  destruct (control s); unfold bare in *; try (destruct Hnone; by destruct_and?);
    first [by apply (worker_ended n s e) | by apply (worker_draining n s e) | destruct Hi as [Hi|Hi]; [left; by apply (worker_ended n s e) | by apply (worker_listening n s e)]].
Qed.

Lemma close_one fd s : open_ s = [fd] -> open_ (close_socket fd s) = [].
Proof. destruct s. cbn. intros ->. apply filter_out_one. Qed.

Lemma joined_bare s k : ended s -> joinable_done s = true -> bare (s {{ worker_ := None }} {{ control := k }}).
Proof.
  destruct s as [r f c w k' o]. unfold ended, joinable_done, bare. cbn. intros [-> Hw] Hj.
  destruct w as [[]|]; try done; destruct Hw as [-> ->]; done.
Qed.

Lemma joined_ended s k : ended s -> joinable_done s = true -> ended (s {{ worker_ := None }} {{ control := k }}).
Proof. intros He Hj. destruct (joined_bare s k He Hj) as (H1 & H2 & H3 & H4). unfold ended. by rewrite H1, H2, H3, H4. Qed.

Lemma control_keeps a s e s' : Inv s -> control_step a s = Some (e, s') -> Inv s'.
Proof.
  unfold control_step. destruct (control s) eqn:Ec; unfold Inv at 1; rewrite Ec; intros Hi; destruct a; try done; intros Hs.
  all: try (injection Hs as <- <-; unfold Inv, bare, ended, draining, listening in *; destruct s; cbn in *; destruct_and?; subst; rewrite ?filter_out_one; by auto).
  - (* SCheck *) destruct (running_ s) eqn:Er; injection Hs as <- <-; unfold Inv, ended, listening in *; destruct s; cbn in *; [exact Hi|].
    destruct Hi as [Hi|(H & _)]; [exact Hi | congruence].
  - (* SJoin *) destruct (joinable_done s) eqn:Ej; [|done]. injection Hs as <- <-. by apply joined_bare.
  - (* SSocket *) destruct (_ && _); [|done]. injection Hs as <- <-. destruct s. unfold Inv, bare in *. cbn in *. by destruct_and?; subst.
  - (* SSpawn *) injection Hs as <- <-. right. unfold listening. destruct s. cbn in *. destruct Hi as (-> & _ & -> & ->).
    split_and!; try done. by exists WStart.
  - (* TXchg *) injection Hs as <- <-. unfold Inv, ended, listening, draining in *. destruct s as [[] f c w k o]; cbn in *.
    + destruct Hi as [(H & _)|(_ & -> & w' & -> & Hw)]; [done|]. split_and!; try done. exists w'. auto.
    + destruct Hi as [(_ & H)|(H & _)]; done.
  - (* TReap *) destruct (joinable_done s) eqn:Ej; [|done]. injection Hs as <- <-. left. by apply joined_ended.
  - (* TJoin *) destruct (joinable_done s) eqn:Ej; [|done]. injection Hs as <- <-. unfold Inv, draining in *. destruct s. cbn in *. by destruct_and?.
Qed.

Lemma step_keeps s e s' : Inv s -> step s e s' -> Inv s'.
Proof. intros Hi H. destruct H as [a s e s' H | n s e s' H]; [by apply (control_keeps a s e) | by apply (worker_keeps n s e)]. Qed.

Lemma inv_steps s tr s' : Inv s -> steps s tr s' -> Inv s'.
Proof. intros Hi H. induction H as [|s tr s1 e s2 H IH Hs]; [done | eauto using step_keeps]. Qed.

Lemma inv_new : Inv new_discovery.
Proof. by left. Qed.

Lemma inv_reachable s : reachable s -> Inv s.
Proof. intros [tr H]. exact (inv_steps _ _ _ inv_new H). Qed.

(** Accesses of [fd_] by the two threads at their next steps. *)
Definition control_writes_fd (k : Control) : bool := match k with SStore _ | SUndoFd _ | TTake => true | _ => false end.
Definition worker_touches_fd (w : option Worker) : bool := match w with Some WStart | Some (WReset _) => true | _ => false end.

(** The socket an event is about. *)
Definition event_fd (e : Event) : option Z := match e with Used fd | Closed fd | Received fd _ _ => Some fd | _ => None end.

Lemma control_uses a s e s' fd : Inv s -> control_step a s = Some (e, s') -> event_fd e = Some fd -> open_ s = [fd].
Proof.
  unfold control_step. destruct (control s) eqn:Ec; unfold Inv; rewrite Ec; intros Hi; destruct a; try done; intros Hs; split_step Hs;
    injection Hs as <- <-; cbn; try done; intros [= <-]; by destruct_and?.
Qed.

Lemma inv_worker s : Inv s -> match worker_ s with
  | Some (WLoop fd) | Some (WPoll fd) | Some (WRecv fd) | Some (WGet fd _) | Some (WCall fd _ _) | Some (WExit fd) | Some (WReset fd) | Some (WClose fd) => open_ s = [fd]
  | _ => True end.
Proof.
  unfold Inv, ended, listening, draining, bare. intros Hi.
  assert (H : (running_ s = false /\ match worker_ s with
     | None | Some WDone => open_ s = [] /\ fd_ s = kInvalidSocket
     | Some (WReset fd) => open_ s = [fd] /\ fd_ s = fd
     | Some (WClose fd) => open_ s = [fd] /\ fd_ s = kInvalidSocket
     | _ => False end) \/ (open_ s = [fd_ s] /\ exists w, worker_ s = Some w /\ (at_work (fd_ s) w \/ w = WDone)) \/ worker_ s = None).
  { destruct (control s); naive_solver. }
  clear Hi. destruct H as [[_ H]|[[Ho (w & E & Hw)]| ->]]; [|rewrite E|done].
  - destruct (worker_ s) as [[]|]; naive_solver.
  - destruct w; naive_solver.
Qed.

Lemma worker_uses n s e s' fd : Inv s -> worker_step n s = Some (e, s') -> event_fd e = Some fd -> open_ s = [fd].
Proof.
  intros Hi%inv_worker. unfold worker_step. destruct (worker_ s) as [w|]; [|done].
  destruct w, n; try done; intros Hs; split_step Hs; injection Hs as <- <-; cbn; try done; intros [= <-]; exact Hi.
Qed.

Lemma uses_open s e s' fd : Inv s -> step s e s' -> event_fd e = Some fd -> open_ s = [fd].
Proof. intros Hi H. destruct H as [a s e s' H | n s e s' H]; [by apply (control_uses a s e s') | by apply (worker_uses n s e s')]. Qed.

Lemma worker_silent n s e s' : worker_step n s = Some (e, s') -> match e with Started _ | Stopped | Opened _ => False | _ => True end.
Proof.
  unfold worker_step. destruct (worker_ s) as [w|]; [|done]. destruct w, n; try done; intros H; split_step H; by injection H as <- <-.
Qed.

(** What holds when [start] and [stop] return. *)
Lemma control_returns a s e s' :
  Inv s -> control_step a s = Some (e, s') ->
  match e with Started true => listening s' | Started false | Stopped => bare s' | _ => True end.
Proof.
  unfold control_step. destruct (control s) eqn:Ec; unfold Inv; rewrite Ec; intros Hi; destruct a; try done; intros Hs; split_step Hs;
    injection Hs as <- <-; try done; try by apply (joined_bare _ Idle Hi).
  all: unfold bare, ended, listening in *; destruct s; cbn in *; try done.
  - destruct Hi as [[H _]|(_ & -> & H)]; [congruence | done].
  - destruct Hi as (-> & _ & -> & ->). split_and!; try done. by exists WStart.
Qed.

Lemma no_race s : Inv s -> control_writes_fd (control s) && worker_touches_fd (worker_ s) = false.
Proof.
  unfold Inv. destruct (control s); try done; intros (_ & H & _); by rewrite H.
Qed.

(** C16: Sockets and the shared [fd_], whatever the interleaving of calls of
    start and stop with the worker and whatever the system answers: a socket is
    used, received from and closed only while it is the one that is open; when
    start succeeds (where that is decided: for a listener that runs already, as
    it is seen running) there is one open socket, in [fd_], with a worker on it; when
    start fails and when stop returns there is none and no worker; and the two
    threads never access [fd_] at the same time. *)
Theorem sockets_owned (s : Discovery) (e : Event) (s' : Discovery) :
  reachable s -> step s e s' ->
  (forall fd, event_fd e = Some fd -> open_ s = [fd]) /\
  (e = Started true -> running_ s' = true /\ open_ s' = [fd_ s'] /\ exists w, worker_ s' = Some w /\ at_work (fd_ s') w) /\
  (e = Started false \/ e = Stopped -> running_ s' = false /\ worker_ s' = None /\ open_ s' = []) /\
  control_writes_fd (control s) && worker_touches_fd (worker_ s) = false.
Proof.
  intros Hr%inv_reachable H. split_and!; [by intros fd; apply (uses_open s e s') | | | by apply no_race].
  - intros ->. inversion H as [a ? ? ? Hs | n ? ? ? Hs]; subst; [exact (control_returns _ _ _ _ Hr Hs) | by destruct (worker_silent _ _ _ _ Hs)].
  - intros He. destruct H as [a s e s' Hs | n s e s' Hs].
    + pose proof (control_returns _ _ _ _ Hr Hs) as Hb. unfold bare in Hb. destruct He as [-> | ->]; by destruct_and?.
    + pose proof (worker_silent _ _ _ _ Hs). by destruct He as [-> | ->].
Qed.

(** ** After stop *)

Definition quiet (e : Event) : Prop := match e with Received _ _ _ | Called _ _ => False | _ => True end.

Lemma no_worker_step s e s' : worker_ s = None -> step s e s' -> quiet e /\ (e = Started true \/ worker_ s' = None).
Proof.
  intros Hw H. destruct H as [a s e s' Hs | n s e s' Hs]; [|unfold worker_step in Hs; by rewrite Hw in Hs].
  destruct s as [r f c w k o]. unfold control_step, joinable_done in Hs. cbn in *. subst w.
  destruct k, a; try done; split_step Hs; injection Hs as <- <-; cbn; auto.
Qed.

Lemma no_worker_steps s tr s' : steps s tr s' -> worker_ s = None -> Forall (fun e => e <> Started true) tr -> Forall quiet tr /\ worker_ s' = None.
Proof.
  induction 1 as [|s tr s1 e s2 H IH Hs]; intros Hw Ht; [by split|]. apply Forall_app in Ht as [Ht He]. apply Forall_cons in He as [He _].
  destruct (IH Hw Ht) as [Hq Hw1]. destruct (no_worker_step _ _ _ Hw1 Hs) as [Hqe [|Hw2]]; [done|].
  split; [apply Forall_app; split; [done | by apply Forall_singleton] | done].
Qed.

(** Once stop has returned nothing is received and no callback is made
    until a start succeeds. *)
Lemma silent_after_stop (s s1 : Discovery) (tr : list Event) (s2 : Discovery) :
  reachable s -> step s Stopped s1 -> steps s1 tr s2 -> Forall (fun e => e <> Started true) tr -> Forall quiet tr.
Proof.
  intros Hr%inv_reachable H Hs Ht. inversion H as [a ? ? ? Hc | n ? ? ? Hc]; subst; [|by destruct (worker_silent _ _ _ _ Hc)].
  pose proof (control_returns _ _ _ _ Hr Hc) as Hb. cbn in Hb. destruct Hb as (_ & Hb & _). by apply (no_worker_steps s1 tr s2).
Qed.

(** ** Joining *)

Definition joining (k : Control) : bool := match k with SJoin _ | TReap | TJoin => true | _ => false end.

Inductive worker_steps : Discovery -> nat -> Discovery -> Prop :=
| worker_steps_nil s : worker_steps s 0 s
| worker_steps_cons s n e s1 k s2 : worker_step n s = Some (e, s1) -> worker_steps s1 k s2 -> worker_steps s (S k) s2.

(** Steps the worker has left once [running_] is off. *)
Definition left_over (w : option Worker) : nat :=
  match w with
  | None | Some WDone => 0
  | Some (WExit _) | Some (WClose _) => 1
  | Some (WLoop _) | Some (WReset _) => 2
  | Some WStart | Some (WCall _ _ _) => 3
  | Some (WGet _ _) => 4
  | Some (WRecv _) => 5
  | Some (WPoll _) => 6
  end.

Lemma worker_descends n s e s' : running_ s = false -> worker_step n s = Some (e, s') -> running_ s' = false /\ (left_over (worker_ s') < left_over (worker_ s))%nat.
Proof.
  destruct s as [r f c [w|] k o]; [|done]. unfold worker_step, at_worker, close_socket. cbn. intros -> H.
  destruct w, n; try done; split_step H; injection H as <- <-; cbn; (split; [done | lia]).
Qed.

Lemma worker_steps_bound s k s' : worker_steps s k s' -> running_ s = false -> running_ s' = false /\ (left_over (worker_ s') + k <= left_over (worker_ s))%nat.
Proof.
  induction 1 as [s|s n e s1 k s2 H Hs IH]; intros Hr; [split; [done | lia]|].
  destruct (worker_descends _ _ _ _ Hr H) as [Hr1 Hl]. destruct (IH Hr1). split; [done | lia].
Qed.

Lemma worker_enabled s : joinable_done s = true \/ exists n e s', worker_step n s = Some (e, s').
Proof.
  unfold joinable_done, worker_step. destruct (worker_ s) as [w|]; [|by left].
  destruct w as [|fd|fd|fd|fd j|fd cb j|fd|fd|fd|]; try (right; exists NGo; by eexists _, _).
  - right. exists NReady. by eexists _, _.
  - right. exists NError. by eexists _, _.
  - right. exists NGo. destruct cb; by eexists _, _.
  - by left.
Qed.

(** C20: The joins end: where start or stop wait for the worker it makes at most
    six more steps, however polling, receiving and the callback turn out, and
    until it has ended it has a step to make; after that the join returns. *)
Theorem joins_end (s : Discovery) (k : nat) (s' : Discovery) :
  reachable s -> joining (control s) = true -> worker_steps s k s' ->
  (k <= 6)%nat /\
  ((exists n e s2, worker_step n s' = Some (e, s2)) \/ exists e s2, control_step Go s' = Some (e, s2)).
Proof.
  intros Hi%inv_reachable Hj H.
  assert (Hr : running_ s = false).
  { unfold Inv, ended, draining in Hi. destruct (control s); try done; by destruct Hi as [Hi _]. }
  assert (Hc : control s' = control s).
  { clear -H. induction H as [s|s n e s1 k s2 H Hs IH]; [done|]. rewrite IH. by apply (worker_control n s e). }
  destruct (worker_steps_bound _ _ _ H Hr) as [_ Hb]. split.
  - destruct (worker_ s) as [[]|]; cbn in Hb; lia.
  - destruct (worker_enabled s') as [Hd|He]; [right | by left]. unfold control_step. rewrite Hc, Hd.
    destruct (control s); try done; by eexists _, _.
Qed.

(** ** Callbacks *)

Definition call_of (e : Event) : list cstr := match e with Called _ json => [json] | _ => [] end.
Definition report_of (e : Event) : list cstr := match e with Received _ src data => option_list (on_datagram src data) | _ => [] end.
Definition calls (tr : list Event) : list cstr := concat (map call_of tr).
Definition reports (tr : list Event) : list cstr := concat (map report_of tr).

Definition pending (s : Discovery) : list cstr :=
  match worker_ s with Some (WGet _ json) | Some (WCall _ _ json) => [json] | _ => [] end.

Lemma control_pending a s e s' : control_step a s = Some (e, s') -> call_of e = [] /\ report_of e = [] /\ (pending s' = pending s \/ pending s' = []).
Proof.
  destruct s as [r f c w k o]. unfold control_step, joinable_done, close_socket, pending. cbn. intros H.
  destruct k, a; try done; split_step H; injection H as <- <-; cbn; auto.
Qed.

Lemma worker_pending n s e s' :
  worker_step n s = Some (e, s') -> sublist (call_of e ++ pending s') (pending s ++ report_of e).
Proof.
  destruct s as [r f c [w|] k o]; [|done]. unfold worker_step, at_worker, close_socket, pending. cbn. intros H.
  destruct w, n; try done; split_step H; injection H as <- <-; cbn; rewrite ?E; cbn; try done; try apply sublist_nil_l.
Qed.

(** The callbacks are, in order, reports of datagrams that were received,
    each made at most once. *)
Lemma calls_in_order (tr : list Event) (s : Discovery) :
  steps new_discovery tr s -> sublist (calls tr) (reports tr).
Proof.
  intros H. assert (Hp : sublist (calls tr ++ pending s) (reports tr)).
  { remember new_discovery as s0. induction H as [s|s tr s1 e s2 H IH Hs]; [subst; done|]. specialize (IH Heqs0).
    unfold calls, reports in *. rewrite !map_app, !concat_app. cbn [map concat]. rewrite !app_nil_r.
    destruct Hs as [a s1 e s2 Hs | n s1 e s2 Hs].
    - destruct (control_pending _ _ _ _ Hs) as (-> & -> & Hp). rewrite !app_nil_r.
      destruct Hp as [-> | ->]; [done|]. rewrite app_nil_r. etrans; [|exact IH]. by apply sublist_inserts_r.
    - rewrite <- app_assoc. etrans; [apply sublist_app; [reflexivity | apply (worker_pending _ _ _ _ Hs)]|].
      rewrite app_assoc. by apply sublist_app. }
  etrans; [|exact Hp]. by apply sublist_inserts_r.
Qed.

(** ** Witnesses *)

(** A schedule: whose step is next, with what it is answered. *)
Fixpoint run (ins : list (Answer + Net)) (s : Discovery) : option (list Event * Discovery) :=
  match ins with
  | [] => Some ([], s)
  | i :: ins =>
      match (match i with inl a => control_step a s | inr n => worker_step n s end) with
      | Some (e, s1) => match run ins s1 with Some (tr, s2) => Some (e :: tr, s2) | None => None end
      | None => None
      end
  end.

Lemma steps_trans s tr s1 tr' s2 : steps s tr s1 -> steps s1 tr' s2 -> steps s (tr ++ tr') s2.
Proof.
  intros H H'. induction H' as [s1|s1 tr' s2 e s3 H' IH Hs]; [by rewrite app_nil_r|]. rewrite app_assoc. eapply steps_snoc; [by apply IH | done].
Qed.

Lemma run_steps ins : forall s tr s', run ins s = Some (tr, s') -> steps s tr s'.
Proof.
  induction ins as [|i ins IH]; intros s tr s'; cbn [run]; [intros [= <- <-]; constructor|].
  intros H. assert (Hs : exists e s1 tr1, step s e s1 /\ run ins s1 = Some (tr1, s') /\ tr = e :: tr1).
  { destruct i as [a|n].
    - destruct (control_step a s) as [[e s1]|] eqn:E; [|done]. destruct (run ins s1) as [[tr1 s2]|] eqn:F; [|done].
      injection H as <- <-. exists e, s1, tr1. split_and!; [by apply (step_control a) | done | done].
    - destruct (worker_step n s) as [[e s1]|] eqn:E; [|done]. destruct (run ins s1) as [[tr1 s2]|] eqn:F; [|done].
      injection H as <- <-. exists e, s1, tr1. split_and!; [by apply (step_worker n) | done | done]. }
  destruct Hs as (e & s1 & tr1 & H1 & H2 & ->). apply (steps_trans s [e] s1); [|by apply IH].
  apply (steps_snoc s [] s); [constructor | done].
Qed.

Definition sample_datagram : cstr := message true (str "NOTIFY * HTTP/1.1") sample_fields [].

(** A start, a datagram that is reported, and a stop up to its return. *)
Definition sample_start : list (Answer + Net) :=
  [inl (AskStart (Some 1%nat)); inl Go; inl Go; inl Go; inl (Got 5); inl Go; inl Go; inl Go; inl Go;
   inr NGo; inr NGo; inr NReady; inr (NDatagram (10, 0, 0, 7) sample_datagram); inr NGo; inr NGo; inr NGo; inr NReady].
Definition sample_stop : list (Answer + Net) :=
  [inl AskStop; inl Go; inl Go; inr NAgain; inr NGo; inr NGo; inl Go; inl Go; inl Go].

Definition state_after (ins : list (Answer + Net)) : Discovery := match run ins new_discovery with Some (_, s) => s | None => new_discovery end.
Definition trace_of (ins : list (Answer + Net)) : list Event := match run ins new_discovery with Some (tr, _) => tr | None => [] end.

Lemma run_reachable ins : steps new_discovery (trace_of ins) (state_after ins).
Proof.
  unfold trace_of, state_after. destruct (run ins new_discovery) as [[tr s]|] eqn:E; [by apply (run_steps ins) | constructor].
Qed.

Lemma sockets_owned_witness :
  (forall fd, event_fd (Received 5 (10, 0, 0, 7) []) = Some fd -> open_ (state_after sample_start) = [fd]) /\
  control_writes_fd (control (state_after sample_start)) && worker_touches_fd (worker_ (state_after sample_start)) = false.
Proof.
  destruct (sockets_owned (state_after sample_start) (Received 5 (10, 0, 0, 7) []) (at_worker (WLoop 5) (state_after sample_start))) as (H1 & _ & _ & H4).
  - exists (trace_of sample_start). apply run_reachable.
  - apply (step_worker (NDatagram (10, 0, 0, 7) [])). vm_compute. reflexivity.
  - split; [exact H1 | exact H4].
Defined.

Lemma silent_after_stop_witness : Forall quiet [Tau; Tau; Tau; Tau; Tau; Started false].
Proof.
  apply (silent_after_stop (state_after (sample_start ++ sample_stop)) new_discovery _ new_discovery).
  - exists (trace_of (sample_start ++ sample_stop)). apply run_reachable.
  - apply (step_control Go). vm_compute. reflexivity.
  - apply (run_steps [inl (AskStart None); inl Go; inl Go; inl Go; inl Refused; inl Go]). vm_compute. reflexivity.
  - repeat (apply Forall_cons; split; [discriminate|]). apply Forall_nil_2.
Defined.

Lemma joins_end_witness :
  let s := state_after (sample_start ++ take 3 sample_stop) in
  (1 <= 6)%nat /\ ((exists n e s2, worker_step n (at_worker (WLoop 5) s) = Some (e, s2)) \/ exists e s2, control_step Go (at_worker (WLoop 5) s) = Some (e, s2)).
Proof.
  intros s. apply (joins_end s 1 (at_worker (WLoop 5) s)).
  - exists (trace_of (sample_start ++ take 3 sample_stop)). apply run_reachable.
  - vm_compute. reflexivity.
  - apply (worker_steps_cons _ NAgain (Used 5) (at_worker (WLoop 5) s)); [vm_compute; reflexivity | constructor].
Defined.

Lemma calls_in_order_witness :
  length (calls (trace_of sample_start)) = 1%nat /\ sublist (calls (trace_of sample_start)) (reports (trace_of sample_start)).
Proof. split; [vm_compute; reflexivity | apply (calls_in_order (trace_of sample_start) (state_after sample_start)); apply run_reachable]. Defined.
