(* ===== verification/ProjectFile.v ===== *)
(** The [project_file] command ([src/print_job.cpp], [include/obn/mqtt_seq.hpp]):
    the name on the printer, the AMS mapping, the upload's size text and the JSON
    that starts a print. *)

From S2P Require Import Prelude Text Double OMap Json Naming Config.

#[local] Delimit Scope string_scope with string.

(** ** Data *)

(** The fields of [BBL::PrintParams] a job reads; those of the naming are in [naming]. *)
Record Job := {
  naming : PrintParams; dev_id : cstr; plate_index : Z; nozzle_mapping : cstr; ams_mapping : cstr; ams_mapping2 : cstr;
  dst_file : cstr; dev_ip : cstr; use_ssl_for_ftp : bool; username : cstr; password : cstr;
  task_bed_leveling : bool; task_flow_cali : bool; task_vibration_cali : bool; task_layer_inspect : bool;
  task_record_timelapse : bool; task_timelapse_use_internal : bool; task_use_ams : bool; task_bed_type : cstr;
  auto_bed_leveling : Z; auto_flow_cali : Z; auto_offset_cali : Z; extruder_cali_manual_mode : Z;
  task_ext_change_assist : bool; slicer_uid : cstr }.

Record ProjectFileOpts := {
  o_file_path : cstr; o_url : cstr; o_md5 : cstr; o_project_id : cstr; o_profile_id : cstr; o_task_id : cstr; o_subtask_id : cstr }.

(** The options with the default ids. *)
Definition default_opts (file_path url md5 : cstr) : ProjectFileOpts :=
  {| o_file_path := file_path; o_url := url; o_md5 := md5;
     o_project_id := str "0"; o_profile_id := str "0"; o_task_id := str "0"; o_subtask_id := str "0" |}.

(** ** Sequence numbers *)

Definition seq_number (v : Z) : Z := 20000 + v mod 10000.

(** The text, and the counter after it. *)
Definition next_mqtt_seq_id (v : Z) : cstr * Z := (dec_nonneg (seq_number v), u32 (v + 1)).

Definition seq_json_literal (s : Settings) (seq : cstr) : cstr :=
  if exp_numeric_sequence_id s then seq else quote :: seq ++ [quote].

(** ** Texts *)

(** ["%.1f"] of [n / unit]: the quotient is exact below 2^53, and is rounded to
    tenths half to even. *)
Definition tenths (n unit : Z) : cstr :=
  let t := div_round (n * 10) unit in dec_nonneg (t / 10) ++ [point] ++ dec_nonneg (t mod 10).

Definition one_size (n : Z) : cstr :=
  if n <? 100 * 1024 then tenths n 1024 ++ str "K" else tenths n (1024 * 1024) ++ str "M".

Definition format_upload_info (sent total : Z) : cstr := one_size sent ++ str "/" ++ one_size total.

Definition lower_char (c : byte) : byte := if is_upper c then zb (bz c - 65 + 97) else c.

Definition ends_with_ci (s : cstr) (suf : cstr) : bool :=
  if (length s <? length suf)%nat then false
  else bool_decide (map lower_char (drop (length s - length suf) s) = suf).

Definition plate_0 : cstr := str "plate_0".

Definition to_print_basename (fname : cstr) : cstr :=
  match basename_of fname with
  | [] => str "print.gcode.3mf"
  | base =>
      let base := match find_str plate_0 base with
                  | Some pos => take pos base ++ str "plate_1" ++ drop (pos + length plate_0) base
                  | None => base
                  end in
      if ends_with_ci base (str ".gcode.3mf") then base
      else
        let base := if ends_with_ci base (str ".3mf") then take (length base - 4) base else base in
        base ++ str ".gcode.3mf"
  end.

(** The escaper of [print_job.cpp] is that of [json_lite.cpp], written again. *)
Definition json_escape (s : cstr) : cstr := escape s.

Definition to_bool (v : bool) : cstr := if v then str "true" else str "false".

Definition is_sp (c : byte) : bool := beq c space || beq c (zb 9).
Definition is_sp_eol (c : byte) : bool := is_sp c || beq c (zb 13) || beq c (zb 10).

(** The texts between the commas, the last one too. *)
Fixpoint split_commas (s cur : cstr) : list cstr :=
  match s with
  | [] => [cur]
  | c :: s => if beq c comma then cur :: split_commas s [] else split_commas s (cur ++ [c])
  end.

Definition add_token (arr tok : cstr) : cstr :=
  match trim_back is_sp (trim_front is_sp tok) with
  | [] => arr
  | tok => (if (1 <? length arr)%nat then arr ++ [comma] else arr) ++ tok
  end.

Definition format_ams_mapping (mapping : cstr) : cstr :=
  match trim_back is_sp_eol (trim_front is_sp_eol mapping) with
  | [] => str "[]"
  | c :: s' => let s := c :: s' in
               if beq c (zb 91) then s else foldl add_token [zb 91] (split_commas s []) ++ [zb 93]
  end.

Definition subtask_name_for (p : Job) : cstr :=
  match project_name (naming p) with [] => task_name (naming p) | n => n end.

(** ** The command *)

(** A key and its colon, as the code has it in a literal; a further member. *)
Definition key_text (k : String.string) : cstr := quote :: str k ++ [quote; colon].
Definition field (k : String.string) (v : cstr) : cstr := comma :: key_text k ++ v.
#[global] Arguments key_text _%_string.
#[global] Arguments field _%_string _.

(** The version of the interface the plugin is built for. *)
Section abi.
Context (abi : Z).

Definition cfg_bits (s : Settings) (p : Job) : Z :=
  let bits := if task_ext_change_assist p then 1 else 0 in
  if (0x020503 <=? abi) && (task_timelapse_use_internal p && negb (force_timelapse_external s)) then Z.lor bits 4 else bits.

Definition build_project_file_json_impl (s : Settings) (seq : cstr) (p : Job) (opts : ProjectFileOpts) (param_field url_field : cstr) : cstr :=
  let bed_type := match task_bed_type p with [] => str "auto" | t => t end in
  let ams := format_ams_mapping (ams_mapping p) in
  [zb 123] ++ key_text "print" ++ [zb 123] ++ key_text "sequence_id" ++ seq_json_literal s seq ++
  concat [
    field "command" (quote :: str "project_file" ++ [quote]);
    param_field;
    field "project_id" (json_escape (o_project_id opts));
    field "profile_id" (json_escape (o_profile_id opts));
    field "task_id" (json_escape (o_task_id opts));
    field "subtask_id" (json_escape (o_subtask_id opts));
    field "subtask_name" (json_escape (subtask_name_for p));
    (if (0x020801 <=? abi) && (match slicer_uid p with [] => false | _ => true end)
     then field "slicer_uid" (json_escape (slicer_uid p)) else []);
    field "file" (json_escape (strip_leading_slash (o_file_path opts)));
    url_field;
    field "md5" (json_escape (o_md5 opts));
    field "bed_type" (json_escape bed_type);
    field "bed_leveling" (to_bool (task_bed_leveling p));
    field "flow_cali" (to_bool (task_flow_cali p));
    field "vibration_cali" (to_bool (task_vibration_cali p));
    field "layer_inspect" (to_bool (task_layer_inspect p));
    field "timelapse" (to_bool (task_record_timelapse p));
    field "use_ams" (to_bool (task_use_ams p));
    field "ams_mapping" ams;
    (match ams_mapping2 p with [] => field "ams_mapping2" (str "[]") | m => field "ams_mapping2" m end);
    (match nozzle_mapping p with [] => [] | m => field "nozzle_mapping" m end);
    field "auto_bed_leveling" (dec (auto_bed_leveling p));
    field "nozzle_offset_cali" (dec (auto_offset_cali p));
    (if (0x020400 <=? abi) && (0 <=? extruder_cali_manual_mode p)
     then field "extrude_cali_manual_mode" (dec (extruder_cali_manual_mode p)) else []);
    field "cfg" (quote :: dec (cfg_bits s p) ++ [quote]);
    field "extrude_cali_flag" (dec (auto_flow_cali p))] ++
  [zb 125; zb 125].

Definition plate_text (p : Job) : cstr := dec (if plate_index p <=? 0 then 1 else plate_index p).
Definition plate_param (p : Job) : cstr := str "Metadata/plate_" ++ plate_text p ++ str ".gcode".

(** With the sequence counter [v] before and after. *)
Definition build_project_file_json (s : Settings) (v : Z) (p : Job) (opts : ProjectFileOpts) : cstr * Z :=
  let url_field := match o_url opts with [] => [] | url => field "url" (json_escape url) end in
  let '(seq, v) := next_mqtt_seq_id v in
  (build_project_file_json_impl s seq p opts
     (field "param" (json_escape (plate_param p)) ++ field "plate_idx" (json_escape (plate_text p))) url_field, v).
End abi.

(** ** What the command says *)

(** The members of the [print] object, with the values of the mappings. *)
Definition members (abi : Z) (s : Settings) (v : Z) (p : Job) (o : ProjectFileOpts) (am am2 nm : Value) : list (cstr * Value) :=
  let st k x := [(str k, String x)] in
  let bo k x := [(str k, Bool x)] in
  let nu k x := [(str k, Number (of_int x))] in
  [(str "sequence_id", if exp_numeric_sequence_id s then Number (of_int (seq_number v)) else String (dec_nonneg (seq_number v)))] ++
  concat [
    st "command"%string (str "project_file");
    st "param"%string (plate_param p) ++ st "plate_idx"%string (plate_text p);
    st "project_id"%string (o_project_id o); st "profile_id"%string (o_profile_id o);
    st "task_id"%string (o_task_id o); st "subtask_id"%string (o_subtask_id o);
    st "subtask_name"%string (subtask_name_for p);
    (if (0x020801 <=? abi) && (match slicer_uid p with [] => false | _ => true end) then st "slicer_uid"%string (slicer_uid p) else []);
    st "file"%string (strip_leading_slash (o_file_path o));
    (match o_url o with [] => [] | url => st "url"%string url end);
    st "md5"%string (o_md5 o);
    st "bed_type"%string (match task_bed_type p with [] => str "auto" | t => t end);
    bo "bed_leveling"%string (task_bed_leveling p); bo "flow_cali"%string (task_flow_cali p);
    bo "vibration_cali"%string (task_vibration_cali p); bo "layer_inspect"%string (task_layer_inspect p);
    bo "timelapse"%string (task_record_timelapse p); bo "use_ams"%string (task_use_ams p);
    [(str "ams_mapping", am)]; [(str "ams_mapping2", am2)];
    (match nozzle_mapping p with [] => [] | _ => [(str "nozzle_mapping", nm)] end);
    nu "auto_bed_leveling"%string (auto_bed_leveling p); nu "nozzle_offset_cali"%string (auto_offset_cali p);
    (if (0x020400 <=? abi) && (0 <=? extruder_cali_manual_mode p)
     then nu "extrude_cali_manual_mode"%string (extruder_cali_manual_mode p) else []);
    st "cfg"%string (dec (cfg_bits abi s p)); nu "extrude_cali_flag"%string (auto_flow_cali p)].

(** The mappings are texts of the caller: each is the text of some value, as
    Studio writes it. *)
Definition json_ok (v : Value) : Prop := sorted v /\ numbers_ok v = true /\ (vdepth v <= 126)%nat.

Record mappings (p : Job) (am am2 nm : Value) : Prop := {
  map_am : format_ams_mapping (ams_mapping p) = dump am;
  map_am2 : match ams_mapping2 p with [] => am2 = Array [] | m => m = dump am2 end;
  map_nm : match nozzle_mapping p with [] => nm = Array [] | m => m = dump nm end;
  map_ok : Forall json_ok [am; am2; nm] }.

Definition int32 (z : Z) : Prop := - 2 ^ 31 <= z < 2 ^ 31.
Definition ints_ok (p : Job) : Prop :=
  Forall int32 [auto_bed_leveling p; auto_flow_cali p; auto_offset_cali p; extruder_cali_manual_mode p].

(** Written members one after the other. *)
Definition written (ms : list (cstr * Value)) : cstr := concat (map (fun kv => comma :: member_text kv) ms).

Lemma join_members m ms : join (map member_text ([m] ++ ms)) = member_text m ++ written ms.
Proof.
  cbn [app]. revert m. induction ms as [|m' ms IH]; intros m; [by rewrite app_nil_r|].
  specialize (IH m'). cbn [map join] in *. rewrite IH. done.
Qed.

Lemma written_app ms ms' : written (ms ++ ms') = written ms ++ written ms'.
Proof. unfold written. by rewrite map_app, concat_app. Qed.

Lemma written_concat pieces mss : Forall2 (fun piece ms => piece = written ms) pieces mss -> concat pieces = written (concat mss).
Proof.
  induction 1 as [|piece ms pieces mss -> _ IH]; [done|]. cbn [concat]. by rewrite IH, written_app.
Qed.

(** A key that is plain text is written as it is. *)
Definition plain_key (k : String.string) : bool := bool_decide (escape (str k) = quote :: str k ++ [quote]).

Lemma field_written k v V : plain_key k = true -> dump V = v -> field k v = written [(str k, V)].
Proof.
  intros Hk%bool_decide_eq_true_1 <-. unfold written, field, key_text, member_text. cbn [map concat fst snd]. rewrite app_nil_r, Hk.
  cbn [app]. by rewrite <- !app_assoc.
Qed.

Lemma escape_digits ds : Forall (fun c => is_digit c = true) ds -> escape ds = quote :: ds ++ [quote].
Proof.
  intros H. unfold escape. cbn [app]. do 2 f_equal. induction H as [|c ds Hc _ IH]; [done|]. rewrite fmap_cons. cbn [concat]. rewrite IH.
  byte_fact (fun c => negb (is_digit c) || bool_decide (escape_char c = [c])) c Hb. rewrite Hc in Hb. cbn [negb orb] in Hb.
  apply bool_decide_eq_true_1 in Hb. by rewrite Hb.
Qed.

Lemma seq_number_small v : 20000 <= seq_number v < 30000.
Proof. unfold seq_number. pose proof (Z.mod_pos_bound v 10000). lia. Qed.

Lemma seq_written s v :
  key_text "sequence_id" ++ seq_json_literal s (dec_nonneg (seq_number v)) =
  member_text (str "sequence_id", if exp_numeric_sequence_id s then Number (of_int (seq_number v)) else String (dec_nonneg (seq_number v))).
Proof.
  pose proof (seq_number_small v) as Hv. unfold member_text, seq_json_literal. cbn [fst snd].
  replace (escape (str "sequence_id")) with (quote :: str "sequence_id" ++ [quote]) by done. unfold key_text. cbn [app].
  rewrite <- !app_assoc. do 2 f_equal. cbn [app]. do 2 f_equal. destruct (exp_numeric_sequence_id s); cbn [dump].
  - rewrite dump_int by lia. unfold dec. by rewrite (proj2 (Z.ltb_ge _ _)) by lia.
  - symmetry. apply escape_digits. apply dec_nonneg_spec. lia.
Qed.

Lemma int_written k z : plain_key k = true -> int32 z -> field k (dec z) = written [(str k, Number (of_int z))].
Proof. intros Hk Hz. apply field_written; [done|]. unfold int32 in Hz. apply dump_int. lia. Qed.

Lemma cfg_written abi s p : field "cfg" (quote :: dec (cfg_bits abi s p) ++ [quote]) = written [(str "cfg", String (dec (cfg_bits abi s p)))].
Proof. apply field_written; [done|]. unfold cfg_bits. destruct (task_ext_change_assist p), (_ && _); reflexivity. Qed.

Lemma text_written abi s v p o am am2 nm :
  ints_ok p -> mappings p am am2 nm ->
  (build_project_file_json abi s v p o).1 = [zb 123] ++ escape (str "print") ++ [colon] ++ object_text (members abi s v p o am am2 nm) ++ [zb 125].
Proof.
  intros Hi [Ham Ham2 Hnm _]. unfold ints_ok in Hi. rewrite !Forall_cons in Hi. destruct Hi as (I1 & I2 & I3 & I4 & _).
  unfold build_project_file_json, next_mqtt_seq_id. cbn [fst]. unfold build_project_file_json_impl.
  change ([zb 123] ++ escape (str "print") ++ [colon] ++ ?r) with ([zb 123] ++ key_text "print" ++ r).
  unfold object_text, members. cbv beta zeta. rewrite join_members, <- !app_assoc. do 3 f_equal.
  rewrite app_assoc, seq_written. f_equal. rewrite app_assoc. change [zb 125; zb 125] with ([zb 125] ++ [zb 125]).
  rewrite !app_assoc. do 2 f_equal. apply written_concat.
  repeat (apply Forall2_cons; split); try apply Forall2_nil_2;
    try (by apply field_written); try (by apply int_written); try apply cfg_written.
  - rewrite (field_written "param"%string _ (String (plate_param p))), (field_written "plate_idx"%string _ (String (plate_text p))) by done. by rewrite written_app.
  - destruct (_ && _); [by apply field_written | done].
  - destruct (o_url o); [done | by apply field_written].
  - destruct (ams_mapping2 p); [subst am2; by apply field_written|]. rewrite Ham2. by apply field_written.
  - destruct (nozzle_mapping p); [done|]. rewrite Hnm. by apply field_written.
  - destruct (_ && _); [by apply int_written | done].
Qed.

Lemma members_good abi s v p o am am2 nm :
  ints_ok p -> mappings p am am2 nm -> members_ok 1 (members abi s v p o am am2 nm).
Proof.
  intros Hi [_ _ _ Hok]. unfold ints_ok in Hi. rewrite !Forall_cons in Hi. destruct Hi as (I1 & I2 & I3 & I4 & _).
  rewrite !Forall_cons in Hok. destruct Hok as (A1 & A2 & A3 & _). unfold int32 in *. pose proof (seq_number_small v) as Hv.
  assert (H : Forall (fun kv => json_ok kv.2) (members abi s v p o am am2 nm)).
  { assert (Hnum : forall z, Z.abs z < 2 ^ 53 -> json_ok (Number (of_int z))).
    { intros z Hz. split_and!; [done | by apply number_ok_int | simpl; lia]. }
    assert (Hst : forall t, json_ok (String t)) by (intros t; split_and!; [done | done | simpl; lia]).
    assert (Hbo : forall b, json_ok (Bool b)) by (intros t; split_and!; [done | done | simpl; lia]).
    unfold members. cbv beta zeta. apply Forall_cons. split; [destruct (exp_numeric_sequence_id s); [apply Hnum; lia | apply Hst]|].
    cbn [concat]. repeat (apply Forall_app; split); try apply Forall_nil_2; try (apply Forall_singleton; first [apply Hst | apply Hbo | apply Hnum; lia | done]).
    - destruct (_ && _); [apply Forall_singleton, Hst | apply Forall_nil_2].
    - destruct (o_url o); [apply Forall_nil_2 | apply Forall_singleton, Hst].
    - destruct (nozzle_mapping p); [apply Forall_nil_2 | by apply Forall_singleton].
    - destruct (_ && _); [apply Forall_singleton, Hnum; lia | apply Forall_nil_2]. }
  split_and!; [done| | |].
  - eapply Forall_impl; [exact H|]. by intros kv (? & _).
  - apply forallb_forall. intros kv Hkv%list_elem_of_In. rewrite Forall_forall in H. by destruct (H kv Hkv) as (_ & ? & _).
  - eapply Forall_impl; [exact H|]. intros kv (_ & _ & ?). lia.
Qed.

(** C18: The command that starts a print is JSON, whatever bytes the names hold:
    it reads back as an object whose only member, [print], gives every key the
    value the job and its options have for it. *)
Theorem project_file_reads abi s v p o am am2 nm :
  ints_ok p -> mappings p am am2 nm ->
  exists ms, parse (build_project_file_json abi s v p o).1 = Ok (Object [(str "print", Object ms)]) [] /\
    forall k, om_find k ms = first_member k (members abi s v p o am am2 nm).
Proof.
  intros Hi Hm. exists (emplace_all [] (members abi s v p o am am2 nm)). split; [|intros k; apply find_emplace_all].
  rewrite (text_written abi s v p o am am2 nm) by done. apply parse_wrapped_object. by apply members_good.
Qed.

(** ** The AMS mapping *)

(** A text between commas that trimming leaves as it is. *)
Definition token (t : cstr) : Prop := t <> [] /\ Forall (fun c => is_sp_eol c = false /\ beq c comma = false) t.

Lemma not_sp c : is_sp_eol c = false -> is_sp c = false.
Proof. unfold is_sp_eol. by destruct (is_sp c). Qed.

Lemma trim_clean f s : Forall (fun c => f c = false) s -> trim_back f (trim_front f s) = s.
Proof.
  intros H. rewrite trim_front_id; [apply trim_back_id|].
  - destruct (last s) as [c|] eqn:E; [|done]. apply last_Some in E as [s' ->]. by apply Forall_app in H as [_ [H _]%Forall_cons].
  - destruct s as [|c s]; [done|]. by apply Forall_cons in H as [H _].
Qed.

Lemma split_token t : forall cur s, Forall (fun c => is_sp_eol c = false /\ beq c comma = false) t ->
  split_commas (t ++ s) cur = split_commas s (cur ++ t).
Proof.
  induction t as [|c t IH]; intros cur s H; [by rewrite app_nil_r|]. apply Forall_cons in H as [[_ Hc] H]. cbn [app split_commas].
  rewrite Hc, IH by done. by rewrite <- app_assoc.
Qed.

Lemma split_join toks : toks <> [] -> Forall token toks -> split_commas (join toks) [] = toks.
Proof.
  induction toks as [|t toks IH]; intros Hne H; [done|]. apply Forall_cons in H as [[_ Ht] H]. destruct toks as [|t' toks].
  - cbn [join]. rewrite <- (app_nil_r t) at 1. by rewrite split_token.
  - change (join (t :: t' :: toks)) with (t ++ [comma] ++ join (t' :: toks)). rewrite split_token by done. cbn [app split_commas].
    change (beq comma comma) with true. cbn iota. by rewrite IH.
Qed.

Lemma add_clean arr t : token t -> (1 < length arr)%nat -> add_token arr t = arr ++ [comma] ++ t.
Proof.
  intros [Hne Ht] Ha. unfold add_token. rewrite trim_clean.
  - destruct t; [done|]. rewrite (proj2 (Nat.ltb_lt _ _)) by done. by rewrite <- app_assoc.
  - eapply Forall_impl; [exact Ht|]. intros c [Hc _]. by apply not_sp.
Qed.

Lemma add_tokens toks : forall arr, Forall token toks -> (1 < length arr)%nat ->
  foldl add_token arr toks = arr ++ concat (map (fun t => comma :: t) toks).
Proof.
  induction toks as [|t toks IH]; intros arr H Ha; [by rewrite app_nil_r|]. apply Forall_cons in H as [Ht H]. cbn [foldl map concat].
  rewrite add_clean, IH by (done || (rewrite length_app; lia)). by rewrite <- !app_assoc.
Qed.

Lemma tokens_joined toks : toks <> [] -> Forall token toks -> foldl add_token [zb 91] toks = [zb 91] ++ join toks.
Proof.
  intros Hne H. destruct toks as [|t toks]; [done|]. apply Forall_cons in H as [Ht H]. cbn [foldl].
  assert (E : add_token [zb 91] t = [zb 91] ++ t).
  { destruct Ht as [Hn Ht]. unfold add_token. rewrite trim_clean; [by destruct t|]. eapply Forall_impl; [exact Ht|]. intros c [Hc _]. by apply not_sp. }
  rewrite E, add_tokens; [|done|destruct Ht; destruct t; [done|simpl; lia]]. rewrite <- app_assoc. f_equal.
  clear. revert t. induction toks as [|t' toks IH]; intros t; [by rewrite app_nil_r|]. specialize (IH t'). cbn [map concat join] in *.
  rewrite <- IH. done.
Qed.

Lemma joined_clean toks : Forall token toks -> Forall (fun c => is_sp_eol c = false) (join toks).
Proof.
  assert (Hi : forall t, token t -> Forall (fun c => is_sp_eol c = false) t) by (intros t [_ Ht]; eapply Forall_impl; [exact Ht | by intros c [? _]]).
  induction 1 as [|t toks Ht H IH]; [by apply Forall_nil|]. destruct toks as [|t' toks]; [by apply Hi|].
  change (join (t :: t' :: toks)) with (t ++ [comma] ++ join (t' :: toks)). apply Forall_app. split; [by apply Hi|].
  apply Forall_app. split; [by apply Forall_singleton | done].
Qed.

Lemma dec_token z : token (dec z) /\ (forall c t, dec z = c :: t -> beq c (zb 91) = false).
Proof.
  assert (Hd : forall c, is_digit c = true -> (is_sp_eol c = false /\ beq c comma = false) /\ beq c (zb 91) = false).
  { intros c Hc. byte_fact (fun c => negb (is_digit c) || (negb (is_sp_eol c) && negb (beq c comma) && negb (beq c (zb 91)))) c H.
    rewrite Hc in H. cbn [negb orb] in H. by destruct (is_sp_eol c), (beq c comma), (beq c (zb 91)). }
  pose proof (dec_nonneg_spec (Z.abs z) ltac:(lia)) as (_ & Hall & Hne & _).
  unfold dec. destruct (Z.ltb_spec z 0).
  - replace (- z) with (Z.abs z) by lia. split; [split; [done|]|by intros c t [= <- _]]. apply Forall_app. split; [by apply Forall_singleton|].
    eapply Forall_impl; [exact Hall|]. intros c Hc. by apply Hd.
  - replace z with (Z.abs z) by lia. split; [split; [done|]|].
    + eapply Forall_impl; [exact Hall|]. intros c Hc. by apply Hd.
    + intros c t E. rewrite E in Hall. apply Forall_cons in Hall as [Hc _]. by apply Hd.
Qed.

(** A list of slot numbers becomes the JSON array of them; an array stays as it is. *)
Lemma ams_list_text zs : zs <> [] -> Forall (fun z => Z.abs z < 2 ^ 53) zs ->
  format_ams_mapping (join (map dec zs)) = dump (Array (map (fun z => Number (of_int z)) zs)).
Proof.
  intros Hne Hz. assert (Ht : Forall token (map dec zs)) by (apply Forall_fmap, Forall_forall; intros z _; apply dec_token).
  assert (Hn : map dec zs <> []) by by destruct zs.
  assert (Hd : map dump (map (fun z => Number (of_int z)) zs) = map dec zs).
  { rewrite map_map. clear -Hz. induction Hz as [|z zs Hz Hzs IH]; [done|]. cbn [map]. rewrite IH. f_equal. by apply dump_int. }
  cbn [dump]. rewrite Hd. unfold format_ams_mapping. rewrite trim_clean by by apply joined_clean.
  pose proof (tokens_joined _ Hn Ht) as Hj. rewrite <- (split_join _ Hn Ht) in Hj at 1. destruct (join (map dec zs)) as [|c s] eqn:E.
  - exfalso. destruct zs as [|z [|z' zs]]; [done| |]; cbn [map join] in E; destruct (dec_token z) as [[? _] _]; by destruct (dec z).
  - assert (Hc : beq c (zb 91) = false).
    { destruct zs as [|z zs]; [done|]. destruct (dec_token z) as [[Hnz _] H91]. destruct (dec z) as [|c' t] eqn:Ez; [done|].
      assert (c' = c) as <- by (cbn [map join] in E; rewrite Ez in E; destruct (map dec zs); by injection E). by eapply H91. }
    cbv zeta. rewrite Hc, Hj. by rewrite <- app_assoc.
Qed.

Lemma ams_array_text zs : format_ams_mapping (dump (Array zs)) = dump (Array zs).
Proof.
  unfold format_ams_mapping. rewrite trim_front_id by done. rewrite trim_back_id; [done|]. cbn [dump]. by rewrite app_assoc, last_snoc.
Qed.

(** ** The name on the printer *)

Lemma basename_no_slash f : Forall (fun c => is_slash c = false) (basename_of f).
Proof.
  unfold basename_of, rfind_if. destruct (find_if is_slash (reverse f)) as [n|] eqn:E; cbn [option_map].
  - apply find_if_some in E as (Hl & Ht & _). rewrite length_reverse in Hl. rewrite take_reverse in Ht. apply Forall_reverse in Ht. rewrite reverse_involutive in Ht.
    replace (length f - 1 - n + 1)%nat with (length f - n)%nat by lia. exact Ht.
  - apply find_if_none in E. apply Forall_reverse in E. by rewrite reverse_involutive in E.
Qed.

Lemma ends_with_ci_app x suf : map lower_char suf = suf -> ends_with_ci (x ++ suf) suf = true.
Proof.
  intros Hs. unfold ends_with_ci. rewrite length_app, (proj2 (Nat.ltb_ge _ _)) by lia.
  replace (length x + length suf - length suf)%nat with (length x) by lia. rewrite drop_app_length. by apply bool_decide_eq_true_2.
Qed.

(** The name a file gets on the printer has no separator, and the extension of
    a sliced project once. *)
Lemma print_basename_ok f :
  Forall (fun c => is_slash c = false) (to_print_basename f) /\ ends_with_ci (to_print_basename f) (str ".gcode.3mf") = true.
Proof.
  unfold to_print_basename. pose proof (basename_no_slash f) as Hb. destruct (basename_of f) as [|c base]; [split; [by repeat constructor | done]|].
  set (b := c :: base) in *. set (b' := match find_str plate_0 b with Some _ => _ | None => _ end).
  assert (H : Forall (fun c => is_slash c = false) b').
  { unfold b'. destruct (find_str plate_0 b) as [pos|]; [|done]. apply Forall_app. split; [by apply Forall_take|].
    apply Forall_app. split; [by repeat constructor | by apply Forall_drop]. }
  clearbody b'. cbv zeta. destruct (ends_with_ci b' (str ".gcode.3mf")) eqn:E; [done|]. split; [|by apply ends_with_ci_app].
  apply Forall_app. split; [|by repeat constructor]. destruct (ends_with_ci b' (str ".3mf")); [by apply Forall_take | done].
Qed.

(** ** Witness *)

Definition demo_job : Job :=
  {| naming := {| project_name := str "cube"; task_name := []; filename := str "/tmp/cube.3mf"; ftp_folder := []; try_emmc_print := false |};
     dev_id := str "01S00"; plate_index := 2; nozzle_mapping := []; ams_mapping := str "0,-1"; ams_mapping2 := []; dst_file := [];
     dev_ip := str "10.0.0.2"; use_ssl_for_ftp := true; username := []; password := str "12345678";
     task_bed_leveling := true; task_flow_cali := false; task_vibration_cali := true; task_layer_inspect := false;
     task_record_timelapse := false; task_timelapse_use_internal := true; task_use_ams := true; task_bed_type := [];
     auto_bed_leveling := 1; auto_flow_cali := 0; auto_offset_cali := 2; extruder_cali_manual_mode := -1;
     task_ext_change_assist := true; slicer_uid := [] |}.

Lemma demo_mappings : mappings demo_job (Array [Number (of_int 0); Number (of_int (-1))]) (Array []) (Array []).
Proof.
  split; [|done|done|].
  - apply (ams_list_text [0; -1]); [done|]. repeat (apply Forall_cons; split; [lia|]). apply Forall_nil_2.
  - repeat (apply Forall_cons; split; [split_and!; [done | vm_compute; reflexivity | simpl; lia]|]). apply Forall_nil_2.
Qed.

Lemma project_file_reads_witness :
  exists ms, parse (build_project_file_json 0x020801 default_settings 7 demo_job (default_opts (str "/cube.gcode.3mf") (str "ftp://cube.gcode.3mf") [])).1 =
    Ok (Object [(str "print", Object ms)]) [] /\
    forall k, om_find k ms = first_member k (members 0x020801 default_settings 7 demo_job (default_opts (str "/cube.gcode.3mf") (str "ftp://cube.gcode.3mf") [])
      (Array [Number (of_int 0); Number (of_int (-1))]) (Array []) (Array [])).
Proof.
  apply project_file_reads; [|apply demo_mappings].
  unfold ints_ok, int32. repeat (apply Forall_cons; split; [cbn; lia|]). apply Forall_nil_2.
Defined.

(** What some keys say in it. *)
Example demo_command :
  let ms := members 0x020801 default_settings 7 demo_job (default_opts (str "/cube.gcode.3mf") (str "ftp://cube.gcode.3mf") []) Null Null Null in
  first_member (str "sequence_id") ms = Some (String (str "20007")) /\ first_member (str "file") ms = Some (String (str "cube.gcode.3mf")) /\
  first_member (str "param") ms = Some (String (str "Metadata/plate_2.gcode")) /\ first_member (str "cfg") ms = Some (String (str "5")) /\
  first_member (str "extrude_cali_manual_mode") ms = None.
Proof. by vm_compute. Qed.

Example sizes : format_upload_info 51 1153434 = str "0.0K/1.1M" /\ format_upload_info 102400 102399 = str "0.1M/100.0K".
Proof. by vm_compute. Qed.
