(* ===== verification/PrintJob.v ===== *)
(** LAN print jobs ([src/print_job.cpp]): the upload, over FTP or the tunnel,
    and the command that starts the print, with what the caller is told. *)

From S2P Require Import Prelude Text Tls FtpsParse Ftps TunnelUpload Naming Config ProjectFile.
From coqutil Require Import Datatypes.RecordSetters.
Import DoubleBraceUpdate.

#[local] Delimit Scope string_scope with string.

(** ** What a job does *)

Definition PrintingStageUpload : Z := 1.
Definition PrintingStageWaiting : Z := 2.
Definition PrintingStageSending : Z := 3.
Definition PrintingStageFinished : Z := 6.
Definition PrintingStageERROR : Z := 7.

Definition FILE_NOT_EXIST : Z := -14.
Definition CANCELED : Z := -18.
Definition LP_FILE_OVER_SIZE : Z := -4010.
Definition LP_UPLOAD_FTP_FAILED : Z := -4020.
Definition LP_PUBLISH_MSG_FAILED : Z := -4030.
Definition SG_UPLOAD_FTP_FAILED : Z := -5010.
Definition CONNECTION_TO_PRINTER_FAILED : Z := -6010.

(** The text told with a stage; the texts of transfer errors are left as values.
    [Talked] is the FTP client of an upload when it is done with the server: what
    it wrote, the ports it connected to and what each data connection took. *)
Inductive Info := Txt (t : cstr) | OfConnect (e : ConnErr) | OfTransfer (e : Err).

Inductive Act :=
  | Update (stage code : Z) (info : Info) | Dialled (host : cstr) (port : Z) | Talked (c : Client) | Tunnelled (host dev : cstr) (req : UploadRequest)
  | StageCover (dev name file : cstr) (plate : Z) | UnstageCover (dev name : cstr) (plate : Z)
  | Publish (dev json : cstr) (qos : Z).

(** [asked] counts the calls of [cancel_fn]; [seq_counter] is the counter of
    [next_mqtt_seq_id], [ssl_for_ftp] what [print_params_set_use_ssl_for_ftp] keeps. *)
Record World := { acts : list Act; asked : nat; seq_counter : Z; ssl_for_ftp : bool }.

(** The file to print: its size, and its contents when it can be opened. *)
Record LocalFile := { lf_size : option Z; lf_data : option cstr }.

(** What the tunnel meets: the error of its connection, the calls the upload
    makes back, and what it comes to when none of them cancels. *)
Inductive Callback := Poll | Percent (pct : Z).
Record Tunnel := { t_connect : option TunnelUpload.Error; t_calls : list Callback; t_outcome : UploadOutcome }.

(** What the job meets: [e_lan_up] is the answer of [ensure_lan_session],
    [e_pub] that of [send_message]. *)
Record Env := { e_file : LocalFile; e_dial : Dial; e_tunnel : Tunnel; e_lan_up : bool; e_pub : Z }.

Section job.
(** The interface version, the settings, whether there is an [update_fn], the
    answers of [cancel_fn] to its calls, and the trust store. *)
Context (abi : Z) (cfg : Settings) (has_update : bool) (cancel : option (nat -> bool)) (ca_bundle : cstr).

Definition act (a : Act) (w : World) : World := w {{ acts := acts w ++ [a] }}.

Definition update (stage code : Z) (info : Info) (w : World) : World :=
  if has_update then act (Update stage code info) w else w.

Definition cancelled (w : World) : bool * World :=
  match cancel with None => (false, w) | Some f => (f (asked w), w {{ asked := S (asked w) }}) end.

(** ** The countdown *)

(** [n] waits of 100 ms, given up when a call says cancelled. *)
Fixpoint waits (n : nat) (w : World) : bool * World :=
  match n with
  | O => (false, w)
  | S n => let '(c, w) := cancelled w in if c then (true, w) else waits n w
  end.

Fixpoint countdown (ticks : list cstr) (w : World) : World :=
  match ticks with
  | [] => w
  | t :: ticks =>
      let '(c, w) := cancelled w in
      if c then w
      else
        let w := update PrintingStageFinished 0 (Txt t) w in
        match ticks with
        | [] => w
        | _ => let '(c, w) := waits 10 w in if c then w else countdown ticks w
        end
  end.

Definition kTicks : list cstr := [str "3"; str "2"; str "1"].

Definition emit_finished_countdown (w : World) : World := if has_update then countdown kTicks w else w.

(** ** The FTP upload *)

Definition path_under (path prefix : cstr) : bool :=
  (length prefix + 1 <? length path)%nat && bool_decide (take (length prefix) path = prefix) && beq (path !!! length prefix) slash.

(** The first of the candidates the server changes to. *)
Fixpoint probe (candidates : list cstr) (filename remote_path : cstr) (c : Client) : cstr * Client :=
  match candidates with
  | [] => (remote_path, c)
  | cand :: candidates =>
      let '(e, c) := cwd cand c in
      match e with
      | Some _ => probe candidates filename remote_path c
      | None => (if bool_decide (cand = [slash]) then slash :: filename else cand ++ slash :: filename, c)
      end
  end.

Definition kCandidatesSdcard : list cstr := [str "/sdcard"; str "/usb"; str "/"].
Definition kCandidatesUsb : list cstr := [str "/usb"; str "/sdcard"; str "/"].

Definition adjust_storage_path (remote_path : cstr) (c : Client) : cstr * Client :=
  let under_sdcard := path_under remote_path (str "/sdcard") in
  let under_usb := path_under remote_path (str "/usb") in
  if negb under_sdcard && negb under_usb then (remote_path, c)
  else
    match find_char_from slash remote_path 1 with
    | None => (remote_path, c)
    | Some i =>
        match drop (S i) remote_path with
        | [] => (remote_path, c)
        | filename => probe (if under_sdcard then kCandidatesSdcard else kCandidatesUsb) filename remote_path c
        end
    end.

(** [progress] of [ftp_upload]. *)
Definition progress (stage : Z) (w : World) (sent total : Z) : bool * World :=
  let '(c, w) := cancelled w in
  if c then (false, w)
  else
    let pct := if 0 <? total then signed 32 (u64 (sent * 100) / total) else 0 in
    (true, update stage (if 100 <? pct then 100 else pct) (Txt (format_upload_info sent total)) w).

Definition kOneGB : Z := 1024 * 1024 * 1024.

Definition ftp_config (p : Job) : ConnectConfig :=
  {| c_username := match username p with [] => str "bblp" | u => u end; c_password := password p; c_use_tls := use_ssl_for_ftp p;
     tls_verify_hostname := dev_id p; ca_file := ca_bundle |}.

(** The result, the total and the path told to the caller. *)
Record Uploaded := { u_code : Z; u_total : Z; u_path : option cstr }.

Definition upload_failed (code total : Z) (path : option cstr) : Uploaded := {| u_code := code; u_total := total; u_path := path |}.

Definition ftp_upload (f : LocalFile) (d : Dial) (p : Job) (remote_path : cstr) (err_code stage : Z) (w : World) : Uploaded * World :=
  match lf_size f with
  | None => (upload_failed FILE_NOT_EXIST 0 None, update PrintingStageERROR FILE_NOT_EXIST (Txt (str "file not found")) w)
  | Some sz =>
      if kOneGB <? sz then
        (upload_failed LP_FILE_OVER_SIZE sz None, update PrintingStageERROR LP_FILE_OVER_SIZE (Txt (str "file over 1 GB")) w)
      else
        let w := update stage 0 (Txt []) w in
        let w := act (Dialled (dev_ip p) (if use_ssl_for_ftp p then 990 else 21)) w in
        match connect (ftp_config p) d with
        | (Some e, c) => (upload_failed err_code sz None, update PrintingStageERROR err_code (OfConnect e) (act (Talked c) w))
        | (None, c) =>
            let '(effective_path, c) := adjust_storage_path remote_path c in
            let '(err, w, c) := stor (progress stage) (lf_data f) effective_path w c in
            let w := act (Talked (quit c)) w in
            match err with
            | None => ({| u_code := 0; u_total := sz; u_path := Some effective_path |}, w)
            | Some e =>
                let code := match e with UploadCancelled => CANCELED | _ => err_code end in
                (upload_failed code sz (Some effective_path), update PrintingStageERROR code (OfTransfer e) w)
            end
        end
  end.

(** ** The tunnel upload *)

Definition is_cancelled (e : TunnelUpload.Error) : bool := match e with Msg t => bool_decide (t = str "cancelled") | _ => false end.

(** The upload's calls, and what it comes to. *)
Fixpoint tunnel_calls (calls : list Callback) (out : UploadOutcome) (w : World) : UploadOutcome * World :=
  match calls with
  | [] => (out, w)
  | Poll :: calls => let '(c, w) := cancelled w in if c then (fail_upload (Msg (str "cancelled")), w) else tunnel_calls calls out w
  | Percent pct :: calls => tunnel_calls calls out (update PrintingStageUpload pct (Txt []) w)
  end.

(** [tunnel_upload::upload_file]. *)
Definition upload_file (t : Tunnel) (host dev : cstr) (req : UploadRequest) (err_code : Z) (w : World) : Z * UploadOutcome * World :=
  let w := act (Tunnelled host dev req) w in
  match t_connect t with
  | Some e => (err_code, fail_upload e, w)
  | None =>
      let '(out, w) := tunnel_calls (t_calls t) (t_outcome t) w in
      (if ok out then 0 else if is_cancelled (error out) then CANCELED else err_code, out, w)
  end.

(** ** The jobs *)

Definition remote_folder (folder : cstr) : cstr :=
  let folder := match last folder with Some c => if beq c slash then folder else folder ++ [slash] | None => folder end in
  strip_leading_slash folder.

(** The upload of a local print: its code, the path stored under, the total. *)
Definition upload_step (p : Job) (e : Env) (remote_name : cstr) (w : World) : Z * cstr * World :=
  if use_brtc_cache_upload (force_ftps cfg) (naming p) then
    let w := update PrintingStageUpload 0 (Txt []) w in
    let ureq := {| dest_storage := str "emmc"; dest_name := remote_name; local_path := filename (naming p) |} in
    let '(rc, _, w) := upload_file (e_tunnel e) (dev_ip p) (dev_id p) ureq LP_UPLOAD_FTP_FAILED w in
    (rc, remote_name, w)
  else
    let remote_path := [slash] ++ remote_folder (ftp_folder (naming p)) ++ remote_name in
    let '(u, w) := ftp_upload (e_file e) (e_dial e) p remote_path LP_UPLOAD_FTP_FAILED PrintingStageUpload w in
    (u_code u, default [] (u_path u), w).

Definition print_url (p : Job) (remote_name stored_path : cstr) : cstr :=
  if use_brtc_cache_upload (force_ftps cfg) (naming p) then build_brtc_emmc_url remote_name else build_ftp_url stored_path.

Definition set_ssl_for_ftp (v : bool) (w : World) : World := w {{ ssl_for_ftp := v }}.

(** Staging the cover, the command, and what follows its answer. *)
Definition publish_step (p : Job) (e : Env) (json : cstr) (w : World) : Z * World :=
  let w := act (StageCover (dev_id p) (subtask_name_for p) (filename (naming p)) (plate_index p)) w in
  let w := act (Publish (dev_id p) json 0) w in
  if e_pub e =? 0 then (0, emit_finished_countdown w)
  else
    let w := act (UnstageCover (dev_id p) (subtask_name_for p) (plate_index p)) w in
    (LP_PUBLISH_MSG_FAILED, update PrintingStageERROR LP_PUBLISH_MSG_FAILED (Txt (str "MQTT publish failed")) w).

Definition run_local_print_job (p : Job) (e : Env) (w : World) : Z * World :=
  let fail code text w := (code, update PrintingStageERROR code (Txt (str text)) w) in
  let w := set_ssl_for_ftp (use_ssl_for_ftp p) w in
  if is_empty (dev_ip p) || is_empty (password p) then fail CONNECTION_TO_PRINTER_FAILED "no dev_ip/access_code"%string w
  else if is_empty (filename (naming p)) then fail FILE_NOT_EXIST "empty filename"%string w
  else
    let '(c, w) := cancelled w in
    if c then (CANCELED, w)
    else
      let remote_name := to_print_basename (pick_remote_name (naming p)) in
      let '(rc, stored_path, w) := upload_step p e remote_name w in
      if negb (rc =? 0) then (rc, w)
      else
        let '(c, w) := cancelled w in
        if c then fail CANCELED "cancelled"%string w
        else
          let w := update PrintingStageWaiting 0 (Txt []) w in
          let opts := default_opts stored_path (print_url p remote_name stored_path) (str "from_sd_card") in
          let '(json, v) := build_project_file_json abi cfg (seq_counter w) p opts in
          let w := w {{ seq_counter := v }} in
          let '(c, w) := cancelled w in
          if c then fail CANCELED "cancelled"%string w
          else if negb (e_lan_up e) then fail LP_PUBLISH_MSG_FAILED "MQTT reconnect failed after upload"%string w
          else publish_step p e json w.

Definition run_sdcard_print_job (p : Job) (e : Env) (w : World) : Z * World :=
  let fail code text w := (code, update PrintingStageERROR code (Txt (str text)) w) in
  let w := set_ssl_for_ftp (use_ssl_for_ftp p) w in
  if is_empty (dev_id p) then fail CONNECTION_TO_PRINTER_FAILED "no dev_id"%string w
  else if is_empty (dst_file p) then fail FILE_NOT_EXIST "no dst_file"%string w
  else
    let '(c, w) := cancelled w in
    if c then (CANCELED, w)
    else
      let opts := default_opts (pick_remote_name (naming p)) (build_file_url (dst_file p)) (str "from_sd_card") in
      let '(json, v) := build_project_file_json abi cfg (seq_counter w) p opts in
      let w := w {{ seq_counter := v }} in
      let w := update PrintingStageSending 0 (Txt []) w in
      let w := act (Publish (dev_id p) json 0) w in
      if negb (e_pub e =? 0) then fail LP_PUBLISH_MSG_FAILED "MQTT publish failed"%string w
      else (0, emit_finished_countdown w).

Definition run_send_gcode_to_sdcard (p : Job) (e : Env) (w : World) : Z * World :=
  let fail code text w := (code, update PrintingStageERROR code (Txt (str text)) w) in
  let w := set_ssl_for_ftp (use_ssl_for_ftp p) w in
  if is_empty (dev_ip p) || is_empty (password p) then fail CONNECTION_TO_PRINTER_FAILED "no dev_ip/access_code"%string w
  else
    match dest_name_for_send_gcode (naming p) with
    | [] => fail SG_UPLOAD_FTP_FAILED "empty project_name"%string w
    | remote_name =>
        let remote_path := [slash] ++ remote_folder (ftp_folder (naming p)) ++ remote_name in
        let '(u, w) := ftp_upload (e_file e) (e_dial e) p remote_path SG_UPLOAD_FTP_FAILED PrintingStageUpload w in
        if negb (u_code u =? 0) then (u_code u, w) else (0, emit_finished_countdown w)
    end.
End job.

(** ** What a job may do *)

Section traces.
Context (abi : Z) (cfg : Settings) (has_update : bool) (cancel : option (nat -> bool)) (ca_bundle : cstr).

#[local] Abbreviation upd := (update has_update).
#[local] Abbreviation canc := (cancelled cancel).
#[local] Abbreviation prog := (progress has_update cancel).

(** An update when there is someone to tell. *)
Definition told (stage code : Z) (info : Info) : list Act := if has_update then [Update stage code info] else [].

Definition uploading (a : Act) : Prop :=
  match a with Update stage _ _ => stage = PrintingStageUpload | Dialled _ _ | Talked _ | Tunnelled _ _ _ => True | _ => False end.

(** The answer of the [k]-th call of [cancel_fn]. *)
Definition goes_on (k : nat) : Prop := match cancel with Some f => f k = false | None => True end.

(** The server changes to none of [dirs]. *)
Fixpoint cwd_refused (dirs : list cstr) (c c' : Client) : Prop :=
  match dirs with
  | [] => c' = c
  | dir :: dirs =>
      exists r c1, send_cmd (str "CWD " ++ dir) c = (r, c1) /\ code_of r <> 250 /\ code_of r <> 200 /\ cwd_refused dirs c1 c'
  end.

(** The storage a path may name first, and where else its file is looked for. *)
Inductive storage_order : cstr -> list cstr -> Prop :=
  | Sdcard_first : storage_order (str "/sdcard") [str "/sdcard"; str "/usb"; str "/"]
  | Usb_first : storage_order (str "/usb") [str "/usb"; str "/sdcard"; str "/"].

(** Where the file of [requested] goes, with the commands from [c] to [c']: as
    requested, unless that names a storage; then to the first storage in order
    that the server changes to, and as requested when there is none. *)
Inductive placed (requested : cstr) (c : Client) : cstr -> Client -> Prop :=
  | No_storage : (forall first dirs name, storage_order first dirs -> name <> [] -> requested <> first ++ slash :: name) ->
      placed requested c requested c
  | In_storage first refused dir others name r c1 c2 :
      storage_order first (refused ++ dir :: others) -> name <> [] -> requested = first ++ slash :: name ->
      cwd_refused refused c c1 -> send_cmd (str "CWD " ++ dir) c1 = (r, c2) -> code_of r = 250 \/ code_of r = 200 ->
      placed requested c (if bool_decide (dir = str "/") then slash :: name else dir ++ slash :: name) c2
  | Nowhere first dirs name c' :
      storage_order first dirs -> name <> [] -> requested = first ++ slash :: name -> cwd_refused dirs c c' ->
      placed requested c requested c'.

Definition by_tunnel (p : Job) : bool := use_brtc_cache_upload (force_ftps cfg) (naming p).

(** The name a local print gives its file on the printer. *)
Definition remote_name (p : Job) : cstr := to_print_basename (pick_remote_name (naming p)).

(** The acts [ups] of the run hold a conversation with the server at the
    printer's address in which it logged the client in, accepted all of the file
    under [path], and saw the client off; no other file was sent in it. *)
Definition stored_by_ftp (p : Job) (e : Env) (path : cstr) (ups : list Act) : Prop :=
  exists f c c1 c2, lf_data (e_file e) = Some f /\ connect (ftp_config ca_bundle p) (e_dial e) = (None, c) /\
    placed ([slash] ++ remote_folder (ftp_folder (naming p)) ++ remote_name p) c path c1 /\ stor_accepted f path c1 c2 /\
    Dialled (dev_ip p) (if use_ssl_for_ftp p then 990 else 21) ∈ ups /\ Talked (quit c2) ∈ ups /\ carried (quit c2) = [f].

(** The file is on the printer: by the tunnel, which was given the name for the
    printer's emmc and reported success, or by FTP. *)
Definition stored (p : Job) (e : Env) (path : cstr) (ups : list Act) : Prop :=
  if by_tunnel p then
    Tunnelled (dev_ip p) (dev_id p) {| dest_storage := str "emmc"; dest_name := remote_name p; local_path := filename (naming p) |} ∈ ups /\
    t_connect (e_tunnel e) = None /\ ok (t_outcome (e_tunnel e)) = true /\ path = remote_name p
  else stored_by_ftp p e path ups.

(** The command for the file stored under [path]. *)
Definition command (p : Job) (path json : cstr) : Prop :=
  exists v, json = (build_project_file_json abi cfg v p
    (default_opts path (print_url cfg p (remote_name p) path) (str "from_sd_card"))).1.

Definition stage (p : Job) : Act := StageCover (dev_id p) (subtask_name_for p) (filename (naming p)) (plate_index p).
Definition ticks (n : nat) : list Act := if has_update then map (fun t => Update PrintingStageFinished 0 (Txt t)) (take n kTicks) else [].

(** What a local print does, with its code; [k] is the first call of [cancel_fn]. *)
Inductive local_trace (p : Job) (e : Env) (k : nat) : Z -> list Act -> Prop :=
  | Refused rc info : rc <> 0 -> local_trace p e k rc (told PrintingStageERROR rc info)
  | CancelledFirst : ~ goes_on k -> local_trace p e k CANCELED []
  | UploadFailed rc ups err :
      Forall uploading ups -> rc <> 0 -> (err = [] /\ by_tunnel p = true \/ exists info, err = told PrintingStageERROR rc info) ->
      local_trace p e k rc (ups ++ err)
  | Unpublished rc ups waiting path info :
      Forall uploading ups -> stored p e path ups -> rc <> 0 -> waiting = [] \/ waiting = told PrintingStageWaiting 0 (Txt []) ->
      local_trace p e k rc (ups ++ waiting ++ told PrintingStageERROR rc info)
  | PublishFailed ups path json k' :
      Forall uploading ups -> stored p e path ups -> command p path json -> (k < k')%nat -> goes_on k' -> goes_on (S k') -> e_pub e <> 0 ->
      local_trace p e k LP_PUBLISH_MSG_FAILED (ups ++ told PrintingStageWaiting 0 (Txt []) ++
        [stage p; Publish (dev_id p) json 0; UnstageCover (dev_id p) (subtask_name_for p) (plate_index p)] ++
        told PrintingStageERROR LP_PUBLISH_MSG_FAILED (Txt (str "MQTT publish failed")))
  | Queued ups path json k' n :
      Forall uploading ups -> stored p e path ups -> command p path json -> (k < k')%nat -> goes_on k' -> goes_on (S k') -> e_pub e = 0 ->
      local_trace p e k 0 (ups ++ told PrintingStageWaiting 0 (Txt []) ++ [stage p; Publish (dev_id p) json 0] ++ ticks n).

(** *** Steps *)

(** From [w] to [w'] with the acts [new]. *)
Definition moves (w : World) (new : list Act) (w' : World) : Prop := acts w' = acts w ++ new /\ (asked w <= asked w')%nat.

Lemma moves_nil w : moves w [] w.
Proof. split; [by rewrite app_nil_r | done]. Qed.

Lemma moves_app w new1 w1 new2 w2 : moves w new1 w1 -> moves w1 new2 w2 -> moves w (new1 ++ new2) w2.
Proof. intros [H1 H2] [H3 H4]. split; [by rewrite H3, H1, app_assoc | lia]. Qed.

Lemma moves_act a w : moves w [a] (act a w).
Proof. by destruct w. Qed.

Lemma moves_update st code info w : moves w (told st code info) (upd st code info w).
Proof. unfold update, told. destruct has_update; [apply moves_act | apply moves_nil]. Qed.

Lemma moves_cancelled w c w' : canc w = (c, w') ->
  moves w [] w' /\ (if c then ~ goes_on (asked w) else goes_on (asked w)) /\
  match cancel with Some _ => asked w' = S (asked w) | None => w' = w end.
Proof.
  unfold cancelled, goes_on. destruct cancel as [f|]; intros [= <- <-].
  - split_and!; [split; [by destruct w; cbn; rewrite app_nil_r | destruct w; cbn; unfold constant; lia] | by destruct (f _) | by destruct w].
  - split_and!; [apply moves_nil | done | done].
Qed.

(** A relation between worlds that the calls of an upload keep. *)
Lemma progress_moves st w a b : moves w (if (prog st w a b).1 then told st (let pct := if 0 <? b then signed 32 (u64 (a * 100) / b) else 0 in if 100 <? pct then 100 else pct) (Txt (format_upload_info a b)) else []) (prog st w a b).2.
Proof.
  unfold progress. destruct (canc w) as [[] w1] eqn:E; apply moves_cancelled in E as (E & _ & _); [done|].
  cbn [fst snd]. eapply (moves_app w []); [exact E | apply moves_update].
Qed.

Lemma told_uploading pct info : Forall uploading (told PrintingStageUpload pct info).
Proof. unfold told. destruct has_update; [by apply Forall_singleton | by apply Forall_nil]. Qed.

Definition uploads (w w' : World) : Prop := exists ups, Forall uploading ups /\ moves w ups w'.

Lemma uploads_refl w : uploads w w.
Proof. exists []. split; [by apply Forall_nil | apply moves_nil]. Qed.

Lemma uploads_trans w w1 w2 : uploads w w1 -> uploads w1 w2 -> uploads w w2.
Proof. intros (u1 & F1 & M1) (u2 & F2 & M2). exists (u1 ++ u2). split; [by apply Forall_app | by eapply moves_app]. Qed.

Lemma progress_uploads w a b : uploads w (prog PrintingStageUpload w a b).2.
Proof. eexists. split; [|apply progress_moves]. destruct (prog _ w a b).1; [apply told_uploading | by apply Forall_nil]. Qed.

Lemma stor_loop_uploads fuel : forall rest total sent last w out ws e out' sent' w',
  stor_loop (prog PrintingStageUpload) fuel rest total sent last w out ws = (e, out', sent', w') -> uploads w w'.
Proof.
  induction fuel as [|fuel IH]; intros rest total sent last w out ws e out' sent' w'; cbn [stor_loop].
  { intros [= <- <- <- <-]. apply uploads_refl. }
  destruct (take kFileBuf rest) as [|x buf]; [intros [= <- <- <- <-]; apply uploads_refl|].
  destruct (write_loop ws out (x :: buf)) as [[[] out1] ws1]; [|intros [= <- <- <- <-]; apply uploads_refl]. cbn [negb]. cbv zeta.
  destruct (_ =? last); [apply IH|]. set (a := u64 _).
  pose proof (progress_uploads w a total) as Hp. destruct (prog _ w a total) as [[] w1]; cbn [snd] in Hp.
  - intros H%IH. by eapply uploads_trans.
  - by intros [= <- <- <- <-].
Qed.

Lemma stor_uploads file path w c e w' c' : stor (prog PrintingStageUpload) file path w c = (e, w', c') -> uploads w w'.
Proof.
  unfold stor. destruct file as [f|]; [|intros [= <- <- <-]; apply uploads_refl].
  destruct (start_transfer _ _ c) as [[x|l] c1]; [intros [= <- <- <-]; apply uploads_refl|].
  destruct (stor_loop _ _ _ _ _ _ _ _ _) as [[[e1 out] sent] w1] eqn:El. apply stor_loop_uploads in El.
  destruct e1 as [x|]; [by intros [= <- <- <-]|]. destruct (read_reply _) as [r c2].
  destruct (finished _); intros [= <- <- <-]; [|done]. eapply uploads_trans; [exact El | apply progress_uploads].
Qed.

Lemma path_under_spec path prefix :
  path_under path prefix = true <-> exists name, name <> [] /\ path = prefix ++ slash :: name.
Proof.
  unfold path_under. rewrite !andb_true_iff, Nat.ltb_lt, bool_decide_eq_true. split.
  - intros [[Hl Ht] Hs]. exists (drop (S (length prefix)) path). destruct (beq_spec (path !!! length prefix) slash) as [Hb|]; [|done].
    split; [intros E%(f_equal length); rewrite length_drop in E; cbn in E; lia|].
    rewrite <- (take_drop (length prefix) path) at 1. rewrite Ht. f_equal. rewrite <- Hb.
    by apply drop_S, list_lookup_lookup_total_lt; lia.
  - intros (name & Hn & ->). rewrite length_app, take_app_length. cbn [length]. split_and!; [|done|].
    + destruct name; [done|]. cbn [length]. lia.
    + rewrite list_lookup_total_alt, lookup_app_r, Nat.sub_diag by lia. cbn. unfold beq. apply Z.eqb_refl.
Qed.

Lemma storage_slash first dirs name : storage_order first dirs -> find_char_from slash (first ++ slash :: name) 1 = Some (length first).
Proof. by destruct 1. Qed.

Lemma cwd_same path c e c' : cwd path c = (e, c') -> same_data c c'.
Proof. unfold cwd, result_of. destruct (send_cmd _ c) as [r c1] eqn:E. apply send_cmd_same in E. by intros [= _ <-]. Qed.

(** Probing [dirs] after the server has refused others. *)
Lemma probe_finds dirs : forall name requested c path c',
  probe dirs name requested c = (path, c') ->
  (path = requested /\ cwd_refused dirs c c' \/
   exists refused dir others r c1, dirs = refused ++ dir :: others /\ cwd_refused refused c c1 /\
     send_cmd (str "CWD " ++ dir) c1 = (r, c') /\ (code_of r = 250 \/ code_of r = 200) /\
     path = if bool_decide (dir = str "/") then slash :: name else dir ++ slash :: name) /\ same_data c c'.
Proof.
  induction dirs as [|d dirs IH]; intros name requested c path c'; cbn [probe]; [intros [= <- <-]; split; [by left | apply same_refl]|].
  destruct (cwd d c) as [e c1] eqn:E. apply cwd_same in E as S1. unfold cwd, result_of in E. destruct (send_cmd _ c) as [r c2] eqn:Es.
  destruct ((code_of r =? 250) || (code_of r =? 200))%bool eqn:Ec; injection E as <- <-.
  - intros [= <- <-]. split; [|done]. right. exists [], d, dirs, r, c. apply orb_prop in Ec.
    split_and!; [done | done | done | destruct Ec as [H|H]; apply Z.eqb_eq in H; auto | done].
  - apply orb_false_iff in Ec as [H1%Z.eqb_neq H2%Z.eqb_neq].
    intros ([[-> H]|(refused & dir & others & r' & c3 & -> & H & H')] & S2)%IH; (split; [|by eapply same_trans]).
    + left. split; [done|]. by exists r, c2.
    + right. exists (d :: refused), dir, others, r', c3. split_and!; [done | by exists r, c2 | apply H'..].
Qed.

Lemma adjust_placed requested c path c' :
  adjust_storage_path requested c = (path, c') -> placed requested c path c' /\ same_data c c'.
Proof.
  unfold adjust_storage_path. destruct (negb (path_under requested (str "/sdcard")) && negb (path_under requested (str "/usb"))) eqn:En.
  { intros [= <- <-]. split; [|apply same_refl]. apply No_storage. intros first dirs name Ho Hn Hr. apply andb_prop in En as [E1 E2].
    apply negb_true_iff in E1, E2. destruct Ho; [rewrite (proj2 (path_under_spec _ _)) in E1 by eauto; done|].
    by rewrite (proj2 (path_under_spec _ (str "/usb"))) in E2 by eauto. }
  assert (Ho : exists first name, storage_order first (if path_under requested (str "/sdcard") then kCandidatesSdcard else kCandidatesUsb) /\
    name <> [] /\ requested = first ++ slash :: name).
  { destruct (path_under requested (str "/sdcard")) eqn:E1.
    - apply path_under_spec in E1 as (name & Hn & ->). exists (str "/sdcard"), name. split_and!; [constructor | done..].
    - cbn [negb andb] in En. apply negb_false_iff, path_under_spec in En as (name & Hn & ->).
      exists (str "/usb"), name. split_and!; [constructor | done..]. }
  destruct Ho as (first & name & Ho & Hn & Hr). rewrite Hr at 1. rewrite (storage_slash _ _ _ Ho).
  assert (drop (S (length first)) requested = name) as -> by (rewrite Hr; by rewrite drop_app_add with (i := 1%nat) || (rewrite (cons_middle slash first name), app_assoc; apply drop_app_length'; rewrite length_app; cbn; lia)).
  destruct name as [|x name]; [done|]. intros [H S]%probe_finds. split; [|done].
  destruct H as [[-> H]|(refused & dir & others & r & c1 & Hd & H & Hs & Hc & ->)]; [by eapply Nowhere|].
  rewrite Hd in Ho. by eapply In_storage.
Qed.

Lemma ftp_upload_moves f d p path err w u w' :
  err <> 0 -> ftp_upload has_update cancel ca_bundle f d p path err PrintingStageUpload w = (u, w') ->
  (u_code u = 0 /\ exists ups, Forall uploading ups /\ moves w ups w' /\
     exists fl path' c c1 c2, u_path u = Some path' /\ lf_data f = Some fl /\ connect (ftp_config ca_bundle p) d = (None, c) /\
       placed path c path' c1 /\ stor_accepted fl path' c1 c2 /\
       Dialled (dev_ip p) (if use_ssl_for_ftp p then 990 else 21) ∈ ups /\ Talked (quit c2) ∈ ups /\ carried (quit c2) = [fl]) \/
  (u_code u <> 0 /\ exists ups info, Forall uploading ups /\ moves w (ups ++ told PrintingStageERROR (u_code u) info) w').
Proof.
  intros Herr. unfold ftp_upload.
  assert (Hfail : forall code info w1, uploads w w1 -> exists ups info', Forall uploading ups /\
    moves w (ups ++ told PrintingStageERROR code info') (upd PrintingStageERROR code info w1)).
  { intros code info w1 (ups & F & M). exists ups, info. split; [done|]. eapply moves_app; [exact M | apply moves_update]. }
  destruct (lf_size f) as [sz|]; [|intros [= <- <-]; right; split; [done | apply Hfail, uploads_refl]].
  destruct (_ <? sz); [intros [= <- <-]; right; split; [done | apply Hfail, uploads_refl]|].
  set (w1 := act _ _). assert (H1 : moves w (told PrintingStageUpload 0 (Txt []) ++ [Dialled (dev_ip p) (if use_ssl_for_ftp p then 990 else 21)]) w1)
    by (eapply moves_app; [apply moves_update | apply moves_act]).
  set (ups1 := told PrintingStageUpload 0 _ ++ _) in H1. assert (F1 : Forall uploading ups1)
    by (apply Forall_app; split; [apply told_uploading | by apply Forall_singleton]).
  assert (D1 : Dialled (dev_ip p) (if use_ssl_for_ftp p then 990 else 21) ∈ ups1) by (apply elem_of_app; right; apply list_elem_of_here).
  clearbody w1 ups1. destruct (connect _ d) as [[e|] c] eqn:Ec.
  { intros [= <- <-]. right. split; [done|]. apply Hfail. exists (ups1 ++ [Talked c]).
    split; [by apply Forall_app; split; [|apply Forall_singleton] | eapply moves_app; [exact H1 | apply moves_act]]. }
  destruct (adjust_storage_path path c) as [path' c1] eqn:Ea. destruct (stor _ _ _ _ c1) as [[e w2] c2] eqn:Es.
  assert (H2 : uploads w1 w2) by by eapply stor_uploads. destruct H2 as (ups2 & F2 & M2).
  assert (M3 : moves w (ups1 ++ ups2 ++ [Talked (quit c2)]) (act (Talked (quit c2)) w2)).
  { eapply moves_app; [exact H1|]. eapply moves_app; [exact M2 | apply moves_act]. }
  assert (F3 : Forall uploading (ups1 ++ ups2 ++ [Talked (quit c2)])).
  { rewrite !Forall_app. split_and!; [done | done | by apply Forall_singleton]. }
  destruct e as [e|]; intros [= <- <-].
  - right. cbn [u_code upload_failed]. split; [by destruct e | apply Hfail]. eexists. split; [exact F3 | exact M3].
  - left. split; [done|]. exists (ups1 ++ ups2 ++ [Talked (quit c2)]). split_and!; [done | done|].
    destruct (lf_data f) as [fl|] eqn:Ef; [|done]. apply stor_exchange in Es as [Hs Hca]. apply adjust_placed in Ea as [Hp S].
    apply connect_same in Ec as Hc. exists fl, path', c, c1, c2. split_and!; try done.
    + by apply elem_of_app; left.
    + apply elem_of_app; right. apply elem_of_app; right. apply list_elem_of_here.
    + rewrite quit_carried, Hca, (same_carried _ _ S). by destruct Hc as [-> _].
Qed.

Lemma tunnel_calls_moves calls out : forall w out' w', tunnel_calls has_update cancel calls out w = (out', w') ->
  uploads w w' /\ (ok out' = true -> out' = out).
Proof.
  induction calls as [|[|pct] calls IH]; intros w out' w'; cbn [tunnel_calls].
  - intros [= <- <-]. split; [apply uploads_refl | done].
  - destruct (canc w) as [c w1] eqn:E. apply moves_cancelled in E as (M & _).
    assert (H1 : uploads w w1) by (exists []; split; [by apply Forall_nil | done]). destruct c; [by intros [= <- <-]|].
    intros [H2 H3]%IH. split; [by eapply uploads_trans | done].
  - intros [H2 H3]%IH. split; [|done]. eapply uploads_trans; [|exact H2]. eexists. split; [apply told_uploading | apply moves_update].
Qed.

Lemma upload_file_moves t host dev req err w rc out w' :
  err <> 0 -> upload_file has_update cancel t host dev req err w = (rc, out, w') ->
  exists ups, Forall uploading ups /\ moves w ups w' /\ Tunnelled host dev req ∈ ups /\
    (rc = 0 -> t_connect t = None /\ ok (t_outcome t) = true).
Proof.
  intros Herr. unfold upload_file. pose proof (moves_act (Tunnelled host dev req) w) as M1.
  assert (F1 : Forall uploading [Tunnelled host dev req]) by by apply Forall_singleton.
  destruct (t_connect t).
  { intros [= <- <- <-]. eexists. split_and!; [exact F1 | exact M1 | apply list_elem_of_here | done]. }
  destruct (tunnel_calls _ _ _ _ _) as [o w1] eqn:E. apply tunnel_calls_moves in E as [(ups & F2 & M2) Ho].
  intros [= <- <- <-]. exists ([Tunnelled host dev req] ++ ups). split_and!; [by apply Forall_app | by eapply moves_app | apply list_elem_of_here|].
  destruct (ok o) eqn:Eo; [by rewrite <- Ho, Eo by done|]. destruct (is_cancelled _); done.
Qed.

Lemma upload_step_moves p e w rc path w' :
  upload_step cfg has_update cancel ca_bundle p e (remote_name p) w = (rc, path, w') ->
  (rc = 0 /\ exists ups, Forall uploading ups /\ moves w ups w' /\ stored p e path ups) \/
  (rc <> 0 /\ exists ups err, Forall uploading ups /\ moves w (ups ++ err) w' /\
     (err = [] /\ by_tunnel p = true \/ exists info, err = told PrintingStageERROR rc info)).
Proof.
  unfold upload_step, stored, by_tunnel. destruct (use_brtc_cache_upload _ _).
  - destruct (upload_file _ _ _ _ _ _ _ _) as [[rc1 out] w1] eqn:E. apply upload_file_moves in E as (ups & F & M & Ht & H3); [|done]. intros [= <- <- <-].
    set (start := told PrintingStageUpload 0 (Txt [])). assert (H : Forall uploading (start ++ ups) /\ moves w (start ++ ups) w1).
    { split; [apply Forall_app; split; [apply told_uploading | done] | eapply moves_app; [apply moves_update | done]]. }
    destruct H as [F' M']. destruct (Z.eq_dec rc1 0) as [->|Hne].
    + left. split; [done|]. exists (start ++ ups). split_and!; try done; [by apply elem_of_app; right | by apply H3..].
    + right. split; [done|]. exists (start ++ ups), []. rewrite app_nil_r. split_and!; [done | done | by left].
  - destruct (ftp_upload _ _ _ _ _ _ _ _ _ _) as [u w1] eqn:E. apply ftp_upload_moves in E; [|done]. intros [= <- <- <-].
    destruct E as [(H1 & ups & F & M & fl & path' & c & c1 & c2 & Hp & H)|(H1 & ups & info & F & M)].
    + left. split; [done|]. exists ups. split_and!; [done | done|]. rewrite Hp. by exists fl, c, c1, c2.
    + right. split; [done|]. exists ups, (told PrintingStageERROR (u_code u) info). split_and!; [done | done | right; by exists info].
Qed.

Lemma waits_moves n : forall w c w', waits cancel n w = (c, w') -> moves w [] w'.
Proof.
  induction n as [|n IH]; intros w c w'; cbn [waits]; [intros [= <- <-]; apply moves_nil|].
  destruct (canc w) as [[] w1] eqn:E; apply moves_cancelled in E as (M & _); [by intros [= <- <-]|].
  intros H%IH. by apply (moves_app w [] w1 [] w').
Qed.

Definition tick (t : cstr) : Act := Update PrintingStageFinished 0 (Txt t).

Lemma countdown_moves ts : has_update = true -> forall w, exists n, moves w (map tick (take n ts)) (countdown has_update cancel ts w).
Proof.
  intros Hu. induction ts as [|t ts IH]; intros w; cbn [countdown]; [exists 0%nat; apply moves_nil|].
  destruct (canc w) as [[] w1] eqn:E; apply moves_cancelled in E as (M & _); [by exists 0%nat|].
  assert (M1 : moves w [tick t] (upd PrintingStageFinished 0 (Txt t) w1)).
  { apply (moves_app w [] w1); [done|]. unfold update. rewrite Hu. apply moves_act. }
  destruct ts as [|t' ts]; [by exists 1%nat|]. destruct (waits _ 10 _) as [c w2] eqn:Ew. apply waits_moves in Ew.
  assert (M2 : moves w [tick t] w2) by by apply (moves_app w [tick t] (upd PrintingStageFinished 0 (Txt t) w1) [] w2).
  destruct c; [by exists 1%nat|]. destruct (IH w2) as [n M3]. exists (S n). cbn [take map]. by eapply (moves_app w [tick t]).
Qed.

Lemma finished_moves w : exists n, moves w (ticks n) (emit_finished_countdown has_update cancel w).
Proof.
  unfold emit_finished_countdown, ticks. destruct has_update eqn:Hu; [|exists 0%nat; apply moves_nil].
  rewrite <- Hu. by apply countdown_moves.
Qed.

Lemma publish_moves p e json w rc w' : publish_step has_update cancel p e json w = (rc, w') ->
  if e_pub e =? 0 then rc = 0 /\ exists n, moves w ([stage p; Publish (dev_id p) json 0] ++ ticks n) w'
  else rc = LP_PUBLISH_MSG_FAILED /\
    moves w ([stage p; Publish (dev_id p) json 0; UnstageCover (dev_id p) (subtask_name_for p) (plate_index p)] ++
      told PrintingStageERROR LP_PUBLISH_MSG_FAILED (Txt (str "MQTT publish failed"))) w'.
Proof.
  unfold publish_step. fold (stage p). assert (M : moves w [stage p; Publish (dev_id p) json 0] (act (Publish (dev_id p) json 0) (act (stage p) w))).
  { eapply (moves_app w [stage p]); apply moves_act. }
  destruct (e_pub e =? 0); intros [= <- <-]; (split; [done|]).
  - destruct (finished_moves (act (Publish (dev_id p) json 0) (act (stage p) w))) as [n Hn]. exists n. by eapply moves_app.
  - eapply (moves_app w [_; _; _]); [|apply moves_update]. eapply (moves_app w [_; _]); [exact M | apply moves_act].
Qed.

(** Changes that are not acts. *)
Lemma moves_ssl v w : moves w [] (set_ssl_for_ftp v w).
Proof. split; [by destruct w; cbn; rewrite app_nil_r | by destruct w]. Qed.

Lemma moves_counter v w : moves w [] (w {{ seq_counter := v }}).
Proof. split; [by destruct w; cbn; rewrite app_nil_r | by destruct w]. Qed.

Lemma told_asked st code info w : asked (upd st code info w) = asked w.
Proof. unfold update. destruct has_update; [by destruct w | done]. Qed.

(** The calls of [cancel_fn] around an upload that goes on to the command. *)
Lemma polls_go_on w w1 w2 w3 w4 w5 :
  canc w = (false, w1) -> (asked w1 <= asked w2)%nat -> canc w2 = (false, w3) -> asked w4 = asked w3 -> canc w4 = (false, w5) ->
  exists k, (asked w < k)%nat /\ goes_on k /\ goes_on (S k).
Proof.
  intros (_ & _ & A1)%moves_cancelled Hle (_ & G2 & A2)%moves_cancelled H4 (_ & G4 & _)%moves_cancelled.
  unfold goes_on in *. destruct cancel as [f|]; [|exists (S (asked w)); split_and!; [lia | done | done]].
  exists (asked w2). rewrite H4, A2 in G4. split_and!; [lia | done | done].
Qed.

(** Every run of a local print is one of the traces. *)
Lemma local_print_trace p e w rc w' :
  run_local_print_job abi cfg has_update cancel ca_bundle p e w = (rc, w') ->
  exists new, acts w' = acts w ++ new /\ local_trace p e (asked w) rc new.
Proof.
  intros H. enough (exists new, moves w new w' /\ local_trace p e (asked w) rc new) as (new & [M _] & T) by eauto.
  unfold run_local_print_job in H. set (w0 := set_ssl_for_ftp _ w) in H. assert (M0 : moves w [] w0) by apply moves_ssl.
  assert (A0 : asked w0 = asked w) by by destruct w. rewrite <- A0. clearbody w0.
  assert (Hm : forall new w2, moves w0 new w2 -> moves w new w2) by (intros new w2; apply (moves_app w [] w0 new w2 M0)).
  destruct (is_empty (dev_ip p) || is_empty (password p)); [injection H as <- <-; eexists; split; [apply Hm, moves_update | by apply Refused]|].
  destruct (is_empty (filename (naming p))); [injection H as <- <-; eexists; split; [apply Hm, moves_update | by apply Refused]|].
  destruct (canc w0) as [c w1] eqn:E1. apply moves_cancelled in E1 as HE1. destruct HE1 as (M1 & G1 & _).
  destruct c; [injection H as <- <-; exists []; split; [by apply Hm | by apply CancelledFirst]|].
  fold (remote_name p) in H. destruct (upload_step _ _ _ _ p e _ w1) as [[rc2 path] w2] eqn:E2. apply upload_step_moves in E2.
  destruct E2 as [(-> & ups & F & M2 & Hst)|(Hrc & ups & err & F & M2 & He)]; cbn [negb Z.eqb] in H.
  2:{ rewrite (proj2 (Z.eqb_neq _ _)) in H by done. injection H as <- <-. exists (ups ++ err). split; [by apply Hm, (moves_app w0 [] w1) | by apply UploadFailed]. }
  assert (M3 : moves w0 ups w2) by by apply (moves_app w0 [] w1).
  destruct (canc w2) as [c w3] eqn:E3. apply moves_cancelled in E3 as HE3. destruct HE3 as (M4 & _ & _).
  assert (M5 : moves w0 ups w3) by (rewrite <- (app_nil_r ups); by apply (moves_app w0 ups w2 [] w3)).
  destruct c; [injection H as <- <-; eexists; split; [apply Hm; eapply moves_app; [exact M5 | apply moves_update]|];
    apply (Unpublished p e _ _ ups [] path); [done | done | done | by left]|].
  set (w4 := upd _ _ _ w3) in H. destruct (build_project_file_json _ _ _ _ _) as [json v] eqn:Ej.
  assert (Hcmd : command p path json) by (exists (seq_counter w4); by rewrite Ej).
  set (w5 := w4 {{ seq_counter := v }}) in H.
  assert (A5 : asked w5 = asked w3) by (unfold w5; rewrite <- (told_asked PrintingStageWaiting 0 (Txt []) w3); fold w4; by destruct w4).
  assert (M6 : moves w0 (ups ++ told PrintingStageWaiting 0 (Txt [])) w5).
  { rewrite <- (app_nil_r (ups ++ _)). eapply (moves_app w0 _ w4); [|apply moves_counter]. eapply moves_app; [exact M5 | apply moves_update]. }
  clearbody w5. destruct (canc w5) as [c w6] eqn:E6. apply moves_cancelled in E6 as HE6. destruct HE6 as (M7 & _ & _).
  assert (M8 : moves w0 (ups ++ told PrintingStageWaiting 0 (Txt [])) w6).
  { rewrite <- (app_nil_r (ups ++ _)). by eapply moves_app. }
  destruct c; [injection H as <- <-; eexists; split; [apply Hm; eapply moves_app; [exact M8 | apply moves_update]|];
    rewrite <- app_assoc; eapply Unpublished; [done | done | done | by right]|].
  destruct (polls_go_on w0 w1 w2 w3 w5 w6) as (k & Hk & G & G'); try done; [by destruct M2|].
  destruct (negb (e_lan_up e)); [injection H as <- <-; eexists; split; [apply Hm; eapply moves_app; [exact M8 | apply moves_update]|];
    rewrite <- app_assoc; eapply Unpublished; [done | done | done | by right]|].
  apply publish_moves in H. destruct (Z.eqb_spec (e_pub e) 0) as [Hp|Hp]; destruct H as [-> H].
  - destruct H as [n M9]. eexists. split; [apply Hm; eapply moves_app; [exact M8 | exact M9]|]. rewrite <- app_assoc. by eapply Queued.
  - eexists. split; [apply Hm; eapply moves_app; [exact M8 | exact H]|]. rewrite <- app_assoc. by eapply PublishFailed.
Qed.

(** C4: A local print follows its protocol, whatever the printer, the network
    and the caller's [cancel_fn] do: refusals first, then the upload's progress,
    then the waiting stage, the staged cover and one command, and then either the
    countdown, or the cover's removal and the error. The command is published only
    when this run has put the file on the printer, under the path and the URL of
    the command: by FTP, logged in at the printer's address, with a STOR of all of
    the file under that path that the server let start and confirmed, the path
    being the requested one or its place in the first storage the server changes
    to; or by a tunnel that reported success. The two calls of [cancel_fn] before
    it said to go on. Every code but 0 is told to the caller as an error, unless
    the job was cancelled before the upload or the tunnel refused it. *)
Theorem local_print_follows p e w rc w' :
  run_local_print_job abi cfg has_update cancel ca_bundle p e w = (rc, w') ->
  exists new, acts w' = acts w ++ new /\ local_trace p e (asked w) rc new.
Proof. apply local_print_trace. Qed.

(** *** A job that succeeds *)

(** A connection whose dial and login the server accepts. *)
Lemma connect_at c d banner rs tl :
  tcp_up d = true -> (c_use_tls c = true -> tls_setup c d = (None, true)) -> accepting (server_out d) ->
  answers banner 220 -> Forall2 (fun r x => answers r x.2) rs (login_commands (c_use_tls c) c) ->
  flow (server_in d) = reply_wire banner ++ concat (map reply_wire rs) ++ tl ->
  exists cl wr, connect c d = (None, cl) /\ at_ctrl (c_use_tls c) tl wr (server_links d) [] [] cl.
Proof.
  intros Hup Htls Hacc Hb Hrs Hf.
  assert (H0 : forall ssl, (c_use_tls c = true -> ssl = true) ->
    at_ctrl (c_use_tls c) (reply_wire banner ++ concat (map reply_wire rs) ++ tl) [] (server_links d) [] [] (fresh (c_use_tls c) true ssl d)).
  { intros ssl Hs. split; try done. unfold usable. cbn. destruct (c_use_tls c); [by apply Hs | done]. }
  unfold connect, and_then, connect_transport. rewrite Hup. cbn [negb].
  assert (Hs : exists ssl, (if c_use_tls c then tls_setup c d else (None, false)) = (None, ssl) /\ (c_use_tls c = true -> ssl = true)).
  { destruct (c_use_tls c); [exists true; by rewrite Htls | by exists false]. }
  destruct Hs as (ssl & -> & Hs). destruct (reply_at _ banner 220 _ _ _ _ _ _ Hb (H0 ssl Hs)) as (c1 & -> & H1). cbn [code_of].
  change (220 =? 220) with true. cbn match. destruct (login_completes _ c rs _ _ _ _ _ _ Hrs H1) as (c2 & E2 & H2).
  exists c2. eexists. split; [exact E2 | exact H2].
Qed.

(** A server that takes the file [f], and a printer that takes the command. *)
Record cooperates (p : Job) (e : Env) (f : cstr) : Prop := {
  co_size : lf_size (e_file e) = Some (zlen f) /\ zlen f <= kOneGB;
  co_data : lf_data (e_file e) = Some f;
  co_dial : tcp_up (e_dial e) = true /\ accepting (server_out (e_dial e));
  co_tls : use_ssl_for_ftp p = true -> tls_setup (ftp_config ca_bundle p) (e_dial e) = (None, true);
  co_replies : exists banner rs pasv port go code fin code' tl,
    answers banner 220 /\ Forall2 (fun r x => answers r x.2) rs (login_commands (use_ssl_for_ftp p) (ftp_config ca_bundle p)) /\
    answers pasv 227 /\ port_of (reply_body pasv) = Some port /\ answers go code /\ started code = true /\
    answers fin code' /\ finished code' = true /\
    flow (server_in (e_dial e)) = reply_wire banner ++ concat (map reply_wire rs) ++ reply_wire pasv ++ reply_wire go ++ reply_wire fin ++ tl;
  co_link : exists l ls, server_links (e_dial e) = l :: ls /\ link_up l = true /\ (use_ssl_for_ftp p = true -> link_tls l = true) /\ accepting (link_out l);
  co_printer : e_lan_up e = true /\ e_pub e = 0 }.

Lemma canc_on w : (forall k, goes_on k) -> exists w', canc w = (false, w').
Proof. unfold goes_on, cancelled. intros H. destruct cancel as [f|]; [rewrite H|]; by eexists. Qed.

(** The root of the server is not looked for elsewhere. *)
Lemma adjust_root name c : Forall (fun x => is_slash x = false) name -> adjust_storage_path (slash :: name) c = (slash :: name, c).
Proof.
  intros H. assert (Hu : forall prefix, path_under (slash :: name) (slash :: prefix) = false).
  { intros prefix. unfold path_under. apply not_true_iff_false. intros [[Hl _]%andb_prop Hs]%andb_prop.
    apply Nat.ltb_lt in Hl. cbn [length] in *. rewrite list_lookup_total_alt in Hs. cbn [lookup list_lookup] in Hs.
    destruct (name !! length prefix) as [x|] eqn:E; [|apply lookup_ge_None in E; lia]. cbn in Hs.
    rewrite Forall_forall in H. apply list_elem_of_lookup_2, H in E. unfold is_slash in E. destruct (beq_spec x slash); [by subst | done]. }
  unfold adjust_storage_path. change (str "/sdcard") with (slash :: str "sdcard"). change (str "/usb") with (slash :: str "usb"). by rewrite !Hu.
Qed.

Lemma ftp_upload_completes p e f name w :
  (forall k, goes_on k) -> cooperates p e f -> Forall (fun x => is_slash x = false) name ->
  exists u w', ftp_upload has_update cancel ca_bundle (e_file e) (e_dial e) p (slash :: name) LP_UPLOAD_FTP_FAILED PrintingStageUpload w = (u, w') /\
    u_code u = 0 /\ u_path u = Some (slash :: name).
Proof.
  intros Hgo [[Hsz Hle] Hdata [Hup Hacc] Htls (banner & rs & pasv & port & go & code & fin & code' & tl & H1 & H2 & H3 & H4 & H5 & H6 & H7 & H8 & Hf) (l & ls & Hl & Hlu & Hlt & Hla) _] Hname.
  unfold ftp_upload. rewrite Hsz, (proj2 (Z.ltb_ge _ _)) by done. cbv zeta. set (w1 := act _ _). clearbody w1.
  destruct (connect_at (ftp_config ca_bundle p) (e_dial e) banner rs _ Hup Htls Hacc H1 H2 Hf) as (c & wr & E & Hc). rewrite E. rewrite Hl in Hc.
  rewrite adjust_root by done.
  assert (Hp : forall q a b, (prog PrintingStageUpload q a b).1 = true).
  { intros q a b. unfold progress. destruct (canc_on q Hgo) as [q' ->]. done. }
  rewrite Hdata. destruct (stor_at (prog PrintingStageUpload) _ f (slash :: name) w1 pasv port go code fin code' l _ _ _ _ _ _ Hp ltac:(unfold kOneGB in Hle; lia) H3 H4 H5 H6 H7 H8 Hlu Hlt Hla Hc) as (w2 & c2 & E2 & _).
  rewrite E2. by eexists _, _.
Qed.

(** A conversation found among some of the acts is found among all. *)
Lemma stored_by_ftp_mono p e path ups ups' : ups ⊆ ups' -> stored_by_ftp p e path ups -> stored_by_ftp p e path ups'.
Proof. intros Hsub (f & c & c1 & c2 & H1 & H2 & H3 & H4 & H5 & H6 & H7). exists f, c, c1, c2. split_and!; auto. Qed.

(** A file in no folder goes to the root of the server. *)
Lemma placed_root name c path c' : Forall (fun x => is_slash x = false) name -> placed (slash :: name) c path c' -> path = slash :: name.
Proof.
  intros Hn. assert (Hno : forall first dirs rest, storage_order first dirs -> slash :: name <> first ++ slash :: rest).
  { intros first dirs rest Ho Heq. assert (Hin : slash ∈ name).
    { destruct Ho; injection Heq as ->; rewrite elem_of_cons, ?elem_of_app; auto 20 using list_elem_of_here, list_elem_of_further. }
    rewrite Forall_forall in Hn. by apply Hn in Hin. }
  destruct 1 as [|? ? ? ? ? ? ? ? Ho _ Heq|? ? ? ? Ho _ Heq]; [done | by destruct (Hno _ _ _ Ho Heq)..].
Qed.

(** C17: A local print over FTP succeeds when nothing stands in its way: the
    caller never cancels, the print has no tunnel and no folder, the file has at
    most 1 GB, the server accepts the connection, the login and the transfer,
    whatever pieces its replies arrive in, and the printer takes the command: then
    the result is 0, all of the file has been sent to the server, which confirmed
    it under its name in the root, and the command for that path is published. *)
Theorem local_print_completes p e f w :
  (forall k, goes_on k) -> cooperates p e f -> by_tunnel p = false -> ftp_folder (naming p) = [] ->
  dev_ip p <> [] -> password p <> [] -> filename (naming p) <> [] ->
  exists w' new json, run_local_print_job abi cfg has_update cancel ca_bundle p e w = (0, w') /\ acts w' = acts w ++ new /\
    stored_by_ftp p e (slash :: remote_name p) new /\ command p (slash :: remote_name p) json /\ Publish (dev_id p) json 0 ∈ new.
Proof.
  intros Hgo Hco Hbt Hfolder Hip Hpw Hfn.
  assert (Hrc : exists w', run_local_print_job abi cfg has_update cancel ca_bundle p e w = (0, w')).
  { unfold run_local_print_job. set (w0 := set_ssl_for_ftp _ w). destruct (dev_ip p); [done|]. destruct (password p); [done|].
    destruct (filename (naming p)) eqn:Efn; [done|]. cbn [is_empty orb]. destruct (canc_on w0 Hgo) as [w1 ->].
    unfold upload_step. unfold by_tunnel in Hbt. rewrite Hbt, Hfolder. cbn [remote_folder last strip_leading_slash app].
    destruct (print_basename_ok (pick_remote_name (naming p))) as [Hname _].
    destruct (ftp_upload_completes p e f _ w1 Hgo Hco Hname) as (u & w2 & -> & -> & ->). cbn [negb Z.eqb default].
    destruct (canc_on w2 Hgo) as [w3 ->]. destruct (build_project_file_json _ _ _ _ _) as [json v].
    match goal with |- context [canc ?x] => destruct (canc_on x Hgo) as [w4 ->] end.
    destruct (co_printer _ _ _ Hco) as [-> Hpub]. cbn [negb]. unfold publish_step. rewrite Hpub. by eexists. }
  destruct Hrc as [w' Hrc]. exists w'. destruct (local_print_trace p e w 0 w' Hrc) as (new & Ha & T).
  inversion T; subst; try done. unfold stored in *. rewrite Hbt in *. rename select (stored_by_ftp _ _ _ _) into Hst.
  assert (path = slash :: remote_name p) as ->.
  { destruct Hst as (? & ? & ? & ? & _ & _ & Hp & _). rewrite Hfolder in Hp. apply placed_root in Hp; [done | apply print_basename_ok]. }
  eexists. exists json. split_and!; [done | exact Ha | | done|].
  - eapply stored_by_ftp_mono; [|exact Hst]. intros a Hin. by apply elem_of_app; left.
  - rewrite !elem_of_app, !elem_of_cons. auto 10.
Qed.
End traces.

(** ** Witnesses *)

Definition demo_file : cstr := str "G28".
Definition demo_replies : list Reply :=
  map one_line [str "331 who"; str "230 in"; str "200 type"; str "200 size"; str "200 private"].

Definition demo_dial : Dial :=
  {| verify_enabled := true; tcp_up := true; ctx_made := true; verify_setup := true; ssl_made := true; handshake_done := true;
     cn_matches := true;
     server_in := [Data (reply_wire (one_line (str "220 ready"))); Data (concat (map reply_wire demo_replies)); Data wire_sample];
     server_out := []; server_links := [link_sample []] |}.

Definition demo_env : Env :=
  {| e_file := {| lf_size := Some 3; lf_data := Some demo_file |}; e_dial := demo_dial;
     e_tunnel := {| t_connect := None; t_calls := []; t_outcome := fail_upload NoError |}; e_lan_up := true; e_pub := 0 |}.

Definition demo_world : World := {| acts := []; asked := 0; seq_counter := 7; ssl_for_ftp := false |}.

Lemma demo_cooperates : cooperates (str "printer.cer") demo_job demo_env demo_file.
Proof.
  split; try done.
  - split; [done | by apply Forall_nil].
  - exists (one_line (str "220 ready")), demo_replies, pasv_sample, 51213, go_sample, 150, done_sample, 226, [].
    destruct sample_answers as (H1 & H2 & H3). split_and!; try done; [by apply answers_one|].
    repeat (apply Forall2_cons; split; [by apply answers_one|]). apply Forall2_nil_2.
  - exists (link_sample []), []. split_and!; try done. by repeat constructor.
Qed.

Lemma local_print_completes_witness :
  exists w' new json, run_local_print_job 0x020801 default_settings true None (str "printer.cer") demo_job demo_env demo_world = (0, w') /\
    acts w' = acts demo_world ++ new /\ stored_by_ftp (str "printer.cer") demo_job demo_env (slash :: remote_name demo_job) new /\
    command 0x020801 default_settings demo_job (slash :: remote_name demo_job) json /\ Publish (dev_id demo_job) json 0 ∈ new.
Proof.
  apply (local_print_completes 0x020801 default_settings true None (str "printer.cer") demo_job demo_env demo_file demo_world);
    [done | apply demo_cooperates | done..].
Defined.

(** The caller cancels while the file is sent. *)
Definition demo_cancel (k : nat) : bool := (1 <=? k)%nat.

Lemma local_print_follows_witness :
  let r := run_local_print_job 0x020801 default_settings true (Some demo_cancel) (str "printer.cer") demo_job demo_env demo_world in
  r.1 = CANCELED /\ exists new, acts r.2 = [] ++ new /\ local_trace 0x020801 default_settings true (Some demo_cancel) (str "printer.cer") demo_job demo_env 0 CANCELED new.
Proof.
  cbv zeta. split; [by vm_compute|].
  refine (local_print_follows 0x020801 default_settings true (Some demo_cancel) (str "printer.cer") demo_job demo_env demo_world CANCELED _ _).
  vm_compute. reflexivity.
Defined.
