(* ===== verification/CoverCache.v ===== *)
(** The cover of the running print ([src/cover_cache.cpp]): images staged from
    archives the plugin uploads, the files they and the printer's copies are
    written to, and the fetches that write them, one lock at a step. *)

From S2P Require Import Prelude Text OMap ZipRead.
From coqutil Require Import Datatypes.RecordSetters.
Import DoubleBraceUpdate.

#[local] Delimit Scope string_scope with string.

(** ** Names and keys *)

Definition fnv1a_32 (s : cstr) : Z := foldl (fun h c => u32 (Z.lxor h (bz c) * 16777619)) 2166136261 s.

Definition sep : byte := zb 1.
Definition plate_no (plate_idx : Z) : Z := if 0 <? plate_idx then plate_idx else 1.

Definition staged_key (dev_id subtask_name : cstr) (plate_idx : Z) : cstr :=
  dev_id ++ [sep] ++ subtask_name ++ [sep] ++ dec (plate_no plate_idx).

Definition inflight_key (name : cstr) (plate : Z) (version : cstr) : cstr := dec plate ++ [sep] ++ name ++ [sep] ++ version.

Definition cover_name (subtask_name : cstr) (plate_idx : Z) (version : cstr) : cstr :=
  let keyed := match version with [] => subtask_name | _ => subtask_name ++ [sep] ++ version end in
  str "cover-" ++ hex8 (fnv1a_32 keyed) ++ str "-p" ++ dec (plate_no plate_idx) ++ str ".png".

(** [fs::path::operator/] with a relative name. *)
Definition join_path (dir name : cstr) : cstr :=
  match last dir with None => name | Some c => if beq c (zb 47) then dir ++ name else dir ++ [zb 47] ++ name end.

(** ** State *)

(** The steady clock counts nanoseconds. *)
Definition second : Z := 10 ^ 9.
Definition kNegCacheTimeout : Z := 60 * second.
Definition kStagedMaxAge : Z := 3 * 3600 * second.
Definition kMaxLocalThumbnailBytes : Z := Z.shiftl 4 20.

Record StagedCover := { png : list byte; source : cstr; staged_at : Z }.

(** A call of [ensure], and what its worker has. *)
Record Request := { r_host : cstr; r_dev : cstr; r_user : cstr; r_password : cstr; r_name : cstr; r_model : cstr; r_plate : Z; r_version : cstr }.

(** Where a worker is: before looking at the staged image, with one to write,
    before the connection, with the printer's image to write, before it notes the
    failure, before it gives up the key. *)
Inductive Stage := WStart | WWrite (bs : list byte) | WFetch | WGot (bs : list byte) | WMark | WRelease.

Record Worker := { w_req : Request; w_at : Stage }.

(** [claims] are the calls of [ensure] between their two locks; [files] is the
    cover directory. *)
Record Covers := {
  staged : list (cstr * StagedCover);
  neg_cache : list (cstr * Z);
  inflight : list cstr;
  files : list (cstr * list byte);
  claims : list Request;
  workers : list Worker }.

Definition no_covers : Covers := {| staged := []; neg_cache := []; inflight := []; files := []; claims := []; workers := [] |}.

Definition key_of (r : Request) : cstr := inflight_key (r_name r) (r_plate r) (r_version r).

(** ** The image of an archive *)

Section cache.
(** The decompressor and the checksum of [zip::read_entry], and the directory
    [temp_dir] gives. *)
Context (inflate : list byte -> nat -> option (list byte)) (crc32 : list byte -> Z) (temp_dir : cstr).

Definition path_for (subtask_name : cstr) (plate_idx : Z) (version : cstr) : cstr :=
  match subtask_name with [] => [] | _ => join_path temp_dir (cover_name subtask_name plate_idx version) end.

Definition plate_images (plate_idx : Z) : list cstr :=
  let n := dec (if plate_idx <? 1 then 1 else plate_idx) in
  [str "Metadata/plate_" ++ n ++ str ".png"; str "Metadata/plate_no_light_" ++ n ++ str ".png"].

(** The first of the entries that is there and not empty, with its name; the
    first error otherwise. *)
Fixpoint first_image (archive : option (list byte)) (names : list cstr) (first_err : cstr) : cstr + (list byte * cstr) :=
  match names with
  | [] => inl first_err
  | name :: names =>
      let next e := first_image archive names (match first_err with [] => name ++ str ": " ++ e | e => e end) in
      match read_entry inflate crc32 archive name kMaxLocalThumbnailBytes with
      | inr [] => next (str "empty entry")
      | inr data => inr (data, name)
      | inl [] => next (str "empty entry")
      | inl e => next e
      end
  end.

Definition read_local_thumbnail (archive : option (list byte)) (plate_idx : Z) : cstr + (list byte * cstr) :=
  first_image archive (plate_images plate_idx) [].

(** ** Staging *)

Definition fresh_at (now : Z) (e : cstr * StagedCover) : Prop := now - staged_at e.2 < kStagedMaxAge.
#[global] Instance fresh_at_dec now e : Decision (fresh_at now e).
Proof. unfold fresh_at. apply _. Defined.

(** [archive] is [None] when [path_3mf] cannot be opened. *)
Definition stage_from_3mf (dev_id subtask_name path_3mf : cstr) (archive : option (list byte)) (plate_idx now : Z) (s : Covers) : bool * Covers :=
  match subtask_name with
  | [] => (false, s)
  | _ =>
      let have := match path_3mf with [] => inl [] | _ => read_local_thumbnail archive plate_idx end in
      let kept := filter (fresh_at now) (staged s) in
      let key := staged_key dev_id subtask_name plate_idx in
      match have with
      | inl _ => (false, s {{ staged := om_erase key kept }})
      | inr (data, entry) =>
          (true, s {{ staged := om_set key {| png := data; source := path_3mf ++ str "#" ++ entry; staged_at := now |} kept }})
      end
  end.

Definition unstage (dev_id subtask_name : cstr) (plate_idx : Z) (s : Covers) : Covers :=
  s {{ staged := om_erase (staged_key dev_id subtask_name plate_idx) (staged s) }}.

(** The lookup of [write_staged], under its lock. *)
Definition take_staged (dev_id subtask_name : cstr) (plate_idx now : Z) (s : Covers) : option (list byte) * Covers :=
  let key := staged_key dev_id subtask_name plate_idx in
  match om_find key (staged s) with
  | None => (None, s)
  | Some c => if kStagedMaxAge <=? now - staged_at c then (None, s {{ staged := om_erase key (staged s) }}) else (Some (png c), s)
  end.

(** [write_atomic], by whether the file can be written, its closing included
    (whose result the code does not look at), and renamed. *)
Definition write_atomic (path : cstr) (bs : list byte) (ok : bool) (s : Covers) : Covers :=
  if ok then s {{ files := om_set path bs (files s) }} else s.

(** ** ensure *)

Definition is_neg_cached (key : cstr) (now : Z) (s : Covers) : bool * Covers :=
  match om_find key (neg_cache s) with
  | None => (false, s)
  | Some t => if kNegCacheTimeout <=? now - t then (false, s {{ neg_cache := om_erase key (neg_cache s) }}) else (true, s)
  end.

Definition mark_neg_cache (key : cstr) (now : Z) (s : Covers) : Covers := s {{ neg_cache := om_set key now (neg_cache s) }}.

(** A cover is there when its file has a byte. *)
Definition has_cover (path : cstr) (s : Covers) : bool := match om_find path (files s) with Some (_ :: _) => true | _ => false end.

(** The first part of [ensure], to the negative cache. *)
Definition ensure_check (r : Request) (now : Z) (s : Covers) : Covers :=
  match r_host r, r_name r with
  | [], _ | _, [] => s
  | _, _ =>
      if has_cover (path_for (r_name r) (r_plate r) (r_version r)) s then s
      else
        let '(neg, s) := is_neg_cached (key_of r) now s in
        if neg then s else s {{ claims := r :: claims s }}
  end.

(** The rest of the [i]-th call: the claim, and the thread. *)
Definition ensure_claim (i : nat) (s : Covers) : option Covers :=
  match claims s !! i with
  | None => None
  | Some r =>
      let s := s {{ claims := delete i (claims s) }} in
      Some (if bool_decide (key_of r ∈ inflight s) then s
            else s {{ inflight := key_of r :: inflight s }} {{ workers := workers s ++ [{| w_req := r; w_at := WStart |}] }})
  end.

(** ** The worker *)

(** What a worker meets: a file that is written or not, an image of the printer
    or none. *)
Inductive Meets := Lock | Write (ok : bool) | Printer (image : option (list byte)).

Definition to_stage (i : nat) (r : Request) (st : Stage) (s : Covers) : Covers :=
  s {{ workers := <[i := {| w_req := r; w_at := st |}]> (workers s) }}.

Definition worker_step (i : nat) (m : Meets) (now : Z) (s : Covers) : option Covers :=
  match workers s !! i with
  | None => None
  | Some {| w_req := r; w_at := st |} =>
      let path := path_for (r_name r) (r_plate r) (r_version r) in
      match st, m with
      | WStart, Lock =>
          let '(bs, s) := take_staged (r_dev r) (r_name r) (r_plate r) now s in
          Some (to_stage i r (match bs with Some bs => WWrite bs | None => WFetch end) s)
      | WWrite bs, Write ok => Some (to_stage i r (if ok then WRelease else WFetch) (write_atomic path bs ok s))
      | WFetch, Printer image => Some (to_stage i r (match image with Some bs => WGot bs | None => WMark end) s)
      | WGot bs, Write ok => Some (to_stage i r (if ok then WRelease else WMark) (write_atomic path bs ok s))
      | WMark, Lock => Some (to_stage i r WRelease (mark_neg_cache (key_of r) now s))
      | WRelease, Lock =>
          Some (s {{ inflight := filter (fun k => k <> key_of r) (inflight s) }} {{ workers := delete i (workers s) }})
      | _, _ => None
      end
  end.

(** ** Together *)

(** What a call of the first two does to the staged images: the printer, the
    name and the plate it is for, and the image it leaves for them, if any. *)
Record Change := { ch_dev : cstr; ch_name : cstr; ch_plate : Z; ch_png : option (list byte) }.

Definition staged_by (dev name path : cstr) (archive : option (list byte)) (plate : Z) : list Change :=
  match name with
  | [] => []
  | _ => [{| ch_dev := dev; ch_name := name; ch_plate := plate;
             ch_png := match path, read_local_thumbnail archive plate with [], _ => None | _, inl _ => None | _, inr (data, _) => Some data end |}]
  end.

Inductive step : Covers -> list Change -> Covers -> Prop :=
| step_stage dev name path archive plate now s :
    step s (staged_by dev name path archive plate) (stage_from_3mf dev name path archive plate now s).2
| step_unstage dev name plate s : step s [{| ch_dev := dev; ch_name := name; ch_plate := plate; ch_png := None |}] (unstage dev name plate s)
| step_ensure r now s : step s [] (ensure_check r now s)
| step_claim i s s' : ensure_claim i s = Some s' -> step s [] s'
| step_worker i m now s s' : worker_step i m now s = Some s' -> step s [] s'.

Inductive reachable : list Change -> Covers -> Prop :=
| reach_start : reachable [] no_covers
| reach_step tr s ch s' : reachable tr s -> step s ch s' -> reachable (tr ++ ch) s'.

Lemma reach_quiet tr s s' : reachable tr s -> step s [] s' -> reachable tr s'.
Proof. intros H Hs. rewrite <- (app_nil_r tr). by eapply reach_step. Qed.

(** ** One worker for a key *)

Definition keys (s : Covers) : list cstr := (fun w => key_of (w_req w)) <$> workers s.

Definition Inv (s : Covers) : Prop := NoDup (keys s) /\ inflight s ≡ₚ keys s.

Lemma to_stage_keys i r st st' s :
  workers s !! i = Some {| w_req := r; w_at := st |} -> keys (to_stage i r st' s) = keys s /\ inflight (to_stage i r st' s) = inflight s.
Proof.
  intros H. split; [|by destruct s]. unfold keys.
  replace (workers (to_stage i r st' s)) with (<[i := {| w_req := r; w_at := st' |}]> (workers s)) by by destruct s.
  rewrite list_fmap_insert. apply list_insert_id. by rewrite list_lookup_fmap, H.
Qed.

Lemma same_inv s s' : keys s' = keys s -> inflight s' = inflight s -> Inv s -> Inv s'.
Proof. unfold Inv. by intros -> ->. Qed.

Lemma filter_out {A} `{EqDecision A} (k : A) (l : list A) : k ∉ l -> filter (fun x => x <> k) l = l.
Proof.
  induction l as [|x l IH]; intros H; [done|]. rewrite not_elem_of_cons in H. destruct H as [Hx H]. rewrite filter_cons_True by (intros ->; done). by rewrite IH.
Qed.

Lemma step_inv s ch s' : step s ch s' -> Inv s -> Inv s'.
Proof.
  intros [dev name path archive plate now s0|dev name plate s0|r now s0|i s0 s1 H|i m now s0 s1 H].
  - apply same_inv; unfold stage_from_3mf; destruct name; try done; destruct (match path with [] => _ | _ => _ end) as [e|[data e]]; by destruct s0.
  - apply same_inv; by destruct s0.
  - apply same_inv; unfold ensure_check, is_neg_cached; destruct (r_host r), (r_name r); try done; destruct (has_cover _ s0); try done;
      destruct (om_find _ _) as [t|]; try (by destruct s0); destruct (_ <=? _); by destruct s0.
  - unfold ensure_claim in H. destruct (claims s0 !! i) as [r|] eqn:E; [|done]. injection H as <-. intros [Hnd Hp].
    change (inflight (s0 {{ claims := delete i (claims s0) }})) with (inflight s0). case_bool_decide as Hin; [done|].
    match goal with |- Inv ?x => set (s1 := x) end. assert (EW : workers s1 = workers s0 ++ [{| w_req := r; w_at := WStart |}]) by by destruct s0.
    assert (EI : inflight s1 = key_of r :: inflight s0) by by destruct s0. unfold Inv, keys. rewrite EW, EI, fmap_app. fold (keys s0). split.
    + apply NoDup_app. split_and!; [done | | apply NoDup_singleton]. intros k Hk ->%list_elem_of_singleton. apply Hin. by rewrite Hp.
    + rewrite Hp. apply Permutation_cons_append.
  - unfold worker_step in H. destruct (workers s0 !! i) as [[r st]|] eqn:E; [|done].
    assert (Hst : forall st' s2, workers s2 = workers s0 -> inflight s2 = inflight s0 -> Inv s0 -> Inv (to_stage i r st' s2)).
    { intros st' s2 Hw Hi. assert (E2 : workers s2 !! i = Some {| w_req := r; w_at := st |}) by by rewrite Hw.
      destruct (to_stage_keys i r st st' s2 E2) as [K I]. apply same_inv; [rewrite K; unfold keys; by rewrite Hw | by rewrite I]. }
    destruct st, m; try done.
    + unfold take_staged in H. destruct (om_find _ _) as [c|]; [destruct (_ <=? _)|]; injection H as <-; apply Hst; by destruct s0.
    + injection H as <-. unfold write_atomic. apply Hst; destruct ok; by destruct s0.
    + injection H as <-. by apply Hst.
    + injection H as <-. unfold write_atomic. apply Hst; destruct ok; by destruct s0.
    + injection H as <-. apply Hst; by destruct s0.
    + injection H as <-. intros [Hnd Hp]. match goal with |- Inv ?x => set (s1 := x) end.
      assert (EW : workers s1 = delete i (workers s0)) by by destruct s0.
      assert (EI : inflight s1 = filter (fun k => k <> key_of r) (inflight s0)) by by destruct s0.
      apply list_elem_of_split_length in E as (l1 & l2 & El & ->). unfold Inv, keys in *. rewrite EW, EI, El, delete_middle.
      rewrite El, fmap_app, fmap_cons in Hnd, Hp. rewrite fmap_app. cbn [w_req] in *.
      rewrite Hp, filter_app, filter_cons_False by (intros Hn; by apply Hn).
      apply NoDup_app in Hnd as (N1 & N2 & N3). apply NoDup_cons in N3 as [N3 N4].
      rewrite !filter_out; [|done | intros Hk; apply (N2 _ Hk); by left]. split; [|done]. apply NoDup_app. split_and!; [done | | done].
      intros k Hk Hk2. apply (N2 k Hk). by right.
Qed.

Lemma reachable_inv tr s : reachable tr s -> Inv s.
Proof. induction 1 as [|tr s ch s' _ IH H]; [|by eapply step_inv]. split; [by apply NoDup_nil | done]. Qed.

(** *** Workers end *)

Definition rank (st : Stage) : nat := match st with WStart => 5 | WWrite _ => 4 | WFetch => 3 | WGot _ => 2 | WMark => 1 | WRelease => 0 end.
Definition work (s : Covers) : nat := sum_list_with (fun w => S (rank (w_at w))) (workers s).

Lemma sum_update {A} (f : A -> nat) i x y (l : list A) : l !! i = Some x -> (sum_list_with f (<[i := y]> l) + f x = sum_list_with f l + f y)%nat.
Proof. revert i. induction l as [|z l IH]; intros [|i] H; simpl in *; [done..|injection H as ->; lia|]. specialize (IH i H). simpl in *. lia. Qed.

Lemma sum_delete {A} (f : A -> nat) i x (l : list A) : l !! i = Some x -> (sum_list_with f (delete i l) + f x = sum_list_with f l)%nat.
Proof. revert i. induction l as [|z l IH]; intros [|i] H; simpl in *; [done..|injection H as ->; lia|]. specialize (IH i H). simpl in *. lia. Qed.

Lemma to_stage_work i r st st' s s2 :
  workers s !! i = Some {| w_req := r; w_at := st |} -> workers s2 = workers s -> (rank st' < rank st)%nat -> (work (to_stage i r st' s2) < work s)%nat.
Proof.
  intros H Hw Hr. unfold work. replace (workers (to_stage i r st' s2)) with (<[i := {| w_req := r; w_at := st' |}]> (workers s)) by (rewrite <- Hw; by destruct s2).
  pose proof (sum_update (fun w => S (rank (w_at w))) i _ {| w_req := r; w_at := st' |} _ H) as Hs. cbn [w_at] in Hs. lia.
Qed.

Lemma worker_step_work i m now s s' : worker_step i m now s = Some s' -> (work s' < work s)%nat.
Proof.
  intros H. unfold worker_step in H. destruct (workers s !! i) as [[r st]|] eqn:E; [|done]. destruct st, m; try done.
  - unfold take_staged in H. destruct (om_find _ _) as [c|]; [destruct (_ <=? _)|]; injection H as <-; (eapply to_stage_work; [exact E | by destruct s | simpl; lia]).
  - injection H as <-. unfold write_atomic. destruct ok; (eapply to_stage_work; [exact E | by destruct s | simpl; lia]).
  - injection H as <-. destruct image; (eapply to_stage_work; [exact E | done | simpl; lia]).
  - injection H as <-. unfold write_atomic. destruct ok; (eapply to_stage_work; [exact E | by destruct s | simpl; lia]).
  - injection H as <-. eapply to_stage_work; [exact E | by destruct s | simpl; lia].
  - injection H as <-. match goal with |- (work ?x < _)%nat => replace (work x) with (sum_list_with (fun w => S (rank (w_at w))) (delete i (workers s))) by by destruct s end.
    pose proof (sum_delete (fun w => S (rank (w_at w))) i _ _ E) as Hs. cbn [w_at rank] in Hs. unfold work. lia.
Qed.

Lemma worker_can_step i s w : workers s !! i = Some w -> exists m s', worker_step i m 0 s = Some s'.
Proof.
  destruct w as [r st]. intros E. unfold worker_step. rewrite E. destruct st.
  - exists Lock. destruct (take_staged _ _ _ _ s) as [b s1]. by eexists.
  - exists (Write true). by eexists.
  - exists (Printer None). by eexists.
  - exists (Write true). by eexists.
  - exists Lock. by eexists.
  - exists Lock. by eexists.
Qed.

(** C14: Whatever calls and fetches interleave, no two fetches run for one cover:
    the keys in flight are exactly those of the fetches that run, each once. Every
    fetch can go on and each of its steps brings it nearer to its end, so it gives
    its key up after at most six. *)
Theorem fetches_exclusive tr s :
  reachable tr s ->
  NoDup (keys s) /\ inflight s ≡ₚ keys s /\
  (forall i w, workers s !! i = Some w -> exists m s', worker_step i m 0 s = Some s') /\
  (forall i m now s', worker_step i m now s = Some s' -> (work s' < work s)%nat).
Proof.
  intros H%reachable_inv. destruct H as [H1 H2]. split_and!; [done | done | intros; by eapply worker_can_step | intros; by eapply worker_step_work].
Qed.

(** ** The staged image is the latest *)

Definition ch_key (ch : Change) : cstr := staged_key (ch_dev ch) (ch_name ch) (ch_plate ch).

(** The image the last change of a key left. *)
Definition latest_of (own : Change -> bool) (tr : list Change) : option (list byte) :=
  foldl (fun acc ch => if own ch then ch_png ch else acc) None tr.

Definition by_key (key : cstr) (ch : Change) : bool := bool_decide (ch_key ch = key).
Definition for_print (dev name : cstr) (plate : Z) (ch : Change) : bool :=
  bool_decide (ch_dev ch = dev) && bool_decide (ch_name ch = name) && (plate_no (ch_plate ch) =? plate_no plate).

Definition staged_ok (tr : list Change) (m : list (cstr * StagedCover)) : Prop :=
  ascending m /\ forall key c, om_find key m = Some c -> latest_of (by_key key) tr = Some (png c).

Lemma find_filter (P : cstr * StagedCover -> Prop) `{Hd : forall x, Decision (P x)} m key c :
  ascending m -> om_find key (filter P m) = Some c -> om_find key m = Some c.
Proof. intros Ha H%om_find_elem. apply list_elem_of_filter in H as [_ H]. by apply om_elem_find. Qed.

Lemma latest_snoc own tr ch : latest_of own (tr ++ [ch]) = if own ch then ch_png ch else latest_of own tr.
Proof. unfold latest_of. by rewrite foldl_app. Qed.

Lemma staged_filter tr m (P : cstr * StagedCover -> Prop) `{Hd : forall x, Decision (P x)} : staged_ok tr m -> staged_ok tr (filter P m).
Proof. intros [Ha H]. split; [by apply ascending_filter|]. intros key c Hf. eapply H, find_filter; done. Qed.

Lemma staged_erase tr m ch key : ch_key ch = key -> staged_ok tr m -> ch_png ch = None -> staged_ok (tr ++ [ch]) (om_erase key m).
Proof.
  intros Hk [Ha H] Hn. split; [by apply ascending_filter|]. intros key' c Hf. rewrite latest_snoc. unfold by_key.
  destruct (decide (key = key')) as [->|Hne]; [by rewrite om_find_erase in Hf|]. rewrite bool_decide_eq_false_2 by congruence.
  rewrite om_find_erase_ne in Hf by done. by apply H.
Qed.

Lemma staged_set tr m ch key c : ch_key ch = key -> staged_ok tr m -> ch_png ch = Some (png c) -> staged_ok (tr ++ [ch]) (om_set key c m).
Proof.
  intros Hk [Ha H] Hn. split; [by apply ascending_set|]. intros key' c' Hf. rewrite latest_snoc. unfold by_key.
  destruct (decide (key = key')) as [<-|Hne].
  - rewrite om_find_set in Hf. injection Hf as <-. by rewrite bool_decide_eq_true_2.
  - rewrite bool_decide_eq_false_2 by congruence. rewrite om_find_set_ne in Hf by done. by apply H.
Qed.

Lemma take_staged_ok tr dev name plate now s bs s' :
  staged_ok tr (staged s) -> take_staged dev name plate now s = (bs, s') ->
  staged_ok tr (staged s') /\ workers s' = workers s /\ files s' = files s /\
  match bs with Some bs => latest_of (by_key (staged_key dev name plate)) tr = Some bs | None => True end.
Proof.
  intros Hs. unfold take_staged. destruct (om_find _ (staged s)) as [c|] eqn:E; [|by intros [= <- <-]].
  destruct (_ <=? _); intros [= <- <-].
  - split_and!; [|by destruct s | by destruct s | done]. match goal with |- staged_ok _ (staged ?x) => replace (staged x) with (om_erase (staged_key dev name plate) (staged s)) by by destruct s end.
    by apply staged_filter.
  - split_and!; try done. by apply Hs.
Qed.

Lemma step_staged tr s ch s' : step s ch s' -> staged_ok tr (staged s) -> staged_ok (tr ++ ch) (staged s').
Proof.
  intros [dev name path archive plate now s0|dev name plate s0|r now s0|i s0 s1 H|i m now s0 s1 H] Hs; try rewrite app_nil_r.
  - unfold stage_from_3mf, staged_by. destruct name as [|n name]; [by rewrite app_nil_r|]. cbv zeta.
    pose proof (staged_filter tr (staged s0) (fresh_at now) Hs) as Hk. destruct path as [|x path]; [|destruct (read_local_thumbnail archive plate) as [e|[data e]]].
    + replace (staged _) with (om_erase (staged_key dev (n :: name) plate) (filter (fresh_at now) (staged s0))) by by destruct s0. by apply staged_erase.
    + replace (staged _) with (om_erase (staged_key dev (n :: name) plate) (filter (fresh_at now) (staged s0))) by by destruct s0. by apply staged_erase.
    + match goal with |- staged_ok _ (staged ?y) => replace (staged y) with
        (om_set (staged_key dev (n :: name) plate) {| png := data; source := (x :: path) ++ str "#" ++ e; staged_at := now |} (filter (fresh_at now) (staged s0))) by by destruct s0 end.
      by apply staged_set.
  - replace (staged _) with (om_erase (staged_key dev name plate) (staged s0)) by by destruct s0. by apply staged_erase.
  - enough (staged (ensure_check r now s0) = staged s0) as -> by done. unfold ensure_check, is_neg_cached.
    destruct (r_host r), (r_name r); try done; destruct (has_cover _ s0); try done; destruct (om_find _ _) as [t|]; try (by destruct s0); destruct (_ <=? _); by destruct s0.
  - unfold ensure_claim in H. destruct (claims s0 !! i); [|done]. injection H as <-. destruct s0. by case_bool_decide.
  - unfold worker_step in H. destruct (workers s0 !! i) as [[r st]|]; [|done].
    destruct st, m; try done; try (injection H as <-; unfold write_atomic; repeat match goal with b : bool |- _ => destruct b end; by destruct s0).
    destruct (take_staged _ _ _ _ s0) as [b s2] eqn:Et. apply (take_staged_ok tr) in Et as (Hs2 & _); [|done]. injection H as <-. by destruct s2.
Qed.

Lemma reachable_staged tr s : reachable tr s -> staged_ok tr (staged s).
Proof. induction 1 as [|tr s ch s' _ IH H]; [by split|]. by eapply step_staged. Qed.

(** *** Keys of different prints *)

Definition plain (s : cstr) : Prop := Forall (fun d => beq d sep = false) s.

Lemma dec_no_sep p : 0 < p -> plain (dec p) /\ undec (dec p) = p.
Proof.
  intros Hp. unfold dec. rewrite (proj2 (Z.ltb_ge _ _)) by lia. split; [|apply undec_dec; lia].
  destruct (dec_nonneg_spec p) as (_ & Hd & _); [lia|]. eapply Forall_impl; [exact Hd|]. intros c Hc.
  byte_fact (fun c => negb (is_digit c) || negb (beq c sep)) c H. rewrite Hc in H. by destruct (beq c sep).
Qed.

Lemma plate_no_pos p : 0 < plate_no p.
Proof. unfold plate_no. destruct (Z.ltb_spec 0 p); lia. Qed.

Lemma staged_key_inj dev dev' name name' p p' :
  plain dev -> plain dev' -> staged_key dev name p = staged_key dev' name' p' -> dev = dev' /\ name = name' /\ plate_no p = plate_no p'.
Proof.
  intros Hd Hd' H. unfold staged_key in H. apply app_sep_inj in H as [-> H]; [|done..]. split; [done|].
  destruct (dec_no_sep _ (plate_no_pos p)) as [P1 U1]. destruct (dec_no_sep _ (plate_no_pos p')) as [P2 U2].
  apply (f_equal reverse) in H. cbn [app] in H. rewrite !reverse_app, !reverse_cons, <- !app_assoc in H. cbn [app] in H.
  apply app_sep_inj in H as [E1 E2]; [|by apply Forall_reverse..].
  apply (f_equal reverse) in E1, E2. rewrite !reverse_involutive in E1, E2. split; [done|]. by rewrite <- U1, E1, U2.
Qed.

Lemma latest_for_print dev name plate tr :
  plain dev -> Forall (fun ch => plain (ch_dev ch)) tr ->
  latest_of (by_key (staged_key dev name plate)) tr = latest_of (for_print dev name plate) tr.
Proof.
  intros Hd. induction tr as [|ch tr IH] using rev_ind; intros H; [done|]. apply Forall_app in H as [H [Hc _]%Forall_cons].
  rewrite !latest_snoc, IH by done. unfold by_key, for_print, ch_key.
  enough (bool_decide (staged_key (ch_dev ch) (ch_name ch) (ch_plate ch) = staged_key dev name plate) =
          bool_decide (ch_dev ch = dev) && bool_decide (ch_name ch = name) && (plate_no (ch_plate ch) =? plate_no plate)) as -> by done.
  case_bool_decide as E.
  - apply staged_key_inj in E as (E1 & E2 & E3); [|done..]. by rewrite !bool_decide_eq_true_2, E3, Z.eqb_refl by done.
  - symmetry. apply not_true_iff_false. intros [[E1%bool_decide_eq_true_1 E2%bool_decide_eq_true_1]%andb_prop E3%Z.eqb_eq]%andb_prop.
    apply E. unfold staged_key. by rewrite E1, E2, E3.
Qed.

(** C13: What a fetch takes without asking the printer is the image of the latest
    archive that was staged for its printer, name and plate, and only if that
    archive had one and was not taken back since: never an earlier print's image,
    nor another printer's or plate's. When it can write, that image is the cover,
    byte for byte. *)
Theorem staged_cover_own tr s i r now s' bs :
  reachable tr s -> plain (r_dev r) -> Forall (fun ch => plain (ch_dev ch)) tr ->
  workers s !! i = Some {| w_req := r; w_at := WStart |} ->
  worker_step i Lock now s = Some s' -> workers s' !! i = Some {| w_req := r; w_at := WWrite bs |} ->
  latest_of (for_print (r_dev r) (r_name r) (r_plate r)) tr = Some bs /\
  forall now', exists s2, worker_step i (Write true) now' s' = Some s2 /\ om_find (path_for (r_name r) (r_plate r) (r_version r)) (files s2) = Some bs /\
    workers s2 !! i = Some {| w_req := r; w_at := WRelease |}.
Proof.
  intros Hr%reachable_staged Hd Htr Hw H Hb. unfold worker_step in H. rewrite Hw in H.
  destruct (take_staged _ _ _ _ s) as [b s1] eqn:Et. apply (take_staged_ok tr) in Et as (_ & Ew & _ & Hl); [|done]. injection H as <-.
  assert (Hi : (i < length (workers s1))%nat) by (rewrite Ew; by eapply lookup_lt_Some).
  assert (Hst : forall st s0, (i < length (workers s0))%nat -> workers (to_stage i r st s0) !! i = Some {| w_req := r; w_at := st |}).
  { intros st s0 Hl0. replace (workers (to_stage i r st s0)) with (<[i := {| w_req := r; w_at := st |}]> (workers s0)) by by destruct s0. by apply list_lookup_insert_eq. }
  rewrite Hst in Hb by done. destruct b as [b|]; [|done]. injection Hb as ->. split; [by rewrite <- latest_for_print|].
  intros now'. unfold worker_step at 1. rewrite Hst by done. eexists. split; [reflexivity|]. split.
  - unfold write_atomic. destruct s1. cbn. apply om_find_set.
  - apply Hst. match goal with |- (i < length ?l)%nat => replace l with (<[i := {| w_req := r; w_at := WWrite bs |}]> (workers s1)) by by destruct s1 end.
    by rewrite length_insert.
Qed.
End cache.

(** ** Witnesses *)

Definition demo_png : list byte := [zb 0x89; zb 0x50].
Definition demo_entry : Entry := sample_entry (str "Metadata/plate_1.png") demo_png demo_png 0.
Definition demo_archive : list byte := archive_of crc32_ieee [gcode_entry; demo_entry] [].
Definition demo_request : Request :=
  {| r_host := str "10.0.0.2"; r_dev := str "01S00"; r_user := []; r_password := []; r_name := str "cube"; r_model := []; r_plate := 1; r_version := str "7" |}.

Definition demo_tmp : cstr := str "/tmp/obn-covers".
Definition demo_staged : Covers := (stage_from_3mf inflate_stored crc32_ieee (str "01S00") (str "cube") (str "/a.3mf") (Some demo_archive) 0 5 no_covers).2.
Definition demo_asked : Covers := ensure_check demo_tmp demo_request 6 demo_staged.
Definition demo_running : Covers := default no_covers (ensure_claim 0 demo_asked).
Definition demo_taken : Covers := default no_covers (worker_step demo_tmp 0 Lock 7 demo_running).
Definition demo_changes : list Change := staged_by inflate_stored crc32_ieee (str "01S00") (str "cube") (str "/a.3mf") (Some demo_archive) 0.

Lemma demo_reachable : reachable inflate_stored crc32_ieee demo_tmp demo_changes demo_running.
Proof.
  apply (reach_quiet _ _ _ _ demo_asked); [|apply (step_claim _ _ _ 0); vm_compute; reflexivity].
  apply (reach_quiet _ _ _ _ demo_staged); [|apply step_ensure].
  apply (reach_step _ _ _ [] no_covers demo_changes demo_staged); [apply reach_start | apply step_stage].
Qed.

Lemma fetches_exclusive_witness :
  NoDup (keys demo_running) /\ inflight demo_running ≡ₚ keys demo_running /\
  (forall i w, workers demo_running !! i = Some w -> exists m s', worker_step demo_tmp i m 0 demo_running = Some s') /\
  (forall i m now s', worker_step demo_tmp i m now demo_running = Some s' -> (work s' < work demo_running)%nat).
Proof. apply (fetches_exclusive inflate_stored crc32_ieee demo_tmp demo_changes demo_running). apply demo_reachable. Defined.

Lemma staged_cover_own_witness :
  latest_of (for_print (str "01S00") (str "cube") 1) demo_changes = Some demo_png /\
  forall now', exists s2, worker_step demo_tmp 0 (Write true) now' demo_taken = Some s2 /\
    om_find (path_for demo_tmp (str "cube") 1 (str "7")) (files s2) = Some demo_png /\
    workers s2 !! 0%nat = Some {| w_req := demo_request; w_at := WRelease |}.
Proof.
  apply (staged_cover_own inflate_stored crc32_ieee demo_tmp demo_changes demo_running 0 demo_request 7 demo_taken demo_png);
    [apply demo_reachable | by repeat constructor | by repeat constructor | vm_compute; reflexivity..].
Defined.

(** Plates 0 and 1 are one file but two keys: two fetches may write it. *)
Example two_fetches_one_file :
  let r0 := demo_request {{ r_plate := 0 }} in
  let s := ensure_check demo_tmp r0 6 (ensure_check demo_tmp demo_request 6 no_covers) in
  let s := default no_covers (ensure_claim 0 (default no_covers (ensure_claim 0 s))) in
  length (workers s) = 2%nat /\ path_for demo_tmp (r_name r0) (r_plate r0) (r_version r0) = path_for demo_tmp (str "cube") 1 (str "7").
Proof. by vm_compute. Qed.
