(* ===== verification/CoverServer.v ===== *)
(** The HTTP server Studio reads covers from ([src/cover_server.cpp]): one
    request and its answer, and the address a cover is given. *)

From S2P Require Import Prelude Text Naming CoverCache.

#[local] Delimit Scope string_scope with string.

(** ** Names *)

Definition slash : byte := zb 47.
Definition backslash : byte := zb 92.
Definition contains (needle s : cstr) : bool := match find_str needle s with Some _ => true | None => false end.

Definition safe_basename (s : cstr) : bool :=
  if (length s =? 0)%nat || (64 <? length s)%nat then false
  else if contains [slash] s then false
  else if contains [backslash] s then false
  else if contains (str "..") s then false
  else if negb (starts_with (str "cover-") s) then false
  else ends_with s (str ".png").

(** [fs::path::filename]. *)
Definition filename (path : cstr) : cstr := match rfind_if (beq slash) path with None => path | Some i => drop (i + 1) path end.

(** ** The request *)

Definition kBuf : nat := Z.to_nat 4095.
Definition crlf2 : cstr := [zb 13; zb 10; zb 13; zb 10].

(** A text in a [char] buffer: up to its first NUL. *)
Definition c_str (s : cstr) : cstr := (span (fun c => negb (beq c x00)) s).1.

(** The loop of [recv]: each call gets what is there, at most what fits; it
    ends at the end of the header, when the buffer is full or when nothing comes. *)
Fixpoint recv_header (got : cstr) (arriving : list cstr) : cstr :=
  match arriving with
  | [] | [] :: _ => got
  | bs :: arriving =>
      if (length got <? kBuf)%nat then
        let got' := got ++ take (kBuf - length got) bs in
        if contains crlf2 (c_str got') then got' else recv_header got' arriving
      else got
  end.

(** The method and the target. *)
Definition request_line (buf : cstr) : option (cstr * cstr) :=
  match find_char (zb 32) buf with
  | None => None
  | Some i =>
      match find_char (zb 32) (drop (S i) buf) with
      | None => None
      | Some j => Some (take i buf, take j (drop (S i) buf))
      end
  end.

Definition strip_query (target : cstr) : cstr := match find_char (zb 63) target with Some i => take i target | None => target end.

Definition kPrefix : cstr := str "/cover/".

(** ** The answer *)

Definition crlf : cstr := [zb 13; zb 10].

Definition send_status (code : Z) (reason : cstr) : cstr :=
  str "HTTP/1.1 " ++ dec code ++ str " " ++ reason ++ crlf ++ str "Connection: close" ++ crlf ++ str "Content-Length: 0" ++ crlf ++ crlf.

Definition unavailable : cstr :=
  str "HTTP/1.1 503 Service Unavailable" ++ crlf ++ str "Connection: close" ++ crlf ++ str "Content-Length: 0" ++ crlf ++ crlf.

Definition ok_header (size : Z) : cstr :=
  str "HTTP/1.1 200 OK" ++ crlf ++ str "Connection: close" ++ crlf ++ str "Content-Type: image/png" ++ crlf ++
  str "Cache-Control: no-store" ++ crlf ++ str "Content-Length: " ++ dec size ++ crlf ++ crlf.

(** 15 s in steps of 100 ms. *)
Definition kWaits : nat := 150.

(** The checks for the file until it is there: how many were made. *)
Fixpoint wait_for (present : nat -> bool) (n k : nat) : nat :=
  match n with O => k | S n => if present k then S k else wait_for present n (S k) end.

Section server.
(** The directory of the covers, [OBN_COVER_DEBUG_FILE], and the files: whether
    one is there at each check, and its contents when it can be read. *)
Context (temp_dir : cstr) (debug_file : option cstr) (present : cstr -> nat -> bool) (contents : cstr -> option (list byte)).

Definition full_path (base : cstr) : cstr :=
  match debug_file with
  | Some (c :: o) => c :: o
  | _ => join_path temp_dir base
  end.

Definition read_file (p : cstr) : list byte := default [] (contents p).

(** What is sent, and the file that was opened for it. *)
Definition serve (get : bool) (full : cstr) : cstr * option cstr :=
  let k := wait_for (present full) kWaits 0 in
  if present full k then
    let body := read_file full in
    (ok_header (zlen body) ++ (if get then body else []), Some full)
  else (unavailable, None).

Definition handle_one (arriving : list cstr) : cstr * option cstr :=
  match request_line (c_str (recv_header [] arriving)) with
  | None => (send_status 400 (str "Bad Request"), None)
  | Some (method, target) =>
      let named m := bool_decide (method = str m) in
      if negb (named "GET"%string) && negb (named "HEAD"%string) then (send_status 405 (str "Method Not Allowed"), None)
      else
        let target := strip_query target in
        if negb (starts_with kPrefix target) then (send_status 404 (str "Not Found"), None)
        else
          let base := drop (length kPrefix) target in
          if negb (safe_basename base) then (send_status 404 (str "Not Found"), None)
          else serve (named "GET"%string) (full_path base)
  end.

(** ** The address *)

Definition origin (port : Z) : cstr := str "http://127.0.0.1:" ++ dec port.

Definition url_for (port : Z) (subtask_name : cstr) (plate_idx : Z) (version : cstr) : cstr :=
  if (port <=? 0) || (length subtask_name =? 0)%nat then []
  else
    match path_for temp_dir subtask_name plate_idx version with
    | [] => []
    | path => origin port ++ str "/cover/" ++ filename path
    end.
End server.

(** ** What may be opened *)

Lemma contains_char c s : contains [c] s = false -> Forall (fun x => x <> c) s.
Proof.
  unfold contains. intros H. destruct (find_str [c] s) eqn:E; [done|]. clear H. induction s as [|x s IH]; [by apply Forall_nil|].
  cbn [find_str starts_with] in E. destruct (beq_spec c x) as [->|Hne]; [by destruct s|]. cbn [andb] in E.
  apply Forall_cons. split; [congruence|]. apply IH. by destruct (find_str [c] s).
Qed.

(** C15: Whatever a client sends, the server opens no file but a cover: one
    directly in the cover directory, with a name of at most 64 bytes that starts
    with [cover-], ends with [.png] and has neither a separator nor two dots in a
    row. (The file an environment variable names is served instead when it is set.) *)
Theorem opens_only_covers temp_dir present contents arriving sent full :
  handle_one temp_dir None present contents arriving = (sent, Some full) ->
  exists base, full = join_path temp_dir base /\ Forall (fun x => x <> slash /\ x <> backslash) base /\ contains (str "..") base = false /\
    starts_with (str "cover-") base = true /\ ends_with base (str ".png") = true /\ (length base <= 64)%nat.
Proof.
  unfold handle_one. destruct (request_line _) as [[m t]|]; [|done]. destruct (_ && _); [done|]. destruct (starts_with kPrefix _); [|done].
  cbn [negb]. set (base := drop _ _). clearbody base. destruct (safe_basename base) eqn:E; [|done]. cbn [negb]. unfold serve, full_path.
  destruct (present _ _); [|done]. intros [= _ <-]. exists base. unfold safe_basename in E.
  destruct ((length base =? 0)%nat || (64 <? length base)%nat) eqn:E1; [done|]. apply orb_false_iff in E1 as [_ E1%Nat.ltb_ge].
  destruct (contains [slash] base) eqn:E2; [done|]. destruct (contains [backslash] base) eqn:E3; [done|].
  destruct (contains (str "..") base); [done|]. destruct (starts_with (str "cover-") base); [|done]. split_and!; try done.
  apply contains_char in E2, E3. apply Forall_and. by split.
Qed.

(** ** Cover names *)

Definition word (c : byte) : bool := is_alnum c || beq c (zb 45).

Lemma word_facts c : word c = true ->
  beq slash c = false /\ c <> slash /\ c <> backslash /\ c <> zb 46 /\ c <> zb 32 /\ c <> zb 63 /\ c <> x00 /\ c <> zb 13.
Proof.
  intros Hc. byte_fact (fun c => negb (word c) || (negb (beq c slash) && negb (beq c backslash) && negb (beq c (zb 46)) && negb (beq c (zb 32)) && negb (beq c (zb 63)) && negb (beq c x00) && negb (beq c (zb 13)))) c H.
  rewrite Hc in H. cbn [negb orb] in H. rewrite !andb_true_iff, !negb_true_iff in H. destruct H as [[[[[[H1 H2] H3] H4] H5] H6] H7].
  assert (Hne : forall d, beq c d = false -> c <> d) by (intros d Hd ->; by rewrite beq_refl in Hd).
  split_and!; [by rewrite beq_sym | by apply Hne..].
Qed.

Lemma hex_word d : 0 <= d < 16 -> word (hex_lower d) = true.
Proof.
  intros Hd. assert (H : forallb (fun d => word (hex_lower d)) (seqZ 0 16) = true) by by vm_compute.
  rewrite forallb_forall in H. apply H, list_elem_of_In, elem_of_seqZ. lia.
Qed.

Lemma digits_are_words n : 0 <= n -> Forall (fun c => word c = true) (dec_nonneg n).
Proof.
  intros Hn. destruct (dec_nonneg_spec n Hn) as (_ & Hd & _). eapply Forall_impl; [exact Hd|]. intros c Hc.
  unfold word, is_alnum. by rewrite Hc, orb_true_r.
Qed.

(** A name is words and [.png]. *)
Lemma cover_name_words name plate version :
  exists w, cover_name name plate version = str "cover-" ++ w ++ str ".png" /\ Forall (fun c => word c = true) w /\
    (plate < 2 ^ 31 -> (length w <= 44)%nat).
Proof.
  unfold cover_name. set (h := fnv1a_32 _). set (p := plate_no plate). exists (hex8 h ++ str "-p" ++ dec p). rewrite <- !app_assoc. split; [done|].
  assert (Hp : 0 < p) by apply plate_no_pos. unfold dec. rewrite (proj2 (Z.ltb_ge _ _)) by lia. split.
  - apply Forall_app. split; [|apply Forall_app; split; [by repeat constructor | apply digits_are_words; lia]].
    unfold hex8. apply Forall_fmap, Forall_forall. intros i _. apply hex_word.
    change 15 with (Z.ones 4). rewrite Z.land_ones by lia. apply Z.mod_pos_bound. lia.
  - intros Hpl. rewrite !length_app. unfold hex8. rewrite length_map, length_seq. simpl (length (str "-p")).
    assert (Hg : forall fuel m, (length (dec_fuel fuel m) <= fuel)%nat).
    { induction fuel as [|fuel IH]; intros m; [done|]. cbn [dec_fuel]. destruct (m <? 10); [cbn; lia|]. rewrite length_app. cbn. specialize (IH (m / 10)). lia. }
    pose proof (Hg (S (Z.to_nat (Z.log2 p))) p) as Hl. fold (dec_nonneg p) in Hl.
    assert (Hp31 : p < 2 ^ 31) by (unfold p, plate_no; destruct (0 <? plate); lia).
    assert (Z.log2 p < 31) by (apply Z.log2_lt_pow2; lia). lia.
Qed.

Lemma contains_absent needle s : find_str needle s = None -> contains needle s = false.
Proof. unfold contains. by intros ->. Qed.

Lemma contains_elem needle c s : contains needle s = true -> c ∈ needle -> c ∈ s.
Proof.
  unfold contains. destruct (find_str needle s) as [i|] eqn:E; [|done]. intros _ Hc. apply find_str_some in E as [E _].
  apply starts_with_spec in E as [rest E]. rewrite <- (take_drop i s), E. apply elem_of_app. right. apply elem_of_app. by left.
Qed.

Lemma no_two_dots a b : Forall (fun c => c <> zb 46) a -> Forall (fun c => c <> zb 46) b -> contains (str "..") (a ++ zb 46 :: b) = false.
Proof.
  intros Ha Hb. unfold contains. destruct (find_str _ _) as [i|] eqn:E; [|done]. exfalso. apply find_str_some in E as [E _].
  apply starts_with_spec in E as [rest E]. set (f := fun c : byte => c = zb 46).
  assert (Hn : forall l, Forall (fun c => c <> zb 46) l -> filter f l = []).
  { intros l. induction 1 as [|c l Hc _ IH]; [done|]. by rewrite filter_cons_False. }
  assert (H1 : length (filter f (a ++ zb 46 :: b)) = 1%nat) by by rewrite filter_app, filter_cons_True, Hn, Hn.
  rewrite <- (take_drop i (a ++ _)), E in H1. change (str "..") with [zb 46; zb 46] in H1.
  rewrite !filter_app, !length_app, !filter_cons_True in H1 by done. simpl in H1. lia.
Qed.

Lemma cover_name_safe name plate version : plate < 2 ^ 31 -> safe_basename (cover_name name plate version) = true.
Proof.
  intros Hp. destruct (cover_name_words name plate version) as (w & -> & Hw & Hl). specialize (Hl Hp). unfold safe_basename.
  assert (Hlen : length (str "cover-" ++ w ++ str ".png") = (length w + 10)%nat) by (rewrite !length_app; simpl; lia).
  rewrite Hlen, (proj2 (Nat.eqb_neq _ _)), (proj2 (Nat.ltb_ge _ _)) by lia. cbn [orb].
  assert (Hno : forall c, c ∈ str "cover-" ++ w ++ str ".png" -> c <> slash /\ c <> backslash).
  { intros c. rewrite !elem_of_app. rewrite Forall_forall in Hw. intros [H|[H|H]].
    - repeat (apply elem_of_cons in H as [->|H]; [done|]). by apply elem_of_nil in H.
    - apply Hw, word_facts in H. tauto.
    - repeat (apply elem_of_cons in H as [->|H]; [done|]). by apply elem_of_nil in H. }
  destruct (contains [slash] _) eqn:E1; [by destruct (Hno slash) as [? _]; [eapply contains_elem; [exact E1 | by left]|]|].
  destruct (contains [backslash] _) eqn:E2; [by destruct (Hno backslash) as [_ ?]; [eapply contains_elem; [exact E2 | by left]|]|].
  replace (contains (str "..") _) with false.
  - rewrite starts_with_app. cbn [negb]. rewrite app_assoc. apply ends_with_app.
  - symmetry. rewrite app_assoc. apply (no_two_dots (str "cover-" ++ w) (str "png")); [|by repeat constructor].
    apply Forall_app. split; [by repeat constructor|]. eapply Forall_impl; [exact Hw|]. intros c Hc%word_facts. tauto.
Qed.

(** ** The address comes back *)

Lemma recv_all total : forall chunks got,
  Forall (fun bs => bs <> []) chunks -> got ++ concat chunks = total -> (length total <= kBuf)%nat -> c_str total = total -> contains crlf2 total = true ->
  exists rest, recv_header got chunks ++ rest = total /\ contains crlf2 (recv_header got chunks) = true.
Proof.
  intros chunks. induction chunks as [|bs chunks IH]; intros got Hne Ht Hl Hz Hc; cbn [recv_header concat] in *.
  { exists []. rewrite app_nil_r in *. by subst. }
  apply Forall_cons in Hne as [Hb Hne]. destruct bs as [|b bs]; [done|]. set (x := b :: bs) in *.
  assert (Hlen : length total = (length got + (length x + length (concat chunks)))%nat) by (rewrite <- Ht, !length_app; lia).
  assert (Hx : (0 < length x)%nat) by (simpl; lia).
  rewrite (proj2 (Nat.ltb_lt _ _)) by lia. rewrite take_ge by lia.
  destruct (contains crlf2 (c_str (got ++ x))) eqn:E.
  - exists (concat chunks). rewrite <- app_assoc. split; [done|].
    assert (Hg : c_str (got ++ x) = got ++ x).
    { unfold c_str in *. assert (Hf : Forall (fun c => negb (beq c x00) = true) total) by (rewrite <- Hz; apply span_forall).
      rewrite <- Ht, app_assoc in Hf. apply Forall_app in Hf as [Hf _]. rewrite <- (app_nil_r (got ++ x)) at 1. by rewrite span_all. }
    by rewrite <- Hg.
  - apply IH; try done. by rewrite <- app_assoc.
Qed.

Lemma wait_present present n : forall k, (forall i j, (i <= j)%nat -> present i = true -> present j = true) -> present (k + n)%nat = true ->
  present (wait_for present n k) = true.
Proof.
  induction n as [|n IH]; intros k Hm Hp; cbn [wait_for]; [by rewrite Nat.add_0_r in Hp|].
  destruct (present k) eqn:E; [eapply (Hm k); [lia | done]|]. apply IH; [done|]. by replace (S k + n)%nat with (k + S n)%nat by lia.
Qed.

Lemma filename_join dir base : Forall (fun c => beq slash c = false) base -> filename (join_path dir base) = base.
Proof.
  intros Hb. unfold filename, join_path. assert (Hr : forall a, rfind_if (beq slash) (a ++ slash :: base) = Some (length a)) by by intros; apply rfind_app.
  assert (Hd : forall a : cstr, drop (length a + 1) (a ++ slash :: base) = base) by (intros a; by rewrite <- drop_drop, drop_app_length).
  destruct (last dir) as [c|] eqn:E.
  - change (zb 47) with slash. destruct (beq_spec c slash) as [->|].
    + apply last_Some in E as [d ->]. rewrite <- app_assoc. cbn [app]. by rewrite Hr, Hd.
    + cbn [app]. by rewrite Hr, Hd.
  - unfold rfind_if. rewrite (proj2 (find_if_none _ _)); [done|]. by apply Forall_reverse.
Qed.

(** What a client sends for an address of the server. *)
Definition get_request (port : Z) (url rest : cstr) : cstr := str "GET " ++ drop (length (origin port)) url ++ str " HTTP/1.1" ++ rest.

Lemma request_line_get target rest :
  Forall (fun c => c <> zb 32) target -> request_line (str "GET " ++ target ++ zb 32 :: rest) = Some (str "GET", target).
Proof.
  intros Ht. unfold request_line. change (str "GET " ++ ?x) with (str "GET" ++ zb 32 :: x).
  rewrite find_char_app by by repeat constructor. rewrite <- Nat.add_1_r, <- drop_drop, drop_app_length. cbn [drop].
  rewrite drop_0, find_char_app by (eapply Forall_impl; [exact Ht|]; intros c Hc; by apply beq_neq). by rewrite !take_app_length.
Qed.

(** A text without NUL in the buffer. *)
Lemma c_str_all s : Forall (fun c => c <> x00) s -> c_str s = s.
Proof.
  intros H. unfold c_str. rewrite <- (app_nil_r s) at 1. rewrite span_all; [done| |done].
  eapply Forall_impl; [exact H|]. intros c Hc. apply negb_true_iff. by apply beq_neq.
Qed.

Lemma contains_app needle a b : contains needle b = true -> contains needle (a ++ b) = true.
Proof.
  unfold contains. intros H. destruct (find_str needle (a ++ b)) eqn:E; [done|]. destruct (find_str needle b) as [i|] eqn:E2; [|done].
  apply find_str_some in E2 as [E2 _]. pose proof (find_str_none _ _ E (length a + i)) as Hf. rewrite <- drop_drop, drop_app_length, E2 in Hf.
  destruct (Nat.le_gt_cases i (length b)) as [Hi|Hi]; [assert (true = false) by (apply Hf; rewrite length_app; lia); done|].
  rewrite drop_ge in E2 by lia. destruct needle; [|done]. by destruct (a ++ b).
Qed.

(** What is received of a request starts with its first line, whatever the pieces. *)
Lemma recv_line line rest chunks :
  Forall (fun c => c <> x00 /\ c <> zb 13) line -> Forall (fun c => c <> x00) rest -> contains crlf2 rest = true ->
  (length (line ++ rest) <= kBuf)%nat -> concat chunks = line ++ rest -> Forall (fun bs => bs <> []) chunks ->
  exists r, c_str (recv_header [] chunks) = line ++ r.
Proof.
  intros Hline Hrest Hc Hlen Hch Hne.
  assert (Hnul : Forall (fun c => c <> x00) (line ++ rest)).
  { apply Forall_app. split; [|done]. eapply Forall_impl; [exact Hline|]. by intros c [? _]. }
  destruct (recv_all _ chunks [] Hne Hch Hlen (c_str_all _ Hnul) (contains_app _ _ _ Hc)) as (rest' & Hp & Hpc).
  rewrite c_str_all by (rewrite <- Hp in Hnul; by apply Forall_app in Hnul as [? _]).
  apply app_eq_app in Hp as [r [[-> _]|[H _]]]; [by exists r|]. exfalso. rewrite H in Hline. apply Forall_app in Hline as [Hline _].
  rewrite Forall_forall in Hline. destruct (Hline (zb 13)) as [_ Hn]; [|done]. eapply contains_elem; [exact Hpc | by left].
Qed.

(** A character of a cover's name. *)
Definition name_char (c : byte) : Prop := beq slash c = false /\ c <> zb 32 /\ c <> zb 63 /\ c <> x00 /\ c <> zb 13.

Lemma cover_name_chars name plate version : Forall name_char (cover_name name plate version) /\ cover_name name plate version <> [].
Proof.
  destruct (cover_name_words name plate version) as (w & -> & Hw & _). split; [|done].
  repeat (apply Forall_app; split); try by repeat constructor.
  eapply Forall_impl; [exact Hw|]. by intros c (? & ? & ? & ? & ? & ? & ? & ?)%word_facts.
Qed.

Lemma url_target temp_dir port name plate version : 0 < port -> name <> [] ->
  drop (length (origin port)) (url_for temp_dir port name plate version) = kPrefix ++ cover_name name plate version.
Proof.
  intros Hport Hname. unfold url_for. rewrite (proj2 (Z.leb_gt _ _)) by done. destruct (cover_name_chars name plate version) as [Hc Hn].
  assert (Hf : filename (path_for temp_dir name plate version) = cover_name name plate version).
  { unfold path_for. destruct name as [|n name]; [done|]. apply filename_join. eapply Forall_impl; [exact Hc|]. by intros c (? & _). }
  destruct name as [|n name]; [done|]. cbn [length Nat.eqb orb].
  destruct (path_for temp_dir (n :: name) plate version) as [|c l]; [|rewrite Hf; by rewrite drop_app_length].
  change (filename []) with (@nil byte) in Hf. by rewrite <- Hf in Hn.
Qed.

(** The address a cover is given leads back to it: a GET for it, in whatever
    pieces it arrives, is answered with the cover's bytes and their length, once
    the file is there within the 15 s the server waits for a fetch to write it. *)
Lemma url_served temp_dir present contents port name plate version rest chunks body :
  0 < port -> name <> [] -> plate < 2 ^ 31 ->
  let path := path_for temp_dir name plate version in
  let request := get_request port (url_for temp_dir port name plate version) rest in
  contains crlf2 rest = true -> Forall (fun c => c <> x00) rest -> (length request <= kBuf)%nat ->
  concat chunks = request -> Forall (fun bs => bs <> []) chunks ->
  (forall i j, (i <= j)%nat -> present path i = true -> present path j = true) -> present path kWaits = true -> contents path = Some body ->
  handle_one temp_dir None present contents chunks = (ok_header (zlen body) ++ body, Some path).
Proof.
  intros Hport Hname Hpl path request Hcr Hnul Hlen Hch Hne Hmono Hpres Hbody.
  pose proof (url_target temp_dir port name plate version Hport Hname) as Hurl. destruct (cover_name_chars name plate version) as [Hbase _].
  pose proof (cover_name_safe name plate version Hpl) as Hsafe.
  assert (Hpath : path = join_path temp_dir (cover_name name plate version)) by (unfold path, path_for; by destruct name).
  remember (cover_name name plate version) as base eqn:Eb. clear Eb.
  set (line := str "GET " ++ kPrefix ++ base ++ [zb 32]).
  assert (Hreq : request = line ++ str "HTTP/1.1" ++ rest) by (unfold request, get_request, line; rewrite Hurl, <- !app_assoc; done).
  assert (Hline : Forall (fun c => c <> x00 /\ c <> zb 13) line).
  { repeat (apply Forall_app; split); try by repeat constructor. eapply Forall_impl; [exact Hbase|]. by intros c (? & ? & ? & ? & ?). }
  assert (Hr0 : Forall (fun c => c <> x00) (str "HTTP/1.1" ++ rest)) by (apply Forall_app; split; [by repeat constructor | done]).
  rewrite Hreq in Hlen, Hch. destruct (recv_line line _ chunks Hline Hr0 (contains_app _ _ _ Hcr) Hlen Hch Hne) as [r Hr].
  assert (Ht : Forall (fun c => c <> zb 32 /\ c <> zb 63) (kPrefix ++ base)).
  { apply Forall_app. split; [by repeat constructor|]. eapply Forall_impl; [exact Hbase|]. by intros c (? & ? & ? & ? & ?). }
  apply Forall_and in Ht as [Hsp Hqm]. pose proof (request_line_get _ r Hsp) as Hrl. rewrite <- app_assoc in Hrl.
  unfold handle_one. rewrite Hr. unfold line. rewrite <- !app_assoc. cbn [app]. rewrite Hrl. cbv zeta.
  rewrite (bool_decide_eq_true_2 (str "GET" = str "GET")) by done. cbn [negb andb].
  unfold strip_query. rewrite find_char_none by (eapply Forall_impl; [exact Hqm|]; intros c Hc; by apply beq_neq).
  rewrite starts_with_app, drop_app_length. cbn [negb]. rewrite Hsafe. cbn [negb].
  unfold serve, full_path. rewrite <- Hpath, wait_present by done. unfold read_file. by rewrite Hbody.
Qed.

(** ** Witnesses *)

Definition demo_dir : cstr := str "/tmp/obn-covers".
Definition demo_rest : cstr := crlf ++ str "Host: 127.0.0.1" ++ crlf2.
Definition demo_request : cstr := get_request 4711 (url_for demo_dir 4711 (str "cube") 0 (str "7")) demo_rest.
Definition demo_path : cstr := path_for demo_dir (str "cube") 0 (str "7").
(** The file is there from the third check on. *)
Definition demo_present (p : cstr) (k : nat) : bool := bool_decide (p = demo_path) && (2 <=? k)%nat.
Definition demo_contents (p : cstr) : option (list byte) := if bool_decide (p = demo_path) then Some (str "PNG") else None.
Definition demo_answer : cstr * option cstr := handle_one demo_dir None demo_present demo_contents [take 7 demo_request; drop 7 demo_request].

Lemma opens_only_covers_witness :
  exists base, demo_path = join_path demo_dir base /\ Forall (fun x => x <> slash /\ x <> backslash) base /\ contains (str "..") base = false /\
    starts_with (str "cover-") base = true /\ ends_with base (str ".png") = true /\ (length base <= 64)%nat.
Proof.
  apply (opens_only_covers demo_dir demo_present demo_contents [take 7 demo_request; drop 7 demo_request] demo_answer.1 demo_path).
  vm_compute. reflexivity.
Defined.

Lemma url_served_witness : demo_answer = (ok_header 3 ++ str "PNG", Some demo_path).
Proof.
  assert (Hlen : (length demo_request <= kBuf)%nat) by (apply Nat.leb_le; vm_compute; reflexivity).
  assert (Hch : concat [take 7 demo_request; drop 7 demo_request] = demo_request) by (vm_compute; reflexivity).
  assert (Hne : Forall (fun bs => bs <> []) [take 7 demo_request; drop 7 demo_request]) by (repeat constructor; vm_compute; discriminate).
  assert (Hnul : Forall (fun c => c <> x00) demo_rest) by (repeat constructor; discriminate).
  assert (Hcr : contains crlf2 demo_rest = true) by (vm_compute; reflexivity).
  assert (Hmono : forall i j, (i <= j)%nat -> demo_present demo_path i = true -> demo_present demo_path j = true).
  { intros i j Hij [H1 H2%Nat.leb_le]%andb_prop. unfold demo_present. rewrite H1. apply Nat.leb_le. lia. }
  assert (Hp : demo_present demo_path kWaits = true) by (vm_compute; reflexivity).
  assert (Hb : demo_contents demo_path = Some (str "PNG")) by (vm_compute; reflexivity).
  exact (url_served demo_dir demo_present demo_contents 4711 (str "cube") 0 (str "7") demo_rest _ (str "PNG")
           ltac:(lia) ltac:(discriminate) ltac:(lia) Hcr Hnul Hlen Hch Hne Hmono Hp Hb).
Defined.
