(* ===== verification/StatusPatch.v ===== *)
(** Status frames on their way to the slicer ([src/agent.cpp],
    [Agent::notify_local_message]): the optional patches of their text, the ids
    given to a print that has none, and the table of those ids. *)

From S2P Require Import Prelude OMap Text Double Json Config CoverCache.
From coqutil Require Import Datatypes.RecordSetters.
Import DoubleBraceUpdate.

#[local] Delimit Scope string_scope with string.

(** ** Reading and replacing text *)

Definition is_sp (c : byte) : bool := beq c (zb 32).

(** [payload.replace (pos, n, s)]. *)
Definition put (pos n : nat) (s payload : cstr) : cstr := take pos payload ++ s ++ drop (pos + n) payload.

(** The position after the spaces from [i] on. *)
Definition skip_sp (payload : cstr) (i : nat) : nat := (i + length (span is_sp (drop i payload)).1)%nat.

(** A key as the code looks for it, and the position after it. *)
Definition needle (key : cstr) : cstr := [quote] ++ key ++ [quote; colon].

Definition after_key (payload key : cstr) : option nat :=
  option_map (fun pos => pos + length (needle key))%nat (find_str (needle key) payload).

(** The characters of a string up to its closing quote. *)
Fixpoint until_quote (l : cstr) : option cstr :=
  match l with
  | [] => None
  | c :: l1 =>
      if beq c quote then Some []
      else
        match l1 with
        | d :: l2 => if beq c backslash then option_map (fun s => c :: d :: s) (until_quote l2)
                     else option_map (cons c) (until_quote l1)
        | [] => None
        end
  end.

Definition json_peek_string_field (payload key : cstr) : option cstr :=
  match after_key payload key with
  | None => None
  | Some pos => match drop (skip_sp payload pos) payload with
                | c :: l => if beq c quote then until_quote l else None
                | [] => None
                end
  end.

Definition json_peek_int_field (payload key : cstr) : option Z :=
  match after_key payload key with
  | None => None
  | Some pos =>
      match drop (skip_sp payload pos) payload with
      | [] => None
      | c :: l =>
          if beq c quote then
            match json_peek_string_field payload key with Some [] | None => None | Some s => stoi s end
          else
            let '(sign, l) := if beq c (zb 45) then ([c], l) else ([], c :: l) in
            match (span is_digit l).1 with [] => None | ds => stoi (sign ++ ds) end
      end
  end.

(** [rfind (needle)]: the last occurrence. *)
Fixpoint rfind_str (key s : cstr) : option nat :=
  match s with
  | [] => if starts_with key [] then Some O else None
  | _ :: s' => match rfind_str key s' with
               | Some i => Some (S i)
               | None => if starts_with key s then Some O else None
               end
  end.

Fixpoint plate_number (l : cstr) (n : Z) : Z :=
  match l with
  | c :: l => if is_digit c then let n := n * 10 + digit_val c in if 9999 <? n then 0 else plate_number l n else n
  | [] => n
  end.

Definition plate_idx_from_path (path : cstr) : Z :=
  match rfind_str (str "plate_") path with
  | None => 0
  | Some pos => plate_number (drop (pos + 6) path) 0
  end.

Definition resolve_cover_plate_idx (payload : cstr) : Z :=
  let from_path key := match json_peek_string_field payload key with Some path => plate_idx_from_path path | None => 0 end in
  let plate := default 0 (json_peek_int_field payload (str "plate_idx")) in
  if 0 <? plate then plate
  else
    let plate := from_path (str "gcode_file") in
    if 0 <? plate then plate
    else let plate := from_path (str "param") in if 0 <? plate then plate else 1.

(** ** The patches: [None] leaves the payload *)

Definition try_rewrite_home_flag (payload : cstr) : option cstr :=
  match after_key payload (str "home_flag") with
  | None => None
  | Some pos =>
      let start := skip_sp payload pos in
      let l := drop start payload in
      let '(negative, l) := match l with
                            | c :: l' => if beq c (zb 45) then (true, l') else (false, l)
                            | [] => (false, l)
                            end in
      match (span is_digit l).1 with
      | [] => None
      | ds =>
          let flag := undec ds in
          if 2 ^ 63 <=? flag then None
          else
            let flag := if negative : bool then - flag else flag in
            if Z.land (Z.shiftr flag 8) 3 =? 0
            then Some (put start ((if negative then 1 else 0) + length ds) (dec (Z.lor flag (Z.shiftl 1 8))) payload)
            else None
      end
  end.

(** The loop of [try_inject_ipcam_file_local], from the character after the
    brace: the position of the closing brace, and whether a key ["file"] was seen. *)
Fixpoint ipcam_end (l : cstr) (i : nat) (depth : Z) (in_str esc hit : bool) : option nat * bool :=
  match l with
  | [] => (None, hit)
  | c :: l' =>
      if in_str then
        if esc then ipcam_end l' (S i) depth true false hit
        else if beq c backslash then ipcam_end l' (S i) depth true true hit
        else if beq c quote then ipcam_end l' (S i) depth false false hit
        else ipcam_end l' (S i) depth true false hit
      else if beq c quote then
        ipcam_end l' (S i) depth true esc (hit || ((depth =? 1) && starts_with (needle (str "file")) l))
      else if beq c (zb 123) then ipcam_end l' (S i) (depth + 1) false esc hit
      else if beq c (zb 125) then
        if depth - 1 =? 0 then (Some i, hit) else ipcam_end l' (S i) (depth - 1) false esc hit
      else ipcam_end l' (S i) depth false esc hit
  end.

(** [,"file":{"local":"local","remote":"none","model_download":"enabled"}]. *)
Definition kInject : cstr :=
  [comma] ++ needle (str "file") ++ [zb 123] ++
  needle (str "local") ++ escape (str "local") ++ [comma] ++
  needle (str "remote") ++ escape (str "none") ++ [comma] ++
  needle (str "model_download") ++ escape (str "enabled") ++ [zb 125].

Definition try_inject_ipcam_file_local (payload : cstr) : option cstr :=
  match after_key payload (str "ipcam") with
  | None => None
  | Some pos =>
      match find_char_from (zb 123) payload pos with
      | None => None
      | Some brace =>
          match ipcam_end (drop (S brace) payload) (S brace) 1 false false false with
          | (Some e, false) => Some (put e 0 kInject payload)
          | _ => None
          end
      end
  end.

(** [std::stoull (s, nullptr, 16)]: white space, a sign, a prefix before a digit. *)
Definition hex_digit (c : byte) : bool := match hex_val c with Some _ => true | None => false end.
Definition unhex (ds : cstr) : Z := foldl (fun acc c => acc * 16 + default 0 (hex_val c)) 0 ds.

Definition skip_0x (s : cstr) : cstr :=
  match s with
  | o :: x :: c :: s' => if beq o (zb 48) && (beq x (zb 120) || beq x (zb 88)) && hex_digit c then c :: s' else s
  | _ => s
  end.

Definition stoull16 (s : cstr) : option Z :=
  let s := trim_front is_space s in
  let '(neg, s) := match s with
                   | c :: s' => if beq c (zb 45) then (true, s')
                                else if beq c (zb 43) then (false, s') else (false, s)
                   | [] => (false, s)
                   end in
  match (span hex_digit (skip_0x s)).1 with
  | [] => None
  | ds => let v := unhex ds in
          if 2 ^ 64 <=? v then None else Some (if neg : bool then u64 (- v) else v)
  end.

(** [printf] of ["%llx"]. *)
Fixpoint hex_fuel (fuel : nat) (n : Z) : cstr :=
  match fuel with
  | O => []
  | S fuel => if n <? 16 then [hex_lower n] else hex_fuel fuel (n / 16) ++ [hex_lower (n mod 16)]
  end.
Definition hex_nonneg (n : Z) : cstr := hex_fuel 16 n.

Definition kBit17 : Z := Z.shiftl 1 17.

Definition try_patch_fun2_internal_storage (payload : cstr) : option cstr :=
  match after_key payload (str "fun2") with
  | None => None
  | Some pos =>
      let i := skip_sp payload pos in
      match drop i payload with
      | q :: l =>
          if negb (beq q quote) then None
          else
            match find_char quote l with
            | None => None
            | Some n =>
                match stoull16 (take n l) with
                | None => None
                | Some bits =>
                    if negb (Z.land bits kBit17 =? 0) then None
                    else Some (put (S i) n (hex_nonneg (Z.lor bits kBit17)) payload)
                end
            end
      | [] => None
      end
  end.

(** [sscanf] of ["%u"]: the value and what is left. *)
Definition scan_u (s : cstr) : option (Z * cstr) :=
  let s := trim_front is_space s in
  let '(neg, s) := match s with
                   | c :: s' => if beq c (zb 45) then (true, s')
                                else if beq c (zb 43) then (false, s') else (false, s)
                   | [] => (false, s)
                   end in
  let '(ds, rest) := span is_digit s in
  match ds with
  | [] => None
  | _ => let v := Z.min (undec ds) (2 ^ 64 - 1) in
         Some (u32 (if neg : bool then if 2 ^ 64 <=? undec ds then v else - v else v), rest)
  end.

(** ["%u.%u.%u.%u"]: the four numbers and what is left. *)
Definition scan_dot_u (s : cstr) : option (Z * cstr) :=
  match s with c :: s => if beq c point then scan_u s else None | [] => None end.

Definition scan_quad (s : cstr) : option ((Z * Z * Z * Z) * cstr) :=
  match scan_u s with None => None | Some (a, s) =>
  match scan_dot_u s with None => None | Some (b, s) =>
  match scan_dot_u s with None => None | Some (c, s) =>
  match scan_dot_u s with None => None | Some (d, s) => Some ((a, b, c, d), s)
  end end end end.

Definition ipv4_le (q : Z * Z * Z * Z) : Z :=
  let '(a, b, c, d) := q in Z.lor (Z.lor (Z.lor a (Z.shiftl b 8)) (Z.shiftl c 16)) (Z.shiftl d 24).

Definition ipv4_from_le_int (v : Z) : cstr :=
  let part n := dec (Z.land (Z.shiftr v n) 0xFF) in
  part 0 ++ [point] ++ part 8 ++ [point] ++ part 16 ++ [point] ++ part 24.

Definition ipv4_host_of_url (url : cstr) : cstr :=
  match find_str (str "://") url with
  | None => []
  | Some start =>
      let stop := find_if_from (fun c => beq c colon || beq c (zb 47)) url (start + 3) in
      let host := substr_to (start + 3) stop url in
      match scan_quad host with
      | Some ((a, b, c, d), rest) =>
          let tail := match rest with [] => false | t :: _ => negb (beq t x00) end in
          if tail || (255 <? a) || (255 <? b) || (255 <? c) || (255 <? d) then [] else host
      | None => []
      end
  end.

(** The loop of [try_override_net_ip] from [search_from] on. *)
Fixpoint override_ips (fuel : nat) (ip_str l : cstr) : bool * cstr :=
  match fuel with
  | O => (false, l)
  | S fuel =>
      match after_key l (str "ip") with
      | None => (false, l)
      | Some pos =>
          let num_start := skip_sp l pos in
          let rest := drop num_start l in
          let sign := match rest with c :: _ => if beq c (zb 45) then 1%nat else O | [] => O end in
          let n := (sign + length (span is_digit (drop sign rest)).1)%nat in
          let '(touched, r) := override_ips fuel ip_str (drop n rest) in
          match n with
          | O => (touched, take num_start l ++ r)
          | _ => (true, take num_start l ++ ip_str ++ r)
          end
      end
  end.

Definition try_override_net_ip (payload connect_ip : cstr) : option cstr :=
  match connect_ip with
  | [] => None
  | _ =>
      match scan_quad connect_ip with
      | None => None
      | Some (q, _) =>
          match find_str (needle (str "net")) payload with
          | None => None
          | Some net_pos =>
              let '(touched, r) := override_ips (S (length payload)) (dec (ipv4_le q)) (drop net_pos payload) in
              if touched then Some (take net_pos payload ++ r) else None
          end
      end
  end.

(** ** Health messages *)

(** [matching_array_end] from a position on. *)
Fixpoint array_end (l : cstr) (i : nat) (depth : Z) (in_str esc : bool) : option nat :=
  match l with
  | [] => None
  | c :: l' =>
      if in_str then
        if esc then array_end l' (S i) depth true false
        else if beq c backslash then array_end l' (S i) depth true true
        else if beq c quote then array_end l' (S i) depth false false
        else array_end l' (S i) depth true false
      else if beq c quote then array_end l' (S i) depth true esc
      else if beq c (zb 91) then array_end l' (S i) (depth + 1) false esc
      else if beq c (zb 93) then
        if depth - 1 =? 0 then Some i
        else if depth - 1 <? 0 then None else array_end l' (S i) (depth - 1) false esc
      else array_end l' (S i) depth false esc
  end.

Definition matching_array_end (s : cstr) (open : nat) : option nat :=
  match drop open s with
  | c :: _ => if beq c (zb 91) then array_end (drop open s) open 0 false false else None
  | [] => None
  end.

(** [skip_ws]: the position after the white space from [i] on. *)
Definition skip_ws_from (s : cstr) (i : nat) : nat := (length s - length (skip_ws (drop i s)))%nat.

Definition kHms : cstr := [quote] ++ str "hms" ++ [quote].

(** The position of the array after a key that ends at [i]. *)
Definition array_after (s : cstr) (i : nat) : option nat :=
  let i := skip_ws_from s i in
  match drop i s with
  | c :: _ =>
      if beq c colon then
        let i := skip_ws_from s (S i) in
        match drop i s with
        | c :: _ => if beq c (zb 91) then Some i else None
        | [] => None
        end
      else None
  | [] => None
  end.

Definition has_code (target : Z) (item : Value) : bool :=
  is_object item && (let code := find item (str "code") in is_number code && (as_int 0 code =? target)).

Definition without_code (target : Z) (items : list Value) : list Value :=
  List.filter (fun item => negb (has_code target item)) items.

(** The outer [None] is a search that did not end. *)
Fixpoint filter_from (fuel : nat) (payload : cstr) (target : Z) (search : nat) : option (option cstr) :=
  match fuel with
  | O => None
  | S fuel =>
      match find_str_from kHms payload search with
      | None => Some None
      | Some key_pos =>
          match array_after payload (key_pos + length kHms) with
          | None => filter_from fuel payload target (key_pos + length kHms)
          | Some i =>
              match matching_array_end payload i with
              | None => Some None
              | Some arr_end =>
                  match parse (sub i (arr_end - i + 1) payload) with
                  | Ok (Array items) _ =>
                      if existsb (has_code target) items
                      then Some (Some (put i (arr_end - i + 1) (dump (Array (without_code target items))) payload))
                      else Some None
                  | _ => Some None
                  end
              end
          end
      end
  end.

Definition try_filter_hms_code (payload : cstr) (target_code : Z) : option (option cstr) :=
  filter_from (S (length payload)) payload target_code 0.

(** ** The ids of a print *)

Definition patch_string_zero_to (payload key value : cstr) : option cstr :=
  match after_key payload key with
  | None => None
  | Some pos =>
      let i := skip_sp payload pos in
      let quoted := [quote] ++ value ++ [quote] in
      match drop i payload with
      | q :: c :: l =>
          if negb (beq q quote) then None
          else if beq c quote then Some (put i 2 quoted payload)
          else
            match l with
            | e :: _ => if beq c (zb 48) && beq e quote then Some (put i 3 quoted payload) else None
            | [] => None
            end
      | _ => None
      end
  end.

Definition synthetic_subtask_id (subtask_name version : cstr) : cstr :=
  let keyed := match version with [] => subtask_name | _ => subtask_name ++ [zb 1] ++ version end in
  str "lan-" ++ hex8 (fnv1a_32 keyed).

(** The name of a print that can have ids. *)
Definition print_name (payload : cstr) : option cstr :=
  match json_peek_string_field payload (str "subtask_name") with
  | Some name => if bool_decide (name = [] \/ name = str "-1") then None else Some name
  | None => None
  end.

Definition patch_if (p : option cstr) (s : bool * cstr) : bool * cstr :=
  match p with Some payload => (true, payload) | None => s end.

Definition rewrite_ids (id payload : cstr) : bool * cstr :=
  let s := (false, payload) in
  let s := patch_if (patch_string_zero_to s.2 (str "project_id") (str "lan")) s in
  let s := patch_if (patch_string_zero_to s.2 (str "profile_id") (str "lan")) s in
  let s := patch_if (patch_string_zero_to s.2 (str "task_id") id) s in
  patch_if (patch_string_zero_to s.2 (str "subtask_id") id) s.

(** The payload, and the synthetic id when it was patched. *)
Definition try_rewrite_print_ids (payload version : cstr) : option cstr * cstr :=
  match print_name payload with
  | None => (None, payload)
  | Some name =>
      let id := synthetic_subtask_id name version in
      let '(touched, payload) := rewrite_ids id payload in
      (if touched then Some id else None, payload)
  end.

(** ** A frame of the printer *)

Record SyntheticSubtask := { subtask_name : cstr; plate_idx : Z; version : cstr }.

(** What a frame comes to: the text handed on, the cover it asks for, and
    [synthetic_subtasks_] after it. *)
Record Notified := { n_text : cstr; n_cover : option (cstr * SyntheticSubtask); n_subtasks : list (cstr * SyntheticSubtask) }.

Definition patch_with (on : bool) (p : cstr -> option cstr) (payload : cstr) : cstr :=
  if on then default payload (p payload) else payload.

(** The patches, under the settings. *)
Definition patched (cfg : Settings) (connect_ip json : cstr) : cstr :=
  let p := patch_with (patch_mqtt_home_flag cfg) try_rewrite_home_flag json in
  let p := patch_with (patch_mqtt_ipcam_file cfg) try_inject_ipcam_file_local p in
  let p := patch_with (patch_mqtt_internal_storage cfg) try_patch_fun2_internal_storage p in
  let p := patch_with (override_lan_ip cfg) (fun p => try_override_net_ip p connect_ip) p in
  patch_with (filter_mqtt_hms_65543 cfg) (fun p => default None (try_filter_hms_code p 65543)) p.

(** The token of the print, read before its ids are rewritten. *)
Definition print_version (payload : cstr) : cstr :=
  let v := default [] (json_peek_string_field payload (str "task_id")) in
  if bool_decide (v = [] \/ v = str "0") then default [] (json_peek_string_field payload (str "gcode_start_time")) else v.

(** [while (size () > 16) erase (begin ())]. *)
Definition kSubtasks : nat := 16.
Definition capped {V} (m : list (cstr * V)) : list (cstr * V) := drop (length m - kSubtasks) m.

Definition note_subtask (id : cstr) (t : SyntheticSubtask) (m : list (cstr * SyntheticSubtask)) : list (cstr * SyntheticSubtask) :=
  capped (om_set id t m).

Definition local_frame (cfg : Settings) (connect_ip json : cstr) (subtasks : list (cstr * SyntheticSubtask)) : Notified :=
  let p := patched cfg connect_ip json in
  let v := print_version p in
  let '(synth_id, p) := try_rewrite_print_ids p v in
  match synth_id, print_name p with
  | Some id, Some name =>
      let t := {| subtask_name := name; plate_idx := resolve_cover_plate_idx p; version := v |} in
      {| n_text := p; n_cover := Some (id, t); n_subtasks := note_subtask id t subtasks |}
  | _, _ => {| n_text := p; n_cover := None; n_subtasks := subtasks |}
  end.

(** [lookup_synthetic_subtask] without the address. *)
Definition lookup_synthetic_subtask (id : cstr) (subtasks : list (cstr * SyntheticSubtask)) : option SyntheticSubtask :=
  om_find id subtasks.

(** ** Finding and replacing *)

(** A key is first found after [a]. *)
Definition first_after (k a : cstr) : Prop := find_str k (a ++ k) = Some (length a).

Lemma starts_with_ext k l x : (length k <= length l)%nat -> starts_with k (l ++ x) = starts_with k l.
Proof.
  revert l. induction k as [|c k IH]; intros [|d l]; simpl; intros H; try done; [lia|]. rewrite IH by lia. done.
Qed.

Lemma find_str_first k s i :
  starts_with k (drop i s) = true -> (forall j, (j < i)%nat -> starts_with k (drop j s) = false) -> find_str k s = Some i.
Proof.
  intros H1 H2. destruct (find_str k s) as [n|] eqn:E.
  - apply find_str_some in E as [E1 E2]. destruct (Nat.lt_trichotomy n i) as [L|[->|L]]; [|done|].
    + by rewrite H2 in E1.
    + by rewrite E2 in H1.
  - destruct (Nat.le_gt_cases i (length s)) as [L|L]; [by rewrite (find_str_none _ _ E i L) in H1|].
    rewrite drop_ge in H1 by lia. destruct k; [|done]. by destruct s.
Qed.

Lemma find_str_after k a x : first_after k a -> find_str k (a ++ k ++ x) = Some (length a).
Proof.
  intros H. apply find_str_some in H as [_ H]. apply find_str_first.
  - rewrite drop_app_length. apply starts_with_app.
  - intros j Hj. specialize (H j Hj). rewrite drop_app_le in H by lia. rewrite drop_app_le, app_assoc by lia.
    rewrite starts_with_ext; [done|]. rewrite length_app, length_drop. lia.
Qed.

Lemma after_key_at key a x :
  first_after (needle key) a -> after_key (a ++ needle key ++ x) key = Some (length (a ++ needle key)).
Proof. intros H. unfold after_key. rewrite find_str_after by done. cbn [option_map]. by rewrite length_app. Qed.

Lemma after_key_inv payload key pos :
  after_key payload key = Some pos ->
  exists a x, payload = a ++ needle key ++ x /\ pos = length (a ++ needle key) /\ first_after (needle key) a.
Proof.
  unfold after_key. destruct (find_str _ _) as [n|] eqn:E; [|done]. intros [= <-].
  pose proof (find_str_some _ _ _ E) as [H1 H2]. apply starts_with_spec in H1 as [x Hx].
  assert (Hn : (n <= length payload)%nat).
  { apply Nat.nlt_ge. intros L. rewrite drop_ge in Hx by lia. discriminate Hx. }
  exists (take n payload), x. assert (Hl : length (take n payload) = n) by (rewrite length_take; lia).
  split; [by rewrite <- Hx, take_drop|]. split; [by rewrite (length_app (take n payload)), Hl|].
  unfold first_after. rewrite Hl. apply find_str_first.
  - rewrite <- Hl at 1. rewrite drop_app_length. rewrite <- (app_nil_r (needle key)) at 2. apply starts_with_app.
  - intros j Hj. specialize (H2 j Hj). rewrite <- (take_drop n payload), Hx, app_assoc in H2.
    rewrite drop_app_le in H2 by (rewrite length_app; lia). rewrite starts_with_ext in H2; [done|].
    rewrite length_drop, length_app. lia.
Qed.

Lemma skip_sp_at p sp x :
  Forall (fun c => is_sp c = true) sp -> match x with [] => True | c :: _ => is_sp c = false end ->
  skip_sp (p ++ sp ++ x) (length p) = length (p ++ sp).
Proof. intros Hs Hx. unfold skip_sp. rewrite drop_app_length, span_all by done. by rewrite length_app. Qed.

Lemma put_at p m x s : put (length p) (length m) s (p ++ m ++ x) = p ++ s ++ x.
Proof. unfold put. rewrite take_app_length, <- (length_app p m), (app_assoc p m x), drop_app_length. done. Qed.

(** Text after a key and spaces: where it starts, and its replacement. *)
Record Found (payload key a sp x : cstr) : Prop := {
  f_text : payload = a ++ needle key ++ sp ++ x;
  f_first : first_after (needle key) a;
  f_sp : Forall (fun c => is_sp c = true) sp;
  f_head : match x with [] => True | c :: _ => is_sp c = false end }.

Lemma found_after payload key a sp x : Found payload key a sp x ->
  after_key payload key = Some (length (a ++ needle key)) /\
  skip_sp payload (length (a ++ needle key)) = length (a ++ needle key ++ sp) /\
  drop (length (a ++ needle key ++ sp)) payload = x.
Proof.
  intros [-> Hf Hs Hx]. split; [by apply after_key_at|]. split.
  - rewrite !app_assoc. rewrite <- app_assoc. by apply skip_sp_at.
  - replace (a ++ needle key ++ sp ++ x) with ((a ++ needle key ++ sp) ++ x) by by rewrite <- !app_assoc.
    apply drop_app_length.
Qed.

Lemma found_put payload key a sp m x s : Found payload key a sp (m ++ x) ->
  put (length (a ++ needle key ++ sp)) (length m) s payload = a ++ needle key ++ sp ++ s ++ x.
Proof.
  intros [-> _ _ _]. replace (a ++ needle key ++ sp ++ m ++ x) with ((a ++ needle key ++ sp) ++ m ++ x) by by rewrite <- !app_assoc.
  rewrite put_at. by rewrite <- !app_assoc.
Qed.

Lemma found_exists payload key pos :
  after_key payload key = Some pos -> exists a sp x, Found payload key a sp x /\ pos = length (a ++ needle key).
Proof.
  intros H. apply after_key_inv in H as (a & x & -> & -> & Hf). exists a, (span is_sp x).1, (span is_sp x).2.
  split; [|done]. split; [by rewrite span_app | done | apply span_forall |].
  induction x as [|c x IH]; simpl; [done|]. destruct (is_sp c) eqn:E; [by destruct (span is_sp x)|]. by simpl.
Qed.

(** ** The storage bits *)

Definition sd_bits (flag : Z) : Z := Z.land (Z.shiftr flag 8) 3.

(** What the flag becomes. *)
Definition with_storage (flag : Z) : Z := if sd_bits flag =? 0 then Z.lor flag (Z.shiftl 1 8) else flag.

Lemma sd_bits_0 flag : sd_bits flag = 0 <-> Z.testbit flag 8 = false /\ Z.testbit flag 9 = false.
Proof.
  unfold sd_bits. split.
  - intros H. assert (Hb : forall i, 0 <= i -> Z.testbit 3 i = true -> Z.testbit flag (i + 8) = false).
    { intros i Hi H3. rewrite <- Z.shiftr_spec by done. rewrite <- (andb_true_r (Z.testbit _ i)), <- H3, <- Z.land_spec, H.
      apply Z.testbit_0_l. }
    by split; [apply (Hb 0) | apply (Hb 1)].
  - intros [H8 H9]. apply Z.bits_inj'. intros i Hi. rewrite Z.land_spec, Z.shiftr_spec, Z.testbit_0_l by done.
    destruct (decide (i = 0)) as [->|]; [by change (0 + 8) with 8; rewrite H8|]. destruct (decide (i = 1)) as [->|]; [by change (1 + 8) with 9; rewrite H9|].
    replace (Z.testbit 3 i) with false; [apply andb_false_r|]. symmetry. apply (Z.bits_above_log2 3); [lia|].
    change (Z.log2 3) with 1. lia.
Qed.

Lemma with_storage_bits flag : sd_bits (with_storage flag) <> 0 /\
  forall i, 0 <= i -> Z.testbit (with_storage flag) i = if (i =? 8) && (sd_bits flag =? 0) then true else Z.testbit flag i.
Proof.
  unfold with_storage. destruct (Z.eqb_spec (sd_bits flag) 0) as [E|E].
  - assert (Hb : forall i, 0 <= i -> Z.testbit (Z.lor flag (Z.shiftl 1 8)) i = Z.testbit flag i || (i =? 8)).
    { intros i Hi. rewrite Z.lor_spec. f_equal. rewrite Z.shiftl_1_l, Z.pow2_bits_eqb by lia. apply Z.eqb_sym. }
    split; [rewrite sd_bits_0, Hb by lia; intros [H _]; by rewrite orb_true_r in H|].
    intros i Hi. rewrite Hb by done. destruct (i =? 8); simpl; [apply orb_true_r | apply orb_false_r].
  - split; [done|]. intros i Hi. by rewrite andb_false_r.
Qed.

Lemma dec_sign n : exists neg : bool, dec n = (if neg then [zb 45] else []) ++ dec_nonneg (Z.abs n) /\
  (if neg then n = - Z.abs n else n = Z.abs n).
Proof.
  unfold dec. destruct (Z.ltb_spec n 0); [exists true | exists false]; (split; [|lia]); rewrite ?Z.abs_neq, ?Z.abs_eq by lia; done.
Qed.

Lemma dec_head n : exists c l, dec n = c :: l /\ is_sp c = false.
Proof.
  destruct (dec_sign n) as ([] & -> & _); [by eexists _, _|].
  destruct (dec_nonneg_spec (Z.abs n)) as (_ & H & Hne & _); [lia|]. destruct (dec_nonneg _) as [|c l]; [done|].
  exists c, l. split; [done|]. apply Forall_cons in H as [H%is_digit_range _]. unfold digit_val in H.
  unfold is_sp. apply beq_neq. intros ->. change (bz (zb 32)) with 32 in H. lia.
Qed.

Definition no_digit (b : cstr) : Prop := match b with [] => True | c :: _ => is_digit c = false end.

(** A number after a key is found. *)
Lemma found_number key a sp n b :
  first_after (needle key) a -> Forall (fun c => is_sp c = true) sp ->
  Found (a ++ needle key ++ sp ++ dec n ++ b) key a sp (dec n ++ b).
Proof. intros. destruct (dec_head n) as (c & l & E & Hc). split; try done. by rewrite E. Qed.

Lemma home_flag_step a sp n b :
  first_after (needle (str "home_flag")) a -> Forall (fun c => is_sp c = true) sp ->
  Z.abs n < 2 ^ 63 -> no_digit b ->
  try_rewrite_home_flag (a ++ needle (str "home_flag") ++ sp ++ dec n ++ b) =
  if sd_bits n =? 0 then Some (a ++ needle (str "home_flag") ++ sp ++ dec (with_storage n) ++ b) else None.
Proof.
  intros Ha Hs Hn Hb. pose proof (found_number _ _ _ n b Ha Hs) as F. unfold try_rewrite_home_flag.
  destruct (found_after _ _ _ _ _ F) as (-> & Hsk & Hd). rewrite Hsk, Hd.
  destruct (dec_nonneg_spec (Z.abs n)) as (Hu & Hdig & Hne & _); [lia|].
  destruct (dec_sign n) as (neg & E & Hneg).
  assert (Hsp : forall ds : cstr, ds = dec_nonneg (Z.abs n) -> (span is_digit (ds ++ b)).1 = ds).
  { intros ds ->. by rewrite span_all. }
  assert (Hmatch : forall A (f : bool -> cstr -> A),
    (let '(x, y) := match dec n ++ b with c :: l' => if beq c (zb 45) then (true, l') else (false, dec n ++ b) | [] => (false, dec n ++ b) end in f x y)
    = f neg (dec_nonneg (Z.abs n) ++ b)).
  { intros A f. rewrite E. destruct neg; [done|]. cbn [app]. destruct (dec_nonneg (Z.abs n)) as [|c l]; [done|].
    apply Forall_cons in Hdig as [Hc%is_digit_range _]. unfold digit_val in Hc. cbn [app].
    rewrite (proj2 (beq_neq c (zb 45))); [done|]. intros ->. change (bz (zb 45)) with 45 in Hc. lia. }
  rewrite Hmatch, Hsp by done. assert (Hl : length (dec n) = ((if neg then 1 else 0) + length (dec_nonneg (Z.abs n)))%nat).
  { rewrite E, length_app. by destruct neg. }
  destruct (dec_nonneg (Z.abs n)) as [|c l] eqn:En; [done|]. rewrite Hu.
  destruct (Z.leb_spec (2 ^ 63) (Z.abs n)); [lia|].
  replace (if neg then - Z.abs n else Z.abs n) with n by (by destruct neg). fold (sd_bits n).
  unfold with_storage. destruct (sd_bits n =? 0); [|done]. f_equal. rewrite <- Hl. by apply found_put.
Qed.

(** ** The span of an array the parser accepts *)

(** Text that leaves the scan of [array_end] at its depth. *)
Definition balanced (t : cstr) : Prop :=
  forall rest i depth, 1 <= depth ->
    array_end (t ++ rest) i depth false false = array_end rest (i + length t) depth false false.

Definition unbracketed (c : byte) : bool := negb (beq c quote) && negb (beq c (zb 91)) && negb (beq c (zb 93)).

Lemma balanced_app a b : balanced a -> balanced b -> balanced (a ++ b).
Proof.
  intros Ha Hb rest i depth Hd. rewrite <- app_assoc, Ha, Hb, length_app by done. f_equal. lia.
Qed.

Lemma balanced_plain t : Forall (fun c => unbracketed c = true) t -> balanced t.
Proof.
  induction 1 as [|c t Hc _ IH]; intros rest i depth Hd; [by rewrite Nat.add_0_r|].
  unfold unbracketed in Hc. rewrite !andb_true_iff, !negb_true_iff in Hc. destruct Hc as [[H1 H2] H3].
  cbn [app array_end]. rewrite H1, H2, H3, IH by done. f_equal. simpl. lia.
Qed.

Lemma balanced_brackets t : balanced t -> balanced (zb 91 :: t ++ [zb 93]).
Proof.
  intros Ht rest i depth Hd. cbn [app array_end]. change (beq (zb 91) quote) with false. change (beq (zb 91) (zb 91)) with true.
  cbn iota. rewrite <- app_assoc, Ht by lia. cbn [app array_end]. change (beq (zb 93) quote) with false.
  change (beq (zb 93) (zb 91)) with false. change (beq (zb 93) (zb 93)) with true. cbn iota.
  destruct (Z.eqb_spec (depth + 1 - 1) 0); [lia|]. destruct (Z.ltb_spec (depth + 1 - 1) 0); [lia|].
  f_equal; [|lia]. cbn [length]. rewrite length_app. simpl. lia.
Qed.

Lemma balanced_braces t : balanced t -> balanced (zb 123 :: t ++ [zb 125]).
Proof.
  intros Ht. change (zb 123 :: t ++ [zb 125]) with ([zb 123] ++ t ++ [zb 125]).
  repeat apply balanced_app; [| done |]; apply balanced_plain; by repeat constructor.
Qed.

(** A string's text inside the scan. *)
Definition in_string (w : cstr) : Prop :=
  forall rest i depth, array_end (w ++ rest) i depth true false = array_end rest (i + length w) depth true false.

Lemma in_string_nil : in_string [].
Proof. intros rest i depth. by rewrite Nat.add_0_r. Qed.

Lemma in_string_cons c w : beq c quote = false -> beq c backslash = false -> in_string w -> in_string (c :: w).
Proof. intros H1 H2 Hw rest i depth. cbn [app array_end]. rewrite H1, H2, Hw. f_equal. simpl. lia. Qed.

Lemma in_string_escape e w : in_string w -> in_string (backslash :: e :: w).
Proof.
  intros Hw rest i depth. cbn [app array_end]. change (beq backslash backslash) with true. cbn iota.
  rewrite Hw. f_equal. simpl. lia.
Qed.

Lemma hex_in_string c v : hex_val c = Some v -> beq c quote = false /\ beq c backslash = false.
Proof.
  byte_fact (fun c => match hex_val c with Some _ => negb (beq c quote) && negb (beq c backslash) | None => true end) c H.
  intros E. rewrite E in H. by rewrite andb_true_iff, !negb_true_iff in H.
Qed.

Lemma hex4_in_string a b c d v w : hex4 a b c d = Some v -> in_string w -> in_string (a :: b :: c :: d :: w).
Proof.
  unfold hex4. destruct (hex_val a) eqn:Ea; [|done]. destruct (hex_val b) eqn:Eb; [|done].
  destruct (hex_val c) eqn:Ec; [|done]. destruct (hex_val d) eqn:Ed; [|done]. intros _ Hw.
  apply hex_in_string in Ea as [? ?], Eb as [? ?], Ec as [? ?], Ed as [? ?]. do 4 (apply in_string_cons; [done | done |]). done.
Qed.

Lemma parse_chars_span l out s rest :
  parse_chars l out = Ok s rest -> exists w, l = w ++ quote :: rest /\ in_string w.
Proof.
  revert out s rest. induction l as [l IH] using (induction_ltof1 _ (@length byte)).
  unfold ltof in IH. intros out s rest. destruct l as [|c l1]; cbn [parse_chars]; [done|].
  assert (Hrec : forall l' out' p, (length l' < length (c :: l1))%nat -> c :: l1 = p ++ l' ->
    (forall w, in_string w -> in_string (p ++ w)) ->
    parse_chars l' out' = Ok s rest -> exists w, c :: l1 = w ++ quote :: rest /\ in_string w).
  { intros l' out' p Hl Ep Hp H. destruct (IH l' Hl _ _ _ H) as (w & -> & Hw).
    exists (p ++ w). split; [by rewrite Ep, <- app_assoc | by apply Hp]. }
  destruct (beq c quote) eqn:Eq; [intros [= <- <-]; apply beq_eq in Eq as ->; exists []; split; [done | apply in_string_nil]|].
  destruct (beq c backslash) eqn:Eb.
  - apply beq_eq in Eb as ->. destruct l1 as [|e l2]; [done|].
    destruct (simple_escape e); [apply (Hrec _ _ [backslash; e]); [simpl; lia | done | by intros; apply in_string_escape]|].
    destruct (beq e (zb 117)); [|done]. destruct l2 as [|a [|b [|c1 [|d l3]]]]; try done.
    destruct (hex4 a b c1 d) as [cp|] eqn:H4; [|done].
    assert (H3 : forall out', parse_chars l3 out' = Ok s rest -> exists w, backslash :: e :: a :: b :: c1 :: d :: l3 = w ++ quote :: rest /\ in_string w).
    { intros out'. apply (Hrec _ _ [backslash; e; a; b; c1; d]); [simpl; lia | done |].
      intros w Hw. apply in_string_escape. by eapply hex4_in_string. }
    destruct (_ && _); [|apply H3]. destruct l3 as [|s1 [|u [|a2 [|b2 [|c2 [|d2 l4]]]]]]; try apply H3.
    destruct (beq s1 backslash && _) eqn:Es; [|apply H3]. apply andb_prop in Es as [->%beq_eq _].
    destruct (hex4 a2 b2 c2 d2) as [lo|] eqn:H5; [|done]. destruct (_ && _); [|apply H3].
    apply (Hrec _ _ [backslash; e; a; b; c1; d; backslash; u; a2; b2; c2; d2]); [simpl; lia | done |].
    intros w Hw. apply in_string_escape. eapply (hex4_in_string a b c1 d); [done|]. apply in_string_escape. by eapply hex4_in_string.
  - apply (Hrec _ _ [c]); [simpl; lia | done |]. intros w Hw. by apply in_string_cons.
Qed.

Lemma parse_string_span l s rest : parse_string l = Ok s rest -> exists w, l = w ++ rest /\ balanced w.
Proof.
  unfold parse_string. destruct l as [|c l]; [done|]. destruct (beq c quote) eqn:Eq; [|done]. apply beq_eq in Eq as ->.
  intros (w & -> & Hw)%parse_chars_span. exists (quote :: w ++ [quote]). split; [by rewrite <- app_comm_cons, <- app_assoc|].
  intros rest' i depth _. cbn [app array_end]. change (beq quote quote) with true. cbn iota.
  rewrite <- app_assoc, Hw. cbn [app array_end]. change (beq quote backslash) with false. change (beq quote quote) with true.
  cbn iota. f_equal. cbn [length]. rewrite length_app. simpl. lia.
Qed.

Lemma skip_ws_split l : exists w, l = w ++ skip_ws l /\ balanced w.
Proof.
  induction l as [|c l (w & IH & Hw)]; [exists []; split; [done | by apply balanced_plain]|].
  cbn [skip_ws]. destruct (is_ws c) eqn:E; [|exists []; split; [done | by apply balanced_plain]].
  exists (c :: w). split; [by rewrite IH at 1|]. change (c :: w) with ([c] ++ w). apply balanced_app; [|done].
  apply balanced_plain. repeat constructor.
  byte_fact (fun c => implb (is_ws c) (unbracketed c)) c Hf. by rewrite E in Hf.
Qed.

Lemma literal_split lit l rest : literal lit l = Some rest -> l = lit ++ rest.
Proof.
  revert l. induction lit as [|c lit IH]; intros l; cbn [literal]; [by intros [= ->]|].
  destruct l as [|d l]; [done|]. destruct (beq d c) eqn:E; [|done]. apply beq_eq in E as ->. intros ->%IH. done.
Qed.

Lemma parse_number_split l d rest : parse_number l = Ok d rest -> exists w, l = w ++ rest /\ balanced w.
Proof.
  unfold parse_number. pose proof (number_token_app l) as H. pose proof (number_token_chars l) as Hc.
  destruct (number_token l) as [token r]. cbn [fst snd] in *. destruct token as [|c token]; [done|].
  destruct (stod _); [|done]. intros [= <- <-]. exists (c :: token). split; [done|]. apply balanced_plain.
  eapply Forall_impl; [exact Hc|]. intros x Hx.
  byte_fact (fun c => implb (number_char c) (unbracketed c)) x Hf. by rewrite Hx in Hf.
Qed.

(** What a call of the parser consumed, up to [tail]. *)
Definition spans (l tail : cstr) (r : res Value) : Prop :=
  match r with Ok _ rest => exists w, l = w ++ tail ++ rest /\ balanced w | _ => True end.

Lemma spans_pre l l' w tail r : l = w ++ l' -> balanced w -> spans l' tail r -> spans l tail r.
Proof.
  intros -> Hw. destruct r as [v rest| |]; [|done..]. intros (w' & -> & Hw'). exists (w ++ w').
  split; [by rewrite <- app_assoc | by apply balanced_app].
Qed.

Lemma spans_ws l tail r : spans (skip_ws l) tail r -> spans l tail r.
Proof. destruct (skip_ws_split l) as (w & El & Hw). by apply (spans_pre _ _ w). Qed.

Lemma spans_here tail v rest : spans (tail ++ rest) tail (Ok v rest).
Proof. exists []. split; [done | by apply balanced_plain]. Qed.

(** From inside brackets to the whole. *)
Lemma spans_array l r : spans l [zb 93] r -> spans (zb 91 :: l) [] r.
Proof.
  destruct r as [v rest| |]; [|done..]. intros (w & -> & Hw). exists (zb 91 :: w ++ [zb 93]).
  split; [by cbn [app]; rewrite <- app_assoc | by apply balanced_brackets].
Qed.

Lemma spans_object l r : spans l [zb 125] r -> spans (zb 123 :: l) [] r.
Proof.
  destruct r as [v rest| |]; [|done..]. intros (w & -> & Hw). exists (zb 123 :: w ++ [zb 125]).
  split; [by cbn [app]; rewrite <- app_assoc | by apply balanced_braces].
Qed.

Lemma balanced_one c : unbracketed c = true -> balanced [c].
Proof. intros H. apply balanced_plain. by repeat constructor. Qed.

Lemma parse_spans fuel :
  (forall depth l, spans l [] (parse_value fuel depth l)) /\
  (forall depth l arr, spans l [zb 93] (parse_elements fuel depth l arr)) /\
  (forall depth l obj, spans l [zb 125] (parse_members fuel depth l obj)).
Proof.
  apply (parse_ind (fun _ _ l r => spans l [] r) (fun _ _ l _ r => spans l [zb 93] r) (fun _ _ l _ r => spans l [zb 125] r)); [|done..].
  clear fuel. intros fuel IHV IHE IHM. split_and!.
  - intros depth l. cbn [parse_value]. apply spans_ws. destruct (skip_ws l) as [|c l']; [done|].
    destruct (beq c quote).
    { destruct (parse_string (c :: l')) as [s rest| |] eqn:E; [|done..]. by apply parse_string_span in E. }
    destruct (beq c (zb 123) || beq c (zb 91)) eqn:Ec.
    { destruct (_ <=? _)%nat; [done|]. destruct (beq c (zb 123)) eqn:Eo.
      - apply beq_eq in Eo as ->. apply spans_object, spans_ws. destruct (skip_ws l') as [|d rest]; [apply IHM|].
        destruct (beq d (zb 125)) eqn:Ed; [|apply IHM]. apply beq_eq in Ed as ->. apply (spans_here [zb 125]).
      - cbn [orb] in Ec. apply beq_eq in Ec as ->. apply spans_array, spans_ws. destruct (skip_ws l') as [|d rest]; [apply IHE|].
        destruct (beq d (zb 93)) eqn:Ed; [|apply IHE]. apply beq_eq in Ed as ->. apply (spans_here [zb 93]). }
    clear Ec.
    assert (Hlit : forall lit v, Forall (fun c => unbracketed c = true) lit ->
      spans (c :: l') [] match literal lit (c :: l') with Some rest => Ok v rest | None => Err (str "bad literal") end).
    { intros lit v Hl. destruct (literal lit (c :: l')) as [rest|] eqn:E; [|done]. apply literal_split in E.
      exists lit. split; [done | by apply balanced_plain]. }
    destruct (beq c (zb 116)); [apply Hlit; by repeat constructor|].
    destruct (beq c (zb 102)); [apply Hlit; by repeat constructor|].
    destruct (beq c (zb 110)); [apply Hlit; by repeat constructor|].
    destruct (_ || _); [|done]. destruct (parse_number (c :: l')) as [d rest| |] eqn:E; [|done..].
    by apply parse_number_split in E.
  - intros depth l arr. cbn [parse_elements]. specialize (IHV depth l).
    destruct (parse_value fuel depth l) as [v rest| |]; [|done..]. destruct IHV as (w & -> & Hw). cbn [app].
    destruct (skip_ws_split rest) as (s & Er & Hs). destruct (skip_ws rest) as [|c rest']; [done|]. subst rest.
    destruct (beq c comma) eqn:Ec.
    + apply beq_eq in Ec as ->. apply (spans_pre _ rest' (w ++ s ++ [comma])); [by rewrite <- !app_assoc | | apply IHE].
      repeat apply balanced_app; try done. by apply balanced_one.
    + destruct (beq c (zb 93)) eqn:Ed; [|done]. apply beq_eq in Ed as ->. exists (w ++ s). split; [by rewrite <- app_assoc|].
      by apply balanced_app.
  - intros depth l obj. cbn [parse_members]. apply spans_ws. destruct (parse_string (skip_ws l)) as [key rest| |] eqn:E; [|done..].
    apply parse_string_span in E as (k & -> & Hk). destruct (skip_ws_split rest) as (s & Er & Hs).
    destruct (skip_ws rest) as [|c rest']; [done|]. subst rest. destruct (beq c colon) eqn:Ec; [|done]. apply beq_eq in Ec as ->.
    apply (spans_pre _ rest' (k ++ s ++ [colon])); [by rewrite <- !app_assoc | |].
    { repeat apply balanced_app; try done. by apply balanced_one. }
    specialize (IHV depth rest'). destruct (parse_value fuel depth rest') as [v rest2| |]; [|done..].
    destruct IHV as (w & -> & Hw). cbn [app]. destruct (skip_ws_split rest2) as (s2 & Er & Hs2).
    destruct (skip_ws rest2) as [|c2 rest3]; [done|]. subst rest2. destruct (beq c2 comma) eqn:Ec2.
    + apply beq_eq in Ec2 as ->. apply (spans_pre _ rest3 (w ++ s2 ++ [comma])); [by rewrite <- !app_assoc | | apply IHM].
      repeat apply balanced_app; try done. by apply balanced_one.
    + destruct (beq c2 (zb 125)) eqn:Ed; [|done]. apply beq_eq in Ed as ->. exists (w ++ s2). split; [by rewrite <- app_assoc|].
      by apply balanced_app.
Qed.

(** The span of an array the parser accepts is the array. *)
Lemma array_end_of_parse t items x i :
  parse t = Ok (Array items) [] -> match t with c :: _ => beq c (zb 91) = true | [] => False end ->
  match last t with Some c => beq c (zb 93) = true | None => False end ->
  array_end (t ++ x) i 0 false false = Some (i + length t - 1)%nat.
Proof.
  intros Hp Hh Hl. destruct t as [|c l]; [done|]. apply beq_eq in Hh as ->. unfold parse, parse_with in Hp.
  change (skip_ws (zb 91 :: l)) with (zb 91 :: l) in Hp. unfold text_fuel in Hp.
  set (fuel := (2 * length (zb 91 :: l) + 1)%nat) in Hp. replace (2 * length (zb 91 :: l) + 2)%nat with (S fuel) in Hp by (subst fuel; lia).
  clearbody fuel. cbn [parse_value] in Hp. change (skip_ws (zb 91 :: l)) with (zb 91 :: l) in Hp. cbn iota in Hp.
  change (beq (zb 91) quote) with false in Hp. change (beq (zb 91) (zb 123)) with false in Hp.
  change (beq (zb 91) (zb 91)) with true in Hp. cbn [orb] in Hp. change (kMaxNestingDepth <=? 0)%nat with false in Hp. cbn iota in Hp.
  assert (Hs : exists w rest, l = w ++ zb 93 :: rest /\ balanced w /\ skip_ws rest = []).
  { destruct (skip_ws_split l) as (s & El & Hs). destruct (skip_ws l) as [|d l'] eqn:Ed.
    - pose proof (proj1 (proj2 (parse_spans fuel)) 1%nat [] []) as Hsp. destruct (parse_elements _ _ _ _) as [v r| |]; [|done..].
      destruct Hsp as (w & Hw & _). by destruct w.
    - destruct (beq d (zb 93)) eqn:E.
      + apply beq_eq in E as ->. exists s, l'. split; [done|]. split; [done|]. by destruct (skip_ws l').
      + pose proof (proj1 (proj2 (parse_spans fuel)) 1%nat (d :: l') []) as Hsp.
        destruct (parse_elements _ _ _ _) as [v r| |]; [|done..]. destruct Hsp as (w & Hw & Hb). exists (s ++ w), r.
        rewrite El, Hw. split; [by rewrite <- app_assoc|]. split; [by apply balanced_app|]. by destruct (skip_ws r). }
  destruct Hs as (w & rest & -> & Hw & Hrest). assert (rest = []) as ->.
  { destruct rest as [|c rest] using rev_ind; [done|]. exfalso. clear IHrest.
    rewrite app_comm_cons, app_comm_cons, !app_assoc, last_snoc in Hl. apply beq_eq in Hl as ->.
    assert (Hn : forall r, skip_ws (r ++ [zb 93]) <> []).
    { induction r as [|a r IH]; [done|]. cbn [app skip_ws]. by destruct (is_ws a). }
    by apply Hn in Hrest. }
  cbn [app array_end]. change (beq (zb 91) quote) with false. change (beq (zb 91) (zb 91)) with true. cbn iota.
  rewrite <- app_assoc, Hw by lia. cbn [app array_end]. change (beq (zb 93) quote) with false. change (beq (zb 93) (zb 91)) with false.
  change (beq (zb 93) (zb 93)) with true. cbn iota. change (0 + 1 - 1 =? 0) with true. cbn iota. f_equal. cbn [length]. rewrite length_app.
  simpl. lia.
Qed.

(** ** Filtering the messages *)

(** The key as a value, before the array: every ["hms"] in [a] is whole, and no
    array follows it. *)
Definition only_values (a : cstr) : bool :=
  forallb (fun j => implb (starts_with kHms (drop j (a ++ kHms)))
                          ((j + 5 <=? length a)%nat && bool_decide (array_after (a ++ kHms) (j + 5) = None)))
          (List.seq 0 (length a)).

Lemma drop_skip_ws s i : drop (skip_ws_from s i) s = skip_ws (drop i s).
Proof.
  unfold skip_ws_from. destruct (skip_ws_split (drop i s)) as (w & E & _).
  assert (H : s = take i s ++ w ++ skip_ws (drop i s)) by (rewrite <- E; symmetry; apply take_drop).
  set (r := skip_ws (drop i s)) in *. clearbody r. clear E. set (p := take i s) in *. clearbody p. subst s.
  rewrite app_assoc, length_app. replace (length (p ++ w) + length r - length r)%nat with (length (p ++ w)) by lia.
  apply drop_app_length.
Qed.

(** What follows a key decides whether an array does. *)
Definition array_follows (l : cstr) : bool :=
  match skip_ws l with
  | c :: l => beq c colon && match skip_ws l with c :: _ => beq c (zb 91) | [] => false end
  | [] => false
  end.

Lemma array_after_none s i : array_after s i = None <-> array_follows (drop i s) = false.
Proof.
  unfold array_after, array_follows. rewrite drop_skip_ws. destruct (skip_ws (drop i s)) as [|c l] eqn:E; [done|].
  destruct (beq c colon); [|done]. rewrite drop_skip_ws.
  assert (Hl : drop (S (skip_ws_from s i)) s = l).
  { rewrite <- (drop_drop s (skip_ws_from s i) 1) || (replace (S (skip_ws_from s i)) with (skip_ws_from s i + 1)%nat by lia; rewrite <- drop_drop).
    by rewrite drop_skip_ws, E. }
  rewrite Hl. destruct (skip_ws l) as [|d l']; [done|]. by destruct (beq d (zb 91)).
Qed.

Lemma skip_ws_quote l y : skip_ws (l ++ quote :: y) = skip_ws l ++ quote :: y.
Proof. induction l as [|c l IH]; [done|]. cbn [app skip_ws]. by destruct (is_ws c). Qed.

Lemma array_follows_quote l y y' : array_follows (l ++ quote :: y) = array_follows (l ++ quote :: y').
Proof.
  unfold array_follows. rewrite !skip_ws_quote. destruct (skip_ws l) as [|c l']; [done|]. cbn [app].
  rewrite !skip_ws_quote. by destruct (skip_ws l').
Qed.

Lemma only_values_spec a x j : only_values a = true -> (j < length a)%nat ->
  starts_with kHms (drop j (a ++ kHms ++ x)) = true ->
  (j + 5 <= length a)%nat /\ array_after (a ++ kHms ++ x) (j + 5) = None.
Proof.
  intros Ho Hj Hs. unfold only_values in Ho. rewrite forallb_forall in Ho. specialize (Ho j). rewrite in_seq in Ho.
  specialize (Ho ltac:(lia)). assert (Hs' : starts_with kHms (drop j (a ++ kHms)) = true).
  { rewrite drop_app_le, app_assoc, starts_with_ext in Hs by (try (rewrite length_app, length_drop; change (length kHms) with 5%nat); lia).
    by rewrite drop_app_le by lia. }
  rewrite Hs' in Ho. cbn [implb] in Ho. apply andb_prop in Ho as [H1%Nat.leb_le H2]. split; [done|].
  rewrite bool_decide_eq_true, array_after_none in H2. rewrite array_after_none. rewrite drop_app_le in H2 |- * by done.
  change (kHms ++ x) with (quote :: (drop 1 kHms ++ x)). change kHms with (quote :: drop 1 kHms) in H2.
  by rewrite (array_follows_quote _ _ (drop 1 kHms)).
Qed.

Lemma array_after_at p w1 w2 l :
  Forall (fun c => is_ws c = true) w1 -> Forall (fun c => is_ws c = true) w2 ->
  array_after (p ++ w1 ++ [colon] ++ w2 ++ zb 91 :: l) (length p) = Some (length (p ++ w1 ++ [colon] ++ w2)).
Proof.
  intros H1 H2. assert (Hw : forall w y, Forall (fun c => is_ws c = true) w ->
    skip_ws (w ++ y) = skip_ws y) by (intros w y; induction 1 as [|c w Hc Hw IH]; [done|]; cbn [app skip_ws]; by rewrite Hc).
  assert (Hat : forall q w c y, Forall (fun c => is_ws c = true) w -> is_ws c = false ->
    skip_ws_from (q ++ w ++ c :: y) (length q) = length (q ++ w)).
  { intros q w c y H Hc. unfold skip_ws_from. rewrite drop_app_length, Hw by done. cbn [skip_ws]. rewrite Hc.
    rewrite app_assoc, length_app. lia. }
  unfold array_after. cbn [app]. rewrite (Hat p w1 colon _ H1 eq_refl).
  replace (p ++ w1 ++ colon :: w2 ++ zb 91 :: l) with ((p ++ w1) ++ colon :: w2 ++ zb 91 :: l) by by rewrite <- app_assoc.
  rewrite drop_app_length. change (beq colon colon) with true. cbn iota.
  replace ((p ++ w1) ++ colon :: w2 ++ zb 91 :: l) with ((p ++ w1 ++ [colon]) ++ w2 ++ zb 91 :: l) by by rewrite <- !app_assoc.
  replace (S (length (p ++ w1))) with (length (p ++ w1 ++ [colon])) by (rewrite !length_app; simpl; lia).
  rewrite (Hat _ w2 (zb 91) l H2 eq_refl). rewrite (app_assoc (p ++ w1 ++ [colon]) w2 (zb 91 :: l)), drop_app_length. change (beq (zb 91) (zb 91)) with true. cbn iota.
  by rewrite <- !app_assoc.
Qed.

Section hms.
Context (target : Z) (a w1 w2 t b : cstr) (items : list Value).
Context (Ha : only_values a = true).
Context (H1 : Forall (fun c => is_ws c = true) w1) (H2 : Forall (fun c => is_ws c = true) w2).
Context (Ht : parse t = Ok (Array items) []).
Context (Hh : match t with c :: _ => beq c (zb 91) = true | [] => False end).
Context (Hl : match last t with Some c => beq c (zb 93) = true | None => False end).

#[local] Abbreviation front := (a ++ kHms ++ w1 ++ [colon] ++ w2).

Lemma filter_hit : forall fuel search, (search <= length a)%nat -> (length a < fuel + search)%nat ->
  filter_from fuel (front ++ t ++ b) target search =
  Some (if existsb (has_code target) items then Some (front ++ dump (Array (without_code target items)) ++ b) else None).
Proof using Ha H1 H2 Ht Hh Hl.
  induction fuel as [|fuel IH]; intros search Hs Hf; [lia|]. cbn [filter_from].
  pose proof (find_str_from_spec kHms (front ++ t ++ b) search) as Hfind.
  assert (Hlen : (search <= length (front ++ t ++ b))%nat) by (rewrite !length_app; lia). specialize (Hfind Hlen).
  assert (Htext : front ++ t ++ b = a ++ kHms ++ (w1 ++ [colon] ++ w2 ++ t ++ b)) by by rewrite <- !app_assoc.
  assert (Hat : starts_with kHms (drop (length a) (front ++ t ++ b)) = true).
  { rewrite Htext, drop_app_length. apply starts_with_app. }
  destruct (find_str_from kHms (front ++ t ++ b) search) as [n|].
  2: { rewrite Hfind in Hat; [done|]. rewrite !length_app. lia. }
  destruct Hfind as (Hn & Hn1 & Hn2). change (length kHms) with 5%nat.
  destruct (Nat.lt_trichotomy n (length a)) as [L|[->|L]]; [| |by rewrite Hn2 in Hat by lia].
  - rewrite Htext in Hn1. destruct (only_values_spec _ _ _ Ha L Hn1) as [Hle Hnone]. rewrite <- Htext in Hnone.
    rewrite Hnone. apply IH; lia.
  - assert (Harr : array_after (front ++ t ++ b) (length a + 5) = Some (length front)).
    { destruct t as [|c t']; [done|]. apply beq_eq in Hh as ->.
      pose proof (array_after_at (a ++ kHms) w1 w2 (t' ++ b) H1 H2) as H. rewrite length_app in H. change (length kHms) with 5%nat in H.
      assert (E : forall k : cstr, (a ++ k ++ w1 ++ [colon] ++ w2) ++ (zb 91 :: t') ++ b = (a ++ k) ++ w1 ++ [colon] ++ w2 ++ zb 91 :: t' ++ b /\
        a ++ k ++ w1 ++ [colon] ++ w2 = (a ++ k) ++ w1 ++ [colon] ++ w2) by (intros k; by rewrite <- !app_assoc).
      destruct (E kHms) as [E1 E2]. rewrite E1, E2. exact H. }
    rewrite Harr. unfold matching_array_end. rewrite drop_app_length.
    assert (Hm : match t ++ b with c :: _ => if beq c (zb 91) then array_end (t ++ b) (length front) 0 false false else None | [] => None end
                 = Some (length front + length t - 1)%nat).
    { rewrite (array_end_of_parse t items b) by done. destruct t as [|c t']; [done|]. cbn [app]. by rewrite Hh. }
    rewrite Hm. assert (0 < length t)%nat by (destruct t; [done | simpl; lia]).
    replace (length front + length t - 1 - length front + 1)%nat with (length t) by lia.
    unfold sub. rewrite drop_app_length, take_app_length, Ht, put_at. by destruct (existsb _ _).
Qed.

Lemma filter_result :
  try_filter_hms_code (front ++ t ++ b) target =
  Some (if existsb (has_code target) items then Some (front ++ dump (Array (without_code target items)) ++ b) else None).
Proof using Ha H1 H2 Ht Hh Hl. apply filter_hit; [lia|]. rewrite !length_app. lia. Qed.
End hms.

Lemma without_code_none target items : existsb (has_code target) (without_code target items) = false.
Proof.
  apply not_true_iff_false. rewrite existsb_exists. intros (x & Hx & Hc). apply filter_In in Hx as [_ Hx]. by rewrite Hc in Hx.
Qed.

(** What is kept of a parsed array prints and parses. *)
Lemma kept_reads target t items : parse t = Ok (Array items) [] -> forallb numbers_ok items = true ->
  parse (dump (Array (without_code target items))) = Ok (Array (without_code target items)) [].
Proof.
  intros Ht Hn. apply parse_bounded in Ht. assert (Hin : forall x, x ∈ without_code target items -> x ∈ items).
  { intros x Hx. apply list_elem_of_In in Hx. apply filter_In in Hx as [Hx _]. by apply list_elem_of_In. }
  destruct Ht as [Hs Hd]. apply sorted_array in Hs. rewrite Forall_forall in Hs. cbn [vdepth] in Hd.
  destruct (fits_array 0 (without_code target items)) as [F1 F2]; [lia | |].
  - apply Forall_forall. intros x Hx%Hin. split; [by apply Hs|].
    pose proof (list_max_in (map vdepth items) (vdepth x)) as H. rewrite list_elem_of_In, in_map_iff in H.
    specialize (H ltac:(exists x; split; [done | by apply list_elem_of_In])). lia.
  - apply parse_of_dump; [done | lia |]. cbn [numbers_ok]. rewrite forallb_forall in Hn |- *.
    intros x Hx%list_elem_of_In%Hin. by apply Hn, list_elem_of_In.
Qed.

(** ** The table of ids *)

Lemma om_find_drop {V} n (m : list (cstr * V)) k v :
  ascending m -> om_find k (drop n m) = Some v -> om_find k m = Some v.
Proof.
  intros Ha H. apply om_elem_find; [done|]. apply om_find_elem in H.
  rewrite <- (take_drop n m). apply elem_of_app. by right.
Qed.

(** A key with an empty or zero value, and a step of the rewriting. *)
Definition zero_at (payload key a sp z b : cstr) : Prop :=
  Found payload key a sp ([quote] ++ z ++ [quote] ++ b) /\ (z = [] \/ z = str "0").

Definition id_step (key value p p' : cstr) : Prop :=
  (exists a sp z b, zero_at p key a sp z b /\ p' = a ++ needle key ++ sp ++ [quote] ++ value ++ [quote] ++ b) \/
  ((forall a sp z b, ~ zero_at p key a sp z b) /\ p' = p).

Lemma found_same payload key a sp x a' sp' x' : Found payload key a sp x -> Found payload key a' sp' x' -> x = x'.
Proof.
  intros F F'. destruct (found_after _ _ _ _ _ F) as (K & Hs & <-), (found_after _ _ _ _ _ F') as (K' & Hs' & <-).
  rewrite K in K'. injection K' as Hk. by rewrite <- Hs, <- Hs', Hk.
Qed.

Lemma patch_zero_at payload key value a sp z b : zero_at payload key a sp z b ->
  patch_string_zero_to payload key value = Some (a ++ needle key ++ sp ++ [quote] ++ value ++ [quote] ++ b).
Proof.
  intros [F Hz]. unfold patch_string_zero_to. destruct (found_after _ _ _ _ _ F) as (-> & Hs & Hd). rewrite Hs, Hd.
  assert (Hx : forall m, Found payload key a sp (m ++ b) ->
    put (length (a ++ needle key ++ sp)) (length m) ([quote] ++ value ++ [quote]) payload = a ++ needle key ++ sp ++ [quote] ++ value ++ [quote] ++ b).
  { intros m Fm. rewrite (found_put _ _ _ _ _ _ _ Fm). do 3 f_equal. cbn [app]. by rewrite <- app_assoc. }
  destruct Hz as [-> | ->]; cbn [app str].
  - change (beq quote quote) with true. cbn [negb]. f_equal. by apply (Hx [quote; quote]).
  - change (beq quote quote) with true. cbn [negb]. f_equal. by apply (Hx (quote :: str "0" ++ [quote])).
Qed.

Lemma patch_zero_inv payload key value p' : patch_string_zero_to payload key value = Some p' ->
  exists a sp z b, zero_at payload key a sp z b.
Proof.
  unfold patch_string_zero_to. destruct (after_key payload key) as [pos|] eqn:E; [|done].
  apply found_exists in E as (a & sp & x & F & ->). destruct (found_after _ _ _ _ _ F) as (_ & Hs & Hd). rewrite Hs, Hd.
  destruct x as [|q [|c l]]; [done..|]. destruct (beq q quote) eqn:Eq; [|done]. apply beq_eq in Eq as ->. cbn [negb].
  destruct (beq c quote) eqn:Ec.
  - apply beq_eq in Ec as ->. intros _. exists a, sp, [], l. split; [exact F | by left].
  - destruct l as [|e l]; [done|]. destruct (beq c (zb 48) && beq e quote) eqn:Ee; [|done].
    apply andb_prop in Ee as [->%beq_eq ->%beq_eq]. intros _. exists a, sp, (str "0"), l. split; [exact F | by right].
Qed.

Lemma patch_id_step key value b p :
  id_step key value p (patch_if (patch_string_zero_to p key value) (b, p)).2 /\
  (patch_if (patch_string_zero_to p key value) (b, p)).1 = b || match patch_string_zero_to p key value with Some _ => true | None => false end.
Proof.
  destruct (patch_string_zero_to p key value) as [p'|] eqn:E; cbn [patch_if fst snd]; (split; [|by destruct b]).
  - left. pose proof (patch_zero_inv _ _ _ _ E) as (a & sp & z & r & Hz). exists a, sp, z, r. split; [done|].
    rewrite (patch_zero_at _ _ value _ _ _ _ Hz) in E. by injection E as <-.
  - right. split; [|done]. intros a sp z r Hz. by rewrite (patch_zero_at _ _ value _ _ _ _ Hz) in E.
Qed.

(** The four steps, each on what the one before left. *)
Definition ids_rewritten (id p p' : cstr) : Prop :=
  exists p1 p2 p3, id_step (str "project_id") (str "lan") p p1 /\ id_step (str "profile_id") (str "lan") p1 p2 /\
    id_step (str "task_id") id p2 p3 /\ id_step (str "subtask_id") id p3 p'.

Lemma rewrite_ids_steps id p : ids_rewritten id p (rewrite_ids id p).2.
Proof.
  unfold rewrite_ids. set (s0 := (false, p)). set (s1 := patch_if (patch_string_zero_to s0.2 _ _) s0).
  set (s2 := patch_if (patch_string_zero_to s1.2 _ _) s1). set (s3 := patch_if (patch_string_zero_to s2.2 _ _) s2).
  assert (H : forall s key value, id_step key value s.2 (patch_if (patch_string_zero_to s.2 key value) s).2).
  { intros [b q] key value. apply patch_id_step. }
  exists s1.2, s2.2, s3.2. split_and!; [apply (H s0) | apply (H s1) | apply (H s2) | apply (H s3)].
Qed.

Lemma until_quote_plain v b :
  Forall (fun c => beq c quote = false /\ beq c backslash = false) v -> until_quote (v ++ quote :: b) = Some v.
Proof.
  induction 1 as [|c v [H1 H2] Hv IH]; [done|]. cbn [app until_quote]. rewrite H1, H2, IH. destruct (v ++ quote :: b) eqn:E; [|done].
  by destruct v.
Qed.

(** A value put after a key is what a reader of the key gets. *)
Lemma peek_value key value a sp b :
  first_after (needle key) a -> Forall (fun c => is_sp c = true) sp ->
  Forall (fun c => beq c quote = false /\ beq c backslash = false) value ->
  json_peek_string_field (a ++ needle key ++ sp ++ [quote] ++ value ++ [quote] ++ b) key = Some value.
Proof.
  intros Ha Hs Hv. assert (F : Found (a ++ needle key ++ sp ++ [quote] ++ value ++ [quote] ++ b) key a sp ([quote] ++ value ++ [quote] ++ b)) by by split.
  unfold json_peek_string_field. destruct (found_after _ _ _ _ _ F) as (-> & Hsk & Hd). rewrite Hsk, Hd.
  cbn [app]. change (beq quote quote) with true. cbn iota. by apply until_quote_plain.
Qed.

Lemma synthetic_id_plain name v :
  Forall (fun c => beq c quote = false /\ beq c backslash = false) (synthetic_subtask_id name v).
Proof.
  unfold synthetic_subtask_id. generalize (fnv1a_32 (match v with [] => name | _ => name ++ [zb 1] ++ v end)). intros h.
  apply Forall_app. split; [by repeat constructor|]. unfold hex8. apply Forall_forall. intros c Hc.
  apply list_elem_of_In, in_map_iff in Hc as (i & <- & _).
  assert (Hd : 0 <= Z.land (Z.shiftr h (4 * (7 - Z.of_nat i))) 15 < 16).
  { change 15 with (Z.ones 4). rewrite Z.land_ones by lia. by apply Z.mod_pos_bound. }
  apply (hex_in_string _ _ (hex_val_lower _ Hd)).
Qed.

(** An id is kept unless the table is full and its keys are all above it. *)
Definition table_ok {V} (m : list (cstr * V)) : Prop := ascending m /\ (length m <= kSubtasks)%nat.

Definition crowded_out {V} (id : cstr) (m : list (cstr * V)) : bool :=
  (length m =? kSubtasks)%nat && forallb (fun kv => klt id kv.1) m.

Lemma ascending_drop {V} n (m : list (cstr * V)) : ascending m -> ascending (drop n m).
Proof. revert n. induction m as [|[k v] m IH]; intros [|n] H; try done. apply IH, H. Qed.

Lemma om_set_length {V} id (t : V) m : ascending m -> (length (om_set id t m) <= S (length m))%nat.
Proof.
  intros Ha. destruct (om_find id m) as [v|] eqn:E; [rewrite (length_om_set_old _ _ v) | rewrite length_om_set_new]; done || lia.
Qed.

Lemma capped_ok {V} id (t : V) m : table_ok m -> table_ok (capped (om_set id t m)).
Proof.
  intros [Ha Hl]. pose proof (om_set_length id t m Ha). split; [by apply ascending_drop, ascending_set|].
  unfold capped. rewrite length_drop. lia.
Qed.

Lemma note_finds {V} id (t : V) m : table_ok m ->
  om_find id (capped (om_set id t m)) = if crowded_out id m then None else Some t.
Proof.
  intros [Ha Hl]. pose proof (om_set_length id t m Ha) as Hs. unfold capped, crowded_out.
  set (n := (length (om_set id t m) - kSubtasks)%nat). assert (Hn : (n <= 1)%nat) by lia.
  destruct m as [|[k1 v1] m]; [subst n; cbn; by rewrite keq_refl|]. destruct Ha as [Hall Ha].
  cbn [om_set] in *. destruct (klt id k1) eqn:E1.
  - assert (Habove : Forall (fun kv => klt id kv.1 = true) ((k1, v1) :: m)).
    { constructor; [done|]. eapply Forall_impl; [exact Hall|]. intros kv. by apply klt_trans. }
    rewrite (proj2 (forallb_forall _ _)), andb_true_r.
    2: { rewrite Forall_forall in Habove. intros kv Hkv%list_elem_of_In. by apply Habove. }
    subst n. cbn [length] in *. destruct (Nat.eqb_spec (S (length m)) kSubtasks) as [->|].
    + replace (S kSubtasks - kSubtasks)%nat with 1%nat by done. cbn [drop]. by apply om_find_above.
    + replace (S (S (length m)) - kSubtasks)%nat with O by lia. cbn [drop om_find]. by rewrite keq_refl.
  - cbn [forallb fst]. rewrite E1, andb_false_r. destruct (klt k1 id) eqn:E2.
    + assert (Hk : keq id k1 = false) by (apply keq_neq; intros ->; by rewrite klt_irrefl in E2).
      destruct n as [|[|n]]; [| | lia]; cbn [drop om_find]; rewrite ?Hk; apply om_find_set.
    + subst n. cbn [length] in *. replace (S (length m) - kSubtasks)%nat with O by lia. cbn [drop om_find].
      unfold keq. by rewrite E1, E2.
Qed.

(** Patching an id makes the text longer, and leaves no zero under the last key. *)
Lemma patch_grows p key value p' : (2 <= length value)%nat -> patch_string_zero_to p key value = Some p' -> (length p < length p')%nat.
Proof.
  intros Hv H. pose proof (patch_zero_inv _ _ _ _ H) as (a & sp & z & b & Hz).
  rewrite (patch_zero_at _ _ value _ _ _ _ Hz) in H. apply Some_inj in H. subst p'. destruct Hz as [[-> _ _ _] Hz].
  generalize (needle key). intros k. rewrite !length_app. destruct Hz as [-> | ->]; simpl; lia.
Qed.

Lemma synthetic_id_head name v : exists l, synthetic_subtask_id name v = zb 108 :: l /\ (2 <= length (zb 108 :: l))%nat.
Proof. eexists. split; [reflexivity|]. simpl. lia. Qed.

Lemma rewrite_ids_grows id p : (2 <= length id)%nat -> (rewrite_ids id p).1 = true -> (length p < length (rewrite_ids id p).2)%nat.
Proof.
  intros Hid. set (inv := fun s : bool * cstr => (length p <= length s.2)%nat /\ (s.1 = true -> (length p < length s.2)%nat)).
  assert (Hstep : forall s key value, (2 <= length value)%nat -> inv s -> inv (patch_if (patch_string_zero_to s.2 key value) s)).
  { intros [b q] key value Hv [I1 I2]. cbn [snd fst] in *. destruct (patch_string_zero_to q key value) as [q'|] eqn:E; [|done].
    apply patch_grows in E; [|done]. split; cbn [patch_if fst snd]; lia. }
  assert (H : inv (rewrite_ids id p)); [|apply H]. unfold rewrite_ids.
  repeat (apply Hstep; [done || (simpl; lia)|]). split; [done|]. by intros ?.
Qed.

Lemma rewrite_ids_no_zero name v p a sp z b :
  zero_at (rewrite_ids (synthetic_subtask_id name v) p).2 (str "subtask_id") a sp z b -> False.
Proof.
  destruct (rewrite_ids_steps (synthetic_subtask_id name v) p) as (p1 & p2 & p3 & _ & _ & _ & H).
  destruct H as [(a' & sp' & z' & b' & [F' _] & ->)|[Hno ->]]; [|apply Hno].
  intros [F Hz]. destruct (synthetic_id_head name v) as (l & E & _). rewrite E in F.
  assert (F1 : Found (a' ++ needle (str "subtask_id") ++ sp' ++ [quote] ++ (zb 108 :: l) ++ [quote] ++ b') (str "subtask_id") a' sp'
                ([quote] ++ (zb 108 :: l) ++ [quote] ++ b')) by (destruct F'; by split).
  pose proof (found_same _ _ _ _ _ _ _ _ F1 F) as Hx. by destruct Hz as [-> | ->].
Qed.

(** ** The properties *)

(** The storage flag of a frame is patched exactly when its two storage bits
    are clear, wherever it stands and whatever surrounds it: bit 8 is set, every
    other bit and the rest of the text stay, and a patched frame is left alone. *)
Lemma home_flag_patched (a sp b : cstr) (n : Z) :
  first_after (needle (str "home_flag")) a -> Forall (fun c => is_sp c = true) sp ->
  - 2 ^ 63 < n < 2 ^ 63 -> no_digit b ->
  let frame m := a ++ needle (str "home_flag") ++ sp ++ dec m ++ b in
  exists n', default (frame n) (try_rewrite_home_flag (frame n)) = frame n' /\
    sd_bits n' <> 0 /\ (sd_bits n <> 0 -> n' = n) /\
    (forall i, 0 <= i -> Z.testbit n' i = if (i =? 8) && (sd_bits n =? 0) then true else Z.testbit n i) /\
    (Z.abs n' < 2 ^ 63 -> try_rewrite_home_flag (frame n') = None).
Proof.
  intros Ha Hs Hn Hb frame. destruct (with_storage_bits n) as [H1 H2]. exists (with_storage n).
  assert (H0 : sd_bits n <> 0 -> with_storage n = n) by (intros H; unfold with_storage; by apply Z.eqb_neq in H as ->).
  split_and!; [| done | done | done |].
  - unfold frame. rewrite home_flag_step by (done || lia). destruct (Z.eqb_spec (sd_bits n) 0) as [E|E]; [done|]. by rewrite H0.
  - intros Hlt. unfold frame. rewrite home_flag_step by done. by apply Z.eqb_neq in H1 as ->.
Qed.

(** C10: A frame with an array of health messages, in any text the JSON parser
    accepts, with brackets in strings and nested arrays, and after uses of "hms"
    as a value, loses exactly the messages with the code, and nothing else of its
    text changes; without such a message it stays as it is. The messages kept are
    written anew in the array, which reads back, and a second pass finds nothing. *)
Theorem hms_code_filtered (target : Z) (a w1 w2 t b : cstr) (items : list Value) :
  only_values a = true -> Forall (fun c => is_ws c = true) w1 -> Forall (fun c => is_ws c = true) w2 ->
  parse t = Ok (Array items) [] -> match t with c :: _ => beq c (zb 91) = true | [] => False end ->
  match last t with Some c => beq c (zb 93) = true | None => False end ->
  let frame array := (a ++ kHms ++ w1 ++ [colon] ++ w2) ++ array ++ b in
  let kept := List.filter (fun item => negb (has_code target item)) items in
  try_filter_hms_code (frame t) target =
    Some (if existsb (has_code target) items then Some (frame (dump (Array kept))) else None) /\
  (forallb numbers_ok items = true ->
   parse (dump (Array kept)) = Ok (Array kept) [] /\
   try_filter_hms_code (frame (dump (Array kept))) target = Some None).
Proof.
  intros Ha H1 H2 Ht Hh Hl frame kept. split; [by apply filter_result|]. intros Hn.
  pose proof (kept_reads target t items Ht Hn) as Hk. split; [done|].
  unfold frame. rewrite (filter_result target a w1 w2 _ b kept) by (try done; cbn [dump]; by rewrite ?app_assoc, ?last_snoc).
  unfold kept. fold (without_code target items). by rewrite without_code_none.
Qed.

(** C9: A frame that asks for a cover hands on a text whose ids were empty or
    zero and are now those made of its print's name and token, the rest being
    the text as the patches of the settings left it; the table of ids stays sorted and bounded, loses no
    entry but one, and finds the new id, unless it is full and all its ids are
    above the new one, which is then lost at once. *)
Theorem cover_announced (cfg : Settings) (ip json : cstr) (m : list (cstr * SyntheticSubtask)) (id : cstr) (t : SyntheticSubtask) :
  table_ok m ->
  let r := local_frame cfg ip json m in
  n_cover r = Some (id, t) ->
  let p := patched cfg ip json in
  (exists name, print_name p = Some name /\ id = synthetic_subtask_id name (version t)) /\
  version t = print_version p /\ print_name (n_text r) = Some (subtask_name t) /\
  ids_rewritten id p (n_text r) /\ n_text r <> p /\
  (forall a sp z b, zero_at (n_text r) (str "subtask_id") a sp z b -> False) /\
  table_ok (n_subtasks r) /\
  lookup_synthetic_subtask id (n_subtasks r) = (if crowded_out id m then None else Some t) /\
  (forall k v, k <> id -> lookup_synthetic_subtask k (n_subtasks r) = Some v -> lookup_synthetic_subtask k m = Some v).
Proof.
  intros Hm r Hc p. unfold r, local_frame in *. fold p in Hc |- *.
  unfold try_rewrite_print_ids in *. destruct (print_name p) as [name|] eqn:En; [|done].
  set (id0 := synthetic_subtask_id name (print_version p)) in *. pose proof (rewrite_ids_steps id0 p) as Hsteps.
  assert (Hid : (2 <= length id0)%nat) by (destruct (synthetic_id_head name (print_version p)) as (l & E & Hl); unfold id0; by rewrite E).
  pose proof (rewrite_ids_grows id0 p Hid) as Hg. pose proof (rewrite_ids_no_zero name (print_version p) p) as Hz. fold id0 in Hz.
  destruct (rewrite_ids id0 p) as [[|] q]; [|done]. cbn [fst snd] in *.
  destruct (print_name q) as [name'|] eqn:Eq; [|done]. cbn [n_cover n_text n_subtasks] in *. injection Hc as <- <-.
  cbn [version subtask_name]. unfold note_subtask, lookup_synthetic_subtask.
  split_and!; [by exists name | done | done | done | | exact Hz | by apply capped_ok | by apply note_finds |].
  - intros ->. specialize (Hg eq_refl). lia.
  - intros k v Hk Hf. apply om_find_drop in Hf; [|by apply ascending_set, Hm]. by rewrite om_find_set_ne in Hf.
Qed.

(** ** Witnesses *)

Lemma home_flag_patched_witness :
  let frame m := str "{" ++ needle (str "home_flag") ++ str " " ++ dec m ++ str "}" in
  exists n', default (frame (-1025)) (try_rewrite_home_flag (frame (-1025))) = frame n' /\
    sd_bits n' <> 0 /\ (sd_bits (-1025) <> 0 -> n' = -1025) /\
    (forall i, 0 <= i -> Z.testbit n' i = if (i =? 8) && (sd_bits (-1025) =? 0) then true else Z.testbit (-1025) i) /\
    (Z.abs n' < 2 ^ 63 -> try_rewrite_home_flag (frame n') = None).
Proof. apply (home_flag_patched (str "{") (str " ") (str "}") (-1025)); [by vm_compute | by repeat constructor | lia | done]. Defined.

Definition demo_hms : Value :=
  Array [Object [(str "code", Number (of_int 65543))]; Array []; Object [(str "code", Number (of_int 9)); (str "note", String (str "keep]"))]].

Lemma hms_code_filtered_witness :
  let a := escape (str "note") ++ [colon] ++ kHms ++ [comma] in
  let frame array := (a ++ kHms ++ str " " ++ [colon] ++ str " ") ++ array ++ str "}" in
  let kept := List.filter (fun item => negb (has_code 65543 item)) (as_array demo_hms) in
  try_filter_hms_code (frame (dump demo_hms)) 65543 =
    Some (if existsb (has_code 65543) (as_array demo_hms) then Some (frame (dump (Array kept))) else None) /\
  (forallb numbers_ok (as_array demo_hms) = true ->
   parse (dump (Array kept)) = Ok (Array kept) [] /\
   try_filter_hms_code (frame (dump (Array kept))) 65543 = Some None).
Proof.
  apply (hms_code_filtered 65543 (escape (str "note") ++ [colon] ++ kHms ++ [comma]) (str " ") (str " ") (dump demo_hms) (str "}") (as_array demo_hms));
    [by vm_compute | by repeat constructor | by repeat constructor | by vm_compute | by vm_compute | by vm_compute].
Defined.

Definition demo_report : cstr :=
  [zb 123] ++ needle (str "subtask_name") ++ escape (str "cube") ++ [comma] ++ needle (str "task_id") ++ escape (str "0") ++ [comma] ++
  needle (str "subtask_id") ++ str " " ++ escape [] ++ [zb 125].

Definition demo_subtask : SyntheticSubtask := {| subtask_name := str "cube"; plate_idx := 1; version := [] |}.

Lemma cover_announced_witness :
  let r := local_frame default_settings [] demo_report [] in
  let id := synthetic_subtask_id (str "cube") [] in
  n_cover r = Some (id, demo_subtask) /\ lookup_synthetic_subtask id (n_subtasks r) = Some demo_subtask.
Proof.
  cbv zeta. assert (H : n_cover (local_frame default_settings [] demo_report []) = Some (synthetic_subtask_id (str "cube") [], demo_subtask))
    by (vm_compute; reflexivity).
  split; [exact H|].
  pose proof (cover_announced default_settings [] demo_report [] _ _ ltac:(split; [done | unfold kSubtasks; simpl; lia]) H) as (_ & _ & _ & _ & _ & _ & _ & Hl & _).
  exact Hl.
Defined.

(** A full table loses the id it was just given. *)
Definition full_table : list (cstr * SyntheticSubtask) :=
  (fun i => (str "lan-z" ++ [zb (Z.of_nat i + 97)], demo_subtask)) <$> List.seq 0 16.

Example newest_id_lost :
  let r := local_frame default_settings [] demo_report full_table in
  n_cover r = Some (synthetic_subtask_id (str "cube") [], demo_subtask) /\
  lookup_synthetic_subtask (synthetic_subtask_id (str "cube") []) (n_subtasks r) = None.
Proof. split; vm_compute; reflexivity. Qed.

(** An empty object is given a member after a comma. *)
Example inject_empty :
  try_inject_ipcam_file_local ([zb 123] ++ needle (str "ipcam") ++ str "{}}") =
  Some ([zb 123] ++ needle (str "ipcam") ++ [zb 123] ++ kInject ++ str "}}").
Proof. vm_compute. reflexivity. Qed.

(** An address outside the [net] block is replaced too. *)
Example override_outside :
  try_override_net_ip (needle (str "net") ++ str "{}," ++ needle (str "ip") ++ str "7") (str "10.0.0.2") =
  Some (needle (str "net") ++ str "{}," ++ needle (str "ip") ++ dec (ipv4_le (10, 0, 0, 2))).
Proof. vm_compute. reflexivity. Qed.
