(* ===== verification/JsonText.v ===== *)
(** JSON text that code puts together piece by piece: the members of an object
    in the order they are written, arrays and objects inside each other. [reads]
    says what the parser of [src/json_lite.cpp] makes of a piece wherever it
    stands; the lemmas compose it. *)

From S2P Require Import Prelude OMap Text Json.

(** [t] is read as [v], which nests [n] deep. *)
Record reads (t : cstr) (v : Value) (n : nat) : Prop := {
  r_parse fuel depth rest : (depth + n <= 128)%nat -> stops rest -> (2 * length (t ++ rest) + 1 <= fuel)%nat ->
    parse_value fuel depth (t ++ rest) = Ok v rest;
  r_head : exists c t', t = c :: t' /\ is_ws c = false /\ beq c (zb 93) = false }.

Lemma reads_dump v : sorted v -> numbers_ok v = true -> reads (dump v) v (vdepth v).
Proof. intros Hs Hn. split; [intros; by apply dump_reads_back | by apply dump_head]. Qed.

Lemma reads_string s : reads (escape s) (String s) 0.
Proof. by apply (reads_dump (String s)). Qed.

Lemma reads_mono t v n m : reads t v n -> (n <= m)%nat -> reads t v m.
Proof. intros [Hp Hh] Hle. split; [|done]. intros fuel depth rest Hd. apply Hp. lia. Qed.

Lemma read_elements ts vs n : Forall2 (fun t v => reads t v n) ts vs -> ts <> [] ->
  forall fuel depth rest acc,
    (depth + n <= 128)%nat -> (2 * length (join ts ++ zb 93 :: rest) + 2 <= fuel)%nat ->
    parse_elements fuel depth (join ts ++ zb 93 :: rest) acc = Ok (Array (acc ++ vs)) rest.
Proof.
  induction 1 as [|t v ts vs [Hp _] Ht IH]; [done|]. intros _ fuel depth rest acc Hd Hf.
  destruct fuel as [|fuel]; [lia|]. cbn [parse_elements]. destruct Ht as [|t2 v2 ts vs H2 Ht].
  - cbn [join] in *. rewrite Hp by (done || lia || (simpl; auto)). cbn [skip_ws]. change (is_ws (zb 93)) with false. cbn iota.
    change (beq (zb 93) comma) with false. change (beq (zb 93) (zb 93)) with true. done.
  - rewrite join_cons2 in *. set (tl := join (t2 :: ts)) in *.
    assert (El : (t ++ [comma] ++ tl) ++ zb 93 :: rest = t ++ comma :: (tl ++ zb 93 :: rest)) by (by rewrite <- !app_assoc).
    rewrite El in *. rewrite Hp by (done || lia || (simpl; auto)). cbn [skip_ws]. change (is_ws comma) with false. cbn iota.
    change (beq comma comma) with true. cbn iota. rewrite IH; [by rewrite <- app_assoc | done | done |]. len_lia.
Qed.

(** The text of an array of pieces, and of an object of keys and pieces. *)
Definition array_of (ts : list cstr) : cstr := [zb 91] ++ join ts ++ [zb 93].
Definition member_of (kt : cstr * cstr) : cstr := escape kt.1 ++ [colon] ++ kt.2.
Definition object_of (kts : list (cstr * cstr)) : cstr := [zb 123] ++ join (map member_of kts) ++ [zb 125].

Lemma reads_array ts vs n : Forall2 (fun t v => reads t v n) ts vs -> reads (array_of ts) (Array vs) (S n).
Proof.
  intros H. split; [|by eexists _, _]. intros fuel depth rest Hd Hst Hf. destruct fuel as [|fuel]; [lia|].
  unfold array_of in *. rewrite <- !app_assoc in *. cbn [app parse_value skip_ws] in *. change (is_ws (zb 91)) with false. cbn iota.
  change (beq (zb 91) quote) with false. change (beq (zb 91) (zb 123)) with false. change (beq (zb 91) (zb 91)) with true. cbn [orb].
  destruct (Nat.leb_spec kMaxNestingDepth depth) as [L|_]; [unfold kMaxNestingDepth in L; lia|].
  destruct H as [|t v ts vs H1 H].
  - cbn [join app skip_ws]. change (is_ws (zb 93)) with false. cbn iota. by change (beq (zb 93) (zb 93)) with true.
  - assert (Hsk : exists c l, join (t :: ts) ++ zb 93 :: rest = c :: l /\ is_ws c = false /\ beq c (zb 93) = false).
    { destruct (r_head _ _ _ H1) as (c & t' & -> & Hw & H93). destruct ts; cbn [join app]; eauto. }
    destruct Hsk as (c & l & El & Hw & H93). rewrite El. cbn [skip_ws]. rewrite Hw, H93, <- El.
    apply (read_elements _ (v :: vs) n); [by constructor | done | lia |]. cbn [length] in Hf. lia.
Qed.

Lemma read_members kts kvs n :
  Forall2 (fun kt kv => kt.1 = kv.1 /\ reads kt.2 kv.2 n) kts kvs -> kts <> [] ->
  forall fuel depth rest acc,
    (depth + n <= 128)%nat -> (2 * length (join (map member_of kts) ++ zb 125 :: rest) + 2 <= fuel)%nat ->
    parse_members fuel depth (join (map member_of kts) ++ zb 125 :: rest) acc = Ok (Object (emplace_all acc kvs)) rest.
Proof.
  induction 1 as [|[k t] [k' v] kts kvs [Hk [Hp _]] Ht IH]; [done|]. cbn [fst snd] in *. subst k'.
  intros _ fuel depth rest acc Hd Hf. destruct fuel as [|fuel]; [lia|]. cbn [parse_members emplace_all foldl fst snd].
  assert (Hkey : forall x, skip_ws (escape k ++ x) = escape k ++ x) by done.
  destruct Ht as [|kt2 kv2 kts kvs H2 Ht].
  - cbn [map join] in *. assert (El : member_of (k, t) ++ zb 125 :: rest = escape k ++ colon :: (t ++ zb 125 :: rest))
      by (unfold member_of; by rewrite <- !app_assoc).
    rewrite El in *. rewrite Hkey, parse_string_escape. cbn [skip_ws]. change (is_ws colon) with false. cbn iota.
    change (beq colon colon) with true. cbn iota. rewrite Hp; [|done | simpl; auto | len_lia].
    cbn [skip_ws]. change (is_ws (zb 125)) with false. cbn iota.
    change (beq (zb 125) comma) with false. change (beq (zb 125) (zb 125)) with true. done.
  - cbn [map] in *. rewrite join_cons2 in *. set (tl := join (member_of kt2 :: map member_of kts)) in *.
    assert (El : (member_of (k, t) ++ [comma] ++ tl) ++ zb 125 :: rest = escape k ++ colon :: (t ++ comma :: (tl ++ zb 125 :: rest)))
      by (unfold member_of; by rewrite <- !app_assoc).
    rewrite El in *. rewrite Hkey, parse_string_escape. cbn [skip_ws]. change (is_ws colon) with false. cbn iota.
    change (beq colon colon) with true. cbn iota. rewrite Hp; [|done | simpl; auto | len_lia].
    cbn [skip_ws]. change (is_ws comma) with false. cbn iota. change (beq comma comma) with true. cbn iota.
    rewrite IH; try done. len_lia.
Qed.

Lemma reads_object kts kvs n :
  Forall2 (fun kt kv => kt.1 = kv.1 /\ reads kt.2 kv.2 n) kts kvs -> reads (object_of kts) (Object (emplace_all [] kvs)) (S n).
Proof.
  intros H. split; [|by eexists _, _]. intros fuel depth rest Hd Hst Hf. destruct fuel as [|fuel]; [lia|].
  unfold object_of in *. rewrite <- !app_assoc in *. cbn [app parse_value skip_ws] in *. change (is_ws (zb 123)) with false. cbn iota.
  change (beq (zb 123) quote) with false. change (beq (zb 123) (zb 123)) with true. cbn [orb].
  destruct (Nat.leb_spec kMaxNestingDepth depth) as [L|_]; [unfold kMaxNestingDepth in L; lia|].
  destruct kts as [|kt kts]; [inversion H; subst; by change (is_ws (zb 125)) with false|].
  set (body := join (map member_of (kt :: kts)) ++ zb 125 :: rest) in *.
  assert (Hsk : exists t, skip_ws body = body /\ body = quote :: t).
  { subst body. cbn [map join]. destruct (map _ kts); eexists; split; reflexivity. }
  destruct Hsk as (t & -> & Et). rewrite Et. change (beq quote (zb 125)) with false. cbn iota. rewrite <- Et. subst body.
  apply (read_members _ _ n); [done | done | lia |]. cbn [length] in Hf. lia.
Qed.

Lemma reads_parse t v n : reads t v n -> (n <= 128)%nat -> parse t = Ok v [].
Proof.
  intros [Hp (c & t' & -> & Hw & _)] Hn. unfold parse, parse_with. cbn [skip_ws]. rewrite Hw.
  specialize (Hp (text_fuel (c :: t')) 0%nat []). rewrite app_nil_r in Hp.
  rewrite Hp; [done | lia | by simpl; auto | unfold text_fuel; lia].
Qed.

(** The values in a document: an object's members are maps whose numbers read
    back, and nest less deep than the object. *)
Lemma members_below o : sorted (Object o) -> ascending o /\ Forall (fun kv => sorted kv.2 /\ (vdepth kv.2 < vdepth (Object o))%nat) o.
Proof.
  intros [Ha Hs]. split; [exact Ha|]. apply sorted_members in Hs. rewrite Forall_forall in Hs |- *. intros kv Hin.
  split; [by apply Hs|]. cbn [vdepth].
  assert (H := list_max_in (map (fun kv => vdepth kv.2) o) (vdepth kv.2)
    ltac:(apply list_elem_of_In; apply (in_map (fun kv => vdepth kv.2) o kv); by apply list_elem_of_In)). lia.
Qed.

Lemma members_numbers o : numbers_ok (Object o) = true -> Forall (fun kv => numbers_ok kv.2 = true) o.
Proof. cbn [numbers_ok]. rewrite forallb_forall, Forall_forall. intros H kv Hin. by apply H, list_elem_of_In. Qed.

(** A member a value can be built from. *)
Definition member_fine (kv : cstr * Value) : Prop := sorted kv.2 /\ numbers_ok kv.2 = true /\ (vdepth kv.2 <= 126)%nat.

Lemma inner_members o key obj : sorted (Object o) -> (vdepth (Object o) <= 128)%nat -> om_find key o = Some (Object obj) ->
  numbers_ok (Object obj) = true -> ascending obj /\ Forall member_fine obj.
Proof.
  intros Hs Hd Hf Hn. apply members_below in Hs as [_ Ho]. rewrite Forall_forall in Ho.
  destruct (Ho (key, Object obj) (om_find_elem _ _ _ Hf)) as [Hs Hlt]. cbn [snd] in Hs, Hlt. apply members_below in Hs as [Ha Hm].
  split; [exact Ha|]. apply members_numbers in Hn. rewrite Forall_forall in Hm, Hn |- *. intros kv Hin.
  destruct (Hm kv Hin) as [H1 H2]. split_and!; [done | by apply Hn | lia].
Qed.

Lemma fine_object ms : ascending ms -> Forall member_fine ms ->
  sorted (Object ms) /\ numbers_ok (Object ms) = true /\ (vdepth (Object ms) <= 127)%nat.
Proof.
  intros Ha Hm. split_and!.
  - split; [exact Ha|]. clear Ha. induction Hm as [|kv ms [Hs _] _ IH]; [done|]. by split.
  - cbn [numbers_ok]. apply forallb_forall. intros kv Hin%list_elem_of_In. rewrite Forall_forall in Hm. by apply Hm.
  - cbn [vdepth]. assert (H : (list_max (map (fun kv => vdepth kv.2) ms) <= 126)%nat); [|lia].
    apply list_max_le, List.Forall_forall. intros n [kv [<- Hin]]%in_map_iff. rewrite Forall_forall in Hm.
    apply list_elem_of_In in Hin. by apply Hm in Hin as (_ & _ & H).
Qed.
