(* ===== verification/Firmware.v ===== *)
(** What the plugin knows of firmware ([src/agent.cpp], from [parse_module_into]
    to [render_firmware_json]): the modules of each printer as its frames tell
    them, the order of versions, and the answer to the slicer. *)

From S2P Require Import Prelude OMap Text Double Json JsonText.
From coqutil Require Import Datatypes.RecordSetters.
Import DoubleBraceUpdate.

#[local] Delimit Scope string_scope with string.

Record ModuleFw := { name : cstr; cur_ver : cstr; new_ver : cstr; product_name : cstr; sn : cstr }.
Definition no_module : ModuleFw := {| name := []; cur_ver := []; new_ver := []; product_name := []; sn := [] |}.

(** [DeviceFw] is its map of modules. *)
Definition Modules := list (cstr * ModuleFw).

(** ** Recording a frame *)

Definition field (item : Value) (key : String.string) : cstr := as_string (find item (str key)).
Arguments field item key%_string_scope.
Definition nonempty (s : cstr) : bool := match s with [] => false | _ => true end.

(** The fields of a module after an entry about it. *)
Definition merge_module (item : Value) (m : ModuleFw) : ModuleFw :=
  let cur := field item "sw_ver" in
  let m := if nonempty cur then m {{ cur_ver := cur }} else m in
  let nv := field item "sw_new_ver" in
  let m := if nonempty nv then m {{ new_ver := nv }} else m in
  let alt_nv := field item "new_ver" in
  let m := if nonempty alt_nv && negb (nonempty (new_ver m)) then m {{ new_ver := alt_nv }} else m in
  let alt_cur := field item "cur_ver" in
  let m := if nonempty alt_cur && negb (nonempty (cur_ver m)) then m {{ cur_ver := alt_cur }} else m in
  let prod := field item "product_name" in
  let m := if nonempty prod then m {{ product_name := prod }} else m in
  let sn' := field item "sn" in
  if nonempty sn' then m {{ sn := sn' }} else m.

Definition parse_module_into (dev : Modules) (item : Value) : Modules :=
  if negb (is_object item) then dev
  else
    match field item "name" with
    | [] => dev
    | n =>
        let m := default no_module (om_find n dev) in
        om_set n (merge_module item (m {{ name := n }})) dev
    end.

Definition contains (s needle : cstr) : bool := match find_str needle s with Some _ => true | None => false end.

Definition update_fw_state (dev : Modules) (payload : cstr) : Modules :=
  if negb (contains payload (str "sw_ver")) && negb (contains payload (str "new_ver_list")) then dev
  else
    match parse payload with
    | Ok v _ =>
        let dev :=
          if bool_decide (as_string (find v (str "info.command")) = str "get_version")
          then foldl parse_module_into dev (as_array (find v (str "info.module"))) else dev in
        foldl parse_module_into dev (as_array (find v (str "print.upgrade_state.new_ver_list")))
    | _ => dev
    end.

(** ** The order of versions *)

(** The value of a segment, in an [int]. *)
Definition segment (ds : cstr) : Z := foldl (fun n c => s32 (n * 10 + digit_val c)) 0 ds.

(** [parts]: [None] is a loop that has not ended. *)
Fixpoint parts (fuel : nat) (s : cstr) : option (list Z) :=
  match s with
  | [] => Some []
  | c :: s' =>
      match fuel with
      | O => None
      | S fuel =>
          if beq c point then parts fuel s'
          else let '(ds, rest) := span is_digit s in option_map (cons (segment ds)) (parts fuel rest)
      end
  end.

Definition part (l : list Z) (i : nat) : Z := default 0 (l !! i).

Fixpoint compare_from (n : nat) (i : nat) (pa pb : list Z) : Z :=
  match n with
  | O => 0
  | S n => if part pa i <? part pb i then -1 else if part pb i <? part pa i then 1 else compare_from n (S i) pa pb
  end.

Definition version_compare (a b : cstr) : option Z :=
  if bool_decide (a = b) || negb (nonempty a) || negb (nonempty b) then Some 0
  else
    match parts (length a) a, parts (length b) b with
    | Some pa, Some pb => Some (compare_from (Nat.max (length pa) (length pb)) 0 pa pb)
    | _, _ => None
    end.

(** ** The answer *)

Definition emit_json_string (dst s : cstr) : cstr := dst ++ escape s.

Definition key_text (key : String.string) : cstr := escape (str key) ++ [colon].
Arguments key_text key%_string_scope.

(** The text so far, and whether it has no entry yet. *)
Definition emit_fw_entry (version description : cstr) (d : cstr * bool) : cstr * bool :=
  let '(dst, first) := d in
  let dst := if first : bool then dst else dst ++ [comma] in
  let dst := emit_json_string (dst ++ [zb 123] ++ key_text "version") version in
  let dst := emit_json_string (dst ++ [comma] ++ key_text "url" ++ escape [] ++ [comma] ++ key_text "description") description in
  (dst ++ [zb 125], false).

Definition product_slug (product : cstr) : cstr :=
  if contains product (str "X1") then str "x1"
  else if contains product (str "P2") then str "p1"
  else if contains product (str "P1") then str "p1"
  else if contains product (str "A1") then str "a1"
  else if contains product (str "H2") then str "h2d"
  else if contains product (str "N7") then str "n7"
  else str "all".

Definition nl : cstr := [zb 10].

Definition notes_url (dev : Modules) : cstr :=
  let product := match om_find (str "ota") dev with Some m => product_name m | None => [] end in
  str "https://bambulab.com/en/support/firmware-download/" ++ product_slug product.

Definition desc_current (notes : cstr) : cstr := str "Currently installed firmware. Full changelog at " ++ notes ++ str ".".
Definition desc_new (ver notes : cstr) : cstr :=
  str "New firmware version " ++ ver ++ str " is available." ++ nl ++ nl ++ str "Release notes: " ++ notes ++ nl ++ nl ++
  str "Click 'Update' to install; the printer already knows which package to download. Do not turn off the printer during the update (~10 minutes).".
Definition desc_ams (notes : cstr) : cstr := str "AMS firmware. Release notes: " ++ notes.

(** [None] is a comparison that does not end. *)
Definition emit_ota (m : ModuleFw) (notes : cstr) (d : cstr * bool) : option (cstr * bool) :=
  let d := if nonempty (cur_ver m) then emit_fw_entry (cur_ver m) (desc_current notes) d else d in
  if nonempty (new_ver m) then
    match version_compare (new_ver m) (cur_ver m) with
    | None => None
    | Some r => Some (if 0 <? r then emit_fw_entry (new_ver m) (desc_new (new_ver m) notes) d else d)
    end
  else Some d.

Definition is_ams (key : cstr) : bool := bool_decide (key = str "ams") || starts_with (str "ams/") key.
Definition advertised (m : ModuleFw) : cstr := if nonempty (new_ver m) then new_ver m else cur_ver m.

Definition emit_ams (notes : cstr) (d : cstr * bool) (kv : cstr * ModuleFw) : cstr * bool :=
  if negb (is_ams kv.1) then d
  else match advertised kv.2 with [] => d | ver => emit_fw_entry ver (desc_ams notes) d end.

(** [dev] is what [device_fw_] has of the printer. *)
Definition render_firmware_json (dev_id : cstr) (device : option Modules) : option cstr :=
  let dev := default [] device in
  let notes := notes_url dev in
  let body := emit_json_string ([zb 123] ++ key_text "devices" ++ [zb 91; zb 123] ++ key_text "dev_id") dev_id in
  let body := body ++ [comma] ++ key_text "firmware" ++ [zb 91] in
  let ota := match om_find (str "ota") dev with Some m => emit_ota m notes (body, true) | None => Some (body, true) end in
  match ota with
  | None => None
  | Some (body, _) =>
      let body := body ++ [zb 93; comma] ++ key_text "ams" ++ [zb 91] in
      let ams_fw := (foldl (emit_ams notes) ([], true) dev).1 in
      let body := match ams_fw with [] => body | _ => body ++ [zb 123] ++ key_text "firmware" ++ [zb 91] ++ ams_fw ++ [zb 93; zb 125] end in
      Some (body ++ [zb 93; zb 125; zb 93; zb 125])
  end.

Definition has_firmware_data (device : option Modules) : bool :=
  match device with Some (_ :: _) => true | _ => false end.

(** ** Versions *)

(** A dotted version, its segments as digits; the value of its [i]-th segment. *)
Definition dotted (segs : list cstr) : cstr :=
  match segs with [] => [] | s :: segs => s ++ concat (map (cons point) segs) end.

Definition seg_ok (ds : cstr) : Prop := Forall (fun c => is_digit c = true) ds /\ ds <> [] /\ undec ds < 2 ^ 31.

Definition seg_value (segs : list cstr) (i : nat) : Z := default 0 (undec <$> segs !! i).

Lemma undec_bounds ds : Forall (fun c => is_digit c = true) ds -> 0 <= undec ds.
Proof.
  induction ds as [|c ds IH] using rev_ind; [done|]. intros [Hd Hc]%Forall_app. apply Forall_cons in Hc as [Hc%is_digit_range _].
  rewrite undec_snoc. specialize (IH Hd). lia.
Qed.

Lemma segment_undec ds : Forall (fun c => is_digit c = true) ds -> undec ds < 2 ^ 31 -> segment ds = undec ds.
Proof.
  unfold segment. induction ds as [|c ds IH] using rev_ind; [done|]. intros [Hd Hc]%Forall_app Hlt.
  pose proof (undec_bounds _ Hd). apply Forall_cons in Hc as [Hc%is_digit_range _]. rewrite undec_snoc in Hlt |- *.
  rewrite foldl_app, IH by (done || lia). cbn [foldl]. apply signed_small; lia.
Qed.

Lemma parts_dots fuel s : parts (S fuel) (point :: s) = parts fuel s.
Proof. done. Qed.

Lemma parts_seg fuel ds rest :
  seg_ok ds -> match rest with [] => True | c :: _ => is_digit c = false end ->
  parts (S fuel) (ds ++ rest) = option_map (cons (undec ds)) (parts fuel rest).
Proof.
  intros (Hd & Hne & Hlt) Hr. destruct ds as [|c ds]; [done|]. cbn [app parts].
  assert (Hc : beq c point = false).
  { apply Forall_cons in Hd as [Hc%is_digit_range _]. unfold digit_val in Hc. apply beq_neq. intros ->. change (bz point) with 46 in Hc. lia. }
  rewrite Hc. change (c :: ds ++ rest) with ((c :: ds) ++ rest). rewrite span_all by done. by rewrite segment_undec.
Qed.

Lemma parts_dotted segs fuel : Forall seg_ok segs -> (2 * length segs <= S fuel)%nat -> parts fuel (dotted segs) = Some (map undec segs).
Proof.
  intros H. destruct segs as [|s segs]; [by destruct fuel|]. apply Forall_cons in H as [Hs H].
  cbn [dotted map length]. revert s Hs fuel. induction segs as [|s2 segs IH]; intros s Hs fuel Hf.
  - destruct fuel as [|fuel]; [simpl in Hf; lia|]. cbn [map concat]. rewrite parts_seg by done. by destruct fuel.
  - apply Forall_cons in H as [H2 H]. destruct fuel as [|[|fuel]]; [simpl in Hf; lia..|].
    cbn [map concat]. rewrite parts_seg by done. cbn [app]. rewrite parts_dots, IH by (done || (simpl in *; lia)). done.
Qed.

Lemma dotted_length segs : Forall seg_ok segs -> (2 * length segs <= S (length (dotted segs)))%nat.
Proof.
  intros H. destruct segs as [|s segs]; [simpl; lia|]. apply Forall_cons in H as [(_ & Hs & _) H]. cbn [dotted].
  rewrite length_app. assert (0 < length s)%nat by (destruct s; [done | simpl; lia]).
  assert (Hc : (2 * length segs <= length (concat (map (cons point) segs)))%nat).
  { clear Hs. induction H as [|s2 segs (_ & Hs2 & _) H IH]; [done|]. cbn [map concat]. rewrite length_app.
    cbn [length]. assert (0 < length s2)%nat by (destruct s2; [done | simpl; lia]). lia. }
  cbn [length]. lia.
Qed.

Lemma compare_from_spec n i pa pb :
  (Nat.max (length pa) (length pb) <= i + n)%nat -> (forall j, (j < i)%nat -> part pa j = part pb j) ->
  let r := compare_from n i pa pb in
  (r = 0 /\ forall j, part pa j = part pb j) \/
  (exists k, (forall j, (j < k)%nat -> part pa j = part pb j) /\
    ((r = -1 /\ part pa k < part pb k) \/ (r = 1 /\ part pb k < part pa k))).
Proof.
  revert i. induction n as [|n IH]; intros i Hl Heq r.
  - left. split; [done|]. intros j. destruct (decide (j < i)%nat); [by apply Heq|].
    unfold part. rewrite !lookup_ge_None_2 by lia. done.
  - subst r. cbn [compare_from]. destruct (Z.ltb_spec (part pa i) (part pb i)); [right; exists i; split; [done | left; done]|].
    destruct (Z.ltb_spec (part pb i) (part pa i)); [right; exists i; split; [done | right; done]|].
    apply IH; [lia|]. intros j Hj. destruct (decide (j = i)) as [->|]; [lia | apply Heq; lia].
Qed.

Lemma parts_loops fuel c s : is_digit c = false -> beq c point = false -> parts fuel (c :: s) = None.
Proof.
  intros H1 H2. induction fuel as [|fuel IH]; [done|]. cbn [parts]. rewrite H2. cbn [span]. rewrite H1. by rewrite IH.
Qed.

(** [xs] is the higher version: its first segment that differs is greater, a
    missing one counting as zero. *)
Definition higher (xs ys : list cstr) : Prop :=
  exists k, (forall j, (j < k)%nat -> seg_value xs j = seg_value ys j) /\ seg_value ys k < seg_value xs k.

Lemma part_value segs i : part (map undec segs) i = seg_value segs i.
Proof. unfold part, seg_value. by rewrite list_lookup_fmap. Qed.

Lemma higher_asym xs ys : higher xs ys -> higher ys xs -> False.
Proof.
  intros (k & H1 & H2) (k' & H1' & H2'). destruct (Nat.lt_trichotomy k k') as [L|[->|L]]; [rewrite H1' in H2 by done; lia | lia |].
  rewrite H1 in H2' by done. lia.
Qed.

Lemma version_order xs ys : Forall seg_ok xs -> Forall seg_ok ys ->
  exists r, version_compare (dotted xs) (dotted ys) = Some r /\ (0 < r <-> xs <> [] /\ ys <> [] /\ higher xs ys).
Proof.
  intros Hx Hy. unfold version_compare. assert (Hne : forall segs, Forall seg_ok segs -> nonempty (dotted segs) = bool_decide (segs <> [])).
  { intros segs H. destruct segs as [|s segs]; [done|]. apply Forall_cons in H as [(_ & Hs & _) _]. by destruct s. }
  rewrite !Hne by done. case_bool_decide as E; cbn [orb].
  { exists 0. split; [done|]. split; [lia|]. intros (_ & _ & k & _ & H).
    pose proof (dotted_length xs Hx) as Lx. pose proof (dotted_length ys Hy) as Ly. rewrite <- E in Ly.
    pose proof (parts_dotted xs _ Hx Lx) as P1. pose proof (parts_dotted ys _ Hy Ly) as P2. rewrite <- E, P1 in P2. injection P2 as P2.
    rewrite <- (part_value xs), <- (part_value ys), P2 in H. lia. }
  case_bool_decide as Ex; cbn [negb orb]; [|exists 0; split; [done|]; split; [lia|]; tauto].
  case_bool_decide as Ey; cbn [negb orb]; [|exists 0; split; [done|]; split; [lia|]; tauto].
  rewrite !parts_dotted by (done || by apply dotted_length). eexists. split; [reflexivity|].
  destruct (compare_from_spec (Nat.max (length (map undec xs)) (length (map undec ys))) 0 (map undec xs) (map undec ys)) as [[-> H]|(k & H & [[-> Hk]|[-> Hk]])];
    [lia | intros; lia | | |]; (split; [intros Hr | intros (_ & _ & Hh)]); try lia.
  - destruct Hh as (k & _ & Hk). rewrite <- (part_value xs), <- (part_value ys), H in Hk. lia.
  - exfalso. apply (higher_asym xs ys Hh). exists k. split; [|by rewrite <- !part_value]. intros j Hj. rewrite <- !part_value. symmetry. by apply H.
  - split_and!; [done..|]. exists k. split; [|by rewrite <- !part_value]. intros j Hj. rewrite <- !part_value. by apply H.
Qed.

(** ** Printing *)

Definition entry_text (e : cstr * cstr) : cstr :=
  object_of [(str "version", escape e.1); (str "url", escape []); (str "description", escape e.2)].
Definition entry_value (e : cstr * cstr) : Value :=
  Object [(str "description", String e.2); (str "url", String []); (str "version", String e.1)].

Lemma reads_entry e : reads (entry_text e) (entry_value e) 1.
Proof.
  assert (H : Forall2 (fun kt kv => kt.1 = kv.1 /\ reads kt.2 kv.2 0)
    [(str "version", escape e.1); (str "url", escape []); (str "description", escape e.2)]
    [(str "version", String e.1); (str "url", String []); (str "description", String e.2)]).
  { repeat constructor; by apply reads_string || apply (reads_string _). }
  apply reads_object in H. exact H.
Qed.

Lemma join_snoc l x : join (l ++ [x]) = match l with [] => x | _ => join l ++ [comma] ++ x end.
Proof.
  induction l as [|a l IH]; [done|]. destruct l as [|b l]; [done|]. change ((a :: b :: l) ++ [x]) with (a :: b :: (l ++ [x])).
  rewrite join_cons2. change (b :: l ++ [x]) with ((b :: l) ++ [x]). rewrite IH, join_cons2. by rewrite <- !app_assoc.
Qed.

(** The text after [pre] and entries. *)
Definition emitted (pre : cstr) (es : list (cstr * cstr)) : cstr * bool :=
  (pre ++ join (map entry_text es), bool_decide (es = [])).

Lemma emit_emitted pre es ver desc : emit_fw_entry ver desc (emitted pre es) = emitted pre (es ++ [(ver, desc)]).
Proof.
  unfold emit_fw_entry, emitted. rewrite map_app. cbn [map]. rewrite join_snoc.
  assert (Ht : forall d, emit_json_string (emit_json_string (d ++ [zb 123] ++ key_text "version") ver ++ [comma] ++ key_text "url" ++ escape [] ++ [comma] ++ key_text "description") desc ++ [zb 125]
    = d ++ entry_text (ver, desc)).
  { intros d. unfold emit_json_string, entry_text, object_of, member_of, key_text. cbn [map join fst snd]. by rewrite <- !app_assoc. }
  rewrite Ht. f_equal; [|symmetry; apply bool_decide_eq_false; by destruct es].
  destruct es as [|e es]; [rewrite bool_decide_eq_true_2 by done; cbn [map join]; by rewrite app_nil_r|].
  rewrite bool_decide_eq_false_2 by done. cbn [map]. by rewrite <- !app_assoc.
Qed.

Definition current_entry (m : ModuleFw) (notes : cstr) : list (cstr * cstr) :=
  if nonempty (cur_ver m) then [(cur_ver m, desc_current notes)] else [].

Definition ams_entries (notes : cstr) (dev : Modules) : list (cstr * cstr) :=
  flat_map (fun kv => if is_ams kv.1 && nonempty (advertised kv.2) then [(advertised kv.2, desc_ams notes)] else []) dev.

(** The versions an answer lists for the AMS modules of a table, in its order:
    those of the module "ams" and of the modules "ams/...", the new version of a
    module when it has one, and else its installed one. *)
Inductive ams_versions : Modules -> list cstr -> Prop :=
  | Ams_none : ams_versions [] []
  | Ams_other k m dev vs : k <> str "ams" -> (forall rest, k <> str "ams/" ++ rest) -> ams_versions dev vs -> ams_versions ((k, m) :: dev) vs
  | Ams_new k m dev vs : k = str "ams" \/ (exists rest, k = str "ams/" ++ rest) -> new_ver m <> [] ->
      ams_versions dev vs -> ams_versions ((k, m) :: dev) (new_ver m :: vs)
  | Ams_current k m dev vs : k = str "ams" \/ (exists rest, k = str "ams/" ++ rest) -> new_ver m = [] -> cur_ver m <> [] ->
      ams_versions dev vs -> ams_versions ((k, m) :: dev) (cur_ver m :: vs)
  | Ams_unversioned k m dev vs : new_ver m = [] -> cur_ver m = [] -> ams_versions dev vs -> ams_versions ((k, m) :: dev) vs.

Lemma is_ams_spec k : is_ams k = true <-> k = str "ams" \/ exists rest, k = str "ams/" ++ rest.
Proof. unfold is_ams. by rewrite orb_true_iff, bool_decide_eq_true, starts_with_spec. Qed.

Lemma ams_entries_spec notes dev :
  exists versions, ams_versions dev versions /\ ams_entries notes dev = map (fun v => (v, desc_ams notes)) versions.
Proof.
  induction dev as [|[k m] dev (vs & Hv & IH)]; [exists []; by split; [constructor|]|]. cbn [ams_entries flat_map fst snd].
  change (flat_map _ dev) with (ams_entries notes dev). rewrite IH. unfold advertised.
  destruct (is_ams k) eqn:Ek; cbn [andb app].
  - apply is_ams_spec in Ek. destruct (new_ver m) as [|c v] eqn:En; cbn [nonempty].
    + destruct (cur_ver m) as [|c v] eqn:Ec; cbn [nonempty app]; [exists vs; split; [by apply Ams_unversioned | done]|].
      exists (cur_ver m :: vs). split; [by apply Ams_current; rewrite ?Ec | by rewrite Ec].
    + exists (new_ver m :: vs). split; [by apply Ams_new; rewrite ?En | by rewrite En].
  - exists vs. split; [|done]. apply Ams_other; [intros H | intros rest H | done]; (rewrite (proj2 (is_ams_spec k)) in Ek; [done | eauto]).
Qed.

Lemma emit_ams_all notes dev pre es : foldl (emit_ams notes) (emitted pre es) dev = emitted pre (es ++ ams_entries notes dev).
Proof.
  revert es. induction dev as [|kv dev IH]; intros es; cbn [foldl ams_entries flat_map]; [by rewrite app_nil_r|].
  change (flat_map _ dev) with (ams_entries notes dev). unfold emit_ams at 2. destruct (is_ams kv.1); cbn [negb andb]; [|apply IH].
  destruct (advertised kv.2) as [|c v] eqn:E; cbn [nonempty]; [apply IH|]. rewrite emit_emitted, IH. by rewrite <- app_assoc.
Qed.

Lemma emit_ota_entries m notes pre xs ys : cur_ver m = dotted xs -> new_ver m = dotted ys -> Forall seg_ok xs -> Forall seg_ok ys ->
  exists newer : bool, (newer = true <-> xs <> [] /\ ys <> [] /\ higher ys xs) /\
    emit_ota m notes (emitted pre []) =
    Some (emitted pre (current_entry m notes ++ if newer then [(new_ver m, desc_new (new_ver m) notes)] else [])).
Proof.
  intros Ec En Hx Hy. destruct (version_order ys xs Hy Hx) as (r & Hr & Hh). exists (0 <? r). split; [rewrite Z.ltb_lt; tauto|].
  unfold emit_ota. rewrite En, Ec, Hr. assert (Hcur : (if nonempty (dotted xs) then emit_fw_entry (dotted xs) (desc_current notes) (emitted pre []) else emitted pre []) = emitted pre (current_entry m notes)).
  { unfold current_entry. rewrite Ec. destruct (nonempty (dotted xs)); [|done]. apply emit_emitted. }
  rewrite Hcur. destruct (nonempty (dotted ys)) eqn:E.
  - destruct (0 <? r); [by rewrite emit_emitted | by rewrite app_nil_r].
  - destruct (Z.ltb_spec 0 r) as [L|L]; [|by rewrite app_nil_r]. exfalso. apply Hh in L as (Hne & _).
    destruct ys as [|s ys]; [done|]. apply Forall_cons in Hy as [(_ & Hs & _) _]. by destruct s.
Qed.

(** The answer, as a value. *)
Definition answer (dev_id : cstr) (fw ams : list (cstr * cstr)) : Value :=
  Object [(str "devices", Array [Object [
    (str "ams", Array (match ams with [] => [] | _ => [Object [(str "firmware", Array (map entry_value ams))]] end));
    (str "dev_id", String dev_id);
    (str "firmware", Array (map entry_value fw))]])].

Lemma reads_entries es : reads (array_of (map entry_text es)) (Array (map entry_value es)) 2.
Proof. apply reads_array. induction es as [|e es IH]; constructor; [apply reads_entry | done]. Qed.

Definition answer_text (dev_id : cstr) (fw ams : list (cstr * cstr)) : cstr :=
  object_of [(str "devices", array_of [object_of [
    (str "dev_id", escape dev_id);
    (str "firmware", array_of (map entry_text fw));
    (str "ams", array_of (match ams with [] => [] | _ => [object_of [(str "firmware", array_of (map entry_text ams))]] end))]])].

Lemma reads_answer dev_id fw ams : parse (answer_text dev_id fw ams) = Ok (answer dev_id fw ams) [].
Proof.
  apply (reads_parse _ _ 7); [|lia].
  assert (Hams : reads (array_of (match ams with [] => [] | _ => [object_of [(str "firmware", array_of (map entry_text ams))]] end))
    (Array (match ams with [] => [] | _ => [Object [(str "firmware", Array (map entry_value ams))]] end)) 4).
  { apply reads_array. destruct ams as [|e ams]; constructor; [|constructor].
    apply (reads_object [(_, _)] [(str "firmware", Array (map entry_value (e :: ams)))] 2). repeat constructor; apply reads_entries. }
  assert (Hdev : Forall2 (fun kt kv => kt.1 = kv.1 /\ reads kt.2 kv.2 4)
    [(str "dev_id", escape dev_id); (str "firmware", array_of (map entry_text fw)); (str "ams", array_of (match ams with [] => [] | _ => [object_of [(str "firmware", array_of (map entry_text ams))]] end))]
    [(str "dev_id", String dev_id); (str "firmware", Array (map entry_value fw)); (str "ams", Array (match ams with [] => [] | _ => [Object [(str "firmware", Array (map entry_value ams))]] end))]).
  { constructor; [split; [done|]; eapply reads_mono; [apply reads_string | lia]|].
    constructor; [split; [done|]; eapply reads_mono; [apply reads_entries | lia]|]. constructor; [by split | constructor]. }
  apply reads_object in Hdev. apply (reads_object [(_, _)] [(str "devices", Array [_])] 6). constructor; [split; [done|] | constructor].
  apply reads_array. constructor; [exact Hdev | constructor].
Qed.

(** ** Recording *)

Definition modules_ok (m : Modules) : Prop := ascending m /\ Forall (fun kv => name kv.2 = kv.1 /\ kv.1 <> []) m.

(** No field is forgotten. *)
Definition keeps (a b : ModuleFw) : Prop :=
  (cur_ver a <> [] -> cur_ver b <> []) /\ (new_ver a <> [] -> new_ver b <> []) /\
  (product_name a <> [] -> product_name b <> []) /\ (sn a <> [] -> sn b <> []).

#[export] Instance keeps_preorder : PreOrder keeps.
Proof.
  split; [intros m; by split_and!|]. intros a b c (A1 & A2 & A3 & A4) (B1 & B2 & B3 & B4). split_and!; intros H; auto.
Qed.

(** An entry that names a module. *)
Definition names (item : Value) (n : cstr) : Prop := is_object item = true /\ field item "name" = n /\ n <> [].

Lemma nonempty_true s : nonempty s = true <-> s <> [].
Proof. by destruct s. Qed.

Lemma merge_fields item m :
  merge_module item m =
  {| name := name m;
     cur_ver := (let c := if nonempty (field item "sw_ver") then field item "sw_ver" else cur_ver m in
                 if nonempty (field item "cur_ver") && negb (nonempty c) then field item "cur_ver" else c);
     new_ver := (let v := if nonempty (field item "sw_new_ver") then field item "sw_new_ver" else new_ver m in
                 if nonempty (field item "new_ver") && negb (nonempty v) then field item "new_ver" else v);
     product_name := if nonempty (field item "product_name") then field item "product_name" else product_name m;
     sn := if nonempty (field item "sn") then field item "sn" else sn m |}.
Proof.
  unfold merge_module. generalize (field item "sw_ver") (field item "sw_new_ver") (field item "new_ver") (field item "cur_ver")
    (field item "product_name") (field item "sn"). intros c1 c2 c3 c4 c5 c6. destruct m as [n cv nv pn s].
  destruct (nonempty c1); cbn; destruct (nonempty c2); cbn; destruct (nonempty c3 && _); cbn; destruct (nonempty c4 && _); cbn;
    destruct (nonempty c5); cbn; by destruct (nonempty c6).
Qed.

Lemma merge_spec item n m :
  let m' := merge_module item (m {{ name := n }}) in
  name m' = n /\ keeps m m' /\
  cur_ver m' = (if nonempty (field item "sw_ver") then field item "sw_ver" else if nonempty (cur_ver m) then cur_ver m else field item "cur_ver").
Proof.
  intros m'. subst m'. rewrite merge_fields. destruct m as [n0 cv nv pn s]. unfold keeps. cbn. split_and!; try done.
  - by destruct (field item "sw_ver"), (field item "cur_ver"), cv.
  - by destruct (field item "sw_new_ver"), (field item "new_ver"), nv.
  - by destruct (field item "product_name"), pn.
  - by destruct (field item "sn"), s.
  - by destruct (field item "sw_ver"), (field item "cur_ver"), cv.
Qed.

Lemma parse_module_skip dev item : (forall n, ~ names item n) -> parse_module_into dev item = dev.
Proof.
  intros H. unfold parse_module_into. destruct (is_object item) eqn:Eo; [|done]. cbn [negb].
  destruct (field item "name") as [|c n] eqn:E; [done|]. exfalso. by apply (H (c :: n)).
Qed.

Lemma parse_module_named dev item n : names item n ->
  parse_module_into dev item = om_set n (merge_module item ((default no_module (om_find n dev)) {{ name := n }})) dev.
Proof.
  intros (Ho & Hn & Hne). unfold parse_module_into. rewrite Ho, Hn. by destruct n.
Qed.

Lemma names_dec item : (exists n, names item n) \/ (forall n, ~ names item n).
Proof.
  destruct (is_object item) eqn:Eo; [|right; intros n [H _]; congruence].
  destruct (field item "name") as [|c n] eqn:E; [right; by intros n (_ & <- & H)|left; by exists (c :: n)].
Qed.

Lemma parse_module_ok dev item : modules_ok dev -> modules_ok (parse_module_into dev item).
Proof.
  intros [Ha Hn]. destruct (names_dec item) as [[n Hi]|Hi]; [|by rewrite parse_module_skip].
  rewrite (parse_module_named _ _ n Hi). split; [by apply ascending_set|]. apply Forall_om_set; [|done].
  cbn [fst snd]. destruct (merge_spec item n (default no_module (om_find n dev))) as (-> & _).
  split; [done | apply Hi].
Qed.

Lemma parse_module_keeps dev item k old : om_find k dev = Some old ->
  exists new, om_find k (parse_module_into dev item) = Some new /\ keeps old new.
Proof.
  intros Hk. destruct (names_dec item) as [[n Hi]|Hi]; [|rewrite parse_module_skip by done; by exists old].
  rewrite (parse_module_named _ _ n Hi). destruct (decide (n = k)) as [->|Hne].
  - rewrite om_find_set, Hk. eexists. split; [done|]. cbn [default].
    by destruct (merge_spec item k old) as (_ & H & _).
  - rewrite om_find_set_ne by done. by exists old.
Qed.

(** A version once installed stays until another entry tells one. *)
Definition says (item : Value) (n : cstr) : Prop := names item n /\ field item "sw_ver" <> [].

Definition runs (dev : Modules) (n v : cstr) : Prop := exists m, om_find n dev = Some m /\ cur_ver m = v.

Lemma parse_module_runs dev item n : says item n -> runs (parse_module_into dev item) n (field item "sw_ver").
Proof.
  intros [Hi Hv]. rewrite (parse_module_named _ _ n Hi). eexists. rewrite om_find_set. split; [done|].
  destruct (merge_spec item n (default no_module (om_find n dev))) as (_ & _ & ->).
  by rewrite (proj2 (nonempty_true _)).
Qed.

Lemma parse_module_runs_on dev item n v : v <> [] -> runs dev n v -> ~ says item n -> runs (parse_module_into dev item) n v.
Proof.
  intros Hv (m & Hm & Hc) Hs. destruct (names_dec item) as [[n' Hi]|Hi]; [|rewrite parse_module_skip by done; by exists m].
  rewrite (parse_module_named _ _ n' Hi). destruct (decide (n' = n)) as [->|Hne].
  - eexists. rewrite om_find_set, Hm. split; [done|]. change (default no_module (Some m)) with m.
    destruct (merge_spec item n m) as (_ & _ & ->).
    destruct (field item "sw_ver") as [|c l] eqn:E; [|exfalso; apply Hs; split; [done | by rewrite E]]. cbn [nonempty].
    rewrite Hc. by rewrite (proj2 (nonempty_true v)).
  - exists m. by rewrite om_find_set_ne.
Qed.

Lemma fold_modules items : forall dev, modules_ok dev ->
  let dev' := foldl parse_module_into dev items in
  modules_ok dev' /\ (forall k old, om_find k dev = Some old -> exists new, om_find k dev' = Some new /\ keeps old new) /\
  (forall n v, v <> [] -> runs dev n v -> Forall (fun i => ~ says i n) items -> runs dev' n v).
Proof.
  induction items as [|item items IH]; intros dev Hd; cbn [foldl]; [split_and!; [done | intros k old H; by exists old | done]|].
  destruct (IH _ (parse_module_ok dev item Hd)) as (H1 & H2 & H3). split_and!; [done | |].
  - intros k old Hk. destruct (parse_module_keeps dev item k old Hk) as (mid & Hm & Hk1).
    destruct (H2 k mid Hm) as (new & Hn & Hk2). exists new. split; [done | by etrans].
  - intros n v Hv Hr [Hi Hf]%Forall_cons. apply H3; [done | by apply parse_module_runs_on | done].
Qed.

(** ** The properties *)

(** Recording a frame keeps the table well formed (sorted, every module under
    its own name) and forgets no field of any module; a reply to get_version sets
    the installed version of each module to the last one it tells. *)
Lemma reply_recorded (dev : Modules) (payload : cstr) :
  modules_ok dev ->
  let dev' := update_fw_state dev payload in
  modules_ok dev' /\
  (forall k old, om_find k dev = Some old -> exists new, om_find k dev' = Some new /\ keeps old new) /\
  (forall v rest i1 item i2 n,
     contains payload (str "sw_ver") = true -> parse payload = Ok v rest ->
     as_string (find v (str "info.command")) = str "get_version" ->
     as_array (find v (str "info.module")) = i1 ++ item :: i2 ->
     says item n -> Forall (fun i => ~ says i n) (i2 ++ as_array (find v (str "print.upgrade_state.new_ver_list"))) ->
     exists m, om_find n dev' = Some m /\ cur_ver m = field item "sw_ver").
Proof.
  intros Hd dev'. unfold dev', update_fw_state. split_and!.
  - destruct (_ && _); [done|]. destruct (parse payload) as [v rest| |]; [|done..].
    apply fold_modules. case_bool_decide; [by apply fold_modules | done].
  - intros k old Hk. assert (Hid : exists new, om_find k dev = Some new /\ keeps old new) by by exists old.
    destruct (_ && _); [done|]. destruct (parse payload) as [v rest| |]; [|done..].
    set (l2 := as_array (find v (str "print.upgrade_state.new_ver_list"))). case_bool_decide.
    + destruct (fold_modules (as_array (find v (str "info.module"))) dev Hd) as (Hm & H1 & _). destruct (H1 k old Hk) as (mid & Hmid & K1).
      destruct (fold_modules l2 _ Hm) as (_ & H2 & _). destruct (H2 k mid Hmid) as (new & Hn & K2). exists new. split; [done | by etrans].
    + by apply (fold_modules l2 dev Hd).
  - intros v rest i1 item i2 n Hc Hp Hcmd Harr Hs Hf. rewrite Hc, Hp. cbn [negb andb]. rewrite bool_decide_eq_true_2 by done.
    rewrite Harr, foldl_app. cbn [foldl]. destruct (fold_modules i1 dev Hd) as (H1 & _).
    rewrite <- foldl_app. destruct (fold_modules (i2 ++ as_array (find v (str "print.upgrade_state.new_ver_list"))) _ (parse_module_ok _ item H1)) as (_ & _ & H3).
    apply H3; [by destruct Hs | by apply parse_module_runs | done].
Qed.

(** C11: The answer about the firmware of a printer whose installed and
    advertised versions of the main module are, when they are not empty, segments
    of digits below 2^31 with points between them is given, and is JSON: for its
    device it lists the installed version of the main module and then a newer
    one exactly when the advertised version is the higher, segment by segment as
    numbers, and in one element the versions of the AMS modules, if any. With
    other versions no answer may come ([letter_loops]). *)
Theorem firmware_answered (dev_id : cstr) (device : option Modules) (xs ys : list cstr) :
  let dev := default [] device in
  let m := default no_module (om_find (str "ota") dev) in
  let notes := notes_url dev in
  cur_ver m = dotted xs -> new_ver m = dotted ys -> Forall seg_ok xs -> Forall seg_ok ys ->
  exists text (newer : bool) ams,
    render_firmware_json dev_id device = Some text /\
    (newer = true <-> xs <> [] /\ ys <> [] /\ higher ys xs) /\ ams_versions dev ams /\
    parse text = Ok (answer dev_id
      (match xs with [] => [] | _ => [(dotted xs, desc_current notes)] end ++ if newer then [(dotted ys, desc_new (dotted ys) notes)] else [])
      (map (fun v => (v, desc_ams notes)) ams)) [].
Proof.
  intros dev m notes Ec En Hx Hy. unfold render_firmware_json. fold dev notes.
  set (body := emit_json_string _ dev_id ++ _).
  destruct (emit_ota_entries m notes body xs ys Ec En Hx Hy) as (newer & Hnew & Hemit).
  set (fw := current_entry m notes ++ _) in *.
  assert (Hota : match om_find (str "ota") dev with Some m => emit_ota m notes (body, true) | None => Some (body, true) end = Some (emitted body fw)).
  { replace (body, true) with (emitted body []) by (unfold emitted; cbn [map join]; by rewrite app_nil_r). rewrite <- Hemit.
    subst m. by destruct (om_find (str "ota") dev). }
  rewrite Hota. change ([], true) with (emitted [] []). rewrite emit_ams_all. cbn [app].
  destruct (ams_entries_spec notes dev) as (vs & Hvs & Hams). rewrite Hams. set (ams := map _ vs).
  unfold emitted. cbn [fst app]. eexists _, newer, vs. split; [reflexivity|]. split; [done|]. split; [done|]. fold ams.
  assert (Hfw : fw = match xs with [] => [] | _ => [(dotted xs, desc_current notes)] end ++ (if newer then [(dotted ys, desc_new (dotted ys) notes)] else [])).
  { unfold fw, current_entry. rewrite Ec, En. f_equal. destruct xs as [|x xs]; [done|]. apply Forall_cons in Hx as [(_ & Hne & _) _].
    by destruct x. }
  rewrite <- Hfw. clear Hfw.
  etrans; [|apply (reads_answer dev_id fw ams)]. f_equal. unfold answer_text, object_of, array_of, member_of, body, emit_json_string, key_text.
  destruct ams as [|e ams]; [cbn [map join fst snd]; by rewrite <- !app_assoc|].
  destruct (join (map entry_text (e :: ams))) as [|c t] eqn:E; [destruct ams; discriminate E|]. rewrite <- E.
  cbn [map join fst snd]. do 4 (rewrite <- ?app_assoc; cbn [app]). done.
Qed.

(** ** Witnesses *)

Definition demo_frame : cstr :=
  object_of [(str "info", object_of [
    (str "command", escape (str "get_version"));
    (str "module", array_of [
      object_of [(str "name", escape (str "ota")); (str "sw_ver", escape (str "01.08.01.00")); (str "sw_new_ver", escape (str "01.10"));
                 (str "product_name", escape (str "P2S"))];
      object_of [(str "name", escape (str "ams/0")); (str "sw_ver", escape (str "00.00.06.49"))]])])].

Definition demo_modules : Modules := update_fw_state [] demo_frame.

Definition demo_item : Value :=
  Object [(str "name", String (str "ams/0")); (str "sw_ver", String (str "00.00.06.49"))].

Definition demo_reply : Value := match parse demo_frame with Ok v _ => v | _ => Null end.
Definition demo_first : Value := default Null (as_array (find demo_reply (str "info.module")) !! 0%nat).

Lemma reply_recorded_witness :
  exists m, om_find (str "ams/0") demo_modules = Some m /\ cur_ver m = str "00.00.06.49".
Proof.
  pose proof (reply_recorded [] demo_frame ltac:(split; [done | constructor])) as H. cbv zeta in H. destruct H as (_ & _ & H).
  specialize (H demo_reply [] [demo_first] demo_item [] (str "ams/0")).
  specialize (H ltac:(vm_compute; reflexivity) ltac:(vm_compute; reflexivity) ltac:(vm_compute; reflexivity) ltac:(vm_compute; reflexivity)).
  specialize (H ltac:(split; [split_and!|]; vm_compute; done)).
  assert (Hn : as_array (find demo_reply (str "print.upgrade_state.new_ver_list")) = []) by (vm_compute; reflexivity).
  rewrite Hn in H. destruct (H ltac:(constructor)) as (m & Hm & Hc). exists m. split; [exact Hm|].
  rewrite Hc. vm_compute. reflexivity.
Defined.

Definition demo_old : list cstr := [str "01"; str "08"; str "01"; str "00"].
Definition demo_new : list cstr := [str "01"; str "10"].

Lemma firmware_answered_witness :
  exists text (newer : bool) ams,
    render_firmware_json (str "dev") (Some demo_modules) = Some text /\
    (newer = true <-> demo_old <> [] /\ demo_new <> [] /\ higher demo_new demo_old) /\ ams_versions demo_modules ams /\
    parse text = Ok (answer (str "dev")
      ([(dotted demo_old, desc_current (notes_url demo_modules))] ++
       if newer then [(dotted demo_new, desc_new (dotted demo_new) (notes_url demo_modules))] else [])
      (map (fun v => (v, desc_ams (notes_url demo_modules))) ams)) [].
Proof.
  apply (firmware_answered (str "dev") (Some demo_modules) demo_old demo_new); [by vm_compute | by vm_compute | |];
    repeat constructor; by vm_compute.
Defined.

(** A version with a letter is compared forever. *)
Example letter_loops : version_compare (str "01.09b") (str "01.08") = None.
Proof. vm_compute. reflexivity. Qed.

(** A newer version that upgrade_state tells does not replace the one noted before. *)
Example stale_new_version :
  let told v := object_of [(str "print", object_of [(str "upgrade_state", object_of [(str "new_ver_list",
    array_of [object_of [(str "name", escape (str "ota")); (str "new_ver", escape v)]])])])] in
  new_ver (default no_module (om_find (str "ota") (update_fw_state (update_fw_state [] (told (str "01.09"))) (told (str "01.10"))))) = str "01.09".
Proof. vm_compute. reflexivity. Qed.
