(* ===== verification/ErrTable.v ===== *)
(** Error and health codes in words ([src/err_table.cpp]): the forms a code is
    written in, the look-up in sorted tables, and the lines a frame gives. The two
    generated tables of [src/err_table_data.cpp] are arguments; the table of
    server errors is here. *)

From S2P Require Import Prelude OMap Text Double Json.

#[local] Delimit Scope string_scope with string.

Definition kXerrRows : list (Z * cstr) := [
  (1, str "The server hit an unexpected internal fault while handling the request.");
  (2, str "The server's database layer failed while processing the request.");
  (3, str "This client has no activation recorded on this server.");
  (4, str "The request was malformed and could not be understood.");
  (5, str "The request itself is invalid as sent.");
  (6, str "The supplied authentication token is not recognized.");
  (7, str "The authentication token has passed its validity window.");
  (8, str "The client must be updated before it can talk to this server.");
  (9, str "The server must be updated before this client version can talk to it.");
  (10, str "Client and server protocol versions are incompatible.");
  (11, str "A supplied parameter falls outside the permitted range.");
  (12, str "The referenced 3MF file is not present in the expected folder.");
  (13, str "Collecting the support log took too long and timed out.");
  (14, str "A filesystem operation failed on the server.");
  (15, str "The device is not ready to start a firmware upgrade.");
  (16, str "A firmware upgrade for this device is already scheduled.");
  (17, str "The firmware download failed before completion.");
  (18, str "Waiting for the firmware download to finish timed out.");
  (19, str "The firmware upgrade did not complete within the allowed time.");
  (20, str "The firmware upgrade did not succeed.");
  (21, str "The firmware upgrade was requested from an unexpected state.");
  (22, str "A security check rejected the operation.");
  (23, str "A supplied parameter could not be accepted as given.");
  (1000, str "The folder still contains items, so it cannot be removed.");
  (1001, str "A folder with that name already exists.");
  (1002, str "The referenced folder does not exist.");
  (1003, str "The uploaded 3MF is not a G-code project file.");
  (1004, str "The uploaded G-code 3MF does not contain exactly one plate.");
  (1005, str "The bridged MQTT command got no reply from the printer within the request window.");
  (1006, str "That device is no longer bound to this account.");
  (1007, str "No tag matching the query was found.");
  (1008, str "The firmware file for this request is missing.");
  (1009, str "A task is already running for this job.");
  (1010, str "The requested firmware does not exist.");
  (1012, str "The firmware file failed validation.");
  (1013, str "A firmware with that identity already exists.");
  (1014, str "The uploaded 3MF archive is corrupt or unreadable.");
  (1015, str "The supplied bulk option is not supported.");
  (1016, str "Another bulk operation is still running.");
  (1017, str "No bulk action with that identifier was found.");
  (1018, str "The presented licence is not valid for this server.");
  (1018, str "The activation uid was rejected as invalid.");
  (1019, str "The launch request targets a task that is outdated relative to the ongoing one.");
  (1020, str "The launch failed because the task has already finished or was terminated.");
  (1021, str "The launch failed because no unused subtask was available.");
  (1022, str "Launch rejected because the target device is suspended.");
  (1022, str "Launch rejected because the task has already been started.");
  (1023, str "The supplied username and password do not match an account.");
  (1024, str "An account with that username already exists.");
  (1025, str "This account is not permitted to perform the action.");
  (1026, str "Login attempts are arriving too fast; slow down and retry.");
  (1027, str "Cloud-account login is refused because this server does not support it.");
  (1028, str "The Bambu account login attempt failed.");
  (1029, str "Binding the printer to the account failed.");
  (1030, str "The update was skipped because the task is not in progress.");
  (1031, str "The update request carried a bad task count.");
  (1032, str "Too many support logs are already stored to accept another.");
  (1033, str "The requested support log does not exist.");
  (1034, str "Too many support-log collections are already running.");
  (1035, str "The device is currently offline and unreachable.");
  (1036, str "The device information supplied for binding is invalid.");
  (1037, str "The device limit for this licence has been reached.");
  (1038, str "The bind attempt failed on a network error.");
  (1039, str "The bound device never answered the handshake.");
  (1040, str "The statistics query asked for a value outside the allowed range.");
  (1041, str "The SDK call was made with an invalid parameter.");
  (1042, str "The SDK request could not be completed by the server.");
  (1043, str "The SDK login ticket presented is not valid.");
  (1043, str "The SDK client is sending requests too quickly.");
  (1044, str "The SDK caller is not logged in.");
  (1045, str "SDK activation did not succeed.");
  (1046, str "Device login through the SDK failed.");
  (1047, str "No notification configuration with that identity exists.");
  (1048, str "A notification configuration with that identity already exists.");
  (1049, str "The operation was not executed because preconditions were not met.");
  (1050, str "This operation is not supported by the server.");
  (1051, str "The device is busy with other work right now.");
  (1052, str "The device reported an internal fault; its SD card should be checked.");
  (1053, str "The filament settings supplied are not valid.");
  (1054, str "The device's hardware does not support this operation.");
  (1055, str "The requested byte range lies outside the file's bounds.");
  (1056, str "The username must be between 2 and 128 bytes in length.");
  (1057, str "The password must mix numbers, letters and special characters, run at least 8 bytes and no more than 64.");
  (1058, str "Both the date and the timestamp were left empty.");
  (1059, str "The date must be formatted like 2025-01-01 15:00:00.");
  (1060, str "The timestamp is out of range or is not second-granularity.");
  (1061, str "The time zone value must look like UTC+08:00.");
  (1062, str "An account with that identity already exists.");
  (1063, str "No account matches the requested username.");
  (1063, str "This account has hit its device-count ceiling.");
  (1064, str "The region must be either CN or COM.");
  (1065, str "The environment must be one of QA, DEV, PRE, PREUS, CN or COM.");
  (1066, str "There is not enough free storage space available.");
  (1067, str "The HMS model referenced is not supported.");
  (1068, str "The requested HMS information was not found.");
  (1069, str "The firmware is older than the minimum version this server accepts.");
  (1070, str "This server is already activated.");
  (1071, str "The server activation attempt failed.");
  (1072, str "The extruder reports that no filament is loaded.");
  (1073, str "The licence certificate is outside its valid time window.");
  (1074, str "A tag with that name already exists.");
  (1075, str "The folder ordering supplied does not match the expected order.");
  (1076, str "A statistics export is already running.");
  (1077, str "The requested statistics export does not exist.");
  (1078, str "The RTSP relay server is at capacity.");
  (1079, str "This device has reached its RTSP relay limit.");
  (1080, str "Setting up the RTSP relay timed out.");
  (1081, str "The RTSP relay failed to initialize.");
  (10001, str "The caller lacks permission for this action.");
  (10002, str "The upstream service returned nothing at all.");
  (10003, str "The upstream service answered with a negative response.");
  (84033543, str "The printer rejected an MQTT command because its per-command signature was missing or invalid.");
  (84033545, str "The printer rejected a command because its signature or task-id did not verify.")].

(** ** Looking up *)

(** [std::lower_bound] over [l]: the first place whose entry is not below. *)
Fixpoint bound_loop {A} (fuel first count : nat) (below : A -> bool) (l : list A) : nat :=
  match fuel, count with
  | S fuel, S _ =>
      let step := (count / 2)%nat in
      match l !! (first + step)%nat with
      | Some e => if below e then bound_loop fuel (first + step + 1) (count - (step + 1)) below l
                  else bound_loop fuel first step below l
      | None => first
      end
  | _, _ => first
  end.

Definition lower_bound {A} (below : A -> bool) (l : list A) : nat := bound_loop (length l) 0 (length l) below l.

#[local] Abbreviation Table := (list (cstr * cstr)).

(** A key without entry has the empty message. *)
Definition find_message (entries : Table) (key : cstr) : cstr :=
  match entries !! lower_bound (fun e => str_lt e.1 key) entries with
  | Some (k, message) => if bool_decide (key = k) then message else []
  | None => []
  end.

(** ** Forms of a code *)

Definition is_separator (ch : byte) : bool := beq ch (zb 45) || beq ch (zb 95).

(** Digits in lower case without separators; [None] for any other character. *)
Fixpoint fold_hex (raw : cstr) : option cstr :=
  match raw with
  | [] => Some []
  | ch :: raw =>
      if is_separator ch then fold_hex raw
      else if is_digit ch then option_map (cons ch) (fold_hex raw)
      else if in_range (zb 65) ch (zb 70) then option_map (cons (zb (bz ch - 65 + 97))) (fold_hex raw)
      else if in_range (zb 97) ch (zb 102) then option_map (cons ch) (fold_hex raw)
      else None
  end.

Definition pad8 (s : cstr) : cstr := replicate (8 - length s) (zb 48) ++ s.

(** [hex8] of the file. *)
Definition hex8_of (raw : cstr) : cstr :=
  match fold_hex raw with
  | Some out => if (length out =? 0)%nat || (8 <? length out)%nat then [] else pad8 out
  | None => []
  end.

Definition normalize_hms_key (raw : cstr) : cstr :=
  match fold_hex raw with Some key => if (length key =? 16)%nat then key else [] | None => [] end.

Definition hms_key (attr code : Z) : cstr := hex8 attr ++ hex8 code.

Section tables.
Context (hms_entries print_error_entries : Table).

Definition describe_hms (any_format_code : cstr) : cstr :=
  match normalize_hms_key any_format_code with [] => [] | key => find_message hms_entries key end.

(** The messages of a code, its rows being adjacent. *)
Fixpoint join_messages (joined : cstr) (value : Z) (rows : list (Z * cstr)) : cstr :=
  match rows with
  | (code, message) :: rows => if code =? value then join_messages (joined ++ str "; " ++ message) value rows else joined
  | [] => joined
  end.

Definition find_xerr (rows : list (Z * cstr)) (value : Z) : option cstr :=
  match drop (lower_bound (fun r => r.1 <? value) rows) rows with
  | (code, message) :: more => if code =? value then Some (join_messages message value more) else None
  | [] => None
  end.

(** [strtoul] of digits, which saturates. *)
Definition digits_value (code : cstr) : Z := Z.min (undec code) (2 ^ 64 - 1).

Definition to_hex_lower (ch : byte) : byte := if in_range (zb 65) ch (zb 70) then zb (bz ch - 65 + 97) else ch.
Definition lower_hex (ch : byte) : bool := is_digit ch || in_range (zb 97) ch (zb 102).

Definition strip_0x (code : cstr) : cstr :=
  match code with
  | o :: x :: rest => if beq o (zb 48) && (beq x (zb 120) || beq x (zb 88)) then rest else code
  | _ => code
  end.

Definition describe_err_code (code : cstr) : cstr :=
  match code with
  | [] => []
  | _ =>
      if forallb is_digit code then
        let value := digits_value code in
        match find_xerr kXerrRows value with
        | Some joined => joined
        | None => if value <=? 0xFFFFFFFF then find_message print_error_entries (hex8 value) else []
        end
      else
        let hex := strip_0x code in
        if (length hex =? 0)%nat || (8 <? length hex)%nat then []
        else
          let hex := map to_hex_lower hex in
          if forallb lower_hex hex then find_message print_error_entries (pad8 hex) else []
  end.

(** ** Lines *)

Definition make_line (prefix raw message : cstr) : cstr :=
  prefix ++ raw ++ str " -> " ++ match message with [] => str "(unknown)" | _ => message end.

(** The key of an entry of an [hms] array; empty when it has none. *)
Definition hms_entry_key (el : Value) : cstr :=
  match el with
  | String s => normalize_hms_key s
  | Object obj =>
      match om_find (str "attr") obj, om_find (str "code") obj with
      | Some attr, Some code =>
          let parts :=
            if is_number attr && is_number code then Some (hex8 (u32 (as_int 0 attr)), hex8 (u32 (as_int 0 code)))
            else if is_string attr && is_string code then Some (hex8_of (as_string attr), hex8_of (as_string code))
            else None in
          match parts with
          | Some (_ :: _ as a, _ :: _ as c) => a ++ c
          | _ => []
          end
      | _, _ => []
      end
  | _ => []
  end.

Definition collect_hms_array (arr : list Value) : list cstr :=
  flat_map (fun el => match hms_entry_key el with [] => [] | key => [make_line (str "hms code=") key (describe_hms key)] end) arr.

Definition is_err_key (key : cstr) : bool := bool_decide (key = str "err_code" \/ key = str "print_error").

Definition raw_code (val : Value) : cstr := if is_number val then dec (as_int 0 val) else as_string val.

(** The lines of a member itself. *)
Definition member_lines (key : cstr) (val : Value) : list cstr :=
  if bool_decide (key = str "hms") && is_array val then collect_hms_array (as_array val)
  else if is_err_key key && (is_number val || is_string val)
  then [make_line (str "err_code ") (raw_code val) (describe_err_code (raw_code val))]
  else [].

Fixpoint scan_value (v : Value) : list cstr :=
  match v with
  | Object o => concat (map (fun kv => member_lines kv.1 kv.2 ++ scan_value kv.2) o)
  | Array a => concat (map scan_value a)
  | _ => []
  end.

Definition scan_frame_codes (json : cstr) : list cstr :=
  match parse json with Ok v _ => scan_value v | _ => [] end.
End tables.

Definition xerr_entry_count : nat := length kXerrRows.

(** ** The binary search *)

Lemma bound_loop_spec {A} (below : A -> bool) (l : list A) :
  (forall i j x y, (i < j)%nat -> l !! i = Some x -> l !! j = Some y -> below y = true -> below x = true) ->
  forall fuel first count, (count <= fuel)%nat -> (first + count <= length l)%nat ->
    (forall i x, (i < first)%nat -> l !! i = Some x -> below x = true) ->
    (forall i x, (first + count <= i)%nat -> l !! i = Some x -> below x = false) ->
    let r := bound_loop fuel first count below l in
    (forall i x, (i < r)%nat -> l !! i = Some x -> below x = true) /\
    (forall i x, (r <= i)%nat -> l !! i = Some x -> below x = false).
Proof.
  intros Hm. induction fuel as [|fuel IH]; intros first count Hf Hl Hlo Hhi; cbn [bound_loop].
  - split; [done|]. intros i x Hi. apply Hhi. lia.
  - destruct count as [|count]; [split; [done|]; intros i x Hi; apply Hhi; lia|].
    set (step := (S count / 2)%nat). assert (Hs : (step <= count)%nat).
    { subst step. apply Nat.lt_succ_r, Nat.div_lt; lia. }
    destruct (l !! (first + step)%nat) as [e|] eqn:E; [|apply lookup_ge_None in E; lia].
    destruct (below e) eqn:Eb; apply IH; try lia.
    + intros i x Hi Hx. destruct (decide (i = first + step)%nat) as [->|]; [congruence|]. apply (Hm i (first + step)%nat x e); [lia | done..].
    + intros i x Hi Hx. apply (Hhi i x); [lia | done].
    + done.
    + intros i x Hi Hx. destruct (decide (i = first + step)%nat) as [->|]; [congruence|]. apply not_true_iff_false. intros Hb.
      rewrite (Hm (first + step)%nat i e x) in Eb; [done | lia | done..].
Qed.

Lemma lower_bound_spec {A} (below : A -> bool) (l : list A) :
  (forall i j x y, (i < j)%nat -> l !! i = Some x -> l !! j = Some y -> below y = true -> below x = true) ->
  (forall i x, (i < lower_bound below l)%nat -> l !! i = Some x -> below x = true) /\
  (forall i x, (lower_bound below l <= i)%nat -> l !! i = Some x -> below x = false).
Proof.
  intros Hm. apply bound_loop_spec; [done | lia | lia | intros; lia |]. intros i x Hi Hx. apply lookup_lt_Some in Hx. lia.
Qed.

Lemma ascending_lt {V} (m : list (cstr * V)) i j x y :
  ascending m -> (i < j)%nat -> m !! i = Some x -> m !! j = Some y -> str_lt x.1 y.1 = true.
Proof.
  revert i j. induction m as [|[k v] m IH]; intros i j Ha Hij Hx Hy; [done|]. destruct Ha as [Hall Ha].
  destruct j as [|j]; [lia|]. destruct i as [|i]; [|eapply (IH i j); done || lia].
  injection Hx as <-. rewrite Forall_forall in Hall. apply (Hall y). by eapply list_elem_of_lookup_2.
Qed.

(** On a sorted table the search is the look-up. *)
Lemma find_message_lookup entries key : ascending entries -> find_message entries key = default [] (om_find key entries).
Proof.
  intros Ha. unfold find_message.
  destruct (lower_bound_spec (fun e : cstr * cstr => str_lt e.1 key) entries) as [H1 H2].
  { intros i j x y Hij Hx Hy Hb. eapply str_lt_trans; [by eapply (ascending_lt entries i j) | done]. }
  set (r := lower_bound _ entries) in *. destruct (om_find key entries) as [m|] eqn:E.
  - apply om_find_elem, list_elem_of_lookup_1 in E as [n Hn].
    assert (Hirr : str_lt key key = false) by (clear; induction key as [|x key IH]; [done|]; simpl; by rewrite Z.ltb_irrefl).
    destruct (Nat.lt_trichotomy n r) as [L|[->|L]].
    + specialize (H1 n _ L Hn). cbn [fst] in H1. by rewrite Hirr in H1.
    + rewrite Hn. by rewrite bool_decide_eq_true_2.
    + assert (Hr : is_Some (entries !! r)) by (apply lookup_lt_is_Some; apply lookup_lt_Some in Hn; lia).
      destruct Hr as [x Hx]. specialize (H2 r x ltac:(lia) Hx). pose proof (ascending_lt entries r n x _ Ha L Hx Hn) as H. cbn [fst] in H. congruence.
  - destruct (entries !! r) as [[k m]|] eqn:Er; [|done]. case_bool_decide as Ek; [|done]. subst k.
    apply list_elem_of_lookup_2 in Er. apply om_elem_find in Er; [|done]. congruence.
Qed.

(** ** Server errors *)

Fixpoint ordered (rows : list (Z * cstr)) : bool :=
  match rows with
  | r :: (r' :: _) as more => (r.1 <=? r'.1) && ordered more
  | _ => true
  end.

Definition messages_of (rows : list (Z * cstr)) (value : Z) : list cstr := map snd (List.filter (fun r => r.1 =? value) rows).

Definition joined_text (ms : list cstr) : cstr :=
  match ms with [] => [] | m :: ms => foldl (fun joined m => joined ++ str "; " ++ m) m ms end.

Lemma ordered_above r rows : ordered (r :: rows) = true -> Forall (fun x => r.1 <= x.1) rows /\ ordered rows = true.
Proof.
  revert r. induction rows as [|r2 rows IH]; intros r; [split; [constructor | done]|].
  cbn [ordered]. intros [H1%Z.leb_le H2]%andb_prop. destruct (IH r2 H2) as [H3 _]. split; [|done].
  constructor; [done|]. eapply Forall_impl; [exact H3|]. cbn. lia.
Qed.

Lemma ordered_le rows i j x y : ordered rows = true -> (i < j)%nat -> rows !! i = Some x -> rows !! j = Some y -> x.1 <= y.1.
Proof.
  revert i j. induction rows as [|r rows IH]; intros i j Ho Hij Hx Hy; [done|]. apply ordered_above in Ho as [Hall Ho].
  destruct j as [|j]; [lia|]. destruct i as [|i]; [|eapply (IH i j); done || lia].
  injection Hx as <-. rewrite Forall_forall in Hall. apply (Hall y). by eapply list_elem_of_lookup_2.
Qed.

Lemma filter_false {A} (f : A -> bool) (l : list A) : Forall (fun x => f x = false) l -> List.filter f l = [].
Proof. induction 1 as [|x l Hx _ IH]; [done|]. cbn. by rewrite Hx. Qed.

Lemma join_messages_spec value rows joined :
  ordered rows = true -> Forall (fun r => value <= r.1) rows ->
  join_messages joined value rows = foldl (fun joined m => joined ++ str "; " ++ m) joined (messages_of rows value).
Proof.
  revert joined. induction rows as [|[c m] rows IH]; intros joined Ho Hall; [done|]. apply ordered_above in Ho as [Ha Ho].
  apply Forall_cons in Hall as [Hc Hall]. cbn [fst] in *. unfold messages_of. cbn [join_messages List.filter fst].
  destruct (Z.eqb_spec c value) as [->|Hne]; [cbn [map foldl snd]; by apply IH|].
  rewrite filter_false; [done|]. eapply Forall_impl; [exact Ha|]. intros x Hx. cbn [fst] in Hx. apply Z.eqb_neq. lia.
Qed.

Lemma ordered_drop n rows : ordered rows = true -> ordered (drop n rows) = true.
Proof.
  revert rows. induction n as [|n IH]; intros [|r rows] Ho; try done. apply ordered_above in Ho as [_ Ho]. by apply IH.
Qed.

Lemma find_xerr_spec rows value : ordered rows = true ->
  find_xerr rows value = match messages_of rows value with [] => None | ms => Some (joined_text ms) end.
Proof.
  intros Ho. unfold find_xerr.
  destruct (lower_bound_spec (fun r : Z * cstr => r.1 <? value) rows) as [H1 H2].
  { intros i j x y Hij Hx Hy Hb. apply Z.ltb_lt in Hb. apply Z.ltb_lt. pose proof (ordered_le rows i j x y Ho Hij Hx Hy). lia. }
  set (n := lower_bound _ rows) in *.
  assert (Hm : messages_of rows value = messages_of (drop n rows) value).
  { unfold messages_of. rewrite <- (take_drop n rows) at 1. rewrite List.filter_app, filter_false; [done|].
    apply Forall_lookup. intros i x Hx. apply lookup_take_Some in Hx as [Hx Hi]. specialize (H1 i x Hi Hx). cbn in H1. apply Z.eqb_neq. lia. }
  rewrite Hm. assert (Hd : Forall (fun r => value <= r.1) (drop n rows)).
  { apply Forall_lookup. intros i x Hx. rewrite lookup_drop in Hx. specialize (H2 (n + i)%nat x ltac:(lia) Hx). cbn in H2. by apply Z.ltb_ge in H2. }
  pose proof (ordered_drop n rows Ho) as Hod.
  destruct (drop n rows) as [|[c m] more]; [done|]. apply Forall_cons in Hd as [Hc Hd]. cbn [fst] in Hc.
  apply ordered_above in Hod as [Ha Hod]. cbn [fst] in Ha. unfold messages_of. cbn [List.filter fst]. destruct (Z.eqb_spec c value) as [->|Hne].
  - cbn [map snd joined_text]. by rewrite join_messages_spec.
  - rewrite filter_false; [done|]. eapply Forall_impl; [exact Ha|]. cbn beta. intros x Hx. apply Z.eqb_neq. lia.
Qed.

(** ** Forms *)

Lemma fold_hex_app a b : fold_hex (a ++ b) = match fold_hex a, fold_hex b with Some x, Some y => Some (x ++ y) | _, _ => None end.
Proof.
  induction a as [|c a IH]; cbn [app fold_hex]; [by destruct (fold_hex b)|]. rewrite IH.
  destruct (is_separator c); [done|]. destruct (is_digit c); [by destruct (fold_hex a), (fold_hex b)|].
  destruct (in_range (zb 65) c (zb 70)); [by destruct (fold_hex a), (fold_hex b)|].
  destruct (in_range (zb 97) c (zb 102)); [by destruct (fold_hex a), (fold_hex b) | done].
Qed.

Definition lower_digits (s : cstr) : Prop := Forall (fun c => lower_hex c = true) s.

(** Either case of a digit is folded to the digit. *)
Lemma fold_hex_case up s : lower_digits s -> fold_hex (if up : bool then map to_upper s else s) = Some s.
Proof.
  intros H. replace (if up then map to_upper s else s) with (map (fun c => if up then to_upper c else c) s)
    by (destruct up; [done | apply map_id]).
  induction H as [|c s Hc _ IH]; [done|]. cbn [map fold_hex]. rewrite IH. set (d := if up then to_upper c else c).
  byte_fact (fun c => implb (lower_hex c) (forallb (fun d => negb (is_separator d) &&
      (if is_digit d then beq d c else if in_range (zb 65) d (zb 70) then beq (zb (bz d - 65 + 97)) c else in_range (zb 97) d (zb 102) && beq d c))
      [c; to_upper c])) c Hf.
  rewrite Hc in Hf. cbn [implb forallb] in Hf. rewrite andb_true_r in Hf.
  assert (Hd : negb (is_separator d) && (if is_digit d then beq d c else if in_range (zb 65) d (zb 70) then beq (zb (bz d - 65 + 97)) c else in_range (zb 97) d (zb 102) && beq d c) = true).
  { apply andb_prop in Hf as [F1 F2]. subst d. by destruct up. }
  apply andb_prop in Hd as [Hs Hd]. apply negb_true_iff in Hs. rewrite Hs.
  destruct (is_digit d); [by apply beq_eq in Hd as ->|].
  destruct (in_range (zb 65) d (zb 70)); [by apply beq_eq in Hd as ->|]. apply andb_prop in Hd as [-> Hd]. by apply beq_eq in Hd as ->.
Qed.

Lemma hex8_lower v : lower_digits (hex8 v).
Proof.
  unfold hex8, lower_digits. apply Forall_forall. intros c Hc. apply list_elem_of_In, in_map_iff in Hc as (i & <- & _).
  set (d := Z.land _ 15). assert (Hd : 0 <= d < 16).
  { subst d. change 15 with (Z.ones 4). rewrite Z.land_ones by lia. by apply Z.mod_pos_bound. }
  clearbody d. assert (H : forallb (fun d => lower_hex (hex_lower d)) (seqZ 0 16) = true) by (vm_compute; reflexivity).
  rewrite forallb_forall in H. apply H. apply list_elem_of_In, elem_of_seqZ. lia.
Qed.

Lemma hex8_length v : length (hex8 v) = 8%nat.
Proof. done. Qed.

(** A key tells the pair it was made from. *)
Lemma hex8_inj v w : 0 <= v < 2 ^ 32 -> 0 <= w < 2 ^ 32 -> hex8 v = hex8 w -> v = w.
Proof.
  intros Hv Hw H. apply Z.bits_inj'. intros n Hn. destruct (decide (n < 32)) as [L|L].
  - assert (Hi : (n / 4) < 8) by (apply Z.div_lt_upper_bound; lia). pose proof (Z.div_pos n 4 Hn ltac:(lia)).
    set (i := Z.to_nat (7 - n / 4)).
    assert (Hd : Z.land (Z.shiftr v (4 * (n / 4))) 15 = Z.land (Z.shiftr w (4 * (n / 4))) 15).
    { assert (Hl : forall u, hex8 u !! i = Some (hex_lower (Z.land (Z.shiftr u (4 * (n / 4))) 15))).
      { intros u. unfold hex8. rewrite list_lookup_fmap, lookup_seq_lt by (subst i; lia). unfold fmap, option_fmap, option_map.
        replace (7 - Z.of_nat (0 + i)) with (n / 4) by (subst i; lia). done. }
      pose proof (Hl v) as E. rewrite H, (Hl w) in E. injection E as E. apply (f_equal hex_val) in E.
      assert (Hr : forall u, 0 <= Z.land u 15 < 16) by (intros u; change 15 with (Z.ones 4); rewrite Z.land_ones by lia; by apply Z.mod_pos_bound).
      rewrite !hex_val_lower in E by apply Hr. by injection E. }
    assert (Hb : forall u, Z.testbit u n = Z.testbit (Z.land (Z.shiftr u (4 * (n / 4))) 15) (n mod 4)).
    { intros u. pose proof (Z.mod_pos_bound n 4 ltac:(lia)). rewrite Z.land_spec, Z.shiftr_spec by lia.
      change 15 with (Z.ones 4). rewrite Z.ones_spec_low, andb_true_r by lia. f_equal. pose proof (Z.div_mod n 4 ltac:(lia)). lia. }
    by rewrite (Hb v), (Hb w), Hd.
  - assert (Hz : forall u, 0 <= u < 2 ^ 32 -> Z.testbit u n = false).
    { intros u Hu. destruct (decide (u = 0)) as [->|]; [apply Z.testbit_0_l|]. apply Z.bits_above_log2; [lia|].
      apply Z.log2_lt_pow2; [lia|]. eapply Z.lt_le_trans; [apply Hu|]. apply Z.pow_le_mono_r; lia. }
    by rewrite !Hz.
Qed.

(** The key of a pair as it is shown: four groups, either case. *)
Definition presented (sep : cstr) (up : bool) (attr code : Z) : cstr :=
  let k := hms_key attr code in
  let group i := if up then map to_upper (sub i 4 k) else sub i 4 k in
  group 0%nat ++ sep ++ group 4%nat ++ sep ++ group 8%nat ++ sep ++ group 12%nat.

Lemma normalize_presented sep up attr code : Forall (fun c => is_separator c = true) sep ->
  normalize_hms_key (presented sep up attr code) = hms_key attr code.
Proof.
  intros Hs. assert (Hsep : fold_hex sep = Some []).
  { induction Hs as [|c sep Hc _ IH]; [done|]. cbn [fold_hex]. by rewrite Hc. }
  assert (Hk : lower_digits (hms_key attr code)) by (apply Forall_app; split; apply hex8_lower).
  assert (Hg : forall i n, lower_digits (sub i n (hms_key attr code))) by (intros; unfold sub; by apply Forall_take, Forall_drop).
  unfold normalize_hms_key, presented. rewrite !fold_hex_app, !fold_hex_case, Hsep by apply Hg. reflexivity.
Qed.

Lemma hms_key_inj a c a' c' : 0 <= a < 2 ^ 32 -> 0 <= c < 2 ^ 32 -> 0 <= a' < 2 ^ 32 -> 0 <= c' < 2 ^ 32 ->
  hms_key a c = hms_key a' c' -> a = a' /\ c = c'.
Proof.
  intros Ha Hc Ha' Hc' H. apply app_inj_1 in H as [H1 H2]; [|by rewrite !hex8_length]. split; by apply hex8_inj.
Qed.

Lemma describe_digits print_error_entries v : 0 <= v < 2 ^ 64 ->
  describe_err_code print_error_entries (dec v) =
  match find_xerr kXerrRows v with
  | Some joined => joined
  | None => if v <=? 0xFFFFFFFF then find_message print_error_entries (hex8 v) else []
  end.
Proof.
  intros Hv. unfold dec. destruct (Z.ltb_spec v 0); [lia|]. destruct (dec_nonneg_spec v) as (Hu & Hd & Hne & _); [lia|].
  unfold describe_err_code. assert (Hall : forallb is_digit (dec_nonneg v) = true).
  { apply forallb_forall. intros c Hc. rewrite Forall_forall in Hd. by apply Hd, list_elem_of_In. }
  rewrite Hall. unfold digits_value. rewrite Hu, Z.min_l by lia. by destruct (dec_nonneg v).
Qed.

Lemma lower_kept s : lower_digits s -> map to_hex_lower s = s.
Proof.
  induction 1 as [|c s Hc _ IH]; [done|]. cbn [map]. rewrite IH. f_equal.
  byte_fact (fun c => implb (lower_hex c) (beq (to_hex_lower c) c)) c Hf. rewrite Hc in Hf. by apply beq_eq.
Qed.

Lemma upper_lowered s : lower_digits s -> map to_hex_lower (map to_upper s) = s.
Proof.
  induction 1 as [|c s Hc _ IH]; [done|]. cbn [map]. rewrite IH. f_equal.
  byte_fact (fun c => implb (lower_hex c) (beq (to_hex_lower (to_upper c)) c)) c Hf. rewrite Hc in Hf. by apply beq_eq.
Qed.

Lemma describe_hex print_error_entries x up v : x = zb 120 \/ x = zb 88 ->
  describe_err_code print_error_entries ([zb 48; x] ++ (if up : bool then map to_upper (hex8 v) else hex8 v)) =
  find_message print_error_entries (hex8 v).
Proof.
  intros Hx. set (s := if up then map to_upper (hex8 v) else hex8 v).
  assert (Hl : length s = 8%nat) by (subst s; by destruct up). assert (Hm : map to_hex_lower s = hex8 v).
  { subst s. destruct up; [apply upper_lowered, hex8_lower | apply lower_kept, hex8_lower]. }
  clearbody s. unfold describe_err_code. cbn [app].
  assert (Hd : forallb is_digit (zb 48 :: x :: s) = false) by (by destruct Hx as [-> | ->]).
  rewrite Hd. assert (Hst : strip_0x (zb 48 :: x :: s) = s) by (by destruct Hx as [-> | ->]).
  rewrite Hst, Hl. cbn [Nat.eqb Nat.ltb Nat.leb orb]. rewrite Hm.
  assert (Hf : forallb lower_hex (hex8 v) = true).
  { apply forallb_forall. intros c Hc. pose proof (hex8_lower v) as H. unfold lower_digits in H. rewrite Forall_forall in H.
    by apply H, list_elem_of_In. }
  by rewrite Hf.
Qed.

(** ** Lines *)

Section lines.
Context (hms_entries print_error_entries : list (cstr * cstr)).

Definition err_line (val : Value) : cstr :=
  make_line (str "err_code ") (raw_code val) (describe_err_code print_error_entries (raw_code val)).
Definition hms_line (key : cstr) : cstr := make_line (str "hms code=") key (describe_hms hms_entries key).

(** The codes of a frame, at any depth. *)
Inductive reports : Value -> cstr -> Prop :=
| rep_err o key val : (key, val) ∈ o -> is_err_key key = true -> is_number val || is_string val = true ->
    reports (Object o) (err_line val)
| rep_hms o arr el : (str "hms", Array arr) ∈ o -> el ∈ arr -> hms_entry_key el <> [] ->
    reports (Object o) (hms_line (hms_entry_key el))
| rep_member o key val line : (key, val) ∈ o -> reports val line -> reports (Object o) line
| rep_element arr el line : el ∈ arr -> reports el line -> reports (Array arr) line.

Lemma elem_of_concat_map {A} (f : A -> list cstr) (l : list A) x : x ∈ concat (map f l) <-> exists y, y ∈ l /\ x ∈ f y.
Proof.
  rewrite list_elem_of_In, in_concat. split.
  - intros (ys & Hys & Hx). apply in_map_iff in Hys as (y & <- & Hy). exists y. by rewrite !list_elem_of_In.
  - intros (y & Hy & Hx). rewrite list_elem_of_In in Hy. rewrite list_elem_of_In in Hx. exists (f y). split; [by apply in_map | done].
Qed.

Lemma collect_lines arr line :
  line ∈ collect_hms_array hms_entries arr <-> exists el, el ∈ arr /\ hms_entry_key el <> [] /\ line = hms_line (hms_entry_key el).
Proof.
  unfold collect_hms_array. rewrite flat_map_concat_map, elem_of_concat_map. split.
  - intros (el & He & Hl). exists el. destruct (hms_entry_key el) as [|c k] eqn:E; [by apply not_elem_of_nil in Hl|].
    apply list_elem_of_singleton in Hl as ->. done.
  - intros (el & He & Hk & ->). exists el. split; [done|]. destruct (hms_entry_key el) as [|c k] eqn:E; [done|]. by apply list_elem_of_singleton.
Qed.

Lemma member_lines_spec key val line :
  line ∈ member_lines hms_entries print_error_entries key val <->
  (is_err_key key = true /\ is_number val || is_string val = true /\ line = err_line val) \/
  (exists arr el, key = str "hms" /\ val = Array arr /\ el ∈ arr /\ hms_entry_key el <> [] /\ line = hms_line (hms_entry_key el)).
Proof.
  unfold member_lines. case_bool_decide as Ek; cbn [andb].
  - subst key. change (is_err_key (str "hms")) with false. cbn [andb]. split.
    + destruct (is_array val) eqn:Ea; [|by intros ?%not_elem_of_nil]. destruct val as [| | | |arr|]; try discriminate Ea.
      cbn [as_array]. intros (el & H1 & H2 & H3)%collect_lines. right. by exists arr, el.
    + intros [(H & _)|(arr & el & _ & -> & H1 & H2 & H3)]; [discriminate H|]. cbn [is_array as_array]. apply collect_lines. by exists el.
  - destruct (is_err_key key); cbn [andb]; split.
    + destruct (_ || _); [|by intros ?%not_elem_of_nil]. intros ->%list_elem_of_singleton. by left.
    + intros [(_ & -> & ->)|(arr & el & -> & _)]; [by apply list_elem_of_singleton | done].
    + by intros ?%not_elem_of_nil.
    + intros [(H & _)|(arr & el & -> & _)]; done.
Qed.

Lemma scan_reports v line : line ∈ scan_value hms_entries print_error_entries v <-> reports v line.
Proof.
  split.
  - induction v as [| | | |a Ha|o Ho] using Value_rect'; cbn [scan_value]; try by intros ?%not_elem_of_nil.
    + intros (el & Hel & Hl)%elem_of_concat_map. rewrite Forall_forall in Ha. by eapply rep_element, Ha.
    + intros ([key val] & Hkv & Hl)%elem_of_concat_map. cbn [fst snd] in Hl. apply elem_of_app in Hl as [Hl|Hl].
      * apply member_lines_spec in Hl as [(H1 & H2 & ->)|(arr & el & -> & -> & H1 & H2 & ->)]; [by eapply rep_err | by eapply rep_hms].
      * rewrite Forall_forall in Ho. eapply rep_member; [done|]. by apply (Ho (key, val)).
  - induction 1 as [o key val Hkv H1 H2|o arr el Hkv H1 H2|o key val line Hkv _ IH|arr el line Hel _ IH]; cbn [scan_value]; apply elem_of_concat_map.
    + exists (key, val). split; [done|]. apply elem_of_app. left. apply member_lines_spec. by left.
    + exists (str "hms", Array arr). split; [done|]. apply elem_of_app. left. apply member_lines_spec. right. by exists arr, el.
    + exists (key, val). split; [done|]. apply elem_of_app. by right.
    + by exists el.
Qed.

(** ** The properties *)

(** C12: Every form in which a health message is written (four groups of the
    pair's digits with dashes, underscores or nothing between, in either case)
    is looked up under the same key, different pairs have different keys, and the
    binary search of the sorted table finds the message of the key if it has one. *)
Theorem hms_described (attr code : Z) (sep : cstr) (up : bool) :
  ascending hms_entries -> 0 <= attr < 2 ^ 32 -> 0 <= code < 2 ^ 32 -> Forall (fun c => is_separator c = true) sep ->
  describe_hms hms_entries (presented sep up attr code) = default [] (om_find (hms_key attr code) hms_entries) /\
  (forall attr' code', 0 <= attr' < 2 ^ 32 -> 0 <= code' < 2 ^ 32 ->
   normalize_hms_key (presented sep up attr code) = hms_key attr' code' -> attr = attr' /\ code = code').
Proof.
  intros Ha H1 H2 Hs. unfold describe_hms. rewrite normalize_presented by done. split.
  - rewrite <- find_message_lookup by done. destruct (hms_key attr code) as [|c k] eqn:E; [done|]. done.
  - intros a' c' Ha' Hc'. by apply hms_key_inj.
Qed.

(** A decimal code is answered with all the messages the server table has for
    it, in its order, or else, when it fits 32 bits, with the printer's message for
    its eight digits; the hexadecimal form, in either case, is answered with the
    printer's message; the searches find an entry whenever there is one. *)
Lemma err_code_described (v : Z) (x : byte) (up : bool) :
  ascending print_error_entries -> 0 <= v < 2 ^ 64 -> x = zb 120 \/ x = zb 88 ->
  let message := default [] (om_find (hex8 v) print_error_entries) in
  describe_err_code print_error_entries (dec v) =
    (match messages_of kXerrRows v with
     | [] => if v <? 2 ^ 32 then message else []
     | ms => joined_text ms
     end) /\
  describe_err_code print_error_entries ([zb 48; x] ++ (if up then map to_upper (hex8 v) else hex8 v)) = message.
Proof.
  intros Ha Hv Hx message. rewrite describe_digits by done. rewrite describe_hex by done.
  rewrite find_message_lookup by done. split; [|done].
  rewrite find_xerr_spec by (vm_compute; reflexivity). destruct (messages_of kXerrRows v); [|done].
  replace (v <=? 0xFFFFFFFF) with (v <? 2 ^ 32); [done|]. apply eq_true_iff_eq. rewrite Z.ltb_lt, Z.leb_le. lia.
Qed.

(** The lines logged for a frame are those of its codes: one for every health
    message and every error code at any depth, with the code as it came and its
    words or "(unknown)", and no other; a text that is not JSON gives none. *)
Lemma frame_lines (json line : cstr) :
  line ∈ scan_frame_codes hms_entries print_error_entries json <->
  exists v rest, parse json = Ok v rest /\ reports v line.
Proof.
  unfold scan_frame_codes. destruct (parse json) as [v rest| |] eqn:E; split.
  - intros H%scan_reports. by exists v, rest.
  - intros (v' & rest' & [= <- <-] & H). by apply scan_reports.
  - by intros ?%not_elem_of_nil.
  - by intros (v' & rest' & H & _).
  - by intros ?%not_elem_of_nil.
  - by intros (v' & rest' & H & _).
Qed.
End lines.

(** ** Witnesses *)

Definition demo_hms_table : list (cstr * cstr) :=
  [(str "0300010000010001", str "heatbed"); (str "0500050000010007", str "verification"); (str "0c00010000020001", str "laser")].
Definition demo_error_table : list (cstr * cstr) := [(str "03008000", str "paused"); (str "0500403f", str "storage")].

Lemma hms_described_witness :
  describe_hms demo_hms_table (presented (str "-") true 0x05000500 0x00010007) = str "verification".
Proof.
  destruct (hms_described demo_hms_table 0x05000500 0x00010007 (str "-") true ltac:(vm_compute; repeat constructor) ltac:(lia) ltac:(lia)
    ltac:(repeat constructor)) as [H _]. etrans; [exact H|]. vm_compute. reflexivity.
Defined.

Lemma err_code_described_witness :
  describe_err_code demo_error_table (dec 0x0500403f) = str "storage" /\
  describe_err_code demo_error_table (str "0x0500403F") = str "storage".
Proof.
  destruct (err_code_described demo_error_table 0x0500403f (zb 120) true ltac:(vm_compute; repeat constructor) ltac:(lia) ltac:(by left)) as [H1 H2].
  split; [etrans; [exact H1|] | etrans; [exact H2|]]; vm_compute; reflexivity.
Defined.
