(* ===== verification/Reports.v ===== *)
(** What the agent does with the frames of its printers ([src/agent.cpp]): the
    handlers [notify_local_message] and the one of [connect_cloud], all they note,
    the commands they send again signed, and the choice between the printer's own
    reports and the cloud's ([maybe_prefer_lan_subscription] and its watchdog).
    A call is a function from the agent to the agent, what it sets off is added
    to [acts]; the threads it starts are acts. *)

From S2P Require Import Prelude OMap Text Double Json JsonText Config ProjectFile Naming CoverCache StatusPatch Firmware ErrTable.
From coqutil Require Import Datatypes.RecordSetters.
Import DoubleBraceUpdate.

#[local] Delimit Scope string_scope with string.

(** ** State *)

(** [std::set] as a map to unit. *)
#[local] Abbreviation devs := (list (cstr * unit)).
Definition has {V} (k : cstr) (m : list (cstr * V)) : bool := match om_find k m with Some _ => true | None => false end.

(** A session of [lan_session.cpp], and whether it is connected. *)
Record Session := { ls_dev : cstr; ls_ip : cstr; ls_user : cstr; ls_password : cstr; ls_up : bool }.

Inductive Act :=
  | SetPubKey (dev pem : cstr) | StoreCert (path pem : cstr) | PinPeer (ip path : cstr) | PutSerial (ip dev : cstr)
  | NotifyMessage (dev msg : cstr) | FetchMaterial
  | Autostart (dev ip code : cstr) | Watchdog | CloudSubscribe (dev : cstr)
  | ResendPrint (dev task json : cstr) | ResendLiveview (dev json : cstr)
  | CoverServer | EnsureCover (r : Request)
  | Decoded (dev line : cstr) | Deliver (dev json : cstr) | DeliverCloud (dev json : cstr)
  | PrinterConnected (dev : cstr) | LocalConnected (status : Z) (dev msg : cstr).

Record Agent := {
  acts : list Act;
  lan_session_ : option Session;
  user_selected_machine_ : cstr;
  sec_new_auth_by_dev_ : list (cstr * bool);
  app_certs_by_dev_ : list (cstr * devs);
  dev_mode_on_by_dev_ : list (cstr * bool);
  tutk_server_ready_by_dev_ : list (cstr * bool);
  liveview_prepared_at_ : list (cstr * Z);
  rescued_tasks_ : devs;
  last_rescue : list (cstr * Z);
  certified_devs_ : devs;
  app_cert_install_sent_ : devs;
  lan_access_code_by_dev_ : list (cstr * cstr);
  lan_ip_by_dev_ : list (cstr * cstr);
  lan_lv_proto_by_dev_ : list (cstr * cstr);
  lan_autostart_inflight_ : devs;
  lan_report_priority_ : devs;
  last_lan_report_ : list (cstr * Z);
  lan_watchdog_active_ : bool;
  deferred_dc_active_ : bool;
  synthetic_subtasks_ : list (cstr * SyntheticSubtask);
  cover_server_ : bool;
  device_fw_ : list (cstr * Modules);
  cloud_connected_devs_ : devs;
  cloud_notified_devs_ : devs;
  on_printer_connected_ : bool;
  seq_counter : Z }.

(** What a call meets: the steady clock in nanoseconds, whether the signing
    key is there, its certificate is usable and both fit, the directory of the
    settings, whether a certificate could be stored, which certificates are on disk,
    whether threads and the cover server start, and which callbacks of the slicer are
    set; [e_on_cloud_message] is the one [connect_cloud] took when it started. *)
Record Env := {
  e_now : Z; e_key : bool; e_cert : bool; e_consistent : bool; e_config_dir : cstr; e_stored : bool; e_on_disk : cstr -> bool;
  e_spawn : bool; e_server : bool; e_on_message : bool; e_on_cloud_message : bool; e_on_local_message : bool; e_on_local_connect : bool }.

Section agent.
Context (cfg : Settings) (hms_entries print_error_entries : list (cstr * cstr)).

Definition act (a : Act) (s : Agent) : Agent := s {{ acts := acts s ++ [a] }}.
Definition act_if (b : bool) (a : Act) (s : Agent) : Agent := if b then act a s else s.

Definition text_of (v : Value) (path : String.string) : cstr := as_string (find v (str path)).
Arguments text_of v path%_string_scope.

(** ** The LAN session of the printer in view *)

Definition session_of (dev : cstr) (s : Agent) : option Session :=
  match lan_session_ s with Some l => if bool_decide (ls_dev l = dev) then Some l else None | None => None end.

Definition session_up (dev : cstr) (s : Agent) : bool := match session_of dev s with Some l => ls_up l | None => false end.

Definition autostart_lan_if_selected (e : Env) (dev : cstr) (s : Agent) : Agent :=
  match dev with
  | [] => s
  | _ =>
      if negb (bool_decide (user_selected_machine_ s = dev)) || session_up dev s then s
      else
        match om_find dev (lan_ip_by_dev_ s), om_find dev (lan_access_code_by_dev_ s) with
        | Some ip, Some code =>
            if negb (nonempty ip) || negb (nonempty code) || has dev (lan_autostart_inflight_ s) then s
            else if e_spawn e then act (Autostart dev ip code) (s {{ lan_autostart_inflight_ := om_set dev tt (lan_autostart_inflight_ s) }})
            else s
        | _, _ => s
        end
  end.

(** [device_cert_path]. *)
Definition device_cert_path (config_dir dev : cstr) : cstr :=
  let base := match last config_dir with
              | Some c => if beq c (zb 47) || beq c (zb 92) then removelast config_dir else config_dir
              | None => config_dir
              end in
  join_path (join_path base (str "certs")) (dev ++ str ".pem").

Definition publish_peer_cert_pin (e : Env) (ip dev : cstr) (s : Agent) : Agent :=
  if negb (nonempty ip) || negb (nonempty dev) || negb (nonempty (e_config_dir e)) then s
  else
    let peer := device_cert_path (e_config_dir e) dev in
    act_if (e_on_disk e peer) (PinPeer ip peer) s.

Definition note_device_access_code (e : Env) (dev code : cstr) (s : Agent) : Agent :=
  if negb (nonempty dev) || negb (nonempty code) then s
  else autostart_lan_if_selected e dev (s {{ lan_access_code_by_dev_ := om_set dev code (lan_access_code_by_dev_ s) }}).

Definition note_device_lan_ip (e : Env) (dev ip : cstr) (s : Agent) : Agent :=
  if negb (nonempty dev) || negb (nonempty ip) then s
  else
    let s := publish_peer_cert_pin e ip dev (act (PutSerial ip dev) s) in
    autostart_lan_if_selected e dev (s {{ lan_ip_by_dev_ := om_set dev ip (lan_ip_by_dev_ s) }}).

(** ** What a frame tells *)

Definition cert_installed (e : Env) (dev : cstr) (sec : Value) (s : Agent) : Agent :=
  let printer_cert := text_of sec "printer_cert" in
  if negb (bool_decide (text_of sec "result" = str "SUCCESS")) || negb (nonempty printer_cert) then s
  else
    let s := act (SetPubKey dev printer_cert) s in
    let path := device_cert_path (e_config_dir e) dev in
    let on_disk := nonempty (e_config_dir e) && e_stored e in
    let s := act_if on_disk (StoreCert path printer_cert) s in
    let s := s {{ certified_devs_ := om_set dev tt (certified_devs_ s) }} in
    let ip := if on_disk then match session_of dev s with Some l => ls_ip l | None => [] end else [] in
    let s := act_if (nonempty ip) (PinPeer ip path) s in
    let s := s {{ app_cert_install_sent_ := om_set dev tt (app_cert_install_sent_ s) }} in
    act_if (e_on_message e) (NotifyMessage dev (str "device_cert_installed")) s.

Definition cert_listed (dev : cstr) (sec : Value) (s : Agent) : Agent :=
  if negb (bool_decide (text_of sec "result" = str "SUCCESS")) then s
  else
    let ids := List.filter nonempty (map as_string (as_array (find sec (str "cert_ids")))) in
    s {{ app_certs_by_dev_ := om_set dev (foldl (fun m id => om_set id tt m) [] ids) (app_certs_by_dev_ s) }}.

Definition harvest_security_report (e : Env) (dev json : cstr) (s : Agent) : Agent :=
  if negb (contains json (str "app_cert")) then s
  else
    match parse json with
    | Ok root _ =>
        let sec := find root (str "security") in
        if negb (is_object sec) then s
        else if bool_decide (text_of sec "command" = str "app_cert_install") then cert_installed e dev sec s
        else if bool_decide (text_of sec "command" = str "app_cert_list") then cert_listed dev sec s
        else s
    | _ => s
    end.

Definition harvest_security_flags (e : Env) (dev json : cstr) (s : Agent) : Agent :=
  if negb (contains json (str "flag3")) then s
  else
    match parse json with
    | Ok root _ =>
        let f3 := find root (str "print.flag3") in
        if negb (is_number f3 && (Z.land (Z.shiftr (as_int 0 f3) 16) 1 =? 1)) then s
        else
          let latched := default false (om_find dev (sec_new_auth_by_dev_ s)) in
          let s := s {{ sec_new_auth_by_dev_ := om_set dev true (sec_new_auth_by_dev_ s) }} in
          act_if (negb latched && negb (e_key e && e_cert e && e_consistent e)) FetchMaterial s
    | _ => s
    end.

Definition printer_supports_new_auth (dev : cstr) (s : Agent) : bool := default false (om_find dev (sec_new_auth_by_dev_ s)).

Definition harvest_developer_mode (dev json : cstr) (s : Agent) : Agent :=
  if negb (contains json (escape (str "fun"))) then s
  else
    match parse json with
    | Ok root _ =>
        match find root (str "print.fun") with
        | String hex =>
            match stoull16 hex with
            | Some bits =>
                let dev_on := Z.land (Z.shiftr bits 29) 1 =? 0 in
                s {{ dev_mode_on_by_dev_ := om_set dev dev_on (dev_mode_on_by_dev_ s) }}
            | None => s
            end
        | _ => s
        end
    | _ => s
    end.

Definition developer_mode_effective (e : Env) (dev : cstr) (s : Agent) : bool :=
  match om_find dev (dev_mode_on_by_dev_ s) with Some on => on | None => negb (e_key e && e_cert e) end.

Definition rtsp_proto (url : cstr) : cstr :=
  if starts_with (str "rtsps") url then str "rtsps"
  else if starts_with (str "rtsp") url then str "rtsp"
  else if bool_decide (url = str "disable") then str "off" else [].

(** The address of the first interface that has one. *)
Fixpoint info_ip (infos : list Value) : cstr :=
  match infos with
  | [] => []
  | i :: infos => let raw := as_int 0 (find i (str "ip")) in if 0 <? raw then ipv4_from_le_int raw else info_ip infos
  end.

Definition harvest_media_caps (e : Env) (dev json : cstr) (s : Agent) : Agent :=
  if negb (contains json (str "rtsp_url")) then s
  else
    match parse json with
    | Ok root _ =>
        let url := text_of root "print.ipcam.rtsp_url" in
        let proto := rtsp_proto url in
        let s := if nonempty proto then s {{ lan_lv_proto_by_dev_ := om_set dev proto (lan_lv_proto_by_dev_ s) }} else s in
        if override_lan_ip cfg then s
        else
          let ip := match ipv4_host_of_url url with [] => info_ip (as_array (find root (str "print.net.info"))) | ip => ip end in
          if negb (nonempty ip) then s
          else
            match session_of dev s with
            | Some _ => s
            | None => if bool_decide (om_find dev (lan_ip_by_dev_ s) = Some ip) then s else note_device_lan_ip e dev ip s
            end
    | _ => s
    end.

Definition harvest_tutk_server_status (e : Env) (dev json : cstr) (s : Agent) : Agent :=
  if negb (contains json (escape (str "tutk_server"))) && negb (contains json (escape (str "liveview"))) then s
  else
    match parse json with
    | Ok root _ =>
        let server := find root (str "print.ipcam.tutk_server") in
        let told word := is_string server && bool_decide (as_string server = word) in
        let s := if told (str "enable") || told (str "disable")
                 then s {{ tutk_server_ready_by_dev_ := om_set dev (told (str "enable")) (tutk_server_ready_by_dev_ s) }} else s in
        if bool_decide (text_of root "liveview.command" = str "prepare") && bool_decide (text_of root "liveview.result" = str "succeed")
        then s {{ liveview_prepared_at_ := om_set dev (e_now e) (liveview_prepared_at_ s) }} else s
    | _ => s
    end.

(** The condition [wait_tutk_ready] waits for. *)
Definition tutk_ready (dev : cstr) (since : Z) (s : Agent) : bool :=
  match om_find dev (liveview_prepared_at_ s) with Some at_ => since <=? at_ | None => false end ||
  default false (om_find dev (tutk_server_ready_by_dev_ s)).

Definition harvest_access_code (e : Env) (dev json : cstr) (s : Agent) : Agent :=
  if negb (contains json (escape (str "get_access_code"))) then s
  else
    match parse json with
    | Ok root _ =>
        if negb (bool_decide (text_of root "system.command" = str "get_access_code")) then s
        else
          match text_of root "system.access_code" with
          | [] => s
          | code => if bool_decide (om_find dev (lan_access_code_by_dev_ s) = Some code) then s else note_device_access_code e dev code s
          end
    | _ => s
    end.

(** ** Commands sent again *)

Definition kRejected : Z := 84033543.

Definition seq_json_value (seq : cstr) : Value :=
  if exp_numeric_sequence_id cfg then Number (of_int (undec seq)) else String seq.

Definition is_string_of (v : option Value) (text : cstr) : bool := match v with Some (String s) => bool_decide (s = text) | _ => false end.
Definition is_rejection (v : option Value) : bool := match v with Some (Number d) => as_int 0 (Number d) =? kRejected | _ => false end.

(** The rejected command without its error, under a new sequence number. *)
Definition again (obj : list (cstr * Value)) (seq : cstr) : list (cstr * Value) :=
  om_set (str "sequence_id") (seq_json_value seq) (om_erase (str "err_code") obj).

Definition resend_text (root : String.string) (obj : list (cstr * Value)) (seq : cstr) : cstr :=
  dump (Object [(str root, Object (again obj seq))]).
Arguments resend_text root%_string_scope obj seq.

(** The rejected object of a frame. *)
Definition rejected (root : String.string) (command : String.string) (json : cstr) : option (list (cstr * Value)) :=
  match parse json with
  | Ok v _ =>
      match find v (str root) with
      | Object obj => if is_string_of (om_find (str "command") obj) (str command) && is_rejection (om_find (str "err_code") obj) then Some obj else None
      | _ => None
      end
  | _ => None
  end.
Arguments rejected root%_string_scope command%_string_scope json.

Definition next_seq (s : Agent) : cstr * Agent :=
  let '(seq, v) := next_mqtt_seq_id (seq_counter s) in (seq, s {{ seq_counter := v }}).

Definition rescue_cloud_project_file (dev json : cstr) (s : Agent) : Agent :=
  if negb (contains json (escape (str "project_file"))) || negb (contains json (str "84033543")) then s
  else
    match rejected "print" "project_file" json with
    | None => s
    | Some obj =>
        let task := match om_find (str "task_id") obj with Some (String t) => t | _ => [] end in
        if nonempty task && has task (rescued_tasks_ s) then s
        else
          let s := if nonempty task then s {{ rescued_tasks_ := om_set task tt (rescued_tasks_ s) }} else s in
          let '(seq, s) := next_seq s in
          act (ResendPrint dev task (resend_text "print" obj seq)) s
    end.

Definition kRescueCooldown : Z := 2 * second.

Definition rescue_cloud_liveview (e : Env) (dev json : cstr) (s : Agent) : Agent :=
  if negb (contains json (escape (str "liveview"))) || negb (contains json (escape (str "prepare"))) || negb (contains json (str "84033543")) then s
  else
    match rejected "liveview" "prepare" json with
    | None => s
    | Some obj =>
        if default false (om_find dev (tutk_server_ready_by_dev_ s)) then s
        else if match om_find dev (last_rescue s) with Some t => e_now e - t <? kRescueCooldown | None => false end then s
        else
          let s := s {{ last_rescue := om_set dev (e_now e) (last_rescue s) }} in
          let '(seq, s) := next_seq s in
          act (ResendLiveview dev (resend_text "liveview" obj seq)) s
    end.

(** The calls both handlers begin with. *)
Definition harvest (e : Env) (dev json : cstr) (s : Agent) : Agent :=
  let s := harvest_security_report e dev json s in
  let s := harvest_security_flags e dev json s in
  let s := harvest_developer_mode dev json s in
  let s := harvest_media_caps e dev json s in
  let s := harvest_tutk_server_status e dev json s in
  let s := harvest_access_code e dev json s in
  let s := rescue_cloud_project_file dev json s in
  rescue_cloud_liveview e dev json s.

(** ** Whose reports count *)

Definition kLanSilenceFailback : Z := 6 * second.

Definition ensure_lan_watchdog_running (e : Env) (s : Agent) : Agent :=
  if lan_watchdog_active_ s then s
  else if e_spawn e then act Watchdog (s {{ lan_watchdog_active_ := true }}) else s.

Definition maybe_prefer_lan_subscription (e : Env) (dev : cstr) (s : Agent) : Agent :=
  match dev with
  | [] => s
  | _ =>
      let s := s {{ last_lan_report_ := om_set dev (e_now e) (last_lan_report_ s) }} in
      if has dev (lan_report_priority_ s) then s
      else ensure_lan_watchdog_running e (s {{ lan_report_priority_ := om_set dev tt (lan_report_priority_ s) }})
  end.

Definition lan_report_priority_active (dev : cstr) (s : Agent) : bool := has dev (lan_report_priority_ s).

Definition lan_report_failback (dev : cstr) (s : Agent) : Agent :=
  match dev with
  | [] => s
  | _ =>
      if has dev (lan_report_priority_ s)
      then act_if (negb (block_cloud cfg)) (CloudSubscribe dev) (s {{ lan_report_priority_ := om_erase dev (lan_report_priority_ s) }})
      else s
  end.

Definition is_silent (e : Env) (s : Agent) (dev : cstr) : bool :=
  match om_find dev (last_lan_report_ s) with None => true | Some t => kLanSilenceFailback <? e_now e - t end.

(** A round of [lan_watchdog_loop]. *)
Definition watchdog_tick (e : Env) (s : Agent) : Agent :=
  if negb (lan_watchdog_active_ s) then s
  else
    let silent := List.filter (is_silent e s) (map fst (lan_report_priority_ s)) in
    foldl (fun s dev => autostart_lan_if_selected e dev (lan_report_failback dev s)) s silent.

Definition ConnectStatusOk : Z := 0.

Definition notify_local_connected (e : Env) (status : Z) (dev msg : cstr) (s : Agent) : Agent :=
  let s := if status =? ConnectStatusOk then s {{ deferred_dc_active_ := false }} else s in
  let s := act_if (e_on_local_connect e) (LocalConnected status dev msg) s in
  if status =? ConnectStatusOk then s
  else lan_report_failback dev (s {{ app_cert_install_sent_ := om_erase dev (app_cert_install_sent_ s) }}).

(** ** The handlers *)

Definition note_cover (e : Env) (dev frame : cstr) (cover : option (cstr * SyntheticSubtask)) (m : list (cstr * SyntheticSubtask)) (s : Agent) : Agent :=
  match cover with
  | None => s
  | Some (id, t) =>
      let s := s {{ synthetic_subtasks_ := m }} in
      let s := if cover_server_ s then s else act_if (e_server e) CoverServer (s {{ cover_server_ := e_server e }}) in
      match lan_session_ s with
      | Some l =>
          act_if (nonempty (ls_ip l))
            (EnsureCover {| r_host := ls_ip l; r_dev := dev; r_user := ls_user l; r_password := ls_password l; r_name := subtask_name t;
                            r_model := cover_model_key frame; r_plate := plate_idx t; r_version := version t |}) s
      | None => s
      end
  end.

Definition log_lines (dev json : cstr) (s : Agent) : Agent :=
  s {{ acts := acts s ++ map (Decoded dev) (scan_frame_codes hms_entries print_error_entries json) }}.

Definition notify_local_message (e : Env) (dev json : cstr) (s : Agent) : Agent :=
  let s := maybe_prefer_lan_subscription e dev (harvest e dev json s) in
  let ip := match lan_session_ s with Some l => ls_ip l | None => [] end in
  let r := local_frame cfg ip json (synthetic_subtasks_ s) in
  let s := note_cover e dev (n_text r) (n_cover r) (n_subtasks r) s in
  let fw := default [] (om_find dev (device_fw_ s)) in
  let s := s {{ device_fw_ := om_set dev (update_fw_state fw (n_text r)) (device_fw_ s) }} in
  act_if (e_on_local_message e) (Deliver dev (n_text r)) (log_lines dev (n_text r) s).

(** A rejected command the slicer is not told about. *)
Definition is_hidden (json : cstr) : bool :=
  contains json (str "84033543") && (contains json (escape (str "project_file")) || contains json (escape (str "liveview"))).

Definition push_status_text : cstr := escape (str "command") ++ [colon] ++ escape (str "push_status").

(** The message callback of [connect_cloud]. *)
Definition on_cloud_message (e : Env) (dev json : cstr) (s : Agent) : Agent :=
  let s := harvest e dev json s in
  if is_hidden json then s
  else
    let json := if filter_mqtt_hms_65543 cfg then default json (default None (try_filter_hms_code json 65543)) else json in
    let s := log_lines dev json s in
    let s := s {{ cloud_connected_devs_ := om_set dev tt (cloud_connected_devs_ s) }} in
    let s := if on_printer_connected_ s && negb (has dev (cloud_notified_devs_ s))
             then act (PrinterConnected dev) (s {{ cloud_notified_devs_ := om_set dev tt (cloud_notified_devs_ s) }}) else s in
    if has dev (lan_report_priority_ s) && contains json push_status_text then s
    else act_if (e_on_cloud_message e) (DeliverCloud dev json) s.

(** ** Runs *)

Inductive Event :=
  | LocalFrame (dev json : cstr) | CloudFrame (dev json : cstr) | Tick | Connected (status : Z) (dev msg : cstr)
  | Select (dev : cstr) | AutostartDone (dev : cstr) | SetSession (l : option Session) | SetCallback.

(** The selection of a printer, the end of an autostart thread, a session set
    or lost, and the slicer registering [on_printer_connected_], as far as they
    bear on the frames. *)
Definition step (s : Agent) (ev : Env * Event) : Agent :=
  let '(e, ev) := ev in
  match ev with
  | LocalFrame dev json => notify_local_message e dev json s
  | CloudFrame dev json => on_cloud_message e dev json s
  | Tick => watchdog_tick e s
  | Connected status dev msg => notify_local_connected e status dev msg s
  | Select dev => autostart_lan_if_selected e dev (s {{ user_selected_machine_ := dev }})
  | AutostartDone dev => s {{ lan_autostart_inflight_ := om_erase dev (lan_autostart_inflight_ s) }}
  | SetSession l => s {{ lan_session_ := l }}
  | SetCallback => s {{ on_printer_connected_ := true }}
  end.

Definition run (s : Agent) (evs : list (Env * Event)) : Agent := foldl step s evs.
End agent.

Definition new_agent (seed : Z) : Agent :=
  {| acts := []; lan_session_ := None; user_selected_machine_ := []; sec_new_auth_by_dev_ := []; app_certs_by_dev_ := [];
     dev_mode_on_by_dev_ := []; tutk_server_ready_by_dev_ := []; liveview_prepared_at_ := []; rescued_tasks_ := []; last_rescue := [];
     certified_devs_ := []; app_cert_install_sent_ := []; lan_access_code_by_dev_ := []; lan_ip_by_dev_ := []; lan_lv_proto_by_dev_ := [];
     lan_autostart_inflight_ := []; lan_report_priority_ := []; last_lan_report_ := []; lan_watchdog_active_ := false;
     deferred_dc_active_ := false; synthetic_subtasks_ := []; cover_server_ := false; device_fw_ := []; cloud_connected_devs_ := [];
     cloud_notified_devs_ := []; on_printer_connected_ := false; seq_counter := seed |}.

(** ** What a call leaves alone *)

(** The part of the agent that decides what is sent again and whose reports
    count. *)
Definition relevant (a : Act) : bool :=
  match a with ResendPrint _ _ _ | CloudSubscribe _ | DeliverCloud _ _ => true | _ => false end.

Record Core := {
  k_acts : list Act; k_auth : list (cstr * bool); k_mode : list (cstr * bool); k_rescued : list (cstr * unit);
  k_priority : list (cstr * unit); k_reports : list (cstr * Z); k_watchdog : bool; k_seq : Z }.

Definition core (s : Agent) : Core :=
  {| k_acts := List.filter relevant (acts s); k_auth := sec_new_auth_by_dev_ s; k_mode := dev_mode_on_by_dev_ s;
     k_rescued := rescued_tasks_ s; k_priority := lan_report_priority_ s; k_reports := last_lan_report_ s;
     k_watchdog := lan_watchdog_active_ s; k_seq := seq_counter s |}.

Lemma core_act a s : relevant a = false -> core (act a s) = core s.
Proof.
  intros H. unfold core, act. destruct s; cbn. unfold constant. rewrite List.filter_app. cbn. rewrite H. by rewrite app_nil_r.
Qed.

Lemma core_act_if b a s : relevant a = false -> core (act_if b a s) = core s.
Proof. intros H. destruct b; [by apply core_act | done]. Qed.

(** Calls that leave it alone: settle the branches, then the fields. *)
Ltac core_step :=
  first [ reflexivity | rewrite core_act by reflexivity | rewrite core_act_if by reflexivity ].
Ltac core_same := repeat (case_match || core_step); try reflexivity.

Lemma core_autostart e dev s : core (autostart_lan_if_selected e dev s) = core s.
Proof. unfold autostart_lan_if_selected. core_same. Qed.

Lemma core_pin e ip dev s : core (publish_peer_cert_pin e ip dev s) = core s.
Proof. unfold publish_peer_cert_pin. core_same. Qed.

Lemma core_code e dev code s : core (note_device_access_code e dev code s) = core s.
Proof. unfold note_device_access_code. core_same. by rewrite core_autostart. Qed.

Lemma core_ip e dev ip s : core (note_device_lan_ip e dev ip s) = core s.
Proof.
  unfold note_device_lan_ip. core_same. rewrite core_autostart.
  match goal with |- core (?x {{ lan_ip_by_dev_ := _ }}) = _ => change (core x = core s) end. rewrite core_pin. by apply core_act.
Qed.

Lemma core_installed e dev sec s : core (cert_installed e dev sec s) = core s.
Proof.
  unfold cert_installed. destruct (_ || _); [done|]. rewrite core_act_if by done.
  set (path := device_cert_path _ _). set (on_disk := _ && _).
  set (s1 := act _ s). set (s2 := act_if on_disk _ s1).
  assert (H2 : core s2 = core s) by (subst s2 s1; rewrite core_act_if by done; by apply core_act).
  clearbody s2. set (s3 := s2 {{ certified_devs_ := _ }}). assert (H3 : core s3 = core s) by (rewrite <- H2; by destruct s2).
  clearbody s3. set (ip := if on_disk then _ else _). set (s4 := act_if _ _ s3).
  assert (H4 : core s4 = core s) by (subst s4; by rewrite core_act_if).
  clearbody s4. rewrite <- H4. by destruct s4.
Qed.

Lemma core_security e dev json s : core (harvest_security_report e dev json s) = core s.
Proof.
  unfold harvest_security_report. destruct (contains json _); [|done]. cbn [negb]. destruct (parse json) as [root rest| |]; [|done..].
  destruct (is_object _); [|done]. cbn [negb]. case_bool_decide; [apply core_installed|]. case_bool_decide; [|done].
  unfold cert_listed. by destruct (negb _).
Qed.

Lemma core_media cfg e dev json s : core (harvest_media_caps cfg e dev json s) = core s.
Proof.
  unfold harvest_media_caps. destruct (contains json _); [|done]. cbn [negb]. destruct (parse json) as [root rest| |]; [|done..].
  set (s1 := if nonempty (rtsp_proto _) then _ else s). assert (H1 : core s1 = core s) by (subst s1; by destruct (nonempty _)).
  clearbody s1. rewrite <- H1. destruct (override_lan_ip cfg); [done|]. set (ip := match ipv4_host_of_url _ with [] => _ | _ => _ end).
  clearbody ip. destruct (nonempty ip); [|done]. cbn [negb]. destruct (session_of dev s1); [done|]. case_bool_decide; [done | apply core_ip].
Qed.

Lemma core_tutk e dev json s : core (harvest_tutk_server_status e dev json s) = core s.
Proof.
  unfold harvest_tutk_server_status. destruct (_ && _); [done|]. destruct (parse json) as [root rest| |]; [|done..].
  set (s1 := if _ || _ then _ else s). assert (H1 : core s1 = core s) by (subst s1; by destruct (_ || _)).
  clearbody s1. rewrite <- H1. by destruct (_ && _).
Qed.

Lemma core_access e dev json s : core (harvest_access_code e dev json s) = core s.
Proof.
  unfold harvest_access_code. destruct (contains json _); [|done]. cbn [negb]. destruct (parse json) as [root rest| |]; [|done..].
  case_bool_decide; [|done]. cbn [negb]. destruct (text_of root "system.access_code"%string) as [|c l]; [done|].
  case_bool_decide; [done | apply core_code].
Qed.

Lemma core_cover e dev frame cover m s : core (note_cover e dev frame cover m s) = core s.
Proof.
  unfold note_cover. destruct cover as [[id t]|]; [|done].
  set (s1 := s {{ synthetic_subtasks_ := m }}). assert (H1 : core s1 = core s) by done. clearbody s1. rewrite <- H1.
  set (s2 := if cover_server_ s1 then s1 else _).
  assert (H2 : core s2 = core s1) by (subst s2; destruct (cover_server_ s1); [done | by rewrite core_act_if]).
  clearbody s2. destruct (lan_session_ s2); [by rewrite core_act_if | done].
Qed.

Lemma core_lines hms pe dev json s : core (log_lines hms pe dev json s) = core s.
Proof.
  unfold log_lines, core. destruct s; cbn. unfold constant. rewrite List.filter_app.
  assert (H : forall l, List.filter relevant (map (Decoded dev) l) = []) by (intros l; by induction l).
  by rewrite H, app_nil_r.
Qed.

(** ** What a call changes *)

(** What a frame tells: that the printer has the new authorization, whether it is
    in Developer Mode, and that a print command was rejected. *)
Definition advertises (json : cstr) : bool :=
  contains json (str "flag3") &&
  match parse json with
  | Ok root _ => let f3 := find root (str "print.flag3") in is_number f3 && (Z.land (Z.shiftr (as_int 0 f3) 16) 1 =? 1)
  | _ => false
  end.

Definition told_mode (json : cstr) : option bool :=
  if contains json (escape (str "fun")) then
    match parse json with
    | Ok root _ => match find root (str "print.fun") with String hex => (fun bits => Z.land (Z.shiftr bits 29) 1 =? 0) <$> stoull16 hex | _ => None end
    | _ => None
    end
  else None.

Definition rejected_print (json : cstr) : option (list (cstr * Value)) :=
  if contains json (escape (str "project_file")) && contains json (str "84033543") then rejected "print"%string "project_file"%string json else None.

Definition task_of (obj : list (cstr * Value)) : cstr := match om_find (str "task_id") obj with Some (String t) => t | _ => [] end.

(** The command that is sent again, if one is. *)
Definition to_resend (json : cstr) (rescued : devs) : option (cstr * list (cstr * Value)) :=
  match rejected_print json with
  | Some obj => if nonempty (task_of obj) && has (task_of obj) rescued then None else Some (task_of obj, obj)
  | None => None
  end.

Definition auth_after (dev json : cstr) (m : list (cstr * bool)) : list (cstr * bool) := if advertises json then om_set dev true m else m.
Definition mode_after (dev json : cstr) (m : list (cstr * bool)) : list (cstr * bool) :=
  match told_mode json with Some on => om_set dev on m | None => m end.
Definition resends_after cfg (dev json : cstr) (seq : Z) (rescued : devs) : list Act :=
  match to_resend json rescued with
  | Some (task, obj) => [ResendPrint dev task (resend_text cfg "print"%string obj (next_mqtt_seq_id seq).1)]
  | None => []
  end.
Definition rescued_after (json : cstr) (m : devs) : devs :=
  match to_resend json m with Some (task, _) => if nonempty task then om_set task tt m else m | None => m end.

Definition harvested cfg (dev json : cstr) (q : Z) (k : Core) : Core :=
  {| k_acts := k_acts k ++ resends_after cfg dev json (k_seq k) (k_rescued k); k_auth := auth_after dev json (k_auth k);
     k_mode := mode_after dev json (k_mode k); k_rescued := rescued_after json (k_rescued k); k_priority := k_priority k;
     k_reports := k_reports k; k_watchdog := k_watchdog k; k_seq := q |}.

Lemma core_flags e dev json s :
  core (harvest_security_flags e dev json s) = (core s) {{ k_auth := auth_after dev json (k_auth (core s)) }}.
Proof.
  unfold harvest_security_flags, auth_after, advertises. destruct (contains json _); [|by destruct s].
  cbn [negb andb]. destruct (parse json) as [root rest| |]; [|by destruct s..].
  destruct (_ && (_ =? 1)); [|by destruct s]. cbn [negb]. rewrite core_act_if by done. by destruct s.
Qed.

Lemma core_mode dev json s :
  core (harvest_developer_mode dev json s) = (core s) {{ k_mode := mode_after dev json (k_mode (core s)) }}.
Proof.
  unfold harvest_developer_mode, mode_after, told_mode. destruct (contains json _); [|by destruct s]. cbn [negb].
  destruct (parse json) as [root rest| |]; [|by destruct s..]. destruct (find _ _); try by destruct s.
  destruct (stoull16 _); by destruct s.
Qed.

Lemma core_project cfg dev json s :
  exists q, core (rescue_cloud_project_file cfg dev json s) =
    (core s) {{ k_acts := k_acts (core s) ++ resends_after cfg dev json (seq_counter s) (rescued_tasks_ s) }}
           {{ k_rescued := rescued_after json (rescued_tasks_ s) }} {{ k_seq := q }}.
Proof.
  unfold rescue_cloud_project_file, resends_after, rescued_after, to_resend, rejected_print.
  assert (Hid : exists q, core s = (core s) {{ k_acts := k_acts (core s) ++ [] }} {{ k_rescued := rescued_tasks_ s }} {{ k_seq := q }}).
  { exists (seq_counter s). destruct s; cbn. unfold core, constant; cbn. by rewrite app_nil_r. }
  destruct (contains json (escape _)); [|exact Hid]. cbn [negb orb andb].
  destruct (contains json _); [|exact Hid]. cbn [negb orb andb].
  destruct (rejected _ _ _) as [obj|]; [|exact Hid]. fold (task_of obj).
  destruct (nonempty (task_of obj)) eqn:Hn; cbn [andb].
  - destruct (has _ _); [exact Hid|]. rewrite Hn. exists (next_mqtt_seq_id (seq_counter s)).2.
    unfold next_seq, act, core. destruct s; cbn. unfold constant; cbn. by rewrite List.filter_app.
  - rewrite Hn. exists (next_mqtt_seq_id (seq_counter s)).2.
    unfold next_seq, act, core. destruct s; cbn. unfold constant; cbn. by rewrite List.filter_app.
Qed.

Lemma core_liveview cfg e dev json s :
  exists q, core (rescue_cloud_liveview cfg e dev json s) = (core s) {{ k_seq := q }}.
Proof.
  unfold rescue_cloud_liveview. assert (Hid : exists q, core s = (core s) {{ k_seq := q }}) by (exists (seq_counter s); by destruct s).
  destruct (_ || _); [exact Hid|]. destruct (rejected _ _ _); [|exact Hid]. destruct (default _ _); [exact Hid|].
  destruct (match om_find dev _ with Some _ => _ | None => _ end); [exact Hid|].
  exists (next_mqtt_seq_id (seq_counter s)).2. unfold next_seq, act, core. destruct s; cbn. unfold constant; cbn. by rewrite List.filter_app, app_nil_r.
Qed.

Lemma core_harvest cfg e dev json s : exists q, core (harvest cfg e dev json s) = harvested cfg dev json q (core s).
Proof.
  unfold harvest.
  set (s3 := harvest_developer_mode dev json _).
  assert (H3 : core s3 = (core s) {{ k_auth := auth_after dev json (k_auth (core s)) }} {{ k_mode := mode_after dev json (k_mode (core s)) }}).
  { subst s3. rewrite core_mode, core_flags, core_security. by destruct s. }
  clearbody s3. set (s6 := harvest_access_code e dev json _).
  assert (H6 : core s6 = core s3) by (subst s6; by rewrite core_access, core_tutk, core_media). clearbody s6.
  destruct (core_project cfg dev json s6) as [q7 H7]. set (s7 := rescue_cloud_project_file cfg dev json s6) in *. clearbody s7.
  destruct (core_liveview cfg e dev json s7) as [q8 H8]. exists q8. rewrite H8, H7.
  change (seq_counter s6) with (k_seq (core s6)). change (rescued_tasks_ s6) with (k_rescued (core s6)).
  rewrite H6, H3. by destruct (core s).
Qed.

Definition preferred (e : Env) (dev : cstr) (k : Core) : Core :=
  match dev with
  | [] => k
  | _ =>
      k {{ k_reports := om_set dev (e_now e) (k_reports k) }}
        {{ k_priority := if has dev (k_priority k) then k_priority k else om_set dev tt (k_priority k) }}
        {{ k_watchdog := k_watchdog k || negb (has dev (k_priority k)) && e_spawn e }}
  end.

Lemma core_prefer e dev s : core (maybe_prefer_lan_subscription e dev s) = preferred e dev (core s).
Proof.
  unfold maybe_prefer_lan_subscription, preferred. destruct dev as [|c dev]; [done|]. cbn [core k_priority].
  change (lan_report_priority_ (s {{ last_lan_report_ := ?v }})) with (lan_report_priority_ s).
  destruct (has _ (lan_report_priority_ s)) eqn:Hh.
  - destruct s; cbn in *. unfold core, constant; cbn. rewrite ?Hh. by rewrite orb_false_r.
  - unfold ensure_lan_watchdog_running. destruct s; cbn in *. unfold core, constant; cbn. rewrite ?Hh.
    destruct lan_watchdog_active_0; cbn; [done|]. destruct (e_spawn e); [|done].
    unfold core, act; cbn. unfold constant; cbn. by rewrite List.filter_app, app_nil_r.
Qed.

Lemma core_local cfg hms pe e dev json s :
  exists q, core (notify_local_message cfg hms pe e dev json s) = preferred e dev (harvested cfg dev json q (core s)).
Proof.
  unfold notify_local_message. destruct (core_harvest cfg e dev json s) as [q Hq]. exists q.
  rewrite core_act_if by done. rewrite core_lines.
  match goal with |- core (?x {{ device_fw_ := _ }}) = _ => change (core x = preferred e dev (harvested cfg dev json q (core s))) end.
  by rewrite core_cover, core_prefer, Hq.
Qed.

(** The text a cloud frame is handed on as. *)
Definition forwarded cfg (json : cstr) : cstr :=
  if filter_mqtt_hms_65543 cfg then default json (default None (try_filter_hms_code json 65543)) else json.

Definition delivers cfg (e : Env) (lan : bool) (json : cstr) : bool :=
  negb (is_hidden json) && negb (lan && contains (forwarded cfg json) push_status_text) && e_on_cloud_message e.

Definition delivered cfg (e : Env) (dev json : cstr) (k : Core) : Core :=
  k {{ k_acts := k_acts k ++ if delivers cfg e (has dev (k_priority k)) json then [DeliverCloud dev (forwarded cfg json)] else [] }}.

Lemma delivered_none k : k {{ k_acts := k_acts k ++ [] }} = k.
Proof. destruct k; cbn. unfold constant. by rewrite app_nil_r. Qed.

Lemma core_cloud cfg hms pe e dev json s :
  exists q, core (on_cloud_message cfg hms pe e dev json s) = delivered cfg e dev json (harvested cfg dev json q (core s)).
Proof.
  unfold on_cloud_message. destruct (core_harvest cfg e dev json s) as [q Hq]. exists q.
  set (s1 := harvest cfg e dev json s) in *. clearbody s1. rewrite <- Hq. clear Hq s q. unfold delivered, delivers.
  destruct (is_hidden json); cbn [negb andb]; [by rewrite delivered_none|]. fold (forwarded cfg json).
  set (s2 := log_lines _ _ _ _ s1). assert (H2 : core s2 = core s1) by apply core_lines. clearbody s2. rewrite <- H2. clear H2 s1.
  set (s3 := s2 {{ cloud_connected_devs_ := _ }}). assert (H3 : core s3 = core s2) by (by destruct s2).
  clearbody s3. rewrite <- H3. clear H3 s2.
  set (s4 := if on_printer_connected_ s3 && _ then _ else s3). assert (H4 : core s4 = core s3).
  { subst s4. destruct (_ && _); [|done]. rewrite core_act by done. by destruct s3. }
  clearbody s4. rewrite <- H4. clear H4 s3. cbn [core k_priority].
  destruct (has dev _ && contains _ _); cbn [negb andb]; [by rewrite delivered_none|].
  destruct (e_on_cloud_message e); cbn [act_if]; [|by rewrite delivered_none].
  unfold act, core. destruct s4; cbn. unfold constant; cbn. by rewrite List.filter_app.
Qed.

Definition failed_back cfg (k : Core) (dev : cstr) : Core :=
  match dev with
  | [] => k
  | _ =>
      if has dev (k_priority k)
      then k {{ k_priority := om_erase dev (k_priority k) }} {{ k_acts := k_acts k ++ if block_cloud cfg then [] else [CloudSubscribe dev] }}
      else k
  end.

Lemma core_failback cfg dev s : core (lan_report_failback cfg dev s) = failed_back cfg (core s) dev.
Proof.
  unfold lan_report_failback, failed_back. destruct dev as [|c dev]; [done|]. cbn [core k_priority].
  destruct (has _ _); [|done]. destruct (block_cloud cfg); cbn [negb act_if].
  - destruct s; cbn. unfold core, constant; cbn. by rewrite app_nil_r.
  - unfold act, core. destruct s; cbn. unfold constant; cbn. by rewrite List.filter_app.
Qed.

Definition late (e : Env) (reports : list (cstr * Z)) (dev : cstr) : bool :=
  match om_find dev reports with None => true | Some t => kLanSilenceFailback <? e_now e - t end.

Definition ticked cfg (e : Env) (k : Core) : Core :=
  if k_watchdog k then foldl (failed_back cfg) k (List.filter (late e (k_reports k)) (map fst (k_priority k))) else k.

Lemma core_tick cfg e s : core (watchdog_tick cfg e s) = ticked cfg e (core s).
Proof.
  unfold watchdog_tick, ticked. cbn [core k_watchdog k_priority k_reports]. fold (core s).
  destruct (lan_watchdog_active_ s); [|done]. cbn [negb]. change (is_silent e s) with (late e (last_lan_report_ s)).
  generalize (List.filter (late e (last_lan_report_ s)) (map fst (lan_report_priority_ s))). intros l. revert s.
  induction l as [|d l IH]; intros s; [done|]. cbn [foldl]. by rewrite IH, core_autostart, core_failback.
Qed.

Lemma core_connected cfg e status dev msg s :
  core (notify_local_connected cfg e status dev msg s) = if status =? ConnectStatusOk then core s else failed_back cfg (core s) dev.
Proof.
  unfold notify_local_connected.
  set (s1 := if status =? ConnectStatusOk then _ else s). assert (H1 : core s1 = core s) by (subst s1; by destruct (status =? _)).
  clearbody s1. set (s2 := act_if _ _ s1). assert (H2 : core s2 = core s) by (subst s2; by rewrite core_act_if).
  clearbody s2. destruct (status =? _); [done|]. rewrite core_failback. by f_equal.
Qed.

(** A step, as far as the core goes; [q] is the next sequence number. *)
Definition core_after cfg (q : Z) (k : Core) (ev : Env * Event) : Core :=
  let '(e, ev) := ev in
  match ev with
  | LocalFrame dev json => preferred e dev (harvested cfg dev json q k)
  | CloudFrame dev json => delivered cfg e dev json (harvested cfg dev json q k)
  | Tick => ticked cfg e k
  | Connected status dev _ => if status =? ConnectStatusOk then k else failed_back cfg k dev
  | _ => k
  end.

Lemma core_step cfg hms pe s ev : exists q, core (step cfg hms pe s ev) = core_after cfg q (core s) ev.
Proof.
  destruct ev as [e ev]. destruct ev; cbn [step core_after].
  - apply core_local.
  - apply core_cloud.
  - exists 0. apply core_tick.
  - exists 0. apply core_connected.
  - exists 0. by rewrite core_autostart.
  - by exists 0.
  - by exists 0.
  - by exists 0.
Qed.

(** What holds of the core at first and after each step holds after a run. *)
Lemma core_run cfg hms pe seed (P : list (Env * Event) -> Core -> Prop) evs :
  P [] (core (new_agent seed)) ->
  (forall before ev q k, P before k -> ev ∈ evs -> P (before ++ [ev]) (core_after cfg q k ev)) ->
  P evs (core (run cfg hms pe (new_agent seed) evs)).
Proof.
  intros H0 Hstep. induction evs as [|ev evs IH] using rev_ind; [done|].
  unfold run. rewrite foldl_snoc. destruct (core_step cfg hms pe (run cfg hms pe (new_agent seed) evs) ev) as [q Hq].
  unfold run in Hq. rewrite Hq. apply Hstep; [|set_solver]. apply IH. intros before ev' q' k Hk Hin. apply Hstep; set_solver.
Qed.

Lemma has_set {V} d dev (x : V) m : has dev (om_set d x m) = bool_decide (d = dev) || has dev m.
Proof. unfold has. case_bool_decide as H; [subst; by rewrite om_find_set | by rewrite om_find_set_ne]. Qed.

Lemma has_erase {V} d dev (m : list (cstr * V)) : has dev (om_erase d m) = negb (bool_decide (d = dev)) && has dev m.
Proof. unfold has. case_bool_decide as H; [subst; by rewrite om_find_erase | by rewrite om_find_erase_ne]. Qed.

(** ** One printer *)

#[local] Arguments has : simpl never.
#[local] Arguments om_erase : simpl never.
#[local] Arguments om_set : simpl never.
#[local] Arguments om_find : simpl never.

(** What the agent makes of one printer, told without the other printers: that it
    has the new authorization, its mode, its last report over the LAN and whether
    those reports count, how often the cloud was asked instead, and the cloud frames
    the slicer was given. *)
Record Seen := { v_auth : bool; v_mode : option bool; v_report : option Z; v_lan : bool; v_asked : nat; v_cloud : list cstr }.

Definition unseen : Seen := {| v_auth := false; v_mode := None; v_report := None; v_lan := false; v_asked := 0; v_cloud := [] |}.

Definition heard (json : cstr) (v : Seen) : Seen :=
  v {{ v_auth := v_auth v || advertises json }} {{ v_mode := match told_mode json with Some on => Some on | None => v_mode v end }}.

Definition overdue (e : Env) (report : option Z) : bool :=
  match report with None => true | Some t => kLanSilenceFailback <? e_now e - t end.

Definition fallen cfg (v : Seen) : Seen :=
  if v_lan v then v {{ v_lan := false }} {{ v_asked := (v_asked v + if block_cloud cfg then 0 else 1)%nat }} else v.

Definition saw cfg (dev : cstr) (v : Seen) (ev : Env * Event) : Seen :=
  let '(e, ev) := ev in
  match ev with
  | LocalFrame d json => if bool_decide (d = dev) then heard json v {{ v_report := Some (e_now e) }} {{ v_lan := true }} else v
  | CloudFrame d json =>
      if bool_decide (d = dev) then heard json v {{ v_cloud := v_cloud v ++ if delivers cfg e (v_lan v) json then [forwarded cfg json] else [] }} else v
  | Tick => if overdue e (v_report v) then fallen cfg v else v
  | Connected status d _ => if bool_decide (d = dev) && negb (status =? ConnectStatusOk) then fallen cfg v else v
  | _ => v
  end.

Definition asks (dev : cstr) (a : Act) : bool := match a with CloudSubscribe d => bool_decide (d = dev) | _ => false end.
Definition cloud_text (dev : cstr) (a : Act) : list cstr := match a with DeliverCloud d json => if bool_decide (d = dev) then [json] else [] | _ => [] end.

Definition view (dev : cstr) (k : Core) : Seen :=
  {| v_auth := default false (om_find dev (k_auth k)); v_mode := om_find dev (k_mode k); v_report := om_find dev (k_reports k);
     v_lan := has dev (k_priority k); v_asked := length (List.filter (asks dev) (k_acts k)); v_cloud := flat_map (cloud_text dev) (k_acts k) |}.

Lemma view_harvested cfg dev d json q k :
  view dev (harvested cfg d json q k) = if bool_decide (d = dev) then heard json (view dev k) else view dev k.
Proof.
  unfold view, harvested. cbn [k_auth k_mode k_reports k_priority k_acts]. rewrite List.filter_app, flat_map_app.
  assert (H : forall rescued, List.filter (asks dev) (resends_after cfg d json (k_seq k) rescued) = [] /\
                              flat_map (cloud_text dev) (resends_after cfg d json (k_seq k) rescued) = []).
  { intros rescued. unfold resends_after. by destruct (to_resend json rescued) as [[task obj]|]. }
  destruct (H (k_rescued k)) as [-> ->]. rewrite !app_nil_r. unfold auth_after, mode_after, heard.
  case_bool_decide as Hd.
  - subst d. cbn. unfold constant. f_equal.
    + destruct (advertises json); [by rewrite om_find_set, orb_true_r | by rewrite orb_false_r].
    + destruct (told_mode json); [apply om_find_set | done].
  - f_equal.
    + destruct (advertises json); [by rewrite om_find_set_ne | done].
    + destruct (told_mode json); [by rewrite om_find_set_ne | done].
Qed.

Lemma view_preferred e dev d k : dev <> [] ->
  view dev (preferred e d k) =
  if bool_decide (d = dev) then (view dev k) {{ v_report := Some (e_now e) }} {{ v_lan := true }} else view dev k.
Proof.
  intros Hne. unfold preferred. destruct d as [|c d]; [rewrite bool_decide_false; congruence|].
  generalize (c :: d). clear c d. intros d. unfold view. destruct k; cbn. unfold constant; cbn.
  assert (Hh : has dev (if has d k_priority0 then k_priority0 else om_set d tt k_priority0) = bool_decide (d = dev) || has dev k_priority0).
  { destruct (has d _) eqn:Hd; [|apply has_set]. case_bool_decide as H; [by subst | done]. }
  rewrite Hh. case_bool_decide as Hd; [subst d; by rewrite om_find_set | by rewrite om_find_set_ne].
Qed.

Lemma view_delivered cfg e dev d json k :
  view dev (delivered cfg e d json k) =
  if bool_decide (d = dev)
  then (view dev k) {{ v_cloud := v_cloud (view dev k) ++ if delivers cfg e (v_lan (view dev k)) json then [forwarded cfg json] else [] }}
  else view dev k.
Proof.
  unfold delivered, view. destruct k; cbn. unfold constant; cbn. rewrite List.filter_app, flat_map_app.
  assert (H : forall b : bool, List.filter (asks dev) (if b then [DeliverCloud d (forwarded cfg json)] else []) = []) by (by intros []).
  rewrite H, app_nil_r. case_bool_decide as Hd.
  - subst d. destruct (delivers _ _ _ _); cbn; [by rewrite bool_decide_true|done].
  - assert (H2 : forall b : bool, flat_map (cloud_text dev) (if b then [DeliverCloud d (forwarded cfg json)] else []) = []).
    { intros []; cbn; [by rewrite bool_decide_false | done]. }
    by rewrite H2, app_nil_r.
Qed.

Lemma view_failed_back cfg dev d k : dev <> [] ->
  view dev (failed_back cfg k d) = if bool_decide (d = dev) then fallen cfg (view dev k) else view dev k.
Proof.
  intros Hne. unfold failed_back. destruct d as [|c d]; [rewrite bool_decide_false; congruence|].
  generalize (c :: d). clear c d. intros d. unfold fallen. case_bool_decide as Hd.
  - subst d. cbn [view v_lan]. destruct (has dev (k_priority k)) eqn:Hh; [|done].
    unfold view. destruct k; cbn in *. unfold constant; cbn. rewrite has_erase, bool_decide_true, List.filter_app, length_app, flat_map_app by done.
    destruct (block_cloud cfg); cbn; rewrite ?app_nil_r; [done|]. by rewrite bool_decide_true.
  - destruct (has d _); [|done]. unfold view. destruct k; cbn. unfold constant; cbn.
    rewrite has_erase, bool_decide_false, List.filter_app, length_app, flat_map_app by done.
    destruct (block_cloud cfg); cbn; rewrite ?app_nil_r, ?Nat.add_0_r; [done|]. by rewrite bool_decide_false, ?app_nil_r, ?Nat.add_0_r.
Qed.

Lemma fallen_twice cfg v : fallen cfg (fallen cfg v) = fallen cfg v.
Proof. unfold fallen. destruct v as [a m r [] n c]; cbn; by unfold constant. Qed.

Lemma view_all_failed cfg dev l : forall k, dev <> [] ->
  view dev (foldl (failed_back cfg) k l) = if bool_decide (dev ∈ l) then fallen cfg (view dev k) else view dev k.
Proof.
  induction l as [|d l IH]; intros k Hne; [by rewrite bool_decide_false by set_solver|].
  cbn [foldl]. rewrite IH, view_failed_back by done.
  destruct (decide (d = dev)) as [->|Hd].
  - rewrite (bool_decide_true (dev = dev)) by done. rewrite (bool_decide_true (dev ∈ dev :: l)) by (by left).
    case_bool_decide; [apply fallen_twice | done].
  - rewrite (bool_decide_false (d = dev)) by done. by rewrite (bool_decide_ext (dev ∈ d :: l) (dev ∈ l)) by (rewrite elem_of_cons; intuition congruence).
Qed.

Lemma view_ticked cfg e dev k : dev <> [] -> k_watchdog k = true \/ has dev (k_priority k) = false ->
  view dev (ticked cfg e k) = if overdue e (v_report (view dev k)) then fallen cfg (view dev k) else view dev k.
Proof.
  intros Hne Hw. unfold ticked. destruct (has dev (k_priority k)) eqn:Hh.
  - destruct Hw as [-> | [=]]. rewrite view_all_failed by done. set (l := List.filter _ _). cbn [view v_report].
    assert (Hin : dev ∈ l <-> overdue e (om_find dev (k_reports k)) = true).
    { subst l. rewrite list_elem_of_In, List.filter_In. fold (late e (k_reports k) dev). unfold late. split; [by intros [_ H]|].
      intros H. split; [|exact H]. unfold has in Hh. destruct (om_find dev (k_priority k)) as [x|] eqn:E; [|done].
      apply om_find_elem in E. apply list_elem_of_In in E. by apply (in_map fst) in E. }
    destruct (overdue _ _); [by rewrite bool_decide_true by tauto | by rewrite bool_decide_false by (intros H%Hin; done)].
  - assert (Hf : fallen cfg (view dev k) = view dev k) by (unfold fallen; cbn [view v_lan]; by rewrite Hh). rewrite Hf.
    destruct (k_watchdog k); [|by destruct (overdue _ _)]. rewrite view_all_failed by done. rewrite Hf.
    by destruct (bool_decide _), (overdue _ _).
Qed.

(** While the watchdog does not run, no printer's own reports count. *)
Definition guarded (k : Core) : Prop := k_watchdog k = true \/ forall dev, has dev (k_priority k) = false.

Lemma guarded_failed_back cfg k d : guarded k -> guarded (failed_back cfg k d).
Proof.
  unfold failed_back. intros [H|H]; destruct d as [|c d]; [by left | | by right |].
  - destruct (has _ _); [|by left]. left. by destruct k.
  - rewrite H. by right.
Qed.

Lemma guarded_all_failed cfg l k : guarded k -> guarded (foldl (failed_back cfg) k l).
Proof. revert k. induction l as [|d l IH]; intros k Hk; [done|]. by apply IH, guarded_failed_back. Qed.

Lemma guarded_after cfg q k ev : e_spawn ev.1 = true -> guarded k -> guarded (core_after cfg q k ev).
Proof.
  destruct ev as [e ev]. cbn [fst]. intros Hs Hk. destruct ev; cbn [core_after]; try exact Hk.
  - unfold preferred. destruct dev as [|c dev]; [exact Hk|]. left. cbn. rewrite Hs, andb_true_r.
    destruct Hk as [-> | Hk]; [done|]. rewrite Hk. apply orb_true_r.
  - unfold ticked. destruct (k_watchdog k); [by apply guarded_all_failed | done].
  - destruct (_ =? _); [done | by apply guarded_failed_back].
Qed.

Lemma saw_step cfg q dev k ev : dev <> [] -> guarded k -> view dev (core_after cfg q k ev) = saw cfg dev (view dev k) ev.
Proof.
  intros Hne Hk. destruct ev as [e ev]. destruct ev; cbn [core_after saw]; try done.
  - rewrite view_preferred, view_harvested by done. by case_bool_decide.
  - rewrite view_delivered, view_harvested. by case_bool_decide.
  - apply view_ticked; [done|]. destruct Hk as [Hk|Hk]; [by left | by right].
  - destruct (status =? _); [by rewrite andb_false_r|]. rewrite view_failed_back by done. rewrite andb_true_r. by case_bool_decide.
Qed.

Lemma asks_relevant dev l : List.filter (asks dev) (List.filter relevant l) = List.filter (asks dev) l.
Proof. induction l as [|a l IH]; [done|]. cbn. destruct a; cbn; rewrite ?IH; done. Qed.

Lemma cloud_relevant dev l : flat_map (cloud_text dev) (List.filter relevant l) = flat_map (cloud_text dev) l.
Proof. induction l as [|a l IH]; [done|]. cbn. destruct a; cbn; rewrite ?IH; done. Qed.

Lemma run_view cfg hms pe seed evs dev : dev <> [] -> Forall (fun ev => e_spawn ev.1 = true) evs ->
  view dev (core (run cfg hms pe (new_agent seed) evs)) = foldl (saw cfg dev) unseen evs.
Proof.
  intros Hne Hs. enough (H : guarded (core (run cfg hms pe (new_agent seed) evs)) /\ view dev (core (run cfg hms pe (new_agent seed) evs)) = foldl (saw cfg dev) unseen evs) by apply H.
  apply (core_run cfg hms pe seed (fun before k => guarded k /\ view dev k = foldl (saw cfg dev) unseen before)).
  - split; [by right | done].
  - intros before ev q k [Hk Hv] Hin. rewrite Forall_forall in Hs. split; [by apply guarded_after; [apply Hs|]|].
    rewrite saw_step by done. rewrite foldl_snoc. by rewrite Hv.
Qed.

(** C8: what the agent makes of a printer is a function of what happens to that
    printer alone, over any sequence of frames, watchdog rounds and connection
    changes of any printers, as long as threads start. A printer has the new
    authorization once a frame of its said so, and for good; it is in the mode its
    last frame told, and without one in Developer Mode exactly when the signing
    material is missing. Its reports over the LAN count from the first one until a
    round finds the last more than six seconds old or its connection fails; each such
    time the cloud is asked once for its reports, unless the cloud is blocked. The slicer
    gets the cloud frames of the printer in order, less the rejected commands and,
    while the LAN reports count, the status reports. *)
Theorem printer_followed cfg hms pe seed evs dev (e : Env) :
  dev <> [] -> Forall (fun ev => e_spawn ev.1 = true) evs ->
  let s := run cfg hms pe (new_agent seed) evs in
  let v := foldl (saw cfg dev) unseen evs in
  printer_supports_new_auth dev s = v_auth v /\
  developer_mode_effective e dev s = default (negb (e_key e && e_cert e)) (v_mode v) /\
  lan_report_priority_active dev s = v_lan v /\
  is_silent e s dev = overdue e (v_report v) /\
  length (List.filter (asks dev) (acts s)) = v_asked v /\
  flat_map (cloud_text dev) (acts s) = v_cloud v.
Proof.
  intros Hne Hs s v. pose proof (run_view cfg hms pe seed evs dev Hne Hs) as H. fold s v in H. rewrite <- H.
  unfold view; cbn [v_auth v_mode v_report v_lan v_asked v_cloud core k_acts]. rewrite asks_relevant, cloud_relevant.
  by split_and!.
Qed.

(** ** Commands sent again *)

Definition resend_of (a : Act) : list (cstr * cstr * cstr) := match a with ResendPrint dev task json => [(dev, task, json)] | _ => [] end.
Definition resent (l : list Act) : list (cstr * cstr * cstr) := flat_map resend_of l.
Definition times_resent (task : cstr) (l : list Act) : nat := length (List.filter (fun r => bool_decide (r.1.2 = task)) (resent l)).

Lemma resent_app l l' : resent (l ++ l') = resent l ++ resent l'.
Proof. apply flat_map_app. Qed.

Lemma resent_relevant l : resent (List.filter relevant l) = resent l.
Proof. unfold resent. induction l as [|a l IH]; [done|]. destruct a; cbn; rewrite ?IH; done. Qed.

(** What a step sends again, and for which tasks that is noted. *)
Definition frame_of (ev : Event) : option (cstr * cstr) :=
  match ev with LocalFrame dev json | CloudFrame dev json => Some (dev, json) | _ => None end.

Lemma failed_back_resent cfg k d : resent (k_acts (failed_back cfg k d)) = resent (k_acts k) /\ k_rescued (failed_back cfg k d) = k_rescued k.
Proof.
  unfold failed_back. destruct d as [|c d]; [done|]. destruct (has _ _); [|done]. cbn. split; [|done].
  unfold constant. rewrite resent_app. destruct (block_cloud cfg); apply app_nil_r.
Qed.

Lemma all_failed_resent cfg l k :
  resent (k_acts (foldl (failed_back cfg) k l)) = resent (k_acts k) /\ k_rescued (foldl (failed_back cfg) k l) = k_rescued k.
Proof.
  revert k. induction l as [|d l IH]; intros k; [done|]. cbn [foldl]. destruct (IH (failed_back cfg k d)) as [-> ->].
  apply failed_back_resent.
Qed.

Lemma step_resent cfg q k ev :
  resent (k_acts (core_after cfg q k ev)) =
    resent (k_acts k) ++ match frame_of ev.2 with Some (dev, json) => resent (resends_after cfg dev json (k_seq k) (k_rescued k)) | None => [] end /\
  k_rescued (core_after cfg q k ev) = match frame_of ev.2 with Some (_, json) => rescued_after json (k_rescued k) | None => k_rescued k end.
Proof.
  destruct ev as [e ev]. destruct ev; cbn [core_after frame_of snd]; rewrite ?app_nil_r; try done.
  - unfold preferred. destruct dev; cbn; unfold constant; by rewrite resent_app.
  - unfold delivered. cbn. unfold constant. rewrite !resent_app. split; [|done].
    destruct (delivers _ _ _ _); cbn; by rewrite app_nil_r.
  - unfold ticked. destruct (k_watchdog k); [apply all_failed_resent | done].
  - destruct (_ =? _); [done | apply failed_back_resent].
Qed.

(** A task that is noted was sent again, once. *)
Definition once (k : Core) : Prop :=
  forall task, nonempty task = true -> times_resent task (k_acts k) = if has task (k_rescued k) then 1%nat else 0%nat.

Lemma once_after cfg q k ev : once k -> once (core_after cfg q k ev).
Proof.
  intros Hk task Ht. unfold times_resent. destruct (step_resent cfg q k ev) as [-> ->].
  destruct (frame_of ev.2) as [[dev json]|]; [|rewrite app_nil_r; by apply Hk].
  specialize (Hk task Ht). unfold times_resent in Hk. rewrite List.filter_app, length_app, Hk. unfold resends_after, rescued_after, to_resend.
  destruct (rejected_print json) as [obj|]; [|apply Nat.add_0_r].
  destruct (nonempty (task_of obj)) eqn:Hn; cbn [andb].
  - destruct (has (task_of obj) (k_rescued k)) eqn:Hh; [apply Nat.add_0_r|]. cbn. rewrite Hn, has_set.
    case_bool_decide as H; [subst task; by rewrite Hh | apply Nat.add_0_r].
  - cbn. rewrite Hn. case_bool_decide as H; [congruence | apply Nat.add_0_r].
Qed.

(** The text of a command sent again. *)
Lemma again_fields cfg obj seq :
  om_find (str "err_code") (again cfg obj seq) = None /\
  om_find (str "sequence_id") (again cfg obj seq) = Some (seq_json_value cfg seq) /\
  forall key, key <> str "err_code" -> key <> str "sequence_id" -> om_find key (again cfg obj seq) = om_find key obj.
Proof.
  unfold again. split_and!.
  - rewrite om_find_set_ne by done. apply om_find_erase.
  - apply om_find_set.
  - intros key H1 H2. by rewrite om_find_set_ne, om_find_erase_ne.
Qed.

Lemma print_members json obj command : rejected "print"%string command json = Some obj -> numbers_ok (Object obj) = true ->
  ascending obj /\ Forall member_fine obj.
Proof.
  unfold rejected. destruct (parse json) as [v rest| |] eqn:Hp; [|done..]. apply parse_bounded in Hp as [Hs Hd].
  change (str "print"%string) with (render [Key (str "print"%string)]). rewrite find_walk by (repeat constructor; done).
  cbn [foldl walk1]. destruct v as [| | | | |o]; try done. generalize (str "print"%string). intros key.
  destruct (om_find key o) as [x|] eqn:Ho; [|done]. unfold default, id. destruct x as [| | | | |obj']; try done.
  intros Hr. case_match; [|done]. apply Some_inj in Hr. subst obj'. by eapply inner_members.
Qed.

Lemma seq_fine cfg v : member_fine (str "sequence_id", seq_json_value cfg (next_mqtt_seq_id v).1).
Proof.
  unfold member_fine, seq_json_value. cbn [snd next_mqtt_seq_id fst]. destruct (exp_numeric_sequence_id cfg); [|split_and!; [done|done|cbn; lia]].
  split_and!; [done | | cbn; lia]. cbn [numbers_ok]. apply number_ok_int. unfold seq_number. pose proof (Z.mod_pos_bound v 10000).
  rewrite undec_dec by lia. lia.
Qed.

Lemma members_dump_reads root (ms : list (cstr * Value)) : ascending ms -> Forall member_fine ms ->
  parse (dump (Object [(root, Object ms)])) = Ok (Object [(root, Object ms)]) [].
Proof.
  intros Ha Hm. destruct (fine_object ms Ha Hm) as (Hs & Hn & Hd). apply parse_of_dump.
  - split; [repeat constructor | by split].
  - cbn [vdepth map list_max fold_right snd] in *. lia.
  - cbn [numbers_ok forallb snd] in *. by rewrite Hn.
Qed.

Lemma resend_text_reads cfg json obj v : rejected_print json = Some obj -> numbers_ok (Object obj) = true ->
  parse (resend_text cfg "print"%string obj (next_mqtt_seq_id v).1) = Ok (Object [(str "print"%string, Object (again cfg obj (next_mqtt_seq_id v).1))]) [].
Proof.
  unfold rejected_print. destruct (_ && _); [|done]. intros Hr Hn. destruct (print_members _ _ _ Hr Hn) as [Ha Hm].
  apply members_dump_reads; unfold again.
  - by apply ascending_set, ascending_filter.
  - apply Forall_om_set; [apply seq_fine|]. unfold om_erase. rewrite Forall_forall in Hm |- *.
    intros kv [_ Hin]%list_elem_of_filter. by apply Hm.
Qed.

Lemma rejected_hidden json obj : rejected_print json = Some obj -> is_hidden json = true.
Proof. unfold rejected_print, is_hidden. destruct (contains json (escape (str "project_file"))), (contains json (str "84033543")); done. Qed.

Lemma run_once cfg hms pe seed evs : once (core (run cfg hms pe (new_agent seed) evs)).
Proof. apply (core_run cfg hms pe seed (fun _ k => once k)); [done|]. intros _ ev q k Hk _. by apply once_after. Qed.

Lemma frame_resent cfg hms pe s e ev dev json : frame_of ev = Some (dev, json) ->
  resent (acts (step cfg hms pe s (e, ev))) = resent (acts s) ++ resent (resends_after cfg dev json (seq_counter s) (rescued_tasks_ s)) /\
  rescued_tasks_ (step cfg hms pe s (e, ev)) = rescued_after json (rescued_tasks_ s).
Proof.
  intros Hev. destruct (core_step cfg hms pe s (e, ev)) as [q Hq]. destruct (step_resent cfg q (core s) (e, ev)) as [H1 H2].
  rewrite <- Hq in H1, H2. cbn [snd core k_acts k_rescued k_seq] in H1, H2. rewrite Hev in H1, H2. by rewrite !resent_relevant in H1.
Qed.

Lemma hidden_not_delivered cfg hms pe s e dev json d : is_hidden json = true ->
  flat_map (cloud_text d) (acts (step cfg hms pe s (e, CloudFrame dev json))) = flat_map (cloud_text d) (acts s).
Proof.
  intros Hh. destruct (core_step cfg hms pe s (e, CloudFrame dev json)) as [q Hq]. cbn [core_after] in Hq.
  apply (f_equal (view d)) in Hq. rewrite view_delivered, view_harvested in Hq. unfold delivers in Hq. rewrite Hh in Hq. cbn [negb andb] in Hq.
  apply (f_equal v_cloud) in Hq. rewrite <- (cloud_relevant d (acts s)), <- (cloud_relevant d (acts (step _ _ _ _ _))).
  unfold view at 1 in Hq. cbn [v_cloud core k_acts] in Hq. rewrite Hq. case_bool_decide; [|done]. cbn. by rewrite app_nil_r.
Qed.

(** C7: when a printer refuses a print command for its missing signature, whether
    the LAN or the cloud tells, the agent sends the same command again: all its
    fields but the error, under a new sequence number, as JSON that reads back. Over any
    run a named task is sent again at most once, and exactly when it is noted; the slicer
    is not given the cloud's refusal. *)
Theorem rejected_print_resent cfg hms pe seed evs (e : Env) dev json obj :
  let s := run cfg hms pe (new_agent seed) evs in
  let seq := (next_mqtt_seq_id (seq_counter s)).1 in
  let text := resend_text cfg "print"%string obj seq in
  let task := task_of obj in
  rejected_print json = Some obj ->
  (forall task, nonempty task = true -> times_resent task (acts s) = if has task (rescued_tasks_ s) then 1%nat else 0%nat) /\
  Forall (fun ev =>
    let s' := step cfg hms pe s (e, ev) in
    if nonempty task && has task (rescued_tasks_ s)
    then resent (acts s') = resent (acts s)
    else resent (acts s') = resent (acts s) ++ [(dev, task, text)] /\ (nonempty task = true -> has task (rescued_tasks_ s') = true))
    [LocalFrame dev json; CloudFrame dev json] /\
  (numbers_ok (Object obj) = true -> parse text = Ok (Object [(str "print", Object (again cfg obj seq))]) []) /\
  (om_find (str "err_code") (again cfg obj seq) = None /\ om_find (str "sequence_id") (again cfg obj seq) = Some (seq_json_value cfg seq) /\
   forall key, key <> str "err_code" -> key <> str "sequence_id" -> om_find key (again cfg obj seq) = om_find key obj) /\
  (forall d, flat_map (cloud_text d) (acts (step cfg hms pe s (e, CloudFrame dev json))) = flat_map (cloud_text d) (acts s)).
Proof.
  intros s seq text task Hr. split_and!; [| | by apply (resend_text_reads _ json) | apply again_fields.. | intros d; by eapply hidden_not_delivered, rejected_hidden].
  - intros t Ht. unfold times_resent. rewrite <- resent_relevant. by apply (run_once cfg hms pe seed evs).
  - assert (H : forall ev, frame_of ev = Some (dev, json) ->
      if nonempty task && has task (rescued_tasks_ s) then resent (acts (step cfg hms pe s (e, ev))) = resent (acts s)
      else resent (acts (step cfg hms pe s (e, ev))) = resent (acts s) ++ [(dev, task, text)] /\
           (nonempty task = true -> has task (rescued_tasks_ (step cfg hms pe s (e, ev))) = true)).
    { intros ev Hev. destruct (frame_resent cfg hms pe s e ev dev json Hev) as [-> ->].
      unfold resends_after, rescued_after, to_resend. rewrite Hr. fold task.
      destruct (nonempty task && has task (rescued_tasks_ s)); [apply app_nil_r|]. split; [done|].
      intros ->. by rewrite has_set, bool_decide_true. }
    repeat constructor; by apply H.
Qed.

(** ** On concrete frames *)

Definition demo_settings : Settings := default_settings {{ block_cloud := false }}.

Definition demo_env (now : Z) : Env :=
  {| e_now := now * second; e_key := true; e_cert := true; e_consistent := true; e_config_dir := str "/cfg"; e_stored := true;
     e_on_disk := fun _ => false; e_spawn := true; e_server := true; e_on_message := true; e_on_cloud_message := true;
     e_on_local_message := true; e_on_local_connect := true |}.

Definition demo_json (members : list (cstr * Value)) : cstr := dump (Object [(str "print", Object members)]).

(** A refused print, as the printer reports it. *)
Definition demo_rejection (task : cstr) : cstr :=
  demo_json [(str "command", String (str "project_file")); (str "err_code", Number (of_int kRejected));
             (str "task_id", String task); (str "url", String (str "https://host/a.3mf"))].

(** A status report in Developer Mode of a printer with the new authorization. *)
Definition demo_status : cstr :=
  demo_json [(str "command", String (str "push_status")); (str "flag3", Number (of_int 65536)); (str "fun", String (str "1"))].

Definition demo_events : list (Env * Event) :=
  [(demo_env 1, CloudFrame (str "A") demo_status); (demo_env 2, LocalFrame (str "A") demo_status);
   (demo_env 3, CloudFrame (str "A") demo_status); (demo_env 4, CloudFrame (str "A") (demo_rejection (str "7")));
   (demo_env 5, LocalFrame (str "B") demo_status); (demo_env 7, Tick); (demo_env 10, Tick); (demo_env 10, Tick)].

Lemma printer_followed_witness :
  let s := run demo_settings [] [] (new_agent 5) demo_events in
  let v := foldl (saw demo_settings (str "A")) unseen demo_events in
  (v_auth v = true /\ v_mode v = Some true /\ v_lan v = false /\ v_asked v = 1%nat /\ v_cloud v = [demo_status]) /\
  printer_supports_new_auth (str "A") s = v_auth v /\
  developer_mode_effective (demo_env 0) (str "A") s = default (negb true) (v_mode v) /\
  lan_report_priority_active (str "A") s = v_lan v /\
  is_silent (demo_env 0) s (str "A") = overdue (demo_env 0) (v_report v) /\
  length (List.filter (asks (str "A")) (acts s)) = v_asked v /\
  flat_map (cloud_text (str "A")) (acts s) = v_cloud v.
Proof.
  split; [by vm_compute|]. apply (printer_followed demo_settings [] [] 5 demo_events (str "A") (demo_env 0)); [done|].
  repeat constructor.
Defined.

Definition demo_obj : list (cstr * Value) :=
  [(str "command", String (str "project_file")); (str "err_code", Number (of_int kRejected));
   (str "task_id", String (str "8")); (str "url", String (str "https://host/a.3mf"))].

Lemma rejected_print_resent_witness :
  let s := run demo_settings [] [] (new_agent 5) demo_events in
  rejected_print (demo_rejection (str "8")) = Some demo_obj /\ has (str "8") (rescued_tasks_ s) = false /\ numbers_ok (Object demo_obj) = true /\
  parse (resend_text demo_settings "print"%string demo_obj (str "20006")) =
    Ok (Object [(str "print", Object (again demo_settings demo_obj (str "20006")))]) [].
Proof.
  split_and!; [by vm_compute.. |].
  apply (rejected_print_resent demo_settings [] [] 5 demo_events (demo_env 0) (str "A") (demo_rejection (str "8")) demo_obj); by vm_compute.
Defined.

(** A refused command without a task is sent again each time it is refused. *)
Example unnamed_task_again :
  let refused := (demo_env 1, CloudFrame (str "A") (demo_rejection [])) in
  length (resent (acts (run demo_settings [] [] (new_agent 5) [refused; refused; refused]))) = 3%nat.
Proof. by vm_compute. Qed.

(** A refusal whose code is a string is kept from the slicer and not sent again. *)
Example string_code_lost :
  let json := demo_json [(str "command", String (str "project_file")); (str "err_code", String (str "84033543")); (str "task_id", String (str "7"))] in
  let s := run demo_settings [] [] (new_agent 5) [(demo_env 1, CloudFrame (str "A") json)] in
  resent (acts s) = [] /\ flat_map (cloud_text (str "A")) (acts s) = [].
Proof. by vm_compute. Qed.

(** If the watchdog could not start with the first report, later reports do not
    start it: the printer keeps its priority in silence. *)
Example watchdog_not_retried :
  let no_thread := {| e_now := 0; e_key := true; e_cert := true; e_consistent := true; e_config_dir := []; e_stored := true;
                      e_on_disk := fun _ => false; e_spawn := false; e_server := true; e_on_message := true; e_on_cloud_message := true;
                      e_on_local_message := true; e_on_local_connect := true |} in
  let s := run demo_settings [] [] (new_agent 5)
    [(no_thread, LocalFrame (str "A") demo_status); (demo_env 1, LocalFrame (str "A") demo_status); (demo_env 99, Tick)] in
  lan_watchdog_active_ s = false /\ lan_report_priority_active (str "A") s = true.
Proof. by vm_compute. Qed.
