(* ===== verification/Signing.v ===== *)
(** Signed commands, [src/signing.cpp]: which messages are signed, the fields that
    are encrypted for the printer, and the envelope with its header. OpenSSL's RSA
    is an argument: a signature of bytes, and the encryption of a block. The base64 of
    this file is that of [Rtsp]. *)

From S2P Require Import Prelude OMap Text Double Json JsonText Rtsp Tunnel Firmware.

#[local] Delimit Scope string_scope with string.

(** A printer's public key: the size of its blocks, and the encryption of the
    [i]-th block of a message, whose padding is random. *)
Record PubKey := { key_bytes : Z; encrypt : nat -> cstr -> option cstr }.

(** The signing key, as its signatures of bytes, and the id of its certificate. *)
Record Signer := { sign : cstr -> cstr; slicer_cert_id : cstr }.

(** ** Which messages are signed *)

Definition root_of (key payload : cstr) : cstr :=
  if bool_decide (key = str "print") then key
  else if bool_decide (key = str "liveview") && contains payload (escape (str "prepare")) then key else [].

Definition signable_root_key (payload : cstr) : cstr :=
  match skip_ws payload with
  | c :: p =>
      if negb (beq c (zb 123)) then []
      else
        match skip_ws p with
        | q :: p =>
            if negb (beq q quote) then []
            else match span (fun c => negb (beq c quote)) p with (key, _ :: _) => root_of key payload | (_, []) => [] end
        | [] => []
        end
  | [] => []
  end.

Definition needs_signing_key (payload : cstr) : bool := nonempty (signable_root_key payload).
Definition would_sign (key : option Signer) (payload : cstr) : bool :=
  nonempty (signable_root_key payload) && match key with Some _ => true | None => false end.

(** ** Encrypted fields *)

Definition encrypted_field_for (obj : list (cstr * Value)) : option cstr :=
  match om_find (str "command") obj with
  | Some (String c) =>
      if bool_decide (c = str "project_file") then Some (str "url")
      else if bool_decide (c = str "gcode_line") then Some (str "param")
      else if bool_decide (c = str "prepare") then Some (str "ttcode") else None
  | _ => None
  end.

(** The loop over the chunks; an empty text is a chunk too. *)
Fixpoint encrypt_chunks (key : PubKey) (fuel i : nat) (text : cstr) : option cstr :=
  match fuel with
  | O => None
  | S fuel =>
      let max_chunk := Z.to_nat (key_bytes key - 11) in
      match encrypt key i (take max_chunk text) with
      | None => None
      | Some block =>
          match drop max_chunk text with
          | [] => Some block
          | remaining => option_map (app block) (encrypt_chunks key fuel (S i) remaining)
          end
      end
  end.

Definition rsa_pkcs1v15_encrypt_b64 (key : PubKey) (text : cstr) : cstr :=
  if key_bytes key <=? 11 then []
  else match encrypt_chunks key (S (length text)) 0 text with Some out => base64_encode out | None => [] end.

Definition enc_key (field : cstr) : cstr := field ++ str "_enc".

Definition encrypt_print_fields (obj : list (cstr * Value)) (device_pub : option PubKey) (developer_mode : bool) : list (cstr * Value) :=
  match encrypted_field_for obj with
  | None => obj
  | Some field =>
      match om_find field obj, om_find (enc_key field) obj, device_pub with
      | Some (String text), None, Some key =>
          match rsa_pkcs1v15_encrypt_b64 key text with
          | [] => obj
          | enc =>
              let obj := om_set (enc_key field) (String enc) obj in
              if developer_mode then obj else om_erase field obj
          end
      | _, _, _ => obj
      end
  end.

(** Empty when the message has no such object. *)
Definition build_command_dump (root_key payload : cstr) (device_pub : option PubKey) (developer_mode : bool) : cstr :=
  match parse payload with
  | Ok root _ =>
      match find root root_key with
      | Object obj => dump (Object (encrypt_print_fields obj device_pub developer_mode))
      | _ => []
      end
  | _ => []
  end.

(** ** The envelope *)

Definition json_str_escape (s : cstr) : cstr :=
  concat ((fun c => if beq c backslash || beq c quote then [backslash; c] else [c]) <$> s).

Definition kSignAlg : cstr := str "RSA_SHA256".
Definition kSignVer : cstr := str "v1.0".

Definition q (s : String.string) : cstr := [quote] ++ str s ++ [quote].
#[local] Arguments q s%_string_scope.

Definition build_envelope (cert_id to_sign sig_b64 root_key body : cstr) : cstr :=
  [zb 123] ++ q "header" ++ [colon; zb 123] ++ q "cert_id" ++ [colon; quote] ++ json_str_escape cert_id ++
  [quote; comma] ++ q "payload_len" ++ [colon] ++ dec (zlen to_sign) ++
  [comma] ++ q "sign_alg" ++ [colon; quote] ++ kSignAlg ++
  [quote; comma] ++ q "sign_string" ++ [colon; quote] ++ json_str_escape sig_b64 ++
  [quote; comma] ++ q "sign_ver" ++ [colon; quote] ++ kSignVer ++ [quote; zb 125; comma; quote] ++ root_key ++ [quote; colon] ++
  body ++ [zb 125].

Definition siblings (root_key : cstr) (o : list (cstr * Value)) : cstr :=
  concat (map (fun kv => [comma] ++ dump (String kv.1) ++ [colon] ++ dump kv.2)
              (List.filter (fun kv => negb (bool_decide (kv.1 = root_key))) o)).

Definition signed_text (root_key body : cstr) : cstr := [zb 123; quote] ++ root_key ++ [quote; colon] ++ body ++ [zb 125].

Definition maybe_sign (payload : cstr) (signer : option Signer) (device_pub : option PubKey) (developer_mode : bool) : cstr :=
  let root_key := signable_root_key payload in
  if negb (nonempty root_key) then payload
  else
    match signer with
    | None => payload
    | Some k =>
        match build_command_dump root_key payload device_pub developer_mode with
        | [] => payload
        | d =>
            let sibs := match parse payload with Ok (Object o) _ => siblings root_key o | _ => [] end in
            let body := d ++ sibs in
            let to_sign := signed_text root_key body in
            build_envelope (slicer_cert_id k) to_sign (base64_encode (sign k to_sign)) root_key body
        end
    end.

(** ** What is signed *)

(** The object a signed message carries, and the envelope's header. *)
Definition others (root_key : cstr) (o : list (cstr * Value)) : list (cstr * Value) :=
  List.filter (fun kv => negb (bool_decide (kv.1 = root_key))) o.

Definition header_members (cert_id to_sign sig_b64 : cstr) : list (cstr * Value) :=
  [(str "cert_id", String cert_id); (str "payload_len", Number (of_int (zlen to_sign))); (str "sign_alg", String kSignAlg);
   (str "sign_string", String sig_b64); (str "sign_ver", String kSignVer)].

(** Text that is the same however it is escaped. *)
Definition printable (s : cstr) : Prop := Forall (fun c => 32 <= bz c) s.

Lemma escape_printable s : printable s -> escape s = [quote] ++ json_str_escape s ++ [quote].
Proof.
  intros H. unfold escape, json_str_escape. enough (E : escape_char <$> s = (fun c => if beq c backslash || beq c quote then [backslash; c] else [c]) <$> s) by (by rewrite E).
  induction H as [|c s Hc _ IH]; [done|].
  rewrite !fmap_cons. f_equal; [|exact IH]. unfold escape_char.
  destruct (beq_spec c quote) as [->|Hq]; [done|]. destruct (beq_spec c backslash) as [->|Hb]; [done|]. cbn [orb].
  repeat (match goal with |- context [beq c ?x] => destruct (beq_spec c x) as [->|?]; [exfalso; revert Hc; vm_compute; congruence|] end).
  by rewrite (proj2 (Z.ltb_ge _ _)).
Qed.

Lemma b64_printable d : printable (base64_encode d).
Proof.
  eapply Forall_impl; [apply base64_encode_text|]. intros c Hc.
  pose proof (byte_forall (fun c => negb (b64_text c) || (32 <=? bz c)) ltac:(vm_compute; reflexivity) c) as H. cbv beta in H.
  rewrite Hc in H. cbn [negb orb] in H. by apply Z.leb_le.
Qed.

Lemma join_comma x (l : list cstr) : join (x :: l) = x ++ concat (map (app [comma]) l).
Proof. revert x. induction l as [|y l IH]; intros x; [by rewrite app_nil_r|].
  cbn [map concat]. rewrite <- app_assoc, <- IH. done.
Qed.

Lemma signable_roots payload root : signable_root_key payload = root -> root <> [] -> root = str "print" \/ root = str "liveview".
Proof.
  intros <- Hne. revert Hne. unfold signable_root_key. destruct (skip_ws payload) as [|c p]; [done|]. destruct (negb _); [done|].
  destruct (skip_ws p) as [|q0 p']; [done|]. destruct (negb _); [done|]. destruct (span _ p') as [key [|r rest]]; [done|].
  unfold root_of. case_bool_decide; [by left|]. destruct (bool_decide _) eqn:E; [|done]. apply bool_decide_eq_true in E.
  cbn [andb]. destruct (contains _ _); [by right | done].
Qed.

Section root.
Context (root : cstr) (Hroot : root = str "print" \/ root = str "liveview").

Lemma root_escape : escape root = [quote] ++ root ++ [quote].
Proof. by destruct Hroot as [-> | ->]. Qed.

Lemma root_find o : find (Object o) root = default Null (om_find root o).
Proof.
  replace root with (Json.render [Json.Key root]) at 1 by (cbn; by rewrite !app_nil_r). rewrite find_walk; [done|].
  repeat constructor; destruct Hroot as [-> | ->]; try done; repeat constructor.
Qed.

Lemma siblings_text o : concat (map (app [comma]) (map member_text (others root o))) = siblings root o.
Proof. by rewrite map_map. Qed.

Lemma signed_is_object v o : signed_text root (dump v ++ siblings root o) = Json.object_text ((root, v) :: others root o).
Proof.
  unfold signed_text, Json.object_text. cbn [map]. rewrite join_comma, siblings_text. unfold member_text. cbn [fst snd].
  rewrite root_escape. generalize (siblings root o), (dump v). intros a b. by do 9 (rewrite <- ?app_assoc; cbn [app]).
Qed.

(** The text of the header. *)
Lemma header_text cert_id to_sign sig : printable cert_id -> printable sig -> zlen to_sign < 2 ^ 53 ->
  dump (Object (header_members cert_id to_sign sig)) =
  [zb 123] ++ q "cert_id" ++ [colon; quote] ++ json_str_escape cert_id ++ [quote; comma] ++ q "payload_len" ++ [colon] ++ dec (zlen to_sign) ++
  [comma] ++ q "sign_alg" ++ [colon; quote] ++ kSignAlg ++ [quote; comma] ++ q "sign_string" ++ [colon; quote] ++ json_str_escape sig ++
  [quote; comma] ++ q "sign_ver" ++ [colon; quote] ++ kSignVer ++ [quote; zb 125].
Proof.
  intros Hc Hs Hl. rewrite Tunnel.object_text. unfold header_members, member_text. cbn [map join fst snd dump].
  rewrite dump_int by (unfold zlen in *; lia). rewrite (escape_printable cert_id), (escape_printable sig) by done.
  change (escape (str "cert_id")) with (q "cert_id"). change (escape (str "payload_len")) with (q "payload_len").
  change (escape (str "sign_alg")) with (q "sign_alg"). change (escape (str "sign_string")) with (q "sign_string").
  change (escape (str "sign_ver")) with (q "sign_ver"). change (escape kSignAlg) with ([quote] ++ kSignAlg ++ [quote]).
  change (escape kSignVer) with ([quote] ++ kSignVer ++ [quote]).
  generalize (q "cert_id"), (q "payload_len"), (q "sign_alg"), (q "sign_string"), (q "sign_ver"), kSignAlg, kSignVer,
    (json_str_escape cert_id), (json_str_escape sig), (dec (zlen to_sign)).
  intros a1 a2 a3 a4 a5 a6 a7 a8 a9 n. by do 40 (rewrite <- ?app_assoc; cbn [app]).
Qed.

Lemma envelope_is_object cert_id to_sign sig v o :
  printable cert_id -> printable sig -> zlen to_sign < 2 ^ 53 ->
  build_envelope cert_id to_sign sig root (dump v ++ siblings root o) =
  Json.object_text ((str "header", Object (header_members cert_id to_sign sig)) :: (root, v) :: others root o).
Proof.
  intros Hc Hs Hl. unfold Json.object_text. cbn [map]. rewrite join_comma. cbn [map concat]. rewrite siblings_text.
  unfold member_text. cbn [fst snd]. rewrite header_text, root_escape by done. change (escape (str "header")) with (q "header").
  unfold build_envelope. generalize (q "header"), (q "cert_id"), (q "payload_len"), (q "sign_alg"), (q "sign_string"), (q "sign_ver"), kSignAlg, kSignVer,
    (json_str_escape cert_id), (json_str_escape sig), (dec (zlen to_sign)), (siblings root o), (dump v).
  intros a0 a1 a2 a3 a4 a5 a6 a7 a8 a9 n b d. by do 60 (rewrite <- ?app_assoc; cbn [app]).
Qed.
End root.

(** ** Encryption *)

(** What OpenSSL documents of RSA with PKCS#1 v1.5 padding: a text that leaves room
    for the padding becomes a block of the key's size, and the private key opens it. *)
Definition opened_by (key : PubKey) (open : cstr -> option cstr) : Prop :=
  forall i p, zlen p <= key_bytes key - 11 -> exists c, encrypt key i p = Some c /\ zlen c = key_bytes key /\ open c = Some p.

(** The printer opens one block after the other. *)
Fixpoint open_blocks (size : nat) (open : cstr -> option cstr) (fuel : nat) (c : cstr) : option cstr :=
  match fuel with
  | O => None
  | S fuel =>
      match open (take size c) with
      | None => None
      | Some p =>
          match drop size c with
          | [] => Some p
          | rest => option_map (app p) (open_blocks size open fuel rest)
          end
      end
  end.

Definition decrypt (size : Z) (open : cstr -> option cstr) (c : cstr) : option cstr := open_blocks (Z.to_nat size) open (length c) c.

Lemma chunks_open key open : opened_by key open -> 11 < key_bytes key ->
  forall fuel i text, (length text < fuel)%nat ->
  exists c, encrypt_chunks key fuel i text = Some c /\ (0 < length c)%nat /\
    forall fuel', (length c <= fuel')%nat -> open_blocks (Z.to_nat (key_bytes key)) open fuel' c = Some text.
Proof.
  intros Hk Hb. induction fuel as [|fuel IH]; intros i text Hl; [lia|]. cbn [encrypt_chunks].
  set (m := Z.to_nat (key_bytes key - 11)).
  destruct (Hk i (take m text)) as (b & Hb1 & Hb2 & Hb3); [unfold zlen; rewrite length_take; lia|]. rewrite Hb1.
  unfold zlen in Hb2. destruct (drop m text) as [|x rest] eqn:Ed.
  - exists b. split_and!; [done | lia |]. intros [|fuel'] Hf; [lia|]. cbn [open_blocks].
    rewrite take_ge, drop_ge, Hb3 by lia. f_equal. rewrite <- (take_drop m text) at 2. by rewrite Ed, app_nil_r.
  - destruct (IH (S i) (x :: rest)) as (c & Hc & Hlc & Ho).
    { rewrite <- Ed, length_drop. destruct text; [by rewrite drop_nil in Ed | simpl in *; lia]. }
    exists (b ++ c). rewrite Hc. split_and!; [done | rewrite length_app; lia |]. intros [|fuel'] Hf; rewrite length_app in Hf; [lia|].
    cbn [open_blocks]. rewrite take_app_length', drop_app_length', Hb3 by lia. destruct c as [|y c]; [simpl in *; lia|].
    rewrite Ho by lia. cbn. f_equal. rewrite <- (take_drop m text) at 2. by rewrite Ed.
Qed.

Lemma encrypt_opens key open text : opened_by key open -> 11 < key_bytes key ->
  exists c, rsa_pkcs1v15_encrypt_b64 key text = base64_encode c /\ c <> [] /\ decrypt (key_bytes key) open c = Some text.
Proof.
  intros Hk Hb. unfold rsa_pkcs1v15_encrypt_b64. rewrite (proj2 (Z.leb_gt _ _)) by lia.
  destruct (chunks_open key open Hk Hb (S (length text)) 0 text) as (c & -> & Hl & Ho); [lia|].
  exists c. split_and!; [done | by destruct c; [simpl in *; lia|] | by apply Ho].
Qed.

(** What the object of a command becomes is built from what it was. *)
Lemma encrypted_cases obj key dm :
  encrypt_print_fields obj key dm = obj \/
  exists field enc, encrypt_print_fields obj key dm = om_set (enc_key field) (String enc) obj \/
                    encrypt_print_fields obj key dm = om_erase field (om_set (enc_key field) (String enc) obj).
Proof.
  unfold encrypt_print_fields. destruct (encrypted_field_for obj) as [field|]; [|by left].
  destruct (om_find field obj) as [[]|]; try (by left). destruct (om_find (enc_key field) obj); [by left|].
  destruct key as [key|]; [|by left]. destruct (rsa_pkcs1v15_encrypt_b64 key s) as [|c enc]; [by left|].
  right. exists field, (c :: enc). destruct dm; auto.
Qed.

Lemma encrypted_fine obj key dm : ascending obj -> Forall member_fine obj ->
  ascending (encrypt_print_fields obj key dm) /\ Forall member_fine (encrypt_print_fields obj key dm).
Proof.
  intros Ha Hm. destruct (encrypted_cases obj key dm) as [-> | (field & enc & H)]; [done|].
  assert (Ha' : ascending (om_set (enc_key field) (String enc) obj)) by (by apply ascending_set).
  assert (Hm' : Forall member_fine (om_set (enc_key field) (String enc) obj)).
  { apply Forall_om_set; [|done]. unfold member_fine. cbn. split_and!; [done..|lia]. }
  destruct H as [-> | ->]; [done|]. split; [by apply ascending_filter|]. unfold om_erase. rewrite Forall_forall in Hm' |- *.
  intros kv [_ Hin]%list_elem_of_filter. by apply Hm'.
Qed.

Lemma command_field obj field : encrypted_field_for obj = Some field -> field = str "url" \/ field = str "param" \/ field = str "ttcode".
Proof.
  unfold encrypted_field_for. destruct (om_find _ obj) as [[]|]; try done. repeat case_bool_decide; intros [= <-]; auto.
Qed.

(** C6: on a printer whose key is known, the field of a command that is a secret (the
    address of a print, a line of G-code, the code of a live view) is sent encrypted:
    the printer's private key opens it, block by block, to the text it was. The
    clear text is left out, except in Developer Mode; everything else in the command
    stays. *)
Theorem secret_encrypted obj field text key open (dm : bool) :
  encrypted_field_for obj = Some field -> om_find field obj = Some (String text) -> om_find (enc_key field) obj = None ->
  opened_by key open -> 11 < key_bytes key ->
  let sent := encrypt_print_fields obj (Some key) dm in
  (exists enc c, om_find (enc_key field) sent = Some (String enc) /\ base64_decode enc = Some c /\ decrypt (key_bytes key) open c = Some text) /\
  om_find field sent = (if dm then Some (String text) else None) /\
  forall k, k <> field -> k <> enc_key field -> om_find k sent = om_find k obj.
Proof.
  intros Hf Ht He Hk Hb sent. subst sent. destruct (encrypt_opens key open text Hk Hb) as (c & Hc & Hne & Ho).
  assert (Hd : field <> enc_key field) by (destruct (command_field obj field Hf) as [-> | [-> | ->]]; done).
  unfold encrypt_print_fields. rewrite Hf, Ht, He, Hc. apply base64_encode_not_nil in Hne as Hb64.
  pose proof (base64_roundtrip c) as Hr. destruct (base64_encode c) as [|x enc]; [done|].
  assert (Hsent : exists s, om_find (enc_key field) s = Some (String (x :: enc)) /\ om_find field s = (if dm then Some (String text) else None) /\
    (forall k, k <> field -> k <> enc_key field -> om_find k s = om_find k obj) /\
    s = if dm then om_set (enc_key field) (String (x :: enc)) obj else om_erase field (om_set (enc_key field) (String (x :: enc)) obj)).
  { eexists. split_and!; [| | |reflexivity]; destruct dm; intros; rewrite ?om_find_erase, ?(om_find_erase_ne field), ?om_find_set,
      ?(om_find_set_ne (enc_key field)) by congruence; done. }
  destruct Hsent as (s & H1 & H2 & H3 & <-). split_and!; [|done..]. exists (x :: enc), c. done.
Qed.

(** ** Signatures *)

Lemma others_erase root o : others root o = om_erase root o.
Proof.
  unfold others, om_erase. induction o as [|[k v] o IH]; [done|]. rewrite filter_cons. cbn [List.filter fst]. rewrite IH.
  destruct (keq root k) eqn:E.
  - apply keq_eq in E as ->. by rewrite bool_decide_true.
  - apply keq_neq in E. by rewrite bool_decide_false by congruence.
Qed.

Lemma om_set_erase root (v : Value) o : ascending o -> om_set root v (om_erase root o) = om_set root v o.
Proof.
  intros Ha. apply om_ext; [by apply ascending_set, ascending_filter | by apply ascending_set |]. intros k.
  destruct (decide (root = k)) as [<-|Hk]; [by rewrite !om_find_set|]. by rewrite !om_find_set_ne, om_find_erase_ne.
Qed.

(** The members of a document with one object replaced, in the order they are sent. *)
Lemma sent_members o root obj obj' : sorted (Object o) -> (vdepth (Object o) <= 128)%nat -> numbers_ok (Object o) = true ->
  om_find root o = Some (Object obj) -> ascending obj' -> Forall member_fine obj' ->
  Forall (fun kv => sorted kv.2 /\ numbers_ok kv.2 = true /\ (vdepth kv.2 <= 127)%nat) ((root, Object obj') :: others root o).
Proof.
  intros Hs Hd Hn Hf Ha Hm. apply Forall_cons. split; [by apply fine_object|]. apply members_below in Hs as [_ Ho].
  apply members_numbers in Hn. unfold others. rewrite Forall_forall in Ho, Hn |- *. intros kv [Hin _]%list_elem_of_In%List.filter_In.
  apply list_elem_of_In in Hin. destruct (Ho kv Hin). split_and!; [done | by apply Hn | lia].
Qed.

Lemma sent_object_reads ms : ms <> [] -> Forall (fun kv => sorted kv.2 /\ numbers_ok kv.2 = true /\ (vdepth kv.2 <= 127)%nat) ms ->
  parse (Json.object_text ms) = Ok (Object (emplace_all [] ms)) [].
Proof.
  intros Hne Hm. apply parse_member_list; [done | | |].
  - eapply Forall_impl; [exact Hm|]. by intros kv (? & _).
  - apply forallb_forall. intros kv Hin%list_elem_of_In. rewrite Forall_forall in Hm. by apply Hm.
  - eapply Forall_impl; [exact Hm|]. by intros kv (_ & _ & ?).
Qed.

Lemma header_fine cert_id to_sign sig : zlen to_sign < 2 ^ 53 ->
  sorted (Object (header_members cert_id to_sign sig)) /\ numbers_ok (Object (header_members cert_id to_sign sig)) = true /\
  (vdepth (Object (header_members cert_id to_sign sig)) <= 127)%nat.
Proof.
  intros Hl. assert (Hn : number_ok (of_int (zlen to_sign)) = true) by (apply number_ok_int; unfold zlen in *; lia).
  unfold header_members. revert Hn. generalize (of_int (zlen to_sign)). intros d Hn. split_and!.
  - cbn [sorted fold_right snd]. split; [|done]. repeat (split; [repeat (apply Forall_cons; split; [done|]); constructor|]). done.
  - cbn [numbers_ok forallb snd]. by rewrite Hn.
  - cbn. lia.
Qed.

Lemma signed_message_reads root o obj' : root <> [] -> ascending o ->
  Forall (fun kv => sorted kv.2 /\ numbers_ok kv.2 = true /\ (vdepth kv.2 <= 127)%nat) ((root, Object obj') :: others root o) ->
  parse (Json.object_text ((root, Object obj') :: others root o)) = Ok (Object (om_set root (Object obj') o)) [].
Proof.
  intros _ Ha Hm. rewrite sent_object_reads by done. do 2 f_equal.
  change (emplace_all [] ((root, Object obj') :: others root o)) with (emplace_all [(root, Object obj')] (others root o)).
  rewrite others_erase, emplace_all_set; [by apply om_set_erase | by apply ascending_filter | apply om_find_erase].
Qed.

(** A message that is signed. *)
Definition signable (payload root : cstr) (o obj : list (cstr * Value)) : Prop :=
  signable_root_key payload = root /\ root <> [] /\ parse payload = Ok (Object o) [] /\ om_find root o = Some (Object obj).

Definition text_to_sign (root : cstr) (o obj' : list (cstr * Value)) : cstr := Json.object_text ((root, Object obj') :: others root o).

Lemma maybe_sign_text payload root o obj k key dm : signable payload root o obj ->
  let to_sign := text_to_sign root o (encrypt_print_fields obj key dm) in
  maybe_sign payload (Some k) key dm =
    build_envelope (slicer_cert_id k) to_sign (base64_encode (sign k to_sign)) root
      (dump (Object (encrypt_print_fields obj key dm)) ++ siblings root o).
Proof.
  intros (Hr & Hne & Hp & Hf) to_sign. assert (Hroot : root = str "print" \/ root = str "liveview") by (by eapply signable_roots).
  unfold maybe_sign, build_command_dump. rewrite Hr, Hp, root_find, Hf by done. unfold default, id.
  assert (nonempty root = true) as -> by (by destruct root). cbn [negb].
  pose proof (signed_is_object root Hroot (Object (encrypt_print_fields obj key dm)) o) as Hs. subst to_sign. unfold text_to_sign. rewrite <- Hs.
  assert (Hd : exists x d, dump (Object (encrypt_print_fields obj key dm)) = x :: d) by (by do 2 eexists; cbn).
  destruct Hd as (x & d & ->). done.
Qed.

(** C5: a message signed for a printer is its header, then exactly the bytes that were
    signed: cutting the header out of the envelope leaves the text whose length
    and signature the header states. Envelope and signed text are JSON, and say what
    the message said, with the secret of its command encrypted; members beside the command
    are signed with it and none is lost. *)
Theorem signed_command_verifies payload root o obj k key (dm : bool) :
  signable payload root o obj -> numbers_ok (Object o) = true -> numbers_ok (Object obj) = true -> om_find (str "header") o = None ->
  printable (slicer_cert_id k) ->
  let obj' := encrypt_print_fields obj key dm in
  let to_sign := text_to_sign root o obj' in
  let out := maybe_sign payload (Some k) key dm in
  zlen to_sign < 2 ^ 53 ->
  exists header e sig,
    out = [zb 123] ++ escape (str "header") ++ [colon] ++ dump (Object header) ++ [comma] ++ drop 1 to_sign /\
    om_find (str "payload_len") header = Some (Number (of_int (zlen to_sign))) /\ om_find (str "cert_id") header = Some (String (slicer_cert_id k)) /\
    om_find (str "sign_string") header = Some (String sig) /\ base64_decode sig = Some (sign k to_sign) /\
    parse to_sign = Ok (Object (om_set root (Object obj') o)) [] /\
    parse out = Ok (Object e) [] /\ om_find (str "header") e = Some (Object header) /\
    forall key, key <> str "header" -> om_find key e = om_find key (om_set root (Object obj') o).
Proof.
  intros Hsig Hn Hno Hh Hc obj' to_sign out Hl. pose proof (maybe_sign_text payload root o obj k key dm Hsig) as Hout.
  cbv zeta in Hout. fold obj' in Hout. fold to_sign in Hout. fold out in Hout. destruct Hsig as (Hr & Hne & Hp & Hf).
  assert (Hroot : root = str "print" \/ root = str "liveview") by (by eapply signable_roots).
  apply parse_bounded in Hp as [Hs Hd]. destruct (inner_members o root obj Hs Hd Hf Hno) as [Ha Hm].
  destruct (encrypted_fine obj key dm Ha Hm) as [Ha' Hm']. fold obj' in Ha', Hm'.
  pose proof (sent_members o root obj obj' Hs Hd Hn Hf Ha' Hm') as Hms.
  rewrite envelope_is_object in Hout by (done || apply b64_printable).
  set (header := header_members (slicer_cert_id k) to_sign (base64_encode (sign k to_sign))) in *.
  assert (Hhm : Forall (fun kv => sorted kv.2 /\ numbers_ok kv.2 = true /\ (vdepth kv.2 <= 127)%nat)
                  ((str "header", Object header) :: (root, Object obj') :: others root o)).
  { apply Forall_cons. split; [by apply header_fine | exact Hms]. }
  exists header, (emplace_all [] ((str "header", Object header) :: (root, Object obj') :: others root o)), (base64_encode (sign k to_sign)).
  assert (Ho : ascending o) by apply Hs. pose proof (signed_message_reads root o obj' Hne Ho Hms) as Hread.
  split_and!; [| done | done | done | apply base64_roundtrip | exact Hread | by rewrite Hout, sent_object_reads | by rewrite find_emplace_all |].
  - rewrite Hout. unfold to_sign, text_to_sign, Json.object_text. cbn [map join]. unfold member_text at 1. cbn [fst snd].
    set (body := match map member_text (others root o) with [] => _ | _ => _ end).
    change (drop 1 ([zb 123] ++ body ++ [zb 125])) with (body ++ [zb 125]).
    generalize (escape (str "header")), (dump (Object header)), body. intros a b c. by do 9 (rewrite <- ?app_assoc; cbn [app]).
  - intros j Hj. rewrite find_emplace_all. cbn [first_member om_find fst snd].
    assert (keq j (str "header") = false) as -> by (by apply keq_neq).
    unfold text_to_sign in *. rewrite sent_object_reads in Hread by done.
    assert (He : emplace_all [] ((root, Object obj') :: others root o) = om_set root (Object obj') o) by congruence.
    rewrite <- He, find_emplace_all. done.
Qed.

(** ** On a concrete command *)

(** A key of 16 byte blocks: the length of the text, the text, zeros. *)
Definition demo_key : PubKey :=
  {| key_bytes := 16; encrypt := fun _ p => if (length p <=? 5)%nat then Some (zb (zlen p) :: p ++ replicate (15 - length p) x00) else None |}.

Definition demo_open (c : cstr) : option cstr := match c with n :: p => Some (take (Z.to_nat (bz n)) p) | [] => None end.

Lemma demo_key_opened : opened_by demo_key demo_open.
Proof.
  intros i p Hp. unfold zlen in Hp. cbn in Hp. exists (zb (zlen p) :: p ++ replicate (15 - length p) x00). cbn.
  rewrite (proj2 (Nat.leb_le _ _)) by lia. split_and!; [done | unfold zlen; cbn; rewrite length_app, length_replicate; lia |].
  rewrite bz_zb. unfold zlen. rewrite Z.mod_small, Nat2Z.id, take_app_length by lia. done.
Qed.

Definition demo_signer : Signer := {| sign := fun text => [zb (zlen text); x01]; slicer_cert_id := str "00abCN=BBL" |}.

Definition demo_command : list (cstr * Value) :=
  [(str "command", String (str "project_file")); (str "param", String (str "Metadata/plate_1.gcode")); (str "url", String (str "https://h/a.3mf"))].

Definition demo_message : list (cstr * Value) := [(str "print", Object demo_command); (str "user_id", String (str "7"))].

Lemma secret_encrypted_witness :
  let sent := encrypt_print_fields demo_command (Some demo_key) false in
  opened_by demo_key demo_open /\
  (exists enc c, om_find (str "url_enc") sent = Some (String enc) /\ base64_decode enc = Some c /\ decrypt 16 demo_open c = Some (str "https://h/a.3mf")) /\
  om_find (str "url") sent = None /\ om_find (str "param") sent = Some (String (str "Metadata/plate_1.gcode")).
Proof.
  destruct (secret_encrypted demo_command (str "url") (str "https://h/a.3mf") demo_key demo_open false) as (H1 & H2 & H3);
    [reflexivity.. | apply demo_key_opened | reflexivity |]. split_and!; [apply demo_key_opened | exact H1 | exact H2 |].
  rewrite H3 by done. reflexivity.
Defined.

Lemma signed_command_verifies_witness :
  let to_sign := text_to_sign (str "print") demo_message (encrypt_print_fields demo_command (Some demo_key) false) in
  zlen to_sign = 160 /\
  exists header e sig,
    maybe_sign (dump (Object demo_message)) (Some demo_signer) (Some demo_key) false =
      [zb 123] ++ escape (str "header") ++ [colon] ++ dump (Object header) ++ [comma] ++ drop 1 to_sign /\
    om_find (str "payload_len") header = Some (Number (of_int (zlen to_sign))) /\ om_find (str "cert_id") header = Some (String (str "00abCN=BBL")) /\
    om_find (str "sign_string") header = Some (String sig) /\ base64_decode sig = Some (sign demo_signer to_sign) /\
    parse to_sign = Ok (Object (om_set (str "print") (Object (encrypt_print_fields demo_command (Some demo_key) false)) demo_message)) [] /\
    parse (maybe_sign (dump (Object demo_message)) (Some demo_signer) (Some demo_key) false) = Ok (Object e) [] /\
    om_find (str "header") e = Some (Object header) /\
    forall key, key <> str "header" ->
      om_find key e = om_find key (om_set (str "print") (Object (encrypt_print_fields demo_command (Some demo_key) false)) demo_message).
Proof.
  split; [by vm_compute|].
  apply (signed_command_verifies (dump (Object demo_message)) (str "print") demo_message demo_command demo_signer (Some demo_key) false).
  - unfold signable. split_and!; [by vm_compute | done | by vm_compute | by vm_compute].
  - by vm_compute.
  - by vm_compute.
  - by vm_compute.
  - unfold printable. cbn. repeat (apply Forall_cons; split; [by vm_compute|]). constructor.
  - by vm_compute.
Defined.

(** A live view command of another kind is signed too when the word it looks for
    stands anywhere in the message. *)
Example other_liveview_signed :
  signable_root_key (dump (Object [(str "liveview", Object [(str "command", String (str "stop")); (str "note", String (str "prepare"))])])) = str "liveview".
Proof. by vm_compute. Qed.
